(* ===== verification/_CoqProject ===== *)
-Q . S2P
Prelude.v
Dbl.v
Interner.v
Decimal.v
Kgh.v
PrimeTable.v
HashStream.v
Md5.v
Sha256.v
Utf8.v
Json.v
JsonScan.v
JsonRoundtrip.v
PyInt.v
Snapshot.v
MatchState.v
MatchStateSpec.v
FinalPass.v
SessionData.v
Consumer.v
ConsumerLoops.v
FinalPassSpec.v
Unmatched.v
TextDiff.v
TextLines.v
LongestMatch.v
MatchingBlocks.v
UnifiedDiff.v
PatchDiffHook.v
PyBig.v
PyDecimal.v
RoundNearest.v
DblRound.v
PyDecimalSpec.v
PyFloat.v
PyRepr.v
PyValues.v
PyJson.v
RoundSeven.v
SideTables.v
FunctionTable.v
Ingest.v
IngestSpec.v
PreparedText.v
PreparedTextSpec.v
RatioEngine.v
RatioCache.v
RatioSpec.v
RatioHistory.v
SessionSpec.v
RatioSamples.v
Samples.v
StageSql.v
Sql.v
EarlyStages.v
TierStages.v
LoopStages.v
Preflight.v
Pipeline.v
SourcesSpec.v
StagesSpec.v
PipelineSpec.v
ResumeSpec.v
PreflightSpec.v
LoopSpec.v
BlindSpec.v
EngineSpec.v
StageSamples.v
Cfg.v
CfgDecode.v
CfgScan.v
CfgBuild.v
CfgUnionSpec.v
CfgSccInv.v
CfgSccSpec.v
CfgEdgesSpec.v
CfgScanSpec.v
CfgBlocksSpec.v
CfgSpec.v
CfgTheorems.v
