(* ===== verification/Prelude.v ===== *)
(** * DSigMatcher Native: a verification library

    DSigMatcher Native compares two databases of exported functions and lists
    which function of the first is which function of the second. It is a C++
    port of a Python tool, and its contract is to give what the Python code
    gives, bit for bit: the same matches in the same order, the same ratios,
    the same refusals. This library is a shallow embedding of the parts of the
    port that compute; a file of the library stands beside the source file it
    models and reads like it. Paths below are relative to the repository, with
    diff/ for src/src/diff/ and its headers in src/include/dsigmatcher/diff/.

    ** How the program works

    An export database is read once ([Ingest]) into a table of columns; the
    addresses and names are interned ([Interner]). The pipeline ([Pipeline])
    checks the two exports ([Preflight]) and runs the stages in order
    ([EarlyStages], [TierStages]), then repeats the stages that look around known
    matches ([LoopStages]) until a round finds nothing new. A stage runs queries
    ([StageSql], [Sql]) and hands each row to a consumer ([Consumer]). The consumer
    asks the ratio engine how alike the two functions are ([RatioEngine]), asks the
    match state whether a better match is known, and enters the pair ([MatchState]).
    The final pass ([FinalPass]) cleans the state and chooses the results; then the
    functions without a match are listed ([Unmatched]). After each step a
    checkpoint is offered from which the run can go on. The exporter side
    builds a control-flow graph for each function ([Cfg] and its siblings), and
    hashes its shape ([Kgh]).

    ** Files and sources

    Shared: [Prelude] (texts as lists of bytes, machine integers, the error
    monad, tactics, hints), [Dbl] (binary64 numbers), [DblRound] and
    [RoundNearest] (what its operations compute), [Decimal] (std::to_string and
    std::from_chars).

    - Interning and columns. [Interner]: diff/Interner.h, the text columns of
      diff/Table.h. [FunctionTable]: the rest of diff/Table.h. [Utf8]: IsValidUtf8 of
      diff/Ingest.cpp and AppendUtf8 of diff/Json.cpp.
    - Ingest. [SideTables]: diff/Database.cpp, diff/SideTables.cpp. [Ingest],
      [IngestSpec]: diff/Ingest.cpp.
    - Ratios. [RoundSeven], [PreparedText], [RatioEngine]: diff/Ratio.cpp in
      three parts, the rounding, the prepared line multisets, the engine with
      its cache. [PreparedTextSpec], [RatioCache], [RatioSpec], [RatioHistory]
      prove them.
    - Matches. [MatchState], [MatchStateSpec]: diff/MatchState.cpp.
      [Consumer], [ConsumerLoops]: diff/Consumer.cpp. [FinalPass],
      [FinalPassSpec]: diff/FinalPass.cpp. [Unmatched]: diff/Unmatched.cpp.
      [PyInt]: diff/StateDetail.h. [Snapshot]: diff/Snapshot.h and the ratio
      texts of diff/Snapshot.cpp.
    - The run. [SessionData]: the data of a session in diff/Pipeline.cpp,
      diff/Config.h, diff/Pipeline.h and diff/stages/EarlyPasses.h. [StageSql]:
      diff/StageSql.inc, diff/RegistrySql.inc, diff/Registry.cpp, the query texts
      and heuristics as data. [Sql]: the statements of diff/Database.cpp and the
      row source of diff/Consumer.cpp. [EarlyStages]: EqualMatches.cpp,
      DirtyHeuristics.cpp, SameName.cpp, RemainingFunctions.cpp of diff/stages/ and
      the harness (Point, Cleanup). [TierStages]: HeuristicTiers.cpp and
      SmallDifferences.cpp. [LoopStages]: CalleeDiffing.cpp, RelatedConstants.cpp,
      RelatedCompilationUnit.cpp, LocalAffinity.cpp. [Preflight]: Preflight.cpp.
      [Pipeline]: diff/Pipeline.cpp and diff/Checkpoint.h. [SessionSpec],
      [SourcesSpec] and [StagesSpec] show that consumers, row sources and stages
      keep a session well formed; [PipelineSpec] that the run does and ends;
      [ResumeSpec] which part of it a checkpoint leaves to do and [BlindSpec] that
      sessions that agree on what decisions read stay so, over any engine;
      [EngineSpec] that the ratio engine with the patch-diff hook is such an engine,
      and with it the theorems about the program. [LoopSpec] and [PreflightSpec]
      prove the replayed product and the numbers.
    - Text comparison. [TextDiff] with [TextLines], [LongestMatch],
      [MatchingBlocks], [UnifiedDiff]: diff/TextDiff.cpp, the port
      of difflib. [PatchDiffHook]: diff/stages/PatchDiffHook.cpp.
    - Python values. [PyBig], [PyDecimal], [PyFloat], [PyRepr], [PyValues],
      [PyJson]: diff/PyValue.cpp from its big integers up to json.loads;
      each file ends with its proofs, [PyDecimalSpec] has those of [PyDecimal].
    - JSON. [Json] with [JsonScan], [JsonRoundtrip]: diff/Json.cpp.
    - Hashes. [Kgh]: src/src/KghHash.cpp. [PrimeTable]:
      src/src/PrimeTable.cpp. [HashStream], [Md5], [Sha256]: src/src/Md5.cpp and
      src/src/Sha256.cpp.
    - Control-flow graphs. [Cfg], [CfgDecode], [CfgScan], [CfgBuild]:
      src/src/ControlFlowGraph.cpp and src/src/DisassemblerZydis.cpp in the order
      of the source; [Cfg] ends with the relations of the specifications. The
      files ending in Spec and [CfgSccInv] hold the proofs, [CfgTheorems] the
      theorems.
    - [RatioSamples], [Samples], [StageSamples] and the end of [CfgTheorems]:
      concrete exports, sessions, connections and decoders on which the theorems
      with hypotheses are applied.

    ** Conventions

    A definition has the name of the C++ function it translates; a loop has a
    name of its own and a comment with its head. State is passed: the record of
    a component is the object of the class. An exception is the [Throw] of an
    outcome next to the state at that point, so that what was written before a
    throw is kept ([Prelude]). A C++ [double] is a [spec_float]; a text is its
    list of bytes; an unsigned integer is a [Z] kept below its width by [w8] to
    [w64] where the code could leave it. A [std::unordered_map] or Python dict
    whose order matters is an association list, otherwise a [gmap]. Interfaces
    between components are type classes: [Engine] and [RowSource] in [Consumer],
    [Sqlite] in [Sql], [EngineSetup] in [Pipeline], and [EngineOk], what a session
    promises and asks of its engine, in [SessionSpec];
    the decoder of a graph is the record [DisassemblerBackend].

    ** Groups of theorems

    - State invariants: every operation of the match state, the consumers and
      the final pass keeps [wf] (interned texts, no NaN, exact occurrence
      counts, no repeated key), whatever raises.
    - The run: from a well-formed session every stage and the whole pipeline keep
      it well formed on every way out, as long as the names SQLite answers in
      candidate rows are names of functions of the exports ([QueriesNamed]); the loop
      ends; a run resumed from any of its checkpoints ends as the whole run does,
      whatever the engine had prepared, computed lazily or traced. The first two are
      proved over the interface [EngineOk] and the last over [EngineBlind];
      [EngineSpec] discharges both for the program's own engine.
    - Refinement of the Python code: [AddMatch] on plain lists and dicts; the
      ratio engine, for every sequence of calls, on one dict keyed by text; the
      two caches, the prepared columns and the lazy slots are invisible.
    - Numbers: decimal texts are read to the nearest double, [repr] is the
      shortest text that reads back, seven decimals are exact decimal rounding,
      ratios stay between 0 and 1.
    - Texts: the longest match, the opcodes and the unified diff do what difflib
      promises; JSON values survive writing and reading; UTF-8 is recognised
      exactly.
    - Graphs: the blocks partition what they cover, edges are the control
      transfers, component numbers are the strongly connected components, the
      complexity is E - N + 2P, for every decoder.
    - Termination: every function is total. A loop that is not structural takes
      fuel, and a theorem says that the fuel given never ends.

    ** Bounds and fuel

    - JSON parsers: fuel is the length of the text plus one; each round consumes
      a byte. Nesting is bounded by the limits of the code (512).
    - [GetMatchingBlocks]: the work list shrinks the total area of its ranges.
    - [AddMatchesInternal]: one unit per row of the source; a source that is
      read from SQLite is a finite list of rows.
    - Decimal conversions: loops over limbs take the number of limbs; texts are
      at most 10^7 bytes long, so that exponents stay far inside int64 and are
      plain integers in the model.
    - The convergence loop: every round but the last finds one more match, and
      the match state holds at most one for each pair of names, so as many rounds
      as there are pairs, and three more, are enough ([enough_rounds]).
    - Graphs: the scanner visits an offset of the range at most once for each
      leader; Tarjan takes a round for each node and each edge; a path to a root
      is no longer than the sum of the ranks.

    ** What is a parameter

    SQLite is not part of the source: a connection is what it answers to a query
    text ([SideTables], [Unmatched]), in the run the class [Sqlite]: the outcome of
    preparing a text with its bound values. The decoder library Zydis is a parameter
    of [CfgDecode]. Files are the chunks a reader returned. Nothing is assumed
    of them beyond what the hypotheses of a theorem name.

    ** What is left out

    - The test seam [g_Mutations] of diff/Ratio.cpp is zero in production; the
      branch for an md_index source other than the two sides cannot be reached.
    - A row index or column index past the end is undefined behaviour in the
      source; the model raises [index_past_end] or [column_past_end], and the
      theorems on well-formed tables show it is never reached.
    - Row numbers are natural numbers; a table has fewer than 2^32 rows.
    - The caches inside SequenceMatcher recompute in the model what the source
      remembers.
    - The run: log lines, the timing scopes, the counters of CalleeDiffingStats, the
      memo of query plans and the test seam that reorders constants. None of them
      changes a match. DescribeSqlDataTouched of HeuristicTiers.cpp fills a
      diagnostic record from the text of a query.
    - RunDiff and RunReplay of diff/Pipeline.cpp, the files of checkpoints and
      traces (diff/Snapshot.cpp, diff/Trace.cpp) and the results database
      (diff/ResultsWriter.cpp): a checkpoint is the session at that step, not its
      file.
    - The exporter's readers and writers: src/src/PeImage.cpp,
      src/src/Provenance.cpp, and the command line with its bridge, ports and
      updates: files, processes, networking and the registry. *)

From stdpp Require Import base gmap sets list strings numbers sorting.
From Stdlib Require String.
From Stdlib Require Import ZArith Lia.
From Stdlib Require Export Strings.Byte.
Export String.StringSyntax.

(** ** Texts

    A [std::string] or [std::string_view] is a list of bytes. *)

Abbreviation text := (list byte).

(** [B "..."] is the text of a C++ string literal (ASCII in all uses). *)
Definition B (s : string) : text := String.list_byte_of_string s.
Arguments B s%_string_scope.

#[export] Instance byte_eq_dec : EqDecision byte := Byte.byte_eq_dec.

#[export] Program Instance byte_countable : Countable byte :=
  inj_countable Byte.to_N Byte.of_N _.
Next Obligation. intros b. apply Byte.of_to_N. Qed.

(** The numeric value of a byte ([static_cast<unsigned char>]) and the
    conversion back ([static_cast<char>] of a value below 256). *)
Definition code (b : byte) : Z := Z.of_N (Byte.to_N b).
Definition byte_of_code (z : Z) : byte :=
  match Byte.of_N (Z.to_N (z mod 256)) with Some b => b | None => x00 end.

Lemma code_bounds (b : byte) : (0 <= code b < 256)%Z.
Proof. unfold code. pose proof (Byte.to_N_bounded b). lia. Qed.

Lemma byte_of_code_code (b : byte) : byte_of_code (code b) = b.
Proof.
  unfold byte_of_code. pose proof (code_bounds b) as Hb.
  rewrite Z.mod_small by lia. unfold code.
  rewrite N2Z.id, Byte.of_to_N. done.
Qed.

Lemma code_inj (a b : byte) : code a = code b -> a = b.
Proof. intros H. rewrite <- (byte_of_code_code a), H. apply byte_of_code_code. Qed.

Lemma code_byte_of_code (z : Z) : (0 <= z < 256)%Z -> code (byte_of_code z) = z.
Proof.
  intros Hz. unfold byte_of_code, code. rewrite Z.mod_small by lia.
  destruct (Byte.of_N (Z.to_N z)) as [b|] eqn:E.
  - apply Byte.to_of_N in E. rewrite E. lia.
  - apply Byte.of_N_None_iff in E. lia.
Qed.

(** ** Machine integers: unsigned values are kept modulo their width. *)

Definition w8 (z : Z) : Z := (z mod 2 ^ 8)%Z.
Definition w16 (z : Z) : Z := (z mod 2 ^ 16)%Z.
Definition w32 (z : Z) : Z := (z mod 2 ^ 32)%Z.
Definition w64 (z : Z) : Z := (z mod 2 ^ 64)%Z.

Lemma w32_small (z : Z) : (0 <= z < 2 ^ 32)%Z -> w32 z = z.
Proof. apply Z.mod_small. Qed.
Lemma w64_small (z : Z) : (0 <= z < 2 ^ 64)%Z -> w64 z = z.
Proof. apply Z.mod_small. Qed.
Lemma w32_bounds (z : Z) : (0 <= w32 z < 2 ^ 32)%Z.
Proof. apply Z.mod_pos_bound. lia. Qed.
Lemma w64_bounds (z : Z) : (0 <= w64 z < 2 ^ 64)%Z.
Proof. apply Z.mod_pos_bound. lia. Qed.

(** A shifted number and the bits below it. *)
Lemma lor_add (k x n : Z) : 
  (0 <= n)%Z -> (0 <= x < 2 ^ n)%Z -> Z.lor (Z.shiftl k n) x = (k * 2 ^ n + x)%Z.
Proof.
  intros Hn Hx. destruct (Z.eq_dec x 0) as [->|Hx0].
  { rewrite Z.lor_0_r, Z.shiftl_mul_pow2 by done. lia. }
  rewrite <- Z.shiftl_mul_pow2 by done.
  rewrite <- Z.lxor_lor, Z.add_nocarry_lxor; [done| |];
    apply Z.bits_inj_0; intros i; rewrite Z.land_spec;
    (destruct (Z.ltb_spec i n); [by rewrite Z.shiftl_spec_low by lia|]);
    rewrite (Z.bits_above_log2 x i), andb_false_r; try done; try lia;
    (apply Z.log2_lt_pow2; [lia|]);
    (eapply Z.lt_le_trans; [apply Hx|apply Z.pow_le_mono_r; lia]).
Qed.

(** ** Exceptions (include/dsigmatcher/diff/Errors.h)

    [DiaphoraWouldRaise] is the only class the engine catches; the other
    classes end the run. [CxxException] stands for an exception of the C++
    standard library (for instance [std::out_of_range] of [at]). *)

Inductive exn : Type :=
| DiaphoraWouldRaise (Site Detail : text)
| UnsupportedInput (What : text)
| IoFailure (What : text)
| UsageRefused (What : text)
| CxxException (What : text).

#[export] Instance exn_eq_dec : EqDecision exn.
Proof. solve_decision. Defined.

(** The result of code that can throw. *)
Inductive res (A : Type) : Type :=
| Ok (a : A)
| Throw (e : exn).
Arguments Ok {A} a.
Arguments Throw {A} e.

#[export] Instance res_ret : MRet res := fun A a => Ok a.
#[export] Instance res_bind : MBind res :=
  fun A B f m => match m with Ok a => f a | Throw e => Throw e end.

(** Stateful code that can throw: the state reached when the exception
    leaves the function is kept, as it is in C++. *)
Definition M (S A : Type) : Type := S -> S * res A.

#[export] Instance M_ret {S} : MRet (M S) := fun A a s => (s, Ok a).
#[export] Instance M_bind {S} : MBind (M S) :=
  fun A B f m s =>
    match m s with
    | (s', Ok a) => f a s'
    | (s', Throw e) => (s', Throw e)
    end.

Definition throw {S A} (e : exn) : M S A := fun s => (s, Throw e).
Definition get {S} : M S S := fun s => (s, Ok s).
Definition put {S} (s : S) : M S unit := fun _ => (s, Ok tt).
Definition modify {S} (f : S -> S) : M S unit := fun s => (f s, Ok tt).
Definition liftR {S A} (r : res A) : M S A := fun s => (s, r).

(** The result, respectively the final state, of a stateful computation. *)
Definition run_res {S A} (m : M S A) (s : S) : res A := (m s).2.
Definition run_st {S A} (m : M S A) (s : S) : S := (m s).1.

Lemma M_bind_ok {S A C} (m : M S A) (f : A -> M S C) (s s' : S) (a : A) :
  m s = (s', Ok a) -> (m ≫= f) s = f a s'.
Proof. intros H. unfold mbind, M_bind. by rewrite H. Qed.

Lemma M_bind_throw {S A C} (m : M S A) (f : A -> M S C) (s s' : S) (e : exn) :
  m s = (s', Throw e) -> (m ≫= f) s = (s', Throw e).
Proof. intros H. unfold mbind, M_bind. by rewrite H. Qed.

(** ** Case analysis on the conditions of the code *)

Ltac case_match_goal :=
  match goal with
  | |- context [match ?x with _ => _ end] => destruct x eqn:?
  | |- context [if ?x then _ else _] => destruct x eqn:?
  end.

Ltac bool_props :=
  repeat match goal with
  | H : _ && _ = true |- _ => apply andb_true_iff in H; destruct H
  | H : _ || _ = false |- _ => apply orb_false_iff in H; destruct H
  | H : negb _ = true |- _ => apply negb_true_iff in H
  | H : negb _ = false |- _ => apply negb_false_iff in H
  | H : bool_decide _ = true |- _ => apply bool_decide_eq_true in H
  | H : bool_decide _ = false |- _ => apply bool_decide_eq_false in H
  | H : (_ =? _)%Z = true |- _ => apply Z.eqb_eq in H
  | H : (_ =? _)%Z = false |- _ => apply Z.eqb_neq in H
  | H : (_ <=? _)%Z = true |- _ => apply Z.leb_le in H
  | H : (_ <=? _)%Z = false |- _ => apply Z.leb_gt in H
  | H : (_ <? _)%Z = true |- _ => apply Z.ltb_lt in H
  | H : (_ <? _)%Z = false |- _ => apply Z.ltb_ge in H
  | H : (_ =? _)%nat = true |- _ => apply Nat.eqb_eq in H
  | H : (_ =? _)%nat = false |- _ => apply Nat.eqb_neq in H
  | H : (_ <=? _)%nat = true |- _ => apply Nat.leb_le in H
  | H : (_ <=? _)%nat = false |- _ => apply Nat.leb_gt in H
  | H : (_ <? _)%nat = true |- _ => apply Nat.ltb_lt in H
  | H : (_ <? _)%nat = false |- _ => apply Nat.ltb_ge in H
  end.

(** ** Stable sorting ([std::stable_sort] with a strict order)

    [lt x y] says that [x] must come before [y]. *)

Section StableSort.
Context {A : Type} (lt : A -> A -> bool).

Fixpoint stable_insert (x : A) (l : list A) : list A :=
  match l with
  | [] => [x]
  | y :: l' => if lt y x then y :: stable_insert x l' else x :: y :: l'
  end.

Definition stable_sort (l : list A) : list A := foldr stable_insert [] l.

(** Elements the order does not separate. *)
Definition tied (x y : A) : bool := negb (lt x y) && negb (lt y x).

(** No element is placed after one it must precede. *)
Definition in_order (l : list A) : Prop :=
  StronglySorted (fun x y => lt y x = false) l.

Lemma stable_insert_perm (x : A) (l : list A) : stable_insert x l ≡ₚ x :: l.
Proof.
  induction l as [|y l IH]; simpl; [done|].
  destruct (lt y x); [|done]. rewrite IH. apply Permutation_swap.
Qed.

Lemma stable_sort_perm (l : list A) : stable_sort l ≡ₚ l.
Proof.
  induction l as [|x l IH]; simpl; [done|].
  by rewrite stable_insert_perm, IH.
Qed.

Lemma elem_of_stable_sort (x : A) (l : list A) : x ∈ stable_sort l <-> x ∈ l.
Proof. by rewrite stable_sort_perm. Qed.

Lemma length_stable_sort (l : list A) : length (stable_sort l) = length l.
Proof. by rewrite stable_sort_perm. Qed.

(** The strict weak order [std::stable_sort] requires, on a carrier [P]. *)
Class StrictWeak (P : A -> Prop) : Prop := {
  sw_irrefl x : P x -> lt x x = false;
  sw_trans x y z : P x -> P y -> P z ->
    lt x y = true -> lt y z = true -> lt x z = true;
  sw_neg_trans x y z : P x -> P y -> P z ->
    lt x y = false -> lt y z = false -> lt x z = false;
}.

Context {P : A -> Prop} `{!StrictWeak P}.

Lemma sw_asym x y : P x -> P y -> lt x y = true -> lt y x = false.
Proof.
  intros Hx Hy H. destruct (lt y x) eqn:E; [|done].
  pose proof (sw_trans x y x Hx Hy Hx H E) as C.
  by rewrite (sw_irrefl x Hx) in C.
Qed.

Lemma stable_insert_in_order (x : A) (l : list A) :
  P x -> Forall P l -> in_order l -> in_order (stable_insert x l).
Proof.
  intros Hx Hl. induction 1 as [|y l Hs IH Hall]; simpl.
  { repeat constructor. }
  inversion Hl as [|? ? Hy Hl']; subst.
  destruct (lt y x) eqn:E.
  - constructor; [by apply IH|].
    rewrite stable_insert_perm. constructor; [by apply sw_asym|done].
  - constructor; [by constructor|]. constructor; [done|].
    rewrite Forall_forall in Hall, Hl' |- *. intros z Hz.
    eapply (sw_neg_trans z y x); eauto.
Qed.

Lemma stable_sort_in_order (l : list A) :
  Forall P l -> in_order (stable_sort l).
Proof.
  induction 1 as [|x l Hx Hl IH]; simpl; [constructor|].
  apply stable_insert_in_order; [done| |done].
  by rewrite stable_sort_perm.
Qed.

(** Tied elements keep their relative order. *)
Lemma stable_insert_filter (z x : A) (l : list A) :
  P z -> P x -> Forall P l ->
  filter (fun y => tied y z = true) (stable_insert x l)
  = filter (fun y => tied y z = true) (x :: l).
Proof.
  intros Hz Hx. induction 1 as [|y l Hy Hl IH]; simpl; [done|].
  destruct (lt y x) eqn:E; [|done].
  rewrite filter_cons, IH, !filter_cons.
  repeat case_decide; try done.
  unfold tied in *. bool_props. exfalso.
  pose proof (sw_neg_trans y z x) as C. rewrite C in E; done.
Qed.

Lemma stable_sort_filter (z : A) (l : list A) :
  P z -> Forall P l ->
  filter (fun y => tied y z = true) (stable_sort l)
  = filter (fun y => tied y z = true) l.
Proof.
  intros Hz. induction 1 as [|x l Hx Hl IH]; [done|].
  change (stable_sort (x :: l)) with (stable_insert x (stable_sort l)).
  rewrite stable_insert_filter; [|done|done|by rewrite stable_sort_perm].
  rewrite !filter_cons, IH. done.
Qed.

(** A list already in order is left alone, so sorting is idempotent. *)
Lemma stable_sort_id (l : list A) : in_order l -> stable_sort l = l.
Proof.
  induction 1 as [|x l Hs IH Hall]; simpl; [done|]. rewrite IH.
  destruct l as [|y l]; [done|]. simpl. inversion Hall as [|? ? E]; subst.
  by rewrite E.
Qed.
End StableSort.

Lemma in_order_sublist {A} (lt : A -> A -> bool) (l k : list A) :
  sublist l k -> in_order lt k -> in_order lt l.
Proof.
  induction 1 as [|x l k Hs IH|x l k Hs IH]; intros Hk; inversion Hk; subst.
  - constructor.
  - constructor; [by apply IH|].
    rewrite Forall_forall in *. eauto using elem_of_sublist.
  - by apply IH.
Qed.

(** ** Hint database of the development *)
Create HintDb dsig.
#[export] Hint Resolve code_bounds w32_bounds w64_bounds : dsig.

(** A separator that occurs in neither half determines the halves. *)
Lemma split_at_unique {A} (x : A) (a b a' b' : list A) :
  x ∉ a -> x ∉ a' -> a ++ x :: b = a' ++ x :: b' -> a = a' /\ b = b'.
Proof.
  revert a'. induction a as [|y a IH]; intros [|y' a'] Ha Ha' H; simplify_list_eq.
  - done.
  - exfalso. apply Ha'. by left.
  - exfalso. apply Ha. by left.
  - destruct (IH a') as [-> ->]; [|  |done|done].
    + intros C. apply Ha. by right.
    + intros C. apply Ha'. by right.
Qed.
