(* ===== verification/Dbl.v ===== *)
(** * IEEE 754 binary64 numbers

    The engine keeps match ratios in C++ [double]s and compares them exactly.
    A double is a [spec_float] of the Standard Library (sign, mantissa,
    exponent, zeros, infinities and NaN); the operations below are those of
    the C++ operators at precision 53 and maximal exponent 1024, rounding to
    nearest even. The order lemmas are stated for numbers that are not NaN,
    and the bit pattern functions are those of src/src/diff/Snapshot.cpp. *)

From stdpp Require Import base list numbers.
From Stdlib Require Import ZArith Lia SpecFloat.
From S2P Require Import Prelude.

#[local] Open Scope Z_scope.

Abbreviation dbl := spec_float.

#[export] Instance dbl_eq_dec : EqDecision dbl.
Proof. solve_decision. Defined.

(** [x + y], [x * y], [x / y] on doubles. *)
Definition dadd (x y : dbl) : dbl := SFadd 53 1024 x y.
Definition dmul (x y : dbl) : dbl := SFmul 53 1024 x y.
Definition ddiv (x y : dbl) : dbl := SFdiv 53 1024 x y.
Definition dopp (x : dbl) : dbl := SFopp x.

(** [static_cast<double>] of an integer (rounded to nearest even). *)
Definition d_of_Z (z : Z) : dbl := binary_normalize 53 1024 z 0 false.

(** The double nearest to the decimal literal [num / den]; both parts are
    below 2^53 in every use, so one division rounds correctly. *)
Definition dlit (num den : Z) : dbl := ddiv (d_of_Z num) (d_of_Z den).

Definition d0 : dbl := S754_zero false.
Definition d1 : dbl := Eval vm_compute in d_of_Z 1.

(** [==], [<], [>], [>=]: false when an operand is NaN. *)
Definition deq (x y : dbl) : bool := SFeqb x y.
Definition dlt (x y : dbl) : bool := SFltb x y.
Definition dgt (x y : dbl) : bool := dlt y x.
Definition dge (x y : dbl) : bool := SFleb y x.

Definition is_nan (x : dbl) : bool :=
  match x with S754_nan => true | _ => false end.

(** ** The order of the numbers that are not NaN

    [key x] is a triple whose lexicographic order is the order of doubles. *)

Definition key (x : dbl) : Z * Z * Z :=
  match x with
  | S754_nan | S754_zero _ => (0, 0, 0)
  | S754_infinity s => (if s then -2 else 2, 0, 0)
  | S754_finite s m e => if s then (-1, - e, - Zpos m) else (1, e, Zpos m)
  end.

Definition key_lt (a b : Z * Z * Z) : Prop :=
  a.1.1 < b.1.1 \/
  (a.1.1 = b.1.1 /\ (a.1.2 < b.1.2 \/ (a.1.2 = b.1.2 /\ a.2 < b.2))).

Definition key_eq (a b : Z * Z * Z) : Prop :=
  a.1.1 = b.1.1 /\ a.1.2 = b.1.2 /\ a.2 = b.2.

Lemma SFcompare_key (x y : dbl) :
  is_nan x = false -> is_nan y = false ->
  match SFcompare x y with
  | Some Lt => key_lt (key x) (key y)
  | Some Eq => key_eq (key x) (key y)
  | Some Gt => key_lt (key y) (key x)
  | None => False
  end.
Proof.
  destruct x as [[]|[]| |[] m e], y as [[]|[]| |[] m' e'];
    intros Hx Hy; try discriminate; unfold key_lt, key_eq; simpl; try lia.
  all: destruct (Z.compare_spec e e'); subst; try (simpl; lia).
  all: change (Pos.compare_cont Eq m m') with (m ?= m')%positive.
  all: destruct (Pos.compare_spec m m'); subst; simpl; lia.
Qed.

Lemma dlt_key (x y : dbl) :
  is_nan x = false -> is_nan y = false ->
  dlt x y = true <-> key_lt (key x) (key y).
Proof.
  intros Hx Hy. pose proof (SFcompare_key x y Hx Hy) as H.
  unfold dlt, SFltb. destruct (SFcompare x y) as [[]|]; [| | |done].
  - unfold key_lt, key_eq in *. split; [done|lia].
  - done.
  - unfold key_lt in *. split; [done|lia].
Qed.

Lemma deq_key (x y : dbl) :
  is_nan x = false -> is_nan y = false ->
  deq x y = true <-> key_eq (key x) (key y).
Proof.
  intros Hx Hy. pose proof (SFcompare_key x y Hx Hy) as H.
  unfold deq, SFeqb. destruct (SFcompare x y) as [[]|]; [done| | |done];
    unfold key_lt, key_eq in *; (split; [done|lia]).
Qed.

Lemma dge_key (x y : dbl) :
  is_nan x = false -> is_nan y = false ->
  dge x y = true <-> ~ key_lt (key x) (key y).
Proof.
  intros Hx Hy. pose proof (SFcompare_key y x Hy Hx) as H.
  unfold dge, SFleb. destruct (SFcompare y x) as [[]|]; [| | |done].
  - unfold key_lt, key_eq in *. split; [lia|done].
  - unfold key_lt in *. split; [lia|done].
  - split; [done|]. intros C. done.
Qed.

Lemma dlt_nan (x y : dbl) : is_nan x = true \/ is_nan y = true -> dlt x y = false.
Proof. destruct x, y; intros []; done. Qed.

Lemma deq_nan (x y : dbl) : is_nan x = true \/ is_nan y = true -> deq x y = false.
Proof. destruct x, y; intros []; done. Qed.

(** Decides goals about comparisons of doubles that are not NaN. *)
Ltac dbl_to_keys :=
  unfold dgt in *;
  repeat match goal with
  | H : dlt _ _ = true |- _ => apply dlt_key in H; [|done|done]
  | H : dlt _ _ = false |- _ =>
      apply not_true_iff_false in H; rewrite dlt_key in H; [|done|done]
  | H : SFltb _ _ = true |- _ => apply (dlt_key _ _) in H; [|done|done]
  | H : deq _ _ = true |- _ => apply deq_key in H; [|done|done]
  | H : deq _ _ = false |- _ =>
      apply not_true_iff_false in H; rewrite deq_key in H; [|done|done]
  | H : dge _ _ = true |- _ => apply dge_key in H; [|done|done]
  | H : dge _ _ = false |- _ =>
      apply not_true_iff_false in H; rewrite dge_key in H; [|done|done]
  | |- dlt _ _ = true => apply dlt_key; [done|done|]
  | |- dlt _ _ = false => apply not_true_iff_false; rewrite dlt_key; [|done|done]
  | |- deq _ _ = true => apply deq_key; [done|done|]
  | |- deq _ _ = false => apply not_true_iff_false; rewrite deq_key; [|done|done]
  | |- dge _ _ = true => apply dge_key; [done|done|]
  | |- dge _ _ = false => apply not_true_iff_false; rewrite dge_key; [|done|done]
  end.

Ltac dbl_order :=
  unfold dgt in *; dbl_to_keys; unfold key_lt, key_eq in *;
  repeat match goal with
  | H : context [key ?x] |- _ => generalize dependent (key x)
  | |- context [key ?x] => generalize (key x)
  end; intros;
  repeat match goal with k : Z * Z * Z |- _ => destruct k as [[? ?] ?] end;
  simpl in *; lia.

Lemma dlt_irrefl (x : dbl) : dlt x x = false.
Proof.
  destruct (is_nan x) eqn:Hx; [apply dlt_nan; auto|]. dbl_order.
Qed.

Lemma dlt_trans (x y z : dbl) : dlt x y = true -> dlt y z = true -> dlt x z = true.
Proof.
  destruct (is_nan x) eqn:?; [rewrite dlt_nan by auto; done|].
  destruct (is_nan y) eqn:?; [rewrite dlt_nan by auto; done|].
  destruct (is_nan z) eqn:?; [intros ?; rewrite dlt_nan by auto; done|].
  intros. dbl_order.
Qed.

Lemma deq_sym (x y : dbl) : deq x y = deq y x.
Proof.
  destruct (is_nan x) eqn:?; [rewrite !deq_nan by auto; done|].
  destruct (is_nan y) eqn:?; [rewrite !deq_nan by auto; done|].
  destruct (deq y x) eqn:?; dbl_order.
Qed.

Lemma deq_trans (x y z : dbl) : deq x y = true -> deq y z = true -> deq x z = true.
Proof.
  destruct (is_nan x) eqn:?; [rewrite deq_nan by auto; done|].
  destruct (is_nan y) eqn:?; [rewrite deq_nan by auto; done|].
  destruct (is_nan z) eqn:?; [intros ?; rewrite deq_nan by auto; done|].
  intros. dbl_order.
Qed.

Lemma deq_refl (x : dbl) : is_nan x = false -> deq x x = true.
Proof. intros. dbl_order. Qed.

(** Descending order of a projection to doubles, as [std::stable_sort] with
    [A.Ratio > B.Ratio] uses it. *)
#[export] Instance dgt_strict_weak {A} (f : A -> dbl) :
  StrictWeak (fun x y => dgt (f x) (f y)) (fun x => is_nan (f x) = false).
Proof.
  split; intros; cbv beta in *; unfold dgt in *; fold dlt in *.
  - apply dlt_irrefl.
  - eauto using dlt_trans.
  - dbl_order.
Qed.

(** ** Bit patterns ([RatioBits], [RatioFromBits], [RatioBitsHex])

    The 64-bit pattern of a double: sign, 11 bits of biased exponent, 52 bits
    of mantissa. NaN has one value in the model; its pattern is the quiet NaN. *)

Definition sign_bit (s : bool) : Z := if s then 2 ^ 63 else 0.

Definition RatioBits (Value : dbl) : Z :=
  match Value with
  | S754_zero s => sign_bit s
  | S754_infinity s => sign_bit s + 2047 * 2 ^ 52
  | S754_nan => 2047 * 2 ^ 52 + 2 ^ 51
  | S754_finite s m e =>
      sign_bit s +
      (if Z.pos m <? 2 ^ 52 then Z.pos m else (e + 1075) * 2 ^ 52 + (Z.pos m - 2 ^ 52))
  end.

Definition RatioFromBits (Bits : Z) : dbl :=
  let s := 2 ^ 63 <=? Bits in
  let e := (Bits / 2 ^ 52) mod 2048 in
  let m := Bits mod 2 ^ 52 in
  if e =? 0 then
    (if m =? 0 then S754_zero s else S754_finite s (Z.to_pos m) (-1074))
  else if e =? 2047 then (if m =? 0 then S754_infinity s else S754_nan)
  else S754_finite s (Z.to_pos (m + 2 ^ 52)) (e - 1075).

(** A representable double: the Standard Library's [valid_binary]. *)
Definition valid (x : dbl) : Prop := valid_binary 53 1024 x = true.

Lemma digits2_pos_size (m : positive) : digits2_pos m = Pos.size m.
Proof. induction m; simpl; congruence. Qed.

Lemma digits2_pos_bounds (m : positive) :
  2 ^ (Z.pos (digits2_pos m) - 1) <= Z.pos m < 2 ^ Z.pos (digits2_pos m).
Proof.
  rewrite digits2_pos_size.
  pose proof (Pos.size_gt m) as H1. pose proof (Pos.size_le m) as H2.
  rewrite <- Pos2Z.inj_pow. split; [|lia].
  assert (2 * 2 ^ (Z.pos (Pos.size m) - 1) <= 2 * Z.pos m); [|lia].
  rewrite <- Z.pow_succ_r by lia.
  replace (Z.succ (Z.pos (Pos.size m) - 1)) with (Z.pos (Pos.size m)) by lia.
  rewrite <- (Pos2Z.inj_pow 2). lia.
Qed.

Lemma pow2_lt_exp (a b : Z) : 0 <= a -> 2 ^ a < 2 ^ b -> a < b.
Proof. intros Ha H. apply (Z.pow_lt_mono_r_iff 2); try lia. destruct (Z.ltb_spec b 0);
  [|lia]. rewrite (Z.pow_neg_r 2 b) in H by lia. pose proof (Z.pow_nonneg 2 a). lia. Qed.

(** Representable finite doubles are the subnormal ones and the normal ones. *)
Lemma valid_finite (s : bool) (m : positive) (e : Z) :
  valid (S754_finite s m e) <->
  (Z.pos m < 2 ^ 52 /\ e = -1074) \/
  (2 ^ 52 <= Z.pos m < 2 ^ 53 /\ -1074 <= e <= 971).
Proof.
  unfold valid, valid_binary, bounded, canonical_mantissa, fexp, emin.
  pose proof (digits2_pos_bounds m) as [Hlo Hhi].
  rewrite andb_true_iff, Z.leb_le, Z.eqb_eq.
  set (d := Z.pos (digits2_pos m)) in *.
  assert (Hd : 0 < d) by lia.
  assert (H52 : Z.pos m < 2 ^ 52 <-> d <= 52).
  { split; intros H.
    - assert (d - 1 < 52); [|lia]. apply pow2_lt_exp; lia.
    - assert (2 ^ d <= 2 ^ 52); [|lia]. apply Z.pow_le_mono_r; lia. }
  assert (H53 : Z.pos m < 2 ^ 53 <-> d <= 53).
  { split; intros H.
    - assert (d - 1 < 53); [|lia]. apply pow2_lt_exp; lia.
    - assert (2 ^ d <= 2 ^ 53); [|lia]. apply Z.pow_le_mono_r; lia. }
  split; lia.
Qed.

Lemma RatioFromBits_fields (s : bool) (e m : Z) :
  0 <= e < 2048 -> 0 <= m < 2 ^ 52 ->
  RatioFromBits (sign_bit s + e * 2 ^ 52 + m) =
  (if e =? 0 then
     (if m =? 0 then S754_zero s else S754_finite s (Z.to_pos m) (-1074))
   else if e =? 2047 then (if m =? 0 then S754_infinity s else S754_nan)
   else S754_finite s (Z.to_pos (m + 2 ^ 52)) (e - 1075)).
Proof.
  intros He Hm. unfold RatioFromBits.
  assert (Hmod : (sign_bit s + e * 2 ^ 52 + m) mod 2 ^ 52 = m).
  { replace (sign_bit s + e * 2 ^ 52 + m)
      with (m + ((if s then 2 ^ 11 else 0) + e) * 2 ^ 52) by (destruct s; simpl; lia).
    rewrite Z_mod_plus_full. by apply Z.mod_small. }
  assert (Hdiv : (sign_bit s + e * 2 ^ 52 + m) / 2 ^ 52 = (if s then 2 ^ 11 else 0) + e).
  { replace (sign_bit s + e * 2 ^ 52 + m)
      with (m + ((if s then 2 ^ 11 else 0) + e) * 2 ^ 52) by (destruct s; simpl; lia).
    rewrite Z_div_plus_full by lia. rewrite Z.div_small by done. lia. }
  assert (Hs : (2 ^ 63 <=? sign_bit s + e * 2 ^ 52 + m) = s)
    by (destruct s; simpl; [apply Z.leb_le|apply Z.leb_gt]; lia).
  rewrite Hmod, Hdiv, Hs.
  assert (He' : ((if s then 2 ^ 11 else 0) + e) mod 2048 = e).
  { destruct s; [|by apply Z.mod_small].
    rewrite <- (Z.mod_small e 2048) at 2 by done.
    rewrite <- (Z_mod_plus_full e 1 2048). f_equal. lia. }
  by rewrite He'.
Qed.

(** The pattern of a finite double, as fields. *)
Lemma RatioBits_fields (x : dbl) :
  valid x -> is_nan x = false ->
  exists s e m, RatioBits x = sign_bit s + e * 2 ^ 52 + m /\
    0 <= e < 2048 /\ 0 <= m < 2 ^ 52 /\
    x = (if e =? 0 then
           (if m =? 0 then S754_zero s else S754_finite s (Z.to_pos m) (-1074))
         else if e =? 2047 then (if m =? 0 then S754_infinity s else S754_nan)
         else S754_finite s (Z.to_pos (m + 2 ^ 52)) (e - 1075)).
Proof.
  intros Hv Hn. destruct x as [s|s| |s m e]; [| |done|].
  - exists s, 0, 0. simpl. repeat split; lia.
  - exists s, 2047, 0. simpl. repeat split; lia.
  - apply valid_finite in Hv. unfold RatioBits.
    destruct (Z.ltb_spec (Z.pos m) (2 ^ 52)).
    + exists s, 0, (Z.pos m). destruct Hv as [[_ ->]|]; [|lia].
      repeat split; simpl; lia.
    + exists s, (e + 1075), (Z.pos m - 2 ^ 52).
      destruct (Z.eqb_spec (e + 1075) 0); [lia|].
      destruct (Z.eqb_spec (e + 1075) 2047); [lia|].
      repeat split; try lia. f_equal; [|lia].
      by replace (Z.pos m - 2 ^ 52 + 2 ^ 52) with (Z.pos m) by lia.
Qed.

Lemma RatioBits_bounds (x : dbl) :
  valid x -> is_nan x = false -> 0 <= RatioBits x < 2 ^ 64.
Proof.
  intros Hv Hn. destruct (RatioBits_fields x Hv Hn) as (s & e & m & -> & He & Hm & _).
  destruct s; simpl; lia.
Qed.

Lemma RatioFromBits_RatioBits (x : dbl) :
  valid x -> is_nan x = false -> RatioFromBits (RatioBits x) = x.
Proof.
  intros Hv Hn. destruct (RatioBits_fields x Hv Hn) as (s & e & m & -> & He & Hm & Hx).
  rewrite RatioFromBits_fields by done. by rewrite <- Hx.
Qed.

Lemma RatioBits_inj (x y : dbl) :
  valid x -> valid y -> is_nan x = false -> is_nan y = false ->
  RatioBits x = RatioBits y -> x = y.
Proof.
  intros Hx Hy Nx Ny E. rewrite <- (RatioFromBits_RatioBits x), <- (RatioFromBits_RatioBits y) by done.
  by rewrite E.
Qed.

(** Equal doubles are the same double, the two zeros apart. *)
Lemma deq_eq (x y : dbl) :
  deq x y = true -> deq x d0 = false -> x = y.
Proof.
  unfold deq, SFeqb, SFcompare, d0. destruct x as [[]|[]| |[] m e], y as [[]|[]| |[] m' e'];
    try discriminate; try done.
  all: destruct (Z.compare_spec e e'); try discriminate; subst.
  all: change (Pos.compare_cont Eq m m') with (m ?= m')%positive.
  all: destruct (Pos.compare_spec m m'); try discriminate; subst; done.
Qed.

Lemma deq_zero (x y : dbl) : deq x y = true -> deq x d0 = deq y d0.
Proof.
  intros H. destruct (deq x d0) eqn:E.
  - symmetry. rewrite deq_sym in H. by eapply deq_trans.
  - destruct (deq y d0) eqn:E2; [|done].
    by rewrite (deq_trans _ _ _ H E2) in E.
Qed.
