(* ===== verification/Interner.v ===== *)
(** * String interning and text columns (src/include/dsigmatcher/diff/Interner.h,
      src/include/dsigmatcher/diff/Table.h, src/src/diff/Ingest.cpp)

    [Interner] is the append-only string table, [Interners] the three tables
    of a session. Ids are [uint32_t] values: the index is truncated to 32 bits
    and the name and address ids add one, so that 0 stays Python's [None].
    [Text] uses [std::vector::at], which throws for an unknown id.

    [TextColumn] keeps all its bytes in one pool, with an offset and a 32-bit
    length per row, and flags for NULL and BLOB cells. *)

From stdpp Require Import base gmap list numbers option.
From Stdlib Require Import ZArith Lia.
From S2P Require Import Prelude.

(** A [uint32_t] id. *)
Abbreviation id32 := N.
Definition wrap32 (n : N) : id32 := (n mod 2 ^ 32)%N.

(** [Storage] owns the strings and [Views] points into it; the two always
    hold the same texts, so the model keeps one list. *)
Record Interner := MkInterner {
  Views : list text;
  Index : gmap text id32;
}.

Definition EmptyInterner : Interner := MkInterner [] ∅.

Definition Intern (t : text) (r : Interner) : Interner * id32 :=
  match Index r !! t with
  | Some Id => (r, Id)
  | None =>
      let Id := wrap32 (N.of_nat (length (Views r))) in
      (MkInterner (Views r ++ [t]) (<[t := Id]> (Index r)), Id)
  end.

Definition Find (t : text) (r : Interner) : option id32 := Index r !! t.

Definition Text (Id : id32) (r : Interner) : res text :=
  match Views r !! N.to_nat Id with
  | Some t => Ok t
  | None => Throw (CxxException (B "out_of_range"))
  end.

Definition Size (r : Interner) : N := N.of_nat (length (Views r)).

(** ** The three tables *)

Record Interners := MkInterners {
  Names_ : Interner;
  Descs_ : Interner;
  Addrs_ : Interner;
}.

Definition EmptyInterners : Interners :=
  MkInterners EmptyInterner EmptyInterner EmptyInterner.

Abbreviation NameId := N.
Abbreviation DescId := N.
Abbreviation AddrId := N.
Definition kNoneName : NameId := 0%N.
Definition kNoneAddr : AddrId := 0%N.

Definition Name (t : text) (ids : Interners) : Interners * NameId :=
  let '(r, Id) := Intern t (Names_ ids) in
  (MkInterners r (Descs_ ids) (Addrs_ ids), wrap32 (Id + 1)).

Definition NameOpt (t : option text) (ids : Interners) : Interners * NameId :=
  match t with Some t => Name t ids | None => (ids, kNoneName) end.

Definition FindName (t : text) (ids : Interners) : option NameId :=
  match Find t (Names_ ids) with
  | Some Id => Some (wrap32 (Id + 1))
  | None => None
  end.

Definition NameOrNone (Id : NameId) (ids : Interners) : res (option text) :=
  if bool_decide (Id = kNoneName) then Ok None
  else t ← Text (Id - 1) (Names_ ids); Ok (Some t).

Definition NameText (Id : NameId) (ids : Interners) : res text :=
  if bool_decide (Id = kNoneName) then Ok [] else Text (Id - 1) (Names_ ids).

Definition NameKeyText (Id : NameId) (ids : Interners) : res text :=
  if bool_decide (Id = kNoneName) then Ok (B "None") else Text (Id - 1) (Names_ ids).

Definition NameCount (ids : Interners) : N := Size (Names_ ids).

Definition Desc (t : text) (ids : Interners) : Interners * DescId :=
  let '(r, Id) := Intern t (Descs_ ids) in
  (MkInterners (Names_ ids) r (Addrs_ ids), Id).

Definition FindDesc (t : text) (ids : Interners) : option DescId := Find t (Descs_ ids).

Definition DescText (Id : DescId) (ids : Interners) : res text := Text Id (Descs_ ids).

Definition Addr (t : text) (ids : Interners) : Interners * AddrId :=
  let '(r, Id) := Intern t (Addrs_ ids) in
  (MkInterners (Names_ ids) (Descs_ ids) r, wrap32 (Id + 1)).

Definition AddrOpt (t : option text) (ids : Interners) : Interners * AddrId :=
  match t with Some t => Addr t ids | None => (ids, kNoneAddr) end.

Definition FindAddr (t : text) (ids : Interners) : option AddrId :=
  match Find t (Addrs_ ids) with
  | Some Id => Some (wrap32 (Id + 1))
  | None => None
  end.

Definition AddrText (Id : AddrId) (ids : Interners) : res text :=
  if bool_decide (Id = kNoneAddr) then Ok [] else Text (Id - 1) (Addrs_ ids).

Definition AddrKeyText (Id : AddrId) (ids : Interners) : res text :=
  if bool_decide (Id = kNoneAddr) then Ok (B "None") else Text (Id - 1) (Addrs_ ids).

(** ** Well-formed tables

    Every view is indexed by its own position, and there is room below 2^32
    so that no id has wrapped around. *)

Record wf_interner (r : Interner) : Prop := {
  wfi_index t Id : Index r !! t = Some Id <-> Views r !! N.to_nat Id = Some t;
  wfi_room : (N.of_nat (length (Views r)) < 2 ^ 32 - 1)%N;
}.

(** The id names a text of the table. *)
Definition known (Id : id32) (r : Interner) : Prop := (Id < Size r)%N.

Lemma wf_empty : wf_interner EmptyInterner.
Proof. split; [|done]. intros t Id. simpl. by rewrite lookup_empty, lookup_nil. Qed.

Lemma wrap32_small (n : N) : (n < 2 ^ 32)%N -> wrap32 n = n.
Proof. apply N.mod_small. Qed.

Lemma wfi_nodup r : wf_interner r -> NoDup (Views r).
Proof.
  intros [Hi _]. apply NoDup_alt. intros i j t H1 H2.
  rewrite <- (Nat2N.id i) in H1. rewrite <- (Nat2N.id j) in H2.
  apply Hi in H1, H2. rewrite H1 in H2. by simplify_eq.
Qed.

Lemma known_text r Id : known Id r -> exists t, Text Id r = Ok t.
Proof.
  unfold known, Size, Text. intros H.
  destruct (Views r !! N.to_nat Id) eqn:E; [eauto|].
  apply lookup_ge_None in E. lia.
Qed.

Lemma text_known r Id t : Text Id r = Ok t -> known Id r.
Proof.
  unfold known, Size, Text. destruct (Views r !! N.to_nat Id) eqn:E; [|done].
  apply lookup_lt_Some in E. lia.
Qed.

Lemma text_inj r i j t :
  wf_interner r -> Text i r = Ok t -> Text j r = Ok t -> i = j.
Proof.
  intros [Hi _]. unfold Text.
  destruct (Views r !! N.to_nat i) eqn:E1; [|done].
  destruct (Views r !! N.to_nat j) eqn:E2; [|done].
  intros. simplify_eq. apply Hi in E1, E2. congruence.
Qed.

(** What a call of [Intern] promises, in a table with room. *)
Lemma Intern_spec (t : text) (r : Interner) :
  wf_interner r -> (Size r + 1 < 2 ^ 32 - 1)%N ->
  let '(r', Id) := Intern t r in
  wf_interner r' /\ Text Id r' = Ok t /\
  (forall j u, Text j r = Ok u -> Text j r' = Ok u) /\
  (Size r' <= Size r + 1)%N.
Proof.
  intros Hwf Hroom. unfold Intern. destruct (Index r !! t) as [Id|] eqn:E.
  - split; [done|]. split; [|split; [done|lia]].
    unfold Text. by rewrite (proj1 (wfi_index r Hwf t Id) E).
  - unfold Size in *. rewrite wrap32_small by lia.
    assert (Hfresh : Views r !! length (Views r) = None) by (apply lookup_ge_None; lia).
    split; [split|split; [|split]]; simpl.
    + intros u Id. rewrite lookup_snoc_Some.
      destruct (decide (t = u)) as [<-|Hu].
      * rewrite lookup_insert_eq. split.
        -- intros [= <-]. right. split; [lia|done].
        -- intros [[_ H]|[H _]]; [|f_equal; lia].
           apply (wfi_index r Hwf) in H. congruence.
      * rewrite lookup_insert_ne by done. rewrite (wfi_index r Hwf u Id).
        split; [|intros [[_ H]|[_ H]]; congruence].
        intros H. left. split; [by eapply lookup_lt_Some|done].
    + rewrite length_app. simpl. lia.
    + unfold Text. simpl. rewrite Nat2N.id, list_lookup_middle; done.
    + intros j u. unfold Text. simpl.
      destruct (Views r !! N.to_nat j) eqn:Ej; [|done].
      by rewrite (lookup_app_l_Some _ _ _ _ Ej).
    + rewrite length_app. simpl. lia.
Qed.

(** Interning a text that is already there changes nothing. *)
Lemma Intern_known (t : text) (r : Interner) (Id : id32) :
  wf_interner r -> Text Id r = Ok t -> Intern t r = (r, Id).
Proof.
  intros Hwf H. unfold Intern, Text in *.
  destruct (Views r !! N.to_nat Id) eqn:E; [|done]. simplify_eq.
  apply (wfi_index r Hwf) in E. by rewrite E.
Qed.

(** ** Well-formed sessions tables and the ids they know *)

Record wf_ids (ids : Interners) : Prop := {
  wf_names : wf_interner (Names_ ids);
  wf_descs : wf_interner (Descs_ ids);
  wf_addrs : wf_interner (Addrs_ ids);
}.

(** A name or address id that is [None] or was given out by the table. *)
Definition known_name (ids : Interners) (Id : NameId) : Prop :=
  Id = kNoneName \/ known (Id - 1) (Names_ ids).
Definition known_addr (ids : Interners) (Id : AddrId) : Prop :=
  Id = kNoneAddr \/ known (Id - 1) (Addrs_ ids).

Lemma NameKeyText_known ids Id :
  known_name ids Id -> exists t, NameKeyText Id ids = Ok t.
Proof.
  unfold NameKeyText. case_bool_decide; [eauto|].
  intros [?|?]; [done|]. by apply known_text.
Qed.

Lemma AddrKeyText_known ids Id :
  known_addr ids Id -> exists t, AddrKeyText Id ids = Ok t.
Proof.
  unfold AddrKeyText. case_bool_decide; [eauto|].
  intros [?|?]; [done|]. by apply known_text.
Qed.

Lemma NameText_some ids Id t :
  wf_ids ids -> Id <> kNoneName -> NameText Id ids = Ok t ->
  Name t ids = (ids, Id).
Proof.
  intros Hwf HId. unfold NameText, Name. rewrite bool_decide_false by done.
  intros Ht. rewrite (Intern_known _ _ _ (wf_names _ Hwf) Ht).
  apply text_known in Ht. pose proof (wfi_room _ (wf_names _ Hwf)).
  unfold known, Size, kNoneName in *. rewrite wrap32_small by lia.
  destruct ids. simpl. f_equal. lia.
Qed.

Lemma AddrText_some ids Id t :
  wf_ids ids -> Id <> kNoneAddr -> AddrText Id ids = Ok t ->
  Addr t ids = (ids, Id).
Proof.
  intros Hwf HId. unfold AddrText, Addr. rewrite bool_decide_false by done.
  intros Ht. rewrite (Intern_known _ _ _ (wf_addrs _ Hwf) Ht).
  apply text_known in Ht. pose proof (wfi_room _ (wf_addrs _ Hwf)).
  unfold known, Size, kNoneAddr in *. rewrite wrap32_small by lia.
  destruct ids. simpl. f_equal. lia.
Qed.

(** Different ids have different texts. *)
Lemma AddrText_inj ids i j t :
  wf_ids ids -> i <> kNoneAddr -> j <> kNoneAddr ->
  AddrText i ids = Ok t -> AddrText j ids = Ok t -> i = j.
Proof.
  intros Hwf Hi Hj H1 H2.
  pose proof (AddrText_some _ _ _ Hwf Hi H1) as E1.
  pose proof (AddrText_some _ _ _ Hwf Hj H2) as E2. congruence.
Qed.

(** ** Property *)

Lemma Name_spec (t : text) (ids : Interners) :
  wf_ids ids -> (Size (Names_ ids) + 1 < 2 ^ 32 - 1)%N ->
  let '(ids', i) := Name t ids in
  wf_ids ids' /\ NameText i ids' = Ok t /\ i <> kNoneName /\
  (forall k s, NameText k ids = Ok s -> NameText k ids' = Ok s) /\
  (Size (Names_ ids') <= Size (Names_ ids) + 1)%N.
Proof.
  intros [Hn Hd Ha] Hroom. pose proof (Intern_spec t _ Hn Hroom) as H.
  unfold Name. destruct (Intern t (Names_ ids)) as [r Id].
  destruct H as (Hr & Ht & Hold & Hsz). simpl.
  pose proof (text_known _ _ _ Ht) as HId. unfold known in HId.
  pose proof (wfi_room _ Hr). unfold Size, kNoneName in *.
  rewrite wrap32_small by lia.
  split; [by split|]. split; [|split; [lia|split; [|done]]].
  - unfold NameText, kNoneName. rewrite bool_decide_false by lia.
    by replace (Id + 1 - 1)%N with Id by lia.
  - intros k s. unfold NameText. simpl. case_bool_decide; [done|]. apply Hold.
Qed.

(** Interning gives two texts the same id exactly when they are equal, no
    text gets the id of Python's [None], and every id given out before keeps
    its text. *)
Theorem Name_ids_are_texts (t u : text) (ids : Interners) :
  wf_ids ids -> (Size (Names_ ids) + 2 < 2 ^ 32 - 1)%N ->
  let '(ids1, i) := Name t ids in
  let '(ids2, j) := Name u ids1 in
  NameText i ids2 = Ok t /\ NameText j ids2 = Ok u /\
  (i = j <-> t = u) /\ i <> kNoneName /\ j <> kNoneName /\
  (forall k s, NameText k ids = Ok s -> NameText k ids2 = Ok s).
Proof.
  intros Hwf Hroom. pose proof (Name_spec t ids Hwf) as H1.
  destruct (Name t ids) as [ids1 i].
  destruct H1 as (Hwf1 & Ht & Hi & Hold & Hsz); [lia|].
  pose proof (Name_spec u ids1 Hwf1) as H2.
  destruct (Name u ids1) as [ids2 j] eqn:Ej.
  destruct H2 as (Hwf2 & Hu & Hj & Hold2 & Hsz2); [lia|].
  split; [by apply Hold2|]. split; [done|].
  split; [|split; [done|split; [done|eauto]]].
  split.
  - intros ->. apply Hold2 in Ht. congruence.
  - intros ->. rewrite (NameText_some _ _ _ Hwf1 Hi Ht) in Ej. by simplify_eq.
Qed.

(** The tables after interning ["foo"] in a fresh session. *)
Lemma Name_ids_are_texts_witness :
  let '(ids1, i) := Name (B "sub_401000") EmptyInterners in
  let '(ids2, j) := Name (B "main") ids1 in
  NameText i ids2 = Ok (B "sub_401000") /\ NameText j ids2 = Ok (B "main") /\
  (i = j <-> B "sub_401000" = B "main") /\ i <> kNoneName /\ j <> kNoneName /\
  (forall k s, NameText k EmptyInterners = Ok s -> NameText k ids2 = Ok s).
Proof.
  apply (Name_ids_are_texts (B "sub_401000") (B "main") EmptyInterners).
  - split; apply wf_empty.
  - reflexivity.
Defined.

(** ** Text columns (include/dsigmatcher/diff/Table.h, src/src/diff/Ingest.cpp)

    A column keeps all its bytes in one pool, with an offset and a 32-bit
    length per row, and flags for NULL and BLOB cells. *)

Record TextColumn := MkTextColumn {
  Pool : text;
  Offset : list nat;
  Length : list Z;
  IsNull : list bool;
  IsBlob : list bool;
}.

Definition EmptyColumn : TextColumn := MkTextColumn [] [] [] [] [].

Definition Append (Bytes : text) (Blob : bool) (c : TextColumn) : TextColumn :=
  MkTextColumn (Pool c ++ Bytes) (Offset c ++ [length (Pool c)])
    (Length c ++ [w32 (Z.of_nat (length Bytes))]) (IsNull c ++ [false]) (IsBlob c ++ [Blob]).
Definition AppendNull (c : TextColumn) : TextColumn :=
  MkTextColumn (Pool c) (Offset c ++ [length (Pool c)]) (Length c ++ [0%Z])
    (IsNull c ++ [true]) (IsBlob c ++ [false]).

Definition ColumnSize (c : TextColumn) : nat := length (IsNull c).

(** The accessors of a row below [ColumnSize]; [None] is an index past the end
    of a vector. *)
Definition Null (Row : nat) (c : TextColumn) : option bool := IsNull c !! Row.
Definition View (Row : nat) (c : TextColumn) : option text :=
  o ← Offset c !! Row;
  l ← Length c !! Row;
  Some (take (Z.to_nat l) (drop o (Pool c))).
Definition Get (Row : nat) (c : TextColumn) : option (option text) :=
  n ← Null Row c;
  if (n : bool) then Some None else v ← View Row c; Some (Some v).

(** ** What the rows hold *)

(** The cells of a column, in order: NULL, or bytes and the BLOB flag. *)
Abbreviation cell := (option (text * bool)).

Definition append_cell (x : cell) (c : TextColumn) : TextColumn :=
  match x with None => AppendNull c | Some (t, b) => Append t b c end.

Definition small_cell (x : cell) : Prop :=
  match x with None => True | Some (t, _) => (Z.of_nat (length t) < 2 ^ 32)%Z end.

Definition holds (c : TextColumn) (cells : list cell) : Prop :=
  length (Offset c) = length cells /\ length (Length c) = length cells /\
  IsNull c = map (fun x => bool_decide (x = None)) cells /\
  IsBlob c = map (fun x => match x with Some (_, b) => b | None => false end) cells /\
  forall i t b, cells !! i = Some (Some (t, b)) ->
    exists o, Offset c !! i = Some o /\ o + length t <= length (Pool c) /\
      Length c !! i = Some (Z.of_nat (length t)) /\ take (length t) (drop o (Pool c)) = t.

Lemma holds_empty : holds EmptyColumn [].
Proof. split_and!; done. Qed.

Lemma append_holds (x : cell) (c : TextColumn) (cells : list cell) :
  holds c cells -> small_cell x -> holds (append_cell x c) (cells ++ [x]).
Proof.
  intros (H1 & H2 & H3 & H4 & H5) Hx.
  assert (forall tail i t b, cells !! i = Some (Some (t, b)) ->
    exists o, Offset c !! i = Some o /\ o + length t <= length (Pool c ++ tail) /\
      Length c !! i = Some (Z.of_nat (length t)) /\ take (length t) (drop o (Pool c ++ tail)) = t)
    as Hold.
  { intros tl i t b Hi. destruct (H5 i t b Hi) as (o & Ho & Hle & Hl & Ht).
    exists o. split_and!; [done|rewrite length_app; lia|done|].
    rewrite drop_app_le, take_app_le by (rewrite ?length_drop; lia). done. }
  destruct x as [[t0 b0]|]; unfold append_cell, holds; cbn [Append AppendNull Pool Offset Length
    IsNull IsBlob]; rewrite !length_app, !map_app, H1, H2, H3, H4; split_and!; try done;
    intros i t b Hi; rewrite lookup_app in Hi; revert Hi;
    (destruct (cells !! i) as [y|] eqn:E; intros Hi; [apply Some_inj in Hi; subst y|]).
  - pose proof (lookup_lt_Some _ _ _ E). rewrite !lookup_app_l by lia. rewrite <- length_app. by apply (Hold t0 i t b).
  - apply lookup_ge_None in E. assert (i = length cells) as ->.
    { apply list_lookup_singleton_Some in Hi as [? _]. lia. }
    rewrite Nat.sub_diag in Hi. injection Hi as -> ->.
    rewrite !list_lookup_middle by done. exists (length (Pool c)).
    split_and!; [done|lia| |by rewrite drop_app_length, take_ge].
    simpl in Hx. by rewrite w32_small by lia.
  - pose proof (lookup_lt_Some _ _ _ E). rewrite !lookup_app_l by lia.
    specialize (Hold [] i t b E). by rewrite app_nil_r in Hold.
  - apply list_lookup_singleton_Some in Hi as [_ Hi]. done.
Qed.

Lemma appended_holds (cells : list cell) :
  Forall small_cell cells ->
  holds (foldl (fun c x => append_cell x c) EmptyColumn cells) cells.
Proof.
  induction cells as [|x cells IH] using rev_ind; intros H; [apply holds_empty|].
  apply Forall_app in H as [Hc Hx]. rewrite foldl_app. apply append_holds; [by apply IH|].
  by inversion Hx.
Qed.

(** A column built by appending cells shorter than 4 GiB returns, for every
    row, the cell that was appended there: the NULL flag, the bytes and the BLOB
    flag; later appends never disturb an earlier row. *)
Theorem TextColumn_returns_its_cells (cells : list cell) (Hsmall : Forall small_cell cells) :
  let c := foldl (fun c x => append_cell x c) EmptyColumn cells in
  ColumnSize c = length cells /\
  forall i x, cells !! i = Some x ->
    Get i c = Some (fst <$> x) /\ IsBlob c !! i = Some (match x with Some (_, b) => b | None => false end).
Proof.
  intros c. destruct (appended_holds cells Hsmall) as (H1 & H2 & H3 & H4 & H5). fold c in H1, H2, H3, H4, H5.
  split; [by unfold ColumnSize; rewrite H3, length_map|]. intros i x Hi.
  split; [|by rewrite H4, list_lookup_fmap, Hi].
  unfold Get, Null. rewrite H3, list_lookup_fmap, Hi. simpl.
  destruct x as [[t b]|]; [|done]. simpl. destruct (H5 i t b Hi) as (o & Ho & _ & Hl & Ht).
  unfold View. rewrite Ho. simpl. rewrite Hl. simpl. by rewrite Nat2Z.id, Ht.
Qed.

Lemma TextColumn_returns_its_cells_witness :
  let cells := [Some (B "mov eax", false); None; Some (B "ret", true)] in
  let c := foldl (fun c x => append_cell x c) EmptyColumn cells in
  ColumnSize c = 3 /\
  forall i x, cells !! i = Some x ->
    Get i c = Some (fst <$> x) /\ IsBlob c !! i = Some (match x with Some (_, b) => b | None => false end).
Proof.
  intros cells. apply (TextColumn_returns_its_cells cells).
  repeat (apply Forall_cons_2; [try reflexivity; exact I|]). apply Forall_nil_2.
Defined.
