(* ===== verification/Decimal.v ===== *)
(** * Decimal integers: [std::to_string] and [std::from_chars]

    The two standard library calls the JSON values use to write and to read
    an integer, with the proof that they are inverse. *)

From stdpp Require Import base list numbers.
From Stdlib Require Import ZArith Lia.
From S2P Require Import Prelude.
Local Open Scope Z_scope.

(** ['0' <= Ch && Ch <= '9']. *)
Definition is_digit (Ch : byte) : bool := (48 <=? code Ch) && (code Ch <=? 57).
Definition digit_value (Ch : byte) : Z := code Ch - 48.
Definition digit_char (d : Z) : byte := byte_of_code (48 + d).

(** The decimal digits of [n >= 0], most significant first; one step per
    digit, and [n] has at most [Z.log2 n + 1] digits. *)
Fixpoint dec_digits (fuel : nat) (n : Z) (acc : text) : text :=
  match fuel with
  | O => acc
  | S fuel' =>
      if n <? 10 then digit_char n :: acc
      else dec_digits fuel' (n / 10) (digit_char (n mod 10) :: acc)
  end.
Definition dec_nonneg (n : Z) : text := dec_digits (Z.to_nat (Z.log2 n + 1)) n [].
Definition dec_text (z : Z) : text :=
  if z <? 0 then x2d :: dec_nonneg (- z) else dec_nonneg z.

(** The longest run of digits and its value, [None] without a digit. *)
Fixpoint digits_run (acc : Z) (t : text) : Z * text :=
  match t with
  | Ch :: t' => if is_digit Ch then digits_run (acc * 10 + digit_value Ch) t' else (acc, t)
  | [] => (acc, [])
  end.

(** [std::from_chars] into an integer type with values [lo..hi]: [None] is an
    error code, otherwise the value and the bytes behind [ptr]. The minus
    sign is only accepted by a signed type. *)
Definition from_chars (lo hi : Z) (t : text) : option (Z * text) :=
  let minus := match t with Ch :: _ => bool_decide (Ch = x2d) && (lo <? 0) | [] => false end in
  match (if minus then tail t else t) with
  | Ch :: t' =>
      if is_digit Ch then
        let '(v, rest) := digits_run 0 (Ch :: t') in
        let v' := if minus then - v else v in
        if (lo <=? v') && (v' <=? hi) then Some (v', rest) else None
      else None
  | [] => None
  end.

(** ** Writing then reading an integer *)

Lemma digit_char_code (d : Z) : 0 <= d < 10 -> code (digit_char d) = 48 + d.
Proof. intros Hd. apply code_byte_of_code. lia. Qed.

Lemma digit_char_is_digit (d : Z) : 0 <= d < 10 -> is_digit (digit_char d) = true.
Proof.
  intros Hd. unfold is_digit. rewrite digit_char_code by done.
  apply andb_true_iff. split; apply Z.leb_le; lia.
Qed.

Lemma digit_char_value (d : Z) : 0 <= d < 10 -> digit_value (digit_char d) = d.
Proof. intros Hd. unfold digit_value. rewrite digit_char_code by done. lia. Qed.

Lemma digits_run_digit (acc d : Z) (t : text) :
  0 <= d < 10 -> digits_run acc (digit_char d :: t) = digits_run (acc * 10 + d) t.
Proof. intros Hd. cbn [digits_run]. by rewrite digit_char_is_digit, digit_char_value. Qed.

Lemma dec_digits_run (fuel : nat) (n : Z) (acc : text) :
  fuel <> O -> 0 <= n < 2 ^ Z.of_nat fuel ->
  exists d ds, dec_digits fuel n acc = digit_char d :: ds ++ acc /\ 0 <= d < 10 /\
    (n <> 0 -> d <> 0) /\ Forall (fun c => is_digit c = true) ds /\ (n = 0 -> ds = []) /\
    forall rest, digits_run 0 (digit_char d :: ds ++ rest) = digits_run n rest.
Proof.
  revert n acc. induction fuel as [|fuel IH]; intros n acc Hf Hn; [done|]. cbn [dec_digits].
  destruct (Z.ltb_spec n 10) as [Hlt|Hge].
  { exists n, []. split_and!; try done; try lia.
    intros rest. by rewrite digits_run_digit by lia. }
  rewrite Nat2Z.inj_succ, Z.pow_succ_r in Hn by lia.
  assert (1 <= n / 10 < 2 ^ Z.of_nat fuel) as Hd by (Z.to_euclidean_division_equations; lia).
  pose proof (Z.mod_pos_bound n 10) as Hm.
  destruct (IH (n / 10) (digit_char (n mod 10) :: acc)) as (d & ds & E & Hd10 & Hnz & Hds & _ & Hrun);
    [intros ->; simpl in Hd; lia|lia|].
  exists d, (ds ++ [digit_char (n mod 10)]).
  split_and!; [by rewrite E, <- app_assoc|lia|lia|intros _; apply Hnz; lia| |intros; exfalso; lia|].
  - apply Forall_app. split; [done|]. repeat constructor. apply digit_char_is_digit. lia.
  - intros rest. rewrite <- app_assoc, Hrun. cbn [app]. rewrite digits_run_digit by lia.
    f_equal. pose proof (Z.div_mod n 10). lia.
Qed.

Lemma dec_nonneg_run (n : Z) :
  0 <= n ->
  exists d ds, dec_nonneg n = digit_char d :: ds /\ 0 <= d < 10 /\ (n <> 0 -> d <> 0) /\
    Forall (fun c => is_digit c = true) ds /\ (n = 0 -> ds = []) /\
    forall rest, digits_run 0 (digit_char d :: ds ++ rest) = digits_run n rest.
Proof.
  intros Hn. unfold dec_nonneg. pose proof (Z.log2_nonneg n).
  destruct (dec_digits_run (Z.to_nat (Z.log2 n + 1)) n []) as (d & ds & E & Hr); [lia| |].
  { rewrite Z2Nat.id by lia. destruct (Z.eq_dec n 0) as [->|]; [done|].
    pose proof (Z.log2_spec n). rewrite Z.add_1_r. lia. }
  exists d, ds. by rewrite app_nil_r in E.
Qed.

Lemma digit_not_minus (d : Z) : 0 <= d < 10 -> digit_char d <> x2d.
Proof. intros Hd E. apply (f_equal code) in E. rewrite digit_char_code in E by done. 
  change (code x2d) with 45 in E. lia. Qed.

(** A value of the type reads back as itself, with nothing left. *)
Lemma from_chars_dec_text (lo hi z : Z) :
  lo <= z <= hi -> lo <= 0 <= hi -> from_chars lo hi (dec_text z) = Some (z, []).
Proof.
  intros Hz H0. unfold dec_text, from_chars.
  destruct (Z.ltb_spec z 0) as [Hneg|Hpos].
  - destruct (dec_nonneg_run (- z)) as (d & ds & -> & Hd & _ & _ & _ & Hrun); [lia|].
    rewrite bool_decide_true, (proj2 (Z.ltb_lt lo 0)) by (done || lia). cbn [andb tail].
    rewrite digit_char_is_digit by done. specialize (Hrun []). rewrite app_nil_r in Hrun.
    rewrite Hrun. cbn [digits_run]. rewrite Z.opp_involutive.
    by rewrite (proj2 (Z.leb_le lo z)), (proj2 (Z.leb_le z hi)) by lia.
  - destruct (dec_nonneg_run z) as (d & ds & -> & Hd & _ & _ & _ & Hrun); [lia|].
    rewrite bool_decide_false by by apply digit_not_minus. cbn [andb].
    rewrite digit_char_is_digit by done. specialize (Hrun []). rewrite app_nil_r in Hrun.
    rewrite Hrun. cbn [digits_run].
    by rewrite (proj2 (Z.leb_le lo z)), (proj2 (Z.leb_le z hi)) by lia.
Qed.

(** ** The decimal text is unique *)

Definition dec_value (s : text) : Z := foldl (fun v c => v * 10 + digit_value c) 0 s.
Definition all_digits (s : text) : Prop := Forall (fun c => is_digit c = true) s.

Lemma digit_value_range (c : byte) : is_digit c = true -> 0 <= digit_value c < 10.
Proof. unfold is_digit, digit_value. intros H. bool_props. lia. Qed.

Lemma digit_char_of_value (c : byte) : is_digit c = true -> digit_char (digit_value c) = c.
Proof.
  intros H. apply code_inj. pose proof (digit_value_range c H).
  rewrite digit_char_code by done. unfold digit_value. lia.
Qed.

Lemma foldl_value (v : Z) (s : text) :
  foldl (fun v c => v * 10 + digit_value c) v s = v * 10 ^ Z.of_nat (length s) + dec_value s.
Proof.
  unfold dec_value. revert v. induction s as [|c s IH]; intros v; [simpl; lia|].
  cbn [foldl length]. rewrite IH, (IH (0 * 10 + digit_value c)).
  rewrite Nat2Z.inj_succ, Z.pow_succ_r by lia. lia.
Qed.

Lemma dec_value_app (s t : text) :
  dec_value (s ++ t) = dec_value s * 10 ^ Z.of_nat (length t) + dec_value t.
Proof. unfold dec_value at 1. rewrite foldl_app. apply foldl_value. Qed.

Lemma dec_value_single (c : byte) : dec_value [c] = digit_value c.
Proof. unfold dec_value. simpl. lia. Qed.

Lemma dec_value_cons (c : byte) (t : text) : dec_value (c :: t) = digit_value c * 10 ^ Z.of_nat (length t) + dec_value t.
Proof. change (c :: t) with ([c] ++ t). by rewrite dec_value_app, dec_value_single. Qed.

Lemma dec_value_bounds (s : text) : all_digits s -> 0 <= dec_value s < 10 ^ Z.of_nat (length s).
Proof.
  induction s as [|c s IH] using rev_ind; intros H; [change (0 <= 0 < 1); lia|].
  apply Forall_app in H as [Hs Hc]. rewrite Forall_singleton in Hc.
  rewrite dec_value_app, dec_value_single, length_app. cbn [length].
  change (10 ^ Z.of_nat 1) with 10. rewrite Nat2Z.inj_add, Z.pow_add_r by lia.
  change (10 ^ Z.of_nat 1) with 10. specialize (IH Hs). pose proof (digit_value_range c Hc). lia.
Qed.

(** No leading zero but for the text of zero itself. *)
Definition canonical (s : text) : Prop :=
  all_digits s /\ match s with [] => False | [_] => True | c :: _ => digit_value c <> 0 end.

Lemma canonical_lower (c : byte) (s : text) :
  all_digits (c :: s) -> digit_value c <> 0 -> 10 ^ Z.of_nat (length s) <= dec_value (c :: s).
Proof.
  intros H Hc. inversion H as [|? ? Hd Hs]; subst.
  change (c :: s) with ([c] ++ s). rewrite dec_value_app, dec_value_single.
  pose proof (digit_value_range c Hd). pose proof (dec_value_bounds s Hs).
  pose proof (Z.pow_pos_nonneg 10 (Z.of_nat (length s)) ltac:(done) ltac:(lia)). nia.
Qed.

Lemma dec_digits_canonical (s : text) (fuel : nat) (acc : text) :
  canonical s -> fuel <> O -> dec_value s < 2 ^ Z.of_nat fuel ->
  dec_digits fuel (dec_value s) acc = s ++ acc.
Proof.
  revert fuel acc. induction s as [|c s IH] using rev_ind; intros fuel acc [Hd Hc] Hf Hv; [done|].
  apply Forall_app in Hd as [Hs Hd]. rewrite Forall_singleton in Hd.
  pose proof (digit_value_range c Hd) as Hr. destruct fuel as [|fuel]; [done|].
  rewrite dec_value_app, dec_value_single in Hv |- *. cbn [length] in Hv |- *.
  change (10 ^ Z.of_nat 1) with 10 in *. cbn [dec_digits].
  destruct s as [|d s].
  - change (dec_value []) with 0. cbn [app]. destruct (Z.ltb_spec (0 * 10 + digit_value c) 10); [|lia].
    by rewrite Z.mul_0_l, Z.add_0_l, digit_char_of_value.
  - assert (digit_value d <> 0) as Hnz by (simpl in Hc; by destruct s).
    pose proof (canonical_lower d s Hs Hnz) as Hlow.
    pose proof (Z.pow_pos_nonneg 10 (Z.of_nat (length s)) ltac:(done) ltac:(lia)).
    destruct (Z.ltb_spec (dec_value (d :: s) * 10 + digit_value c) 10); [lia|].
    rewrite Nat2Z.inj_succ, Z.pow_succ_r in Hv by lia.
    replace ((dec_value (d :: s) * 10 + digit_value c) / 10) with (dec_value (d :: s))
      by (Z.to_euclidean_division_equations; lia).
    replace ((dec_value (d :: s) * 10 + digit_value c) mod 10) with (digit_value c)
      by (Z.to_euclidean_division_equations; lia).
    rewrite digit_char_of_value by done. rewrite IH.
    + by rewrite <- app_assoc.
    + split; [done|]. by destruct s.
    + intros ->. change (2 ^ Z.of_nat 0) with 1 in Hv. lia.
    + lia.
Qed.

(** A text of digits without a leading zero is the decimal text of its value. *)
Lemma dec_text_canonical (s : text) : canonical s -> dec_text (dec_value s) = s.
Proof.
  intros H. pose proof (dec_value_bounds s (proj1 H)). unfold dec_text, dec_nonneg.
  destruct (Z.ltb_spec (dec_value s) 0); [lia|]. pose proof (Z.log2_nonneg (dec_value s)).
  rewrite dec_digits_canonical; [apply app_nil_r|done|lia|].
  rewrite Z2Nat.id by lia. destruct (Z.eq_dec (dec_value s) 0) as [->|]; [done|].
  pose proof (Z.log2_spec (dec_value s)). rewrite Z.add_1_r. lia.
Qed.

Lemma digits_run_value (s : text) (v : Z) :
  all_digits s -> digits_run v s = (v * 10 ^ Z.of_nat (length s) + dec_value s, []).
Proof.
  intros H. rewrite <- foldl_value. revert v. induction H as [|c s Hc Hs IH]; intros v; [done|].
  cbn [digits_run foldl]. by rewrite Hc, IH.
Qed.

(** The decimal text of a number: canonical, with that value. *)
Lemma dec_text_spec (n : Z) :
  0 <= n -> canonical (dec_text n) /\ dec_value (dec_text n) = n /\ (n <> 0 ->
    match dec_text n with [] => False | c :: _ => digit_value c <> 0 end).
Proof.
  intros Hn. unfold dec_text. destruct (Z.ltb_spec n 0); [lia|].
  destruct (dec_nonneg_run n Hn) as (d & ds & -> & Hd & Hnz & Hds & Hz & Hrun).
  assert (all_digits (digit_char d :: ds)) as Hall.
  { constructor; [by apply digit_char_is_digit|done]. }
  split_and!.
  - split; [done|]. destruct ds as [|x ds]; [done|]. rewrite digit_char_value by done.
    apply Hnz. intros E. by specialize (Hz E).
  - specialize (Hrun []). rewrite app_nil_r, digits_run_value in Hrun by done.
    cbn [digits_run] in Hrun. injection Hrun as Hrun. lia.
  - intros Hn0. rewrite digit_char_value by done. by apply Hnz.
Qed.

Lemma dec_text_length (n : Z) (k : nat) :
  0 <= n < 10 ^ Z.of_nat k -> (0 < k)%nat -> (length (dec_text n) <= k)%nat.
Proof.
  intros Hn Hk. destruct (dec_text_spec n ltac:(lia)) as (Hc & Hv & Hnz).
  destruct (Z.eq_dec n 0) as [->|Hn0].
  { change (length (dec_text 0)) with 1%nat. lia. }
  specialize (Hnz Hn0). destruct (dec_text n) as [|c s] eqn:E; [done|].
  pose proof (canonical_lower c s (proj1 Hc) Hnz) as Hlow. rewrite Hv in Hlow.
  assert (10 ^ Z.of_nat (length s) < 10 ^ Z.of_nat k) as Hlt by lia.
  apply Z.pow_lt_mono_r_iff in Hlt; [|lia|lia]. simpl. lia.
Qed.
