(* ===== verification/Kgh.v ===== *)
(** * The KOKA graph hash (src/src/KghHash.cpp, include/dsigmatcher/KghHash.h)

    An unsigned big integer in base 10^9, and the accumulator of prime
    exponents whose product is printed in decimal. *)

From Stdlib Require Import ZArith Lia.
From stdpp Require Import base option numbers list.
From S2P Require Import Prelude Decimal.
Local Open Scope Z_scope.

(** ** [BigUInt] *)

Definition LimbBase : Z := 1000000000.

(** [Limbs_]: 32-bit limbs, least significant first. *)
Record BigUInt := MkBig { Limbs_ : list Z }.

(** [while (Value > 0)], on an unsigned value of 32 or 64 bits: three limbs
    hold every 64-bit value. *)
Fixpoint limb_loop (fuel : nat) (Value : Z) : list Z :=
  match fuel with
  | O => []
  | S fuel' =>
      if 0 <? Value then w32 (Value mod LimbBase) :: limb_loop fuel' (Value / LimbBase) else []
  end.
Definition limb_fuel : nat := 3.

Definition BigUInt_ (Value : Z) : BigUInt :=
  if Value =? 0 then MkBig [0] else MkBig (limb_loop limb_fuel Value).

Definition is_zero (l : list Z) : bool := bool_decide (l = [0]).

(** [TrimLeadingZeros]: pop while more than one limb and the last is zero. *)
Fixpoint trim (l : list Z) : list Z :=
  match l with
  | [] => []
  | x :: l' =>
      match trim l' with
      | [] => if x =? 0 then [] else [x]
      | t => x :: t
      end
  end.
Definition TrimLeadingZeros (n : BigUInt) : BigUInt :=
  match Limbs_ n with
  | [] => n
  | x :: l => MkBig (x :: trim l)
  end.

Fixpoint small_loop (Value Carry : Z) (l : list Z) : list Z * Z :=
  match l with
  | [] => ([], Carry)
  | x :: l' =>
      let Product := w64 (x * Value + Carry) in
      let '(r, c) := small_loop Value (Product / LimbBase) l' in
      (w32 (Product mod LimbBase) :: r, c)
  end.

Definition MultiplySmall (Value : Z) (n : BigUInt) : BigUInt :=
  if Value =? 0 then MkBig [0]
  else if Value =? 1 then n
  else
    let '(r, Carry) := small_loop Value 0 (Limbs_ n) in
    MkBig (r ++ limb_loop limb_fuel Carry).

(** [v[i] = x] and [v[i]]: [None] is an access out of the vector. *)
Definition set_at (i : nat) (x : Z) (l : list Z) : option (list Z) :=
  if (i <? length l)%nat then Some (<[i := x]> l) else None.

Fixpoint inner_loop (a : Z) (Outer Inner : nat) (Other : list Z) (Result : list Z) (Carry : Z)
    : option (list Z * Z) :=
  match Other with
  | [] => Some (Result, Carry)
  | b :: Other' =>
      r ← Result !! (Outer + Inner)%nat;
      let Product := w64 (a * b + r + Carry) in
      Result' ← set_at (Outer + Inner) (w32 (Product mod LimbBase)) Result;
      inner_loop a Outer (S Inner) Other' Result' (Product / LimbBase)
  end.

Fixpoint carry_loop (fuel : nat) (Position : nat) (Carry : Z) (Result : list Z)
    : option (list Z) :=
  if 0 <? Carry then
    match fuel with
    | O => None
    | S fuel' =>
        r ← Result !! Position;
        let Sum := w64 (r + Carry) in
        Result' ← set_at Position (w32 (Sum mod LimbBase)) Result;
        carry_loop fuel' (S Position) (Sum / LimbBase) Result'
    end
  else Some Result.

Fixpoint outer_loop (Outer : nat) (l Other : list Z) (Result : list Z) : option (list Z) :=
  match l with
  | [] => Some Result
  | a :: l' =>
      if a =? 0 then outer_loop (S Outer) l' Other Result
      else
        '(Result', Carry) ← inner_loop a Outer 0 Other Result 0;
        Result'' ← carry_loop (length Result) (Outer + length Other) Carry Result';
        outer_loop (S Outer) l' Other Result''
  end.

(** [None] is an access out of bounds. When [Other] is [*this], the early
    branches copy the limb they use and the loops only write [Result], so the
    two values are read independently. *)
Definition MultiplyBig (n Other : BigUInt) : option BigUInt :=
  if is_zero (Limbs_ n) then Some n
  else if is_zero (Limbs_ Other) then Some (MkBig [0])
  else
    match Limbs_ Other with
    | [x] => Some (MultiplySmall x n)
    | _ =>
        Result ← outer_loop 0 (Limbs_ n) (Limbs_ Other)
                   (replicate (length (Limbs_ n) + length (Limbs_ Other) + 1) 0);
        Some (TrimLeadingZeros (MkBig Result))
    end.

(** [while (Remaining > 0)] on a 64-bit exponent. *)
Fixpoint power_loop (fuel : nat) (Remaining : Z) (Result Accumulator : BigUInt)
    : option BigUInt :=
  if 0 <? Remaining then
    match fuel with
    | O => None
    | S fuel' =>
        Result' ← (if negb (Z.land Remaining 1 =? 0) then MultiplyBig Result Accumulator
                   else Some Result);
        let Remaining' := Z.shiftr Remaining 1 in
        Accumulator' ← (if 0 <? Remaining' then MultiplyBig Accumulator Accumulator
                        else Some Accumulator);
        power_loop fuel' Remaining' Result' Accumulator'
    end
  else Some Result.

Definition Power (Base Exponent : Z) : option BigUInt :=
  if Exponent =? 0 then Some (BigUInt_ 1)
  else power_loop 64 Exponent (BigUInt_ 1) (BigUInt_ Base).

(** [snprintf("%09u")], then [append(Buffer, 9)]. *)
Definition pad9 (n : Z) : text :=
  let s := dec_text n in take 9 (replicate (9 - length s) x30 ++ s).

Definition BigUInt_ToDecimalString (n : BigUInt) : option text :=
  match reverse (Limbs_ n) with
  | [] => None
  | back :: rest => Some (dec_text back ++ (rest ≫= pad9))
  end.

(** ** [KghAccumulator] *)

Definition KghPrimes : list Z := [2; 3; 5; 7; 11; 19; 23; 29; 31; 37; 41; 43; 47].
Definition KghPrimeCount : nat := 13.

Definition KghNodeEntry : nat := 0.
Definition KghNodeExit : nat := 1.
Definition KghNodeNormal : nat := 2.
Definition KghEdgeInConditional : nat := 3.
Definition KghEdgeOutConditional : nat := 4.
Definition KghFeatureLoop : nat := 5.
Definition KghFeatureStronglyConnected : nat := 9.
Definition KghFeatureFuncNoRet : nat := 10.
Definition KghFeatureFuncLib : nat := 11.
Definition KghFeatureFuncThunk : nat := 12.

(** [Exponents_]: thirteen 64-bit counters. *)
Record KghAccumulator := MkKgh { Exponents_ : list Z }.
Definition KghEmpty : KghAccumulator := MkKgh (replicate KghPrimeCount 0).

Definition MultiplyPower (Prime : nat) (Exponent : Z) (k : KghAccumulator) : KghAccumulator :=
  MkKgh (alter (fun e => w64 (e + Exponent)) Prime (Exponents_ k)).
Definition Multiply (Prime : nat) (k : KghAccumulator) : KghAccumulator := MultiplyPower Prime 1 k.

Definition AddBlock (SuccessorCount PredecessorCount : Z) (k : KghAccumulator) : KghAccumulator :=
  let k := if PredecessorCount =? 0 then Multiply KghNodeEntry k else k in
  let k := if SuccessorCount =? 0 then Multiply KghNodeExit k else k in
  let k := Multiply KghNodeNormal k in
  let k := MultiplyPower KghEdgeOutConditional SuccessorCount k in
  MultiplyPower KghEdgeInConditional PredecessorCount k.

Definition AddLoopComponents (LoopComponents : Z) (k : KghAccumulator) : KghAccumulator :=
  MultiplyPower KghFeatureLoop LoopComponents k.
Definition AddStronglyConnectedCount (ComponentCount : Z) (k : KghAccumulator) : KghAccumulator :=
  MultiplyPower KghFeatureStronglyConnected ComponentCount k.
Definition AddFunctionFlags (NoReturn Library Thunk : bool) (k : KghAccumulator) : KghAccumulator :=
  let k := if NoReturn then Multiply KghFeatureFuncNoRet k else k in
  let k := if Library then Multiply KghFeatureFuncLib k else k in
  if Thunk then Multiply KghFeatureFuncThunk k else k.

Fixpoint product_loop (primes exponents : list Z) (Result : BigUInt) : option BigUInt :=
  match primes, exponents with
  | p :: primes', e :: exponents' =>
      if e =? 0 then product_loop primes' exponents' Result
      else
        factor ← Power p e;
        Result' ← MultiplyBig Result factor;
        product_loop primes' exponents' Result'
  | _, _ => Some Result
  end.

Definition ToDecimalString (k : KghAccumulator) : option text :=
  Result ← product_loop KghPrimes (Exponents_ k) (BigUInt_ 1);
  BigUInt_ToDecimalString Result.

(** * The graph hash is the product of primes

    Values of limb vectors, the arithmetic of [BigUInt] on them, and the
    decimal text of the accumulated product. *)

(** ** The value of a limb vector *)

Fixpoint value (l : list Z) : Z :=
  match l with [] => 0 | d :: l' => d + LimbBase * value l' end.

Definition limbs_ok (l : list Z) : Prop := Forall (fun d => 0 <= d < LimbBase) l.

(** At least one limb, no leading zero limb but for zero itself. *)
Definition wf_big (n : BigUInt) : Prop :=
  limbs_ok (Limbs_ n) /\ (Limbs_ n = [0] \/ exists h, last (Limbs_ n) = Some h /\ h <> 0).

Definition big (n : BigUInt) : Z := value (Limbs_ n).

Notation "'B^' k" := (LimbBase ^ Z.of_nat k) (at level 30).

Lemma pow_B_succ (k : nat) : B^ (S k) = LimbBase * B^ k.
Proof. rewrite Nat2Z.inj_succ, Z.pow_succ_r by lia. done. Qed.

Lemma pow_B_add (j k : nat) : B^ (j + k) = B^ j * B^ k.
Proof. by rewrite Nat2Z.inj_add, Z.pow_add_r by lia. Qed.

Lemma pow_B_pos (k : nat) : 0 < B^ k.
Proof. apply Z.pow_pos_nonneg; [done|lia]. Qed.

Lemma pow_B_le (j k : nat) : (j <= k)%nat -> B^ j <= B^ k.
Proof. intros H. apply Z.pow_le_mono_r; [done|lia]. Qed.

Lemma pow_B_lt_inv (j k : nat) : B^ j < B^ k -> (j < k)%nat.
Proof.
  intros H. destruct (Nat.lt_ge_cases j k) as [|Hge]; [done|].
  pose proof (pow_B_le _ _ Hge). lia.
Qed.

Lemma value_bounds (l : list Z) : limbs_ok l -> 0 <= value l < B^ (length l).
Proof.
  induction 1 as [|d l Hd Hl IH]; [simpl; lia|]. cbn [value length].
  rewrite pow_B_succ. unfold LimbBase in *. lia.
Qed.

Lemma value_app (l k : list Z) : value (l ++ k) = value l + B^ (length l) * value k.
Proof.
  induction l as [|d l IH]; cbn [value app length]; [change (B^ 0) with 1; lia|].
  rewrite IH, pow_B_succ. lia.
Qed.

Lemma value_zeros (n : nat) : value (replicate n 0) = 0.
Proof. induction n as [|n IH]; cbn [value replicate]; [done|]. rewrite IH. done. Qed.

Lemma value_insert (l : list Z) (i : nat) (x r : Z) :
  l !! i = Some r -> value (<[i := x]> l) = value l + (x - r) * B^ i.
Proof.
  revert i. induction l as [|d l IH]; intros [|i] H; try done; cbn [value].
  - injection H as ->. change (B^ 0) with 1. simpl. lia.
  - change (<[S i := x]> (d :: l)) with (d :: <[i := x]> l). cbn [value].
    rewrite (IH i H), pow_B_succ. lia.
Qed.

Lemma limbs_ok_lookup (l : list Z) (i : nat) (r : Z) :
  limbs_ok l -> l !! i = Some r -> 0 <= r < LimbBase.
Proof. intros H Hi. exact (Forall_lookup_1 _ _ _ _ H Hi). Qed.

(** The top limb is not zero exactly when the value fills the vector. *)
Lemma last_nonzero (l : list Z) :
  limbs_ok l -> l <> [] ->
  (exists h, last l = Some h /\ h <> 0) <-> B^ (pred (length l)) <= value l.
Proof.
  intros Hok Hne. destruct (exists_last Hne) as (k & h & ->).
  rewrite last_snoc, length_app, value_app. cbn [length value].
  apply Forall_app in Hok as [Hk Hh]. apply Forall_singleton in Hh as [Hh _].
  pose proof (value_bounds k Hk). replace (pred (length k + 1)) with (length k) by lia.
  split.
  - intros (? & [= <-] & Hnz). pose proof (pow_B_pos (length k)).
    rewrite Z.mul_0_r, Z.add_0_r. nia.
  - intros Hle. exists h. split; [done|]. intros ->.
    change (0 + LimbBase * 0) with 0 in Hle. lia.
Qed.

Lemma wf_big_iff (l : list Z) :
  limbs_ok l -> l <> [] -> 0 < value l ->
  wf_big (MkBig l) <-> B^ (pred (length l)) <= value l.
Proof.
  intros Hok Hne Hv. unfold wf_big. cbn [Limbs_]. rewrite <- last_nonzero by done.
  split; [|tauto]. intros [_ [-> |H]]; [simpl in Hv; lia|done].
Qed.

Lemma wf_big_nonempty (n : BigUInt) : wf_big n -> Limbs_ n <> [].
Proof. intros [_ [-> |(h & H & _)]]; [done|]. by destruct (Limbs_ n). Qed.

Lemma wf_big_zero (n : BigUInt) : wf_big n -> is_zero (Limbs_ n) = true <-> big n = 0.
Proof.
  intros Hw. pose proof (wf_big_nonempty n Hw) as Hne. destruct Hw as [Hok Hw].
  unfold is_zero, big. rewrite bool_decide_eq_true. split; [by intros ->|]. intros Hv.
  destruct Hw as [H|H]; [done|]. apply last_nonzero in H; [|done|done].
  pose proof (pow_B_pos (pred (length (Limbs_ n)))). lia.
Qed.

(** ** Small values *)

Lemma limb_loop_spec (fuel : nat) (v : Z) :
  0 <= v < B^ fuel ->
  let l := limb_loop fuel v in
  value l = v /\ limbs_ok l /\ (0 < v -> l <> [] /\ B^ (pred (length l)) <= v) /\
  (v = 0 -> l = []).
Proof.
  revert v. induction fuel as [|fuel IH]; intros v Hv; cbn [limb_loop].
  { change (B^ 0) with 1 in Hv. split_and!; [simpl; lia|constructor|lia|done]. }
  destruct (Z.ltb_spec 0 v) as [Hp|]; [|split_and!; [simpl; lia|constructor|lia|done]].
  pose proof (Z.mod_pos_bound v LimbBase ltac:(done)) as Hm.
  pose proof (Z.div_mod v LimbBase ltac:(done)) as Hdm.
  rewrite pow_B_succ in Hv.
  destruct (IH (v / LimbBase)) as (H1 & H2 & H3 & H4).
  { split; [apply Z.div_pos; [lia|done]|apply Z.div_lt_upper_bound; [done|lia]]. }
  rewrite (w32_small (v mod LimbBase)) by (unfold LimbBase in *; lia).
  split_and!; [cbn [value]; rewrite H1; lia|by constructor| |lia].
  intros _. split; [done|]. cbn [length pred].
  destruct (Z.eq_dec (v / LimbBase) 0) as [E|E].
  - rewrite (H4 E). change (B^ (length (@nil Z))) with 1. lia.
  - destruct H3 as [Hne Hle].
    { pose proof (Z.div_pos v LimbBase). unfold LimbBase in *. lia. }
    destruct (limb_loop fuel (v / LimbBase)) as [|x l]; [done|]. cbn [length pred] in *.
    rewrite pow_B_succ. nia.
Qed.

Lemma limb_fuel_64 (v : Z) : 0 <= v < 2 ^ 64 -> 0 <= v < B^ limb_fuel.
Proof. intros Hv. change (B^ limb_fuel) with (LimbBase ^ 3). unfold LimbBase. lia. Qed.

Lemma BigUInt_spec (v : Z) : 0 <= v < 2 ^ 64 -> wf_big (BigUInt_ v) /\ big (BigUInt_ v) = v.
Proof.
  intros Hv. unfold BigUInt_. destruct (Z.eqb_spec v 0) as [->|Hnz].
  { split; [|done]. split; [by repeat constructor|by left]. }
  destruct (limb_loop_spec limb_fuel v (limb_fuel_64 v Hv)) as (H1 & H2 & H3 & _).
  destruct H3 as [Hne Hle]; [lia|]. split; [|done]. apply wf_big_iff; [done|done|lia|lia].
Qed.

(** ** Multiplication *)

Lemma small_loop_spec (V : Z) (l : list Z) (C : Z) :
  limbs_ok l -> 1 <= V < 2 ^ 32 -> 0 <= C <= V ->
  let '(r, c) := small_loop V C l in
  length r = length l /\ limbs_ok r /\ 0 <= c <= V /\
  value r + c * B^ (length l) = value l * V + C.
Proof.
  intros Hl HV. revert C. induction Hl as [|x l Hx Hl IH]; intros C HC; cbn [small_loop].
  { split_and!; [done|constructor|lia|lia|]. cbn [value length]. change (B^ 0) with 1. lia. }
  assert (0 <= x * V + C <= LimbBase * V /\ LimbBase * V < 2 ^ 64) as [HP HB].
  { cbv beta in Hx. unfold LimbBase in *. split; [nia|lia]. }
  rewrite (w64_small (x * V + C)) by lia. set (Pr := x * V + C) in *.
  pose proof (Z.mod_pos_bound Pr LimbBase ltac:(done)) as Hm.
  pose proof (Z.div_mod Pr LimbBase ltac:(done)) as Hdm.
  rewrite (w32_small (Pr mod LimbBase)) by (unfold LimbBase in *; lia).
  assert (0 <= Pr / LimbBase <= V) as Hc.
  { split; [apply Z.div_pos; [lia|done]|apply Z.div_le_upper_bound; [done|lia]]. }
  specialize (IH (Pr / LimbBase) Hc).
  destruct (small_loop V (Pr / LimbBase) l) as [r c]. destruct IH as (H1 & H2 & H3 & H4).
  split_and!; [simpl; by rewrite H1|by constructor|lia|lia|].
  cbn [value length]. rewrite pow_B_succ. subst Pr. nia.
Qed.

Lemma wf_big_value_le (n : BigUInt) :
  wf_big n -> 0 < big n -> B^ (pred (length (Limbs_ n))) <= big n.
Proof.
  intros Hw Hv. pose proof (wf_big_nonempty n Hw) as Hne. destruct n as [l]. simpl in *.
  apply wf_big_iff; [by destruct Hw|done|done|done].
Qed.

Lemma MultiplySmall_spec (V : Z) (n : BigUInt) :
  wf_big n -> 0 <= V < 2 ^ 32 ->
  wf_big (MultiplySmall V n) /\ big (MultiplySmall V n) = big n * V.
Proof.
  intros Hw HV. unfold MultiplySmall.
  destruct (Z.eqb_spec V 0) as [->|]; [split; [split; [by repeat constructor|by left]|
    unfold big; simpl; lia]|].
  destruct (Z.eqb_spec V 1) as [->|]; [split; [done|lia]|].
  pose proof (wf_big_nonempty n Hw) as Hne. pose proof (wf_big_value_le n Hw) as Hle.
  pose proof Hw as [Hok _]. pose proof (small_loop_spec V (Limbs_ n) 0 Hok ltac:(lia) ltac:(lia)) as H.
  destruct (small_loop V 0 (Limbs_ n)) as [r c]. destruct H as (Hlen & Hr & Hc & Hval).
  destruct (limb_loop_spec limb_fuel c (limb_fuel_64 c ltac:(lia))) as (H1 & H2 & H3 & H4).
  assert (value (r ++ limb_loop limb_fuel c) = big n * V) as Hv.
  { rewrite value_app, H1, Hlen. unfold big. lia. }
  split; [|exact Hv].
  assert (r <> []) as Hrne by (intros ->; destruct (Limbs_ n); done).
  pose proof (value_bounds _ Hok) as Hb. fold (big n) in Hb.
  destruct (Z.eq_dec (big n) 0) as [E|E].
  - apply wf_big_zero in E; [|done]. unfold is_zero in E. bool_props.
    match goal with Hz : Limbs_ n = [0] |- _ => rewrite Hz in Hlen, Hval end.
    destruct r as [|x [|y r]]; try done. cbn [value length] in Hval.
    change (B^ 1) with LimbBase in Hval. apply Forall_singleton in Hr as [Hx0 Hx1].
    assert (c = 0) as -> by (unfold LimbBase in *; lia). rewrite (H4 eq_refl). cbn [app].
    assert (x = 0) as -> by (unfold LimbBase in *; lia). split; [by repeat constructor|by left].
  - apply wf_big_iff; [by apply Forall_app|by destruct r|rewrite Hv; nia|].
    rewrite Hv, length_app. destruct (Z.eq_dec c 0) as [->|Hc0].
    + rewrite (H4 eq_refl). cbn [length]. rewrite Nat.add_0_r, Hlen. specialize (Hle ltac:(lia)). nia.
    + destruct (H3 ltac:(lia)) as [Hne' Hle'].
      replace (pred (length r + length (limb_loop limb_fuel c)))%nat
        with (length (Limbs_ n) + pred (length (limb_loop limb_fuel c)))%nat
        by (rewrite Hlen; destruct (limb_loop limb_fuel c); [done|simpl; lia]).
      rewrite pow_B_add. pose proof (value_bounds r Hr). unfold big. nia.
Qed.

Lemma set_at_ok (i : nat) (x r : Z) (l : list Z) :
  l !! i = Some r -> 0 <= x < LimbBase -> limbs_ok l ->
  exists l', set_at i x l = Some l' /\ length l' = length l /\ limbs_ok l' /\
    value l' = value l + (x - r) * B^ i.
Proof.
  intros Hi Hx Hl. pose proof (lookup_lt_Some _ _ _ Hi) as Hlt. unfold set_at.
  destruct (Nat.ltb_spec i (length l)); [|lia]. eexists. split; [done|].
  split_and!; [by rewrite length_insert| |by apply value_insert].
  by apply Forall_insert.
Qed.

Lemma inner_loop_spec (a : Z) (Outer Inner : nat) (Other Result : list Z) (C : Z) :
  0 <= a < LimbBase -> limbs_ok Other -> limbs_ok Result -> 0 <= C < LimbBase ->
  (Outer + Inner + length Other <= length Result)%nat ->
  exists R' C', inner_loop a Outer Inner Other Result C = Some (R', C') /\
    length R' = length Result /\ limbs_ok R' /\ 0 <= C' < LimbBase /\
    value R' + C' * B^ (Outer + Inner + length Other)
    = value Result + (C + a * value Other) * B^ (Outer + Inner).
Proof.
  intros Ha Ho. revert Inner Result C.
  induction Ho as [|b Other Hb Ho IH]; intros Inner Result C HR HC Hlen; cbn [inner_loop].
  { exists Result, C. split_and!; try done; try lia. cbn [length value].
    rewrite Nat.add_0_r. lia. }
  cbn [length] in Hlen.
  destruct (lookup_lt_is_Some_2 Result (Outer + Inner)) as [r Hr]; [lia|].
  rewrite Hr. cbn [mbind option_bind]. pose proof (limbs_ok_lookup _ _ _ HR Hr) as Hr'.
  assert (0 <= a * b + r + C < LimbBase * LimbBase /\ LimbBase * LimbBase < 2 ^ 64) as [HP HB].
  { cbv beta in Hb. unfold LimbBase in *. split; [nia|lia]. }
  rewrite (w64_small (a * b + r + C)) by lia. set (Pr := a * b + r + C) in *.
  pose proof (Z.mod_pos_bound Pr LimbBase ltac:(done)) as Hm.
  pose proof (Z.div_mod Pr LimbBase ltac:(done)) as Hdm.
  rewrite (w32_small (Pr mod LimbBase)) by (unfold LimbBase in *; lia).
  destruct (set_at_ok _ (Pr mod LimbBase) _ _ Hr Hm HR) as (R1 & -> & Hlen1 & HR1 & Hv1).
  cbn [mbind option_bind].
  assert (0 <= Pr / LimbBase < LimbBase) as Hc.
  { split; [apply Z.div_pos; [lia|done]|apply Z.div_lt_upper_bound; [done|lia]]. }
  destruct (IH (S Inner) R1 (Pr / LimbBase) HR1 Hc) as (R' & C' & -> & H1 & H2 & H3 & H4); [lia|].
  exists R', C'. split_and!; [done|lia|done|lia|lia|].
  replace (Outer + Inner + length (b :: Other))%nat with (Outer + S Inner + length Other)%nat
    by (simpl; lia).
  rewrite H4, Hv1. replace (Outer + S Inner)%nat with (S (Outer + Inner)) by lia.
  rewrite pow_B_succ. cbn [value]. subst Pr. nia.
Qed.

Lemma carry_loop_spec (fuel P : nat) (C : Z) (Result : list Z) :
  limbs_ok Result -> 0 <= C < LimbBase -> value Result + C * B^ P < B^ (length Result) ->
  (length Result <= P + fuel)%nat ->
  exists R', carry_loop fuel P C Result = Some R' /\ length R' = length Result /\ limbs_ok R' /\
    value R' = value Result + C * B^ P.
Proof.
  revert P C Result. induction fuel as [|fuel IH]; intros P C Result HR HC Hv Hf;
    cbn [carry_loop]; (destruct (Z.ltb_spec 0 C) as [Hp|]; [|exists Result; split_and!; try done; lia]);
    pose proof (value_bounds _ HR); pose proof (pow_B_pos P);
    (assert (P < length Result)%nat as HP by (apply pow_B_lt_inv; nia)); [lia|].
  destruct (lookup_lt_is_Some_2 Result P) as [r Hr]; [lia|].
  rewrite Hr. cbn [mbind option_bind]. pose proof (limbs_ok_lookup _ _ _ HR Hr) as Hr'.
  rewrite (w64_small (r + C)) by (unfold LimbBase in *; lia). set (Sm := r + C) in *.
  pose proof (Z.mod_pos_bound Sm LimbBase ltac:(done)) as Hm.
  pose proof (Z.div_mod Sm LimbBase ltac:(done)) as Hdm.
  rewrite (w32_small (Sm mod LimbBase)) by (unfold LimbBase in *; lia).
  destruct (set_at_ok _ (Sm mod LimbBase) _ _ Hr Hm HR) as (R1 & -> & Hlen1 & HR1 & Hv1).
  cbn [mbind option_bind].
  assert (0 <= Sm / LimbBase < LimbBase) as Hc.
  { split; [apply Z.div_pos; [lia|done]|apply Z.div_lt_upper_bound; [done|]].
    unfold LimbBase in *. lia. }
  assert (value R1 + Sm / LimbBase * B^ (S P) = value Result + C * B^ P) as E.
  { rewrite Hv1, pow_B_succ. subst Sm. nia. }
  destruct (IH (S P) (Sm / LimbBase) R1 HR1 Hc) as (R' & -> & H1 & H2 & H3).
  { by rewrite E, Hlen1. } { lia. }
  exists R'. split_and!; [done|lia|done|lia].
Qed.

Lemma outer_loop_spec (Outer : nat) (l Other Result : list Z) :
  limbs_ok l -> limbs_ok Other -> limbs_ok Result ->
  (Outer + length l + length Other <= length Result)%nat ->
  value Result + value l * value Other * B^ Outer < B^ (length Result) ->
  exists R', outer_loop Outer l Other Result = Some R' /\ length R' = length Result /\
    limbs_ok R' /\ value R' = value Result + value l * value Other * B^ Outer.
Proof.
  intros Hl Ho. revert Outer Result.
  induction Hl as [|a l Ha Hl IH]; intros Outer Result HR Hlen Hv; cbn [outer_loop].
  { exists Result. split_and!; try done. simpl. lia. }
  cbn [length value] in Hlen, Hv |- *. cbv beta in Ha.
  pose proof (value_bounds l Hl). pose proof (value_bounds Other Ho).
  pose proof (pow_B_pos Outer) as HpB. pose proof (pow_B_succ Outer) as HsB.
  destruct (Z.eqb_spec a 0) as [->|Hnz].
  - destruct (IH (S Outer) Result HR) as (R' & -> & H1 & H2 & H3); [lia|rewrite HsB; nia|].
    exists R'. split_and!; try done. rewrite H3, HsB. nia.
  - destruct (inner_loop_spec a Outer 0 Other Result 0) as (R1 & C & -> & H1 & H2 & H3 & H4);
      try done; [lia|]. cbn [mbind option_bind]. rewrite Nat.add_0_r in H4.
    assert (0 <= value l * value Other * B^ (S Outer)) as Hrest
      by (apply Z.mul_nonneg_nonneg; [nia|pose proof (pow_B_pos (S Outer)); lia]).
    rewrite HsB in Hrest.
    destruct (carry_loop_spec (length Result) (Outer + length Other) C R1)
      as (R2 & -> & H5 & H6 & H7); [done|done|rewrite H4, H1; nia|lia|].
    cbn [mbind option_bind].
    destruct (IH (S Outer) R2 H6) as (R' & -> & H8 & H9 & H10);
      [lia|rewrite H7, H4, H5, H1, HsB; nia|].
    exists R'. split_and!; [done|lia|done|]. rewrite H10, H7, H4, HsB. nia.
Qed.

Lemma trim_spec (l : list Z) :
  limbs_ok l ->
  limbs_ok (trim l) /\ value (trim l) = value l /\
  (trim l = [] \/ exists h, last (trim l) = Some h /\ h <> 0).
Proof.
  induction 1 as [|x l Hx Hl IH]; [split_and!; [constructor|done|by left]|].
  destruct IH as (H1 & H2 & H3). cbn [trim].
  destruct (trim l) as [|y t] eqn:E.
  - cbn [value] in *. destruct (Z.eqb_spec x 0) as [->|Hnz].
    + split_and!; [constructor|cbn [value]; lia|by left].
    + split_and!; [by apply Forall_singleton|cbn [value]; lia|right; by exists x].
  - split_and!; [by constructor|cbn [value] in *; lia|right].
    destruct H3 as [|(h & Hh & Hnz)]; [done|]. exists h. split; [|done].
    by rewrite last_cons_cons.
Qed.

Lemma TrimLeadingZeros_spec (l : list Z) :
  limbs_ok l -> l <> [] ->
  wf_big (TrimLeadingZeros (MkBig l)) /\ big (TrimLeadingZeros (MkBig l)) = value l.
Proof.
  intros Hl Hne. destruct l as [|x l]; [done|]. unfold TrimLeadingZeros. cbn [Limbs_].
  apply Forall_cons in Hl as [Hx Hl]. destruct (trim_spec l Hl) as (H1 & H2 & H3).
  split; [|unfold big; cbn [Limbs_ value]; lia]. split; cbn [Limbs_]; [by constructor|].
  destruct H3 as [-> |(h & Hh & Hnz)].
  - destruct (Z.eq_dec x 0) as [->|Hx0]; [by left|right; by exists x].
  - right. exists h. split; [|done]. destruct (trim l) as [|y t]; [done|].
    by rewrite last_cons_cons.
Qed.

Lemma MultiplyBig_spec (n m : BigUInt) :
  wf_big n -> wf_big m ->
  exists r, MultiplyBig n m = Some r /\ wf_big r /\ big r = big n * big m.
Proof.
  intros Hn Hm. unfold MultiplyBig.
  destruct (is_zero (Limbs_ n)) eqn:En.
  { apply wf_big_zero in En; [|done]. exists n. split_and!; [done|done|lia]. }
  destruct (is_zero (Limbs_ m)) eqn:Em.
  { apply wf_big_zero in Em; [|done]. eexists. split_and!; [done|split; [by repeat constructor|by left]|].
    rewrite Em. unfold big. simpl. lia. }
  pose proof Hn as [Hno _]. pose proof Hm as [Hmo _].
  pose proof (wf_big_nonempty n Hn) as Hnne. pose proof (wf_big_nonempty m Hm) as Hmne.
  assert (exists R, (outer_loop 0 (Limbs_ n) (Limbs_ m)
    (replicate (length (Limbs_ n) + length (Limbs_ m) + 1) 0)) = Some R /\ limbs_ok R /\ R <> [] /\
    value R = big n * big m) as (R & HR & HRo & HRne & HRv).
  { pose proof (value_bounds _ Hno) as Hb1. pose proof (value_bounds _ Hmo) as Hb2.
    set (L := (length (Limbs_ n) + length (Limbs_ m) + 1)%nat).
    destruct (outer_loop_spec 0 (Limbs_ n) (Limbs_ m) (replicate L 0)) as (R & HR & Hlen & HRo & Hv).
    - done.
    - done.
    - by apply Forall_replicate.
    - rewrite length_replicate. subst L. lia.
    - rewrite value_zeros, length_replicate. change (B^ 0) with 1. subst L.
      rewrite !pow_B_add. pose proof (pow_B_pos (length (Limbs_ n))).
      pose proof (pow_B_pos (length (Limbs_ m))). change (B^ 1) with LimbBase.
      assert (value (Limbs_ n) * value (Limbs_ m) < B^ (length (Limbs_ n)) * B^ (length (Limbs_ m)))
        by (apply Z.mul_lt_mono_nonneg; lia).
      unfold LimbBase at 3. lia.
    - exists R. split_and!; [done|done| |].
      + intros ->. subst L. rewrite length_replicate in Hlen. simpl in Hlen. lia.
      + rewrite Hv, value_zeros. change (B^ 0) with 1. unfold big. lia. }
  destruct (TrimLeadingZeros_spec R HRo HRne) as [Hw Hv].
  assert (forall x, Limbs_ m = [x] -> exists r, Some (MultiplySmall x n) = Some r /\ wf_big r /\
    big r = big n * big m) as Hsmall.
  { intros x Hx. rewrite Hx in Hmo. apply Forall_singleton in Hmo as [Hx0 Hx1].
    destruct (MultiplySmall_spec x n Hn) as [H1 H2]; [unfold LimbBase in *; lia|].
    eexists. split_and!; [done|done|]. rewrite H2. unfold big at 3. rewrite Hx. simpl. lia. }
  destruct (Limbs_ m) as [|x [|y l]] eqn:E; [done|by apply Hsmall|].
  rewrite HR. cbn [mbind option_bind]. eexists. split_and!; [done|done|lia].
Qed.

Lemma power_loop_spec (fuel : nat) (e : Z) (R A : BigUInt) :
  wf_big R -> wf_big A -> 0 <= e < 2 ^ Z.of_nat fuel ->
  exists r, power_loop fuel e R A = Some r /\ wf_big r /\ big r = big R * big A ^ e.
Proof.
  revert e R A. induction fuel as [|fuel IH]; intros e R A HR HA He; cbn [power_loop];
    (destruct (Z.ltb_spec 0 e) as [Hp|];
     [|exists R; split_and!; [done|done|replace e with 0 by lia; lia]]);
    [change (2 ^ Z.of_nat 0) with 1 in He; lia|].
  rewrite Nat2Z.inj_succ, Z.pow_succ_r in He by lia.
  rewrite Z.shiftr_div_pow2 by lia. change (2 ^ 1) with 2.
  change 1 with (Z.ones 1) at 1. rewrite Z.land_ones by lia. change (2 ^ 1) with 2.
  pose proof (Z.div_mod e 2 ltac:(done)) as Hdm. pose proof (Z.mod_pos_bound e 2 ltac:(done)) as Hm.
  assert (exists R1, (if negb (e mod 2 =? 0) then MultiplyBig R A else Some R) = Some R1 /\
    wf_big R1 /\ big R1 = big R * big A ^ (e mod 2)) as (R1 & -> & HR1 & HvR).
  { destruct (Z.eqb_spec (e mod 2) 0) as [E|E]; cbn [negb].
    - exists R. rewrite E. split_and!; [done|done|lia].
    - replace (e mod 2) with 1 by lia. rewrite Z.pow_1_r. by apply MultiplyBig_spec. }
  cbn [mbind option_bind].
  assert (exists A1, (if 0 <? e / 2 then MultiplyBig A A else Some A) = Some A1 /\
    wf_big A1 /\ big A1 ^ (e / 2) = (big A * big A) ^ (e / 2)) as (A1 & -> & HA1 & HvA).
  { destruct (Z.ltb_spec 0 (e / 2)) as [Hd|Hd].
    - destruct (MultiplyBig_spec A A HA HA) as (A1 & -> & HA1 & Hv).
      exists A1. by rewrite Hv.
    - exists A. replace (e / 2) with 0 by lia. done. }
  cbn [mbind option_bind].
  destruct (IH (e / 2) R1 A1 HR1 HA1) as (r & -> & Hr & Hv); [lia|].
  exists r. split_and!; [done|done|]. rewrite Hv, HvR, HvA, <- Z.pow_2_r, <- Z.pow_mul_r by lia.
  rewrite <- Z.mul_assoc, <- Z.pow_add_r by lia. do 2 f_equal. lia.
Qed.

Lemma Power_spec (b e : Z) :
  0 <= b < 2 ^ 64 -> 0 <= e < 2 ^ 64 ->
  exists r, Power b e = Some r /\ wf_big r /\ big r = b ^ e.
Proof.
  intros Hb He. unfold Power. destruct (BigUInt_spec 1 ltac:(lia)) as [H1 Hv1].
  destruct (BigUInt_spec b Hb) as [H2 Hv2].
  destruct (Z.eqb_spec e 0) as [->|]; [exists (BigUInt_ 1); split_and!; [done|done|]; by rewrite Hv1|].
  destruct (power_loop_spec 64 e (BigUInt_ 1) (BigUInt_ b) H1 H2) as (r & -> & Hr & Hv); [lia|].
  exists r. split_and!; [done|done|]. rewrite Hv, Hv1, Hv2. lia.
Qed.

(** ** The decimal text *)

Lemma dec_value_zeros (k : nat) : dec_value (replicate k x30) = 0.
Proof.
  induction k as [|k IH]; [done|]. cbn [replicate]. change (x30 :: ?l) with ([x30] ++ l).
  by rewrite dec_value_app, IH, dec_value_single.
Qed.

Lemma pad9_spec (n : Z) :
  0 <= n < LimbBase -> all_digits (pad9 n) /\ length (pad9 n) = 9%nat /\ dec_value (pad9 n) = n.
Proof.
  intros Hn. destruct (dec_text_spec n ltac:(lia)) as ((Hd & _) & Hv & _).
  pose proof (dec_text_length n 9 Hn ltac:(lia)) as Hlen. unfold pad9.
  rewrite take_ge by (rewrite length_app, length_replicate; lia).
  split_and!.
  - apply Forall_app. split; [by apply Forall_replicate|done].
  - rewrite length_app, length_replicate. lia.
  - by rewrite dec_value_app, dec_value_zeros, Hv.
Qed.

Lemma pads_spec (l : list Z) :
  limbs_ok l ->
  all_digits (l ≫= pad9) /\ dec_value (l ≫= pad9) = value (reverse l) /\
  Z.of_nat (length (l ≫= pad9)) = 9 * Z.of_nat (length l).
Proof.
  induction 1 as [|d l Hd Hl IH]; [split_and!; [constructor|done|done]|].
  destruct IH as (H1 & H2 & H3). destruct (pad9_spec d Hd) as (H4 & H5 & H6).
  rewrite bind_cons, reverse_cons, value_app, length_app, dec_value_app, H2, H6, length_reverse.
  split_and!; [by apply Forall_app| |cbn [length]; lia].
  rewrite H3. cbn [value]. rewrite (Z.pow_mul_r 10 9) by lia.
  change (10 ^ 9) with LimbBase. rewrite Z.mul_0_r. ring.
Qed.

Lemma BigUInt_decimal (n : BigUInt) :
  wf_big n -> BigUInt_ToDecimalString n = Some (dec_text (big n)).
Proof.
  intros Hw. pose proof (wf_big_nonempty n Hw) as Hne. destruct Hw as [Hok Hw].
  unfold BigUInt_ToDecimalString, big. destruct (exists_last Hne) as (k & h & E).
  rewrite E in *. rewrite reverse_app. cbn [reverse rev_append app].
  change (reverse [h]) with [h]. cbn [app]. f_equal.
  apply Forall_app in Hok as [Hk Hh]. apply Forall_singleton in Hh as [Hh0 Hh1].
  assert (limbs_ok (reverse k)) as Hrk by by apply Forall_reverse.
  destruct (pads_spec (reverse k) Hrk) as (H1 & H2 & H3). rewrite reverse_involutive in H2.
  rewrite length_reverse in H3.
  destruct (dec_text_spec h Hh0) as ((Hd & Hc) & Hv & Hnz).
  assert (dec_value (dec_text h ++ (reverse k ≫= pad9)) = value (k ++ [h])) as Hval.
  { rewrite dec_value_app, Hv, H2, H3, value_app. cbn [value].
    rewrite (Z.pow_mul_r 10 9) by lia. change (10 ^ 9) with LimbBase. rewrite Z.mul_0_r. ring. }
  rewrite <- Hval. symmetry. apply dec_text_canonical. split; [by apply Forall_app|].
  destruct Hw as [Hw|(h' & Hl & Hn0)].
  - destruct k as [|? [|? ?]]; [|done|done]. cbn [reverse rev_append mbind list_bind].
    rewrite app_nil_r. exact Hc.
  - rewrite last_snoc in Hl. injection Hl as <-. specialize (Hnz Hn0).
    destruct (dec_text h) as [|c s]; [done|]. cbn [app].
    by destruct (s ++ _).
Qed.

(** ** What the graph hash tells

    The printed hash is the product of the primes raised to the counted
    features, and two equal hashes come from equal counts. *)

(** The product of [p ^ e] over primes and exponents. *)
Fixpoint prime_product (primes exponents : list Z) : Z :=
  match primes, exponents with
  | p :: primes', e :: exponents' => p ^ e * prime_product primes' exponents'
  | _, _ => 1
  end.

(** Counters within 64 bits, one per prime. *)
Definition counters_ok (k : KghAccumulator) : Prop :=
  length (Exponents_ k) = KghPrimeCount /\ Forall (fun e => 0 <= e < 2 ^ 64) (Exponents_ k).

Lemma product_loop_spec (primes exponents : list Z) (R : BigUInt) :
  Forall (fun p => 0 <= p < 2 ^ 64) primes -> Forall (fun e => 0 <= e < 2 ^ 64) exponents ->
  wf_big R ->
  exists r, product_loop primes exponents R = Some r /\ wf_big r /\
    big r = big R * prime_product primes exponents.
Proof.
  intros Hp. revert exponents R. induction Hp as [|p primes Hp0 Hp IH]; intros exponents R He HR;
    cbn [product_loop prime_product]; [exists R; split_and!; [done|done|lia]|].
  destruct He as [|e exponents He0 He]; [exists R; split_and!; [done|done|lia]|].
  destruct (Z.eqb_spec e 0) as [->|Hnz].
  { destruct (IH exponents R He HR) as (r & -> & Hr & Hv). exists r. split_and!; [done|done|lia]. }
  destruct (Power_spec p e Hp0 He0) as (f & -> & Hf & Hvf). cbn [mbind option_bind].
  destruct (MultiplyBig_spec R f HR Hf) as (R1 & -> & HR1 & Hv1). cbn [mbind option_bind].
  destruct (IH exponents R1 He HR1) as (r & -> & Hr & Hv). exists r.
  split_and!; [done|done|]. rewrite Hv, Hv1, Hvf. ring.
Qed.

Lemma KghPrimes_small : Forall (fun p => 0 <= p < 2 ^ 64) KghPrimes.
Proof. unfold KghPrimes. repeat (apply Forall_cons_2; [lia|]). apply Forall_nil_2. Qed.

Lemma ToDecimalString_product (k : KghAccumulator) :
  counters_ok k ->
  ToDecimalString k = Some (dec_text (prime_product KghPrimes (Exponents_ k))).
Proof.
  intros [_ He]. destruct (BigUInt_spec 1 ltac:(lia)) as [H1 Hv1]. unfold ToDecimalString.
  destruct (product_loop_spec _ _ _ KghPrimes_small He H1) as (r & -> & Hr & Hv).
  cbn [mbind option_bind]. rewrite BigUInt_decimal by done. do 2 f_equal.
  rewrite Hv, Hv1. lia.
Qed.

(** ** Equal products have equal exponents *)

Definition prime_check (p : Z) : bool :=
  (1 <? p) && forallb (fun d => negb (p mod d =? 0)) (seqZ 2 (p - 2)).

Lemma prime_check_sound (p : Z) : prime_check p = true -> Z.prime p.
Proof.
  unfold prime_check. intros H. bool_props. split; [done|].
  intros n Hn Hdiv. rewrite forallb_forall in *.
  assert (negb (p mod n =? 0) = true) as Hc.
  { match goal with H : forall x, _ |- _ => apply H end.
    apply list_elem_of_In, elem_of_seqZ. lia. }
  apply Z.mod_divide in Hdiv; [|lia]. by rewrite Hdiv in Hc.
Qed.

Lemma KghPrimes_prime : Forall Z.prime KghPrimes.
Proof.
  unfold KghPrimes. repeat (apply Forall_cons_2; [by apply prime_check_sound|]). apply Forall_nil_2.
Qed.

Lemma prime_not_divides_product (p : Z) (primes exponents : list Z) :
  Z.prime p -> Forall Z.prime primes -> p ∉ primes -> Forall (fun e => 0 <= e) exponents ->
  ~ (p | prime_product primes exponents).
Proof.
  intros Hp Hps. revert exponents. induction Hps as [|q primes Hq Hps IH];
    intros exponents Hnin He Hdiv; cbn [prime_product] in Hdiv.
  - apply Z.prime_ge_2 in Hp. apply Z.divide_1_r in Hdiv. lia.
  - apply not_elem_of_cons in Hnin as [Hne Hnin]. destruct He as [|e exponents He0 He].
    { apply Z.prime_ge_2 in Hp. apply Z.divide_1_r in Hdiv. lia. }
    apply Z.divide_prime_mul in Hdiv as [Hdiv|Hdiv]; [| |done].
    + apply Z.divide_prime_pp in Hdiv; done.
    + by apply (IH exponents).
Qed.

Lemma prime_product_pos (primes exponents : list Z) :
  Forall Z.prime primes -> Forall (fun e => 0 <= e) exponents -> 0 < prime_product primes exponents.
Proof.
  intros Hps. revert exponents. induction Hps as [|q primes Hq Hps IH]; intros exponents He;
    cbn [prime_product]; [lia|]. destruct He as [|e exponents He0 He]; [lia|].
  apply Z.mul_pos_pos; [|by apply IH]. apply Z.prime_ge_2 in Hq. apply Z.pow_pos_nonneg; [lia|done].
Qed.

(** Cancelling the power of a prime that does not divide the rest. *)
Lemma prime_power_cancel (p e f x y : Z) :
  Z.prime p -> 0 <= e -> 0 <= f -> ~ (p | x) -> ~ (p | y) -> p ^ e * x = p ^ f * y -> e = f /\ x = y.
Proof.
  intros Hp He Hf Hx Hy H. pose proof (Z.prime_ge_2 p Hp) as Hp2.
  assert (forall e f x y, 0 <= e <= f -> ~ (p | x) -> p ^ e * x = p ^ f * y -> e = f /\ x = y)
    as Hle.
  { clear e f x y He Hf Hx Hy H. intros e f x y Hef Hx H.
    replace (p ^ f) with (p ^ e * p ^ (f - e)) in H by (rewrite <- Z.pow_add_r by lia; f_equal; lia).
    rewrite <- Z.mul_assoc in H. apply Z.mul_reg_l in H; [|apply Z.pow_nonzero; lia].
    destruct (Z.eq_dec e f) as [->|Hne].
    - rewrite Z.sub_diag, Z.pow_0_r in H. split; [done|lia].
    - exfalso. apply Hx. rewrite H. apply Z.divide_mul_l.
      replace (f - e) with (1 + (f - e - 1)) by lia. rewrite Z.pow_add_r, Z.pow_1_r by lia.
      apply Z.divide_factor_l. }
  destruct (Z.le_ge_cases e f).
  - by apply (Hle e f x y).
  - destruct (Hle f e y x) as [-> ->]; done.
Qed.

Lemma prime_product_inj (primes es fs : list Z) :
  Forall Z.prime primes -> NoDup primes ->
  length es = length primes -> length fs = length primes ->
  Forall (fun e => 0 <= e) es -> Forall (fun e => 0 <= e) fs ->
  prime_product primes es = prime_product primes fs -> es = fs.
Proof.
  intros Hps Hnd. revert es fs. induction Hps as [|p primes Hp Hps IH]; intros es fs Hle Hlf He Hf H.
  { by destruct es, fs. }
  destruct es as [|e es], fs as [|f fs]; try done. cbn [prime_product] in H.
  inversion Hnd as [|? ? Hnin Hnd']; inversion He as [|? ? He0 He']; inversion Hf as [|? ? Hf0 Hf']; subst.
  apply prime_power_cancel in H as [-> H]; [|done|done|done|by apply prime_not_divides_product..].
  f_equal. apply IH; [done|by injection Hle|by injection Hlf|done|done|done].
Qed.

Lemma counters_nonneg (l : list Z) :
  Forall (fun e => 0 <= e < 2 ^ 64) l -> Forall (fun e => 0 <= e) l.
Proof. intros Hl. eapply Forall_impl; [done|]. intros x Hx. simpl in Hx. lia. Qed.

Lemma dec_value_product (l : list Z) :
  Forall (fun e => 0 <= e) l ->
  dec_value (dec_text (prime_product KghPrimes l)) = prime_product KghPrimes l.
Proof.
  intros Hl. pose proof (prime_product_pos _ l KghPrimes_prime Hl).
  apply dec_text_spec. lia.
Qed.

(** C38: The graph hash printed for an accumulator with 64-bit counters is the
    decimal text, without leading zeros, of the product of the thirteen primes
    raised to the counters; the base-10^9 multiplications never leave their
    vectors, and two accumulators with the same text have the same counters. *)
Theorem graph_hash_injective (k : KghAccumulator) (Hk : counters_ok k) :
  ToDecimalString k = Some (dec_text (prime_product KghPrimes (Exponents_ k))) /\
  forall k', counters_ok k' -> ToDecimalString k' = ToDecimalString k -> k' = k.
Proof.
  split; [by apply ToDecimalString_product|]. intros k' Hk' H.
  rewrite !ToDecimalString_product in H by done. apply Some_inj in H.
  destruct Hk as [Hlen He], Hk' as [Hlen' He'].
  apply counters_nonneg in He, He'.
  apply (f_equal dec_value) in H. rewrite !dec_value_product in H by done.
  destruct k as [l], k' as [l']. cbn [Exponents_] in *. f_equal.
  eapply (prime_product_inj KghPrimes); [apply KghPrimes_prime| |done..].
  apply (bool_decide_unpack _). vm_compute. exact I.
Qed.

Lemma graph_hash_injective_witness :
  let k := AddFunctionFlags true false true (AddBlock 2 1 (AddBlock 0 0 KghEmpty)) in
  ToDecimalString k = Some (dec_text (prime_product KghPrimes (Exponents_ k))) /\
  forall k', counters_ok k' -> ToDecimalString k' = ToDecimalString k -> k' = k.
Proof.
  intros k. apply (graph_hash_injective k). split; [reflexivity|].
  apply (bool_decide_unpack _). vm_compute. exact I.
Defined.

(** ** The counters of a function's blocks *)

Lemma w64_add (a b : Z) : w64 (w64 a + b) = w64 (a + b).
Proof. unfold w64. by rewrite Z.add_mod_idemp_l. Qed.

(** What the blocks, given by their successor and predecessor counts, add. *)
Definition block_totals (bs : list (Z * Z)) : list Z :=
  [Z.of_nat (length (filter (fun b => b.2 = 0) bs));
   Z.of_nat (length (filter (fun b => b.1 = 0) bs));
   Z.of_nat (length bs);
   foldr (fun b => Z.add b.2) 0 bs;
   foldr (fun b => Z.add b.1) 0 bs].

Lemma block_totals_snoc (bs : list (Z * Z)) (b : Z * Z) :
  block_totals (bs ++ [b]) =
  zip_with Z.add (block_totals bs)
    [if b.2 =? 0 then 1 else 0; if b.1 =? 0 then 1 else 0; 1; b.2; b.1].
Proof.
  assert (forall f : Z * Z -> Z, foldr (fun b => Z.add (f b)) 0 (bs ++ [b])
    = foldr (fun b => Z.add (f b)) 0 bs + f b) as Hs.
  { intros f. induction bs as [|x bs IH]; simpl; [lia|]. rewrite IH. lia. }
  unfold block_totals. cbn [zip_with]. rewrite (Hs fst), (Hs snd), !filter_app, !length_app.
  rewrite !filter_cons, !filter_nil. cbn [length].
  assert (forall z : Z, length (if decide (z = 0) then [b] else []) = if z =? 0 then 1%nat else O)
    as Hif by (intros z; by destruct (decide (z = 0)), (Z.eqb_spec z 0)).
  rewrite !Hif, !Nat2Z.inj_add. by destruct (b.2 =? 0), (b.1 =? 0).
Qed.

(** After the blocks of a function are added to an empty accumulator, the
    counters of entries, exits, blocks, incoming and outgoing edges are the
    counts of blocks without predecessors, without successors, all blocks, and
    the sums of the predecessor and successor counts, each modulo 2^64; the
    eight other counters stay zero. *)
Theorem AddBlock_counts (bs : list (Z * Z)) :
  Exponents_ (foldl (fun k b => AddBlock b.1 b.2 k) KghEmpty bs)
  = map w64 (block_totals bs) ++ replicate 8 0.
Proof.
  induction bs as [|b bs IH] using rev_ind; [done|].
  rewrite foldl_app, block_totals_snoc. cbn [foldl].
  set (k := foldl _ _ _) in *. destruct k as [l]. cbn [Exponents_] in IH. subst l.
  unfold AddBlock, block_totals.
  destruct (b.2 =? 0), (b.1 =? 0); cbn; rewrite ?w64_add, ?Z.add_0_r; done.
Qed.
