(* ===== verification/PrimeTable.v ===== *)
(** * The prime table (src/src/PrimeTable.cpp, include/dsigmatcher/PrimeTable.h)

    A sieve of Eratosthenes below a limit, and the checked accessor. *)

From Stdlib Require Import ZArith Lia.
From stdpp Require Import base option numbers sorting list.
From S2P Require Import Prelude.
Local Open Scope Z_scope.

Record PrimeTable := MkPrimeTable { Limit_ : Z; Primes_ : list Z }.

(** [Composite[i] = 1], on an index the loops keep below [Limit]. *)
Definition set_composite (i : Z) (Composite : list bool) : list bool :=
  <[Z.to_nat i := true]> Composite.
Definition is_composite (Composite : list bool) (i : Z) : bool :=
  default true (Composite !! Z.to_nat i).

(** [for (Multiple = Candidate * Candidate; Multiple < Limit; Multiple += Candidate)]. *)
Fixpoint mark_loop (fuel : nat) (Limit Candidate Multiple : Z) (Composite : list bool)
    : list bool :=
  match fuel with
  | O => Composite
  | S fuel' =>
      if Multiple <? Limit then
        mark_loop fuel' Limit Candidate (w64 (Multiple + Candidate)) (set_composite Multiple Composite)
      else Composite
  end.

(** [for (Candidate = 2; Candidate * Candidate < Limit; ++Candidate)]. *)
Fixpoint sieve_loop (fuel : nat) (Limit Candidate : Z) (Composite : list bool) : list bool :=
  match fuel with
  | O => Composite
  | S fuel' =>
      if w64 (Candidate * Candidate) <? Limit then
        let Composite' :=
          if is_composite Composite Candidate then Composite
          else mark_loop (Z.to_nat Limit) Limit Candidate (w64 (Candidate * Candidate)) Composite in
        sieve_loop fuel' Limit (Candidate + 1) Composite'
      else Composite
  end.

Definition PrimeTable_ (Limit : Z) : PrimeTable :=
  if Limit <=? 2 then MkPrimeTable Limit []
  else
    let Composite := set_composite 1 (set_composite 0 (replicate (Z.to_nat Limit) false)) in
    let Composite := sieve_loop (Z.to_nat Limit) Limit 2 Composite in
    MkPrimeTable Limit
      (filter (fun Value => is_composite Composite Value = false) (seqZ 2 (Limit - 2))).

Definition Main : PrimeTable := PrimeTable_ (2048 * 2048).
Definition Pseudocode : PrimeTable := PrimeTable_ 4096.

Definition Count (t : PrimeTable) : nat := length (Primes_ t).
Definition InRange (Index : nat) (t : PrimeTable) : bool := (Index <? length (Primes_ t))%nat.
Definition At (Index : nat) (t : PrimeTable) : Z :=
  if InRange Index t then default 0 (Primes_ t !! Index) else 0.

(** ** What the loops mark *)

Lemma is_composite_set (C : list bool) (i n : Z) :
  0 <= i < Z.of_nat (length C) -> 0 <= n ->
  is_composite (set_composite i C) n = (i =? n) || is_composite C n.
Proof.
  intros Hi Hn. unfold is_composite, set_composite. destruct (Z.eqb_spec i n) as [->|Hne].
  - rewrite list_lookup_insert_eq; [done|lia].
  - by rewrite list_lookup_insert_ne by lia.
Qed.

Lemma set_composite_length (C : list bool) (i : Z) : length (set_composite i C) = length C.
Proof. apply length_insert. Qed.

Section Sieve.
Context (Limit : Z) (HL : 2 < Limit < 2 ^ 32).

(** [n] has a divisor [d >= 2] below [c] with [d * d <= n]. *)
Definition small_divisor (c n : Z) : Prop := exists d, 2 <= d < c /\ d * d <= n /\ (d | n).

Lemma mark_loop_spec (fuel : nat) (c m : Z) (C : list bool) :
  2 <= c -> c < Limit -> (c | m) -> 0 <= m < 2 ^ 33 -> length C = Z.to_nat Limit ->
  Limit <= m + Z.of_nat fuel * c ->
  length (mark_loop fuel Limit c m C) = Z.to_nat Limit /\
  forall n, 0 <= n < Limit ->
    is_composite (mark_loop fuel Limit c m C) n = true <->
    is_composite C n = true \/ (m <= n /\ (c | n)).
Proof.
  intros Hc HcL. revert m C. induction fuel as [|fuel IH]; intros m C Hdiv Hm HC Hf;
    cbn [mark_loop].
  { split; [done|]. intros n Hn. split; [tauto|]. intros [H|[H _]]; [done|lia]. }
  destruct (Z.ltb_spec m Limit) as [Hlt|Hge].
  - rewrite w64_small by lia.
    destruct (IH (m + c) (set_composite m C)) as [Hlen Hspec].
    { by apply Z.divide_add_r; [|apply Z.divide_refl]. } { lia. }
    { by rewrite set_composite_length. } { lia. }
    split; [done|]. intros n Hn. rewrite (Hspec n Hn), is_composite_set by lia.
    rewrite orb_true_iff, Z.eqb_eq. split.
    + intros [[->|H]|[H1 H2]]; [right; split; [lia|done]|by left|right; split; [lia|done]].
    + intros [H|[H1 H2]]; [by left; right|].
      destruct (Z.eq_dec m n) as [->|Hne]; [by left; left|].
      right. split; [|done]. destruct Hdiv as [a ->], H2 as [b ->]. assert (a < b) by nia.
      assert ((a + 1) * c <= b * c) by (apply Z.mul_le_mono_nonneg_r; lia). lia.
  - split; [done|]. intros n Hn. split; [tauto|]. intros [H|[H _]]; [done|lia].
Qed.

Lemma small_divisor_skip (c n : Z) :
  small_divisor c c -> small_divisor (c + 1) n <-> small_divisor c n.
Proof.
  intros (e & He & Hee & Hec). split; intros (d & Hd & Hdd & Hdn).
  - destruct (Z.eq_dec d c) as [->|]; [|exists d; split_and!; [lia|lia|done|done]].
    exists e. split_and!; [lia|lia|nia|by etrans].
  - exists d. split_and!; [lia|lia|done|done].
Qed.

Lemma small_divisor_step (c n : Z) :
  2 <= c -> small_divisor (c + 1) n <-> small_divisor c n \/ (c * c <= n /\ (c | n)).
Proof.
  intros Hc. split.
  - intros (d & Hd & Hdd & Hdn). destruct (Z.eq_dec d c) as [->|]; [by right|].
    left. exists d. split_and!; [lia|lia|done|done].
  - intros [(d & Hd & Hdd & Hdn)|[H1 H2]]; [exists d|exists c]; split_and!; done || lia.
Qed.

Definition sieved (c : Z) (C : list bool) : Prop :=
  length C = Z.to_nat Limit /\
  forall n, 2 <= n < Limit -> is_composite C n = true <-> small_divisor c n.

Lemma sieve_loop_spec (fuel : nat) (c : Z) (C : list bool) :
  2 <= c <= Limit -> sieved c C -> Limit <= c + Z.of_nat fuel ->
  sieved Limit (sieve_loop fuel Limit c C).
Proof.
  revert c C. induction fuel as [|fuel IH]; intros c C Hc [Hlen HC] Hf; cbn [sieve_loop].
  { assert (c = Limit) as -> by lia. by split. }
  destruct (Z.eq_dec c Limit) as [->|Hne].
  { rewrite w64_small by nia. destruct (Z.ltb_spec (Limit * Limit) Limit); [nia|]. done. }
  rewrite w64_small by nia.
  destruct (Z.ltb_spec (c * c) Limit) as [Hlt|Hge].
  - apply IH; [lia| |lia]. destruct (is_composite C c) eqn:E.
    + split; [done|]. intros n Hn. rewrite (HC n Hn). symmetry. apply small_divisor_skip.
      apply HC; [nia|done].
    + destruct (mark_loop_spec (Z.to_nat Limit) c (c * c) C) as [Hlen' Hmark];
        [lia|nia|apply Z.divide_factor_l|nia|done|nia|].
      split; [done|]. intros n Hn. rewrite (Hmark n) by lia.
      rewrite (HC n Hn). symmetry. apply small_divisor_step. lia.
  - split; [done|]. intros n Hn. rewrite (HC n Hn). split; intros (d & Hd & Hdd & Hdn).
    + exists d. split_and!; [lia|lia|done|done].
    + exists d. split_and!; [lia|nia|done|done].
Qed.

(** A number without a small divisor is prime. *)
Lemma prime_small_divisor (n : Z) :
  2 <= n < Limit -> Z.prime n <-> ~ small_divisor Limit n.
Proof.
  intros Hn. split.
  - intros [_ Hp] (d & Hd & Hdd & Hdn). apply (Hp d); [nia|done].
  - intros Hnd. split; [lia|]. intros d Hd Hdn. apply Hnd. destruct Hdn as [e He].
    destruct (Z.le_gt_cases (d * d) n) as [Hle|Hgt].
    + exists d. split_and!; [lia|lia|done|by exists e].
    + exists e. split_and!; [nia|nia|nia|]. exists d. lia.
Qed.

Lemma initial_sieved :
  sieved 2 (set_composite 1 (set_composite 0 (replicate (Z.to_nat Limit) false))).
Proof.
  split; [by rewrite !set_composite_length, length_replicate|]. intros n Hn.
  rewrite !is_composite_set by (rewrite ?set_composite_length, ?length_replicate; lia).
  destruct (Z.eqb_spec 1 n), (Z.eqb_spec 0 n); try lia. unfold is_composite.
  rewrite lookup_replicate_2 by lia. simpl. split; [done|]. intros (d & Hd & _). lia.
Qed.

Lemma PrimeTable_primes (v : Z) : v ∈ Primes_ (PrimeTable_ Limit) <-> Z.prime v /\ v < Limit.
Proof.
  unfold PrimeTable_. destruct (Z.leb_spec Limit 2); [lia|]. cbn [Primes_].
  rewrite list_elem_of_filter, elem_of_seqZ.
  destruct (sieve_loop_spec (Z.to_nat Limit) 2 _ ltac:(lia) initial_sieved ltac:(lia)) as [_ HC].
  split.
  - intros [Hv Hr]. split; [|lia]. apply prime_small_divisor; [lia|].
    rewrite <- HC by lia. congruence.
  - intros [Hp Hv]. pose proof (Z.prime_ge_2 v Hp). split; [|lia].
    apply prime_small_divisor in Hp; [|lia]. rewrite <- HC in Hp by lia.
    by apply not_true_is_false.
Qed.
End Sieve.

Lemma seqZ_sorted (m n : Z) : StronglySorted Z.lt (seqZ m n).
Proof.
  unfold seqZ. generalize (Z.to_nat n) as k. intros k. generalize 0%nat as i.
  induction k as [|k IH]; intros i; [constructor|]. cbn [seq fmap list_fmap].
  constructor; [apply IH|]. apply Forall_fmap, Forall_seq. intros j Hj. simpl. lia.
Qed.

Lemma StronglySorted_filter {A} (R : A -> A -> Prop) (Q : A -> Prop) `{!forall x, Decision (Q x)}
    (l : list A) :
  StronglySorted R l -> StronglySorted R (filter Q l).
Proof.
  induction 1 as [|x l Hs IH Hall]; [constructor|]. rewrite filter_cons.
  destruct (decide (Q x)); [|done]. constructor; [done|].
  rewrite Forall_forall in *. intros y Hy. apply list_elem_of_filter in Hy as [_ Hy]. by apply Hall.
Qed.

(** For every 32-bit limit the table holds exactly the primes below the
    limit, in increasing order, and the accessor gives the prime at an index in
    range and 0 past the end. *)
Theorem PrimeTable_is_the_primes (Limit : Z) (HL : 0 <= Limit < 2 ^ 32) :
  let t := PrimeTable_ Limit in
  (forall v, v ∈ Primes_ t <-> Z.prime v /\ v < Limit) /\
  StronglySorted Z.lt (Primes_ t) /\
  (forall i v, Primes_ t !! i = Some v -> At i t = v) /\
  (forall i, (Count t <= i)%nat -> At i t = 0).
Proof.
  intros t. split_and!.
  - intros v. subst t. destruct (Z.le_gt_cases Limit 2) as [Hle|Hgt].
    + unfold PrimeTable_. destruct (Z.leb_spec Limit 2); [|lia]. cbn [Primes_].
      rewrite elem_of_nil. split; [done|]. intros [Hp Hv]. apply Z.prime_ge_2 in Hp. lia.
    + apply PrimeTable_primes. lia.
  - subst t. unfold PrimeTable_. destruct (Limit <=? 2); cbn [Primes_]; [constructor|].
    apply StronglySorted_filter, seqZ_sorted.
  - intros i v H. unfold At, InRange. pose proof (lookup_lt_Some _ _ _ H).
    destruct (Nat.ltb_spec i (length (Primes_ t))); [by rewrite H|lia].
  - intros i H. unfold At, InRange, Count in *.
    destruct (Nat.ltb_spec i (length (Primes_ t))); [lia|done].
Qed.

Lemma PrimeTable_is_the_primes_witness :
  let t := PrimeTable_ 20 in
  Primes_ t = [2; 3; 5; 7; 11; 13; 17; 19] /\
  (forall v, v ∈ Primes_ t <-> Z.prime v /\ v < 20) /\
  StronglySorted Z.lt (Primes_ t) /\
  (forall i v, Primes_ t !! i = Some v -> At i t = v) /\
  (forall i, (Count t <= i)%nat -> At i t = 0).
Proof. split; [reflexivity|]. apply (PrimeTable_is_the_primes 20). lia. Defined.
