(* ===== verification/HashStream.v ===== *)
(** * Block hashing of a byte stream (the shared part of Md5.cpp and Sha256.cpp)

    Both hashers keep a 64-byte buffer, a bit count and a chaining state, and
    differ in the block transform and in the order of the length bytes. The
    section is the code of [Update], [FinishHex] and [Hex] over those two
    parameters, and the proof that it computes the transform over the blocks of
    the padded message, however the message was cut into updates. *)

From Stdlib Require Import ZArith Lia.
From stdpp Require Import base option numbers list.
From S2P Require Import Prelude.

(** [Hex]: two digits per byte. *)
Definition hex_char (z : Z) : byte :=
  default x30 (B "0123456789abcdef" !! Z.to_nat z).
Definition Hex (Data : text) : text :=
  Data ≫= fun b => [hex_char (Z.shiftr (code b) 4); hex_char (Z.land (code b) 0x0F)].

(** [State_], [BitCount_] and the first [BufferLength_] bytes of [Buffer_]; the
    bytes behind them are overwritten before a transform reads them. *)
Record Hasher (St : Type) := MkHasher { State_ : St; BitCount_ : Z; Buffer_ : text }.
Arguments MkHasher {St} State_ BitCount_ Buffer_.
Arguments State_ {St} h.
Arguments BitCount_ {St} h.
Arguments Buffer_ {St} h.

Section Stream.
Context {St : Type} (Transform : text -> St -> St) (Tail : Z -> text).

Definition kBlock : nat := 64.

(** [while (Length > 0)], [Data] being the bytes from [Cursor] on. *)
Fixpoint update_loop (fuel : nat) (Data : text) (st : St) (Buffer : text) : St * text :=
  match fuel with
  | O => (st, Buffer)
  | S fuel' =>
      match Data with
      | [] => (st, Buffer)
      | _ =>
          let Space := (kBlock - length Buffer)%nat in
          let Chunk := if (length Data <? Space)%nat then length Data else Space in
          let Buffer' := Buffer ++ take Chunk Data in
          if (length Buffer' =? kBlock)%nat
          then update_loop fuel' (drop Chunk Data) (Transform Buffer' st) []
          else update_loop fuel' (drop Chunk Data) st Buffer'
      end
  end.

Definition Update (Data : text) (h : Hasher St) : Hasher St :=
  let BitCount := w64 (BitCount_ h + w64 (Z.of_nat (length Data) * 8)) in
  let '(st, Buffer) := update_loop (length Data) Data (State_ h) (Buffer_ h) in
  MkHasher st BitCount Buffer.

Definition set_bits (Bits : Z) (h : Hasher St) : Hasher St :=
  MkHasher (State_ h) Bits (Buffer_ h).

(** [while (BufferLength_ != 56)]: [None] when the fuel runs out. *)
Fixpoint pad_loop (fuel : nat) (Bits : Z) (h : Hasher St) : option (Hasher St) :=
  if (length (Buffer_ h) =? 56)%nat then Some h
  else
    match fuel with
    | O => None
    | S fuel' => pad_loop fuel' Bits (set_bits Bits (Update [x00] h))
    end.

(** [FinishHex] up to the digest bytes. *)
Definition finish (h : Hasher St) : option (Hasher St) :=
  let Bits := BitCount_ h in
  let h := set_bits Bits (Update [x80] h) in
  h ← pad_loop kBlock Bits h;
  Some (set_bits Bits (Update (Tail Bits) h)).

(** ** Reference: the transform over whole blocks *)

Fixpoint absorb (fuel : nat) (st : St) (t : text) : St * text :=
  match fuel with
  | O => (st, t)
  | S fuel' =>
      if (kBlock <=? length t)%nat
      then absorb fuel' (Transform (take kBlock t) st) (drop kBlock t) else (st, t)
  end.

(** The state after the whole blocks of [t], and the bytes left over. *)
Definition absorbed (st : St) (t : text) : St * text := absorb (length t) st t.

(** The padded message: 0x80, zeros up to 56 modulo 64, the bit length. *)
Definition pad_zeros (n : nat) : nat := Z.to_nat ((55 - Z.of_nat n) mod 64).
Definition padded (t : text) : text :=
  t ++ x80 :: replicate (pad_zeros (length t)) x00 ++ Tail (w64 (Z.of_nat (length t) * 8)).

Lemma absorb_fuel (n m : nat) (st : St) (t : text) :
  (length t <= n)%nat -> (length t <= m)%nat -> absorb n st t = absorb m st t.
Proof.
  revert m st t. induction n as [|n IH]; intros [|m] st t Hn Hm; cbn [absorb]; try done;
    (destruct (Nat.leb_spec kBlock (length t)); [|done]); unfold kBlock in *; try lia.
  apply IH; rewrite length_drop; lia.
Qed.

Lemma absorbed_block (st : St) (b t : text) :
  length b = kBlock -> absorbed st (b ++ t) = absorbed (Transform b st) t.
Proof.
  intros Hb. unfold absorbed. rewrite length_app.
  rewrite (absorb_fuel _ (S (length t + kBlock))) by (rewrite length_app; lia).
  cbn [absorb]. rewrite length_app. destruct (Nat.leb_spec kBlock (length b + length t)); [|lia].
  rewrite <- Hb, take_app_length, drop_app_length. apply absorb_fuel; lia.
Qed.

Lemma absorbed_short (st : St) (t : text) :
  (length t < kBlock)%nat -> absorbed st t = (st, t).
Proof.
  intros Ht. unfold absorbed. destruct (length t) eqn:E; [done|]. cbn [absorb].
  destruct (Nat.leb_spec kBlock (length t)); [lia|done].
Qed.

Lemma absorbed_ind (Q : St -> text -> Prop) :
  (forall st t, (length t < kBlock)%nat -> Q st t) ->
  (forall st b t, length b = kBlock -> Q (Transform b st) t -> Q st (b ++ t)) ->
  forall st t, Q st t.
Proof.
  intros Hs Hb st t. remember (length t) as n eqn:Hn. revert st t Hn.
  induction n as [n IH] using lt_wf_ind. intros st t ->.
  destruct (Nat.lt_ge_cases (length t) kBlock); [by apply Hs|].
  rewrite <- (take_drop kBlock t). apply Hb; [rewrite length_take; lia|].
  eapply IH; [|done]. rewrite length_drop. unfold kBlock in *. lia.
Qed.

Lemma absorbed_app (st : St) (a b : text) :
  absorbed st (a ++ b) = absorbed (absorbed st a).1 ((absorbed st a).2 ++ b).
Proof.
  revert st a. apply (absorbed_ind (fun st a =>
    absorbed st (a ++ b) = absorbed (absorbed st a).1 ((absorbed st a).2 ++ b))).
  - intros st t Ht. by rewrite (absorbed_short st t Ht).
  - intros st c t Hc IH. rewrite <- app_assoc, !(absorbed_block st c) by done. done.
Qed.

Lemma absorbed_rest (st : St) (t : text) :
  (length (absorbed st t).2 < kBlock)%nat /\
  exists k, (length t = k * kBlock + length (absorbed st t).2)%nat.
Proof.
  revert st t. apply (absorbed_ind (fun st t => (length (absorbed st t).2 < kBlock)%nat /\
    exists k, (length t = k * kBlock + length (absorbed st t).2)%nat)).
  - intros st t Ht. rewrite (absorbed_short st t Ht). split; [done|]. exists 0%nat. simpl. lia.
  - intros st b t Hb (H1 & k & Hk). rewrite (absorbed_block st b t Hb). split; [done|].
    exists (S k). rewrite length_app, Hb. lia.
Qed.

(** ** The code computes the reference *)

Lemma update_loop_absorbed (fuel : nat) (Data : text) (st : St) (Buffer : text) :
  (length Data <= fuel)%nat -> (length Buffer < kBlock)%nat ->
  update_loop fuel Data st Buffer = absorbed st (Buffer ++ Data).
Proof.
  revert Data st Buffer. induction fuel as [|fuel IH]; intros Data st Buffer Hf Hb.
  { destruct Data; [|simpl in Hf; lia]. rewrite app_nil_r, absorbed_short by done. done. }
  destruct Data as [|d Data]; [by rewrite app_nil_r, absorbed_short by done|].
  cbn [update_loop]. set (D := d :: Data) in *.
  assert (length D = S (length Data)) as HD by done.
  set (Chunk := if (length D <? kBlock - length Buffer)%nat then length D
                else (kBlock - length Buffer)%nat).
  assert (Chunk = Nat.min (length D) (kBlock - length Buffer)) as Hc.
  { subst Chunk. destruct (Nat.ltb_spec (length D) (kBlock - length Buffer)); lia. }
  clearbody Chunk.
  replace (Buffer ++ D) with ((Buffer ++ take Chunk D) ++ drop Chunk D)
    by (rewrite <- app_assoc, take_drop; done).
  assert (length (Buffer ++ take Chunk D) = length Buffer + Chunk)%nat as Hlen
    by (rewrite length_app, length_take; lia).
  destruct (Nat.eqb_spec (length (Buffer ++ take Chunk D)) kBlock) as [E|E].
  - rewrite absorbed_block by done. rewrite IH; [done|rewrite length_drop; lia|unfold kBlock; simpl; lia].
  - apply IH; [rewrite length_drop; lia|lia].
Qed.

Definition hasher_ok (h : Hasher St) : Prop := (length (Buffer_ h) < kBlock)%nat.

Lemma Update_absorbed (Data : text) (h : Hasher St) :
  hasher_ok h ->
  State_ (Update Data h) = (absorbed (State_ h) (Buffer_ h ++ Data)).1 /\
  Buffer_ (Update Data h) = (absorbed (State_ h) (Buffer_ h ++ Data)).2 /\
  hasher_ok (Update Data h).
Proof.
  intros Hok. unfold Update. rewrite update_loop_absorbed by done.
  pose proof (absorbed_rest (State_ h) (Buffer_ h ++ Data)) as [Hr _].
  destruct (absorbed (State_ h) (Buffer_ h ++ Data)) as [st r]. done.
Qed.

(** A hasher that was fed [t] from the initial state [st]. *)
Definition fed (st : St) (t : text) (h : Hasher St) : Prop :=
  State_ h = (absorbed st t).1 /\ Buffer_ h = (absorbed st t).2.

Lemma fed_ok (st : St) (t : text) (h : Hasher St) : fed st t h -> hasher_ok h.
Proof. intros [_ H]. unfold hasher_ok. rewrite H. apply absorbed_rest. Qed.

Lemma fed_Update (st : St) (t Data : text) (h : Hasher St) :
  fed st t h -> fed st (t ++ Data) (Update Data h).
Proof.
  intros H. pose proof (Update_absorbed Data h (fed_ok _ _ _ H)) as (H1 & H2 & _).
  destruct H as [Hs Hb]. unfold fed. rewrite absorbed_app, H1, H2, Hs, Hb. done.
Qed.

Lemma fed_set_bits (st : St) (t : text) (Bits : Z) (h : Hasher St) :
  fed st t h -> fed st t (set_bits Bits h).
Proof. done. Qed.

Lemma fed_length (st : St) (t : text) (h : Hasher St) :
  fed st t h -> Z.of_nat (length (Buffer_ h)) = (Z.of_nat (length t) mod 64)%Z.
Proof.
  intros [_ Hb]. pose proof (absorbed_rest st t) as [Hr (k & Hk)]. rewrite Hb, Hk.
  unfold kBlock in *. rewrite Nat2Z.inj_add, Nat2Z.inj_mul, Z.add_comm, Z.mod_add by lia.
  rewrite Z.mod_small by lia. done.
Qed.

(** The padding loop adds the zeros that reach 56 modulo 64. *)
Lemma pad_loop_spec (fuel : nat) (st : St) (t : text) (Bits : Z) (h : Hasher St) :
  fed st t h -> ((56 - Z.of_nat (length t)) mod 64 <= Z.of_nat fuel)%Z ->
  exists h', pad_loop fuel Bits h = Some h' /\
    fed st (t ++ replicate (Z.to_nat ((56 - Z.of_nat (length t)) mod 64)) x00) h'.
Proof.
  revert t h. induction fuel as [|fuel IH]; intros t h Hfed Hf; cbn [pad_loop];
    pose proof (fed_length _ _ _ Hfed) as Hlen;
    destruct (Nat.eqb_spec (length (Buffer_ h)) 56) as [E|E].
  1, 3: exists h; (split; [done|]);
    (replace ((56 - Z.of_nat (length t)) mod 64)%Z with 0%Z
      by (Z.to_euclidean_division_equations; lia)); by rewrite app_nil_r.
  { Z.to_euclidean_division_equations; lia. }
  destruct (IH (t ++ [x00]) (set_bits Bits (Update [x00] h))) as (h' & Hh & Hfed').
  - by apply fed_set_bits, fed_Update.
  - rewrite length_app. cbn [length]. Z.to_euclidean_division_equations; lia.
  - exists h'. split; [done|]. rewrite <- app_assoc in Hfed'.
    replace (Z.to_nat ((56 - Z.of_nat (length t)) mod 64)) with
      (S (Z.to_nat ((56 - Z.of_nat (length (t ++ [x00]))) mod 64))); [done|].
    rewrite length_app. cbn [length]. Z.to_euclidean_division_equations; lia.
Qed.

Lemma finish_spec (st : St) (t : text) (h : Hasher St) :
  fed st t h -> BitCount_ h = w64 (Z.of_nat (length t) * 8) ->
  exists h', finish h = Some h' /\ fed st (padded t) h'.
Proof.
  intros Hfed Hbits. unfold finish.
  assert (fed st (t ++ [x80]) (set_bits (BitCount_ h) (Update [x80] h))) as H1
    by by apply fed_set_bits, fed_Update.
  destruct (pad_loop_spec kBlock _ _ (BitCount_ h) _ H1) as (h' & -> & H2).
  { unfold kBlock. pose proof (Z.mod_pos_bound (56 - Z.of_nat (length (t ++ [x80]))) 64). lia. }
  cbn [mbind option_bind]. eexists. split; [done|]. apply fed_set_bits.
  unfold padded. rewrite <- Hbits.
  apply (fed_Update _ _ (Tail (BitCount_ h))) in H2.
  rewrite <- !app_assoc in H2. cbn [app] in H2. unfold pad_zeros.
  rewrite length_app in H2. cbn [length] in H2.
  by replace (55 - Z.of_nat (length t))%Z with (56 - Z.of_nat (length t + 1))%Z by lia.
Qed.

(** Any sequence of updates from the initial hasher. *)
Lemma updates_spec (st : St) (pieces : list text) :
  let h := foldl (fun h d => Update d h) (MkHasher st 0 []) pieces in
  fed st (mjoin pieces) h /\ BitCount_ h = w64 (Z.of_nat (length (mjoin pieces)) * 8).
Proof.
  induction pieces as [|d pieces IH] using rev_ind; [done|].
  rewrite foldl_app, join_app. cbn [foldl]. destruct IH as [Hfed Hbits].
  set (h := foldl _ _ _) in *.
  assert (mjoin [d] = d) as -> by apply app_nil_r. split; [by apply fed_Update|].
  unfold Update. destruct (update_loop _ _ _ _) as [st' r]. cbn [BitCount_].
  rewrite Hbits. unfold w64. rewrite <- Zplus_mod, length_app. f_equal. lia.
Qed.
End Stream.
