(* ===== verification/Md5.v ===== *)
(** * MD5 (src/src/Md5.cpp)

    The block transform and the digest over the shared stream code. *)

From Stdlib Require Import ZArith Lia.
From stdpp Require Import base option numbers list.
From S2P Require Import Prelude HashStream.

Module Md5.
Local Open Scope Z_scope.

Definition RoundConstants : list Z :=
  [0xd76aa478; 0xe8c7b756; 0x242070db; 0xc1bdceee; 0xf57c0faf; 0x4787c62a; 0xa8304613;
   0xfd469501; 0x698098d8; 0x8b44f7af; 0xffff5bb1; 0x895cd7be; 0x6b901122; 0xfd987193;
   0xa679438e; 0x49b40821; 0xf61e2562; 0xc040b340; 0x265e5a51; 0xe9b6c7aa; 0xd62f105d;
   0x02441453; 0xd8a1e681; 0xe7d3fbc8; 0x21e1cde6; 0xc33707d6; 0xf4d50d87; 0x455a14ed;
   0xa9e3e905; 0xfcefa3f8; 0x676f02d9; 0x8d2a4c8a; 0xfffa3942; 0x8771f681; 0x6d9d6122;
   0xfde5380c; 0xa4beea44; 0x4bdecfa9; 0xf6bb4b60; 0xbebfbc70; 0x289b7ec6; 0xeaa127fa;
   0xd4ef3085; 0x04881d05; 0xd9d4d039; 0xe6db99e5; 0x1fa27cf8; 0xc4ac5665; 0xf4292244;
   0x432aff97; 0xab9423a7; 0xfc93a039; 0x655b59c3; 0x8f0ccc92; 0xffeff47d; 0x85845dd1;
   0x6fa87e4f; 0xfe2ce6e0; 0xa3014314; 0x4e0811a1; 0xf7537e82; 0xbd3af235; 0x2ad7d2bb;
   0xeb86d391].

Definition RotateAmounts : list Z :=
  [7; 12; 17; 22; 7; 12; 17; 22; 7; 12; 17; 22; 7; 12; 17; 22;
   5; 9; 14; 20; 5; 9; 14; 20; 5; 9; 14; 20; 5; 9; 14; 20;
   4; 11; 16; 23; 4; 11; 16; 23; 4; 11; 16; 23; 4; 11; 16; 23;
   6; 10; 15; 21; 6; 10; 15; 21; 6; 10; 15; 21; 6; 10; 15; 21].

Definition RotateLeft (Value Bits : Z) : Z :=
  Z.lor (w32 (Z.shiftl Value Bits)) (Z.shiftr Value (32 - Bits)).

(** [~x] on 32 bits. *)
Definition not32 (x : Z) : Z := w32 (Z.lnot x).

(** An array read at an index the loop keeps in range. *)
Definition word (l : list Z) (i : Z) : Z := default 0 (l !! Z.to_nat i).

Record State := MkState { sA : Z; sB : Z; sC : Z; sD : Z }.
Definition Initial : State := MkState 0x67452301 0xefcdab89 0x98badcfe 0x10325476.

(** The sixteen little-endian words of a block. *)
Definition block_word (Block : text) (Index : Z) : Z :=
  let at_ k := match Block !! Z.to_nat (Index * 4 + k) with Some b => code b | None => 0 end in
  Z.lor (Z.lor (Z.lor (at_ 0) (Z.shiftl (at_ 1) 8)) (Z.shiftl (at_ 2) 16)) (Z.shiftl (at_ 3) 24).

Definition round (Words : list Z) (s : State) (Index : Z) : State :=
  let '(MkState A B C D) := s in
  let '(F, WordIndex) :=
    if Index <? 16 then (Z.lor (Z.land B C) (Z.land (not32 B) D), Index)
    else if Index <? 32 then (Z.lor (Z.land D B) (Z.land (not32 D) C), (5 * Index + 1) mod 16)
    else if Index <? 48 then (Z.lxor (Z.lxor B C) D, (3 * Index + 5) mod 16)
    else (Z.lxor C (Z.lor B (not32 D)), (7 * Index) mod 16) in
  let F := w32 (F + A + word RoundConstants Index + word Words WordIndex) in
  MkState D (w32 (B + RotateLeft F (word RotateAmounts Index))) B C.

Definition Transform (Block : text) (s : State) : State :=
  let Words := map (block_word Block) (seqZ 0 16) in
  let r := foldl (round Words) s (seqZ 0 64) in
  MkState (w32 (sA s + sA r)) (w32 (sB s + sB r)) (w32 (sC s + sC r)) (w32 (sD s + sD r)).

(** The length bytes, least significant first. *)
Definition Tail (Bits : Z) : text :=
  map (fun Index => byte_of_code (Z.land (Z.shiftr Bits (Index * 8)) 0xFF)) (seqZ 0 8).

Definition word_bytes (w : Z) : text :=
  [byte_of_code w; byte_of_code (Z.shiftr w 8); byte_of_code (Z.shiftr w 16);
   byte_of_code (Z.shiftr w 24)].
Definition Digest (s : State) : text :=
  word_bytes (sA s) ++ word_bytes (sB s) ++ word_bytes (sC s) ++ word_bytes (sD s).

Definition Md5_ : Hasher State := MkHasher Initial 0 [].
Definition Md5_Update (Data : text) (h : Hasher State) : Hasher State := Update Transform Data h.
Definition FinishHex (h : Hasher State) : option text :=
  h' ← finish Transform Tail h; Some (Hex (Digest (State_ h'))).
Definition OfString (Text : text) : option text := FinishHex (Md5_Update Text Md5_).

(** The digest as the standard defines it: transform the blocks of the padded
    message from the initial state. *)
Definition reference (t : text) : text :=
  Hex (Digest (absorbed Transform Initial (padded Tail t)).1).

(** The suite of RFC 1321. *)
Example md5_of_empty : OfString [] = Some (B "d41d8cd98f00b204e9800998ecf8427e").
Proof. vm_compute. reflexivity. Qed.
Example md5_of_abc : OfString (B "abc") = Some (B "900150983cd24fb0d6963f7d28e17f72").
Proof. vm_compute. reflexivity. Qed.
Example md5_of_digits :
  OfString (B "12345678901234567890123456789012345678901234567890123456789012345678901234567890")
  = Some (B "57edf4a22be3c955ac49da2e2107b67a").
Proof. vm_compute. reflexivity. Qed.

(** Feeding a message to the hasher in any number of pieces and finishing
    gives the digest of the concatenation: the compression function over the
    64-byte blocks of the message padded with 0x80, zeros and the bit length;
    the padding loop ends, and the digest is 32 hexadecimal characters. *)
Theorem Md5_pieces (pieces : list text) :
  FinishHex (foldl (fun h d => Md5_Update d h) Md5_ pieces) = Some (reference (mjoin pieces)) /\
  length (reference (mjoin pieces)) = 32%nat.
Proof.
  split; [|done].
  destruct (updates_spec Transform Initial pieces) as [Hfed Hbits].
  destruct (finish_spec Transform Tail _ _ _ Hfed Hbits) as (h' & Hh & [Hs _]).
  unfold FinishHex, Md5_Update, Md5_. rewrite Hh. cbn [mbind option_bind].
  unfold reference. by rewrite Hs.
Qed.
End Md5.
