(* ===== verification/Sha256.v ===== *)
(** * SHA-256 (src/src/Sha256.cpp)

    The block transform and the digest over the shared stream code. [FileHex]
    reads a file in pieces and feeds each one; the file is the list of pieces
    the stream returned. *)

From Stdlib Require Import ZArith Lia.
From stdpp Require Import base option numbers list.
From S2P Require Import Prelude HashStream.

Module Sha256.
Local Open Scope Z_scope.

Definition RoundConstants : list Z :=
  [0x428A2F98; 0x71374491; 0xB5C0FBCF; 0xE9B5DBA5; 0x3956C25B; 0x59F111F1; 0x923F82A4;
   0xAB1C5ED5; 0xD807AA98; 0x12835B01; 0x243185BE; 0x550C7DC3; 0x72BE5D74; 0x80DEB1FE;
   0x9BDC06A7; 0xC19BF174; 0xE49B69C1; 0xEFBE4786; 0x0FC19DC6; 0x240CA1CC; 0x2DE92C6F;
   0x4A7484AA; 0x5CB0A9DC; 0x76F988DA; 0x983E5152; 0xA831C66D; 0xB00327C8; 0xBF597FC7;
   0xC6E00BF3; 0xD5A79147; 0x06CA6351; 0x14292967; 0x27B70A85; 0x2E1B2138; 0x4D2C6DFC;
   0x53380D13; 0x650A7354; 0x766A0ABB; 0x81C2C92E; 0x92722C85; 0xA2BFE8A1; 0xA81A664B;
   0xC24B8B70; 0xC76C51A3; 0xD192E819; 0xD6990624; 0xF40E3585; 0x106AA070; 0x19A4C116;
   0x1E376C08; 0x2748774C; 0x34B0BCB5; 0x391C0CB3; 0x4ED8AA4A; 0x5B9CCA4F; 0x682E6FF3;
   0x748F82EE; 0x78A5636F; 0x84C87814; 0x8CC70208; 0x90BEFFFA; 0xA4506CEB; 0xBEF9A3F7;
   0xC67178F2].

Definition RotateRight (Value Bits : Z) : Z :=
  Z.lor (Z.shiftr Value Bits) (w32 (Z.shiftl Value (32 - Bits))).

Definition not32 (x : Z) : Z := w32 (Z.lnot x).

(** An array read at an index the loop keeps in range. *)
Definition word (l : list Z) (i : Z) : Z := default 0 (l !! Z.to_nat i).

Definition State : Type := list Z.
Definition Initial : State :=
  [0x6a09e667; 0xbb67ae85; 0x3c6ef372; 0xa54ff53a; 0x510e527f; 0x9b05688c; 0x1f83d9ab; 0x5be0cd19].

(** The sixteen big-endian words of a block. *)
Definition block_word (Block : text) (Index : Z) : Z :=
  let at_ k := match Block !! Z.to_nat (Index * 4 + k) with Some b => code b | None => 0 end in
  Z.lor (Z.lor (Z.lor (Z.shiftl (at_ 0) 24) (Z.shiftl (at_ 1) 16)) (Z.shiftl (at_ 2) 8)) (at_ 3).

(** One more word of the schedule. *)
Definition extend (Schedule : list Z) (Index : Z) : list Z :=
  let Previous := word Schedule (Index - 15) in
  let Older := word Schedule (Index - 2) in
  let Sigma0 :=
    Z.lxor (Z.lxor (RotateRight Previous 7) (RotateRight Previous 18)) (Z.shiftr Previous 3) in
  let Sigma1 :=
    Z.lxor (Z.lxor (RotateRight Older 17) (RotateRight Older 19)) (Z.shiftr Older 10) in
  Schedule ++ [w32 (word Schedule (Index - 16) + Sigma0 + word Schedule (Index - 7) + Sigma1)].

Definition schedule (Block : text) : list Z :=
  foldl extend (map (block_word Block) (seqZ 0 16)) (seqZ 16 48).

Definition round (Schedule : list Z) (Working : State) (Index : Z) : State :=
  let W := word Working in
  let BigSigma1 :=
    Z.lxor (Z.lxor (RotateRight (W 4) 6) (RotateRight (W 4) 11)) (RotateRight (W 4) 25) in
  let Choose := Z.lxor (Z.land (W 4) (W 5)) (Z.land (not32 (W 4)) (W 6)) in
  let Temporary1 := w32 (W 7 + BigSigma1 + Choose + word RoundConstants Index + word Schedule Index) in
  let BigSigma0 :=
    Z.lxor (Z.lxor (RotateRight (W 0) 2) (RotateRight (W 0) 13)) (RotateRight (W 0) 22) in
  let Majority :=
    Z.lxor (Z.lxor (Z.land (W 0) (W 1)) (Z.land (W 0) (W 2))) (Z.land (W 1) (W 2)) in
  let Temporary2 := w32 (BigSigma0 + Majority) in
  [w32 (Temporary1 + Temporary2); W 0; W 1; W 2; w32 (W 3 + Temporary1); W 4; W 5; W 6].

Definition Transform (Block : text) (s : State) : State :=
  zip_with (fun a b => w32 (a + b)) s (foldl (round (schedule Block)) s (seqZ 0 64)).

(** The length bytes, most significant first. *)
Definition Tail (Bits : Z) : text :=
  map (fun Index => byte_of_code (Z.land (Z.shiftr Bits (56 - Index * 8)) 0xFF)) (seqZ 0 8).

Definition word_bytes (w : Z) : text :=
  [byte_of_code (Z.shiftr w 24); byte_of_code (Z.shiftr w 16); byte_of_code (Z.shiftr w 8);
   byte_of_code w].
Definition Digest (s : State) : text := s ≫= word_bytes.

Definition Sha256_ : Hasher State := MkHasher Initial 0 [].
Definition Sha256_Update (Data : text) (h : Hasher State) : Hasher State := Update Transform Data h.
Definition FinishHex (h : Hasher State) : option text :=
  h' ← finish Transform Tail h; Some (Hex (Digest (State_ h'))).

(** [FileHex]: the read loop over the pieces the stream delivers ([gcount] bytes
    each, an empty one is not fed); [None] when the file cannot be opened, and a
    stream that fails before its end gives no digest. *)
Record FileReads := MkReads { Pieces : list text; FailedEarly : bool }.
Definition FileHex (file : option FileReads) : option text :=
  match file with
  | None => None
  | Some r =>
      let Hasher :=
        foldl (fun h d => match d with [] => h | _ => Sha256_Update d h end) Sha256_ (Pieces r) in
      if FailedEarly r then None else FinishHex Hasher
  end.

(** The digest as the standard defines it. *)
Definition reference (t : text) : text :=
  Hex (Digest (absorbed Transform Initial (padded Tail t)).1).

Example sha256_of_empty : FinishHex Sha256_
  = Some (B "e3b0c44298fc1c149afbf4c8996fb92427ae41e4649b934ca495991b7852b855").
Proof. vm_compute. reflexivity. Qed.
Example sha256_of_abc : FinishHex (Sha256_Update (B "abc") Sha256_)
  = Some (B "ba7816bf8f01cfea414140de5dae2223b00361a396177a9cb410ff61f20015ad").
Proof. vm_compute. reflexivity. Qed.
Example sha256_of_two_blocks :
  FinishHex (Sha256_Update (B "abcdbcdecdefdefgefghfghighijhijkijkljklmklmnlmnomnopnopq") Sha256_)
  = Some (B "248d6a61d20638b8e5c026930c3e6039a33ce45964ff2167f6ecedd419db06c1").
Proof. vm_compute. reflexivity. Qed.

Lemma skip_empty (pieces : list text) (h : Hasher State) :
  foldl (fun h d => match d with [] => h | _ => Sha256_Update d h end) h pieces
  = foldl (fun h d => Sha256_Update d h) h (filter (fun d => d <> []) pieces).
Proof.
  revert h. induction pieces as [|d pieces IH]; intros h; [done|]. cbn [foldl].
  rewrite filter_cons. destruct d; [by rewrite decide_False by tauto|].
  rewrite decide_True by done. cbn [foldl]. apply IH.
Qed.

Lemma join_nonempty (pieces : list text) : mjoin (filter (fun d => d <> []) pieces) = mjoin pieces.
Proof.
  induction pieces as [|d pieces IH]; [done|]. rewrite filter_cons.
  destruct d as [|b d]; [by rewrite decide_False by tauto|]. rewrite decide_True by done.
  exact (f_equal (app (b :: d)) IH).
Qed.

(** The digest of a file read to its end in any pieces is the digest of its
    bytes: the compression function over the 64-byte blocks of the content
    padded with 0x80, zeros and the bit length; it is always produced. *)
Theorem FileHex_content (pieces : list text) :
  FileHex (Some (MkReads pieces false)) = Some (reference (mjoin pieces)).
Proof.
  unfold FileHex. cbn [Pieces FailedEarly]. rewrite skip_empty, <- join_nonempty.
  set (ps := filter _ _).
  destruct (updates_spec Transform Initial ps) as [Hfed Hbits].
  destruct (finish_spec Transform Tail _ _ _ Hfed Hbits) as (h' & Hh & [Hs _]).
  unfold FinishHex, Sha256_Update, Sha256_. rewrite Hh. cbn [mbind option_bind].
  unfold reference. by rewrite Hs.
Qed.
End Sha256.
