(* ===== verification/Utf8.v ===== *)
(** * UTF-8 (src/src/diff/Ingest.cpp, src/src/diff/Json.cpp)

    [IsValidUtf8] is the validator the ingest and the unmatched pass run on
    every text cell, with its eight-byte ASCII fast path; [AppendUtf8] is the
    encoder of the JSON parser. The validator accepts exactly the
    concatenations of what the encoder writes for Unicode scalar values. *)

From stdpp Require Import base list numbers.
From Stdlib Require Import ZArith Lia.
From S2P Require Import Prelude.
Local Open Scope Z_scope.

(** ** The validator

    The loop index is the suffix of the bytes still to read. *)

(** Eight bytes read as a little-endian word, [|=] of shifted bytes. *)
Fixpoint load_word (Data : text) (Byte : Z) (count : nat) : Z :=
  match count, Data with
  | S n, b :: Data' => Z.lor (Z.shiftl (code b) (Byte * 8)) (load_word Data' (Byte + 1) n)
  | _, _ => 0
  end.

(** The inner loop: skip eight bytes while none has its top bit set. *)
Fixpoint ascii_fast_path (fuel : nat) (rest : text) : text :=
  match fuel with
  | O => rest
  | S fuel' =>
      if (8 <=? length rest)%nat then
        if negb (Z.land (load_word rest 0 8) 0x8080808080808080 =? 0) then rest
        else ascii_fast_path fuel' (drop 8 rest)
      else rest
  end.

(** The lead byte's continuation count, least code point and payload. *)
Definition lead_class (Lead : Z) : option (nat * Z * Z) :=
  if (0xC2 <=? Lead) && (Lead <=? 0xDF) then Some (1%nat, 0x80, Z.land Lead 0x1F)
  else if (0xE0 <=? Lead) && (Lead <=? 0xEF) then Some (2%nat, 0x800, Z.land Lead 0x0F)
  else if (0xF0 <=? Lead) && (Lead <=? 0xF4) then Some (3%nat, 0x10000, Z.land Lead 0x07)
  else None.

(** The continuation loop: [None] is its [return false]. *)
Fixpoint continuations (Need : nat) (Code : Z) (rest : text) : option (Z * text) :=
  match Need with
  | O => Some (Code, rest)
  | S n =>
      match rest with
      | [] => None
      | b :: rest' =>
          if negb (Z.land (code b) 0xC0 =? 0x80) then None
          else continuations n (w32 (Z.lor (Z.shiftl Code 6) (Z.land (code b) 0x3F))) rest'
      end
  end.

(** One step of the outer loop behind the fast path: [None] is
    [return false], [Some rest] continues with the remaining bytes. *)
Definition utf8_step (Lead : byte) (tail : text) : option text :=
  if code Lead <? 0x80 then Some tail
  else
    match lead_class (code Lead) with
    | None => None
    | Some (Need, Min, Code) =>
        if (length tail <? Need)%nat then None
        else
          match continuations Need Code tail with
          | None => None
          | Some (Code', rest') =>
              if (Code' <? Min) || (0x10FFFF <? Code')
                 || ((0xD800 <=? Code') && (Code' <=? 0xDFFF))
              then None else Some rest'
          end
    end.

Fixpoint utf8_loop (fuel : nat) (rest : text) : bool :=
  match fuel with
  | O => match rest with [] => true | _ => false end
  | S fuel' =>
      match rest with
      | [] => true
      | _ =>
          match ascii_fast_path (length rest) rest with
          | [] => true
          | Lead :: tail =>
              match utf8_step Lead tail with
              | None => false
              | Some rest' => utf8_loop fuel' rest'
              end
          end
      end
  end.

Definition IsValidUtf8 (Bytes : text) : bool := utf8_loop (length Bytes) Bytes.

(** ** The encoder *)

Definition AppendUtf8 (Out : text) (Code : Z) : text :=
  if Code <? 0x80 then Out ++ [byte_of_code Code]
  else if Code <? 0x800 then
    Out ++ [byte_of_code (Z.lor 0xC0 (Z.shiftr Code 6));
            byte_of_code (Z.lor 0x80 (Z.land Code 0x3F))]
  else if Code <? 0x10000 then
    Out ++ [byte_of_code (Z.lor 0xE0 (Z.shiftr Code 12));
            byte_of_code (Z.lor 0x80 (Z.land (Z.shiftr Code 6) 0x3F));
            byte_of_code (Z.lor 0x80 (Z.land Code 0x3F))]
  else
    Out ++ [byte_of_code (Z.lor 0xF0 (Z.shiftr Code 18));
            byte_of_code (Z.lor 0x80 (Z.land (Z.shiftr Code 12) 0x3F));
            byte_of_code (Z.lor 0x80 (Z.land (Z.shiftr Code 6) 0x3F));
            byte_of_code (Z.lor 0x80 (Z.land Code 0x3F))].

(** ** Unicode scalar values and the texts that encode them *)

Definition scalar_value (c : Z) : Prop := 0 <= c < 0xD800 \/ 0xE000 <= c <= 0x10FFFF.

Inductive utf8_text : text -> Prop :=
| utf8_nil : utf8_text []
| utf8_char c t : scalar_value c -> utf8_text t -> utf8_text (AppendUtf8 [] c ++ t).

(** ** Bit operations as arithmetic *)

Lemma land_low6 (x : Z) : Z.land x 0x3F = x mod 64.
Proof. apply (Z.land_ones x 6). lia. Qed.

(** The continuation byte carrying six bits. *)
Definition cont_byte (z : Z) : byte := byte_of_code (128 + z mod 64).

Lemma lor_cont (x : Z) : Z.lor 0x80 (Z.land x 0x3F) = 128 + x mod 64.
Proof.
  rewrite land_low6. change 0x80 with (Z.shiftl 2 6).
  rewrite lor_add; [done|lia|apply Z.mod_pos_bound; lia].
Qed.

Lemma AppendUtf8_arith (Out : text) (c : Z) :
  0 <= c <= 0x10FFFF ->
  AppendUtf8 Out c = Out ++
    (if c <? 128 then [byte_of_code c]
     else if c <? 2048 then [byte_of_code (192 + c / 64); cont_byte c]
     else if c <? 65536 then
       [byte_of_code (224 + c / 4096); cont_byte (c / 64); cont_byte c]
     else [byte_of_code (240 + c / 262144); cont_byte (c / 4096); cont_byte (c / 64);
           cont_byte c]).
Proof.
  intros Hc. unfold AppendUtf8, cont_byte.
  rewrite !lor_cont, !Z.shiftr_div_pow2 by lia.
  change (2 ^ 6) with 64. change (2 ^ 12) with 4096. change (2 ^ 18) with 262144.
  destruct (Z.ltb_spec c 128); [done|].
  destruct (Z.ltb_spec c 2048).
  { change 192 with (Z.shiftl 6 5) at 1. rewrite lor_add; [done|lia|].
    split; [apply Z.div_pos; lia|apply Z.div_lt_upper_bound; lia]. }
  destruct (Z.ltb_spec c 65536).
  { change 224 with (Z.shiftl 14 4) at 1. rewrite lor_add; [done|lia|].
    split; [apply Z.div_pos; lia|apply Z.div_lt_upper_bound; lia]. }
  change 240 with (Z.shiftl 30 3) at 1. rewrite lor_add; [done|lia|].
  split; [apply Z.div_pos; lia|apply Z.div_lt_upper_bound; lia].
Qed.

(** A continuation byte is one whose two top bits are 10. *)
Lemma continuation_range (b : byte) :
  negb (Z.land (code b) 0xC0 =? 0x80) = false <-> 128 <= code b < 192.
Proof.
  destruct b; vm_compute; (split; [intros; first [discriminate | repeat split; discriminate]|]);
    intros [? ?]; try done; congruence.
Qed.

Lemma code_cont (z : Z) : code (cont_byte z) = 128 + z mod 64.
Proof. apply code_byte_of_code. pose proof (Z.mod_pos_bound z 64). lia. Qed.

(** The continuation loop reads six bits per byte. *)
Lemma continuations_step (n : nat) (c : Z) (b : byte) (t : text) :
  0 <= c < 2 ^ 20 ->
  continuations (S n) c (b :: t)
  = if (128 <=? code b) && (code b <? 192)
    then continuations n (c * 64 + (code b - 128)) t else None.
Proof.
  intros Hc. simpl. pose proof (continuation_range b) as Hr.
  destruct (negb _) eqn:E.
  - destruct (Z.leb_spec 128 (code b)), (Z.ltb_spec (code b) 192); try done.
    exfalso. destruct Hr as [_ Hr]. discriminate Hr. lia.
  - assert (128 <= code b < 192) as Hb by (by apply Hr).
    destruct (Z.leb_spec 128 (code b)), (Z.ltb_spec (code b) 192); try lia.
    simpl. rewrite land_low6, lor_add by (try apply Z.mod_pos_bound; lia).
    change (2 ^ 6) with 64.
    replace (code b mod 64) with (code b - 128)
      by (rewrite <- (Z.mod_add _ (-2)) by lia; symmetry; apply Z.mod_small; lia).
    rewrite w32_small; [done|lia].
Qed.

(** ** One step of the validator reads one encoded scalar value *)

Lemma lead_class_spec (L : Z) :
  lead_class L =
    if (194 <=? L) && (L <=? 223) then Some (1%nat, 0x80, L - 192)
    else if (224 <=? L) && (L <=? 239) then Some (2%nat, 0x800, L - 224)
    else if (240 <=? L) && (L <=? 244) then Some (3%nat, 0x10000, L - 240)
    else None.
Proof.
  unfold lead_class.
  change 0x1F with (Z.ones 5). change 0x0F with (Z.ones 4). change 0x07 with (Z.ones 3).
  rewrite !Z.land_ones by lia.
  change (2 ^ 5) with 32. change (2 ^ 4) with 16. change (2 ^ 3) with 8.
  repeat case_match_goal; bool_props; try done; repeat f_equal;
    Z.to_euclidean_division_equations; lia.
Qed.

Lemma byte_eq (b : byte) (z : Z) : code b = z -> b = byte_of_code z.
Proof. intros <-. by rewrite byte_of_code_code. Qed.

Lemma cont_eq (b : byte) (z k : Z) :
  128 <= code b < 192 -> z = k * 64 + (code b - 128) -> b = cont_byte z.
Proof.
  intros Hb ->. apply byte_eq.
  rewrite (Z.add_comm (k * 64)), Z.mod_add, Z.mod_small by lia. lia.
Qed.

(** Takes the continuation loop one byte further in hypothesis [H]. *)
Ltac read_cont H :=
  lazymatch type of H with
  | context [continuations (S ?n) ?c ?t] =>
      let b := fresh "b" in
      destruct t as [|b t]; [done|];
      rewrite (continuations_step n c b t) in H by lia;
      destruct ((128 <=? code b) && (code b <? 192)) eqn:?; [|done]; bool_props
  end.

Lemma utf8_step_sound (Lead : byte) (tail rest' : text) :
  utf8_step Lead tail = Some rest' ->
  exists c, scalar_value c /\ Lead :: tail = AppendUtf8 [] c ++ rest'.
Proof.
  unfold utf8_step. pose proof (code_bounds Lead) as HL.
  destruct (Z.ltb_spec (code Lead) 0x80) as [Ha|Ha].
  { intros [= ->]. exists (code Lead). split; [left; lia|].
    rewrite AppendUtf8_arith by lia. destruct (Z.ltb_spec (code Lead) 128); [|lia].
    by rewrite byte_of_code_code. }
  rewrite lead_class_spec.
  destruct (_ && (code Lead <=? 223)) eqn:E2; bool_props;
    [|destruct (_ && (code Lead <=? 239)) eqn:E3; bool_props;
      [|destruct (_ && (code Lead <=? 244)) eqn:E4; bool_props; [|done]]];
    (destruct (_ <? _)%nat; [done|]); intros Hrun.
  - read_cont Hrun. simpl in Hrun. destruct (_ || _) eqn:Er; [done|]. injection Hrun as ->. bool_props.
    set (c := (code Lead - 192) * 64 + (code b - 128)) in *.
    exists c. split; [unfold scalar_value; lia|].
    rewrite AppendUtf8_arith by lia.
    destruct (Z.ltb_spec c 128); [lia|]. destruct (Z.ltb_spec c 2048); [|lia].
    simpl. f_equal; [apply byte_eq; Z.to_euclidean_division_equations; lia|].
    f_equal. eapply cont_eq; [lia|reflexivity].
  - read_cont Hrun. read_cont Hrun. simpl in Hrun.
    destruct (_ || _) eqn:Er; [done|]. injection Hrun as ->. bool_props.
    set (c1 := (code Lead - 224) * 64 + (code b - 128)) in *.
    set (c := c1 * 64 + (code b0 - 128)) in *.
    assert (c / 64 = c1) as Hd by (Z.to_euclidean_division_equations; lia).
    exists c. split.
    { match goal with Hs : _ && _ = false |- _ => apply andb_false_iff in Hs as [|] end;
        bool_props; unfold scalar_value; lia. }
    rewrite AppendUtf8_arith, Hd by lia.
    destruct (Z.ltb_spec c 128); [lia|]. destruct (Z.ltb_spec c 2048); [lia|].
    destruct (Z.ltb_spec c 65536); [|lia].
    simpl. f_equal; [apply byte_eq; Z.to_euclidean_division_equations; lia|].
    f_equal; [eapply cont_eq; [lia|reflexivity]|].
    f_equal. eapply cont_eq; [lia|reflexivity].
  - do 3 read_cont Hrun. simpl in Hrun.
    destruct (_ || _) eqn:Er; [done|]. injection Hrun as ->. bool_props.
    set (c2 := (code Lead - 240) * 64 + (code b - 128)) in *.
    set (c1 := c2 * 64 + (code b0 - 128)) in *.
    set (c := c1 * 64 + (code b1 - 128)) in *.
    assert (c / 64 = c1) as Hd by (Z.to_euclidean_division_equations; lia).
    assert (c / 4096 = c2) as Hd2 by (Z.to_euclidean_division_equations; lia).
    exists c. split; [unfold scalar_value; lia|].
    rewrite AppendUtf8_arith, Hd, Hd2 by lia.
    destruct (Z.ltb_spec c 128); [lia|]. destruct (Z.ltb_spec c 2048); [lia|].
    destruct (Z.ltb_spec c 65536); [lia|].
    simpl. f_equal; [apply byte_eq; Z.to_euclidean_division_equations; lia|].
    f_equal; [eapply cont_eq; [lia|reflexivity]|].
    f_equal; [eapply cont_eq; [lia|reflexivity]|].
    f_equal. eapply cont_eq; [lia|reflexivity].
Qed.

Lemma continuations_cont (n : nat) (c z : Z) (t : text) :
  0 <= c < 2 ^ 20 ->
  continuations (S n) c (cont_byte z :: t) = continuations n (c * 64 + z mod 64) t.
Proof.
  intros Hc. rewrite continuations_step, code_cont by done.
  pose proof (Z.mod_pos_bound z 64).
  destruct (Z.leb_spec 128 (128 + z mod 64)), (Z.ltb_spec (128 + z mod 64) 192); try lia.
  simpl. f_equal. lia.
Qed.

Lemma utf8_step_multi (L : byte) (n : nat) (Min d c : Z) (tail rest : text) :
  128 <= code L -> lead_class (code L) = Some (n, Min, d) ->
  (n <= length tail)%nat -> continuations n d tail = Some (c, rest) ->
  Min <= c -> scalar_value c -> utf8_step L tail = Some rest.
Proof.
  intros HL Hlead Hn Hc Hmin Hs. unfold utf8_step. rewrite Hlead, Hc.
  destruct (Z.ltb_spec (code L) 0x80); [lia|].
  destruct (Nat.ltb_spec (length tail) n); [lia|].
  destruct (_ || _) eqn:E; [|done]. exfalso. unfold scalar_value in Hs.
  destruct (Z.ltb_spec c Min); [lia|]. destruct (Z.ltb_spec 0x10FFFF c); [lia|].
  simpl in E. bool_props. lia.
Qed.

Lemma lead_byte (k q : Z) :
  k = 192 /\ 2 <= q < 32 \/ k = 224 /\ 0 <= q < 16 \/ k = 240 /\ 0 <= q < 5 ->
  code (byte_of_code (k + q)) = k + q /\
  lead_class (k + q) =
    Some (if k =? 192 then (1%nat, 0x80, q)
          else if k =? 224 then (2%nat, 0x800, q) else (3%nat, 0x10000, q)).
Proof.
  intros Hk. split; [apply code_byte_of_code; lia|]. rewrite lead_class_spec.
  destruct Hk as [[-> ?]|[[-> ?]|[-> ?]]]; simpl;
    repeat case_match_goal; bool_props; try lia; do 2 f_equal; lia.
Qed.

Lemma utf8_step_complete (c : Z) (rest : text) :
  scalar_value c ->
  exists Lead tail, AppendUtf8 [] c ++ rest = Lead :: tail /\ utf8_step Lead tail = Some rest.
Proof.
  intros Hs. assert (0 <= c <= 0x10FFFF) as Hc by (unfold scalar_value in Hs; lia).
  rewrite AppendUtf8_arith by done.
  destruct (Z.ltb_spec c 128).
  { simpl. do 2 eexists. split; [done|]. unfold utf8_step.
    rewrite code_byte_of_code by lia. by destruct (Z.ltb_spec c 0x80); [|lia]. }
  destruct (Z.ltb_spec c 2048); [|destruct (Z.ltb_spec c 65536)]; simpl;
    (do 2 eexists; split; [done|]).
  - destruct (lead_byte 192 (c / 64)) as [Hcode Hlead];
      [left; Z.to_euclidean_division_equations; lia|].
    simpl in Hlead. eapply (utf8_step_multi _ _ _ _ c); [rewrite Hcode; Z.to_euclidean_division_equations; lia|
      rewrite Hcode; apply Hlead|simpl; lia| |lia|done].
    rewrite continuations_cont by (Z.to_euclidean_division_equations; lia).
    simpl. repeat f_equal. Z.to_euclidean_division_equations; lia.
  - destruct (lead_byte 224 (c / 4096)) as [Hcode Hlead];
      [right; left; Z.to_euclidean_division_equations; lia|].
    simpl in Hlead. eapply (utf8_step_multi _ _ _ _ c); [rewrite Hcode; Z.to_euclidean_division_equations; lia|
      rewrite Hcode; apply Hlead|simpl; lia| |lia|done].
    rewrite !continuations_cont by (Z.to_euclidean_division_equations; lia).
    simpl. repeat f_equal. Z.to_euclidean_division_equations; lia.
  - destruct (lead_byte 240 (c / 262144)) as [Hcode Hlead];
      [right; right; Z.to_euclidean_division_equations; lia|].
    simpl in Hlead. eapply (utf8_step_multi _ _ _ _ c); [rewrite Hcode; Z.to_euclidean_division_equations; lia|
      rewrite Hcode; apply Hlead|simpl; lia| |lia|done].
    rewrite !continuations_cont by (Z.to_euclidean_division_equations; lia).
    simpl. repeat f_equal. Z.to_euclidean_division_equations; lia.
Qed.

(** ** The fast path only skips ASCII *)

Lemma code_testbit_high (b : byte) (i : Z) : 8 <= i -> Z.testbit (code b) i = false.
Proof.
  intros Hi. pose proof (code_bounds b).
  destruct (Z.eq_dec (code b) 0) as [->|]; [apply Z.bits_0|].
  apply Z.bits_above_log2; [lia|]. apply Z.log2_lt_pow2; [lia|].
  eapply Z.lt_le_trans; [|apply (Z.pow_le_mono_r 2 8 i); lia]. lia.
Qed.

Lemma load_word_low (l : text) (k i : Z) (n : nat) :
  0 <= k -> i < k * 8 -> Z.testbit (load_word l k n) i = false.
Proof.
  revert l k. induction n as [|n IH]; intros l k Hk Hi;
    [destruct l; apply Z.bits_0|].
  destruct l as [|y l]; [apply Z.bits_0|]. simpl.
  rewrite Z.lor_spec, Z.shiftl_spec_low, IH by lia. done.
Qed.

Lemma load_word_top_bit (l : text) (k : Z) (n i : nat) (b : byte) :
  0 <= k -> (i < n)%nat -> l !! i = Some b ->
  Z.testbit (load_word l k n) (8 * (k + Z.of_nat i) + 7) = Z.testbit (code b) 7.
Proof.
  revert l k i. induction n as [|n IH]; intros l k i Hk Hi Hb; [lia|].
  destruct l as [|x l]; [done|]. simpl. rewrite Z.lor_spec, Z.shiftl_spec by lia.
  destruct i as [|i]; simpl in Hb.
  - injection Hb as ->. rewrite load_word_low, orb_false_r by lia.
    by replace (8 * (k + Z.of_nat 0) + 7 - k * 8) with 7 by lia.
  - rewrite code_testbit_high by lia. rewrite orb_false_l.
    replace (8 * (k + Z.of_nat (S i)) + 7) with (8 * (k + 1 + Z.of_nat i) + 7) by lia.
    apply IH; [lia|lia|done].
Qed.

Lemma top_bit_ascii (b : byte) : Z.testbit (code b) 7 = false -> code b < 128.
Proof. destruct b; vm_compute; congruence. Qed.

Lemma mask_top_bit (i : nat) :
  (i < 8)%nat -> Z.testbit 0x8080808080808080 (8 * Z.of_nat i + 7) = true.
Proof. intros Hi. do 8 (destruct i as [|i]; [done|]). lia. Qed.

Lemma word_ascii (l : text) :
  Z.land (load_word l 0 8) 0x8080808080808080 = 0 ->
  Forall (fun b => code b < 128) (take 8 l).
Proof.
  intros H. apply Forall_lookup. intros i b Hi.
  apply lookup_take_Some in Hi as [Hi Hlt]. apply top_bit_ascii.
  rewrite <- (load_word_top_bit l 0 8 i b) by (done || lia).
  apply (f_equal (fun z => Z.testbit z (8 * (0 + Z.of_nat i) + 7))) in H.
  rewrite Z.land_spec, Z.bits_0 in H.
  replace (8 * (0 + Z.of_nat i) + 7) with (8 * Z.of_nat i + 7) in * by lia.
  by rewrite (mask_top_bit i), andb_true_r in H by done.
Qed.

Lemma ascii_fast_path_spec (fuel : nat) (rest : text) :
  exists p, rest = p ++ ascii_fast_path fuel rest /\ Forall (fun b => code b < 128) p.
Proof.
  revert rest. induction fuel as [|fuel IH]; intros rest; cbn [ascii_fast_path].
  { exists []. split; [done|constructor]. }
  destruct (8 <=? length rest)%nat; [|exists []; split; [done|constructor]].
  destruct (negb _) eqn:E; [exists []; split; [done|constructor]|]. bool_props.
  destruct (IH (drop 8 rest)) as (p & Hp & Ha).
  exists (take 8 rest ++ p). rewrite <- app_assoc, <- Hp, take_drop.
  split; [done|]. apply Forall_app. split; [by apply word_ascii|done].
Qed.

(** ** The validator accepts exactly the UTF-8 texts *)

Lemma AppendUtf8_nonempty (c : Z) : AppendUtf8 [] c <> [].
Proof. unfold AppendUtf8. by repeat case_match_goal. Qed.

Lemma utf8_text_step (Lead : byte) (tail : text) :
  utf8_text (Lead :: tail) <->
  exists rest, utf8_step Lead tail = Some rest /\ utf8_text rest.
Proof.
  split.
  - intros H. remember (Lead :: tail) as l eqn:Hl. destruct H as [|c t Hc Ht]; [done|].
    destruct (utf8_step_complete c t Hc) as (L & tl & He & Hstep).
    rewrite He in Hl. injection Hl as -> ->. eauto.
  - intros (rest & Hstep & Hr). destruct (utf8_step_sound _ _ _ Hstep) as (c & Hc & ->).
    by constructor.
Qed.

Lemma utf8_step_shorter (Lead : byte) (tail rest : text) :
  utf8_step Lead tail = Some rest -> (length rest <= length tail)%nat.
Proof.
  intros H. destruct (utf8_step_sound _ _ _ H) as (c & _ & He).
  apply (f_equal length) in He. rewrite length_app in He. simpl in He.
  pose proof (AppendUtf8_nonempty c). destruct (AppendUtf8 [] c); [done|]. simpl in He. lia.
Qed.

Lemma utf8_text_ascii (p t : text) :
  Forall (fun b => code b < 128) p -> utf8_text (p ++ t) <-> utf8_text t.
Proof.
  induction 1 as [|b p Hb Hp IH]; [done|]. simpl. rewrite utf8_text_step, <- IH.
  unfold utf8_step. destruct (Z.ltb_spec (code b) 0x80); [|lia].
  split; [intros (? & [= <-] & ?); done|eauto].
Qed.

Lemma utf8_loop_spec (fuel : nat) (rest : text) :
  (length rest <= fuel)%nat -> utf8_loop fuel rest = true <-> utf8_text rest.
Proof.
  revert rest. induction fuel as [|fuel IH]; intros rest Hf.
  { destruct rest; simpl in *; [|lia]. split; [constructor|done]. }
  cbn [utf8_loop]. destruct rest as [|b rest]; [split; [constructor|done]|].
  destruct (ascii_fast_path_spec (length (b :: rest)) (b :: rest)) as (p & Hp & Ha).
  set (r := ascii_fast_path _ _) in *.
  rewrite Hp, utf8_text_ascii by done.
  apply (f_equal length) in Hp. rewrite length_app in Hp. cbn [length] in Hp, Hf.
  clearbody r. destruct r as [|Lead tail]; [split; [constructor|done]|].
  rewrite utf8_text_step. simpl in Hp. destruct (utf8_step Lead tail) as [rest'|] eqn:Hs.
  - pose proof (utf8_step_shorter _ _ _ Hs). rewrite IH by lia.
    split; [eauto|by intros (? & [= <-] & ?)].
  - split; [done|]. by intros (? & ? & ?).
Qed.

(** C39: The validator, ASCII fast path included, accepts a byte string exactly when
    it is a concatenation of the encodings the JSON parser's encoder writes for
    Unicode scalar values: no overlong form, no surrogate, nothing above U+10FFFF,
    no truncated sequence, and it always answers. *)
Theorem IsValidUtf8_accepts_utf8 (Bytes : text) :
  IsValidUtf8 Bytes = true <-> utf8_text Bytes.
Proof. by apply utf8_loop_spec. Qed.
