(* ===== verification/Json.v ===== *)
(** * JSON values, parser and writer (src/src/diff/Json.cpp, Json.h)

    The value type with its accessors, the recursive descent parser over a
    byte offset [Pos_], and the compact and pretty writer. *)

From stdpp Require Import base option list numbers.
From Stdlib Require Import ZArith Lia.
From S2P Require Import Prelude Decimal Utf8.

(** Outcome of code that can throw [JsonError]: its message and its
    [Position], [None] for [kNoOffset]. [JFuel] marks a loop of the model cut
    short; no function of this file returns it on its entry points. *)
Inductive jres (A : Type) : Type :=
| JOk (a : A)
| JErr (Message : text) (Offset : option nat)
| JFuel.
Arguments JOk {A} a.
Arguments JErr {A} Message Offset.
Arguments JFuel {A}.

#[export] Instance jres_ret : MRet jres := fun A a => JOk a.
#[export] Instance jres_bind : MBind jres :=
  fun A B f m => match m with JOk a => f a | JErr e o => JErr e o | JFuel => JFuel end.

(** ** Values *)

#[local] Unset Elimination Schemes.
Inductive JsonValue : Type :=
| JNull
| JBool (b : bool)
| JNumber (Text : text)
| JString (Utf8 : text)
| JArray (Items : list JsonValue)
| JObject (Members : list (text * JsonValue)).
#[local] Set Elimination Schemes.

Definition Int (Value : Z) : JsonValue := JNumber (dec_text Value).
Definition UInt (Value : Z) : JsonValue := JNumber (dec_text Value).

Definition KindError {A} (Wanted : text) : jres A :=
  JErr (B "JSON value is not " ++ Wanted) None.

Definition AsBool (v : JsonValue) : jres bool :=
  match v with JBool b => JOk b | _ => KindError (B "a boolean") end.
Definition NumberText (v : JsonValue) : jres text :=
  match v with JNumber t => JOk t | _ => KindError (B "a number") end.
Definition AsString (v : JsonValue) : jres text :=
  match v with JString t => JOk t | _ => KindError (B "a string") end.
Definition Items (v : JsonValue) : jres (list JsonValue) :=
  match v with JArray l => JOk l | _ => KindError (B "an array") end.
Definition Members (v : JsonValue) : jres (list (text * JsonValue)) :=
  match v with JObject l => JOk l | _ => KindError (B "an object") end.

Definition IsIntegerText (v : JsonValue) : bool :=
  match v with
  | JNumber [] => false
  | JNumber Text =>
      forallb (fun Ch => negb (bool_decide (Ch ∈ [x2e; x65; x45; x4e; x49]))) Text
  | _ => false
  end.

Definition AsInt64 (v : JsonValue) : jres Z :=
  if negb (IsIntegerText v) then KindError (B "an integer")
  else
    match v with
    | JNumber Text =>
        match from_chars (- 2 ^ 63) (2 ^ 63 - 1) Text with
        | Some (Value, []) => JOk Value
        | _ => JErr (B "integer out of int64 range: " ++ Text) None
        end
    | _ => KindError (B "an integer")
    end.

Definition AsUInt64 (v : JsonValue) : jres Z :=
  match v with
  | JNumber Text =>
      if negb (IsIntegerText v) || bool_decide (Text !! 0%nat = Some x2d)
      then KindError (B "a non-negative integer")
      else
        match from_chars 0 (2 ^ 64 - 1) Text with
        | Some (Value, []) => JOk Value
        | _ => JErr (B "integer out of uint64 range: " ++ Text) None
        end
  | _ => KindError (B "a non-negative integer")
  end.

(** Object members: first match by key, replace in place or append. *)
Fixpoint find_member (Key : text) (ms : list (text * JsonValue)) : option JsonValue :=
  match ms with
  | [] => None
  | (k, v) :: ms' => if bool_decide (k = Key) then Some v else find_member Key ms'
  end.
Fixpoint set_member (Key : text) (Value : JsonValue) (ms : list (text * JsonValue))
    : list (text * JsonValue) :=
  match ms with
  | [] => [(Key, Value)]
  | (k, v) :: ms' =>
      if bool_decide (k = Key) then (k, Value) :: ms' else (k, v) :: set_member Key Value ms'
  end.

Definition Find (Key : text) (v : JsonValue) : option JsonValue :=
  match v with JObject ms => find_member Key ms | _ => None end.
Definition At (Key : text) (v : JsonValue) : jres JsonValue :=
  match Find Key v with
  | Some w => JOk w
  | None => JErr (B "missing member " ++ x22 :: Key ++ [x22]) None
  end.
Definition Set_ (Key : text) (Value v : JsonValue) : jres JsonValue :=
  match v with
  | JObject ms => JOk (JObject (set_member Key Value ms))
  | _ => KindError (B "an object")
  end.
Definition Push (Value v : JsonValue) : jres JsonValue :=
  match v with
  | JArray l => JOk (JArray (l ++ [Value]))
  | _ => KindError (B "an array")
  end.

(** [operator==]. *)
Fixpoint json_eqb (a b : JsonValue) : bool :=
  match a, b with
  | JNull, JNull => true
  | JBool x, JBool y => Bool.eqb x y
  | JNumber x, JNumber y => bool_decide (x = y)
  | JString x, JString y => bool_decide (x = y)
  | JArray x, JArray y =>
      (fix go (x y : list JsonValue) : bool :=
         match x, y with
         | [], [] => true
         | v :: x', w :: y' => json_eqb v w && go x' y'
         | _, _ => false
         end) x y
  | JObject x, JObject y =>
      (fix go (x y : list (text * JsonValue)) : bool :=
         match x, y with
         | [], [] => true
         | (k, v) :: x', (l, w) :: y' => bool_decide (k = l) && json_eqb v w && go x' y'
         | _, _ => false
         end) x y
  | _, _ => false
  end.

(** ** Scanning

    [scan f l Pos] is where [while (Pos < size && f(Text[Pos])) ++Pos] ends,
    [l] being the text from [Pos] on. *)
Fixpoint scan (f : byte -> bool) (l : text) (Pos : nat) : nat :=
  match l with
  | Ch :: l' => if f Ch then scan f l' (S Pos) else Pos
  | [] => Pos
  end.

Definition is_ws (Ch : byte) : bool := bool_decide (Ch ∈ [x20; x09; x0a; x0d]).

Definition DigitAt (Text : text) (At_ : nat) : bool :=
  match Text !! At_ with Some Ch => is_digit Ch | None => false end.
Definition CharIn (Text : text) (At_ : nat) (set : list byte) : bool :=
  match Text !! At_ with Some Ch => bool_decide (Ch ∈ set) | None => false end.
Definition skip_digits (Text : text) (Pos : nat) : nat := scan is_digit (drop Pos Text) Pos.

(** The whole-literal check: [None] is an early [return false]. *)
Definition number_int (Text : text) (Pos : nat) : option nat :=
  let Pos := if CharIn Text Pos [x2d] then S Pos else Pos in
  if negb (DigitAt Text Pos) then None
  else if CharIn Text Pos [x30] then Some (S Pos) else Some (skip_digits Text Pos).
Definition number_frac (Text : text) (Pos : nat) : option nat :=
  if CharIn Text Pos [x2e] then
    if negb (DigitAt Text (S Pos)) then None else Some (skip_digits Text (S Pos))
  else Some Pos.
Definition number_exp (Text : text) (Pos : nat) : option nat :=
  if CharIn Text Pos [x65; x45] then
    let Pos := S Pos in
    let Pos := if CharIn Text Pos [x2b; x2d] then S Pos else Pos in
    if negb (DigitAt Text Pos) then None else Some (skip_digits Text Pos)
  else Some Pos.

Definition IsJsonNumberText (Text : text) : bool :=
  match (number_int Text 0 ≫= number_frac Text) ≫= number_exp Text with
  | Some Pos => (Pos =? length Text)%nat
  | None => false
  end.

(** ** Parser *)

Record JsonParseOptions := MkParseOptions { PythonCompat : bool; StrictControlChars : bool }.
Definition DefaultParseOptions : JsonParseOptions := MkParseOptions false true.

Definition kMaxJsonDepth : Z := 512.
Definition too_deep : text :=
  B "nesting too deep (more than " ++ dec_text kMaxJsonDepth ++ B " levels)".

(** A parser method: from [Pos_] to its result and the new [Pos_]. *)
Definition P (A : Type) : Type := nat -> jres (A * nat).
#[export] Instance P_ret : MRet P := fun A a Pos => JOk (a, Pos).
#[export] Instance P_bind : MBind P :=
  fun A B f m Pos =>
    match m Pos with JOk (a, Pos') => f a Pos' | JErr e o => JErr e o | JFuel => JFuel end.
Definition Fail {A} (Message : text) : P A := fun Pos => JErr Message (Some Pos).
Definition no_fuel {A} : P A := fun _ => JFuel.
(** [++Pos_]. *)
Definition advance : P unit := fun Pos => JOk (tt, S Pos).

Section Parser.
Context (Text_ : text) (Options_ : JsonParseOptions).

(** [Text_[Pos_]], [None] at the end. *)
Definition peek : P (option byte) := fun Pos => JOk (Text_ !! Pos, Pos).

Definition SkipWhitespace : P unit := fun Pos => JOk (tt, scan is_ws (drop Pos Text_) Pos).

Definition Consume (Literal : text) : P bool := fun Pos =>
  if bool_decide (take (length Literal) (drop Pos Text_) = Literal)
  then JOk (true, (Pos + length Literal)%nat) else JOk (false, Pos).

Definition ParseNumber : P JsonValue := fun Start =>
  let Pos := if CharIn Text_ Start [x2d] then S Start else Start in
  match Text_ !! Pos with
  | None => Fail (B "Expecting value") Pos
  | Some Ch =>
      if negb (is_digit Ch) then Fail (B "Expecting value") Pos
      else
        let Pos := if bool_decide (Ch = x30) then S Pos else skip_digits Text_ Pos in
        let Pos :=
          if CharIn Text_ Pos [x2e] && DigitAt Text_ (S Pos) then skip_digits Text_ (S Pos)
          else Pos in
        let Pos :=
          if CharIn Text_ Pos [x65; x45] then
            let Probe := S Pos in
            let Probe := if CharIn Text_ Probe [x2b; x2d] then S Probe else Probe in
            if DigitAt Text_ Probe then skip_digits Text_ Probe else Pos
          else Pos in
        JOk (JNumber (take (Pos - Start) (drop Start Text_)), Pos)
  end.

Definition hex_value (Ch : byte) : option Z :=
  if (48 <=? code Ch)%Z && (code Ch <=? 57)%Z then Some (code Ch - 48)%Z
  else if (97 <=? code Ch)%Z && (code Ch <=? 102)%Z then Some (code Ch - 97 + 10)%Z
  else if (65 <=? code Ch)%Z && (code Ch <=? 70)%Z then Some (code Ch - 65 + 10)%Z
  else None.

Fixpoint hex4_loop (count : nat) (Value : Z) : P Z := fun Pos =>
  match count with
  | O => JOk (Value, Pos)
  | S n =>
      match Text_ !! Pos ≫= hex_value with
      | Some d => hex4_loop n (Z.lor (w32 (Z.shiftl Value 4)) d) (S Pos)
      | None => Fail (B "Invalid \uXXXX escape") (S Pos)
      end
  end.

Definition ParseHex4 : P Z := fun Pos =>
  if (length Text_ <? Pos + 4)%nat then Fail (B "Invalid \uXXXX escape") Pos
  else hex4_loop 4 0 Pos.

(** The two-character escapes of the [switch]. *)
Definition simple_escape (Escape : byte) : option byte :=
  match Escape with
  | x22 => Some x22 | x5c => Some x5c | x2f => Some x2f | x62 => Some x08
  | x66 => Some x0c | x6e => Some x0a | x72 => Some x0d | x74 => Some x09
  | _ => None
  end.

(** The [case 'u'] branch: the code point, with the low surrogate paired. *)
Definition unicode_escape : P Z := fun Pos =>
  '(Code, Pos) ← ParseHex4 Pos;
  if (0xD800 <=? Code)%Z && (Code <=? 0xDBFF)%Z && (Pos + 6 <=? length Text_)%nat
     && CharIn Text_ Pos [x5c] && CharIn Text_ (S Pos) [x75]
  then
    let Save := Pos in
    '(Low, Pos) ← ParseHex4 (S (S Pos));
    if (0xDC00 <=? Low)%Z && (Low <=? 0xDFFF)%Z
    then JOk ((0x10000 + Z.shiftl (Code - 0xD800) 10 + (Low - 0xDC00))%Z, Pos)
    else JOk (Code, Save)
  else JOk (Code, Pos).

Fixpoint string_loop (fuel : nat) (Out : text) : P text := fun Pos =>
  match fuel with
  | O => JFuel
  | S fuel' =>
      match Text_ !! Pos with
      | None => Fail (B "Unterminated string") Pos
      | Some Ch =>
          if bool_decide (Ch = x22) then JOk (Out, S Pos)
          else if bool_decide (Ch = x5c) then
            match Text_ !! S Pos with
            | None => Fail (B "Unterminated string") (S Pos)
            | Some Escape =>
                match simple_escape Escape with
                | Some c => string_loop fuel' (Out ++ [c]) (S (S Pos))
                | None =>
                    if bool_decide (Escape = x75) then
                      '(Code, Pos') ← unicode_escape (S (S Pos));
                      string_loop fuel' (AppendUtf8 Out Code) Pos'
                    else Fail (B "Invalid \escape") (S (S Pos))
                end
            end
          else if (code Ch <? 0x20)%Z && StrictControlChars Options_
          then Fail (B "Invalid control character") Pos
          else string_loop fuel' (Out ++ [Ch]) (S Pos)
      end
  end.

Definition ParseString : P text := fun Pos => string_loop (length Text_) [] (S Pos).

(** The element loop; [ParseItem] is [ParseValue(Depth + 1)]. *)
Fixpoint array_loop (ParseItem : P JsonValue) (fuel : nat) (Result : list JsonValue)
    : P JsonValue :=
  match fuel with
  | O => no_fuel
  | S fuel' =>
      SkipWhitespace;;
      Value ← ParseItem;
      SkipWhitespace;;
      next ← peek;
      if bool_decide (next = Some x2c) then
        advance;; array_loop ParseItem fuel' (Result ++ [Value])
      else if bool_decide (next = Some x5d) then
        advance;; mret (JArray (Result ++ [Value]))
      else Fail (B "Expecting ',' delimiter")
  end.

Definition ParseArray (ParseItem : P JsonValue) (Depth : Z) : P JsonValue :=
  if (kMaxJsonDepth <=? Depth)%Z then Fail too_deep
  else
    advance;;
    SkipWhitespace;;
    next ← peek;
    if bool_decide (next = Some x5d) then advance;; mret (JArray [])
    else array_loop ParseItem (length Text_) [].

Fixpoint object_loop (ParseItem : P JsonValue) (fuel : nat) (Result : list (text * JsonValue))
    : P JsonValue :=
  match fuel with
  | O => no_fuel
  | S fuel' =>
      SkipWhitespace;;
      quote ← peek;
      if bool_decide (quote = Some x22) then
        Key ← ParseString;
        SkipWhitespace;;
        colon ← peek;
        if bool_decide (colon = Some x3a) then
          advance;;
          SkipWhitespace;;
          Value ← ParseItem;
          SkipWhitespace;;
          next ← peek;
          if bool_decide (next = Some x2c) then
            advance;; object_loop ParseItem fuel' (set_member Key Value Result)
          else if bool_decide (next = Some x7d) then
            advance;; mret (JObject (set_member Key Value Result))
          else Fail (B "Expecting ',' delimiter")
        else Fail (B "Expecting ':' delimiter")
      else Fail (B "Expecting property name enclosed in double quotes")
  end.

Definition ParseObject (ParseItem : P JsonValue) (Depth : Z) : P JsonValue :=
  if (kMaxJsonDepth <=? Depth)%Z then Fail too_deep
  else
    advance;;
    SkipWhitespace;;
    next ← peek;
    if bool_decide (next = Some x7d) then advance;; mret (JObject [])
    else object_loop ParseItem (length Text_) [].

(** The literals, tried in order; [None] when none matches. *)
Definition ParseLiteral : P (option JsonValue) :=
  null ← Consume (B "null");
  if (null : bool) then mret (Some JNull) else
  true_ ← Consume (B "true");
  if (true_ : bool) then mret (Some (JBool true)) else
  false_ ← Consume (B "false");
  if (false_ : bool) then mret (Some (JBool false)) else
  if PythonCompat Options_ then
    nan ← Consume (B "NaN");
    if (nan : bool) then mret (Some (JNumber (B "NaN"))) else
    inf ← Consume (B "Infinity");
    if (inf : bool) then mret (Some (JNumber (B "Infinity"))) else
    ninf ← Consume (B "-Infinity");
    if (ninf : bool) then mret (Some (JNumber (B "-Infinity"))) else mret None
  else mret None.

(** [fuel] bounds the nesting, which [Depth] already does. *)
Fixpoint ParseValue (fuel : nat) (Depth : Z) : P JsonValue :=
  match fuel with
  | O => no_fuel
  | S fuel' =>
      first ← peek;
      match first with
      | None => Fail (B "Expecting value")
      | Some Ch =>
          if bool_decide (Ch = x7b) then ParseObject (ParseValue fuel' (Depth + 1)) Depth
          else if bool_decide (Ch = x5b) then ParseArray (ParseValue fuel' (Depth + 1)) Depth
          else if bool_decide (Ch = x22) then s ← ParseString; mret (JString s)
          else
            literal ← ParseLiteral;
            match literal with
            | Some v => mret v
            | None =>
                if bool_decide (Ch = x2d) || is_digit Ch then ParseNumber
                else Fail (B "Expecting value")
            end
      end
  end.

Definition ParseDocument : P JsonValue :=
  SkipWhitespace;;
  Value ← ParseValue (Z.to_nat (kMaxJsonDepth + 1)) 0;
  SkipWhitespace;;
  next ← peek;
  match next with
  | Some _ => Fail (B "Extra data")
  | None => mret Value
  end.
End Parser.

Definition JsonParse (Text : text) (Options : JsonParseOptions) : jres JsonValue :=
  match ParseDocument Text Options 0 with
  | JOk (v, _) => JOk v
  | JErr e o => JErr e o
  | JFuel => JFuel
  end.

(** ** Writer *)

(** [snprintf("\\u%04x")] of a control character. *)
Definition hex_digit (z : Z) : byte :=
  if (z <? 10)%Z then byte_of_code (48 + z) else byte_of_code (97 + (z - 10)).
Definition control_escape (Ch : byte) : text :=
  B "\u" ++ [x30; x30; hex_digit (code Ch / 16); hex_digit (code Ch mod 16)].

Definition quote_byte (Ch : byte) : text :=
  match Ch with
  | x22 => [x5c; x22] | x5c => [x5c; x5c] | x0a => [x5c; x6e] | x0d => [x5c; x72]
  | x09 => [x5c; x74] | x08 => [x5c; x62] | x0c => [x5c; x66]
  | _ => if (code Ch <? 0x20)%Z then control_escape Ch else [Ch]
  end.

Definition JsonQuote (Utf8 : text) : text := x22 :: (Utf8 ≫= quote_byte) ++ [x22].

Record JsonWriteOptions := MkWriteOptions { Pretty : bool }.

Definition NewLine (Options : JsonWriteOptions) (Level : nat) : text :=
  if Pretty Options then x0a :: replicate (Level * 2) x20 else [].
Definition colon (Options : JsonWriteOptions) : text :=
  if Pretty Options then B ": " else B ":".

(** The text [Write] appends. *)
Fixpoint Write (Options : JsonWriteOptions) (Indent : nat) (Value : JsonValue) : text :=
  match Value with
  | JNull => B "null"
  | JBool b => if b then B "true" else B "false"
  | JNumber t => t
  | JString t => JsonQuote t
  | JArray l =>
      let item v := NewLine Options (S Indent) ++ Write Options (S Indent) v in
      [x5b]
      ++ (fix items (first : bool) (l : list JsonValue) : text :=
            match l with
            | [] => []
            | v :: l' => (if first then [] else [x2c]) ++ item v ++ items false l'
            end) true l
      ++ (match l with [] => [] | _ => NewLine Options Indent end) ++ [x5d]
  | JObject ms =>
      let member k v :=
        NewLine Options (S Indent) ++ JsonQuote k ++ colon Options ++ Write Options (S Indent) v in
      [x7b]
      ++ (fix members (first : bool) (ms : list (text * JsonValue)) : text :=
            match ms with
            | [] => []
            | (k, v) :: ms' => (if first then [] else [x2c]) ++ member k v ++ members false ms'
            end) true ms
      ++ (match ms with [] => [] | _ => NewLine Options Indent end) ++ [x7d]
  end.

Definition JsonWrite (Value : JsonValue) (Options : JsonWriteOptions) : text :=
  Write Options 0 Value.
