(* ===== verification/JsonScan.v ===== *)
(** * Scanning, numbers and strings of the JSON code

    How the scanning loops move over a text, the number grammar that the
    literal check and the parser implement, and the string literals. *)

From Stdlib Require Import ZArith Lia.
From stdpp Require Import base option numbers list.
From S2P Require Import Prelude Decimal Utf8 Json.

(** ** Positions as suffixes *)

Lemma drop_cons_inv {A} (l : list A) (p : nat) (c : A) (s : list A) :
  drop p l = c :: s -> l !! p = Some c /\ drop (S p) l = s /\ p < length l.
Proof.
  intros H. assert (l !! p = Some c) as Hc.
  { rewrite <- (Nat.add_0_r p), <- lookup_drop, H. done. }
  split; [done|]. split; [|by eapply lookup_lt_Some].
  replace (S p) with (p + 1) by lia. rewrite <- drop_drop, H. done.
Qed.

Lemma drop_nil_inv {A} (l : list A) (p : nat) : drop p l = [] -> l !! p = None /\ length l <= p.
Proof.
  intros H. assert (length l <= p) as Hp.
  { apply (f_equal length) in H. rewrite length_drop in H. simpl in H. lia. }
  split; [by apply lookup_ge_None|done].
Qed.

Lemma drop_app_inv {A} (l s r : list A) (p : nat) :
  drop p l = s ++ r -> drop (p + length s) l = r.
Proof. intros H. rewrite <- drop_drop, H. apply drop_app_length. Qed.

Lemma lookup_drop_cons {A} (l : list A) (p : nat) (c : A) :
  l !! p = Some c -> drop p l = c :: drop (S p) l.
Proof. intros H. by apply drop_S. Qed.

(** The text does not continue with a byte of [f]. *)
Definition stops (f : byte -> bool) (r : text) : Prop :=
  match r with [] => True | c :: _ => f c = false end.

Lemma scan_app (f : byte -> bool) (s r : text) (p : nat) :
  Forall (fun c => f c = true) s -> stops f r -> scan f (s ++ r) p = p + length s.
Proof.
  intros Hs Hr. revert p. induction Hs as [|c s Hc Hs IH]; intros p; simpl.
  - destruct r as [|c r]; simpl in *; [lia|]. rewrite Hr. lia.
  - rewrite Hc, IH. lia.
Qed.

(** Where a scan ends: behind bytes of [f], in front of none. *)
Lemma scan_spec (f : byte -> bool) (l : text) (p : nat) :
  exists s r, l = s ++ r /\ Forall (fun c => f c = true) s /\ stops f r /\
    scan f l p = p + length s.
Proof.
  revert p. induction l as [|c l IH]; intros p; simpl.
  { exists [], []. split_and!; try done; simpl; lia. }
  destruct (f c) eqn:E.
  - destruct (IH (S p)) as (s & r & -> & Hs & Hr & ->).
    exists (c :: s), r. split_and!; try done; try (simpl; lia). by constructor.
  - exists [], (c :: l). split_and!; try done; simpl; lia.
Qed.

Lemma CharIn_cons (T : text) (p : nat) (c : byte) (s : text) (set : list byte) :
  drop p T = c :: s -> CharIn T p set = bool_decide (c ∈ set).
Proof. intros H. unfold CharIn. by destruct (drop_cons_inv _ _ _ _ H) as [-> _]. Qed.

Lemma DigitAt_cons (T : text) (p : nat) (c : byte) (s : text) :
  drop p T = c :: s -> DigitAt T p = is_digit c.
Proof. intros H. unfold DigitAt. by destruct (drop_cons_inv _ _ _ _ H) as [-> _]. Qed.

Lemma CharIn_nil (T : text) (p : nat) (set : list byte) :
  drop p T = [] -> CharIn T p set = false.
Proof. intros H. unfold CharIn. by destruct (drop_nil_inv _ _ H) as [-> _]. Qed.

Lemma DigitAt_nil (T : text) (p : nat) : drop p T = [] -> DigitAt T p = false.
Proof. intros H. unfold DigitAt. by destruct (drop_nil_inv _ _ H) as [-> _]. Qed.

Lemma DigitAt_true (T : text) (p : nat) :
  DigitAt T p = true <-> exists c, drop p T = c :: drop (S p) T /\ is_digit c = true.
Proof.
  unfold DigitAt. split.
  - destruct (T !! p) as [c|] eqn:E; [|done]. intros Hd. exists c.
    split; [by apply lookup_drop_cons|done].
  - intros (c & Hc & Hd). by destruct (drop_cons_inv _ _ _ _ Hc) as [-> _].
Qed.

Lemma CharIn_true (T : text) (p : nat) (set : list byte) :
  CharIn T p set = true -> exists c, drop p T = c :: drop (S p) T /\ c ∈ set.
Proof.
  unfold CharIn. destruct (T !! p) as [c|] eqn:E; [|done]. intros Hd. bool_props. exists c.
  split; [by apply lookup_drop_cons|done].
Qed.

Lemma skip_digits_app (T s r : text) (p : nat) :
  drop p T = s ++ r -> Forall (fun c => is_digit c = true) s -> stops is_digit r ->
  skip_digits T p = p + length s.
Proof. intros H Hs Hr. unfold skip_digits. rewrite H. by apply scan_app. Qed.

(** ** The number grammar

    Python's NUMBER_RE: an optional minus, a zero or a run of digits that does
    not start with zero, an optional fraction, an optional exponent. *)

Definition digits (s : text) : Prop := Forall (fun c => is_digit c = true) s.

Definition int_part (s : text) : Prop :=
  s = [x30] \/ exists d ds, s = d :: ds /\ is_digit d = true /\ d <> x30 /\ digits ds.
Definition sign_part (s : text) : Prop := s = [] \/ s = [x2d].
Definition frac_part (s : text) : Prop :=
  s = [] \/ exists d ds, s = x2e :: d :: ds /\ is_digit d = true /\ digits ds.
Definition exp_sign (s : text) : Prop := s = [] \/ s = [x2b] \/ s = [x2d].
Definition exp_part (s : text) : Prop :=
  s = [] \/ exists e sg d ds, s = e :: sg ++ d :: ds /\ e ∈ [x65; x45] /\ exp_sign sg /\
    is_digit d = true /\ digits ds.

Definition json_number (t : text) : Prop :=
  exists sg i f e, t = sg ++ i ++ f ++ e /\ sign_part sg /\ int_part i /\ frac_part f /\ exp_part e.

Lemma digit_codes (d : byte) : is_digit d = true -> (48 <= code d <= 57)%Z.
Proof. unfold is_digit. intros H. bool_props. lia. Qed.

(** A digit is none of the other bytes of the grammar. *)
Lemma digit_not (d c : byte) : is_digit d = true -> is_digit c = false -> d <> c.
Proof. by intros Hd Hc ->; rewrite Hd in Hc. Qed.

Lemma digit_not_in (d : byte) (set : list byte) :
  is_digit d = true -> Forall (fun c => is_digit c = false) set -> bool_decide (d ∈ set) = false.
Proof.
  intros Hd Hs. apply bool_decide_eq_false. intros Hin.
  rewrite Forall_forall in Hs. pose proof (Hs _ Hin). congruence.
Qed.

(** ** One lemma per part of a number, in both directions *)

(** [p'] is reached from [p] over the text [s]. *)
Definition moves (T : text) (p p' : nat) (s : text) : Prop :=
  drop p T = s ++ drop p' T /\ p' = p + length s.

Lemma moves_nil (T : text) (p : nat) : moves T p p [].
Proof. split; simpl; [done|lia]. Qed.

Lemma moves_app (T s s' : text) (p p' p'' : nat) :
  moves T p p' s -> moves T p' p'' s' -> moves T p p'' (s ++ s').
Proof.
  intros [H ->] [H' ->]. split; [by rewrite H, H', app_assoc|rewrite length_app; lia].
Qed.

Lemma moves_cons (T s : text) (p p' : nat) (c : byte) :
  drop p T = c :: drop (S p) T -> moves T (S p) p' s -> moves T p p' (c :: s).
Proof. intros H [Hs ->]. split; [by rewrite H, Hs|simpl; lia]. Qed.

Lemma moves_of_drop (T s r : text) (p : nat) :
  drop p T = s ++ r -> moves T p (p + length s) s.
Proof. intros H. split; [by rewrite (drop_app_inv _ _ _ _ H)|done]. Qed.

Lemma moves_substr (T s : text) (p p' : nat) :
  moves T p p' s -> take (p' - p) (drop p T) = s.
Proof.
  intros [H ->]. rewrite H. replace (p + length s - p) with (length s) by lia.
  apply take_app_length.
Qed.

Lemma skip_digits_moves (T : text) (p : nat) :
  exists s, moves T p (skip_digits T p) s /\ digits s /\ stops is_digit (drop (skip_digits T p) T).
Proof.
  unfold skip_digits. destruct (scan_spec is_digit (drop p T) p) as (s & r & H & Hs & Hr & ->).
  exists s. split; [by eapply moves_of_drop|]. split; [done|]. by rewrite (drop_app_inv _ _ _ _ H).
Qed.

(** From a digit on: the run of digits is not empty. *)
Lemma skip_digits_digit (T : text) (p : nat) :
  DigitAt T p = true ->
  exists d ds, drop p T = d :: drop (S p) T /\ moves T p (skip_digits T p) (d :: ds) /\
    is_digit d = true /\ digits ds.
Proof.
  intros H. apply DigitAt_true in H as (d & Hd & Hdig).
  destruct (skip_digits_moves T p) as (s & Hm & Hs & Hr).
  destruct s as [|c s].
  - destruct Hm as [H1 H2]. simpl in H1, H2. rewrite <- H1 in Hr. rewrite Hd in Hr.
    simpl in Hr. congruence.
  - pose proof Hm as [H1 _]. rewrite Hd in H1. injection H1 as -> _.
    exists c, s. inversion Hs. split_and!; done.
Qed.

Lemma number_int_sound (T : text) (p p' : nat) :
  number_int T p = Some p' ->
  exists sg i, moves T p p' (sg ++ i) /\ sign_part sg /\ int_part i.
Proof.
  unfold number_int.
  assert (exists sg, moves T p (if CharIn T p [x2d] then S p else p) sg /\ sign_part sg)
    as (sg & Hsg & Hsign).
  { destruct (CharIn T p [x2d]) eqn:E.
    - apply CharIn_true in E as (c & Hc & Hin). apply list_elem_of_singleton in Hin as ->.
      exists [x2d]. split; [by apply moves_cons, moves_nil|by right].
    - exists []. split; [apply moves_nil|by left]. }
  generalize dependent (if CharIn T p [x2d] then S p else p). intros q Hsg.
  destruct (DigitAt T q) eqn:Ed; simpl; [|done].
  destruct (CharIn T q [x30]) eqn:E0; intros [= <-].
  - apply CharIn_true in E0 as (c & Hc & Hin). apply list_elem_of_singleton in Hin as ->.
    exists sg, [x30]. split_and!; [|done|by left].
    eapply moves_app; [done|by apply moves_cons, moves_nil].
  - destruct (skip_digits_digit T q Ed) as (d & ds & Hd & Hm & Hdig & Hds).
    exists sg, (d :: ds). split_and!; [by eapply moves_app|done|]. right.
    exists d, ds. split_and!; try done. intros ->.
    rewrite (CharIn_cons _ _ _ _ _ Hd) in E0. done.
Qed.

Lemma number_frac_sound (T : text) (p p' : nat) :
  number_frac T p = Some p' -> exists f, moves T p p' f /\ frac_part f.
Proof.
  unfold number_frac. destruct (CharIn T p [x2e]) eqn:E.
  - apply CharIn_true in E as (c & Hc & Hin). apply list_elem_of_singleton in Hin as ->.
    destruct (DigitAt T (S p)) eqn:Ed; simpl; [|done]. intros [= <-].
    destruct (skip_digits_digit T (S p) Ed) as (d & ds & Hd & Hm & Hdig & Hds).
    exists (x2e :: d :: ds). split; [by apply moves_cons|]. right. by exists d, ds.
  - intros [= <-]. exists []. split; [apply moves_nil|by left].
Qed.

Lemma number_exp_sound (T : text) (p p' : nat) :
  number_exp T p = Some p' -> exists e, moves T p p' e /\ exp_part e.
Proof.
  unfold number_exp. destruct (CharIn T p [x65; x45]) eqn:E.
  - apply CharIn_true in E as (c & Hc & Hin).
    assert (exists sg, moves T (S p) (if CharIn T (S p) [x2b; x2d] then S (S p) else S p) sg
      /\ exp_sign sg) as (sg & Hsg & Hsign).
    { destruct (CharIn T (S p) [x2b; x2d]) eqn:Es.
      - apply CharIn_true in Es as (k & Hk & Hkin). exists [k].
        split; [by apply moves_cons, moves_nil|].
        rewrite !elem_of_cons, elem_of_nil in Hkin.
        destruct Hkin as [->|[->|[]]]; unfold exp_sign; tauto.
      - exists []. split; [apply moves_nil|by left]. }
    generalize dependent (if CharIn T (S p) [x2b; x2d] then S (S p) else S p). intros q Hsg.
    destruct (DigitAt T q) eqn:Ed; simpl; [|done]. intros [= <-].
    destruct (skip_digits_digit T q Ed) as (d & ds & Hd & Hm & Hdig & Hds).
    exists (c :: sg ++ d :: ds).
    split; [apply moves_cons; [done|by eapply moves_app]|]. right. exists c, sg, d, ds. done.
  - intros [= <-]. exists []. split; [apply moves_nil|by left].
Qed.

(** A part that is in the grammar is read in full when the rest cannot
    continue it. *)
Lemma digits_read (T : text) (p : nat) (d : byte) (ds r : text) :
  drop p T = (d :: ds) ++ r -> is_digit d = true -> digits ds -> stops is_digit r ->
  DigitAt T p = true /\ skip_digits T p = p + length (d :: ds).
Proof.
  intros H Hd Hds Hr. split.
  - rewrite (DigitAt_cons _ _ _ _ H). done.
  - eapply skip_digits_app; [done| |done]. by constructor.
Qed.

Lemma number_int_complete (T sg i r : text) (p : nat) :
  drop p T = sg ++ i ++ r -> sign_part sg -> int_part i -> stops is_digit r ->
  number_int T p = Some (p + length (sg ++ i)).
Proof.
  intros H Hsg Hi Hr. unfold number_int.
  assert ((if CharIn T p [x2d] then S p else p) = p + length sg) as ->.
  { destruct Hsg as [-> | ->].
    - simpl in H |- *. destruct Hi as [-> | (d & ds & -> & Hd & _)];
        rewrite (CharIn_cons _ _ _ _ _ H); [simpl; lia|].
      rewrite digit_not_in; [lia|done|by repeat constructor].
    - rewrite (CharIn_cons _ _ _ _ _ H). simpl. lia. }
  pose proof (drop_app_inv _ _ _ _ H) as H'. rewrite length_app, Nat.add_assoc.
  destruct Hi as [-> | (d & ds & -> & Hd & Hnz & Hds)].
  - rewrite (DigitAt_cons _ _ _ _ H'), (CharIn_cons _ _ _ _ _ H'). simpl. f_equal. lia.
  - destruct (digits_read _ _ _ _ _ H' Hd Hds Hr) as [-> ->]. simpl.
    rewrite (CharIn_cons _ _ _ _ _ H'). rewrite bool_decide_false; [done|].
    by rewrite list_elem_of_singleton.
Qed.

Lemma number_frac_complete (T f r : text) (p : nat) :
  drop p T = f ++ r -> frac_part f -> stops (fun c => is_digit c || bool_decide (c = x2e)) r ->
  number_frac T p = Some (p + length f).
Proof.
  intros H Hf Hr. unfold number_frac. destruct Hf as [-> | (d & ds & -> & Hd & Hds)].
  - simpl in H. destruct r as [|c r]; [rewrite CharIn_nil by done; simpl; f_equal; lia|].
    rewrite (CharIn_cons _ _ _ _ _ H). simpl in Hr. bool_props.
    rewrite bool_decide_false by (by rewrite list_elem_of_singleton). simpl. f_equal. lia.
  - rewrite (CharIn_cons _ _ _ _ _ H). apply drop_cons_inv in H as (_ & H & _).
    destruct (digits_read T (S p) d ds r H Hd Hds) as [-> ->].
    { destruct r; [done|]. simpl in Hr |- *. by bool_props. }
    simpl. f_equal. lia.
Qed.

Lemma number_exp_complete (T e r : text) (p : nat) :
  drop p T = e ++ r -> exp_part e ->
  stops (fun c => is_digit c || bool_decide (c ∈ [x65; x45])) r ->
  number_exp T p = Some (p + length e).
Proof.
  intros H He Hr. unfold number_exp. destruct He as [-> | (c & sg & d & ds & -> & Hc & Hsg & Hd & Hds)].
  - simpl in H. destruct r as [|c r]; [rewrite CharIn_nil by done; simpl; f_equal; lia|].
    rewrite (CharIn_cons _ _ _ _ _ H). simpl in Hr. bool_props.
    rewrite bool_decide_false by done. simpl. f_equal. lia.
  - rewrite (CharIn_cons _ _ _ _ _ H), bool_decide_true by done.
    change (drop p T = c :: ((sg ++ d :: ds) ++ r)) in H. rewrite <- app_assoc in H.
    apply drop_cons_inv in H as (_ & H & _).
    assert ((if CharIn T (S p) [x2b; x2d] then S (S p) else S p) = S p + length sg) as ->.
    { destruct Hsg as [-> |[-> | ->]]; simpl in H |- *; rewrite (CharIn_cons _ _ _ _ _ H);
        simpl; try lia. rewrite digit_not_in; [lia|done|by repeat constructor]. }
    apply drop_app_inv in H. destruct (digits_read T _ d ds r H Hd Hds) as [-> ->].
    { destruct r; [done|]. simpl in Hr |- *. by bool_props. }
    simpl. f_equal. rewrite length_app. simpl. lia.
Qed.

(** ** The literal check and the parser *)

(** What may follow a number that is read in full. *)
Definition after_number (c : byte) : bool :=
  is_digit c || bool_decide (c ∈ [x2e; x65; x45]).

Lemma stops_weaken (f g : byte -> bool) (r : text) :
  (forall c, g c = true -> f c = true) -> stops f r -> stops g r.
Proof.
  intros H. destruct r as [|c r]; [done|]. simpl. intros Hc.
  destruct (g c) eqn:E; [|done]. apply H in E. congruence.
Qed.

Lemma after_number_cases (c : byte) :
  (is_digit c = true -> after_number c = true) /\
  (is_digit c || bool_decide (c = x2e) = true -> after_number c = true) /\
  (is_digit c || bool_decide (c ∈ [x65; x45]) = true -> after_number c = true).
Proof.
  unfold after_number. destruct (is_digit c); [done|]. simpl.
  rewrite !bool_decide_eq_true, !elem_of_cons, elem_of_nil. split_and!; [done|tauto|tauto].
Qed.

Lemma frac_stops_int (f e r : text) :
  frac_part f -> exp_part e -> stops after_number r -> stops is_digit (f ++ e ++ r).
Proof.
  intros Hf He Hr. destruct Hf as [-> | (d & ds & -> & _)]; [|done].
  destruct He as [-> | (c & sg & d & ds & -> & Hc & _)]; simpl.
  - eapply stops_weaken; [|apply Hr]. apply after_number_cases.
  - rewrite !elem_of_cons, elem_of_nil in Hc. by destruct Hc as [->|[->|[]]].
Qed.

Lemma exp_stops_frac (e r : text) :
  exp_part e -> stops after_number r ->
  stops (fun c => is_digit c || bool_decide (c = x2e)) (e ++ r).
Proof.
  intros He Hr. destruct He as [-> | (c & sg & d & ds & -> & Hc & _)]; simpl.
  - eapply stops_weaken; [|apply Hr]. apply after_number_cases.
  - rewrite !elem_of_cons, elem_of_nil in Hc. by destruct Hc as [->|[->|[]]].
Qed.

(** All three parts of a literal followed by [r]. *)
Lemma number_parts_complete (T t r : text) (p : nat) :
  drop p T = t ++ r -> json_number t -> stops after_number r ->
  exists p1 p2, number_int T p = Some p1 /\ number_frac T p1 = Some p2 /\
    number_exp T p2 = Some (p + length t).
Proof.
  intros H (sg & i & f & e & -> & Hsg & Hi & Hf & He) Hr.
  rewrite <- !app_assoc in H. rewrite (app_assoc sg i (f ++ e)), (app_assoc (sg ++ i) f e).
  pose proof H as H0. rewrite app_assoc in H0. apply drop_app_inv in H0.
  pose proof (drop_app_inv _ _ _ _ H0) as H1.
  exists (p + length (sg ++ i)), (p + length (sg ++ i) + length f). split_and!.
  - eapply number_int_complete; [done|done|done|by apply frac_stops_int].
  - eapply number_frac_complete; [done|done|by apply exp_stops_frac].
  - rewrite (number_exp_complete T e r) by
      (done || (eapply stops_weaken; [|apply Hr]; apply after_number_cases)).
    rewrite !length_app. f_equal. lia.
Qed.

(** The check accepts exactly the literals of the grammar. *)
Lemma IsJsonNumberText_iff (Text : text) : IsJsonNumberText Text = true <-> json_number Text.
Proof.
  split.
  - unfold IsJsonNumberText.
    destruct (number_int Text 0) as [p1|] eqn:E1; simpl; [|done].
    destruct (number_frac Text p1) as [p2|] eqn:E2; simpl; [|done].
    destruct (number_exp Text p2) as [p3|] eqn:E3; simpl; [|done]. intros He. bool_props. subst.
    apply number_int_sound in E1 as (sg & i & M1 & ? & ?).
    apply number_frac_sound in E2 as (f & M2 & ?).
    apply number_exp_sound in E3 as (e & M3 & ?).
    exists sg, i, f, e. split_and!; try done.
    pose proof (moves_app _ _ _ _ _ _ (moves_app _ _ _ _ _ _ M1 M2) M3) as [HT _].
    rewrite drop_0, drop_all, app_nil_r in HT. by rewrite HT at 1; rewrite <- !app_assoc.
  - intros Hn. destruct (number_parts_complete Text Text [] 0) as (p1 & p2 & E1 & E2 & E3);
      [by rewrite app_nil_r|done|done|].
    unfold IsJsonNumberText. rewrite E1. simpl. rewrite E2. simpl. rewrite E3. simpl.
    by apply Nat.eqb_eq.
Qed.

(** The number check used before a conversion to double accepts exactly
    Python's NUMBER_RE: an optional minus, an integer without leading zeros, an
    optional fraction and an optional exponent, each with at least one digit. *)
Theorem IsJsonNumberText_grammar (Text : text) : IsJsonNumberText Text = true <-> json_number Text.
Proof. apply IsJsonNumberText_iff. Qed.

(** The parser reads the same three parts, the last two optional. *)
Lemma ParseNumber_parts (T : text) (p : nat) :
  ParseNumber T p =
    match number_int T p with
    | None => Fail (B "Expecting value") (if CharIn T p [x2d] then S p else p)
    | Some p1 =>
        let p2 := default p1 (number_frac T p1) in
        let p3 := default p2 (number_exp T p2) in
        JOk (JNumber (take (p3 - p) (drop p T)), p3)
    end.
Proof.
  unfold ParseNumber, number_int.
  generalize (if CharIn T p [x2d] then S p else p). intros q.
  rewrite (eq_refl : DigitAt T q = match T !! q with Some c => is_digit c | None => false end).
  rewrite (eq_refl : CharIn T q [x30] =
    match T !! q with Some c => bool_decide (c ∈ [x30]) | None => false end).
  destruct (T !! q) as [c|] eqn:Eq; [|done].
  destruct (is_digit c); [|done]. simpl negb. cbv iota.
  assert (bool_decide (c ∈ [x30]) = bool_decide (c = x30)) as ->.
  { apply bool_decide_ext. by rewrite list_elem_of_singleton. }
  assert (forall p1, (if CharIn T p1 [x2e] && DigitAt T (S p1) then skip_digits T (S p1) else p1)
    = default p1 (number_frac T p1)) as Hf.
  { intros p1. unfold number_frac. destruct (CharIn T p1 [x2e]); [|done].
    by destruct (DigitAt T (S p1)). }
  assert (forall p2, (if CharIn T p2 [x65; x45] then
      let Probe := S p2 in
      let Probe := if CharIn T Probe [x2b; x2d] then S Probe else Probe in
      if DigitAt T Probe then skip_digits T Probe else p2 else p2)
    = default p2 (number_exp T p2)) as He.
  { intros p2. unfold number_exp. destruct (CharIn T p2 [x65; x45]); [|done]. simpl.
    by destruct (DigitAt T _). }
  destruct (bool_decide (c = x30)); rewrite <- Hf, <- He; done.
Qed.

(** A literal is read in full when what follows cannot continue it. *)
Lemma ParseNumber_read (T t r : text) (p : nat) :
  drop p T = t ++ r -> json_number t -> stops after_number r ->
  ParseNumber T p = JOk (JNumber t, p + length t).
Proof.
  intros H Hn Hr. destruct (number_parts_complete T t r p H Hn Hr) as (p1 & p2 & E1 & E2 & E3).
  rewrite ParseNumber_parts, E1. simpl. rewrite E2. simpl. rewrite E3. simpl.
  rewrite H. replace (p + length t - p) with (length t) by lia. by rewrite take_app_length.
Qed.

Lemma json_number_nonempty (t : text) : json_number t -> t <> [].
Proof.
  intros (sg & i & f & e & -> & _ & Hi & _) E.
  apply app_eq_nil in E as [_ E]. apply app_eq_nil in E as [-> _].
  by destruct Hi as [|(? & ? & ? & _)].
Qed.

(** Whatever the parser returns for a number is a literal of the grammar. *)
Lemma ParseNumber_sound (T : text) (p : nat) :
  p <= length T ->
  match ParseNumber T p with
  | JOk (v, p') => exists t, v = JNumber t /\ json_number t /\ moves T p p' t
  | JErr _ o => exists k, o = Some k /\ k <= S p
  | JFuel => False
  end.
Proof.
  intros Hp. rewrite ParseNumber_parts. destruct (number_int T p) as [p1|] eqn:E1.
  - apply number_int_sound in E1 as (sg & i & H1 & Hsg & Hi).
    set (p2 := default p1 (number_frac T p1)).
    assert (exists f, moves T p1 p2 f /\ frac_part f) as (f & H2 & Hf).
    { subst p2. destruct (number_frac T p1) as [q|] eqn:E; simpl; [by apply number_frac_sound|].
      exists []. split; [apply moves_nil|by left]. }
    set (p3 := default p2 (number_exp T p2)).
    assert (exists e, moves T p2 p3 e /\ exp_part e) as (e & H3 & He).
    { subst p3. destruct (number_exp T p2) as [q|] eqn:E; simpl; [by apply number_exp_sound|].
      exists []. split; [apply moves_nil|by left]. }
    pose proof (moves_app _ _ _ _ _ _ (moves_app _ _ _ _ _ _ H1 H2) H3) as Hm.
    cbv zeta. fold p2. fold p3. rewrite (moves_substr _ _ _ _ Hm).
    exists (((sg ++ i) ++ f) ++ e). split_and!; [done| |done].
    exists sg, i, f, e. by rewrite <- !app_assoc.
  - simpl. eexists. split; [done|]. destruct (CharIn T p [x2d]); lia.
Qed.

(** ** JSON string literals

    A quoted text parses back to itself, whatever its bytes, and the string
    parser always stops inside the text. *)

(** Every byte is quoted in one of three ways. *)
Lemma quote_byte_cases (c : byte) :
  (exists e, quote_byte c = [x5c; e] /\ simple_escape e = Some c) \/
  (quote_byte c = control_escape c /\ (code c < 32)%Z) \/
  (quote_byte c = [c] /\ c <> x22 /\ c <> x5c /\ (32 <= code c)%Z).
Proof.
  destruct c;
    first [ left; eexists; split; reflexivity
          | right; left; split; [reflexivity|reflexivity]
          | right; right; split_and!; [reflexivity|done|done|vm_compute; done] ].
Qed.

(** The four digits of a control escape spell its code. *)
Lemma control_escape_hex (c : byte) :
  (code c < 32)%Z ->
  exists h l v w, control_escape c = [x5c; x75; x30; x30; h; l] /\
    hex_value h = Some v /\ hex_value l = Some w /\
    Z.lor (w32 (Z.shiftl (Z.lor (w32 (Z.shiftl 0 4)) v) 4)) w = code c /\
    AppendUtf8 [] (code c) = [c].
Proof.
  intros Hc. exists (hex_digit (code c / 16)), (hex_digit (code c mod 16)),
    (code c / 16)%Z, (code c mod 16)%Z.
  split; [done|]. revert Hc.
  destruct c; intros Hc; first [discriminate Hc | split_and!; reflexivity].
Qed.

Lemma AppendUtf8_app (Out : text) (c : Z) : AppendUtf8 Out c = Out ++ AppendUtf8 [] c.
Proof. unfold AppendUtf8. by repeat case_match_goal. Qed.

Section String.
Context (T : text) (o : JsonParseOptions).

Lemma hex4_step (n p : nat) (V d : Z) (c : byte) (r : text) :
  drop p T = c :: r -> hex_value c = Some d ->
  hex4_loop T (S n) V p = hex4_loop T n (Z.lor (w32 (Z.shiftl V 4)) d) (S p).
Proof.
  intros H Hd. apply drop_cons_inv in H as (E & _). cbn [hex4_loop]. rewrite E. simpl.
  by rewrite Hd.
Qed.

(** A control escape is read as the byte it stands for. *)
Lemma unicode_escape_control (p : nat) (c h l : byte) (v w : Z) (r : text) :
  drop p T = x30 :: x30 :: h :: l :: r -> hex_value h = Some v -> hex_value l = Some w ->
  Z.lor (w32 (Z.shiftl (Z.lor (w32 (Z.shiftl 0 4)) v) 4)) w = code c ->
  unicode_escape T p = JOk (code c, S (S (S (S p)))).
Proof.
  intros H Hh Hl Hc. unfold unicode_escape, ParseHex4.
  assert (p + 4 <= length T) as Hlen.
  { apply (f_equal length) in H. rewrite length_drop in H. simpl in H. lia. }
  destruct (Nat.ltb_spec (length T) (p + 4)); [lia|].
  pose proof (drop_cons_inv _ _ _ _ H) as (_ & H1 & _).
  pose proof (drop_cons_inv _ _ _ _ H1) as (_ & H2 & _).
  pose proof (drop_cons_inv _ _ _ _ H2) as (_ & H3 & _).
  erewrite hex4_step, hex4_step, hex4_step, hex4_step by (done || reflexivity).
  cbn [hex4_loop mbind jres_bind].
  match goal with
  | |- context [(0xD800 <=? ?x)%Z] => assert (x = code c) as -> by exact Hc
  end.
  pose proof (code_bounds c).
  destruct (Z.leb_spec 0xD800 (code c)); [lia|]. done.
Qed.

(** One quoted byte is read as that byte. *)
Lemma string_loop_step (fuel p : nat) (Out r : text) (c : byte) :
  drop p T = quote_byte c ++ r ->
  string_loop T o (S fuel) Out p
  = string_loop T o fuel (Out ++ [c]) (p + length (quote_byte c)).
Proof.
  intros H. cbn [string_loop].
  destruct (quote_byte_cases c) as [(e & Eq & He)|[(Eq & Hc)|(Eq & Hq & Hb & Hc)]].
  - rewrite Eq in *. apply drop_cons_inv in H as (E1 & H & _).
    apply drop_cons_inv in H as (E2 & _). rewrite E1, E2.
    rewrite bool_decide_false, bool_decide_true, He by done. simpl. f_equal. lia.
  - rewrite Eq in *. destruct (control_escape_hex c Hc) as (h & l & v & w & Ee & Hh & Hl & Hv & Ha).
    rewrite Ee in *. apply drop_cons_inv in H as (E1 & H & _).
    apply drop_cons_inv in H as (E2 & H & _). rewrite E1, E2.
    rewrite bool_decide_false, bool_decide_true by done. cbn [simple_escape].
    rewrite bool_decide_true by done.
    rewrite (unicode_escape_control _ c h l v w r) by done.
    cbn [mbind jres_bind]. rewrite AppendUtf8_app, Ha. simpl. f_equal. lia.
  - rewrite Eq in *. apply drop_cons_inv in H as (E1 & _). rewrite E1.
    rewrite !bool_decide_false by done.
    destruct (Z.ltb_spec (code c) 0x20); [lia|]. simpl. f_equal. lia.
Qed.

Lemma string_loop_quote (s r Out : text) (fuel p : nat) :
  drop p T = (s ≫= quote_byte) ++ x22 :: r -> length s < fuel ->
  string_loop T o fuel Out p = JOk (Out ++ s, p + length (s ≫= quote_byte) + 1).
Proof.
  revert Out fuel p. induction s as [|c s IH]; intros Out fuel p H Hf;
    (destruct fuel as [|fuel]; [simpl in Hf; lia|]).
  - simpl in *. apply drop_cons_inv in H as (E & _). rewrite E.
    rewrite bool_decide_true by done. rewrite app_nil_r. do 2 f_equal. lia.
  - rewrite bind_cons, <- app_assoc in H. rewrite (string_loop_step _ _ _ _ _ H).
    apply drop_app_inv in H. rewrite (IH _ _ _ H) by (simpl in Hf; lia).
    rewrite bind_cons, length_app, <- app_assoc. do 2 f_equal. simpl. lia.
Qed.

(** Quoted text is at least as long as the text. *)
Lemma length_quote (s : text) : length s <= length (s ≫= quote_byte).
Proof.
  induction s as [|c s IH]; [simpl; lia|]. rewrite bind_cons, length_app.
  destruct (quote_byte_cases c) as [(e & -> & _)|[(-> & _)|(-> & _)]]; simpl; lia.
Qed.

Lemma ParseString_quote (s r : text) (p : nat) :
  drop p T = JsonQuote s ++ r ->
  ParseString T o p = JOk (s, p + length (JsonQuote s)).
Proof.
  unfold JsonQuote, ParseString. intros H.
  assert (length s < length T) as Hlen.
  { apply (f_equal length) in H. rewrite length_drop in H. simpl in H.
    rewrite !length_app in H. simpl in H. pose proof (length_quote s). lia. }
  simpl in H. rewrite <- app_assoc in H. apply drop_cons_inv in H as (_ & H & _).
  rewrite (string_loop_quote s r) by done. simpl. rewrite length_app. simpl. do 2 f_equal. lia.
Qed.
End String.

(** * The JSON parser always answers, and answers with well-formed values

    Well-formedness and nesting depth of a value; every run of the parser ends
    in such a value or in an error whose offset is inside the text. *)

(** ** Well-formed values *)

(** The texts a number may hold: a literal of the grammar, and the three
    constants when the options allow them. *)
Definition number_text (o : JsonParseOptions) (t : text) : Prop :=
  json_number t \/
  (PythonCompat o = true /\ t ∈ [B "NaN"; B "Infinity"; B "-Infinity"]).

Fixpoint wf_value (o : JsonParseOptions) (v : JsonValue) : Prop :=
  match v with
  | JNumber t => number_text o t
  | JArray l => foldr (fun w => and (wf_value o w)) True l
  | JObject ms => NoDup ms.*1 /\ foldr (fun kv => and (wf_value o kv.2)) True ms
  | _ => True
  end.

(** Levels of arrays and objects. *)
Fixpoint height (v : JsonValue) : nat :=
  match v with
  | JArray l => S (foldr (fun w => Nat.max (height w)) 0 l)
  | JObject ms => S (foldr (fun kv => Nat.max (height kv.2)) 0 ms)
  | _ => 0
  end.

(** Well-formed, and no deeper than what is left below [Depth]. *)
Definition fits (o : JsonParseOptions) (Depth : Z) (v : JsonValue) : Prop :=
  wf_value o v /\ (Z.of_nat (height v) + Depth <= kMaxJsonDepth)%Z.

Lemma foldr_and {A} (Q : A -> Prop) (l : list A) :
  foldr (fun x => and (Q x)) True l <-> Forall Q l.
Proof.
  induction l as [|x l IH]; simpl; [split; [constructor|done]|].
  by rewrite IH, Forall_cons.
Qed.

Lemma foldr_max {A} (f : A -> nat) (l : list A) (k : nat) :
  foldr (fun x => Nat.max (f x)) 0 l <= k <-> Forall (fun x => f x <= k) l.
Proof.
  induction l as [|x l IH]; simpl; [split; [constructor|lia]|].
  rewrite Forall_cons, <- IH. lia.
Qed.

(** The members [set_member] leaves: same keys or one more, the new value. *)
Lemma set_member_keys (k : text) (v : JsonValue) (ms : list (text * JsonValue)) :
  (set_member k v ms).*1 = if bool_decide (k ∈ ms.*1) then ms.*1 else ms.*1 ++ [k].
Proof.
  induction ms as [|[k' v'] ms IH]; [done|]. cbn [set_member]. rewrite fmap_cons. cbn [fst].
  destruct (bool_decide (k' = k)) eqn:E; bool_props; rewrite fmap_cons; cbn [fst].
  - subst. rewrite bool_decide_true; [done|]. apply elem_of_cons. by left.
  - rewrite IH.
    assert (bool_decide (k ∈ k' :: ms.*1) = bool_decide (k ∈ ms.*1)) as ->.
    { apply bool_decide_ext. rewrite elem_of_cons. split; [intros [->|]; done|by right]. }
    by destruct (bool_decide (k ∈ ms.*1)).
Qed.

Lemma set_member_nodup (k : text) (v : JsonValue) (ms : list (text * JsonValue)) :
  NoDup ms.*1 -> NoDup (set_member k v ms).*1.
Proof.
  intros H. rewrite set_member_keys. destruct (bool_decide _) eqn:E; [done|]. bool_props.
  apply NoDup_app. split_and!; [done| |apply NoDup_singleton].
  intros x Hx Hin. apply list_elem_of_singleton in Hin as ->. done.
Qed.

Lemma set_member_forall (Q : text * JsonValue -> Prop) (k : text) (v : JsonValue)
    (ms : list (text * JsonValue)) :
  Forall Q ms -> (forall k', Q (k', v)) -> Forall Q (set_member k v ms).
Proof.
  intros H Hv. induction H as [|[k' v'] ms Hx H IH]; simpl; [by repeat constructor|].
  destruct (bool_decide _); by constructor.
Qed.

(** ** Runs of the parser *)

Section Total.
Context (T : text) (o : JsonParseOptions).

(** The outcome is a result that satisfies [Q] or an error with an offset
    inside the text. *)
Definition outcome {A} (Q : A -> nat -> Prop) (r : jres (A * nat)) : Prop :=
  match r with
  | JOk (a, p') => Q a p'
  | JErr _ off => exists k, off = Some k /\ k <= length T
  | JFuel => False
  end.

Lemma outcome_bind {A C} (Q : A -> nat -> Prop) (R : C -> nat -> Prop) (m : P A)
    (f : A -> P C) (p : nat) :
  outcome Q (m p) -> (forall a p', Q a p' -> outcome R (f a p')) ->
  outcome R ((m ≫= f) p).
Proof.
  intros Hm Hf. unfold mbind, P_bind. destruct (m p) as [[a p']| |]; simpl in *; auto.
Qed.

Lemma outcome_weaken {A} (Q R : A -> nat -> Prop) (r : jres (A * nat)) :
  outcome Q r -> (forall a p', Q a p' -> R a p') -> outcome R r.
Proof. destruct r as [[a p']| |]; simpl; auto. Qed.

Lemma outcome_fail {A} (Q : A -> nat -> Prop) (m : text) (p : nat) :
  p <= length T -> outcome Q (Fail m p).
Proof. intros H. simpl. eauto. Qed.

Lemma SkipWhitespace_outcome (p : nat) :
  p <= length T -> outcome (fun _ p' => p <= p' <= length T) (SkipWhitespace T p).
Proof.
  intros Hp. unfold SkipWhitespace. simpl.
  destruct (scan_spec is_ws (drop p T) p) as (s & r & H & _ & _ & ->).
  apply (f_equal length) in H. rewrite length_drop, length_app in H. lia.
Qed.

Lemma hex4_outcome (n p : nat) (V : Z) :
  p + n <= length T -> outcome (fun _ p' => p' = p + n) (hex4_loop T n V p).
Proof.
  revert p V. induction n as [|n IH]; intros p V Hp; [simpl; lia|]. cbn [hex4_loop].
  destruct (T !! p ≫= hex_value); [|apply outcome_fail; lia].
  eapply outcome_weaken; [apply IH; lia|]. simpl. intros; lia.
Qed.

Lemma ParseHex4_outcome (p : nat) :
  p <= length T -> outcome (fun _ p' => p < p' <= length T) (ParseHex4 T p).
Proof.
  intros Hp. unfold ParseHex4. destruct (Nat.ltb_spec (length T) (p + 4)).
  { by apply outcome_fail. }
  eapply outcome_weaken; [apply hex4_outcome; lia|]. simpl. intros; lia.
Qed.

Lemma unicode_escape_outcome (p : nat) :
  p <= length T -> outcome (fun _ p' => p < p' <= length T) (unicode_escape T p).
Proof.
  intros Hp. unfold unicode_escape. pose proof (ParseHex4_outcome p Hp) as H4.
  destruct (ParseHex4 T p) as [[Code q]|m off|]; simpl in *; [|done|done].
  destruct (_ && _) eqn:E; [|done]. bool_props.
  pose proof (ParseHex4_outcome (S (S q)) ltac:(lia)) as H4'.
  destruct (ParseHex4 T (S (S q))) as [[Low q']|m off|]; simpl in *; [|done|done].
  destruct (_ && _); simpl; lia.
Qed.

Lemma string_loop_outcome (fuel p : nat) (Out : text) :
  p <= length T -> length T - p < fuel ->
  outcome (fun _ p' => p < p' <= length T) (string_loop T o fuel Out p).
Proof.
  revert p Out. induction fuel as [|fuel IH]; intros p Out Hp Hf; [lia|]. cbn [string_loop].
  destruct (T !! p) as [c|] eqn:E; [|by apply outcome_fail].
  pose proof (lookup_lt_Some _ _ _ E) as Hlt.
  assert (forall q Out', p < q <= length T ->
    outcome (fun _ p' => p < p' <= length T) (string_loop T o fuel Out' q)) as Hgo.
  { intros q Out' Hq. eapply outcome_weaken; [apply IH; lia|]. simpl. intros; lia. }
  destruct (bool_decide (c = x22)); [simpl; lia|].
  destruct (bool_decide (c = x5c)).
  - destruct (T !! S p) as [e|] eqn:Ee; [|apply outcome_fail; lia].
    pose proof (lookup_lt_Some _ _ _ Ee) as Hlt'.
    destruct (simple_escape e); [apply Hgo; lia|].
    destruct (bool_decide (e = x75)); [|apply outcome_fail; lia].
    pose proof (unicode_escape_outcome (S (S p)) ltac:(lia)) as Hu.
    destruct (unicode_escape T (S (S p))) as [[Code q]|m off|]; simpl in *; [|done|done].
    apply Hgo. lia.
  - destruct (_ && _); [by apply outcome_fail|]. apply Hgo. lia.
Qed.

Lemma ParseString_outcome (p : nat) :
  p < length T -> outcome (fun _ p' => p < p' <= length T) (ParseString T o p).
Proof.
  intros Hp. unfold ParseString.
  eapply outcome_weaken; [apply string_loop_outcome; lia|]. simpl. intros; lia.
Qed.

Lemma Consume_outcome (lit : text) (p : nat) :
  p <= length T ->
  outcome (fun (b : bool) p' => p' = p + (if b then length lit else 0) /\ p' <= length T)
    (Consume T lit p).
Proof.
  intros Hp. unfold Consume. destruct (bool_decide _) eqn:E; simpl; [|lia].
  bool_props. split; [done|]. match goal with H : take _ _ = _ |- _ => apply (f_equal length) in H;
    rewrite length_take, length_drop in H end. lia.
Qed.

(** A literal moves forward and yields a well-formed leaf. *)
Definition literal_ok (p : nat) (r : option JsonValue) (p' : nat) : Prop :=
  match r with
  | Some v => p < p' <= length T /\ wf_value o v /\ height v = 0
  | None => p' = p
  end.

Lemma ParseLiteral_outcome (p : nat) :
  p <= length T -> outcome (literal_ok p) (ParseLiteral T o p).
Proof.
  intros Hp. unfold ParseLiteral.
  repeat (first
    [ eapply outcome_bind; [apply Consume_outcome; lia|];
      intros b q [-> Hq]; destruct b; simpl in Hq;
        [simpl; split_and!; try lia; try done|clear Hq; rewrite Nat.add_0_r]
    | match goal with |- context [if PythonCompat o then _ else _] =>
        destruct (PythonCompat o) eqn:?; [|done] end ]); try done;
    right; (split; [done|]); rewrite !elem_of_cons; tauto.
Qed.

(** [ParseItem] is a value parser for level [Depth]. *)
Definition item_parser (Depth : Z) (ParseItem : P JsonValue) : Prop :=
  forall p, p <= length T ->
    outcome (fun v p' => p < p' <= length T /\ fits o Depth v) (ParseItem p).

(** The outcome the container parsers promise. *)
Definition value_at (Depth : Z) (p : nat) (v : JsonValue) (p' : nat) : Prop :=
  p < p' <= length T /\ fits o Depth v.

Lemma fits_array (Depth : Z) (l : list JsonValue) :
  (Depth < kMaxJsonDepth)%Z -> Forall (fits o (Depth + 1)) l -> fits o Depth (JArray l).
Proof.
  intros Hd Hl. split; cbn [wf_value height].
  - apply foldr_and. eapply Forall_impl; [done|]. by intros v [? _].
  - enough (foldr (fun w => Nat.max (height w)) 0 l <= Z.to_nat (kMaxJsonDepth - Depth - 1)) by lia.
    apply foldr_max. eapply Forall_impl; [done|]. intros v [_ ?]. simpl. lia.
Qed.

Lemma fits_object (Depth : Z) (ms : list (text * JsonValue)) :
  (Depth < kMaxJsonDepth)%Z -> NoDup ms.*1 ->
  Forall (fun kv => fits o (Depth + 1) kv.2) ms -> fits o Depth (JObject ms).
Proof.
  intros Hd Hnd Hl. split; cbn [wf_value height].
  - split; [done|]. apply foldr_and. eapply Forall_impl; [done|]. by intros v [? _].
  - enough (foldr (fun kv => Nat.max (height kv.2)) 0 ms
      <= Z.to_nat (kMaxJsonDepth - Depth - 1)) by lia.
    apply foldr_max. eapply Forall_impl; [done|]. intros v [_ ?]. simpl. lia.
Qed.

Ltac skip_ws :=
  eapply outcome_bind; [apply SkipWhitespace_outcome; lia|]; intros [] ? ?.

Lemma peek_bind {A} (f : option byte -> P A) (p : nat) :
  (peek T ≫= f) p = f (T !! p) p.
Proof. done. Qed.

Lemma advance_bind {A} (m : P A) (p : nat) : (advance;; m) p = m (S p).
Proof. done. Qed.

Lemma array_loop_outcome (Depth : Z) (ParseItem : P JsonValue) (fuel p : nat)
    (l : list JsonValue) :
  (Depth < kMaxJsonDepth)%Z -> item_parser (Depth + 1) ParseItem ->
  Forall (fits o (Depth + 1)) l -> p <= length T -> length T - p < fuel ->
  outcome (value_at Depth p) (array_loop T ParseItem fuel l p).
Proof.
  intros Hd Hitem. revert p l. induction fuel as [|fuel IH]; intros p l Hl Hp Hf; [lia|].
  cbn [array_loop]. skip_ws.
  eapply outcome_bind; [apply Hitem; lia|]. intros v q [Hq Hv].
  skip_ws. rewrite peek_bind.
  assert (Forall (fits o (Depth + 1)) (l ++ [v])) as Hl'.
  { by rewrite Forall_app, Forall_singleton. }
  case_bool_decide as E.
  { pose proof (lookup_lt_Some _ _ _ E). rewrite advance_bind. eapply outcome_weaken; [apply IH; [done|lia|lia]|].
    unfold value_at. intros w p2 [? ?]. split; [lia|done]. }
  case_bool_decide as E'; [|apply outcome_fail; lia].
  pose proof (lookup_lt_Some _ _ _ E').
  rewrite advance_bind. split; [lia|]. by apply fits_array.
Qed.

Lemma ParseArray_outcome (Depth : Z) (ParseItem : P JsonValue) (p : nat) :
  item_parser (Depth + 1) ParseItem -> p < length T ->
  outcome (value_at Depth p) (ParseArray T ParseItem Depth p).
Proof.
  intros Hitem Hp. unfold ParseArray.
  destruct (Z.leb_spec kMaxJsonDepth Depth); [apply outcome_fail; lia|].
  rewrite advance_bind. skip_ws. rewrite peek_bind.
  assert (outcome (value_at Depth p) (array_loop T ParseItem (length T) [] p')) as Hloop.
  { eapply outcome_weaken; [apply (array_loop_outcome Depth); [done|done|constructor|lia|lia]|].
    unfold value_at. intros w r [? ?]. split; [lia|done]. }
  case_bool_decide as E; [|done]. pose proof (lookup_lt_Some _ _ _ E).
  rewrite advance_bind. split; [lia|]. by apply fits_array; [|constructor].
Qed.

Lemma object_loop_outcome (Depth : Z) (ParseItem : P JsonValue) (fuel p : nat)
    (ms : list (text * JsonValue)) :
  (Depth < kMaxJsonDepth)%Z -> item_parser (Depth + 1) ParseItem -> NoDup ms.*1 ->
  Forall (fun kv => fits o (Depth + 1) kv.2) ms -> p <= length T -> length T - p < fuel ->
  outcome (value_at Depth p) (object_loop T o ParseItem fuel ms p).
Proof.
  intros Hd Hitem. revert p ms. induction fuel as [|fuel IH]; intros p ms Hnd Hms Hp Hf; [lia|].
  cbn [object_loop]. skip_ws. rewrite peek_bind.
  case_bool_decide as E; [|apply outcome_fail; lia].
  pose proof (lookup_lt_Some _ _ _ E).
  eapply outcome_bind; [apply ParseString_outcome; lia|]. intros Key q Hq. simpl in Hq.
  skip_ws. rewrite peek_bind.
  case_bool_decide as E1; [|apply outcome_fail; lia].
  pose proof (lookup_lt_Some _ _ _ E1).
  rewrite advance_bind. skip_ws.
  eapply outcome_bind; [apply Hitem; lia|]. intros v r [Hr Hv].
  skip_ws. rewrite peek_bind.
  pose proof (set_member_nodup Key v ms Hnd) as Hnd'.
  pose proof (set_member_forall _ Key v ms Hms (fun _ => Hv)) as Hms'.
  case_bool_decide as E2.
  { pose proof (lookup_lt_Some _ _ _ E2). rewrite advance_bind. eapply outcome_weaken; [apply IH; [done|done|lia|lia]|].
    unfold value_at. intros w p3 [? ?]. split; [lia|done]. }
  case_bool_decide as E3; [|apply outcome_fail; lia].
  pose proof (lookup_lt_Some _ _ _ E3).
  rewrite advance_bind. split; [lia|]. by apply fits_object.
Qed.

Lemma ParseObject_outcome (Depth : Z) (ParseItem : P JsonValue) (p : nat) :
  item_parser (Depth + 1) ParseItem -> p < length T ->
  outcome (value_at Depth p) (ParseObject T o ParseItem Depth p).
Proof.
  intros Hitem Hp. unfold ParseObject.
  destruct (Z.leb_spec kMaxJsonDepth Depth); [apply outcome_fail; lia|].
  rewrite advance_bind. skip_ws. rewrite peek_bind.
  assert (outcome (value_at Depth p) (object_loop T o ParseItem (length T) [] p')) as Hloop.
  { eapply outcome_weaken;
      [apply (object_loop_outcome Depth); [done|done|constructor|constructor|lia|lia]|].
    unfold value_at. intros w r [? ?]. split; [lia|done]. }
  case_bool_decide as E; [|done]. pose proof (lookup_lt_Some _ _ _ E).
  rewrite advance_bind. split; [lia|]. by apply fits_object; [|constructor|constructor].
Qed.

(** A value of height 0 fits at every admissible level. *)
Lemma fits_leaf (Depth : Z) (v : JsonValue) :
  (Depth <= kMaxJsonDepth)%Z -> wf_value o v -> height v = 0 -> fits o Depth v.
Proof. intros Hd Hw Hh. split; [done|]. rewrite Hh. simpl. lia. Qed.

Lemma ParseNumber_outcome (Depth : Z) (p : nat) :
  (Depth <= kMaxJsonDepth)%Z -> p < length T ->
  outcome (value_at Depth p) (ParseNumber T p).
Proof.
  intros Hd Hp. pose proof (ParseNumber_sound T p ltac:(lia)) as H.
  destruct (ParseNumber T p) as [[v p']|m off|]; simpl in *; [|destruct H as (k & -> & ?);
    exists k; split; [done|lia]|done].
  destruct H as (t & -> & Hn & Hm & ->). pose proof (json_number_nonempty t Hn).
  assert (length t <> 0) by by destruct t.
  apply (f_equal length) in Hm. rewrite length_drop, length_app in Hm.
  split; [lia|]. apply fits_leaf; [done|by left|done].
Qed.

Lemma ParseValue_outcome (fuel p : nat) (Depth : Z) :
  (Depth <= kMaxJsonDepth < Depth + Z.of_nat fuel)%Z -> p <= length T ->
  outcome (value_at Depth p) (ParseValue T o fuel Depth p).
Proof.
  revert p Depth. induction fuel as [|fuel IH]; intros p Depth Hd Hp; [lia|].
  cbn [ParseValue]. rewrite peek_bind.
  destruct (T !! p) as [c|] eqn:E; [|by apply outcome_fail].
  pose proof (lookup_lt_Some _ _ _ E) as Hlt.
  assert ((Depth < kMaxJsonDepth)%Z -> item_parser (Depth + 1) (ParseValue T o fuel (Depth + 1)))
    as Hitem by (intros ? q Hq; apply IH; [lia|done]).
  case_bool_decide.
  { destruct (Z.ltb_spec Depth kMaxJsonDepth); [by apply ParseObject_outcome; [apply Hitem|]|].
    unfold ParseObject. destruct (Z.leb_spec kMaxJsonDepth Depth); [by apply outcome_fail|lia]. }
  case_bool_decide.
  { destruct (Z.ltb_spec Depth kMaxJsonDepth); [by apply ParseArray_outcome; [apply Hitem|]|].
    unfold ParseArray. destruct (Z.leb_spec kMaxJsonDepth Depth); [by apply outcome_fail|lia]. }
  case_bool_decide.
  { eapply outcome_bind; [by apply ParseString_outcome|]. intros s q Hq.
    split; [done|]. by apply fits_leaf; [lia| |]. }
  eapply outcome_bind; [by apply ParseLiteral_outcome|].
  intros [v|] q Hq; simpl in Hq.
  - destruct Hq as (Hq & Hw & Hh). split; [done|]. apply fits_leaf; [lia|done|done].
  - subst q. destruct (_ || _); [apply ParseNumber_outcome; [lia|done]|by apply outcome_fail].
Qed.
End Total.

(** The parser always answers: with a well-formed value at most 512 levels
    deep, or with an error whose offset lies in the text. *)
Lemma JsonParse_outcome (Text : text) (o : JsonParseOptions) :
  match JsonParse Text o with
  | JOk v => fits o 0 v
  | JErr _ off => exists k, off = Some k /\ k <= length Text
  | JFuel => False
  end.
Proof.
  assert (outcome Text (fun v _ => fits o 0 v) (ParseDocument Text o 0)) as H.
  { unfold ParseDocument. eapply outcome_bind; [apply SkipWhitespace_outcome; lia|].
    intros [] p Hp. eapply outcome_bind; [apply ParseValue_outcome; [|lia]|].
    { unfold kMaxJsonDepth. lia. }
    intros v q [Hq Hv]. eapply outcome_bind; [apply SkipWhitespace_outcome; lia|].
    intros [] r Hr. rewrite peek_bind. destruct (Text !! r); [apply outcome_fail; lia|done]. }
  unfold JsonParse. by destruct (ParseDocument Text o 0) as [[v p]| |].
Qed.

(** On every text and options the parser terminates, either with a value
    whose numbers are literals of the grammar, whose objects have distinct keys
    and whose nesting is at most 512 levels, or with an error whose offset is a
    position of the text: no unbounded recursion and no read past the end. *)
Theorem JsonParse_total (Text : text) (o : JsonParseOptions) :
  match JsonParse Text o with
  | JOk v => wf_value o v /\ (Z.of_nat (height v) <= kMaxJsonDepth)%Z
  | JErr _ off => exists k, off = Some k /\ k <= length Text
  | JFuel => False
  end.
Proof.
  pose proof (JsonParse_outcome Text o) as H. destruct (JsonParse Text o); [|done|done].
  destruct H as [Hw Hh]. split; [done|]. by rewrite Z.add_0_r in Hh.
Qed.
