(* ===== verification/JsonRoundtrip.v ===== *)
(** * Writing and reading a JSON value

    The parser reads back what the writer wrote, compact or pretty. *)

From Stdlib Require Import ZArith Lia.
From stdpp Require Import base option numbers list.
From S2P Require Import Prelude Decimal Utf8 Json JsonScan.

(** Induction over values, with the items of a container as hypotheses. *)
Lemma JsonValue_nested_ind (Q : JsonValue -> Prop) :
  Q JNull -> (forall b, Q (JBool b)) -> (forall t, Q (JNumber t)) -> (forall t, Q (JString t)) ->
  (forall l, Forall Q l -> Q (JArray l)) ->
  (forall ms, Forall (fun kv => Q kv.2) ms -> Q (JObject ms)) ->
  forall v, Q v.
Proof.
  intros Hn Hb Hnum Hs Ha Ho. fix IH 1. intros [|b|t|t|l|ms];
    [apply Hn|apply Hb|apply Hnum|apply Hs| |].
  - apply Ha. induction l as [|v l IHl]; constructor; [apply IH|apply IHl].
  - apply Ho. induction ms as [|[k v] ms IHm]; constructor; [apply IH|apply IHm].
Qed.

(** ** [operator==] is equality *)

Lemma json_eqb_eq (a b : JsonValue) : json_eqb a b = true <-> a = b.
Proof.
  revert b. induction a as [|x|x|x|l IH|ms IH] using JsonValue_nested_ind;
    intros [|y|y|y|k|ks]; simpl; try (split; congruence).
  - rewrite Bool.eqb_true_iff. split; congruence.
  - rewrite bool_decide_eq_true. split; congruence.
  - rewrite bool_decide_eq_true. split; congruence.
  - trans (l = k); [|split; congruence]. revert k.
    induction IH as [|v l Hv Hl IHl]; intros [|w k]; try (split; congruence).
    rewrite andb_true_iff, Hv, IHl. split; [by intros [-> ->]|by intros [= -> ->]].
  - trans (ms = ks); [|split; congruence]. revert ks.
    induction IH as [|[x v] ms Hv Hl IHl]; intros [|[y w] ks]; try (split; congruence).
    simpl in Hv. rewrite !andb_true_iff, bool_decide_eq_true, Hv, IHl.
    split; [by intros [[-> ->] ->]|by intros [= -> -> ->]].
Qed.

#[export] Instance JsonValue_eq_dec : EqDecision JsonValue.
Proof.
  intros a b. destruct (json_eqb a b) eqn:E; [left; by apply json_eqb_eq|].
  right. intros H. apply json_eqb_eq in H. congruence.
Defined.

(** ** The writer's loops *)

Section Writer.
Context (w : JsonWriteOptions).

Fixpoint write_items (Indent : nat) (l : list JsonValue) : text :=
  match l with
  | [] => []
  | v :: l' =>
      NewLine w (S Indent) ++ Write w (S Indent) v
      ++ match l' with [] => [] | _ => x2c :: write_items Indent l' end
  end.

Definition write_member (Indent : nat) (kv : text * JsonValue) : text :=
  NewLine w (S Indent) ++ JsonQuote kv.1 ++ colon w ++ Write w (S Indent) kv.2.

Fixpoint write_members (Indent : nat) (ms : list (text * JsonValue)) : text :=
  match ms with
  | [] => []
  | kv :: ms' =>
      write_member Indent kv
      ++ match ms' with [] => [] | _ => x2c :: write_members Indent ms' end
  end.

Lemma Write_array (Indent : nat) (l : list JsonValue) :
  Write w Indent (JArray l)
  = x5b :: write_items Indent l ++ match l with [] => [] | _ => NewLine w Indent end ++ [x5d].
Proof.
  cbn [Write]. cbn [app]. f_equal. f_equal.
  assert (forall l first, (fix items (first : bool) (l : list JsonValue) : text :=
    match l with
    | [] => []
    | v :: l' => (if first then [] else [x2c])
        ++ (NewLine w (S Indent) ++ Write w (S Indent) v) ++ items false l'
    end) first l
    = match l with [] => [] | _ => (if first then [] else [x2c]) ++ write_items Indent l end)
    as ->; [|by destruct l].
  clear l. induction l as [|v l IH]; intros first; [done|]. rewrite IH.
  cbn [write_items]. rewrite <- !app_assoc. by destruct l.
Qed.

Lemma Write_object (Indent : nat) (ms : list (text * JsonValue)) :
  Write w Indent (JObject ms)
  = x7b :: write_members Indent ms
    ++ match ms with [] => [] | _ => NewLine w Indent end ++ [x7d].
Proof.
  cbn [Write]. cbn [app]. f_equal. f_equal.
  assert (forall ms first, (fix members (first : bool) (ms : list (text * JsonValue)) : text :=
    match ms with
    | [] => []
    | (k, v) :: ms' => (if first then [] else [x2c])
        ++ (NewLine w (S Indent) ++ JsonQuote k ++ colon w ++ Write w (S Indent) v)
        ++ members false ms'
    end) first ms
    = match ms with [] => [] | _ => (if first then [] else [x2c]) ++ write_members Indent ms end)
    as ->; [|by destruct ms].
  clear ms. induction ms as [|[k v] ms IH]; intros first; [done|]. rewrite IH.
  cbn [write_members]. unfold write_member. rewrite <- !app_assoc. by destruct ms.
Qed.

(** A value's text starts with no white space. *)
Lemma Write_head (o : JsonParseOptions) (Indent : nat) (v : JsonValue) :
  wf_value o v ->
  exists c s, Write w Indent v = c :: s /\ is_ws c = false /\ c <> x5d.
Proof.
  destruct v as [|b|t|t|l|ms]; cbn [wf_value]; intros Hw.
  - by eexists _, _.
  - destruct b; by eexists _, _.
  - destruct Hw as [(sg & i & f & e & -> & Hsg & Hi & _)|[_ Hin]].
    + assert (exists d s, i = d :: s /\ is_digit d = true) as (d & s & -> & Hd).
      { destruct Hi as [-> |(d & ds & -> & Hd & _)]; by eexists _, _. }
      destruct Hsg as [-> | ->]; cbn [Write app]; eexists _, _; (split; [done|]); [|done].
      split; [by apply digit_not_in; [|repeat constructor]|]. by intros ->.
    + rewrite !elem_of_cons, elem_of_nil in Hin.
      destruct Hin as [->|[->|[->|[]]]]; by eexists _, _.
  - by eexists _, _.
  - rewrite Write_array. by eexists _, _.
  - rewrite Write_object. by eexists _, _.
Qed.
End Writer.

(** ** Reading what was written *)

(** Decides the byte tests of the parser on known bytes. *)
Ltac decide_bytes :=
  repeat (first [rewrite bool_decide_true by done | rewrite bool_decide_false by done];
          cbv beta match).

Section Reader.
Context (w : JsonWriteOptions) (o : JsonParseOptions) (T : text).

Lemma SkipWhitespace_stop (p : nat) (c : byte) (s : text) :
  drop p T = c :: s -> is_ws c = false -> SkipWhitespace T p = JOk (tt, p).
Proof. intros H Hc. unfold SkipWhitespace. rewrite H. simpl. by rewrite Hc. Qed.

Lemma SkipWhitespace_newline (p k : nat) (c : byte) (s : text) :
  drop p T = NewLine w k ++ c :: s -> is_ws c = false ->
  SkipWhitespace T p = JOk (tt, p + length (NewLine w k)).
Proof.
  intros H Hc. unfold SkipWhitespace. rewrite H, scan_app; [done| |done].
  unfold NewLine. destruct (Pretty w); [|constructor]. constructor; [done|].
  by apply Forall_replicate.
Qed.

(** A run of the parser that moves over [s] and yields [a]. *)
Definition reads {A} (m : P A) (p : nat) (s : text) (a : A) : Prop :=
  m p = JOk (a, p + length s).

Lemma reads_bind {A C} (m : P A) (f : A -> P C) (p : nat) (s s' : text) (a : A) (c : C) :
  reads m p s a -> reads (f a) (p + length s) s' c -> reads (m ≫= f) p (s ++ s') c.
Proof.
  unfold reads, mbind, P_bind. intros -> H. rewrite H, length_app. do 2 f_equal. lia.
Qed.

Lemma Consume_here (lit s : text) (p : nat) :
  drop p T = lit ++ s -> Consume T lit p = JOk (true, p + length lit).
Proof.
  intros H. unfold Consume. by rewrite H, take_app_length, bool_decide_true.
Qed.

Lemma Consume_other (lit : text) (p : nat) :
  take (length lit) (drop p T) <> lit -> Consume T lit p = JOk (false, p).
Proof. intros H. unfold Consume. by rewrite bool_decide_false. Qed.

Lemma Consume_head (c : byte) (lit s : text) (p : nat) :
  drop p T = c :: s -> match lit with [] => False | d :: _ => c <> d end ->
  Consume T lit p = JOk (false, p).
Proof.
  intros H Hc. apply Consume_other. rewrite H. destruct lit; [done|]. simpl. congruence.
Qed.

Definition leaf_parser (c : byte) : P JsonValue :=
  literal ← ParseLiteral T o;
  match literal with
  | Some v => mret v
  | None => if bool_decide (c = x2d) || is_digit c then ParseNumber T
            else Fail (B "Expecting value")
  end.

Lemma ParseValue_leaf (fuel p : nat) (Depth : Z) (c : byte) (s : text) :
  drop p T = c :: s -> c <> x7b -> c <> x5b -> c <> x22 ->
  ParseValue T o (S fuel) Depth p = leaf_parser c p.
Proof.
  intros H. apply drop_cons_inv in H as (E & _). intros ???. cbn [ParseValue].
  rewrite peek_bind, E. by rewrite !bool_decide_false by done.
Qed.

Lemma read_null (fuel p : nat) (Depth : Z) (r : text) :
  drop p T = B "null" ++ r -> reads (ParseValue T o (S fuel) Depth) p (B "null") JNull.
Proof.
  intros H. unfold reads. rewrite (ParseValue_leaf _ _ _ _ _ H) by done.
  unfold leaf_parser, ParseLiteral, mbind, P_bind. by rewrite (Consume_here _ _ _ H).
Qed.

Lemma read_bool (fuel p : nat) (Depth : Z) (b : bool) (r : text) :
  drop p T = (if b then B "true" else B "false") ++ r ->
  reads (ParseValue T o (S fuel) Depth) p (if b then B "true" else B "false") (JBool b).
Proof.
  intros H. unfold reads. destruct b; rewrite (ParseValue_leaf _ _ _ _ _ H) by done;
    unfold leaf_parser, ParseLiteral, mbind, P_bind;
    rewrite !(Consume_head _ _ _ _ H) by done; by rewrite (Consume_here _ _ _ H).
Qed.

(** The first bytes of a number literal. *)
Lemma json_number_head (t : text) :
  json_number t ->
  exists c s, t = c :: s /\ (c = x2d \/ is_digit c = true) /\
    (c = x2d -> exists d s', s = d :: s' /\ is_digit d = true).
Proof.
  intros (sg & i & f & e & -> & Hsg & Hi & _).
  assert (exists d s, i = d :: s /\ is_digit d = true) as (d & s & -> & Hd).
  { destruct Hi as [-> |(d & ds & -> & Hd & _)]; by eexists _, _. }
  destruct Hsg as [-> | ->]; cbn [app]; eexists _, _; (split; [done|]).
  - split; [by right|]. intros ->. done.
  - split; [by left|]. intros _. eauto.
Qed.

Lemma ParseLiteral_number (t r : text) (p : nat) :
  drop p T = t ++ r -> json_number t -> ParseLiteral T o p = JOk (None, p).
Proof.
  intros H Hn. destruct (json_number_head t Hn) as (c & s & -> & Hc & Hd).
  assert (forall d : byte, is_digit d = false -> d <> x2d -> c <> d) as Hne.
  { intros d Hdig Hdm ->. destruct Hc; congruence. }
  unfold ParseLiteral, mbind, P_bind.
  do 3 rewrite (Consume_head _ _ _ _ H) by by apply Hne.
  destruct (PythonCompat o); [|done].
  do 2 rewrite (Consume_head _ _ _ _ H) by by apply Hne.
  rewrite Consume_other; [done|]. rewrite H. intros Heq.
  simpl in Heq. injection Heq as -> Heq. destruct (Hd eq_refl) as (d & s' & -> & Hdig).
  simpl in Heq. injection Heq as -> _. done.
Qed.

Lemma read_number (fuel p : nat) (Depth : Z) (t r : text) :
  number_text o t -> drop p T = t ++ r -> stops after_number r ->
  reads (ParseValue T o (S fuel) Depth) p t (JNumber t).
Proof.
  intros [Hn|[Hpy Hin]] H Hr; unfold reads.
  - pose proof (ParseLiteral_number t r p H Hn) as Hlit.
    destruct (json_number_head t Hn) as (c & s & -> & Hc & _).
    assert (forall d : byte, is_digit d = false -> d <> x2d -> c <> d) as Hne.
    { intros d Hdig Hdm ->. destruct Hc; congruence. }
    rewrite (ParseValue_leaf _ _ _ c (s ++ r)) by (done || by apply Hne).
    unfold leaf_parser, mbind, P_bind. rewrite Hlit.
    assert (bool_decide (c = x2d) || is_digit c = true) as ->.
    { apply orb_true_iff. rewrite bool_decide_eq_true. done. }
    by apply (ParseNumber_read T (c :: s) r).
  - rewrite !elem_of_cons, elem_of_nil in Hin.
    destruct Hin as [-> |[-> |[-> |[]]]]; rewrite (ParseValue_leaf _ _ _ _ _ H) by done;
      unfold leaf_parser, ParseLiteral, mbind, P_bind; rewrite Hpy;
      rewrite !(Consume_head _ _ _ _ H) by done; by rewrite (Consume_here _ _ _ H).
Qed.

Lemma read_string (fuel p : nat) (Depth : Z) (t r : text) :
  drop p T = JsonQuote t ++ r ->
  reads (ParseValue T o (S fuel) Depth) p (JsonQuote t) (JString t).
Proof.
  intros H. unfold reads. cbn [ParseValue]. rewrite peek_bind.
  pose proof H as H'. unfold JsonQuote in H'. simpl in H'.
  apply drop_cons_inv in H' as (-> & _). decide_bytes.
  unfold mbind, P_bind. by rewrite (ParseString_quote T o t r p H).
Qed.

(** [ParseItem] reads the text of [v] whatever may follow a value. *)
Definition item_reader (Indent : nat) (ParseItem : P JsonValue) (v : JsonValue) : Prop :=
  forall p r, stops after_number r -> drop p T = Write w Indent v ++ r ->
    reads ParseItem p (Write w Indent v) v.

Lemma stops_newline (k : nat) (c : byte) (r : text) :
  after_number c = false -> stops after_number (NewLine w k ++ c :: r).
Proof. intros Hc. unfold NewLine. by destruct (Pretty w). Qed.

Lemma P_bind_ok {A C} (m : P A) (f : A -> P C) (p q : nat) (a : A) :
  m p = JOk (a, q) -> (m ≫= f) p = f a q.
Proof. intros H. unfold mbind, P_bind. by rewrite H. Qed.

(** White space, then a value. *)
Lemma item_read {C} (Indent : nat) (ParseItem : P JsonValue) (v : JsonValue)
    (f : JsonValue -> P C) (p : nat) (r : text) :
  wf_value o v -> item_reader Indent ParseItem v -> stops after_number r ->
  drop p T = NewLine w Indent ++ Write w Indent v ++ r ->
  (SkipWhitespace T;; ParseItem ≫= f) p
  = f v (p + length (NewLine w Indent ++ Write w Indent v)).
Proof.
  intros Hw Hitem Hr H. destruct (Write_head w o Indent v Hw) as (c & s & E & Hc & Hb).
  assert (SkipWhitespace T p = JOk (tt, p + length (NewLine w Indent))) as Hs.
  { rewrite E in H. by eapply SkipWhitespace_newline. }
  rewrite (P_bind_ok _ _ _ _ _ Hs). apply drop_app_inv in H.
  rewrite (P_bind_ok _ _ _ _ _ (Hitem _ _ Hr H)). by rewrite length_app, Nat.add_assoc.
Qed.

Lemma array_loop_read (Indent : nat) (ParseItem : P JsonValue) (r : text)
    (l acc : list JsonValue) (fuel p : nat) :
  l <> [] -> length l <= fuel ->
  Forall (fun v => wf_value o v /\ item_reader (S Indent) ParseItem v) l ->
  drop p T = write_items w Indent l ++ NewLine w Indent ++ x5d :: r ->
  array_loop T ParseItem fuel acc p
  = JOk (JArray (acc ++ l), p + length (write_items w Indent l ++ NewLine w Indent ++ [x5d])).
Proof.
  revert acc fuel p. induction l as [|v l IH]; intros acc fuel p Hne Hf Hall H; [done|].
  destruct fuel as [|fuel]; [simpl in Hf; lia|].
  inversion Hall as [|? ? [Hw Hitem] Hall']; subst.
  cbn [array_loop]. cbn [write_items] in H |- *. rewrite <- !app_assoc in H.
  destruct l as [|v' l].
  - cbn [app] in H. erewrite item_read; [|exact Hw|exact Hitem| |exact H]; [|by apply stops_newline].
    rewrite app_assoc in H. apply drop_app_inv in H.
    rewrite (P_bind_ok _ _ _ _ _ (SkipWhitespace_newline _ _ _ _ H eq_refl)).
    rewrite peek_bind. apply drop_app_inv in H. apply drop_cons_inv in H as (-> & _).
    decide_bytes.
    rewrite app_nil_r. unfold mret, P_ret, advance, mbind, P_bind.
    do 2 f_equal. rewrite !length_app. simpl. lia.
  - cbn [app] in H. erewrite item_read; [|exact Hw|exact Hitem| |exact H]; [|done].
    rewrite app_assoc in H. apply drop_app_inv in H.
    rewrite (P_bind_ok _ _ _ _ _ (SkipWhitespace_stop _ _ _ H eq_refl)).
    rewrite peek_bind. apply drop_cons_inv in H as (-> & H & _).
    decide_bytes. rewrite advance_bind, (IH (acc ++ [v])) by (done || (simpl in Hf |- *; lia)).
    rewrite <- !app_assoc. do 2 f_equal. cbn [app]. rewrite !length_app.
    cbn [length]. rewrite !length_app. simpl. lia.
Qed.

(** A new key is appended. *)
Lemma set_member_new (k : text) (v : JsonValue) (ms : list (text * JsonValue)) :
  k ∉ ms.*1 -> set_member k v ms = ms ++ [(k, v)].
Proof.
  induction ms as [|[k' v'] ms IH]; [done|]. cbn [set_member]. rewrite fmap_cons, not_elem_of_cons.
  intros [Hk Hin]. rewrite bool_decide_false by (simpl in Hk; congruence). by rewrite IH.
Qed.

Lemma colon_text : colon w = x3a :: (if Pretty w then [x20] else []).
Proof. unfold colon. by destruct (Pretty w). Qed.

(** White space, key, colon, white space, value. *)
Lemma member_read {C} (Indent : nat) (ParseItem : P JsonValue) (k : text) (v : JsonValue)
    (f : text -> JsonValue -> P C) (bad1 bad2 : P C) (p : nat) (r : text) :
  wf_value o v -> item_reader (S Indent) ParseItem v -> stops after_number r ->
  drop p T = write_member w Indent (k, v) ++ r ->
  (SkipWhitespace T;;
   quote ← peek T;
   if bool_decide (quote = Some x22) then
     Key ← ParseString T o;
     SkipWhitespace T;;
     colon ← peek T;
     if bool_decide (colon = Some x3a) then
       advance;;
       SkipWhitespace T;;
       ParseItem ≫= f Key
     else bad1
   else bad2) p
  = f k v (p + length (write_member w Indent (k, v))).
Proof.
  intros Hw Hitem Hr. unfold write_member. cbn [fst snd]. rewrite <- !app_assoc. intros H.
  pose proof H as Hq. unfold JsonQuote in Hq. cbn [app] in Hq.
  rewrite (P_bind_ok _ _ _ _ _ (SkipWhitespace_newline _ _ _ _ Hq eq_refl)).
  apply drop_app_inv in Hq. apply drop_cons_inv in Hq as (Eq & _ & _).
  rewrite peek_bind, Eq. decide_bytes. apply drop_app_inv in H.
  rewrite (P_bind_ok _ _ _ _ _ (ParseString_quote T o k _ _ H)). apply drop_app_inv in H.
  rewrite colon_text in H. cbn [app] in H.
  rewrite (P_bind_ok _ _ _ _ _ (SkipWhitespace_stop _ _ _ H eq_refl)), peek_bind.
  apply drop_cons_inv in H as (-> & H & _). decide_bytes. rewrite advance_bind.
  assert (drop (S (p + length (NewLine w (S Indent)) + length (JsonQuote k))) T
    = (if Pretty w then [x20] else []) ++ Write w (S Indent) v ++ r) as H' by exact H.
  destruct (Write_head w o (S Indent) v Hw) as (c & s & E & Hc & Hb).
  assert (SkipWhitespace T (S (p + length (NewLine w (S Indent)) + length (JsonQuote k)))
    = JOk (tt, p + length (NewLine w (S Indent)) + length (JsonQuote k) + length (colon w))) as Hs.
  { unfold SkipWhitespace. rewrite H', E, scan_app; [|by destruct (Pretty w); repeat constructor|done].
    rewrite colon_text. simpl. do 2 f_equal. lia. }
  rewrite (P_bind_ok _ _ _ _ _ Hs).
  assert (drop (p + length (NewLine w (S Indent)) + length (JsonQuote k) + length (colon w)) T
    = Write w (S Indent) v ++ r) as Hv.
  { apply drop_app_inv in H'. rewrite <- H'. f_equal. rewrite colon_text. simpl. lia. }
  rewrite (P_bind_ok _ _ _ _ _ (Hitem _ _ Hr Hv)). f_equal. rewrite !length_app. lia.
Qed.

Lemma object_loop_read (Indent : nat) (ParseItem : P JsonValue) (r : text)
    (ms acc : list (text * JsonValue)) (fuel p : nat) :
  ms <> [] -> length ms <= fuel -> NoDup (acc ++ ms).*1 ->
  Forall (fun kv => wf_value o kv.2 /\ item_reader (S Indent) ParseItem kv.2) ms ->
  drop p T = write_members w Indent ms ++ NewLine w Indent ++ x7d :: r ->
  object_loop T o ParseItem fuel acc p
  = JOk (JObject (acc ++ ms), p + length (write_members w Indent ms ++ NewLine w Indent ++ [x7d])).
Proof.
  revert acc fuel p. induction ms as [|[k v] ms IH]; intros acc fuel p Hne Hf Hnd Hall H; [done|].
  destruct fuel as [|fuel]; [simpl in Hf; lia|].
  inversion Hall as [|? ? [Hw Hitem] Hall']; subst. simpl in Hw, Hitem.
  assert (set_member k v acc = acc ++ [(k, v)]) as Hset.
  { apply set_member_new. rewrite fmap_app in Hnd. apply NoDup_app in Hnd as (_ & Hnd & _).
    intros Hin. apply (Hnd k Hin). rewrite fmap_cons. apply elem_of_cons. by left. }
  cbn [object_loop]. cbn [write_members] in H |- *. rewrite <- !app_assoc in H.
  erewrite (member_read Indent ParseItem k v); [|exact Hw|exact Hitem| |exact H];
    [|destruct ms; [by apply stops_newline|done]].
  apply drop_app_inv in H. rewrite Hset.
  destruct ms as [|kv ms]; cbn [app] in H.
  - rewrite (P_bind_ok _ _ _ _ _ (SkipWhitespace_newline _ _ _ _ H eq_refl)).
    rewrite peek_bind. apply drop_app_inv in H. apply drop_cons_inv in H as (-> & _).
    decide_bytes.
    unfold mret, P_ret, advance, mbind, P_bind.
    do 2 f_equal. rewrite !length_app. simpl. lia.
  - rewrite (P_bind_ok _ _ _ _ _ (SkipWhitespace_stop _ _ _ H eq_refl)).
    rewrite peek_bind. apply drop_cons_inv in H as (-> & H & _).
    decide_bytes. rewrite advance_bind, (IH (acc ++ [(k, v)]));
      [|done|simpl in Hf |- *; lia|by rewrite <- app_assoc|done|exact H].
    rewrite <- !app_assoc. do 2 f_equal. cbn [app]. rewrite !length_app.
    cbn [length]. rewrite !length_app. simpl. lia.
Qed.

Lemma items_length (Indent : nat) (l : list JsonValue) :
  length l <= length (write_items w Indent l) + 1.
Proof.
  induction l as [|v [|v' l] IH]; cbn [write_items length] in *; [lia|lia|].
  rewrite !length_app in *. cbn [length] in *. rewrite ?length_app in *. lia.
Qed.

Lemma members_length (Indent : nat) (ms : list (text * JsonValue)) :
  length ms <= length (write_members w Indent ms) + 1.
Proof.
  induction ms as [|v [|v' ms] IH]; cbn [write_members length] in *; [lia|lia|].
  rewrite !length_app in *. cbn [length] in *. rewrite ?length_app in *. lia.
Qed.

Lemma drop_length_le (p : nat) (s r : text) : drop p T = s ++ r -> length s <= length T.
Proof.
  intros H. apply (f_equal length) in H. rewrite length_drop, length_app in H. lia.
Qed.

(** The container parsers skip white space before their loop does. *)
Lemma skip_then (A : Type) (f : option byte -> P A) (m : P A) (p k : nat) (c : byte) (s : text) :
  drop p T = NewLine w k ++ c :: s -> is_ws c = false -> f (Some c) = (SkipWhitespace T;; m) ->
  (SkipWhitespace T;; peek T ≫= f) p = (SkipWhitespace T;; m) p.
Proof.
  intros H Hc Hf. pose proof (SkipWhitespace_newline p k c s H Hc) as Hs.
  rewrite !(P_bind_ok _ _ _ _ _ Hs). apply drop_app_inv in H. rewrite peek_bind.
  pose proof (SkipWhitespace_stop _ _ _ H Hc) as Hs'.
  apply drop_cons_inv in H as (-> & _). rewrite Hf. by rewrite (P_bind_ok _ _ _ _ _ Hs').
Qed.

Lemma ParseArray_read (l : list JsonValue) (Indent : nat) (Depth : Z) (ParseItem : P JsonValue)
    (p : nat) (r : text) :
  (Depth < kMaxJsonDepth)%Z ->
  Forall (fun v => wf_value o v /\ item_reader (S Indent) ParseItem v) l ->
  drop p T = Write w Indent (JArray l) ++ r ->
  reads (ParseArray T ParseItem Depth) p (Write w Indent (JArray l)) (JArray l).
Proof.
  intros Hd Hall H. pose proof (drop_length_le _ _ _ H) as Hlen.
  rewrite Write_array in *. unfold reads, ParseArray.
  destruct (Z.leb_spec kMaxJsonDepth Depth); [lia|].
  cbn [app] in H. apply drop_cons_inv in H as (_ & H & _). rewrite advance_bind.
  destruct l as [|v0 l].
  { cbn [write_items app] in H |- *.
    rewrite (P_bind_ok _ _ _ _ _ (SkipWhitespace_stop _ _ _ H eq_refl)), peek_bind.
    apply drop_cons_inv in H as (-> & _). decide_bytes.
    unfold mret, P_ret, advance, mbind, P_bind. do 2 f_equal. simpl. lia. }
  rewrite <- !app_assoc in H. cbn [app] in H.
  pose proof (items_length Indent (v0 :: l)) as Hitems.
  cbn [length] in Hlen. rewrite !length_app in Hlen. cbn [length] in Hlen.
  destruct (length T) as [|n] eqn:HT; [lia|].
  pose proof (array_loop_read Indent ParseItem r (v0 :: l) [] (S n) (S p)
    ltac:(done) ltac:(lia) Hall H) as Hloop.
  inversion Hall as [|? ? [Hw0 _] _]; subst.
  destruct (Write_head w o (S Indent) v0 Hw0) as (c & s & E & Hc & Hb).
  cbn [write_items] in H. rewrite E, <- !app_assoc in H. cbn [app] in H.
  trans (array_loop T ParseItem (S n) [] (S p)).
  - cbn [array_loop]. eapply skip_then; [exact H|done|]. by rewrite bool_decide_false by congruence.
  - rewrite Hloop. cbn [app]. do 2 f_equal. cbn [length]. lia.
Qed.

Lemma ParseObject_read (ms : list (text * JsonValue)) (Indent : nat) (Depth : Z)
    (ParseItem : P JsonValue) (p : nat) (r : text) :
  (Depth < kMaxJsonDepth)%Z -> NoDup ms.*1 ->
  Forall (fun kv => wf_value o kv.2 /\ item_reader (S Indent) ParseItem kv.2) ms ->
  drop p T = Write w Indent (JObject ms) ++ r ->
  reads (ParseObject T o ParseItem Depth) p (Write w Indent (JObject ms)) (JObject ms).
Proof.
  intros Hd Hnd Hall H. pose proof (drop_length_le _ _ _ H) as Hlen.
  rewrite Write_object in *. unfold reads, ParseObject.
  destruct (Z.leb_spec kMaxJsonDepth Depth); [lia|].
  cbn [app] in H. apply drop_cons_inv in H as (_ & H & _). rewrite advance_bind.
  destruct ms as [|kv ms].
  { cbn [write_members app] in H |- *.
    rewrite (P_bind_ok _ _ _ _ _ (SkipWhitespace_stop _ _ _ H eq_refl)), peek_bind.
    apply drop_cons_inv in H as (-> & _). decide_bytes.
    unfold mret, P_ret, advance, mbind, P_bind. do 2 f_equal. simpl. lia. }
  rewrite <- !app_assoc in H. cbn [app] in H.
  pose proof (members_length Indent (kv :: ms)) as Hitems.
  cbn [length] in Hlen. rewrite !length_app in Hlen. cbn [length] in Hlen.
  destruct (length T) as [|n] eqn:HT; [lia|].
  pose proof (object_loop_read Indent ParseItem r (kv :: ms) [] (S n) (S p)
    ltac:(done) ltac:(lia) Hnd Hall H) as Hloop.
  cbn [write_members] in H. unfold write_member, JsonQuote in H.
  rewrite <- !app_assoc in H. cbn [app] in H.
  trans (object_loop T o ParseItem (S n) [] (S p)).
  - cbn [object_loop]. by eapply skip_then; [exact H| |].
  - rewrite Hloop. cbn [app]. do 2 f_equal. cbn [length]. lia.
Qed.

(** The parser reads a written value at any level that can hold it. *)
Lemma ParseValue_read (v : JsonValue) (Indent fuel : nat) (Depth : Z) :
  wf_value o v -> (Z.of_nat (height v) + Depth <= kMaxJsonDepth)%Z -> height v < fuel ->
  item_reader Indent (ParseValue T o fuel Depth) v.
Proof.
  revert Indent fuel Depth.
  induction v as [|b|t|t|l IH|ms IH] using JsonValue_nested_ind;
    intros Indent [|fuel] Depth Hw Hd Hf p r Hr H; try (simpl in Hf; lia).
  - by eapply read_null.
  - by eapply read_bool.
  - by eapply read_number.
  - by eapply read_string.
  - cbn [wf_value height] in Hw, Hd, Hf. apply foldr_and in Hw.
    pose proof (proj1 (foldr_max height l _) (le_n _)) as Hmax.
    assert (Forall (fun v => wf_value o v /\
      item_reader (S Indent) (ParseValue T o fuel (Depth + 1)) v) l) as Hall.
    { rewrite Forall_forall in *. intros v Hv. split; [by apply Hw|].
      specialize (Hmax v Hv). simpl in Hmax. apply (IH v Hv); [by apply Hw|lia|lia]. }
    pose proof (ParseArray_read l Indent Depth _ p r ltac:(lia) Hall H) as Hread.
    unfold reads in *. rewrite Write_array in H.
    apply drop_cons_inv in H as (E & _). cbn [ParseValue].
    rewrite peek_bind, E. by decide_bytes.
  - cbn [wf_value height] in Hw, Hd, Hf. destruct Hw as [Hnd Hw].
    pose proof (proj1 (foldr_and _ _) Hw) as Hw'.
    pose proof (proj1 (foldr_max (fun kv => height kv.2) ms _) (le_n _)) as Hmax.
    assert (Forall (fun kv => wf_value o kv.2 /\
      item_reader (S Indent) (ParseValue T o fuel (Depth + 1)) kv.2) ms) as Hall.
    { clear Hw. rewrite Forall_forall in *. intros kv Hv. split; [by apply Hw'|].
      specialize (Hmax kv Hv). simpl in Hmax. apply (IH kv Hv); [by apply Hw'|lia|lia]. }
    pose proof (ParseObject_read ms Indent Depth _ p r ltac:(lia) Hnd Hall H) as Hread.
    unfold reads in *. rewrite Write_object in H.
    apply drop_cons_inv in H as (E & _). cbn [ParseValue].
    rewrite peek_bind, E. by decide_bytes.
Qed.
End Reader.

(** Reading back a written value. *)
Lemma JsonParse_read (v : JsonValue) (o : JsonParseOptions) (w : JsonWriteOptions) :
  wf_value o v -> (Z.of_nat (height v) <= kMaxJsonDepth)%Z ->
  JsonParse (JsonWrite v w) o = JOk v.
Proof.
  intros Hw Hh. unfold JsonParse, JsonWrite, ParseDocument. set (T := Write w 0 v).
  destruct (Write_head w o 0 v Hw) as (c & s & E & Hc & _).
  assert (drop 0 T = c :: s) as H0 by (rewrite drop_0; exact E).
  rewrite (P_bind_ok _ _ _ _ _ (SkipWhitespace_stop T _ _ _ H0 Hc)).
  assert (reads (ParseValue T o (Z.to_nat (kMaxJsonDepth + 1)) 0) 0 T v) as Hread.
  { eapply (ParseValue_read w o T v 0); [done|lia|lia| |by rewrite drop_0, app_nil_r]. done. }
  rewrite (P_bind_ok _ _ _ _ _ Hread). cbn [Nat.add].
  assert (drop (length T) T = []) as Hend by apply drop_all.
  assert (SkipWhitespace T (length T) = JOk (tt, length T)) as Hs.
  { unfold SkipWhitespace. by rewrite Hend. }
  rewrite (P_bind_ok _ _ _ _ _ Hs), peek_bind.
  apply drop_nil_inv in Hend as [-> _]. done.
Qed.

(** C31: Writing a value, compact or pretty, and parsing the text gives the value
    back, for every value whose numbers are literals (or the constants the
    options allow), whose objects have distinct keys and that nests at most 512
    levels; its strings may hold any bytes. *)
Theorem JsonParse_JsonWrite (v : JsonValue) (o : JsonParseOptions) (w : JsonWriteOptions)
    (Hw : wf_value o v) (Hh : (Z.of_nat (height v) <= kMaxJsonDepth)%Z) :
  JsonParse (JsonWrite v w) o = JOk v.
Proof. by apply JsonParse_read. Qed.

Lemma JsonParse_JsonWrite_witness :
  let o := MkParseOptions true true in
  let w := MkWriteOptions true in
  let v := JObject [(B "a", JArray [Int (-12); JBool true; JNull; JString [x22; x01; x0a; xff]]);
                    ([], JObject []); (B "c", JArray [JArray []; JNumber (B "NaN")])] in
  JsonParse (JsonWrite v w) o = JOk v.
Proof.
  intros o w v. apply (JsonParse_JsonWrite v o w); [|vm_compute; discriminate].
  cbn [wf_value v foldr snd]. split_and!; try done.
  - apply (bool_decide_unpack _). vm_compute. exact I.
  - left. apply IsJsonNumberText_iff. reflexivity.
  - apply NoDup_nil_2.
  - right. split; [done|]. apply elem_of_cons. by left.
Defined.

(** ** Integers *)

Lemma dec_nonneg_int_part (n : Z) : (0 <= n)%Z -> int_part (dec_nonneg n).
Proof.
  intros Hn. destruct (dec_nonneg_run n Hn) as (d & ds & -> & Hd & Hnz & Hds & Hz & _).
  destruct (Z.eq_dec n 0%Z) as [->|Hne].
  - rewrite (Hz eq_refl). destruct (Z.eq_dec d 0%Z) as [->|Hd0]; [by left|].
    right. exists (digit_char d), []. split_and!; [done|by apply digit_char_is_digit| |constructor].
    intros E. apply (f_equal code) in E. rewrite digit_char_code in E by done.
    change (code x30) with 48%Z in E. lia.
  - right. exists (digit_char d), ds. split_and!; [done|by apply digit_char_is_digit| |done].
    intros E. apply (f_equal code) in E. rewrite digit_char_code in E by done.
    change (code x30) with 48%Z in E. specialize (Hnz Hne). lia.
Qed.

Lemma dec_text_number (z : Z) : json_number (dec_text z).
Proof.
  unfold dec_text. destruct (Z.ltb_spec z 0).
  - exists [x2d], (dec_nonneg (- z)), [], []. rewrite !app_nil_r.
    split_and!; [done|by right|apply dec_nonneg_int_part; lia|by left|by left].
  - exists [], (dec_nonneg z), [], []. rewrite !app_nil_r.
    split_and!; [done|by left|apply dec_nonneg_int_part; lia|by left|by left].
Qed.

Lemma digits_integer (ds : text) :
  digits ds -> forallb (fun Ch => negb (bool_decide (Ch ∈ [x2e; x65; x45; x4e; x49]))) ds = true.
Proof.
  induction 1 as [|d ds Hd Hds IH]; [done|]. cbn [forallb].
  by rewrite IH, digit_not_in by (done || by repeat constructor).
Qed.

Lemma int_part_digits (s : text) : int_part s -> digits s /\ s <> [].
Proof. intros [-> |(d & ds & -> & Hd & _ & Hds)]; (split; [by repeat constructor|done]). Qed.

Lemma Int_integer (z : Z) : IsIntegerText (Int z) = true.
Proof.
  unfold Int, dec_text.
  destruct (Z.ltb_spec z 0) as [Hneg|Hpos].
  - destruct (int_part_digits _ (dec_nonneg_int_part (- z) ltac:(lia))) as [Hds _].
    by apply digits_integer in Hds.
  - destruct (int_part_digits _ (dec_nonneg_int_part z Hpos)) as [Hds Hne].
    apply digits_integer in Hds. cbn [IsIntegerText]. by destruct (dec_nonneg z).
Qed.

(** An integer of the width survives the trip: [Int] and [UInt] write a
    literal of the grammar that the parser reads and the accessor of the same
    width converts back to the same number. *)
Theorem integers_survive (z : Z) (o : JsonParseOptions) (w : JsonWriteOptions) :
  ((- 2 ^ 63 <= z < 2 ^ 63)%Z ->
   exists v, JsonParse (JsonWrite (Int z) w) o = JOk v /\ AsInt64 v = JOk z) /\
  ((0 <= z < 2 ^ 64)%Z ->
   exists v, JsonParse (JsonWrite (UInt z) w) o = JOk v /\ AsUInt64 v = JOk z).
Proof.
  assert (JsonParse (JsonWrite (Int z) w) o = JOk (Int z)) as Hp.
  { apply JsonParse_read; [left; apply dec_text_number|done]. }
  pose proof (Int_integer z) as Hi. split; intros Hz; exists (Int z); (split; [exact Hp|]).
  - unfold AsInt64. rewrite Hi. cbn [negb Int]. by rewrite from_chars_dec_text by lia.
  - unfold AsUInt64, Int in *. rewrite Hi. cbn [negb orb].
    rewrite bool_decide_false; [by rewrite from_chars_dec_text by lia|].
    unfold dec_text. destruct (Z.ltb_spec z 0); [lia|].
    destruct (dec_nonneg_run z) as (d & ds & -> & Hd & _); [lia|]. intros [= E].
    by apply (digit_not_minus d Hd).
Qed.
