(* ===== verification/PyInt.v ===== *)
(** * Python's [int(text)] (src/src/diff/StateDetail.h)

    [PyIntAsciiAccepts] decides which ASCII texts Python's [int] accepts;
    [RequirePyInt] raises where Python raises for a None or malformed address,
    and refuses a non-ASCII one. *)

From stdpp Require Import base gmap list numbers.
From Stdlib Require Import ZArith Lia.
From S2P Require Import Prelude Interner.

(** [Py_ISSPACE]: space, TAB, LF, VT, FF, CR. *)
Definition IsSpace (Ch : byte) : bool :=
  bool_decide (Ch ∈ [x20; x09; x0a; x0b; x0c; x0d]).

Definition IsDigit (Ch : byte) : bool :=
  ((48 <=? code Ch) && (code Ch <=? 57))%Z.

(** The two trimming loops move [Begin] and [End]. *)
Fixpoint trim_left (t : text) : text :=
  match t with
  | Ch :: t' => if IsSpace Ch then trim_left t' else t
  | [] => []
  end.
Definition trim_right (t : text) : text := reverse (trim_left (reverse t)).

Definition skip_sign (t : text) : text :=
  match t with
  | Ch :: t' => if bool_decide (Ch = x2b \/ Ch = x2d) then t' else t
  | [] => []
  end.

(** The digit loop, with its look-ahead after an underscore. *)
Fixpoint digit_loop (PrevDigit : bool) (t : text) : bool :=
  match t with
  | [] => true
  | Ch :: t' =>
      if IsDigit Ch then digit_loop true t'
      else if bool_decide (Ch = x5f) && PrevDigit
              && match t' with Next :: _ => IsDigit Next | [] => false end
      then digit_loop false t'
      else false
  end.

Definition PyIntAsciiAccepts (t : text) : bool :=
  let body := skip_sign (trim_right (trim_left t)) in
  match body with
  | [] => false
  | Ch :: _ => if IsDigit Ch then digit_loop false body else false
  end.

Definition IsAscii (t : text) : bool := forallb (fun Ch => negb (128 <=? code Ch)%Z) t.

Definition RequirePyInt (ids : Interners) (Ea : AddrId) (Site : text) : res unit :=
  if bool_decide (Ea = kNoneAddr) then
    Throw (DiaphoraWouldRaise (Site ++ B " TypeError")
      (B "int() argument must be a string, a bytes-like object or a real number, not 'NoneType'"))
  else
    t ← AddrText Ea ids;
    if negb (IsAscii t) then
      Throw (UnsupportedInput
        (B "address text '" ++ t ++ B "' is not ASCII: Python int() of it (" ++ Site
         ++ B ") is not ported"))
    else if negb (PyIntAsciiAccepts t) then
      Throw (DiaphoraWouldRaise (Site ++ B " ValueError")
        (B "invalid literal for int() with base 10: '" ++ t ++ B "'"))
    else Ok tt.

(** ** The grammar of CPython's [PyLong_FromString] at base 10 *)

(** One or more digits with single underscores between two digits. *)
Inductive py_digits : text -> Prop :=
| pd_one d : IsDigit d = true -> py_digits [d]
| pd_next d t : IsDigit d = true -> py_digits t -> py_digits (d :: t)
| pd_sep d t : IsDigit d = true -> py_digits t -> py_digits (d :: x5f :: t).

Definition spaces (t : text) : Prop := Forall (fun Ch => IsSpace Ch = true) t.

Definition py_sign (t : text) : Prop := t = [] \/ t = [x2b] \/ t = [x2d].

Definition py_int_literal (t : text) : Prop :=
  exists a sgn body b, t = a ++ sgn ++ body ++ b /\
    spaces a /\ py_sign sgn /\ py_digits body /\ spaces b.

(** ** Characters *)

Lemma IsDigit_spec (Ch : byte) : IsDigit Ch = true <-> (48 <= code Ch <= 57)%Z.
Proof. unfold IsDigit. rewrite andb_true_iff, !Z.leb_le. done. Qed.

Lemma digit_not_space (Ch : byte) : IsDigit Ch = true -> IsSpace Ch = false.
Proof.
  intros H. apply bool_decide_eq_false. intros Hin. set_unfold in Hin.
  destruct_or! Hin; subst; discriminate.
Qed.

Lemma sign_not_space (Ch : byte) : Ch = x2b \/ Ch = x2d -> IsSpace Ch = false.
Proof. by intros [-> | ->]. Qed.

(** ** Trimming *)

Lemma trim_left_app (a t : text) : spaces a -> trim_left (a ++ t) = trim_left t.
Proof. induction 1 as [|x a Hx Ha IH]; simpl; [done|]. by rewrite Hx. Qed.

Lemma trim_left_stop (Ch : byte) (t : text) :
  IsSpace Ch = false -> trim_left (Ch :: t) = Ch :: t.
Proof. intros H. simpl. by rewrite H. Qed.

Lemma trim_left_split (t : text) :
  exists a, t = a ++ trim_left t /\ spaces a.
Proof.
  induction t as [|x t (a & Ht & Ha)]; simpl; [by exists []; split; [|constructor]|].
  destruct (IsSpace x) eqn:E.
  - exists (x :: a). split; [simpl; by f_equal|by constructor].
  - exists []. split; [done|constructor].
Qed.

Lemma trim_right_split (t : text) :
  exists b, t = trim_right t ++ b /\ spaces b.
Proof.
  destruct (trim_left_split (reverse t)) as (a & Ht & Ha).
  exists (reverse a). split; [|by apply Forall_reverse].
  unfold trim_right. rewrite <- reverse_app, <- Ht. by rewrite reverse_involutive.
Qed.

Lemma trim_right_app (t : text) (Ch : byte) (b : text) :
  IsSpace Ch = false -> spaces b -> trim_right ((t ++ [Ch]) ++ b) = t ++ [Ch].
Proof.
  intros HC Hb. unfold trim_right. rewrite !reverse_app, <- app_assoc || rewrite !reverse_app.
  rewrite trim_left_app by by apply Forall_reverse.
  rewrite reverse_singleton. cbn [app]. rewrite trim_left_stop by done.
  by rewrite reverse_cons, reverse_involutive.
Qed.

(** ** The digit loop accepts the grammar *)

Lemma digit_loop_digits (n : nat) (p : bool) (d : byte) (t : text) :
  length t < n -> IsDigit d = true ->
  digit_loop p (d :: t) = true <-> py_digits (d :: t).
Proof.
  revert p d t. induction n as [|n IH]; intros p d t Hlen Hd; [lia|].
  simpl. rewrite Hd. destruct t as [|c t]; [split; [by constructor|done]|].
  simpl in Hlen. destruct (IsDigit c) eqn:Hc.
  - assert (digit_loop true (c :: t) = true <-> py_digits (c :: t)) as -> by (apply IH; [lia|done]).
    split; [by constructor|]. inversion 1; subst; done.
  - simpl. rewrite Hc. destruct t as [|e t].
    { rewrite andb_false_r. split; [done|]. inversion 1; subst.
      all: match goal with H : py_digits _ |- _ => inversion H; subst; congruence end. }
    case_bool_decide as Hu; simpl.
    + subst c. destruct (IsDigit e) eqn:He.
      * assert (digit_loop false (e :: t) = true <-> py_digits (e :: t)) as Hi
          by (apply IH; [simpl in *; lia|done]).
        simpl in Hi. rewrite He in Hi. rewrite Hi. split; [by constructor|].
        inversion 1 as [| |]; subst; [|done].
        match goal with H : py_digits (x5f :: _) |- _ => inversion H; subst; done end.
      * split; [done|]. inversion 1; subst;
          match goal with H : py_digits _ |- _ => inversion H; subst; congruence end.
    + split; [done|]. inversion 1; subst; [|done].
      match goal with H : py_digits _ |- _ => inversion H; subst; congruence end.
Qed.

Lemma py_digits_head (t : text) :
  py_digits t -> exists d u, t = d :: u /\ IsDigit d = true.
Proof. inversion 1; eauto. Qed.

Lemma py_digits_last (t : text) :
  py_digits t -> exists u d, t = u ++ [d] /\ IsDigit d = true.
Proof.
  induction 1 as [d Hd|d t Hd Ht (u & e & -> & He)|d t Hd Ht (u & e & -> & He)].
  - by exists [], d.
  - by exists (d :: u), e.
  - by exists (d :: x5f :: u), e.
Qed.

Lemma skip_sign_split (t : text) :
  exists sgn, t = sgn ++ skip_sign t /\ py_sign sgn.
Proof.
  unfold py_sign. destruct t as [|c t]; simpl; [exists []; auto|].
  case_bool_decide as H; [|exists []; auto].
  exists [c]. split; [done|]. destruct H as [-> | ->]; auto.
Qed.

Lemma skip_sign_digits (sgn t : text) :
  py_sign sgn -> py_digits t -> skip_sign (sgn ++ t) = t.
Proof.
  intros Hs Ht. destruct Hs as [->|[->| ->]]; [|done..].
  destruct (py_digits_head t Ht) as (d & u & -> & Hd). simpl.
  case_bool_decide as H; [|done]. destruct H as [-> | ->]; done.
Qed.

Lemma PyIntAsciiAccepts_spec (t : text) :
  PyIntAsciiAccepts t = true <-> py_int_literal t.
Proof.
  unfold PyIntAsciiAccepts. split.
  - intros H. destruct (trim_left_split t) as (a & Ht & Ha).
    destruct (trim_right_split (trim_left t)) as (b & Hb & Hsb).
    destruct (skip_sign_split (trim_right (trim_left t))) as (sgn & Hs & Hsgn).
    exists a, sgn, (skip_sign (trim_right (trim_left t))), b.
    split; [by rewrite (app_assoc sgn), <- Hs, <- Hb|]. split; [done|]. split; [done|].
    split; [|done]. destruct (skip_sign _) as [|d u]; [done|].
    destruct (IsDigit d) eqn:Hd; [|done].
    by apply (digit_loop_digits (S (length u)) false) in H; [|lia|].
  - intros (a & sgn & body & b & -> & Ha & Hs & Hd & Hb).
    destruct (py_digits_last body Hd) as (u & e & -> & He).
    rewrite trim_left_app by done.
    assert (Hl : trim_left (sgn ++ (u ++ [e]) ++ b) = sgn ++ (u ++ [e]) ++ b).
    { destruct Hs as [->|[->| ->]]; [|done..].
      destruct (py_digits_head _ Hd) as (d & w & E & Hd'). simpl. rewrite E.
      apply trim_left_stop, digit_not_space, Hd'. }
    rewrite Hl, app_assoc, app_assoc, trim_right_app by (done || by apply digit_not_space).
    rewrite <- app_assoc, skip_sign_digits by done.
    destruct (py_digits_head _ Hd) as (d & w & E & Hd'). rewrite E in Hd |- *.
    rewrite Hd'. by apply (digit_loop_digits (S (length w))); [lia| |].
Qed.

(** [PyIntAsciiAccepts] accepts exactly the texts of Python's integer
    literal grammar at base 10: optional spaces, an optional sign, digits with
    single underscores between two digits, optional spaces. *)
Theorem PyIntAsciiAccepts_grammar (t : text) :
  PyIntAsciiAccepts t = true <-> py_int_literal t.
Proof. apply PyIntAsciiAccepts_spec. Qed.

(** The address test raises exactly as Python's [int] does: a TypeError
    for None, a ValueError for text outside the grammar, a refusal for text
    that is not ASCII, and nothing for an integer literal. *)
Theorem RequirePyInt_outcome (ids : Interners) (Ea : AddrId) (Site : text) :
  known_addr ids Ea ->
  (Ea = kNoneAddr /\ exists d, RequirePyInt ids Ea Site
     = Throw (DiaphoraWouldRaise (Site ++ B " TypeError") d)) \/
  (Ea <> kNoneAddr /\ exists t, AddrText Ea ids = Ok t /\
     ((IsAscii t = false /\ exists w, RequirePyInt ids Ea Site = Throw (UnsupportedInput w)) \/
      (IsAscii t = true /\ ~ py_int_literal t /\ exists d, RequirePyInt ids Ea Site
         = Throw (DiaphoraWouldRaise (Site ++ B " ValueError") d)) \/
      (IsAscii t = true /\ py_int_literal t /\ RequirePyInt ids Ea Site = Ok tt))).
Proof.
  intros Hk. unfold RequirePyInt. case_bool_decide as H0; [left; eauto|].
  right. split; [done|]. unfold AddrText. rewrite bool_decide_false by done.
  destruct Hk as [|Hk]; [done|]. destruct (known_text _ _ Hk) as (t & ->).
  exists t. split; [done|]. simpl. destruct (IsAscii t); simpl; [|eauto].
  right. destruct (PyIntAsciiAccepts t) eqn:E; simpl.
  - right. by apply PyIntAsciiAccepts_spec in E.
  - left. split; [done|]. split; [|eauto].
    rewrite <- PyIntAsciiAccepts_spec. congruence.
Qed.
