(* ===== verification/Snapshot.v ===== *)
(** * Stage snapshots (include/dsigmatcher/diff/Snapshot.h,
      src/src/diff/Snapshot.cpp)

    The snapshot records hold plain texts and bit patterns, not interned ids.
    [RatioBitsHex] and [ParseRatioBits] print and read a ratio as 16 digits. *)

From stdpp Require Import base gmap list numbers.
From Stdlib Require Import ZArith Lia.
From S2P Require Import Prelude Dbl.

Definition kSnapshotSchema : text := B "dsig-parity-snapshot/1".

Record SnapItem := MkSnapItem {
  SnapEa1 : text;
  SnapName1 : option text;
  SnapEa2 : text;
  SnapName2 : option text;
  SnapDesc : text;
  SnapRatioBits : Z;
  SnapNodes1 : Z;
  SnapNodes2 : Z;
}.

Record SnapMatched := MkSnapMatched {
  SnapKey : option text;
  SnapOther : option text;
  SnapMatchedBits : Z;
}.

Record SnapFlags := MkSnapFlags {
  IsSameProcessor : bool;
  IsPatchDiff : bool;
  IsSymbolsStripped : bool;
  HooksLoaded : bool;
  TotalFunctions1 : Z;
  TotalFunctions2 : Z;
}.

Record SnapUnmatched := MkSnapUnmatched { UnmatchedEa : text; UnmatchedName : option text }.
Record SnapCacheEntry := MkSnapCacheEntry { CacheKey : text; CacheBits : Z }.

Record SnapChoosers := MkSnapChoosers {
  ChoosersBest : list SnapItem;
  ChoosersPartial : list SnapItem;
  ChoosersUnreliable : list SnapItem;
  ChoosersMultimatch : list SnapItem;
}.

Record SnapUnmatchedDump := MkSnapUnmatchedDump {
  DumpPrimary : option (list SnapUnmatched);
  DumpSecondary : option (list SnapUnmatched);
}.

Record StateSnapshot := MkStateSnapshot {
  Schema : text;
  Producer : text;
  Pair : text;
  Seq : Z;
  Point : text;
  Iteration : option Z;
  Flags : SnapFlags;
  SnapBest : list SnapItem;
  SnapPartial : list SnapItem;
  SnapUnreliable : list SnapItem;
  MatchedPrimary : list SnapMatched;
  MatchedSecondary : list SnapMatched;
  RatiosCache : option (list SnapCacheEntry);
  Choosers : option SnapChoosers;
  Unmatched : option SnapUnmatchedDump;
}.

(** ** Ratio digits *)

#[local] Open Scope Z_scope.

Definition hex_digit (n : Z) : byte :=
  byte_of_code (if n <? 10 then 48 + n else 87 + n).

(** [snprintf "%016llx"]: 16 digits, most significant first. *)
Fixpoint hex_digits (n : nat) (Bits : Z) : text :=
  match n with
  | O => []
  | S n' => hex_digits n' (Z.shiftr Bits 4) ++ [hex_digit (Z.land Bits 15)]
  end.

Definition RatioBitsHex (Value : dbl) : text := hex_digits 16 (RatioBits Value).

Definition hex_value (Ch : byte) : option Z :=
  let c := code Ch in
  if (48 <=? c) && (c <=? 57) then Some (c - 48)
  else if (97 <=? c) && (c <=? 102) then Some (c - 97 + 10)
  else if (65 <=? c) && (c <=? 70) then Some (c - 65 + 10)
  else None.

Fixpoint parse_hex_loop (Bits : Z) (Hex : text) : option Z :=
  match Hex with
  | [] => Some Bits
  | Ch :: Hex' =>
      match hex_value Ch with
      | Some v => parse_hex_loop (Z.lor (w64 (Z.shiftl Bits 4)) v) Hex'
      | None => None
      end
  end.

(** [None] stands for the [JsonError] of a malformed ratio. *)
Definition ParseRatioBits (Hex : text) : option Z :=
  if negb (length Hex =? 16)%nat then None else parse_hex_loop 0 Hex.

Lemma hex_value_digit (n : Z) : 0 <= n < 16 -> hex_value (hex_digit n) = Some n.
Proof.
  intros Hn. unfold hex_digit, hex_value.
  rewrite code_byte_of_code by (destruct (Z.ltb_spec n 10); lia).
  destruct (Z.ltb_spec n 10); repeat case_match_goal; bool_props; f_equal; try lia.
  all: rewrite ?andb_false_iff, ?Z.leb_gt in *; lia.
Qed.

Lemma length_hex_digits (n : nat) (b : Z) : length (hex_digits n b) = n.
Proof. revert b. induction n as [|n IH]; intros b; simpl; [done|]. rewrite length_app, IH. simpl. lia. Qed.

Lemma parse_hex_loop_app (acc : Z) (s t : text) :
  parse_hex_loop acc (s ++ t) =
  match parse_hex_loop acc s with Some b => parse_hex_loop b t | None => None end.
Proof.
  revert acc. induction s as [|c s IH]; intros acc; simpl; [done|].
  destruct (hex_value c); [apply IH|done].
Qed.

Lemma shiftl4_lor (hi lo : Z) : 0 <= lo < 16 -> Z.lor (Z.shiftl hi 4) lo = hi * 16 + lo.
Proof.
  intros Hlo. rewrite Z.shiftl_mul_pow2 by lia. change (2 ^ 4) with 16.
  symmetry. apply Z.add_nocarry_lor. apply Z.bits_inj'. intros i Hi.
  rewrite Z.land_spec, Z.bits_0. change 16 with (2 ^ 4).
  destruct (Z.ltb_spec i 4).
  - by rewrite Z.mul_pow2_bits_low.
  - rewrite <- (Z.mod_small lo (2 ^ 4)) by done.
    rewrite Z.mod_pow2_bits_high by lia. apply andb_false_r.
Qed.

Lemma parse_hex_digits (n : nat) (b : Z) :
  (n <= 16)%nat -> 0 <= b < 16 ^ Z.of_nat n ->
  parse_hex_loop 0 (hex_digits n b) = Some b.
Proof.
  revert b. induction n as [|n IH]; intros b Hn Hb; [simpl in *; f_equal; lia|].
  assert (Hp : 16 ^ Z.of_nat (S n) = 16 * 16 ^ Z.of_nat n)
    by (rewrite Nat2Z.inj_succ, Z.pow_succ_r by lia; done).
  assert (H16 : 16 ^ Z.of_nat n <= 16 ^ 15) by (apply Z.pow_le_mono_r; lia).
  cbn [hex_digits]. rewrite parse_hex_loop_app.
  assert (Hs : Z.shiftr b 4 = b / 16) by (rewrite Z.shiftr_div_pow2 by lia; done).
  assert (Hl : Z.land b 15 = b mod 16)
    by (change 15 with (Z.ones 4); rewrite Z.land_ones by lia; done).
  rewrite Hs, Hl. rewrite IH by (Z.to_euclidean_division_equations; lia). simpl.
  rewrite hex_value_digit by (apply Z.mod_pos_bound; lia).
  rewrite w64_small; rewrite ?Z.shiftl_mul_pow2 by lia;
    [|change (2 ^ 4) with 16; Z.to_euclidean_division_equations; lia].
  rewrite <- Z.shiftl_mul_pow2 by lia.
  rewrite shiftl4_lor by (apply Z.mod_pos_bound; lia).
  f_equal. Z.to_euclidean_division_equations; lia.
Qed.

(** A ratio written as 16 hex digits is read back as its own bits and so
    as the same double (the round trip of the snapshot files). *)
Theorem ratio_hex_roundtrip (Value : dbl) :
  valid Value -> is_nan Value = false ->
  ParseRatioBits (RatioBitsHex Value) = Some (RatioBits Value) /\
  RatioFromBits (RatioBits Value) = Value.
Proof.
  intros Hv Hn. split; [|by apply RatioFromBits_RatioBits].
  unfold ParseRatioBits, RatioBitsHex. rewrite length_hex_digits. simpl negb. cbv iota.
  apply parse_hex_digits; [lia|]. pose proof (RatioBits_bounds Value Hv Hn). lia.
Qed.

Lemma ratio_hex_roundtrip_witness :
  ParseRatioBits (RatioBitsHex (dlit 1 3)) = Some (RatioBits (dlit 1 3)) /\
  RatioFromBits (RatioBits (dlit 1 3)) = dlit 1 3.
Proof. apply (ratio_hex_roundtrip (dlit 1 3)); vm_compute; reflexivity. Defined.
