(* ===== verification/MatchState.v ===== *)
(** * Match bookkeeping (src/src/diff/MatchState.cpp)

    [all_matches] (three ordered lists of items), the [matched_primary] and
    [matched_secondary] dicts keyed by interned name, and the operations on
    them: [AddMatch], [HasBestMatch], [HasBetterMatch], [Cleanup], the counters
    and the snapshot export and import. Trace output is the returned
    [AddMatchResult] of the event. *)

From stdpp Require Import base gmap sets list numbers sorting.
From Stdlib Require Import ZArith Lia.
From S2P Require Import Prelude Dbl Interner Snapshot.

Inductive Chooser := Best | Partial | Unreliable.
#[export] Instance Chooser_eq_dec : EqDecision Chooser.
Proof. solve_decision. Defined.

Definition ChooserName (C : Chooser) : text :=
  match C with
  | Best => B "best"
  | Partial => B "partial"
  | Unreliable => B "unreliable"
  end.

(** A C++ array indexed by the chooser, and its iteration order. *)
Record per_chooser (A : Type) := PerChooser { of_best : A; of_partial : A; of_unreliable : A }.
Arguments PerChooser {A} _ _ _.
Arguments of_best {A} _.
Arguments of_partial {A} _.
Arguments of_unreliable {A} _.

Definition at_ {A} (C : Chooser) (p : per_chooser A) : A :=
  match C with Best => of_best p | Partial => of_partial p | Unreliable => of_unreliable p end.

Definition set_at {A} (C : Chooser) (v : A) (p : per_chooser A) : per_chooser A :=
  match C with
  | Best => PerChooser v (of_partial p) (of_unreliable p)
  | Partial => PerChooser (of_best p) v (of_unreliable p)
  | Unreliable => PerChooser (of_best p) (of_partial p) v
  end.

Definition map_choosers {A C} (f : A -> C) (p : per_chooser A) : per_chooser C :=
  PerChooser (f (of_best p)) (f (of_partial p)) (f (of_unreliable p)).

(** A match item [ea, name1, ea2, name2, desc, ratio, nodes1, nodes2]. *)
Record Item := MkItem {
  Ea1 : AddrId;
  Name1 : NameId;
  Ea2 : AddrId;
  Name2 : NameId;
  ItemDesc : DescId;
  Ratio : dbl;
  Nodes1 : Z;
  Nodes2 : Z;
}.

(** The defaulted [operator==]: doubles compare with [==]. *)
Definition item_eqb (a b : Item) : bool :=
  (Ea1 a =? Ea1 b)%N && (Name1 a =? Name1 b)%N && (Ea2 a =? Ea2 b)%N
  && (Name2 a =? Name2 b)%N && (ItemDesc a =? ItemDesc b)%N && deq (Ratio a) (Ratio b)
  && (Nodes1 a =? Nodes1 b)%Z && (Nodes2 a =? Nodes2 b)%Z.

Record MatchedEntry := MkMatchedEntry { Other : NameId; EntryRatio : dbl }.
#[export] Instance MatchedEntry_eq_dec : EqDecision MatchedEntry.
Proof. solve_decision. Defined.

(** The hash of an item, on 64-bit words. *)
Definition hash_mix (H Value : Z) : Z :=
  Z.lxor H (w64 (w64 Value + 11400714819323198485 + w64 (Z.shiftl H 6) + Z.shiftr H 2)).

Definition ItemHash (It : Item) : Z :=
  let RatioKey := if negb (deq (Ratio It) d0) then RatioBits (Ratio It) else 0%Z in
  fold_left hash_mix
    [Z.of_N (Ea1 It); Z.of_N (Name1 It); Z.of_N (Ea2 It); Z.of_N (Name2 It);
     Z.of_N (ItemDesc It); RatioKey; Nodes1 It; Nodes2 It] 1469598103934665603%Z.

(** ** The occurrence index of a list ([Members])

    An [unordered_map] from items to [uint32_t] counts: a list of pairs whose
    keys are compared with [item_eqb]; [Members[It]] of a missing key is 0. *)

Abbreviation members := (list (Item * Z)).

Fixpoint member_count (It : Item) (ms : members) : Z :=
  match ms with
  | [] => 0
  | (k, n) :: ms' => if item_eqb k It then n else member_count It ms'
  end.

Fixpoint set_member (It : Item) (n : Z) (ms : members) : members :=
  match ms with
  | [] => [(It, n)]
  | (k, m) :: ms' => if item_eqb k It then (k, n) :: ms' else (k, m) :: set_member It n ms'
  end.

Definition RebuildMembers (l : list Item) : members :=
  fold_left (fun ms It => set_member It (w32 (member_count It ms + 1)) ms) l [].

(** ** A Python dict with its insertion order *)

Record NameDict := MkNameDict { Order : list NameId; Map : gmap N MatchedEntry }.

Definition EmptyDict : NameDict := MkNameDict [] ∅.

Definition Put (Key : NameId) (Entry : MatchedEntry) (d : NameDict) : NameDict :=
  match Map d !! Key with
  | None => MkNameDict (Order d ++ [Key]) (<[Key := Entry]> (Map d))
  | Some _ => MkNameDict (Order d) (<[Key := Entry]> (Map d))
  end.

Definition FindEntry (Key : NameId) (d : NameDict) : option MatchedEntry := Map d !! Key.

(** [std::stable_sort] with [A.Ratio > B.Ratio]. *)
Definition ratio_gt (a b : Item) : bool := dgt (Ratio a) (Ratio b).
Definition SortDescending (l : list Item) : list Item := stable_sort ratio_gt l.

(** ** The state *)

Record MatchState := MkMatchState {
  Total1 : Z;
  Total2 : Z;
  Lists : per_chooser (list Item);
  Members : per_chooser members;
  Primary : NameDict;
  Secondary : NameDict;
}.

Definition EmptyState : MatchState :=
  MkMatchState 0 0 (PerChooser [] [] []) (PerChooser [] [] []) EmptyDict EmptyDict.

Definition SetTotals (T1 T2 : Z) (st : MatchState) : MatchState :=
  MkMatchState T1 T2 (Lists st) (Members st) (Primary st) (Secondary st).

Fixpoint starts_with (t prefix : text) : bool :=
  match prefix, t with
  | [], _ => true
  | p :: prefix', c :: t' => bool_decide (p = c) && starts_with t' prefix'
  | _ :: _, [] => false
  end.

Definition RaiseStartsWithNone {A} (Site : text) : res A :=
  Throw (DiaphoraWouldRaise Site
    (B "AttributeError: 'NoneType' object has no attribute 'startswith'")).

Definition StartsWith (ids : Interners) (Nm : NameId) (Prefix Site : text) : res bool :=
  if bool_decide (Nm = kNoneName) then RaiseStartsWithNone Site
  else t ← NameText Nm ids; Ok (starts_with t Prefix).

(** The two dict tests of D:1396-1402. *)
Definition dict_better (N1 N2 : NameId) (R : dbl) (st : MatchState) : bool :=
  match FindEntry N1 (Primary st) with
  | Some Entry => dgt (EntryRatio Entry) R
  | None => false
  end
  || match FindEntry N2 (Secondary st) with
     | Some Entry => dgt (EntryRatio Entry) R
     | None => false
     end.

Definition HasBetterMatch (ids : Interners) (N1 N2 : NameId) (R : dbl) (st : MatchState)
    : res bool :=
  s1 ← StartsWith ids N1 (B "sub_") (B "D:1392");
  Named ← (if negb s1 then
             s2 ← StartsWith ids N2 (B "sub_") (B "D:1392"); Ok (negb s2)
           else Ok false);
  match (if Named : bool then FindEntry N1 (Primary st) else None) with
  | Some Entry => Ok (bool_decide (Other Entry = N1))
  | None => Ok (dict_better N1 N2 R st)
  end.

Definition HasBestMatch (N1 N2 : NameId) (st : MatchState) : bool :=
  match FindEntry N1 (Primary st) with
  | Some Entry => deq (EntryRatio Entry) d1
  | None => false
  end
  || match FindEntry N2 (Secondary st) with
     | Some Entry => deq (EntryRatio Entry) d1
     | None => false
     end.

Inductive AddMatchResult := Appended | Duplicate | RejectedBetter.
#[export] Instance AddMatchResult_eq_dec : EqDecision AddMatchResult.
Proof. solve_decision. Defined.

(** The list part of [AddMatch] (D:1369-1371): append unless already there. *)
Definition append_item (It : Item) (C : Chooser) (st : MatchState) : MatchState * bool :=
  if (member_count It (at_ C (Members st)) =? 0)%Z then
    (MkMatchState (Total1 st) (Total2 st)
       (set_at C (at_ C (Lists st) ++ [It]) (Lists st))
       (set_at C (set_member It 1 (at_ C (Members st))) (Members st))
       (Primary st) (Secondary st), true)
  else (st, false).

(** The dict part (D:1373-1374). *)
Definition put_both (N1 N2 : NameId) (R : dbl) (st : MatchState) : MatchState :=
  MkMatchState (Total1 st) (Total2 st) (Lists st) (Members st)
    (Put N1 (MkMatchedEntry N2 R) (Primary st))
    (Put N2 (MkMatchedEntry N1 R) (Secondary st)).

Definition AddMatch (ids : Interners) (N1 N2 : NameId) (RatioArg : dbl) (It : Item)
    (C : option Chooser) (st : MatchState) : res (MatchState * AddMatchResult) :=
  let R := if bool_decide (N1 = N2) then d1 else RatioArg in
  Better ← (if negb (deq R d1) then HasBetterMatch ids N1 N2 R st else Ok false);
  if Better : bool then Ok (st, RejectedBetter)
  else
    let '(st1, App) := match C with
                       | Some c => append_item It c st
                       | None => (st, false)
                       end in
    Ok (put_both N1 N2 R st1, if App : bool then Appended else Duplicate).

(** ** Cleanup (D:1554-1605) *)

(** [f"{name1}-{name2}"]. *)
Definition pair_key (ids : Interners) (It : Item) : res text :=
  a ← NameKeyText (Name1 It) ids;
  b ← NameKeyText (Name2 It) ids;
  Ok (a ++ B "-" ++ b).

(** The ratio the two tests use: the same-name fake 1.0. *)
Definition fake_ratio (It : Item) : dbl :=
  if bool_decide (Name1 It = Name2 It) then d1 else Ratio It.

(** The loop's locals: [Dones], [EaRatios] and the list being built. *)
Record CleanLoop := MkCleanLoop {
  Dones : gset text;
  EaRatios : gmap AddrId dbl;
  Out : list Item;
}.

(** One pass of the loop body, the key given. *)
Definition clean_item (Key : text) (It : Item) (L : CleanLoop) : CleanLoop :=
  if bool_decide (Key ∈ Dones L) then L
  else
    let R := fake_ratio It in
    let D := {[ Key ]} ∪ Dones L in
    match EaRatios L !! Ea1 It with
    | Some r => if dgt r R then MkCleanLoop D (EaRatios L) (Out L)
                else MkCleanLoop D (<[Ea1 It := R]> (EaRatios L)) (Out L ++ [It])
    | None => MkCleanLoop D (<[Ea1 It := R]> (EaRatios L)) (Out L ++ [It])
    end.

Fixpoint clean_list (ids : Interners) (l : list Item) (L : CleanLoop) : res CleanLoop :=
  match l with
  | [] => Ok L
  | It :: l' => Key ← pair_key ids It; clean_list ids l' (clean_item Key It L)
  end.

(** The items of one category: the other two locals live on, the list is new. *)
Definition clean_category (ids : Interners) (l : list Item) (L : CleanLoop) : res CleanLoop :=
  clean_list ids (SortDescending l) (MkCleanLoop (Dones L) (EaRatios L) []).

Definition put_item_primary (d : NameDict) (It : Item) : NameDict :=
  Put (Name1 It) (MkMatchedEntry (Name2 It) (Ratio It)) d.
Definition put_item_secondary (d : NameDict) (It : Item) : NameDict :=
  Put (Name2 It) (MkMatchedEntry (Name1 It) (Ratio It)) d.

Definition all_items (p : per_chooser (list Item)) : list Item :=
  of_best p ++ of_partial p ++ of_unreliable p.

(** The state rebuilt from the kept items (D:1595-1605). *)
Definition rebuild (p : per_chooser (list Item)) (st : MatchState) : MatchState :=
  MkMatchState (Total1 st) (Total2 st) p (map_choosers RebuildMembers p)
    (fold_left put_item_primary (all_items p) EmptyDict)
    (fold_left put_item_secondary (all_items p) EmptyDict).

Definition Cleanup (ids : Interners) (st : MatchState) : res MatchState :=
  L1 ← clean_category ids (of_best (Lists st)) (MkCleanLoop ∅ ∅ []);
  L2 ← clean_category ids (of_partial (Lists st)) L1;
  L3 ← clean_category ids (of_unreliable (Lists st)) L2;
  Ok (rebuild (PerChooser (Out L1) (Out L2) (Out L3)) st).

(** ** Counters and copies *)

Definition AllFunctionsMatched (st : MatchState) : bool :=
  (Z.of_nat (size (Map (Primary st))) =? Total1 st)%Z
  || (Z.of_nat (size (Map (Secondary st))) =? Total2 st)%Z.

Definition TotalMatchedFunctions (st : MatchState) : nat :=
  length (of_best (Lists st)) + length (of_partial (Lists st)).

Definition SortedResults (C : Chooser) (st : MatchState) : list Item :=
  SortDescending (at_ C (Lists st)).

(** ** Snapshot export and import *)

Definition ExportItem (ids : Interners) (It : Item) : res SnapItem :=
  e1 ← AddrKeyText (Ea1 It) ids;
  n1 ← NameOrNone (Name1 It) ids;
  e2 ← AddrKeyText (Ea2 It) ids;
  n2 ← NameOrNone (Name2 It) ids;
  d ← DescText (ItemDesc It) ids;
  Ok (MkSnapItem e1 n1 e2 n2 d (RatioBits (Ratio It)) (Nodes1 It) (Nodes2 It)).

Definition ImportItem (In : SnapItem) (ids : Interners) : Interners * Item :=
  let '(ids, e1) := Addr (SnapEa1 In) ids in
  let '(ids, n1) := NameOpt (SnapName1 In) ids in
  let '(ids, e2) := Addr (SnapEa2 In) ids in
  let '(ids, n2) := NameOpt (SnapName2 In) ids in
  let '(ids, d) := Desc (SnapDesc In) ids in
  (ids, MkItem e1 n1 e2 n2 d (RatioFromBits (SnapRatioBits In)) (SnapNodes1 In) (SnapNodes2 In)).

(** [Dict.Map.at(Key)] throws for a key of [Order] that is not in [Map]. *)
Definition ExportRow (ids : Interners) (d : NameDict) (Key : NameId) : res SnapMatched :=
  match Map d !! Key with
  | None => Throw (CxxException (B "out_of_range"))
  | Some Entry =>
      k ← NameOrNone Key ids;
      o ← NameOrNone (Other Entry) ids;
      Ok (MkSnapMatched k o (RatioBits (EntryRatio Entry)))
  end.

(** A loop that builds a vector and may throw. *)
Fixpoint map_res {A C} (f : A -> res C) (l : list A) : res (list C) :=
  match l with
  | [] => Ok []
  | a :: l' => c ← f a; cs ← map_res f l'; Ok (c :: cs)
  end.

(** A loop that threads the interners and builds a vector. *)
Fixpoint map_ids {A C} (f : A -> Interners -> Interners * C) (l : list A) (ids : Interners)
    : Interners * list C :=
  match l with
  | [] => (ids, [])
  | a :: l' =>
      let '(ids, c) := f a ids in
      let '(ids, cs) := map_ids f l' ids in
      (ids, c :: cs)
  end.

Definition ExportDict (ids : Interners) (d : NameDict) : res (list SnapMatched) :=
  map_res (ExportRow ids d) (Order d).

Definition ImportRow (Row : SnapMatched) (ids : Interners)
    : Interners * (NameId * MatchedEntry) :=
  let '(ids, k) := NameOpt (SnapKey Row) ids in
  let '(ids, o) := NameOpt (SnapOther Row) ids in
  (ids, (k, MkMatchedEntry o (RatioFromBits (SnapMatchedBits Row)))).

Definition ImportDict (Rows : list SnapMatched) (ids : Interners) : Interners * NameDict :=
  let '(ids, es) := map_ids ImportRow Rows ids in
  (ids, fold_left (fun d '(k, e) => Put k e d) es EmptyDict).

(** The fields of the snapshot [Export] leaves at their defaults. *)
Definition DefaultSnapshot : StateSnapshot :=
  MkStateSnapshot kSnapshotSchema [] [] 0 [] None (MkSnapFlags false false false false 0 0)
    [] [] [] [] [] None None None.

Definition Export (ids : Interners) (st : MatchState) : res StateSnapshot :=
  b ← map_res (ExportItem ids) (of_best (Lists st));
  p ← map_res (ExportItem ids) (of_partial (Lists st));
  u ← map_res (ExportItem ids) (of_unreliable (Lists st));
  mp ← ExportDict ids (Primary st);
  ms ← ExportDict ids (Secondary st);
  Ok (MkStateSnapshot kSnapshotSchema [] [] 0 [] None
        (MkSnapFlags false false false false (Total1 st) (Total2 st))
        b p u mp ms None None None).

Definition Import (Sn : StateSnapshot) (ids : Interners) : Interners * MatchState :=
  let '(ids, b) := map_ids ImportItem (SnapBest Sn) ids in
  let '(ids, p) := map_ids ImportItem (SnapPartial Sn) ids in
  let '(ids, u) := map_ids ImportItem (SnapUnreliable Sn) ids in
  let '(ids, mp) := ImportDict (MatchedPrimary Sn) ids in
  let '(ids, ms) := ImportDict (MatchedSecondary Sn) ids in
  let ls := PerChooser b p u in
  (ids, MkMatchState (TotalFunctions1 (Flags Sn)) (TotalFunctions2 (Flags Sn))
          ls (map_choosers RebuildMembers ls) mp ms).

(** ** Choosers *)

Lemma at_set_at {A} (C D : Chooser) (v : A) p :
  at_ C (set_at D v p) = if decide (C = D) then v else at_ C p.
Proof. by destruct C, D. Qed.

Lemma at_map_choosers {A B'} (f : A -> B') (C : Chooser) p :
  at_ C (map_choosers f p) = f (at_ C p).
Proof. by destruct C. Qed.

(** ** Item equality *)

Lemma item_eqb_spec (a b : Item) :
  item_eqb a b = true <->
  Ea1 a = Ea1 b /\ Name1 a = Name1 b /\ Ea2 a = Ea2 b /\ Name2 a = Name2 b /\
  ItemDesc a = ItemDesc b /\ deq (Ratio a) (Ratio b) = true /\
  Nodes1 a = Nodes1 b /\ Nodes2 a = Nodes2 b.
Proof.
  unfold item_eqb. rewrite !andb_true_iff, !N.eqb_eq, !Z.eqb_eq. tauto.
Qed.

Definition has_number (It : Item) : Prop := is_nan (Ratio It) = false.

Lemma item_eqb_refl (a : Item) : has_number a -> item_eqb a a = true.
Proof. intros H. apply item_eqb_spec. by rewrite (deq_refl _ H). Qed.

Lemma item_eqb_sym (a b : Item) : item_eqb a b = item_eqb b a.
Proof.
  apply eq_true_iff_eq. rewrite !item_eqb_spec, (deq_sym (Ratio b)).
  by split; intros (?&?&?&?&?&?&?&?); repeat split.
Qed.

Lemma item_eqb_trans (a b c : Item) :
  item_eqb a b = true -> item_eqb b c = true -> item_eqb a c = true.
Proof.
  rewrite !item_eqb_spec. intros. destruct_and!. repeat split; try congruence.
  by eapply deq_trans.
Qed.

Lemma item_eqb_cong (a b c : Item) :
  item_eqb a b = true -> item_eqb a c = item_eqb b c.
Proof.
  intros H. apply eq_true_iff_eq. split; intros H'.
  - rewrite item_eqb_sym in H. by eapply item_eqb_trans.
  - by eapply item_eqb_trans.
Qed.

(** Items that compare equal have equal hashes, as [unordered_map]
    requires of [ItemHash]; the two zeros of a double hash alike. *)
Theorem ItemHash_respects_equality (a b : Item) :
  item_eqb a b = true -> ItemHash a = ItemHash b.
Proof.
  rewrite item_eqb_spec. intros (E1 & E2 & E3 & E4 & E5 & Er & E6 & E7).
  unfold ItemHash. rewrite E1, E2, E3, E4, E5, E6, E7, (deq_zero _ _ Er).
  destruct (deq (Ratio b) d0) eqn:E; [done|]. simpl negb. cbv iota.
  rewrite (deq_eq _ _ Er); [done|]. by rewrite (deq_zero _ _ Er).
Qed.

(** ** The occurrence index *)

Lemma member_count_set (i j : Item) (n : Z) (ms : members) :
  has_number i ->
  member_count j (set_member i n ms) = if item_eqb i j then n else member_count j ms.
Proof.
  intros Hi. induction ms as [|[k m] ms IH]; simpl; [done|].
  destruct (item_eqb k i) eqn:Eki; simpl.
  - rewrite (item_eqb_cong k i j Eki). by destruct (item_eqb i j).
  - rewrite IH. destruct (item_eqb k j) eqn:Ekj; [|done].
    destruct (item_eqb i j) eqn:Eij; [|done].
    rewrite item_eqb_sym in Eij. by rewrite (item_eqb_trans _ _ _ Ekj Eij) in Eki.
Qed.

Definition occurrences (It : Item) (l : list Item) : Z :=
  Z.of_nat (length (filter (fun k => item_eqb k It = true) l)).

Lemma occurrences_cons (j k : Item) (l : list Item) :
  occurrences j (k :: l) = ((if item_eqb k j then 1 else 0) + occurrences j l)%Z.
Proof.
  unfold occurrences. rewrite filter_cons. case_decide as H.
  - rewrite H. simpl. lia.
  - destruct (item_eqb k j); [done|lia].
Qed.

Lemma occurrences_bounds (j : Item) (l : list Item) :
  (0 <= occurrences j l <= Z.of_nat (length l))%Z.
Proof. unfold occurrences. pose proof (length_filter (fun k => item_eqb k j = true) l). lia. Qed.

Lemma occurrences_zero (j : Item) (l : list Item) :
  (occurrences j l =? 0)%Z = negb (existsb (item_eqb j) l).
Proof.
  induction l as [|k l IH]; [done|]. rewrite occurrences_cons. simpl.
  rewrite (item_eqb_sym j k). pose proof (occurrences_bounds j l).
  destruct (item_eqb k j); simpl; [|done]. apply Z.eqb_neq. lia.
Qed.

Lemma rebuild_count_from (l : list Item) (ms : members) (j : Item) :
  Forall has_number l -> has_number j ->
  (0 <= member_count j ms)%Z ->
  (member_count j ms + occurrences j l < 2 ^ 32)%Z ->
  member_count j (fold_left (fun ms It => set_member It (w32 (member_count It ms + 1)) ms) l ms)
  = (member_count j ms + occurrences j l)%Z.
Proof.
  intros Hl Hj. revert ms. induction Hl as [|k l Hk Hl IH]; intros ms H0 Hb; simpl.
  { unfold occurrences. simpl. lia. }
  rewrite occurrences_cons in Hb |- *. pose proof (occurrences_bounds j l).
  destruct (item_eqb k j) eqn:E.
  - assert (Ec : member_count k ms = member_count j ms).
    { clear -E. induction ms as [|[i m] ms IH]; simpl; [done|].
      rewrite item_eqb_sym, (item_eqb_cong _ _ i E), item_eqb_sym. by rewrite IH. }
    rewrite IH; rewrite member_count_set, E, Ec by done; rewrite w32_small; lia.
  - rewrite IH; rewrite member_count_set, E by done; lia.
Qed.

(** The rebuilt index counts the occurrences of each item. *)
Lemma RebuildMembers_count (l : list Item) (j : Item) :
  Forall has_number l -> has_number j -> (occurrences j l < 2 ^ 32)%Z ->
  member_count j (RebuildMembers l) = occurrences j l.
Proof. intros. unfold RebuildMembers. rewrite rebuild_count_from by (done || simpl; lia). done. Qed.

(** The index of a list answers membership: what [AddMatch] relies on. *)
Definition indexes (ms : members) (l : list Item) : Prop :=
  forall j, has_number j -> (member_count j ms =? 0)%Z = negb (existsb (item_eqb j) l).

Lemma indexes_rebuild (l : list Item) :
  Forall has_number l -> (forall j, has_number j -> (occurrences j l < 2 ^ 32)%Z) ->
  indexes (RebuildMembers l) l.
Proof.
  intros Hl Hb j Hj. rewrite RebuildMembers_count by auto. apply occurrences_zero.
Qed.

Lemma indexes_snoc (ms : members) (l : list Item) (It : Item) :
  has_number It -> indexes ms l -> indexes (set_member It 1 ms) (l ++ [It]).
Proof.
  intros Hi Hx j Hj. rewrite member_count_set, existsb_app by done. simpl.
  rewrite (item_eqb_sym j It), orb_false_r, negb_orb, <- (Hx j Hj).
  destruct (item_eqb It j); simpl; [by rewrite andb_false_r|by rewrite andb_true_r].
Qed.

(** ** Dicts *)

Record wf_dict (d : NameDict) : Prop := {
  wfd_nodup : NoDup (Order d);
  wfd_dom k : k ∈ Order d <-> is_Some (Map d !! k);
}.

Lemma wf_EmptyDict : wf_dict EmptyDict.
Proof.
  split; [constructor|]. intros k. simpl. rewrite lookup_empty. split; [set_solver|].
  by intros [? ?].
Qed.

Lemma FindEntry_Put (k j : NameId) (e : MatchedEntry) (d : NameDict) :
  FindEntry j (Put k e d) = if decide (k = j) then Some e else FindEntry j d.
Proof.
  unfold FindEntry, Put. destruct (Map d !! k); simpl; case_decide; subst;
    by rewrite ?lookup_insert_eq, ?lookup_insert_ne.
Qed.

Lemma wf_Put (k : NameId) (e : MatchedEntry) (d : NameDict) :
  wf_dict d -> wf_dict (Put k e d).
Proof.
  intros [Hn Hd]. unfold Put. destruct (Map d !! k) as [e0|] eqn:E; split; simpl.
  - done.
  - intros j. destruct (decide (k = j)) as [<-|].
    + rewrite lookup_insert_eq, Hd, E. split; eauto.
    + by rewrite lookup_insert_ne.
  - apply NoDup_app. split; [done|]. split; [|repeat constructor; set_solver].
    intros j Hj Hk. apply list_elem_of_singleton in Hk as ->. apply Hd in Hj as [? ?]. congruence.
  - intros j. rewrite elem_of_app, list_elem_of_singleton, Hd.
    destruct (decide (k = j)) as [<-|].
    + rewrite lookup_insert_eq. split; eauto.
    + rewrite lookup_insert_ne by done. split; [|auto]. by intros [?| ->].
Qed.

(** A dict read in insertion order: the association list Python iterates. *)
Fixpoint view_of (m : gmap N MatchedEntry) (o : list NameId) : list (NameId * MatchedEntry) :=
  match o with
  | [] => []
  | k :: o' => match m !! k with Some e => (k, e) :: view_of m o' | None => view_of m o' end
  end.

Definition dict_view (d : NameDict) : list (NameId * MatchedEntry) := view_of (Map d) (Order d).

(** Python's [d[k] = e] and [d.get(k)]. *)
Fixpoint py_set (k : NameId) (e : MatchedEntry) (l : list (NameId * MatchedEntry)) :=
  match l with
  | [] => [(k, e)]
  | (j, f) :: l' => if bool_decide (j = k) then (j, e) :: l' else (j, f) :: py_set k e l'
  end.

Fixpoint py_get (k : NameId) (l : list (NameId * MatchedEntry)) : option MatchedEntry :=
  match l with
  | [] => None
  | (j, f) :: l' => if bool_decide (j = k) then Some f else py_get k l'
  end.

Lemma view_of_get (m : gmap N MatchedEntry) (o : list NameId) (k : NameId) :
  py_get k (view_of m o) = if decide (k ∈ o) then m !! k else None.
Proof.
  induction o as [|j o IH]; cbn [view_of].
  { destruct (decide (k ∈ [])) as [H|]; [by apply elem_of_nil in H|done]. }
  destruct (m !! j) eqn:E; cbn [py_get]; rewrite ?IH.
  - case_bool_decide as Hj; [subst; by rewrite decide_True by left|].
    destruct (decide (k ∈ o)); [by rewrite decide_True by by right|].
    by rewrite decide_False by (rewrite elem_of_cons; intros []; done).
  - destruct (decide (k ∈ o)); [by rewrite decide_True by by right|].
    case_decide as Hk; [|done]. apply elem_of_cons in Hk as [->|]; done.
Qed.

Lemma view_of_fresh (m : gmap N MatchedEntry) (o : list NameId) (k : NameId) e :
  k ∉ o -> view_of (<[k := e]> m) o = view_of m o.
Proof.
  induction o as [|j o IH]; simpl; [done|]. rewrite elem_of_cons. intros Hk.
  rewrite lookup_insert_ne by naive_solver. rewrite IH by naive_solver. done.
Qed.

Lemma view_of_set (m : gmap N MatchedEntry) (o : list NameId) (k : NameId) e :
  NoDup o -> k ∈ o -> Forall (fun j => is_Some (m !! j)) o ->
  view_of (<[k := e]> m) o = py_set k e (view_of m o).
Proof.
  induction 1 as [|j o Hj Hn IH]; intros Hk Hs; [by apply elem_of_nil in Hk|].
  inversion Hs as [|? ? [f Hf] Hs']; subst. simpl. rewrite Hf. simpl.
  case_bool_decide as Hjk.
  - subst j. rewrite lookup_insert_eq. by rewrite view_of_fresh.
  - rewrite lookup_insert_ne, Hf by done. f_equal. apply IH; [|done].
    apply elem_of_cons in Hk as [->|]; done.
Qed.

Lemma view_of_snoc (m : gmap N MatchedEntry) (o : list NameId) (k : NameId) e :
  k ∉ o -> view_of (<[k := e]> m) (o ++ [k]) = py_set k e (view_of m o).
Proof.
  induction o as [|j o IH]; simpl; [by rewrite lookup_insert_eq|].
  rewrite elem_of_cons. intros Hk. rewrite lookup_insert_ne by naive_solver.
  rewrite IH by naive_solver. destruct (m !! j); simpl; [|done].
  by rewrite bool_decide_false by naive_solver.
Qed.

Lemma dict_view_get (d : NameDict) (k : NameId) :
  wf_dict d -> py_get k (dict_view d) = FindEntry k d.
Proof.
  intros [_ Hd]. unfold dict_view, FindEntry. rewrite view_of_get.
  case_decide as Hk; [done|]. destruct (Map d !! k) eqn:E; [|done].
  exfalso. apply Hk, Hd. by rewrite E.
Qed.

Lemma dict_view_Put (d : NameDict) (k : NameId) (e : MatchedEntry) :
  wf_dict d -> dict_view (Put k e d) = py_set k e (dict_view d).
Proof.
  intros [Hn Hd]. unfold dict_view, Put. destruct (Map d !! k) as [e0|] eqn:E; simpl.
  - apply view_of_set; [done|by apply Hd; rewrite E|].
    apply Forall_forall. intros j. apply Hd.
  - apply view_of_snoc. intros Hk. apply Hd in Hk as [? ?]. congruence.
Qed.

(** ** The state invariant *)

Record known_item (ids : Interners) (It : Item) : Prop := {
  ki_ea1 : known_addr ids (Ea1 It);
  ki_name1 : known_name ids (Name1 It);
  ki_ea2 : known_addr ids (Ea2 It);
  ki_name2 : known_name ids (Name2 It);
  ki_desc : known (ItemDesc It) (Descs_ ids);
  ki_number : has_number It;
}.

Definition known_entry (ids : Interners) (k : NameId) (e : MatchedEntry) : Prop :=
  known_name ids k /\ known_name ids (Other e) /\ is_nan (EntryRatio e) = false.

Definition known_dict (ids : Interners) (d : NameDict) : Prop :=
  forall k e, Map d !! k = Some e -> known_entry ids k e.

Record wf_state (ids : Interners) (st : MatchState) : Prop := {
  wfs_items c : Forall (known_item ids) (at_ c (Lists st));
  wfs_index c : indexes (at_ c (Members st)) (at_ c (Lists st));
  wfs_primary : wf_dict (Primary st);
  wfs_secondary : wf_dict (Secondary st);
  wfs_known_primary : known_dict ids (Primary st);
  wfs_known_secondary : known_dict ids (Secondary st);
}.

Lemma wf_EmptyState (ids : Interners) : wf_state ids EmptyState.
Proof.
  split; try apply wf_EmptyDict.
  - intros []; constructor.
  - by intros [] j Hj.
  - intros k e. simpl. by rewrite lookup_empty.
  - intros k e. simpl. by rewrite lookup_empty.
Qed.

Lemma known_Put ids k e d :
  known_dict ids d -> known_entry ids k e -> known_dict ids (Put k e d).
Proof.
  intros Hd He j f. pose proof (FindEntry_Put k j e d) as H. unfold FindEntry in H.
  rewrite H. case_decide; [|apply Hd]. intros [= <-]. by subst.
Qed.

Lemma append_item_lists It C st :
  let '(st', b) := append_item It C st in
  Lists st' = (if b then set_at C (at_ C (Lists st) ++ [It]) (Lists st) else Lists st) /\
  Primary st' = Primary st /\ Secondary st' = Secondary st /\
  Total1 st' = Total1 st /\ Total2 st' = Total2 st.
Proof. unfold append_item. by destruct (_ =? 0)%Z. Qed.

Lemma append_item_member ids It C st :
  wf_state ids st -> has_number It ->
  (append_item It C st).2 = negb (existsb (item_eqb It) (at_ C (Lists st))).
Proof.
  intros Hwf Hi. unfold append_item. rewrite (wfs_index _ _ Hwf C It Hi).
  by destruct (existsb _ _).
Qed.

Lemma wf_append_item ids It C st :
  wf_state ids st -> known_item ids It -> wf_state ids (append_item It C st).1.
Proof.
  intros Hwf Hk. unfold append_item. destruct (_ =? 0)%Z; [|done]. destruct Hwf. simpl.
  split; simpl; try done; intros c; rewrite !at_set_at; case_decide; subst; try done.
  - apply Forall_app. split; [done|]. by apply Forall_singleton.
  - apply indexes_snoc; [apply Hk|done].
Qed.

Lemma wf_put_both ids N1 N2 R st :
  wf_state ids st -> known_name ids N1 -> known_name ids N2 -> is_nan R = false ->
  wf_state ids (put_both N1 N2 R st).
Proof.
  intros [] H1 H2 HR. split; simpl; try done; try by apply wf_Put.
  all: by apply known_Put.
Qed.

(** The ratio the dicts store: the same-name fake 1.0 (D:1350-1351). *)
Definition stored_ratio (N1 N2 : NameId) (R : dbl) : dbl :=
  if bool_decide (N1 = N2) then d1 else R.

Lemma stored_ratio_number N1 N2 R : is_nan R = false -> is_nan (stored_ratio N1 N2 R) = false.
Proof. unfold stored_ratio. by case_bool_decide. Qed.

(** The three outcomes of a call that returns. *)
Lemma AddMatch_cases ids N1 N2 R It C st st' r :
  AddMatch ids N1 N2 R It C st = Ok (st', r) ->
  (r = RejectedBetter /\ st' = st /\ deq (stored_ratio N1 N2 R) d1 = false /\
     HasBetterMatch ids N1 N2 (stored_ratio N1 N2 R) st = Ok true) \/
  (r <> RejectedBetter /\
     st' = put_both N1 N2 (stored_ratio N1 N2 R)
             match C with Some c => (append_item It c st).1 | None => st end /\
     (r = Appended <-> exists c, C = Some c /\ (append_item It c st).2 = true)).
Proof.
  unfold AddMatch. fold (stored_ratio N1 N2 R). intros H.
  assert (Hb : exists b : bool, (if negb (deq (stored_ratio N1 N2 R) d1)
             then HasBetterMatch ids N1 N2 (stored_ratio N1 N2 R) st else Ok false) = Ok b)
    by (destruct (if negb _ then _ else _); [eauto|done]).
  destruct Hb as [b Hb]. rewrite Hb in H. cbn in H. destruct b.
  - simplify_eq. left. destruct (deq _ d1) eqn:E; [done|]. done.
  - right. destruct C as [c|].
    + destruct (append_item It c st) as [st1 app] eqn:Ea. simplify_eq. simpl.
      split; [by destruct app|]. split; [done|]. destruct app; split; try done.
      * intros _. exists c. by rewrite Ea.
      * intros (? & [= <-] & E). by rewrite Ea in E.
    + simplify_eq. split; [done|]. split; [done|]. split; [done|]. by intros (? & ? & ?).
Qed.


(** ** Python's data: plain lists and insertion-ordered association lists *)

Record py_state := MkPyState {
  all_matches : per_chooser (list Item);
  matched_primary : list (NameId * MatchedEntry);
  matched_secondary : list (NameId * MatchedEntry);
}.

Definition abs (st : MatchState) : py_state :=
  MkPyState (Lists st) (dict_view (Primary st)) (dict_view (Secondary st)).

(** has_better_match, D:1386-1402. *)
Definition py_has_better_match ids N1 N2 (R : dbl) (p : py_state) : res bool :=
  let tests :=
    match py_get N1 (matched_primary p) with
    | Some e => if dgt (EntryRatio e) R then true else
        match py_get N2 (matched_secondary p) with
        | Some f => dgt (EntryRatio f) R
        | None => false
        end
    | None => match py_get N2 (matched_secondary p) with
              | Some f => dgt (EntryRatio f) R
              | None => false
              end
    end in
  s1 ← StartsWith ids N1 (B "sub_") (B "D:1392");
  if s1 : bool then Ok tests
  else
    s2 ← StartsWith ids N2 (B "sub_") (B "D:1392");
    if s2 : bool then Ok tests
    else match py_get N1 (matched_primary p) with
         | Some e => Ok (bool_decide (Other e = N1))
         | None => Ok tests
         end.

(** add_match, D:1340-1374: the item is searched by a linear scan. *)
Definition py_add_match ids N1 N2 (R : dbl) (It : Item) (C : option Chooser) (p : py_state)
    : res py_state :=
  let R := if bool_decide (N1 = N2) then d1 else R in
  let store (ls : per_chooser (list Item)) :=
    MkPyState ls (py_set N1 (MkMatchedEntry N2 R) (matched_primary p))
      (py_set N2 (MkMatchedEntry N1 R) (matched_secondary p)) in
  let adds := Ok (store
    match C with
    | Some c => if existsb (item_eqb It) (at_ c (all_matches p)) then all_matches p
                else set_at c (at_ c (all_matches p) ++ [It]) (all_matches p)
    | None => all_matches p
    end) in
  if deq R d1 then adds
  else b ← py_has_better_match ids N1 N2 R p; if b : bool then Ok p else adds.

Lemma HasBetterMatch_refines ids N1 N2 R st :
  wf_state ids st ->
  HasBetterMatch ids N1 N2 R st = py_has_better_match ids N1 N2 R (abs st).
Proof.
  intros Hwf. unfold HasBetterMatch, py_has_better_match, dict_better. simpl.
  rewrite !dict_view_get by apply Hwf.
  destruct (StartsWith ids N1 _ _) as [[]|e]; [| |done]; simpl.
  - by destruct (FindEntry N1 (Primary st)) as [e|]; [destruct (dgt _ _)|].
  - destruct (StartsWith ids N2 _ _) as [[]|e]; [| |done]; simpl;
      by destruct (FindEntry N1 (Primary st)) as [e|]; [try destruct (dgt _ _)|].
Qed.

(** C2: [AddMatch], with its hash-indexed membership and hash-map dicts,
    implements Python's [add_match] on plain lists and dicts: the same result
    state, the same rejected calls and the same exceptions. *)
Theorem AddMatch_refines_python ids N1 N2 R It C st :
  wf_state ids st -> has_number It ->
  py_add_match ids N1 N2 R It C (abs st) =
  match AddMatch ids N1 N2 R It C st with
  | Ok (st', _) => Ok (abs st')
  | Throw e => Throw e
  end.
Proof.
  intros Hwf Hi. unfold py_add_match, AddMatch.
  rewrite <- HasBetterMatch_refines by done. fold (stored_ratio N1 N2 R).
  set (R' := stored_ratio N1 N2 R).
  assert (Hadd : forall b : AddMatchResult, abs (put_both N1 N2 R'
      match C with Some c => (append_item It c st).1 | None => st end) =
    MkPyState match C with
      | Some c => if existsb (item_eqb It) (at_ c (Lists st)) then Lists st
                  else set_at c (at_ c (Lists st) ++ [It]) (Lists st)
      | None => Lists st
      end (py_set N1 (MkMatchedEntry N2 R') (dict_view (Primary st)))
      (py_set N2 (MkMatchedEntry N1 R') (dict_view (Secondary st)))).
  { intros _. unfold abs, put_both. simpl. destruct C as [c|].
    - pose proof (append_item_lists It c st) as H.
      pose proof (append_item_member ids It c st Hwf Hi) as Hm.
      destruct (append_item It c st) as [st1 b]. simpl in Hm |- *.
      destruct H as (-> & -> & -> & _). rewrite !dict_view_Put by apply Hwf. subst b.
      by destruct (existsb _ _).
    - by rewrite !dict_view_Put by apply Hwf. }
  specialize (Hadd Appended). simpl in *.
  destruct (deq R' d1); simpl.
  2: destruct (HasBetterMatch ids N1 N2 R' st) as [[]|e]; [done| |done]; simpl.
  all: rewrite <- Hadd; destruct C as [c|]; [|done]; by destruct (append_item It c st).
Qed.

(** ** When an earlier match protects its names *)

Definition ratios_at_most_one (d : NameDict) : Prop :=
  forall k e, FindEntry k d = Some e -> dgt (EntryRatio e) d1 = false.

(** One name starts with [sub_], as D:1392 tests them. *)
Definition sub_pair ids N1 N2 : Prop :=
  StartsWith ids N1 (B "sub_") (B "D:1392") = Ok true \/
  (StartsWith ids N1 (B "sub_") (B "D:1392") = Ok false /\
   StartsWith ids N2 (B "sub_") (B "D:1392") = Ok true).

Lemma HasBetterMatch_sub ids N1 N2 R st :
  sub_pair ids N1 N2 -> HasBetterMatch ids N1 N2 R st = Ok (dict_better N1 N2 R st).
Proof. unfold HasBetterMatch. intros [-> | [-> ->]]; done. Qed.

Lemma dgt_one_eq (a b : dbl) :
  is_nan a = false -> is_nan b = false ->
  deq b d1 = true -> dgt a d1 = false -> dgt a b = false.
Proof. assert (is_nan d1 = false) by done. intros. dbl_order. Qed.

(** The dicts after an accepted call. *)
Lemma AddMatch_dicts ids N1 N2 R It C st st' r :
  AddMatch ids N1 N2 R It C st = Ok (st', r) -> r <> RejectedBetter ->
  Primary st' = Put N1 (MkMatchedEntry N2 (stored_ratio N1 N2 R)) (Primary st) /\
  Secondary st' = Put N2 (MkMatchedEntry N1 (stored_ratio N1 N2 R)) (Secondary st).
Proof.
  intros H Hr. apply AddMatch_cases in H as [(? & _)|(_ & -> & _)]; [done|].
  destruct C as [c|]; simpl; [|done].
  pose proof (append_item_lists It c st) as Hl. destruct (append_item It c st) as [st1 b].
  simpl. by destruct Hl as (_ & -> & -> & _).
Qed.

(** An accepted call on a [sub_] pair met no better entry. *)
Lemma AddMatch_sub_accepted ids N1 N2 R It C st st' r :
  sub_pair ids N1 N2 ->
  AddMatch ids N1 N2 R It C st = Ok (st', r) -> r <> RejectedBetter ->
  deq (stored_ratio N1 N2 R) d1 = true \/ dict_better N1 N2 (stored_ratio N1 N2 R) st = false.
Proof.
  intros Hsub H Hr. unfold AddMatch in H. fold (stored_ratio N1 N2 R) in H.
  destruct (deq _ d1); [auto|]. rewrite HasBetterMatch_sub in H by done.
  cbn in H. destruct (dict_better _ _ _ _); [|auto]. by simplify_eq.
Qed.

Lemma Put_not_lower k n e d x y :
  (forall f, FindEntry n d = Some f -> dgt (EntryRatio f) (EntryRatio e) = false) ->
  FindEntry k d = Some x -> FindEntry k (Put n e d) = Some y ->
  dgt (EntryRatio x) (EntryRatio y) = false.
Proof.
  intros H Hx. rewrite FindEntry_Put. case_decide; subst.
  - intros [= <-]. by apply H.
  - rewrite Hx. intros [= <-]. apply dlt_irrefl.
Qed.

(** When one of the names is a [sub_] name, no call of [AddMatch] lowers
    the ratio stored for any name in either dict. *)
Theorem AddMatch_sub_never_lowers ids N1 N2 R It C st st' r k e e' :
  wf_state ids st -> is_nan R = false -> sub_pair ids N1 N2 ->
  ratios_at_most_one (Primary st) -> ratios_at_most_one (Secondary st) ->
  AddMatch ids N1 N2 R It C st = Ok (st', r) ->
  (FindEntry k (Primary st) = Some e /\ FindEntry k (Primary st') = Some e') \/
  (FindEntry k (Secondary st) = Some e /\ FindEntry k (Secondary st') = Some e') ->
  dgt (EntryRatio e) (EntryRatio e') = false.
Proof.
  intros Hwf HR Hsub H1 H2 Hadd Hk.
  assert (HR' := stored_ratio_number N1 N2 R HR).
  destruct (decide (r = RejectedBetter)) as [Hr|Hr].
  { pose proof Hadd as Hs. apply AddMatch_cases in Hs as [(_ & -> & _)|(? & _)]; [|done].
    destruct Hk as [[A A']|[A A']]; rewrite A in A'; simplify_eq; apply dlt_irrefl. }
  destruct (AddMatch_dicts _ _ _ _ _ _ _ _ _ Hadd Hr) as [E1 E2]. rewrite E1, E2 in Hk.
  pose proof (AddMatch_sub_accepted _ _ _ _ _ _ _ _ _ Hsub Hadd Hr) as Hb.
  destruct Hk as [[A A']|[A A']];
    (eapply Put_not_lower; [|exact A|exact A']); intros f Hf; simpl;
    (destruct Hb as [Hone|Hb]; [apply dgt_one_eq; try done; eauto|]).
  - by apply (wfs_known_primary _ _ Hwf _ _ Hf).
  - unfold dict_better in Hb. rewrite Hf in Hb. by bool_props.
  - by apply (wfs_known_secondary _ _ Hwf _ _ Hf).
  - unfold dict_better in Hb. rewrite Hf in Hb. by bool_props.
Qed.

(** When neither name is a [sub_] name and [N1] is already matched, the
    ratios play no part: the call is refused exactly when the stored partner
    of [N1] is [N1] itself, unless the pair has the same name or ratio 1.0. *)
Theorem AddMatch_named_same_name_wins ids N1 N2 R It C st e :
  StartsWith ids N1 (B "sub_") (B "D:1392") = Ok false ->
  StartsWith ids N2 (B "sub_") (B "D:1392") = Ok false ->
  FindEntry N1 (Primary st) = Some e ->
  N1 <> N2 -> deq R d1 = false ->
  exists st' r, AddMatch ids N1 N2 R It C st = Ok (st', r) /\
    (r = RejectedBetter <-> Other e = N1) /\
    (Other e = N1 -> st' = st) /\
    (Other e <> N1 -> FindEntry N1 (Primary st') = Some (MkMatchedEntry N2 R) /\
                      FindEntry N2 (Secondary st') = Some (MkMatchedEntry N1 R)).
Proof.
  intros S1 S2 He Hne HR.
  assert (Hb : HasBetterMatch ids N1 N2 R st = Ok (bool_decide (Other e = N1))).
  { unfold HasBetterMatch. rewrite S1. simpl. rewrite S2. simpl. by rewrite He. }
  destruct (AddMatch ids N1 N2 R It C st) as [[st' r]|x] eqn:Ha.
  2: { exfalso. unfold AddMatch in Ha. rewrite bool_decide_false, HR, Hb in Ha by done.
       simpl in Ha. destruct (bool_decide _); [done|].
       destruct C; [destruct (append_item _ _ _)|]; done. }
  exists st', r. split; [done|]. pose proof Ha as Hc. apply AddMatch_cases in Hc.
  unfold stored_ratio in Hc. rewrite bool_decide_false in Hc by done. rewrite Hb in Hc.
  destruct Hc as [(-> & -> & _ & [= E])|(Hr & Hst & _)].
  { bool_props. by repeat split. }
  assert (Other e <> N1).
  { intros E. unfold AddMatch in Ha. rewrite bool_decide_false, HR, Hb in Ha by done.
    rewrite bool_decide_true in Ha by done. cbn in Ha. by simplify_eq. }
  split; [done|]. split; [done|]. intros _.
  destruct (AddMatch_dicts _ _ _ _ _ _ _ _ _ Ha Hr) as [-> ->].
  unfold stored_ratio. rewrite bool_decide_false by done.
  by rewrite !FindEntry_Put, !decide_True.
Qed.
