(* ===== verification/MatchStateSpec.v ===== *)
(** * Correctness of the match state (src/src/diff/MatchState.cpp)

    [Cleanup]: the three category loops are one loop over the concatenation of
    the sorted lists; its invariant relates the processed prefix, the set of keys
    seen, the best ratio per primary address and the items kept. Then
    [SortedResults] and the snapshots, [Export] and [Import]. *)

From stdpp Require Import base gmap sets list numbers sorting.
From Stdlib Require Import ZArith Lia.
From S2P Require Import Prelude Dbl Interner Snapshot MatchState.

(** ** The loop without exceptions *)

(** The key text; on interned names it is what [pair_key] returns. *)
Definition key_text (ids : Interners) (It : Item) : text :=
  match pair_key ids It with Ok k => k | Throw _ => [] end.

Definition clean_step (ids : Interners) (L : CleanLoop) (It : Item) : CleanLoop :=
  clean_item (key_text ids It) It L.

Definition clean_run (ids : Interners) (l : list Item) (L : CleanLoop) : CleanLoop :=
  fold_left (clean_step ids) l L.

Definition StartLoop : CleanLoop := MkCleanLoop ∅ ∅ [].

(** The items of the three categories in processing order. *)
Definition sorted_all (p : per_chooser (list Item)) : list Item :=
  SortDescending (of_best p) ++ SortDescending (of_partial p) ++ SortDescending (of_unreliable p).

Lemma pair_key_known ids It :
  known_item ids It -> pair_key ids It = Ok (key_text ids It).
Proof.
  intros []. unfold key_text, pair_key.
  destruct (NameKeyText_known ids (Name1 It)) as [a ->]; [done|].
  by destruct (NameKeyText_known ids (Name2 It)) as [b ->].
Qed.

Lemma clean_list_run ids l L :
  Forall (known_item ids) l -> clean_list ids l L = Ok (clean_run ids l L).
Proof.
  intros Hl. revert L. induction Hl as [|x l Hx Hl IH]; intros L; simpl; [done|].
  rewrite pair_key_known by done. simpl. by rewrite IH.
Qed.

(** The list under construction only grows at its end. *)
Lemma clean_item_out k It D E o :
  clean_item k It (MkCleanLoop D E o) =
  let L := clean_item k It (MkCleanLoop D E []) in
  MkCleanLoop (Dones L) (EaRatios L) (o ++ Out L).
Proof.
  unfold clean_item. simpl. case_bool_decide; simpl; [by rewrite app_nil_r|].
  destruct (E !! Ea1 It) as [r|]; [destruct (dgt _ _)|]; simpl; by rewrite ?app_nil_r.
Qed.

Lemma clean_run_out ids l D E o :
  clean_run ids l (MkCleanLoop D E o) =
  let L := clean_run ids l (MkCleanLoop D E []) in
  MkCleanLoop (Dones L) (EaRatios L) (o ++ Out L).
Proof.
  unfold clean_run. revert D E o. induction l as [|x l IH]; intros D E o; simpl.
  { by rewrite app_nil_r. }
  unfold clean_step at 2 4 6 8. rewrite clean_item_out. simpl.
  destruct (clean_item (key_text ids x) x (MkCleanLoop D E [])) as [D1 E1 o1]. simpl.
  rewrite (IH D1 E1 (o ++ o1)), (IH D1 E1 o1). simpl. by rewrite app_assoc.
Qed.

Lemma clean_run_app ids a b L : clean_run ids (a ++ b) L = clean_run ids b (clean_run ids a L).
Proof. unfold clean_run. apply fold_left_app. Qed.

(** ** The loop invariant *)

Section Loop.
Context (ids : Interners).

Definition fake_number (It : Item) : Prop := is_nan (fake_ratio It) = false.

Lemma fake_number_ok It : has_number It -> fake_number It.
Proof. unfold fake_number, fake_ratio. by case_bool_decide. Qed.

(** What justifies leaving [It] out, [P] being the items seen so far. *)
Definition superseded (It : Item) (P kept : list Item) : Prop :=
  (exists x, x ∈ P /\ key_text ids x = key_text ids It) \/
  (exists x, x ∈ kept /\ Ea1 x = Ea1 It /\ dgt (fake_ratio x) (fake_ratio It) = true).

Record loop_inv (P : list Item) (L : CleanLoop) : Prop := {
  li_sub : sublist (Out L) P;
  li_dones k : k ∈ Dones L <-> exists x, x ∈ P /\ key_text ids x = k;
  li_nodup : NoDup (key_text ids <$> Out L);
  li_best x : x ∈ Out L -> exists r, EaRatios L !! Ea1 x = Some r /\
                              dgt (fake_ratio x) r = false;
  li_last ea r : EaRatios L !! ea = Some r ->
    exists x, x ∈ Out L /\ Ea1 x = ea /\ fake_ratio x = r;
  li_pairs : StronglySorted (fun x y =>
    Ea1 x = Ea1 y -> dgt (fake_ratio x) (fake_ratio y) = false) (Out L);
  li_dropped a It b : P = a ++ It :: b -> It ∈ Out L \/ superseded It a (Out L);
}.

Lemma loop_inv_start : loop_inv [] StartLoop.
Proof.
  split; simpl; try done.
  - intros k. split; [set_solver|]. intros (x & H & _). by apply elem_of_nil in H.
  - constructor.
  - intros x H. by apply elem_of_nil in H.
  - constructor.
  - intros [|] ? ? ?; discriminate.
Qed.

Lemma superseded_mono It P P' kept kept' :
  superseded It P kept -> (forall x, x ∈ P -> x ∈ P') ->
  (forall x, x ∈ kept -> x ∈ kept') -> superseded It P' kept'.
Proof. intros [(x & ? & ?)|(x & ? & ? & ?)] HP Hk; [left|right]; eauto. Qed.

(** Splitting a snoc list at an element. *)
Lemma snoc_split {A} (P a b : list A) (x y : A) :
  P ++ [x] = a ++ y :: b ->
  (a = P /\ y = x) \/ (exists b', P = a ++ y :: b').
Proof.
  destruct b as [|z b _] using rev_ind; intros H.
  - apply app_inj_tail in H as [-> ->]. auto.
  - rewrite app_comm_cons, app_assoc in H. apply app_inj_tail in H as [-> ->]. eauto.
Qed.

Lemma dropped_snoc P L L' x :
  loop_inv P L -> (forall y, y ∈ Out L -> y ∈ Out L') ->
  (x ∈ Out L' \/ superseded x P (Out L')) ->
  forall a It b, P ++ [x] = a ++ It :: b -> It ∈ Out L' \/ superseded It a (Out L').
Proof.
  intros Hi Hsub Hx a It b H.
  destruct (snoc_split _ _ _ _ _ H) as [[-> ->]|[b' Hb]]; [done|].
  destruct (li_dropped _ _ Hi _ _ _ Hb) as [?|?]; [auto|].
  right. eapply superseded_mono; eauto.
Qed.

Lemma dones_snoc (P : list Item) (L : CleanLoop) (x : Item) (D : gset text) :
  loop_inv P L ->
  (forall k, k ∈ D <-> k = key_text ids x \/ k ∈ Dones L) ->
  forall k, k ∈ D <-> exists y, y ∈ P ++ [x] /\ key_text ids y = k.
Proof.
  intros Hi HD k. rewrite HD, (li_dones _ _ Hi). split.
  - intros [->|(y & Hy & <-)]; [exists x|exists y]; rewrite elem_of_app, list_elem_of_singleton; auto.
  - intros (y & Hy & <-). rewrite elem_of_app, list_elem_of_singleton in Hy.
    destruct Hy as [Hy| ->]; eauto.
Qed.

(** An item left out: the items kept and the ratios stay. *)
Lemma loop_inv_drop (P : list Item) (L : CleanLoop) (x : Item) (D : gset text) :
  loop_inv P L -> superseded x P (Out L) ->
  (forall k, k ∈ D <-> k = key_text ids x \/ k ∈ Dones L) ->
  loop_inv (P ++ [x]) (MkCleanLoop D (EaRatios L) (Out L)).
Proof.
  intros Hi Hx HD. split; simpl; try apply Hi.
  - apply sublist_inserts_r, Hi.
  - by apply (dones_snoc P L x D).
  - eapply (dropped_snoc P L (MkCleanLoop D (EaRatios L) (Out L))); auto.
Qed.

(** The ordering of the kept items when one more is kept. *)
Lemma StronglySorted_snoc {A} (R : A -> A -> Prop) (l : list A) (x : A) :
  StronglySorted R l -> Forall (fun y => R y x) l -> StronglySorted R (l ++ [x]).
Proof.
  induction 1 as [|y l Hs IH Hy]; intros Hx; simpl; [repeat constructor|].
  apply Forall_cons in Hx as [Hyx Hx]. constructor; [auto|].
  apply Forall_app. split; [done|]. by apply Forall_singleton.
Qed.

Lemma fake_ge_trans x y r :
  fake_number x -> fake_number y -> is_nan r = false ->
  dgt (fake_ratio x) r = false -> dgt r (fake_ratio y) = false ->
  dgt (fake_ratio x) (fake_ratio y) = false.
Proof. unfold fake_number. intros. dbl_order. Qed.

(** An item kept: no earlier item of its address has a greater ratio. *)
Lemma loop_inv_keep (P : list Item) (L : CleanLoop) (x : Item) (D : gset text) :
  loop_inv P L -> Forall has_number P -> has_number x ->
  key_text ids x ∉ Dones L ->
  (forall r, EaRatios L !! Ea1 x = Some r -> dgt r (fake_ratio x) = false) ->
  (forall k, k ∈ D <-> k = key_text ids x \/ k ∈ Dones L) ->
  loop_inv (P ++ [x])
    (MkCleanLoop D (<[Ea1 x := fake_ratio x]> (EaRatios L)) (Out L ++ [x])).
Proof.
  intros Hi HP Hx Hk Hr HD. pose proof (fake_number_ok x Hx) as Hfx.
  assert (HPn : forall y, y ∈ Out L -> fake_number y).
  { intros y Hy. apply fake_number_ok. rewrite Forall_forall in HP. apply HP.
    eapply elem_of_sublist; [done|apply Hi]. }
  assert (Hge : forall y, y ∈ Out L -> Ea1 y = Ea1 x ->
            dgt (fake_ratio y) (fake_ratio x) = false).
  { intros y Hy E. destruct (li_best _ _ Hi y Hy) as (r & Hl & Hg).
    destruct (li_last _ _ Hi _ _ Hl) as (z & Hz & _ & <-). rewrite E in Hl.
    apply (fake_ge_trans y x (fake_ratio z)); [by apply HPn|done|by apply HPn|done|by apply Hr]. }
  split; simpl.
  - apply sublist_app; [apply Hi|done].
  - by apply (dones_snoc P L x D).
  - rewrite fmap_app. apply NoDup_app. split; [apply Hi|]. split; [|apply NoDup_singleton].
    intros k Hin Hkx. apply list_elem_of_fmap in Hin as (y & -> & Hy).
    apply list_elem_of_singleton in Hkx. apply Hk. apply (li_dones _ _ Hi).
    exists y. split; [|done]. eapply elem_of_sublist; [done|apply Hi].
  - intros y Hy. apply elem_of_app in Hy. rewrite list_elem_of_singleton in Hy.
    destruct (decide (Ea1 x = Ea1 y)) as [E|E].
    + rewrite <- E, lookup_insert_eq. exists (fake_ratio x). split; [done|].
      destruct Hy as [Hy| ->]; [by apply Hge|apply dlt_irrefl].
    + rewrite lookup_insert_ne by done. destruct Hy as [Hy| ->]; [by apply Hi|done].
  - intros ea r. destruct (decide (Ea1 x = ea)) as [<-|E].
    + rewrite lookup_insert_eq. intros [= <-]. exists x.
      rewrite elem_of_app, list_elem_of_singleton. auto.
    + rewrite lookup_insert_ne by done. intros Hl.
      destruct (li_last _ _ Hi _ _ Hl) as (y & ? & ? & ?). exists y.
      rewrite elem_of_app. auto.
  - apply StronglySorted_snoc; [apply Hi|]. apply Forall_forall. auto.
  - eapply (dropped_snoc P L (MkCleanLoop D (EaRatios L) (Out L ++ [x]))); simpl;
      [done|intros; rewrite elem_of_app; auto|].
    left. rewrite elem_of_app, list_elem_of_singleton. auto.
Qed.

Lemma loop_inv_step P L x :
  loop_inv P L -> Forall has_number P -> has_number x ->
  loop_inv (P ++ [x]) (clean_step ids L x).
Proof.
  intros Hi HP Hx. unfold clean_step, clean_item. case_bool_decide as Hk.
  - destruct L as [D E o]. apply (loop_inv_drop P (MkCleanLoop D E o) x D Hi).
    + left. by apply (li_dones _ _ Hi) in Hk.
    + intros k. simpl. split; [auto|]. intros [->|]; done.
  - assert (HD : forall k, k ∈ {[key_text ids x]} ∪ Dones L <->
              k = key_text ids x \/ k ∈ Dones L) by (intros; set_solver).
    destruct (EaRatios L !! Ea1 x) as [r|] eqn:Er; [destruct (dgt r _) eqn:Eg|].
    + apply loop_inv_drop; [done| |done].
      right. destruct (li_last _ _ Hi _ _ Er) as (y & ? & ? & <-). eauto.
    + apply loop_inv_keep; try done. intros r' ?. by simplify_eq.
    + apply loop_inv_keep; try done. intros r' ?. by simplify_eq.
Qed.

Lemma loop_inv_run P l L :
  loop_inv P L -> Forall has_number P -> Forall has_number l ->
  loop_inv (P ++ l) (clean_run ids l L).
Proof.
  intros Hi HP Hl. revert P L Hi HP. induction Hl as [|x l Hx Hl IH]; intros P L Hi HP.
  - by rewrite app_nil_r.
  - rewrite cons_middle, app_assoc. simpl. apply IH; [by apply loop_inv_step|].
    apply Forall_app. split; [done|]. by apply Forall_singleton.
Qed.

(** A list that has the properties of a result is kept whole. *)
Lemma clean_run_kept (l : list Item) (D : gset text) (E : gmap AddrId dbl) :
  NoDup (key_text ids <$> l) ->
  (forall x, x ∈ l -> key_text ids x ∉ D) ->
  (forall x r, x ∈ l -> E !! Ea1 x = Some r -> dgt r (fake_ratio x) = false) ->
  StronglySorted (fun x y => Ea1 x = Ea1 y -> dgt (fake_ratio x) (fake_ratio y) = false) l ->
  Out (clean_run ids l (MkCleanLoop D E [])) = l.
Proof.
  intros Hn HD HE Hs. revert D E Hn HD HE. induction Hs as [|x l Hs IH Hx];
    intros D E Hn HD HE; [done|].
  apply NoDup_cons in Hn as [Hxl Hn]. simpl.
  assert (Hstep : clean_step ids (MkCleanLoop D E []) x =
    MkCleanLoop ({[key_text ids x]} ∪ D) (<[Ea1 x := fake_ratio x]> E) [x]).
  { unfold clean_step, clean_item. simpl. rewrite bool_decide_false by (apply HD; left).
    destruct (E !! Ea1 x) as [r|] eqn:Er; [|done]. rewrite (HE x r); [done|left|done]. }
  rewrite Hstep, clean_run_out. simpl. f_equal. apply IH; [done| |].
  - intros y Hy. rewrite not_elem_of_union, not_elem_of_singleton. split.
    + intros Ek. apply Hxl. rewrite <- Ek. by apply list_elem_of_fmap_2.
    + apply HD. by right.
  - intros y r Hy. rewrite Forall_forall in Hx. destruct (decide (Ea1 x = Ea1 y)) as [Ee|Ee].
    + rewrite Ee, lookup_insert_eq. intros [= <-]. by apply Hx.
    + rewrite lookup_insert_ne by done. apply HE. by right.
Qed.
End Loop.

(** ** The operation *)

Lemma clean_run_sublist ids l D E : sublist (Out (clean_run ids l (MkCleanLoop D E []))) l.
Proof.
  revert D E. induction l as [|x l IH]; intros D E; [done|]. simpl.
  unfold clean_step, clean_item. simpl. case_bool_decide; [by constructor|].
  destruct (E !! Ea1 x) as [r|]; [destruct (dgt _ _)|]; try (by constructor).
  all: rewrite clean_run_out; simpl; by constructor.
Qed.

Lemma known_sort ids l : Forall (known_item ids) l -> Forall (known_item ids) (SortDescending l).
Proof. intros H. unfold SortDescending. by rewrite stable_sort_perm. Qed.

Lemma known_numbers ids l : Forall (known_item ids) l -> Forall has_number l.
Proof. intros H. eapply Forall_impl; [exact H|]. by intros x []. Qed.

Lemma clean_category_run ids l L :
  Forall (known_item ids) l ->
  clean_category ids l L =
  Ok (clean_run ids (SortDescending l) (MkCleanLoop (Dones L) (EaRatios L) [])).
Proof. intros H. unfold clean_category. by rewrite clean_list_run by by apply known_sort. Qed.

Definition kept_lists (ids : Interners) (p q : per_chooser (list Item)) : Prop :=
  (forall c, sublist (at_ c q) (SortDescending (at_ c p))) /\
  all_items q = Out (clean_run ids (sorted_all p) StartLoop).

Lemma Cleanup_run ids st :
  wf_state ids st ->
  exists q, Cleanup ids st = Ok (rebuild q st) /\ kept_lists ids (Lists st) q.
Proof.
  intros Hwf. unfold Cleanup.
  rewrite clean_category_run by apply (wfs_items _ _ Hwf Best). simpl.
  set (L1 := clean_run _ _ _).
  rewrite clean_category_run by apply (wfs_items _ _ Hwf Partial). simpl.
  set (L2 := clean_run _ _ _).
  rewrite clean_category_run by apply (wfs_items _ _ Hwf Unreliable). simpl.
  set (L3 := clean_run _ _ _).
  exists (PerChooser (Out L1) (Out L2) (Out L3)). split; [done|]. split.
  - intros []; apply clean_run_sublist.
  - unfold sorted_all, all_items. simpl. rewrite !clean_run_app.
    fold StartLoop in L1. fold L1. destruct L1 as [D1 E1 o1] eqn:E.
    rewrite clean_run_out. simpl in L2. fold L2. destruct L2 as [D2 E2 o2] eqn:E'. simpl.
    rewrite clean_run_out. simpl in L3. fold L3. simpl. by rewrite app_assoc.
Qed.

Lemma Forall_all_items (P : Item -> Prop) p :
  (forall c, Forall P (at_ c p)) -> Forall P (all_items p).
Proof.
  intros H. unfold all_items. rewrite !Forall_app.
  split; [apply (H Best)|]. split; [apply (H Partial)|apply (H Unreliable)].
Qed.

Lemma Forall_sorted_all ids p :
  (forall c, Forall (known_item ids) (at_ c p)) -> Forall (known_item ids) (sorted_all p).
Proof.
  intros H. unfold sorted_all. rewrite !Forall_app.
  split; [apply known_sort, (H Best)|].
  split; [apply known_sort, (H Partial)|apply known_sort, (H Unreliable)].
Qed.

Lemma kept_lists_inv ids st q :
  wf_state ids st -> kept_lists ids (Lists st) q ->
  exists L, Out L = all_items q /\ loop_inv ids (sorted_all (Lists st)) L.
Proof.
  intros Hwf [_ Hq]. exists (clean_run ids (sorted_all (Lists st)) StartLoop).
  split; [done|]. apply (loop_inv_run ids []); [apply loop_inv_start|constructor|].
  eapply known_numbers, Forall_sorted_all, Hwf.
Qed.

Lemma kept_lists_known ids st q c :
  wf_state ids st -> kept_lists ids (Lists st) q -> Forall (known_item ids) (at_ c q).
Proof.
  intros Hwf [Hs _]. pose proof (known_sort ids _ (wfs_items _ _ Hwf c)) as H.
  rewrite Forall_forall in H |- *. intros x Hx. apply H.
  eapply elem_of_sublist; [done|apply Hs].
Qed.

Lemma sort_in_order l : Forall has_number l -> in_order ratio_gt (SortDescending l).
Proof. apply (stable_sort_in_order ratio_gt). Qed.

Lemma kept_lists_sorted ids st q c :
  wf_state ids st -> kept_lists ids (Lists st) q -> in_order ratio_gt (at_ c q).
Proof.
  intros Hwf [Hs _]. eapply in_order_sublist; [apply Hs|]. apply sort_in_order.
  eapply known_numbers, Hwf.
Qed.

(** What a cleanup returns, as a specification of the new lists. *)
Record cleaned (ids : Interners) (p q : per_chooser (list Item)) : Prop := {
  cl_sub c : sublist (at_ c q) (SortDescending (at_ c p));
  cl_sorted c : in_order ratio_gt (at_ c q);
  cl_keys : NoDup (key_text ids <$> all_items q);
  cl_best : StronglySorted (fun x y =>
      Ea1 x = Ea1 y -> dgt (fake_ratio x) (fake_ratio y) = false) (all_items q);
  cl_dropped a It b : sorted_all p = a ++ It :: b ->
      It ∈ all_items q \/ superseded ids It a (all_items q);
}.

Lemma kept_lists_cleaned ids st q :
  wf_state ids st -> kept_lists ids (Lists st) q -> cleaned ids (Lists st) q.
Proof.
  intros Hwf Hq. destruct (kept_lists_inv _ _ _ Hwf Hq) as (L & HL & Hi).
  split; rewrite <- ?HL; try apply Hi; [apply Hq|].
  intros c. by eapply kept_lists_sorted.
Qed.

(** C3: On a well-formed state [Cleanup] returns; each list becomes a
    descending sublist of its sorted self, no two kept items of any category
    share the key ["name1-name2"], the kept ratios of one primary address never
    drop along the processing order, and every item left out was superseded: by
    an earlier item with its key or by a kept item of its primary address with
    a greater ratio. *)
Theorem Cleanup_spec ids st :
  wf_state ids st ->
  exists st', Cleanup ids st = Ok st' /\ cleaned ids (Lists st) (Lists st').
Proof.
  intros Hwf. destruct (Cleanup_run ids st Hwf) as (q & Hq & Hk).
  exists (rebuild q st). split; [done|]. by apply kept_lists_cleaned.
Qed.

(** ** The rebuilt dicts *)

Lemma FindEntry_fold (key : Item -> NameId) (entry : Item -> MatchedEntry) n l d :
  FindEntry n (fold_left (fun d It => Put (key It) (entry It) d) l d) =
  match last (filter (fun It => key It = n) l) with
  | Some It => Some (entry It)
  | None => FindEntry n d
  end.
Proof.
  revert d. induction l as [|x l IH]; intros d; [done|]. simpl. rewrite IH, filter_cons.
  rewrite FindEntry_Put. repeat case_decide; try done.
  rewrite last_cons. by destruct (last (filter _ l)).
Qed.

Lemma wf_fold (key : Item -> NameId) (entry : Item -> MatchedEntry) l d :
  wf_dict d -> wf_dict (fold_left (fun d It => Put (key It) (entry It) d) l d).
Proof. revert d. induction l as [|x l IH]; intros d Hd; simpl; [done|]. by apply IH, wf_Put. Qed.

Lemma known_fold ids (key : Item -> NameId) (entry : Item -> MatchedEntry) l d :
  known_dict ids d -> Forall (fun It => known_entry ids (key It) (entry It)) l ->
  known_dict ids (fold_left (fun d It => Put (key It) (entry It) d) l d).
Proof.
  intros Hd Hl. revert d Hd. induction Hl as [|x l Hx Hl IH]; intros d Hd; simpl; [done|].
  by apply IH, known_Put.
Qed.

Lemma known_empty ids : known_dict ids EmptyDict.
Proof. intros k e. simpl. by rewrite lookup_empty. Qed.

(** After [Cleanup] the dicts hold, for each name, its last kept item in
    (category, sorted) order with the item's own ratio, and no other name. *)
Theorem Cleanup_dicts ids st st' n :
  wf_state ids st -> Cleanup ids st = Ok st' ->
  FindEntry n (Primary st') =
    match last (filter (fun It => Name1 It = n) (all_items (Lists st'))) with
    | Some It => Some (MkMatchedEntry (Name2 It) (Ratio It))
    | None => None
    end /\
  FindEntry n (Secondary st') =
    match last (filter (fun It => Name2 It = n) (all_items (Lists st'))) with
    | Some It => Some (MkMatchedEntry (Name1 It) (Ratio It))
    | None => None
    end.
Proof.
  intros Hwf H. destruct (Cleanup_run ids st Hwf) as (q & Hq & _).
  rewrite Hq in H. simplify_eq. simpl. split.
  - apply (FindEntry_fold Name1 (fun It => MkMatchedEntry (Name2 It) (Ratio It)) n _ EmptyDict).
  - apply (FindEntry_fold Name2 (fun It => MkMatchedEntry (Name1 It) (Ratio It)) n _ EmptyDict).
Qed.

(** ** The invariant after a cleanup *)

Lemma item_eqb_key ids a b : item_eqb a b = true -> key_text ids a = key_text ids b.
Proof.
  rewrite item_eqb_spec. intros (_ & E1 & _ & E2 & _).
  unfold key_text, pair_key. by rewrite E1, E2.
Qed.

(** A list without repeated keys repeats no item, so its rebuilt index is exact. *)
Lemma occurrences_nodup ids j l : NoDup (key_text ids <$> l) -> (occurrences j l <= 1)%Z.
Proof.
  induction l as [|x l IH]; intros Hn; [done|].
  apply NoDup_cons in Hn as [Hx Hn]. rewrite occurrences_cons.
  specialize (IH Hn). destruct (item_eqb x j) eqn:E; [|lia].
  assert (Hz : (occurrences j l =? 0)%Z = true); [|apply Z.eqb_eq in Hz; lia].
  rewrite occurrences_zero. apply negb_true_iff, not_true_iff_false.
  intros He. apply existsb_exists in He as (y & Hy & Ey). apply Hx.
  rewrite (item_eqb_key ids _ _ E), (item_eqb_key ids _ _ Ey).
  apply list_elem_of_fmap_2. by apply list_elem_of_In.
Qed.

Lemma NoDup_all_items_at {A} (f : Item -> A) p c :
  NoDup (f <$> all_items p) -> NoDup (f <$> at_ c p).
Proof.
  unfold all_items. rewrite !fmap_app, !NoDup_app. by intros (? & _ & ? & _ & ?); destruct c.
Qed.

Lemma wf_rebuild ids p st :
  (forall c, Forall (known_item ids) (at_ c p)) ->
  NoDup (key_text ids <$> all_items p) -> wf_state ids (rebuild p st).
Proof.
  intros Hk Hn. pose proof (Forall_all_items _ _ Hk) as Ha.
  split; simpl.
  - done.
  - intros c. rewrite at_map_choosers. apply indexes_rebuild; [by eapply known_numbers|].
    intros j _. pose proof (occurrences_nodup ids j (at_ c p)) as H.
    specialize (H (NoDup_all_items_at _ _ _ Hn)). lia.
  - apply (wf_fold Name1), wf_EmptyDict.
  - apply (wf_fold Name2), wf_EmptyDict.
  - apply (known_fold ids Name1); [apply known_empty|].
    eapply Forall_impl; [exact Ha|]. intros x []. repeat split; done.
  - apply (known_fold ids Name2); [apply known_empty|].
    eapply Forall_impl; [exact Ha|]. intros x []. repeat split; done.
Qed.

Lemma Cleanup_wf ids st st' :
  wf_state ids st -> Cleanup ids st = Ok st' -> wf_state ids st'.
Proof.
  intros Hwf H. destruct (Cleanup_run ids st Hwf) as (q & Hq & Hk).
  rewrite Hq in H. simplify_eq.
  apply wf_rebuild; [intros c; by eapply kept_lists_known|]. by eapply cl_keys, kept_lists_cleaned.
Qed.

(** [Cleanup] keeps the state well formed, and a second cleanup changes
    nothing: the operation is idempotent. *)
Theorem Cleanup_idempotent ids st st' :
  wf_state ids st -> Cleanup ids st = Ok st' ->
  wf_state ids st' /\ Cleanup ids st' = Ok st'.
Proof.
  intros Hwf H. destruct (Cleanup_run ids st Hwf) as (q & Hq & Hk).
  rewrite Hq in H. simplify_eq.
  pose proof (kept_lists_cleaned ids st q Hwf Hk) as Hc.
  assert (Hwf' : wf_state ids (rebuild q st)) by by eapply Cleanup_wf.
  split; [done|].
  destruct (Cleanup_run ids _ Hwf') as (q' & -> & [Hs' Ho']). simpl in Hs', Ho'.
  assert (Hsort : forall c, SortDescending (at_ c q) = at_ c q)
    by (intros c; apply stable_sort_id, Hc).
  assert (Hall : all_items q' = all_items q).
  { rewrite Ho'. unfold sorted_all. change (of_best q) with (at_ Best q).
    change (of_partial q) with (at_ Partial q). change (of_unreliable q) with (at_ Unreliable q).
    rewrite !Hsort. apply (clean_run_kept ids (all_items q) ∅ ∅); try apply Hc.
    - intros x _. apply not_elem_of_empty.
    - intros x r _. by rewrite lookup_empty. }
  assert (q' = q) as ->; [|done].
  assert (Hlen : forall c, (length (at_ c q') <= length (at_ c q))%nat).
  { intros c. apply sublist_length. rewrite <- Hsort. apply Hs'. }
  pose proof (Hlen Best). pose proof (Hlen Partial). pose proof (Hlen Unreliable).
  assert (Hl : length (all_items q') = length (all_items q)) by by rewrite Hall.
  destruct q as [b p u], q' as [b' p' u']. unfold all_items in *. simpl in *.
  rewrite !length_app in Hl.
  apply app_inj_1 in Hall as [-> Hall]; [|lia].
  by apply app_inj_1 in Hall as [-> ->]; [|lia].
Qed.

(** ** Sorted results and snapshots of the match state
      (src/src/diff/MatchState.cpp, [SortedResults], [Export], [Import]) *)

(** [SortedResults] is a stable descending sort: it permutes the stored
    list, no item follows one with a smaller ratio, and items with equal ratios
    keep their stored order. *)
Theorem SortedResults_stable ids st c z :
  wf_state ids st -> has_number z ->
  SortedResults c st ≡ₚ at_ c (Lists st) /\
  in_order ratio_gt (SortedResults c st) /\
  filter (fun y => tied ratio_gt y z = true) (SortedResults c st)
  = filter (fun y => tied ratio_gt y z = true) (at_ c (Lists st)).
Proof.
  intros Hwf Hz. pose proof (known_numbers _ _ (wfs_items _ _ Hwf c)) as Hn.
  unfold SortedResults, SortDescending. split; [apply stable_sort_perm|].
  split; [by apply sort_in_order|].
  by apply (stable_sort_filter ratio_gt (P := has_number)).
Qed.

(** ** Round trip of the snapshots *)

Lemma map_res_map_ids {A C} (f : A -> res C) (g : C -> Interners -> Interners * A) ids l :
  Forall (fun x => exists y, f x = Ok y /\ g y ids = (ids, x)) l ->
  exists ys, map_res f l = Ok ys /\ map_ids g ys ids = (ids, l).
Proof.
  induction 1 as [|x l (y & Hy & Hg) Hl (ys & Hys & Hm)]; simpl; [eauto|].
  exists (y :: ys). rewrite Hy. simpl. rewrite Hys. simpl. by rewrite Hg, Hm.
Qed.

(** What the snapshot can hold: an address that is not None, a representable
    ratio. *)
Record exportable (It : Item) : Prop := {
  ex_ea1 : Ea1 It <> kNoneAddr;
  ex_ea2 : Ea2 It <> kNoneAddr;
  ex_ratio : valid (Ratio It);
}.

Definition exportable_dict (d : NameDict) : Prop :=
  forall k e, Map d !! k = Some e -> valid (EntryRatio e).

Lemma NameOrNone_roundtrip ids n :
  wf_ids ids -> known_name ids n ->
  exists t, NameOrNone n ids = Ok t /\ NameOpt t ids = (ids, n).
Proof.
  intros Hwf Hn. unfold NameOrNone. case_bool_decide as H0; [exists None; by subst|].
  destruct Hn as [|Hk]; [done|]. destruct (known_text _ _ Hk) as [t Ht].
  exists (Some t). rewrite Ht. split; [done|]. simpl.
  apply NameText_some; [done|done|]. unfold NameText. by rewrite bool_decide_false.
Qed.

Lemma AddrKeyText_roundtrip ids a :
  wf_ids ids -> known_addr ids a -> a <> kNoneAddr ->
  exists t, AddrKeyText a ids = Ok t /\ Addr t ids = (ids, a).
Proof.
  intros Hwf [|Hk] Ha; [done|]. destruct (known_text _ _ Hk) as [t Ht]. exists t.
  unfold AddrKeyText. rewrite bool_decide_false by done. split; [done|].
  apply AddrText_some; [done|done|]. unfold AddrText. by rewrite bool_decide_false.
Qed.

Lemma DescText_roundtrip ids d :
  wf_ids ids -> known d (Descs_ ids) ->
  exists t, DescText d ids = Ok t /\ Desc t ids = (ids, d).
Proof.
  intros Hwf Hd. destruct (known_text _ _ Hd) as [t Ht]. exists t. split; [done|].
  unfold Desc. rewrite (Intern_known _ _ _ (wf_descs _ Hwf) Ht). by destruct ids.
Qed.

Lemma ExportItem_roundtrip ids It :
  wf_ids ids -> known_item ids It -> exportable It ->
  exists y, ExportItem ids It = Ok y /\ ImportItem y ids = (ids, It).
Proof.
  intros Hwf [] []. unfold ExportItem.
  destruct (AddrKeyText_roundtrip ids (Ea1 It)) as (t1 & -> & E1); [done..|].
  destruct (NameOrNone_roundtrip ids (Name1 It)) as (t2 & -> & E2); [done..|].
  destruct (AddrKeyText_roundtrip ids (Ea2 It)) as (t3 & -> & E3); [done..|].
  destruct (NameOrNone_roundtrip ids (Name2 It)) as (t4 & -> & E4); [done..|].
  destruct (DescText_roundtrip ids (ItemDesc It)) as (t5 & -> & E5); [done..|].
  eexists. split; [done|]. unfold ImportItem. simpl.
  rewrite E1, E2, E3, E4, E5, RatioFromBits_RatioBits by done. by destruct It.
Qed.

Lemma ExportRow_roundtrip ids d k :
  wf_ids ids -> wf_dict d -> known_dict ids d -> exportable_dict d -> k ∈ Order d ->
  exists y, ExportRow ids d k = Ok y /\
    exists e, Map d !! k = Some e /\ ImportRow y ids = (ids, (k, e)).
Proof.
  intros Hwf Hd Hk Hv Hin. apply (wfd_dom _ Hd) in Hin as [e He].
  destruct (Hk _ _ He) as (Hk1 & Hk2 & Hn). unfold ExportRow. rewrite He.
  destruct (NameOrNone_roundtrip ids k) as (t1 & -> & E1); [done..|].
  destruct (NameOrNone_roundtrip ids (Other e)) as (t2 & -> & E2); [done..|].
  eexists. split; [done|]. exists e. split; [done|]. unfold ImportRow. simpl.
  rewrite E1, E2, RatioFromBits_RatioBits by (done || by eapply Hv). by destruct e.
Qed.

Lemma fold_Put_view (es : list (NameId * MatchedEntry)) (d : NameDict) :
  NoDup (Order d ++ es.*1) -> wf_dict d ->
  fold_left (fun d '(k, e) => Put k e d) es d
  = MkNameDict (Order d ++ es.*1) (list_to_map (reverse es) ∪ Map d).
Proof.
  revert d. induction es as [|[k e] es IH]; intros d Hn Hd; simpl.
  { rewrite app_nil_r, map_empty_union. by destruct d. }
  assert (Hk : Map d !! k = None).
  { destruct (Map d !! k) eqn:E; [|done]. exfalso.
    apply NoDup_app in Hn as (_ & Hn & _). apply (Hn k); [|left].
    apply (wfd_dom _ Hd). by rewrite E. }
  assert (Hp : Put k e d = MkNameDict (Order d ++ [k]) (<[k := e]> (Map d)))
    by (unfold Put; by rewrite Hk).
  rewrite IH; [|rewrite Hp; simpl; by rewrite <- app_assoc|by apply wf_Put].
  rewrite Hp. simpl. rewrite <- app_assoc. f_equal. rewrite reverse_cons, list_to_map_app. simpl.
  rewrite <- (map_union_assoc (list_to_map (reverse es))). f_equal.
  by rewrite insert_empty, <- insert_union_singleton_l.
Qed.

Lemma view_of_fst m o : Forall (fun k => is_Some (m !! k)) o -> (view_of m o).*1 = o.
Proof. induction 1 as [|k o [e He] Ho IH]; simpl; [done|]. rewrite He. simpl. by f_equal. Qed.

Lemma view_of_elem m o k e : (k, e) ∈ view_of m o <-> k ∈ o /\ m !! k = Some e.
Proof.
  induction o as [|j o IH]; simpl.
  { split; [intros H; by apply elem_of_nil in H|]. intros [H _]. by apply elem_of_nil in H. }
  destruct (m !! j) eqn:E; rewrite ?elem_of_cons, IH; (split; [|intros [[->|Hk] He]]).
  - by intros [[= -> ->]|[? ?]]; auto.
  - left. congruence.
  - auto.
  - by intros [? ?]; auto.
  - congruence.
  - auto.
Qed.

Lemma rebuild_view (d : NameDict) :
  wf_dict d -> fold_left (fun d '(k, e) => Put k e d) (dict_view d) EmptyDict = d.
Proof.
  intros Hd. pose proof (wfd_nodup _ Hd) as Hn.
  assert (Hs : Forall (fun k => is_Some (Map d !! k)) (Order d))
    by (apply Forall_forall; intros k; apply Hd).
  pose proof (view_of_fst _ _ Hs) as Hf. fold (dict_view d) in Hf.
  rewrite fold_Put_view; [|cbn [Order EmptyDict app]; by rewrite Hf|apply wf_EmptyDict].
  cbn [Order Map EmptyDict app]. rewrite Hf, map_union_empty.
  transitivity (MkNameDict (Order d) (Map d)); [f_equal|by destruct d].
  apply map_eq. intros k. apply option_eq. intros e.
  rewrite <- elem_of_list_to_map;
    [|rewrite fmap_reverse; rewrite reverse_Permutation; fold (dict_view d); rewrite Hf; exact Hn].
  rewrite elem_of_reverse. unfold dict_view. rewrite view_of_elem.
  split; [by intros []|]. intros He. split; [|done]. apply (wfd_dom _ Hd). eauto.
Qed.

Lemma ImportDict_Export ids d :
  wf_ids ids -> wf_dict d -> known_dict ids d -> exportable_dict d ->
  exists ys, ExportDict ids d = Ok ys /\ ImportDict ys ids = (ids, d).
Proof.
  intros Hwf Hd Hk Hv. unfold ExportDict, ImportDict.
  assert (H : forall o, (forall k, k ∈ o -> k ∈ Order d) ->
    exists ys, map_res (ExportRow ids d) o = Ok ys /\
               map_ids ImportRow ys ids = (ids, view_of (Map d) o)).
  { induction o as [|k o IH]; intros Ho; simpl; [eauto|].
    destruct (ExportRow_roundtrip ids d k) as (y & -> & e & He & Hy); try done; [apply Ho; by left|].
    destruct IH as (ys & -> & Hys); [intros; apply Ho; by right|].
    exists (y :: ys). simpl. rewrite Hy, Hys, He. done. }
  destruct (H (Order d)) as (ys & Hys & Hm); [done|].
  exists ys. split; [done|]. rewrite Hm. f_equal. by apply rebuild_view.
Qed.

(** A state a snapshot can hold. *)
Record exportable_state (st : MatchState) : Prop := {
  es_items c : Forall exportable (at_ c (Lists st));
  es_primary : exportable_dict (Primary st);
  es_secondary : exportable_dict (Secondary st);
}.

Lemma items_roundtrip ids l :
  wf_ids ids -> Forall (known_item ids) l -> Forall exportable l ->
  exists ys, map_res (ExportItem ids) l = Ok ys /\ map_ids ImportItem ys ids = (ids, l).
Proof.
  intros Hwf Hk He. apply map_res_map_ids. rewrite Forall_forall in *.
  intros x Hx. apply ExportItem_roundtrip; auto.
Qed.

(** C40: A well-formed state whose matches all have two addresses (the address None
    would come back as the text None) and whose stored ratios are doubles is
    restored by exporting it and importing the snapshot into the same session: the
    interners are unchanged, lists, dicts (with
    their insertion order) and totals are the same, and the occurrence index is
    rebuilt from the lists. *)
Theorem Export_Import_roundtrip ids st :
  wf_ids ids -> wf_state ids st -> exportable_state st ->
  exists Sn, Export ids st = Ok Sn /\
    Import Sn ids = (ids, MkMatchState (Total1 st) (Total2 st) (Lists st)
      (map_choosers RebuildMembers (Lists st)) (Primary st) (Secondary st)).
Proof.
  intros Hids Hwf He. unfold Export.
  destruct (items_roundtrip ids (of_best (Lists st))) as (b & -> & Hb);
    [done|apply (wfs_items _ _ Hwf Best)|apply (es_items _ He Best)|].
  destruct (items_roundtrip ids (of_partial (Lists st))) as (p & -> & Hp);
    [done|apply (wfs_items _ _ Hwf Partial)|apply (es_items _ He Partial)|].
  destruct (items_roundtrip ids (of_unreliable (Lists st))) as (u & -> & Hu);
    [done|apply (wfs_items _ _ Hwf Unreliable)|apply (es_items _ He Unreliable)|].
  destruct (ImportDict_Export ids (Primary st)) as (mp & -> & Hmp); [done|apply Hwf..|apply He|].
  destruct (ImportDict_Export ids (Secondary st)) as (ms & -> & Hms); [done|apply Hwf..|apply He|].
  eexists. split; [done|]. unfold Import. simpl. rewrite Hb, Hp, Hu, Hmp, Hms.
  by destruct (Lists st).
Qed.
