(* ===== verification/FinalPass.v ===== *)
(** * The final pass (src/src/diff/FinalPass.cpp)

    [StageFinalPass] cleans the match state, finds the multimatches by address
    text, fills the multimatch chooser and the ignore lists, and distributes
    the remaining best items over the result choosers. *)

From stdpp Require Import base numbers gmap sets list sorting.
From Stdlib Require Import ZArith Lia.
From S2P Require Import Prelude Dbl Interner PyInt Snapshot MatchState MatchStateSpec.

Record UnmatchedRow := MkUnmatchedRow { UEa : AddrId; UName : NameId }.

Record FinalResults := MkFinal {
  FBest : list Item;
  FPartial : list Item;
  FUnreliable : list Item;
  FMultimatch : list Item;
  UnmatchedPrimary : option (list UnmatchedRow);
  UnmatchedSecondary : option (list UnmatchedRow);
}.

Definition EmptyFinal : FinalResults := MkFinal [] [] [] [] None None.

(** Appending to one of the choosers of [S.Final()]. *)
Definition add_multimatch (It : Item) (F : FinalResults) : FinalResults :=
  MkFinal (FBest F) (FPartial F) (FUnreliable F) (FMultimatch F ++ [It])
    (UnmatchedPrimary F) (UnmatchedSecondary F).

Definition add_final (C : Chooser) (It : Item) (F : FinalResults) : FinalResults :=
  match C with
  | Best => MkFinal (FBest F ++ [It]) (FPartial F) (FUnreliable F) (FMultimatch F)
              (UnmatchedPrimary F) (UnmatchedSecondary F)
  | Partial => MkFinal (FBest F) (FPartial F ++ [It]) (FUnreliable F) (FMultimatch F)
              (UnmatchedPrimary F) (UnmatchedSecondary F)
  | Unreliable => MkFinal (FBest F) (FPartial F) (FUnreliable F ++ [It]) (FMultimatch F)
              (UnmatchedPrimary F) (UnmatchedSecondary F)
  end.

Definition final_list (C : Chooser) (F : FinalResults) : list Item :=
  match C with Best => FBest F | Partial => FPartial F | Unreliable => FUnreliable F end.

(** A Python dict {ea: [items]} in insertion order. *)
Record MultiDict := MkMulti { MOrder : list AddrId; MMap : gmap AddrId (list Item) }.

Definition EmptyMulti : MultiDict := MkMulti [] ∅.

Definition MultiAppend (Ea : AddrId) (It : Item) (d : MultiDict) : MultiDict :=
  match MMap d !! Ea with
  | None => MkMulti (MOrder d ++ [Ea]) (<[Ea := [It]]> (MMap d))
  | Some l => MkMulti (MOrder d) (<[Ea := l ++ [It]]> (MMap d))
  end.

Section Pass.
Context (ids : Interners).

Definition EaPairKey (A1 A2 : AddrId) : res text :=
  a ← AddrKeyText A1 ids;
  b ← AddrKeyText A2 ids;
  Ok (a ++ B "-" ++ b).

(** [AddChooserItem] runs [int] on both addresses before the push. *)
Definition AddChooserItem (add : Item -> FinalResults -> FinalResults) (It : Item)
    : M FinalResults unit :=
  liftR (RequirePyInt ids (Ea1 It) (B "D:286"));;
  liftR (RequirePyInt ids (Ea2 It) (B "D:288"));;
  modify (add It).

(** The dicts of find_unresolved_multimatches. *)
Record FirstPass := MkFirst {
  FDones : gset text;
  MaxMain : gmap AddrId dbl;
  MaxDiff : gmap AddrId dbl;
  MultiMain : MultiDict;
  MultiDiff : MultiDict;
}.

Definition EmptyFirst : FirstPass := MkFirst ∅ ∅ ∅ EmptyMulti EmptyMulti.

(** [try_emplace(key, ratio)], the test, and the update. *)
Definition max_update (Ea : AddrId) (R : dbl) (m : gmap AddrId dbl)
    : option (gmap AddrId dbl) :=
  match m !! Ea with
  | Some r => if dgt r R then None else Some (<[Ea := R]> m)
  | None => if dgt R R then None else Some (<[Ea := R]> m)
  end.

Definition first_item (Key : text) (Match : Item) (P : FirstPass) : FirstPass :=
  if bool_decide (Key ∈ FDones P) then P
  else
    let D := {[ Key ]} ∪ FDones P in
    match max_update (Ea1 Match) (Ratio Match) (MaxMain P) with
    | None => MkFirst D (MaxMain P) (MaxDiff P) (MultiMain P) (MultiDiff P)
    | Some mm =>
        let M1 := MultiAppend (Ea1 Match) Match (MultiMain P) in
        match max_update (Ea2 Match) (Ratio Match) (MaxDiff P) with
        | None => MkFirst D mm (MaxDiff P) M1 (MultiDiff P)
        | Some md => MkFirst D mm md M1 (MultiAppend (Ea2 Match) Match (MultiDiff P))
        end
    end.

Fixpoint first_pass (l : list Item) (P : FirstPass) : res FirstPass :=
  match l with
  | [] => Ok P
  | It :: l' => Key ← EaPairKey (Ea1 It) (Ea2 It); first_pass l' (first_item Key It P)
  end.

(** The ignore list and the shared [dones] of add_multimatches_to_chooser. *)
Definition IgnoreDones : Type := gset AddrId * gset text.

Fixpoint multi_items (Ea : AddrId) (l : list Item) (s : IgnoreDones)
    : M FinalResults IgnoreDones :=
  match l with
  | [] => mret s
  | Match :: l' =>
      Key ← liftR (EaPairKey (Ea1 Match) (Ea2 Match));
      if bool_decide (Key ∈ s.2) then multi_items Ea l' s
      else
        AddChooserItem add_multimatch Match;;
        multi_items Ea l' ({[ Ea ]} ∪ s.1, {[ Key ]} ∪ s.2)
  end.

(** [Multi.Map.at(Ea)] throws for a missing key. *)
Fixpoint AddMultimatchesToChooser (d : MultiDict) (order : list AddrId) (s : IgnoreDones)
    : M FinalResults IgnoreDones :=
  match order with
  | [] => mret s
  | Ea :: order' =>
      match MMap d !! Ea with
      | None => throw (CxxException (B "out_of_range"))
      | Some Items =>
          s' ← (if 1 <? length Items then multi_items Ea Items s else mret s);
          AddMultimatchesToChooser d order' s'
      end
  end.

(** add_final_chooser_items, for one category. *)
Fixpoint final_items (C : Chooser) (P : FirstPass) (IgnMain IgnDiff : gset AddrId)
    (l : list Item) : M FinalResults unit :=
  match l with
  | [] => mret tt
  | Match :: l' =>
      if bool_decide (Ea1 Match ∈ IgnMain) || bool_decide (Ea2 Match ∈ IgnDiff)
      then final_items C P IgnMain IgnDiff l'
      else
        match MaxMain P !! Ea1 Match with
        | None => t ← liftR (AddrKeyText (Ea1 Match) ids);
                  throw (DiaphoraWouldRaise (B "D:2931 KeyError") t)
        | Some mm =>
            if dlt (Ratio Match) mm then final_items C P IgnMain IgnDiff l'
            else
              match MaxDiff P !! Ea2 Match with
              | None => t ← liftR (AddrKeyText (Ea2 Match) ids);
                        throw (DiaphoraWouldRaise (B "D:2933 KeyError") t)
              | Some md =>
                  if dlt (Ratio Match) md then final_items C P IgnMain IgnDiff l'
                  else
                    AddChooserItem (add_final C) Match;;
                    final_items C P IgnMain IgnDiff l'
              end
        end
  end.

(** find_multimatches and add_final_chooser_items on a cleaned state. *)
Definition distribute (st : MatchState) : M FinalResults unit :=
  P ← liftR (first_pass (SortedResults Best st ++ SortedResults Partial st
                         ++ SortedResults Unreliable st) EmptyFirst);
  s1 ← AddMultimatchesToChooser (MultiMain P) (MOrder (MultiMain P)) (∅, ∅);
  s2 ← AddMultimatchesToChooser (MultiDiff P) (MOrder (MultiDiff P)) (∅, s1.2);
  final_items Best P s1.1 s2.1 (SortedResults Best st);;
  final_items Partial P s1.1 s2.1 (SortedResults Partial st);;
  final_items Unreliable P s1.1 s2.1 (SortedResults Unreliable st).

Definition StageFinalPass : M (MatchState * FinalResults) unit :=
  fun '(st, F) =>
    match Cleanup ids st with
    | Throw e => ((st, F), Throw e)
    | Ok st' => let '(F', r) := distribute st' F in ((st', F'), r)
    end.
End Pass.
