(* ===== verification/SessionData.v ===== *)
(** * The data of a session (include/dsigmatcher/diff/Config.h, Pipeline.h,
      src/src/diff/stages/EarlyPasses.h, TiersDetail.h)

    The configuration, the flags the passes set, what the passes before the loop
    record on the way, the counters of the harness and the truncated heuristics. *)

From stdpp Require Import base numbers gmap list.
From Stdlib Require Import ZArith.
From S2P Require Import Prelude Dbl FinalPass.

(** ** Configuration and flags *)

Record DiffConfig := MkConfig {
  Unreliable_ : bool;
  RelaxedRatio : bool;
  Experimental : bool;
  SlowHeuristics : bool;
  UseTrainedModel : bool;
  IgnoreSubNames : bool;
  IgnoreAllNames : bool;
  IgnoreSmallFunctions : bool;
  CpuCount : Z;
  MaxProcessedRows_ : Z;
}.

Definition kSqlMaxProcessedRows : Z := 1000000.
Definition kSqlDefaultPostfix : text := B " and f.instructions > 5 and df.instructions > 5 ".

Definition DefaultConfig : DiffConfig :=
  MkConfig false false true true false true false false 1 kSqlMaxProcessedRows.

Definition Postfix (C : DiffConfig) : text := if IgnoreSmallFunctions C then kSqlDefaultPostfix else [].

Definition Supported (C : DiffConfig) : bool :=
  negb (Unreliable_ C) && negb (RelaxedRatio C) && Experimental C && SlowHeuristics C &&
  negb (UseTrainedModel C) && IgnoreSubNames C && negb (IgnoreAllNames C) &&
  (CpuCount C =? 1)%Z && (MaxProcessedRows_ C =? kSqlMaxProcessedRows)%Z.

(** [CBinDiff] attributes the passes set. *)
Record DiffFlags := MkFlags {
  IsSameProcessor : bool;
  IsPatchDiff : bool;
  IsSymbolsStripped : bool;
  HooksLoaded : bool;
}.

Definition NoFlags : DiffFlags := MkFlags false false false false.

(** [DiffSession::Mode]. *)
Definition ModeOf (F : DiffFlags) : byte :=
  if IsSymbolsStripped F then x53 else if IsPatchDiff F then x50 else x4e.

(** ** What the passes record *)

Record DirtyHeuristicFacts := MkDirty {
  Evaluated : bool;
  DirtyMatches : Z;
  DirtyTotal : Z;
  Percent : dbl;
  Fired : bool;
}.

Definition NoDirty : DirtyHeuristicFacts := MkDirty false 0 0 d0 false.

Record EarlyFacts := MkFacts {
  EqualDb : option bool;
  EqualRows : Z;
  Stripped : DirtyHeuristicFacts;
  Patch : DirtyHeuristicFacts;
  SameNameRows : Z;
  SameNameSkippedSub : Z;
  SameNameLoopRan : bool;
  RemainingMainUnmatched : nat;
  RemainingDiffUnmatched : nat;
  RemainingQueries : Z;
}.

Definition NoFacts : EarlyFacts := MkFacts None 0 NoDirty NoDirty 0 0 false 0 0 0.

(** A heuristic whose worker ended with an exception. *)
Record HeuristicTruncation := MkTruncation {
  TruncatedId : Z;
  TruncatedSite : text;
  TruncatedDetail : text;
}.

(** The lines of [cleanup_matches()] calls. *)
Inductive CleanupSite := L1551 | L2945 | L3185 | L3217 | L3340 | L3413 | L3471 | L3655 | L3671.

Definition site_line (s : CleanupSite) : Z :=
  match s with
  | L1551 => 1551 | L2945 => 2945 | L3185 => 3185 | L3217 => 3217 | L3340 => 3340
  | L3413 => 3413 | L3471 => 3471 | L3655 => 3655 | L3671 => 3671
  end.

#[export] Instance CleanupSite_eq_dec : EqDecision CleanupSite.
Proof. solve_decision. Defined.

(** The part of a session only the stages and the driver touch. *)
Record StageData := MkStageData {
  Facts : EarlyFacts;
  Final : FinalResults;
  PointSeq : Z;
  CleanupCounters : gmap Z Z;
  Iteration : option Z;
  Truncations : list HeuristicTruncation;
}.

Definition NoStageData : StageData := MkStageData NoFacts EmptyFinal 0 ∅ None [].

Definition set_Facts (f : EarlyFacts) (D : StageData) : StageData :=
  MkStageData f (Final D) (PointSeq D) (CleanupCounters D) (Iteration D) (Truncations D).
Definition set_Final (f : FinalResults) (D : StageData) : StageData :=
  MkStageData (Facts D) f (PointSeq D) (CleanupCounters D) (Iteration D) (Truncations D).
Definition set_PointSeq (n : Z) (D : StageData) : StageData :=
  MkStageData (Facts D) (Final D) n (CleanupCounters D) (Iteration D) (Truncations D).
Definition set_CleanupCounters (m : gmap Z Z) (D : StageData) : StageData :=
  MkStageData (Facts D) (Final D) (PointSeq D) m (Iteration D) (Truncations D).
Definition set_Iteration (i : option Z) (D : StageData) : StageData :=
  MkStageData (Facts D) (Final D) (PointSeq D) (CleanupCounters D) i (Truncations D).
Definition set_Truncations (l : list HeuristicTruncation) (D : StageData) : StageData :=
  MkStageData (Facts D) (Final D) (PointSeq D) (CleanupCounters D) (Iteration D) l.
