(* ===== verification/Consumer.v ===== *)
(** * Row consumers (src/src/diff/Consumer.cpp)

    [CheckMatch] filters a candidate row, [AddMatchesInternalImpl] and the
    [AddMatchesFrom*] wrappers drain a row source into the match state. The
    ratio engine with the patch-diff hook and the row source are interfaces
    ([Engine], [RowSource]); the session holds the interners, the match state,
    the routing stack of the row trace and the trace written so far. *)

From stdpp Require Import base numbers gmap sets list.
From Stdlib Require Import ZArith Lia.
From S2P Require Import Prelude Dbl Interner PyInt Snapshot MatchState SessionData.

Inductive Side := MainSide | DiffSide.

(** One candidate row (include/dsigmatcher/diff/Candidates.h). *)
Record HeuristicRow := MkRow {
  RowEa1 : AddrId;
  RowEa2 : AddrId;
  Row1 : Z;
  Row2 : Z;
  Side1 : Side;
  Side2 : Side;
  RowName1 : NameId;
  RowName2 : NameId;
  RowDesc : DescId;
  RowNodes1 : option Z;
  RowNodes2 : option Z;
  Md1 : option dbl;
  Md2 : option dbl;
}.

Inductive RowDecision :=
| Nullsub | HasBest | HasBetter | AcceptedBest | AcceptedPartial | BelowMin
| AcceptedUnreliable | Raised.

Inductive RoutingKind := Internal | FromQuery.

Record RoutingFrame := MkFrame {
  Which : RoutingKind;
  FramePartial : option Chooser;
  FrameVal : option dbl;
  UnreliableGiven : bool;
}.

Inductive TraceEvent :=
| RowEvent (Row : HeuristicRow) (Decision : RowDecision) (R : option dbl)
| AddMatchEvent (N1 N2 : NameId) (RatioArg : dbl) (It : Item) (C : option Chooser)
    (Result : AddMatchResult)
| PointEvent (Name : text) (Best Partial Unreliable : nat)
| CleanupEvent (Line N : Z) (Best Partial Unreliable : nat).

(** [DiffSession] without the databases, which no operation changes; [X] is the
    state of the ratio engine and of the hook. *)
Record Session (X : Type) := MkSession {
  Ids : Interners;
  State : MatchState;
  Frames : list RoutingFrame;
  Trace : list TraceEvent;
  Config : DiffConfig;
  Flags : DiffFlags;
  Stages : StageData;
  Ext : X;
}.
Arguments MkSession {X}.
Arguments Ids {X}.
Arguments State {X}.
Arguments Frames {X}.
Arguments Trace {X}.
Arguments Config {X}.
Arguments Flags {X}.
Arguments Stages {X}.
Arguments Ext {X}.

Section Setters.
Context {X : Type}.
Implicit Types S : Session X.
Definition with_ids (v : Interners) S : Session X :=
  MkSession v (State S) (Frames S) (Trace S) (Config S) (Flags S) (Stages S) (Ext S).
Definition with_state (v : MatchState) S : Session X :=
  MkSession (Ids S) v (Frames S) (Trace S) (Config S) (Flags S) (Stages S) (Ext S).
Definition with_frames (v : list RoutingFrame) S : Session X :=
  MkSession (Ids S) (State S) v (Trace S) (Config S) (Flags S) (Stages S) (Ext S).
Definition with_trace (v : list TraceEvent) S : Session X :=
  MkSession (Ids S) (State S) (Frames S) v (Config S) (Flags S) (Stages S) (Ext S).
Definition with_flags (v : DiffFlags) S : Session X :=
  MkSession (Ids S) (State S) (Frames S) (Trace S) (Config S) v (Stages S) (Ext S).
Definition with_stages (v : StageData) S : Session X :=
  MkSession (Ids S) (State S) (Frames S) (Trace S) (Config S) (Flags S) v (Ext S).
Definition with_ext (v : X) S : Session X :=
  MkSession (Ids S) (State S) (Frames S) (Trace S) (Config S) (Flags S) (Stages S) v.
End Setters.

Definition MaxProcessedRows {X} (S : Session X) : Z := MaxProcessedRows_ (Config S).

(** What the consumers need of the ratio engine ([IRatioProvider]) and of the
    patch-diff hook: stateful calls that may raise. *)
Class Engine (X : Type) := {
  CheckRatio : Interners -> DiffFlags -> HeuristicRow -> M X dbl;
  CompareFunctionRows : Interners -> DiffFlags -> Z -> Z -> M X dbl;
  PatchDiffHookOnMatch : Interners -> HeuristicRow -> dbl -> M X unit;
}.

(** A row source: [Next] may intern texts, may raise, and yields finitely many
    rows: [Remaining] bounds them. *)
Class RowSource (R : Type) := {
  Next : R -> Interners -> R * Interners * res (option HeuristicRow);
  Remaining : R -> nat;
  Next_decreases r ids r' ids' row :
    Next r ids = (r', ids', Ok (Some row)) -> Remaining r' < Remaining r;
}.

(** [VectorRowSource]: rows from memory. *)
Record VectorRowSource := MkVectorRowSource { Rows_ : list HeuristicRow; Next_ : nat }.

Definition vector_next (r : VectorRowSource) (ids : Interners)
    : VectorRowSource * Interners * res (option HeuristicRow) :=
  match Rows_ r !! Next_ r with
  | None => (r, ids, Ok None)
  | Some row => (MkVectorRowSource (Rows_ r) (Datatypes.S (Next_ r)), ids, Ok (Some row))
  end.

#[export] Program Instance VectorRowSource_source : RowSource VectorRowSource := {
  Next := vector_next;
  Remaining r := length (Rows_ r) - Next_ r;
}.
Next Obligation.
  intros [rows n] ids r' ids' row. unfold vector_next. simpl.
  destruct (rows !! n) eqn:E; [|done]. intros H. injection H as <- _ _. simpl.
  apply lookup_lt_Some in E. lia.
Qed.

Definition kDefaultPartialRatio : dbl := Eval vm_compute in dlit 1 2.

(** ** The operations *)

Section Consumer.
Context {X : Type} `{!Engine X}.

Definition TraceRow (Row : HeuristicRow) (D : RowDecision) (R : option dbl)
    : M (Session X) unit :=
  modify (fun S => with_trace (Trace S ++ [RowEvent Row D R]) S).

Definition push_frame (F : RoutingFrame) : M (Session X) unit :=
  modify (fun S => with_frames (Frames S ++ [F]) S).
Definition pop_frame (S : Session X) : Session X :=
  with_frames (take (length (Frames S) - 1) (Frames S)) S.

(** The destructor of [RoutingScope] pops on every way out. *)
Definition RoutingScope {A T} (lens : (Session X -> Session X) -> T -> T)
    (push : M T unit) (body : M T A) : M T A :=
  fun s =>
    match push s with
    | (s1, Throw e) => (s1, Throw e)
    | (s1, Ok _) => let '(s2, r) := body s1 in (lens pop_frame s2, r)
    end.

(** The decision of a frame for an accepted row. *)
Definition frame_decision (F : RoutingFrame) (R : dbl) : RowDecision :=
  match Which F with
  | FromQuery => AcceptedBest
  | Internal =>
      let Val := default kDefaultPartialRatio (FrameVal F) in
      if deq R d1 then AcceptedBest
      else if dge R Val && bool_decide (is_Some (FramePartial F)) then AcceptedPartial
      else if dlt R kDefaultPartialRatio && dgt R Val && UnreliableGiven F
      then AcceptedUnreliable
      else BelowMin
  end.

Definition AcceptedDecision (S : Session X) (R : dbl) : RowDecision :=
  match last (Frames S) with
  | None => if deq R d1 then AcceptedBest else AcceptedPartial
  | Some F => frame_decision F R
  end.

Definition NameStartsWith (Nm : NameId) (Prefix Site : text) : M (Session X) bool :=
  fun S => (S, StartsWith (Ids S) Nm Prefix Site).

Definition engine_call {A} (m : M X A) : M (Session X) A :=
  fun S => let '(x, r) := m (Ext S) in (with_ext x S, r).

Definition CheckMatchBody (Row : HeuristicRow) : M (Session X) (option dbl) :=
  n1 ← NameStartsWith (RowName1 Row) (B "nullsub_") (B "D:1846");
  nullsub ← (if n1 : bool then mret true
             else NameStartsWith (RowName2 Row) (B "nullsub_") (B "D:1846"));
  if nullsub : bool then TraceRow Row Nullsub None;; mret None
  else
    S ← get;
    if HasBestMatch (RowName1 Row) (RowName2 Row) (State S)
    then TraceRow Row HasBest None;; mret None
    else
      R ← engine_call (CheckRatio (Ids S) (Flags S) Row);
      S ← get;
      better ← liftR (HasBetterMatch (Ids S) (RowName1 Row) (RowName2 Row) R (State S));
      if better : bool then TraceRow Row HasBetter (Some R);; mret None
      else
        (if HooksLoaded (Flags S) then engine_call (PatchDiffHookOnMatch (Ids S) Row R)
         else mret tt);;
        S ← get;
        TraceRow Row (AcceptedDecision S R) (Some R);;
        mret (Some R).

(** [catch (const DiaphoraWouldRaise&)]: a [Raised] event, then rethrow. *)
Definition CheckMatch (Row : HeuristicRow) : M (Session X) (option dbl) :=
  fun S =>
    match CheckMatchBody Row S with
    | (S', Throw (DiaphoraWouldRaise Site Detail)) =>
        (TraceRow Row Raised None;; throw (DiaphoraWouldRaise Site Detail)) S'
    | other => other
    end.

Definition StrOfEa (Ea : AddrId) : M (Session X) AddrId :=
  if bool_decide (Ea = kNoneAddr) then
    fun S => let '(ids, a) := Addr (B "None") (Ids S) in (with_ids ids S, Ok a)
  else mret Ea.

Definition IntOfNodes (Nodes : option Z) (Site : text) : M (Session X) Z :=
  match Nodes with
  | Some n => mret n
  | None => throw (DiaphoraWouldRaise Site
      (B "TypeError: int() argument must be a string, a bytes-like object or a real number, not 'NoneType'"))
  end.

(** [DiffSession::State().AddMatch], with its trace event. *)
Definition SessionAddMatch (N1 N2 : NameId) (RatioArg : dbl) (It : Item) (C : option Chooser)
    : M (Session X) unit :=
  fun S =>
    match AddMatch (Ids S) N1 N2 RatioArg It C (State S) with
    | Throw e => (S, Throw e)
    | Ok (st, r) =>
        (with_trace (Trace S ++ [AddMatchEvent N1 N2 RatioArg It C r]) (with_state st S), Ok tt)
    end.

Definition RequirePyIntM (Ea : AddrId) (Site : text) : M (Session X) unit :=
  fun S => (S, RequirePyInt (Ids S) Ea Site).

(** The list an accepted row goes to (D:1925-1946). *)
Definition route (BestC : Chooser) (PartialC : option Chooser) (Val : option dbl)
    (UnrelGiven : bool) (R : dbl) : option (Chooser * text) :=
  let V := default kDefaultPartialRatio Val in
  let Target := if deq R d1 then Some BestC
                else if dge R V then PartialC else None in
  match Target with
  | Some c => Some (c, B "D:1935")
  | None => if dlt R kDefaultPartialRatio && dgt R V && UnrelGiven
            then Some (Unreliable, B "D:1943") else None
  end.

(** The loop body of [AddMatchesInternalImpl] after a successful fetch. *)
Definition internal_row (BestC : Chooser) (PartialC : option Chooser) (Val : option dbl)
    (UnrelGiven : bool) (Row : HeuristicRow) : M (Session X) unit :=
  R ← CheckMatch Row;
  match R with
  | None => mret tt
  | Some Rt =>
      Ea ← StrOfEa (RowEa1 Row);
      N1 ← IntOfNodes (RowNodes1 Row) (B "D:1915");
      N2 ← IntOfNodes (RowNodes2 Row) (B "D:1916");
      let It := MkItem Ea (RowName1 Row) (RowEa2 Row) (RowName2 Row) (RowDesc Row) Rt N1 N2 in
      match route BestC PartialC Val UnrelGiven Rt with
      | Some (c, Site) =>
          RequirePyIntM Ea Site;;
          SessionAddMatch (RowName1 Row) (RowName2 Row) Rt It (Some c)
      | None => mret tt
      end
  end.

(** The body of [AddMatchesFromQuery]'s loop after a successful fetch. *)
Definition query_row (Category : Chooser) (Row : HeuristicRow) : M (Session X) unit :=
  R ← CheckMatch Row;
  match R with
  | None => mret tt
  | Some _ =>
      Ea ← StrOfEa (RowEa1 Row);
      N1 ← IntOfNodes (RowNodes1 Row) (B "D:2071");
      N2 ← IntOfNodes (RowNodes2 Row) (B "D:2072");
      let It := MkItem Ea (RowName1 Row) (RowEa2 Row) (RowName2 Row) (RowDesc Row) d1 N1 N2 in
      SessionAddMatch (RowName1 Row) (RowName2 Row) d1 It (Some Category)
  end.

Context {R : Type} `{!RowSource R}.

(** The session together with the row source being drained. *)
Abbreviation T := (Session X * R)%type.

Definition on_session {A} (m : M (Session X) A) : M T A :=
  fun '(ss, r) => let '(ss', a) := m ss in ((ss', r), a).

Definition next_row : M T (option HeuristicRow) :=
  fun '(ss, r) => let '(r', ids, a) := Next r (Ids ss) in ((with_ids ids ss, r'), a).

(** [while (MaxRows != 0 && I < MaxRows)]. *)
Fixpoint internal_loop (fuel : nat) (MaxRows I : Z) (body : HeuristicRow -> M (Session X) unit)
    : M T unit :=
  match fuel with
  | O => mret tt
  | Datatypes.S fuel' =>
      if negb (MaxRows =? 0)%Z && (I <? MaxRows)%Z then
        row ← next_row;
        match row with
        | None => mret tt
        | Some Row => on_session (body Row);; internal_loop fuel' MaxRows (I + 1) body
        end
      else mret tt
  end.

(** [while (true)] until [Next] reports the end. *)
Fixpoint query_loop (fuel : nat) (body : HeuristicRow -> M (Session X) unit) : M T unit :=
  match fuel with
  | O => mret tt
  | Datatypes.S fuel' =>
      row ← next_row;
      match row with
      | None => mret tt
      | Some Row => on_session (body Row);; query_loop fuel' body
      end
  end.

Definition lens_fst (f : Session X -> Session X) (t : T) : T := (f t.1, t.2).

Definition AddMatchesInternalImpl (BestC : Chooser) (PartialC : option Chooser)
    (Val : option dbl) (UnrelGiven : bool) : M T unit :=
  RoutingScope lens_fst (on_session (push_frame (MkFrame Internal PartialC Val UnrelGiven)))
    (fun t => let MaxRows := MaxProcessedRows t.1 in
      internal_loop (Datatypes.S (Z.to_nat MaxRows)) MaxRows 0
        (internal_row BestC PartialC Val UnrelGiven) t).

Definition AddMatchesInternal (BestC : Chooser) (PartialC : option Chooser)
    (Val : option dbl) : M T unit :=
  AddMatchesInternalImpl BestC PartialC Val false.

(** [catch (const DiaphoraWouldRaise&) {}]. *)
Definition swallow (m : M T unit) : M T unit :=
  fun t => match m t with
           | (t', Throw (DiaphoraWouldRaise _ _)) => (t', Ok tt)
           | other => other
           end.

Definition AddMatchesFromQuery (Category : Chooser) : M T unit :=
  fun t =>
    if AllFunctionsMatched (State t.1) then (t, Ok tt)
    else RoutingScope lens_fst (on_session (push_frame (MkFrame FromQuery None None false)))
           (swallow (fun t => query_loop (Datatypes.S (Remaining t.2)) (query_row Category) t)) t.

Definition unless_all_matched (m : M T unit) : M T unit :=
  fun t => if AllFunctionsMatched (State t.1) then (t, Ok tt) else m t.

Definition AddMatchesFromQueryRatio (BestC PartialC : Chooser) : M T unit :=
  unless_all_matched (AddMatchesInternalImpl BestC (Some PartialC) None false).

Definition AddMatchesFromQueryRatioMax (BestC PartialC : Chooser) (V : dbl) : M T unit :=
  unless_all_matched (AddMatchesInternalImpl BestC (Some PartialC) (Some V) true).

Definition AddMatchesFromQueryRatioMaxTrusted (V : dbl) : M T unit :=
  unless_all_matched (AddMatchesInternalImpl Best (Some Partial) (Some V) true).
End Consumer.

(** ** What a row does to the session *)

(** Everything but the trace and the engine's own state is untouched. *)
Record same_session {X} (S S' : Session X) : Prop := {
  ss_ids : Ids S' = Ids S;
  ss_state : State S' = State S;
  ss_frames : Frames S' = Frames S;
  ss_flags : Flags S' = Flags S;
  ss_config : Config S' = Config S;
  ss_stages : Stages S' = Stages S;
}.

Lemma same_session_refl {X} (S : Session X) : same_session S S.
Proof. by split. Qed.
Lemma same_session_trans {X} (S1 S2 S3 : Session X) :
  same_session S1 S2 -> same_session S2 S3 -> same_session S1 S3.
Proof. intros [] []. split; congruence. Qed.

Definition is_would_raise (e : exn) : bool :=
  match e with DiaphoraWouldRaise _ _ => true | _ => false end.

(** The events one [CheckMatch] call writes, given its outcome. *)
Definition check_events {X} (S : Session X) (Row : HeuristicRow) (r : res (option dbl))
    (events : list TraceEvent) : Prop :=
  match r with
  | Ok (Some R) => events = [RowEvent Row (AcceptedDecision S R) (Some R)]
  | Ok None => events = [RowEvent Row Nullsub None] \/ events = [RowEvent Row HasBest None] \/
               exists R, events = [RowEvent Row HasBetter (Some R)]
  | Throw e => if is_would_raise e then events = [RowEvent Row Raised None] else events = []
  end.

Section CheckMatchFacts.
Context {X : Type} `{!Engine X}.

(** The body writes its event last: a raise comes before any event. *)
Lemma CheckMatchBody_outcome (Row : HeuristicRow) (S S' : Session X) r :
  CheckMatchBody Row S = (S', r) ->
  same_session S S' /\
  match r with
  | Throw _ => Trace S' = Trace S
  | Ok _ => exists ev, Trace S' = Trace S ++ ev /\ check_events S Row r ev
  end.
Proof.
  unfold CheckMatchBody, NameStartsWith, liftR, get, engine_call.
  unfold mbind, M_bind, mret, M_ret, TraceRow, modify.
  destruct (StartsWith (Ids S) (RowName1 Row) _ _) as [[]|e].
  1: { intros [= <- <-]. split; [by split|]. eexists. split; [done|]. by left. }
  2: { intros [= <- <-]. by split; [split|]. }
  destruct (StartsWith (Ids S) (RowName2 Row) _ _) as [[]|e].
  1: { intros [= <- <-]. split; [by split|]. eexists. split; [done|]. by left. }
  2: { intros [= <- <-]. by split; [split|]. }
  destruct (HasBestMatch _ _ _).
  { intros [= <- <-]. split; [by split|]. eexists. split; [done|]. by right; left. }
  destruct (CheckRatio (Ids S) (Flags S) Row (Ext S)) as [x [R|e]]; [|intros [= <- <-]; by split; [split|]].
  simpl. destruct (HasBetterMatch _ _ _ _ _) as [[]|e].
  - intros [= <- <-]. split; [by split|]. eexists. split; [done|]. right; right. by exists R.
  - simpl. destruct (HooksLoaded (Flags S)); simpl.
    + destruct (PatchDiffHookOnMatch (Ids S) Row R x) as [x' [u|e]].
      * simpl. intros [= <- <-]. split; [by split|]. by eexists.
      * simpl. intros [= <- <-]. split; [by split|done].
    + simpl. intros [= <- <-]. split; [by split|]. by eexists.
  - intros [= <- <-]. split; [by split|done].
Qed.

(** A call of [CheckMatch] never changes the match state, the interners
    or the routing, and writes exactly one row event that tells its outcome:
    the rejection, the caller's routing of the accepted ratio, or [Raised]
    when a Python exception leaves it; a native refusal writes none. *)
Theorem CheckMatch_one_event (Row : HeuristicRow) (S S' : Session X) r :
  CheckMatch Row S = (S', r) ->
  same_session S S' /\ exists ev, Trace S' = Trace S ++ ev /\ check_events S Row r ev.
Proof.
  unfold CheckMatch. destruct (CheckMatchBody Row S) as [S1 r1] eqn:E.
  apply CheckMatchBody_outcome in E as [Hs Ht].
  destruct r1 as [a|[]]; try (intros [= <- <-]; split; [done|]; try done;
    exists []; rewrite Ht, app_nil_r; by split).
  intros [= <- <-]. simpl. split; [by eapply same_session_trans|].
  eexists. split; [by rewrite Ht|done].
Qed.
End CheckMatchFacts.
