(* ===== verification/ConsumerLoops.v ===== *)
(** * The consumer loops (src/src/diff/Consumer.cpp)

    The routing of accepted rows, the events of one row, and the equivalence of
    the loops with running the row body over a list. *)

From stdpp Require Import base numbers gmap sets list.
From Stdlib Require Import ZArith Lia.
From S2P Require Import Prelude Dbl Interner PyInt Snapshot MatchState Consumer.

(** ** The trace decision and the routing agree *)

(** The list each decision of an [Internal] frame stands for. *)
Definition decision_target (BestC : Chooser) (PartialC : option Chooser) (D : RowDecision)
    : option Chooser :=
  match D with
  | AcceptedBest => Some BestC
  | AcceptedPartial => PartialC
  | AcceptedUnreliable => Some Unreliable
  | _ => None
  end.

Lemma route_decision BestC PartialC Val U R :
  fst <$> route BestC PartialC Val U R =
  decision_target BestC PartialC (frame_decision (MkFrame Internal PartialC Val U) R).
Proof.
  unfold route, frame_decision. simpl. set (V := default kDefaultPartialRatio Val).
  destruct (deq R d1); [done|].
  destruct (dge R V) eqn:Ege; destruct PartialC as [p|]; simpl; try done.
  all: by destruct (dlt R kDefaultPartialRatio && dgt R V && U).
Qed.

(** with a [partial] list the [unreliable] argument is dead: it changes
    neither the list a row goes to nor the decision the trace records. *)
Theorem unreliable_branch_dead BestC p Val R :
  route BestC (Some p) Val true R = route BestC (Some p) Val false R /\
  frame_decision (MkFrame Internal (Some p) Val true) R
  = frame_decision (MkFrame Internal (Some p) Val false) R.
Proof.
  unfold route, frame_decision. simpl. set (V := default kDefaultPartialRatio Val).
  destruct (deq R d1); [done|]. destruct (dge R V) eqn:Ege; [done|]. simpl.
  assert (Hgt : dgt R V = false).
  { destruct (is_nan R) eqn:Hn; [apply dlt_nan; auto|].
    destruct (is_nan V) eqn:Hv; [apply dlt_nan; auto|]. dbl_order. }
  by rewrite Hgt, andb_false_r.
Qed.

(** ** One row of [AddMatchesInternalImpl] *)

Definition is_add (ev : TraceEvent) : bool :=
  match ev with AddMatchEvent _ _ _ _ _ _ => true | _ => false end.

Section Rows.
Context {X : Type} `{!Engine X}.

Lemma CheckMatch_session (Row : HeuristicRow) (S S' : Session X) r :
  CheckMatch Row S = (S', r) -> same_session S S'.
Proof.
  unfold CheckMatch. destruct (CheckMatchBody Row S) as [S1 r1] eqn:E.
  apply CheckMatchBody_outcome in E as [Hs _].
  destruct r1 as [a|[]]; intros [= <- <-]; try done. by eapply same_session_trans.
Qed.

Lemma CheckMatch_trace (Row : HeuristicRow) (S S' : Session X) r :
  CheckMatch Row S = (S', Ok r) ->
  exists ev, Trace S' = Trace S ++ ev /\ check_events S Row (Ok r) ev.
Proof.
  unfold CheckMatch. destruct (CheckMatchBody Row S) as [S1 r1] eqn:E.
  apply CheckMatchBody_outcome in E as [_ Ht].
  by destruct r1 as [a|[]]; intros [= <- <-].
Qed.

(** What a completed row adds to the trace. *)
Definition row_events BestC PartialC (Row : HeuristicRow) (ev : list TraceEvent) : Prop :=
  exists D r, head ev = Some (RowEvent Row D r) /\
  match decision_target BestC PartialC D with
  | None => length ev = 1
  | Some c => exists R It res, r = Some R /\
      ev = [RowEvent Row D r; AddMatchEvent (RowName1 Row) (RowName2 Row) R It (Some c) res] /\
      Ratio It = R /\ Name1 It = RowName1 Row /\ Name2 It = RowName2 Row /\ Ea2 It = RowEa2 Row
  end.

Lemma StrOfEa_trace Ea (S S' : Session X) r :
  StrOfEa Ea S = (S', r) ->
  Trace S' = Trace S /\ Frames S' = Frames S /\ State S' = State S.
Proof.
  unfold StrOfEa. case_bool_decide; [|by intros [= <- <-]].
  destruct (Addr _ _). by intros [= <- <-].
Qed.

(** a row that [AddMatchesInternalImpl] consumes without an exception
    writes one row event, followed by exactly one [add_match] event when the
    decision is an acceptance: with the list that decision names and the
    ratio the engine computed; a rejected row adds nothing. *)
Theorem internal_row_trace BestC PartialC Val U Row (S S' : Session X) :
  last (Frames S) = Some (MkFrame Internal PartialC Val U) ->
  internal_row BestC PartialC Val U Row S = (S', Ok tt) ->
  exists ev, Trace S' = Trace S ++ ev /\ row_events BestC PartialC Row ev.
Proof.
  intros HF. unfold internal_row, mbind, M_bind.
  destruct (CheckMatch Row S) as [S1 [a|e]] eqn:Ec; [|done].
  destruct (CheckMatch_trace _ _ _ _ Ec) as (ev & Ht & Hev).
  destruct a as [R|]; simpl in Hev.
  2: { intros [= <-]. exists ev. split; [done|].
       destruct Hev as [->|[->|[r ->]]]; by eexists _, _. }
  unfold AcceptedDecision in Hev. rewrite HF in Hev. subst ev.
  destruct (StrOfEa (RowEa1 Row) S1) as [S2 [Ea|e]] eqn:Ee; [|done].
  destruct (StrOfEa_trace _ _ _ _ Ee) as (Ht2 & _ & _).
  unfold IntOfNodes. destruct (RowNodes1 Row); simpl; [|done].
  destruct (RowNodes2 Row); simpl; [|done].
  pose proof (route_decision BestC PartialC Val U R) as Hr.
  destruct (route BestC PartialC Val U R) as [[c Site]|]; simpl in Hr.
  - destruct (RequirePyInt (Ids S2) Ea Site) as [[]|e]; simpl; [|done].
    unfold SessionAddMatch. destruct (AddMatch _ _ _ _ _ _ _) as [[st res]|e]; [|done].
    intros [= <-]. simpl. rewrite Ht2, Ht, <- app_assoc. eexists. split; [done|].
    eexists _, (Some R). split; [done|]. rewrite <- Hr. by eexists _, _, _.
  - intros [= <-]. rewrite Ht2, Ht. eexists. split; [done|].
    eexists _, (Some R). split; [done|]. by rewrite <- Hr.
Qed.
End Rows.

(** ** Loops and lists of rows *)

Section Lists.
Context {X : Type} `{!Engine X}.

(** The row body on each row in turn, up to the first exception. *)
Fixpoint run_rows (body : HeuristicRow -> M (Session X) unit) (rows : list HeuristicRow)
    : M (Session X) unit :=
  match rows with
  | [] => mret tt
  | Row :: rows' => body Row;; run_rows body rows'
  end.

Definition session_result {R A} (p : Session X * R * res A) : Session X * res A :=
  (p.1.1, p.2).

Lemma vector_next_row (S : Session X) rows n :
  next_row (S, MkVectorRowSource rows n) =
  match rows !! n with
  | None => ((S, MkVectorRowSource rows n), Ok None)
  | Some Row => ((S, MkVectorRowSource rows (Datatypes.S n)), Ok (Some Row))
  end.
Proof.
  unfold next_row. simpl. unfold vector_next. simpl.
  destruct (rows !! n); by destruct S.
Qed.

Lemma internal_loop_rows fuel MaxRows I body rows n (S : Session X) :
  (Z.to_nat (MaxRows - I) <= fuel)%nat -> (0 <= I)%Z ->
  session_result (internal_loop fuel MaxRows I body (S, MkVectorRowSource rows n))
  = run_rows body (take (Z.to_nat (MaxRows - I)) (drop n rows)) S.
Proof.
  revert I n S. induction fuel as [|fuel IH]; intros I n S Hf HI.
  { replace (Z.to_nat (MaxRows - I)) with 0 by lia. by destruct (drop n rows). }
  cbn [internal_loop]. destruct (negb (MaxRows =? 0)%Z && (I <? MaxRows)%Z) eqn:Eg.
  2: { assert (Z.to_nat (MaxRows - I) = 0) as -> by (apply andb_false_iff in Eg as [Eg|Eg];
         bool_props; lia). by destruct (drop n rows). }
  bool_props. replace (Z.to_nat (MaxRows - I)) with (Datatypes.S (Z.to_nat (MaxRows - (I + 1)))) by lia.
  unfold mbind at 1, M_bind at 1. rewrite vector_next_row.
  destruct (rows !! n) as [Row|] eqn:En.
  - rewrite (drop_S _ _ _ En). simpl. unfold mbind, M_bind, on_session.
    destruct (body Row S) as [S1 [[]|e]]; [|done]. apply IH; lia.
  - rewrite drop_ge by by apply lookup_ge_None. done.
Qed.

Lemma query_loop_rows fuel body rows n (S : Session X) :
  (length rows - n < fuel)%nat ->
  session_result (query_loop fuel body (S, MkVectorRowSource rows n))
  = run_rows body (drop n rows) S.
Proof.
  revert n S. induction fuel as [|fuel IH]; intros n S Hf; [lia|].
  cbn [query_loop]. unfold mbind at 1, M_bind at 1. rewrite vector_next_row.
  destruct (rows !! n) as [Row|] eqn:En.
  - pose proof (lookup_lt_Some _ _ _ En).
    rewrite (drop_S _ _ _ En). simpl. unfold mbind, M_bind, on_session.
    destruct (body Row S) as [S1 [[]|e]]; [|done]. apply IH. lia.
  - by rewrite drop_ge by by apply lookup_ge_None.
Qed.

Definition pushed (F : RoutingFrame) (S : Session X) : Session X :=
  with_frames (Frames S ++ [F]) S.

(** [AddMatchesInternalImpl] on rows in memory runs the row body on the
    first [MaxProcessedRows] rows still to be read, rejected rows counted
    (none when the cap is 0 or negative), stops at the first exception, and
    pops its routing frame on every way out. *)
Theorem internal_processes_capped_rows b p v u rows n (S : Session X) :
  session_result (AddMatchesInternalImpl b p v u (S, MkVectorRowSource rows n)) =
  let '(S', q) := run_rows (internal_row b p v u)
      (take (Z.to_nat (MaxProcessedRows S)) (drop n rows))
      (pushed (MkFrame Internal p v u) S) in
  (pop_frame S', q).
Proof.
  unfold AddMatchesInternalImpl, RoutingScope, push_frame, modify. cbn [on_session].
  fold (pushed (MkFrame Internal p v u) S).
  set (S1 := pushed _ S). cbn [fst].
  pose proof (internal_loop_rows (Datatypes.S (Z.to_nat (MaxProcessedRows S1)))
    (MaxProcessedRows S1) 0 (internal_row b p v u) rows n S1) as H.
  rewrite Z.sub_0_r in H. change (MaxProcessedRows S) with (MaxProcessedRows S1).
  rewrite <- H by lia. by destruct (internal_loop _ _ _ _ _) as [[S2 r2] q2].
Qed.

(** [AddMatchesFromQuery] does nothing when every function is matched;
    otherwise it runs its body over all rows without a cap, and a Python
    exception ends it silently with the effects made so far kept, while any
    other exception leaves it. *)
Theorem query_keeps_earlier_adds C rows n (S : Session X) :
  session_result (AddMatchesFromQuery C (S, MkVectorRowSource rows n)) =
  if AllFunctionsMatched (State S) then (S, Ok tt)
  else
    let '(S', q) := run_rows (query_row C) (drop n rows)
                      (pushed (MkFrame FromQuery None None false) S) in
    (pop_frame S', match q with
                   | Throw e => if is_would_raise e then Ok tt else Throw e
                   | Ok u => Ok u
                   end).
Proof.
  unfold AddMatchesFromQuery. cbn [fst]. destruct (AllFunctionsMatched _); [done|].
  unfold RoutingScope, push_frame, modify. cbn [on_session].
  fold (pushed (MkFrame FromQuery None None false) S). set (S1 := pushed _ S).
  unfold swallow. cbn [fst snd Remaining VectorRowSource_source Rows_ Next_].
  pose proof (query_loop_rows (Datatypes.S (length rows - n)) (query_row C) rows n S1) as H.
  rewrite <- H by lia.
  destruct (query_loop _ _ _) as [[S2 r2] [[]|[]]]; done.
Qed.

(** the fuel of the consumer loops never decides: any fuel above the
    rows the cap still allows (or above the rows that remain) gives the same
    run, for every row source. *)
Theorem loop_fuel_irrelevant {R} `{!RowSource R} (body : HeuristicRow -> M (Session X) unit)
    (t : Session X * R) (f g : nat) (MaxRows I : Z) :
  (Z.to_nat (MaxRows - I) < f -> Z.to_nat (MaxRows - I) < g ->
   internal_loop f MaxRows I body t = internal_loop g MaxRows I body t) /\
  (Remaining t.2 < f -> Remaining t.2 < g -> query_loop f body t = query_loop g body t).
Proof.
  split.
  - revert g I t. induction f as [|f IH]; intros g I t Hf Hg; [lia|].
    destruct g as [|g]; [lia|]. cbn [internal_loop]. destruct (_ && _) eqn:Eg; [|done].
    bool_props. unfold mbind, M_bind. destruct (next_row t) as [t1 [[Row|]|e]]; try done.
    destruct (on_session (body Row) t1) as [t2 [u|e]]; [|done]. apply IH; lia.
  - revert g t. induction f as [|f IH]; intros g t Hf Hg; [lia|].
    destruct g as [|g]; [lia|]. cbn [query_loop].
    unfold mbind, M_bind. destruct t as [S r]. unfold next_row.
    destruct (Next r (Ids S)) as [[r' ids] [[Row|]|e]] eqn:En; try done.
    pose proof (Next_decreases _ _ _ _ _ En). simpl in *. unfold on_session.
    destruct (body Row _) as [S2 [u|e]]; [|done]. apply IH; simpl; lia.
Qed.
End Lists.
