(* ===== verification/FinalPassSpec.v ===== *)
(** * Correctness of the final pass (src/src/diff/FinalPass.cpp)

    The invariants of the two dict passes, and the theorem that the stage
    returns: no [KeyError] is reachable, the result choosers hold the items
    whose ratio is maximal for both addresses, and the multimatch chooser holds
    each address pair once. *)

From stdpp Require Import base numbers gmap sets list sorting.
From Stdlib Require Import ZArith Lia.
From S2P Require Import Prelude Dbl Interner PyInt Snapshot MatchState MatchStateSpec FinalPass.

(** ** Keys *)

Definition ea_key (ids : Interners) (It : Item) : text :=
  match EaPairKey ids (Ea1 It) (Ea2 It) with Ok k => k | Throw _ => [] end.

(** An address as the exporter writes it: an integer literal without a minus
    sign (in particular a decimal number). *)
Definition plain_addr (ids : Interners) (A : AddrId) : Prop :=
  A <> kNoneAddr /\ exists t, AddrText A ids = Ok t /\ (x2d ∉ t) /\
    IsAscii t = true /\ py_int_literal t.

Definition plain_item (ids : Interners) (It : Item) : Prop :=
  plain_addr ids (Ea1 It) /\ plain_addr ids (Ea2 It).

Lemma AddrKeyText_plain ids A t :
  A <> kNoneAddr -> AddrText A ids = Ok t -> AddrKeyText A ids = Ok t.
Proof. intros H. unfold AddrText, AddrKeyText. by rewrite !bool_decide_false. Qed.

Lemma EaPairKey_plain ids It :
  plain_item ids It -> EaPairKey ids (Ea1 It) (Ea2 It) = Ok (ea_key ids It).
Proof.
  intros [[N1 (t1 & H1 & _)] [N2 (t2 & H2 & _)]]. unfold ea_key, EaPairKey.
  by rewrite (AddrKeyText_plain _ _ _ N1 H1), (AddrKeyText_plain _ _ _ N2 H2).
Qed.

Lemma ea_key_inj ids a b :
  wf_ids ids -> plain_item ids a -> plain_item ids b ->
  ea_key ids a = ea_key ids b -> Ea1 a = Ea1 b /\ Ea2 a = Ea2 b.
Proof.
  intros Hwf Ha Hb. pose proof (EaPairKey_plain _ _ Ha) as Ka.
  pose proof (EaPairKey_plain _ _ Hb) as Kb. intros E.
  destruct Ha as [[N1 (t1 & H1 & D1 & _)] [N2 (t2 & H2 & D2 & _)]].
  destruct Hb as [[N3 (t3 & H3 & D3 & _)] [N4 (t4 & H4 & D4 & _)]].
  unfold EaPairKey in Ka, Kb.
  rewrite (AddrKeyText_plain _ _ _ N1 H1), (AddrKeyText_plain _ _ _ N2 H2) in Ka.
  rewrite (AddrKeyText_plain _ _ _ N3 H3), (AddrKeyText_plain _ _ _ N4 H4) in Kb.
  cbn in Ka, Kb. simplify_eq. rewrite <- Ka, <- Kb in E.
  apply split_at_unique in E as [-> ->]; [|done|done].
  split; by eapply AddrText_inj.
Qed.

Lemma RequirePyInt_plain ids A Site : plain_addr ids A -> RequirePyInt ids A Site = Ok tt.
Proof.
  intros [N (t & Ht & _ & Ha & Hp)]. unfold RequirePyInt. rewrite bool_decide_false, Ht by done.
  simpl. apply PyIntAsciiAccepts_spec in Hp. by rewrite Ha, Hp.
Qed.

(** ** The first pass *)

Section First.
Context (ids : Interners).

Definition first_step (P : FirstPass) (It : Item) : FirstPass :=
  first_item (ea_key ids It) It P.

Definition first_run (l : list Item) (P : FirstPass) : FirstPass := fold_left first_step l P.

Lemma first_pass_run l P :
  Forall (plain_item ids) l -> first_pass ids l P = Ok (first_run l P).
Proof.
  intros Hl. revert P. induction Hl as [|x l Hx Hl IH]; intros P; simpl; [done|].
  rewrite EaPairKey_plain by done. simpl. by rewrite IH.
Qed.

(** The ratio maps only hold ratios of items, and never decrease. *)
Definition le_map (m m' : gmap AddrId dbl) : Prop :=
  forall a r, m !! a = Some r -> exists r', m' !! a = Some r' /\ dgt r r' = false.

Definition numbers_in (Q : list Item) (proj : Item -> AddrId) (m : gmap AddrId dbl) : Prop :=
  forall a r, m !! a = Some r -> exists x, x ∈ Q /\ proj x = a /\ Ratio x = r.

(** The lists of a multi dict hold items of their address. *)
Definition multi_ok (Q : list Item) (proj : Item -> AddrId) (d : MultiDict) : Prop :=
  (forall a, a ∈ MOrder d -> is_Some (MMap d !! a)) /\
  (forall a l, MMap d !! a = Some l -> Forall (fun x => x ∈ Q /\ proj x = a) l).

(** [t] speaks for its key: what its visit left behind. *)
Definition visited (P : FirstPass) (t : Item) : Prop :=
  exists r, MaxMain P !! Ea1 t = Some r /\ dgt (Ratio t) r = false /\
    (dgt r (Ratio t) = false -> is_Some (MaxDiff P !! Ea2 t)).

Record first_inv (Q : list Item) (P : FirstPass) : Prop := {
  fi_dones k : k ∈ FDones P <-> exists x, x ∈ Q /\ ea_key ids x = k;
  fi_visited a x b : Q = a ++ x :: b ->
    exists t, t ∈ a ++ [x] /\ ea_key ids t = ea_key ids x /\ visited P t;
  fi_main : numbers_in Q Ea1 (MaxMain P);
  fi_diff : numbers_in Q Ea2 (MaxDiff P);
  fi_multi_main : multi_ok Q Ea1 (MultiMain P);
  fi_multi_diff : multi_ok Q Ea2 (MultiDiff P);
}.

Lemma first_inv_empty : first_inv [] EmptyFirst.
Proof.
  assert (Hm : forall p, multi_ok [] p EmptyMulti).
  { split; simpl; [intros a H; by apply elem_of_nil in H|].
    intros a l. by rewrite lookup_empty. }
  split; simpl; try done; try (intros a r; by rewrite lookup_empty).
  - intros k. split; [set_solver|]. intros (x & H & _). by apply elem_of_nil in H.
  - intros [|] ? ? ?; discriminate.
Qed.

Lemma numbers_in_mono Q Q' p m :
  (forall x, x ∈ Q -> x ∈ Q') -> numbers_in Q p m -> numbers_in Q' p m.
Proof. intros Hs H a r Ha. destruct (H a r Ha) as (x & ? & ? & ?). eauto. Qed.

Lemma multi_ok_mono Q Q' p d :
  (forall x, x ∈ Q -> x ∈ Q') -> multi_ok Q p d -> multi_ok Q' p d.
Proof.
  intros Hs [H1 H2]. split; [done|]. intros a l Ha.
  eapply Forall_impl; [by apply H2|]. intros x [? ?]. auto.
Qed.

Lemma multi_ok_append Q p d x :
  x ∈ Q -> multi_ok Q p d -> multi_ok Q p (MultiAppend (p x) x d).
Proof.
  intros Hx [H1 H2]. unfold MultiAppend.
  destruct (MMap d !! p x) as [l|] eqn:E; split; simpl.
  - intros a Ha. destruct (decide (p x = a)) as [<-|].
    + rewrite lookup_insert_eq. eauto.
    + rewrite lookup_insert_ne by done. auto.
  - intros a k. destruct (decide (p x = a)) as [<-|].
    + rewrite lookup_insert_eq. intros [= <-]. apply Forall_app. split; [by apply H2|].
      by apply Forall_singleton.
    + rewrite lookup_insert_ne by done. apply H2.
  - intros a Ha. apply elem_of_app in Ha. rewrite list_elem_of_singleton in Ha.
    destruct (decide (p x = a)) as [<-|].
    + rewrite lookup_insert_eq. eauto.
    + rewrite lookup_insert_ne by done. destruct Ha; [auto|by subst].
  - intros a k. destruct (decide (p x = a)) as [<-|].
    + rewrite lookup_insert_eq. intros [= <-]. by apply Forall_singleton.
    + rewrite lookup_insert_ne by done. apply H2.
Qed.

(** The update of a maximum: either it is greater already, or it becomes [R]. *)
Lemma max_update_spec a R m :
  match max_update a R m with
  | None => exists r, m !! a = Some r /\ dgt r R = true
  | Some m' => m' = <[a := R]> m /\ forall r, m !! a = Some r -> dgt r R = false
  end.
Proof.
  unfold max_update. destruct (m !! a) as [r|] eqn:E.
  - destruct (dgt r R) eqn:Eg; [eauto|]. split; [done|]. intros r' [= <-]. done.
  - unfold dgt. rewrite dlt_irrefl. split; [done|]. by intros r [=].
Qed.

Lemma numbers_in_update Q p x m :
  x ∈ Q -> numbers_in Q p m -> numbers_in Q p (<[p x := Ratio x]> m).
Proof.
  intros Hx H a r. destruct (decide (p x = a)) as [<-|].
  - rewrite lookup_insert_eq. intros [= <-]. eauto.
  - rewrite lookup_insert_ne by done. apply H.
Qed.

Lemma le_map_update (m : gmap AddrId dbl) a R :
  (forall r, m !! a = Some r -> dgt r R = false) -> le_map m (<[a := R]> m).
Proof.
  intros H b r Hb. destruct (decide (a = b)) as [<-|].
  - rewrite lookup_insert_eq. exists R. split; [done|]. by apply H.
  - rewrite lookup_insert_ne by done. exists r. split; [done|]. apply dlt_irrefl.
Qed.

Lemma le_map_refl m : le_map m m.
Proof. intros a r H. exists r. split; [done|]. apply dlt_irrefl. Qed.

Lemma visited_mono Q P P' t :
  Forall has_number Q -> numbers_in Q Ea1 (MaxMain P) -> numbers_in Q Ea1 (MaxMain P') ->
  has_number t ->
  le_map (MaxMain P) (MaxMain P') ->
  (forall a, is_Some (MaxDiff P !! a) -> is_Some (MaxDiff P' !! a)) ->
  visited P t -> visited P' t.
Proof.
  intros Hn Hm Hm' Ht Hle Hd (r & Hr & Hg & Hi). rewrite Forall_forall in Hn.
  destruct (Hle _ _ Hr) as (r' & Hr' & Hrr).
  assert (is_nan r = false) by (destruct (Hm _ _ Hr) as (y & ? & _ & <-); by apply Hn).
  assert (is_nan r' = false) by (destruct (Hm' _ _ Hr') as (y & ? & _ & <-); by apply Hn).
  unfold has_number in Ht. exists r'. split; [done|]. split; [dbl_order|].
  intros Hg'. apply Hd, Hi. dbl_order.
Qed.

Lemma in_snoc_l (Q : list Item) x y : y ∈ Q -> y ∈ Q ++ [x].
Proof. rewrite elem_of_app. auto. Qed.
Lemma in_snoc_r (Q : list Item) x : x ∈ Q ++ [x].
Proof. rewrite elem_of_app, list_elem_of_singleton. auto. Qed.

(** A visit that adds the key and leaves [x] visited keeps the invariant. *)
Lemma first_inv_snoc Q P P' x :
  first_inv Q P -> Forall has_number (Q ++ [x]) ->
  FDones P' = {[ ea_key ids x ]} ∪ FDones P ->
  le_map (MaxMain P) (MaxMain P') ->
  (forall a, is_Some (MaxDiff P !! a) -> is_Some (MaxDiff P' !! a)) ->
  numbers_in (Q ++ [x]) Ea1 (MaxMain P') -> numbers_in (Q ++ [x]) Ea2 (MaxDiff P') ->
  multi_ok (Q ++ [x]) Ea1 (MultiMain P') -> multi_ok (Q ++ [x]) Ea2 (MultiDiff P') ->
  visited P' x -> first_inv (Q ++ [x]) P'.
Proof.
  intros Hi Hn HD Hle Hdom Hm Hd Hmm Hmd Hv. split; try done.
  - intros k. rewrite HD, elem_of_union, elem_of_singleton, (fi_dones _ _ Hi). split.
    + intros [->|(y & ? & ?)]; [exists x|exists y]; auto using in_snoc_l, in_snoc_r.
    + intros (y & Hy & <-). apply elem_of_app in Hy. rewrite list_elem_of_singleton in Hy.
      destruct Hy as [| ->]; eauto.
  - intros a y b H. destruct (snoc_split _ _ _ _ _ H) as [[-> ->]|[b' Hb]].
    + exists x. split; [apply in_snoc_r|done].
    + destruct (fi_visited _ _ Hi _ _ _ Hb) as (t & Ht & Hk & Hvt).
      exists t. split; [done|]. split; [done|].
      apply (visited_mono (Q ++ [x]) P); try done.
      * eapply numbers_in_mono; [|apply Hi]. apply in_snoc_l.
      * rewrite Forall_forall in Hn. apply Hn, in_snoc_l. subst Q.
        apply elem_of_app in Ht. rewrite list_elem_of_singleton in Ht.
        rewrite elem_of_app, elem_of_cons. destruct Ht as [| ->]; auto.
Qed.

Lemma first_inv_step Q P x :
  first_inv Q P -> Forall has_number (Q ++ [x]) -> first_inv (Q ++ [x]) (first_step P x).
Proof.
  intros Hi Hn. assert (Hl := in_snoc_l Q x). assert (Hr := in_snoc_r Q x).
  assert (Hx : has_number x) by (rewrite Forall_forall in Hn; auto).
  assert (Hm := numbers_in_mono _ _ _ _ Hl (fi_main _ _ Hi)).
  assert (Hd := numbers_in_mono _ _ _ _ Hl (fi_diff _ _ Hi)).
  assert (Hmm := multi_ok_mono _ _ _ _ Hl (fi_multi_main _ _ Hi)).
  assert (Hmd := multi_ok_mono _ _ _ _ Hl (fi_multi_diff _ _ Hi)).
  unfold first_step, first_item. case_bool_decide as Hk.
  { split; try done.
    - intros k. rewrite (fi_dones _ _ Hi). split.
      + intros (y & ? & ?). eauto.
      + intros (y & Hy & <-). apply elem_of_app in Hy. rewrite list_elem_of_singleton in Hy.
        destruct Hy as [| ->]; [eauto|]. by apply (fi_dones _ _ Hi).
    - intros a y b H. destruct (snoc_split _ _ _ _ _ H) as [[-> ->]|[b' Hb]];
        [|by eapply (fi_visited _ _ Hi)].
      apply (fi_dones _ _ Hi) in Hk as (z & Hz & Ez).
      apply list_elem_of_split in Hz as (a1 & b1 & ->).
      destruct (fi_visited _ _ Hi a1 z b1 eq_refl) as (t & Ht & Hkt & Hv).
      exists t. split; [|split; [congruence|done]]. apply in_snoc_l.
      apply elem_of_app in Ht. rewrite list_elem_of_singleton in Ht.
      rewrite elem_of_app, elem_of_cons. destruct Ht as [| ->]; auto. }
  pose proof (max_update_spec (Ea1 x) (Ratio x) (MaxMain P)) as Hu.
  destruct (max_update (Ea1 x) (Ratio x) (MaxMain P)) as [mm|].
  - destruct Hu as [-> Hu].
    pose proof (max_update_spec (Ea2 x) (Ratio x) (MaxDiff P)) as Hu2.
    destruct (max_update (Ea2 x) (Ratio x) (MaxDiff P)) as [md|].
    + destruct Hu2 as [-> Hu2]. apply (first_inv_snoc Q P); simpl; try done.
      * by apply le_map_update.
      * intros a Ha. destruct (decide (Ea2 x = a)) as [<-|];
          [rewrite lookup_insert_eq; eauto|by rewrite lookup_insert_ne].
      * by apply numbers_in_update.
      * by apply numbers_in_update.
      * by apply multi_ok_append.
      * by apply multi_ok_append.
      * exists (Ratio x). simpl. rewrite !lookup_insert_eq.
        split; [done|]. split; [apply dlt_irrefl|eauto].
    + destruct Hu2 as (r & Hr2 & _). apply (first_inv_snoc Q P); simpl; try done.
      * by apply le_map_update.
      * by apply numbers_in_update.
      * by apply multi_ok_append.
      * exists (Ratio x). simpl. rewrite lookup_insert_eq.
        split; [done|]. split; [apply dlt_irrefl|eauto].
  - destruct Hu as (r & Hr2 & Hg). apply (first_inv_snoc Q P); simpl; try done.
    + apply le_map_refl.
    + assert (is_nan r = false)
        by (destruct (fi_main _ _ Hi _ _ Hr2) as (y & Hy & _ & <-);
            rewrite Forall_forall in Hn; apply Hn; auto).
      unfold has_number in Hx. exists r. simpl. split; [done|]. split; [dbl_order|congruence].
Qed.

Lemma first_inv_run l : forall Q P,
  first_inv Q P -> Forall has_number (Q ++ l) -> first_inv (Q ++ l) (first_run l P).
Proof.
  induction l as [|x l IH]; intros Q P Hi Hn; simpl; [by rewrite app_nil_r|].
  rewrite cons_middle, app_assoc in Hn |- *. apply IH; [|done].
  apply first_inv_step; [done|]. by apply Forall_app in Hn as [? _].
Qed.
End First.

(** ** The multimatch chooser *)

Section Multi.
Context (ids : Interners).

Lemma AddChooserItem_plain add It F :
  plain_item ids It -> AddChooserItem ids add It F = (add It F, Ok tt).
Proof.
  intros [H1 H2]. unfold AddChooserItem, liftR, mbind, M_bind, modify.
  by rewrite (RequirePyInt_plain _ _ _ H1), (RequirePyInt_plain _ _ _ H2).
Qed.

Definition add_all (l : list Item) (F : FinalResults) : FinalResults :=
  fold_left (fun F x => add_multimatch x F) l F.

Lemma add_all_multi l F : FMultimatch (add_all l F) = FMultimatch F ++ l.
Proof.
  unfold add_all. revert F. induction l as [|x l IH]; intros F; simpl; [by rewrite app_nil_r|].
  rewrite IH. simpl. by rewrite <- app_assoc.
Qed.

Lemma add_all_final C l F : final_list C (add_all l F) = final_list C F.
Proof.
  unfold add_all. revert F. induction l as [|x l IH]; intros F; simpl; [done|].
  rewrite IH. by destruct C.
Qed.

(** What a multi dict walk adds: items of [Q], each with a key not done
    before, each putting its address on the ignore list. *)
Record added_by (side : Item -> AddrId) (Q : list Item) (s s' : IgnoreDones)
    (l : list Item) : Prop := {
  ab_in x : x ∈ l -> x ∈ Q /\ side x ∈ s'.1;
  ab_keep a : a ∈ s.1 -> a ∈ s'.1;
  ab_cause a : a ∈ s'.1 -> a ∈ s.1 \/ exists x, x ∈ l /\ side x = a;
  ab_nodup : NoDup (ea_key ids <$> l);
  ab_fresh x : x ∈ l -> ea_key ids x ∉ s.2;
  ab_dones k : k ∈ s'.2 <-> k ∈ s.2 \/ exists x, x ∈ l /\ ea_key ids x = k;
}.

Lemma added_by_nil side Q s : added_by side Q s s [].
Proof.
  split; try (intros x H; by apply elem_of_nil in H); try done; auto.
  - constructor.
  - intros k. split; [auto|]. intros [?|(x & H & _)]; [done|by apply elem_of_nil in H].
Qed.

Lemma added_by_app side Q s1 s2 s3 l k :
  added_by side Q s1 s2 l -> added_by side Q s2 s3 k -> added_by side Q s1 s3 (l ++ k).
Proof.
  intros H1 H2. split.
  - intros x Hx. apply elem_of_app in Hx as [Hx|Hx].
    + destruct (ab_in _ _ _ _ _ H1 x Hx). split; [done|]. by apply (ab_keep _ _ _ _ _ H2).
    + by apply (ab_in _ _ _ _ _ H2).
  - intros a Ha. by apply (ab_keep _ _ _ _ _ H2), (ab_keep _ _ _ _ _ H1).
  - intros a Ha. apply (ab_cause _ _ _ _ _ H2) in Ha as [Ha|(x & ? & ?)];
      [apply (ab_cause _ _ _ _ _ H1) in Ha as [Ha|(x & ? & ?)]; [auto|]|];
      right; exists x; rewrite elem_of_app; auto.
  - rewrite fmap_app, NoDup_app. split; [apply H1|]. split; [|apply H2].
    intros y Hy Hy'. apply list_elem_of_fmap in Hy as (x & -> & Hx).
    apply list_elem_of_fmap in Hy' as (z & Ez & Hz).
    apply (ab_fresh _ _ _ _ _ H2 z Hz). rewrite <- Ez. apply (ab_dones _ _ _ _ _ H1). eauto.
  - intros x Hx C. apply elem_of_app in Hx as [Hx|Hx].
    + by apply (ab_fresh _ _ _ _ _ H1 x Hx).
    + apply (ab_fresh _ _ _ _ _ H2 x Hx). apply (ab_dones _ _ _ _ _ H1). auto.
  - intros y. rewrite (ab_dones _ _ _ _ _ H2), (ab_dones _ _ _ _ _ H1). split.
    + intros [[?|(x & ? & ?)]|(x & ? & ?)]; [auto|right; exists x..]; rewrite elem_of_app; auto.
    + intros [?|(x & Hx & ?)]; [auto|]. apply elem_of_app in Hx as [?|?]; eauto.
Qed.

Lemma added_by_one side Q s x :
  x ∈ Q -> ea_key ids x ∉ s.2 ->
  added_by side Q s ({[ side x ]} ∪ s.1, {[ ea_key ids x ]} ∪ s.2) [x].
Proof.
  intros Hx Hk. split; simpl.
  - intros y Hy. apply list_elem_of_singleton in Hy as ->. split; [done|set_solver].
  - set_solver.
  - intros a Ha. apply elem_of_union in Ha as [Ha|?]; [|auto].
    apply elem_of_singleton in Ha as ->. right. exists x. rewrite list_elem_of_singleton. auto.
  - apply NoDup_singleton.
  - intros y Hy. by apply list_elem_of_singleton in Hy as ->.
  - intros k. rewrite elem_of_union, elem_of_singleton. split.
    + intros [->|?]; [|auto]. right. exists x. rewrite list_elem_of_singleton. auto.
    + intros [?|(y & Hy & <-)]; [auto|]. apply list_elem_of_singleton in Hy as ->. auto.
Qed.

Lemma multi_items_ok side Q Ea l : forall s F,
  Forall (fun x => (x ∈ Q /\ side x = Ea) /\ plain_item ids x) l ->
  exists s' k, multi_items ids Ea l s F = (add_all k F, Ok s') /\ added_by side Q s s' k.
Proof.
  induction l as [|x l IH]; intros s F Hl; simpl.
  { exists s, []. split; [done|apply added_by_nil]. }
  apply Forall_cons in Hl as [[[HQ Hs] Hp] Hl].
  unfold mbind at 1, M_bind at 1, liftR. rewrite EaPairKey_plain by done.
  case_bool_decide as Hk.
  - apply IH, Hl.
  - unfold mbind, M_bind. rewrite AddChooserItem_plain by done.
    destruct (IH ({[Ea]} ∪ s.1, {[ea_key ids x]} ∪ s.2) (add_multimatch x F) Hl)
      as (s' & k & -> & Hab).
    exists s', (x :: k). split; [done|]. subst Ea. change (x :: k) with ([x] ++ k).
    eapply added_by_app; [by apply added_by_one|done].
Qed.

Lemma AddMultimatches_ok side Q d order : forall s F,
  multi_ok Q side d -> (forall a, a ∈ order -> a ∈ MOrder d) ->
  Forall (plain_item ids) Q ->
  exists s' k, AddMultimatchesToChooser ids d order s F = (add_all k F, Ok s')
               /\ added_by side Q s s' k.
Proof.
  induction order as [|a o IH]; intros s F [H1 H2] Ho HQ; simpl.
  { exists s, []. split; [done|apply added_by_nil]. }
  destruct (H1 a) as [l Hl]; [apply Ho; by left|]. rewrite Hl.
  assert (Hstep : exists s1 k1, (if 1 <? length l then multi_items ids a l s else mret s) F
      = (add_all k1 F, Ok s1) /\ added_by side Q s s1 k1).
  { destruct (1 <? length l); [|exists s, []; split; [done|apply added_by_nil]].
    apply multi_items_ok. specialize (H2 _ _ Hl). rewrite Forall_forall in H2, HQ |- *.
    intros x Hx. split; [by apply H2|]. by apply HQ, H2. }
  destruct Hstep as (s1 & k1 & E1 & Hab1).
  destruct (IH s1 (add_all k1 F)) as (s' & k & E & Hab); [done| |done|].
  { intros b Hb. apply Ho. by right. }
  exists s', (k1 ++ k). unfold mbind, M_bind. rewrite E1, E. split.
  - f_equal. unfold add_all. by rewrite fold_left_app.
  - by eapply added_by_app.
Qed.

(** ** The result choosers *)

(** The items one category keeps. *)
Definition keeps (P : FirstPass) (IM ID : gset AddrId) (x : Item) : bool :=
  negb (bool_decide (Ea1 x ∈ IM) || bool_decide (Ea2 x ∈ ID))
  && match MaxMain P !! Ea1 x with Some m => negb (dlt (Ratio x) m) | None => false end
  && match MaxDiff P !! Ea2 x with Some m => negb (dlt (Ratio x) m) | None => false end.

Definition add_finals (C : Chooser) (l : list Item) (F : FinalResults) : FinalResults :=
  fold_left (fun F x => add_final C x F) l F.

Lemma add_finals_list C D l F :
  final_list D (add_finals C l F) = final_list D F ++ (if decide (C = D) then l else []).
Proof.
  unfold add_finals. revert F. induction l as [|x l IH]; intros F; simpl.
  { case_decide; by rewrite app_nil_r. }
  rewrite IH. destruct C, D; simpl; by rewrite ?app_nil_r, <- ?app_assoc.
Qed.

Lemma add_finals_multi C l F : FMultimatch (add_finals C l F) = FMultimatch F.
Proof.
  unfold add_finals. revert F. induction l as [|x l IH]; intros F; simpl; [done|].
  rewrite IH. by destruct C.
Qed.

Lemma final_items_ok C P IM ID l : forall F,
  Forall (fun x => plain_item ids x /\
    exists m, MaxMain P !! Ea1 x = Some m /\
      (dlt (Ratio x) m = false -> is_Some (MaxDiff P !! Ea2 x))) l ->
  final_items ids C P IM ID l F
  = (add_finals C (filter (fun x => keeps P IM ID x = true) l) F, Ok tt).
Proof.
  induction l as [|x l IH]; intros F Hl; simpl; [done|].
  apply Forall_cons in Hl as [(Hp & m & Hm & Hd) Hl].
  rewrite filter_cons. rewrite Hm.
  assert (Hk : keeps P IM ID x =
    negb (bool_decide (Ea1 x ∈ IM) || bool_decide (Ea2 x ∈ ID)) && negb (dlt (Ratio x) m)
    && match MaxDiff P !! Ea2 x with Some m => negb (dlt (Ratio x) m) | None => false end)
    by (unfold keeps; by rewrite Hm).
  destruct (_ || _); simpl in Hk; [rewrite decide_False by congruence; by apply IH|].
  destruct (dlt (Ratio x) m); simpl in Hk; [rewrite decide_False by congruence; by apply IH|].
  destruct (Hd eq_refl) as [md Hmd]. rewrite Hmd in Hk |- *.
  destruct (dlt (Ratio x) md); simpl in Hk; [rewrite decide_False by congruence; by apply IH|].
  rewrite decide_True by done. unfold mbind, M_bind.
  rewrite AddChooserItem_plain by done. by rewrite IH by done.
Qed.
End Multi.

(** ** The stage *)

Lemma elem_sorted_all x p : x ∈ sorted_all p <-> x ∈ all_items p.
Proof.
  unfold sorted_all, all_items, SortDescending.
  by rewrite !elem_of_app, !elem_of_stable_sort.
Qed.

Lemma in_sorted C x st : x ∈ SortedResults C st -> x ∈ sorted_all (Lists st).
Proof.
  unfold SortedResults, sorted_all. rewrite !elem_of_app. destruct C; simpl; auto.
Qed.

(** In a descending list an earlier item is not smaller. *)
Lemma in_order_earlier a x b t :
  in_order ratio_gt (a ++ x :: b) -> has_number x -> t ∈ a ++ [x] ->
  dlt (Ratio t) (Ratio x) = false.
Proof.
  intros H Hx Ht. apply elem_of_app in Ht. rewrite list_elem_of_singleton in Ht.
  destruct Ht as [Ht| ->]; [|apply dlt_irrefl].
  apply StronglySorted_app in H as (H & _). apply (H t x Ht). by left.
Qed.

Section Stage.
Context (ids : Interners) (st : MatchState).
Context (Hids : wf_ids ids) (Hwf : wf_state ids st).
Context (Hplain : Forall (plain_item ids) (all_items (Lists st))).
Context (Hord : in_order ratio_gt (sorted_all (Lists st))).

Abbreviation Q := (sorted_all (Lists st)).

Lemma Q_number x : x ∈ Q -> has_number x.
Proof.
  intros Hx. pose proof (Forall_sorted_all ids _ (wfs_items _ _ Hwf)) as H.
  rewrite Forall_forall in H. by destruct (H x Hx).
Qed.

Lemma Q_plain : Forall (plain_item ids) Q.
Proof.
  rewrite Forall_forall in Hplain |- *. intros x Hx. by apply Hplain, elem_sorted_all.
Qed.

Lemma Q_numbers : Forall has_number Q.
Proof. apply Forall_forall, Q_number. Qed.

Definition the_pass : FirstPass := first_run ids Q EmptyFirst.

Lemma the_pass_inv : first_inv ids Q the_pass.
Proof. apply (first_inv_run ids Q [] EmptyFirst); [apply first_inv_empty|apply Q_numbers]. Qed.

(** Every item's primary address has a maximum, not below its ratio, and an
    item that reaches it has a secondary maximum too. *)
Lemma max_main_covers x :
  x ∈ Q -> exists m, MaxMain the_pass !! Ea1 x = Some m /\ dgt (Ratio x) m = false /\
    (dlt (Ratio x) m = false -> is_Some (MaxDiff the_pass !! Ea2 x)).
Proof.
  intros Hx. pose proof (Q_number x Hx) as Hn.
  pose proof (Q_plain) as Hp. rewrite Forall_forall in Hp.
  pose proof Hx as Hs. apply list_elem_of_split in Hs as (a & b & E).
  destruct (fi_visited _ _ _ the_pass_inv _ _ _ E) as (t & Ht & Hk & m & Hm & Hg & Hd).
  assert (HtQ : t ∈ Q).
  { rewrite E. apply elem_of_app in Ht. rewrite list_elem_of_singleton in Ht.
    rewrite elem_of_app, elem_of_cons. destruct Ht as [| ->]; auto. }
  destruct (ea_key_inj ids t x Hids (Hp t HtQ) (Hp x Hx) Hk) as [E1 E2].
  rewrite E1 in Hm. rewrite E2 in Hd.
  assert (Hxt : dlt (Ratio t) (Ratio x) = false)
    by (apply (in_order_earlier a x b); [by rewrite <- E|done|done]).
  pose proof (Q_number t HtQ) as Htn.
  assert (Hmn : is_nan m = false)
    by (destruct (fi_main _ _ _ the_pass_inv _ _ Hm) as (y & Hy & _ & <-); by apply Q_number).
  unfold has_number in Hn, Htn. exists m. split; [done|]. split; [dbl_order|].
  intros Hl. apply Hd. dbl_order.
Qed.

Lemma distribute_returns F :
  exists sm sd km kd,
    distribute ids st F =
      (let keep C := filter (fun x => keeps the_pass sm.1 sd.1 x = true) (SortedResults C st) in
       add_finals Unreliable (keep Unreliable)
        (add_finals Partial (keep Partial)
          (add_finals Best (keep Best) (add_all kd (add_all km F)))), Ok tt) /\
    added_by ids Ea1 Q (∅, ∅) sm km /\ added_by ids Ea2 Q (∅, sm.2) sd kd.
Proof.
  pose proof the_pass_inv as Hi. unfold distribute, mbind, M_bind, liftR.
  change (SortedResults Best st ++ SortedResults Partial st ++ SortedResults Unreliable st) with Q.
  rewrite (first_pass_run ids _ _ Q_plain). fold the_pass.
  destruct (AddMultimatches_ok ids Ea1 Q (MultiMain the_pass) (MOrder (MultiMain the_pass)) (∅, ∅) F)
    as (sm & km & Em & Hm); [apply Hi|done|apply Q_plain|].
  destruct (AddMultimatches_ok ids Ea2 Q (MultiDiff the_pass) (MOrder (MultiDiff the_pass))
    (∅, sm.2) (add_all km F)) as (sd & kd & Ed & Hd); [apply Hi|done|apply Q_plain|].
  exists sm, sd, km, kd. split; [|done]. rewrite Em, Ed.
  assert (Hf : forall C F, final_items ids C the_pass sm.1 sd.1 (SortedResults C st) F =
    (add_finals C (filter (fun x => keeps the_pass sm.1 sd.1 x = true) (SortedResults C st)) F, Ok tt)).
  { intros C F'. apply final_items_ok, Forall_forall. intros x Hx. apply in_sorted in Hx.
    pose proof Q_plain as Hp. rewrite Forall_forall in Hp. split; [by apply Hp|].
    destruct (max_main_covers x Hx) as (m & ? & _ & ?). eauto. }
  by rewrite !Hf.
Qed.

(** A kept item is maximal for both of its addresses. *)
Lemma keeps_maximal IM ID x y :
  x ∈ Q -> y ∈ Q -> keeps the_pass IM ID x = true -> Ea1 y = Ea1 x ->
  dgt (Ratio y) (Ratio x) = false.
Proof.
  intros Hx Hy Hk E. destruct (max_main_covers y Hy) as (m & Hm & Hg & _).
  unfold keeps in Hk. bool_props. rewrite E in Hm. rewrite Hm in *. bool_props.
  pose proof (Q_number x Hx) as Hnx. pose proof (Q_number y Hy) as Hny.
  assert (is_nan m = false)
    by (destruct (fi_main _ _ _ the_pass_inv _ _ Hm) as (z & Hz & _ & <-); by apply Q_number).
  unfold has_number in *. dbl_order.
Qed.

(** An item left out shares an ignored address, or another item of one of its
    addresses has a greater ratio. *)
Lemma not_kept_reason IM ID x :
  x ∈ Q -> keeps the_pass IM ID x = false ->
  Ea1 x ∈ IM \/ Ea2 x ∈ ID \/
  exists y, y ∈ Q /\ (Ea1 y = Ea1 x \/ Ea2 y = Ea2 x) /\ dgt (Ratio y) (Ratio x) = true.
Proof.
  intros Hx Hk. destruct (max_main_covers x Hx) as (m & Hm & _ & Hd).
  unfold keeps in Hk. rewrite Hm in Hk.
  destruct (decide (Ea1 x ∈ IM)); [auto|]. destruct (decide (Ea2 x ∈ ID)); [auto|].
  rewrite !bool_decide_false in Hk by done. simpl in Hk. right; right.
  destruct (dlt (Ratio x) m) eqn:E1.
  - destruct (fi_main _ _ _ the_pass_inv _ _ Hm) as (y & Hy & Ey & <-). exists y. auto.
  - destruct (Hd eq_refl) as [md Hmd]. rewrite Hmd in Hk. simpl in Hk. bool_props.
    destruct (fi_diff _ _ _ the_pass_inv _ _ Hmd) as (y & Hy & Ey & <-). exists y. auto.
Qed.
End Stage.

(** The contract of the final pass on a cleaned state [st]. *)
Record final_contract (ids : Interners) (st : MatchState) (F : FinalResults) : Prop := {
  fc_sub C : sublist (final_list C F) (SortedResults C st);
  fc_maximal C x y : x ∈ final_list C F -> y ∈ all_items (Lists st) -> Ea1 y = Ea1 x ->
    dgt (Ratio y) (Ratio x) = false;
  fc_multi_nodup : NoDup (ea_key ids <$> FMultimatch F);
  fc_multi_in y : y ∈ FMultimatch F -> y ∈ all_items (Lists st);
  fc_disjoint C x y : x ∈ final_list C F -> y ∈ FMultimatch F -> Ea1 x <> Ea1 y \/ Ea2 x <> Ea2 y;
  fc_complete C x : x ∈ SortedResults C st -> x ∈ final_list C F \/
    (exists y, y ∈ FMultimatch F /\ (Ea1 y = Ea1 x \/ Ea2 y = Ea2 x)) \/
    (exists y, y ∈ all_items (Lists st) /\ (Ea1 y = Ea1 x \/ Ea2 y = Ea2 x) /\
               dgt (Ratio y) (Ratio x) = true);
}.

Lemma distribute_contract ids st :
  wf_ids ids -> wf_state ids st -> Forall (plain_item ids) (all_items (Lists st)) ->
  in_order ratio_gt (sorted_all (Lists st)) ->
  exists F, distribute ids st EmptyFinal = (F, Ok tt) /\ final_contract ids st F.
Proof.
  intros Hids Hwf Hp Ho.
  destruct (distribute_returns ids st Hids Hwf Hp Ho EmptyFinal) as (sm & sd & km & kd & E & Hm & Hd).
  eexists. split; [exact E|]. set (P := the_pass ids st) in *. cbv zeta.
  assert (HF : forall C, final_list C (add_finals Unreliable
      (filter (fun x => keeps P sm.1 sd.1 x = true) (SortedResults Unreliable st))
      (add_finals Partial (filter (fun x => keeps P sm.1 sd.1 x = true) (SortedResults Partial st))
      (add_finals Best (filter (fun x => keeps P sm.1 sd.1 x = true) (SortedResults Best st))
        (add_all kd (add_all km EmptyFinal)))))
      = filter (fun x => keeps P sm.1 sd.1 x = true) (SortedResults C st)).
  { intros C. rewrite !add_finals_list, !add_all_final. destruct C; simpl; by rewrite ?app_nil_r. }
  assert (HM : FMultimatch (add_finals Unreliable
      (filter (fun x => keeps P sm.1 sd.1 x = true) (SortedResults Unreliable st))
      (add_finals Partial (filter (fun x => keeps P sm.1 sd.1 x = true) (SortedResults Partial st))
      (add_finals Best (filter (fun x => keeps P sm.1 sd.1 x = true) (SortedResults Best st))
        (add_all kd (add_all km EmptyFinal))))) = km ++ kd).
  { by rewrite !add_finals_multi, !add_all_multi. }
  set (F := add_finals Unreliable _ _) in *.
  assert (Hmulti : forall y, y ∈ FMultimatch F ->
            y ∈ sorted_all (Lists st) /\ (Ea1 y ∈ sm.1 \/ Ea2 y ∈ sd.1)).
  { intros y. rewrite HM, elem_of_app. intros [Hy|Hy].
    - destruct (ab_in _ _ _ _ _ _ Hm y Hy); auto.
    - destruct (ab_in _ _ _ _ _ _ Hd y Hy); auto. }
  assert (Hfin : forall C x, x ∈ final_list C F ->
            keeps P sm.1 sd.1 x = true /\ x ∈ SortedResults C st)
    by (intros C x; rewrite HF, list_elem_of_filter; done).
  split.
  - intros C. rewrite HF. apply sublist_filter.
  - intros C x y Hx Hy Ee. destruct (Hfin C x Hx) as [Hk Hs].
    eapply keeps_maximal; eauto using in_sorted. by apply elem_sorted_all.
  - rewrite HM, fmap_app, NoDup_app. split; [apply Hm|]. split; [|apply Hd].
    intros k Hk Hk'. apply list_elem_of_fmap in Hk as (x & -> & Hx).
    apply list_elem_of_fmap in Hk' as (z & Ez & Hz).
    apply (ab_fresh _ _ _ _ _ _ Hd z Hz). rewrite <- Ez. apply (ab_dones _ _ _ _ _ _ Hm). eauto.
  - intros y Hy. by apply elem_sorted_all, Hmulti.
  - intros C x y Hx Hy. destruct (Hfin C x Hx) as [Hk _]. destruct (Hmulti y Hy) as [_ Hig].
    unfold keeps in Hk. bool_props. destruct Hig; [left|right]; congruence.
  - intros C x Hx. destruct (keeps P sm.1 sd.1 x) eqn:Ek.
    { left. by rewrite HF, list_elem_of_filter. }
    right. rewrite HM. destruct (not_kept_reason ids st Hids Hwf Hp Ho _ _ x (in_sorted _ _ _ Hx) Ek)
      as [Hi|[Hi|(y & Hy & ? & ?)]].
    + apply (ab_cause _ _ _ _ _ _ Hm) in Hi as [Hi|(y & ? & ?)]; [set_solver|].
      left. exists y. rewrite elem_of_app. auto.
    + apply (ab_cause _ _ _ _ _ _ Hd) in Hi as [Hi|(y & ? & ?)]; [set_solver|].
      left. exists y. rewrite elem_of_app. auto.
    + right. exists y. rewrite <- elem_sorted_all. auto.
Qed.

(** C4: The final pass returns and meets its contract: when the cleaned state
    has plain addresses and no later category holds a greater ratio than an
    earlier one, no [KeyError] (D:2931, D:2933) or [ValueError] is raised; the
    result choosers are descending sublists of the state's lists with only
    maximal items per primary address; the multimatch chooser holds each
    address pair once and shares none with the result choosers; and every item
    left out shares an address with a multimatch or with a greater item. *)
Theorem StageFinalPass_contract ids st st' :
  wf_ids ids -> wf_state ids st -> Cleanup ids st = Ok st' ->
  Forall (plain_item ids) (all_items (Lists st')) ->
  in_order ratio_gt (sorted_all (Lists st')) ->
  exists F, StageFinalPass ids (st, EmptyFinal) = ((st', F), Ok tt) /\
    final_contract ids st' F.
Proof.
  intros Hids Hwf Hc Hp Ho. pose proof (Cleanup_wf _ _ _ Hwf Hc) as Hwf'.
  destruct (distribute_contract ids st' Hids Hwf' Hp Ho) as (F & HF & HC).
  exists F. unfold StageFinalPass. by rewrite Hc, HF.
Qed.
