(* ===== verification/Unmatched.v ===== *)
(** * The unmatched functions (src/src/diff/Unmatched.cpp)

    [StageFindUnmatched] lists, per database, the functions whose name is in
    no matched pair. The SQL connection is a parameter: what a prepared query
    yields, cell by cell. *)

From stdpp Require Import base numbers gmap sets option list.
From Stdlib Require Import ZArith Lia.
From S2P Require Import Prelude Dbl Interner PyInt Snapshot MatchState FinalPass Utf8.

(** A cell of a result row: [SqlType::Null], [SqlType::Text], or another
    storage class. *)
Inductive SqlCell :=
| CellNull
| CellText (Bytes : text)
| CellOther.

(** What a statement yields: its rows in order, then the end of the result or
    the exception of a failing [Step]. *)
Record QueryRun := MkQueryRun {
  ColumnNames : text * text;
  Cells : list (SqlCell * SqlCell);
  StepFailure : option exn;
}.

Definition kSqlUnmatchedMain : text := B "select name, address from functions".
Definition kSqlUnmatchedDiff : text := B "select name, address from diff.functions".

(** [NameAddressRow]. *)
Record NameAddressRow := MkNameAddress { RowName : NameId; RowEa : AddrId }.

(** The part of the session the stage reads and writes. *)
Record UnmatchedSession := MkUnmatchedSession {
  UIds : Interners;
  UState : MatchState;
  UFinal : FinalResults;
}.

Definition with_uids (ids : Interners) (S : UnmatchedSession) : UnmatchedSession :=
  MkUnmatchedSession ids (UState S) (UFinal S).
Definition with_ufinal (F : FinalResults) (S : UnmatchedSession) : UnmatchedSession :=
  MkUnmatchedSession (UIds S) (UState S) F.

Definition set_unmatched_second (l : list UnmatchedRow) (F : FinalResults) : FinalResults :=
  MkFinal (FBest F) (FPartial F) (FUnreliable F) (FMultimatch F) (UnmatchedPrimary F) (Some l).
Definition set_unmatched_primary (l : list UnmatchedRow) (F : FinalResults) : FinalResults :=
  MkFinal (FBest F) (FPartial F) (FUnreliable F) (FMultimatch F) (Some l) (UnmatchedSecondary F).

Definition TextCell (Cell : SqlCell) (ColumnName Query : text) : res (option text) :=
  match Cell with
  | CellNull => Ok None
  | CellText Bytes =>
      if negb (IsValidUtf8 Bytes) then
        Throw (DiaphoraWouldRaise (B "fetch")
          (B "OperationalError: Could not decode to UTF-8 column '" ++ ColumnName
           ++ B "' (" ++ Query ++ B ")"))
      else Ok (Some Bytes)
  | CellOther =>
      Throw (UnsupportedInput
        (B "find_unmatched: non-TEXT value in column '" ++ ColumnName ++ B "' of `" ++ Query ++ B "`"))
  end.

Section Stage.
(** [S.Db().Prepare(Sql)]. *)
Context (Prepare : text -> res QueryRun).

Definition intern_name (t : option text) : M UnmatchedSession NameId :=
  fun S => let '(ids, n) := NameOpt t (UIds S) in (with_uids ids S, Ok n).
Definition intern_addr (t : option text) : M UnmatchedSession AddrId :=
  fun S => let '(ids, a) := AddrOpt t (UIds S) in (with_uids ids S, Ok a).

(** [while (Q.Step())]. *)
Fixpoint fetch_loop (Q : QueryRun) (Sql : text) (cells : list (SqlCell * SqlCell))
    (Rows : list NameAddressRow) : M UnmatchedSession (list NameAddressRow) :=
  match cells with
  | [] =>
      match StepFailure Q with
      | Some e => throw e
      | None => mret Rows
      end
  | (c0, c1) :: cells' =>
      t0 ← liftR (TextCell c0 (ColumnNames Q).1 Sql);
      n ← intern_name t0;
      t1 ← liftR (TextCell c1 (ColumnNames Q).2 Sql);
      a ← intern_addr t1;
      fetch_loop Q Sql cells' (Rows ++ [MkNameAddress n a])
  end.

Definition FetchAll (Sql : text) : M UnmatchedSession (list NameAddressRow) :=
  Q ← liftR (Prepare Sql);
  fetch_loop Q Sql (Cells Q) [].

Definition is_matched (MainSide : bool) (st : MatchState) (n : NameId) : bool :=
  bool_decide (is_Some (FindEntry n (if MainSide then Primary st else Secondary st))).

Fixpoint unmatched_loop (ids : Interners) (st : MatchState) (MainSide : bool) (Site : text)
    (Rows : list NameAddressRow) (Choose : list UnmatchedRow) : res (list UnmatchedRow) :=
  match Rows with
  | [] => Ok Choose
  | Row :: Rows' =>
      if is_matched MainSide st (RowName Row)
      then unmatched_loop ids st MainSide Site Rows' Choose
      else
        _ ← RequirePyInt ids (RowEa Row) Site;
        unmatched_loop ids st MainSide Site Rows'
          (Choose ++ [MkUnmatchedRow (RowEa Row) (RowName Row)])
  end.

Definition Unmatched (Rows : list NameAddressRow) (MainSide : bool) (AddItemSite : text)
    : M UnmatchedSession (list UnmatchedRow) :=
  fun S => (S, unmatched_loop (UIds S) (UState S) MainSide AddItemSite Rows []).

(** The two blocks; the labels are swapped as in Diaphora: the functions of
    the main database go to [UnmatchedSecondary]. *)
Definition StageFindUnmatched : M UnmatchedSession unit :=
  Rows ← FetchAll kSqlUnmatchedMain;
  (match Rows with
   | [] => mret tt
   | _ =>
       l ← Unmatched Rows true (B "D:280 (main)");
       modify (fun S => with_ufinal (set_unmatched_second l (UFinal S)) S)
   end);;
  Rows ← FetchAll kSqlUnmatchedDiff;
  match Rows with
  | [] => mret tt
  | _ =>
      l ← Unmatched Rows false (B "D:280 (diff)");
      modify (fun S => with_ufinal (set_unmatched_primary l (UFinal S)) S)
  end.
End Stage.

(** ** Interning the cells *)

(** The Python value an id stands for. *)
Definition AddrOrNone (Id : AddrId) (ids : Interners) : res (option text) :=
  if bool_decide (Id = kNoneAddr) then Ok None
  else t ← AddrText Id ids; Ok (Some t).

(** Every id keeps its text. *)
Record grows (ids ids' : Interners) : Prop := {
  grows_name k t : NameOrNone k ids = Ok t -> NameOrNone k ids' = Ok t;
  grows_addr k t : AddrOrNone k ids = Ok t -> AddrOrNone k ids' = Ok t;
}.

#[export] Instance grows_preorder : PreOrder grows.
Proof.
  split; [done|]. intros x y z [Hn Ha] [Hn' Ha']. split; eauto.
Qed.

(** Room for [n] more texts in both tables. *)
Definition room (ids : Interners) (n : N) : Prop :=
  (Size (Names_ ids) + n < 2 ^ 32 - 1)%N /\ (Size (Addrs_ ids) + n < 2 ^ 32 - 1)%N.

Lemma wrap_succ (r : Interner) (Id : id32) :
  known Id r -> (Size r < 2 ^ 32 - 1)%N ->
  wrap32 (Id + 1) = (Id + 1)%N /\ wrap32 (Id + 1) <> 0%N /\ (wrap32 (Id + 1) - 1)%N = Id.
Proof.
  unfold known. intros HId Hr. rewrite wrap32_small by lia. split_and!; lia.
Qed.

Lemma NameOpt_spec (t : option text) (ids : Interners) :
  wf_ids ids -> (Size (Names_ ids) + 1 < 2 ^ 32 - 1)%N ->
  let '(ids', i) := NameOpt t ids in
  wf_ids ids' /\ NameOrNone i ids' = Ok t /\ grows ids ids' /\
  (Size (Names_ ids') <= Size (Names_ ids) + 1)%N /\ Addrs_ ids' = Addrs_ ids.
Proof.
  intros [Hn Hd Ha] Hroom. destruct t as [t|]; simpl;
    [|split_and!; [by split|done|done|lia|done]].
  pose proof (Intern_spec t _ Hn ltac:(lia)) as H.
  unfold Name. destruct (Intern t (Names_ ids)) as [r Id]. destruct H as (Hr & Ht & Hold & Hsz).
  destruct (wrap_succ r Id (text_known _ _ _ Ht) ltac:(lia)) as (_ & H2 & H3).
  split_and!; [by split| | |done|done].
  - unfold NameOrNone. rewrite bool_decide_false by done. simpl. by rewrite H3, Ht.
  - split; [|done]. intros k u. unfold NameOrNone. case_bool_decide; [done|]. simpl.
    destruct (Text (k - 1) (Names_ ids)) eqn:E; [|done]. by rewrite (Hold _ _ E).
Qed.

Lemma AddrOpt_spec (t : option text) (ids : Interners) :
  wf_ids ids -> (Size (Addrs_ ids) + 1 < 2 ^ 32 - 1)%N ->
  let '(ids', i) := AddrOpt t ids in
  wf_ids ids' /\ AddrOrNone i ids' = Ok t /\ grows ids ids' /\
  (Size (Addrs_ ids') <= Size (Addrs_ ids) + 1)%N /\ Names_ ids' = Names_ ids.
Proof.
  intros [Hn Hd Ha] Hroom. destruct t as [t|]; simpl;
    [|split_and!; [by split|done|done|lia|done]].
  pose proof (Intern_spec t _ Ha ltac:(lia)) as H.
  unfold Addr. destruct (Intern t (Addrs_ ids)) as [r Id]. destruct H as (Hr & Ht & Hold & Hsz).
  destruct (wrap_succ r Id (text_known _ _ _ Ht) ltac:(lia)) as (_ & H2 & H3).
  split_and!; [by split| | |done|done].
  - unfold AddrOrNone, AddrText. rewrite bool_decide_false by done. simpl. by rewrite H3, Ht.
  - split; [done|]. intros k u. unfold AddrOrNone, AddrText. case_bool_decide; [done|]. simpl.
    destruct (Text (k - 1) (Addrs_ ids)) eqn:E; [|done]. by rewrite (Hold _ _ E).
Qed.

(** ** What the stage computes *)

(** A cell and the value Python's sqlite3 gives for it. *)
Definition decodes (c : SqlCell) (t : option text) : Prop :=
  match c with
  | CellNull => t = None
  | CellText Bytes => utf8_text Bytes /\ t = Some Bytes
  | CellOther => False
  end.

(** The ids of a fetched row stand for the values of its two cells. *)
Definition fetched (ids : Interners) (c : SqlCell * SqlCell) (row : NameAddressRow) : Prop :=
  exists n a, decodes c.1 n /\ decodes c.2 a /\
    NameOrNone (RowName row) ids = Ok n /\ AddrOrNone (RowEa row) ids = Ok a.

Lemma TextCell_decodes (c : SqlCell) (t : option text) (col sql : text) :
  decodes c t -> TextCell c col sql = Ok t.
Proof.
  destruct c as [|Bytes|]; simpl; [by intros ->| |done]. intros [Hu ->].
  by rewrite (proj2 (utf8_loop_spec (length Bytes) Bytes (le_n _)) Hu : IsValidUtf8 Bytes = true).
Qed.

Lemma fetched_grows (ids ids' : Interners) (c : SqlCell * SqlCell) (row : NameAddressRow) :
  grows ids ids' -> fetched ids c row -> fetched ids' c row.
Proof.
  intros [Hn Ha] (n & a & ? & ? & ? & ?). exists n, a.
  split_and!; [done|done|by apply Hn|by apply Ha].
Qed.

(** A run whose cells all decode and that ends without an exception. *)
Definition good_run (Q : QueryRun) : Prop :=
  StepFailure Q = None /\
  Forall (fun c => (exists n, decodes c.1 n) /\ (exists a, decodes c.2 a)) (Cells Q).

Lemma fetch_loop_spec (Q : QueryRun) (Sql : text) (cells : list (SqlCell * SqlCell))
    (Rows : list NameAddressRow) (S : UnmatchedSession) (n : N) :
  StepFailure Q = None ->
  Forall (fun c => (exists n, decodes c.1 n) /\ (exists a, decodes c.2 a)) cells ->
  wf_ids (UIds S) -> room (UIds S) (n + N.of_nat (length cells)) ->
  exists ids' rows, fetch_loop Q Sql cells Rows S = (with_uids ids' S, Ok (Rows ++ rows)) /\
    wf_ids ids' /\ room ids' n /\ grows (UIds S) ids' /\ Forall2 (fetched ids') cells rows.
Proof.
  intros Hstep Hcells. revert Rows S.
  induction Hcells as [|[c0 c1] cells [[t0 H0] [t1 H1]] Hcells IH]; intros Rows S Hwf Hroom.
  { exists (UIds S), []. cbn [fetch_loop]. rewrite Hstep, app_nil_r.
    split_and!; [by destruct S|done| |done|constructor]. by rewrite N.add_0_r in Hroom. }
  cbn [fetch_loop fst snd] in *. unfold liftR, mbind, M_bind.
  rewrite (TextCell_decodes _ _ _ _ H0), (TextCell_decodes _ _ _ _ H1).
  unfold intern_name, intern_addr. cbn [length] in Hroom.
  set (k := N.of_nat (length cells)) in *.
  pose proof (NameOpt_spec t0 (UIds S) Hwf) as Hn.
  destruct (NameOpt t0 (UIds S)) as [ids1 i].
  destruct Hn as (Hwf1 & Hi & Hg1 & Hs1 & Ha1).
  { unfold room in *. lia. }
  unfold room in *. cbn [with_uids UIds].
  pose proof (AddrOpt_spec t1 ids1 Hwf1) as Ha.
  destruct (AddrOpt t1 ids1) as [ids2 j].
  destruct Ha as (Hwf2 & Hj & Hg2 & Hs2 & Hn2).
  { rewrite Ha1. lia. }
  destruct (IH (Rows ++ [MkNameAddress i j]) (with_uids ids2 S)) as
    (ids' & rows & Hrun & Hwf' & Hroom' & Hg' & Hrows); [done| |].
  { cbn [with_uids UIds]. rewrite Hn2. rewrite Ha1 in Hs2. lia. }
  exists ids', (MkNameAddress i j :: rows). cbn [with_uids UIds UState UFinal] in *.
  split_and!; [|done|tauto|tauto|by rewrite Hg1, Hg2|].
  - etransitivity; [exact Hrun|]. by rewrite <- app_assoc.
  - constructor; [|done]. exists t0, t1. cbn [fst snd RowName RowEa].
    split_and!; [done|done| |]; [by apply (grows_name _ _ Hg'), (grows_name _ _ Hg2)|].
    by apply (grows_addr _ _ Hg').
Qed.

(** An address cell [int()] accepts. *)
Definition int_cell (c : SqlCell) : Prop :=
  match c with
  | CellText t => IsAscii t = true /\ PyIntAsciiAccepts t = true
  | _ => False
  end.

Lemma RequirePyInt_cell (ids : Interners) (c : SqlCell * SqlCell) (row : NameAddressRow)
    (Site : text) :
  fetched ids c row -> int_cell c.2 -> RequirePyInt ids (RowEa row) Site = Ok tt.
Proof.
  intros (n & a & _ & Ha & _ & Hid) Hc. destruct (c.2) as [|t|]; [done| |done].
  destruct Ha as [_ ->], Hc as [Hascii Hint]. unfold RequirePyInt, AddrOrNone in *.
  case_bool_decide; [done|]. destruct (AddrText (RowEa row) ids); simpl in *; [|done].
  injection Hid as ->. by rewrite Hascii, Hint.
Qed.

Definition unmatched_rows (MainSide : bool) (st : MatchState) (rows : list NameAddressRow)
    : list UnmatchedRow :=
  map (fun row => MkUnmatchedRow (RowEa row) (RowName row))
    (filter (fun row => is_matched MainSide st (RowName row) = false) rows).

Lemma unmatched_loop_spec (ids : Interners) (st : MatchState) (MainSide : bool) (Site : text)
    (cells : list (SqlCell * SqlCell)) (rows : list NameAddressRow) (Choose : list UnmatchedRow) :
  Forall2 (fetched ids) cells rows -> Forall (fun c => int_cell c.2) cells ->
  unmatched_loop ids st MainSide Site rows Choose
  = Ok (Choose ++ unmatched_rows MainSide st rows).
Proof.
  intros Hf. revert Choose. induction Hf as [|c row cells rows Hrow Hf IH]; intros Choose Hint.
  { by rewrite app_nil_r. }
  inversion Hint as [|? ? Hc Hint']; subst. cbn [unmatched_loop]. unfold unmatched_rows.
  rewrite filter_cons. destruct (is_matched MainSide st (RowName row)) eqn:E.
  - rewrite decide_False by done. by apply IH.
  - rewrite decide_True by done. rewrite (RequirePyInt_cell ids c row Site Hrow Hc).
    simpl. rewrite IH by done. by rewrite <- app_assoc.
Qed.

(** What a block leaves in its attribute. *)
Definition block_result (MainSide : bool) (st : MatchState) (rows : list NameAddressRow)
    (old : option (list UnmatchedRow)) : option (list UnmatchedRow) :=
  match rows with [] => old | _ => Some (unmatched_rows MainSide st rows) end.

(** One block of the stage. *)
Lemma block_spec (Prepare : text -> res QueryRun) (Sql : text) (MainSide : bool) (Site : text)
    (set : list UnmatchedRow -> FinalResults -> FinalResults) (Q : QueryRun)
    (S : UnmatchedSession) (n : N) :
  Prepare Sql = Ok Q -> good_run Q -> Forall (fun c => int_cell c.2) (Cells Q) ->
  wf_ids (UIds S) -> room (UIds S) (n + N.of_nat (length (Cells Q))) ->
  exists ids' rows,
    (Rows ← FetchAll Prepare Sql;
     match Rows with
     | [] => mret tt
     | _ =>
         l ← Unmatched Rows MainSide Site;
         modify (fun S => with_ufinal (set l (UFinal S)) S)
     end) S
    = (with_ufinal
         (match rows with
          | [] => UFinal S
          | _ => set (unmatched_rows MainSide (UState S) rows) (UFinal S)
          end) (with_uids ids' S), Ok tt) /\
    wf_ids ids' /\ room ids' n /\ grows (UIds S) ids' /\ Forall2 (fetched ids') (Cells Q) rows.
Proof.
  intros HQ [Hs Hc] Hint Hwf Hroom.
  destruct (fetch_loop_spec Q Sql (Cells Q) [] S n Hs Hc Hwf Hroom)
    as (ids' & rows & Hrun & Hwf' & Hroom' & Hg & Hf).
  exists ids', rows. split_and!; try done.
  unfold FetchAll, liftR, mbind, M_bind. rewrite HQ, Hrun. cbn [app].
  destruct rows as [|row rows]; [by destruct S|].
  unfold Unmatched. cbn [with_uids UIds UState].
  by rewrite (unmatched_loop_spec ids' (UState S) MainSide Site _ _ [] Hf Hint).
Qed.

Lemma bind_assoc_M {S A C D} (m : M S A) (f : A -> M S C) (g : C -> M S D) (s : S) :
  (m ≫= (fun a => f a ≫= g)) s = ((m ≫= f) ≫= g) s.
Proof. unfold mbind, M_bind. by destruct (m s) as [s' [a|e]]. Qed.

(** When the cells of both tables decode and the addresses are integer
    texts, the stage succeeds: the functions of the main database whose name is
    no key of the primary dict, in table order, become the secondary unmatched
    list, those of the diff database whose name is no key of the secondary dict
    become the primary one, an empty table leaves its list as it was, and
    nothing else of the results or of the match state changes. *)
Theorem StageFindUnmatched_spec (Prepare : text -> res QueryRun) (Q1 Q2 : QueryRun)
    (S : UnmatchedSession)
    (HQ1 : Prepare kSqlUnmatchedMain = Ok Q1) (HQ2 : Prepare kSqlUnmatchedDiff = Ok Q2)
    (Hgood1 : good_run Q1) (Hgood2 : good_run Q2)
    (Hint1 : Forall (fun c => int_cell c.2) (Cells Q1))
    (Hint2 : Forall (fun c => int_cell c.2) (Cells Q2))
    (Hwf : wf_ids (UIds S))
    (Hroom : room (UIds S) (N.of_nat (length (Cells Q2)) + N.of_nat (length (Cells Q1)))) :
  exists S' rows1 rows2, StageFindUnmatched Prepare S = (S', Ok tt) /\
    UState S' = UState S /\
    Forall2 (fetched (UIds S')) (Cells Q1) rows1 /\
    Forall2 (fetched (UIds S')) (Cells Q2) rows2 /\
    UFinal S' =
      MkFinal (FBest (UFinal S)) (FPartial (UFinal S)) (FUnreliable (UFinal S))
        (FMultimatch (UFinal S))
        (block_result false (UState S) rows2 (UnmatchedPrimary (UFinal S)))
        (block_result true (UState S) rows1 (UnmatchedSecondary (UFinal S))).
Proof.
  destruct Hgood1 as [Hs1 Hc1], Hgood2 as [Hs2 Hc2].
  destruct (block_spec Prepare kSqlUnmatchedMain true (B "D:280 (main)") set_unmatched_second Q1 S _
    HQ1 (conj Hs1 Hc1) Hint1 Hwf Hroom) as (ids1 & rows1 & Hrun1 & Hwf1 & Hroom1 & Hg1 & Hf1).
  set (S1 := with_ufinal _ _) in Hrun1.
  rewrite <- (N.add_0_l (N.of_nat _)) in Hroom1.
  destruct (block_spec Prepare kSqlUnmatchedDiff false (B "D:280 (diff)") set_unmatched_primary Q2 S1 _
    HQ2 (conj Hs2 Hc2) Hint2 Hwf1 Hroom1) as (ids2 & rows2 & Hrun2 & Hwf2 & _ & Hg2 & Hf2).
  eexists _, rows1, rows2. split; [|split; [|split_and!]].
  - unfold StageFindUnmatched. rewrite bind_assoc_M. unfold mbind at 1, M_bind at 1.
    rewrite Hrun1. exact Hrun2.
  - done.
  - cbn [with_ufinal with_uids UIds]. eapply Forall2_impl; [exact Hf1|].
    intros c row. by apply fetched_grows.
  - exact Hf2.
  - subst S1. destruct S as [ids st F]. cbn. by destruct rows1, rows2, F.
Qed.
