(* ===== verification/TextDiff.v ===== *)
(** * Line splitting, name scanning and difflib (src/src/diff/TextDiff.cpp)

    Definitions: [PySplitNewline], [PySplitLines], [CppNamesFindAll], the
    [SequenceMatcher] port and [UnifiedDiff]. The theorems are in [TextLines],
    [LongestMatch] and [MatchingBlocks]. *)

From stdpp Require Import base numbers gmap sets list strings pretty sorting.
From Stdlib Require Import ZArith Lia.
From S2P Require Import Prelude Dbl.

(** ** [str.split] *)

(** [S.find] from the current start; the piece before it is accumulated. *)
Fixpoint split_from (piece : text) (s : text) : list text :=
  match s with
  | [] => [piece]
  | c :: s' => if bool_decide (c = x0a) then piece :: split_from [] s'
               else split_from (piece ++ [c]) s'
  end.

Definition PySplitNewline (s : text) : list text := split_from [] s.

(** ** [str.splitlines] *)

(** Byte length of the line break at the head of the text, or 0. *)
Definition LineBreakAt (s : text) : nat :=
  match s with
  | [] => 0
  | c :: s' =>
      if bool_decide (c ∈ [x0a; x0b; x0c; x0d; x1c; x1d; x1e]) then 1
      else if bool_decide (c = xc2) then
        match s' with c1 :: _ => if bool_decide (c1 = x85) then 2 else 0 | [] => 0 end
      else if bool_decide (c = xe2) then
        match s' with
        | c1 :: c2 :: _ =>
            if bool_decide (c1 = x80) && bool_decide (c2 = xa8 \/ c2 = xa9) then 3 else 0
        | _ => 0
        end
      else 0
  end.

(** The inner loop: the line up to the break and the text from the break on. *)
Fixpoint scan_line (s : text) : text * text :=
  match s with
  | [] => ([], [])
  | c :: s' => if (LineBreakAt s =? 0)%nat then let '(l, r) := scan_line s' in (c :: l, r)
               else ([], s)
  end.

(** Consuming the break; ["\r\n"] is one break. *)
Definition skip_break (s : text) : text :=
  match s with
  | c :: d :: s' => if bool_decide (c = x0d) && bool_decide (d = x0a) then s'
                    else drop (LineBreakAt s) s
  | _ => drop (LineBreakAt s) s
  end.

(** One line per turn; every turn consumes at least a byte, so the length of
    the text is enough fuel. *)
Fixpoint split_lines (fuel : nat) (s : text) : list text :=
  match fuel with
  | O => []
  | S fuel' =>
      match s with
      | [] => []
      | _ => let '(l, r) := scan_line s in l :: split_lines fuel' (skip_break r)
      end
  end.

Definition PySplitLines (s : text) : list text := split_lines (length s) s.

(** ** The callee-name scanner *)

Definition is_word_byte (c : byte) : bool :=
  let z := code c in
  ((97 <=? z) && (z <=? 122) || (65 <=? z) && (z <=? 90) || (48 <=? z) && (z <=? 57)
   || (z =? 95))%Z.

(** Byte length of the word character at the head of the text, or 0. *)
Definition WordCharAt (s : text) : nat :=
  match s with
  | [] => 0
  | c :: s' =>
      if is_word_byte c then 1
      else if bool_decide (c = xc4) then
        match s' with c1 :: _ => if bool_decide (c1 = xb0 \/ c1 = xb1) then 2 else 0 | [] => 0 end
      else if bool_decide (c = xc5) then
        match s' with c1 :: _ => if bool_decide (c1 = xbf) then 2 else 0 | [] => 0 end
      else if bool_decide (c = xe2) then
        match s' with
        | c1 :: c2 :: _ => if bool_decide (c1 = x84) && bool_decide (c2 = xaa) then 3 else 0
        | _ => 0
        end
      else 0
  end.

Definition StartCharAt (s : text) : bool :=
  negb (WordCharAt s =? 0)%nat
  && match s with c :: _ => negb ((48 <=? code c) && (code c <=? 57))%Z | [] => false end.

(** The greedy run of word characters: how many, and the bytes and the rest. *)
Fixpoint word_run (fuel : nat) (s : text) : nat * text * text :=
  match fuel with
  | O => (0, [], s)
  | S fuel' =>
      match WordCharAt s with
      | O => (0, [], s)
      | w => let '(n, l, r) := word_run fuel' (drop w s) in (S n, take w s ++ l, r)
      end
  end.

(** The ["::" word+] extensions. *)
Fixpoint name_tail (fuel : nat) (s : text) : text * text :=
  match fuel with
  | O => ([], s)
  | S fuel' =>
      match s with
      | c :: d :: s' =>
          if bool_decide (c = x3a) && bool_decide (d = x3a) && negb (WordCharAt s' =? 0)%nat then
            let '(_, l, r) := word_run (length s') s' in
            let '(l', r') := name_tail fuel' r in (c :: d :: l ++ l', r')
          else ([], s)
      | _ => ([], s)
      end
  end.

Fixpoint find_names (fuel : nat) (s : text) : list text :=
  match fuel with
  | O => []
  | S fuel' =>
      match s with
      | [] => []
      | c :: s' =>
          if StartCharAt s then
            let '(run, l, r) := word_run (length s) s in
            if (4 <=? run)%nat then
              let '(t, r') := name_tail (length r) r in (l ++ t) :: find_names fuel' r'
            else find_names fuel' s'
          else find_names fuel' s'
      end
  end.

Definition CppNamesFindAll (s : text) : list text := find_names (length s) s.

(** ** [SequenceMatcher] *)

Record MatchingBlock := MkBlock { mA : nat; mB : nat; mSize : nat }.

Inductive OpTag := Replace | Delete | Insert | Equal.
#[export] Instance OpTag_eq_dec : EqDecision OpTag.
Proof. solve_decision. Defined.

Definition OpTagName (Tag : OpTag) : text :=
  match Tag with
  | Replace => B "replace"
  | Delete => B "delete"
  | Insert => B "insert"
  | Equal => B "equal"
  end.

Record Opcode := MkOpcode { Tag : OpTag; I1 : nat; I2 : nat; J1 : nat; J2 : nat }.

(** [2.0 * matches / length], or 1.0. *)
Definition CalculateRatio (Matches Length : nat) : dbl :=
  if negb (Length =? 0)%nat
  then ddiv (dmul (d_of_Z 2) (d_of_Z (Z.of_nat Matches))) (d_of_Z (Z.of_nat Length))
  else d1.

(** The matcher's fields. [AKey] holds [None] for [kAbsent]. *)
Record Matcher := MkMatcher {
  seqA : list N;
  seqB : list N;
  B2j : list (list nat);
  Popular : list bool;
  AKey : list (option nat);
  BKey : list nat;
}.

(** The loop over [b]: the direct table and the hash map are one finite map. *)
Record ChainState := MkChain {
  cKeys : gmap N nat;
  cB2j : list (list nat);
  cBKey : list nat;
}.

Definition chain_step (c : ChainState) (i : nat) (v : N) : ChainState :=
  match cKeys c !! v with
  | None =>
      let key := length (cB2j c) in
      MkChain (<[v := key]> (cKeys c)) (cB2j c ++ [[i]]) (cBKey c ++ [key])
  | Some key =>
      MkChain (cKeys c) (alter (fun l => l ++ [i]) key (cB2j c)) (cBKey c ++ [key])
  end.

Fixpoint chain_loop (c : ChainState) (i : nat) (b : list N) : ChainState :=
  match b with
  | [] => c
  | v :: b' => chain_loop (chain_step c i v) (S i) b'
  end.

Definition ChainB (a b : list N) (AutoJunk : bool) : Matcher :=
  let c := chain_loop (MkChain ∅ [] []) 0 b in
  let n := length b in
  let ntest := n / 100 + 1 in
  let purge := AutoJunk && (200 <=? n)%nat in
  let popular := map (fun js => purge && (ntest <? length js)%nat) (cB2j c) in
  let b2j := zip_with (fun (p : bool) js => if p then [] else js) popular (cB2j c) in
  MkMatcher a b b2j popular (map (fun v => cKeys c !! v) a) (cBKey c).

(** [kAbsent] elements or more: [std::length_error]. *)
Definition SequenceMatcher (a b : list N) (AutoJunk : bool) : res Matcher :=
  if ((4294967295 <=? Z.of_nat (length a)) || (4294967295 <=? Z.of_nat (length b)))%Z
  then Throw (CxxException (B "length_error"))
  else Ok (ChainB a b AutoJunk).

(** One row of [FindLongestMatch]: [Js] from the first index not below [Blo];
    the pointer into [Prev] only moves forward. *)
Fixpoint skip_below (j : nat) (Prev : list (nat * nat)) : list (nat * nat) :=
  match Prev with
  | (p, _) :: Prev' => if (p <? j)%nat then skip_below j Prev' else Prev
  | [] => []
  end.

Fixpoint lower_bound (lo : nat) (js : list nat) : list nat :=
  match js with
  | j :: js' => if (j <? lo)%nat then lower_bound lo js' else js
  | [] => []
  end.

Definition better_block (i j k : nat) (best : MatchingBlock) : MatchingBlock :=
  if (mSize best <? k)%nat then MkBlock (i + 1 - k) (j + 1 - k) k else best.

Fixpoint match_row (i Bhi : nat) (js : list nat) (Prev : list (nat * nat))
    (best : MatchingBlock) : list (nat * nat) * MatchingBlock :=
  match js with
  | [] => ([], best)
  | j :: js' =>
      if (Bhi <=? j)%nat then ([], best)
      else
        let '(Prev', Previous) :=
          match j with
          | O => (Prev, 0)
          | S j' =>
              let P := skip_below j' Prev in
              (P, match P with (p, k) :: _ => if (p =? j')%nat then k else 0 | [] => 0 end)
          end in
        let k := Previous + 1 in
        let '(Cur, best') := match_row i Bhi js' Prev' (better_block i j k best) in
        ((j, k) :: Cur, best')
  end.

(** The rows [I, I + 1, ...], [n] of them. *)
Fixpoint match_rows (M : Matcher) (Blo Bhi : nat) (n i : nat) (Prev : list (nat * nat))
    (best : MatchingBlock) : MatchingBlock :=
  match n with
  | O => best
  | S n' =>
      let js := match AKey M !! i with
                | Some (Some key) => default [] (B2j M !! key)
                | _ => []
                end in
      let '(Cur, best') := match_row i Bhi (lower_bound Blo js) Prev best in
      match_rows M Blo Bhi n' (S i) Cur best'
  end.

Definition same_at (M : Matcher) (i j : nat) : bool :=
  match seqA M !! i, seqB M !! j with
  | Some x, Some y => (x =? y)%N
  | _, _ => false
  end.

(** The two extension loops; each turn moves an index towards its bound. *)
Fixpoint extend_back (fuel : nat) (M : Matcher) (Alo Blo : nat) (b : MatchingBlock) : MatchingBlock :=
  match fuel with
  | O => b
  | S fuel' =>
      if ((Alo <? mA b) && (Blo <? mB b))%nat && same_at M (mA b - 1) (mB b - 1)
      then extend_back fuel' M Alo Blo (MkBlock (mA b - 1) (mB b - 1) (mSize b + 1))
      else b
  end.

Fixpoint extend_front (fuel : nat) (M : Matcher) (Ahi Bhi : nat) (b : MatchingBlock) : MatchingBlock :=
  match fuel with
  | O => b
  | S fuel' =>
      if ((mA b + mSize b <? Ahi) && (mB b + mSize b <? Bhi))%nat
         && same_at M (mA b + mSize b) (mB b + mSize b)
      then extend_front fuel' M Ahi Bhi (MkBlock (mA b) (mB b) (mSize b + 1))
      else b
  end.

(** The search inside [Alo, Ahi) x [Blo, Bhi), the ranges checked. *)
Definition find_longest (M : Matcher) (Alo Ahi Blo Bhi : nat) : MatchingBlock :=
  let best := match_rows M Blo Bhi (Ahi - Alo) Alo [] (MkBlock Alo Blo 0) in
  extend_front (Ahi - Alo) M Ahi Bhi (extend_back (Ahi - Alo) M Alo Blo best).

Definition FindLongestMatch (M : Matcher) (Alo Ahi Blo Bhi : nat) : res MatchingBlock :=
  if ((length (seqA M) <? Ahi) || (length (seqB M) <? Bhi) || (Ahi <? Alo) || (Bhi <? Blo))%nat
  then Throw (CxxException (B "out_of_range"))
  else Ok (find_longest M Alo Ahi Blo Bhi).

(** A work item of [GetMatchingBlocks]. *)
Record Range := MkRange { Alo : nat; Ahi : nat; Blo : nat; Bhi : nat }.

(** The queue is a stack; each turn pops a range and may push two smaller
    ones. [None]: out of fuel. *)
Fixpoint blocks_loop (fuel : nat) (M : Matcher) (Queue : list Range) (Blocks : list MatchingBlock)
    : option (res (list MatchingBlock)) :=
  match fuel with
  | O => None
  | S fuel' =>
      match Queue with
      | [] => Some (Ok Blocks)
      | R :: Queue' =>
          match FindLongestMatch M (Alo R) (Ahi R) (Blo R) (Bhi R) with
          | Throw e => Some (Throw e)
          | Ok x =>
              if (mSize x =? 0)%nat then blocks_loop fuel' M Queue' Blocks
              else
                let left := if ((Alo R <? mA x) && (Blo R <? mB x))%nat
                            then [MkRange (Alo R) (mA x) (Blo R) (mB x)] else [] in
                let right := if ((mA x + mSize x <? Ahi R) && (mB x + mSize x <? Bhi R))%nat
                             then [MkRange (mA x + mSize x) (Ahi R) (mB x + mSize x) (Bhi R)]
                             else [] in
                blocks_loop fuel' M (right ++ left ++ Queue') (Blocks ++ [x])
          end
      end
  end.

Definition block_ltb (l r : MatchingBlock) : bool :=
  if negb (mA l =? mA r)%nat then (mA l <? mA r)%nat
  else if negb (mB l =? mB r)%nat then (mB l <? mB r)%nat
  else (mSize l <? mSize r)%nat.

(** Collapsing adjacent blocks. *)
Fixpoint collapse (i1 j1 k1 : nat) (Blocks : list MatchingBlock) : list MatchingBlock :=
  match Blocks with
  | [] => if negb (k1 =? 0)%nat then [MkBlock i1 j1 k1] else []
  | x :: Blocks' =>
      if ((i1 + k1 =? mA x) && (j1 + k1 =? mB x))%nat then collapse i1 j1 (k1 + mSize x) Blocks'
      else (if negb (k1 =? 0)%nat then [MkBlock i1 j1 k1] else [])
             ++ collapse (mA x) (mB x) (mSize x) Blocks'
  end.

Definition GetMatchingBlocks (M : Matcher) : option (res (list MatchingBlock)) :=
  let La := length (seqA M) in
  let Lb := length (seqB M) in
  match blocks_loop (2 * La + 2) M [MkRange 0 La 0 Lb] [] with
  | None => None
  | Some (Throw e) => Some (Throw e)
  | Some (Ok Blocks) =>
      Some (Ok (collapse 0 0 0 (stable_sort block_ltb Blocks) ++ [MkBlock La Lb 0]))
  end.

(** [get_opcodes]: the pieces between the blocks, and the blocks. *)
Fixpoint opcodes_from (i j : nat) (Blocks : list MatchingBlock) : list Opcode :=
  match Blocks with
  | [] => []
  | x :: Blocks' =>
      let ai := mA x in
      let bj := mB x in
      let gap :=
        if ((i <? ai) && (j <? bj))%nat then [MkOpcode Replace i ai j bj]
        else if (i <? ai)%nat then [MkOpcode Delete i ai j bj]
        else if (j <? bj)%nat then [MkOpcode Insert i ai j bj]
        else [] in
      let i' := ai + mSize x in
      let j' := bj + mSize x in
      let eq := if negb (mSize x =? 0)%nat then [MkOpcode Equal ai i' bj j'] else [] in
      gap ++ eq ++ opcodes_from i' j' Blocks'
  end.

Definition GetOpcodes (M : Matcher) : option (res (list Opcode)) :=
  match GetMatchingBlocks M with
  | None => None
  | Some (Throw e) => Some (Throw e)
  | Some (Ok Blocks) => Some (Ok (opcodes_from 0 0 Blocks))
  end.

(** [get_grouped_opcodes]: the trims of the first and last code. *)
Definition is_equal (c : Opcode) : bool := bool_decide (Tag c = Equal).

Definition trim_lead (n : nat) (c : Opcode) : Opcode :=
  MkOpcode (Tag c) (I1 c `max` (I2 c - n)) (I2 c) (J1 c `max` (J2 c - n)) (J2 c).
Definition trim_tail (n : nat) (c : Opcode) : Opcode :=
  MkOpcode (Tag c) (I1 c) (I2 c `min` (I1 c + n)) (J1 c) (J2 c `min` (J1 c + n)).

Definition trim_first (n : nat) (codes : list Opcode) : list Opcode :=
  match codes with
  | c :: codes' => (if is_equal c then trim_lead n c else c) :: codes'
  | [] => []
  end.
Fixpoint trim_last (n : nat) (codes : list Opcode) : list Opcode :=
  match codes with
  | [] => []
  | [c] => [if is_equal c then trim_tail n c else c]
  | c :: codes' => c :: trim_last n codes'
  end.

Definition flush_group (Group : list Opcode) : list (list Opcode) :=
  match Group with
  | [] => []
  | [c] => if is_equal c then [] else [[c]]
  | _ => [Group]
  end.

Fixpoint groups_from (n : nat) (Group : list Opcode) (codes : list Opcode) : list (list Opcode) :=
  match codes with
  | [] => flush_group Group
  | c :: codes' =>
      if is_equal c && (n + n <? I2 c - I1 c)%nat then
        (Group ++ [trim_tail n c]) :: groups_from n [trim_lead n c] codes'
      else groups_from n (Group ++ [c]) codes'
  end.

Definition group_codes (n : nat) (Opcodes : list Opcode) : list (list Opcode) :=
  let codes := match Opcodes with [] => [MkOpcode Equal 0 1 0 1] | _ => Opcodes end in
  groups_from n [] (trim_last n (trim_first n codes)).

Definition GetGroupedOpcodes (M : Matcher) (n : Z) : option (res (list (list Opcode))) :=
  if (n <? 0)%Z then Some (Throw (CxxException (B "invalid_argument")))
  else
    match GetOpcodes M with
    | None => None
    | Some (Throw e) => Some (Throw e)
    | Some (Ok Opcodes) => Some (Ok (group_codes (Z.to_nat n) Opcodes))
    end.

(** ** The three ratios *)

Definition block_matches (Blocks : list MatchingBlock) : nat := sum_list_with mSize Blocks.

Definition Ratio (M : Matcher) : option (res dbl) :=
  match GetMatchingBlocks M with
  | None => None
  | Some (Throw e) => Some (Throw e)
  | Some (Ok Blocks) =>
      Some (Ok (CalculateRatio (block_matches Blocks) (length (seqA M) + length (seqB M))))
  end.

(** [fullbcount] over the dense keys. *)
Definition full_b_count (M : Matcher) : list Z :=
  fold_left (fun counts key => alter (Z.add 1) key counts) (BKey M)
    (replicate (length (B2j M)) 0%Z).

(** The walk over [a]: [avail] overrides the full count of a key. *)
Fixpoint quick_loop (full : list Z) (avail : gmap nat Z) (keys : list (option nat)) : nat :=
  match keys with
  | [] => 0
  | None :: keys' => quick_loop full avail keys'
  | Some key :: keys' =>
      let numb := match avail !! key with Some n => n | None => default 0%Z (full !! key) end in
      (if (0 <? numb)%Z then 1 else 0)
      + quick_loop full (<[key := (numb - 1)%Z]> avail) keys'
  end.

Definition quick_matches (M : Matcher) : nat := quick_loop (full_b_count M) ∅ (AKey M).

Definition QuickRatio (M : Matcher) : dbl :=
  CalculateRatio (quick_matches M) (length (seqA M) + length (seqB M)).

Definition RealQuickRatio (M : Matcher) : dbl :=
  CalculateRatio (length (seqA M) `min` length (seqB M)) (length (seqA M) + length (seqB M)).

(** ** [unified_diff] *)

(** [std::to_string]. *)
Definition to_string (n : nat) : text := String.list_byte_of_string (pretty (N.of_nat n)).

Definition FormatRangeUnified (Start Stop : nat) : text :=
  let Beginning := Start + 1 in
  let Length := Stop - Start in
  if (Length =? 1)%nat then to_string Beginning
  else
    let Beginning := if (Length =? 0)%nat then Beginning - 1 else Beginning in
    to_string Beginning ++ B "," ++ to_string Length.

(** Interning the lines: the ids are the order of first appearance. *)
Fixpoint intern_lines (ids : gmap text N) (lines : list text) : gmap text N * list N :=
  match lines with
  | [] => (ids, [])
  | l :: lines' =>
      match ids !! l with
      | Some id => let '(ids', r) := intern_lines ids lines' in (ids', id :: r)
      | None =>
          let id := N.of_nat (size ids) in
          let '(ids', r) := intern_lines (<[l := id]> ids) lines' in (ids', id :: r)
      end
  end.

(** [Rows.push_back(Prefixed(prefix, S[I]))] for [I] from [lo] to [hi]. *)
Definition prefixed (p : byte) (s : list text) (lo hi : nat) : list text :=
  map (cons p) (take (hi - lo) (drop lo s)).

Definition opcode_rows (a b : list text) (c : Opcode) : list text :=
  match Tag c with
  | Equal => prefixed x20 a (I1 c) (I2 c)
  | Replace => prefixed x2d a (I1 c) (I2 c) ++ prefixed x2b b (J1 c) (J2 c)
  | Delete => prefixed x2d a (I1 c) (I2 c)
  | Insert => prefixed x2b b (J1 c) (J2 c)
  end.

(** The groups are never empty; [Group.front()] and [Group.back()]. *)
Definition group_rows (a b : list text) (LineTerm : text) (Group : list Opcode) : list text :=
  match head Group, last Group with
  | Some First, Some Last =>
      (B "@@ -" ++ FormatRangeUnified (I1 First) (I2 Last) ++ B " +"
         ++ FormatRangeUnified (J1 First) (J2 Last) ++ B " @@" ++ LineTerm)
      :: mjoin (map (opcode_rows a b) Group)
  | _, _ => []
  end.

Definition diff_rows (a b : list text) (LineTerm : text) (Groups : list (list Opcode)) : list text :=
  match Groups with
  | [] => []
  | _ => (B "--- " ++ LineTerm) :: (B "+++ " ++ LineTerm)
           :: mjoin (map (group_rows a b LineTerm) Groups)
  end.

Definition UnifiedDiff (a b : list text) (n : Z) (LineTerm : text) : option (res (list text)) :=
  let '(ids, a') := intern_lines ∅ a in
  let '(_, b') := intern_lines ids b in
  match SequenceMatcher a' b' true with
  | Throw e => Some (Throw e)
  | Ok M =>
      match GetGroupedOpcodes M n with
      | None => None
      | Some (Throw e) => Some (Throw e)
      | Some (Ok Groups) => Some (Ok (diff_rows a b LineTerm Groups))
      end
  end.
