(* ===== verification/TextLines.v ===== *)
(** * Line splitting and name scanning are what Python does
      (src/src/diff/TextDiff.cpp)

    [PySplitNewline] is the inverse of joining with newlines, [PySplitLines]
    cuts exactly at the breaks of [str.splitlines], [CppNamesFindAll] finds
    disjoint matches of the callee-name pattern from left to right. *)

From stdpp Require Import base numbers gmap sets list sorting.
From Stdlib Require Import ZArith Lia.
From S2P Require Import Prelude Dbl TextDiff.

(** ** [split("\n")] *)

(** [sep.join(pieces)]. *)
Fixpoint join_with (sep : text) (pieces : list text) : text :=
  match pieces with
  | [] => []
  | [p] => p
  | p :: ps => p ++ sep ++ join_with sep ps
  end.

Lemma split_from_spec (s piece : text) :
  (x0a ∉ piece) ->
  split_from piece s <> [] /\ Forall (fun p => x0a ∉ p) (split_from piece s) /\
  join_with [x0a] (split_from piece s) = piece ++ s.
Proof.
  revert piece. induction s as [|c s IH]; intros piece Hp; simpl.
  { split; [done|]. split; [by apply Forall_singleton|by rewrite app_nil_r]. }
  case_bool_decide as Hc.
  - subst c. destruct (IH []) as (Hne & Hf & Hj); [apply not_elem_of_nil|].
    split; [done|]. split; [by constructor|].
    destruct (split_from [] s) as [|q qs]; [done|]. simpl in Hj |- *. by rewrite <- Hj.
  - destruct (IH (piece ++ [c])) as (Hne & Hf & Hj).
    { rewrite elem_of_app, list_elem_of_singleton. intros [?|?]; congruence. }
    split; [done|]. split; [done|]. by rewrite Hj, <- app_assoc.
Qed.

Lemma split_from_app_nl (p s piece : text) :
  (x0a ∉ p) -> split_from piece (p ++ x0a :: s) = (piece ++ p) :: split_from [] s.
Proof.
  revert piece. induction p as [|c p IH]; intros piece Hp; simpl.
  - by rewrite app_nil_r.
  - rewrite elem_of_cons in Hp. rewrite bool_decide_false by (intros ->; auto).
    rewrite IH by auto. by rewrite <- app_assoc.
Qed.

Lemma split_from_last (p piece : text) : (x0a ∉ p) -> split_from piece p = [piece ++ p].
Proof.
  revert piece. induction p as [|c p IH]; intros piece Hp; simpl; [by rewrite app_nil_r|].
  rewrite elem_of_cons in Hp. rewrite bool_decide_false by (intros ->; auto).
  rewrite IH by auto. by rewrite <- app_assoc.
Qed.

(** [PySplitNewline] inverts joining with newlines: the pieces hold no
    newline, there is at least one, joining them gives the text back, and every
    list of newline-free pieces is returned unchanged after joining. *)
Theorem PySplitNewline_inverse (s : text) (pieces : list text) :
  PySplitNewline s <> [] /\
  Forall (fun p => x0a ∉ p) (PySplitNewline s) /\
  join_with [x0a] (PySplitNewline s) = s /\
  (pieces <> [] -> Forall (fun p => x0a ∉ p) pieces ->
   PySplitNewline (join_with [x0a] pieces) = pieces).
Proof.
  unfold PySplitNewline. pose proof (split_from_spec s [] (not_elem_of_nil _)) as (H1 & H2 & H3).
  split; [done|]. split; [done|]. split; [done|]. intros Hne Hf.
  induction Hf as [|p ps Hp Hps IH]; [done|]. destruct ps as [|q qs].
  - simpl. by rewrite split_from_last.
  - change (join_with [x0a] (p :: q :: qs)) with (p ++ x0a :: join_with [x0a] (q :: qs)).
    rewrite split_from_app_nl by done. simpl app. f_equal. by apply IH.
Qed.

(** ** [splitlines()] *)

(** The line breaks of Python 3.13, in UTF-8; ["\r\n"] is one. *)
Definition line_breaks : list text :=
  [[x0a]; [x0b]; [x0c]; [x0d]; [x0d; x0a]; [x1c]; [x1d]; [x1e];
   [xc2; x85]; [xe2; x80; xa8]; [xe2; x80; xa9]].

(** No break starts inside the line. *)
Definition no_break (l rest : text) : Prop :=
  forall a c, l = a ++ c -> c <> [] -> LineBreakAt (c ++ rest) = 0.

(** [str.splitlines] as a relation. *)
Inductive splits : text -> list text -> Prop :=
| sp_nil : splits [] []
| sp_last l : l <> [] -> no_break l [] -> splits l [l]
| sp_line l b r ls :
    no_break l (b ++ r) -> b ∈ line_breaks -> (b = [x0d] -> head r <> Some x0a) ->
    splits r ls -> splits (l ++ b ++ r) (l :: ls).

Lemma scan_line_spec (s : text) :
  let '(l, r) := scan_line s in
  s = l ++ r /\ no_break l r /\ (r = [] \/ LineBreakAt r <> 0).
Proof.
  induction s as [|c s IH]; cbn [scan_line].
  { split; [done|]. split; [|auto]. intros [|] ? ? ?; done. }
  destruct (LineBreakAt (c :: s) =? 0)%nat eqn:E; bool_props.
  - destruct (scan_line s) as [l r]. destruct IH as (-> & Hn & Hr).
    split; [done|]. split; [|done]. intros [|a0 a] d H Hd; simplify_eq/=.
    + done.
    + by eapply Hn.
  - split; [done|]. split; [|auto]. intros [|] ? ? ?; done.
Qed.

(** A break at the head of a text, cut off the way the code does. *)
Lemma skip_break_spec (r : text) :
  LineBreakAt r <> 0 ->
  exists b, r = b ++ skip_break r /\ b ∈ line_breaks /\
    (b = [x0d] -> head (skip_break r) <> Some x0a).
Proof.
  intros H. destruct r as [|c r]; [done|].
  assert (Hcrlf : forall r', c = x0d -> r = x0a :: r' ->
    exists b, c :: r = b ++ skip_break (c :: r) /\ b ∈ line_breaks /\
      (b = [x0d] -> head (skip_break (c :: r)) <> Some x0a)).
  { intros r' -> ->. exists [x0d; x0a]. simpl. split; [done|]. split; [|done].
    unfold line_breaks. set_solver. }
  assert (Hskip : (forall r', c = x0d -> r <> x0a :: r') ->
            skip_break (c :: r) = drop (LineBreakAt (c :: r)) (c :: r)).
  { intros Hn. unfold skip_break. destruct r as [|d r']; [done|].
    case_bool_decide; [|done]. case_bool_decide; [|done]. subst. by destruct (Hn r'). }
  destruct (decide (c = x0d /\ head r = Some x0a)) as [[Hc Hr]|Hn].
  { destruct r as [|d r]; simplify_eq/=. by eapply Hcrlf. }
  assert (Hn' : forall r', c = x0d -> r <> x0a :: r')
    by (intros r' -> ->; apply Hn; done).
  rewrite (Hskip Hn'). clear Hskip Hcrlf. unfold LineBreakAt in *.
  case_bool_decide as H1.
  - exists [c]. split; [done|]. split.
    + set_unfold in H1. destruct_or! H1; subst; try done;
        by apply (bool_decide_unpack _); vm_compute.
    + intros [= ->]. simpl. destruct r as [|d r]; [done|]. intros [= ->]. by apply (Hn' r).
  - case_bool_decide as H2; [|case_bool_decide as H3; [|done]].
    + destruct r as [|c1 r]; [done|]. case_bool_decide as H4; [|done]. subst.
      exists [xc2; x85]. split; [done|]. split; [unfold line_breaks; set_solver|done].
    + destruct r as [|c1 [|c2 r]]; [done..|].
      destruct (bool_decide (c1 = x80)) eqn:H4; [|done]. bool_props. simpl in *.
      case_bool_decide as H5; [|done]. subst.
      exists [xe2; x80; c2]. split; [done|]. split; [|done].
      unfold line_breaks. destruct H5 as [-> | ->]; set_solver.
Qed.

Lemma skip_break_length (r : text) : r <> [] -> LineBreakAt r <> 0 -> length (skip_break r) < length r.
Proof.
  intros Hr H. destruct (skip_break_spec r H) as (b & E & Hb & _).
  rewrite E at 2. rewrite length_app. assert (length b <> 0); [|lia].
  intros E0. apply nil_length_inv in E0 as ->.
  apply (bool_decide_pack _) in Hb. by vm_compute in Hb.
Qed.

Lemma split_lines_spec (fuel : nat) (s : text) :
  length s <= fuel -> splits s (split_lines fuel s).
Proof.
  revert s. induction fuel as [|fuel IH]; intros s Hf.
  { destruct s; [constructor|simpl in Hf; lia]. }
  destruct s as [|c s]; [constructor|]. cbn [split_lines].
  pose proof (scan_line_spec (c :: s)) as Hs.
  destruct (scan_line (c :: s)) as [l r]. destruct Hs as (E & Hn & Hr).
  assert (Hl : length (l ++ r) <= S fuel) by (rewrite <- E; done). rewrite length_app in Hl.
  destruct r as [|d r].
  - rewrite E, app_nil_r. unfold skip_break. simpl.
    replace (split_lines fuel []) with (@nil text) by (by destruct fuel).
    apply sp_last; [|done]. intros ->. simpl in E. done.
  - destruct Hr as [|Hb]; [done|].
    destruct (skip_break_spec (d :: r) Hb) as (b & Eb & Hin & Hcr).
    rewrite E, Eb at 1. apply sp_line; [by rewrite <- Eb|done|done|]. apply IH.
    pose proof (skip_break_length (d :: r)) as Hlt. specialize (Hlt ltac:(done) Hb).
    simpl in *. lia.
Qed.

(** [PySplitLines] is [str.splitlines]: the text is the lines with their
    breaks in order, no break starts inside a line, ["\r\n"] counts once, and a
    trailing break opens no line; the loop always ends. *)
Theorem PySplitLines_splits (s : text) : splits s (PySplitLines s).
Proof. by apply split_lines_spec. Qed.

(** ** The callee-name pattern

    [[a-zA-Z_][a-zA-Z0-9_]{3,}((::){0,1}[a-zA-Z0-9_]+)*] under [re.IGNORECASE]:
    a word character is an ASCII letter, digit or underscore, or one of the
    four code points U+0130, U+0131, U+017F, U+212A. *)

Inductive word_char : text -> Prop :=
| wc_ascii c : is_word_byte c = true -> word_char [c]
| wc_dotted : word_char [xc4; xb0]
| wc_dotless : word_char [xc4; xb1]
| wc_long_s : word_char [xc5; xbf]
| wc_kelvin : word_char [xe2; x84; xaa].

(** [n] word characters in a row. *)
Inductive words : nat -> text -> Prop :=
| words_nil : words 0 []
| words_cons c n w : word_char c -> words n w -> words (S n) (c ++ w).

(** The [("::" word+)*] part. *)
Inductive extensions : text -> Prop :=
| ext_nil : extensions []
| ext_cons n w e : words (S n) w -> extensions e -> extensions (B "::" ++ w ++ e).

Definition cpp_name (t : text) : Prop :=
  exists n w e, t = w ++ e /\ words n w /\ 4 <= n /\ StartCharAt t = true /\ extensions e.

(** Disjoint matches of the pattern, in order of position. *)
Inductive found_in : text -> list text -> Prop :=
| found_nil s : found_in s []
| found_cons a t s ts : cpp_name t -> found_in s ts -> found_in (a ++ t ++ s) (t :: ts).

Lemma WordCharAt_word (s : text) :
  WordCharAt s <> 0 -> word_char (take (WordCharAt s) s).
Proof.
  intros H. destruct s as [|c s]; [done|]. unfold WordCharAt in *.
  destruct (is_word_byte c) eqn:Ec; [by constructor|].
  case_bool_decide as H1.
  { destruct s as [|c1 s]; [done|]. case_bool_decide as H2; [|done].
    subst c. destruct H2 as [-> | ->]; constructor. }
  case_bool_decide as H2.
  { destruct s as [|c1 s]; [done|]. case_bool_decide as H3; [|done]. subst. constructor. }
  case_bool_decide as H3; [|done].
  destruct s as [|c1 [|c2 s]]; [done..|].
  destruct (bool_decide (c1 = x84)) eqn:E1, (bool_decide (c2 = xaa)) eqn:E2; try done.
  bool_props. subst. constructor.
Qed.

Lemma word_run_spec (fuel : nat) (s : text) :
  let '(n, l, r) := word_run fuel s in
  s = l ++ r /\ words n l /\ (length s <= fuel -> WordCharAt r = 0).
Proof.
  revert s. induction fuel as [|fuel IH]; intros s; cbn [word_run].
  { split; [done|]. split; [constructor|]. destruct s; [done|simpl; lia]. }
  destruct (WordCharAt s) as [|w] eqn:Ew.
  { split; [done|]. split; [constructor|done]. }
  pose proof (IH (drop (S w) s)) as Hd.
  destruct (word_run fuel (drop (S w) s)) as [[n l] r]. destruct Hd as (E & Hw & Hf).
  split; [by rewrite <- app_assoc, <- E, take_drop|].
  split.
  - constructor; [|done]. rewrite <- Ew. apply WordCharAt_word. lia.
  - intros Hs. apply Hf. rewrite length_drop. lia.
Qed.

Lemma words_positive (n : nat) (s l r : text) :
  s = l ++ r -> words n l -> WordCharAt s <> 0 -> WordCharAt r = 0 -> n <> 0.
Proof. intros -> Hw H Hr ->. inversion Hw; subst. by simpl in H. Qed.

Lemma name_tail_spec (fuel : nat) (s : text) :
  let '(l, r) := name_tail fuel s in s = l ++ r /\ extensions l.
Proof.
  revert s. induction fuel as [|fuel IH]; intros s; cbn [name_tail].
  { split; [done|constructor]. }
  destruct s as [|c [|d s]]; [by split; [|constructor]..|].
  destruct (bool_decide (c = x3a)) eqn:Ec; [|by split; [|constructor]].
  destruct (bool_decide (d = x3a)) eqn:Ed; [|by split; [|constructor]]. simpl andb.
  destruct (WordCharAt s =? 0)%nat eqn:Ew; [by split; [|constructor]|]. simpl negb. cbv iota.
  pose proof (word_run_spec (length s) s) as Hr.
  destruct (word_run (length s) s) as [[n l] r]. destruct Hr as (E & Hw & Hf).
  pose proof (IH r) as Ht. destruct (name_tail fuel r) as [l' r']. destruct Ht as (-> & He).
  bool_props. subst c d. split; [by rewrite E; simpl; rewrite <- app_assoc|].
  assert (Hn : n <> 0) by (eapply words_positive; [exact E|done|done|by apply Hf]).
  destruct n; [done|]. by apply (ext_cons n l l').
Qed.

Lemma StartCharAt_app (t r : text) : StartCharAt (t ++ r) = true -> t <> [] -> WordCharAt t <> 0 ->
  StartCharAt t = true.
Proof.
  intros H Ht Hw. destruct t as [|c t]; [done|]. unfold StartCharAt in *.
  apply andb_true_iff in H as [_ H]. rewrite andb_true_iff. split; [|done].
  by apply negb_true_iff, Nat.eqb_neq.
Qed.

Lemma word_char_at (c w : text) : word_char c -> WordCharAt (c ++ w) <> 0.
Proof. intros []; simpl; [|done..]. by rewrite H. Qed.

(** [CppNamesFindAll] returns matches of the callee-name pattern that are
    disjoint and in the order of the text. *)
Theorem CppNamesFindAll_matches (s : text) : found_in s (CppNamesFindAll s).
Proof.
  unfold CppNamesFindAll. generalize (length s). intros fuel. revert s.
  assert (Hskip : forall c s ts, found_in s ts -> found_in (c :: s) ts).
  { intros c s ts H. inversion H; subst; [constructor|].
    rewrite (app_comm_cons a). by constructor. }
  induction fuel as [|fuel IH]; intros s; cbn [find_names]; [constructor|].
  destruct s as [|c s]; [constructor|].
  destruct (StartCharAt (c :: s)) eqn:Es; [|by apply Hskip].
  pose proof (word_run_spec (length (c :: s)) (c :: s)) as Hr.
  destruct (word_run (length (c :: s)) (c :: s)) as [[n l] r]. destruct Hr as (E & Hw & _).
  destruct (Nat.leb_spec 4 n); [|by apply Hskip].
  pose proof (name_tail_spec (length r) r) as Ht.
  destruct (name_tail (length r) r) as [t r']. destruct Ht as (-> & He).
  rewrite E, app_assoc. apply (found_cons [] (l ++ t)); [|done].
  exists n, l, t. split; [done|]. split; [done|]. split; [done|]. split; [|done].
  apply (StartCharAt_app _ r'); [by rewrite <- app_assoc, <- E|..];
    inversion Hw; subst; try lia.
  - by destruct H0.
  - rewrite <- app_assoc. by apply word_char_at.
Qed.
