(* ===== verification/LongestMatch.v ===== *)
(** * [FindLongestMatch] finds a longest match (src/src/diff/TextDiff.cpp)

    The index [ChainB] builds, the meaning of the two-row dynamic program, and
    the theorem: the block lies in the range, matches, cannot be extended, and
    no common block of non-popular elements is longer. *)

From stdpp Require Import base numbers gmap sets list sorting.
From Stdlib Require Import ZArith Lia.
From S2P Require Import Prelude Dbl TextDiff.

(** ** The index of [b] *)

Fixpoint positions (v : N) (i : nat) (b : list N) : list nat :=
  match b with
  | [] => []
  | x :: b' => if bool_decide (x = v) then i :: positions v (S i) b' else positions v (S i) b'
  end.

Lemma positions_app v i b c :
  positions v i (b ++ c) = positions v i b ++ positions v (i + length b) c.
Proof.
  revert i. induction b as [|x b IH]; intros i; simpl; [by rewrite Nat.add_0_r|].
  rewrite IH. replace (S i + length b) with (i + S (length b)) by lia.
  by case_bool_decide.
Qed.

Lemma elem_of_positions v i b j : j ∈ positions v i b <-> i <= j /\ b !! (j - i) = Some v.
Proof.
  revert i. induction b as [|x b IH]; intros i; simpl.
  { split; [intros H; by apply elem_of_nil in H|]. intros [_ H]. by rewrite lookup_nil in H. }
  assert (Hs : S i <= j -> (x :: b) !! (j - i) = b !! (j - S i))
    by (intros H; by replace (j - i) with (S (j - S i)) by lia).
  case_bool_decide as Hx; rewrite ?elem_of_cons, IH.
  - split.
    + intros [->|[H1 H2]]; [split; [lia|by rewrite Nat.sub_diag, Hx]|].
      split; [lia|by rewrite Hs by lia].
    + intros [H1 H2]. destruct (decide (j = i)); [by left|]. rewrite Hs in H2 by lia. auto with lia.
  - split.
    + intros [H1 H2]. split; [lia|by rewrite Hs by lia].
    + intros [H1 H2]. destruct (decide (j = i)) as [->|]; [rewrite Nat.sub_diag in H2; by simplify_eq/=|].
      rewrite Hs in H2 by lia. auto with lia.
Qed.

Lemma positions_sorted v i b : StronglySorted lt (positions v i b).
Proof.
  revert i. induction b as [|x b IH]; intros i; simpl; [constructor|].
  case_bool_decide; [|done]. constructor; [done|]. apply Forall_forall.
  intros j Hj. apply elem_of_positions in Hj. lia.
Qed.

(** What the loop over [b] has built after the prefix [p]. *)
Record chain_inv (p : list N) (c : ChainState) : Prop := {
  ch_key v : v ∈ p <-> is_Some (cKeys c !! v);
  ch_pos v key : cKeys c !! v = Some key -> cB2j c !! key = Some (positions v 0 p);
  ch_inj v w key : cKeys c !! v = Some key -> cKeys c !! w = Some key -> v = w;
  ch_bkey : Forall2 (fun v key => cKeys c !! v = Some key) p (cBKey c);
}.

Lemma chain_inv_step p c v :
  chain_inv p c -> chain_inv (p ++ [v]) (chain_step c (length p) v).
Proof.
  intros [Hk Hp Hi Hb]. unfold chain_step. destruct (cKeys c !! v) as [key|] eqn:E.
  - assert (Hv : v ∈ p) by (apply Hk; rewrite E; eauto). split; simpl.
    + intros w. rewrite elem_of_app, list_elem_of_singleton, <- Hk. split; [|auto].
      by intros [?| ->].
    + intros w k Hw. rewrite positions_app. simpl. case_bool_decide as Hvw.
      * subst w. assert (k = key) as -> by congruence.
        rewrite list_lookup_alter_eq, (Hp _ _ E). done.
      * rewrite list_lookup_alter_ne, (Hp _ _ Hw); [by rewrite app_nil_r|].
        intros ->. by apply Hvw, (Hi _ _ k).
    + done.
    + apply Forall2_app; [done|]. by repeat constructor.
  - assert (Hv : v ∉ p) by (rewrite Hk, E; by intros []).
    assert (Hlt : forall w k, cKeys c !! w = Some k -> k < length (cB2j c))
      by (intros w k Hw; eapply lookup_lt_Some, Hp, Hw).
    split; simpl.
    + intros w. rewrite elem_of_app, list_elem_of_singleton.
      destruct (decide (v = w)) as [<-|Hw].
      * rewrite lookup_insert_eq. split; eauto.
      * rewrite lookup_insert_ne, <- Hk by done. split; [|auto]. by intros [?| ->].
    + intros w k Hw. rewrite positions_app. simpl.
      destruct (decide (v = w)) as [<-|Hvw].
      * rewrite lookup_insert_eq in Hw. injection Hw as <-.
        rewrite bool_decide_true, list_lookup_middle by done. f_equal.
        assert (positions v 0 p = []) as ->; [|done].
        destruct (positions v 0 p) as [|j l] eqn:El; [done|]. exfalso. apply Hv.
        assert (j ∈ positions v 0 p) as Hj by (rewrite El; by left).
        apply elem_of_positions in Hj as [_ Hj]. by eapply list_elem_of_lookup_2.
      * rewrite lookup_insert_ne in Hw by done. rewrite bool_decide_false, app_nil_r by done.
        rewrite lookup_app_l by by eapply Hlt. by apply Hp.
    + intros w u k. destruct (decide (v = w)) as [<-|], (decide (v = u)) as [<-|]; [done|..].
      * rewrite lookup_insert_eq, lookup_insert_ne by done. intros [= <-] H. by apply Hlt in H; lia.
      * rewrite lookup_insert_eq, lookup_insert_ne by done. intros H [= <-]. by apply Hlt in H; lia.
      * rewrite !lookup_insert_ne by done. apply Hi.
    + apply Forall2_app; [|repeat constructor; by rewrite lookup_insert_eq].
      eapply Forall2_impl; [done|]. intros w k Hw. rewrite lookup_insert_ne; [done|].
      intros Evw. subst. congruence.
Qed.

Lemma chain_inv_loop b : forall p c,
  chain_inv p c -> chain_inv (p ++ b) (chain_loop c (length p) b).
Proof.
  induction b as [|v b IH]; intros p c H; simpl; [by rewrite app_nil_r|].
  rewrite cons_middle, app_assoc. replace (S (length p)) with (length (p ++ [v]))
    by (rewrite length_app; simpl; lia). by apply IH, chain_inv_step.
Qed.

Lemma chain_inv_whole b : chain_inv b (chain_loop (MkChain ∅ [] []) 0 b).
Proof.
  apply (chain_inv_loop b [] (MkChain ∅ [] [])). split; simpl; [|by intros v k..|constructor].
  intros v. rewrite lookup_empty. split; [intros H; by apply elem_of_nil in H|by intros []].
Qed.

(** Python's popular elements: more than [n / 100 + 1] times in a [b] of at
    least 200 elements. *)
Definition is_popular (b : list N) (AutoJunk : bool) (v : N) : bool :=
  (AutoJunk && (200 <=? length b) && (length b / 100 + 1 <? length (positions v 0 b)))%nat.

(** The indices [FindLongestMatch] visits for row [i]. *)
Definition row_js (M : Matcher) (i : nat) : list nat :=
  match AKey M !! i with
  | Some (Some key) => default [] (B2j M !! key)
  | _ => []
  end.

Lemma row_js_ChainB a b aj i :
  row_js (ChainB a b aj) i =
  match a !! i with
  | Some v => if is_popular b aj v then [] else positions v 0 b
  | None => []
  end.
Proof.
  pose proof (chain_inv_whole b) as [Hk Hp Hi _].
  unfold row_js, ChainB. set (c := chain_loop _ _ _) in *. cbn [AKey B2j].
  rewrite list_lookup_fmap. destruct (a !! i) as [v|]; [|done]. simpl.
  destruct (cKeys c !! v) as [key|] eqn:E.
  - rewrite lookup_zip_with, list_lookup_fmap, (Hp _ _ E). simpl.
    unfold is_popular. by destruct (_ && _ && _).
  - assert (positions v 0 b = []) as ->; [|by destruct (is_popular _ _ _)].
    destruct (positions v 0 b) as [|j l] eqn:El; [done|]. exfalso.
    assert (j ∈ positions v 0 b) as Hj by (rewrite El; by left).
    apply elem_of_positions in Hj as [_ Hj]. apply list_elem_of_lookup_2, Hk in Hj as [? ?].
    congruence.
Qed.

(** ** One row of the dynamic program *)

Fixpoint prev_get (Prev : list (nat * nat)) (j : nat) : nat :=
  match Prev with
  | [] => 0
  | (p, k) :: Prev' => if (p =? j)%nat then k else prev_get Prev' j
  end.

Definition prev_of (Prev : list (nat * nat)) (j : nat) : nat :=
  match j with O => 0 | S j' => prev_get Prev j' end.

Definition sorted_row (Prev : list (nat * nat)) : Prop :=
  StronglySorted (fun x y => x.1 < y.1) Prev.

Lemma skip_below_get j Prev x : j <= x -> prev_get (skip_below j Prev) x = prev_get Prev x.
Proof.
  intros Hx. induction Prev as [|[p k] Prev IH]; simpl; [done|].
  destruct (Nat.ltb_spec p j); [|done]. rewrite IH. destruct (Nat.eqb_spec p x); [lia|done].
Qed.

Lemma skip_below_sorted j Prev : sorted_row Prev -> sorted_row (skip_below j Prev).
Proof.
  induction 1 as [|[p k] Prev Hs IH Hp]; simpl; [constructor|].
  destruct (p <? j)%nat; [done|]. by constructor.
Qed.

(** After skipping, the head decides the lookup. *)
Lemma skip_below_head j Prev :
  sorted_row Prev ->
  match skip_below j Prev with (p, k) :: _ => if (p =? j)%nat then k else 0 | [] => 0 end
  = prev_get Prev j.
Proof.
  intros Hs. rewrite <- (skip_below_get j Prev j) by lia.
  pose proof (skip_below_sorted j Prev Hs) as Hs'.
  assert (Hge : match skip_below j Prev with (p, _) :: _ => j <= p | [] => True end).
  { clear Hs Hs'. induction Prev as [|[p k] Prev IH]; simpl; [done|].
    destruct (Nat.ltb_spec p j); [done|lia]. }
  destruct (skip_below j Prev) as [|[p k] r]; [done|]. simpl.
  destruct (Nat.eqb_spec p j); [done|]. inversion Hs' as [|? ? _ Hf]; subst. simpl in Hf.
  clear Hs'. induction Hf as [|[q l] r Hq Hf IH]; simpl; [done|].
  simpl in Hq. destruct (Nat.eqb_spec q j); [lia|done].
Qed.

Definition row_entries (Prev : list (nat * nat)) (js : list nat) : list (nat * nat) :=
  map (fun j => (j, prev_of Prev j + 1)) js.

Definition update_best (i : nat) (best : MatchingBlock) (row : list (nat * nat)) : MatchingBlock :=
  fold_left (fun b '(j, k) => better_block i j k b) row best.

Lemma match_row_spec i Bhi js : forall Prev best,
  sorted_row Prev -> StronglySorted lt js ->
  match_row i Bhi js Prev best =
  let row := row_entries Prev (filter (fun j => j < Bhi) js) in (row, update_best i best row).
Proof.
  induction js as [|j js IH]; intros Prev best Hs Hj; [done|].
  inversion Hj as [|? ? Hj' Hf]; subst. cbn [match_row]. rewrite filter_cons.
  destruct (Nat.leb_spec Bhi j).
  { rewrite decide_False by lia. assert (filter (fun j => j < Bhi) js = []) as ->; [|done].
    destruct (filter _ js) as [|x l] eqn:El; [done|].
    assert (Hx : x ∈ filter (fun j => j < Bhi) js) by (rewrite El; by left).
    apply list_elem_of_filter in Hx as [Hx1 Hx2]. rewrite Forall_forall in Hf.
    apply Hf in Hx2. lia. }
  rewrite decide_True by lia.
  assert (Hlet : (match j with
      | O => (Prev, 0)
      | S j' => (skip_below j' Prev, match skip_below j' Prev with
                 (p, k) :: _ => if (p =? j')%nat then k else 0 | [] => 0 end)
      end) = (match j with O => Prev | S j' => skip_below j' Prev end, prev_of Prev j))
    by (destruct j; simpl; [done|]; by rewrite skip_below_head).
  rewrite Hlet. clear Hlet. set (P := match j with O => Prev | S j' => skip_below j' Prev end).
  assert (HP : sorted_row P) by (destruct j; [done|]; by apply skip_below_sorted).
  rewrite IH by done. simpl.
  assert (Hrow : row_entries P (filter (fun j => j < Bhi) js)
               = row_entries Prev (filter (fun j => j < Bhi) js)).
  { apply list_fmap_ext. intros n x Hx. apply list_elem_of_lookup_2, list_elem_of_filter in Hx as [_ Hx].
    rewrite Forall_forall in Hf. apply Hf in Hx. f_equal. f_equal.
    destruct x as [|x]; [lia|]. simpl. unfold P. destruct j; [done|]. apply skip_below_get. lia. }
  by rewrite Hrow.
Qed.

(** ** The program over a range *)

Lemma filter_all {A} (P : A -> Prop) `{!forall x, Decision (P x)} (l : list A) :
  Forall P l -> filter P l = l.
Proof.
  induction 1 as [|x l Hx Hl IH]; [done|]. rewrite filter_cons, decide_True by done. by rewrite IH.
Qed.

Section Search.
Context (a b : list N) (aj : bool) (lo hi bl bh : nat).
Context (Hlo : lo <= hi) (Hhi : hi <= length a) (Hbl : bl <= bh) (Hbh : bh <= length b).
Abbreviation M := (ChainB a b aj).

(** [a[i] = b[j]], an element that is not popular. *)
Definition cand (i j : nat) : bool :=
  match a !! i, b !! j with
  | Some x, Some y => (x =? y)%N && negb (is_popular b aj x)
  | _, _ => false
  end.

(** Length of the run of candidates ending before row [lo + p], column [bl + q]. *)
Fixpoint run (p q : nat) : nat :=
  match p, q with
  | S p', S q' => if cand (lo + p') (bl + q') then S (run p' q') else 0
  | _, _ => 0
  end.

Lemma row_js_cand i j : j ∈ row_js M i <-> cand i j = true.
Proof.
  rewrite row_js_ChainB. unfold cand. destruct (a !! i) as [v|].
  - destruct (is_popular b aj v).
    + split; [intros H; by apply elem_of_nil in H|]. destruct (b !! j); [|done].
      by rewrite andb_false_r.
    + rewrite elem_of_positions, Nat.sub_0_r. destruct (b !! j) as [y|]; [|by split; intros; destruct_and?].
      rewrite andb_true_r, N.eqb_eq. split; [intros [_ [= ->]]; done|intros ->; split; [lia|done]].
  - split; [intros H; by apply elem_of_nil in H|done].
Qed.

Lemma row_js_sorted i : StronglySorted lt (row_js M i).
Proof.
  rewrite row_js_ChainB. destruct (a !! i) as [v|]; [|constructor].
  destruct (is_popular b aj v); [constructor|apply positions_sorted].
Qed.

Lemma lower_bound_spec js :
  StronglySorted lt js -> lower_bound bl js = filter (fun j => bl <= j) js.
Proof.
  induction 1 as [|j js Hs IH Hf]; simpl; [done|]. rewrite filter_cons.
  destruct (Nat.ltb_spec j bl); [by rewrite decide_False by lia|].
  rewrite decide_True by done. f_equal. symmetry. apply filter_all.
  eapply Forall_impl; [exact Hf|]. simpl. lia.
Qed.

(** The columns of one row, in order. *)
Definition cols (i : nat) : list nat :=
  filter (fun j => j < bh) (lower_bound bl (row_js M i)).

Lemma elem_of_cols i j : j ∈ cols i <-> bl <= j < bh /\ cand i j = true.
Proof.
  unfold cols. rewrite lower_bound_spec by apply row_js_sorted.
  rewrite !list_elem_of_filter, row_js_cand. tauto.
Qed.

Lemma filter_sorted (P : nat -> Prop) `{!forall x, Decision (P x)} l :
  StronglySorted lt l -> StronglySorted lt (filter P l).
Proof.
  induction 1 as [|x l Hs IH Hf]; [constructor|]. rewrite filter_cons.
  case_decide; [|done]. constructor; [done|]. rewrite Forall_forall in Hf |- *.
  intros y Hy. apply Hf. by apply list_elem_of_filter in Hy as [_ ?].
Qed.

Lemma cols_sorted i : StronglySorted lt (cols i).
Proof.
  unfold cols. rewrite lower_bound_spec by apply row_js_sorted.
  apply filter_sorted, filter_sorted, row_js_sorted.
Qed.

(** What the row list holds after [p] rows. *)
Definition row_means (p : nat) (Prev : list (nat * nat)) : Prop :=
  sorted_row Prev /\ (forall x, x < bl -> prev_get Prev x = 0) /\
  forall q, prev_get Prev (bl + q) = if (q <? bh - bl)%nat then run p (S q) else 0.

Lemma prev_get_entries Prev js j :
  prev_get (row_entries Prev js) j = if bool_decide (j ∈ js) then prev_of Prev j + 1 else 0.
Proof.
  induction js as [|x js IH]; simpl; [done|].
  destruct (Nat.eqb_spec x j) as [->|].
  - by rewrite bool_decide_true by (left).
  - rewrite IH. case_bool_decide as H1; case_bool_decide as H2; try done.
    + exfalso. apply H2. by right.
    + exfalso. apply elem_of_cons in H2 as [|]; done.
Qed.

Lemma prev_of_run p Prev q :
  row_means p Prev -> q < bh - bl -> prev_of Prev (bl + q) = run p q.
Proof.
  intros (_ & H0 & Hg) Hq. destruct q as [|q].
  - rewrite Nat.add_0_r. destruct bl as [|bl'] eqn:E; simpl; [by destruct p|].
    rewrite H0 by lia. by destruct p.
  - replace (bl + S q) with (S (bl + q)) by lia. simpl prev_of. rewrite Hg.
    destruct (Nat.ltb_spec q (bh - bl)); [done|lia].
Qed.

(** The best block so far, after [p] complete rows (and more cells). *)
Record best_ok (p : nat) (best : MatchingBlock) : Prop := {
  bo_valid : best = MkBlock lo bl 0 \/
    exists p' q, p' <= p /\ q <= bh - bl /\ mA best + mSize best = lo + p' /\
      mB best + mSize best = bl + q /\ mSize best = run p' q;
}.

Lemma run_bounds p q : run p q <= p /\ run p q <= q.
Proof.
  revert q. induction p as [|p IH]; intros [|q]; simpl; try lia.
  destruct (cand _ _); [|lia]. specialize (IH q). lia.
Qed.

Lemma update_best_size i best row :
  mSize best <= mSize (update_best i best row) /\
  Forall (fun e => e.2 <= mSize (update_best i best row)) row.
Proof.
  revert best. induction row as [|[j k] row IH]; intros best; simpl; [split; [lia|constructor]|].
  destruct (IH (better_block i j k best)) as [H1 H2].
  assert (Hk : k <= mSize (better_block i j k best) /\ mSize best <= mSize (better_block i j k best))
    by (unfold better_block; destruct (Nat.ltb_spec (mSize best) k); simpl; lia).
  split; [lia|]. constructor; [simpl; lia|done].
Qed.

Lemma update_best_ok p best row :
  best_ok (S p) best ->
  Forall (fun e => exists q, e.1 = bl + q /\ q < bh - bl /\ e.2 = run (S p) (S q)) row ->
  best_ok (S p) (update_best (lo + p) best row).
Proof.
  intros Hb Hr. revert best Hb. induction Hr as [|[j k] row (q & Hj & Hq & Hk) Hr IH];
    intros best Hb; [done|]. cbn [fst snd] in *. apply IH. subst j.
  unfold better_block. destruct (mSize best <? k)%nat; [|done].
  pose proof (run_bounds (S p) (S q)) as Hrb. rewrite <- Hk in Hrb.
  split. right. exists (S p), (S q). cbn [mA mB mSize]. lia.
Qed.

Lemma run_step p q :
  q < bh - bl ->
  run (S p) (S q) = if bool_decide (bl + q ∈ cols (lo + p)) then run p q + 1 else 0.
Proof.
  intros Hq. cbn [run]. destruct (cand (lo + p) (bl + q)) eqn:Ec.
  - rewrite bool_decide_true; [lia|]. apply elem_of_cols. split; [lia|done].
  - rewrite bool_decide_false; [done|]. rewrite elem_of_cols. intros [_ H]. congruence.
Qed.

Lemma sorted_entries Prev js : StronglySorted lt js -> sorted_row (row_entries Prev js).
Proof.
  induction 1 as [|j js Hs IH Hf]; simpl; constructor; [done|].
  unfold row_entries. rewrite Forall_fmap. eapply Forall_impl; [exact Hf|]. done.
Qed.

Lemma row_means_step p Prev :
  row_means p Prev -> row_means (S p) (row_entries Prev (cols (lo + p))).
Proof.
  intros Hm. split; [apply sorted_entries, cols_sorted|]. split.
  - intros x Hx. rewrite prev_get_entries, bool_decide_false; [done|].
    rewrite elem_of_cols. lia.
  - intros q. rewrite prev_get_entries. destruct (Nat.ltb_spec q (bh - bl)) as [Hq|Hq].
    + rewrite (prev_of_run p) by done. rewrite run_step by done. by case_bool_decide.
    + rewrite bool_decide_false; [done|]. rewrite elem_of_cols. lia.
Qed.

Lemma entries_run p Prev :
  row_means p Prev ->
  Forall (fun e => exists q, e.1 = bl + q /\ q < bh - bl /\ e.2 = run (S p) (S q))
    (row_entries Prev (cols (lo + p))).
Proof.
  intros Hm. unfold row_entries. rewrite Forall_fmap. apply Forall_forall. intros j Hj.
  pose proof Hj as Hc. apply elem_of_cols in Hc as [Hr _]. exists (j - bl).
  unfold compose. cbn [fst snd]. split; [lia|]. split; [lia|].
  rewrite run_step by lia. replace (bl + (j - bl)) with j by lia.
  rewrite bool_decide_true by done. f_equal.
  replace j with (bl + (j - bl)) at 1 by lia. apply (prev_of_run p); [done|lia].
Qed.

Definition covers (p : nat) (best : MatchingBlock) : Prop :=
  forall p' q, p' <= p -> q <= bh - bl -> run p' q <= mSize best.

Lemma covers_step p Prev best :
  row_means p Prev -> covers p best ->
  covers (S p) (update_best (lo + p) best (row_entries Prev (cols (lo + p)))).
Proof.
  intros Hm Hc p' q Hp Hq.
  destruct (update_best_size (lo + p) best (row_entries Prev (cols (lo + p)))) as [H1 H2].
  destruct (decide (p' <= p)) as [Hle|Hgt]; [specialize (Hc p' q Hle Hq); lia|].
  assert (p' = S p) as -> by lia. destruct q as [|q]; [simpl; lia|].
  rewrite run_step by lia. case_bool_decide as Hin; [|lia].
  rewrite Forall_forall in H2. specialize (H2 (bl + q, prev_of Prev (bl + q) + 1)).
  rewrite (prev_of_run p) in H2 by (done || lia). apply H2.
  rewrite <- (prev_of_run p Prev) by (done || lia).
  unfold row_entries. apply list_elem_of_fmap. by exists (bl + q).
Qed.

Lemma match_rows_ok n : forall p Prev best,
  row_means p Prev -> best_ok p best -> covers p best ->
  best_ok (p + n) (match_rows M bl bh n (lo + p) Prev best) /\
  covers (p + n) (match_rows M bl bh n (lo + p) Prev best).
Proof.
  induction n as [|n IH]; intros p Prev best Hm Hb Hc; [by rewrite Nat.add_0_r|].
  cbn [match_rows]. fold (row_js M (lo + p)).
  rewrite match_row_spec;
    [|apply Hm|rewrite lower_bound_spec by apply row_js_sorted; apply filter_sorted, row_js_sorted].
  fold (cols (lo + p)). cbv zeta.
  replace (S (lo + p)) with (lo + S p) by lia. replace (p + S n) with (S p + n) by lia.
  apply IH; [by apply row_means_step| |by apply covers_step].
  apply update_best_ok; [|by apply entries_run].
  destruct Hb as [[->|(p' & q & ? & ?)]]; split; [by left|right; exists p', q; lia].
Qed.

(** A block of the range whose elements agree. *)
Record good_block (x : MatchingBlock) : Prop := {
  gb_a : lo <= mA x /\ mA x + mSize x <= hi;
  gb_b : bl <= mB x /\ mB x + mSize x <= bh;
  gb_eq d : d < mSize x -> same_at M (mA x + d) (mB x + d) = true;
}.

Lemma cand_same i j : cand i j = true -> same_at M i j = true.
Proof.
  unfold cand, same_at. cbn [seqA seqB ChainB].
  destruct (a !! i), (b !! j); try done. intros H. by bool_props.
Qed.

Lemma run_cand p q d : d < run p q -> cand (lo + (p - run p q + d)) (bl + (q - run p q + d)) = true.
Proof.
  revert q d. induction p as [|p IH]; intros [|q] d; simpl; try lia.
  destruct (cand (lo + p) (bl + q)) eqn:Ec; [|lia]. intros Hd.
  pose proof (run_bounds p q). destruct (decide (d = run p q)) as [->|].
  - rewrite <- Ec. f_equal; lia.
  - rewrite <- (IH q d) by lia. f_equal; lia.
Qed.

Lemma best_ok_good p best : p <= hi - lo -> best_ok p best -> good_block best.
Proof.
  intros Hp [[->|(p' & q & Hp' & Hq & HA & HB & HS)]].
  - split; simpl; lia.
  - pose proof (run_bounds p' q). split; [lia|lia|]. intros d Hd. apply cand_same.
    rewrite <- (run_cand p' q d) by lia. f_equal; lia.
Qed.

Lemma extend_back_ok fuel : forall x,
  good_block x -> good_block (extend_back fuel M lo bl x) /\
  mSize x <= mSize (extend_back fuel M lo bl x) /\
  (mA x - lo <= fuel ->
   let y := extend_back fuel M lo bl x in
   lo < mA y -> bl < mB y -> same_at M (mA y - 1) (mB y - 1) = false).
Proof.
  cbv zeta. induction fuel as [|fuel IH]; intros x Hx; cbn [extend_back].
  { split; [done|]. split; [done|]. destruct Hx. intros ? ? ?. lia. }
  destruct ((lo <? mA x)%nat && (bl <? mB x)%nat) eqn:Eb; simpl andb.
  2: { split; [done|]. split; [done|]. apply andb_false_iff in Eb. intros _ H1 H2.
       destruct Eb as [Eb|Eb]; bool_props; lia. }
  destruct (same_at M (mA x - 1) (mB x - 1)) eqn:Es; [|done].
  bool_props. destruct (IH (MkBlock (mA x - 1) (mB x - 1) (mSize x + 1))) as (H1 & H2 & H3).
  - destruct Hx as [HA HB Heq]. split; cbn [mA mB mSize]; [lia|lia|]. intros d Hd.
    destruct d as [|d]; [by rewrite !Nat.add_0_r|]. rewrite <- (Heq d) by lia. f_equal; lia.
  - split; [done|]. cbn [mA mB mSize] in H2, H3. split; [lia|]. intros Hf. apply H3. lia.
Qed.

Lemma extend_front_ok fuel : forall x,
  good_block x ->
  let y := extend_front fuel M hi bh x in
  good_block y /\ mSize x <= mSize y /\ mA y = mA x /\ mB y = mB x /\
  (hi - (mA x + mSize x) <= fuel -> mA y + mSize y < hi -> mB y + mSize y < bh ->
   same_at M (mA y + mSize y) (mB y + mSize y) = false).
Proof.
  induction fuel as [|fuel IH]; intros x Hx; cbn [extend_front]; cbv zeta.
  { split; [done|]. repeat (split; [done|]). destruct Hx. lia. }
  destruct ((mA x + mSize x <? hi)%nat && (mB x + mSize x <? bh)%nat) eqn:Eb; simpl andb.
  2: { split; [done|]. repeat (split; [done|]). apply andb_false_iff in Eb. intros _ H1 H2.
       destruct Eb as [Eb|Eb]; bool_props; lia. }
  destruct (same_at M (mA x + mSize x) (mB x + mSize x)) eqn:Es; [|done].
  bool_props. destruct (IH (MkBlock (mA x) (mB x) (mSize x + 1))) as (H1 & H2 & H3 & H4 & H5).
  - destruct Hx as [HA HB Heq]. split; cbn [mA mB mSize]; [lia|lia|]. intros d Hd.
    destruct (decide (d = mSize x)) as [->|]; [done|]. apply Heq. lia.
  - cbn [mA mB mSize] in *. split; [done|]. split; [lia|]. split; [done|]. split; [done|].
    intros Hf. apply H5. lia.
Qed.

(** The run of a common block of candidates. *)
Lemma run_common i j k :
  (forall d, d < k -> cand (lo + i + d) (bl + j + d) = true) -> k <= run (i + k) (j + k).
Proof.
  induction k as [|k IH]; intros H; [lia|].
  replace (i + S k) with (S (i + k)) by lia. replace (j + S k) with (S (j + k)) by lia.
  cbn [run]. replace (lo + (i + k)) with (lo + i + k) by lia.
  replace (bl + (j + k)) with (bl + j + k) by lia. rewrite H by lia.
  assert (k <= run (i + k) (j + k)) by (apply IH; intros; apply H; lia). lia.
Qed.

Definition result : MatchingBlock := find_longest M lo hi bl bh.

Lemma result_facts :
  good_block result /\
  (forall x, good_block x -> (forall d, d < mSize x -> cand (mA x + d) (mB x + d) = true) ->
     mSize x <= mSize result) /\
  (lo < mA result -> bl < mB result -> same_at M (mA result - 1) (mB result - 1) = false) /\
  (mA result + mSize result < hi -> mB result + mSize result < bh ->
   same_at M (mA result + mSize result) (mB result + mSize result) = false).
Proof.
  unfold result, find_longest.
  destruct (match_rows_ok (hi - lo) 0 [] (MkBlock lo bl 0)) as [Hb Hc].
  - split; [constructor|]. split; [done|]. intros q. by destruct (q <? bh - bl)%nat.
  - split. by left.
  - intros p' q Hp _. assert (p' = 0) as -> by lia. simpl. lia.
  - rewrite Nat.add_0_r in Hb, Hc. rewrite Nat.add_0_l in Hb, Hc.
    set (x0 := match_rows M bl bh (hi - lo) lo [] (MkBlock lo bl 0)) in *.
    pose proof (best_ok_good _ _ (le_n _) Hb) as Hg0.
    destruct (extend_back_ok (hi - lo) x0 Hg0) as (Hg1 & Hs1 & Hback).
    set (x1 := extend_back (hi - lo) M lo bl x0) in *.
    destruct (extend_front_ok (hi - lo) x1 Hg1) as (Hg2 & Hs2 & HA & HB & Hfront).
    set (x2 := extend_front (hi - lo) M hi bh x1) in *.
    split; [done|]. split; [|split].
    + intros x [HxA HxB _] Hcand.
      assert (Hr : mSize x <= run (mA x - lo + mSize x) (mB x - bl + mSize x)).
      { apply run_common. intros d Hd. rewrite <- (Hcand d Hd). f_equal; lia. }
      specialize (Hc (mA x - lo + mSize x) (mB x - bl + mSize x)). lia.
    + rewrite HA, HB. apply Hback. destruct Hg0. lia.
    + intros H1 H2. apply Hfront; try done. destruct Hg1. lia.
Qed.
End Search.

(** [FindLongestMatch] meets its contract on a valid range. *)
Record longest_contract (a b : list N) (aj : bool) (lo hi bl bh : nat) (x : MatchingBlock) : Prop := {
  lc_good : good_block a b aj lo hi bl bh x;
  lc_longest y : good_block a b aj lo hi bl bh y ->
    (forall d, d < mSize y -> cand a b aj (mA y + d) (mB y + d) = true) -> mSize y <= mSize x;
  lc_back : lo < mA x -> bl < mB x -> same_at (ChainB a b aj) (mA x - 1) (mB x - 1) = false;
  lc_front : mA x + mSize x < hi -> mB x + mSize x < bh ->
    same_at (ChainB a b aj) (mA x + mSize x) (mB x + mSize x) = false;
}.

Lemma FindLongestMatch_contract a b aj lo hi bl bh :
  lo <= hi -> hi <= length a -> bl <= bh -> bh <= length b ->
  FindLongestMatch (ChainB a b aj) lo hi bl bh = Ok (result a b aj lo hi bl bh) /\
  longest_contract a b aj lo hi bl bh (result a b aj lo hi bl bh).
Proof.
  intros H1 H2 H3 H4. split.
  - unfold FindLongestMatch. cbn [seqA seqB ChainB].
    destruct (_ || _ || _ || _) eqn:E; [|done].
    rewrite !orb_true_iff, !Nat.ltb_lt in E. lia.
  - by destruct (result_facts a b aj lo hi bl bh H1 H2 H3 H4) as (? & ? & ? & ?).
Qed.

Lemma cand_short a b aj i j :
  aj = false \/ length b < 200 -> same_at (ChainB a b aj) i j = true -> cand a b aj i j = true.
Proof.
  intros Hs. unfold same_at, cand. cbn [seqA seqB ChainB].
  destruct (a !! i), (b !! j); try done. intros ->. unfold is_popular.
  destruct Hs as [->|Hl]; [done|]. destruct (Nat.leb_spec 200 (length b)); [lia|].
  by rewrite andb_false_r.
Qed.

(** C25: On a valid range [FindLongestMatch] returns a block of the range whose
    elements agree and that cannot be extended at either end; no block of
    agreeing non-popular elements is longer, so without popular elements (no
    autojunk, or fewer than 200 elements) it is a longest common block. An
    invalid range throws. *)
Theorem FindLongestMatch_longest a b aj lo hi bl bh :
  (lo <= hi <= length a /\ bl <= bh <= length b ->
   exists x, FindLongestMatch (ChainB a b aj) lo hi bl bh = Ok x /\
     longest_contract a b aj lo hi bl bh x /\
     (aj = false \/ length b < 200 -> forall y, good_block a b aj lo hi bl bh y ->
      mSize y <= mSize x)) /\
  (~ (lo <= hi <= length a /\ bl <= bh <= length b) ->
   FindLongestMatch (ChainB a b aj) lo hi bl bh = Throw (CxxException (B "out_of_range"))).
Proof.
  split.
  - intros [[H1 H2] [H3 H4]].
    destruct (FindLongestMatch_contract a b aj lo hi bl bh H1 H2 H3 H4) as [E Hc].
    exists (result a b aj lo hi bl bh). split; [done|]. split; [done|].
    intros Hs y Hy. apply Hc; [done|]. intros d Hd. apply cand_short; [done|]. by apply Hy.
  - intros H. unfold FindLongestMatch. cbn [seqA seqB ChainB].
    destruct (_ || _ || _ || _) eqn:E; [done|]. bool_props. lia.
Qed.
