(* ===== verification/MatchingBlocks.v ===== *)
(** * Matching blocks, opcodes and ratios (src/src/diff/TextDiff.cpp)

    The work list terminates and yields a chain of blocks ordered in both
    sequences; the opcodes tile both sequences and rebuild [b] from [a]; the
    match counts of the three ratios are ordered. *)

From stdpp Require Import base numbers gmap sets list sorting.
From Stdlib Require Import ZArith Lia.
From S2P Require Import Prelude Dbl TextDiff LongestMatch.

Section Blocks.
Context (a b : list N) (aj : bool).
Abbreviation M := (ChainB a b aj).
Abbreviation La := (length a).
Abbreviation Lb := (length b).

(** The rectangle a range or a block occupies. *)
Definition box_of (x : MatchingBlock) : Range :=
  MkRange (mA x) (mA x + mSize x) (mB x) (mB x + mSize x).

Definition before (r s : Range) : Prop := Ahi r <= Alo s /\ Bhi r <= Blo s.
Definition apart (r s : Range) : Prop := before r s \/ before s r.

Definition valid_range (r : Range) : Prop :=
  Alo r <= Ahi r <= La /\ Blo r <= Bhi r <= Lb.

Definition inside (r s : Range) : Prop :=
  Alo s <= Alo r /\ Ahi r <= Ahi s /\ Blo s <= Blo r /\ Bhi r <= Bhi s.

Lemma apart_inside r s t : inside r s -> apart s t -> apart r t.
Proof. unfold inside, apart, before. lia. Qed.

Definition separated (l : list Range) : Prop := StronglySorted apart l.

Lemma separated_perm l k : l ≡ₚ k -> separated l -> separated k.
Proof.
  unfold separated. induction 1 as [|x l k Hp IH|x y l|l k m Hp1 IH1 Hp2 IH2]; intros Hs; auto.
  - inversion Hs; subst. constructor; [auto|]. by rewrite <- Hp.
  - inversion Hs as [|? ? Hs1 Hf]; subst. inversion Hs1 as [|? ? Hs2 Hf2]; subst.
    apply Forall_cons in Hf as [Hyx Hf]. constructor; [by constructor|].
    constructor; [|done]. destruct Hyx; [by right|by left].
Qed.

Lemma separated_app l k :
  separated l -> separated k -> (forall r s, r ∈ l -> s ∈ k -> apart r s) ->
  separated (l ++ k).
Proof.
  unfold separated. induction 1 as [|x l Hs IH Hf]; intros Hk Ha; [done|].
  simpl. constructor; [apply IH; [done|]; intros; apply Ha; [by right|done]|].
  apply Forall_app. split; [done|]. apply Forall_forall. intros s Hs'. apply Ha; [by left|done].
Qed.

(** A block found: it agrees and is not empty. *)
Definition agrees (x : MatchingBlock) : Prop :=
  forall d, d < mSize x -> same_at M (mA x + d) (mB x + d) = true.

Definition found (x : MatchingBlock) : Prop := agrees x /\ mSize x <> 0 /\ valid_range (box_of x).

Record loop_ok (Queue : list Range) (Blocks : list MatchingBlock) : Prop := {
  lo_valid : Forall valid_range Queue;
  lo_found : Forall found Blocks;
  lo_apart : separated (Queue ++ map box_of Blocks);
}.

Definition measure (Queue : list Range) : nat :=
  sum_list_with (fun r => 2 * (Ahi r - Alo r) + 1) Queue.

Lemma measure_cons R Queue : measure (R :: Queue) = (2 * (Ahi R - Alo R) + 1) + measure Queue.
Proof. done. Qed.

(** The two ranges left and right of a block. *)
Definition left_of (R : Range) (x : MatchingBlock) : list Range :=
  if ((Alo R <? mA x) && (Blo R <? mB x))%nat
  then [MkRange (Alo R) (mA x) (Blo R) (mB x)] else [].
Definition right_of (R : Range) (x : MatchingBlock) : list Range :=
  if ((mA x + mSize x <? Ahi R) && (mB x + mSize x <? Bhi R))%nat
  then [MkRange (mA x + mSize x) (Ahi R) (mB x + mSize x) (Bhi R)] else [].

Lemma split_ok R x Queue Blocks :
  loop_ok (R :: Queue) Blocks -> agrees x -> mSize x <> 0 -> inside (box_of x) R ->
  loop_ok (right_of R x ++ left_of R x ++ Queue) (Blocks ++ [x]) /\
  measure (right_of R x ++ left_of R x ++ Queue) < measure (R :: Queue).
Proof.
  intros [Hv Hf Hs] Hx Hn Hin. apply Forall_cons in Hv as [HR Hv].
  assert (Hl : Forall (fun r => valid_range r /\ inside r R /\ before r (box_of x)) (left_of R x)).
  { unfold left_of. destruct (_ && _) eqn:E; [|constructor]. bool_props.
    apply Forall_singleton. unfold valid_range, inside, before, box_of in *. simpl in *. lia. }
  assert (Hr : Forall (fun r => valid_range r /\ inside r R /\ before (box_of x) r) (right_of R x)).
  { unfold right_of. destruct (_ && _) eqn:E; [|constructor]. bool_props.
    apply Forall_singleton. unfold valid_range, inside, before, box_of in *. simpl in *. lia. }
  rewrite !Forall_and in Hl, Hr. destruct Hl as (Hlv & Hli & Hlb), Hr as (Hrv & Hri & Hrb).
  assert (Hxv : valid_range (box_of x))
    by (unfold valid_range, inside, box_of in *; simpl in *; lia).
  split; [split|].
  - rewrite !Forall_app. done.
  - apply Forall_app. split; [done|]. by apply Forall_singleton.
  - rewrite map_app. simpl.
    apply (separated_perm (box_of x :: right_of R x ++ left_of R x ++ Queue ++ map box_of Blocks)).
    { rewrite !app_assoc. by rewrite (Permutation_app_comm _ [box_of x]). }
    simpl in Hs. inversion Hs as [|? ? Hs' Hap]; subst.
    assert (Hsub : forall r, inside r R -> Forall (apart r) (Queue ++ map box_of Blocks)).
    { intros r Hr'. eapply Forall_impl; [exact Hap|]. intros t. by apply apart_inside. }
    apply (separated_app [box_of x]); [repeat constructor| |].
    + apply separated_app; [| |].
      * unfold right_of. destruct (_ && _); repeat constructor.
      * apply separated_app; [unfold left_of; destruct (_ && _); repeat constructor|done|].
        intros r t Hr' Ht. rewrite Forall_forall in Hli. specialize (Hsub r (Hli r Hr')).
        rewrite Forall_forall in Hsub. by apply Hsub.
      * intros r t Hr' Ht. apply elem_of_app in Ht as [Ht|Ht].
        -- rewrite Forall_forall in Hrb, Hlb. specialize (Hrb r Hr'). specialize (Hlb t Ht).
           right. unfold before, valid_range in *. lia.
        -- rewrite Forall_forall in Hri. specialize (Hsub r (Hri r Hr')).
           rewrite Forall_forall in Hsub. by apply Hsub.
    + intros r t Hr' Ht. apply list_elem_of_singleton in Hr' as ->.
      rewrite Forall_forall in Hrb, Hlb. rewrite !elem_of_app in Ht.
      destruct Ht as [Ht|[Ht|Ht]]; [left; by apply Hrb|right; by apply Hlb|].
      specialize (Hsub _ Hin). rewrite Forall_forall in Hsub. apply Hsub. by apply elem_of_app.
  - unfold measure, left_of, right_of. rewrite !sum_list_with_app. unfold inside, box_of in Hin.
    simpl in *. repeat case_match; bool_props; simpl; lia.
Qed.

Lemma loop_ok_pop R Queue Blocks : loop_ok (R :: Queue) Blocks -> loop_ok Queue Blocks.
Proof.
  intros [Hv Hf Hs]. apply Forall_cons in Hv as [_ Hv]. simpl in Hs. inversion Hs; by split.
Qed.

(** Enough fuel gives a result: the chain of blocks found. *)
Lemma blocks_loop_ok fuel : forall Queue Blocks,
  loop_ok Queue Blocks -> measure Queue < fuel ->
  exists out, blocks_loop fuel M Queue Blocks = Some (Ok out) /\ loop_ok [] out.
Proof.
  induction fuel as [|fuel IH]; intros Queue Blocks Hok Hm; [lia|].
  destruct Queue as [|R Queue]; [by exists Blocks|]. cbn [blocks_loop].
  pose proof Hok as [Hv _ _]. apply Forall_cons in Hv as [[HRa HRb] _].
  destruct (FindLongestMatch_contract a b aj (Alo R) (Ahi R) (Blo R) (Bhi R)) as [-> Hc]; [lia..|].
  set (x := result _ _ _ _ _ _ _) in *. destruct (Nat.eqb_spec (mSize x) 0) as [E|E].
  - apply IH; [by eapply loop_ok_pop|]. rewrite measure_cons in Hm. lia.
  - destruct (lc_good _ _ _ _ _ _ _ _ Hc) as [HA HB Heq].
    destruct (split_ok R x Queue Blocks) as [H1 H2]; [done|exact Heq|done| |].
    { unfold inside, box_of. simpl. lia. }
    apply IH; [done|]. unfold left_of, right_of in *. lia.
Qed.

Lemma loop_ok_start : loop_ok [MkRange 0 La 0 Lb] [].
Proof.
  split; [|constructor|repeat constructor].
  apply Forall_singleton. unfold valid_range. simpl. lia.
Qed.

(** ** Sorting the blocks gives a chain *)

Lemma block_ltb_spec x y :
  block_ltb x y = true <->
  mA x < mA y \/ (mA x = mA y /\ (mB x < mB y \/ (mB x = mB y /\ mSize x < mSize y))).
Proof.
  unfold block_ltb. destruct (Nat.eqb_spec (mA x) (mA y)), (Nat.eqb_spec (mB x) (mB y)); simpl;
    rewrite Nat.ltb_lt; lia.
Qed.

Lemma block_ltb_false x y : block_ltb x y = false <-> ~ block_ltb x y = true.
Proof. by rewrite not_true_iff_false. Qed.

#[local] Instance block_order : StrictWeak block_ltb (fun _ => True).
Proof.
  split; intros; rewrite ?block_ltb_false, ?block_ltb_spec in *; lia.
Qed.

(** Blocks from [(i, j)] on, each after the end of the one before. *)
Fixpoint chained (i j : nat) (l : list MatchingBlock) : Prop :=
  match l with
  | [] => i <= La /\ j <= Lb
  | x :: l' => i <= mA x /\ j <= mB x /\ chained (mA x + mSize x) (mB x + mSize x) l'
  end.

Lemma chained_weaken i j i' j' l : i' <= i -> j' <= j -> chained i j l -> chained i' j' l.
Proof. destruct l; simpl; [lia|]. intros Hi Hj (HA & HB & Hc). split; [lia|]. by split; [lia|]. Qed.

Lemma chained_end i j l : chained i j l -> i <= La /\ j <= Lb.
Proof.
  revert i j. induction l as [|x l IH]; intros i j; simpl; [done|].
  intros (? & ? & Hc). apply IH in Hc. lia.
Qed.

Lemma sorted_chained l i j :
  Forall found l -> separated (map box_of l) -> in_order block_ltb l ->
  i <= La -> j <= Lb -> Forall (fun x => i <= mA x /\ j <= mB x) l -> chained i j l.
Proof.
  intros Hf Hs Ho. revert i j. induction Ho as [|x l Ho IH Hx]; intros i j Hi Hj Hge; [done|].
  apply Forall_cons in Hf as [(_ & Hn & Hv) Hf]. apply Forall_cons in Hge as [Hge _].
  simpl in Hs. apply StronglySorted_inv in Hs as [Hs' Hap]. simpl. split; [lia|]. split; [lia|].
  unfold valid_range, box_of in Hv. simpl in Hv. apply IH; [done|done|lia|lia|].
  rewrite Forall_forall. intros y Hy. rewrite Forall_forall in Hx, Hf. rewrite Forall_forall in Hap.
  specialize (Hx y Hy). destruct (Hf y Hy) as (_ & Hny & _).
  destruct (Hap (box_of y)) as [Hb|Hb]; [by apply list_elem_of_fmap_2| |];
    unfold before, box_of in Hb; simpl in Hb; [lia|].
  exfalso. rewrite block_ltb_false, block_ltb_spec in Hx. lia.
Qed.

(** ** Collapsing *)

Definition total (l : list MatchingBlock) : nat := block_matches l.

Lemma agrees_join i j k x :
  agrees (MkBlock i j k) -> agrees x -> mA x = i + k -> mB x = j + k ->
  agrees (MkBlock i j (k + mSize x)).
Proof.
  intros H1 H2 EA EB d Hd. cbn [mA mB mSize] in *.
  destruct (decide (d < k)) as [|Hge]; [by apply H1|].
  rewrite <- (H2 (d - k)) by lia. f_equal; lia.
Qed.

Definition piece (x : MatchingBlock) : Prop := agrees x /\ mSize x <> 0.

Lemma collapse_ok l : forall i0 j0 i j k,
  Forall found l -> chained (i + k) (j + k) l -> agrees (MkBlock i j k) ->
  (k = 0 -> i0 = i /\ j0 = j) -> i0 <= i -> j0 <= j ->
  chained i0 j0 (collapse i j k l) /\ Forall piece (collapse i j k l) /\
  total (collapse i j k l) = k + total l.
Proof.
  unfold total, block_matches.
  induction l as [|x l IH]; intros i0 j0 i j k Hf Hc Ha Hk Hi Hj; simpl.
  - simpl in Hc. destruct (Nat.eqb_spec k 0) as [E|E]; simpl.
    + split; [lia|]. split; [constructor|lia].
    + split; [lia|]. split; [|lia]. by apply Forall_singleton.
  - apply Forall_cons in Hf as [(Hax & Hnx & Hvx) Hf]. simpl in Hc. destruct Hc as (HA & HB & Hc).
    destruct ((i + k =? mA x)%nat && (j + k =? mB x)%nat) eqn:E; bool_props.
    + destruct (IH i0 j0 i j (k + mSize x)) as (H1 & H2 & H3); try done; try lia.
      * eapply chained_weaken; [| |exact Hc]; lia.
      * by apply agrees_join.
      * split; [done|]. split; [done|]. lia.
    + destruct (IH (mA x) (mB x) (mA x) (mB x) (mSize x)) as (H1 & H2 & H3); try done; try lia.
      destruct (Nat.eqb_spec k 0) as [E0|E0]; simpl.
      * split; [eapply chained_weaken; [| |exact H1]; lia|]. split; [done|lia].
      * split; [|split; [by constructor|lia]].
        split; [done|]. split; [done|]. eapply chained_weaken; [| |exact H1]; lia.
Qed.

Lemma total_perm l k : l ≡ₚ k -> total l = total k.
Proof. unfold total, block_matches. induction 1; simpl; lia. Qed.

(** The matching blocks without the final sentinel. *)
Lemma GetMatchingBlocks_chain :
  exists l, GetMatchingBlocks M = Some (Ok (l ++ [MkBlock La Lb 0])) /\
    chained 0 0 l /\ Forall piece l.
Proof.
  unfold GetMatchingBlocks. cbn [seqA seqB ChainB].
  destruct (blocks_loop_ok (2 * La + 2) [MkRange 0 La 0 Lb] []) as (out & -> & Hok).
  - apply loop_ok_start.
  - unfold measure. simpl. lia.
  - destruct Hok as [_ Hf Hs]. simpl in Hs.
    pose proof (stable_sort_perm block_ltb out) as Hp.
    assert (Hf' : Forall found (stable_sort block_ltb out)) by by rewrite Hp.
    eexists. split; [done|].
    destruct (collapse_ok (stable_sort block_ltb out) 0 0 0 0 0) as (H1 & H2 & _); try done; try lia.
    + apply sorted_chained; try lia.
      * done.
      * eapply separated_perm; [|exact Hs]. apply fmap_Permutation. by symmetry.
      * apply (stable_sort_in_order block_ltb). by apply Forall_true.
      * apply Forall_forall. lia.
    + intros d. simpl. lia.
Qed.
End Blocks.

(** ** Slices *)

Definition slice {A} (l : list A) (i k : nat) : list A := take (k - i) (drop i l).

Lemma slice_drop {A} (l : list A) (i k : nat) : i <= k -> slice l i k ++ drop k l = drop i l.
Proof.
  intros H. unfold slice. rewrite <- (take_drop (k - i) (drop i l)) at 2.
  rewrite drop_drop. do 2 f_equal. lia.
Qed.

Lemma slice_empty {A} (l : list A) (i : nat) : slice l i i = [].
Proof. unfold slice. by rewrite Nat.sub_diag. Qed.

Lemma length_slice {A} (l : list A) (i k : nat) : k <= length l -> length (slice l i k) = k - i.
Proof. intros H. unfold slice. rewrite length_take, length_drop. lia. Qed.

Lemma slice_app {A} (s : list A) (i j k : nat) :
  i <= j -> j <= k -> slice s i j ++ slice s j k = slice s i k.
Proof.
  intros Hij Hjk. unfold slice at 3. rewrite <- (slice_drop s i j Hij), take_app.
  destruct (decide (j <= length s)).
  - rewrite length_slice by done. rewrite take_ge by (rewrite length_slice by done; lia).
    unfold slice at 2. do 2 f_equal. lia.
  - unfold slice. rewrite (drop_ge s j) by lia. rewrite !take_nil, !app_nil_r.
    rewrite (take_ge (take _ _)); [done|]. rewrite length_take. lia.
Qed.

Lemma slice_lookup {A} (l : list A) (i k d : nat) :
  d < k - i -> slice l i k !! d = l !! (i + d).
Proof. intros H. unfold slice. rewrite lookup_take_lt by lia. by rewrite lookup_drop. Qed.

Lemma slice_same (a b : list N) aj (i j k : nat) :
  i + k <= length a -> j + k <= length b ->
  (forall d, d < k -> same_at (ChainB a b aj) (i + d) (j + d) = true) ->
  slice a i (i + k) = slice b j (j + k).
Proof.
  intros Ha Hb Hs. apply list_eq_same_length with k; rewrite ?length_slice by lia; try lia.
  intros d x y Hd. rewrite !slice_lookup by lia. specialize (Hs d Hd).
  unfold same_at in Hs. cbn [seqA seqB ChainB] in Hs. intros Hx Hy. rewrite Hx, Hy in Hs.
  by apply N.eqb_eq.
Qed.

(** ** Opcodes *)

Section Opcodes.
Context (a b : list N) (aj : bool).
Abbreviation M := (ChainB a b aj).

(** What each tag promises. *)
Definition op_ok (c : Opcode) : Prop :=
  match Tag c with
  | Equal => I1 c < I2 c /\ I2 c - I1 c = J2 c - J1 c /\ J1 c < J2 c /\
             slice a (I1 c) (I2 c) = slice b (J1 c) (J2 c)
  | Replace => I1 c < I2 c /\ J1 c < J2 c
  | Delete => I1 c < I2 c /\ J1 c = J2 c
  | Insert => I1 c = I2 c /\ J1 c < J2 c
  end.

(** The codes run from [(i, j)] to the ends without a gap or an overlap. *)
Fixpoint tiles (i j : nat) (ops : list Opcode) : Prop :=
  match ops with
  | [] => i = length a /\ j = length b
  | c :: ops' => I1 c = i /\ J1 c = j /\ op_ok c /\
                 I2 c <= length a /\ J2 c <= length b /\ tiles (I2 c) (J2 c) ops'
  end.

Lemma opcodes_tile l : forall i j,
  chained a b i j l -> Forall (piece a b aj) l ->
  tiles i j (opcodes_from i j (l ++ [MkBlock (length a) (length b) 0])).
Proof.
  induction l as [|x l IH]; intros i j Hc Hp.
  - simpl in Hc. simpl.
    destruct (Nat.ltb_spec i (length a)), (Nat.ltb_spec j (length b)); cbn;
      rewrite ?Nat.add_0_r; unfold op_ok; simpl; lia.
  - apply Forall_cons in Hp as [[Hx Hn] Hp]. destruct Hc as (HA & HB & Hc).
    specialize (IH _ _ Hc Hp). cbn [app opcodes_from].
    pose proof (chained_end _ _ _ _ _ Hc) as Hend.
    destruct (Nat.eqb_spec (mSize x) 0) as [|_]; [done|]. cbn [negb].
    assert (Heq : op_ok (MkOpcode Equal (mA x) (mA x + mSize x) (mB x) (mB x + mSize x))).
    { unfold op_ok. cbn. split; [lia|]. split; [lia|]. split; [lia|].
      apply (slice_same a b aj); [lia|lia|exact Hx]. }
    destruct (Nat.ltb_spec i (mA x)), (Nat.ltb_spec j (mB x)); cbn [andb app tiles I1 I2 J1 J2].
    + unfold op_ok at 1. cbn. repeat (split; [done || lia|]). done.
    + assert (j = mB x) as -> by lia. unfold op_ok at 1. cbn.
      repeat (split; [done || lia|]). done.
    + assert (i = mA x) as -> by lia. unfold op_ok at 1. cbn.
      repeat (split; [done || lia|]). done.
    + assert (i = mA x) as -> by lia. assert (j = mB x) as -> by lia.
      repeat (split; [done || lia|]). done.
Qed.

Lemma GetOpcodes_tile : exists ops, GetOpcodes M = Some (Ok ops) /\ tiles 0 0 ops.
Proof.
  destruct (GetMatchingBlocks_chain a b aj) as (l & E & Hc & Hp).
  unfold GetOpcodes. rewrite E. eexists. split; [done|]. by apply opcodes_tile.
Qed.

(** [b] rebuilt from [a]: equal runs are copied, the rest comes from [b]. *)
Definition patch (ops : list Opcode) : list N :=
  mjoin (map (fun c => match Tag c with
                       | Equal => slice a (I1 c) (I2 c)
                       | Delete => []
                       | _ => slice b (J1 c) (J2 c)
                       end) ops).

Lemma op_ok_le c : op_ok c -> I1 c <= I2 c /\ J1 c <= J2 c.
Proof. unfold op_ok. destruct (Tag c); lia. Qed.

Lemma tiles_patch ops : forall i j, tiles i j ops ->
  patch ops = drop j b /\ mjoin (map (fun c => slice a (I1 c) (I2 c)) ops) = drop i a.
Proof.
  induction ops as [|c ops IH]; intros i j.
  { intros [-> ->]. by rewrite !drop_all. }
  intros (<- & <- & Hok & _ & _ & Ht). destruct (IH _ _ Ht) as [H1 H2].
  pose proof (op_ok_le c Hok) as [Hi Hj]. unfold patch in *. cbn [map].
  change (mjoin (?x :: ?l)) with (x ++ mjoin l). rewrite H1, H2. split.
  - rewrite <- (slice_drop b (J1 c) (J2 c)) by done. f_equal.
    unfold op_ok in Hok. destruct (Tag c); [done| |done|].
    + destruct Hok as [_ ->]. by rewrite slice_empty.
    + by destruct Hok as (_ & _ & _ & ->).
  - by apply slice_drop.
Qed.
End Opcodes.

Lemma pieces_slices a b aj l : forall i j,
  chained a b i j l -> Forall (piece a b aj) l ->
  Forall (fun x => mSize x <> 0 /\
    slice a (mA x) (mA x + mSize x) = slice b (mB x) (mB x + mSize x)) l.
Proof.
  induction l as [|x l IH]; intros i j Hc Hp; [constructor|].
  apply Forall_cons in Hp as [[Hx Hn] Hp]. destruct Hc as (HA & HB & Hc).
  pose proof (chained_end _ _ _ _ _ Hc) as Hend.
  constructor; [|exact (IH _ _ Hc Hp)]. split; [done|]. apply (slice_same a b aj); [apply Hend..|exact Hx].
Qed.

(** C26: The work list always ends, and the blocks are non-empty runs of equal
    elements, each after the end of the one before in both sequences, closed by
    the sentinel. *)
Theorem GetMatchingBlocks_spec a b aj :
  exists l, GetMatchingBlocks (ChainB a b aj)
      = Some (Ok (l ++ [MkBlock (length a) (length b) 0])) /\
    chained a b 0 0 l /\
    Forall (fun x => mSize x <> 0 /\
      slice a (mA x) (mA x + mSize x) = slice b (mB x) (mB x + mSize x)) l.
Proof.
  destruct (GetMatchingBlocks_chain a b aj) as (l & E & Hc & Hp).
  exists l. split; [done|]. split; [done|]. by eapply pieces_slices.
Qed.

(** C27: The opcodes tile both sequences from start to end, each code is what
    its tag says (equal runs are equal), and applying them to [a] gives [b]. *)
Theorem GetOpcodes_rebuild a b aj :
  exists ops, GetOpcodes (ChainB a b aj) = Some (Ok ops) /\
    tiles a b 0 0 ops /\ patch a b ops = b /\
    mjoin (map (fun c => slice a (I1 c) (I2 c)) ops) = a.
Proof.
  destruct (GetOpcodes_tile a b aj) as (ops & E & Ht). exists ops.
  destruct (tiles_patch a b ops 0 0 Ht) as [H1 H2]. done.
Qed.
