(* ===== verification/UnifiedDiff.v ===== *)
(** * The three ratios and the unified diff (src/src/diff/TextDiff.cpp)

    [QuickRatio] counts the common elements with multiplicity; the counts of
    the three ratios are ordered. Interning lines loses nothing, the groups keep
    every change once, and the rows of a group spell out the slices of the two
    texts it covers. *)

From stdpp Require Import base numbers gmap sets list sorting.
From Stdlib Require Import ZArith Lia.
From S2P Require Import Prelude Dbl TextDiff LongestMatch MatchingBlocks.

(** ** The multiset count *)

Fixpoint remove_first (x : N) (b : list N) : list N :=
  match b with
  | [] => []
  | y :: b' => if bool_decide (y = x) then b' else y :: remove_first x b'
  end.

(** Matching each element of [a] with an element of [b] that is left. *)
Fixpoint common_count (a b : list N) : nat :=
  match a with
  | [] => 0
  | x :: a' => if bool_decide (x ∈ b) then S (common_count a' (remove_first x b))
               else common_count a' b
  end.

Definition occ (v : N) (b : list N) : nat := length (positions v 0 b).

Lemma length_positions v i b : length (positions v i b) = length (positions v 0 b).
Proof.
  revert i. induction b as [|x b IH]; intros i; simpl; [done|].
  case_bool_decide; simpl; by rewrite (IH (S i)), (IH 1).
Qed.

Lemma occ_cons v x b : occ v (x :: b) = (if bool_decide (x = v) then 1 else 0) + occ v b.
Proof.
  unfold occ. simpl. case_bool_decide; simpl; by rewrite length_positions.
Qed.

Lemma occ_elem v b : v ∈ b <-> 0 < occ v b.
Proof.
  induction b as [|x b IH]; [split; [intros H; by apply elem_of_nil in H|unfold occ; simpl; lia]|].
  rewrite elem_of_cons, occ_cons, IH. case_bool_decide as Hx; (split; [intros [Hv|Hv]|intros Hv]).
  all: first [lia | by left | by right | congruence].
Qed.

Lemma remove_first_perm x b : x ∈ b -> b ≡ₚ x :: remove_first x b.
Proof.
  induction b as [|y b IH]; intros H; [by apply elem_of_nil in H|]. simpl.
  case_bool_decide; [by subst|]. apply elem_of_cons in H as [->|H]; [done|].
  rewrite (IH H) at 1. apply Permutation_swap.
Qed.

Lemma occ_perm v b c : b ≡ₚ c -> occ v b = occ v c.
Proof. induction 1; rewrite ?occ_cons; lia. Qed.

Lemma occ_remove v x b :
  x ∈ b -> occ v (remove_first x b) = occ v b - (if bool_decide (x = v) then 1 else 0).
Proof.
  intros H. rewrite (occ_perm v b _ (remove_first_perm x b H)), occ_cons. lia.
Qed.

Lemma common_count_le a b : common_count a b <= length a `min` length b.
Proof.
  revert b. induction a as [|x a IH]; intros b; cbn [common_count length]; [lia|].
  case_bool_decide as H; [|specialize (IH b); lia].
  specialize (IH (remove_first x b)). apply remove_first_perm in H.
  apply Permutation_length in H. simpl in H. lia.
Qed.

(** Any common sub-multiset is no larger. *)
Lemma common_count_max a : forall b c,
  (forall v, occ v c <= occ v a) -> (forall v, occ v c <= occ v b) ->
  length c <= common_count a b.
Proof.
  induction a as [|x a IH]; intros b c Ha Hb; simpl.
  { destruct c as [|y c]; [done|]. specialize (Ha y). rewrite occ_cons, bool_decide_true in Ha by done.
    unfold occ in Ha. simpl in Ha. lia. }
  assert (Hx0 : x ∉ c -> occ x c = 0).
  { intros H. destruct (occ x c) eqn:E; [done|]. exfalso. apply H, occ_elem. lia. }
  case_bool_decide as Hx.
  - destruct (decide (x ∈ c)) as [Hc|Hc].
    + pose proof (Permutation_length (remove_first_perm x c Hc)) as Hl. simpl in Hl. rewrite Hl.
      apply le_n_S, IH; intros v; rewrite !occ_remove by done.
      * specialize (Ha v). rewrite occ_cons in Ha. lia.
      * specialize (Hb v). lia.
    + apply le_S, IH; intros v; rewrite ?occ_remove by done;
        specialize (Ha v); specialize (Hb v); rewrite occ_cons in Ha;
        case_bool_decide; subst; rewrite ?Hx0 in * by done; lia.
  - assert (Hc : x ∉ c) by (intros H; apply Hx, occ_elem; apply occ_elem in H; specialize (Hb x); lia).
    apply IH; intros v; [|apply Hb]. specialize (Ha v). rewrite occ_cons in Ha.
    case_bool_decide; subst; [rewrite Hx0 by done|]; lia.
Qed.

(** ** [QuickRatio] counts it *)

Section Quick.
Context (b : list N).

Definition chain : ChainState := chain_loop (MkChain ∅ [] []) 0 b.

(** The counters after the keys of a prefix of [b]. *)
Lemma full_count_prefix (p : list N) (keys : list nat) (counts : list Z) :
  Forall2 (fun v key => cKeys chain !! v = Some key) p keys ->
  forall v key n, cKeys chain !! v = Some key -> counts !! key = Some n ->
  fold_left (fun counts key => alter (Z.add 1) key counts) keys counts !! key
  = Some (n + Z.of_nat (occ v p))%Z.
Proof.
  intros H. revert counts. induction H as [|x k p keys Hx Hp IH]; intros counts v key n Hv Hn; simpl.
  { rewrite Hn. f_equal. unfold occ. simpl. lia. }
  rewrite occ_cons. case_bool_decide as Hxv.
  - subst x. assert (k = key) as -> by congruence.
    rewrite (IH _ v key (1 + n)%Z Hv); [f_equal; lia|]. by rewrite list_lookup_alter_eq, Hn.
  - rewrite (IH _ v key n Hv); [f_equal; lia|]. rewrite list_lookup_alter_ne; [done|].
    intros ->. apply Hxv. by eapply (ch_inj _ _ (chain_inv_whole b)).
Qed.

Lemma full_b_count_spec a aj v key :
  cKeys chain !! v = Some key ->
  full_b_count (ChainB a b aj) !! key = Some (Z.of_nat (occ v b)).
Proof.
  intros Hv. pose proof (chain_inv_whole b) as Hc. fold chain in Hc.
  unfold full_b_count, ChainB. fold chain. cbn [BKey B2j].
  rewrite (full_count_prefix b (cBKey chain) _ (ch_bkey _ _ Hc) v key 0%Z Hv); [f_equal; lia|].
  apply lookup_replicate. split; [done|]. rewrite length_zip_with, length_map.
  pose proof (lookup_lt_Some _ _ _ (ch_pos _ _ Hc _ _ Hv)). lia.
Qed.

(** The walk, with what is left of [b]. *)
Lemma quick_loop_spec a (full : list Z) : forall avail left,
  (forall v key, cKeys chain !! v = Some key ->
     (match avail !! key with Some n => n | None => default 0%Z (full !! key) end `max` 0)%Z
     = Z.of_nat (occ v left)) ->
  (forall v, v ∈ left -> v ∈ b) ->
  quick_loop full avail (map (fun v => cKeys chain !! v) a) = common_count a left.
Proof.
  pose proof (chain_inv_whole b) as Hc. fold chain in Hc.
  induction a as [|x a IH]; intros avail left Hav Hsub; simpl; [done|].
  destruct (cKeys chain !! x) as [key|] eqn:Ek.
  - specialize (Hav x key Ek) as Hx. simpl.
    set (numb := match avail !! key with Some n => n | None => default 0%Z (full !! key) end) in *.
    assert (Hnext : forall left', (forall v k, cKeys chain !! v = Some k ->
        Z.of_nat (occ v left') = if bool_decide (v = x) then (numb - 1) `max` 0 else Z.of_nat (occ v left))%Z ->
        forall v k, cKeys chain !! v = Some k ->
        (match <[key := (numb - 1)%Z]> avail !! k with
         | Some n => n | None => default 0%Z (full !! k) end `max` 0)%Z = Z.of_nat (occ v left')).
    { intros left' Hl v k Hv. rewrite (Hl v k Hv). case_bool_decide as Hvx.
      - subst v. assert (k = key) as -> by congruence. by rewrite lookup_insert_eq.
      - rewrite lookup_insert_ne; [by apply Hav|]. intros ->.
        apply Hvx. by eapply (ch_inj _ _ Hc). }
    case_bool_decide as Hin.
    + assert (0 < numb)%Z by (apply occ_elem in Hin; lia).
      destruct (Z.ltb_spec 0 numb); [|lia]. simpl. f_equal. apply IH.
      * apply Hnext. intros v k Hv. rewrite occ_remove by done.
        case_bool_decide as E1; case_bool_decide as E2; subst; try done; lia.
      * intros v Hv. apply Hsub. rewrite (remove_first_perm x left Hin). by right.
    + assert (occ x left = 0).
      { destruct (occ x left) eqn:E; [done|]. exfalso. apply Hin, occ_elem. lia. }
      destruct (Z.ltb_spec 0 numb); [lia|]. simpl. apply IH; [|done].
      apply Hnext. intros v k Hv. case_bool_decide; [subst; lia|done].
  - simpl. rewrite bool_decide_false; [by apply IH|]. intros Hin. apply Hsub in Hin.
    apply (ch_key _ _ Hc) in Hin as [? ?]. congruence.
Qed.

Lemma quick_matches_spec a aj : quick_matches (ChainB a b aj) = common_count a b.
Proof.
  unfold quick_matches. change (AKey (ChainB a b aj)) with (map (fun v => cKeys chain !! v) a).
  apply quick_loop_spec; [|done]. intros v key Hv. rewrite lookup_empty.
  rewrite (full_b_count_spec a aj v key Hv). simpl. lia.
Qed.
End Quick.

(** ** The matching blocks are a common subsequence *)

Definition blocks_text (a : list N) (l : list MatchingBlock) : list N :=
  mjoin (map (fun x => slice a (mA x) (mA x + mSize x)) l).

Lemma blocks_common a b aj l : forall i j,
  chained a b i j l -> Forall (piece a b aj) l ->
  sublist (blocks_text a l) (drop i a) /\ sublist (blocks_text a l) (drop j b) /\
  length (blocks_text a l) = total l.
Proof.
  induction l as [|x l IH]; intros i j Hc Hp.
  { split; [apply sublist_nil_l|]. split; [apply sublist_nil_l|done]. }
  apply Forall_cons in Hp as [[Hx Hn] Hp]. destruct Hc as (HA & HB & Hc).
  pose proof (chained_end _ _ _ _ _ Hc) as [Ha Hb].
  destruct (IH _ _ Hc Hp) as (H1 & H2 & H3).
  change (blocks_text a (x :: l)) with (slice a (mA x) (mA x + mSize x) ++ blocks_text a l).
  assert (Hs : slice a (mA x) (mA x + mSize x) = slice b (mB x) (mB x + mSize x))
    by (apply (slice_same a b aj); [done|done|exact Hx]).
  assert (Hd : forall (s : list N) i k, i <= k -> sublist (drop k s) (drop i s)).
  { intros s i' k Hk. rewrite <- (slice_drop s i' k Hk). by apply sublist_inserts_l. }
  split; [|split].
  - etrans; [|apply (Hd a i (mA x) HA)]. rewrite <- (slice_drop a (mA x) (mA x + mSize x)) by lia.
    by apply sublist_app.
  - etrans; [|apply (Hd b j (mB x) HB)]. rewrite <- (slice_drop b (mB x) (mB x + mSize x)) by lia.
    rewrite Hs. by apply sublist_app.
  - rewrite length_app, H3, length_slice by lia. unfold total, block_matches. simpl. lia.
Qed.

Lemma sublist_occ v (l k : list N) : sublist l k -> occ v l <= occ v k.
Proof. induction 1; rewrite ?occ_cons; lia. Qed.

(** The three ratios share the denominator |a| + |b| and their match
    counts are ordered: [Ratio] counts the matching blocks, [QuickRatio] counts
    the common elements with multiplicity, [RealQuickRatio] the shorter length;
    so a cheaper ratio is an upper bound of the exact one. *)
Theorem ratios_ordered a b aj :
  exists m, Ratio (ChainB a b aj) = Some (Ok (CalculateRatio m (length a + length b))) /\
    QuickRatio (ChainB a b aj) = CalculateRatio (common_count a b) (length a + length b) /\
    m <= common_count a b <= length a `min` length b.
Proof.
  destruct (GetMatchingBlocks_chain a b aj) as (l & E & Hc & Hp).
  destruct (blocks_common a b aj l 0 0 Hc Hp) as (H1 & H2 & H3).
  exists (total l). split; [|split; [|split; [|apply common_count_le]]].
  - unfold Ratio. rewrite E. do 3 f_equal. unfold total, block_matches.
    rewrite sum_list_with_app. simpl. lia.
  - unfold QuickRatio. by rewrite quick_matches_spec.
  - rewrite <- H3. apply common_count_max; intros v; by apply sublist_occ.
Qed.

(** ** Groups of opcodes *)

Section Groups.
Context (a b : list N).

(** A code that may have been trimmed: its ranges are ordered and in bounds,
    and an equal run still agrees. *)
Definition op_weak (c : Opcode) : Prop :=
  I1 c <= I2 c <= length a /\ J1 c <= J2 c <= length b /\
  match Tag c with
  | Equal => I2 c - I1 c = J2 c - J1 c /\ slice a (I1 c) (I2 c) = slice b (J1 c) (J2 c)
  | Delete => J1 c = J2 c
  | Insert => I1 c = I2 c
  | Replace => True
  end.

(** Each code starts where the one before ends. *)
Fixpoint contiguous (ops : list Opcode) : Prop :=
  match ops with
  | c :: (d :: _) as rest => I1 d = I2 c /\ J1 d = J2 c /\ contiguous rest
  | _ => True
  end.

Definition group_ok (g : list Opcode) : Prop :=
  g <> [] /\ Forall op_weak g /\ contiguous g.

Lemma slice_sub {A} (l k : list A) (i i' j j' d e : nat) :
  i' <= length l -> j' <= length k -> i' - i = j' - j -> i <= i' -> j <= j' ->
  slice l i i' = slice k j j' -> d + e <= i' - i ->
  slice l (i + d) (i + d + e) = slice k (j + d) (j + d + e).
Proof.
  intros Hi Hj Hl Hii Hjj Hs He.
  apply list_eq_same_length with e; rewrite ?length_slice by lia; try lia.
  intros x u v Hx. rewrite !slice_lookup by lia. intros Hu Hv.
  assert (H1 : slice l i i' !! (d + x) = Some u) by (rewrite slice_lookup by lia; rewrite <- Hu; f_equal; lia).
  assert (H2 : slice k j j' !! (d + x) = Some v) by (rewrite slice_lookup by lia; rewrite <- Hv; f_equal; lia).
  congruence.
Qed.

Lemma op_weak_lead n c : is_equal c = true -> op_weak c -> op_weak (trim_lead n c).
Proof.
  unfold is_equal. intros E (HI & HJ & Ht). bool_props. rewrite E in Ht.
  destruct Ht as [Hl Hs]. unfold op_weak, trim_lead. cbn. rewrite E.
  split; [lia|]. split; [lia|]. split; [lia|].
  set (e := n `min` (I2 c - I1 c)).
  pose proof (slice_sub a b (I1 c) (I2 c) (J1 c) (J2 c) (I2 c - I1 c - e) e) as H.
  assert (E1 : I1 c `max` (I2 c - n) = I1 c + (I2 c - I1 c - e)) by lia.
  assert (E2 : J1 c `max` (J2 c - n) = J1 c + (I2 c - I1 c - e)) by lia.
  assert (E3 : I1 c + (I2 c - I1 c - e) + e = I2 c) by lia.
  assert (E4 : J1 c + (I2 c - I1 c - e) + e = J2 c) by lia.
  rewrite E1, E2. rewrite E3, E4 in H. apply H; try done; lia.
Qed.

Lemma op_weak_tail n c : is_equal c = true -> op_weak c -> op_weak (trim_tail n c).
Proof.
  unfold is_equal. intros E (HI & HJ & Ht). bool_props. rewrite E in Ht.
  destruct Ht as [Hl Hs]. unfold op_weak, trim_tail. cbn. rewrite E.
  split; [lia|]. split; [lia|]. split; [lia|].
  set (e := n `min` (I2 c - I1 c)).
  pose proof (slice_sub a b (I1 c) (I2 c) (J1 c) (J2 c) 0 e) as H.
  rewrite !Nat.add_0_r in H.
  assert (E1 : I2 c `min` (I1 c + n) = I1 c + e) by lia.
  assert (E2 : J2 c `min` (J1 c + n) = J1 c + e) by lia.
  rewrite E1, E2. apply H; try done; lia.
Qed.

Lemma contiguous_snoc g c :
  contiguous g -> match last g with Some d => I1 c = I2 d /\ J1 c = J2 d | None => True end ->
  contiguous (g ++ [c]).
Proof.
  induction g as [|x [|y g] IH]; intros Hg Hl; [done|by destruct Hl|].
  destruct Hg as (H1 & H2 & Hg). cbn [app contiguous]. split; [done|]. split; [done|].
  apply IH; [done|]. by rewrite last_cons_cons in Hl.
Qed.

(** The start of the codes fits the end of the pending group. *)
Definition follows (g : list Opcode) (ops : list Opcode) : Prop :=
  match last g, head ops with
  | Some d, Some c => I1 c = I2 d /\ J1 c = J2 d
  | _, _ => True
  end.

Definition changes (ops : list Opcode) : list Opcode := filter (fun c => is_equal c = false) ops.

Lemma changes_app l k : changes (l ++ k) = changes l ++ changes k.
Proof. apply filter_app. Qed.

Lemma changes_equal c l : is_equal c = true -> changes (c :: l) = changes l.
Proof. intros H. unfold changes. rewrite filter_cons, decide_False by congruence. done. Qed.

Lemma changes_cons c l :
  changes (c :: l) = (if is_equal c then [] else [c]) ++ changes l.
Proof. unfold changes. rewrite filter_cons. by case_decide; destruct (is_equal c). Qed.

Lemma is_equal_lead n c : is_equal (trim_lead n c) = is_equal c.
Proof. done. Qed.
Lemma is_equal_tail n c : is_equal (trim_tail n c) = is_equal c.
Proof. done. Qed.

Lemma groups_ok n ops : forall g,
  Forall op_weak g -> contiguous g -> Forall op_weak ops -> contiguous ops -> follows g ops ->
  Forall group_ok (groups_from n g ops) /\
  changes (mjoin (groups_from n g ops)) = changes g ++ changes ops.
Proof.
  induction ops as [|c ops IH]; intros g Hg Hcg Ho Hco Hf; cbn [groups_from].
  { rewrite app_nil_r. unfold flush_group. destruct g as [|x [|y g]]; [done| |].
    - destruct (is_equal x) eqn:E; [by rewrite changes_equal|].
      split; [|done]. by apply Forall_singleton.
    - split; [by apply Forall_singleton|]. cbn [mjoin list_join]. by rewrite app_nil_r. }
  apply Forall_cons in Ho as [Hc Ho].
  assert (Hco' : contiguous ops) by (destruct ops; [done|]; apply Hco).
  destruct (is_equal c && (n + n <? I2 c - I1 c)%nat) eqn:E; bool_props.
  - destruct (IH [trim_lead n c]) as [H1 H2].
    + apply Forall_singleton. by apply op_weak_lead.
    + done.
    + done.
    + done.
    + unfold follows. simpl. destruct ops as [|d ops]; [done|]. simpl. by destruct Hco as (? & ? & _).
    + split.
      * constructor; [|done]. split; [by destruct g|]. split.
        -- apply Forall_app. split; [done|]. apply Forall_singleton. by apply op_weak_tail.
        -- apply contiguous_snoc; [done|]. unfold follows in Hf. by destruct (last g).
      * change (mjoin (?x :: ?l)) with (x ++ mjoin l).
        rewrite changes_app, H2, changes_app, !changes_equal by done.
        by rewrite app_nil_r.
  - destruct (IH (g ++ [c])) as [H1 H2].
    + apply Forall_app. split; [done|]. by apply Forall_singleton.
    + apply contiguous_snoc; [done|]. unfold follows in Hf. by destruct (last g).
    + done.
    + done.
    + unfold follows. rewrite last_snoc. destruct ops as [|d ops]; [done|]. simpl.
      by destruct Hco as (? & ? & _).
    + split; [done|]. rewrite H2, changes_app, <- app_assoc. unfold changes. rewrite <- filter_app. done.
Qed.

Lemma trim_first_ok n ops :
  Forall op_weak ops -> contiguous ops ->
  Forall op_weak (trim_first n ops) /\ contiguous (trim_first n ops) /\
  changes (trim_first n ops) = changes ops.
Proof.
  intros Ho Hc. destruct ops as [|c ops]; [done|]. simpl.
  apply Forall_cons in Ho as [Hw Ho]. destruct (is_equal c) eqn:E.
  - split; [constructor; [by apply op_weak_lead|done]|]. split.
    + by destruct ops.
    + by rewrite !changes_equal.
  - split; [by constructor|done].
Qed.

Lemma trim_last_ok n ops :
  Forall op_weak ops -> contiguous ops ->
  Forall op_weak (trim_last n ops) /\ contiguous (trim_last n ops) /\
  changes (trim_last n ops) = changes ops /\
  option_map (fun c => (I1 c, J1 c)) (head (trim_last n ops))
  = option_map (fun c => (I1 c, J1 c)) (head ops).
Proof.
  induction ops as [|c ops IH]; intros Ho Hc; [done|].
  apply Forall_cons in Ho as [Hw Ho]. destruct ops as [|d ops].
  - simpl. destruct (is_equal c) eqn:E.
    + split; [apply Forall_singleton; by apply op_weak_tail|]. split; [done|].
      by rewrite !changes_equal.
    + by split; [apply Forall_singleton|].
  - destruct Hc as (H1 & H2 & Hc). destruct (IH Ho Hc) as (I1' & I2' & I3' & I4').
    change (trim_last n (c :: d :: ops)) with (c :: trim_last n (d :: ops)).
    split; [by constructor|]. split; [|split; [|done]].
    + destruct (trim_last n (d :: ops)) as [|e l]; [done|]. simpl in I4'. split; [congruence|].
      split; [congruence|done].
    + by rewrite (changes_cons c (trim_last n _)), (changes_cons c (d :: ops)), I3'.
Qed.

Lemma tiles_weak ops : forall i j, tiles a b i j ops ->
  Forall op_weak ops /\ contiguous ops.
Proof.
  induction ops as [|c ops IH]; intros i j Ht; [done|].
  destruct Ht as (_ & _ & Hok & HI & HJ & Ht). destruct (IH _ _ Ht) as [H1 H2].
  split.
  - constructor; [|done]. pose proof (op_ok_le a b c Hok). unfold op_weak, op_ok in *.
    split; [lia|]. split; [lia|]. by destruct (Tag c); intuition.
  - destruct ops as [|d ops]; [done|]. by destruct Ht as (? & ? & _).
Qed.
End Groups.

(** ** [unified_diff] (src/src/diff/TextDiff.cpp, [UnifiedDiff])

    Interning lines loses nothing, the groups keep every change, and the rows
    of a group spell out the slices of the two texts it covers. *)

(** ** Interned lines *)

Record wf_lines (ids : gmap text N) : Prop := {
  wl_inj l k i : ids !! l = Some i -> ids !! k = Some i -> l = k;
  wl_small l i : ids !! l = Some i -> (i < N.of_nat (size ids))%N;
}.

Lemma intern_lines_spec (lines : list text) : forall ids,
  wf_lines ids ->
  let '(ids', l) := intern_lines ids lines in
  wf_lines ids' /\ ids ⊆ ids' /\ Forall2 (fun x i => ids' !! x = Some i) lines l.
Proof.
  induction lines as [|x lines IH]; intros ids Hwf; cbn [intern_lines]; [done|].
  destruct (ids !! x) as [i|] eqn:E.
  - specialize (IH ids Hwf). destruct (intern_lines ids lines) as [ids' l].
    destruct IH as (H1 & H2 & H3). split; [done|]. split; [done|].
    constructor; [|done]. by eapply lookup_weaken.
  - set (id := N.of_nat (size ids)).
    assert (Hwf' : wf_lines (<[x := id]> ids)).
    { split.
      - intros l k i. rewrite !lookup_insert_Some.
        intros [[<- <-]|[Hl H1]] [[<- H2]|[Hk H2]]; [done| | |].
        + apply (wl_small _ Hwf) in H2. lia.
        + subst i. apply (wl_small _ Hwf) in H1. lia.
        + by eapply (wl_inj _ Hwf).
      - intros l i. rewrite map_size_insert_None by done. rewrite lookup_insert_Some.
        intros [[<- <-]|[_ H]]; [lia|]. apply (wl_small _ Hwf) in H. lia. }
    specialize (IH _ Hwf'). destruct (intern_lines _ lines) as [ids' l].
    destruct IH as (H1 & H2 & H3). split; [done|]. split.
    + etrans; [|exact H2]. by apply insert_subseteq.
    + constructor; [|done]. eapply lookup_weaken; [|exact H2]. apply lookup_insert_eq.
Qed.

Lemma Forall2_slice {A C} (R : A -> C -> Prop) l k i j :
  Forall2 R l k -> Forall2 R (slice l i j) (slice k i j).
Proof. intros H. unfold slice. by apply Forall2_take, Forall2_drop. Qed.

(** Equal ids stand for equal lines. *)
Lemma interned_inj ids (l k : list text) (s : list N) :
  wf_lines ids -> Forall2 (fun x i => ids !! x = Some i) l s ->
  Forall2 (fun x i => ids !! x = Some i) k s -> l = k.
Proof.
  intros Hwf H. revert k. induction H as [|x i l s Hx Hl IH]; intros k Hk; inversion Hk; subst; [done|].
  f_equal; [by eapply (wl_inj _ Hwf)|by apply IH].
Qed.

(** ** The rows of a group *)

Definition row_tag (p : byte) (row : text) : bool :=
  match row with c :: _ => bool_decide (c = p) | [] => false end.

(** The lines of a block of rows on one side: unchanged rows and the rows of
    that side, without their tags. *)
Definition side_lines (p : byte) (rows : list text) : list text :=
  map (drop 1) (filter (fun r => row_tag x20 r || row_tag p r = true) rows).

Lemma side_lines_app p r s : side_lines p (r ++ s) = side_lines p r ++ side_lines p s.
Proof. unfold side_lines. by rewrite filter_app, map_app. Qed.

Lemma side_lines_prefixed p c (s : list text) i k :
  side_lines p (prefixed c s i k) = if bool_decide (c = x20 \/ c = p) then slice s i k else [].
Proof.
  unfold prefixed. fold (slice s i k). generalize (slice s i k). intros l.
  unfold side_lines. induction l as [|x l IH]; simpl; [by case_bool_decide|].
  rewrite filter_cons. simpl. case_bool_decide as H.
  - rewrite decide_True; [simpl; by rewrite IH|].
    apply orb_true_iff. destruct H; [left|right]; by apply bool_decide_eq_true.
  - rewrite decide_False; [done|]. rewrite orb_true_iff, !bool_decide_eq_true. tauto.
Qed.

Section Rows.
Context (a b : list text) (ids : gmap text N) (ka kb : list N).
Context (Hids : wf_lines ids).
Context (Ha : Forall2 (fun x i => ids !! x = Some i) a ka).
Context (Hb : Forall2 (fun x i => ids !! x = Some i) b kb).

Lemma equal_lines i k i' k' : slice ka i k = slice kb i' k' -> slice a i k = slice b i' k'.
Proof.
  intros H. eapply (interned_inj ids); [done|by apply Forall2_slice|].
  rewrite H. by apply Forall2_slice.
Qed.

Lemma opcode_rows_sides c :
  op_weak ka kb c ->
  side_lines x2d (opcode_rows a b c) = slice a (I1 c) (I2 c) /\
  side_lines x2b (opcode_rows a b c) = slice b (J1 c) (J2 c).
Proof.
  intros (HI & HJ & Ht). unfold opcode_rows. destruct (Tag c);
    rewrite ?side_lines_app, !side_lines_prefixed; simpl.
  - by rewrite app_nil_r.
  - rewrite Ht, slice_empty. done.
  - rewrite Ht, slice_empty. done.
  - destruct Ht as [_ Hs]. split; [done|]. by apply equal_lines.
Qed.

Lemma group_sides g c d :
  Forall (op_weak ka kb) g -> contiguous g -> head g = Some c -> last g = Some d ->
  side_lines x2d (mjoin (map (opcode_rows a b) g)) = slice a (I1 c) (I2 d) /\
  side_lines x2b (mjoin (map (opcode_rows a b) g)) = slice b (J1 c) (J2 d) /\
  I1 c <= I2 d /\ J1 c <= J2 d.
Proof.
  intros Hg. revert c. induction Hg as [|x g Hx Hg IH]; intros c Hc Hh Hl; [done|].
  injection Hh as ->. destruct (opcode_rows_sides c Hx) as [H1 H2].
  destruct Hx as (HI & HJ & _).
  cbn [map]. change (mjoin (?x :: ?l)) with (x ++ mjoin l). rewrite !side_lines_app, H1, H2.
  destruct g as [|y g].
  - injection Hl as ->. cbn [map]. change (mjoin []) with (@nil text).
    unfold side_lines at 1 2. simpl. rewrite !app_nil_r. repeat split; lia.
  - destruct Hc as (E1 & E2 & Hc). rewrite last_cons_cons in Hl.
    destruct (IH y Hc eq_refl Hl) as (H3 & H4 & H5 & H6). rewrite H3, H4, E1, E2 in *.
    rewrite !slice_app by lia. split; [done|]. split; [done|]. lia.
Qed.
End Rows.

(** ** The whole diff *)

Lemma group_codes_ok ka kb n ops :
  ops <> [] -> tiles ka kb 0 0 ops ->
  Forall (group_ok ka kb) (group_codes n ops) /\
  changes (mjoin (group_codes n ops)) = changes ops.
Proof.
  intros Hne Ht. destruct (tiles_weak ka kb ops 0 0 Ht) as [Hw Hc].
  unfold group_codes.
  replace (match ops with [] => _ | _ => ops end) with ops by (destruct ops; congruence).
  destruct (trim_first_ok ka kb n ops Hw Hc) as (F1 & F2 & F3).
  destruct (trim_last_ok ka kb n _ F1 F2) as (L1 & L2 & L3 & _).
  destruct (groups_ok ka kb n (trim_last n (trim_first n ops)) []) as [G1 G2]; try done.
  by rewrite G2, L3, F3.
Qed.

(** Only equal codes: nothing changed. *)
Lemma no_changes_equal ka kb ops :
  tiles ka kb 0 0 ops -> changes ops = [] -> ka = kb.
Proof.
  intros Ht Hc. destruct (tiles_patch ka kb ops 0 0 Ht) as [H1 H2].
  rewrite drop_0 in H1, H2.
  assert (E : patch ka kb ops = mjoin (map (fun c => slice ka (I1 c) (I2 c)) ops)); [|congruence].
  unfold patch. f_equal. clear -Hc. induction ops as [|c ops IH]; [done|].
  rewrite changes_cons in Hc. apply app_nil in Hc as [Hc1 Hc2]. simpl. rewrite (IH Hc2). f_equal.
  destruct (is_equal c) eqn:E; [|done]. unfold is_equal in E. bool_props. by rewrite E.
Qed.

(** What a group of opcodes prints. *)
Definition hunk_ok (a b : list text) (LineTerm : text) (g : list Opcode) : Prop :=
  exists c d body, head g = Some c /\ last g = Some d /\
    group_rows a b LineTerm g =
      (B "@@ -" ++ FormatRangeUnified (I1 c) (I2 d) ++ B " +"
       ++ FormatRangeUnified (J1 c) (J2 d) ++ B " @@" ++ LineTerm) :: body /\
    side_lines x2d body = slice a (I1 c) (I2 d) /\
    side_lines x2b body = slice b (J1 c) (J2 d) /\
    I1 c <= I2 d <= length a /\ J1 c <= J2 d <= length b.

Lemma hunks_ok a b ids ka kb LineTerm g :
  wf_lines ids -> Forall2 (fun x i => ids !! x = Some i) a ka ->
  Forall2 (fun x i => ids !! x = Some i) b kb ->
  group_ok ka kb g -> hunk_ok a b LineTerm g.
Proof.
  intros Hids Ha Hb (Hne & Hw & Hc). destruct g as [|c g]; [done|].
  destruct (last (c :: g)) as [d|] eqn:Hl; [|by apply last_None in Hl].
  destruct (group_sides a b ids ka kb Hids Ha Hb (c :: g) c d Hw Hc eq_refl Hl)
    as (H1 & H2 & H3 & H4).
  exists c, d. eexists. split; [done|]. split; [done|].
  split; [unfold group_rows; by rewrite Hl|]. split; [exact H1|]. split; [exact H2|].
  assert (Hd : op_weak ka kb d).
  { rewrite Forall_forall in Hw. apply Hw. apply last_Some in Hl as [l ->].
    rewrite elem_of_app, list_elem_of_singleton. auto. }
  destruct Hd as (HI & HJ & _). apply Forall2_length in Ha, Hb. lia.
Qed.

Lemma diff_core a b n LineTerm :
  (0 <= n)%Z -> (Z.of_nat (length a) < 4294967295)%Z -> (Z.of_nat (length b) < 4294967295)%Z ->
  exists groups, UnifiedDiff a b n LineTerm = Some (Ok (diff_rows a b LineTerm groups)) /\
    Forall (hunk_ok a b LineTerm) groups /\ (groups = [] -> a = b).
Proof.
  intros Hn Hla Hlb. unfold UnifiedDiff.
  assert (H0 : wf_lines ∅) by (split; intros *; rewrite lookup_empty; done).
  pose proof (intern_lines_spec a ∅ H0) as Ha.
  destruct (intern_lines ∅ a) as [ids ka]. destruct Ha as (Hw1 & _ & Ha).
  pose proof (intern_lines_spec b ids Hw1) as Hb.
  destruct (intern_lines ids b) as [ids' kb]. destruct Hb as (Hw2 & Hsub & Hb).
  assert (Ha' : Forall2 (fun x i => ids' !! x = Some i) a ka)
    by (eapply Forall2_impl; [exact Ha|]; intros x i Hx; exact (lookup_weaken ids ids' x i Hx Hsub)).
  pose proof (Forall2_length _ _ _ Ha) as La. pose proof (Forall2_length _ _ _ Hb) as Lb.
  unfold SequenceMatcher. rewrite <- La, <- Lb.
  rewrite (proj2 (Z.leb_gt _ _) Hla), (proj2 (Z.leb_gt _ _) Hlb). simpl orb. cbv iota.
  unfold GetGroupedOpcodes. rewrite (proj2 (Z.ltb_ge _ _) Hn).
  destruct (GetOpcodes_tile ka kb true) as (ops & -> & Ht).
  exists (group_codes (Z.to_nat n) ops). split; [done|].
  destruct ops as [|o ops].
  { simpl in Ht. destruct Ht as [E1 E2]. rewrite <- E1 in La. rewrite <- E2 in Lb.
    apply nil_length_inv in La as ->. apply nil_length_inv in Lb as ->. split; [|done].
    replace (group_codes (Z.to_nat n) []) with (@nil (list Opcode)); [constructor|].
    destruct (Z.to_nat n) as [|m]; [done|]. unfold group_codes. simpl.
    destruct (Nat.ltb_spec (m + S m) 0); [lia|done]. }
  destruct (group_codes_ok ka kb (Z.to_nat n) (o :: ops)) as [Hg Hc]; [done..|].
  split.
  - eapply Forall_impl; [exact Hg|]. intros g. by apply (hunks_ok a b ids' ka kb).
  - intros Hnil. rewrite Hnil in Hc.
    assert (ka = kb) as -> by (by eapply no_changes_equal).
    by eapply (interned_inj ids').
Qed.

(** C28: With a non-negative context and fewer than 2^32 - 1 lines, the diff
    ends without an exception; each hunk's header gives its ranges, its
    unchanged and removed rows are the slice of [a], its unchanged and added
    rows are the slice of [b]; and no rows at all means the texts are equal. *)
Theorem UnifiedDiff_hunks a b n LineTerm :
  (0 <= n)%Z -> (Z.of_nat (length a) < 4294967295)%Z -> (Z.of_nat (length b) < 4294967295)%Z ->
  exists groups rows, UnifiedDiff a b n LineTerm = Some (Ok rows) /\
    rows = diff_rows a b LineTerm groups /\
    Forall (hunk_ok a b LineTerm) groups /\ (rows = [] -> a = b).
Proof.
  intros Hn Ha Hb. destruct (diff_core a b n LineTerm Hn Ha Hb) as (groups & E & Hh & He).
  exists groups. eexists. split; [exact E|]. split; [done|]. split; [done|].
  intros Hr. apply He. by destruct groups.
Qed.
