(* ===== verification/PatchDiffHook.v ===== *)
(** * The patch-diff hook (src/src/diff/stages/PatchDiffHook.cpp)

    The default hook of patch-diff mode looks for a suspicious change between
    the two functions of an accepted row. It never changes a ratio; it counts,
    it remembers the pairs it has seen, and it can raise. *)

From Stdlib Require Import ZArith Lia.
From stdpp Require Import base numbers gmap sets option list.
From S2P Require Import Prelude Dbl Interner PyInt Snapshot MatchState Consumer TextDiff UnifiedDiff.

Inductive TextValue :=
| ValueNone
| ValueStr (Text : text)
| ValueBytes (Text : text).

#[export] Instance TextValue_eq_dec : EqDecision TextValue.
Proof. solve_decision. Defined.

Definition kNoRow : Z := 0xFFFFFFFF.

(** [None]: an index past the end of one of the column's vectors, which keep
    one length. *)
Definition ColumnValue (Column : TextColumn) (Row : Z) : option (res TextValue) :=
  if bool_decide (Row = kNoRow) || (Z.of_nat (ColumnSize Column) <=? Row)%Z then
    Some (Throw (UnsupportedInput
      (B "patch_diff_vulns on_match: the row's function is not in the export")))
  else
    let i := Z.to_nat Row in
    n ← Null i Column;
    if (n : bool) then Some (Ok ValueNone)
    else
      b ← IsBlob Column !! i;
      v ← View i Column;
      Some (Ok (if (b : bool) then ValueBytes v else ValueStr v)).

Definition RequireStr (Value : TextValue) (Site : text) : res text :=
  match Value with
  | ValueBytes _ =>
      Throw (DiaphoraWouldRaise (Site ++ B " TypeError")
        (B "a bytes-like object is required, not 'str'"))
  | ValueStr t => Ok t
  | ValueNone => Ok []
  end.

Definition AsciiLower (Ch : byte) : byte :=
  if (65 <=? code Ch)%Z && (code Ch <=? 90)%Z then byte_of_code (code Ch - 65 + 97) else Ch.
Definition AsciiLowerText (t : text) : text := map AsciiLower t.

Definition SignedUnsignedPairs : list (text * text) :=
  [(B "jl", B "jb"); (B "jle", B "jbe"); (B "jg", B "ja"); (B "jge", B "jae");
   (B "jb", B "jl"); (B "jbe", B "jle"); (B "ja", B "jg"); (B "jae", B "jge")].

Definition SignedUnsignedPartner (Lower : text) : option text :=
  snd <$> head (filter (fun kv => Lower = kv.1) SignedUnsignedPairs).

(** [Text.substr(0, Text.find(' '))]. *)
Fixpoint FirstToken (t : text) : text :=
  match t with
  | [] => []
  | Ch :: t' => if bool_decide (Ch = x20) then [] else Ch :: FirstToken t'
  end.

Definition index_error : exn :=
  DiaphoraWouldRaise (B "scripts/patch_diff_vulns.py:162 IndexError")
    (B "string index out of range").

(** The checks on one pair of mnemonics: [Ok true] is [found], [Ok false]
    continues the walk. *)
Definition mnemonic_check (Lower1 Lower2 : text) : res bool :=
  match SignedUnsignedPartner Lower1 with
  | Some Partner => Ok (bool_decide (Partner = Lower2))
  | None =>
      match Lower1 with
      | [] => Throw index_error
      | c1 :: _ =>
          if negb (bool_decide (c1 = x62)) then Ok false
          else
            match Lower2 with
            | [] => Throw index_error
            | c2 :: _ =>
                if negb (bool_decide (c2 = x62)) then Ok false
                else
                  let Last1 := last Lower1 in
                  let Last2 := last Lower2 in
                  Ok ((bool_decide (Last1 = Some x73) || bool_decide (Last2 = Some x73))
                      && negb (bool_decide (Last1 = Last2)))
            end
      end
  end.

Fixpoint assembly_walk (Lines : list text) (Added Removed : option text) : res bool :=
  match Lines with
  | [] => Ok false
  | Line :: Lines' =>
      match Line with
      | [] => assembly_walk Lines' Added Removed
      | C :: Rest =>
          if negb (bool_decide (C = x2d)) && negb (bool_decide (C = x2b))
          then assembly_walk Lines' Added Removed
          else if negb (bool_decide (C = x2b)) && bool_decide (last Rest = Some x3a)
          then assembly_walk Lines' Added Removed
          else
            let Added' := if bool_decide (C = x2b) then Some Rest else Added in
            let Removed' := if bool_decide (C = x2b) then Removed else Some Rest in
            match Added', Removed' with
            | Some a, Some r =>
                found ← mnemonic_check (AsciiLowerText (FirstToken a))
                          (AsciiLowerText (FirstToken r));
                if found : bool then Ok true else assembly_walk Lines' Added' Removed'
            | _, _ => assembly_walk Lines' Added' Removed'
            end
      end
  end.

(** [None]: the fuel of the diff ran out. *)
Definition FindVulnsUsingAssembly (Asm1 Asm2 : TextValue) : option (res bool) :=
  if bool_decide (Asm1 = ValueNone) || bool_decide (Asm2 = ValueNone) then Some (Ok false)
  else
    match RequireStr Asm1 (B "scripts/patch_diff_vulns.py:137"),
          RequireStr Asm2 (B "scripts/patch_diff_vulns.py:137") with
    | Throw e, _ => Some (Throw e)
    | _, Throw e => Some (Throw e)
    | Ok t1, Ok t2 =>
        Lines ← UnifiedDiff (PySplitNewline t1) (PySplitNewline t2) 3 [x0a];
        Some (Lines ← Lines; assembly_walk Lines None None)
    end.

(** [Line.find(Pattern) != npos]. *)
Fixpoint prefixb (p t : text) : bool :=
  match p, t with
  | [], _ => true
  | a :: p', b :: t' => bool_decide (a = b) && prefixb p' t'
  | _ :: _, [] => false
  end.
Fixpoint contains (p t : text) : bool :=
  prefixb p t || match t with [] => false | _ :: t' => contains p t' end.

Definition Patterns : list text :=
  [B "cpy"; B "printf"; B "strcat"; B "strncat"; B "gets"; B "mem"; B "system"; B "scanf";
   B "alloc"; B "free"; B "strto"; B "ShellExecute"; B "WinExec"; B "LoadLibrary";
   B "CreateProcess"; B "ProbeForWrite"; B "ProbeForRead"; B "UNC"].
Definition SearchPseudoPatterns (Line : text) : bool :=
  existsb (fun Pattern => contains Pattern Line) Patterns.

Definition Comparisons : list text := [B " < "; B " > "; B " <= "; B " >= "].
Definition SearchForAddedSizeCheck (Line : text) : bool :=
  prefixb (B "if ") Line &&
  existsb (fun Pattern => contains Pattern Line && negb (contains (Pattern ++ B "0 ") Line))
    Comparisons.

(** The continuation bytes of the second character are skipped. *)
Fixpoint skip_continuation (t : text) : text :=
  match t with
  | b :: t' => if (Z.land (code b) 0xC0 =? 0x80)%Z then skip_continuation t' else t
  | [] => []
  end.
Definition AfterTwoCharacters (Line : text) : text :=
  if (length Line <=? 1)%nat then [] else skip_continuation (drop 2 Line).

Fixpoint strip_left (t : text) : text :=
  match t with
  | Ch :: t' => if bool_decide (Ch = x20) then strip_left t' else t
  | [] => []
  end.
Definition StripSpaces (t : text) : text := reverse (strip_left (reverse (strip_left t))).

Fixpoint pseudocode_walk (Lines : list text) : bool :=
  match Lines with
  | [] => false
  | Line :: Lines' =>
      match Line with
      | [] => pseudocode_walk Lines'
      | C :: _ =>
          if negb (bool_decide (C = x2d)) && negb (bool_decide (C = x2b))
          then pseudocode_walk Lines'
          else
            let Source := StripSpaces (AfterTwoCharacters Line) in
            if SearchPseudoPatterns Source then true
            else if bool_decide (C = x2b) && SearchForAddedSizeCheck Source then true
            else pseudocode_walk Lines'
      end
  end.

Definition FindVulnsUsingPseudocode (Pseudo1 Pseudo2 : TextValue) : option (res bool) :=
  if bool_decide (Pseudo1 = ValueNone) || bool_decide (Pseudo2 = ValueNone) then Some (Ok false)
  else
    match RequireStr Pseudo1 (B "scripts/patch_diff_vulns.py:186"),
          RequireStr Pseudo2 (B "scripts/patch_diff_vulns.py:186") with
    | Throw e, _ => Some (Throw e)
    | _, Throw e => Some (Throw e)
    | Ok t1, Ok t2 =>
        Lines ← UnifiedDiff (PySplitNewline t1) (PySplitNewline t2) 3 [x0a];
        Some (Lines ← Lines; Ok (pseudocode_walk Lines))
    end.

(** [PatchDiffHookState] and the two counters of [EarlyFacts]. *)
Record HookState := MkHookState {
  Dones : gset (NameId * NameId);
  HookAnalysed : Z;
  HookFound : Z;
}.
Definition EmptyHookState : HookState := MkHookState ∅ 0 0.

Section Hook.
(** The assembly and pseudocode columns of the two exports. *)
Context (Assembly Pseudocode : Side -> TextColumn).

Definition both (c : Side -> TextColumn) (Row : HeuristicRow)
    (find : TextValue -> TextValue -> option (res bool)) : option (res bool) :=
  v1 ← ColumnValue (c (Side1 Row)) (Row1 Row);
  v2 ← ColumnValue (c (Side2 Row)) (Row2 Row);
  match v1, v2 with
  | Throw e, _ => Some (Throw e)
  | _, Throw e => Some (Throw e)
  | Ok a, Ok b => find a b
  end.

Definition search (Row : HeuristicRow) : option (res bool) :=
  found ← both Assembly Row FindVulnsUsingAssembly;
  match found with
  | Throw e => Some (Throw e)
  | Ok true => Some (Ok true)
  | Ok false => both Pseudocode Row FindVulnsUsingPseudocode
  end.

(** The item and chooser calls of a finding: what they can raise. *)
Definition report (ids : Interners) (Row : HeuristicRow) : res unit :=
  match RowNodes1 Row, RowNodes2 Row with
  | None, _ => Throw (DiaphoraWouldRaise (B "D:244 TypeError")
      (B "int() argument must be a string, a bytes-like object or a real number, not 'NoneType'"))
  | _, None => Throw (DiaphoraWouldRaise (B "D:245 TypeError")
      (B "int() argument must be a string, a bytes-like object or a real number, not 'NoneType'"))
  | Some _, Some _ =>
      _ ← RequirePyInt ids (RowEa1 Row) (B "D:286");
      RequirePyInt ids (RowEa2 Row) (B "D:288")
  end.

(** [None]: see [FindVulnsUsingAssembly] and [ColumnValue]. *)
Definition OnMatch (ids : Interners) (Row : HeuristicRow) (R : dbl) (s : HookState)
    : option (HookState * res unit) :=
  if negb (dlt R d1) then Some (s, Ok tt)
  else if bool_decide ((RowName1 Row, RowName2 Row) ∈ Dones s) then Some (s, Ok tt)
  else
    let s := MkHookState ({[(RowName1 Row, RowName2 Row)]} ∪ Dones s) (HookAnalysed s + 1)
               (HookFound s) in
    found ← search Row;
    match found with
    | Throw e => Some (s, Throw e)
    | Ok false => Some (s, Ok tt)
    | Ok true =>
        Some (MkHookState (Dones s) (HookAnalysed s) (HookFound s + 1), report ids Row)
    end.
End Hook.

(** ** The hook's accounting *)

(** Every pair it remembers was analysed once, and findings are counted among
    the analysed pairs. *)
Definition hook_ok (s : HookState) : Prop :=
  HookAnalysed s = Z.of_nat (size (Dones s)) /\ (0 <= HookFound s <= HookAnalysed s)%Z.

Lemma hook_ok_empty : hook_ok EmptyHookState.
Proof. split; [done|simpl; lia]. Qed.

Lemma split_from_length (piece s : text) : length (split_from piece s) <= S (length s).
Proof.
  revert piece. induction s as [|c s IH]; intros piece; simpl; [lia|].
  case_bool_decide; simpl.
  - specialize (IH []). lia.
  - specialize (IH (piece ++ [c])). lia.
Qed.

(** A value short enough for the diff: fewer than 2^32 - 2 bytes. *)
Definition short_value (v : TextValue) : Prop :=
  match v with
  | ValueNone => True
  | ValueStr t | ValueBytes t => (Z.of_nat (length t) < 2 ^ 32 - 2)%Z
  end.

Lemma diff_answers (t1 t2 : text) :
  (Z.of_nat (length t1) < 2 ^ 32 - 2)%Z -> (Z.of_nat (length t2) < 2 ^ 32 - 2)%Z ->
  exists rows, UnifiedDiff (PySplitNewline t1) (PySplitNewline t2) 3 [x0a] = Some (Ok rows).
Proof.
  intros H1 H2. unfold PySplitNewline.
  pose proof (split_from_length [] t1). pose proof (split_from_length [] t2).
  destruct (diff_core (split_from [] t1) (split_from [] t2) 3 [x0a]) as (groups & E & _);
    [lia|lia|lia|]. by eexists.
Qed.

Lemma assembly_answers (a b : TextValue) :
  short_value a -> short_value b -> exists r, FindVulnsUsingAssembly a b = Some r.
Proof.
  intros Ha Hb. unfold FindVulnsUsingAssembly. destruct (_ || _) eqn:E; [eexists; reflexivity|].
  destruct a as [|t1|t1], b as [|t2|t2]; simpl in *; try (eexists; reflexivity); try done.
  destruct (diff_answers t1 t2 Ha Hb) as (rows & ->). eexists. reflexivity.
Qed.

Lemma pseudocode_answers (a b : TextValue) :
  short_value a -> short_value b -> exists r, FindVulnsUsingPseudocode a b = Some r.
Proof.
  intros Ha Hb. unfold FindVulnsUsingPseudocode. destruct (_ || _) eqn:E; [eexists; reflexivity|].
  destruct a as [|t1|t1], b as [|t2|t2]; simpl in *; try (eexists; reflexivity); try done.
  destruct (diff_answers t1 t2 Ha Hb) as (rows & ->). eexists. reflexivity.
Qed.

(** A column that holds cells of at most 2^32 - 3 bytes. *)
Definition short_column (c : TextColumn) : Prop :=
  exists cells, holds c cells /\
    Forall (fun x => match x with Some (t, _) => (Z.of_nat (length t) < 2 ^ 32 - 2)%Z | None => True end)
      cells.

Lemma ColumnValue_answers (c : TextColumn) (Row : Z) :
  short_column c -> (0 <= Row)%Z ->
  exists r, ColumnValue c Row = Some r /\ match r with Ok v => short_value v | Throw _ => True end.
Proof.
  intros (cells & (H1 & H2 & H3 & H4 & H5) & Hshort) HRow. unfold ColumnValue.
  destruct (_ || _) eqn:E; [eexists; split; [reflexivity|done]|]. bool_props. unfold ColumnSize in *.
  assert (length (IsNull c) = length cells) as Hlen by (by rewrite H3, length_map).
  destruct (lookup_lt_is_Some_2 cells (Z.to_nat Row)) as [x Hx]; [lia|].
  unfold Null. rewrite H3, H4, !list_lookup_fmap, Hx. simpl.
  destruct x as [[t b]|]; [|eexists; split; [reflexivity|done]]. simpl.
  destruct (H5 _ t b Hx) as (off & Ho & _ & Hl & Ht). unfold View.
  rewrite Ho. simpl. rewrite Hl. simpl. rewrite Nat2Z.id, Ht.
  eexists. split; [done|]. eapply Forall_lookup_1 in Hshort; [|exact Hx]. by destruct b.
Qed.

Section Accounting.
Context (Assembly Pseudocode : Side -> TextColumn).
Context (Hasm : forall s, short_column (Assembly s)).
Context (Hpseudo : forall s, short_column (Pseudocode s)).

Lemma both_answers (c : Side -> TextColumn) (Row : HeuristicRow)
    (find : TextValue -> TextValue -> option (res bool)) :
  (forall s, short_column (c s)) -> (0 <= Row1 Row)%Z -> (0 <= Row2 Row)%Z ->
  (forall a b, short_value a -> short_value b -> exists r, find a b = Some r) ->
  exists r, both c Row find = Some r.
Proof.
  intros Hc H1 H2 Hfind. unfold both.
  destruct (ColumnValue_answers _ _ (Hc (Side1 Row)) H1) as (v1 & -> & Hv1).
  destruct (ColumnValue_answers _ _ (Hc (Side2 Row)) H2) as (v2 & -> & Hv2).
  simpl. destruct v1 as [a|e], v2 as [b|e']; try (eexists; reflexivity). by apply Hfind.
Qed.

Lemma search_answers (Row : HeuristicRow) :
  (0 <= Row1 Row)%Z -> (0 <= Row2 Row)%Z -> exists r, search Assembly Pseudocode Row = Some r.
Proof.
  intros H1 H2. unfold search.
  destruct (both_answers Assembly Row FindVulnsUsingAssembly Hasm H1 H2 assembly_answers) as (r & ->).
  simpl. destruct r as [[]|e]; try (eexists; reflexivity).
  by apply both_answers; [| | |apply pseudocode_answers].
Qed.

(** Over columns with cells below 2^32 - 2 bytes the hook always answers
    and keeps its books: it analyses each pair of names once (the counter is
    the number of remembered pairs), counts findings among them, never
    forgets a pair, leaves everything alone for a ratio of 1 or more, and a
    later call with the same names does nothing, whatever its row or ratio
    and even when the first call raised. *)
Theorem OnMatch_accounting (ids : Interners) (Row : HeuristicRow) (R : dbl) (s : HookState)
    (Hok : hook_ok s) (H1 : (0 <= Row1 Row)%Z) (H2 : (0 <= Row2 Row)%Z) :
  exists s' r, OnMatch Assembly Pseudocode ids Row R s = Some (s', r) /\
    hook_ok s' /\ Dones s ⊆ Dones s' /\
    (dlt R d1 = false -> s' = s /\ r = Ok tt) /\
    (dlt R d1 = true -> forall ids' Row' R',
       RowName1 Row' = RowName1 Row -> RowName2 Row' = RowName2 Row ->
       OnMatch Assembly Pseudocode ids' Row' R' s' = Some (s', Ok tt)).
Proof.
  unfold OnMatch at 1. destruct (dlt R d1) eqn:ER; simpl;
    [|by exists s, (Ok tt); split_and!].
  assert (forall s', (RowName1 Row, RowName2 Row) ∈ Dones s' -> forall ids' Row' R',
    RowName1 Row' = RowName1 Row -> RowName2 Row' = RowName2 Row ->
    OnMatch Assembly Pseudocode ids' Row' R' s' = Some (s', Ok tt)) as Hagain.
  { intros s' Hin ids' Row' R' E1 E2. unfold OnMatch. destruct (dlt R' d1); [|done]. simpl.
    by rewrite E1, E2, bool_decide_true. }
  case_bool_decide as Hin.
  { exists s, (Ok tt). split_and!; try done. intros _. by apply Hagain. }
  destruct (search_answers Row H1 H2) as (found & ->). simpl.
  destruct Hok as [Ha Hf].
  assert (size ({[(RowName1 Row, RowName2 Row)]} ∪ Dones s) = S (size (Dones s))) as Hsize.
  { rewrite size_union, size_singleton; [done|]. by apply disjoint_singleton_l. }
  assert ((RowName1 Row, RowName2 Row) ∈ {[(RowName1 Row, RowName2 Row)]} ∪ Dones s) as Hnew
    by by apply elem_of_union_l, elem_of_singleton.
  assert (Dones s ⊆ {[(RowName1 Row, RowName2 Row)]} ∪ Dones s) as Hsub
    by apply union_subseteq_r.
  destruct found as [[]|e]; eexists _, _; (split; [done|]); split_and!; try done;
    try (split; simpl; [rewrite Hsize|]; lia); intros _; by apply Hagain.
Qed.
End Accounting.
