(* ===== verification/PyBig.v ===== *)
(** * Big integers of the decimal conversions (src/src/diff/PyValue.cpp)

    [class BigUInt]: 32-bit limbs, least significant first, without leading
    zero limbs. Each operation is the loop of the source on the limb vector;
    the lemmas give its value. *)

From Stdlib Require Import ZArith Lia.
From stdpp Require Import base option numbers list.
From S2P Require Import Prelude Decimal.
Local Open Scope Z_scope.

Abbreviation limbs := (list Z).

(** ** The operations *)

(** The constructor from a [uint64_t]: two shifts at most. *)
Fixpoint limbs_of (fuel : nat) (Value : Z) : limbs :=
  match fuel with
  | O => []
  | S fuel' =>
      if negb (Value =? 0) then w32 Value :: limbs_of fuel' (Z.shiftr Value 32) else []
  end.
Definition PyBigUInt (Value : Z) : limbs := limbs_of 2 Value.

Definition IsZero (l : limbs) : bool := match l with [] => true | _ => false end.

(** The loop of [MulAdd]: the new limbs and the last carry. *)
Fixpoint mul_add_loop (Factor Carry : Z) (l : limbs) : limbs * Z :=
  match l with
  | [] => ([], Carry)
  | Limb :: l' =>
      let Product := w64 (Limb * Factor + Carry) in
      let '(r, c) := mul_add_loop Factor (Z.shiftr Product 32) l' in
      (w32 Product :: r, c)
  end.

Definition push_carry (p : limbs * Z) : limbs :=
  if negb (p.2 =? 0) then p.1 ++ [w32 p.2] else p.1.

Definition MulAdd (Factor Addend : Z) (l : limbs) : limbs :=
  push_carry (mul_add_loop Factor Addend l).

Definition kPow10 : list Z :=
  [1; 10; 100; 1000; 10000; 100000; 1000000; 10000000; 100000000; 1000000000].

Fixpoint mul_pow10_loop (fuel : nat) (Count : Z) (l : limbs) : limbs :=
  match fuel with
  | O => l
  | S fuel' =>
      if 9 <=? Count then mul_pow10_loop fuel' (Count - 9) (MulAdd 1000000000 0 l)
      else if 0 <? Count then MulAdd (nth (Z.to_nat Count) kPow10 0) 0 l
      else l
  end.
Definition MulPow10 (Count : Z) (l : limbs) : limbs :=
  mul_pow10_loop (S (Z.to_nat Count)) Count l.

Fixpoint mul_pow5_loop (fuel : nat) (Count : Z) (l : limbs) : limbs :=
  match fuel with
  | O => l
  | S fuel' =>
      if 13 <=? Count then mul_pow5_loop fuel' (Count - 13) (MulAdd 1220703125 0 l)
      else
        let Factor := Nat.iter (Z.to_nat Count) (fun f => w32 (f * 5)) 1 in
        if negb (Factor =? 1) then MulAdd Factor 0 l else l
  end.
Definition MulPow5 (Count : Z) (l : limbs) : limbs :=
  mul_pow5_loop (S (Z.to_nat Count)) Count l.

Fixpoint shift_loop (Rest Carry : Z) (l : limbs) : limbs * Z :=
  match l with
  | [] => ([], Carry)
  | Limb :: l' =>
      let Next := Z.shiftr Limb (32 - Rest) in
      let '(r, c) := shift_loop Rest Next l' in
      (Z.lor (w32 (Z.shiftl Limb Rest)) Carry :: r, c)
  end.

Definition ShiftLeft (Bits : Z) (l : limbs) : limbs :=
  if IsZero l || (Bits =? 0) then l
  else
    let Words := Bits / 32 in
    let Rest := Bits mod 32 in
    let l := if negb (Rest =? 0) then push_carry (shift_loop Rest 0 l) else l in
    if negb (Words =? 0) then replicate (Z.to_nat Words) 0 ++ l else l.

Fixpoint Trim (l : limbs) : limbs :=
  match l with
  | [] => []
  | Limb :: l' =>
      match Trim l' with
      | [] => if Limb =? 0 then [] else [Limb]
      | r => Limb :: r
      end
  end.

(** From the top limb down; the second component is the carry. *)
Fixpoint shift_right_loop (l : limbs) : limbs * Z :=
  match l with
  | [] => ([], 0)
  | Limb :: l' =>
      let '(r, Carry) := shift_right_loop l' in
      (Z.lor (Z.shiftr Limb 1) (w32 (Z.shiftl Carry 31)) :: r, Z.land Limb 1)
  end.
Definition ShiftRightOne (l : limbs) : limbs := Trim (shift_right_loop l).1.

Fixpoint top_bits (fuel : nat) (Top : Z) : Z :=
  match fuel with
  | O => 0
  | S fuel' => if negb (Top =? 0) then 1 + top_bits fuel' (Z.shiftr Top 1) else 0
  end.
Definition BitLength (l : limbs) : Z :=
  match last l with
  | None => 0
  | Some Top => (Z.of_nat (length l) - 1) * 32 + top_bits 32 Top
  end.

(** Limbs of equal length, from the top. *)
Fixpoint compare_loop (a b : limbs) : Z :=
  match a, b with
  | x :: a', y :: b' =>
      let c := compare_loop a' b' in
      if negb (c =? 0) then c else if negb (x =? y) then (if x <? y then -1 else 1) else 0
  | _, _ => 0
  end.
Definition Compare (a b : limbs) : Z :=
  if negb (length a =? length b)%nat then (if (length a <? length b)%nat then -1 else 1)
  else compare_loop a b.

Fixpoint subtract_loop (Borrow : Z) (a b : limbs) : limbs :=
  match a with
  | [] => []
  | x :: a' =>
      let Value := x - Borrow - match b with y :: _ => y | [] => 0 end in
      let '(Value, Borrow) := if Value <? 0 then (Value + 2 ^ 32, 1) else (Value, 0) in
      w32 Value :: subtract_loop Borrow a' (tail b)
  end.
Definition Subtract (a b : limbs) : limbs := Trim (subtract_loop 0 a b).

(** From the top limb down; the second component is the remainder. *)
Fixpoint div_loop (Divisor : Z) (l : limbs) : limbs * Z :=
  match l with
  | [] => ([], 0)
  | Limb :: l' =>
      let '(r, Remainder) := div_loop Divisor l' in
      let Current := Z.lor (w64 (Z.shiftl Remainder 32)) Limb in
      (w32 (Current / Divisor) :: r, Current mod Divisor)
  end.
Definition DivSmall (Divisor : Z) (l : limbs) : limbs * Z :=
  let '(r, Remainder) := div_loop Divisor l in (Trim r, w32 Remainder).

(** The chunk of [Count] digits at the front of [Digits]. *)
Fixpoint chunk_loop (Digits : text) (Value Scale : Z) : Z * Z :=
  match Digits with
  | [] => (Value, Scale)
  | Ch :: Digits' => chunk_loop Digits' (w32 (Value * 10 + digit_value Ch)) (w32 (Scale * 10))
  end.
Definition Chunk (Digits : text) (Result : limbs) : limbs :=
  let '(Value, Scale) := chunk_loop Digits 0 1 in MulAdd Scale Value Result.

Fixpoint chunks_loop (fuel : nat) (Digits : text) (Result : limbs) : limbs :=
  match fuel, Digits with
  | S fuel', _ :: _ => chunks_loop fuel' (drop 9 Digits) (Chunk (take 9 Digits) Result)
  | _, _ => Result
  end.
Definition FromDecimal (Digits : text) : limbs :=
  let Head := (length Digits mod 9)%nat in
  let Result := if negb (Head =? 0)%nat then Chunk (take Head Digits) [] else [] in
  chunks_loop (length Digits) (drop Head Digits) Result.

(** The base 10^9 digits, least significant first; a limb gives less than two. *)
Fixpoint to_chunks (fuel : nat) (Work : limbs) : list Z :=
  match fuel with
  | O => []
  | S fuel' =>
      if IsZero Work then []
      else let '(Rest, Remainder) := DivSmall 1000000000 Work in Remainder :: to_chunks fuel' Rest
  end.

Definition pad_chunk (Value : Z) : text :=
  let Part := dec_text Value in replicate (9 - length Part) x30 ++ Part.

Definition ToDecimal (l : limbs) : text :=
  if IsZero l then [x30]
  else match reverse (to_chunks (2 * length l) l) with
       | Top :: Rest => dec_text Top ++ concat (map pad_chunk Rest)
       | [] => []
       end.

(** * The values of the limb vectors (src/src/diff/PyValue.cpp, [class BigUInt])

    Every operation of [PyBig] computes the integer operation it is named
    after, and keeps the vector without leading zero limbs. *)

Definition W : Z := 2 ^ 32.

Fixpoint big_value (l : limbs) : Z :=
  match l with [] => 0 | d :: l' => d + W * big_value l' end.

Definition limbs_ok (l : limbs) : Prop := Forall (fun d => 0 <= d < W) l.

(** Limbs in range and no leading zero limb. *)
Definition wf_limbs (l : limbs) : Prop := limbs_ok l /\ last l <> Some 0.

(** ** Values and lengths *)

Lemma W_eq : W = 4294967296.
Proof. reflexivity. Qed.

Lemma W_pow_succ (n : nat) : W ^ Z.of_nat (S n) = W * W ^ Z.of_nat n.
Proof. rewrite Nat2Z.inj_succ, Z.pow_succ_r by lia. done. Qed.

Lemma W_pow_pos (n : nat) : 0 < W ^ Z.of_nat n.
Proof. apply Z.pow_pos_nonneg; [done|lia]. Qed.

Lemma big_value_bounds (l : limbs) : limbs_ok l -> 0 <= big_value l < W ^ Z.of_nat (length l).
Proof.
  induction 1 as [|d l Hd Hl IH]; [simpl; lia|]. cbn [big_value length].
  rewrite W_pow_succ. rewrite W_eq in *. lia.
Qed.

Lemma big_value_app (l k : limbs) :
  big_value (l ++ k) = big_value l + W ^ Z.of_nat (length l) * big_value k.
Proof.
  induction l as [|d l IH]; cbn [big_value app length]; [change (W ^ Z.of_nat 0) with 1; lia|].
  rewrite IH, W_pow_succ. lia.
Qed.

Lemma big_value_zeros (n : nat) (l : limbs) :
  big_value (replicate n 0 ++ l) = W ^ Z.of_nat n * big_value l.
Proof.
  induction n as [|n IH]; [change (W ^ Z.of_nat 0) with 1; simpl; lia|].
  cbn [replicate app big_value]. rewrite IH, W_pow_succ. lia.
Qed.

Lemma limbs_ok_app (l k : limbs) : limbs_ok (l ++ k) <-> limbs_ok l /\ limbs_ok k.
Proof. apply Forall_app. Qed.

(** The value tells the top limb. *)
Lemma top_limb (l : limbs) :
  limbs_ok l -> l <> [] ->
  (last l <> Some 0 <-> W ^ (Z.of_nat (length l) - 1) <= big_value l).
Proof.
  intros Hl Hne. destruct l as [|d l _] using rev_ind; [done|].
  apply limbs_ok_app in Hl as [Hl Hd]. inversion Hd as [|? ? Hd' _]; subst. clear Hd.
  rename Hd' into Hd.
  rewrite last_snoc, big_value_app, length_app. simpl length. simpl (big_value [d]).
  replace (Z.of_nat (length l + 1) - 1) with (Z.of_nat (length l)) by lia.
  pose proof (big_value_bounds l Hl). pose proof (W_pow_pos (length l)). rewrite W_eq in Hd.
  split.
  - intros Hz. assert (1 <= d) by (destruct (decide (d = 0)) as [->|]; [done|lia]). nia.
  - intros H1 [= ->]. nia.
Qed.

Lemma wf_nil : wf_limbs [].
Proof. split; [apply Forall_nil_2|done]. Qed.

Lemma wf_of_value (l : limbs) :
  limbs_ok l -> (l <> [] -> W ^ (Z.of_nat (length l) - 1) <= big_value l) -> wf_limbs l.
Proof.
  intros Hl H. split; [done|]. destruct l as [|d l]; [done|].
  apply top_limb; [done|done|by apply H].
Qed.

Lemma wf_lower (l : limbs) :
  wf_limbs l -> l <> [] -> W ^ (Z.of_nat (length l) - 1) <= big_value l.
Proof. intros [Hl Ht] Hne. by apply top_limb. Qed.

Lemma wf_value_pos (l : limbs) : wf_limbs l -> l <> [] -> 0 < big_value l.
Proof.
  intros H Hne. pose proof (wf_lower l H Hne).
  assert (0 < W ^ (Z.of_nat (length l) - 1)); [|lia].
  apply Z.pow_pos_nonneg; [done|]. destruct l; [done|]. simpl. lia.
Qed.

Lemma wf_zero (l : limbs) : wf_limbs l -> (l = [] <-> big_value l = 0).
Proof.
  intros H. split; [by intros ->|]. intros E. destruct (decide (l = [])) as [|Hne]; [done|].
  pose proof (wf_value_pos l H Hne). lia.
Qed.

Lemma wf_length (a b : limbs) :
  wf_limbs a -> wf_limbs b -> (length a < length b)%nat -> big_value a < big_value b.
Proof.
  intros Ha Hb Hlen. assert (b <> []) as Hne by (destruct b; simpl in Hlen; [lia|done]).
  pose proof (wf_lower b Hb Hne). pose proof (big_value_bounds a (proj1 Ha)).
  assert (W ^ Z.of_nat (length a) <= W ^ (Z.of_nat (length b) - 1)); [|lia].
  apply Z.pow_le_mono_r; [done|lia].
Qed.

(** ** Words *)

Lemma w32_range (z : Z) : 0 <= w32 z < W.
Proof. apply w32_bounds. Qed.

Lemma split_word (z : Z) : 0 <= z < 2 ^ 64 -> w32 z + W * Z.shiftr z 32 = z /\ 0 <= Z.shiftr z 32 < W.
Proof.
  intros Hz. rewrite Z.shiftr_div_pow2 by lia. unfold w32, W.
  pose proof (Z.div_mod z (2 ^ 32) ltac:(lia)).
  split; [lia|]. split; [apply Z.div_pos; lia|]. apply Z.div_lt_upper_bound; lia.
Qed.

Lemma join_word (m d : Z) :
  0 <= m < W -> 0 <= d < W -> Z.lor (w64 (Z.shiftl m 32)) d = m * W + d.
Proof.
  intros Hm Hd. rewrite w64_small; [apply lor_add; [lia|exact Hd]|].
  rewrite Z.shiftl_mul_pow2 by lia. rewrite W_eq in *. lia.
Qed.

(** ** Multiplication *)

Lemma mul_add_loop_spec (F : Z) (l : limbs) : 0 <= F < W -> limbs_ok l -> forall C, 0 <= C < W ->
  let '(r, c) := mul_add_loop F C l in
  limbs_ok r /\ length r = length l /\ 0 <= c < W /\
  big_value r + W ^ Z.of_nat (length l) * c = big_value l * F + C.
Proof.
  intros HF. induction 1 as [|d l Hd Hl IH]; intros C HC.
  { simpl. change (W ^ Z.of_nat 0) with 1. split_and!; [by apply Forall_nil_2|done|lia..]. }
  cbn [mul_add_loop]. set (P := d * F + C).
  assert (0 <= P < 2 ^ 64) as HP by (unfold P; rewrite W_eq in *; nia).
  rewrite (w64_small P HP). destruct (split_word P HP) as [Hs Hc].
  specialize (IH (Z.shiftr P 32) Hc). destruct (mul_add_loop F (Z.shiftr P 32) l) as [r c].
  destruct IH as (Hr & Hlen & Hc' & Hv). split_and!.
  - apply Forall_cons_2; [apply w32_range|done].
  - simpl. lia.
  - lia.
  - lia.
  - cbn [big_value length]. rewrite W_pow_succ. unfold P in *. nia.
Qed.

Lemma push_carry_spec (r : limbs) (c v : Z) :
  limbs_ok r -> 0 <= c < W -> big_value r + W ^ Z.of_nat (length r) * c = v ->
  (r <> [] -> W ^ (Z.of_nat (length r) - 1) <= v) ->
  wf_limbs (push_carry (r, c)) /\ big_value (push_carry (r, c)) = v.
Proof.
  intros Hr Hc Hv Hlow. unfold push_carry. simpl. destruct (Z.eqb_spec c 0) as [->|Hn]; simpl.
  - rewrite Z.mul_0_r, Z.add_0_r in Hv. split; [|done]. apply wf_of_value; [done|]. by rewrite Hv.
  - rewrite w32_small by (rewrite W_eq in Hc; lia). split.
    + split; [|by rewrite last_snoc; intros [= ?]].
      apply limbs_ok_app. split; [done|]. by apply Forall_singleton.
    + rewrite big_value_app. simpl. lia.
Qed.

Lemma MulAdd_spec (F A : Z) (l : limbs) :
  0 < F < W -> 0 <= A < W -> wf_limbs l ->
  wf_limbs (MulAdd F A l) /\ big_value (MulAdd F A l) = big_value l * F + A.
Proof.
  intros HF HA Hl. unfold MulAdd.
  pose proof (mul_add_loop_spec F l ltac:(lia) (proj1 Hl) A HA) as H.
  destruct (mul_add_loop F A l) as [r c]. destruct H as (Hr & Hlen & Hc & Hv).
  rewrite <- Hlen in Hv. apply push_carry_spec; [done..|]. intros Hne. rewrite Hlen.
  assert (l <> []) as Hl' by (intros ->; destruct r; done).
  pose proof (wf_lower l Hl Hl'). pose proof (big_value_bounds l (proj1 Hl)). nia.
Qed.

Lemma nth_kPow10 (n : nat) : (n < 10)%nat -> nth n kPow10 0 = 10 ^ Z.of_nat n.
Proof. intros H. do 10 (destruct n as [|n]; [done|]). lia. Qed.

Lemma mul_pow10_loop_spec (fuel : nat) : forall (Count : Z) (l : limbs),
  0 <= Count < Z.of_nat fuel -> wf_limbs l ->
  wf_limbs (mul_pow10_loop fuel Count l) /\
  big_value (mul_pow10_loop fuel Count l) = big_value l * 10 ^ Count.
Proof.
  induction fuel as [|fuel IH]; intros Count l HC Hl; [lia|]. cbn [mul_pow10_loop].
  destruct (Z.leb_spec 9 Count).
  - destruct (MulAdd_spec 1000000000 0 l) as [Hw Hv]; [rewrite W_eq; lia|rewrite W_eq; lia|done|].
    destruct (IH (Count - 9) _ ltac:(lia) Hw) as [H1 H2]. split; [done|]. rewrite H2, Hv.
    replace Count with (9 + (Count - 9)) at 2 by lia. rewrite Z.pow_add_r by lia.
    change (10 ^ 9) with 1000000000. lia.
  - destruct (Z.ltb_spec 0 Count).
    + rewrite nth_kPow10 by lia. rewrite Z2Nat.id by lia.
      assert (10 ^ Count <= 10 ^ 8) by (apply Z.pow_le_mono_r; lia).
      pose proof (Z.pow_pos_nonneg 10 Count).
      destruct (MulAdd_spec (10 ^ Count) 0 l) as [Hw Hv]; [rewrite W_eq; lia|rewrite W_eq; lia|done|].
      split; [done|lia].
    + replace Count with 0 by lia. split; [done|]. change (10 ^ 0) with 1. lia.
Qed.

Lemma MulPow10_spec (Count : Z) (l : limbs) :
  0 <= Count -> wf_limbs l ->
  wf_limbs (MulPow10 Count l) /\ big_value (MulPow10 Count l) = big_value l * 10 ^ Count.
Proof. intros HC. apply mul_pow10_loop_spec. lia. Qed.

Lemma pow5_factor (n : nat) : (n < 13)%nat -> Nat.iter n (fun f => w32 (f * 5)) 1 = 5 ^ Z.of_nat n.
Proof. intros H. do 13 (destruct n as [|n]; [reflexivity|]). lia. Qed.

Lemma mul_pow5_loop_spec (fuel : nat) : forall (Count : Z) (l : limbs),
  0 <= Count < Z.of_nat fuel -> wf_limbs l ->
  wf_limbs (mul_pow5_loop fuel Count l) /\
  big_value (mul_pow5_loop fuel Count l) = big_value l * 5 ^ Count.
Proof.
  induction fuel as [|fuel IH]; intros Count l HC Hl; [lia|]. cbn [mul_pow5_loop].
  destruct (Z.leb_spec 13 Count).
  - destruct (MulAdd_spec 1220703125 0 l) as [Hw Hv]; [rewrite W_eq; lia|rewrite W_eq; lia|done|].
    destruct (IH (Count - 13) _ ltac:(lia) Hw) as [H1 H2]. split; [done|]. rewrite H2, Hv.
    replace Count with (13 + (Count - 13)) at 2 by lia. rewrite Z.pow_add_r by lia.
    change (5 ^ 13) with 1220703125. lia.
  - rewrite pow5_factor by lia. rewrite Z2Nat.id by lia.
    assert (5 ^ Count <= 5 ^ 12) by (apply Z.pow_le_mono_r; lia).
    pose proof (Z.pow_pos_nonneg 5 Count).
    destruct (Z.eqb_spec (5 ^ Count) 1) as [E|E]; simpl; [rewrite E; split; [done|lia]|].
    destruct (MulAdd_spec (5 ^ Count) 0 l) as [Hw Hv]; [rewrite W_eq; lia|rewrite W_eq; lia|done|].
    split; [done|lia].
Qed.

Lemma MulPow5_spec (Count : Z) (l : limbs) :
  0 <= Count -> wf_limbs l ->
  wf_limbs (MulPow5 Count l) /\ big_value (MulPow5 Count l) = big_value l * 5 ^ Count.
Proof. intros HC. apply mul_pow5_loop_spec. lia. Qed.

Lemma PyBigUInt_spec (v : Z) :
  0 <= v < 2 ^ 64 -> wf_limbs (PyBigUInt v) /\ big_value (PyBigUInt v) = v.
Proof.
  intros Hv. unfold PyBigUInt. cbn [limbs_of].
  destruct (split_word v Hv) as [Hs Hh]. set (h := Z.shiftr v 32) in *.
  pose proof (w32_range v) as Hlow. set (d := w32 v) in *. clearbody d h. clear Hv.
  destruct (Z.eqb_spec v 0) as [->|Hn]; cbn [negb]; [split; [apply wf_nil|reflexivity]|].
  destruct (Z.eqb_spec h 0) as [E|E]; cbn [negb].
  - rewrite E in Hs. cbn [big_value]. split; [|lia].
    split; [apply Forall_cons_2; [done|apply Forall_nil_2]|]. cbn [last]. intros [= C]. lia.
  - rewrite (w32_small h) by (rewrite W_eq in Hh; lia). cbn [big_value]. split; [|lia].
    split; [|cbn [last]; by intros [= ?]].
    repeat (apply Forall_cons_2; [done|]). apply Forall_nil_2.
Qed.

(** ** Shifts to the left *)

(** Shifting limb by limb is multiplying by the power of two. *)
Lemma shift_loop_mul (R : Z) (l : limbs) : 0 < R < 32 -> limbs_ok l -> forall C, 0 <= C < 2 ^ R ->
  shift_loop R C l = mul_add_loop (2 ^ R) C l.
Proof.
  intros HR. induction 1 as [|d l Hd Hl IH]; intros C HC; [done|]. cbn [shift_loop mul_add_loop].
  assert (0 < 2 ^ R) by (apply Z.pow_pos_nonneg; lia).
  assert (2 ^ R * 2 ^ (32 - R) = W) as HW by (rewrite <- Z.pow_add_r by lia; unfold W; f_equal; lia).
  assert (2 ^ R < W) by (apply Z.pow_lt_mono_r; lia).
  assert (0 <= d * 2 ^ R + C < 2 ^ 64) as HP.
  { replace (2 ^ 64) with (W * W) by done. nia. }
  rewrite (w64_small _ HP).
  assert (Z.lor (w32 (Z.shiftl d R)) C = w32 (d * 2 ^ R + C)) as ->.
  { rewrite Z.shiftl_mul_pow2 by lia. unfold w32. change (2 ^ 32) with W. rewrite <- HW.
    rewrite (Z.mul_comm (2 ^ R)), Z.mul_mod_distr_r by lia.
    rewrite <- Z.shiftl_mul_pow2, lor_add by lia.
    rewrite (Z.mul_comm (2 ^ (32 - R))), Z.rem_mul_r by lia.
    rewrite Z.div_add_l, (Z.div_small C), Z.add_0_r by lia.
    rewrite (Z.add_comm (d * 2 ^ R)), Z.mod_add, (Z.mod_small C) by lia. lia. }
  assert (Z.shiftr d (32 - R) = Z.shiftr (d * 2 ^ R + C) 32) as ->.
  { rewrite !Z.shiftr_div_pow2 by lia. change (2 ^ 32) with W. rewrite <- HW.
    rewrite <- Z.div_div by lia. by rewrite Z.div_add_l, (Z.div_small C), Z.add_0_r by lia. }
  rewrite IH; [done|]. rewrite Z.shiftr_div_pow2 by lia. split; [apply Z.div_pos; lia|].
  apply Z.div_lt_upper_bound; [lia|]. change (2 ^ 32) with W. nia.
Qed.

Lemma ShiftLeft_spec (Bits : Z) (l : limbs) :
  0 <= Bits -> wf_limbs l ->
  wf_limbs (ShiftLeft Bits l) /\ big_value (ShiftLeft Bits l) = big_value l * 2 ^ Bits.
Proof.
  intros HB Hl. unfold ShiftLeft.
  destruct (decide (l = [])) as [->|Hne]; [split; [apply wf_nil|reflexivity]|].
  destruct (IsZero l || (Bits =? 0)) eqn:E.
  { apply orb_true_iff in E as [E|E]; [destruct l; [done|discriminate]|].
    apply Z.eqb_eq in E as ->. split; [done|]. change (2 ^ 0) with 1. lia. }
  apply orb_false_iff in E as [Hz _].
  pose proof (Z.div_mod Bits 32 ltac:(lia)) as Hdiv. pose proof (Z.mod_pos_bound Bits 32 ltac:(lia)).
  assert (0 <= Bits / 32) by (apply Z.div_pos; lia).
  set (l1 := if negb (Bits mod 32 =? 0) then push_carry (shift_loop (Bits mod 32) 0 l) else l).
  assert (wf_limbs l1 /\ big_value l1 = big_value l * 2 ^ (Bits mod 32)) as [Hw Hv].
  { unfold l1. destruct (Z.eqb_spec (Bits mod 32) 0) as [->|Hn]; simpl.
    { split; [done|]. change (2 ^ 0) with 1. lia. }
    assert (0 < 2 ^ (Bits mod 32)) by (apply Z.pow_pos_nonneg; lia).
    rewrite shift_loop_mul; [|lia|apply Hl|lia].
    destruct (MulAdd_spec (2 ^ (Bits mod 32)) 0 l) as [Hm1 Hm2]; [|rewrite W_eq; lia|done|].
    - split; [done|]. apply Z.pow_lt_mono_r; lia.
    - split; [exact Hm1|]. unfold MulAdd in Hm2. rewrite Hm2. lia. }
  assert (0 < 2 ^ (Bits mod 32)) by (apply Z.pow_pos_nonneg; lia).
  assert (0 < big_value l1) as Hpos.
  { rewrite Hv. pose proof (wf_value_pos l Hl Hne). nia. }
  destruct (Z.eqb_spec (Bits / 32) 0) as [E|E]; simpl.
  { split; [done|]. rewrite Hv. f_equal. f_equal. lia. }
  split.
  - split.
    + apply limbs_ok_app. split; [|apply Hw]. apply Forall_replicate. rewrite W_eq. lia.
    + destruct Hw as [_ Hw]. rewrite last_app. destruct (last l1) eqn:El; [done|].
      apply last_None in El. by rewrite El in Hpos.
  - rewrite big_value_zeros, Hv, Z2Nat.id by lia. unfold W. rewrite <- Z.pow_mul_r by lia.
    rewrite (Z.mul_comm (2 ^ _)), <- Z.mul_assoc, <- Z.pow_add_r by lia. do 2 f_equal. lia.
Qed.

(** ** Division and the operations from the top limb down *)

Lemma Trim_spec (l : limbs) : limbs_ok l -> wf_limbs (Trim l) /\ big_value (Trim l) = big_value l.
Proof.
  induction 1 as [|d l Hd Hl [IHw IHv]]; [split; [apply wf_nil|done]|]. cbn [Trim big_value].
  destruct (Trim l) as [|e r] eqn:E.
  - cbn [big_value] in IHv. rewrite <- IHv, Z.mul_0_r, Z.add_0_r.
    destruct (Z.eqb_spec d 0) as [->|Hn]; [split; [apply wf_nil|done]|]. split; [|cbn [big_value]; lia].
    split; [apply Forall_cons_2; [done|apply Forall_nil_2]|]. cbn [last]. by intros [= ?].
  - split; [|cbn [big_value] in *; lia].
    destruct IHw as [Hok Ht]. split; [by apply Forall_cons_2|exact Ht].
Qed.

Lemma div_loop_spec (D : Z) (l : limbs) : 0 < D <= W -> limbs_ok l ->
  let '(r, m) := div_loop D l in
  limbs_ok r /\ length r = length l /\ 0 <= m < D /\ big_value r * D + m = big_value l.
Proof.
  intros HD. induction 1 as [|d l Hd Hl IH]; [split_and!; [apply Forall_nil_2|done|lia..|done]|].
  cbn [div_loop]. destruct (div_loop D l) as [r m]. destruct IH as (Hr & Hlen & Hm & Hv).
  assert (0 <= m * W + d < 2 ^ 64) as HC by (replace (2 ^ 64) with (W * W) by done; nia).
  rewrite join_word by lia.
  pose proof (Z.div_mod (m * W + d) D ltac:(lia)) as Hdm.
  pose proof (Z.mod_pos_bound (m * W + d) D ltac:(lia)) as Hmb.
  assert (0 <= (m * W + d) / D < W) as Hq.
  { split; [apply Z.div_pos; lia|]. apply Z.div_lt_upper_bound; [lia|]. nia. }
  rewrite w32_small by exact Hq. split_and!; [by apply Forall_cons_2|simpl; lia|lia..|].
  cbn [big_value]. nia.
Qed.

Lemma DivSmall_spec (D : Z) (l : limbs) : 0 < D < W -> limbs_ok l ->
  let '(r, m) := DivSmall D l in
  wf_limbs r /\ big_value r = big_value l / D /\ m = big_value l mod D.
Proof.
  intros HD Hl. unfold DivSmall. pose proof (div_loop_spec D l ltac:(lia) Hl) as H.
  destruct (div_loop D l) as [r m]. destruct H as (Hr & _ & Hm & Hv).
  destruct (Trim_spec r Hr) as [Hw HT]. rewrite w32_small by (rewrite W_eq in HD; lia).
  split; [done|]. rewrite HT.
  split; [apply (Z.div_unique_pos _ _ _ m)|apply (Z.mod_unique_pos _ _ (big_value r))]; lia.
Qed.

(** The right shift is the division by two, carry and remainder included. *)
Lemma shift_right_div (l : limbs) : limbs_ok l -> shift_right_loop l = div_loop 2 l.
Proof.
  induction 1 as [|d l Hd Hl IH]; [done|]. cbn [shift_right_loop div_loop]. rewrite IH.
  pose proof (div_loop_spec 2 l ltac:(rewrite W_eq; lia) Hl) as H.
  destruct (div_loop 2 l) as [r m]. destruct H as (_ & _ & Hm & _).
  assert (m = 0 \/ m = 1) as Hcases by lia. rewrite join_word by (rewrite ?W_eq in *; lia).
  rewrite W_eq in Hd.
  assert (0 <= Z.shiftr d 1 < 2 ^ 31) as Hs.
  { rewrite Z.shiftr_div_pow2 by lia. split; [apply Z.div_pos; lia|apply Z.div_lt_upper_bound; lia]. }
  f_equal; [f_equal|].
  - rewrite w32_small by (rewrite Z.shiftl_mul_pow2 by lia; destruct Hcases as [-> | ->]; lia).
    rewrite Z.lor_comm, lor_add by lia. rewrite Z.shiftr_div_pow2 by lia.
    rewrite W_eq. change (2 ^ 1) with 2.
    replace (m * 4294967296 + d) with (m * 2 ^ 31 * 2 + d) by lia. rewrite Z.div_add_l by lia.
    rewrite w32_small; [done|]. pose proof (Z.div_pos d 2). pose proof (Z.div_lt_upper_bound d 2 (2 ^ 31)).
    destruct Hcases as [-> | ->]; lia.
  - change (Z.land d 1) with (Z.land d (Z.ones 1)). rewrite Z.land_ones by lia. rewrite W_eq. change (2 ^ 1) with 2.
    replace (m * 4294967296 + d) with (d + m * 2 ^ 31 * 2) by lia. by rewrite Z.mod_add by lia.
Qed.

Lemma ShiftRightOne_spec (l : limbs) :
  limbs_ok l -> wf_limbs (ShiftRightOne l) /\ big_value (ShiftRightOne l) = big_value l / 2.
Proof.
  intros Hl. unfold ShiftRightOne. rewrite shift_right_div by done.
  pose proof (div_loop_spec 2 l ltac:(rewrite W_eq; lia) Hl) as H.
  destruct (div_loop 2 l) as [r m]. destruct H as (Hr & _ & Hm & Hv).
  destruct (Trim_spec r Hr) as [Hw HT]. split; [done|]. cbn [fst]. rewrite HT.
  apply (Z.div_unique_pos _ _ _ m); lia.
Qed.

(** ** Comparison and subtraction *)

Lemma compare_loop_spec (a : limbs) : limbs_ok a -> forall b, limbs_ok b -> length a = length b ->
  compare_loop a b = match big_value a ?= big_value b with Lt => -1 | Eq => 0 | Gt => 1 end.
Proof.
  induction 1 as [|x a Hx Ha IH]; intros b Hb Hlen; [by destruct b|].
  destruct Hb as [|y b Hy Hb]; [done|]. cbn [compare_loop big_value]. rewrite (IH b Hb) by (simpl in Hlen; lia).
  destruct (Z.compare_spec (big_value a) (big_value b)) as [E|E|E]; cbn [negb Z.eqb].
  - destruct (Z.eqb_spec x y) as [->|Hn]; cbn [negb].
    + by rewrite E, Z.compare_refl.
    + destruct (Z.ltb_spec x y); destruct (Z.compare_spec (x + W * big_value a) (y + W * big_value b)); lia.
  - destruct (Z.compare_spec (x + W * big_value a) (y + W * big_value b)); nia.
  - destruct (Z.compare_spec (x + W * big_value a) (y + W * big_value b)); nia.
Qed.

Lemma Compare_spec (a b : limbs) : wf_limbs a -> wf_limbs b ->
  Compare a b = match big_value a ?= big_value b with Lt => -1 | Eq => 0 | Gt => 1 end.
Proof.
  intros Ha Hb. unfold Compare. destruct (Nat.eqb_spec (length a) (length b)) as [E|E]; cbn [negb].
  - apply compare_loop_spec; [apply Ha|apply Hb|done].
  - destruct (Nat.ltb_spec (length a) (length b)).
    + pose proof (wf_length a b Ha Hb ltac:(lia)).
      destruct (Z.compare_spec (big_value a) (big_value b)); lia.
    + pose proof (wf_length b a Hb Ha ltac:(lia)).
      destruct (Z.compare_spec (big_value a) (big_value b)); lia.
Qed.

Lemma subtract_loop_spec (a : limbs) : limbs_ok a -> forall b Borrow,
  limbs_ok b -> (length b <= length a)%nat -> 0 <= Borrow <= 1 ->
  limbs_ok (subtract_loop Borrow a b) /\ length (subtract_loop Borrow a b) = length a /\
  exists out, 0 <= out <= 1 /\
    big_value (subtract_loop Borrow a b) =
    big_value a - Borrow - big_value b + out * W ^ Z.of_nat (length a).
Proof.
  induction 1 as [|x a Hx Ha IH]; intros b Borrow Hb Hlen HB.
  { destruct b; [|simpl in Hlen; lia]. split_and!; [apply Forall_nil_2|done|].
    exists Borrow. cbn [subtract_loop big_value length]. change (W ^ Z.of_nat 0) with 1. lia. }
  cbn [subtract_loop].
  assert (exists y b', 0 <= y < W /\ limbs_ok b' /\ (length b' <= length a)%nat /\ tail b = b' /\
    match b with y :: _ => y | [] => 0 end = y /\ big_value b = y + W * big_value b')
    as (y & b' & Hy & Hb' & Hl' & -> & -> & ->).
  { destruct Hb as [|y b Hy Hb].
    - exists 0, []. rewrite W_eq. split_and!; try done; try lia; [apply Forall_nil_2|simpl; lia].
    - exists y, b. simpl in Hlen. split_and!; try done; lia. }
  set (v := x - Borrow - y).
  assert (exists v' Bo, (if v <? 0 then (v + 2 ^ 32, 1) else (v, 0)) = (v', Bo) /\ 0 <= v' < W /\
    0 <= Bo <= 1 /\ v' = v + Bo * W) as (v' & Bo & -> & Hv' & HBo & Ev).
  { destruct (Z.ltb_spec v 0); eexists _, _; (split; [reflexivity|]); unfold v in *; rewrite W_eq in *; lia. }
  rewrite w32_small by exact Hv'. destruct (IH b' Bo Hb' Hl' HBo) as (Hok & Hlen' & out & Hout & E).
  split_and!; [by apply Forall_cons_2|simpl; lia|]. exists out. split; [done|].
  cbn [big_value length]. rewrite W_pow_succ, E, Ev. unfold v. lia.
Qed.

Lemma Subtract_spec (a b : limbs) : wf_limbs a -> wf_limbs b -> big_value b <= big_value a ->
  wf_limbs (Subtract a b) /\ big_value (Subtract a b) = big_value a - big_value b.
Proof.
  intros Ha Hb Hle. unfold Subtract.
  assert (length b <= length a)%nat as Hlen.
  { destruct (Nat.le_gt_cases (length b) (length a)) as [|H]; [done|].
    pose proof (wf_length a b Ha Hb H). lia. }
  destruct (subtract_loop_spec a (proj1 Ha) b 0 (proj1 Hb) Hlen ltac:(lia)) as (Hok & Hl & out & Hout & E).
  destruct (Trim_spec _ Hok) as [Hw HT]. split; [done|]. rewrite HT, E.
  pose proof (big_value_bounds _ Hok). pose proof (big_value_bounds a (proj1 Ha)).
  pose proof (big_value_bounds b (proj1 Hb)). rewrite Hl in *. assert (out = 0 \/ out = 1) as [-> | ->] by lia; lia.
Qed.

(** ** Bit length *)

Lemma top_bits_spec (fuel : nat) : forall x, 0 <= x < 2 ^ Z.of_nat fuel ->
  top_bits fuel x = if x =? 0 then 0 else Z.log2 x + 1.
Proof.
  induction fuel as [|fuel IH]; intros x Hx.
  { change (2 ^ Z.of_nat 0) with 1 in Hx. by replace x with 0 by lia. }
  cbn [top_bits]. destruct (Z.eqb_spec x 0) as [E|E]; cbn [negb]; [done|].
  rewrite Nat2Z.inj_succ, Z.pow_succ_r in Hx by lia.
  assert (0 <= Z.shiftr x 1 < 2 ^ Z.of_nat fuel) as Hs.
  { rewrite Z.shiftr_div_pow2 by lia. split; [apply Z.div_pos; lia|].
    apply Z.div_lt_upper_bound; lia. }
  rewrite IH by done. rewrite Z.shiftr_div_pow2 in * by lia. change (2 ^ 1) with 2 in *.
  destruct (Z.eqb_spec (x / 2) 0) as [E2|E2].
  - assert (x = 1) as -> by (pose proof (Z.div_mod x 2 ltac:(lia)); pose proof (Z.mod_pos_bound x 2); lia).
    reflexivity.
  - pose proof (Z.log2_shiftr x 1 ltac:(lia)) as H. rewrite Z.shiftr_div_pow2 in H by lia.
    change (2 ^ 1) with 2 in H. rewrite H. assert (2 <= x).
    { pose proof (Z.div_mod x 2 ltac:(lia)). pose proof (Z.mod_pos_bound x 2). lia. }
    pose proof (Z.log2_le_mono 2 x ltac:(lia)). change (Z.log2 2) with 1 in *. lia.
Qed.

(** The number of bits of the value: 0 for zero. *)
Lemma BitLength_spec (l : limbs) : wf_limbs l ->
  0 < big_value l -> BitLength l = Z.log2 (big_value l) + 1.
Proof.
  intros [Hl Ht] Hpos. destruct l as [|d l _] using rev_ind; [done|].
  apply limbs_ok_app in Hl as [Hl Hd]. inversion Hd as [|? ? Hd' _]; subst.
  unfold BitLength. rewrite last_snoc, length_app in *. cbn [length].
  assert (d <> 0) as Hd0 by (intros ->; done).
  rewrite top_bits_spec by exact Hd'. destruct (Z.eqb_spec d 0) as [|_]; [done|].
  rewrite big_value_app. cbn [big_value]. rewrite Z.mul_0_r, Z.add_0_r.
  pose proof (big_value_bounds l Hl) as Hb. unfold W in *. rewrite <- Z.pow_mul_r in * by lia.
  set (k := 32 * Z.of_nat (length l)) in *. rewrite (Z.mul_comm (2 ^ k) d).
  pose proof (Z.log2_spec d ltac:(lia)) as Hlog. pose proof (Z.log2_nonneg d).
  rewrite (Z.log2_unique (big_value l + d * 2 ^ k) (Z.log2 d + k)); [lia|lia|].
  rewrite Z.pow_succ_r in * by lia. rewrite Z.pow_add_r by lia.
  assert (0 < 2 ^ k) by lia. nia.
Qed.

(** ** Decimal digits *)

Lemma chunk_loop_spec (s : text) : forall v k, all_digits s ->
  0 <= v < 10 ^ Z.of_nat k -> (k + length s <= 9)%nat ->
  chunk_loop s v (10 ^ Z.of_nat k) =
  (v * 10 ^ Z.of_nat (length s) + dec_value s, 10 ^ Z.of_nat (k + length s)).
Proof.
  induction s as [|c s IH]; intros v k Hs Hv Hk.
  { cbn [chunk_loop length]. change (10 ^ Z.of_nat 0) with 1. change (dec_value []) with 0.
    rewrite Nat.add_0_r. f_equal. lia. }
  inversion Hs as [|? ? Hc Hs']; subst. pose proof (digit_value_range c Hc). cbn [chunk_loop].
  assert (10 ^ Z.of_nat k * 10 = 10 ^ Z.of_nat (S k)) as E by (rewrite Nat2Z.inj_succ, Z.pow_succ_r; lia).
  assert (10 ^ Z.of_nat (S k) <= 10 ^ 9) by (apply Z.pow_le_mono_r; simpl in Hk; lia).
  assert (0 < 10 ^ Z.of_nat k) by (apply Z.pow_pos_nonneg; lia).
  rewrite !w32_small by lia. rewrite E, IH; [|done|lia|simpl in Hk; lia].
  change (c :: s) with ([c] ++ s). rewrite dec_value_app, dec_value_single, length_app.
  cbn [length]. rewrite !Nat2Z.inj_add, !Z.pow_add_r by lia. rewrite <- E.
  change (10 ^ Z.of_nat 1) with 10. f_equal; lia.
Qed.

Lemma Chunk_spec (s : text) (l : limbs) : all_digits s -> (length s <= 9)%nat -> wf_limbs l ->
  wf_limbs (Chunk s l) /\
  big_value (Chunk s l) = big_value l * 10 ^ Z.of_nat (length s) + dec_value s.
Proof.
  intros Hs Hlen Hl. unfold Chunk.
  pose proof (chunk_loop_spec s 0 0 Hs) as H. change (10 ^ Z.of_nat 0) with 1 in H.
  rewrite H by lia. rewrite Nat.add_0_l, Z.mul_0_l, Z.add_0_l. pose proof (dec_value_bounds s Hs).
  assert (10 ^ Z.of_nat (length s) <= 10 ^ 9) by (apply Z.pow_le_mono_r; lia).
  apply MulAdd_spec; [rewrite W_eq; lia|rewrite W_eq; lia|done].
Qed.

Lemma chunks_loop_spec (fuel : nat) : forall (s : text) (l : limbs), all_digits s ->
  (length s <= fuel)%nat -> (length s mod 9 = 0)%nat -> wf_limbs l ->
  wf_limbs (chunks_loop fuel s l) /\
  big_value (chunks_loop fuel s l) = big_value l * 10 ^ Z.of_nat (length s) + dec_value s.
Proof.
  induction fuel as [|fuel IH]; intros s l Hs Hf Hm Hl.
  { destruct s; [|simpl in Hf; lia]. split; [done|]. simpl. change (dec_value []) with 0. lia. }
  destruct s as [|c s]; [split; [done|]; simpl; change (dec_value []) with 0; lia|].
  cbn [chunks_loop]. set (t := c :: s) in *.
  assert (9 <= length t)%nat as H9.
  { destruct (Nat.le_gt_cases 9 (length t)) as [|H]; [done|].
    rewrite Nat.mod_small in Hm by done. done. }
  rewrite <- (take_drop 9 t) in Hs. apply Forall_app in Hs as [Ht Hd].
  assert (length (take 9 t) = 9%nat) as Hlt by (rewrite length_take; lia).
  destruct (Chunk_spec (take 9 t) l Ht ltac:(lia) Hl) as [Hw Hv].
  destruct (IH (drop 9 t) (Chunk (take 9 t) l) Hd) as [Hw' Hv']; [rewrite length_drop; lia| |done|].
  { rewrite length_drop. replace (length t) with ((length t - 9) + 1 * 9)%nat in Hm by lia.
    by rewrite Nat.Div0.mod_add in Hm. }
  assert (dec_value t = dec_value (take 9 t) * 10 ^ Z.of_nat (length t - 9) + dec_value (drop 9 t)) as ->.
  { rewrite <- (length_drop t 9), <- dec_value_app. by rewrite take_drop. }
  split; [done|]. rewrite Hv', Hv, Hlt, length_drop.
  replace (Z.of_nat (length t)) with (Z.of_nat 9 + Z.of_nat (length t - 9)) by lia.
  rewrite Z.pow_add_r by lia. lia.
Qed.

Lemma FromDecimal_spec (s : text) : all_digits s ->
  wf_limbs (FromDecimal s) /\ big_value (FromDecimal s) = dec_value s.
Proof.
  intros Hs. unfold FromDecimal. set (h := (length s mod 9)%nat).
  pose proof (Nat.mod_upper_bound (length s) 9 ltac:(lia)).
  pose proof (Nat.Div0.mod_le (length s) 9).
  rewrite <- (take_drop h s) in Hs. apply Forall_app in Hs as [Ht Hd].
  assert (length (take h s) = h) as Hlt by (rewrite length_take; lia).
  assert (exists r, (if negb (h =? 0)%nat then Chunk (take h s) [] else []) = r /\ wf_limbs r /\
    big_value r = dec_value (take h s)) as (r & -> & Hw & Hv).
  { eexists. split; [reflexivity|]. destruct (Nat.eqb_spec h 0) as [->|]; cbn [negb]; [split; [apply wf_nil|done]|].
    destruct (Chunk_spec (take h s) [] Ht ltac:(lia) wf_nil) as [H1 H2]. split; [done|].
    rewrite H2. cbn [big_value]. lia. }
  destruct (chunks_loop_spec (length s) (drop h s) r Hd) as [Hw' Hv'].
  - rewrite length_drop. lia.
  - rewrite length_drop. pose proof (Nat.div_mod_eq (length s) 9). fold h in H1.
    replace (length s - h)%nat with (length s / 9 * 9)%nat by lia. apply Nat.Div0.mod_mul.
  - done.
  - split; [done|]. rewrite Hv', Hv, <- dec_value_app. by rewrite take_drop.
Qed.

(** ** Decimal texts *)

Lemma pad_chunk_spec (v : Z) : 0 <= v < 10 ^ 9 ->
  all_digits (pad_chunk v) /\ length (pad_chunk v) = 9%nat /\ dec_value (pad_chunk v) = v.
Proof.
  intros Hv. destruct (dec_text_spec v ltac:(lia)) as ([Hd _] & Hval & _).
  pose proof (dec_text_length v 9 Hv ltac:(lia)) as Hl. unfold pad_chunk.
  assert (forall k s, dec_value (replicate k x30 ++ s) = dec_value s) as Hz.
  { induction k as [|k IH]; intros s; [done|]. cbn [replicate app].
    change (x30 :: replicate k x30 ++ s) with ([x30] ++ (replicate k x30 ++ s)).
    rewrite dec_value_app, IH. change (dec_value [x30]) with 0. lia. }
  split; [|split; [rewrite length_app, length_replicate; lia|by rewrite Hz]].
  apply Forall_app_2; [by apply Forall_replicate|done].
Qed.

(** The value of base 10^9 digits, most significant first. *)
Lemma chunks_text_value (r : list Z) : Forall (fun v => 0 <= v < 10 ^ 9) r -> forall s, all_digits s ->
  all_digits (s ++ concat (map pad_chunk r)) /\
  dec_value (s ++ concat (map pad_chunk r)) = foldl (fun a v => a * 10 ^ 9 + v) (dec_value s) r.
Proof.
  induction 1 as [|v r Hv Hr IH]; intros s Hs; cbn [map concat foldl]; [by rewrite app_nil_r|].
  destruct (pad_chunk_spec v Hv) as (Hd & Hl & Hval). rewrite app_assoc.
  destruct (IH (s ++ pad_chunk v) ltac:(by apply Forall_app_2)) as [H1 H2]. split; [done|].
  rewrite H2, dec_value_app, Hl, Hval. done.
Qed.

Lemma foldl_chunks_snoc (r : list Z) (v a : Z) :
  foldl (fun a v => a * 10 ^ 9 + v) a (r ++ [v]) = foldl (fun a v => a * 10 ^ 9 + v) a r * 10 ^ 9 + v.
Proof. by rewrite foldl_app. Qed.

Lemma to_chunks_spec (fuel : nat) : forall l, wf_limbs l -> l <> [] ->
  big_value l < (10 ^ 9) ^ Z.of_nat fuel ->
  exists top rest, reverse (to_chunks fuel l) = top :: rest /\ 0 < top < 10 ^ 9 /\
    Forall (fun v => 0 <= v < 10 ^ 9) rest /\
    foldl (fun a v => a * 10 ^ 9 + v) top rest = big_value l.
Proof.
  induction fuel as [|fuel IH]; intros l Hl Hne Hv.
  { pose proof (wf_value_pos l Hl Hne). change ((10 ^ 9) ^ Z.of_nat 0) with 1 in Hv. lia. }
  cbn [to_chunks]. rewrite Nat2Z.inj_succ, Z.pow_succ_r in Hv by lia.
  assert (IsZero l = false) as -> by by destruct l.
  pose proof (DivSmall_spec 1000000000 l ltac:(rewrite W_eq; lia) (proj1 Hl)) as HD.
  destruct (DivSmall 1000000000 l) as [r m]. destruct HD as (Hr & Hrv & Hm).
  change 1000000000 with (10 ^ 9) in *. pose proof (wf_value_pos l Hl Hne).
  pose proof (Z.div_mod (big_value l) (10 ^ 9) ltac:(lia)).
  pose proof (Z.mod_pos_bound (big_value l) (10 ^ 9) ltac:(lia)).
  rewrite reverse_cons. destruct r as [|x r].
  - exists m, []. cbn [big_value] in Hrv. assert (to_chunks fuel [] = []) as -> by by destruct fuel.
    split; [done|]. split; [lia|]. split; [constructor|]. cbn [foldl]. lia.
  - destruct (IH (x :: r) Hr ltac:(done)) as (top & rest & E & Ht & HF & Hsum).
    { rewrite Hrv. apply Z.div_lt_upper_bound; lia. }
    exists top, (rest ++ [m]). rewrite E. split; [done|]. split; [done|].
    split; [apply Forall_app_2; [done|by constructor; [lia|constructor]]|].
    rewrite foldl_chunks_snoc, Hsum, Hrv. lia.
Qed.

(** The decimal text of a big integer. *)
Lemma ToDecimal_spec (l : limbs) : wf_limbs l -> ToDecimal l = dec_text (big_value l).
Proof.
  intros Hl. unfold ToDecimal. destruct l as [|x l]; [done|]. cbn [IsZero].
  destruct (to_chunks_spec (2 * length (x :: l)) (x :: l) Hl ltac:(done)) as (top & rest & E & Ht & HF & Hsum).
  { eapply Z.lt_le_trans; [apply (big_value_bounds _ (proj1 Hl))|]. rewrite Nat2Z.inj_mul, Z.pow_mul_r by lia.
    apply Z.pow_le_mono_l. rewrite W_eq. lia. }
  rewrite E. destruct (dec_text_spec top ltac:(lia)) as ([Hd _] & Hval & Hnz).
  destruct (chunks_text_value rest HF (dec_text top) Hd) as [H1 H2]. rewrite Hval, Hsum in H2.
  rewrite <- H2. symmetry. apply dec_text_canonical. split; [done|].
  specialize (Hnz ltac:(lia)). destruct (dec_text top) as [|c s]; [done|]. cbn [app]. by destruct (s ++ _).
Qed.
