(* ===== verification/PyDecimal.v ===== *)
(** * Decimal texts to doubles (src/src/diff/PyValue.cpp)

    [DecimalToDouble]: the digits as a big integer, a scaled long division to
    64 quotient bits and a sticky bit, and the rounding to 53 bits or fewer.
    Exponents are [int64_t]; the callers keep them far from its bounds, so they
    are integers here. *)

From Stdlib Require Import ZArith Lia SpecFloat.
From stdpp Require Import base option numbers list.
From S2P Require Import Prelude Dbl Decimal PyBig.
Local Open Scope Z_scope.

Definition kMaxSignificantDigits : nat := 800.

(** [std::ldexp]. *)
Definition dldexp (x : dbl) (n : Z) : dbl := SFldexp 53 1024 x n.

(** [Mask] walks down from bit [n - 1]. *)
Fixpoint clz_loop (n : nat) (Value : Z) : Z :=
  match n with
  | O => 0
  | S n' => if Z.land Value (Z.shiftl 1 (Z.of_nat n')) =? 0 then 1 + clz_loop n' Value else 0
  end.
Definition CountLeadingZeros64 (Value : Z) : Z := clz_loop 64 Value.

(** The digits from the first that is not ['0'], and up to the last. *)
Fixpoint drop_zeros (Digits : text) : text :=
  match Digits with
  | Ch :: Digits' => if bool_decide (Ch = x30) then drop_zeros Digits' else Digits
  | [] => []
  end.
Definition drop_last_zeros (Digits : text) : text := reverse (drop_zeros (reverse Digits)).

(** [for (int Bit = 63; Bit >= 0; --Bit)], with [n] bits to go. *)
Fixpoint quotient_loop (n : nat) (Numerator Step : limbs) (Quotient : Z) : limbs * Z :=
  match n with
  | O => (Numerator, Quotient)
  | S n' =>
      let '(Numerator, Quotient) :=
        if 0 <=? Compare Numerator Step
        then (Subtract Numerator Step, Z.lor Quotient (Z.shiftl 1 (Z.of_nat n')))
        else (Numerator, Quotient) in
      quotient_loop n' Numerator (ShiftRightOne Step) Quotient
  end.

(** The kept bits of the quotient, rounded to nearest, ties to even. *)
Definition round_kept (Quotient Shift : Z) (Sticky : bool) : Z :=
  let '(Kept, RoundUp) :=
    if Shift <? 64 then
      let Kept := Z.shiftr Quotient Shift in
      let Dropped := Z.land Quotient (w64 (Z.shiftl 1 Shift) - 1) in
      let Half := Z.shiftl 1 (Shift - 1) in
      (Kept, (Half <? Dropped)
             || ((Dropped =? Half) && (Sticky || negb (Z.land Kept 1 =? 0))))
    else if Shift =? 64 then
      let Half := Z.shiftl 1 63 in
      (0, (Half <? Quotient) || ((Quotient =? Half) && Sticky))
    else (0, false) in
  if RoundUp : bool then Kept + 1 else Kept.

Definition round_quotient (Negative : bool) (Quotient K : Z) (Sticky : bool) : dbl :=
  let Bits := 64 - CountLeadingZeros64 Quotient in
  let Exp2 := Bits - 1 - K in
  if 1023 <? Exp2 then S754_infinity Negative
  else
    let Keep := if -1022 <=? Exp2 then 53 else Exp2 + 1075 in
    let Shift := Bits - Keep in
    let Result := dldexp (d_of_Z (round_kept Quotient Shift Sticky)) (Shift - K) in
    if Negative then dopp Result else Result.

(** The conversion of [Digits * 10^Exp10] within the range of doubles. *)
Definition scaled_division (Digits : text) (Exp10 : Z) : Z * limbs * limbs :=
  let Numerator := FromDecimal Digits in
  let Denominator := PyBigUInt 1 in
  let Numerator' := if 0 <=? Exp10 then MulPow10 Exp10 Numerator else Numerator in
  let Denominator' := if 0 <=? Exp10 then Denominator else MulPow10 (- Exp10) Denominator in
  let K := 63 - (BitLength Numerator' - BitLength Denominator') in
  (K, if 0 <? K then ShiftLeft K Numerator' else Numerator',
      if 0 <? K then Denominator' else if K <? 0 then ShiftLeft (- K) Denominator' else Denominator').

Definition convert_decimal (Negative : bool) (Digits : text) (Exp10 : Z) : dbl :=
  let '(K, Numerator, Denominator) := scaled_division Digits Exp10 in
  let '(Rest, Quotient) := quotient_loop 64 Numerator (ShiftLeft 63 Denominator) 0 in
  round_quotient Negative Quotient K (negb (IsZero Rest)).

(** More digits than that are cut to a prefix and a sticky ['1']. *)
Definition truncate_digits (Digits : text) (Exp10 : Z) : text * Z :=
  if (kMaxSignificantDigits <? length Digits)%nat then
    (take kMaxSignificantDigits Digits ++ [x31],
     Exp10 + (Z.of_nat (length Digits) - Z.of_nat kMaxSignificantDigits - 1))
  else (Digits, Exp10).

Definition DecimalToDouble (Negative : bool) (Digits : text) (Exp10 : Z) : dbl :=
  match drop_zeros Digits with
  | [] => S754_zero Negative
  | First =>
      let Last := drop_last_zeros First in
      let Exp10 := Exp10 + (Z.of_nat (length First) - Z.of_nat (length Last)) in
      let '(Digits, Exp10) := truncate_digits Last Exp10 in
      let Magnitude := Z.of_nat (length Digits) + Exp10 in
      if 310 <? Magnitude then S754_infinity Negative
      else if Magnitude <=? -324 then S754_zero Negative
      else convert_decimal Negative Digits Exp10
  end.

(** Known conversions: 0.1, the largest double, the smallest subnormal and its
    half, and a tie. *)
Example decimal_tenth : DecimalToDouble false (B "1") (-1) = dlit 1 10.
Proof. vm_compute. reflexivity. Qed.
Example decimal_max :
  RatioBits (DecimalToDouble false (B "17976931348623157") 292) = 0x7FEFFFFFFFFFFFFF.
Proof. vm_compute. reflexivity. Qed.
Example decimal_min : RatioBits (DecimalToDouble true (B "49") (-325)) = 0x8000000000000001.
Proof. vm_compute. reflexivity. Qed.
Example decimal_underflow : DecimalToDouble false (B "2470328229206232720") (-342) = S754_zero false.
Proof. vm_compute. reflexivity. Qed.
Example decimal_tie : DecimalToDouble false (B "9007199254740993") 0 = d_of_Z 9007199254740992.
Proof. vm_compute. reflexivity. Qed.
Example decimal_overflow : DecimalToDouble true (B "179769313486231580793") 289 = S754_infinity true.
Proof. vm_compute. reflexivity. Qed.
