(* ===== verification/RoundNearest.v ===== *)
(** * Rounding a rational to the nearest double

    The reference for the conversions: the exponent of the last kept bit is
    that of binary64 (53 bits, at least 2^-1074), and the scaled value is
    rounded to the nearest integer with ties to even. *)

From Stdlib Require Import ZArith Lia SpecFloat.
From stdpp Require Import base option numbers list.
From S2P Require Import Prelude Dbl PyDecimal.
Local Open Scope Z_scope.

(** The nearest integer to [n / d], ties to even. *)
Definition rne (n d : Z) : Z :=
  let q := n / d in
  let r := n mod d in
  if (d <? 2 * r) || ((2 * r =? d) && Z.odd q) then q + 1 else q.

(** [p / q >= 2^x]. *)
Definition pow2_le (x p q : Z) : bool := q * 2 ^ Z.max 0 x <=? p * 2 ^ Z.max 0 (- x).

(** The exponent [x] with [2^x <= p / q < 2^(x+1)]. *)
Definition floor_log2 (p q : Z) : Z :=
  let k := Z.log2 p - Z.log2 q in if pow2_le k p q then k else k - 1.

(** The exponent of the last bit a double of that binade keeps. *)
Definition last_bit (x : Z) : Z := Z.max (x - 52) (-1074).

(** The integer nearest to [p / q / 2^e]. *)
Definition rne_scaled (p q e : Z) : Z := rne (p * 2 ^ Z.max 0 (- e)) (q * 2 ^ Z.max 0 e).

Definition nearest_double (p q : Z) : dbl :=
  let x := floor_log2 p q in
  if 1023 <? x then S754_infinity false
  else dldexp (d_of_Z (rne_scaled p q (last_bit x))) (last_bit x).

Definition with_sign (Negative : bool) (d : dbl) : dbl := if Negative then dopp d else d.

(** ** Nearest integers *)

(** The distance to the result is at most one half, and even on a tie. *)
Lemma rne_spec (n d : Z) : 0 < d ->
  2 * Z.abs (n - rne n d * d) <= d /\
  (2 * Z.abs (n - rne n d * d) = d -> Z.odd (rne n d) = false).
Proof.
  intros Hd. unfold rne. pose proof (Z.div_mod n d ltac:(lia)) as E.
  pose proof (Z.mod_pos_bound n d Hd). set (q := n / d) in *. set (r := n mod d) in *.
  destruct (Z.ltb_spec d (2 * r)); cbn [orb].
  { split; [lia|]. intros. lia. }
  destruct (Z.eqb_spec (2 * r) d); cbn [andb]; [|split; [lia|intros; lia]].
  destruct (Z.odd q) eqn:Ho.
  - split; [lia|]. intros _. rewrite Z.odd_add, Ho. reflexivity.
  - split; [lia|done].
Qed.

Lemma rne_scale (c n d : Z) : 0 < c -> 0 < d -> rne (c * n) (c * d) = rne n d.
Proof.
  intros Hc Hd. unfold rne. rewrite Z.div_mul_cancel_l, Z.mul_mod_distr_l by lia.
  replace (2 * (c * (n mod d))) with (c * (2 * (n mod d))) by lia.
  assert (forall a b, (c * a <? c * b) = (a <? b)) as -> by
    (intros a b; destruct (Z.ltb_spec a b), (Z.ltb_spec (c * a) (c * b)); nia).
  assert (forall a b, (c * a =? c * b) = (a =? b)) as -> by
    (intros a b; destruct (Z.eqb_spec a b), (Z.eqb_spec (c * a) (c * b)); nia).
  done.
Qed.

(** ** Scaling by powers of two *)

Lemma pow2_pos (x : Z) : 0 <= x -> 0 < 2 ^ x.
Proof. intros. apply Z.pow_pos_nonneg; lia. Qed.

(** One common exponent decides the comparison. *)
Lemma pow2_le_iff (M x p q : Z) : 0 <= M -> 0 <= x + M ->
  pow2_le x p q = true <-> q * 2 ^ (x + M) <= p * 2 ^ M.
Proof.
  intros HM Hx. unfold pow2_le. rewrite Z.leb_le.
  pose proof (pow2_pos (M - Z.max 0 (- x)) ltac:(lia)).
  replace (x + M) with (Z.max 0 x + (M - Z.max 0 (- x))) by lia.
  replace (p * 2 ^ M) with (p * 2 ^ (Z.max 0 (- x) + (M - Z.max 0 (- x)))) by (do 2 f_equal; lia).
  rewrite !Z.pow_add_r by lia. split; nia.
Qed.

Lemma rne_scaled_eq (M e p q : Z) : 0 <= M -> 0 <= e + M -> 0 < q ->
  rne_scaled p q e = rne (p * 2 ^ M) (q * 2 ^ (e + M)).
Proof.
  intros HM He Hq. unfold rne_scaled. pose proof (pow2_pos (M - Z.max 0 (- e)) ltac:(lia)).
  rewrite <- (rne_scale (2 ^ (M - Z.max 0 (- e)))).
  - f_equal.
    + replace M with (Z.max 0 (- e) + (M - Z.max 0 (- e))) at 2 by lia.
      rewrite Z.pow_add_r by lia. lia.
    + replace (e + M) with (Z.max 0 e + (M - Z.max 0 (- e))) by lia.
      rewrite Z.pow_add_r by lia. lia.
  - done.
  - pose proof (pow2_pos (Z.max 0 e)). nia.
Qed.

(** ** The binade of a rational *)

Lemma floor_log2_spec (p q : Z) : 0 < p -> 0 < q ->
  pow2_le (floor_log2 p q) p q = true /\ pow2_le (floor_log2 p q + 1) p q = false.
Proof.
  intros Hp Hq. unfold floor_log2. set (k := Z.log2 p - Z.log2 q).
  pose proof (Z.log2_spec p Hp) as [P1 P2]. pose proof (Z.log2_spec q Hq) as [Q1 Q2].
  pose proof (Z.log2_nonneg p). pose proof (Z.log2_nonneg q).
  set (M := Z.log2 q + 1).
  assert (2 ^ M = 2 * 2 ^ Z.log2 q) as EM by (unfold M; rewrite Z.pow_add_r by lia; lia).
  rewrite !Z.pow_succ_r in * by lia.
  assert (pow2_le (k + 1) p q = false) as Hk1.
  { apply not_true_iff_false. rewrite (pow2_le_iff M) by (unfold k, M; lia).
    replace (k + 1 + M) with (Z.log2 p + 2) by (unfold k, M; lia).
    rewrite Z.pow_add_r, EM by lia. nia. }
  assert (pow2_le (k - 1) p q = true) as Hk0.
  { apply (pow2_le_iff M); [unfold M; lia|unfold k, M; lia|].
    replace (k - 1 + M) with (Z.log2 p) by (unfold k, M; lia). rewrite EM. nia. }
  destruct (pow2_le k p q) eqn:E; [done|]. by replace (k - 1 + 1) with k by lia.
Qed.

Lemma pow2_le_mono (x y p q : Z) : 0 < q -> x <= y -> pow2_le y p q = true -> pow2_le x p q = true.
Proof.
  intros Hq Hxy. set (M := Z.abs x + Z.abs y). rewrite !(pow2_le_iff M) by lia.
  assert (2 ^ (x + M) <= 2 ^ (y + M)) by (apply Z.pow_le_mono_r; lia). nia.
Qed.

Lemma floor_log2_unique (p q x : Z) : 0 < p -> 0 < q ->
  pow2_le x p q = true -> pow2_le (x + 1) p q = false -> floor_log2 p q = x.
Proof.
  intros Hp Hq H1 H2. destruct (floor_log2_spec p q Hp Hq) as [F1 F2].
  destruct (Z.lt_trichotomy (floor_log2 p q) x) as [H|[H|H]]; [|done|].
  - apply (pow2_le_mono (floor_log2 p q + 1) x) in H1; [congruence|done|lia].
  - apply (pow2_le_mono (x + 1) (floor_log2 p q)) in F1; [congruence|done|lia].
Qed.

(** Only the value of the rational counts. *)
Lemma nearest_double_scale (c p q : Z) : 0 < c -> 0 < p -> 0 < q ->
  nearest_double (c * p) (c * q) = nearest_double p q.
Proof.
  intros Hc Hp Hq.
  assert (forall x, pow2_le x (c * p) (c * q) = pow2_le x p q) as Hle.
  { intros x. unfold pow2_le. pose proof (pow2_pos (Z.max 0 x)). pose proof (pow2_pos (Z.max 0 (- x))).
    destruct (Z.leb_spec (q * 2 ^ Z.max 0 x) (p * 2 ^ Z.max 0 (- x))),
      (Z.leb_spec (c * q * 2 ^ Z.max 0 x) (c * p * 2 ^ Z.max 0 (- x))); nia. }
  assert (floor_log2 (c * p) (c * q) = floor_log2 p q) as E.
  { destruct (floor_log2_spec p q Hp Hq) as [H1 H2].
    apply floor_log2_unique; [nia|nia|by rewrite Hle|by rewrite Hle]. }
  unfold nearest_double. rewrite E. destruct (1023 <? floor_log2 p q); [done|].
  do 2 f_equal. unfold rne_scaled. rewrite <- !Z.mul_assoc. rewrite rne_scale; [done|done|].
  pose proof (pow2_pos (Z.max 0 (last_bit (floor_log2 p q)))). nia.
Qed.
