(* ===== verification/DblRound.v ===== *)
(** * What the operations of the double model compute

    A finite double is a whole number of units of 2^-1074 ([units]). The
    arithmetic of [SpecFloat] is shown to round the exact result to the
    nearest double, ties to even ([round_units]), so the code's float
    expressions can be reasoned about with integers. *)

From Stdlib Require Import ZArith Lia SpecFloat.
From stdpp Require Import base option numbers list.
From S2P Require Import Prelude Dbl PyDecimal RoundNearest.
Local Open Scope Z_scope.

(** The value of a finite double in units of 2^-1074. *)
Definition units (x : dbl) : Z :=
  match x with
  | S754_finite s m e => (if s then -1 else 1) * (Z.pos m * 2 ^ (e + 1074))
  | _ => 0
  end.

Definition is_finite (x : dbl) : bool :=
  match x with S754_finite _ _ _ | S754_zero _ => true | _ => false end.

(** The double [k * 2^s] units, for [k <= 2^53] rounded at spacing [2^s]. *)
Definition canon (sgn : bool) (k s : Z) : dbl :=
  let '(k, e) := if k =? 2 ^ 53 then (2 ^ 52, s - 1073) else (k, s - 1074) in
  match k with
  | Zpos m => if e <=? 971 then S754_finite sgn m e else S754_infinity sgn
  | _ => S754_zero sgn
  end.

(** The exponent of the spacing of the doubles around [v] units. *)
Definition spacing (v : Z) : Z := Z.max 0 (Z.log2 v - 52).

(** The double nearest to [n / d] units, ties to even. *)
Definition round_units (sgn : bool) (n d : Z) : dbl :=
  let s := spacing (n / d) in canon sgn (rne n (d * 2 ^ s)) s.

(** ** The records of the shifting algorithm *)

(** The record of the number [n / d]: its floor, the next bit, and whether
    anything is left below. *)
Definition shr_of (n d : Z) : shr_record :=
  {| shr_m := n / d;
     shr_r := Z.odd (2 * n / d);
     shr_s := negb (2 * n mod d =? 0) |}.

Lemma half_double (n d : Z) : 0 < d -> 2 * n / d / 2 = n / d.
Proof.
  intros Hd. rewrite Z.div_div by lia.
  replace (d * 2) with (2 * d) by lia. apply Z.div_mul_cancel_l; lia.
Qed.

Lemma shr_1_halves (m : Z) (r s : bool) : 0 <= m ->
  shr_1 {| shr_m := m; shr_r := r; shr_s := s |}
  = {| shr_m := m / 2; shr_r := Z.odd m; shr_s := r || s |}.
Proof.
  intros Hm. destruct m as [|[p|p|]|p]; [done| | |done|lia]; cbn [shr_1].
  - rewrite Pos2Z.inj_xI. rewrite Z.add_comm, Z.odd_add_mul_2. f_equal.
    apply (Z.div_unique_pos _ _ _ 1); lia.
  - rewrite Pos2Z.inj_xO. rewrite <- (Z.add_0_l (2 * Z.pos p)) at 2. rewrite Z.odd_add_mul_2. f_equal.
    apply (Z.div_unique_pos _ _ _ 0); lia.
Qed.

Lemma shr_1_of (n d : Z) : 0 <= n -> 0 < d -> shr_1 (shr_of n d) = shr_of n (d * 2).
Proof.
  intros Hn Hd. unfold shr_of at 1. rewrite shr_1_halves by (apply Z.div_pos; lia).
  unfold shr_of. f_equal.
  - apply Z.div_div; lia.
  - f_equal. replace (d * 2) with (2 * d) by lia. rewrite Z.div_mul_cancel_l by lia. done.
  - replace (d * 2) with (2 * d) by lia. rewrite Z.mul_mod_distr_l by lia.
    (* the remainder of n against that of 2n *)
    pose proof (Z.div_mod n d ltac:(lia)) as E. pose proof (Z.mod_pos_bound n d Hd).
    set (q := n / d) in *. set (r := n mod d) in *.
    destruct (Z.ltb_spec (2 * r) d).
    + assert (2 * n / d = 2 * q /\ 2 * n mod d = 2 * r) as [-> ->].
      { split; [symmetry; apply (Z.div_unique_pos _ _ _ (2 * r))|
                symmetry; apply (Z.mod_unique_pos _ _ (2 * q))]; lia. }
      rewrite Z.odd_mul. cbn [andb orb Z.odd]. reflexivity.
    + assert (2 * n / d = 2 * q + 1 /\ 2 * n mod d = 2 * r - d) as [-> ->].
      { split; [symmetry; apply (Z.div_unique_pos _ _ _ (2 * r - d))|
                symmetry; apply (Z.mod_unique_pos _ _ (2 * q + 1))]; lia. }
      rewrite Z.add_comm, Z.odd_add_mul_2. cbn [Z.odd orb].
      destruct (Z.eqb_spec (2 * r) 0); [lia|done].
Qed.

Lemma iter_shr_1 (p : positive) (n : Z) : 0 <= n -> forall d, 0 < d ->
  SpecFloat.iter_pos shr_1 p (shr_of n d) = shr_of n (d * 2 ^ Z.pos p).
Proof.
  intros Hn. induction p as [p IH|p IH|]; intros d Hd; cbn [SpecFloat.iter_pos].
  - rewrite shr_1_of by done. pose proof (pow2_pos (Z.pos p) ltac:(lia)). rewrite !IH by nia. f_equal.
    rewrite (Pos2Z.inj_xI p). replace (2 * Z.pos p + 1) with (1 + Z.pos p + Z.pos p) by lia.
    rewrite !Z.pow_add_r by lia. lia.
  - pose proof (pow2_pos (Z.pos p) ltac:(lia)). rewrite !IH by nia. f_equal.
    rewrite (Pos2Z.inj_xO p). replace (2 * Z.pos p) with (Z.pos p + Z.pos p) by lia.
    rewrite Z.pow_add_r by lia. lia.
  - rewrite shr_1_of by done. f_equal.
Qed.

(** A location describes the remainder [r] of a division by [d]. *)
Definition locates (l : location) (r d : Z) : Prop :=
  l = if r =? 0 then loc_Exact else loc_Inexact (2 * r ?= d).

Lemma locates_exact : locates loc_Exact 0 1.
Proof. done. Qed.

Lemma shr_record_of_locates (n d : Z) (l : location) :
  0 <= n -> 0 < d -> locates l (n mod d) d -> shr_record_of_loc (n / d) l = shr_of n d.
Proof.
  intros Hn Hd ->. pose proof (Z.div_mod n d ltac:(lia)) as E. pose proof (Z.mod_pos_bound n d Hd).
  unfold shr_of. set (q := n / d) in *. set (r := n mod d) in *.
  destruct (Z.ltb_spec (2 * r) d).
  - assert (2 * n / d = 2 * q /\ 2 * n mod d = 2 * r) as [-> ->].
    { split; [symmetry; apply (Z.div_unique_pos _ _ _ (2 * r))|
              symmetry; apply (Z.mod_unique_pos _ _ (2 * q))]; lia. }
    rewrite <- (Z.add_0_l (2 * q)), Z.odd_add_mul_2.
    destruct (Z.eqb_spec r 0), (Z.eqb_spec (2 * r) 0); try lia; [done|].
    assert ((2 * r ?= d) = Lt) as -> by (apply Z.compare_lt_iff; lia). done.
  - assert (2 * n / d = 2 * q + 1 /\ 2 * n mod d = 2 * r - d) as [-> ->].
    { split; [symmetry; apply (Z.div_unique_pos _ _ _ (2 * r - d))|
              symmetry; apply (Z.mod_unique_pos _ _ (2 * q + 1))]; lia. }
    rewrite (Z.add_comm (2 * q)), Z.odd_add_mul_2. destruct (Z.eqb_spec r 0); [lia|].
    destruct (Z.eqb_spec (2 * r - d) 0).
    + assert ((2 * r ?= d) = Eq) as -> by (apply Z.compare_eq_iff; lia). done.
    + assert ((2 * r ?= d) = Gt) as -> by (apply Z.compare_gt_iff; lia). done.
Qed.

Lemma round_nearest_shr_of (n d : Z) : 0 <= n -> 0 < d ->
  round_nearest_even (shr_m (shr_of n d)) (loc_of_shr_record (shr_of n d)) = rne n d.
Proof.
  intros Hn Hd. pose proof (Z.div_mod n d ltac:(lia)) as E. pose proof (Z.mod_pos_bound n d Hd).
  unfold shr_of, rne. cbn [shr_m]. set (q := n / d) in *. set (r := n mod d) in *.
  destruct (Z.ltb_spec (2 * r) d).
  - assert (2 * n / d = 2 * q /\ 2 * n mod d = 2 * r) as [-> ->].
    { split; [symmetry; apply (Z.div_unique_pos _ _ _ (2 * r))|
              symmetry; apply (Z.mod_unique_pos _ _ (2 * q))]; lia. }
    rewrite <- (Z.add_0_l (2 * q)), Z.odd_add_mul_2.
    destruct (Z.ltb_spec d (2 * r)), (Z.eqb_spec (2 * r) d); try lia. cbn [orb andb].
    by destruct (2 * r =? 0).
  - assert (2 * n / d = 2 * q + 1 /\ 2 * n mod d = 2 * r - d) as [-> ->].
    { split; [symmetry; apply (Z.div_unique_pos _ _ _ (2 * r - d))|
              symmetry; apply (Z.mod_unique_pos _ _ (2 * q + 1))]; lia. }
    rewrite (Z.add_comm (2 * q)), Z.odd_add_mul_2. cbn [Z.odd].
    destruct (Z.ltb_spec d (2 * r)), (Z.eqb_spec (2 * r) d), (Z.eqb_spec (2 * r - d) 0); try lia;
      cbn [orb andb negb loc_of_shr_record round_nearest_even]; [done|].
    rewrite <- Z.negb_odd. by destruct (Z.odd q).
Qed.

(** ** Rounding *)

Lemma Zdigits2_log2 (m : Z) : 0 < m -> Zdigits2 m = Z.log2 m + 1.
Proof.
  intros Hm. destruct m as [|p|p]; try lia. cbn [Zdigits2].
  rewrite digits2_pos_size. symmetry.
  assert (Z.log2 (Z.pos p) = Z.pos (Pos.size p) - 1); [|lia].
  apply Z.log2_unique; [lia|]. pose proof (digits2_pos_bounds p) as H. rewrite digits2_pos_size in H.
  replace (Z.succ (Z.pos (Pos.size p) - 1)) with (Z.pos (Pos.size p)) by lia. done.
Qed.

(** A number with at most 53 bits at a spacing a double can have is kept. *)
Lemma shr_fexp_keeps (k e : Z) : 0 <= k < 2 ^ 53 -> -1074 <= e ->
  shr_fexp 53 1024 k e loc_Exact = ({| shr_m := k; shr_r := false; shr_s := false |}, e).
Proof.
  intros Hk He. unfold shr_fexp, shr, fexp, emin. cbn [shr_record_of_loc].
  assert (Z.max (Zdigits2 k + e - 53) (3 - 1024 - 53) - e <= 0) as H.
  { destruct (Z.eq_dec k 0) as [->|]; [cbn; lia|]. rewrite Zdigits2_log2 by lia.
    assert (Z.log2 k < 53) by (apply Z.log2_lt_pow2; lia). lia. }
  destruct (Z.max (Zdigits2 k + e - 53) (3 - 1024 - 53) - e); [done|lia|done].
Qed.

Lemma binary_round_aux_canon (sgn : bool) (m e n d : Z) (l : location) :
  0 <= n -> 0 < d -> m = n / d -> locates l (n mod d) d ->
  let e' := fexp 53 1024 (Zdigits2 m + e) in
  e <= e' ->
  binary_round_aux 53 1024 sgn m e l = canon sgn (rne n (d * 2 ^ (e' - e))) (e' + 1074).
Proof.
  intros Hn Hd -> Hl e' He. unfold binary_round_aux.
  assert (shr_fexp 53 1024 (n / d) e l = (shr_of n (d * 2 ^ (e' - e)), e')) as ->.
  { unfold shr_fexp. fold e'. rewrite shr_record_of_locates by done.
    unfold shr. destruct (e' - e) as [|p|p] eqn:E; [|rewrite iter_shr_1 by done; f_equal; lia|lia].
    change (2 ^ 0) with 1. rewrite Z.mul_1_r. f_equal. lia. }
  pose proof (pow2_pos (e' - e) ltac:(lia)) as Hp.
  rewrite round_nearest_shr_of by (try done; nia).
  set (k := rne n (d * 2 ^ (e' - e))).
  assert (-1074 <= e') as He' by (unfold e', fexp, emin; lia).
  assert (0 <= k <= 2 ^ 53) as Hk.
  { unfold k, rne. assert (0 < d * 2 ^ (e' - e)) as HD by nia.
    pose proof (Z.div_pos n _ Hn HD).
    assert (n / (d * 2 ^ (e' - e)) < 2 ^ 53) as Hlt.
    { rewrite <- Z.div_div by lia. apply Z.div_lt_upper_bound; [done|].
      rewrite <- Z.pow_add_r by lia. pose proof (Z.div_pos n d Hn Hd).
      destruct (Z.eq_dec (n / d) 0) as [->|]; [pose proof (pow2_pos (e' - e + 53)); lia|].
      apply (Z.lt_le_trans _ (2 ^ (Z.log2 (n / d) + 1))).
      - pose proof (Z.log2_spec (n / d) ltac:(lia)) as [_ H2]. by rewrite Z.add_1_r.
      - apply Z.pow_le_mono_r; [lia|]. unfold e', fexp. rewrite Zdigits2_log2 by lia. lia. }
    destruct ((d * 2 ^ (e' - e) <? 2 * (n mod (d * 2 ^ (e' - e)))) || _); lia. }
  clearbody k. unfold canon. destruct (Z.eqb_spec k (2 ^ 53)) as [->|Hne].
  - unfold shr_fexp, shr. change (Zdigits2 (2 ^ 53)) with 54. unfold fexp, emin.
    replace (Z.max (54 + e' - 53) (3 - 1024 - 53) - e') with 1 by lia.
    change (shr_m (SpecFloat.iter_pos shr_1 1 (shr_record_of_loc (2 ^ 53) loc_Exact))) with (2 ^ 52).
    cbn [shr_m]. change (1024 - 53) with 971. by replace (e' + 1074 - 1073) with (e' + 1) by lia.
  - rewrite shr_fexp_keeps by lia. cbn [shr_m]. change (1024 - 53) with 971.
    replace (e' + 1074 - 1074) with e' by lia. destruct k; [done|done|lia].
Qed.

Lemma log2_scale_up (n d t : Z) : 0 <= n -> 0 < d -> 0 < n / d -> 0 <= t ->
  Z.log2 (n * 2 ^ t / d) = Z.log2 (n / d) + t.
Proof.
  intros Hn Hd Hq Ht. pose proof (Z.log2_spec _ Hq) as [H1 H2]. pose proof (pow2_pos t Ht) as Hp.
  pose proof (Z.log2_nonneg (n / d)). rewrite Z.pow_succ_r in H2 by done.
  pose proof (Z.div_mod n d ltac:(lia)) as E. pose proof (Z.mod_pos_bound n d Hd).
  apply Z.log2_unique; [lia|]. rewrite Z.pow_succ_r, Z.pow_add_r by lia.
  set (L := 2 ^ Z.log2 (n / d)) in *. clearbody L. set (q := n / d) in *. set (T := 2 ^ t) in *.
  clearbody T q. assert (d * L <= n < d * (2 * L)) by nia. split.
  - apply Z.div_le_lower_bound; nia.
  - apply Z.div_lt_upper_bound; nia.
Qed.

Lemma log2_scale_down (n d t : Z) : 0 <= n -> 0 < d -> 0 < n / d -> 0 <= t ->
  Z.log2 (n / (d * 2 ^ t)) = Z.max 0 (Z.log2 (n / d) - t).
Proof.
  intros Hn Hd Hq Ht. pose proof (pow2_pos t Ht).
  rewrite <- Z.div_div, <- Z.shiftr_div_pow2 by lia. by rewrite Z.log2_shiftr.
Qed.

(** The result is the double nearest to the exact value. *)
Lemma binary_round_aux_units (sgn : bool) (m e n d : Z) (l : location) :
  0 <= n -> 0 < d -> m = n / d -> locates l (n mod d) d ->
  e <= fexp 53 1024 (Zdigits2 m + e) ->
  binary_round_aux 53 1024 sgn m e l
  = round_units sgn (n * 2 ^ Z.max 0 (e + 1074)) (d * 2 ^ Z.max 0 (- (e + 1074))).
Proof.
  intros Hn Hd Hm Hl He. rewrite (binary_round_aux_canon sgn m e n d l) by done.
  set (e' := fexp 53 1024 (Zdigits2 m + e)) in *. unfold round_units.
  assert (spacing (n * 2 ^ Z.max 0 (e + 1074) / (d * 2 ^ Z.max 0 (- (e + 1074)))) = e' + 1074) as Es.
  { unfold spacing. destruct (Z.eq_dec m 0) as [Em|Em].
    - unfold e', fexp, emin in *. rewrite Em in *. cbn [Zdigits2] in *.
      replace (Z.max 0 (e + 1074)) with 0 by lia. change (2 ^ 0) with 1. rewrite Z.mul_1_r.
      pose proof (pow2_pos (Z.max 0 (- (e + 1074))) ltac:(lia)).
      rewrite <- Z.div_div, <- Hm by lia. rewrite Z.div_0_l by lia. change (Z.log2 0) with 0. lia.
    - pose proof (Z.div_pos n d Hn Hd). unfold e', fexp, emin in *. rewrite Zdigits2_log2 in * by lia.
      rewrite Hm in *. destruct (Z.le_gt_cases 0 (e + 1074)).
      + replace (Z.max 0 (- (e + 1074))) with 0 by lia. change (2 ^ 0) with 1. rewrite Z.mul_1_r.
        rewrite log2_scale_up by lia. lia.
      + replace (Z.max 0 (e + 1074)) with 0 by lia. change (2 ^ 0) with 1. rewrite Z.mul_1_r.
        rewrite log2_scale_down by lia. lia. }
  rewrite Es. f_equal. pose proof (pow2_pos (Z.max 0 (e + 1074)) ltac:(lia)).
  pose proof (pow2_pos (e' - e) ltac:(lia)). rewrite <- (rne_scale (2 ^ Z.max 0 (e + 1074))) by nia.
  f_equal; [lia|]. rewrite <- !Z.mul_assoc, (Z.mul_comm (2 ^ _) (d * _)), <- !Z.mul_assoc. f_equal.
  rewrite <- !Z.pow_add_r by (unfold e', fexp, emin in *; lia). f_equal. lia.
Qed.

(** Only the value of the fraction counts. *)
Lemma round_units_scale (sgn : bool) (c n d : Z) : 0 < c -> 0 < d ->
  round_units sgn (c * n) (c * d) = round_units sgn n d.
Proof.
  intros Hc Hd. unfold round_units. rewrite Z.div_mul_cancel_l by lia.
  pose proof (pow2_pos (spacing (n / d)) ltac:(unfold spacing; lia)).
  rewrite <- Z.mul_assoc, rne_scale by nia. done.
Qed.

Lemma round_units_cross (sgn : bool) (n d n' d' : Z) : 0 < d -> 0 < d' ->
  n * d' = n' * d -> round_units sgn n d = round_units sgn n' d'.
Proof.
  intros Hd Hd' E. rewrite <- (round_units_scale sgn d' n d), <- (round_units_scale sgn d n' d') by done.
  f_equal; lia.
Qed.

(** ** The operations *)

Lemma shl_align_spec (m : positive) (e e' : Z) :
  let '(m', ez) := shl_align m e e' in
  ez = Z.min e e' /\ Z.pos m' = Z.pos m * 2 ^ (e - ez).
Proof.
  unfold shl_align. destruct (e' - e) as [|p|p] eqn:E.
  - split; [lia|]. replace (e - e) with 0 by lia. lia.
  - split; [lia|]. replace (e - e) with 0 by lia. lia.
  - split; [lia|]. replace (e - e') with (Z.pos p) by lia. clear E.
    induction p using Pos.peano_ind; [simpl; lia|].
    rewrite Pos.iter_succ, Pos2Z.inj_xO, IHp, Pos2Z.inj_succ, Z.pow_succ_r by lia. lia.
Qed.

(** A product with a power of two, as a fraction of units. *)
Definition pow2_units (sgn : bool) (m e : Z) : dbl :=
  round_units sgn (m * 2 ^ Z.max 0 (e + 1074)) (2 ^ Z.max 0 (- (e + 1074))).

Lemma pow2_units_shift (sgn : bool) (m e k : Z) : 0 <= k ->
  pow2_units sgn (m * 2 ^ k) (e - k) = pow2_units sgn m e.
Proof.
  intros Hk. unfold pow2_units. apply round_units_cross; [apply pow2_pos; lia..|].
  rewrite <- !Z.mul_assoc, <- !Z.pow_add_r by lia. do 2 f_equal. lia.
Qed.

Lemma digits2_mul_pow2 (m k : Z) : 0 < m -> 0 <= k -> Zdigits2 (m * 2 ^ k) = Zdigits2 m + k.
Proof.
  intros Hm Hk. pose proof (pow2_pos k Hk). rewrite !Zdigits2_log2 by nia.
  rewrite Z.log2_mul_pow2 by lia. lia.
Qed.

Lemma binary_round_units (sgn : bool) (m : positive) (e : Z) :
  binary_round 53 1024 sgn m e = pow2_units sgn (Z.pos m) e.
Proof.
  unfold binary_round.
  pose proof (shl_align_spec m e (fexp 53 1024 (Z.pos (digits2_pos m) + e))) as H.
  destruct (shl_align m e (fexp 53 1024 (Z.pos (digits2_pos m) + e))) as [m' ez]. destruct H as [Hez Hm'].
  rewrite (binary_round_aux_units sgn (Z.pos m') ez (Z.pos m') 1).
  - change (round_units sgn (Z.pos m' * 2 ^ Z.max 0 (ez + 1074)) (1 * 2 ^ Z.max 0 (- (ez + 1074))))
      with (round_units sgn (Z.pos m' * 2 ^ Z.max 0 (ez + 1074)) (1 * 2 ^ Z.max 0 (- (ez + 1074)))).
    rewrite Z.mul_1_l. fold (pow2_units sgn (Z.pos m') ez). rewrite Hm'.
    replace ez with (e - (e - ez)) at 2 by lia. apply pow2_units_shift. lia.
  - lia.
  - lia.
  - by rewrite Z.div_1_r.
  - rewrite Z.mod_1_r. done.
  - rewrite Hm', digits2_mul_pow2 by lia. change (Zdigits2 (Z.pos m)) with (Z.pos (digits2_pos m)).
    unfold fexp in *. lia.
Qed.

Lemma rne_zero (d : Z) : 0 < d -> rne 0 d = 0.
Proof.
  intros Hd. unfold rne. rewrite Z.div_0_l, Z.mod_0_l by lia.
  destruct (Z.ltb_spec d (2 * 0)); [lia|]. by rewrite andb_false_r.
Qed.

Lemma rne_exact (n d : Z) : 0 < d -> rne (n * d) d = n.
Proof.
  intros Hd. unfold rne. rewrite Z.div_mul, Z.mod_mul by lia.
  destruct (Z.ltb_spec d (2 * 0)); [lia|]. destruct (Z.eqb_spec (2 * 0) d); [lia|done].
Qed.

Lemma round_units_zero (sgn : bool) (d : Z) : 0 < d -> round_units sgn 0 d = S754_zero sgn.
Proof.
  intros Hd. unfold round_units. rewrite Z.div_0_l by lia. change (spacing 0) with 0.
  rewrite rne_zero by lia. done.
Qed.

(** [static_cast<double>] of a non-negative integer. *)
Lemma d_of_Z_units (z : Z) : 0 <= z -> d_of_Z z = round_units false (z * 2 ^ 1074) 1.
Proof.
  intros Hz. unfold d_of_Z, binary_normalize. destruct z as [|p|p]; [|apply binary_round_units|lia].
  by rewrite round_units_zero.
Qed.

Lemma dldexp_units (sgn : bool) (m : positive) (e n : Z) :
  dldexp (S754_finite sgn m e) n = pow2_units sgn (Z.pos m) (e + n).
Proof. apply binary_round_units. Qed.

Lemma new_location_locates (d r : Z) : 0 < d -> 0 <= r < d -> locates (new_location d r) r d.
Proof.
  intros Hd Hr. unfold locates, new_location, new_location_even, new_location_odd.
  destruct (Z.even d) eqn:Ee; destruct (Z.eqb_spec r 0); try done. f_equal.
  assert (2 * r <> d) as Hne.
  { intros <-. rewrite Z.even_mul in Ee. done. }
  destruct (Z.compare_spec (2 * r + 1) d); destruct (Z.compare_spec (2 * r) d); lia || done.
Qed.

(** A quotient rounds the exact quotient of the values. *)
Lemma ddiv_units (sx sy : bool) (mx my : positive) (ex ey : Z) :
  -1074 <= ex -> -1074 <= ey ->
  ddiv (S754_finite sx mx ex) (S754_finite sy my ey)
  = round_units (xorb sx sy) (Z.pos mx * 2 ^ (ex + 1074) * 2 ^ 1074) (Z.pos my * 2 ^ (ey + 1074)).
Proof.
  intros Hex Hey. unfold ddiv, SFdiv, SFdiv_core_binary.
  set (e' := Z.min (fexp 53 1024 (Zdigits2 (Z.pos mx) + ex - (Zdigits2 (Z.pos my) + ey))) (ex - ey)).
  set (s := ex - ey - e'). assert (0 <= s) as Hs by (unfold s, e'; lia).
  assert (match s with
          | 0 => Z.pos mx | Z.pos _ => Z.shiftl (Z.pos mx) s | Z.neg _ => 0 end = Z.pos mx * 2 ^ s) as ->.
  { pose proof (Z.shiftl_mul_pow2 (Z.pos mx) s Hs) as E. destruct s; [lia|done|lia]. }
  change (Z.div_eucl (Z.pos mx * 2 ^ s) (Z.pos my)) with
    (Z.div_eucl (Z.pos mx * 2 ^ s) (Z.pos my)).
  pose proof (Z.mod_pos_bound (Z.pos mx * 2 ^ s) (Z.pos my) ltac:(lia)) as Hmod.
  assert (Z.div_eucl (Z.pos mx * 2 ^ s) (Z.pos my)
          = (Z.pos mx * 2 ^ s / Z.pos my, Z.pos mx * 2 ^ s mod Z.pos my)) as ->.
  { unfold Z.div, Z.modulo. by destruct (Z.div_eucl _ _). }
  pose proof (pow2_pos s Hs) as Hp.
  rewrite (binary_round_aux_units _ _ e' (Z.pos mx * 2 ^ s) (Z.pos my)).
  - pose proof (pow2_pos (Z.max 0 (- (e' + 1074))) ltac:(lia)).
    pose proof (pow2_pos (ey + 1074) ltac:(lia)).
    apply round_units_cross; [nia|nia|].
    assert (2 ^ s * 2 ^ Z.max 0 (e' + 1074) * 2 ^ (ey + 1074)
            = 2 ^ (ex + 1074) * 2 ^ 1074 * 2 ^ Z.max 0 (- (e' + 1074))) as E.
    { rewrite <- !Z.pow_add_r by lia. f_equal. unfold s. lia. }
    transitivity (Z.pos mx * Z.pos my * (2 ^ s * 2 ^ Z.max 0 (e' + 1074) * 2 ^ (ey + 1074))); [ring|].
    rewrite E. ring.
  - nia.
  - lia.
  - done.
  - apply new_location_locates; lia.
  - assert (Zdigits2 (Z.pos mx) + s - Zdigits2 (Z.pos my) <= Zdigits2 (Z.pos mx * 2 ^ s / Z.pos my)) as Hd.
    { rewrite <- digits2_mul_pow2 by lia. set (n := Z.pos mx * 2 ^ s) in *.
      assert (0 < n) by (unfold n; nia). rewrite !Zdigits2_log2 by lia.
      pose proof (Z.log2_spec n ltac:(lia)) as [H1 _]. pose proof (Z.log2_spec (Z.pos my) ltac:(lia)) as [_ H2].
      pose proof (Z.log2_nonneg n). pose proof (Z.log2_nonneg (Z.pos my)).
      assert (forall j, 0 <= j -> Z.log2 n = Z.log2 (Z.pos my) + 1 + j -> 2 ^ j <= n / Z.pos my) as Hq.
      { intros j Hj Ej. apply Z.div_le_lower_bound; [lia|].
        rewrite Ej, Z.pow_add_r in H1 by lia. rewrite <- Z.add_1_r in H2. pose proof (pow2_pos j Hj). nia. }
      destruct (Z.le_gt_cases (Z.log2 n) (Z.log2 (Z.pos my))).
      + pose proof (Z.div_pos n (Z.pos my) ltac:(lia) ltac:(lia)).
        destruct (Z.eq_dec (n / Z.pos my) 0) as [->|]; [change (Zdigits2 0) with 0; lia|].
        rewrite Zdigits2_log2 by lia. pose proof (Z.log2_nonneg (n / Z.pos my)). lia.
      + set (M := Z.pos my) in *. clearbody M. specialize (Hq (Z.log2 n - Z.log2 M - 1) ltac:(lia) ltac:(lia)).
        pose proof (pow2_pos (Z.log2 n - Z.log2 M - 1) ltac:(lia)).
        rewrite Zdigits2_log2 by lia. apply Z.log2_le_mono in Hq. rewrite Z.log2_pow2 in Hq by lia. lia. }
    unfold e', fexp in *. lia.
Qed.

(** ** The values of doubles are ordered and spaced *)

(** A number of units that is the value of a non-negative finite double. *)
Definition fits (v : Z) : Prop := exists m t, v = m * 2 ^ t /\ 0 <= m < 2 ^ 53 /\ 0 <= t <= 2045.

Lemma fits_grid (v s : Z) : fits v -> 0 <= s -> 2 ^ (52 + s) <= v -> exists j, v = j * 2 ^ s.
Proof.
  intros (m & t & -> & Hm & Ht) Hs Hv.
  assert (s <= t) as Hst.
  { destruct (Z.le_gt_cases s t); [done|exfalso].
    assert (2 ^ (53 + t) <= 2 ^ (52 + s)) by (apply Z.pow_le_mono_r; lia).
    rewrite (Z.pow_add_r 2 53) in * by lia. pose proof (pow2_pos t ltac:(lia)).
    set (T := 2 ^ t) in *. set (C := 2 ^ 53) in *. clearbody T C. nia. }
  exists (m * 2 ^ (t - s)). rewrite <- Z.mul_assoc, <- Z.pow_add_r by lia. do 2 f_equal. lia.
Qed.

Lemma rne_le (n d j : Z) : 0 < d -> n <= j * d -> rne n d <= j.
Proof.
  intros Hd Hn. destruct (rne_spec n d Hd) as [H _]. destruct (Z.le_gt_cases (rne n d) j); [done|].
  assert (j + 1 <= rne n d) by lia. destruct (Z.eq_dec n (j * d)) as [->|]; [rewrite rne_exact in *; lia|].
  assert (j * d + d <= rne n d * d) by nia. lia.
Qed.

Lemma rne_ge (n d j : Z) : 0 < d -> j * d <= n -> j <= rne n d.
Proof.
  intros Hd Hn. destruct (rne_spec n d Hd) as [H _]. destruct (Z.le_gt_cases j (rne n d)); [done|].
  destruct (Z.eq_dec n (j * d)) as [->|]; [rewrite rne_exact in *; lia|].
  assert (rne n d * d + d <= j * d) by nia. lia.
Qed.

(** The rounded mantissa and its spacing. *)
Lemma round_units_mantissa (n d : Z) : 0 <= n -> 0 < d ->
  let s := spacing (n / d) in
  0 <= s /\ 0 <= rne n (d * 2 ^ s) <= 2 ^ 53 /\ (s = 0 \/ 2 ^ 52 <= rne n (d * 2 ^ s)).
Proof.
  intros Hn Hd s. assert (0 <= s) as Hs by (unfold s, spacing; lia). pose proof (pow2_pos s Hs).
  pose proof (Z.div_pos n d Hn Hd). pose proof (Z.div_mod n d ltac:(lia)) as E.
  pose proof (Z.mod_pos_bound n d Hd). split; [done|].
  assert (n <= 2 ^ 53 * (d * 2 ^ s)) as Hup.
  { assert (n / d < 2 ^ (53 + s)) as Hlt.
    { destruct (Z.eq_dec (n / d) 0) as [->|]; [apply pow2_pos; lia|].
      apply Z.log2_lt_pow2; [lia|]. unfold s, spacing. lia. }
    rewrite Z.pow_add_r in Hlt by lia. set (C := 2 ^ 53) in *. set (T := 2 ^ s) in *. clearbody C T. nia. }
  split; [split; [apply rne_ge; nia|by apply rne_le; [nia|]]|].
  destruct (Z.eq_dec s 0); [by left|right]. apply rne_ge; [nia|].
  assert (2 ^ (52 + s) <= n / d) as Hge.
  { destruct (Z.eq_dec (n / d) 0) as [E0|]; [unfold s, spacing in *; rewrite E0 in *; cbn in *; lia|].
    transitivity (2 ^ Z.log2 (n / d)); [apply Z.pow_le_mono_r; [lia|unfold s, spacing in *; lia]|].
    apply Z.log2_spec. lia. }
  rewrite Z.pow_add_r in Hge by lia. set (C := 2 ^ 52) in *. set (T := 2 ^ s) in *. clearbody C T. nia.
Qed.

Lemma canon_units (sgn : bool) (k s : Z) : 0 <= s -> 0 <= k <= 2 ^ 53 ->
  k * 2 ^ s < 2 ^ 2098 -> (s = 0 \/ 2 ^ 52 <= k) ->
  is_finite (canon sgn k s) = true /\ units (canon sgn k s) = (if sgn then -1 else 1) * (k * 2 ^ s).
Proof.
  intros Hs Hk Hmax Hnorm. unfold canon.
  assert (s = 0 \/ s + 52 < 2098) as Hs'.
  { destruct Hnorm as [|Hn]; [by left|right]. apply (Z.pow_lt_mono_r_iff 2); [lia|lia|].
    rewrite Z.pow_add_r by lia. pose proof (pow2_pos s Hs).
    set (C := 2 ^ 2098) in *. set (T := 2 ^ s) in *. clearbody C T. nia. }
  destruct (Z.eqb_spec k (2 ^ 53)) as [->|Hne].
  - assert (s + 53 < 2098).
    { apply (Z.pow_lt_mono_r_iff 2); [lia|lia|]. rewrite Z.pow_add_r by lia. lia. }
    destruct (Z.leb_spec (s - 1073) 971); [|lia]. change (2 ^ 52) with (Z.pos (2 ^ 52)). cbv iota beta.
    split; [done|]. unfold units. replace (s - 1073 + 1074) with (1 + s) by lia.
    rewrite Z.pow_add_r by lia. change (Z.pos (2 ^ 52)) with (2 ^ 52). change (2 ^ 53) with (2 ^ 52 * 2 ^ 1). ring.
  - destruct k as [|p|p]; [|destruct (Z.leb_spec (s - 1074) 971); [|lia]|lia].
    + split; [done|]. cbn [units]. lia.
    + split; [done|]. unfold units. by replace (s - 1074 + 1074) with s by lia.
Qed.

Lemma canon_valid (sgn : bool) (k s : Z) : 0 <= s -> 0 <= k <= 2 ^ 53 -> (s = 0 \/ 2 ^ 52 <= k) ->
  valid (canon sgn k s).
Proof.
  intros Hs Hk Hnorm. unfold canon. destruct (Z.eqb_spec k (2 ^ 53)) as [->|Hne].
  - change (2 ^ 52) with (Z.pos (2 ^ 52)). cbv iota beta. destruct (Z.leb_spec (s - 1073) 971); [|done].
    apply valid_finite. right. split; [done|lia].
  - destruct k as [|p|p]; [done| |done]. destruct (Z.leb_spec (s - 1074) 971); [|done].
    apply valid_finite. destruct (Z.lt_ge_cases (Z.pos p) (2 ^ 52)); [left; lia|right; lia].
Qed.

Lemma round_units_valid (sgn : bool) (n d : Z) : 0 <= n -> 0 < d -> valid (round_units sgn n d).
Proof.
  intros Hn Hd. destruct (round_units_mantissa n d Hn Hd) as (Hs & Hk & Hz). by apply canon_valid.
Qed.

Lemma fits_max (v : Z) : fits v -> v < 2 ^ 2098.
Proof.
  intros (m & t & -> & Hm & Ht). assert (2 ^ t <= 2 ^ 2045) by (apply Z.pow_le_mono_r; lia).
  pose proof (pow2_pos t ltac:(lia)). change 2098 with (53 + 2045). rewrite Z.pow_add_r by lia.
  set (T := 2 ^ t) in *. set (U := 2 ^ 2045) in *. set (C := 2 ^ 53) in *. clearbody T U C. nia.
Qed.

(** Rounding never crosses the value of a double. *)
Lemma round_mantissa_le (n d Y : Z) : 0 <= n -> 0 < d -> fits Y -> n <= Y * d ->
  let s := spacing (n / d) in rne n (d * 2 ^ s) * 2 ^ s <= Y.
Proof.
  intros Hn Hd HY Hle s. destruct (round_units_mantissa n d Hn Hd) as (Hs & Hk & _). fold s in Hs, Hk.
  pose proof (pow2_pos s Hs).
  destruct (Z.le_gt_cases (2 ^ (52 + s)) Y) as [Hbig|Hsmall].
  - destruct (fits_grid Y s HY Hs Hbig) as [j ->].
    assert (rne n (d * 2 ^ s) <= j); [apply rne_le; nia|nia].
  - destruct (Z.eq_dec s 0) as [->|].
    + change (2 ^ 0) with 1 in *. rewrite !Z.mul_1_r in *. by apply rne_le.
    + exfalso. assert (2 ^ (52 + s) <= n / d) as Hge.
      { destruct (Z.eq_dec (n / d) 0) as [E0|]; [unfold s, spacing in *; rewrite E0 in *; cbn in *; lia|].
        pose proof (Z.div_pos n d Hn Hd).
        transitivity (2 ^ Z.log2 (n / d)); [apply Z.pow_le_mono_r; [lia|unfold s, spacing in *; lia]|].
        apply Z.log2_spec. lia. }
      assert (n / d <= Y); [|lia]. apply Z.div_le_upper_bound; lia.
Qed.

Lemma round_mantissa_ge (n d Y : Z) : 0 <= n -> 0 < d -> fits Y -> Y * d <= n ->
  let s := spacing (n / d) in Y <= rne n (d * 2 ^ s) * 2 ^ s.
Proof.
  intros Hn Hd HY Hle s. destruct (round_units_mantissa n d Hn Hd) as (Hs & Hk & Hz).
  fold s in Hs, Hk, Hz. pose proof (pow2_pos s Hs).
  destruct (Z.le_gt_cases (2 ^ (52 + s)) Y) as [Hbig|Hsmall].
  - destruct (fits_grid Y s HY Hs Hbig) as [j ->].
    assert (j <= rne n (d * 2 ^ s)); [apply rne_ge; nia|nia].
  - destruct Hz as [->|Hz].
    + change (2 ^ 0) with 1 in *. rewrite !Z.mul_1_r in *. by apply rne_ge.
    + rewrite Z.pow_add_r in Hsmall by lia. nia.
Qed.

Lemma round_units_le (n d Y : Z) : 0 <= n -> 0 < d -> fits Y -> n <= Y * d ->
  is_finite (round_units false n d) = true /\ 0 <= units (round_units false n d) <= Y.
Proof.
  intros Hn Hd HY Hle. pose proof (round_mantissa_le n d Y Hn Hd HY Hle) as H. cbv zeta in H.
  destruct (round_units_mantissa n d Hn Hd) as (Hs & Hk & Hz).
  pose proof (fits_max Y HY). pose proof (pow2_pos (spacing (n / d)) Hs).
  destruct (canon_units false _ _ Hs Hk ltac:(lia) Hz) as [Hf Hu].
  unfold round_units. split; [done|]. rewrite Hu. nia.
Qed.

Lemma round_units_finite (sgn : bool) (n d : Z) : 0 <= n -> 0 < d ->
  is_finite (round_units sgn n d) = true ->
  let s := spacing (n / d) in
  units (round_units sgn n d) = (if sgn then -1 else 1) * (rne n (d * 2 ^ s) * 2 ^ s).
Proof.
  intros Hn Hd Hfin s. destruct (round_units_mantissa n d Hn Hd) as (Hs & Hk & Hz).
  fold s in Hs, Hk, Hz. unfold round_units in *. fold s in Hfin |- *. cbv zeta in *.
  set (k := rne n (d * 2 ^ s)) in *. clearbody k. clearbody s.
  apply canon_units; [done|done| |done]. unfold canon in Hfin. pose proof (pow2_pos s Hs).
  destruct (k =? 2 ^ 53) eqn:Ek.
  - apply Z.eqb_eq in Ek. rewrite Ek. change (2 ^ 52) with (Z.pos (2 ^ 52)) in Hfin. cbv iota beta in Hfin.
    destruct (Z.leb_spec (s - 1073) 971); [|done]. rewrite <- Z.pow_add_r by lia.
    apply Z.pow_lt_mono_r; lia.
  - apply Z.eqb_neq in Ek. destruct k as [|p|p]; [|destruct (Z.leb_spec (s - 1074) 971); [|done]|lia].
    + rewrite Z.mul_0_l. by apply pow2_pos.
    + assert (2 ^ s <= 2 ^ 2045) by (apply Z.pow_le_mono_r; lia). change 2098 with (53 + 2045).
      rewrite Z.pow_add_r by lia. assert (Z.pos p < 2 ^ 53) by lia.
      set (T := 2 ^ s) in *. set (U := 2 ^ 2045) in *. set (C := 2 ^ 53) in *. clearbody T U C. nia.
Qed.

Lemma round_units_ge (n d Y : Z) : 0 <= n -> 0 < d -> fits Y -> Y * d <= n ->
  is_finite (round_units false n d) = true -> Y <= units (round_units false n d).
Proof.
  intros Hn Hd HY Hle Hfin. rewrite round_units_finite, Z.mul_1_l by done. by apply round_mantissa_ge.
Qed.

(** The non-negative finite doubles. *)
Definition pos_double (x : dbl) : Prop :=
  valid x /\ match x with S754_zero false | S754_finite false _ _ => True | _ => False end.

Lemma pos_double_fits (x : dbl) : pos_double x -> fits (units x).
Proof.
  intros [Hv Hx]. destruct x as [[]|?| |[] m e]; try done.
  - exists 0, 0. cbn. lia.
  - apply valid_finite in Hv. exists (Z.pos m), (e + 1074). unfold units. lia.
Qed.

Lemma pos_double_nonneg (x : dbl) : pos_double x -> 0 <= units x.
Proof. intros (m & t & -> & Hm & Ht)%pos_double_fits. pose proof (pow2_pos t). nia. Qed.

Lemma units_lt (m m' : positive) (e e' : Z) :
  valid (S754_finite false m e) -> valid (S754_finite false m' e') -> e < e' ->
  Z.pos m * 2 ^ (e + 1074) < Z.pos m' * 2 ^ (e' + 1074).
Proof.
  intros H H' He. apply valid_finite in H, H'.
  assert (2 ^ (e' + 1074) = 2 ^ (e' - e - 1) * 2 * 2 ^ (e + 1074)) as ->.
  { change 2 with (2 ^ 1) at 3. rewrite <- !Z.pow_add_r by lia. f_equal. lia. }
  pose proof (pow2_pos (e' - e - 1) ltac:(lia)). pose proof (pow2_pos (e + 1074) ltac:(lia)).
  set (T := 2 ^ (e + 1074)) in *. set (U := 2 ^ (e' - e - 1)) in *. clearbody T U.
  assert (Z.pos m < Z.pos m' * (U * 2)) by (change (2 ^ 53) with (2 ^ 52 * 2) in *; nia). nia.
Qed.

Lemma dlt_units (x y : dbl) : pos_double x -> pos_double y -> dlt x y = (units x <? units y).
Proof.
  intros [Vx Hx] [Vy Hy]. unfold dlt, SFltb, SFcompare.
  destruct x as [[]|?| |[] m e], y as [[]|?| |[] m' e']; try done.
  - symmetry. apply Z.ltb_lt. unfold units. apply valid_finite in Vy.
    pose proof (pow2_pos (e' + 1074) ltac:(lia)). nia.
  - symmetry. apply Z.ltb_ge. unfold units. apply valid_finite in Vx.
    pose proof (pow2_pos (e + 1074) ltac:(lia)). nia.
  - unfold units. destruct (Z.compare_spec e e') as [->|Hlt|Hgt].
    + change (Pos.compare_cont Eq m m') with (m ?= m')%positive. apply valid_finite in Vx.
      pose proof (pow2_pos (e' + 1074) ltac:(lia)). symmetry.
      destruct (Pos.compare_spec m m'); [subst; apply Z.ltb_irrefl|apply Z.ltb_lt; nia|apply Z.ltb_ge; nia].
    + symmetry. apply Z.ltb_lt. pose proof (units_lt m m' e e' Vx Vy Hlt). lia.
    + symmetry. apply Z.ltb_ge. pose proof (units_lt m' m e' e Vy Vx Hgt). lia.
Qed.

Lemma units_inj (x y : dbl) : pos_double x -> pos_double y -> units x = units y -> x = y.
Proof.
  intros [Vx Hx] [Vy Hy] E. destruct x as [[]|?| |[] m e], y as [[]|?| |[] m' e']; try done; unfold units in E.
  - apply valid_finite in Vy. pose proof (pow2_pos (e' + 1074) ltac:(lia)). nia.
  - apply valid_finite in Vx. pose proof (pow2_pos (e + 1074) ltac:(lia)). nia.
  - destruct (Z.lt_trichotomy e e') as [Hlt|[->|Hgt]].
    + pose proof (units_lt m m' e e' Vx Vy Hlt). lia.
    + apply valid_finite in Vx. pose proof (pow2_pos (e' + 1074) ltac:(lia)). f_equal. nia.
    + pose proof (units_lt m' m e' e Vy Vx Hgt). lia.
Qed.

(** ** The nearest double *)

Lemma rne_closest (n d j : Z) : 0 < d -> Z.abs (n - rne n d * d) <= Z.abs (n - j * d).
Proof.
  intros Hd. destruct (rne_spec n d Hd) as [H _]. destruct (Z.eq_dec j (rne n d)) as [->|]; [done|].
  assert (d <= Z.abs (rne n d * d - j * d)) by nia. lia.
Qed.

(** No double is closer to the exact value than the result. *)
Lemma round_mantissa_closest (n d Y : Z) : 0 <= n -> 0 < d -> fits Y ->
  let s := spacing (n / d) in
  Z.abs (n - rne n (d * 2 ^ s) * 2 ^ s * d) <= Z.abs (n - Y * d).
Proof.
  intros Hn Hd HY s. destruct (round_units_mantissa n d Hn Hd) as (Hs & Hk & Hz).
  fold s in Hs, Hk, Hz. pose proof (pow2_pos s Hs) as Hp.
  assert (forall j, Z.abs (n - rne n (d * 2 ^ s) * 2 ^ s * d) <= Z.abs (n - j * 2 ^ s * d)) as Hc.
  { intros j. pose proof (rne_closest n (d * 2 ^ s) j ltac:(nia)) as Hr.
    replace (rne n (d * 2 ^ s) * 2 ^ s * d) with (rne n (d * 2 ^ s) * (d * 2 ^ s)) by ring.
    by replace (j * 2 ^ s * d) with (j * (d * 2 ^ s)) by ring. }
  destruct (Z.le_gt_cases (2 ^ (52 + s)) Y) as [Hbig|Hsmall].
  - destruct (fits_grid Y s HY Hs Hbig) as [j ->]. apply Hc.
  - destruct (Z.eq_dec s 0) as [E0|].
    + specialize (Hc Y). rewrite E0 in *. change (2 ^ 0) with 1 in *. by rewrite !Z.mul_1_r in *.
    + assert (2 ^ (52 + s) <= n / d) as Hge.
      { destruct (Z.eq_dec (n / d) 0) as [E0|]; [unfold s, spacing in *; rewrite E0 in *; cbn in *; lia|].
        pose proof (Z.div_pos n d Hn Hd).
        transitivity (2 ^ Z.log2 (n / d)); [apply Z.pow_le_mono_r; [lia|unfold s, spacing in *; lia]|].
        apply Z.log2_spec. lia. }
      specialize (Hc (2 ^ 52)). rewrite <- Z.pow_add_r in Hc by lia.
      pose proof (Z.div_mod n d ltac:(lia)). pose proof (Z.mod_pos_bound n d Hd).
      set (T := 2 ^ (52 + s)) in *. clearbody T. set (q := n / d) in *. clearbody q.
      assert (T * d <= n) by nia. assert (Y * d <= T * d) by nia. lia.
Qed.

Lemma round_units_pos (n d : Z) : 0 <= n -> 0 < d -> is_finite (round_units false n d) = true ->
  pos_double (round_units false n d).
Proof.
  intros Hn Hd Hf. split; [by apply round_units_valid|].
  revert Hf. unfold round_units, canon. destruct (_ =? _).
  - change (2 ^ 52) with (Z.pos (2 ^ 52)). cbv iota beta. by destruct (_ <=? _).
  - destruct (rne _ _); [done| |done]. by destruct (_ <=? _).
Qed.

Lemma round_units_closest (n d Y : Z) : 0 <= n -> 0 < d -> fits Y ->
  is_finite (round_units false n d) = true ->
  Z.abs (n - units (round_units false n d) * d) <= Z.abs (n - Y * d).
Proof.
  intros Hn Hd HY Hfin. rewrite round_units_finite, Z.mul_1_l by done. by apply round_mantissa_closest.
Qed.

(** A value that is a double is not changed. *)
Lemma round_units_exact (V : Z) : fits V ->
  pos_double (round_units false V 1) /\ units (round_units false V 1) = V.
Proof.
  intros HV. assert (0 <= V) as H0 by (destruct HV as (m & t & -> & ? & ?); pose proof (pow2_pos t); nia).
  destruct (round_units_le V 1 V ltac:(lia) ltac:(lia) HV ltac:(lia)) as [Hf Hle].
  pose proof (round_units_ge V 1 V ltac:(lia) ltac:(lia) HV ltac:(lia) Hf).
  split; [apply round_units_pos; [lia|lia|done]|lia].
Qed.

Lemma round_units_id (x : dbl) : pos_double x -> round_units false (units x) 1 = x.
Proof.
  intros Hx. destruct (round_units_exact (units x) (pos_double_fits x Hx)) as [Hp E].
  by apply units_inj.
Qed.

(** A sum of non-negative doubles rounds the exact sum. *)
Lemma pow2_units_nonneg (m e : Z) : -1074 <= e -> pow2_units false m e = round_units false (m * 2 ^ (e + 1074)) 1.
Proof.
  intros He. unfold pow2_units. replace (Z.max 0 (e + 1074)) with (e + 1074) by lia.
  by replace (Z.max 0 (- (e + 1074))) with 0 by lia.
Qed.

Lemma dadd_units (x y : dbl) : pos_double x -> pos_double y ->
  dadd x y = round_units false (units x + units y) 1.
Proof.
  intros Hx Hy. pose proof Hx as [Vx Sx]. pose proof Hy as [Vy Sy].
  destruct x as [[]|?| |[] mx ex]; try done; destruct y as [[]|?| |[] my ey]; try done.
  - cbn [dadd SFadd]. change (units (S754_zero false)) with 0. rewrite Z.add_0_l. symmetry. by apply round_units_id.
  - cbn [dadd SFadd]. change (units (S754_zero false)) with 0. rewrite Z.add_0_r. symmetry. by apply round_units_id.
  - unfold dadd, SFadd, units. apply valid_finite in Vx, Vy.
    pose proof (shl_align_spec mx ex (Z.min ex ey)) as H1. pose proof (shl_align_spec my ey (Z.min ex ey)) as H2.
    destruct (shl_align mx ex (Z.min ex ey)) as [mx' ?], (shl_align my ey (Z.min ex ey)) as [my' ?].
    destruct H1 as [-> H1], H2 as [-> H2]. cbn [fst cond_Zopp]. unfold binary_normalize.
    replace (Z.min ex (Z.min ex ey)) with (Z.min ex ey) in H1 by lia.
    replace (Z.min ey (Z.min ex ey)) with (Z.min ex ey) in H2 by lia.
    destruct (Z.pos mx' + Z.pos my') as [|p|p] eqn:E; [lia| |lia].
    rewrite binary_round_units, pow2_units_nonneg, <- E, H1, H2 by lia. f_equal.
    rewrite Z.mul_add_distr_r, <- !Z.mul_assoc, <- !Z.pow_add_r by lia.
    assert (forall a, a - Z.min ex ey + (Z.min ex ey + 1074) = a + 1074) as Ea by lia.
    rewrite !Ea. cbn [negb]. lia.
Qed.

Lemma dmul_units (x y : dbl) : pos_double x -> pos_double y ->
  dmul x y = round_units false (units x * units y) (2 ^ 1074).
Proof.
  intros [Vx Sx] [Vy Sy].
  destruct x as [[]|?| |[] mx ex]; try done; destruct y as [[]|?| |[] my ey]; try done.
  { change (units (S754_zero false)) with 0. rewrite Z.mul_0_r, round_units_zero; [done|by apply pow2_pos]. }
  unfold dmul, SFmul. apply valid_finite in Vx, Vy. cbn [xorb].
  rewrite (binary_round_aux_units false _ _ (Z.pos (mx * my)) 1).
  - unfold units. pose proof (pow2_pos (ex + 1074) ltac:(lia)). pose proof (pow2_pos (ey + 1074) ltac:(lia)).
    pose proof (pow2_pos (Z.max 0 (- (ex + ey + 1074))) ltac:(lia)).
    apply round_units_cross; [lia|apply pow2_pos; lia|].
    rewrite Z.mul_1_l, Pos2Z.inj_mul.
    assert (2 ^ Z.max 0 (ex + ey + 1074) * 2 ^ 1074
            = 2 ^ (ex + 1074) * 2 ^ (ey + 1074) * 2 ^ Z.max 0 (- (ex + ey + 1074))) as E.
    { rewrite <- !Z.pow_add_r by lia. f_equal. lia. }
    transitivity (Z.pos mx * Z.pos my * (2 ^ Z.max 0 (ex + ey + 1074) * 2 ^ 1074)); [ring|].
    rewrite E. ring.
  - lia.
  - lia.
  - by rewrite Z.div_1_r.
  - by rewrite Z.mod_1_r.
  - (* the exponent of a product is at most that of its last bit *)
    unfold fexp, emin. rewrite Zdigits2_log2 by lia. pose proof (Z.log2_nonneg (Z.pos (mx * my))) as Hl0.
    assert (2 ^ 52 <= Z.pos mx \/ 2 ^ 52 <= Z.pos my -> 52 <= Z.log2 (Z.pos (mx * my))) as Hl.
    { intros Hor. apply Z.log2_le_pow2; [lia|]. rewrite Pos2Z.inj_mul. nia. }
    destruct (Z.le_gt_cases (2 ^ 52) (Z.pos mx)) as [H|H];
      [specialize (Hl (or_introl H)); lia|].
    destruct (Z.le_gt_cases (2 ^ 52) (Z.pos my)) as [H'|H']; [specialize (Hl (or_intror H')); lia|lia].
Qed.

(** ** The reference rounding of rationals *)

Lemma canon_round (k s : Z) : 0 <= s -> 0 <= k <= 2 ^ 53 -> (s = 0 \/ 2 ^ 52 <= k) ->
  round_units false (k * 2 ^ s) 1 = canon false k s.
Proof.
  intros Hs Hk Hz. unfold round_units. rewrite Z.div_1_r, Z.mul_1_l. pose proof (pow2_pos s Hs) as Hp.
  destruct (Z.eq_dec k 0) as [->|Hk0].
  { rewrite Z.mul_0_l. change (spacing 0) with 0. rewrite rne_zero by lia.
    destruct Hz as [->|]; [done|lia]. }
  assert (spacing (k * 2 ^ s) = Z.max 0 (Z.log2 k + s - 52)) as ->.
  { unfold spacing. rewrite Z.log2_mul_pow2 by lia. lia. }
  destruct (Z.eq_dec k (2 ^ 53)) as [->|Hk53].
  - change (Z.log2 (2 ^ 53)) with 53. replace (Z.max 0 (53 + s - 52)) with (s + 1) by lia.
    replace (2 ^ 53 * 2 ^ s) with (2 ^ 52 * 2 ^ (s + 1)) by (rewrite Z.pow_add_r by lia; ring).
    rewrite rne_exact by (apply pow2_pos; lia). unfold canon. change (2 ^ 52 =? 2 ^ 53) with false.
    change (2 ^ 53 =? 2 ^ 53) with true. cbv iota beta. by replace (s + 1 - 1074) with (s - 1073) by lia.
  - assert (Z.max 0 (Z.log2 k + s - 52) = s) as ->.
    { assert (Z.log2 k < 53) by (apply Z.log2_lt_pow2; lia).
      destruct Hz as [->|Hz]; [lia|]. assert (52 <= Z.log2 k) by (apply Z.log2_le_pow2; lia). lia. }
    by rewrite rne_exact.
Qed.

Lemma d_of_Z_exact (k : Z) : 0 <= k <= 2 ^ 53 ->
  pos_double (d_of_Z k) /\ units (d_of_Z k) = k * 2 ^ 1074.
Proof.
  intros Hk. rewrite d_of_Z_units by lia. apply round_units_exact.
  destruct (Z.eq_dec k (2 ^ 53)) as [->|]; [|by exists k, 1074; lia].
  exists (2 ^ 52), 1075. split; [|lia]. change 1075 with (1 + 1074). rewrite Z.pow_add_r by lia. ring.
Qed.

(** [ldexp] of an integer of at most 53 bits. *)
Lemma dldexp_d_of_Z (k e : Z) : 0 <= k <= 2 ^ 53 -> -1074 <= e -> (e = -1074 \/ 2 ^ 52 <= k) ->
  dldexp (d_of_Z k) e = canon false k (e + 1074).
Proof.
  intros Hk He Hz. rewrite <- canon_round by lia. destruct (d_of_Z_exact k Hk) as [[V S] U].
  destruct (d_of_Z k) as [[]|?| |[] m e0]; try done; unfold units in U.
  - assert (k = 0) as -> by (pose proof (pow2_pos 1074); lia). by rewrite round_units_zero.
  - rewrite dldexp_units. unfold pow2_units. apply valid_finite in V.
    apply round_units_cross; [apply pow2_pos; lia|lia|].
    rewrite Z.mul_1_l in U. rewrite Z.mul_1_r.
    assert (2 ^ 1074 <> 0) by (pose proof (pow2_pos 1074); lia).
    apply (Z.mul_reg_r _ _ (2 ^ 1074)); [done|].
    transitivity (k * 2 ^ 1074 * 2 ^ (e + 1074) * 2 ^ Z.max 0 (- (e0 + e + 1074))); [|ring].
    rewrite <- U.
    assert (2 ^ Z.max 0 (e0 + e + 1074) * 2 ^ 1074
            = 2 ^ (e0 + 1074) * 2 ^ (e + 1074) * 2 ^ Z.max 0 (- (e0 + e + 1074))) as E.
    { rewrite <- !Z.pow_add_r by lia. f_equal. lia. }
    rewrite <- Z.mul_assoc, E. ring.
Qed.

(** [nearest_double] is the rounding of [p / q], expressed in units. *)
Lemma nearest_double_units (p q : Z) : 0 < p -> 0 < q ->
  nearest_double p q = round_units false (p * 2 ^ 1074) q.
Proof.
  intros Hp Hq. destruct (floor_log2_spec p q Hp Hq) as [H1 H2]. unfold nearest_double.
  set (x := floor_log2 p q) in *. clearbody x. pose proof (pow2_pos 1074 ltac:(lia)) as HT.
  assert (spacing (p * 2 ^ 1074 / q) = last_bit x + 1074) as Es.
  { unfold spacing, last_bit. apply not_true_iff_false in H2.
    destruct (Z.le_gt_cases (-1074) x) as [Hx|Hx].
    - rewrite (pow2_le_iff 1074) in H1, H2 by lia.
      assert (Z.log2 (p * 2 ^ 1074 / q) = x + 1074) as ->; [|lia].
      apply Z.log2_unique; [lia|]. rewrite Z.pow_succ_r by lia.
      replace (x + 1 + 1074) with (1 + (x + 1074)) in H2 by lia. rewrite Z.pow_add_r in H2 by lia.
      set (P := p * 2 ^ 1074) in *. set (T := 2 ^ (x + 1074)) in *. clearbody P T.
      split; [apply Z.div_le_lower_bound; lia|apply Z.div_lt_upper_bound; lia].
    - assert (p * 2 ^ 1074 < q) as Hlt.
      { destruct (Z.lt_ge_cases (p * 2 ^ 1074) q); [done|exfalso]. apply H2.
        apply (pow2_le_mono (x + 1) (-1074)); [lia|lia|]. apply (pow2_le_iff 1074); [lia|lia|].
        change (2 ^ (-1074 + 1074)) with 1. lia. }
      rewrite Z.div_small by nia. change (Z.log2 0) with 0. lia. }
  destruct (round_units_mantissa (p * 2 ^ 1074) q ltac:(nia) Hq) as (Hs & Hk & Hz).
  unfold round_units. rewrite Es in *. rewrite (rne_scaled_eq 1074) by (unfold last_bit; lia).
  set (k := rne (p * 2 ^ 1074) (q * 2 ^ (last_bit x + 1074))) in *. clearbody k.
  destruct (Z.ltb_spec 1023 x).
  - destruct Hz as [Hz|Hz]; [unfold last_bit in Hz; lia|]. unfold canon.
    destruct (k =? 2 ^ 53).
    + change (2 ^ 52) with (Z.pos (2 ^ 52)). cbv iota beta.
      destruct (Z.leb_spec (last_bit x + 1074 - 1073) 971); [unfold last_bit in *; lia|done].
    + destruct k as [|k|k]; [lia| |lia].
      destruct (Z.leb_spec (last_bit x + 1074 - 1074) 971); [unfold last_bit in *; lia|done].
  - apply dldexp_d_of_Z; [done|lia|lia].
Qed.

(** A rational is rounded to infinity from half way to the next power of two on. *)
Definition overflow_units : Z := (2 ^ 54 - 1) * 2 ^ 2044.

Lemma round_units_overflow (n d : Z) : 0 <= n -> 0 < d ->
  is_finite (round_units false n d) = false <-> overflow_units * d <= n.
Proof.
  intros Hn Hd. destruct (round_units_mantissa n d Hn Hd) as (Hs & Hk & Hz).
  unfold round_units. set (s := spacing (n / d)) in *. set (k := rne n (d * 2 ^ s)) in *.
  assert (is_finite (canon false k s) = false <-> (s = 2045 /\ k = 2 ^ 53) \/ 2046 <= s) as ->.
  { unfold canon. destruct (k =? 2 ^ 53) eqn:Ek.
    - apply Z.eqb_eq in Ek. change (2 ^ 52) with (Z.pos (2 ^ 52)). cbv iota beta.
      destruct (Z.leb_spec (s - 1073) 971); cbn [is_finite]; [split; [done|lia]|split; [|done]; lia].
    - apply Z.eqb_neq in Ek. destruct k as [|p|p]; [cbn [is_finite]; split; [done|lia]| |lia].
      destruct (Z.leb_spec (s - 1074) 971); cbn [is_finite]; split; try done; lia. }
  pose proof (Z.div_mod n d ltac:(lia)) as E. pose proof (Z.mod_pos_bound n d Hd).
  assert (forall j, 0 <= j -> j + 52 <= s + 52 -> 0 < j -> 2 ^ (52 + j) <= n / d) as Hbig.
  { intros j H0 Hj Hj'. assert (n / d <> 0) as Hne.
    { intros E0. unfold s, spacing in *. rewrite E0 in *. cbn in *. lia. }
    pose proof (Z.div_pos n d Hn Hd).
    transitivity (2 ^ Z.log2 (n / d)); [apply Z.pow_le_mono_r; [lia|unfold s, spacing in *; lia]|].
    apply Z.log2_spec. lia. }
  split.
  - intros [[Es Ek]|Hs2].
    + unfold k in Ek. rewrite Es in Ek. destruct (rne_spec n (d * 2 ^ 2045)) as [Hr _]; [lia|].
      rewrite Ek in Hr. unfold overflow_units. change (2 ^ 54) with (2 * 2 ^ 53).
      change 2045 with (1 + 2044) in Hr. rewrite Z.pow_add_r in Hr by lia. change (2 ^ 1) with 2 in Hr.
      set (T := 2 ^ 2044) in *. set (C := 2 ^ 53) in *. clearbody T C. nia.
    + pose proof (Hbig 2046 ltac:(lia) ltac:(lia) ltac:(lia)) as Hge.
      assert (overflow_units <= 2 ^ (52 + 2046)).
      { unfold overflow_units. change (52 + 2046) with (54 + 2044). rewrite Z.pow_add_r by lia.
        pose proof (pow2_pos 2044). nia. }
      set (O := overflow_units) in *. set (T := 2 ^ (52 + 2046)) in *. clearbody O T. nia.
  - intros Hover. assert (2 ^ (53 + 2044) <= n / d) as Hge.
    { apply Z.div_le_lower_bound; [done|]. unfold overflow_units in Hover.
      rewrite Z.pow_add_r by lia. change (2 ^ 54) with (2 * 2 ^ 53) in Hover.
      pose proof (pow2_pos 2044 ltac:(lia)). assert (0 < 2 ^ 53) by done.
      set (T := 2 ^ 2044) in *. set (C := 2 ^ 53) in *. clearbody T C. nia. }
    assert (2097 <= Z.log2 (n / d)).
    { apply Z.log2_le_pow2; [pose proof (pow2_pos (53 + 2044) ltac:(lia)); lia|]. exact Hge. }
    destruct (Z.le_gt_cases 2046 s); [by right|left]. assert (s = 2045) as Es by (unfold s, spacing in *; lia).
    split; [done|]. unfold k. rewrite Es.
    apply Z.le_antisymm; [rewrite <- Es; apply Hk|].
    destruct (rne_spec n (d * 2 ^ 2045)) as [Hr Hev]; [lia|].
    change 2045 with (1 + 2044) in *. rewrite Z.pow_add_r in * by lia. change (2 ^ 1) with 2 in *.
    unfold overflow_units in Hover. change (2 ^ 54) with (2 * 2 ^ 53) in Hover.
    pose proof (pow2_pos 2044 ltac:(lia)). set (T := 2 ^ 2044) in *.
    set (r := rne n (d * (2 * T))) in *. destruct (Z.le_gt_cases (2 ^ 53) r); [done|exfalso].
    assert (r = 2 ^ 53 - 1) as Er.
    { change (2 ^ 53) with 9007199254740992 in *. clearbody T r. nia. }
    specialize (Hev ltac:(rewrite Er; change (2 ^ 53) with 9007199254740992 in *; clearbody T r; nia)).
    rewrite Er in Hev. done.
Qed.

(** ** Rounding is monotone *)

(** A value between another one and the double it rounds to rounds there too. *)
Lemma round_units_below (n d n' d' : Z) (V : dbl) : 0 <= n -> 0 < d -> 0 <= n' -> 0 < d' -> pos_double V ->
  n * d' <= n' * d -> n' <= units V * d' -> round_units false n d = V -> round_units false n' d' = V.
Proof.
  intros Hn Hd Hn' Hd' HV Hle Hup Hr. pose proof (pos_double_fits V HV) as HF.
  destruct (round_units_le n' d' (units V) Hn' Hd' HF Hup) as [Hfin HR].
  pose proof (round_units_pos n' d' Hn' Hd' Hfin) as HP.
  destruct (Z.eq_dec (units (round_units false n' d')) (units V)) as [E|E]; [by apply units_inj|exfalso].
  pose proof (round_units_closest n' d' (units V) Hn' Hd' HF Hfin) as H1.
  assert (is_finite (round_units false n d) = true) as Hfin0.
  { rewrite Hr. destruct HV as [_ HV]. by destruct V as [[]|?| |[] ? ?]. }
  pose proof (round_units_closest n d _ Hn Hd (pos_double_fits _ HP) Hfin0) as H2. rewrite Hr in H2.
  set (R := units (round_units false n' d')) in *. set (U := units V) in *.
  assert (2 * n' <= (R + U) * d') by lia. assert ((R + U) * d <= 2 * n) by nia.
  assert (n * d' = n' * d) as Ec by nia.
  apply E. unfold R, U. rewrite <- Hr. f_equal. symmetry. by apply round_units_cross.
Qed.

Lemma round_units_above (n d n' d' : Z) (V : dbl) : 0 <= n -> 0 < d -> 0 <= n' -> 0 < d' -> pos_double V ->
  n' * d <= n * d' -> units V * d' <= n' -> round_units false n d = V -> round_units false n' d' = V.
Proof.
  intros Hn Hd Hn' Hd' HV Hle Hlow Hr. pose proof (pos_double_fits V HV) as HF.
  assert (is_finite (round_units false n d) = true) as Hfin0.
  { rewrite Hr. destruct HV as [_ HV]. by destruct V as [[]|?| |[] ? ?]. }
  assert (is_finite (round_units false n' d') = true) as Hfin.
  { apply not_false_iff_true. rewrite round_units_overflow by done. intros C.
    apply not_false_iff_true in Hfin0. apply Hfin0. apply round_units_overflow; [done|done|].
    set (O := overflow_units) in *. clearbody O. nia. }
  pose proof (round_units_ge n' d' (units V) Hn' Hd' HF Hlow Hfin) as HR.
  pose proof (round_units_pos n' d' Hn' Hd' Hfin) as HP.
  destruct (Z.eq_dec (units (round_units false n' d')) (units V)) as [E|E]; [by apply units_inj|exfalso].
  pose proof (round_units_closest n' d' (units V) Hn' Hd' HF Hfin) as H1.
  pose proof (round_units_closest n d _ Hn Hd (pos_double_fits _ HP) Hfin0) as H2. rewrite Hr in H2.
  set (R := units (round_units false n' d')) in *. set (U := units V) in *.
  assert ((R + U) * d' <= 2 * n') by nia. assert (2 * n <= (R + U) * d) by nia.
  assert (n * d' = n' * d) as Ec by nia.
  apply E. unfold R, U. rewrite <- Hr. f_equal. symmetry. by apply round_units_cross.
Qed.

(** A value closer to a double than half the gap to its neighbours rounds to it. *)
Lemma round_units_near (n d : Z) (V : dbl) (m : positive) (e g : Z) :
  0 <= n -> 0 < d -> V = S754_finite false m e -> valid V ->
  g = (if Z.pos m =? 2 ^ 52 then 2 ^ (e + 1074) else 2 * 2 ^ (e + 1074)) ->
  4 * Z.abs (n - units V * d) < g * d -> round_units false n d = V.
Proof.
  intros Hn Hd EV Hval Eg Hnear. assert (pos_double V) as HV by (split; [done|by rewrite EV]).
  pose proof (pos_double_fits V HV) as HF. rewrite EV in Hval. apply valid_finite in Hval.
  assert (units V = Z.pos m * 2 ^ (e + 1074)) as HU by (rewrite EV; unfold units; lia).
  pose proof (pow2_pos (e + 1074) ltac:(lia)) as Hp. set (G := 2 ^ (e + 1074)) in *.
  assert (g <= 2 * G) as Hg by (rewrite Eg; destruct (_ =? _); lia).
  assert (is_finite (round_units false n d) = true) as Hfin.
  { apply not_false_iff_true. rewrite round_units_overflow by done. intros C.
    assert (2 * (units V) + G <= 2 * overflow_units) as Hmax.
    { rewrite HU. assert (G <= 2 ^ 2045) by (apply Z.pow_le_mono_r; lia).
      unfold overflow_units. change (2 ^ 2045) with (2 * 2 ^ 2044) in *. change (2 ^ 54) with (2 * 2 ^ 53).
      set (T := 2 ^ 2044) in *. assert (Z.pos m < 2 ^ 53) by lia. set (C53 := 2 ^ 53) in *. clearbody T C53 G. nia. }
    set (O := overflow_units) in *. set (u := units V) in *. clearbody O u G. nia. }
  pose proof (round_units_pos n d Hn Hd Hfin) as HP. pose proof (pos_double_fits _ HP) as HFR.
  pose proof (round_units_closest n d (units V) Hn Hd HF Hfin) as Hc.
  destruct (Z.eq_dec (units (round_units false n d)) (units V)) as [E|E]; [by apply units_inj|exfalso].
  set (R := units (round_units false n d)) in *. clearbody R.
  assert (2 * Z.abs (R - units V) < g) as Hclose.
  { set (u := units V) in *. clearbody u G. nia. }
  (* the doubles around V are multiples of its spacing, or of half of it below a power of two *)
  destruct (Z.le_gt_cases (2 ^ (52 + (e + 1074))) R) as [Hbig|Hsmall].
  - destruct (fits_grid R (e + 1074) HFR ltac:(lia) Hbig) as [j Hj]. fold G in Hj. rewrite HU, Hj in *.
    clearbody G. assert (j <> Z.pos m) by (intros ->; lia). nia.
  - rewrite Z.pow_add_r in Hsmall by lia. fold G in Hsmall.
    assert (e <> -1074 -> 2 ^ 52 <= Z.pos m) as Hm by lia.
    destruct (Z.eq_dec e (-1074)) as [->|He].
    { change G with 1 in *. lia. }
    specialize (Hm He). destruct (Z.eqb_spec (Z.pos m) (2 ^ 52)) as [Em|Em].
    + assert (G = 2 * 2 ^ (e + 1073)) as EG.
      { unfold G. replace (e + 1074) with (1 + (e + 1073)) by lia. rewrite Z.pow_add_r by lia. done. }
      pose proof (pow2_pos (e + 1073) ltac:(lia)) as Hp2.
      destruct (Z.le_gt_cases (2 ^ (52 + (e + 1073))) R) as [Hb2|Hs2].
      * destruct (fits_grid R (e + 1073) HFR ltac:(lia) Hb2) as [j Hj].
        rewrite HU, EG, Hj, Em in *. set (H := 2 ^ (e + 1073)) in *. set (C := 2 ^ 52) in *.
        clearbody H C G. assert (j <> 2 * C) by (intros ->; lia). nia.
      * rewrite Z.pow_add_r in Hs2 by lia. rewrite HU, EG, Em in *. clearbody G.
        set (H := 2 ^ (e + 1073)) in *. change (2 ^ 52) with 4503599627370496 in *. clearbody H. nia.
    + rewrite HU in *. set (C := 2 ^ 52) in *. clearbody C G. nia.
Qed.

(** The quotient of two integers below 2^53. *)
Lemma ddiv_integers (k j : Z) : 0 <= k <= 2 ^ 53 -> 0 < j <= 2 ^ 53 ->
  ddiv (d_of_Z k) (d_of_Z j) = round_units false (k * 2 ^ 1074) j.
Proof.
  intros Hk Hj. destruct (d_of_Z_exact k Hk) as [[Vk Sk] Uk]. destruct (d_of_Z_exact j ltac:(lia)) as [[Vj Sj] Uj].
  pose proof (pow2_pos 1074 ltac:(lia)) as Hp.
  destruct (d_of_Z j) as [[]|?| |[] mj ej]; try done; unfold units in Uj; [nia|].
  destruct (d_of_Z k) as [[]|?| |[] mk ek]; try done; unfold units in Uk.
  { assert (k = 0) as -> by nia. rewrite Z.mul_0_l, round_units_zero by lia. done. }
  pose proof Vk as Vk'. pose proof Vj as Vj'. apply valid_finite in Vk', Vj'.
  rewrite ddiv_units by lia. cbn [xorb]. pose proof (pow2_pos (ej + 1074) ltac:(lia)).
  rewrite Z.mul_1_l in Uj, Uk. rewrite Uj, Uk.
  apply round_units_cross; [nia|lia|]. ring.
Qed.

(** ** Signs *)

Lemma canon_opp (k s : Z) : canon true k s = dopp (canon false k s).
Proof.
  unfold canon. destruct (k =? 2 ^ 53).
  - change (2 ^ 52) with (Z.pos (2 ^ 52)). cbv iota beta. by destruct (_ <=? _).
  - destruct k; [done| |done]. by destruct (_ <=? _).
Qed.

Lemma round_units_opp (n d : Z) : round_units true n d = dopp (round_units false n d).
Proof. apply canon_opp. Qed.

Lemma units_opp (x : dbl) : units (dopp x) = - units x.
Proof. destruct x as [s|s| |s m e]; cbn [dopp SFopp units]; try done. destruct s; cbn [negb]; lia. Qed.
