(* ===== verification/PyDecimalSpec.v ===== *)
(** * The conversion of decimal texts is correctly rounded

    (src/src/diff/PyValue.cpp, [DecimalToDouble]) The long division gives the
    64-bit quotient and a sticky bit, the rounding of the quotient is the
    rounding of the rational, and the cut after 800 digits changes nothing. *)

From Stdlib Require Import ZArith Lia SpecFloat.
From stdpp Require Import base option numbers list.
From S2P Require Import Prelude Dbl Decimal PyBig PyDecimal RoundNearest DblRound.
Local Open Scope Z_scope.

(** ** The long division *)

Lemma lor_bit (Q : Z) (n : nat) :
  Z.lor (Q * 2 ^ Z.of_nat (S n)) (Z.shiftl 1 (Z.of_nat n)) = (2 * Q + 1) * 2 ^ Z.of_nat n.
Proof.
  rewrite <- Z.shiftl_mul_pow2 by lia. rewrite lor_add; [|lia|].
  - rewrite Z.shiftl_mul_pow2, Nat2Z.inj_succ, Z.pow_succ_r by lia. lia.
  - rewrite Z.shiftl_mul_pow2, Nat2Z.inj_succ, Z.pow_succ_r by lia. pose proof (pow2_pos (Z.of_nat n)). lia.
Qed.

Lemma quotient_loop_spec (D : Z) (n : nat) : 0 < D -> forall N Step Q,
  wf_limbs N -> wf_limbs Step ->
  big_value N < D * 2 ^ Z.of_nat n ->
  (forall k, n = S k -> big_value Step = D * 2 ^ Z.of_nat k) ->
  let '(R, Q') := quotient_loop n N Step (Q * 2 ^ Z.of_nat n) in
  wf_limbs R /\ big_value R = big_value N mod D /\
  Q' = Q * 2 ^ Z.of_nat n + big_value N / D.
Proof.
  intros HD. induction n as [|n IH]; intros N Step Q HN HS Hlt Hstep.
  { cbn [quotient_loop]. change (2 ^ Z.of_nat 0) with 1 in *. pose proof (big_value_bounds N (proj1 HN)).
    rewrite Z.mod_small, Z.div_small by lia. split_and!; [done|done|lia]. }
  cbn [quotient_loop]. specialize (Hstep n eq_refl) as HSv.
  destruct (ShiftRightOne_spec Step (proj1 HS)) as [HS' HSv'].
  assert (forall k, n = S k -> big_value (ShiftRightOne Step) = D * 2 ^ Z.of_nat k) as Hstep'.
  { intros k ->. rewrite HSv', HSv, Nat2Z.inj_succ, Z.pow_succ_r by lia.
    replace (D * (2 * 2 ^ Z.of_nat k)) with (D * 2 ^ Z.of_nat k * 2) by lia. by rewrite Z.div_mul. }
  rewrite Compare_spec, HSv by done. rewrite Nat2Z.inj_succ, Z.pow_succ_r in Hlt by lia.
  pose proof (big_value_bounds N (proj1 HN)). pose proof (pow2_pos (Z.of_nat n) ltac:(lia)) as Hp.
  destruct (Z.compare_spec (big_value N) (D * 2 ^ Z.of_nat n)) as [E|E|E]; cbn [Z.leb Z.compare].
  2: { specialize (IH N (ShiftRightOne Step) (2 * Q) HN HS' ltac:(lia) Hstep').
       replace (2 * Q * 2 ^ Z.of_nat n) with (Q * 2 ^ Z.of_nat (S n)) in IH; [exact IH|].
       rewrite Nat2Z.inj_succ, Z.pow_succ_r by lia. lia. }
  all: destruct (Subtract_spec N Step HN HS ltac:(lia)) as [HN' HNv].
  all: rewrite lor_bit.
  all: specialize (IH (Subtract N Step) (ShiftRightOne Step) (2 * Q + 1) HN' HS' ltac:(lia) Hstep').
  all: destruct (quotient_loop n _ _ _) as [R Q'].
  all: destruct IH as (HR & HRv & ->).
  all: split; [done|]; rewrite HRv, HNv, HSv.
  all: rewrite Nat2Z.inj_succ, Z.pow_succ_r by lia.
  all: rewrite (Z.mul_comm D).
  all: replace (big_value N - 2 ^ Z.of_nat n * D) with (big_value N + - 2 ^ Z.of_nat n * D) by lia.
  all: rewrite Z.mod_add, Z.div_add by lia; lia.
Qed.

(** ** Leading zeros *)

Lemma clz_loop_spec (n : nat) : forall v, 0 <= v < 2 ^ Z.of_nat n ->
  clz_loop n v = if v =? 0 then Z.of_nat n else Z.of_nat n - 1 - Z.log2 v.
Proof.
  induction n as [|n IH]; intros v Hv.
  { change (2 ^ Z.of_nat 0) with 1 in Hv. by replace v with 0 by lia. }
  cbn [clz_loop]. pose proof (pow2_pos (Z.of_nat n) ltac:(lia)).
  rewrite Nat2Z.inj_succ, Z.pow_succ_r in Hv by lia.
  assert (Z.land v (Z.shiftl 1 (Z.of_nat n)) = 0 <-> v < 2 ^ Z.of_nat n) as Hland.
  { destruct (Z.ltb_spec v (2 ^ Z.of_nat n)) as [Hlt|Hge]; split; try lia.
    - intros _. apply Z.bits_inj_0. intros i. rewrite Z.land_spec.
      destruct (Z.ltb_spec i (Z.of_nat n)); [by rewrite Z.shiftl_spec_low, andb_false_r by lia|].
      destruct (decide (v = 0)) as [->|]; [by rewrite Z.bits_0|].
      rewrite Z.bits_above_log2; [done|lia|]. assert (Z.log2 v < Z.of_nat n) by (apply Z.log2_lt_pow2; lia). lia.
    - intros E. exfalso. assert (Z.testbit (Z.land v (Z.shiftl 1 (Z.of_nat n))) (Z.of_nat n) = false) as C
        by (rewrite E; apply Z.bits_0).
      rewrite Z.land_spec, Z.shiftl_spec, Z.sub_diag in C by lia.
      assert (Z.of_nat n = Z.log2 v) as En.
      { symmetry. apply Z.log2_unique; [lia|]. rewrite Z.pow_succ_r by lia. lia. }
      rewrite En, Z.bit_log2 in C by lia. done. }
  destruct (Z.eqb_spec (Z.land v (Z.shiftl 1 (Z.of_nat n))) 0) as [E|E].
  - rewrite IH by tauto. destruct (Z.eqb_spec v 0); lia.
  - assert (2 ^ Z.of_nat n <= v) by (destruct (Z.ltb_spec v (2 ^ Z.of_nat n)); [tauto|lia]).
    destruct (Z.eqb_spec v 0); [lia|].
    rewrite (Z.log2_unique v (Z.of_nat n)); [lia|lia|]. rewrite Z.pow_succ_r by lia. lia.
Qed.

Lemma quotient_bits (Q : Z) : 0 < Q < 2 ^ 64 -> 64 - CountLeadingZeros64 Q = Z.log2 Q + 1.
Proof.
  intros HQ. unfold CountLeadingZeros64. rewrite (clz_loop_spec 64) by (change (Z.of_nat 64) with 64; lia).
  change (Z.of_nat 64) with 64. destruct (Z.eqb_spec Q 0); lia.
Qed.

(** ** Rounding the quotient rounds the rational *)

Lemma land_one_odd (z : Z) : negb (Z.land z 1 =? 0) = Z.odd z.
Proof.
  change (Z.land z 1) with (Z.land z (Z.ones 1)). rewrite Z.land_ones, Zmod_odd by lia. by destruct (Z.odd z).
Qed.

Lemma round_kept_rne (n d Shift : Z) : 0 < d -> 0 <= n / d < 2 ^ 64 -> 1 <= Shift ->
  round_kept (n / d) Shift (negb (n mod d =? 0)) = rne n (d * 2 ^ Shift).
Proof.
  intros Hd HQ HS. set (Q := n / d) in *.
  pose proof (Z.div_mod n d ltac:(lia)) as En. fold Q in En. pose proof (Z.mod_pos_bound n d Hd) as Hr.
  set (r := n mod d) in *. pose proof (pow2_pos Shift ltac:(lia)) as HpS.
  assert (2 ^ Shift = 2 * 2 ^ (Shift - 1)) as E2.
  { replace Shift with ((Shift - 1) + 1) at 1 by lia. rewrite Z.pow_add_r by lia. lia. }
  pose proof (pow2_pos (Shift - 1) ltac:(lia)) as HpH.
  pose proof (Z.div_mod Q (2 ^ Shift) ltac:(lia)) as EQ. pose proof (Z.mod_pos_bound Q (2 ^ Shift) HpS) as HD.
  set (kept := Q / 2 ^ Shift) in *. set (dropped := Q mod 2 ^ Shift) in *.
  assert (n / (d * 2 ^ Shift) = kept /\ n mod (d * 2 ^ Shift) = dropped * d + r) as [Eq Er].
  { split; [symmetry; apply (Z.div_unique_pos _ _ _ (dropped * d + r))|
            symmetry; apply (Z.mod_unique_pos _ _ kept)]; nia. }
  (* the rounding decision in terms of the dropped bits *)
  assert ((d * 2 ^ Shift <? 2 * (dropped * d + r)) =
          ((2 ^ (Shift - 1) <? dropped) || ((dropped =? 2 ^ (Shift - 1)) && negb (r =? 0)))) as Hup.
  { rewrite E2. destruct (Z.ltb_spec (2 ^ (Shift - 1)) dropped); cbn [orb].
    - apply Z.ltb_lt. nia.
    - destruct (Z.eqb_spec dropped (2 ^ (Shift - 1))) as [->|]; cbn [andb].
      + destruct (Z.eqb_spec r 0) as [->|]; cbn [negb]; [apply Z.ltb_ge; nia|apply Z.ltb_lt; nia].
      + apply Z.ltb_ge. nia. }
  assert ((2 * (dropped * d + r) =? d * 2 ^ Shift) = ((dropped =? 2 ^ (Shift - 1)) && (r =? 0))) as Htie.
  { rewrite E2. destruct (Z.eqb_spec dropped (2 ^ (Shift - 1))) as [->|]; cbn [andb].
    - destruct (Z.eqb_spec r 0) as [->|]; [apply Z.eqb_eq; nia|apply Z.eqb_neq; nia].
    - apply Z.eqb_neq. nia. }
  unfold rne. rewrite Eq, Er, Hup, Htie. unfold round_kept.
  destruct (Z.ltb_spec Shift 64) as [Hlt|Hge].
  - rewrite land_one_odd. rewrite Z.shiftr_div_pow2 by lia. fold kept.
    assert (Z.land Q (w64 (Z.shiftl 1 Shift) - 1) = dropped) as ->.
    { rewrite w64_small.
      - rewrite Z.shiftl_mul_pow2, Z.mul_1_l by lia.
        replace (2 ^ Shift - 1) with (Z.ones Shift) by (rewrite Z.ones_equiv; lia).
        by rewrite Z.land_ones by lia.
      - rewrite Z.shiftl_mul_pow2, Z.mul_1_l by lia. split; [lia|]. apply Z.pow_lt_mono_r; lia. }
    rewrite Z.shiftl_mul_pow2, Z.mul_1_l by lia.
    destruct (2 ^ (Shift - 1) <? dropped), (dropped =? 2 ^ (Shift - 1)), (r =? 0); cbn; try done.
  - assert (Q < 2 ^ Shift) by (pose proof (Z.pow_le_mono_r 2 64 Shift ltac:(lia) ltac:(lia)); lia).
    assert (kept = 0 /\ dropped = Q) as [-> ->] by (split; [apply Z.div_small|apply Z.mod_small]; lia).
    destruct (Z.eqb_spec Shift 64) as [->|Hne].
    + change (Z.shiftl 1 63) with (2 ^ (64 - 1)).
      destruct (2 ^ (64 - 1) <? Q), (Q =? 2 ^ (64 - 1)), (r =? 0); done.
    + assert (2 ^ 64 <= 2 ^ (Shift - 1)) by (apply Z.pow_le_mono_r; lia).
      destruct (Z.ltb_spec (2 ^ (Shift - 1)) Q); [lia|]. destruct (Z.eqb_spec Q (2 ^ (Shift - 1))); [lia|done].
Qed.

Lemma round_quotient_nearest (Negative : bool) (p q K : Z) :
  0 < p -> 0 < q ->
  let p' := p * 2 ^ Z.max 0 K in
  let q' := q * 2 ^ Z.max 0 (- K) in
  2 ^ 62 <= p' / q' < 2 ^ 64 ->
  round_quotient Negative (p' / q') K (negb (p' mod q' =? 0))
  = with_sign Negative (nearest_double p q).
Proof.
  intros Hp Hq p' q' HQ. pose proof (pow2_pos (Z.max 0 K) ltac:(lia)).
  pose proof (pow2_pos (Z.max 0 (- K)) ltac:(lia)).
  assert (0 < q') as Hq' by (unfold q'; nia).
  unfold round_quotient. rewrite quotient_bits by lia.
  set (Q := p' / q') in *. pose proof (Z.log2_spec Q ltac:(lia)) as HL.
  assert (62 <= Z.log2 Q) as Hb by (apply Z.log2_le_pow2; lia).
  set (b := Z.log2 Q) in *. rewrite Z.pow_succ_r in HL by lia.
  pose proof (Z.div_mod p' q' ltac:(lia)) as Ep. fold Q in Ep. pose proof (Z.mod_pos_bound p' q' Hq').
  assert (floor_log2 p q = b - K) as Ex.
  { apply floor_log2_unique; [done|done| |].
    - apply (pow2_le_iff (Z.max 0 K)); [lia|lia|].
      replace (b - K + Z.max 0 K) with (Z.max 0 (- K) + b) by lia.
      rewrite Z.pow_add_r, Z.mul_assoc by lia. fold p' q'. nia.
    - apply not_true_iff_false. rewrite (pow2_le_iff (Z.max 0 K)) by lia.
      replace (b - K + 1 + Z.max 0 K) with (Z.max 0 (- K) + (b + 1)) by lia.
      rewrite (Z.pow_add_r 2 _ (b + 1)), (Z.pow_add_r 2 b), Z.mul_assoc by lia. fold p' q'. nia. }
  unfold nearest_double. rewrite Ex. cbv zeta. replace (b + 1 - 1 - K) with (b - K) by lia.
  destruct (Z.ltb_spec 1023 (b - K)); [by destruct Negative|].
  set (Keep := if -1022 <=? b - K then 53 else b - K + 1075).
  assert (b + 1 - Keep = last_bit (b - K) + K /\ 1 <= b + 1 - Keep) as [Es Hs].
  { unfold Keep, last_bit. destruct (Z.leb_spec (-1022) (b - K)); lia. }
  rewrite Es in Hs |- *. replace (last_bit (b - K) + K - K) with (last_bit (b - K)) by lia.
  pose proof (round_kept_rne p' q' (last_bit (b - K) + K) Hq' ltac:(fold Q; lia) Hs) as HK.
  fold Q in HK. rewrite HK.
  rewrite (rne_scaled_eq (Z.max 0 K)) by lia.
  replace (last_bit (b - K) + Z.max 0 K) with (Z.max 0 (- K) + (last_bit (b - K) + K)) by lia.
  rewrite (Z.pow_add_r 2 (Z.max 0 (- K))), Z.mul_assoc by lia. fold q' p'. by destruct Negative.
Qed.

(** ** The conversion within range *)

(** The double nearest to [v * 10^e]. *)
Definition nearest_decimal (v e : Z) : dbl :=
  nearest_double (v * 10 ^ Z.max 0 e) (10 ^ Z.max 0 (- e)).

Lemma pow10_pos (e : Z) : 0 <= e -> 0 < 10 ^ e.
Proof. intros. apply Z.pow_pos_nonneg; lia. Qed.

(** The scaling of the two numbers aims at 63 or 64 quotient bits. *)
Lemma scaled_quotient (n d K : Z) : 0 < n -> 0 < d ->
  K = 63 - (Z.log2 n - Z.log2 d) ->
  2 ^ 62 <= n * 2 ^ Z.max 0 K / (d * 2 ^ Z.max 0 (- K)) < 2 ^ 64.
Proof.
  intros Hn Hd HK. pose proof (Z.log2_spec n Hn) as [N1 N2]. pose proof (Z.log2_spec d Hd) as [D1 D2].
  pose proof (Z.log2_nonneg n). pose proof (Z.log2_nonneg d). rewrite Z.pow_succ_r in * by lia.
  pose proof (pow2_pos (Z.max 0 K) ltac:(lia)) as H1. pose proof (pow2_pos (Z.max 0 (- K)) ltac:(lia)) as H2.
  assert (2 ^ Z.log2 n * 2 ^ Z.max 0 K = 2 ^ 63 * (2 ^ Z.log2 d * 2 ^ Z.max 0 (- K))) as E.
  { rewrite <- !Z.pow_add_r by lia. f_equal. lia. }
  change (2 ^ 63) with (2 * 2 ^ 62) in E. change (2 ^ 64) with (4 * 2 ^ 62).
  set (T := 2 ^ 62) in *. assert (0 < T) by done. clearbody T.
  set (x := 2 ^ Z.max 0 K) in *. set (y := 2 ^ Z.max 0 (- K)) in *.
  set (a := 2 ^ Z.log2 n) in *. set (b := 2 ^ Z.log2 d) in *. clearbody x y a b.
  assert (a * x <= n * x < 2 * (a * x)) by nia. assert (b * y <= d * y < 2 * (b * y)) by nia.
  split; [apply Z.div_le_lower_bound; nia|apply Z.div_lt_upper_bound; nia].
Qed.

Lemma convert_decimal_nearest (Negative : bool) (s : text) (e : Z) :
  all_digits s -> 0 < dec_value s ->
  convert_decimal Negative s e = with_sign Negative (nearest_decimal (dec_value s) e).
Proof.
  intros Hs Hpos. unfold convert_decimal, scaled_division.
  destruct (FromDecimal_spec s Hs) as [Hn Hnv].
  destruct (PyBigUInt_spec 1 ltac:(lia)) as [Hd Hdv].
  set (N := if 0 <=? e then MulPow10 e (FromDecimal s) else FromDecimal s).
  set (D := if 0 <=? e then PyBigUInt 1 else MulPow10 (- e) (PyBigUInt 1)).
  assert (wf_limbs N /\ big_value N = dec_value s * 10 ^ Z.max 0 e) as [HN HNv].
  { unfold N. destruct (Z.leb_spec 0 e).
    - rewrite <- Hnv, Z.max_r by lia. by apply MulPow10_spec.
    - rewrite Z.max_l by lia. split; [done|]. change (10 ^ 0) with 1. lia. }
  assert (wf_limbs D /\ big_value D = 10 ^ Z.max 0 (- e)) as [HD HDv].
  { unfold D. destruct (Z.leb_spec 0 e).
    - rewrite Z.max_l by lia. done.
    - destruct (MulPow10_spec (- e) (PyBigUInt 1) ltac:(lia) Hd) as [H1 H2]. split; [done|].
      rewrite H2, Hdv, Z.max_r by lia. lia. }
  pose proof (pow10_pos (Z.max 0 e) ltac:(lia)). pose proof (pow10_pos (Z.max 0 (- e)) ltac:(lia)).
  assert (0 < big_value N) as HNp by nia. assert (0 < big_value D) as HDp by lia.
  rewrite !BitLength_spec by done.
  set (K := 63 - (Z.log2 (big_value N) + 1 - (Z.log2 (big_value D) + 1))).
  set (N' := if 0 <? K then ShiftLeft K N else N).
  set (D' := if 0 <? K then D else if K <? 0 then ShiftLeft (- K) D else D).
  assert (wf_limbs N' /\ big_value N' = big_value N * 2 ^ Z.max 0 K) as [HN' HN'v].
  { unfold N'. destruct (Z.ltb_spec 0 K); [rewrite Z.max_r by lia; apply ShiftLeft_spec; [lia|done]|].
    rewrite Z.max_l by lia. split; [done|]. change (2 ^ 0) with 1. lia. }
  assert (wf_limbs D' /\ big_value D' = big_value D * 2 ^ Z.max 0 (- K)) as [HD' HD'v].
  { unfold D'. destruct (Z.ltb_spec 0 K).
    - rewrite Z.max_l by lia. split; [done|]. change (2 ^ 0) with 1. lia.
    - destruct (Z.ltb_spec K 0); [rewrite Z.max_r by lia; apply ShiftLeft_spec; [lia|done]|].
      rewrite Z.max_l by lia. split; [done|]. change (2 ^ 0) with 1. lia. }
  pose proof (scaled_quotient (big_value N) (big_value D) K HNp HDp ltac:(unfold K; lia)) as HQ.
  rewrite <- HN'v, <- HD'v in HQ.
  assert (0 < big_value D') as HD'p by (rewrite HD'v; pose proof (pow2_pos (Z.max 0 (- K))); nia).
  destruct (ShiftLeft_spec 63 D' ltac:(lia) HD') as [HS HSv].
  pose proof (quotient_loop_spec (big_value D') 64 HD'p N' (ShiftLeft 63 D') 0 HN' HS) as Hloop.
  rewrite Z.mul_0_l in Hloop.
  assert (big_value N' < big_value D' * 2 ^ Z.of_nat 64) as Hlt.
  { pose proof (Z.div_mod (big_value N') (big_value D') ltac:(lia)).
    pose proof (Z.mod_pos_bound (big_value N') (big_value D') HD'p).
    change (2 ^ Z.of_nat 64) with (2 ^ 64). nia. }
  specialize (Hloop Hlt ltac:(intros k [= <-]; exact HSv)).
  destruct (quotient_loop 64 N' (ShiftLeft 63 D') 0) as [R Q].
  destruct Hloop as (HR & HRv & HQv). rewrite Z.add_0_l in HQv. subst Q.
  assert (IsZero R = (big_value N' mod big_value D' =? 0)) as ->.
  { rewrite <- HRv. pose proof (wf_zero R HR). destruct R; [done|].
    destruct (Z.eqb_spec (big_value (z :: R)) 0); [|done]. assert (z :: R = []) by tauto. done. }
  rewrite HN'v, HD'v. rewrite round_quotient_nearest; [|done|done|by rewrite <- HN'v, <- HD'v].
  by rewrite HNv, HDv.
Qed.

(** ** Cutting digits *)

(** [p / q] lies strictly between [A / 10^u] and [(A + 1) / 10^u]. *)
Definition inside (A u p q : Z) : Prop := A * q < p * 10 ^ u < (A + 1) * q.

Lemma grid_bound (A u : Z) : 10 ^ 799 <= A -> 0 <= u <= 1075 -> 2 ^ 53 * 5 ^ u <= A.
Proof.
  intros HA Hu. etransitivity; [|exact HA]. clear HA A. transitivity (2 ^ 53 * 5 ^ 1075).
  - apply Z.mul_le_mono_nonneg_l; [done|]. apply Z.pow_le_mono_r; lia.
  - vm_compute. discriminate.
Qed.

(** A multiple [n * 2^j] of a power of two that could decide a rounding is on
    the grid of the kept digits or below them. *)
Lemma no_boundary (A u n j : Z) :
  10 ^ 799 <= A -> 0 <= u -> 0 <= n <= 2 ^ 54 -> -1075 <= j ->
  n * 2 ^ Z.max 0 j * 10 ^ u <= A * 2 ^ Z.max 0 (- j) \/
  (A + 1) * 2 ^ Z.max 0 (- j) <= n * 2 ^ Z.max 0 j * 10 ^ u.
Proof.
  intros HA Hu Hn Hj. set (J := Z.max 0 (- j)).
  destruct (Z.le_gt_cases J u) as [HJ|HJ].
  - assert (10 ^ u = 5 ^ u * 2 ^ (u - J) * 2 ^ J) as E.
    { change 10 with (5 * 2). rewrite Z.pow_mul_l. rewrite <- Z.mul_assoc, <- Z.pow_add_r by lia.
      do 2 f_equal. lia. }
    rewrite E. set (c := n * 2 ^ Z.max 0 j * (5 ^ u * 2 ^ (u - J))).
    replace (n * 2 ^ Z.max 0 j * (5 ^ u * 2 ^ (u - J) * 2 ^ J)) with (c * 2 ^ J) by (unfold c; lia).
    pose proof (pow2_pos J ltac:(lia)). clear HA E. clearbody c J.
    destruct (Z.le_gt_cases c A); [left|right]; nia.
  - left. rewrite (Z.max_l 0 j) by lia. change (2 ^ 0) with 1. rewrite Z.mul_1_r.
    pose proof (grid_bound A u HA ltac:(lia)) as H5. clear HA.
    assert (2 ^ (u + 1) <= 2 ^ J) by (apply Z.pow_le_mono_r; lia).
    change 10 with (5 * 2). rewrite Z.pow_mul_l. rewrite Z.pow_add_r in * by lia.
    change (2 ^ 1) with 2 in *. change (2 ^ 54) with (2 * 2 ^ 53) in Hn.
    pose proof (pow2_pos u Hu). assert (0 < 5 ^ u) by (apply Z.pow_pos_nonneg; lia).
    set (f := 2 ^ 53) in *. set (x := 5 ^ u) in *. set (y := 2 ^ u) in *. set (z := 2 ^ J) in *.
    clearbody f x y z. assert (n * x <= 2 * A) by nia. assert (n * x * y <= 2 * A * y) by nia. nia.
Qed.

(** Two rationals of one cell are on the same side of such a multiple. *)
Lemma same_side (A u n j p q p' q' : Z) :
  10 ^ 799 <= A -> 0 <= u -> 0 <= n <= 2 ^ 54 -> -1075 <= j -> 0 < q -> 0 < q' ->
  inside A u p q -> inside A u p' q' ->
  n * 2 ^ Z.max 0 j * q <= p * 2 ^ Z.max 0 (- j) ->
  n * 2 ^ Z.max 0 j * q' < p' * 2 ^ Z.max 0 (- j).
Proof.
  intros HA Hu Hn Hj Hq Hq' [I1 I2] [I1' I2'] H.
  pose proof (no_boundary A u n j HA Hu Hn Hj) as Hb.
  pose proof (pow2_pos (Z.max 0 (- j)) ltac:(lia)) as HJ. pose proof (pow10_pos u Hu) as H10.
  set (J := 2 ^ Z.max 0 (- j)) in *. set (b := n * 2 ^ Z.max 0 j) in *. set (t := 10 ^ u) in *.
  clear HA. clearbody J b t. destruct Hb as [Hb|Hb].
  - assert (b * t * q' <= A * J * q') by nia. assert (A * q' * J < p' * t * J) by nia. nia.
  - exfalso. assert (p * t * J < (A + 1) * q * J) by nia. assert ((A + 1) * J * q <= b * t * q) by nia.
    assert (b * q * t <= p * J * t) by nia. nia.
Qed.

Lemma inside_pow2_le (A u x p q p' q' : Z) :
  10 ^ 799 <= A -> 0 <= u -> -1075 <= x -> 0 < q -> 0 < q' ->
  inside A u p q -> inside A u p' q' -> pow2_le x p q = pow2_le x p' q'.
Proof.
  intros HA Hu Hx Hq Hq' HI HI'. unfold pow2_le. apply eq_true_iff_eq. rewrite !Z.leb_le.
  pose proof (fun p q p' q' H H' => same_side A u 1 x p q p' q' HA Hu ltac:(lia) Hx H H') as Hs.
  split; intros H.
  - specialize (Hs p q p' q' Hq Hq' HI HI'). lia.
  - specialize (Hs p' q' p q Hq' Hq HI' HI). lia.
Qed.

Lemma rne_between (n d h : Z) : 0 < d -> h * d < 2 * n < (h + 1) * d -> rne n d = (h + 1) / 2.
Proof.
  intros Hd Hh. unfold rne. pose proof (Z.div_mod n d ltac:(lia)) as E.
  pose proof (Z.mod_pos_bound n d Hd). set (m := n / d) in *. set (r := n mod d) in *.
  assert (h = 2 * m \/ h = 2 * m + 1) as [-> | ->] by nia.
  - destruct (Z.ltb_spec d (2 * r)); [nia|]. destruct (Z.eqb_spec (2 * r) d); [nia|]. cbn.
    apply (Z.div_unique_pos _ _ _ 1); lia.
  - destruct (Z.ltb_spec d (2 * r)); [|nia]. cbn. apply (Z.div_unique_pos _ _ _ 0); lia.
Qed.

(** Below half of the smallest subnormal everything rounds to zero. *)
Lemma nearest_double_tiny (p q : Z) : 0 < p -> 0 < q -> pow2_le (-1075) p q = false ->
  nearest_double p q = S754_zero false.
Proof.
  intros Hp Hq Htiny. destruct (floor_log2_spec p q Hp Hq) as [H1 H2].
  assert (floor_log2 p q < -1075) as Hx.
  { destruct (Z.lt_ge_cases (floor_log2 p q) (-1075)) as [|H]; [done|].
    apply (pow2_le_mono (-1075)) in H1; [congruence|done|lia]. }
  unfold nearest_double. destruct (Z.ltb_spec 1023 (floor_log2 p q)); [lia|].
  assert (last_bit (floor_log2 p q) = -1074) as -> by (unfold last_bit; lia).
  assert (rne_scaled p q (-1074) = 0) as ->; [|done].
  unfold rne_scaled. apply not_true_iff_false in Htiny. rewrite (pow2_le_iff 1075) in Htiny by lia.
  change (-1075 + 1075) with 0 in Htiny. change (2 ^ 0) with 1 in Htiny.
  change (Z.max 0 (- -1074)) with 1074. change (Z.max 0 (-1074)) with 0. change (2 ^ 0) with 1.
  change (2 ^ 1075) with (2 * 2 ^ 1074) in Htiny. pose proof (pow2_pos 1074 ltac:(lia)).
  set (t := 2 ^ 1074) in *. clearbody t.
  rewrite (rne_between _ _ 0); [done|lia|nia].
Qed.

(** The doubles nearest to two rationals of one cell are the same. *)
(** The bound on the mantissa, kept folded: its value is never computed. *)
Definition large (A : Z) : Prop := 10 ^ 799 <= A.

Lemma nearest_double_inside (A u p q p' q' : Z) :
  10 ^ 799 <= A -> 0 <= u -> 0 < p -> 0 < q -> 0 < p' -> 0 < q' ->
  inside A u p q -> inside A u p' q' -> nearest_double p q = nearest_double p' q'.
Proof.
  intros HA Hu Hp Hq Hp' Hq' HI HI'. change (large A) in HA.
  pose proof (fun x Hx => inside_pow2_le A u x p q p' q' HA Hu Hx Hq Hq' HI HI') as Hle.
  destruct (pow2_le (-1075) p q) eqn:Et.
  2: { rewrite !nearest_double_tiny; try done. by rewrite <- Hle. }
  destruct (floor_log2_spec p q Hp Hq) as [H1 H2]. set (x := floor_log2 p q) in *.
  assert (-1075 <= x) as Hx.
  { destruct (Z.lt_ge_cases x (-1075)) as [H|]; [|done]. apply (pow2_le_mono (x + 1)) in Et; [congruence|done|lia]. }
  assert (floor_log2 p' q' = x) as Ex.
  { apply floor_log2_unique; [done|done| |]; rewrite <- Hle; try done; lia. }
  unfold nearest_double. rewrite Ex. fold x. destruct (Z.ltb_spec 1023 x); [done|]. do 2 f_equal.
  set (e := last_bit x). assert (e - 1 = Z.max (x - 53) (-1075)) as He by (unfold e, last_bit; lia).
  (* the half step below the rational *)
  set (P := p * 2 ^ Z.max 0 (- (e - 1))). set (Q := q * 2 ^ Z.max 0 (e - 1)).
  pose proof (pow2_pos (Z.max 0 (e - 1)) ltac:(lia)). pose proof (pow2_pos (Z.max 0 (- (e - 1))) ltac:(lia)).
  assert (0 < Q) as HQ by (unfold Q; nia).
  set (h := P / Q). pose proof (Z.div_mod P Q ltac:(lia)) as EP. fold h in EP.
  pose proof (Z.mod_pos_bound P Q HQ) as Hr. assert (0 <= h) as Hh0 by (apply Z.div_pos; unfold P; nia).
  assert (h < 2 ^ 54) as Hh.
  { apply Z.div_lt_upper_bound; [done|]. apply not_true_iff_false in H2.
    rewrite (pow2_le_iff (Z.max 0 (- (e - 1)))) in H2 by lia. fold P in H2.
    assert (q * 2 ^ (x + 1 + Z.max 0 (- (e - 1))) <= Q * 2 ^ 54); [|lia].
    unfold Q. rewrite <- Z.mul_assoc, <- Z.pow_add_r by lia. apply Z.mul_le_mono_nonneg_l; [lia|].
    apply Z.pow_le_mono_r; lia. }
  assert (h * 2 ^ Z.max 0 (e - 1) * q <= P < (h + 1) * 2 ^ Z.max 0 (e - 1) * q) as HPQ.
  { set (r := P mod Q) in *. clearbody r h P. unfold Q in EP, Hr. clear - EP Hr. lia. }
  pose proof (same_side A u h (e - 1) p q p' q' HA Hu ltac:(lia) ltac:(lia) Hq Hq' HI HI') as S1.
  pose proof (same_side A u h (e - 1) p q p q HA Hu ltac:(lia) ltac:(lia) Hq Hq HI HI) as S2.
  pose proof (same_side A u (h + 1) (e - 1) p' q' p q HA Hu ltac:(lia) ltac:(lia) Hq' Hq HI' HI) as S3.
  assert (forall a b, 0 < b -> h * 2 ^ Z.max 0 (e - 1) * b < a * 2 ^ Z.max 0 (- (e - 1)) ->
    a * 2 ^ Z.max 0 (- (e - 1)) < (h + 1) * 2 ^ Z.max 0 (e - 1) * b ->
    rne_scaled a b e = (h + 1) / 2) as Hrne.
  { intros a b Hb L1 L2. rewrite (rne_scaled_eq (Z.max 0 (- (e - 1)))) by lia.
    pose proof (pow2_pos (e + Z.max 0 (- (e - 1))) ltac:(lia)).
    assert (2 ^ (e + Z.max 0 (- (e - 1))) = 2 * 2 ^ Z.max 0 (e - 1)) as E2.
    { rewrite <- Z.pow_succ_r by lia. f_equal. lia. }
    rewrite E2 in *. clear - L1 L2 Hb H3. apply rne_between; [nia|]. split; lia. }
  rewrite !Hrne; try done.
  - apply S1. apply HPQ.
  - destruct (Z.lt_ge_cases (p' * 2 ^ Z.max 0 (- (e - 1))) ((h + 1) * 2 ^ Z.max 0 (e - 1) * q'))
      as [|C]; [done|]. exfalso. apply S3 in C. fold P in C. lia.
  - apply S2. apply HPQ.
  - apply HPQ.
Qed.

(** ** Normalised digits *)

Lemma nearest_double_cross (p q p' q' : Z) :
  0 < p -> 0 < q -> 0 < p' -> 0 < q' -> p * q' = p' * q -> nearest_double p q = nearest_double p' q'.
Proof.
  intros Hp Hq Hp' Hq' E. rewrite <- (nearest_double_scale q' p q) by done.
  rewrite <- (nearest_double_scale q p' q') by done. f_equal; lia.
Qed.

(** Zeros at the end of the digits move into the exponent. *)
Lemma nearest_decimal_shift (v k e : Z) : 0 < v -> 0 <= k ->
  nearest_decimal (v * 10 ^ k) e = nearest_decimal v (e + k).
Proof.
  intros Hv Hk. unfold nearest_decimal.
  assert (forall x, 0 <= x -> 0 < 10 ^ x) as Hpos by (intros; by apply pow10_pos).
  pose proof (Hpos k Hk). pose proof (Hpos (Z.max 0 e) ltac:(lia)). pose proof (Hpos (Z.max 0 (e + k)) ltac:(lia)).
  apply nearest_double_cross; [nia|apply Hpos; lia|nia|apply Hpos; lia|].
  rewrite <- !Z.mul_assoc, <- !Z.pow_add_r by lia. do 2 f_equal. lia.
Qed.

(** Beyond 800 digits only their first 800 and the fact that some follow count. *)
Lemma nearest_decimal_cut (A B t u : Z) : 10 ^ 799 <= A -> 0 <= u -> 0 < t -> 0 < B < 10 ^ t ->
  nearest_decimal (A * 10 ^ t + B) (- u - t) = nearest_decimal (A * 10 + 1) (- u - 1).
Proof.
  intros HA Hu Ht HB. assert (0 < A) as HA0 by (pose proof (pow10_pos 799 ltac:(lia)); lia).
  assert (forall s C, 0 < s -> 0 < C < 10 ^ s -> 0 < A * 10 ^ s + C /\
    inside A u (A * 10 ^ s + C) (10 ^ (u + s))) as Hin.
  { intros s C Hs HC. clear HA. pose proof (pow10_pos u Hu). unfold inside. rewrite Z.pow_add_r by lia.
    set (x := 10 ^ s) in *. set (y := 10 ^ u) in *. clearbody x y. split; nia. }
  unfold nearest_decimal. rewrite (Z.max_l 0 (- u - t)), (Z.max_l 0 (- u - 1)) by lia.
  change (10 ^ 0) with 1. rewrite !Z.mul_1_r.
  replace (Z.max 0 (- (- u - t))) with (u + t) by lia. replace (Z.max 0 (- (- u - 1))) with (u + 1) by lia.
  destruct (Hin t B Ht HB) as [P1 I1]. destruct (Hin 1 1 ltac:(lia) ltac:(lia)) as [P2 I2].
  change (10 ^ 1) with 10 in P2, I2.
  apply (nearest_double_inside A u); try done; apply pow10_pos; lia.
Qed.

(** The extremes of the exponent range. *)
Lemma nearest_decimal_huge (v e n : Z) : 0 < n -> 10 ^ (n - 1) <= v -> 310 < n + e ->
  nearest_decimal v e = S754_infinity false.
Proof.
  intros Hn Hv He. unfold nearest_decimal, nearest_double.
  pose proof (pow10_pos (n - 1) ltac:(lia)). pose proof (pow10_pos (Z.max 0 e) ltac:(lia)).
  pose proof (pow10_pos (Z.max 0 (- e)) ltac:(lia)) as Hq.
  set (p := v * 10 ^ Z.max 0 e) in *. set (q := 10 ^ Z.max 0 (- e)) in *.
  assert (2 ^ 1024 * q <= p) as Hle.
  { transitivity (10 ^ (n - 1) * 10 ^ Z.max 0 e); [|unfold p; nia].
    unfold q. transitivity (10 ^ 310 * 10 ^ Z.max 0 (- e)).
    - apply Z.mul_le_mono_nonneg_r; [lia|]. vm_compute. discriminate.
    - rewrite <- !Z.pow_add_r by lia. apply Z.pow_le_mono_r; lia. }
  assert (1024 <= floor_log2 p q); [|by destruct (Z.ltb_spec 1023 (floor_log2 p q)); [|lia]].
  assert (0 < p) as Hp by (unfold p; nia).
  destruct (floor_log2_spec p q Hp Hq) as [_ H2].
  destruct (Z.le_gt_cases 1024 (floor_log2 p q)) as [|Hgt]; [done|].
  rewrite (pow2_le_mono (floor_log2 p q + 1) 1024) in H2; [done|done|lia|].
  unfold pow2_le. change (Z.max 0 1024) with 1024. change (Z.max 0 (-1024)) with 0.
  change (2 ^ 0) with 1. rewrite Z.mul_1_r, Z.mul_comm. by apply Z.leb_le.
Qed.

Lemma nearest_decimal_small (v e n : Z) : 0 < n -> 0 < v < 10 ^ n -> n + e <= -324 ->
  nearest_decimal v e = S754_zero false.
Proof.
  intros Hn Hv He. unfold nearest_decimal. rewrite (Z.max_l 0 e), (Z.max_r 0 (- e)) by lia.
  change (10 ^ 0) with 1. rewrite Z.mul_1_r.
  apply nearest_double_tiny; [lia|apply pow10_pos; lia|].
  apply not_true_iff_false. rewrite (pow2_le_iff 1075) by lia. change (-1075 + 1075) with 0.
  change (2 ^ 0) with 1. rewrite Z.mul_1_r. apply Z.lt_nge.
  apply Z.lt_le_trans with (10 ^ n * 2 ^ 1075).
  - apply Z.mul_lt_mono_pos_r; [apply pow2_pos; lia|lia].
  - transitivity (10 ^ n * 10 ^ 324).
    + apply Z.mul_le_mono_nonneg_l; [pose proof (pow10_pos n); lia|]. vm_compute. discriminate.
    + rewrite <- Z.pow_add_r by lia. apply Z.pow_le_mono_r; lia.
Qed.

(** ** Stripping zeros *)

Lemma drop_zeros_spec (s : text) : exists k,
  s = replicate k x30 ++ drop_zeros s /\ head (drop_zeros s) <> Some x30.
Proof.
  induction s as [|c s (k & E & H)]; [by exists 0%nat|]. cbn [drop_zeros]. case_bool_decide as Hc.
  - exists (S k). subst c. split; [|done]. cbn [replicate app]. by rewrite <- E.
  - exists 0%nat. split; [done|]. intros [= ?]. done.
Qed.

Lemma replicate_zeros_value (k : nat) (s : text) : dec_value (replicate k x30 ++ s) = dec_value s.
Proof.
  induction k as [|k IH]; [done|]. cbn [replicate app]. rewrite dec_value_cons, IH.
  change (digit_value x30) with 0. lia.
Qed.

Lemma drop_last_zeros_spec (s : text) : exists k,
  s = drop_last_zeros s ++ replicate k x30 /\ last (drop_last_zeros s) <> Some x30.
Proof.
  unfold drop_last_zeros. destruct (drop_zeros_spec (reverse s)) as (k & E & H). exists k. split.
  - rewrite <- (reverse_involutive s) at 1. rewrite E at 1. by rewrite reverse_app, reverse_replicate.
  - by rewrite last_reverse.
Qed.

Lemma digit_value_zero (c : byte) : is_digit c = true -> digit_value c = 0 -> c = x30.
Proof.
  intros Hc H0. rewrite <- (digit_char_of_value c Hc), H0. reflexivity.
Qed.

(** Digits without a leading zero have the value their number says. *)
Lemma leading_digit (s : text) : all_digits s -> s <> [] -> head s <> Some x30 ->
  10 ^ (Z.of_nat (length s) - 1) <= dec_value s.
Proof.
  intros Hs Hne Hh. destruct s as [|c s]; [done|]. rewrite dec_value_cons.
  inversion Hs as [|? ? Hc Hs']; subst. pose proof (digit_value_range c Hc).
  assert (digit_value c <> 0) by (intros H0; apply Hh; by rewrite (digit_value_zero c Hc H0)).
  pose proof (dec_value_bounds s Hs'). cbn [length].
  replace (Z.of_nat (S (length s)) - 1) with (Z.of_nat (length s)) by lia. nia.
Qed.

(** Digits that do not end with a zero have a non-zero tail. *)
Lemma last_digit_pos (s : text) : all_digits s -> s <> [] -> last s <> Some x30 -> 0 < dec_value s.
Proof.
  intros Hs Hne Hl. destruct s as [|c s _] using rev_ind; [done|].
  apply Forall_app in Hs as [Hs Hc]. rewrite Forall_singleton in Hc.
  pose proof (dec_value_bounds s Hs). pose proof (digit_value_range c Hc).
  rewrite last_snoc in Hl. rewrite dec_value_app, dec_value_single.
  assert (digit_value c <> 0) by (intros Hz; apply Hl; by rewrite (digit_value_zero c Hc Hz)).
  pose proof (pow10_pos (Z.of_nat (length [c]))). nia.
Qed.

(** The conversion of digits without zeros at either end. *)
Lemma normal_digits_nearest (Negative : bool) (s : text) (e : Z) :
  all_digits s -> s <> [] -> head s <> Some x30 -> last s <> Some x30 ->
  (let '(D, x) := truncate_digits s e in
   if 310 <? Z.of_nat (length D) + x then S754_infinity Negative
   else if Z.of_nat (length D) + x <=? -324 then S754_zero Negative
   else convert_decimal Negative D x)
  = with_sign Negative (nearest_decimal (dec_value s) e).
Proof.
  intros Hs Hne Hh Hl. pose proof (last_digit_pos s Hs Hne Hl) as Hpos.
  pose proof (leading_digit s Hs Hne Hh) as Hlow. pose proof (dec_value_bounds s Hs) as Hup.
  assert (0 < Z.of_nat (length s)) as Hlen by (destruct s; [done|simpl; lia]).
  assert (exists D x, truncate_digits s e = (D, x) /\ all_digits D /\ 0 < dec_value D /\
    Z.of_nat (length D) + x = Z.of_nat (length s) + e /\
    (Z.of_nat (length s) + e <= 310 -> nearest_decimal (dec_value D) x = nearest_decimal (dec_value s) e))
    as (D & x & -> & HD & HDpos & Hmag & Hsame).
  { unfold truncate_digits. change (Z.of_nat kMaxSignificantDigits) with 800.
    destruct (Nat.ltb_spec kMaxSignificantDigits (length s)) as [Hlong|]; [|by exists s, e].
    unfold kMaxSignificantDigits in *. set (a := take 800 s). set (b := drop 800 s).
    assert (s = a ++ b) as Eab by (symmetry; apply take_drop).
    assert (length a = 800%nat) as La by (unfold a; rewrite length_take; lia).
    assert (Z.of_nat (length s) = 800 + Z.of_nat (length b)) as Lb by (rewrite Eab, length_app, La; lia).
    rewrite Eab in Hs. apply Forall_app in Hs as [Ha Hb].
    assert (b <> []) as Hbne by (intros C; rewrite C in Lb; simpl in Lb; lia).
    assert (last b <> Some x30) as Hbl.
    { intros C. apply Hl. by rewrite Eab, last_app, C. }
    pose proof (last_digit_pos b Hb Hbne Hbl). pose proof (dec_value_bounds b Hb).
    assert (head a <> Some x30) as Hah.
    { intros C. apply Hh. rewrite Eab. destruct a; [done|exact C]. }
    pose proof (leading_digit a Ha ltac:(by intros ->) Hah) as HA. rewrite La in HA.
    change (Z.of_nat 800 - 1) with 799 in HA.
    eexists _, _. split; [reflexivity|]. rewrite dec_value_app, dec_value_single.
    change (digit_value x31) with 1. change (10 ^ Z.of_nat (length [x31])) with 10.
    split; [apply Forall_app; split; [done|by apply Forall_singleton]|].
    split; [pose proof (dec_value_bounds a Ha); lia|].
    split; [rewrite length_app, La; simpl; lia|]. intros Hrange.
    rewrite Eab, dec_value_app. set (u := - (e + Z.of_nat (length b))).
    pose proof (nearest_decimal_cut (dec_value a) (dec_value b) (Z.of_nat (length b)) u HA
      ltac:(unfold u; lia) ltac:(lia) ltac:(lia)) as E.
    replace (- u - Z.of_nat (length b)) with e in E by (unfold u; lia). rewrite E. f_equal.
    unfold u. rewrite <- Eab, Lb. lia. }
  rewrite Hmag. destruct (Z.ltb_spec 310 (Z.of_nat (length s) + e)).
  { rewrite (nearest_decimal_huge _ e (Z.of_nat (length s))) by lia. by destruct Negative. }
  destruct (Z.leb_spec (Z.of_nat (length s) + e) (-324)).
  { rewrite (nearest_decimal_small _ e (Z.of_nat (length s))) by lia. by destruct Negative. }
  rewrite convert_decimal_nearest by done. f_equal. by apply Hsame.
Qed.

(** The digits may have leading and trailing zeros, and any length: cutting them
    after the 800th changes no result. *)
Lemma DecimalToDouble_value (Negative : bool) (s : text) (Exp10 : Z) :
  all_digits s ->
  DecimalToDouble Negative s Exp10 =
  if dec_value s =? 0 then S754_zero Negative
  else with_sign Negative (nearest_decimal (dec_value s) Exp10).
Proof.
  intros Hs. unfold DecimalToDouble. destruct (drop_zeros_spec s) as (k & E & Hh).
  set (First := drop_zeros s) in *.
  assert (all_digits First) as HF by (rewrite E in Hs; apply Forall_app in Hs; tauto).
  assert (dec_value s = dec_value First) as -> by (rewrite E at 1; apply replicate_zeros_value).
  destruct First as [|c t] eqn:EF; [done|]. rewrite <- EF in *.
  destruct (drop_last_zeros_spec First) as (j & E2 & Hl). set (Last := drop_last_zeros First) in *.
  assert (all_digits Last) as HL by (rewrite E2 in HF; apply Forall_app in HF; tauto).
  assert (dec_value First = dec_value Last * 10 ^ Z.of_nat j) as Hv.
  { rewrite E2 at 1. rewrite dec_value_app, length_replicate.
    rewrite <- (app_nil_r (replicate j x30)), replicate_zeros_value. change (dec_value []) with 0. lia. }
  assert (Z.of_nat (length First) - Z.of_nat (length Last) = Z.of_nat j) as Hj.
  { rewrite E2 at 1. rewrite length_app, length_replicate. lia. }
  assert (Last <> []) as HLne.
  { intros C. rewrite C in E2. cbn [app] in E2. rewrite E2 in Hh. destruct j; [by rewrite E2 in EF|done]. }
  assert (head Last <> Some x30) as HLh.
  { intros C. apply Hh. rewrite E2. destruct Last; [done|exact C]. }
  rewrite Hj. rewrite (normal_digits_nearest Negative Last (Exp10 + Z.of_nat j) HL HLne HLh Hl).
  pose proof (last_digit_pos Last HL HLne Hl). pose proof (pow10_pos (Z.of_nat j) ltac:(lia)).
  rewrite Hv. destruct (Z.eqb_spec (dec_value Last * 10 ^ Z.of_nat j) 0); [nia|].
  by rewrite nearest_decimal_shift by lia.
Qed.

(** The exact value in units of 2^-1074 is [decimal_num s e / decimal_den e]. *)
Definition decimal_num (s : text) (e : Z) : Z := dec_value s * 10 ^ Z.max 0 e * 2 ^ 1074.
Definition decimal_den (e : Z) : Z := 10 ^ Z.max 0 (- e).

Lemma decimal_den_pos (e : Z) : 0 < decimal_den e.
Proof. apply pow10_pos. lia. Qed.

Lemma decimal_num_nonneg (s : text) (e : Z) : all_digits s -> 0 <= decimal_num s e.
Proof.
  intros Hs. pose proof (dec_value_bounds s Hs). pose proof (pow10_pos (Z.max 0 e) ltac:(lia)).
  unfold decimal_num. apply Z.mul_nonneg_nonneg; [nia|]. by apply Z.pow_nonneg.
Qed.

Lemma DecimalToDouble_units (Negative : bool) (s : text) (e : Z) : all_digits s ->
  DecimalToDouble Negative s e = with_sign Negative (round_units false (decimal_num s e) (decimal_den e)).
Proof.
  intros Hs. rewrite DecimalToDouble_value by done. pose proof (dec_value_bounds s Hs).
  destruct (Z.eqb_spec (dec_value s) 0) as [E|E].
  - unfold decimal_num. rewrite E, !Z.mul_0_l, round_units_zero by apply decimal_den_pos. by destruct Negative.
  - f_equal. unfold nearest_decimal. pose proof (pow10_pos (Z.max 0 e) ltac:(lia)).
    apply nearest_double_units; [nia|apply decimal_den_pos].
Qed.

(** C34: [DecimalToDouble] is correctly rounded on every digit string and
    exponent. With the exact value [n / d] in units of 2^-1074: the result is
    [n / d] rounded to nearest, ties to even; it is an infinity exactly from
    half way between the largest double and 2^1024 on; otherwise no
    non-negative double is closer to the exact value. *)
Theorem DecimalToDouble_correctly_rounded (Negative : bool) (s : text) (Exp10 : Z) :
  all_digits s ->
  let n := decimal_num s Exp10 in
  let d := decimal_den Exp10 in
  exists r, DecimalToDouble Negative s Exp10 = with_sign Negative r /\
    r = round_units false n d /\
    (is_finite r = false <-> overflow_units * d <= n) /\
    (is_finite r = true -> pos_double r /\
       forall y, pos_double y -> Z.abs (n - units r * d) <= Z.abs (n - units y * d)).
Proof.
  intros Hs n d. pose proof (decimal_num_nonneg s Exp10 Hs). pose proof (decimal_den_pos Exp10).
  exists (round_units false n d). split; [by apply DecimalToDouble_units|]. split; [done|].
  split; [by apply round_units_overflow|]. intros Hf. split; [by apply round_units_pos|].
  intros y Hy. apply round_units_closest; [done|done|by apply pos_double_fits|done].
Qed.

(** The halfway case of the integers above 2^53 goes to the even neighbour. *)
Lemma DecimalToDouble_correctly_rounded_witness :
  exists r, DecimalToDouble true (B "9007199254740993") 0 = with_sign true r /\ r = d_of_Z (2 ^ 53) /\
    forall y, pos_double y ->
      Z.abs (decimal_num (B "9007199254740993") 0 - units r * decimal_den 0)
      <= Z.abs (decimal_num (B "9007199254740993") 0 - units y * decimal_den 0).
Proof.
  destruct (DecimalToDouble_correctly_rounded true (B "9007199254740993") 0) as (r & E & _ & _ & Hr).
  { by repeat constructor. }
  exists r. assert (r = d_of_Z (2 ^ 53)) as Er.
  { revert E. clear. intros E. apply (f_equal dopp) in E.
    assert (dopp (with_sign true r) = r) as R by (by destruct r as [[]|[]| |[] ? ?]).
    rewrite R in E. rewrite <- E. vm_compute. reflexivity. }
  split; [exact E|]. split; [exact Er|]. apply Hr. rewrite Er. vm_compute. reflexivity.
Defined.
