(* ===== verification/PyFloat.v ===== *)
(** * Python's [float(text)] (src/src/diff/PyValue.cpp)

    [PyFloatAscii] follows the three steps of CPython: underscores between
    digits are removed, white space is stripped, and the body is read by
    [_Py_dg_strtod] or as an infinity or a NaN. [PyFloat] refuses a text that
    is not ASCII. The cursor [Pos] into a text is the rest of the text. *)

From stdpp Require Import base option numbers list sets.
From Stdlib Require Import ZArith Lia SpecFloat.
From S2P Require Import Prelude Dbl Decimal PyInt PyDecimal RoundNearest DblRound PyDecimalSpec.
Local Open Scope Z_scope.

Definition kMaxAbsExp : Z := 1100000000.

Definition IsAsciiDigit (Ch : byte) : bool := (48 <=? code Ch) && (code Ch <=? 57).

(** [Py_ISSPACE]: space, TAB, LF, VT, FF, CR. *)
Definition IsPySpace (Ch : byte) : bool :=
  bool_decide (Ch ∈ [x20; x09; x0a; x0b; x0c; x0d]).

(** [Word] at the cursor, ASCII case apart; the rest behind it. *)
Definition lower (Ch : byte) : byte :=
  if (65 <=? code Ch) && (code Ch <=? 90) then byte_of_code (code Ch - 65 + 97) else Ch.
Fixpoint EqualsIgnoreCase (Text Word : text) : bool :=
  match Word, Text with
  | [], _ => true
  | _ :: _, [] => false
  | w :: Word', Ch :: Text' => bool_decide (lower Ch = w) && EqualsIgnoreCase Text' Word'
  end.

(** [_Py_string_to_number_with_underscores]: ['_'] only between two digits. *)
Fixpoint clean_loop (Prev : byte) (Input : text) : option text :=
  match Input with
  | [] => if bool_decide (Prev = x5f) then None else Some []
  | Ch :: Input' =>
      if bool_decide (Ch = x5f) then
        if IsAsciiDigit Prev then clean_loop Ch Input' else None
      else if bool_decide (Prev = x5f) && negb (IsAsciiDigit Ch) then None
      else Clean ← clean_loop Ch Input'; Some (Ch :: Clean)
  end.

Definition clean_underscores (Input : text) : option text :=
  if bool_decide (x5f ∈ Input) then clean_loop x00 Input else Some Input.

(** The white space before and after the body. *)
Fixpoint skip_spaces (t : text) : text :=
  match t with
  | Ch :: t' => if IsPySpace Ch then skip_spaces t' else t
  | [] => []
  end.
Definition strip_spaces (t : text) : text := reverse (skip_spaces (reverse (skip_spaces t))).

(** [while (Pos < Body.size() && IsAsciiDigit(Body[Pos]))]: the digits read,
    and the rest. *)
Fixpoint take_digits (t : text) : text * text :=
  match t with
  | Ch :: t' => if IsAsciiDigit Ch then let '(Digits, Rest) := take_digits t' in (Ch :: Digits, Rest) else ([], t)
  | [] => ([], [])
  end.

Definition take_sign (t : text) : bool * text :=
  match t with
  | Ch :: t' =>
      if bool_decide (Ch = x2b \/ Ch = x2d) then (bool_decide (Ch = x2d), t') else (false, t)
  | [] => (false, [])
  end.

(** [_Py_parse_inf_or_nan]. *)
Definition parse_special (Body : text) : option dbl :=
  let '(NegativeSpecial, Probe) := take_sign Body in
  if EqualsIgnoreCase Probe (B "inf") then
    let Probe := drop 3 Probe in
    let Probe := if EqualsIgnoreCase Probe (B "inity") then drop 5 Probe else Probe in
    match Probe with [] => Some (S754_infinity NegativeSpecial) | _ => None end
  else if EqualsIgnoreCase Probe (B "nan") then
    match drop 3 Probe with [] => Some S754_nan | _ => None end
  else None.

(** The value of the exponent digits, which stops growing above the clamp. *)
Definition exponent_step (Value : Z) (Ch : byte) : Z :=
  if Value <=? kMaxAbsExp then Value * 10 + (code Ch - 48) else Value.
Definition clamp_exponent (Count : nat) (Value : Z) : Z :=
  if (8 <? Count)%nat || (kMaxAbsExp <? Value) then kMaxAbsExp else Value.

Fixpoint skip_zeros (t : text) : text :=
  match t with
  | Ch :: t' => if bool_decide (Ch = x30) then skip_zeros t' else t
  | [] => []
  end.

(** The exponent part at the cursor; without digits the ['e'] is not consumed. *)
Definition parse_exponent (t : text) : Z * text :=
  match t with
  | Ch :: t' =>
      if bool_decide (Ch = x65 \/ Ch = x45) then
        let '(ExpNegative, Probe) := take_sign t' in
        match Probe with
        | Next :: _ =>
            if IsAsciiDigit Next then
              let '(ExpDigits, Rest) := take_digits (skip_zeros Probe) in
              let Value := clamp_exponent (length ExpDigits) (foldl exponent_step 0 ExpDigits) in
              (if ExpNegative then - Value else Value, Rest)
            else (0, t)
        | [] => (0, t)
        end
      else (0, t)
  | [] => (0, t)
  end.

Definition parse_fraction (t : text) : text * text :=
  match t with
  | Ch :: t' => if bool_decide (Ch = x2e) then take_digits t' else ([], t)
  | [] => ([], [])
  end.

(** The body: [sign] digits [. digits] [e [sign] digits]. *)
Definition parse_body (Body : text) : option dbl :=
  let '(Negative, Pos) := take_sign Body in
  let '(IntDigits, Pos) := take_digits Pos in
  let '(FracDigits, Pos) := parse_fraction Pos in
  let Digits := IntDigits ++ FracDigits in
  match Digits with
  | [] => parse_special Body
  | _ =>
      let '(Exponent, Pos) := parse_exponent Pos in
      match Pos with
      | [] => Some (DecimalToDouble Negative Digits (Exponent - Z.of_nat (length FracDigits)))
      | _ => None
      end
  end.

Definition PyFloatAscii (Input : text) : option dbl :=
  if bool_decide (x00 ∈ Input) then None
  else
    Text ← clean_underscores Input;
    match strip_spaces Text with
    | [] => None
    | Body => parse_body Body
    end.

Definition PyFloat (Text : text) : res (option dbl) :=
  if forallb (fun Ch => negb (128 <=? code Ch)) Text then Ok (PyFloatAscii Text)
  else Throw (UnsupportedInput
    (B "float(): non-ASCII text is not ported (Unicode digit/space mapping)")).

Example float_text : PyFloatAscii (B " -1_2.5e-1  ") = Some (DecimalToDouble true (B "125") (-2)).
Proof. vm_compute. reflexivity. Qed.
Example float_special : PyFloatAscii (B "+InFinity") = Some (S754_infinity false).
Proof. vm_compute. reflexivity. Qed.
Example float_rejects : map PyFloatAscii [B "1__0"; B "."; B "1e"; B ""; B "infin"; B "0x1"] = replicate 6 None.
Proof. vm_compute. reflexivity. Qed.

(** * The grammar of Python's [float(text)]

    The float literals of CPython, stated without reference to the scanner,
    and the proof that [PyFloatAscii] accepts exactly them and gives each its
    correctly rounded value. *)

(** ** The grammar *)

(** Every underscore stands between two digits. *)
Definition grouped (t : text) : Prop :=
  forall i, t !! i = Some x5f ->
    (exists j d, i = S j /\ t !! j = Some d /\ IsAsciiDigit d = true) /\
    (exists d, t !! S i = Some d /\ IsAsciiDigit d = true).

Definition no_underscores (t : text) : text := filter (fun Ch => Ch <> x5f) t.

Inductive sign_text : bool -> text -> Prop :=
| sign_none : sign_text false []
| sign_plus : sign_text false [x2b]
| sign_minus : sign_text true [x2d].

Inductive exponent_text : Z -> text -> Prop :=
| exponent_none : exponent_text 0 []
| exponent_some Ch sgn neg X : Ch = x65 \/ Ch = x45 -> sign_text neg sgn ->
    all_digits X -> X <> [] ->
    exponent_text (if neg then - dec_value X else dec_value X) (Ch :: sgn ++ X).

Inductive fraction_text : text -> text -> Prop :=
| fraction_none : fraction_text [] []
| fraction_some F : all_digits F -> fraction_text F (x2e :: F).

(** A decimal number [sgn I . F e E], of value [(I F) * 10^(E - |F|)]. *)
Inductive number_text : dbl -> text -> Prop :=
| number_value neg sgn I F frac E ex :
    sign_text neg sgn -> all_digits I -> fraction_text F frac -> I ++ F <> [] ->
    exponent_text E ex ->
    number_text (DecimalToDouble neg (I ++ F) (E - Z.of_nat (length F))) (sgn ++ I ++ frac ++ ex).

Inductive special_text : dbl -> text -> Prop :=
| special_inf neg sgn w : sign_text neg sgn ->
    map lower w = B "inf" \/ map lower w = B "infinity" ->
    special_text (S754_infinity neg) (sgn ++ w)
| special_nan neg sgn w : sign_text neg sgn -> map lower w = B "nan" ->
    special_text S754_nan (sgn ++ w).

Definition py_float_literal (v : dbl) (Input : text) : Prop :=
  grouped Input /\
  exists a Body b, no_underscores Input = a ++ Body ++ b /\ spaces a /\ spaces b /\
    (number_text v Body \/ special_text v Body).

(** ** Underscores *)

Fixpoint adjacent (Prev : byte) (t : text) : Prop :=
  match t with
  | [] => Prev <> x5f
  | Ch :: t' => (Ch = x5f -> IsAsciiDigit Prev = true) /\
                (Prev = x5f -> IsAsciiDigit Ch = true) /\ adjacent Ch t'
  end.

Lemma adjacent_spec (t : text) : forall Prev,
  adjacent Prev t <->
  (Prev = x5f -> exists d, t !! O = Some d /\ IsAsciiDigit d = true) /\
  (forall i, t !! i = Some x5f ->
     (exists d, (Prev :: t) !! i = Some d /\ IsAsciiDigit d = true) /\
     (exists d, t !! S i = Some d /\ IsAsciiDigit d = true)).
Proof.
  induction t as [|Ch t IH]; intros Prev; cbn [adjacent].
  { split; [intros H; split; [done|intros i Hi; by rewrite lookup_nil in Hi]|].
    intros [H _] ->. destruct (H eq_refl) as (d & Hd & _). done. }
  rewrite IH. split.
  - intros (H1 & H2 & H3 & H4). split; [intros E; exists Ch; auto|].
    intros [|i] Hi; cbn in Hi.
    + injection Hi as ->. split; [exists Prev; auto|]. by apply H3.
    + by apply H4.
  - intros [H1 H2]. split; [|split; [|split]].
    + intros ->. destruct (H2 O eq_refl) as [(d & Hd & E) _]. cbn in Hd. by injection Hd as ->.
    + intros E. destruct (H1 E) as (d & Hd & E'). cbn in Hd. by injection Hd as ->.
    + intros ->. destruct (H2 O eq_refl) as [_ H]. exact H.
    + intros i Hi. by apply (H2 (S i)).
Qed.

Lemma clean_loop_spec (t : text) : forall Prev c,
  clean_loop Prev t = Some c <-> adjacent Prev t /\ c = no_underscores t.
Proof.
  induction t as [|Ch t IH]; intros Prev c; cbn [clean_loop adjacent].
  { case_bool_decide; cbn; [split; [done|intros [? _]; done]|].
    split; [intros E; by injection E as <-|by intros [_ ->]]. }
  unfold no_underscores. rewrite filter_cons. fold (no_underscores t).
  case_bool_decide as E; [subst Ch|].
  - rewrite decide_False by (intros C; by apply C). destruct (IsAsciiDigit Prev) eqn:D.
    + rewrite IH. split; [intros [H ->]; repeat split; try done; by intros ->|tauto].
    + split; [done|]. intros [[H _] _]. by specialize (H eq_refl).
  - rewrite decide_True by done. case_bool_decide as E2; cbn [andb].
    + subst Prev. destruct (IsAsciiDigit Ch) eqn:D; cbn [negb].
      * destruct (clean_loop Ch t) as [c'|] eqn:C; cbn [mbind option_bind].
        -- apply IH in C as [HA ->]. split; [intros X; injection X as <-; repeat split; congruence || done|]. by intros [_ ->].
        -- split; [done|]. intros [(_ & _ & HA) ->].
           assert (clean_loop Ch t = Some (no_underscores t)) by (by apply IH). congruence.
      * split; [done|]. intros [(_ & H & _) _]. by specialize (H eq_refl).
    + destruct (clean_loop Ch t) as [c'|] eqn:C; cbn [mbind option_bind].
      * apply IH in C as [HA ->]. split; [intros X; injection X as <-; repeat split; congruence || done|]. by intros [_ ->].
      * split; [done|]. intros [(_ & _ & HA) ->].
        assert (clean_loop Ch t = Some (no_underscores t)) by (by apply IH). congruence.
Qed.

Lemma clean_underscores_spec (t c : text) :
  clean_underscores t = Some c <-> grouped t /\ c = no_underscores t.
Proof.
  unfold clean_underscores. case_bool_decide as E.
  - rewrite clean_loop_spec, adjacent_spec. apply and_iff_compat_r. unfold grouped. split.
    + intros [_ H] i Hi. destruct (H i Hi) as [(d & Hd & D) Hn]. split; [|done].
      destruct i as [|j]; cbn in Hd; [injection Hd as <-; done|eauto].
    + intros H. split; [done|]. intros i Hi. destruct (H i Hi) as [(j & d & -> & Hd & D) Hn].
      split; [by exists d|done].
  - assert (no_underscores t = t) as ->.
    { unfold no_underscores. induction t as [|x t IH]; [done|]. rewrite filter_cons.
      rewrite decide_True by (intros ->; apply E; left). f_equal. apply IH. intros H. apply E. by right. }
    split; [|by intros [_ ->]]. intros H. injection H as <-. split; [|done].
    intros i Hi. exfalso. apply E. by apply list_elem_of_lookup_2 in Hi.
Qed.

(** ** Runs of digits *)

(** No digit at the cursor. *)
Definition stops (t : text) : Prop := match t with Ch :: _ => IsAsciiDigit Ch = false | [] => True end.

Lemma take_digits_app (ds r : text) : all_digits ds -> stops r -> take_digits (ds ++ r) = (ds, r).
Proof.
  intros Hd Hr. induction Hd as [|c ds Hc Hds IH]; cbn [app].
  - destruct r as [|c r]; cbn in *; [done|]. by rewrite Hr.
  - cbn [take_digits]. change (is_digit c) with (IsAsciiDigit c) in Hc. by rewrite Hc, IH.
Qed.

Lemma take_digits_split (t : text) :
  t = (take_digits t).1 ++ (take_digits t).2 /\ all_digits (take_digits t).1 /\ stops (take_digits t).2.
Proof.
  induction t as [|c t (E & Hd & Hs)]; cbn [take_digits]; [by repeat split; constructor|].
  destruct (take_digits t) as [d r]. cbn [fst snd] in *. destruct (IsAsciiDigit c) eqn:D; cbn [fst snd app].
  - split; [by f_equal|]. split; [by constructor|done].
  - split; [done|]. split; [constructor|done].
Qed.

Lemma take_sign_split (t : text) : exists sgn, t = sgn ++ (take_sign t).2 /\ sign_text (take_sign t).1 sgn.
Proof.
  destruct t as [|c t]; cbn [take_sign]; [exists []; split; [done|constructor]|].
  case_bool_decide as E; cbn [fst snd]; [|exists []; split; [done|constructor]].
  destruct E as [-> | ->]; [exists [x2b]|exists [x2d]]; (split; [done|]); constructor.
Qed.

Definition unsigned (t : text) : Prop := match t with Ch :: _ => Ch <> x2b /\ Ch <> x2d | [] => True end.

Lemma take_sign_app (neg : bool) (sgn t : text) : sign_text neg sgn -> unsigned t ->
  take_sign (sgn ++ t) = (neg, t).
Proof.
  intros [] Ht; [|done|done]. cbn [app]. destruct t as [|c t]; [done|]. cbn in Ht |- *.
  by rewrite bool_decide_false by (intros [->| ->]; tauto).
Qed.

Lemma digits_unsigned (ds t : text) : all_digits ds -> ds <> [] -> unsigned (ds ++ t).
Proof. intros Hd Hne. destruct Hd as [|c ds Hc Hds]; [done|]. cbn. by split; intros ->. Qed.

(** ** Exponents *)

(** The clamp changes an exponent only far beyond the range of doubles. *)
Definition close (E E' : Z) : Prop :=
  E' = E \/ (10 ^ 8 <= E /\ 10 ^ 8 <= E') \/ (E <= - 10 ^ 8 /\ E' <= - 10 ^ 8).

Lemma close_opp (E E' : Z) : close E E' -> close (- E) (- E').
Proof. unfold close. lia. Qed.

Lemma exponent_fold (X : text) : all_digits X -> (length X <= 8)%nat ->
  foldl exponent_step 0 X = dec_value X.
Proof.
  induction X as [|c X IH] using rev_ind; intros HX Hl; [done|].
  apply Forall_app in HX as [HX Hc]. rewrite length_app in Hl. cbn [length] in Hl.
  rewrite foldl_app, IH by (done || lia). rewrite dec_value_app, dec_value_single. cbn [foldl].
  pose proof (dec_value_bounds X HX) as HB.
  assert (10 ^ Z.of_nat (length X) <= 10 ^ 7) by (apply Z.pow_le_mono_r; lia).
  unfold exponent_step. destruct (Z.leb_spec (dec_value X) kMaxAbsExp); [|unfold kMaxAbsExp in *; lia].
  unfold digit_value. change (10 ^ Z.of_nat (length [c])) with 10. lia.
Qed.

Lemma clamp_exponent_close (X : text) : all_digits X -> head X <> Some x30 ->
  close (dec_value X) (clamp_exponent (length X) (foldl exponent_step 0 X)).
Proof.
  intros HX Hh. unfold clamp_exponent. destruct (Nat.ltb_spec 8 (length X)) as [Hl|Hl]; cbn [orb].
  - right. left. split; [|unfold kMaxAbsExp; lia].
    pose proof (leading_digit X HX ltac:(intros ->; cbn in Hl; lia) Hh).
    transitivity (10 ^ (Z.of_nat (length X) - 1)); [apply Z.pow_le_mono_r; lia|lia].
  - rewrite exponent_fold by done. pose proof (dec_value_bounds X HX).
    assert (10 ^ Z.of_nat (length X) <= 10 ^ 8) by (apply Z.pow_le_mono_r; lia).
    destruct (Z.ltb_spec kMaxAbsExp (dec_value X)); [unfold kMaxAbsExp in *; lia|by left].
Qed.

Lemma skip_zeros_drop (t : text) : skip_zeros t = drop_zeros t.
Proof. induction t as [|c t IH]; [done|]. cbn. by rewrite IH. Qed.

Lemma skip_zeros_digits (X r : text) : all_digits X -> stops r ->
  take_digits (skip_zeros (X ++ r)) = (drop_zeros X, r).
Proof.
  intros HX Hr. induction HX as [|c X Hc HX IH]; cbn [app skip_zeros drop_zeros].
  - destruct r as [|c r]; [done|]. cbn in Hr |- *. rewrite bool_decide_false by (intros ->; done).
    cbn. by rewrite Hr.
  - case_bool_decide; [done|]. apply (take_digits_app (c :: X)); [by constructor|done].
Qed.

Lemma drop_zeros_digits (X : text) : all_digits X ->
  all_digits (drop_zeros X) /\ dec_value (drop_zeros X) = dec_value X /\ head (drop_zeros X) <> Some x30.
Proof.
  intros HX. destruct (drop_zeros_spec X) as (k & E & Hh). split; [|split; [|done]].
  - rewrite E in HX. by apply Forall_app in HX as [_ HX].
  - rewrite E at 2. by rewrite replicate_zeros_value.
Qed.

(** The exponent reader on the text of an exponent followed by [r]. *)
Lemma parse_exponent_some (Ch : byte) (neg : bool) (sgn X r : text) :
  Ch = x65 \/ Ch = x45 -> sign_text neg sgn -> all_digits X -> X <> [] -> stops r ->
  exists E', parse_exponent (Ch :: sgn ++ X ++ r) = (E', r) /\
    close (if neg then - dec_value X else dec_value X) E'.
Proof.
  intros HCh Hs HX Hne Hr. cbn [parse_exponent]. rewrite bool_decide_true by done.
  rewrite (take_sign_app neg) by (done || by apply digits_unsigned).
  assert (exists c t, X ++ r = c :: t /\ IsAsciiDigit c = true) as (c & t & E & Hc).
  { destruct HX as [|c X Hc HX]; [done|]. by exists c, (X ++ r). }
  pose proof (skip_zeros_digits X r HX Hr) as Hz. rewrite E in Hz |- *. cbv iota beta. rewrite Hc, Hz. eexists. split; [reflexivity|].
  destruct (drop_zeros_digits X HX) as (HD & EV & Hh). rewrite <- EV.
  destruct neg; [apply close_opp|]; by apply clamp_exponent_close.
Qed.

Lemma parse_exponent_sound (t : text) (E' : Z) : parse_exponent t = (E', []) ->
  exists E, exponent_text E t /\ close E E'.
Proof.
  destruct t as [|Ch t]; cbn [parse_exponent].
  { intros H. injection H as <-. exists 0. split; [constructor|by left]. }
  case_bool_decide as HCh; [|done].
  destruct (take_sign_split t) as (sgn & Et & Hs). destruct (take_sign t) as [neg Probe]. cbn [fst snd] in *.
  destruct Probe as [|Next P]; [done|]. destruct (IsAsciiDigit Next) eqn:HN; [|done].
  destruct (take_digits_split (Next :: P)) as (EP & HX & Hr).
  set (X := (take_digits (Next :: P)).1) in *. set (r := (take_digits (Next :: P)).2) in *.
  assert (X <> []) as Hne by (unfold X; cbn [take_digits]; rewrite HN; by destruct (take_digits P)).
  rewrite EP. rewrite skip_zeros_digits by done. intros H. injection H as HE Er.
  destruct (parse_exponent_some Ch neg sgn X r HCh Hs HX Hne Hr) as (E'' & Hpar & Hcl).
  exists (if neg then - dec_value X else dec_value X). split.
  - rewrite Et, EP, Er, app_nil_r. by constructor.
  - destruct (drop_zeros_digits X HX) as (HD & EV & Hh). rewrite <- HE, <- EV.
    destruct neg; [apply close_opp|]; by apply clamp_exponent_close.
Qed.

(** Exponents that far out give the same double. *)
Lemma DecimalToDouble_close (neg : bool) (D : text) (E E' f : Z) :
  all_digits D -> 0 <= f <= 10 ^ 7 -> Z.of_nat (length D) <= 10 ^ 7 -> close E E' ->
  DecimalToDouble neg D (E' - f) = DecimalToDouble neg D (E - f).
Proof.
  change (10 ^ 7) with 10000000. unfold close. change (10 ^ 8) with 100000000.
  intros HD Hf Hl [->|[[H1 H2]|[H1 H2]]]; [done| |]; rewrite !DecimalToDouble_value by done;
    pose proof (dec_value_bounds D HD); destruct (Z.eqb_spec (dec_value D) 0); try done; f_equal.
  - rewrite !(nearest_decimal_huge _ _ 1) by (change (10 ^ (1 - 1)) with 1; lia). done.
  - assert (0 < Z.of_nat (length D)).
    { destruct D; [done|]. cbn [length]. lia. }
    rewrite !(nearest_decimal_small _ _ (Z.of_nat (length D))) by lia. done.
Qed.

(** ** Infinities and NaN *)

Lemma EqualsIgnoreCase_spec (W : text) : forall t,
  EqualsIgnoreCase t W = true <-> map lower (take (length W) t) = W.
Proof.
  induction W as [|w W IH]; intros t; cbn [EqualsIgnoreCase length]; [by destruct t|].
  destruct t as [|c t]; [done|]. cbn [EqualsIgnoreCase length take map]. rewrite andb_true_iff, bool_decide_eq_true, IH.
  split; [intros [-> H]; by f_equal|]. intros H. by injection H.
Qed.

Lemma equals_split (W t : text) : EqualsIgnoreCase t W = true ->
  exists w, t = w ++ drop (length W) t /\ map lower w = W.
Proof. intros H. exists (take (length W) t). by rewrite take_drop, <- EqualsIgnoreCase_spec. Qed.

Lemma equals_app (W w r : text) : map lower w = W -> EqualsIgnoreCase (w ++ r) W = true.
Proof.
  intros H. apply EqualsIgnoreCase_spec. rewrite <- H at 1. by rewrite length_map, take_app_length.
Qed.

Lemma equals_head (W t : text) (c : byte) : head W = Some c -> EqualsIgnoreCase t W = true ->
  exists x r, t = x :: r /\ lower x = c.
Proof.
  destruct W as [|w W]; [done|]. cbn [head]. intros E. injection E as ->.
  destruct t as [|x t]; [done|]. cbn [EqualsIgnoreCase]. intros H. bool_props. eauto.
Qed.

(** The first letter of a special is no sign, digit or point. *)
Lemma special_head (x : byte) : lower x = x69 \/ lower x = x6e ->
  x <> x2b /\ x <> x2d /\ x <> x2e /\ IsAsciiDigit x = false.
Proof. destruct x; cbn; intros [H|H]; try discriminate H; repeat split; discriminate. Qed.

Lemma map_lower_head (w W : text) (c : byte) : map lower w = W -> head W = Some c ->
  exists x r, w = x :: r /\ lower x = c.
Proof. intros <-. destruct w as [|x r]; [done|]. cbn. intros E. injection E as E. eauto. Qed.

Lemma parse_special_spec (v : dbl) (Body : text) :
  parse_special Body = Some v <-> special_text v Body.
Proof.
  unfold parse_special. split.
  - destruct (take_sign_split Body) as (sgn & E & Hs). destruct (take_sign Body) as [neg P]. cbn [fst snd] in *.
    destruct (EqualsIgnoreCase P (B "inf")) eqn:E1.
    + apply equals_split in E1 as (w & EP & Hw). change (length (B "inf")) with 3%nat in EP.
      destruct (EqualsIgnoreCase (drop 3 P) (B "inity")) eqn:E2.
      * apply equals_split in E2 as (w2 & EP2 & Hw2). change (length (B "inity")) with 5%nat in EP2.
        destruct (drop 5 (drop 3 P)) eqn:E3; [|done]. intros H. injection H as <-.
        rewrite E, EP, EP2, app_nil_r. constructor; [done|]. right. by rewrite map_app, Hw, Hw2.
      * destruct (drop 3 P) eqn:E3; [|done]. intros H. injection H as <-.
        rewrite E, EP, app_nil_r. constructor; [done|by left].
    + destruct (EqualsIgnoreCase P (B "nan")) eqn:E2; [|done].
      apply equals_split in E2 as (w & EP & Hw). change (length (B "nan")) with 3%nat in EP.
      destruct (drop 3 P) eqn:E3; [|done]. intros H. injection H as <-.
      rewrite E, EP, app_nil_r. by apply (special_nan neg).
  - assert (forall (W w : text) c, map lower w = W -> head W = Some c -> c = x69 \/ c = x6e -> unsigned w) as Hu.
    { intros W w c H Hc Hor. destruct (map_lower_head w W c H Hc) as (x & r & -> & E).
      destruct (special_head x) as (? & ? & _ & _); [by rewrite E|done]. }
    intros [neg sgn w Hs [Hw|Hw]|neg sgn w Hs Hw]; rewrite (take_sign_app neg) by
      (done || (eapply Hu; [exact Hw|reflexivity|by (left + right)])).
    + pose proof (equals_app (B "inf") w [] Hw) as E. rewrite app_nil_r in E. rewrite E.
      assert (drop 3 w = []) as ->; [|done]. apply drop_ge.
      rewrite <- (length_map lower), Hw. by vm_compute.
    + assert (map lower (take 3 w) = B "inf") as H1 by (rewrite <- firstn_map, Hw; done).
      assert (map lower (drop 3 w) = B "inity") as H2 by (rewrite <- skipn_map, Hw; done).
      pose proof (equals_app _ _ (drop 3 w) H1) as E. rewrite take_drop in E. rewrite E.
      pose proof (equals_app _ _ [] H2) as E2. rewrite app_nil_r in E2. rewrite E2, drop_drop.
      rewrite drop_ge; [done|]. rewrite <- (length_map lower), Hw. by vm_compute.
    + assert (EqualsIgnoreCase w (B "inf") = false) as ->.
      { apply not_true_iff_false. intros H. destruct (equals_head (B "inf") w x69 eq_refl H) as (x & r & -> & Hx).
        destruct (map_lower_head _ _ x6e Hw eq_refl) as (x' & r' & E & Hx'). congruence. }
      pose proof (equals_app (B "nan") w [] Hw) as E. rewrite app_nil_r in E. rewrite E.
      assert (drop 3 w = []) as ->; [|done]. apply drop_ge.
      rewrite <- (length_map lower), Hw. by vm_compute.
Qed.

(** ** The body *)

Lemma parse_fraction_split (t : text) : stops t -> 
  exists frac, t = frac ++ (parse_fraction t).2 /\ fraction_text (parse_fraction t).1 frac.
Proof.
  destruct t as [|c t]; intros Hs; cbn [parse_fraction]; [exists []; split; [done|constructor]|].
  case_bool_decide as E; [subst c|exists []; split; [done|constructor]].
  destruct (take_digits_split t) as (Et & Hd & _). exists (x2e :: (take_digits t).1).
  split; [cbn [app]; by f_equal|]. by constructor.
Qed.

Definition pointless (t : text) : Prop := match t with Ch :: _ => Ch <> x2e | [] => True end.

Lemma parse_fraction_app (F frac r : text) : fraction_text F frac -> stops r -> pointless r ->
  parse_fraction (frac ++ r) = (F, r).
Proof.
  intros [|F' HF] Hs Hp; cbn [app].
  - destruct r as [|c r]; [done|]. cbn in *. by rewrite bool_decide_false.
  - cbn [parse_fraction]. rewrite bool_decide_true by done. by apply take_digits_app.
Qed.

Lemma exponent_text_starts (E : Z) (ex : text) : exponent_text E ex -> stops ex /\ pointless ex.
Proof. intros [|Ch sgn neg X [-> | ->] Hs HX Hne]; done. Qed.

Lemma fraction_text_starts (F frac r : text) : fraction_text F frac -> stops r -> stops (frac ++ r).
Proof. by intros [|F' HF]. Qed.

Lemma fraction_digits (F frac : text) : fraction_text F frac -> all_digits F.
Proof. intros [|F' HF]; [constructor|done]. Qed.

Lemma fraction_length (F frac : text) : fraction_text F frac -> (length F <= length frac)%nat.
Proof. intros [|F' HF]; cbn; lia. Qed.

Lemma parse_body_spec (v : dbl) (Body : text) : Z.of_nat (length Body) <= 10 ^ 7 ->
  parse_body Body = Some v <-> number_text v Body \/ special_text v Body.
Proof.
  intros Hlen. split.
  - unfold parse_body. destruct (take_sign_split Body) as (sgn & E1 & Hs).
    destruct (take_sign Body) as [neg P1]. cbn [fst snd] in *.
    destruct (take_digits_split P1) as (E2 & HI & St). destruct (take_digits P1) as [I P2]. cbn [fst snd] in *.
    destruct (parse_fraction_split P2 St) as (frac & E3 & HF). destruct (parse_fraction P2) as [F P3].
    cbn [fst snd] in *. destruct (I ++ F) as [|c l] eqn:ED.
    { intros H. right. by apply parse_special_spec. }
    rewrite <- ED. destruct (parse_exponent P3) as [E' P4] eqn:EE. destruct P4; [|done].
    intros H. injection H as <-. left. destruct (parse_exponent_sound P3 E' EE) as (E & Hex & Hcl).
    assert (all_digits (I ++ F)) as HD by (apply Forall_app; split; [done|by eapply fraction_digits]).
    pose proof (fraction_length F frac HF) as HFl.
    assert (length Body = (length sgn + (length I + (length frac + length P3)))%nat) as EL
      by (rewrite E1, E2, E3, !length_app; done).
    rewrite (DecimalToDouble_close neg (I ++ F) E) by (try done; rewrite ?length_app; lia).
    rewrite E1, E2, E3. by constructor; [|..|rewrite ED|].
  - intros [Hn|Hsp].
    + destruct Hn as [neg sgn I F frac E ex Hs HI HF Hne Hex].
      assert (all_digits (I ++ F)) as HD by (apply Forall_app; split; [done|by eapply fraction_digits]).
      destruct (exponent_text_starts E ex Hex) as [St Pt].
      assert (unsigned (I ++ frac ++ ex)) as Hu.
      { destruct I as [|c I]; [|apply digits_unsigned; done].
        destruct HF as [|F' HF]; [done|]. cbn. by split. }
      unfold parse_body. rewrite (take_sign_app neg) by done.
      rewrite (take_digits_app I) by (try done; by eapply fraction_text_starts).
      rewrite (parse_fraction_app F) by done.
      destruct (I ++ F) as [|c l] eqn:ED; [done|]. rewrite <- ED in *.
      assert (exists E', parse_exponent ex = (E', []) /\ close E E') as (E' & -> & Hcl).
      { destruct Hex as [|Ch s' n' X HCh Hs' HX HX0]; [exists 0; split; [done|by left]|].
        destruct (parse_exponent_some Ch n' s' X [] HCh Hs' HX HX0 Logic.I) as (E' & H & Hc).
        rewrite app_nil_r in H. eauto. }
      f_equal. pose proof (fraction_length F frac HF) as HFl. rewrite !length_app in Hlen.
      apply DecimalToDouble_close; [done| | |done]; rewrite ?length_app; lia.
    + apply parse_special_spec in Hsp as Hp. rewrite <- Hp. unfold parse_body.
      assert (exists neg sgn x r, Body = sgn ++ x :: r /\ sign_text neg sgn /\ (lower x = x69 \/ lower x = x6e))
        as (neg & sgn & x & r & EB & Hs & Hx).
      { destruct Hsp as [neg sgn w Hs [Hw|Hw]|neg sgn w Hs Hw].
        1, 2: destruct (map_lower_head _ _ x69 Hw eq_refl) as (x & r & -> & Hx); exists neg, sgn, x, r; auto.
        destruct (map_lower_head _ _ x6e Hw eq_refl) as (x & r & -> & Hx). exists neg, sgn, x, r. auto. }
      destruct (special_head x Hx) as (X1 & X2 & X3 & X4).
      rewrite EB at 1. rewrite (take_sign_app neg) by done. cbn [take_digits]. rewrite X4.
      cbn [parse_fraction]. by rewrite bool_decide_false.
Qed.

(** ** The whole text *)

Lemma strip_spaces_trim (t : text) : strip_spaces t = trim_right (trim_left t).
Proof.
  assert (forall u, skip_spaces u = trim_left u) as E.
  { induction u as [|c u IH]; [done|]. cbn. by rewrite IH. }
  unfold strip_spaces, trim_right. by rewrite !E.
Qed.

(** A byte of a literal's body: neither white space nor NUL. *)
Definition body_byte (Ch : byte) : Prop := IsSpace Ch = false /\ Ch <> x00.

Lemma body_byte_digit (Ch : byte) : is_digit Ch = true -> body_byte Ch.
Proof. intros H. split; [by apply digit_not_space|]. by intros ->. Qed.

Lemma body_digits (X : text) : all_digits X -> Forall body_byte X.
Proof. intros H. apply (Forall_impl _ _ _ H), body_byte_digit. Qed.

Lemma body_sign (neg : bool) (sgn : text) : sign_text neg sgn -> Forall body_byte sgn.
Proof. by intros []; repeat constructor. Qed.

Lemma body_letters (w W : text) : map lower w = W -> Forall (fun c => 97 <= code c) W -> Forall body_byte w.
Proof.
  intros <- H. rewrite Forall_map in H. apply (Forall_impl _ _ _ H). intros c Hc.
  assert (forall x, lower c = x -> code x < 97 -> False) as Hno by (intros x Hx; rewrite Hx in Hc; lia).
  split; [|intros ->; by apply (Hno x00)]. apply bool_decide_eq_false. intros Hin. set_unfold in Hin.
  destruct_or! Hin; subst; by eapply Hno.
Qed.

Lemma literal_body (v : dbl) (Body : text) : number_text v Body \/ special_text v Body ->
  Forall body_byte Body /\ Body <> [].
Proof.
  intros [[neg sgn I F frac E ex Hs HI HF Hne Hex]|Hsp].
  - split.
    + repeat apply Forall_app_2; [by eapply body_sign|by apply body_digits| |].
      * destruct HF as [|F' HF]; [constructor|]. constructor; [done|by apply body_digits].
      * destruct Hex as [|Ch s' n' X HCh Hs' HX _]; [constructor|].
        constructor; [by destruct HCh as [-> | ->]|].
        apply Forall_app_2; [by eapply body_sign|by apply body_digits].
    + intros C. apply app_nil in C as [_ C]. apply app_nil in C as [-> C]. apply app_nil in C as [C _].
      subst frac. inversion HF; subst. done.
  - assert (forall W w sgn neg, map lower w = W -> Forall (fun c => 97 <= code c) W -> W <> [] ->
      sign_text neg sgn -> Forall body_byte (sgn ++ w) /\ sgn ++ w <> []) as H.
    { intros W w sgn neg Hw HW Hne Hs. split.
      - apply Forall_app_2; [by eapply body_sign|by eapply body_letters].
      - intros C. apply app_nil in C as [_ ->]. by apply Hne. }
    destruct Hsp as [neg sgn w Hs [Hw|Hw]|neg sgn w Hs Hw]; eapply H; try exact Hw; try exact Hs;
      try done; by repeat constructor.
Qed.

Lemma strip_spaces_app (a Body b : text) : spaces a -> spaces b -> Forall body_byte Body -> Body <> [] ->
  strip_spaces (a ++ Body ++ b) = Body.
Proof.
  intros Ha Hb HB Hne. rewrite strip_spaces_trim, trim_left_app by done.
  assert (trim_left (Body ++ b) = Body ++ b) as ->.
  { destruct HB as [|c t [Hc _] Ht]; [done|]. by apply trim_left_stop. }
  destruct (exists_last Hne) as (u & e & ->). apply Forall_app in HB as [_ HB].
  apply Forall_singleton in HB as [He _]. by apply trim_right_app.
Qed.

Lemma PyFloatAscii_spec (Input : text) (v : dbl) : Z.of_nat (length Input) <= 10 ^ 7 ->
  PyFloatAscii Input = Some v <-> py_float_literal v Input.
Proof.
  intros Hlen. unfold PyFloatAscii, py_float_literal.
  assert (length (no_underscores Input) <= length Input)%nat as HT by apply length_filter.
  split.
  - case_bool_decide as H0; [done|].
    destruct (clean_underscores Input) as [Text|] eqn:EC; [|done]. cbn [mbind option_bind].
    apply clean_underscores_spec in EC as [Hg ->]. intros H. split; [done|].
    rewrite strip_spaces_trim in H.
    destruct (trim_left_split (no_underscores Input)) as (a & E1 & Ha).
    destruct (trim_right_split (trim_left (no_underscores Input))) as (b & E2 & Hb).
    set (Body := trim_right (trim_left (no_underscores Input))) in *.
    assert (no_underscores Input = a ++ Body ++ b) as E by (by rewrite <- E2).
    exists a, Body, b. split; [done|]. split; [done|]. split; [done|].
    apply parse_body_spec; [|by destruct Body].
    rewrite E, !length_app in HT. lia.
  - intros (Hg & a & Body & b & E & Ha & Hb & Hbody). destruct (literal_body v Body Hbody) as [HB Hne].
    rewrite bool_decide_false.
    + assert (clean_underscores Input = Some (no_underscores Input)) as -> by by apply clean_underscores_spec.
      cbn [mbind option_bind]. rewrite E, strip_spaces_app by done. 
      assert (parse_body Body = Some v) as Hp.
      { apply parse_body_spec; [|done]. rewrite E, !length_app in HT. lia. }
      by destruct Body.
    + intros Hin. assert (x00 ∈ no_underscores Input) as Hin2 by (apply list_elem_of_filter; done).
      rewrite E in Hin2. apply elem_of_app in Hin2 as [Hin2|Hin2]; [|apply elem_of_app in Hin2 as [Hin2|Hin2]].
      * unfold spaces in *; rewrite Forall_forall in Ha. by specialize (Ha _ Hin2).
      * rewrite Forall_forall in HB. by destruct (HB _ Hin2).
      * unfold spaces in *; rewrite Forall_forall in Hb. by specialize (Hb _ Hin2).
Qed.

(** A number without white space is read as it stands. *)
Lemma number_plain (v : dbl) (t : text) : number_text v t -> Forall (fun c => c <> x5f) t.
Proof.
  assert (forall s, all_digits s -> Forall (fun c => c <> x5f) s) as Hd.
  { intros s Hs. apply (Forall_impl _ _ _ Hs). by intros c Hc ->. }
  assert (forall b s, sign_text b s -> Forall (fun c => c <> x5f) s) as Hs by (by intros b s []; repeat constructor).
  intros [neg sgn I F frac E ex H1 H2 H3 H4 H5]. repeat apply Forall_app_2; [by eapply Hs|by apply Hd| |].
  - destruct H3; constructor; [done|by apply Hd].
  - destruct H5 as [|Ch s' n' X HCh Hs' HX _]; constructor; [by destruct HCh as [-> | ->]|].
    apply Forall_app_2; [by eapply Hs|by apply Hd].
Qed.

Lemma number_reads (v : dbl) (t : text) : number_text v t -> Z.of_nat (length t) <= 10 ^ 7 ->
  PyFloatAscii t = Some v.
Proof.
  intros Hn Hl. apply PyFloatAscii_spec; [done|]. pose proof (number_plain v t Hn) as Hp. split.
  - intros i Hi. rewrite Forall_forall in Hp. by destruct (Hp _ (list_elem_of_lookup_2 _ _ _ Hi)).
  - exists [], t, []. split; [|split; [by constructor|split; [by constructor|by left]]]. rewrite app_nil_r.
    unfold no_underscores. clear Hn Hl. induction Hp as [|c t Hc Hp IH]; [done|].
    rewrite filter_cons, decide_True by done. by rewrite IH.
Qed.

(** C16: On texts of at most ten million bytes [PyFloatAscii] reads exactly those
    Python's float() accepts, each with its value: underscores between digits, white space around, a signed
    decimal number with optional fraction and exponent (correctly rounded), or
    inf, infinity and nan in any case. *)
Theorem PyFloatAscii_grammar (Input : text) (v : dbl) : Z.of_nat (length Input) <= 10 ^ 7 ->
  PyFloatAscii Input = Some v <-> py_float_literal v Input.
Proof. apply PyFloatAscii_spec. Qed.

Lemma PyFloatAscii_grammar_witness : py_float_literal (DecimalToDouble true (B "125") (-2)) (B " -1_2.5e-1 ").
Proof. apply PyFloatAscii_grammar; [vm_compute; discriminate|]. vm_compute. reflexivity. Defined.
