(* ===== verification/PyRepr.v ===== *)
(** * Doubles to decimal texts (src/src/diff/PyValue.cpp)

    [ExactDecimal] expands a positive double to all its decimal digits,
    [ShortestDigits] finds the shortest digits that read back as the same
    double, and [PyReprFloat] lays them out as Python's [repr] does. *)

From Stdlib Require Import ZArith Lia SpecFloat.
From stdpp Require Import base option numbers list.
From S2P Require Import Prelude Dbl Decimal PyBig PyDecimal RoundNearest DblRound PyDecimalSpec.
From S2P Require Import PyFloat.
Local Open Scope Z_scope.

(** [static_cast<uint64_t>] of a non-negative double below 2^64. *)
Definition d_to_u64 (x : dbl) : Z :=
  match x with S754_finite false m e => w64 (Z.shiftl (Z.pos m) e) | _ => 0 end.

(** [while ((Mantissa & 1u) == 0)]: at most 63 rounds for a number that is not 0. *)
Fixpoint strip_even (fuel : nat) (Mantissa Exp2 : Z) : Z * Z :=
  match fuel with
  | O => (Mantissa, Exp2)
  | S fuel' =>
      if Z.land Mantissa 1 =? 0 then strip_even fuel' (Z.shiftr Mantissa 1) (Exp2 + 1)
      else (Mantissa, Exp2)
  end.

Definition ExactDecimal (V : dbl) : text * Z :=
  let '(Fraction, Exp) := SFfrexp 53 1024 V in
  let '(Mantissa, Exp2) := strip_even 64 (d_to_u64 (dldexp Fraction 53)) (Exp - 53) in
  let '(Digits, DecPt) :=
    if 0 <=? Exp2 then
      let Digits := ToDecimal (ShiftLeft Exp2 (PyBigUInt Mantissa)) in
      (Digits, Z.of_nat (length Digits))
    else
      let Digits := ToDecimal (MulPow5 (- Exp2) (PyBigUInt Mantissa)) in
      (Digits, Z.of_nat (length Digits) + Exp2) in
  (drop_last_zeros Digits, DecPt).

(** From the last digit: the digits, least significant first, and the carry. *)
Fixpoint increment_loop (Reversed : text) : text * bool :=
  match Reversed with
  | [] => ([], true)
  | Ch :: r =>
      if bool_decide (Ch = x39) then let '(r', Carry) := increment_loop r in (x30 :: r', Carry)
      else (byte_of_code (code Ch + 1) :: r, false)
  end.
Definition IncrementDigits (Digits : text) : text * bool :=
  let '(r, Carry) := increment_loop (reverse Digits) in
  (if Carry : bool then x31 :: reverse r else reverse r, Carry).

Definition pop_back (t : text) : text := take (length t - 1) t.
Definition back (t : text) : byte := default x00 (last t).

(** The two candidates with [Precision] digits around the exact value. *)
Definition candidates (Exact : text) (DecPt : Z) (Precision : nat) : (text * Z) * (text * Z) :=
  let Down := take Precision Exact in
  let '(Up, Carry) := IncrementDigits Down in
  ((Down, DecPt), if Carry : bool then (pop_back Up, DecPt + 1) else (Up, DecPt)).

Definition reads_as (V : dbl) (Candidate : text * Z) : bool :=
  deq (DecimalToDouble false Candidate.1 (Candidate.2 - Z.of_nat (length Candidate.1))) V.

(** Nearest to the exact value; an exact tie takes the even last digit. *)
Definition take_up (Exact Down : text) (Precision : nat) (DownOk UpOk : bool) : bool :=
  if DownOk && UpOk then
    match drop Precision Exact with
    | [] => false
    | Ch :: Rest =>
        let Cmp := if 53 <? code Ch then 1 else if code Ch <? 53 then -1
                   else match Rest with [] => 0 | _ => 1 end in
        (0 <? Cmp) || ((Cmp =? 0) && negb (Z.rem (code (back Down) - 48) 2 =? 0))
    end
  else UpOk && negb DownOk.

(** The loop over [Precision], with [n] precisions to go. *)
Fixpoint shortest_loop (n : nat) (Precision : nat) (V : dbl) (Exact : text) (DecPt : Z) : text * Z :=
  match n with
  | O => (Exact, DecPt)
  | S n' =>
      if (length Exact <=? Precision)%nat then (Exact, DecPt)
      else
        let '(Down, Up) := candidates Exact DecPt Precision in
        let DownOk := reads_as V Down in
        let UpOk := reads_as V Up in
        if negb DownOk && negb UpOk then shortest_loop n' (S Precision) V Exact DecPt
        else
          let '(OutDigits, OutDecPt) := if take_up Exact Down.1 Precision DownOk UpOk then Up else Down in
          (drop_last_zeros OutDigits, OutDecPt)
  end.

Definition ShortestDigits (V : dbl) : text * Z :=
  let '(Exact, DecPt) := ExactDecimal V in shortest_loop 17 1 V Exact DecPt.

(** The layouts of [float_repr_style]. *)
Definition exponent_form (Digits : text) (DecPt : Z) : text :=
  let Exp := DecPt - 1 in
  let ExpDigits := dec_text (Z.abs Exp) in
  take 1 Digits ++ (if (1 <? length Digits)%nat then x2e :: drop 1 Digits else [])
  ++ (if Exp <? 0 then B "e-" else B "e+")
  ++ (if (length ExpDigits <? 2)%nat then [x30] else []) ++ ExpDigits.

Definition positional_form (Digits : text) (DecPt : Z) : text :=
  let Count := Z.of_nat (length Digits) in
  if DecPt <=? 0 then B "0." ++ replicate (Z.to_nat (- DecPt)) x30 ++ Digits
  else if Count <=? DecPt then Digits ++ replicate (Z.to_nat (DecPt - Count)) x30 ++ B ".0"
  else take (Z.to_nat DecPt) Digits ++ [x2e] ++ drop (Z.to_nat DecPt) Digits.

Definition repr_positive (V : dbl) : text :=
  let '(Digits, DecPt) := ShortestDigits V in
  if (DecPt <=? -4) || (16 <? DecPt) then exponent_form Digits DecPt else positional_form Digits DecPt.

Definition PyReprFloat (Value : dbl) : text :=
  match Value with
  | S754_nan => B "nan"
  | S754_infinity true => B "-inf"
  | S754_infinity false => B "inf"
  | S754_zero true => B "-0.0"
  | S754_zero false => B "0.0"
  | S754_finite true _ _ => x2d :: repr_positive (dopp Value)
  | S754_finite false _ _ => repr_positive Value
  end.

Example repr_tenth : PyReprFloat (dlit 1 10) = B "0.1".
Proof. vm_compute. reflexivity. Qed.
Example repr_third : PyReprFloat (dopp (dlit 1 3)) = B "-0.3333333333333333".
Proof. vm_compute. reflexivity. Qed.
Example repr_large : PyReprFloat (d_of_Z (10 ^ 16)) = B "1e+16".
Proof. vm_compute. reflexivity. Qed.
Example repr_hundred : PyReprFloat (d_of_Z 100) = B "100.0".
Proof. vm_compute. reflexivity. Qed.

(** * The texts of doubles read back

    [ExactDecimal] is exact, [ShortestDigits] reads back as the same double
    and no shorter digits do, and so [float(repr(x))] is [x]. *)

(** ** Values of decimals *)

(** [v * 10^e] in units of 2^-1074. *)
Definition dec_num (v e : Z) : Z := v * 10 ^ Z.max 0 e * 2 ^ 1074.

(** The decimal [v * 10^e] is worth [u] units. *)
Definition worth (v e u : Z) : Prop := dec_num v e = u * decimal_den e.

Lemma dec_cross (v z e : Z) : 0 <= z ->
  dec_num (v * 10 ^ z) (e - z) * decimal_den e = dec_num v e * decimal_den (e - z).
Proof.
  intros Hz. unfold dec_num, decimal_den.
  assert (10 ^ z * 10 ^ Z.max 0 (e - z) * 10 ^ Z.max 0 (- e) = 10 ^ Z.max 0 e * 10 ^ Z.max 0 (- (e - z))) as E.
  { rewrite <- !Z.pow_add_r by lia. f_equal. lia. }
  transitivity (v * 2 ^ 1074 * (10 ^ z * 10 ^ Z.max 0 (e - z) * 10 ^ Z.max 0 (- e))); [ring|].
  rewrite E. ring.
Qed.

Lemma dec_round_shift (v z e : Z) : 0 <= z ->
  round_units false (dec_num (v * 10 ^ z) (e - z)) (decimal_den (e - z))
  = round_units false (dec_num v e) (decimal_den e).
Proof. intros Hz. apply round_units_cross; [apply decimal_den_pos..|]. by apply dec_cross. Qed.

Lemma worth_shift (v z e u : Z) : 0 <= z -> worth (v * 10 ^ z) (e - z) u <-> worth v e u.
Proof.
  intros Hz. unfold worth. pose proof (dec_cross v z e Hz) as E.
  pose proof (decimal_den_pos e). pose proof (decimal_den_pos (e - z)). split; intros; nia.
Qed.

(** ** The exact expansion *)

Lemma d_to_u64_units (x : dbl) (k : Z) : pos_double x -> units x = k * 2 ^ 1074 -> 0 <= k < 2 ^ 64 ->
  d_to_u64 x = k.
Proof.
  intros [V S] E Hk. destruct x as [[]|?| |[] m e]; try done; unfold units, d_to_u64 in *.
  - pose proof (pow2_pos 1074). nia.
  - apply valid_finite in V. rewrite Z.mul_1_l in E.
    destruct (Z.le_gt_cases 0 e).
    + rewrite Z.shiftl_mul_pow2 by done. rewrite Z.pow_add_r in E by lia.
      assert (Z.pos m * 2 ^ e = k) as -> by (pose proof (pow2_pos 1074 ltac:(lia)); nia). by apply w64_small.
    + replace e with (- (- e)) by lia. rewrite Z.shiftl_opp_r, Z.shiftr_div_pow2 by lia.
      assert (Z.pos m = k * 2 ^ (- e)) as ->.
      { apply (Z.mul_reg_r _ _ (2 ^ (e + 1074))); [pose proof (pow2_pos (e + 1074)); lia|].
        rewrite E, <- Z.mul_assoc, <- Z.pow_add_r by lia. do 2 f_equal. lia. }
      rewrite Z.div_mul by (pose proof (pow2_pos (- e)); lia). by apply w64_small.
Qed.

Lemma strip_even_spec (fuel : nat) : forall m x, 0 < m < 2 ^ Z.of_nat fuel ->
  let '(M, X) := strip_even fuel m x in
  Z.odd M = true /\ 0 < M <= m /\ x <= X /\ M * 2 ^ (X - x) = m.
Proof.
  induction fuel as [|fuel IH]; intros m x Hm; [change (2 ^ Z.of_nat 0) with 1 in Hm; lia|].
  cbn [strip_even]. pose proof (land_one_odd m) as Ho. destruct (Z.land m 1 =? 0).
  - cbn [negb] in Ho. symmetry in Ho. rewrite <- Z.negb_even, negb_false_iff in Ho.
    apply Z.even_spec in Ho as [h ->]. rewrite Z.shiftr_div_pow2 by lia. change (2 ^ 1) with 2.
    replace (2 * h / 2) with h by (symmetry; rewrite Z.mul_comm; apply Z.div_mul; lia).
    rewrite Nat2Z.inj_succ, Z.pow_succ_r in Hm by lia. specialize (IH h (x + 1) ltac:(lia)).
    destruct (strip_even fuel h (x + 1)) as [M X]. destruct IH as (H1 & H2 & H3 & H4).
    split; [done|]. split; [lia|]. split; [lia|]. rewrite <- H4.
    replace (X - x) with (1 + (X - (x + 1))) by lia. rewrite Z.pow_add_r by lia. change (2 ^ 1) with 2. lia.
  - cbn [negb] in Ho. split; [done|]. split; [lia|]. split; [lia|]. replace (x - x) with 0 by lia. lia.
Qed.

(** The mantissa and exponent [frexp] gives the loop. *)
Lemma frexp_mantissa (m : positive) (e : Z) : valid (S754_finite false m e) ->
  let '(Fraction, Exp) := SFfrexp 53 1024 (S754_finite false m e) in
  exists k, d_to_u64 (dldexp Fraction 53) = k /\ 2 ^ 52 <= k < 2 ^ 53 /\
    Exp - 53 <= e /\ Z.pos m * 2 ^ (e - (Exp - 53)) = k.
Proof.
  intros V. apply valid_finite in V. cbn [SFfrexp]. pose proof (digits2_pos_bounds m) as HB.
  assert (forall p : positive, 2 ^ 52 <= Z.pos p < 2 ^ 53 ->
    d_to_u64 (dldexp (S754_finite false p (- (53))) 53) = Z.pos p) as Hd.
  { intros p Hp. rewrite dldexp_units. change (- (53) + 53) with 0.
    rewrite pow2_units_nonneg by lia. change (0 + 1074) with 1074.
    destruct (round_units_exact (Z.pos p * 2 ^ 1074)) as [HP HU]; [by exists (Z.pos p), 1074; lia|].
    apply d_to_u64_units; [done|done|lia]. }
  destruct (Z.leb_spec 53 (Z.pos (digits2_pos m))) as [Hl|Hl].
  - assert (2 ^ 52 <= Z.pos m).
    { etransitivity; [|apply HB]. apply Z.pow_le_mono_r; lia. }
    exists (Z.pos m). split; [apply Hd; lia|]. split; [lia|]. split; [lia|].
    replace (e - (e + 53 - 53)) with 0 by lia. lia.
  - set (d := 53 - Z.pos (digits2_pos m)) in *.
    assert (Z.pos (Pos.iter xO m (Z.to_pos d)) = Z.pos m * 2 ^ d) as Ei.
    { rewrite <- (Z2Pos.id d) at 2 by lia. generalize (Z.to_pos d) as p. intros p. clear.
      induction p using Pos.peano_ind; [simpl; lia|].
      rewrite Pos.iter_succ, Pos2Z.inj_xO, IHp, Pos2Z.inj_succ, Z.pow_succ_r by lia. lia. }
    assert (2 ^ 52 <= Z.pos m * 2 ^ d < 2 ^ 53) as Hr.
    { pose proof (pow2_pos d ltac:(lia)).
      assert (2 ^ 52 = 2 ^ (Z.pos (digits2_pos m) - 1) * 2 ^ d) as -> by
        (rewrite <- Z.pow_add_r by lia; f_equal; lia).
      assert (2 ^ 53 = 2 ^ Z.pos (digits2_pos m) * 2 ^ d) as -> by
        (rewrite <- Z.pow_add_r by lia; f_equal; lia). nia. }
    exists (Z.pos m * 2 ^ d). rewrite <- Ei in Hr |- *. split; [by apply Hd|]. split; [done|].
    split; [lia|]. rewrite Ei. do 2 f_equal. lia.
Qed.

(** Digits without leading or trailing zeros. *)
Definition proper (D : text) : Prop :=
  all_digits D /\ D <> [] /\ head D <> Some x30 /\ last D <> Some x30.

Lemma dec_text_head (N : Z) : 0 < N ->
  all_digits (dec_text N) /\ dec_text N <> [] /\ head (dec_text N) <> Some x30 /\ dec_value (dec_text N) = N.
Proof.
  intros HN. destruct (dec_text_spec N ltac:(lia)) as ([Hd _] & Hv & Hnz). specialize (Hnz ltac:(lia)).
  destruct (dec_text N) as [|c s]; [done|]. repeat split; try done. intros C. injection C as ->. by apply Hnz.
Qed.

(** Stripping the trailing zeros. *)
Lemma strip_zeros_value (T : text) : all_digits T -> T <> [] -> head T <> Some x30 ->
  exists j : nat, proper (drop_last_zeros T) /\ length T = (length (drop_last_zeros T) + j)%nat /\
    dec_value T = dec_value (drop_last_zeros T) * 10 ^ Z.of_nat j.
Proof.
  intros Hd Hne Hh. destruct (drop_last_zeros_spec T) as (j & E & Hl). set (D := drop_last_zeros T) in *.
  exists j. split; [|split].
  - assert (D <> []) as HDne.
    { intros C. rewrite C in E. cbn [app] in E. rewrite E in Hh. destruct j; [by rewrite E in Hne|done]. }
    assert (all_digits D) as HD by (rewrite E in Hd; by apply Forall_app in Hd as [Hd _]).
    repeat split; try done. intros C. apply Hh. rewrite E. destruct D; [done|exact C].
  - rewrite E at 1. by rewrite length_app, length_replicate.
  - rewrite E at 1. rewrite dec_value_app, length_replicate.
    rewrite <- (app_nil_r (replicate j x30)), replicate_zeros_value. change (dec_value []) with 0. lia.
Qed.

Lemma strip_zeros_worth (T : text) (x u : Z) :
  all_digits T -> T <> [] -> head T <> Some x30 -> worth (dec_value T) x u ->
  let D := drop_last_zeros T in
  proper D /\ worth (dec_value D) (x + Z.of_nat (length T) - Z.of_nat (length D)) u /\
  (length D <= length T)%nat.
Proof.
  intros Hd Hne Hh Hw D. destruct (strip_zeros_value T Hd Hne Hh) as (j & HD & HL & Hv). fold D in HD, HL, Hv.
  split; [done|]. split; [|lia]. rewrite Hv in Hw.
  replace x with (x + Z.of_nat j - Z.of_nat j) in Hw by lia. apply worth_shift in Hw; [|lia].
  by replace (x + Z.of_nat (length T) - Z.of_nat (length D)) with (x + Z.of_nat j) by lia.
Qed.

Lemma digits_length (T : text) (b : Z) : all_digits T -> T <> [] -> head T <> Some x30 -> 0 <= b ->
  dec_value T < 10 ^ b -> Z.of_nat (length T) <= b.
Proof.
  intros Hd Hne Hh Hb Hv. pose proof (leading_digit T Hd Hne Hh).
  assert (10 ^ (Z.of_nat (length T) - 1) < 10 ^ b) as Hlt by lia.
  apply Z.pow_lt_mono_r_iff in Hlt; lia.
Qed.

(** The odd mantissa of a double, over its exponent. *)
Lemma odd_mantissa (m : positive) (e M X x k : Z) : x <= e -> x <= X ->
  Z.pos m * 2 ^ (e - x) = k -> M * 2 ^ (X - x) = k -> Z.odd M = true ->
  e <= X /\ Z.pos m = M * 2 ^ (X - e).
Proof.
  intros He HX Hm HM Ho. pose proof (pow2_pos (e - x) ltac:(lia)).
  destruct (Z.le_gt_cases e X) as [Hle|Hgt].
  - split; [done|]. apply (Z.mul_reg_r _ _ (2 ^ (e - x))); [lia|].
    rewrite Hm, <- HM, <- Z.mul_assoc, <- Z.pow_add_r by lia. do 2 f_equal. lia.
  - exfalso. assert (M = Z.pos m * 2 ^ (e - X)) as E.
    { apply (Z.mul_reg_r _ _ (2 ^ (X - x))); [pose proof (pow2_pos (X - x)); lia|].
      rewrite HM, <- Hm, <- Z.mul_assoc, <- Z.pow_add_r by lia. do 2 f_equal. lia. }
    replace (e - X) with (1 + (e - X - 1)) in E by lia. rewrite Z.pow_add_r in E by lia.
    rewrite E, !Z.odd_mul in Ho. cbn [Z.odd] in Ho. by rewrite andb_false_r in Ho.
Qed.

Lemma ExactDecimal_spec (m : positive) (e : Z) : valid (S754_finite false m e) ->
  let '(D, DecPt) := ExactDecimal (S754_finite false m e) in
  proper D /\ worth (dec_value D) (DecPt - Z.of_nat (length D)) (units (S754_finite false m e)) /\
  Z.of_nat (length D) <= 900 /\ -1074 <= DecPt <= 900.
Proof.
  intros V. unfold ExactDecimal. pose proof (frexp_mantissa m e V) as HF.
  destruct (SFfrexp 53 1024 (S754_finite false m e)) as [Fr Exp]. destruct HF as (k & -> & Hk & Hx & Hm).
  pose proof (strip_even_spec 64 k (Exp - 53)) as HS. specialize (HS ltac:(change (Z.of_nat 64) with 64; lia)).
  destruct (strip_even 64 k (Exp - 53)) as [M X]. destruct HS as (Ho & HM & HX & HMk).
  destruct (odd_mantissa m e M X (Exp - 53) k Hx HX Hm HMk Ho) as [HeX Em].
  assert (fits (units (S754_finite false m e))) as HV by by apply pos_double_fits.
  apply valid_finite in V.
  assert (units (S754_finite false m e) = M * 2 ^ (X + 1074)) as HU.
  { unfold units. rewrite Em, Z.mul_1_l, <- Z.mul_assoc, <- Z.pow_add_r by lia. do 2 f_equal. lia. }
  rewrite HU. assert (M < 2 ^ 53) as HM53 by lia.
  destruct (PyBigUInt_spec M ltac:(lia)) as [Hw Hv].
  assert (forall N x, 0 < N < 10 ^ 900 -> worth N x (M * 2 ^ (X + 1074)) -> -1074 <= x <= 0 ->
    let T := dec_text N in let D := drop_last_zeros T in
    proper D /\ worth (dec_value D) (Z.of_nat (length T) + x - Z.of_nat (length D)) (M * 2 ^ (X + 1074)) /\
    Z.of_nat (length D) <= 900 /\ -1074 <= Z.of_nat (length T) + x <= 900) as Hgen.
  { intros N x HN Hworth Hx0 T D. destruct (dec_text_head N ltac:(lia)) as (Hd & Hne & Hh & Hval).
    fold T in Hd, Hne, Hh, Hval.
    pose proof (digits_length T 900 Hd Hne Hh ltac:(lia) ltac:(lia)) as HL.
    rewrite <- Hval in Hworth. destruct (strip_zeros_worth T x _ Hd Hne Hh Hworth) as (H1 & H2 & H3).
    fold D in H1, H2, H3. split; [done|]. split; [|lia].
    by replace (Z.of_nat (length T) + x) with (x + Z.of_nat (length T)) by lia. }
  destruct (Z.leb_spec 0 X) as [HX0|HX0].
  - destruct (ShiftLeft_spec X (PyBigUInt M) HX0 Hw) as [Hw' Hv']. rewrite Hv in Hv'.
    rewrite ToDecimal_spec by done. rewrite Hv'. pose proof (pow2_pos X HX0).
    assert (0 < M * 2 ^ X < 10 ^ 900) as HB.
    { split; [nia|]. pose proof (fits_max _ HV) as HU2. rewrite HU, Z.pow_add_r in HU2 by lia.
      apply Z.lt_trans with (2 ^ 1024); [|vm_compute; reflexivity]. change 2098 with (1024 + 1074) in HU2.
      rewrite (Z.pow_add_r 2 1024) in HU2 by lia. pose proof (pow2_pos 1074 ltac:(lia)).
      set (A := 2 ^ 1074) in *. set (C := 2 ^ 1024) in *. set (x := 2 ^ X) in *. clearbody A C x. nia. }
    pose proof (Hgen (M * 2 ^ X) 0 HB) as G. cbv zeta in G. rewrite Z.add_0_r in G. apply G; [|lia].
    unfold worth, dec_num, decimal_den. change (Z.max 0 0) with 0. change (Z.max 0 (- 0)) with 0.
    change (10 ^ 0) with 1. rewrite Z.pow_add_r by lia. ring.
  - destruct (MulPow5_spec (- X) (PyBigUInt M) ltac:(lia) Hw) as [Hw' Hv']. rewrite Hv in Hv'.
    rewrite ToDecimal_spec by done. rewrite Hv'.
    assert (0 < 5 ^ (- X)) by (apply Z.pow_pos_nonneg; lia).
    apply (Hgen (M * 5 ^ (- X)) X); [|unfold worth, dec_num, decimal_den|lia].
    + split; [nia|]. assert (5 ^ (- X) <= 5 ^ 1074) by (apply Z.pow_le_mono_r; lia).
      assert (2 ^ 53 * 5 ^ 1074 < 10 ^ 900) by (vm_compute; reflexivity).
      set (A := 5 ^ 1074) in *. set (Z9 := 10 ^ 900) in *. set (C := 2 ^ 53) in *. clearbody A Z9 C. nia.
    + rewrite Z.max_l, Z.max_r by lia. change (10 ^ 0) with 1.
      replace 1074 with ((X + 1074) + (- X)) at 1 by lia. rewrite Z.pow_add_r by lia.
      change 10 with (2 * 5). rewrite (Z.pow_mul_l 2 5). ring.
Qed.

(** ** The candidates *)

Lemma digit_code (c : byte) : is_digit c = true <-> 48 <= code c <= 57.
Proof. unfold is_digit. rewrite andb_true_iff, !Z.leb_le. done. Qed.

Lemma dec_value_reverse_cons (c : byte) (r : text) :
  dec_value (reverse (c :: r)) = dec_value (reverse r) * 10 + digit_value c.
Proof. rewrite reverse_cons, dec_value_app, dec_value_single. done. Qed.

Lemma increment_loop_spec (r : text) : all_digits r ->
  let '(r', Carry) := increment_loop r in
  all_digits r' /\ length r' = length r /\
  dec_value (reverse r') + (if Carry then 10 ^ Z.of_nat (length r) else 0) = dec_value (reverse r) + 1 /\
  (Carry = true -> r' = replicate (length r) x30).
Proof.
  induction 1 as [|c r Hc Hr IH]; cbn [increment_loop].
  { split_and!; [constructor|done|done|done]. }
  apply digit_code in Hc as Hcode. case_bool_decide as E.
  - subst c. destruct (increment_loop r) as [r' Carry]. destruct IH as (H1 & H2 & H3 & H4).
    split; [by constructor|]. split; [cbn; lia|]. split; [|intros C; cbn; by rewrite (H4 C)].
    rewrite !dec_value_reverse_cons. change (digit_value x30) with 0. change (digit_value x39) with 9.
    cbn [length]. rewrite Nat2Z.inj_succ, Z.pow_succ_r by lia. destruct Carry; lia.
  - assert (code c <> 57) as Hne.
    { intros C. apply E, code_inj. by rewrite C. }
    assert (code (byte_of_code (code c + 1)) = code c + 1) as Hb by (apply code_byte_of_code; lia).
    split; [constructor; [apply digit_code; lia|done]|]. split; [done|]. split; [|done].
    rewrite !dec_value_reverse_cons. unfold digit_value. rewrite Hb. lia.
Qed.

Lemma take_digits_proper (Exact : text) (p : nat) : proper Exact -> (1 <= p <= length Exact)%nat ->
  all_digits (take p Exact) /\ length (take p Exact) = p /\ take p Exact <> [] /\ head (take p Exact) <> Some x30.
Proof.
  intros (Hd & Hne & Hh & _) Hp. split; [by apply Forall_take|]. split; [rewrite length_take; lia|].
  destruct Exact as [|c s]; [done|]. destruct p; [lia|]. done.
Qed.

(** The second candidate is the next number with that many digits. *)
Lemma candidates_spec (Exact : text) (DecPt : Z) (p : nat) : proper Exact -> (1 <= p <= length Exact)%nat ->
  let '((D, P), (U, Q)) := candidates Exact DecPt p in
  D = take p Exact /\ P = DecPt /\
  all_digits U /\ U <> [] /\ head U <> Some x30 /\ (length U <= p)%nat /\ DecPt <= Q <= DecPt + 1 /\
  exists z, 0 <= z /\ Q - Z.of_nat (length U) = DecPt - Z.of_nat p + z /\
    dec_value U * 10 ^ z = dec_value D + 1.
Proof.
  intros HE Hp. destruct (take_digits_proper Exact p HE Hp) as (Hd & Hl & Hne & Hh).
  unfold candidates, IncrementDigits. set (D := take p Exact) in *.
  pose proof (increment_loop_spec (reverse D) (proj2 (Forall_reverse _ _) Hd)) as HI.
  destruct (increment_loop (reverse D)) as [r' Carry]. destruct HI as (H1 & H2 & H3 & H4).
  rewrite reverse_involutive, length_reverse, Hl in *. pose proof (proj2 (Forall_reverse _ _) H1) as H1r.
  destruct Carry; (split; [done|]); (split; [done|]).
  - rewrite (H4 eq_refl) in *. unfold pop_back. cbn [length]. rewrite length_reverse, length_replicate.
    replace (S p - 1)%nat with p by lia.
    assert (reverse (replicate p x30) = replicate p x30) as Er.
    { symmetry. apply replicate_as_elem_of. split; [by rewrite length_reverse, length_replicate|].
      intros y Hy. rewrite elem_of_reverse in Hy. by apply elem_of_replicate in Hy as [-> _]. }
    rewrite Er in *. destruct p as [|p]; [lia|].
    change (take (S p) (x31 :: replicate (S p) x30)) with (x31 :: take p (replicate (S p) x30)).
    rewrite take_replicate. replace (p `min` S p)%nat with p by lia.
    assert (all_digits (x31 :: replicate p x30)) as HU by (constructor; [done|by apply Forall_replicate]).
    split; [done|]. split; [done|]. split; [done|]. split; [cbn; rewrite length_replicate; lia|]. split; [lia|].
    exists 1. split; [lia|]. split; [cbn [length]; rewrite length_replicate; lia|].
    rewrite dec_value_cons, length_replicate. change (digit_value x31) with 1.
    rewrite <- (app_nil_r (replicate p x30)), replicate_zeros_value. change (dec_value []) with 0.
    rewrite <- (app_nil_r (replicate (S p) x30)), replicate_zeros_value in H3. change (dec_value []) with 0 in H3.
    rewrite Nat2Z.inj_succ, Z.pow_succ_r in H3 by lia. change (10 ^ 1) with 10. lia.
  - rewrite Z.add_0_r in H3. split; [done|].
    assert (10 ^ (Z.of_nat p - 1) <= dec_value D) as Hlow by (rewrite <- Hl; by apply leading_digit).
    assert (length (reverse r') = p) as Hlr by (by rewrite length_reverse).
    assert (reverse r' <> []) as Hne' by (intros C; rewrite C in Hlr; cbn in Hlr; lia).
    split; [done|]. split.
    { intros C. destruct (reverse r') as [|c t] eqn:Er; [done|]. injection C as ->. cbn [length] in Hlr.
      rewrite dec_value_cons in H3. change (digit_value x30) with 0 in H3.
      apply Forall_cons in H1r as [_ H1r]. pose proof (dec_value_bounds t H1r) as HB.
      assert (10 ^ Z.of_nat (length t) = 10 ^ (Z.of_nat p - 1)) as Ep by (f_equal; lia). lia. }
    split; [lia|]. split; [lia|]. exists 0. split; [lia|]. split; [lia|]. change (10 ^ 0) with 1. lia.
Qed.

(** What [reads_as] decides. *)
Lemma reads_as_spec (V : dbl) (D : text) (P : Z) : pos_double V -> deq V d0 = false -> all_digits D ->
  reads_as V (D, P) = true <->
  round_units false (dec_num (dec_value D) (P - Z.of_nat (length D))) (decimal_den (P - Z.of_nat (length D))) = V.
Proof.
  intros HV Hnz HD. unfold reads_as. cbn [fst snd]. rewrite DecimalToDouble_units by done.
  unfold decimal_num, dec_num. cbn [with_sign]. split.
  - intros H. apply deq_eq; [done|]. by rewrite (deq_zero _ _ H).
  - intros ->. apply deq_refl. destruct HV as [_ HV]. by destruct V as [[]|?| |[] ? ?].
Qed.

(** ** Seventeen digits are enough *)

Lemma dec_num_nonneg (v e : Z) : 0 <= v -> 0 <= dec_num v e.
Proof. intros Hv. pose proof (pow10_pos (Z.max 0 e) ltac:(lia)). unfold dec_num. pose proof (pow2_pos 1074). nia. Qed.

Lemma dec_num_linear (v e : Z) : dec_num v e = v * dec_num 1 e.
Proof. unfold dec_num. ring. Qed.

Lemma dec_num_one_pos (e : Z) : 0 < dec_num 1 e.
Proof. unfold dec_num. pose proof (pow10_pos (Z.max 0 e) ltac:(lia)). pose proof (pow2_pos 1074). nia. Qed.

(** The first [p] digits enclose the exact value. *)
Lemma grid_bounds (Exact : text) (p : nat) (x u : Z) : all_digits Exact -> (p <= length Exact)%nat ->
  worth (dec_value Exact) (x - (Z.of_nat (length Exact) - Z.of_nat p)) u ->
  let D0 := dec_value (take p Exact) in
  dec_num D0 x <= u * decimal_den x < dec_num (D0 + 1) x.
Proof.
  intros Hd Hp Hw D0. set (t := Z.of_nat (length Exact) - Z.of_nat p) in *.
  assert (0 <= t) as Ht by (unfold t; lia).
  assert (D0 * 10 ^ t <= dec_value Exact < (D0 + 1) * 10 ^ t) as HB.
  { assert (dec_value Exact = D0 * 10 ^ Z.of_nat (length (drop p Exact)) + dec_value (drop p Exact)) as ->.
    { unfold D0. by rewrite <- dec_value_app, take_drop. }
    pose proof (dec_value_bounds (drop p Exact) (Forall_drop _ _ _ Hd)) as HB.
    rewrite length_drop in *. replace (Z.of_nat (length Exact - p)) with t in * by (unfold t; lia). lia. }
  pose proof (dec_cross D0 t x Ht) as E1. pose proof (dec_cross (D0 + 1) t x Ht) as E2.
  unfold worth in Hw. rewrite (dec_num_linear (D0 * 10 ^ t)) in E1.
  rewrite (dec_num_linear ((D0 + 1) * 10 ^ t)) in E2. rewrite (dec_num_linear (dec_value Exact)) in Hw.
  pose proof (dec_num_one_pos (x - t)). pose proof (decimal_den_pos x). pose proof (decimal_den_pos (x - t)).
  set (A := dec_num 1 (x - t)) in *. set (dx := decimal_den x) in *. set (dt := decimal_den (x - t)) in *.
  set (a := D0 * 10 ^ t) in *. set (b := (D0 + 1) * 10 ^ t) in *. set (v := dec_value Exact) in *.
  clearbody A dx dt a b v.
  assert (v * A * dx = u * dx * dt) as EV by (rewrite Hw; ring).
  assert (0 < A * dx) by nia.
  assert (dec_num D0 x * dt <= u * dx * dt) by (rewrite <- E1, <- EV, <- !Z.mul_assoc; nia).
  assert (u * dx * dt < dec_num (D0 + 1) x * dt) by (rewrite <- E2, <- EV, <- !Z.mul_assoc; nia). nia.
Qed.

(** One of the two candidates with 17 digits rounds to the double. *)
Lemma seventeen_digits (m : positive) (e D0 x : Z) : valid (S754_finite false m e) ->
  10 ^ 16 <= D0 ->
  dec_num D0 x <= units (S754_finite false m e) * decimal_den x < dec_num (D0 + 1) x ->
  round_units false (dec_num D0 x) (decimal_den x) = S754_finite false m e \/
  round_units false (dec_num (D0 + 1) x) (decimal_den x) = S754_finite false m e.
Proof.
  intros V HD0 HB. pose proof (decimal_den_pos x) as Hden. pose proof (dec_num_one_pos x) as HA.
  pose proof (dec_num_nonneg D0 x ltac:(lia)). pose proof (dec_num_nonneg (D0 + 1) x ltac:(lia)).
  set (g := if Z.pos m =? 2 ^ 52 then 2 ^ (e + 1074) else 2 * 2 ^ (e + 1074)).
  set (U := units (S754_finite false m e)) in *.
  assert (2 * dec_num 1 x < g * decimal_den x) as Hg.
  { rewrite (dec_num_linear D0) in HB. rewrite (dec_num_linear (D0 + 1)) in HB.
    assert (U = Z.pos m * 2 ^ (e + 1074)) as EU by (unfold U, units; lia). rewrite EU in HB.
    apply valid_finite in V. pose proof (pow2_pos (e + 1074) ltac:(lia)). unfold g.
    set (G := 2 ^ (e + 1074)) in *. set (A := dec_num 1 x) in *. set (d := decimal_den x) in *.
    clearbody G A d. clear g U EU.
    assert (10 ^ 16 * A <= Z.pos m * (G * d)) as Hlow by nia. assert (0 < G * d) as HGd by nia.
    assert (2 * G * d = 2 * (G * d)) as Eg by ring. set (Gd := G * d) in *. clearbody Gd.
    destruct (Z.eqb_spec (Z.pos m) (2 ^ 52)) as [Em|Em].
    - rewrite Em in Hlow. change (10 ^ 16) with 10000000000000000 in Hlow.
      change (2 ^ 52) with 4503599627370496 in Hlow. lia.
    - assert (Z.pos m < 2 ^ 53) by lia. change (10 ^ 16) with 10000000000000000 in Hlow.
      change (2 ^ 53) with 9007199254740992 in *. assert (2 * (2 * A) < 2 * (2 * Gd)); [nia|lia]. }
  rewrite (dec_num_linear (D0 + 1)), (dec_num_linear D0) in *.
  set (A := dec_num 1 x) in *. set (d := decimal_den x) in *.
  destruct (Z.le_gt_cases (2 * (U * d - D0 * A)) A).
  - left. apply (round_units_near _ _ _ m e g); try done. fold U. clearbody U A d g. nia.
  - right. apply (round_units_near _ _ _ m e g); try done. fold U. clearbody U A d g. nia.
Qed.

(** ** The search for the shortest digits *)

(** [digits * 10^(point - length)] rounds to [V]. *)
Definition rounds_to (v x : Z) (V : dbl) : Prop := round_units false (dec_num v x) (decimal_den x) = V.

Section Shortest.
Context (m : positive) (e : Z) (Hvalid : valid (S754_finite false m e)).
Context (Exact : text) (DecPt : Z) (HE : proper Exact).
Context (Hw : worth (dec_value Exact) (DecPt - Z.of_nat (length Exact)) (units (S754_finite false m e))).

Let V := S754_finite false m e.

(** Neither number of [q] digits around the exact value rounds to [V]. *)
Definition fails (q : nat) : Prop :=
  (q < length Exact)%nat /\
  ~ rounds_to (dec_value (take q Exact)) (DecPt - Z.of_nat q) V /\
  ~ rounds_to (dec_value (take q Exact) + 1) (DecPt - Z.of_nat q) V.

Lemma V_pos : pos_double V.
Proof. by split. Qed.

Lemma grid_bounds_V (q : nat) : (q <= length Exact)%nat ->
  dec_num (dec_value (take q Exact)) (DecPt - Z.of_nat q) <= units V * decimal_den (DecPt - Z.of_nat q)
  < dec_num (dec_value (take q Exact) + 1) (DecPt - Z.of_nat q).
Proof.
  intros Hq. apply grid_bounds; [apply HE|done|].
  by replace (DecPt - Z.of_nat q - (Z.of_nat (length Exact) - Z.of_nat q))
    with (DecPt - Z.of_nat (length Exact)) by lia.
Qed.

Lemma take_lower (q : nat) : (1 <= q <= length Exact)%nat -> 10 ^ (Z.of_nat q - 1) <= dec_value (take q Exact).
Proof.
  intros Hq. destruct (take_digits_proper Exact q HE Hq) as (Hd & Hl & Hne & Hh).
  rewrite <- Hl at 1. by apply leading_digit.
Qed.

Lemma not_fails_17 : ~ fails 17.
Proof.
  intros (Hl & H1 & H2). pose proof (take_lower 17 ltac:(lia)) as Hlow.
  destruct (seventeen_digits m e _ (DecPt - Z.of_nat 17) Hvalid Hlow (grid_bounds_V 17 ltac:(lia)))
    as [C|C]; [by apply H1|by apply H2].
Qed.

(** What the search returns. *)
Definition found (r : text * Z) : Prop :=
  let '(D, P) := r in
  proper D /\ rounds_to (dec_value D) (P - Z.of_nat (length D)) V /\
  (length D <= length Exact)%nat /\ DecPt <= P <= DecPt + 1 /\
  forall q, (1 <= q < length D)%nat -> fails q.

Lemma found_exact (p : nat) : (length Exact <= p)%nat -> (forall q, (1 <= q < p)%nat -> fails q) -> found (Exact, DecPt).
Proof.
  intros Hp Hf. split; [done|]. split.
  - unfold rounds_to. unfold worth in Hw. rewrite Hw.
    rewrite (round_units_cross _ _ _ (units V) 1); [apply round_units_id, V_pos|apply decimal_den_pos|lia|fold V; ring].
  - split; [done|]. split; [lia|]. intros q Hq. apply Hf. lia.
Qed.

Lemma found_candidate (p : nat) (T : text) (Q : Z) :
  (p < length Exact)%nat -> (forall q, (1 <= q < p)%nat -> fails q) ->
  all_digits T -> T <> [] -> head T <> Some x30 -> (length T <= p)%nat -> DecPt <= Q <= DecPt + 1 ->
  reads_as V (T, Q) = true -> found (drop_last_zeros T, Q).
Proof.
  intros Hp Hf Hd Hne Hh Hl HQ Hr. destruct (strip_zeros_value T Hd Hne Hh) as (j & HD & HL & Hv).
  split; [done|]. split.
  - apply reads_as_spec in Hr; [|apply V_pos|done|done]. unfold rounds_to. rewrite <- Hr, Hv.
    replace (Q - Z.of_nat (length T)) with (Q - Z.of_nat (length (drop_last_zeros T)) - Z.of_nat j) by lia.
    symmetry. apply dec_round_shift. lia.
  - split; [lia|]. split; [done|]. intros q Hq. apply Hf. lia.
Qed.

Lemma shortest_loop_spec (n : nat) : forall p, (p + n = 18)%nat -> (1 <= p)%nat ->
  (forall q, (1 <= q < p)%nat -> fails q) -> found (shortest_loop n p V Exact DecPt).
Proof.
  induction n as [|n IH]; intros p Hn Hp Hf; cbn [shortest_loop].
  { exfalso. apply not_fails_17, Hf. lia. }
  destruct (Nat.leb_spec (length Exact) p) as [Hle|Hgt]; [by apply (found_exact p)|].
  pose proof (candidates_spec Exact DecPt p HE ltac:(lia)) as HC.
  destruct (candidates Exact DecPt p) as [[D P] [U Q]].
  destruct HC as (-> & -> & HdU & HneU & HhU & HlU & HQ & z & Hz & Ez & Ev).
  destruct (take_digits_proper Exact p HE ltac:(lia)) as (Hd & Hl & Hne & Hh).
  set (DownOk := reads_as V (take p Exact, DecPt)). set (UpOk := reads_as V (U, Q)).
  destruct (negb DownOk && negb UpOk) eqn:Eno.
  - apply IH; [lia|lia|]. intros q Hq. destruct (decide (q = p)) as [->|]; [|apply Hf; lia]. bool_props.
    split; [lia|]. split; intros C.
    + assert (DownOk = true) as Hok; [|congruence]. apply reads_as_spec; [apply V_pos|done|done|]. by rewrite Hl.
    + assert (UpOk = true) as Hok; [|congruence]. apply reads_as_spec; [apply V_pos|done|done|].
      rewrite Ez. unfold rounds_to in C. rewrite <- Ev in C. rewrite <- C. symmetry.
      replace (DecPt - Z.of_nat p) with (DecPt - Z.of_nat p + z - z) at 1 2 by lia. by apply dec_round_shift.
  - assert (if take_up Exact (take p Exact) p DownOk UpOk then UpOk = true else DownOk = true) as Hok.
    { unfold take_up. destruct DownOk eqn:E1, UpOk eqn:E2; cbn in Eno |- *; try done.
      by destruct (match drop p Exact with [] => false | _ => _ end). }
    cbn [fst]. destruct (take_up Exact (take p Exact) p DownOk UpOk).
    + by apply (found_candidate p).
    + apply (found_candidate p); try done; lia.
Qed.
End Shortest.

(** ** No shorter digits read back *)

Lemma dec_num_mono (v v' x : Z) : v <= v' -> dec_num v x <= dec_num v' x.
Proof. intros H. rewrite (dec_num_linear v), (dec_num_linear v'). pose proof (dec_num_one_pos x). nia. Qed.

(** A number of [q] digits is on the grid of the first [q] digits, or below them all. *)
Lemma digits_on_grid (q : Z) (v x D0 y : Z) : 0 < v < 10 ^ q -> 1 <= q -> 10 ^ (q - 1) <= D0 ->
  (exists v', dec_num v x * decimal_den y = dec_num v' y * decimal_den x) \/
  dec_num v x * decimal_den y < dec_num D0 y * decimal_den x.
Proof.
  intros Hv Hq HD0. destruct (Z.le_gt_cases y x) as [Hle|Hgt].
  - left. exists (v * 10 ^ (x - y)). pose proof (dec_cross v (x - y) x ltac:(lia)) as E.
    replace (x - (x - y)) with y in E by lia. by rewrite E.
  - right. pose proof (dec_cross D0 (y - x) y ltac:(lia)) as E.
    replace (y - (y - x)) with x in E by lia. rewrite <- E.
    assert (v < D0 * 10 ^ (y - x)) as Hlt.
    { apply Z.lt_le_trans with (10 ^ (q - 1) * 10 ^ 1); [rewrite <- Z.pow_add_r by lia; replace (q - 1 + 1) with q by lia; lia|].
      assert (10 ^ 1 <= 10 ^ (y - x)) by (apply Z.pow_le_mono_r; lia).
      pose proof (pow10_pos (q - 1) ltac:(lia)). apply Z.mul_le_mono_nonneg; lia. }
    rewrite (dec_num_linear v), (dec_num_linear (D0 * _)). pose proof (dec_num_one_pos x).
    pose proof (decimal_den_pos y). nia.
Qed.

Lemma fails_all (m : positive) (e : Z) (Exact : text) (DecPt : Z) (q : nat) (v x : Z) :
  valid (S754_finite false m e) -> proper Exact ->
  worth (dec_value Exact) (DecPt - Z.of_nat (length Exact)) (units (S754_finite false m e)) ->
  (1 <= q)%nat -> fails m e Exact DecPt q -> 0 < v < 10 ^ Z.of_nat q ->
  ~ rounds_to v x (S754_finite false m e).
Proof.
  intros HV HE Hw Hq (Hl & H1 & H2) Hv Hr. set (V := S754_finite false m e) in *.
  pose proof (V_pos m e HV) as HP. fold V in HP.
  pose proof (grid_bounds_V m e Exact DecPt HE Hw q ltac:(lia)) as HB. fold V in HB.
  pose proof (take_lower Exact HE q ltac:(lia)) as Hlow.
  set (D0 := dec_value (take q Exact)) in *. set (y := DecPt - Z.of_nat q) in *.
  pose proof (decimal_den_pos x) as Hx. pose proof (decimal_den_pos y) as Hy.
  assert (0 < 10 ^ (Z.of_nat q - 1)) as Hp by (apply pow10_pos; lia).
  pose proof (dec_num_nonneg v x ltac:(lia)) as Hnv. pose proof (dec_num_nonneg D0 y ltac:(lia)) as Hn0.
  pose proof (dec_num_nonneg (D0 + 1) y ltac:(lia)) as Hn1.
  destruct (digits_on_grid (Z.of_nat q) v x D0 y ltac:(lia) ltac:(lia) Hlow) as [[v' E]|Hbelow].
  - destruct (Z.le_gt_cases v' D0) as [Hle|Hgt].
    + apply H1. unfold rounds_to. apply (round_units_below (dec_num v x) (decimal_den x)); try done; [|lia].
      rewrite E. pose proof (dec_num_mono v' D0 y Hle). nia.
    + apply H2. unfold rounds_to. apply (round_units_above (dec_num v x) (decimal_den x)); try done; [|lia].
      rewrite E. pose proof (dec_num_mono (D0 + 1) v' y ltac:(lia)). nia.
  - apply H1. unfold rounds_to. apply (round_units_below (dec_num v x) (decimal_den x)); try done; lia.
Qed.

Lemma ShortestDigits_found (m : positive) (e : Z) : valid (S754_finite false m e) ->
  exists Exact DecPt, proper Exact /\
    worth (dec_value Exact) (DecPt - Z.of_nat (length Exact)) (units (S754_finite false m e)) /\
    Z.of_nat (length Exact) <= 900 /\ -1074 <= DecPt <= 900 /\
    found m e Exact DecPt (ShortestDigits (S754_finite false m e)).
Proof.
  intros V. unfold ShortestDigits. pose proof (ExactDecimal_spec m e V) as H.
  destruct (ExactDecimal (S754_finite false m e)) as [Exact DecPt]. destruct H as (HE & Hw & Hl & HP).
  exists Exact, DecPt. split_and!; [exact HE|exact Hw|exact Hl|lia|lia|].
  apply shortest_loop_spec; [exact V|exact HE|exact Hw|lia|lia|]. intros q Hq. lia.
Qed.

(** C35: For every positive double, [ShortestDigits] returns digits without
    leading or trailing zeros that read back as that double, and no decimal
    with fewer digits, whatever its exponent, reads back as it: the result is
    the shortest one. The search never falls through its 17 rounds. *)
Theorem ShortestDigits_shortest (V : dbl) : pos_double V -> deq V d0 = false ->
  let '(Digits, DecPt) := ShortestDigits V in
  proper Digits /\
  DecimalToDouble false Digits (DecPt - Z.of_nat (length Digits)) = V /\
  forall D x, all_digits D -> (length D < length Digits)%nat -> DecimalToDouble false D x <> V.
Proof.
  intros [HV Hs] Hnz. destruct V as [[]|?| |[] m e]; try (exfalso; exact Hs); try discriminate Hnz.
  destruct (ShortestDigits_found m e HV) as (Exact & P & HE & Hw & _ & _ & Hf).
  destruct (ShortestDigits (S754_finite false m e)) as [Digits DecPt].
  destruct Hf as (HD & Hr & _ & _ & Hfail). split; [done|]. split.
  { rewrite DecimalToDouble_units by apply HD. exact Hr. }
  intros D x Hd Hl HC. rewrite DecimalToDouble_units in HC by done. cbn [with_sign] in HC.
  destruct (drop_zeros_digits D Hd) as (Hd' & Hv & Hh). set (D' := drop_zeros D) in *.
  assert (length D' <= length D)%nat as Hl'.
  { destruct (drop_zeros_spec D) as (k & E & _). fold D' in E. rewrite E, length_app. lia. }
  assert (D' <> []) as Hne.
  { intros C. rewrite C in Hv. unfold decimal_num in HC. rewrite <- Hv in HC.
    change (dec_value []) with 0 in HC. rewrite !Z.mul_0_l, round_units_zero in HC by apply decimal_den_pos. done. }
  pose proof (leading_digit D' Hd' Hne Hh) as Hlow. pose proof (dec_value_bounds D' Hd') as HB.
  assert (1 <= length D')%nat as H1 by (destruct D'; [done|cbn; lia]).
  pose proof (pow10_pos (Z.of_nat (length D') - 1) ltac:(lia)).
  apply (fails_all m e Exact P (length D') (dec_value D') x HV HE Hw H1); [apply Hfail; lia|lia|].
  unfold rounds_to. rewrite Hv. exact HC.
Qed.

(** ** The layouts read back *)

(** The reader sees only the value of the digits. *)
Lemma DecimalToDouble_shift (neg : bool) (s s' : text) (x z : Z) : all_digits s -> all_digits s' -> 0 <= z ->
  dec_value s' = dec_value s * 10 ^ z -> DecimalToDouble neg s' (x - z) = DecimalToDouble neg s x.
Proof.
  intros Hs Hs' Hz E. rewrite !DecimalToDouble_units by done. f_equal.
  pose proof (dec_round_shift (dec_value s) z x Hz) as H. unfold dec_num in H. unfold decimal_num. by rewrite E.
Qed.

Lemma zeros_digits (k : nat) : all_digits (replicate k x30).
Proof. by apply Forall_replicate. Qed.

Lemma zeros_value (k : nat) : dec_value (replicate k x30) = 0.
Proof. rewrite <- (app_nil_r (replicate k x30)). apply replicate_zeros_value. Qed.

Lemma exponent_form_number (neg : bool) (sgn D : text) (P : Z) :
  sign_text neg sgn -> all_digits D -> D <> [] ->
  number_text (DecimalToDouble neg D (P - Z.of_nat (length D))) (sgn ++ exponent_form D P).
Proof.
  intros Hs Hd Hne. unfold exponent_form. set (Exp := P - 1).
  set (X := (if (length (dec_text (Z.abs Exp)) <? 2)%nat then [x30] else []) ++ dec_text (Z.abs Exp)).
  destruct (dec_text_spec (Z.abs Exp) ltac:(lia)) as ([HXd HX0] & HXv & _).
  assert (all_digits X /\ X <> [] /\ dec_value X = Z.abs Exp) as (HX & HXne & HXval).
  { unfold X. destruct (_ <? 2)%nat; cbn [app].
    - split; [by constructor|]. split; [done|]. rewrite dec_value_cons, HXv. change (digit_value x30) with 0. lia.
    - split; [done|]. split; [|done]. intros C. by rewrite C in HX0. }
  assert (exponent_text Exp ((if Exp <? 0 then B "e-" else B "e+") ++ X)) as Hex.
  { destruct (Z.ltb_spec Exp 0).
    - pose proof (exponent_some x65 [x2d] true X ltac:(by left) sign_minus HX HXne) as He.
      rewrite HXval in He. by replace (- Z.abs Exp) with Exp in He by lia.
    - pose proof (exponent_some x65 [x2b] false X ltac:(by left) sign_plus HX HXne) as He.
      rewrite HXval in He. by replace (Z.abs Exp) with Exp in He by lia. }
  set (ex := (if Exp <? 0 then B "e-" else B "e+") ++ X) in *.
  assert (fraction_text (drop 1 D) (if (1 <? length D)%nat then x2e :: drop 1 D else [])) as HF.
  { destruct (Nat.ltb_spec 1 (length D)); [constructor; by apply Forall_drop|].
    rewrite drop_ge by lia. constructor. }
  pose proof (number_value neg sgn (take 1 D) (drop 1 D) _ Exp ex Hs (Forall_take _ _ _ Hd) HF) as H.
  rewrite take_drop in H. specialize (H Hne Hex).
  replace (P - Z.of_nat (length D)) with (Exp - Z.of_nat (length (drop 1 D))); [exact H|].
  rewrite length_drop. assert (length D <> 0)%nat by (by destruct D). lia.
Qed.

Lemma positional_form_number (neg : bool) (sgn D : text) (P : Z) :
  sign_text neg sgn -> all_digits D -> D <> [] ->
  number_text (DecimalToDouble neg D (P - Z.of_nat (length D))) (sgn ++ positional_form D P).
Proof.
  intros Hs Hd Hne. unfold positional_form. destruct (Z.leb_spec P 0) as [H0|H0].
  - set (F := replicate (Z.to_nat (- P)) x30 ++ D).
    assert (all_digits F) as HF by (apply Forall_app_2; [apply zeros_digits|done]).
    pose proof (number_value neg sgn [x30] F (x2e :: F) 0 [] Hs ltac:(by constructor) (fraction_some F HF)
      ltac:(done) exponent_none) as H. rewrite app_nil_r in H.
    replace (DecimalToDouble neg D (P - Z.of_nat (length D))) with
      (DecimalToDouble neg ([x30] ++ F) (0 - Z.of_nat (length F))); [exact H|].
    rewrite <- (DecimalToDouble_shift neg D ([x30] ++ F) (P - Z.of_nat (length D)) 0 Hd); [|by constructor|lia|].
    + f_equal. unfold F. rewrite length_app, length_replicate. lia.
    + cbn [app]. rewrite dec_value_cons. unfold F. rewrite replicate_zeros_value.
      change (digit_value x30) with 0. change (10 ^ 0) with 1. lia.
  - destruct (Z.leb_spec (Z.of_nat (length D)) P) as [H1|H1].
    + set (k := Z.to_nat (P - Z.of_nat (length D))).
      assert (all_digits (D ++ replicate k x30)) as HI by (apply Forall_app_2; [done|apply zeros_digits]).
      pose proof (number_value neg sgn (D ++ replicate k x30) [x30] [x2e; x30] 0 [] Hs HI
        ltac:(constructor; by constructor) ltac:(by destruct D) exponent_none) as H.
      rewrite app_nil_r, <- (app_assoc D _ [x2e; x30]) in H.
      replace (DecimalToDouble neg D (P - Z.of_nat (length D))) with
        (DecimalToDouble neg ((D ++ replicate k x30) ++ [x30]) (0 - Z.of_nat (length [x30]))); [exact H|].
      rewrite <- (DecimalToDouble_shift neg D ((D ++ replicate k x30) ++ [x30]) (P - Z.of_nat (length D))
        (Z.of_nat k + 1) Hd); [|apply Forall_app_2; [done|by constructor]|lia|].
      * f_equal. cbn [length]. unfold k. lia.
      * rewrite !dec_value_app, zeros_value, length_replicate, Z.pow_add_r by lia.
        change (dec_value [x30]) with 0. change (10 ^ Z.of_nat (length [x30])) with (10 ^ 1). lia.
    + pose proof (number_value neg sgn (take (Z.to_nat P) D) (drop (Z.to_nat P) D) _ 0 [] Hs
        (Forall_take _ _ _ Hd) (fraction_some _ (Forall_drop _ _ _ Hd))) as H.
      rewrite take_drop in H. specialize (H Hne exponent_none). rewrite app_nil_r in H.
      replace (P - Z.of_nat (length D)) with (0 - Z.of_nat (length (drop (Z.to_nat P) D))); [exact H|].
      rewrite length_drop. lia.
Qed.

Lemma repr_positive_number (neg : bool) (sgn : text) (m : positive) (e : Z) :
  valid (S754_finite false m e) -> sign_text neg sgn ->
  number_text (with_sign neg (S754_finite false m e)) (sgn ++ repr_positive (S754_finite false m e)) /\
  Z.of_nat (length (repr_positive (S754_finite false m e))) <= 5000.
Proof.
  intros V Hs. unfold repr_positive.
  destruct (ShortestDigits_found m e V) as (Exact & Q & HE & Hw & HlE & HQ & Hf).
  destruct (ShortestDigits (S754_finite false m e)) as [D P]. destruct Hf as ((Hd & Hne & _) & Hr & HlD & HP & _).
  assert (DecimalToDouble neg D (P - Z.of_nat (length D)) = with_sign neg (S754_finite false m e)) as <-.
  { rewrite DecimalToDouble_units by done. f_equal. exact Hr. }
  split.
  - destruct (_ || _); [by apply exponent_form_number|by apply positional_form_number].
  - destruct (_ || _).
    + unfold exponent_form. rewrite !length_app, length_take.
      pose proof (dec_text_length (Z.abs (P - 1)) 4 ltac:(change (10 ^ Z.of_nat 4) with 10000; lia) ltac:(lia)).
      change (B "e-") with [x65; x2d]. change (B "e+") with [x65; x2b].
      destruct (1 <? length D)%nat, (P - 1 <? 0), (_ <? 2)%nat; cbn [length]; rewrite ?length_drop; cbn [length]; lia.
    + unfold positional_form. change (B "0.") with [x30; x2e]. change (B ".0") with [x2e; x30].
      destruct (P <=? 0) eqn:E1; [|destruct (Z.of_nat (length D) <=? P) eqn:E2];
        rewrite ?length_app, ?length_replicate, ?length_take, ?length_drop; cbn [length];
        rewrite ?length_take, ?length_drop, ?length_app; bool_props; lia.
Qed.

Lemma PyReprFloat_reads (V : dbl) : valid V -> PyFloatAscii (PyReprFloat V) = Some V.
Proof.
  intros HV. destruct V as [[]|[]| |[] m e]; [reflexivity..| |].
  - cbn [PyReprFloat dopp SFopp negb].
    assert (valid (S754_finite false m e)) as HV' by exact HV.
    destruct (repr_positive_number true [x2d] m e HV' sign_minus) as [Hn Hl].
    apply (number_reads (S754_finite true m e)); [exact Hn|]. cbn [length]. lia.
  - destruct (repr_positive_number false [] m e HV sign_none) as [Hn Hl].
    apply (number_reads (S754_finite false m e)); [exact Hn|]. cbn [PyReprFloat]. lia.
Qed.

(** C36: Python's [float(repr(x)) == x] holds for every double: the text of a
    double, in positional or exponent form, with its sign, and the texts of
    the zeros, infinities and NaN, is read by [PyFloatAscii] as that double. *)
Theorem PyReprFloat_roundtrip (V : dbl) : valid V -> PyFloatAscii (PyReprFloat V) = Some V.
Proof. apply PyReprFloat_reads. Qed.

Lemma ShortestDigits_shortest_witness :
  ShortestDigits (dlit 1 3) = (B "3333333333333333", 0) /\
  forall D x, all_digits D -> (length D < 16)%nat -> DecimalToDouble false D x <> dlit 1 3.
Proof.
  assert (ShortestDigits (dlit 1 3) = (B "3333333333333333", 0)) as E by (vm_compute; reflexivity).
  assert (pos_double (dlit 1 3)) as P by (split; [vm_compute; reflexivity|vm_compute; exact I]).
  pose proof (ShortestDigits_shortest (dlit 1 3) P ltac:(vm_compute; reflexivity)) as H.
  rewrite E in H. split; [exact E|apply H].
Defined.

Lemma PyReprFloat_roundtrip_witness :
  PyReprFloat (dopp (dlit 1 1024)) = B "-0.0009765625" /\
  PyFloatAscii (B "-0.0009765625") = Some (dopp (dlit 1 1024)).
Proof.
  pose proof (PyReprFloat_roundtrip (dopp (dlit 1 1024)) ltac:(vm_compute; reflexivity)) as H.
  assert (PyReprFloat (dopp (dlit 1 1024)) = B "-0.0009765625") as E by (vm_compute; reflexivity).
  rewrite E in H. split; [exact E|exact H].
Defined.
