(* ===== verification/PyValues.v ===== *)
(** * Python values: equality, hash and sets (src/src/diff/PyValue.cpp)

    The values [json.loads] makes, Python's [==] and a hash for set
    membership, and [PySet] with its hash index. Integers are kept as their
    canonical decimal digits; the keys and values of a dict, two parallel
    vectors in the source, are a list of pairs in insertion order. *)

From Stdlib Require Import ZArith Lia SpecFloat.
From stdpp Require Import base option numbers list gmap sets.
From S2P Require Import Prelude Dbl Decimal PyBig PyDecimal PyRepr RoundNearest DblRound PyDecimalSpec.
Local Open Scope Z_scope.

#[local] Unset Elimination Schemes.
Inductive PyValue : Type :=
| PyNone
| PyBool (BoolValue : bool)
| PyInt (IntDigits : text)
| PyFloat_ (FloatValue : dbl)
| PyStr_ (StrValue : text)
| PyList (Items : list PyValue)
| PyDict (Members : list (PyValue * PyValue)).
#[local] Set Elimination Schemes.

Definition Hashable (Value : PyValue) : bool :=
  match Value with PyList _ | PyDict _ => false | _ => true end.

(** ** Integral values *)

(** [std::floor]. *)
Definition dfloor (x : dbl) : dbl :=
  match x with
  | S754_finite s m e =>
      if 0 <=? e then x
      else d_of_Z ((if s : bool then Z.neg m else Z.pos m) / 2 ^ (- e))
  | _ => x
  end.

Definition d_isfinite (x : dbl) : bool :=
  match x with S754_finite _ _ _ | S754_zero _ => true | _ => false end.

Definition IsIntegralFinite (V : dbl) : bool := d_isfinite V && deq (dfloor V) V.

(** Canonical decimal of an integral finite double ("-0.0" -> "0"). *)
Definition IntegralDoubleDigits (V : dbl) : text :=
  if deq V d0 then [x30]
  else
    let Negative := dlt V d0 in
    let Magnitude := if Negative then dopp V else V in
    let Digits :=
      if dlt Magnitude (d_of_Z 9007199254740992) then dec_text (d_to_u64 Magnitude)
      else
        let '(Digits, DecPt) := ExactDecimal Magnitude in
        Digits ++ replicate (Z.to_nat (DecPt - Z.of_nat (length Digits))) x30 in
    if Negative then x2d :: Digits else Digits.

Definition IntegralDigits (Value : PyValue) : option text :=
  match Value with
  | PyBool b => Some (if b : bool then [x31] else [x30])
  | PyInt Digits => Some Digits
  | PyFloat_ V => if IsIntegralFinite V then Some (IntegralDoubleDigits V) else None
  | _ => None
  end.

Definition IsNumeric (Value : PyValue) : bool :=
  match Value with PyBool _ | PyInt _ | PyFloat_ _ => true | _ => false end.

(** ** Equality *)

(** [*IntegralDigits(A)], which the callers take only of a number that has them. *)
Definition digits_of (Value : PyValue) : text := default [] (IntegralDigits Value).

Definition numeric_equals (A B : PyValue) : bool :=
  match A, B with
  | PyFloat_ a, PyFloat_ b => if is_nan a && is_nan b then true else deq a b
  | PyFloat_ _, i | i, PyFloat_ _ =>
      let f := match A with PyFloat_ _ => A | _ => B end in
      match IntegralDigits f with
      | Some Digits => bool_decide (Digits = digits_of i)
      | None => false
      end
  | _, _ => bool_decide (digits_of A = digits_of B)
  end.

(** A dict is equal when the first equal key of [B] has an equal value, for each
    key of [A]. *)
Fixpoint PyEquals (A B : PyValue) : bool :=
  if IsNumeric A && IsNumeric B then numeric_equals A B
  else
    match A, B with
    | PyNone, PyNone => true
    | PyStr_ a, PyStr_ b => bool_decide (a = b)
    | PyList a, PyList b =>
        (length a =? length b)%nat &&
        (fix go (a b : list PyValue) : bool :=
           match a, b with x :: a', y :: b' => PyEquals x y && go a' b' | _, _ => true end) a b
    | PyDict a, PyDict b =>
        (length a =? length b)%nat &&
        (fix go (a : list (PyValue * PyValue)) : bool :=
           match a with
           | (k, v) :: a' =>
               (fix find (b : list (PyValue * PyValue)) : bool :=
                  match b with
                  | (k', v') :: b' => if PyEquals k k' then PyEquals v v' else find b'
                  | [] => false
                  end) b && go a'
           | [] => true
           end) a
    | _, _ => false
    end.

(** ** Hash *)

(** FNV-1a over the bytes, then a fold of the high bits. *)
Definition hash_byte (Hash : Z) (Ch : byte) : Z :=
  w64 (Z.lxor Hash (code Ch) * 1099511628211).
Definition HashBytes (Bytes : text) (Seed : Z) : Z :=
  let Hash := foldl hash_byte (Z.lxor 1469598103934665603 Seed) Bytes in
  Z.lxor Hash (Z.shiftr Hash 29).

(** The eight bytes of a [double] in memory. *)
Definition double_bytes (V : dbl) : text :=
  map (fun i => byte_of_code (Z.shiftr (RatioBits V) (8 * Z.of_nat i))) (seq 0 8).

Definition KindName (Value : PyValue) : text :=
  match Value with
  | PyNone => B "NoneType"
  | PyBool _ => B "bool"
  | PyInt _ => B "int"
  | PyFloat_ _ => B "float"
  | PyStr_ _ => B "str"
  | PyList _ => B "list"
  | PyDict _ => B "dict"
  end.

Definition unhashable (Site : text) (Value : PyValue) : exn :=
  DiaphoraWouldRaise Site (B "TypeError: unhashable type: '" ++ KindName Value ++ B "'").

Definition PyHash (Value : PyValue) : res Z :=
  match Value with
  | PyNone => Ok 0x9e3779b97f4a7c15
  | PyStr_ s => Ok (HashBytes s 0x53)
  | PyBool _ | PyInt _ => Ok (HashBytes (digits_of Value) 0x49)
  | PyFloat_ V =>
      if is_nan V then Ok 0x7ff8
      else match IntegralDigits Value with
           | Some Digits => Ok (HashBytes Digits 0x49)
           | None => Ok (HashBytes (double_bytes V) 0x46)
           end
  | PyList _ | PyDict _ => Throw (unhashable (B "hash") Value)
  end.

(** ** Sets

    [Index_] is the multimap from hashes to positions in [Items_]. *)
Record PySet := MkPySet { Items_ : list PyValue; Index_ : list (Z * nat) }.
Definition EmptyPySet : PySet := MkPySet [] [].
Definition PySetSize (s : PySet) : nat := length (Items_ s).

(** [Index_.equal_range(Hash)], in some order. *)
Definition equal_range (Hash : Z) (s : PySet) : list nat :=
  map snd (filter (fun e => e.1 = Hash) (Index_ s)).

Definition equal_at (s : PySet) (Value : PyValue) (Position : nat) : bool :=
  match Items_ s !! Position with Some Item => PyEquals Item Value | None => false end.

Definition Insert (Value : PyValue) (s : PySet) : res (PySet * bool) :=
  if negb (Hashable Value) then Throw (unhashable (B "set") Value)
  else
    Hash ← PyHash Value;
    if existsb (equal_at s Value) (equal_range Hash s) then Ok (s, false)
    else Ok (MkPySet (Items_ s ++ [Value]) (Index_ s ++ [(Hash, length (Items_ s))]), true).

Definition Contains (Value : PyValue) (s : PySet) : res bool :=
  if negb (Hashable Value) then Throw (unhashable (B "set") Value)
  else
    Hash ← PyHash Value;
    Ok (existsb (equal_at s Value) (equal_range Hash s)).

Fixpoint insert_all (Items : list PyValue) (Result : PySet) : res PySet :=
  match Items with
  | [] => Ok Result
  | Item :: Items' => '(Result, _) ← Insert Item Result; insert_all Items' Result
  end.
Definition PySetFromList (Items : list PyValue) : res PySet := insert_all Items EmptyPySet.

Fixpoint count_contained (Items : list PyValue) (Large : PySet) (Count : nat) : res nat :=
  match Items with
  | [] => Ok Count
  | Item :: Items' =>
      found ← Contains Item Large;
      count_contained Items' Large (if found : bool then S Count else Count)
  end.
Definition PySetIntersectionSize (A B : PySet) : res nat :=
  let '(Small, Large) := if (PySetSize A <=? PySetSize B)%nat then (A, B) else (B, A) in
  count_contained (Items_ Small) Large O.

(** The key objects of the intersection are those of the set Python iterates. *)
Fixpoint intersection_loop (KeysFromDiff : bool) (Items : list PyValue) (Diff : PySet)
    (Result : list PyValue) : res (list PyValue) :=
  match Items with
  | [] => Ok Result
  | Item :: Items' =>
      found ← Contains Item Diff;
      if negb found then intersection_loop KeysFromDiff Items' Diff Result
      else
        let Result :=
          if KeysFromDiff && match Item with PyStr_ _ | PyNone => false | _ => true end then
            match find (fun Other => PyEquals Other Item) (Items_ Diff) with
            | Some Other => Result ++ [Other]
            | None => Result
            end
          else Result ++ [Item] in
        intersection_loop KeysFromDiff Items' Diff Result
  end.
Definition PySetIntersection (Main Diff : PySet) : res (list PyValue) :=
  intersection_loop (PySetSize Diff <=? PySetSize Main)%nat (Items_ Main) Diff [].

(** [str(x)]. *)
Definition PyStr (Value : PyValue) : res text :=
  match Value with
  | PyNone => Ok (B "None")
  | PyBool b => Ok (if b : bool then B "True" else B "False")
  | PyInt Digits => Ok Digits
  | PyFloat_ V => Ok (PyReprFloat V)
  | PyStr_ s => Ok s
  | PyList _ | PyDict _ =>
      Throw (UnsupportedInput (B "PyStr: str() of a " ++ KindName Value ++ B " is not ported"))
  end.

Example set_example :
  PySetFromList [PyInt (B "1"); PyFloat_ d1; PyBool true; PyStr_ (B "1"); PyFloat_ S754_nan; PyFloat_ S754_nan]
  = Ok (MkPySet [PyInt (B "1"); PyStr_ (B "1"); PyFloat_ S754_nan]
         [(HashBytes (B "1") 0x49, O); (HashBytes (B "1") 0x53, 1%nat); (0x7ff8, 2%nat)]).
Proof. vm_compute. reflexivity. Qed.

(** * Python equality is equality of values

    [key_of] is the mathematical value of a hashable Python value, an exact
    number for int, bool and float alike. [PyEquals] decides equality of keys,
    the hash respects it, and [PySet] is the finite set of the keys. *)

(** ** Signed doubles *)

Lemma d_of_Z_opp (k : Z) : 0 < k -> d_of_Z (- k) = dopp (d_of_Z k).
Proof.
  intros Hk. destruct k as [|p|p]; [lia| |lia]. unfold d_of_Z, binary_normalize.
  change (- Z.pos p) with (Z.neg p). cbv iota beta. rewrite !binary_round_units. apply round_units_opp.
Qed.

(** Zeros and the finite doubles, of either sign. *)
Definition finite_double (x : dbl) : Prop := valid x /\ is_finite x = true.

Lemma deq_opp (x y : dbl) : deq (dopp x) (dopp y) = deq x y.
Proof.
  unfold deq, SFeqb, dopp, SFopp, SFcompare.
  destruct x as [[]|[]| |[] m e], y as [[]|[]| |[] m' e']; try done; cbn [negb];
    destruct (e ?= e'); try done; by destruct (Pos.compare_cont Eq m m').
Qed.

Lemma finite_sign (x : dbl) : finite_double x -> pos_double x \/ (pos_double (dopp x) /\ units x <= 0).
Proof.
  intros [V F]. destruct x as [[]|?| |[] m e]; try done.
  - right. by split; [split|].
  - left. by split.
  - right. split; [by split|]. unfold units. pose proof (pow2_pos (e + 1074)).
    apply valid_finite in V. nia.
  - left. by split.
Qed.

Lemma deq_pos_units (x y : dbl) : pos_double x -> pos_double y -> deq x y = (units x =? units y).
Proof.
  intros Hx Hy. destruct (Z.eqb_spec (units x) (units y)) as [E|E].
  - rewrite (units_inj x y Hx Hy E). apply deq_refl. destruct Hy as [_ Hy]. by destruct y as [[]|?| |[] ? ?].
  - apply not_true_iff_false. intros H. apply E. destruct (deq x d0) eqn:H0.
    + rewrite (deq_zero _ _ H) in H0. assert (forall z, pos_double z -> deq z d0 = true -> units z = 0) as Hz.
      { intros z [_ Hz]. by destruct z as [[]|?| |[] ? ?]. }
      rewrite (Hz y Hy H0), (Hz x Hx); [done|]. by rewrite (deq_zero _ _ H).
    + by rewrite (deq_eq _ _ H H0).
Qed.

Lemma deq_mixed (x y : dbl) : pos_double x -> pos_double (dopp y) -> deq x y = (units x =? units y).
Proof.
  intros [Vx Hx] [Vy Hy].
  destruct x as [[]|?| |[] m e]; try done; destruct y as [[]|?| |[] m' e']; try done;
    symmetry; cbn [dopp SFopp negb] in *; unfold units.
  - apply valid_finite in Vy. pose proof (pow2_pos (e' + 1074) ltac:(lia)). apply Z.eqb_neq. nia.
  - apply valid_finite in Vx. pose proof (pow2_pos (e + 1074) ltac:(lia)). apply Z.eqb_neq. nia.
  - apply valid_finite in Vx, Vy. pose proof (pow2_pos (e + 1074) ltac:(lia)).
    pose proof (pow2_pos (e' + 1074) ltac:(lia)). apply Z.eqb_neq. nia.
Qed.

(** Equality of finite doubles is equality of their values. *)
Lemma deq_units (x y : dbl) : finite_double x -> finite_double y -> deq x y = (units x =? units y).
Proof.
  intros Hx Hy. destruct (finite_sign x Hx) as [Px|[Px _]], (finite_sign y Hy) as [Py|[Py _]].
  - by apply deq_pos_units.
  - by apply deq_mixed.
  - rewrite deq_sym, Z.eqb_sym. by apply deq_mixed.
  - rewrite <- deq_opp, deq_pos_units, !units_opp by done.
    destruct (Z.eqb_spec (- units x) (- units y)), (Z.eqb_spec (units x) (units y)); lia || done.
Qed.

(** ** Integral doubles *)

Definition integral_value (V : dbl) (z : Z) : Prop := units V = z * 2 ^ 1074.

Lemma d_of_Z_signed (z : Z) : - 2 ^ 53 <= z <= 2 ^ 53 ->
  finite_double (d_of_Z z) /\ units (d_of_Z z) = z * 2 ^ 1074.
Proof.
  intros Hz. assert (forall x, pos_double x -> finite_double x) as Hf.
  { intros x [V S]. split; [done|]. by destruct x as [[]|?| |[] ? ?]. }
  destruct (Z.le_gt_cases 0 z) as [H|H].
  - destruct (d_of_Z_exact z ltac:(lia)) as [P U]. split; [by apply Hf|done].
  - destruct (d_of_Z_exact (- z) ltac:(lia)) as [P U].
    replace z with (- - z) at 1 2 by lia. rewrite d_of_Z_opp, units_opp by lia.
    split; [|lia]. destruct (Hf _ P) as [V F]. by destruct (d_of_Z (- z)) as [[]|?| |[] ? ?].
Qed.

Lemma IsIntegralFinite_spec (V : dbl) : finite_double V ->
  IsIntegralFinite V = true <-> exists z, integral_value V z.
Proof.
  intros HV. pose proof HV as [Hval Hfin]. unfold IsIntegralFinite, integral_value.
  destruct V as [s|?| |s m e]; try done; cbn [d_isfinite andb].
  { split; [intros _; by exists 0|]. by destruct s. }
  apply valid_finite in Hval. cbn [dfloor]. set (M := if s then Z.neg m else Z.pos m).
  assert (units (S754_finite s m e) = M * 2 ^ (e + 1074)) as HU by (unfold units, M; destruct s; lia).
  destruct (Z.leb_spec 0 e) as [He|He].
  - rewrite deq_refl by done. split; [intros _|done]. exists (M * 2 ^ e).
    by rewrite HU, <- Z.mul_assoc, <- Z.pow_add_r by lia.
  - pose proof (pow2_pos (- e) ltac:(lia)) as Hp.
    pose proof (Z.div_mod M (2 ^ (- e)) ltac:(lia)) as E. pose proof (Z.mod_pos_bound M (2 ^ (- e)) Hp) as Hr.
    set (q := M / 2 ^ (- e)) in *. set (r := M mod 2 ^ (- e)) in *.
    assert (- 2 ^ 53 <= q <= 2 ^ 53) as Hq.
    { assert (- 2 ^ 53 <= M <= 2 ^ 53) by (unfold M; destruct s; lia).
      set (C := 2 ^ 53) in *. assert (0 < C) by done. clearbody C q r M. nia. }
    destruct (d_of_Z_signed q Hq) as [Fq Uq]. rewrite deq_units, Uq, HU by done. rewrite Z.eqb_eq.
    pose proof (pow2_pos (e + 1074) ltac:(lia)).
    assert (2 ^ 1074 = 2 ^ (- e) * 2 ^ (e + 1074)) as -> by (rewrite <- Z.pow_add_r by lia; f_equal; lia).
    set (P := 2 ^ (- e)) in *. set (G := 2 ^ (e + 1074)) in *. clearbody P G. split.
    + intros H'. by exists q.
    + intros [z Hz]. assert (M = z * P) as EM by nia.
      assert (q = z) as -> by (unfold q; rewrite EM; apply Z.div_mul; lia). lia.
Qed.

(** The digits of a positive integral double from 2^53 on. *)
Lemma big_integral_digits (V : dbl) (k : Z) : pos_double V -> 0 < k -> integral_value V k ->
  (let '(Digits, DecPt) := ExactDecimal V in
   Digits ++ replicate (Z.to_nat (DecPt - Z.of_nat (length Digits))) x30) = dec_text k.
Proof.
  intros [HV HS] Hk HI. destruct V as [[]|?| |[] m e]; try done; unfold integral_value in HI.
  { cbn [units] in HI. pose proof (pow2_pos 1074). nia. }
  pose proof (ExactDecimal_spec m e HV) as HX. destruct (ExactDecimal (S754_finite false m e)) as [D P].
  destruct HX as ((Hd & Hne & Hh & Hl) & Hw & _). set (x := P - Z.of_nat (length D)) in *.
  rewrite HI in Hw. unfold worth, dec_num, decimal_den in Hw.
  assert (dec_value D * 10 ^ Z.max 0 x = k * 10 ^ Z.max 0 (- x)) as E.
  { pose proof (pow2_pos 1074 ltac:(lia)). set (T := 2 ^ 1074) in *. clearbody T. nia. }
  assert (0 <= x) as Hx.
  { destruct (Z.le_gt_cases 0 x) as [|Hneg]; [done|exfalso]. rewrite Z.max_l, Z.max_r in E by lia.
    change (10 ^ 0) with 1 in E. replace (- x) with (1 + (- x - 1)) in E by lia.
    rewrite Z.pow_add_r in E by lia. destruct (exists_last Hne) as (u & c & ED). subst D.
    apply Hl. rewrite last_snoc. f_equal. apply Forall_app in Hd as [_ Hc]. rewrite Forall_singleton in Hc.
    apply (digit_value_zero c Hc). pose proof (digit_value_range c Hc).
    rewrite dec_value_app, dec_value_single in E. change (10 ^ Z.of_nat (length [c])) with 10 in E.
    change (10 ^ 1) with 10 in E. set (w := k * 10 ^ (- x - 1)) in *.
    assert (dec_value u * 10 + digit_value c = 10 * w) by (unfold w; lia). lia. }
  rewrite Z.max_r, Z.max_l in E by lia. change (10 ^ 0) with 1 in E. rewrite Z.mul_1_r in E.
  rewrite <- (dec_text_canonical (D ++ replicate (Z.to_nat x) x30)).
  - f_equal. rewrite dec_value_app, zeros_value, length_replicate, Z2Nat.id by done. lia.
  - split; [apply Forall_app_2; [done|apply zeros_digits]|].
    destruct D as [|c [|c' D]]; [done| |].
    + cbn [app]. destruct (replicate _ _); [done|]. intros C. apply Hh. cbn.
      apply Forall_cons in Hd as [Hc _]. by rewrite (digit_value_zero c Hc C).
    + cbn [app]. intros C. apply Hh. cbn. apply Forall_cons in Hd as [Hc _]. by rewrite (digit_value_zero c Hc C).
Qed.

Lemma positive_integral_digits (V : dbl) (k : Z) : pos_double V -> 0 < k -> integral_value V k ->
  (if dlt V (d_of_Z 9007199254740992) then dec_text (d_to_u64 V)
   else let '(Digits, DecPt) := ExactDecimal V in
        Digits ++ replicate (Z.to_nat (DecPt - Z.of_nat (length Digits))) x30) = dec_text k.
Proof.
  intros HV Hk HI. change 9007199254740992 with (2 ^ 53).
  destruct (d_of_Z_exact (2 ^ 53) ltac:(lia)) as [HP HU]. rewrite dlt_units, HU by done.
  destruct (Z.ltb_spec (units V) (2 ^ 53 * 2 ^ 1074)) as [Hlt|Hge]; [|by apply big_integral_digits].
  rewrite (d_to_u64_units V k); [done|done|done|]. unfold integral_value in HI. rewrite HI in Hlt.
  pose proof (pow2_pos 1074 ltac:(lia)). set (T := 2 ^ 1074) in *. clearbody T.
  assert (k < 2 ^ 53) by nia. change (2 ^ 53) with 9007199254740992 in *.
  change (2 ^ 64) with 18446744073709551616. lia.
Qed.

Lemma IntegralDoubleDigits_spec (V : dbl) (z : Z) : finite_double V -> integral_value V z ->
  IntegralDoubleDigits V = dec_text z.
Proof.
  intros HV HI. unfold IntegralDoubleDigits.
  assert (finite_double d0) as H0 by done. rewrite (deq_units V d0) by done. change (units d0) with 0.
  pose proof (pow2_pos 1074 ltac:(lia)) as HT. unfold integral_value in HI.
  destruct (Z.eqb_spec (units V) 0) as [E|E].
  { assert (z = 0) as -> by (rewrite E in HI; nia). done. }
  destruct (finite_sign V HV) as [HP|[HP Hneg]].
  - assert (dlt V d0 = false) as ->.
    { destruct HP as [_ HS]. by destruct V as [[]|?| |[] ? ?]. }
    pose proof (pos_double_nonneg V HP). apply positive_integral_digits; [done| |done].
    set (T := 2 ^ 1074) in *. clearbody T. nia.
  - assert (dlt V d0 = true) as ->.
    { destruct HP as [_ HS]. by destruct V as [[]|?| |[] ? ?]. }
    assert (0 < - z) as Hz by (set (T := 2 ^ 1074) in *; clearbody T; nia).
    rewrite (positive_integral_digits (dopp V) (- z)); [|done|done|].
    + unfold dec_text. destruct (Z.ltb_spec (- z) 0); [lia|]. by destruct (Z.ltb_spec z 0); [|lia].
    + unfold integral_value. rewrite units_opp. lia.
Qed.

(** ** The value of a hashable *)

Inductive pykey :=
| KNone
| KStr (s : text)
| KNum (u : Z)  (* an exact number, in units of 2^-1074 *)
| KInf (s : bool)
| KNan.

#[export] Instance pykey_eq_dec : EqDecision pykey.
Proof. solve_decision. Defined.

#[export] Program Instance pykey_countable : Countable pykey :=
  inj_countable'
    (fun k => match k with
              | KNone => inl (inl (inl tt)) | KNan => inl (inl (inr tt))
              | KInf s => inl (inr s) | KStr s => inr (inl s) | KNum u => inr (inr u) end)
    (fun x => match x with
              | inl (inl (inl _)) => KNone | inl (inl (inr _)) => KNan
              | inl (inr s) => KInf s | inr (inl s) => KStr s | inr (inr u) => KNum u end) _.
Next Obligation. by intros []. Qed.

Definition int_value (Digits : text) : Z :=
  match Digits with
  | Ch :: t => if bool_decide (Ch = x2d) then - dec_value t else dec_value Digits
  | [] => 0
  end.

Definition key_of (Value : PyValue) : pykey :=
  match Value with
  | PyNone => KNone
  | PyStr_ s => KStr s
  | PyBool b => KNum (if b : bool then 2 ^ 1074 else 0)
  | PyInt Digits => KNum (int_value Digits * 2 ^ 1074)
  | PyFloat_ (S754_infinity s) => KInf s
  | PyFloat_ S754_nan => KNan
  | PyFloat_ V => KNum (units V)
  | _ => KNan
  end.

(** The values the parser makes: canonical digits, representable doubles. *)
Definition wf_scalar (Value : PyValue) : Prop :=
  Hashable Value = true /\
  match Value with
  | PyInt Digits => exists z, Digits = dec_text z
  | PyFloat_ V => valid V
  | _ => True
  end.

Lemma int_value_dec_text (z : Z) : int_value (dec_text z) = z.
Proof.
  destruct (Z.le_gt_cases 0 z) as [H|H].
  - destruct (dec_text_spec z H) as ([Hd Hc] & Hv & _). unfold int_value.
    destruct (dec_text z) as [|c t] eqn:E; [done|]. rewrite bool_decide_false; [done|].
    intros ->. apply Forall_cons in Hd as [Hd _]. done.
  - unfold dec_text. destruct (Z.ltb_spec z 0); [|lia]. cbn [int_value]. rewrite bool_decide_true by done.
    destruct (dec_text_spec (- z) ltac:(lia)) as (_ & Hv & _). unfold dec_text in Hv.
    destruct (Z.ltb_spec (- z) 0); [lia|]. rewrite Hv. lia.
Qed.

Lemma dec_text_inj (a b : Z) : dec_text a = dec_text b -> a = b.
Proof. intros H. rewrite <- (int_value_dec_text a), H. apply int_value_dec_text. Qed.

Lemma units_scale (a b : Z) : a * 2 ^ 1074 = b * 2 ^ 1074 <-> a = b.
Proof. pose proof (pow2_pos 1074 ltac:(lia)). set (T := 2 ^ 1074) in *. clearbody T. split; intros; nia. Qed.

(** The digits of an int or bool are those of its value. *)
Lemma digits_of_key (Value : PyValue) : wf_scalar Value -> IsNumeric Value = true ->
  match Value with
  | PyFloat_ _ => True
  | _ => exists z, digits_of Value = dec_text z /\ IntegralDigits Value = Some (dec_text z) /\
           key_of Value = KNum (z * 2 ^ 1074)
  end.
Proof.
  intros [_ HW]. destruct Value; try done; intros _.
  - destruct BoolValue; [exists 1|exists 0]; (split; [done|]); (split; [done|]); unfold key_of; f_equal; lia.
  - destruct HW as [z ->]. exists z. split; [done|]. split; [done|]. unfold key_of. by rewrite int_value_dec_text.
Qed.

(** The digits of a float: those of its value when it is an integer. *)
Lemma digits_of_float (V : dbl) : valid V ->
  match IntegralDigits (PyFloat_ V) with
  | Some Digits => exists z, Digits = dec_text z /\ key_of (PyFloat_ V) = KNum (z * 2 ^ 1074)
  | None => forall z, key_of (PyFloat_ V) <> KNum (z * 2 ^ 1074)
  end.
Proof.
  intros HV. cbn [IntegralDigits]. destruct (is_finite V) eqn:HF.
  - assert (finite_double V) as HD by done.
    assert (key_of (PyFloat_ V) = KNum (units V)) as -> by by destruct V.
    destruct (IsIntegralFinite V) eqn:EI.
    + apply IsIntegralFinite_spec in EI as [z Hz]; [|done]. exists z.
      rewrite (IntegralDoubleDigits_spec V z) by done. by rewrite Hz.
    + intros z Hz. injection Hz as Hz.
      assert (IsIntegralFinite V = true); [|congruence]. apply IsIntegralFinite_spec; [done|]. by exists z.
  - assert (IsIntegralFinite V = false) as -> by by destruct V. by destruct V.
Qed.

Lemma float_equals_key (a b : dbl) : valid a -> valid b ->
  (if is_nan a && is_nan b then true else deq a b)
  = bool_decide (key_of (PyFloat_ a) = key_of (PyFloat_ b)).
Proof.
  intros Ha Hb. destruct (is_finite a) eqn:Fa, (is_finite b) eqn:Fb.
  - assert (is_nan a && is_nan b = false) as -> by (by destruct a). rewrite deq_units by done.
    assert (forall x, is_finite x = true -> key_of (PyFloat_ x) = KNum (units x)) as Hk by by intros [].
    rewrite !Hk by done. destruct (Z.eqb_spec (units a) (units b)) as [->|Hne]; case_bool_decide; congruence.
  - destruct a as [?|?| |? ? ?], b as [?|[]| |? ? ?]; try done; by rewrite bool_decide_false.
  - destruct a as [?|[]| |? ? ?], b as [?|?| |? ? ?]; try done; by rewrite bool_decide_false.
  - destruct a as [?|[]| |? ? ?], b as [?|[]| |? ? ?]; done.
Qed.

Lemma numeric_equals_key (A C : PyValue) : wf_scalar A -> wf_scalar C ->
  IsNumeric A = true -> IsNumeric C = true ->
  numeric_equals A C = bool_decide (key_of A = key_of C).
Proof.
  intros HA HC NA NC.
  pose proof (digits_of_key A HA NA) as DA. pose proof (digits_of_key C HC NC) as DC.
  assert (forall V z i, valid V -> digits_of i = dec_text z -> key_of i = KNum (z * 2 ^ 1074) ->
    match IntegralDigits (PyFloat_ V) with
    | Some Digits => bool_decide (Digits = digits_of i) | None => false end
    = bool_decide (key_of (PyFloat_ V) = key_of i)) as Hmix.
  { intros V z i HV Hd Hk. pose proof (digits_of_float V HV) as HF.
    destruct (IntegralDigits (PyFloat_ V)) as [Digits|].
    - destruct HF as (z' & -> & ->). rewrite Hd, Hk. apply bool_decide_ext. split.
      + by intros ->%dec_text_inj.
      + intros E. injection E as E. apply (proj1 (units_scale _ _)) in E. by rewrite E.
    - rewrite Hk. symmetry. apply bool_decide_eq_false, HF. }
  assert (forall V z i, valid V -> digits_of i = dec_text z -> key_of i = KNum (z * 2 ^ 1074) ->
    match IntegralDigits (PyFloat_ V) with
    | Some Digits => bool_decide (Digits = digits_of i) | None => false end
    = bool_decide (key_of i = key_of (PyFloat_ V))) as Hmix'.
  { intros V z i HV Hd Hk. rewrite (Hmix V z i HV Hd Hk). by apply bool_decide_ext. }
  assert (forall z z' i j, digits_of i = dec_text z -> digits_of j = dec_text z' ->
    key_of i = KNum (z * 2 ^ 1074) -> key_of j = KNum (z' * 2 ^ 1074) ->
    bool_decide (digits_of i = digits_of j) = bool_decide (key_of i = key_of j)) as Hint.
  { intros z z' i j -> -> -> ->. apply bool_decide_ext. split; [by intros ->%dec_text_inj|].
    intros E. injection E as E. apply (proj1 (units_scale _ _)) in E. by rewrite E. }
  destruct HA as [_ WA], HC as [_ WC]. unfold numeric_equals.
  destruct A; try done; destruct C; try done.
  all: try (destruct DA as (zA & DA1 & _ & DA2)); try (destruct DC as (zC & DC1 & _ & DC2)).
  all: first [by apply float_equals_key | by eapply Hint | by eapply Hmix | by eapply Hmix'].
Qed.

(** [PyEquals] decides equality of values. *)
Lemma PyEquals_key (A C : PyValue) : wf_scalar A -> wf_scalar C ->
  PyEquals A C = bool_decide (key_of A = key_of C).
Proof.
  intros HA HC. destruct (IsNumeric A && IsNumeric C) eqn:EN.
  - bool_props. rewrite <- numeric_equals_key by done.
    assert (forall x y, IsNumeric x = true -> IsNumeric y = true -> PyEquals x y = numeric_equals x y) as ->; [|done..].
    { by intros [] []. }
  - destruct HA as [HA _], HC as [HC _].
    assert (forall x, key_of (PyFloat_ x) <> KNone /\ forall s, key_of (PyFloat_ x) <> KStr s) as Hf.
    { by intros [|[]| |]. }
    destruct A; try done; destruct C; try done; cbn [PyEquals IsNumeric andb];
      try (symmetry; apply bool_decide_eq_false; first [done | apply Hf | intros C; symmetry in C; by apply Hf in C]).
    apply bool_decide_ext. split; [by intros ->|]. intros E. by injection E.
Qed.

(** ** The hash *)

Lemma finite_units_inj (x y : dbl) : finite_double x -> finite_double y -> units x <> 0 ->
  units x = units y -> x = y.
Proof.
  intros Hx Hy Hne E. apply deq_eq.
  - rewrite deq_units, E by done. apply Z.eqb_refl.
  - rewrite (deq_units x d0) by done. by apply Z.eqb_neq.
Qed.

(** The hash of a number, by its value. *)
Lemma numeric_hash (A : PyValue) : wf_scalar A -> IsNumeric A = true ->
  (PyHash A = Ok 0x7ff8 /\ key_of A = KNan) \/
  (exists z, PyHash A = Ok (HashBytes (dec_text z) 0x49) /\ key_of A = KNum (z * 2 ^ 1074)) \/
  (exists V, A = PyFloat_ V /\ valid V /\ PyHash A = Ok (HashBytes (double_bytes V) 0x46) /\
     key_of A <> KNan /\ forall z, key_of A <> KNum (z * 2 ^ 1074)).
Proof.
  intros HA HN. pose proof (digits_of_key A HA HN) as HD. destruct A; try done.
  - right. left. destruct HD as (z & Hd & _ & Hk). exists z. split; [|done]. cbn [PyHash]. by rewrite Hd.
  - right. left. destruct HD as (z & Hd & _ & Hk). exists z. split; [|done]. cbn [PyHash]. by rewrite Hd.
  - destruct HA as [_ HV]. cbn [PyHash]. destruct (is_nan FloatValue) eqn:EN; [by left; destruct FloatValue|right].
    pose proof (digits_of_float FloatValue HV) as HF. destruct (IntegralDigits (PyFloat_ FloatValue)) as [D|].
    + left. destruct HF as (z & -> & Hk). by exists z.
    + right. exists FloatValue. split_and!; try done. by destruct FloatValue as [?|[]| |? ? ?].
Qed.

Lemma float_key_inj (V V' : dbl) : valid V -> valid V' -> key_of (PyFloat_ V) <> KNan ->
  (forall z, key_of (PyFloat_ V) <> KNum (z * 2 ^ 1074)) ->
  key_of (PyFloat_ V) = key_of (PyFloat_ V') -> V = V'.
Proof.
  intros HV HV' Hn Hz E. specialize (Hz 0). rewrite Z.mul_0_l in Hz.
  destruct (is_finite V) eqn:F.
  - assert (is_finite V' = true) as F' by (destruct V as [?|?| |? ? ?], V' as [?|?| |? ? ?]; done).
    assert (forall x, is_finite x = true -> key_of (PyFloat_ x) = KNum (units x)) as Hk by by intros [].
    rewrite (Hk V F) in E, Hz. rewrite (Hk V' F') in E. injection E as E. apply finite_units_inj; try done.
    intros C. apply Hz. by rewrite C.
  - destruct V as [?|s| |? ? ?]; try done. destruct V' as [?|s'| |? ? ?]; try done. by injection E as ->.
Qed.

(** Equal values hash equal: 1, 1.0 and True too. *)
Lemma PyHash_key (A C : PyValue) : wf_scalar A -> wf_scalar C ->
  key_of A = key_of C -> PyHash A = PyHash C.
Proof.
  intros HA HC E. destruct (IsNumeric A) eqn:NA, (IsNumeric C) eqn:NC.
  - destruct (numeric_hash A HA NA) as [(HhA & HkA)|[(z & HhA & HkA)|(V & -> & HV & HhA & Hn & Hz)]];
      destruct (numeric_hash C HC NC) as [(HhC & HkC)|[(z' & HhC & HkC)|(V' & -> & HV' & HhC & Hn' & Hz')]];
      first
        [ congruence
        | exfalso; eapply Hz; congruence
        | exfalso; eapply Hz'; congruence
        | by rewrite (float_key_inj V V' HV HV' Hn Hz E)
        | rewrite HhA, HhC; rewrite HkA, HkC in E; injection E as E;
          apply (proj1 (units_scale _ _)) in E; by rewrite E ].
  - exfalso. destruct HA as [HA _], HC as [HC _]. destruct A as [| | |[|[]| |]| | |]; try done; destruct C; done.
  - exfalso. destruct HA as [HA _], HC as [HC _]. destruct C as [| | |[|[]| |]| | |]; try done; destruct A; done.
  - destruct HA as [HA _], HC as [HC _]. destruct A; try done; destruct C; try done.
    cbn [key_of] in E. injection E as ->. done.
Qed.

Lemma PyHash_ok (A : PyValue) : Hashable A = true -> exists h, PyHash A = Ok h.
Proof.
  intros HA. destruct A; try done; try (by eexists). cbn [PyHash].
  destruct (is_nan FloatValue); [by eexists|]. destruct (IntegralDigits _); by eexists.
Qed.

(** ** Sets *)

(** The index holds the hash of every item, at its position. *)
Record wf_pyset (s : PySet) : Prop := {
  wps_items : Forall wf_scalar (Items_ s);
  wps_index : Forall2 (fun e p => e.2 = p.1 /\ PyHash p.2 = Ok e.1) (Index_ s) (imap pair (Items_ s));
  wps_nodup : NoDup (map key_of (Items_ s));
}.

(** The mathematical set of a [PySet]. *)
Definition keys (s : PySet) : gset pykey := list_to_set (map key_of (Items_ s)).

Lemma wf_EmptyPySet : wf_pyset EmptyPySet.
Proof. split; constructor. Qed.

Lemma equal_range_spec (s : PySet) (Value : PyValue) (h : Z) : wf_pyset s -> wf_scalar Value ->
  PyHash Value = Ok h ->
  existsb (equal_at s Value) (equal_range h s) = bool_decide (key_of Value ∈ map key_of (Items_ s)).
Proof.
  intros [HI Hx _] HV Hh. apply eq_true_iff_eq. rewrite existsb_exists, bool_decide_eq_true. split.
  - intros (p & _ & Hp). unfold equal_at in Hp. destruct (Items_ s !! p) as [Item|] eqn:El; [|done].
    rewrite Forall_lookup in HI. rewrite (PyEquals_key Item Value (HI _ _ El) HV) in Hp. bool_props.
    apply list_elem_of_fmap. exists Item. split; [done|]. by eapply list_elem_of_lookup_2.
  - intros (Item & Hk & Hin)%list_elem_of_fmap. apply list_elem_of_lookup_1 in Hin as [p El].
    exists p. rewrite Forall_lookup in HI. pose proof (HI _ _ El) as HW. split.
    + apply in_map_iff. assert (imap pair (Items_ s) !! p = Some (p, Item)) as Hp by by rewrite list_lookup_imap, El.
      destruct (Forall2_lookup_r _ _ _ _ _ Hx Hp) as ([h' q] & Hq & Hq1 & Hq2). cbn [fst snd] in *. subst q.
      assert (h' = h) as -> by (rewrite (PyHash_key Item Value HW HV ltac:(done)) in Hq2; congruence).
      exists (h, p). split; [done|]. apply list_elem_of_In, list_elem_of_filter.
      split; [done|]. by eapply list_elem_of_lookup_2.
    + unfold equal_at. rewrite El, (PyEquals_key Item Value HW HV). by apply bool_decide_eq_true.
Qed.

(** [Contains] is membership of the value. *)
Lemma Contains_keys (Value : PyValue) (s : PySet) : wf_pyset s -> wf_scalar Value ->
  Contains Value s = Ok (bool_decide (key_of Value ∈ keys s)).
Proof.
  intros Hs HV. unfold Contains. rewrite (proj1 HV). cbn [negb].
  destruct (PyHash_ok Value (proj1 HV)) as [h Hh]. rewrite Hh. cbn [mbind res_bind].
  rewrite equal_range_spec by done. f_equal. apply bool_decide_ext. unfold keys.
  by rewrite elem_of_list_to_set.
Qed.

(** [Insert] adds the value unless an equal one is there, which then stays. *)
Lemma Insert_keys (Value : PyValue) (s : PySet) : wf_pyset s -> wf_scalar Value ->
  exists s', Insert Value s = Ok (s', bool_decide (key_of Value ∉ keys s)) /\
    wf_pyset s' /\ keys s' = {[key_of Value]} ∪ keys s /\
    Items_ s' = Items_ s ++ (if bool_decide (key_of Value ∈ keys s) then [] else [Value]).
Proof.
  intros Hs HV. unfold Insert. rewrite (proj1 HV). cbn [negb].
  destruct (PyHash_ok Value (proj1 HV)) as [h Hh]. rewrite Hh. cbn [mbind res_bind].
  rewrite equal_range_spec by done.
  assert (bool_decide (key_of Value ∈ map key_of (Items_ s)) = bool_decide (key_of Value ∈ keys s)) as ->.
  { apply bool_decide_ext. unfold keys. by rewrite elem_of_list_to_set. }
  case_bool_decide as Hin.
  - rewrite bool_decide_false by tauto. exists s. split; [done|]. split; [done|]. split; [symmetry; by apply subseteq_union_1_L, singleton_subseteq_l|].
    by rewrite app_nil_r.
  - rewrite bool_decide_true by done. eexists. split; [done|]. destruct Hs as [HI Hx Hn]. split_and!; [| |done].
    + split; cbn [Items_ Index_].
      * apply Forall_app_2; [done|by constructor].
      * rewrite imap_app. apply Forall2_app; [done|]. constructor; [|constructor]. cbn. split; [lia|done].
      * rewrite map_app. apply NoDup_app. split; [done|]. split; [|apply NoDup_singleton].
        intros k Hk Hk'. apply list_elem_of_singleton in Hk' as ->. apply Hin. unfold keys.
        by rewrite elem_of_list_to_set.
    + unfold keys. cbn [Items_]. rewrite map_app, list_to_set_app_L. cbn [map list_to_set].
      by rewrite union_empty_r_L, union_comm_L.
Qed.

(** The first value of each key, in order of first appearance. *)
Fixpoint first_of_each (seen : gset pykey) (l : list PyValue) : list PyValue :=
  match l with
  | [] => []
  | v :: l' =>
      if bool_decide (key_of v ∈ seen) then first_of_each seen l'
      else v :: first_of_each ({[key_of v]} ∪ seen) l'
  end.

Lemma insert_all_keys (l : list PyValue) : forall s, wf_pyset s -> Forall wf_scalar l ->
  exists s', insert_all l s = Ok s' /\ wf_pyset s' /\
    Items_ s' = Items_ s ++ first_of_each (keys s) l /\
    keys s' = list_to_set (map key_of l) ∪ keys s.
Proof.
  induction l as [|v l IH]; intros s Hs Hl; cbn [insert_all first_of_each].
  { exists s. rewrite app_nil_r. cbn. by rewrite union_empty_l_L. }
  apply Forall_cons in Hl as [Hv Hl]. destruct (Insert_keys v s Hs Hv) as (s' & -> & Hs' & Hk & HI).
  cbn [mbind res_bind]. destruct (IH s' Hs' Hl) as (s'' & -> & Hs'' & HI' & Hk'').
  exists s''. split; [done|]. split; [done|]. rewrite Hk'', HI', HI, Hk. split.
  - case_bool_decide as Hin; [|by rewrite <- app_assoc].
    rewrite app_nil_r. f_equal. f_equal. by apply subseteq_union_1_L, singleton_subseteq_l.
  - cbn [map list_to_set]. rewrite union_assoc_L. f_equal. apply union_comm_L.
Qed.

Lemma PySetFromList_keys (l : list PyValue) : Forall wf_scalar l ->
  exists s, PySetFromList l = Ok s /\ wf_pyset s /\
    Items_ s = first_of_each ∅ l /\ keys s = list_to_set (map key_of l).
Proof.
  intros Hl. destruct (insert_all_keys l EmptyPySet wf_EmptyPySet Hl) as (s & H1 & H2 & H3 & H4).
  exists s. split_and!; [done|done|exact H3|]. rewrite H4. apply union_empty_r_L.
Qed.

(** A value that is not hashable raises. *)
Lemma insert_all_unhashable (l : list PyValue) (v : PyValue) : Hashable v = false -> forall s, wf_pyset s ->
  Forall wf_scalar l ->
  forall r, insert_all (l ++ v :: r) s = Throw (unhashable (B "set") v).
Proof.
  intros Hv. induction l as [|x l IH]; intros s Hs Hl r; cbn [insert_all app].
  - unfold Insert. by rewrite Hv.
  - apply Forall_cons in Hl as [Hx Hl]. destruct (Insert_keys x s Hs Hx) as (s' & -> & Hs' & _).
    cbn [mbind res_bind]. by apply IH.
Qed.

Lemma size_keys (s : PySet) : wf_pyset s -> size (keys s) = PySetSize s.
Proof.
  intros [_ _ Hn]. unfold keys. rewrite size_list_to_set by done. apply length_map.
Qed.

Lemma count_contained_keys (l : list PyValue) (Large : PySet) : wf_pyset Large -> forall n,
  Forall wf_scalar l ->
  count_contained l Large n = Ok (n + length (filter (fun k => k ∈ keys Large) (map key_of l)))%nat.
Proof.
  intros HL. induction l as [|v l IH]; intros n Hl; cbn [count_contained map].
  { by rewrite Nat.add_0_r. }
  apply Forall_cons in Hl as [Hv Hl]. rewrite Contains_keys by done. cbn [mbind res_bind].
  rewrite IH, filter_cons by done. case_bool_decide as Hin.
  - rewrite decide_True by done. cbn [length]. f_equal. lia.
  - by rewrite decide_False by done.
Qed.

Lemma PySetIntersectionSize_keys (a b : PySet) : wf_pyset a -> wf_pyset b ->
  PySetIntersectionSize a b = Ok (size (keys a ∩ keys b)).
Proof.
  assert (forall s l, wf_pyset s -> wf_pyset l -> count_contained (Items_ s) l 0 = Ok (size (keys s ∩ keys l))) as H.
  { intros s l [HI _ Hn] Hl. rewrite count_contained_keys by done. f_equal. cbn [Nat.add].
    rewrite <- (size_list_to_set (C := gset pykey)) by (by apply NoDup_filter). f_equal. apply set_eq. intros k.
    rewrite elem_of_list_to_set, list_elem_of_filter, elem_of_intersection. unfold keys at 2.
    rewrite elem_of_list_to_set. tauto. }
  intros Ha Hb. unfold PySetIntersectionSize. destruct (PySetSize a <=? PySetSize b)%nat; [by apply H|].
  rewrite (intersection_comm_L (keys a)). by apply H.
Qed.

(** C37: A hash consistent with Python equality: on hashable values [PyEquals]
    decides whether the values are the same (the number of an int, float or
    bool exactly; NaN, the infinities, texts and None apart), and equal values
    have equal hashes. *)
Theorem PyEquals_is_value_equality (A C : PyValue) : wf_scalar A -> wf_scalar C ->
  (PyEquals A C = true <-> key_of A = key_of C) /\
  (PyEquals A C = true -> PyHash A = PyHash C).
Proof.
  intros HA HC. rewrite PyEquals_key, bool_decide_eq_true by done.
  split; [done|by apply PyHash_key].
Qed.

(** C33: [PySet] refines the finite sets of values: [PySetFromList] holds the
    first value of each kind in order, [Contains] is membership,
    [PySetIntersectionSize] counts the common values of two sets. *)
Theorem PySet_refines_sets (a b : list PyValue) : Forall wf_scalar a -> Forall wf_scalar b ->
  exists sa sb, PySetFromList a = Ok sa /\ PySetFromList b = Ok sb /\
    Items_ sa = first_of_each ∅ a /\
    (forall v, wf_scalar v -> Contains v sa = Ok (bool_decide (key_of v ∈ map key_of a))) /\
    PySetIntersectionSize sa sb
    = Ok (size (list_to_set (map key_of a) ∩ list_to_set (map key_of b) : gset pykey)).
Proof.
  intros Ha Hb. destruct (PySetFromList_keys a Ha) as (sa & HA & Wa & Ia & Ka).
  destruct (PySetFromList_keys b Hb) as (sb & HB & Wb & _ & Kb).
  exists sa, sb. split_and!; try done.
  - intros v Hv. rewrite Contains_keys by done. f_equal. apply bool_decide_ext. by rewrite Ka, elem_of_list_to_set.
  - rewrite PySetIntersectionSize_keys by done. by rewrite Ka, Kb.
Qed.

(** One, 1.0 and true are one element of a set. *)
Lemma PyEquals_is_value_equality_witness :
  PyEquals (PyInt (B "1")) (PyFloat_ (d_of_Z 1)) = true /\
  PyHash (PyInt (B "1")) = PyHash (PyFloat_ (d_of_Z 1)).
Proof.
  destruct (PyEquals_is_value_equality (PyInt (B "1")) (PyFloat_ (d_of_Z 1))) as [H1 H2].
  - split; [reflexivity|]. exists 1. reflexivity.
  - split; [reflexivity|]. vm_compute. reflexivity.
  - assert (key_of (PyInt (B "1")) = key_of (PyFloat_ (d_of_Z 1))) as K by (vm_compute; reflexivity).
    split; [exact (proj2 H1 K)|exact (H2 (proj2 H1 K))].
Defined.

Lemma PySet_refines_sets_witness :
  exists sa, PySetFromList [PyStr_ (B "a"); PyInt (B "1"); PyBool true] = Ok sa /\
    Items_ sa = [PyStr_ (B "a"); PyInt (B "1")] /\
    Contains (PyFloat_ (d_of_Z 1)) sa = Ok true.
Proof.
  assert (Forall wf_scalar [PyStr_ (B "a"); PyInt (B "1"); PyBool true]) as H.
  { constructor; [split; [reflexivity|exact I]|]. constructor; [split; [reflexivity|exists 1; reflexivity]|].
    constructor; [split; [reflexivity|exact I]|constructor]. }
  destruct (PySet_refines_sets _ _ H H) as (sa & sb & Ha & _ & Hi & Hc & _).
  exists sa. split; [exact Ha|]. split; [rewrite Hi; vm_compute; reflexivity|].
  rewrite Hc; [vm_compute; reflexivity|]. split; [reflexivity|]. vm_compute. reflexivity.
Defined.
