(* ===== verification/PyJson.v ===== *)
(** * Python's [json.loads] (src/src/diff/PyValue.cpp)

    [class PyJsonParser], a port of the C scanner of CPython over a byte
    offset, and the two entry points [PyJsonLoads] and [PyJsonLoadsList].
    [PFuel] marks a loop of the model cut short, which never happens. *)

From Stdlib Require Import ZArith Lia SpecFloat.
From stdpp Require Import base option numbers list gmap sets.
From S2P Require Import Prelude Dbl Decimal PyDecimal PyFloat PyValues PyBig RoundNearest DblRound.
From S2P Require Import PyDecimalSpec PyRepr PyValues.
From S2P Require Json.
From S2P Require JsonScan.
Local Open Scope Z_scope.

Inductive pres (A : Type) : Type :=
| POk (a : A)
| PRaise (e : exn)
| JsonDepthExceeded
| PFuel.
Arguments POk {A} a.
Arguments PRaise {A} e.
Arguments JsonDepthExceeded {A}.
Arguments PFuel {A}.

(** A parser method: from [Pos_] to its result and the new [Pos_]. *)
Definition PP (A : Type) : Type := nat -> pres (A * nat).
#[export] Instance PP_ret : MRet PP := fun A a Pos => POk (a, Pos).
#[export] Instance PP_bind : MBind PP :=
  fun A B f m Pos =>
    match m Pos with
    | POk (a, Pos') => f a Pos'
    | PRaise e => PRaise e
    | JsonDepthExceeded => JsonDepthExceeded
    | PFuel => PFuel
    end.

Definition Fail {A} (Message : text) : PP A := fun Pos =>
  PRaise (DiaphoraWouldRaise (B "json.loads")
    (B "JSONDecodeError: " ++ Message ++ B " (char " ++ dec_text (Z.of_nat Pos) ++ B ")")).
Definition advance : PP unit := fun Pos => POk (tt, S Pos).

(** [static_cast<char>] of a code point's byte. *)
Definition AppendCodePoint (Out : text) (Code : Z) : text :=
  Out ++ map byte_of_code
    (if Code <? 0x80 then [Code]
     else if Code <? 0x800 then [Z.lor 0xC0 (Z.shiftr Code 6); Z.lor 0x80 (Z.land Code 0x3F)]
     else if Code <? 0x10000 then
       [Z.lor 0xE0 (Z.shiftr Code 12); Z.lor 0x80 (Z.land (Z.shiftr Code 6) 0x3F); Z.lor 0x80 (Z.land Code 0x3F)]
     else
       [Z.lor 0xF0 (Z.shiftr Code 18); Z.lor 0x80 (Z.land (Z.shiftr Code 12) 0x3F);
        Z.lor 0x80 (Z.land (Z.shiftr Code 6) 0x3F); Z.lor 0x80 (Z.land Code 0x3F)]).

(** [std::string_view::substr] between two offsets. *)
Definition between (Text : text) (First Last : nat) : text := take (Last - First) (drop First Text).

Section Parser.
Context (Text_ : text).

Definition peek : PP (option byte) := fun Pos => POk (Text_ !! Pos, Pos).

Definition SkipWs : PP unit := fun Pos => POk (tt, Json.scan Json.is_ws (drop Pos Text_) Pos).

Definition Literal (Word : text) : PP bool := fun Pos =>
  if bool_decide (take (length Word) (drop Pos Text_) = Word)
  then POk (true, (Pos + length Word)%nat) else POk (false, Pos).

(** [_match_number_unicode]: where the integer part ends. *)
Definition int_end (IntStart : nat) : option nat :=
  match Text_ !! IntStart with
  | Some Ch =>
      if (49 <=? code Ch) && (code Ch <=? 57) then Some (Json.skip_digits Text_ (S IntStart))
      else if bool_decide (Ch = x30) then Some (S IntStart)
      else None
  | None => None
  end.

(** The fraction: its digits, when a point and a digit follow. *)
Definition fraction_end (Pos : nat) : option nat :=
  if Json.CharIn Text_ Pos [x2e] && Json.DigitAt Text_ (S Pos)
  then Some (Json.skip_digits Text_ (S Pos)) else None.

(** The exponent and its end, when a digit ends it. *)
Definition number_exponent (Pos : nat) : option (Z * nat) :=
  if Json.CharIn Text_ Pos [x65; x45] && (S Pos <? length Text_)%nat then
    let Probe := S Pos in
    let HasSign := Json.CharIn Text_ Probe [x2d; x2b] && (S Probe <? length Text_)%nat in
    let ExpNegative := HasSign && Json.CharIn Text_ Probe [x2d] in
    let DigitsStart := if HasSign then S Probe else Probe in
    let Probe := Json.skip_digits Text_ DigitsStart in
    let Digits := between Text_ DigitsStart Probe in
    if (DigitsStart <? Probe)%nat then
      let Value := clamp_exponent (length (drop_zeros Digits)) (foldl exponent_step 0 Digits) in
      Some (if ExpNegative then - Value else Value, Probe)
    else None
  else None.

Definition ParseNumber : PP PyValue := fun Pos =>
  let Negative := Json.CharIn Text_ Pos [x2d] in
  let IntStart := if Negative then S Pos else Pos in
  match int_end IntStart with
  | None => Fail (B "Expecting value") IntStart
  | Some IntEnd =>
      let IntPart := between Text_ IntStart IntEnd in
      let '(FracPart, FracEnd) :=
        match fraction_end IntEnd with
        | Some End => (between Text_ (S IntEnd) End, Some End)
        | None => ([], None)
        end in
      let Pos := default IntEnd FracEnd in
      match FracEnd, number_exponent Pos with
      | None, None =>
          POk (PyInt (if bool_decide (IntPart = [x30]) || negb Negative then IntPart else x2d :: IntPart), Pos)
      | _, e =>
          let '(Exponent, Pos) := default (0, Pos) e in
          POk (PyFloat_ (DecimalToDouble Negative (IntPart ++ FracPart)
                           (Exponent - Z.of_nat (length FracPart))), Pos)
      end
  end.

Definition hex_digit_value (Ch : byte) : option Z :=
  if (48 <=? code Ch) && (code Ch <=? 57) then Some (code Ch - 48)
  else if (97 <=? code Ch) && (code Ch <=? 102) then Some (code Ch - 97 + 10)
  else if (65 <=? code Ch) && (code Ch <=? 70) then Some (code Ch - 65 + 10)
  else None.

Fixpoint hex4_loop (Count : nat) (Value : Z) : PP Z := fun Pos =>
  match Count with
  | O => POk (Value, Pos)
  | S Count' =>
      match Text_ !! Pos ≫= hex_digit_value with
      | Some d => hex4_loop Count' (Z.lor (w32 (Z.shiftl Value 4)) d) (S Pos)
      | None => Fail (B "Invalid \uXXXX escape") (S Pos)
      end
  end.

Definition Hex4 : PP Z := fun Pos =>
  if (length Text_ <? Pos + 4)%nat then Fail (B "Invalid \uXXXX escape") Pos else hex4_loop 4 0 Pos.

(** The [case 'u']: a high surrogate followed by a low one is one code point. *)
Definition unicode_escape : PP Z := fun Pos =>
  match Hex4 Pos with
  | POk (Code, Pos) =>
      if (0xD800 <=? Code) && (Code <=? 0xDBFF) && (Pos + 6 <? length Text_)%nat
         && Json.CharIn Text_ Pos [x5c] && Json.CharIn Text_ (S Pos) [x75]
      then
        match Hex4 (S (S Pos)) with
        | POk (Low, Pos') =>
            if (0xDC00 <=? Low) && (Low <=? 0xDFFF)
            then POk (0x10000 + Z.shiftl (Code - 0xD800) 10 + (Low - 0xDC00), Pos')
            else POk (Code, Pos)
        | r => r
        end
      else POk (Code, Pos)
  | r => r
  end.

Definition simple_escape (Escape : byte) : option byte :=
  match Escape with
  | x22 => Some x22 | x5c => Some x5c | x2f => Some x2f | x62 => Some x08
  | x66 => Some x0c | x6e => Some x0a | x72 => Some x0d | x74 => Some x09
  | _ => None
  end.

Fixpoint string_loop (fuel : nat) (Out : text) : PP text := fun Pos =>
  match fuel with
  | O => PFuel
  | S fuel' =>
      match Text_ !! Pos with
      | None => Fail (B "Unterminated string starting at") Pos
      | Some Ch =>
          if bool_decide (Ch = x22) then POk (Out, S Pos)
          else if code Ch <? 0x20 then Fail (B "Invalid control character at") Pos
          else if negb (bool_decide (Ch = x5c)) then string_loop fuel' (Out ++ [Ch]) (S Pos)
          else
            match Text_ !! S Pos with
            | None => Fail (B "Unterminated string starting at") (S Pos)
            | Some Escape =>
                match simple_escape Escape with
                | Some c => string_loop fuel' (Out ++ [c]) (S (S Pos))
                | None =>
                    if bool_decide (Escape = x75) then
                      match unicode_escape (S (S Pos)) with
                      | POk (Code, Pos') => string_loop fuel' (AppendCodePoint Out Code) Pos'
                      | PRaise e => PRaise e
                      | JsonDepthExceeded => JsonDepthExceeded
                      | PFuel => PFuel
                      end
                    else Fail (B "Invalid \escape") (S (S Pos))
                end
            end
      end
  end.

Definition ParseString : PP text := fun Pos => string_loop (length Text_) [] (S Pos).

(** The element loop; [ParseItem] is [ParseValue(Depth)]. *)
Fixpoint array_loop (ParseItem : PP PyValue) (fuel : nat) (Result : list PyValue) : PP PyValue :=
  match fuel with
  | O => fun _ => PFuel
  | S fuel' =>
      Value ← ParseItem;
      SkipWs;;
      next ← peek;
      if bool_decide (next = Some x5d) then advance;; mret (PyList (Result ++ [Value]))
      else if negb (bool_decide (next = Some x2c)) then Fail (B "Expecting ',' delimiter")
      else
        advance;;
        SkipWs;;
        next ← peek;
        if bool_decide (next = Some x5d) then Fail (B "Illegal trailing comma before end of array")
        else array_loop ParseItem fuel' (Result ++ [Value])
  end.

Definition ParseArray (ParseItem : PP PyValue) (Depth : Z) : PP PyValue :=
  if Json.kMaxJsonDepth <? Depth then fun _ => JsonDepthExceeded
  else
    advance;;
    SkipWs;;
    next ← peek;
    if bool_decide (next = Some x5d) then advance;; mret (PyList [])
    else array_loop ParseItem (length Text_) [].

(** [StrValue] of a key. *)
Definition StrValue (v : PyValue) : text := match v with PyStr_ s => s | _ => [] end.

(** Dict assignment: an existing key keeps its place, its value is replaced. *)
Fixpoint dict_set (Key : text) (Member : PyValue) (Result : list (PyValue * PyValue))
    : list (PyValue * PyValue) :=
  match Result with
  | [] => [(PyStr_ Key, Member)]
  | (k, v) :: Result' =>
      if bool_decide (StrValue k = Key) then (k, Member) :: Result' else (k, v) :: dict_set Key Member Result'
  end.

Fixpoint object_loop (ParseItem : PP PyValue) (fuel : nat) (Result : list (PyValue * PyValue)) : PP PyValue :=
  match fuel with
  | O => fun _ => PFuel
  | S fuel' =>
      quote ← peek;
      if negb (bool_decide (quote = Some x22)) then Fail (B "Expecting property name enclosed in double quotes")
      else
        Key ← ParseString;
        SkipWs;;
        colon ← peek;
        if negb (bool_decide (colon = Some x3a)) then Fail (B "Expecting ':' delimiter")
        else
          advance;;
          SkipWs;;
          Member ← ParseItem;
          SkipWs;;
          next ← peek;
          if bool_decide (next = Some x7d) then advance;; mret (PyDict (dict_set Key Member Result))
          else if negb (bool_decide (next = Some x2c)) then Fail (B "Expecting ',' delimiter")
          else
            advance;;
            SkipWs;;
            next ← peek;
            if bool_decide (next = Some x7d) then Fail (B "Illegal trailing comma before end of object")
            else object_loop ParseItem fuel' (dict_set Key Member Result)
  end.

Definition ParseObject (ParseItem : PP PyValue) (Depth : Z) : PP PyValue :=
  if Json.kMaxJsonDepth <? Depth then fun _ => JsonDepthExceeded
  else
    advance;;
    SkipWs;;
    next ← peek;
    if bool_decide (next = Some x7d) then advance;; mret (PyDict [])
    else object_loop ParseItem (length Text_) [].

(** A word of the [switch], or "Expecting value". *)
Definition word (Word : text) (Value : PyValue) (Otherwise : PP PyValue) : PP PyValue :=
  found ← Literal Word;
  if (found : bool) then mret Value else Otherwise.

Fixpoint ParseValue (fuel : nat) (Depth : Z) : PP PyValue :=
  match fuel with
  | O => fun _ => PFuel
  | S fuel' =>
      first ← peek;
      match first with
      | None => Fail (B "Expecting value")
      | Some x22 => s ← ParseString; mret (PyStr_ s)
      | Some x7b => ParseObject (ParseValue fuel' (Depth + 1)) (Depth + 1)
      | Some x5b => ParseArray (ParseValue fuel' (Depth + 1)) (Depth + 1)
      | Some x6e => word (B "null") PyNone (Fail (B "Expecting value"))
      | Some x74 => word (B "true") (PyBool true) (Fail (B "Expecting value"))
      | Some x66 => word (B "false") (PyBool false) (Fail (B "Expecting value"))
      | Some x4e => word (B "NaN") (PyFloat_ S754_nan) (Fail (B "Expecting value"))
      | Some x49 => word (B "Infinity") (PyFloat_ (S754_infinity false)) (Fail (B "Expecting value"))
      | Some x2d => word (B "-Infinity") (PyFloat_ (S754_infinity true)) ParseNumber
      | Some Ch => if IsAsciiDigit Ch then ParseNumber else Fail (B "Expecting value")
      end
  end.

(** The nesting bound is reached before this fuel runs out. *)
Definition value_fuel : nat := Z.to_nat Json.kMaxJsonDepth + 2.

Definition at_end (Value : PyValue) : PP PyValue := fun Pos =>
  if (Pos =? length Text_)%nat then POk (Value, Pos) else Fail (B "Extra data") Pos.

Definition Document : PP PyValue :=
  SkipWs;;
  Value ← ParseValue value_fuel 0;
  SkipWs;;
  at_end Value.
End Parser.

(** The two entry points. *)
Definition depth_refused : exn :=
  UnsupportedInput (B "json.loads: nesting deeper than " ++ dec_text Json.kMaxJsonDepth
    ++ B " (Python's RecursionError depth is NOT DETERMINED FROM SOURCE)").

Definition PyJsonLoads (Text : text) : option (res PyValue) :=
  match Document Text O with
  | POk (Value, _) => Some (Ok Value)
  | PRaise e => Some (Throw e)
  | JsonDepthExceeded => Some (Throw depth_refused)
  | PFuel => None
  end.

(** The code points of UTF-8 (a lone surrogate is one of three bytes). *)
Definition code_point_length (Lead : byte) : nat :=
  if 0xF0 <=? code Lead then 4%nat
  else if 0xE0 <=? code Lead then 3%nat
  else if 0xC0 <=? code Lead then 2%nat
  else 1%nat.
Fixpoint code_points_loop (fuel : nat) (Text : text) : list text :=
  match fuel, Text with
  | S fuel', Lead :: _ =>
      let Length := Nat.min (code_point_length Lead) (length Text) in
      take Length Text :: code_points_loop fuel' (drop Length Text)
  | _, _ => []
  end.
Definition CodePoints (Text : text) : list text := code_points_loop (length Text) Text.

Definition deep_list : exn :=
  DiaphoraWouldRaise (B "set(json.loads)") (B "TypeError: unhashable type: 'list' (nesting deeper than "
    ++ dec_text Json.kMaxJsonDepth ++ B ")").

(** What [set(...)] iterates. *)
Definition iterate (Value : PyValue) : res (list PyValue) :=
  match Value with
  | PyList Items => Ok Items
  | PyDict Members => Ok (map fst Members)
  | PyStr_ s => Ok (map PyStr_ (CodePoints s))
  | _ => Throw (DiaphoraWouldRaise (B "set(json.loads)")
           (B "TypeError: '" ++ KindName Value ++ B "' object is not iterable"))
  end.

Definition PyJsonLoadsList (Text : text) : option (res (list PyValue)) :=
  match Document Text O with
  | POk (Value, _) => Some (iterate Value)
  | PRaise e => Some (Throw e)
  | JsonDepthExceeded =>
      let Pos := Json.scan Json.is_ws Text O in
      Some (if bool_decide (Text !! Pos = Some x5b) then Throw deep_list else Throw depth_refused)
  | PFuel => None
  end.

Example json_list : PyJsonLoadsList (B "[1, -0, 2.50, true, null, NaN, -1e-2]")
  = Some (Ok [PyInt (B "1"); PyInt (B "0"); PyFloat_ (dlit 5 2); PyBool true; PyNone; PyFloat_ S754_nan;
              PyFloat_ (DecimalToDouble true (B "1") (-2))]).
Proof. vm_compute. reflexivity. Qed.
Example json_dict : PyJsonLoads (x7b :: x22 :: B "a" ++ x22 :: B " : [{}, 7 ]}")
  = Some (Ok (PyDict [(PyStr_ (B "a"), PyList [PyDict []; PyInt (B "7")])])).
Proof. vm_compute. reflexivity. Qed.

(** * [json.loads] always answers, with well-formed Python values

    The type of the values: canonical integers, representable doubles, dicts
    with distinct text keys, at most 512 levels. Every run of the parser ends
    in such a value, in a [JSONDecodeError] or in the refusal of its depth. *)
Local Close Scope Z_scope.

(** ** The type *)

Fixpoint wf_py (v : PyValue) : Prop :=
  match v with
  | PyList Items => foldr (fun w => and (wf_py w)) True Items
  | PyDict Members =>
      NoDup (map (fun kv => StrValue kv.1) Members) /\
      foldr (fun kv => and (kv.1 = PyStr_ (StrValue kv.1) /\ wf_py kv.2)) True Members
  | _ => wf_scalar v
  end.

(** Levels of lists and dicts. *)
Fixpoint height (v : PyValue) : nat :=
  match v with
  | PyList Items => S (foldr (fun w => Nat.max (height w)) 0 Items)
  | PyDict Members => S (foldr (fun kv => Nat.max (height kv.2)) 0 Members)
  | _ => 0
  end.

Definition fits_below (Depth : Z) (v : PyValue) : Prop :=
  wf_py v /\ (Z.of_nat (height v) + Depth <= Json.kMaxJsonDepth)%Z.

Lemma foldr_conj {A} (Q : A -> Prop) (l : list A) : foldr (fun x => and (Q x)) True l <-> Forall Q l.
Proof. induction l as [|x l IH]; simpl; [by rewrite Forall_nil|]. by rewrite IH, Forall_cons. Qed.

Lemma foldr_max_le {A} (f : A -> nat) (l : list A) (k : nat) :
  Forall (fun x => f x <= k) l -> foldr (fun x => Nat.max (f x)) 0 l <= k.
Proof. induction 1; simpl; lia. Qed.

Lemma hashable_scalar (v : PyValue) : wf_py v -> Hashable v = true -> wf_scalar v.
Proof. by destruct v. Qed.

Lemma leaf_fits (Depth : Z) (v : PyValue) :
  (Depth <= Json.kMaxJsonDepth)%Z -> wf_scalar v -> fits_below Depth v.
Proof. intros Hd Hv. split; destruct v; try done; by destruct Hv. Qed.

Lemma list_fits (Depth : Z) (l : list PyValue) :
  (Depth < Json.kMaxJsonDepth)%Z -> Forall (fits_below (Depth + 1)) l -> fits_below Depth (PyList l).
Proof.
  intros Hd Hl. split; cbn [wf_py height].
  - apply foldr_conj. eapply Forall_impl; [done|]. by intros v [? _].
  - enough (foldr (fun w => Nat.max (height w)) 0 l <= Z.to_nat (Json.kMaxJsonDepth - Depth - 1)) by lia.
    apply foldr_max_le. eapply Forall_impl; [done|]. intros v [_ ?]. cbv beta. lia.
Qed.

(** The members of a dict of this level. *)
Definition wf_members (Depth : Z) (ms : list (PyValue * PyValue)) : Prop :=
  NoDup (map (fun kv => StrValue kv.1) ms) /\
  Forall (fun kv => kv.1 = PyStr_ (StrValue kv.1) /\ fits_below (Depth + 1) kv.2) ms.

Lemma dict_fits (Depth : Z) (ms : list (PyValue * PyValue)) :
  (Depth < Json.kMaxJsonDepth)%Z -> wf_members Depth ms -> fits_below Depth (PyDict ms).
Proof.
  intros Hd [Hn Hl]. split; cbn [wf_py height].
  - split; [done|]. apply foldr_conj. eapply Forall_impl; [done|]. by intros kv [? [? _]].
  - enough (foldr (fun kv => Nat.max (height kv.2)) 0 ms <= Z.to_nat (Json.kMaxJsonDepth - Depth - 1)) by lia.
    apply foldr_max_le. eapply Forall_impl; [done|]. intros kv [_ [_ ?]]. cbv beta. lia.
Qed.

Lemma dict_set_keys (k : text) (v : PyValue) (ms : list (PyValue * PyValue)) :
  map (fun kv => StrValue kv.1) (dict_set k v ms)
  = if bool_decide (k ∈ map (fun kv => StrValue kv.1) ms) then map (fun kv => StrValue kv.1) ms
    else map (fun kv => StrValue kv.1) ms ++ [k].
Proof.
  induction ms as [|[k' v'] ms IH]; [done|]. cbn [dict_set map fst].
  destruct (decide (StrValue k' = k)) as [E|E].
  - rewrite (bool_decide_true (StrValue k' = k)) by done. cbn [map fst].
    rewrite bool_decide_true; [done|]. rewrite E. by left.
  - rewrite (bool_decide_false (StrValue k' = k)) by done. cbn [map fst]. rewrite IH.
    assert (bool_decide (k ∈ StrValue k' :: map (fun kv => StrValue kv.1) ms)
            = bool_decide (k ∈ map (fun kv => StrValue kv.1) ms)) as ->.
    { apply bool_decide_ext. rewrite elem_of_cons. split; [intros [->|?]; done|by right]. }
    by destruct (bool_decide _).
Qed.

Lemma dict_set_wf (Depth : Z) (k : text) (v : PyValue) (ms : list (PyValue * PyValue)) :
  wf_members Depth ms -> fits_below (Depth + 1) v -> wf_members Depth (dict_set k v ms).
Proof.
  intros [Hn Hl] Hv. split.
  - rewrite dict_set_keys. destruct (bool_decide _) eqn:E; [done|]. apply bool_decide_eq_false in E.
    apply NoDup_app. split_and!; [done| |apply NoDup_singleton]. intros x Hx Hin.
    apply list_elem_of_singleton in Hin as ->. done.
  - clear Hn. induction Hl as [|[k' v'] ms [Hk Hv'] Hl IH]; cbn [dict_set].
    + rewrite Forall_singleton. done.
    + destruct (bool_decide _); by constructor.
Qed.

(** ** Runs of the parser *)

Section Outcome.
Context (T : text).

(** A result that satisfies [Q], a [JSONDecodeError] whose offset lies in the
    text, or the depth bound; never out of fuel. *)
Definition outcome {A} (Q : A -> nat -> Prop) (r : pres (A * nat)) : Prop :=
  match r with
  | POk (a, p') => Q a p'
  | PRaise e => exists m k, Fail (A := unit) m k = PRaise e /\ k <= length T
  | JsonDepthExceeded => True
  | PFuel => False
  end.

Lemma run_bind {A C} (Q : A -> nat -> Prop) (R : C -> nat -> Prop) (m : PP A)
    (f : A -> PP C) (p : nat) :
  outcome Q (m p) -> (forall a p', Q a p' -> outcome R (f a p')) -> outcome R ((m ≫= f) p).
Proof.
  intros Hm Hf. unfold mbind, PP_bind. destruct (m p) as [[a p']|e| |]; simpl in *; auto.
Qed.

Lemma run_weaken {A} (Q R : A -> nat -> Prop) (r : pres (A * nat)) :
  outcome Q r -> (forall a p', Q a p' -> R a p') -> outcome R r.
Proof. destruct r as [[a p']|e| |]; simpl; auto. Qed.

Lemma run_fail {A} (Q : A -> nat -> Prop) (m : text) (p : nat) :
  p <= length T -> outcome Q (Fail (A := A) m p).
Proof. intros H. by exists m, p. Qed.

Lemma pp_peek_bind {A} (f : option byte -> PP A) (p : nat) : (peek T ≫= f) p = f (T !! p) p.
Proof. done. Qed.

Lemma pp_advance_bind {A} (m : PP A) (p : nat) : (advance;; m) p = m (S p).
Proof. done. Qed.

Lemma SkipWs_typed (p : nat) :
  p <= length T -> outcome (fun _ p' => p <= p' <= length T) (SkipWs T p).
Proof.
  intros Hp. unfold SkipWs. simpl.
  destruct (JsonScan.scan_spec Json.is_ws (drop p T) p) as (s & r & H & _ & _ & ->).
  apply (f_equal length) in H. rewrite length_drop, length_app in H. lia.
Qed.

(** *** Strings *)

Lemma hex4_typed (n p : nat) (V : Z) :
  p + n <= length T -> outcome (fun _ p' => p' = p + n) (hex4_loop T n V p).
Proof.
  revert p V. induction n as [|n IH]; intros p V Hp; [simpl; lia|]. cbn [hex4_loop].
  destruct (T !! p ≫= hex_digit_value); [|apply run_fail; lia].
  eapply run_weaken; [apply IH; lia|]. simpl. intros; lia.
Qed.

Lemma Hex4_typed (p : nat) :
  p <= length T -> outcome (fun _ p' => p < p' <= length T) (Hex4 T p).
Proof.
  intros Hp. unfold Hex4. destruct (Nat.ltb_spec (length T) (p + 4)); [by apply run_fail|].
  eapply run_weaken; [apply hex4_typed; lia|]. simpl. intros; lia.
Qed.

Lemma unicode_escape_typed (p : nat) :
  p <= length T -> outcome (fun _ p' => p < p' <= length T) (unicode_escape T p).
Proof.
  intros Hp. unfold unicode_escape. pose proof (Hex4_typed p Hp) as H4.
  destruct (Hex4 T p) as [[Code q]|e| |]; try done. simpl in H4.
  destruct (_ && _) eqn:E; [|done]. bool_props.
  pose proof (Hex4_typed (S (S q)) ltac:(lia)) as H4'.
  destruct (Hex4 T (S (S q))) as [[Low q']|e| |]; try done. simpl in H4'.
  destruct (_ && _); simpl; lia.
Qed.

Lemma string_loop_typed (fuel p : nat) (Out : text) :
  p <= length T -> length T - p < fuel ->
  outcome (fun _ p' => p < p' <= length T) (string_loop T fuel Out p).
Proof.
  revert p Out. induction fuel as [|fuel IH]; intros p Out Hp Hf; [lia|]. cbn [string_loop].
  destruct (T !! p) as [c|] eqn:E; [|by apply run_fail].
  pose proof (lookup_lt_Some _ _ _ E) as Hlt.
  assert (forall q Out', p < q <= length T ->
    outcome (fun _ p' => p < p' <= length T) (string_loop T fuel Out' q)) as Hgo.
  { intros q Out' Hq. eapply run_weaken; [apply IH; lia|]. simpl. intros; lia. }
  destruct (bool_decide (c = x22)); [simpl; lia|].
  destruct (code c <? 0x20)%Z; [by apply run_fail|].
  destruct (negb (bool_decide (c = x5c))); [apply Hgo; lia|].
  destruct (T !! S p) as [e|] eqn:Ee; [|apply run_fail; lia].
  pose proof (lookup_lt_Some _ _ _ Ee).
  destruct (simple_escape e); [apply Hgo; lia|].
  destruct (bool_decide (e = x75)); [|apply run_fail; lia].
  pose proof (unicode_escape_typed (S (S p)) ltac:(lia)) as Hu.
  destruct (unicode_escape T (S (S p))) as [[Code q]|x| |]; try done. simpl in Hu. apply Hgo. lia.
Qed.

Lemma ParseString_typed (p : nat) :
  p < length T -> outcome (fun _ p' => p < p' <= length T) (ParseString T p).
Proof.
  intros Hp. unfold ParseString. eapply run_weaken; [apply string_loop_typed; lia|]. simpl. intros; lia.
Qed.

(** *** Numbers *)

Lemma take_moves (p p' : nat) (s : text) : JsonScan.moves T p p' s -> between T p p' = s.
Proof. apply JsonScan.moves_substr. Qed.

Lemma moves_le (p p' : nat) (s : text) : JsonScan.moves T p p' s -> p <= length T -> p <= p' <= length T.
Proof.
  intros [H ->] Hp. apply (f_equal length) in H. rewrite length_drop, length_app in H. lia.
Qed.

(** Behind the integer part: its digits, a canonical text. *)
Lemma int_end_spec (p q : nat) : int_end T p = Some q ->
  canonical (between T p q) /\ p < q <= length T.
Proof.
  unfold int_end. destruct (T !! p) as [c|] eqn:E; [|done].
  pose proof (lookup_lt_Some _ _ _ E) as Hlt. pose proof (JsonScan.lookup_drop_cons _ _ _ E) as Hc.
  destruct (_ && _) eqn:Hd; [|destruct (bool_decide _) eqn:Hz; [|done]]; intros [= <-]; bool_props.
  - destruct (JsonScan.skip_digits_moves T (S p)) as (s & Hm & Hs & _).
    pose proof (moves_le _ _ _ Hm ltac:(lia)). rewrite (take_moves _ _ (c :: s)) by (by apply JsonScan.moves_cons).
    split; [|lia]. assert (is_digit c = true) by (unfold is_digit; apply andb_true_iff; split; apply Z.leb_le; lia).
    split; [by constructor|]. destruct s; [done|]. unfold digit_value. lia.
  - subst c. rewrite (take_moves _ _ [x30]) by (apply JsonScan.moves_cons; [done|apply JsonScan.moves_nil]).
    split; [|lia]. split; [by repeat constructor|done].
Qed.

Lemma fraction_end_spec (p q : nat) : p <= length T -> fraction_end T p = Some q ->
  all_digits (between T (S p) q) /\ p < q <= length T.
Proof.
  intros Hp. unfold fraction_end. destruct (_ && _) eqn:E; [|done]. intros [= <-].
  apply andb_true_iff in E as [E _]. apply JsonScan.CharIn_true in E as (c & Hc & _).
  apply (f_equal length) in Hc. cbn [length] in Hc. rewrite !length_drop in Hc.
  destruct (JsonScan.skip_digits_moves T (S p)) as (s & Hm & Hs & _).
  pose proof (moves_le _ _ _ Hm ltac:(lia)). rewrite (take_moves _ _ s) by done. split; [done|lia].
Qed.

Lemma number_exponent_moves (p q : nat) (x : Z) : number_exponent T p = Some (x, q) -> p < q <= length T.
Proof.
  unfold number_exponent. destruct (_ && _) eqn:E; [|done]. bool_props.
  set (Start := if Json.CharIn T (S p) [x2d; x2b] && (S (S p) <? length T) then S (S p) else S p).
  assert (S p <= Start <= length T) as HS.
  { unfold Start. destruct (_ && _) eqn:E2; bool_props; lia. }
  destruct (Nat.ltb_spec Start (Json.skip_digits T Start)); [|done]. intros [= _ <-].
  destruct (JsonScan.skip_digits_moves T Start) as (s & Hm & _). pose proof (moves_le _ _ _ Hm ltac:(lia)). lia.
Qed.

Lemma DecimalToDouble_valid (Negative : bool) (s : text) (e : Z) :
  all_digits s -> valid (DecimalToDouble Negative s e).
Proof.
  intros Hs. rewrite DecimalToDouble_units by done.
  pose proof (round_units_valid false _ _ (decimal_num_nonneg s e Hs) (decimal_den_pos e)) as V.
  destruct Negative; [|done]. cbn [with_sign]. by destruct (round_units false _ _) as [[]|[]| |[] ? ?].
Qed.

Lemma int_literal_wf (Negative : bool) (s : text) : canonical s ->
  exists z, (if bool_decide (s = [x30]) || negb Negative then s else x2d :: s) = dec_text z.
Proof.
  intros Hs. pose proof (dec_text_canonical s Hs) as E.
  destruct (bool_decide (s = [x30]) || negb Negative) eqn:C; [by exists (dec_value s)|].
  apply orb_false_iff in C as [C _]. apply bool_decide_eq_false in C.
  exists (- dec_value s)%Z. pose proof (dec_value_bounds s (proj1 Hs)). unfold dec_text in *.
  destruct (Z.ltb_spec (dec_value s) 0); [lia|]. destruct (Z.ltb_spec (- dec_value s) 0).
  - by rewrite Z.opp_involutive, E.
  - exfalso. apply C. rewrite <- E. replace (dec_value s) with 0%Z by lia. done.
Qed.

Lemma ParseNumber_typed (p : nat) :
  p < length T -> outcome (fun v p' => p < p' <= length T /\ wf_scalar v) (ParseNumber T p).
Proof.
  intros Hp. unfold ParseNumber. set (IntStart := if Json.CharIn T p [x2d] then S p else p).
  assert (p <= IntStart <= length T) by (unfold IntStart; destruct (Json.CharIn _ _ _); lia).
  destruct (int_end T IntStart) as [IntEnd|] eqn:Ei; [|apply run_fail; lia].
  destruct (int_end_spec _ _ Ei) as [Hc Hi].
  destruct (fraction_end T IntEnd) as [FracEnd|] eqn:Ef; cbn [default].
  - destruct (fraction_end_spec IntEnd FracEnd ltac:(lia) Ef) as [Hd Hf].
    assert (p < (default (0%Z, FracEnd) (number_exponent T FracEnd)).2 <= length T) as Hx.
    { destruct (number_exponent T FracEnd) as [[x q]|] eqn:Ee; simpl; [|lia].
      pose proof (number_exponent_moves _ _ _ Ee). lia. }
    destruct (default _ _) as [x q]. split; [done|]. split; [done|]. apply DecimalToDouble_valid.
    apply Forall_app. split; [apply Hc|done].
  - destruct (number_exponent T IntEnd) as [[x q]|] eqn:Ee.
    + pose proof (number_exponent_moves _ _ _ Ee). split; [lia|]. split; [done|].
      apply DecimalToDouble_valid. rewrite app_nil_r. apply Hc.
    + split; [lia|]. split; [done|]. by apply int_literal_wf.
Qed.

(** *** Lists, dicts and values *)

Definition value_at (Depth : Z) (p : nat) (v : PyValue) (p' : nat) : Prop :=
  p < p' <= length T /\ fits_below Depth v.

(** [ParseItem] is a value parser for level [Depth]. *)
Definition item_parser (Depth : Z) (ParseItem : PP PyValue) : Prop :=
  forall p, p <= length T -> outcome (value_at Depth p) (ParseItem p).

Lemma value_later (Depth : Z) (p q : nat) (r : pres (PyValue * nat)) :
  p <= q -> outcome (value_at Depth q) r -> outcome (value_at Depth p) r.
Proof. intros Hp Hr. eapply run_weaken; [done|]. intros v p' [? ?]. split; [lia|done]. Qed.

Ltac skip_ws := eapply run_bind; [apply SkipWs_typed; lia|]; intros [] ? ?; cbv beta in *; rewrite pp_peek_bind.
Ltac at_next E := case_bool_decide as E; [pose proof (lookup_lt_Some _ _ _ E); cbn [negb]|cbn [negb]].

Lemma array_loop_typed (Depth : Z) (ParseItem : PP PyValue) (fuel p : nat) (l : list PyValue) :
  (Depth < Json.kMaxJsonDepth)%Z -> item_parser (Depth + 1) ParseItem ->
  Forall (fits_below (Depth + 1)) l -> p <= length T -> length T - p < fuel ->
  outcome (value_at Depth p) (array_loop T ParseItem fuel l p).
Proof.
  intros Hd Hitem. revert p l. induction fuel as [|fuel IH]; intros p l Hl Hp Hf; [lia|].
  cbn [array_loop]. eapply run_bind; [by apply Hitem|]. intros v q [Hq Hv]. skip_ws.
  assert (Forall (fits_below (Depth + 1)) (l ++ [v])) as Hl' by (by rewrite Forall_app, Forall_singleton).
  at_next E. { rewrite pp_advance_bind. split; [lia|]. by apply list_fits. }
  at_next E1; [|apply run_fail; lia]. rewrite pp_advance_bind. skip_ws.
  at_next E2; [apply run_fail; lia|]. eapply value_later; [|apply IH; [done|lia|lia]]. lia.
Qed.

Lemma object_loop_typed (Depth : Z) (ParseItem : PP PyValue) (fuel p : nat)
    (ms : list (PyValue * PyValue)) :
  (Depth < Json.kMaxJsonDepth)%Z -> item_parser (Depth + 1) ParseItem ->
  wf_members Depth ms -> p <= length T -> length T - p < fuel ->
  outcome (value_at Depth p) (object_loop T ParseItem fuel ms p).
Proof.
  intros Hd Hitem. revert p ms. induction fuel as [|fuel IH]; intros p ms Hms Hp Hf; [lia|].
  cbn [object_loop]. rewrite pp_peek_bind. at_next E; [|apply run_fail; lia].
  eapply run_bind; [by apply ParseString_typed|]. intros Key q Hq. cbv beta in Hq. skip_ws.
  at_next E1; [|apply run_fail; lia]. rewrite pp_advance_bind.
  eapply run_bind; [apply SkipWs_typed; lia|]. intros [] r Hr. cbv beta in Hr.
  eapply run_bind; [apply Hitem; lia|]. intros v r' [Hr' Hv]. skip_ws.
  pose proof (dict_set_wf Depth Key v ms Hms Hv) as Hms'.
  at_next E2. { rewrite pp_advance_bind. split; [lia|]. by apply dict_fits. }
  at_next E3; [|apply run_fail; lia]. rewrite pp_advance_bind. skip_ws.
  at_next E4; [apply run_fail; lia|]. eapply value_later; [|apply IH; [done|lia|lia]]. lia.
Qed.

(** Brackets stand for the two containers, at a level they may have. *)
Lemma ParseArray_typed (Depth : Z) (ParseItem : PP PyValue) (p : nat) :
  (Depth + 1 <= Json.kMaxJsonDepth -> item_parser (Depth + 1) ParseItem)%Z -> p < length T ->
  outcome (value_at Depth p) (ParseArray T ParseItem (Depth + 1) p).
Proof.
  intros Hitem Hp. unfold ParseArray. destruct (Z.ltb_spec Json.kMaxJsonDepth (Depth + 1)); [done|].
  rewrite pp_advance_bind. skip_ws. at_next E.
  { rewrite pp_advance_bind. split; [lia|]. apply list_fits; [lia|constructor]. }
  eapply value_later; [|apply array_loop_typed; [lia|apply Hitem; lia|constructor|lia|lia]]. lia.
Qed.

Lemma ParseObject_typed (Depth : Z) (ParseItem : PP PyValue) (p : nat) :
  (Depth + 1 <= Json.kMaxJsonDepth -> item_parser (Depth + 1) ParseItem)%Z -> p < length T ->
  outcome (value_at Depth p) (ParseObject T ParseItem (Depth + 1) p).
Proof.
  intros Hitem Hp. unfold ParseObject. destruct (Z.ltb_spec Json.kMaxJsonDepth (Depth + 1)); [done|].
  rewrite pp_advance_bind. skip_ws. assert (wf_members Depth []) as W by (split; constructor). at_next E.
  { rewrite pp_advance_bind. split; [lia|]. apply dict_fits; [lia|done]. }
  eapply value_later; [|apply object_loop_typed; [lia|apply Hitem; lia|done|lia|lia]]. lia.
Qed.

Lemma word_typed (Depth : Z) (w : text) (v : PyValue) (m : PP PyValue) (p : nat) :
  (Depth <= Json.kMaxJsonDepth)%Z -> wf_scalar v -> w <> [] -> p < length T ->
  outcome (value_at Depth p) (m p) -> outcome (value_at Depth p) (word T w v m p).
Proof.
  intros Hd Hv Hw Hp Hm. unfold word, Literal, mbind, PP_bind. case_bool_decide as E; [|done].
  apply (f_equal length) in E. rewrite length_take, length_drop in E.
  assert (length w <> 0) by (by destruct w). split; [lia|]. by apply leaf_fits.
Qed.

Lemma ParseValue_typed (fuel p : nat) (Depth : Z) :
  (Depth <= Json.kMaxJsonDepth < Depth + Z.of_nat fuel)%Z -> p <= length T ->
  outcome (value_at Depth p) (ParseValue T fuel Depth p).
Proof.
  revert p Depth. induction fuel as [|fuel IH]; intros p Depth Hd Hp; [lia|].
  cbn [ParseValue]. rewrite pp_peek_bind.
  destruct (T !! p) as [c|] eqn:E; [|by apply run_fail].
  pose proof (lookup_lt_Some _ _ _ E) as Hlt.
  assert (Depth + 1 <= Json.kMaxJsonDepth -> item_parser (Depth + 1) (ParseValue T fuel (Depth + 1)))%Z
    as Hitem by (intros ? q Hq; apply IH; [lia|done]).
  assert (outcome (value_at Depth p) (ParseNumber T p)) as Hnum.
  { eapply run_weaken; [by apply ParseNumber_typed|]. intros v q [Hq Hv].
    split; [done|]. apply leaf_fits; [lia|done]. }
  assert (forall A Q m, outcome Q (Fail (A := A) m p)) as Hfail by (intros; by apply run_fail).
  assert (outcome (value_at Depth p) ((s ← ParseString T; mret (PyStr_ s)) p)) as Hstr.
  { eapply run_bind; [by apply ParseString_typed|]. intros s q Hq.
    cbv beta in Hq. split; [lia|]. apply leaf_fits; [lia|by split]. }
  assert (forall w v m, wf_scalar v -> w <> [] -> outcome (value_at Depth p) (m p) ->
    outcome (value_at Depth p) (word T w v m p)) as Hword by (intros; apply word_typed; [lia|done..]).
  assert (outcome (value_at Depth p) ((if IsAsciiDigit c then ParseNumber T else Fail (B "Expecting value")) p))
    as Hdef by (by destruct (IsAsciiDigit c)).
  clear IH. destruct c;
    first [ exact Hdef | exact Hstr | by apply ParseObject_typed | by apply ParseArray_typed
          | apply Hword; [by split|done|first [exact Hnum | apply Hfail]] ].
Qed.

Lemma Document_typed : outcome (fun v _ => fits_below 0 v) (Document T 0).
Proof.
  unfold Document. eapply run_bind; [apply SkipWs_typed; lia|].
  intros [] p Hp. eapply run_bind; [apply ParseValue_typed; [|lia]|].
  { unfold value_fuel, Json.kMaxJsonDepth. lia. }
  intros v q [Hq Hv]. eapply run_bind; [apply SkipWs_typed; lia|].
  intros [] r Hr. unfold at_end. destruct (_ =? _); [done|]. apply run_fail. lia.
Qed.
End Outcome.

(** ** The two entry points *)

(** A [JSONDecodeError] at a position of the text. *)
Definition decode_error (T : text) (e : exn) : Prop :=
  exists m k, e = DiaphoraWouldRaise (B "json.loads")
    (B "JSONDecodeError: " ++ m ++ B " (char " ++ dec_text (Z.of_nat k) ++ B ")") /\ k <= length T.

Lemma decode_error_of (T : text) (e : exn) :
  (exists m k, Fail (A := unit) m k = PRaise e /\ k <= length T) -> decode_error T e.
Proof. intros (m & k & [= <-] & Hk). by exists m, k. Qed.

(** C32: [json.loads] returns on every text: a well-typed value (ints with
    canonical digits, representable doubles, dicts with distinct text keys) of
    at most 512 levels, a [JSONDecodeError] at a position of the text, or the
    refusal of a deeper text. *)
Theorem PyJsonLoads_typed (Text : text) :
  exists r, PyJsonLoads Text = Some r /\
    match r with
    | Ok v => wf_py v /\ (Z.of_nat (height v) <= Json.kMaxJsonDepth)%Z
    | Throw e => decode_error Text e \/ e = depth_refused
    end.
Proof.
  unfold PyJsonLoads. pose proof (Document_typed Text) as H.
  destruct (Document Text 0) as [[v p]|e| |]; [| | |done]; eexists; (split; [done|]); cbv beta iota.
  - destruct H as [Hw Hh]. split; [done|]. lia.
  - left. by apply decode_error_of.
  - by right.
Qed.

Lemma iterate_wf (v : PyValue) (Items : list PyValue) :
  wf_py v -> iterate v = Ok Items -> Forall wf_py Items.
Proof.
  intros Hv. destruct v; try done; cbn [iterate]; intros [= <-].
  - apply Forall_map. apply Forall_true. intros x. by split.
  - by apply foldr_conj in Hv.
  - destruct Hv as [_ Hv]. apply foldr_conj in Hv. apply Forall_map. eapply Forall_impl; [done|].
    intros kv [-> _]. by split.
Qed.

(** [set(json.loads(text))], the way the constants of two functions are
    compared: when the elements are hashable the set holds exactly the
    values of the list, otherwise building it raises TypeError. *)
Theorem PyJsonLoadsList_to_set (Text : text) (Items : list PyValue) :
  PyJsonLoadsList Text = Some (Ok Items) ->
  if forallb Hashable Items then
    exists s, PySetFromList Items = Ok s /\ Items_ s = first_of_each ∅ Items /\
      forall v, wf_scalar v -> Contains v s = Ok (bool_decide (key_of v ∈ map key_of Items))
  else exists v, v ∈ Items /\ PySetFromList Items = Throw (unhashable (B "set") v).
Proof.
  unfold PyJsonLoadsList. pose proof (Document_typed Text) as H.
  destruct (Document Text 0) as [[v p]|e| |]; [|done| |done].
  2: { by destruct (bool_decide _). }
  intros [= Hi]. pose proof (iterate_wf v Items (proj1 H) Hi) as W.
  destruct (forallb Hashable Items) eqn:Hh.
  - assert (Forall wf_scalar Items) as WS.
    { apply Forall_forall. intros x Hx. rewrite forallb_forall in Hh.
      apply hashable_scalar; [by eapply Forall_forall|]. apply Hh. by apply list_elem_of_In. }
    destruct (PySetFromList_keys Items WS) as (s & Hs & Ws & Is & Ks). exists s. split_and!; [done|done|].
    intros x Hx. rewrite Contains_keys by done. f_equal. apply bool_decide_ext. by rewrite Ks, elem_of_list_to_set.
  - assert (exists l v r, Items = l ++ v :: r /\ Forall wf_scalar l /\ Hashable v = false) as (l & x & r & -> & Hl & Hx).
    { clear Hi. induction Items as [|y Items IH]; [done|]. cbn [forallb] in Hh. apply Forall_cons in W as [Wy W].
      destruct (Hashable y) eqn:Hy; [|by exists [], y, Items].
      destruct (IH W Hh) as (l & x & r & -> & Hl & Hx). exists (y :: l), x, r. split_and!; [done| |done].
      constructor; [by apply hashable_scalar|done]. }
    exists x. split; [apply elem_of_app; right; by left|].
    by apply insert_all_unhashable; [|apply wf_EmptyPySet|].
Qed.

Lemma PyJsonLoadsList_to_set_witness :
  exists s, PySetFromList [PyInt (B "7"); PyFloat_ (d_of_Z 7); PyStr_ (B "x")] = Ok s /\
    Items_ s = [PyInt (B "7"); PyStr_ (B "x")].
Proof.
  pose proof (PyJsonLoadsList_to_set (B "[7, 7.0, " ++ x22 :: B "x" ++ [x22; x5d])
    [PyInt (B "7"); PyFloat_ (d_of_Z 7); PyStr_ (B "x")] ltac:(vm_compute; reflexivity)) as H.
  cbn [forallb Hashable andb] in H. destruct H as (s & Hs & Hi & _). exists s. split; [exact Hs|].
  rewrite Hi. vm_compute. reflexivity.
Defined.
