(* ===== verification/RoundSeven.v ===== *)
(** * Seven decimals (src/src/diff/Ratio.cpp)

    [RoundDecimal7] is Python's [float("{0:.7f}".format(v))] in integer
    arithmetic on 128 bits. The test seam [g_Mutations] is zero in every
    production run: its branches are not part of the model. *)

From Stdlib Require Import ZArith Lia SpecFloat.
From stdpp Require Import base option numbers list.
From S2P Require Import Prelude Dbl Decimal PyDecimal PyFloat RoundNearest DblRound PyDecimalSpec.
Local Open Scope Z_scope.

Record U128 := MkU128 { Hi : Z; Lo : Z }.

Definition Mul64 (A C : Z) : U128 :=
  let ALo := Z.land A 0xFFFFFFFF in
  let AHi := Z.shiftr A 32 in
  let BLo := Z.land C 0xFFFFFFFF in
  let BHi := Z.shiftr C 32 in
  let LoLo := w64 (ALo * BLo) in
  let HiLo := w64 (AHi * BLo) in
  let LoHi := w64 (ALo * BHi) in
  let HiHi := w64 (AHi * BHi) in
  let Cross := w64 (w64 (Z.shiftr LoLo 32 + Z.land HiLo 0xFFFFFFFF) + LoHi) in
  MkU128 (w64 (w64 (HiHi + Z.shiftr HiLo 32) + Z.shiftr Cross 32))
    (Z.lor (w64 (Z.shiftl Cross 32)) (Z.land LoLo 0xFFFFFFFF)).

Definition ShiftRight (V : U128) (S : Z) : U128 :=
  if S =? 0 then V
  else if 64 <=? S then MkU128 0 (Z.shiftr (Hi V) (S - 64))
  else MkU128 (Z.shiftr (Hi V) S) (Z.lor (Z.shiftr (Lo V) S) (w64 (Z.shiftl (Hi V) (64 - S)))).

Definition ShiftLeft (V : U128) (S : Z) : U128 :=
  if S =? 0 then V
  else if 64 <=? S then MkU128 (w64 (Z.shiftl (Lo V) (S - 64))) 0
  else MkU128 (Z.lor (w64 (Z.shiftl (Hi V) S)) (Z.shiftr (Lo V) (64 - S))) (w64 (Z.shiftl (Lo V) S)).

Definition Subtract (A C : U128) : U128 :=
  MkU128 (w64 (w64 (Hi A - Hi C) - (if Lo A <? Lo C then 1 else 0))) (w64 (Lo A - Lo C)).

Definition Compare (A C : U128) : Z :=
  if negb (Hi A =? Hi C) then (if Hi A <? Hi C then -1 else 1)
  else if negb (Lo A =? Lo C) then (if Lo A <? Lo C then -1 else 1)
  else 0.

(** One pass of the long division by ten over the limbs, most significant
    first. *)
Fixpoint divide_limbs (Remainder : Z) (Limbs : list Z) : list Z * Z :=
  match Limbs with
  | [] => ([], Remainder)
  | Limb :: Limbs' =>
      let Current := Z.lor (w64 (Z.shiftl Remainder 32)) Limb in
      let '(r, Last) := divide_limbs (Current mod 10) Limbs' in
      (w32 (Current / 10) :: r, Last)
  end.

(** The digits, the last one first; a number of 128 bits has at most 39. *)
Fixpoint decimal_loop (fuel : nat) (Limbs : list Z) (Reversed : text) : text :=
  match fuel with
  | O => Reversed
  | S fuel' =>
      if forallb (Z.eqb 0) Limbs then Reversed
      else let '(Limbs, Remainder) := divide_limbs 0 Limbs in
           decimal_loop fuel' Limbs (Reversed ++ [byte_of_code (48 + Remainder)])
  end.

Definition ToDecimal (V : U128) : text :=
  if Hi V =? 0 then dec_text (Lo V)
  else reverse (decimal_loop 39
         [w32 (Z.shiftr (Hi V) 32); w32 (Hi V); w32 (Z.shiftr (Lo V) 32); w32 (Lo V)] []).

Definition kScale : Z := 10000000.

(** The fields of a positive double: [Mantissa * 2^Exp2]. *)
Definition fields (Magnitude : dbl) : Z * Z :=
  let Bits := RatioBits Magnitude in
  let Biased := Z.land (Z.shiftr Bits 52) 0x7FF in
  let Mantissa := Z.land Bits (2 ^ 52 - 1) in
  if negb (Biased =? 0) then (Z.lor Mantissa (2 ^ 52), Biased - 1075) else (Mantissa, -1074).

(** [Mantissa * 10^7 / 2^Shift], ties to even. *)
Definition scaled_quotient (Mantissa Shift : Z) : U128 :=
  if Shift <? 128 then
    let Numerator := Mul64 Mantissa kScale in
    let Quotient := ShiftRight Numerator Shift in
    let Remainder := Subtract Numerator (ShiftLeft Quotient Shift) in
    let Half := ShiftLeft (MkU128 0 1) (Shift - 1) in
    let Cmp := Compare Remainder Half in
    let Odd := negb (Z.land (Lo Quotient) 1 =? 0) in
    if (0 <? Cmp) || ((Cmp =? 0) && Odd) then
      let Lo' := w64 (Lo Quotient + 1) in
      MkU128 (if Lo' =? 0 then w64 (Hi Quotient + 1) else Hi Quotient) Lo'
    else Quotient
  else MkU128 0 0.

(** [k / 10^7]; dereferencing an empty [PyFloat] is undefined, and never
    happens on digits. *)
Definition unscaled (Quotient : U128) : dbl :=
  if (Hi Quotient =? 0) && (Lo Quotient <? 2 ^ 53)
  then ddiv (d_of_Z (Lo Quotient)) (d_of_Z kScale)
  else match PyFloat (ToDecimal Quotient ++ B "e-7") with Ok (Some Value) => Value | _ => S754_nan end.

Definition signbit (V : dbl) : bool :=
  match V with S754_zero s | S754_infinity s | S754_finite s _ _ => s | S754_nan => false end.

Definition RoundDecimal7 (V : dbl) : dbl :=
  match V with
  | S754_finite _ _ _ =>
      let Negative := signbit V in
      let '(Mantissa, Exp2) := fields (if Negative then dopp V else V) in
      if 0 <=? Exp2 then V
      else
        let Result := unscaled (scaled_quotient Mantissa (- Exp2)) in
        if Negative then dopp Result else Result
  | _ => V
  end.

Definition Round7 (V : dbl) : dbl := RoundDecimal7 V.

Example round7_half_even : Round7 (dlit 1 128) = dlit 78125 10000000 /\ Round7 (dlit 1 256) = dlit 39062 10000000.
Proof. vm_compute. split; reflexivity. Qed.
Example round7_large : Round7 (dopp (dldexp (d_of_Z 9007199254740991) (-1))) = dopp (dldexp (d_of_Z 9007199254740991) (-1)).
Proof. vm_compute. reflexivity. Qed.

(** * Rounding to seven decimals is exact decimal rounding

    (src/src/diff/Ratio.cpp, [RoundDecimal7]) The 128-bit operations compute
    what they say, the quotient is the nearest integer to [10^7 * V], ties to
    even, and the result is the double nearest to that many ten-millionths. *)

(** ** 128-bit arithmetic *)

Definition wf_u128 (v : U128) : Prop := 0 <= Hi v < 2 ^ 64 /\ 0 <= Lo v < 2 ^ 64.
Definition u128_value (v : U128) : Z := Hi v * 2 ^ 64 + Lo v.

Lemma land_low (x n : Z) : 0 <= n -> Z.land x (2 ^ n - 1) = x mod 2 ^ n.
Proof. intros Hn. replace (2 ^ n - 1) with (Z.ones n) by (rewrite Z.ones_equiv; lia). by apply Z.land_ones. Qed.

Lemma div_below (a b : Z) : 0 <= a -> 0 < b -> 0 <= a / b <= a.
Proof. intros Ha Hb. split; [by apply Z.div_pos|]. apply Z.div_le_upper_bound; [done|]. nia. Qed.

(** Halves of a 64-bit word. *)
Lemma half_words (x : Z) : 0 <= x < 2 ^ 64 ->
  x = Z.shiftr x 32 * 2 ^ 32 + Z.land x 0xFFFFFFFF /\
  0 <= Z.shiftr x 32 < 2 ^ 32 /\ 0 <= Z.land x 0xFFFFFFFF < 2 ^ 32.
Proof.
  intros Hx. change 0xFFFFFFFF with (2 ^ 32 - 1). rewrite land_low, Z.shiftr_div_pow2 by lia.
  pose proof (Z.div_mod x (2 ^ 32) ltac:(lia)). pose proof (Z.mod_pos_bound x (2 ^ 32) ltac:(lia)).
  assert (x / 2 ^ 32 < 2 ^ 32) by (apply Z.div_lt_upper_bound; lia).
  assert (0 <= x / 2 ^ 32) by (apply Z.div_pos; lia). lia.
Qed.

Lemma w64_high (x n : Z) : 0 <= n <= 64 -> w64 (Z.shiftl x n) = (x mod 2 ^ (64 - n)) * 2 ^ n.
Proof.
  intros Hn. unfold w64. rewrite Z.shiftl_mul_pow2 by lia.
  replace (2 ^ 64) with (2 ^ (64 - n) * 2 ^ n) by (rewrite <- Z.pow_add_r by lia; f_equal; lia).
  rewrite Z.mul_mod_distr_r; [done| |]; pose proof (pow2_pos (64 - n)); pose proof (pow2_pos n); lia.
Qed.

(** A multiple of a power and the bits below it. *)
Lemma lor_multiple (k x n : Z) : 0 <= n -> 0 <= x < 2 ^ n -> Z.lor (k * 2 ^ n) x = k * 2 ^ n + x.
Proof. intros Hn Hx. rewrite <- (Z.shiftl_mul_pow2 k n) at 1 by done. by apply lor_add. Qed.

Lemma Mul64_spec (A C : Z) : 0 <= A < 2 ^ 64 -> 0 <= C < 2 ^ 64 ->
  wf_u128 (Mul64 A C) /\ u128_value (Mul64 A C) = A * C.
Proof.
  intros HA HC. destruct (half_words A HA) as (EA & HA1 & HA0). destruct (half_words C HC) as (EC & HC1 & HC0).
  unfold Mul64, wf_u128, u128_value. cbn [Hi Lo].
  set (a0 := Z.land A 0xFFFFFFFF) in *. set (a1 := Z.shiftr A 32) in *.
  set (c0 := Z.land C 0xFFFFFFFF) in *. set (c1 := Z.shiftr C 32) in *. clearbody a0 a1 c0 c1.
  assert (forall x y, 0 <= x < 2 ^ 32 -> 0 <= y < 2 ^ 32 -> 0 <= x * y <= (2 ^ 32 - 1) * (2 ^ 32 - 1)) as Hp.
  { intros x y Hx Hy. nia. }
  pose proof (Hp a0 c0 HA0 HC0) as P00. pose proof (Hp a1 c0 HA1 HC0) as P10.
  pose proof (Hp a0 c1 HA0 HC1) as P01. pose proof (Hp a1 c1 HA1 HC1) as P11.
  rewrite EA, EC. replace ((a1 * 2 ^ 32 + a0) * (c1 * 2 ^ 32 + c0))
    with (a1 * c1 * 2 ^ 64 + (a1 * c0 + a0 * c1) * 2 ^ 32 + a0 * c0) by ring. clear EA EC Hp.
  set (p := a0 * c0) in *. set (q := a1 * c0) in *. set (r := a0 * c1) in *. set (s := a1 * c1) in *.
  clearbody p q r s. rewrite !(w64_small p), !(w64_small q), !(w64_small r), !(w64_small s) by lia.
  destruct (half_words p ltac:(lia)) as (Ep & Hp1 & Hp0). destruct (half_words q ltac:(lia)) as (Eq & Hq1 & Hq0).
  set (p0 := Z.land p 0xFFFFFFFF) in *. set (p1 := Z.shiftr p 32) in *.
  set (q0 := Z.land q 0xFFFFFFFF) in *. set (q1 := Z.shiftr q 32) in *. clearbody p0 p1 q0 q1.
  rewrite (w64_small (p1 + q0)) by lia. rewrite (w64_small (p1 + q0 + r)) by lia.
  assert (0 <= p1 + q0 + r < 2 ^ 64) as Hx by lia.
  assert (p1 + q0 + r + q1 * 2 ^ 32 + s <= 2 ^ 64 * 2 ^ 64) as _ by lia.
  destruct (half_words _ Hx) as (Ex & Hx1 & Hx0).
  rewrite w64_high by lia. change (2 ^ (64 - 32)) with (2 ^ 32).
  assert ((p1 + q0 + r) mod 2 ^ 32 = Z.land (p1 + q0 + r) 0xFFFFFFFF) as ->.
  { change 0xFFFFFFFF with (2 ^ 32 - 1). by rewrite land_low by lia. }
  set (x1 := Z.shiftr (p1 + q0 + r) 32) in *. set (x0 := Z.land (p1 + q0 + r) 0xFFFFFFFF) in *.
  clearbody x0 x1. rewrite lor_multiple by lia.
  rewrite (w64_small (s + q1)), (w64_small (s + q1 + x1)) by lia. lia.
Qed.

Lemma ShiftRight_spec (v : U128) (s : Z) : wf_u128 v -> 0 <= s < 128 ->
  wf_u128 (ShiftRight v s) /\ u128_value (ShiftRight v s) = u128_value v / 2 ^ s.
Proof.
  intros [HH HL] Hs. unfold ShiftRight, wf_u128, u128_value.
  destruct (Z.eqb_spec s 0) as [->|Hs0]. { cbn [Hi Lo]. rewrite Z.pow_0_r, Z.div_1_r. done. }
  destruct (Z.leb_spec 64 s); cbn [Hi Lo]; rewrite !Z.shiftr_div_pow2 by lia.
  - assert (2 ^ s = 2 ^ 64 * 2 ^ (s - 64)) as -> by (rewrite <- Z.pow_add_r by lia; f_equal; lia).
    pose proof (pow2_pos (s - 64) ltac:(lia)) as Hp.
    rewrite <- Z.div_div, Z.div_add_l, (Z.div_small (Lo v)), Z.add_0_r by lia.
    assert (0 <= Hi v / 2 ^ (s - 64) <= Hi v) by (by apply div_below; lia). lia.
  - pose proof (pow2_pos s ltac:(lia)) as Hp. pose proof (pow2_pos (64 - s) ltac:(lia)) as Hq.
    rewrite w64_high by lia. replace (64 - (64 - s)) with s by lia.
    assert (2 ^ 64 = 2 ^ (64 - s) * 2 ^ s) as E64 by (rewrite <- Z.pow_add_r by lia; f_equal; lia).
    assert (0 <= Lo v / 2 ^ s < 2 ^ (64 - s)) as HLo.
    { split; [apply Z.div_pos; lia|apply Z.div_lt_upper_bound; lia]. }
    rewrite Z.lor_comm, lor_multiple by lia.
    pose proof (Z.div_mod (Hi v) (2 ^ s) ltac:(lia)) as ED. pose proof (Z.mod_pos_bound (Hi v) (2 ^ s) Hp) as HM.
    assert (0 <= Hi v / 2 ^ s <= Hi v) by (by apply div_below; lia).
    assert ((Hi v * 2 ^ 64 + Lo v) / 2 ^ s = Hi v * 2 ^ (64 - s) + Lo v / 2 ^ s) as ->.
    { rewrite E64, Z.mul_assoc, Z.add_comm, Z.div_add by lia. lia. }
    set (h := Hi v) in *. set (d := h / 2 ^ s) in *. set (m := h mod 2 ^ s) in *. set (l := Lo v / 2 ^ s) in *.
    set (P := 2 ^ s) in *. set (Q := 2 ^ (64 - s)) in *. rewrite E64. clearbody h d m l P Q. nia.
Qed.

Lemma u128_ShiftLeft_spec (v : U128) (s : Z) : wf_u128 v -> 0 <= s < 128 -> u128_value v * 2 ^ s < 2 ^ 128 ->
  wf_u128 (ShiftLeft v s) /\ u128_value (ShiftLeft v s) = u128_value v * 2 ^ s.
Proof.
  intros [HH HL] Hs Hmax. unfold ShiftLeft, wf_u128, u128_value in *.
  destruct (Z.eqb_spec s 0) as [->|Hs0]. { rewrite Z.pow_0_r, Z.mul_1_r. done. }
  pose proof (pow2_pos s ltac:(lia)) as Hp.
  destruct (Z.leb_spec 64 s); cbn [Hi Lo].
  - assert (2 ^ s = 2 ^ (s - 64) * 2 ^ 64) as E by (rewrite <- Z.pow_add_r by lia; f_equal; lia).
    pose proof (pow2_pos (s - 64) ltac:(lia)). change (2 ^ 128) with (2 ^ 64 * 2 ^ 64) in Hmax.
    assert (Hi v = 0) as Hzero by nia. rewrite Hzero in *. rewrite w64_high by lia.
    rewrite Z.mod_small.
    + rewrite E. nia.
    + split; [lia|]. assert (2 ^ (64 - (s - 64)) * 2 ^ (s - 64) = 2 ^ 64) by (rewrite <- Z.pow_add_r by lia; f_equal; lia).
      nia.
  - pose proof (pow2_pos (64 - s) ltac:(lia)) as Hq.
    assert (2 ^ 64 = 2 ^ (64 - s) * 2 ^ s) as E64 by (rewrite <- Z.pow_add_r by lia; f_equal; lia).
    change (2 ^ 128) with (2 ^ 64 * 2 ^ 64) in Hmax.
    rewrite !w64_high, Z.shiftr_div_pow2 by lia.
    pose proof (Z.div_mod (Lo v) (2 ^ (64 - s)) ltac:(lia)) as ED.
    pose proof (Z.mod_pos_bound (Lo v) (2 ^ (64 - s)) Hq) as HM.
    assert (0 <= Lo v / 2 ^ (64 - s) < 2 ^ s) by (split; [apply Z.div_pos; lia|apply Z.div_lt_upper_bound; lia]).
    rewrite (Z.mod_small (Hi v)) by (split; [lia|]; nia). rewrite lor_multiple by lia.
    set (h := Hi v) in *. set (d := Lo v / 2 ^ (64 - s)) in *. set (m := Lo v mod 2 ^ (64 - s)) in *.
    set (P := 2 ^ s) in *. set (Q := 2 ^ (64 - s)) in *. rewrite E64 in *. clearbody h d m P Q. nia.
Qed.

Lemma Subtract_exact (a c : U128) : wf_u128 a -> wf_u128 c -> u128_value c <= u128_value a ->
  wf_u128 (Subtract a c) /\ u128_value (Subtract a c) = u128_value a - u128_value c.
Proof.
  intros [Ha La] [Hc Lc] Hle. unfold Subtract, wf_u128, u128_value, w64 in *. cbn [Hi Lo].
  rewrite Zminus_mod_idemp_l. destruct (Z.ltb_spec (Lo a) (Lo c)).
  - replace (Lo a - Lo c) with (Lo a - Lo c + 2 ^ 64 + (-1) * 2 ^ 64) by lia.
    rewrite Z.mod_add, !Z.mod_small by lia. lia.
  - rewrite !Z.mod_small by lia. lia.
Qed.

Lemma u128_compare (a c : U128) : wf_u128 a -> wf_u128 c ->
  Compare a c = (if u128_value a <? u128_value c then -1 else if u128_value a =? u128_value c then 0 else 1).
Proof.
  intros [Ha La] [Hc Lc]. unfold Compare, u128_value.
  destruct (Z.eqb_spec (Hi a) (Hi c)); cbn [negb].
  - destruct (Z.eqb_spec (Lo a) (Lo c)); cbn [negb].
    + destruct (Z.ltb_spec (Hi a * 2 ^ 64 + Lo a) (Hi c * 2 ^ 64 + Lo c)); [lia|].
      destruct (Z.eqb_spec (Hi a * 2 ^ 64 + Lo a) (Hi c * 2 ^ 64 + Lo c)); lia.
    + destruct (Z.ltb_spec (Lo a) (Lo c)), (Z.ltb_spec (Hi a * 2 ^ 64 + Lo a) (Hi c * 2 ^ 64 + Lo c)),
        (Z.eqb_spec (Hi a * 2 ^ 64 + Lo a) (Hi c * 2 ^ 64 + Lo c)); lia.
  - destruct (Z.ltb_spec (Hi a) (Hi c)), (Z.ltb_spec (Hi a * 2 ^ 64 + Lo a) (Hi c * 2 ^ 64 + Lo c)),
      (Z.eqb_spec (Hi a * 2 ^ 64 + Lo a) (Hi c * 2 ^ 64 + Lo c)); lia.
Qed.

(** ** The decimal text *)

Lemma divide_limbs_spec (l : list Z) : Forall (fun x => 0 <= x < 2 ^ 32) l -> forall r, 0 <= r < 10 ->
  let '(q, Last) := divide_limbs r l in
  Forall (fun x => 0 <= x < 2 ^ 32) q /\ 0 <= Last < 10 /\
  foldl (fun v x => v * 2 ^ 32 + x) r l = foldl (fun v x => v * 2 ^ 32 + x) 0 q * 10 + Last /\
  length q = length l.
Proof.
  assert (forall (q : list Z) a, foldl (fun v x => v * 2 ^ 32 + x) a q
    = a * 2 ^ (32 * Z.of_nat (length q)) + foldl (fun v x => v * 2 ^ 32 + x) 0 q) as Hacc.
  { induction q as [|y q IH]; intros a; cbn [foldl length]; [rewrite Z.mul_0_r, Z.pow_0_r; lia|].
    rewrite (IH (a * 2 ^ 32 + y)), (IH (0 * 2 ^ 32 + y)). rewrite Nat2Z.inj_succ, <- Z.add_1_r, Z.mul_add_distr_l,
      Z.pow_add_r by lia. rewrite Z.mul_1_r. ring. }
  induction 1 as [|x l Hx Hl IH]; intros r Hr; cbn [divide_limbs foldl]; [split_and!; [constructor|lia|lia|lia|done]|].
  rewrite Z.shiftl_mul_pow2, w64_small, lor_multiple by lia.
  pose proof (Z.div_mod (r * 2 ^ 32 + x) 10 ltac:(lia)) as ED.
  pose proof (Z.mod_pos_bound (r * 2 ^ 32 + x) 10 ltac:(lia)) as HM.
  set (m := (r * 2 ^ 32 + x) mod 10) in *. set (d := (r * 2 ^ 32 + x) / 10) in *. clearbody m d.
  specialize (IH m HM). destruct (divide_limbs m l) as [q Last]. destruct IH as (HF & HL & HV & Hlen).
  rewrite w32_small by lia. cbn [foldl length].
  split_and!; [constructor; [lia|done]|lia|lia| |by rewrite Hlen].
  rewrite (Hacc l (r * 2 ^ 32 + x)), ED. rewrite (Hacc l m) in HV. rewrite (Hacc q (0 * 2 ^ 32 + d)), Hlen.
  set (P := 2 ^ (32 * Z.of_nat (length l))) in *. clearbody P. nia.
Qed.

Definition be_value (l : list Z) : Z := foldl (fun v x => v * 2 ^ 32 + x) 0 l.

Lemma be_value_zero (l : list Z) : Forall (fun x => 0 <= x < 2 ^ 32) l ->
  0 <= be_value l /\ forallb (Z.eqb 0) l = (be_value l =? 0).
Proof.
  unfold be_value. induction l as [|x l IH] using rev_ind; intros H; [done|].
  apply Forall_app in H as [Hl Hx]. rewrite Forall_singleton in Hx. destruct (IH Hl) as [H0 E].
  rewrite forallb_app, foldl_app, E. cbn [foldl forallb]. rewrite andb_true_r.
  set (v := foldl _ 0 l) in *. clearbody v.
  destruct (Z.eqb_spec v 0), (Z.eqb_spec 0 x), (Z.eqb_spec (v * 2 ^ 32 + x) 0); cbn [andb]; lia.
Qed.

Lemma decimal_loop_spec (fuel : nat) : forall l Reversed, Forall (fun x => 0 <= x < 2 ^ 32) l ->
  be_value l < 10 ^ Z.of_nat fuel ->
  exists D, decimal_loop fuel l Reversed = Reversed ++ reverse D /\ all_digits D /\
    dec_value D = be_value l /\ head D <> Some x30.
Proof.
  induction fuel as [|fuel IH]; intros l Rev Hl Hlt; cbn [decimal_loop].
  { destruct (be_value_zero l Hl) as [H0 _]. change (10 ^ Z.of_nat 0) with 1 in Hlt.
    exists []. rewrite app_nil_r. split_and!; [done|constructor|cbn; lia|done]. }
  destruct (be_value_zero l Hl) as [H0 ->]. destruct (Z.eqb_spec (be_value l) 0) as [E|E].
  { exists []. rewrite app_nil_r. split_and!; [done|constructor|cbn; lia|done]. }
  pose proof (divide_limbs_spec l Hl 0 ltac:(lia)) as Hd. destruct (divide_limbs 0 l) as [q Last].
  destruct Hd as (Hq & HL & HV & _). fold (be_value l) in HV. fold (be_value q) in HV.
  rewrite Nat2Z.inj_succ, Z.pow_succ_r in Hlt by lia.
  destruct (IH q (Rev ++ [byte_of_code (48 + Last)]) Hq ltac:(lia)) as (D & -> & HD & Hv & Hh).
  exists (D ++ [digit_char Last]). split_and!.
  - rewrite reverse_app, <- app_assoc. done.
  - apply Forall_app_2; [done|]. constructor; [by apply digit_char_is_digit|constructor].
  - rewrite dec_value_app, dec_value_single, digit_char_value, Hv by done. change (10 ^ Z.of_nat (length [digit_char Last])) with 10. lia.
  - destruct D as [|c D]; [|done]. cbn [app head]. intros [= Hz]. apply (f_equal digit_value) in Hz.
    rewrite digit_char_value in Hz by done. change (digit_value x30) with 0 in Hz. change (dec_value []) with 0 in Hv. lia.
Qed.

(** The 64-bit halves of a number, as four limbs. *)
Lemma u128_limbs (v : U128) : wf_u128 v ->
  let l := [w32 (Z.shiftr (Hi v) 32); w32 (Hi v); w32 (Z.shiftr (Lo v) 32); w32 (Lo v)] in
  Forall (fun x => 0 <= x < 2 ^ 32) l /\ be_value l = u128_value v.
Proof.
  intros [HH HL]. destruct (half_words _ HH) as (EH & H1 & H0). destruct (half_words _ HL) as (EL & L1 & L0).
  assert (forall x, Z.land x 0xFFFFFFFF = w32 x) as Hw by (intros x; by apply (land_low x 32)).
  rewrite Hw in *. cbv zeta. rewrite (w32_small (Z.shiftr (Hi v) 32)), (w32_small (Z.shiftr (Lo v) 32)) by done.
  split; [repeat (constructor; [done|]); constructor|]. unfold be_value, u128_value. cbn [foldl]. lia.
Qed.

Lemma u128_bound (v : U128) : wf_u128 v -> 0 <= u128_value v < 2 ^ 128.
Proof. intros [HH HL]. unfold u128_value. lia. Qed.

Lemma u128_ToDecimal (v : U128) : wf_u128 v -> ToDecimal v = dec_text (u128_value v).
Proof.
  intros Hv. unfold ToDecimal. destruct (Z.eqb_spec (Hi v) 0) as [E|E].
  { unfold u128_value. by rewrite E, Z.mul_0_l, Z.add_0_l. }
  destruct (u128_limbs v Hv) as [HF Hval]. pose proof (u128_bound v Hv) as Hb. rewrite <- Hval in Hb |- *.
  destruct (decimal_loop_spec 39 _ [] HF) as (D & -> & HD & Hd & Hh).
  { eapply Z.lt_trans; [apply Hb|done]. }
  cbn [app]. rewrite reverse_involutive, <- Hd. symmetry. apply dec_text_canonical. split; [done|].
  destruct D as [|c D]; [|destruct D; [done|]].
  - change (dec_value []) with 0 in Hd. rewrite Hval in Hd. unfold u128_value in Hd. destruct Hv. lia.
  - apply Forall_cons in HD as [Hc _]. intros Hz. apply Hh. cbn. by rewrite (digit_value_zero c Hc Hz).
Qed.

(** ** The result of a quotient *)

Lemma unscaled_spec (q : U128) : wf_u128 q ->
  unscaled q = round_units false (u128_value q * 2 ^ 1074) kScale.
Proof.
  intros Hq. pose proof (u128_bound q Hq) as Hb. unfold unscaled.
  destruct ((Hi q =? 0) && (Lo q <? 2 ^ 53)) eqn:E.
  - apply andb_true_iff in E as [E1 E2]. apply Z.eqb_eq in E1. apply Z.ltb_lt in E2. destruct Hq as [_ HL].
    unfold u128_value. rewrite E1, Z.mul_0_l, Z.add_0_l. apply ddiv_integers; [lia|]. unfold kScale. lia.
  - rewrite u128_ToDecimal by done. set (k := u128_value q) in *.
    destruct (dec_text_spec k ltac:(lia)) as ([Hd Hc] & Hv & _).
    assert (length (dec_text k) <= 39)%nat as Hlen.
    { apply dec_text_length; [|lia]. split; [lia|]. eapply Z.lt_trans; [apply Hb|done]. }
    assert (dec_text k <> []) as Hne by (by destruct (dec_text k)).
    assert (PyFloatAscii (dec_text k ++ B "e-7") = Some (DecimalToDouble false (dec_text k) (-7))) as HF.
    { apply number_reads; [|rewrite length_app; change (length (B "e-7")) with 3%nat; lia].
      pose proof (number_value false [] (dec_text k) [] [] (-7) (B "e-7") sign_none Hd fraction_none) as HN.
      rewrite app_nil_r in HN. apply HN; [done|].
      apply (exponent_some x65 [x2d] true [x37]); [by left|constructor|by repeat constructor|done]. }
    unfold PyFloat. rewrite HF. rewrite forallb_app.
    assert (forallb (fun Ch => negb (128 <=? code Ch)) (dec_text k) = true) as ->.
    { apply forallb_forall. intros c Hin. apply list_elem_of_In in Hin.
      pose proof (proj1 (Forall_forall _ _) Hd c Hin) as Hdig. unfold is_digit in Hdig. bool_props. apply negb_true_iff, Z.leb_gt. lia. }
    change (forallb _ (B "e-7")) with true. cbv iota beta. cbn [andb].
    rewrite DecimalToDouble_units by done. unfold decimal_num, decimal_den. cbn [with_sign].
    rewrite Hv. change (10 ^ Z.max 0 (-7)) with 1. change (10 ^ Z.max 0 (- -7)) with kScale. by rewrite Z.mul_1_r.
Qed.

(** ** The nearest number of ten-millionths *)

Lemma scaled_quotient_spec (m s : Z) : 0 <= m < 2 ^ 53 -> 0 < s ->
  wf_u128 (scaled_quotient m s) /\ u128_value (scaled_quotient m s) = rne (m * kScale) (2 ^ s).
Proof.
  intros Hm Hs. pose proof (pow2_pos s ltac:(lia)) as Hp. unfold scaled_quotient.
  destruct (Z.ltb_spec s 128).
  - destruct (Mul64_spec m kScale) as [WN VN]; [lia|by vm_compute|]. set (N := Mul64 m kScale) in *.
    destruct (ShiftRight_spec N s WN ltac:(lia)) as [WQ VQ]. set (Q := ShiftRight N s) in *.
    pose proof (Z.div_mod (m * kScale) (2 ^ s) ltac:(lia)) as ED.
    pose proof (Z.mod_pos_bound (m * kScale) (2 ^ s) Hp) as HM. rewrite VN in VQ.
    assert (0 <= m * kScale < 2 ^ 77) as HN by (unfold kScale; lia).
    destruct (u128_ShiftLeft_spec Q s WQ ltac:(lia)) as [WS VS]; [rewrite VQ; lia|]. rewrite VQ in VS.
    destruct (Subtract_exact N (ShiftLeft Q s) WN WS) as [WR VR]; [rewrite VN, VS; lia|].
    destruct (u128_ShiftLeft_spec (MkU128 0 1) (s - 1)) as [WH VH]; [by split|lia| |].
    { change (u128_value (MkU128 0 1)) with 1. rewrite Z.mul_1_l. apply Z.pow_lt_mono_r; lia. }
    change (u128_value (MkU128 0 1)) with 1 in VH. rewrite Z.mul_1_l in VH.
    rewrite u128_compare by done. rewrite VR, VH, VN, VS. unfold rne.
    set (r := m * kScale - m * kScale / 2 ^ s * 2 ^ s). assert (r = (m * kScale) mod 2 ^ s) as Er by lia.
    assert (2 ^ s = 2 * 2 ^ (s - 1)) as E2 by (rewrite <- Z.pow_succ_r by lia; f_equal; lia).
    assert (negb (Z.land (Lo Q) 1 =? 0) = Z.odd (m * kScale / 2 ^ s)) as ->.
    { rewrite <- VQ. unfold u128_value. rewrite Z.odd_add, Z.odd_mul. change (Z.odd (2 ^ 64)) with false.
      rewrite andb_false_r, xorb_false_l. change 1 with (2 ^ 1 - 1). rewrite land_low by lia.
      change (2 ^ 1) with 2. rewrite Zmod_odd. by destruct (Z.odd (Lo Q)). }
    rewrite <- Er. set (h := 2 ^ (s - 1)) in *. rewrite E2.
    assert ((0 <? (if r <? h then -1 else if r =? h then 0 else 1)) = (2 * h <? 2 * r)) as ->.
    { destruct (Z.ltb_spec r h), (Z.ltb_spec (2 * h) (2 * r)), (Z.eqb_spec r h); cbn; lia. }
    assert (((if r <? h then -1 else if r =? h then 0 else 1) =? 0) = (2 * r =? 2 * h)) as ->.
    { destruct (Z.ltb_spec r h), (Z.eqb_spec (2 * r) (2 * h)), (Z.eqb_spec r h); cbn; lia. }
    rewrite <- E2. destruct (_ || _); [|by rewrite VQ].
    assert (0 <= m * kScale / 2 ^ s <= m * kScale) as HQ by (apply div_below; lia).
    destruct WQ as [WQh WQl]. unfold u128_value in VQ. unfold wf_u128, u128_value, w64. cbn [Hi Lo].
    destruct (Z.eq_dec (Lo Q) (2 ^ 64 - 1)) as [El|El].
    + rewrite El. change ((2 ^ 64 - 1 + 1) mod 2 ^ 64) with 0. cbn [Z.eqb].
      rewrite Z.mod_small by lia. lia.
    + rewrite (Z.mod_small (Lo Q + 1)) by lia. destruct (Z.eqb_spec (Lo Q + 1) 0); lia.
  - assert (2 * (m * kScale) < 2 ^ s) as Hlt.
    { eapply Z.lt_le_trans with (2 ^ 128); [unfold kScale; lia|apply Z.pow_le_mono_r; lia]. }
    split; [by split|]. assert (0 <= m * kScale) by (unfold kScale; lia).
    unfold rne. rewrite Z.div_small, Z.mod_small by lia.
    destruct (Z.ltb_spec (2 ^ s) (2 * (m * kScale))); [lia|]. by rewrite andb_false_r.
Qed.

Lemma fields_spec (m : positive) (e : Z) : valid (S754_finite false m e) ->
  fields (S754_finite false m e) = (Z.pos m, e).
Proof.
  intros V. destruct (RatioBits_fields _ V eq_refl) as (s & b & f & E & Hb & Hf & Ex).
  unfold fields. rewrite E.
  assert (s = false) as -> by (destruct s; [|done]; revert Ex; repeat destruct (_ =? _); done).
  cbn [sign_bit]. rewrite Z.add_0_l, Z.shiftr_div_pow2, land_low by lia.
  rewrite Z.div_add_l, (Z.div_small f), Z.add_0_r, Z.add_comm, Z.mod_add, (Z.mod_small f) by lia.
  change 0x7FF with (2 ^ 11 - 1). rewrite land_low, (Z.mod_small b) by lia.
  destruct (Z.eqb_spec b 0) as [->|Hb0]; cbn [negb].
  - revert Ex. destruct (Z.eqb_spec f 0); [done|]. intros [= -> ->]. f_equal. lia.
  - destruct (Z.eqb_spec b 2047). { by destruct (f =? 0). } injection Ex as -> ->.
    rewrite Z.lor_comm. replace (2 ^ 52) with (1 * 2 ^ 52) at 1 by lia. rewrite lor_multiple by lia. f_equal. lia.
Qed.

(** The number of ten-millionths nearest to a double. *)
Definition ten_millionths (V : dbl) : Z := rne (Z.abs (units V) * kScale) (2 ^ 1074).

Lemma RoundDecimal7_positive (m : positive) (e : Z) : valid (S754_finite false m e) ->
  let V := S754_finite false m e in
  RoundDecimal7 V = round_units false (ten_millionths V * 2 ^ 1074) kScale.
Proof.
  intros V X. unfold X, RoundDecimal7, ten_millionths. cbn [signbit]. rewrite fields_spec by done.
  pose proof V as V'. apply valid_finite in V'. pose proof (pow2_pos 1074 ltac:(lia)) as H1074.
  assert (Z.abs (units (S754_finite false m e)) = Z.pos m * 2 ^ (e + 1074)) as ->.
  { unfold units. pose proof (pow2_pos (e + 1074) ltac:(lia)). lia. }
  destruct (Z.leb_spec 0 e).
  - assert (Z.pos m * 2 ^ (e + 1074) * kScale = Z.pos m * 2 ^ e * kScale * 2 ^ 1074) as ->.
    { rewrite Z.pow_add_r by lia. ring. }
    rewrite rne_exact by done. rewrite (round_units_cross _ _ _ (units (S754_finite false m e)) 1); [|done|done|].
    + symmetry. apply round_units_id. by split.
    + unfold units. rewrite Z.pow_add_r by lia. ring.
  - destruct (scaled_quotient_spec (Z.pos m) (- e) ltac:(lia) ltac:(lia)) as [W E].
    rewrite unscaled_spec, E by done. do 2 f_equal.
    assert (2 ^ 1074 = 2 ^ (e + 1074) * 2 ^ (- e)) as -> by (rewrite <- Z.pow_add_r by lia; f_equal; lia).
    pose proof (pow2_pos (e + 1074) ltac:(lia)). pose proof (pow2_pos (- e) ltac:(lia)).
    rewrite <- (rne_scale (2 ^ (e + 1074))) by lia. f_equal. ring.
Qed.

Lemma RoundDecimal7_value (V : dbl) : valid V -> is_finite V = true ->
  RoundDecimal7 V = round_units (signbit V) (ten_millionths V * 2 ^ 1074) kScale.
Proof.
  intros HV Hf. destruct V as [s|?| |s m e]; try done.
  pose proof (RoundDecimal7_positive m e HV) as H. cbv zeta in H. destruct s; [|exact H].
  assert (ten_millionths (S754_finite true m e) = ten_millionths (S754_finite false m e)) as ->.
  { unfold ten_millionths. change (S754_finite true m e) with (dopp (S754_finite false m e)).
    by rewrite units_opp, Z.abs_opp. }
  cbn [signbit]. rewrite round_units_opp, <- H. unfold RoundDecimal7. cbn [signbit dopp SFopp negb].
  destruct (fields _) as [Mn Ex]. by destruct (0 <=? Ex).
Qed.

(** Between zero and one the result stays there. *)
Lemma ten_millionths_unit (V : dbl) : pos_double V -> units V <= 2 ^ 1074 -> 0 <= ten_millionths V <= kScale.
Proof.
  intros HV Hle. pose proof (pos_double_nonneg V HV). pose proof (pow2_pos 1074 ltac:(lia)).
  unfold ten_millionths. rewrite Z.abs_eq by done. split; [apply rne_ge|apply rne_le]; unfold kScale; nia.
Qed.

Lemma unit_fits : fits (2 ^ 1074).
Proof. exists 1, 1074. lia. Qed.

(** The double nearest to [k] ten-millionths. *)
Definition seven_decimals (k : Z) : dbl := round_units false (k * 2 ^ 1074) kScale.

Lemma seven_decimals_unit (k : Z) : 0 <= k <= kScale ->
  pos_double (seven_decimals k) /\ units (seven_decimals k) <= 2 ^ 1074.
Proof.
  intros Hk. pose proof (pow2_pos 1074 ltac:(lia)).
  destruct (round_units_le (k * 2 ^ 1074) kScale (2 ^ 1074)) as [Hf Hle]; [nia|done|apply unit_fits|nia|].
  split; [apply round_units_pos; [nia|done|done]|apply Hle].
Qed.

Lemma RoundDecimal7_unit (V : dbl) : pos_double V -> units V <= 2 ^ 1074 ->
  RoundDecimal7 V = seven_decimals (ten_millionths V).
Proof.
  intros HV Hle. destruct HV as [Hv Hs]. rewrite RoundDecimal7_value; [|done|by destruct V as [[]|?| |[] ? ?]].
  by destruct V as [[]|?| |[] ? ?].
Qed.

Lemma ten_millionths_seven (k : Z) : 0 <= k <= kScale -> ten_millionths (seven_decimals k) = k.
Proof.
  intros Hk. destruct (seven_decimals_unit k Hk) as [[Hv Hs] Hle].
  assert (is_finite (seven_decimals k) = true) as Hf by (by destruct (seven_decimals k) as [[]|?| |[] ? ?]).
  pose proof (pos_double_nonneg _ (conj Hv Hs)) as H0.
  pose proof (pow2_pos 1074 ltac:(lia)) as Hp. unfold seven_decimals in *.
  assert (0 <= k * 2 ^ 1074) as Hn by nia. assert (0 < kScale) as Hd by done.
  pose proof (round_units_finite false _ _ Hn Hd Hf) as HU. cbv zeta in HU.
  set (n := k * 2 ^ 1074) in *. set (s := spacing (n / kScale)) in *.
  assert (0 <= s <= 1022) as Hss.
  { unfold s, spacing. assert (n / kScale <= 2 ^ 1074) as Hq by (apply Z.div_le_upper_bound; [done|]; unfold n; nia).
    apply Z.log2_le_mono in Hq. rewrite Z.log2_pow2 in Hq by lia. lia. }
  pose proof (pow2_pos s ltac:(lia)) as Hps.
  destruct (rne_spec n (kScale * 2 ^ s) ltac:(nia)) as [HR _].
  assert (2 ^ s <= 2 ^ 1022) as H22 by (apply Z.pow_le_mono_r; lia).
  set (x := round_units false n kScale) in *. unfold ten_millionths. rewrite Z.abs_eq by done.
  pose proof (rne_closest (units x * kScale) (2 ^ 1074) k Hp) as HC.
  set (q := rne (units x * kScale) (2 ^ 1074)) in *.
  assert (2 * Z.abs (units x * kScale - n) <= kScale * 2 ^ s) as HR'.
  { rewrite HU, Z.mul_1_l. replace (rne n (kScale * 2 ^ s) * 2 ^ s * kScale) with (rne n (kScale * 2 ^ s) * (kScale * 2 ^ s)) by ring. lia. }
  assert (kScale * 2 ^ s < 2 ^ 1074) as Hlt.
  { eapply Z.le_lt_trans with (kScale * 2 ^ 1022); [nia|]. unfold kScale. change (2 ^ 1074) with (2 ^ 52 * 2 ^ 1022).
    apply Z.mul_lt_mono_pos_r; [apply pow2_pos; lia|lia]. }
  unfold n in HR'. set (T := 2 ^ 1074) in *. set (u := units x * kScale) in *. clearbody T u q. nia.
Qed.

(** C30: [RoundDecimal7] is Python's [float("{0:.7f}".format(v))]: the double
    nearest to a whole number [k] of ten-millionths, [k] being nearest to the
    argument with ties to even; a ratio between 0 and 1 stays in that range and
    rounding it again changes nothing. *)
Theorem Round7_decimal (V : dbl) : valid V -> is_finite V = true ->
  let k := ten_millionths V in
  Round7 V = DecimalToDouble (signbit V) (dec_text k) (-7) /\
  2 * Z.abs (Z.abs (units V) * kScale - k * 2 ^ 1074) <= 2 ^ 1074 /\
  (2 * Z.abs (Z.abs (units V) * kScale - k * 2 ^ 1074) = 2 ^ 1074 -> Z.odd k = false) /\
  (pos_double V -> units V <= 2 ^ 1074 ->
     pos_double (Round7 V) /\ units (Round7 V) <= 2 ^ 1074 /\ Round7 (Round7 V) = Round7 V).
Proof.
  intros HV Hf k. pose proof (pow2_pos 1074 ltac:(lia)) as Hp.
  destruct (rne_spec (Z.abs (units V) * kScale) (2 ^ 1074) Hp) as [HR HT]. unfold Round7.
  assert (0 <= k) as Hk by (apply rne_ge; [done|]; unfold kScale; lia).
  split; [|split; [exact HR|split; [exact HT|]]].
  - destruct (dec_text_spec k Hk) as ([Hd _] & Hv & _).
    rewrite RoundDecimal7_value, DecimalToDouble_units by done. unfold decimal_num, decimal_den. rewrite Hv.
    change (10 ^ Z.max 0 (-7)) with 1. change (10 ^ Z.max 0 (- -7)) with kScale. rewrite Z.mul_1_r.
    destruct (signbit V); [by rewrite round_units_opp|done].
  - intros HP Hle. rewrite RoundDecimal7_unit by done. pose proof (ten_millionths_unit V HP Hle) as Hr.
    destruct (seven_decimals_unit _ Hr) as [HP' Hle']. split; [done|]. split; [done|].
    rewrite RoundDecimal7_unit by done. by rewrite ten_millionths_seven.
Qed.

Lemma Round7_decimal_witness :
  Round7 (dlit 1 3) = DecimalToDouble false (B "3333333") (-7) /\ Round7 (Round7 (dlit 1 3)) = Round7 (dlit 1 3).
Proof.
  destruct (Round7_decimal (dlit 1 3)) as (H1 & _ & _ & H2); [vm_compute; reflexivity|reflexivity|].
  split; [rewrite H1; vm_compute; reflexivity|]. apply H2.
  - split; [vm_compute; reflexivity|vm_compute; exact I].
  - vm_compute. discriminate.
Defined.
