(* ===== verification/SideTables.v ===== *)
(** * Query results and side tables
    (src/src/diff/Database.cpp, src/src/diff/SideTables.cpp)

    SQLite is outside the source: a connection is what it answers, the result
    of every query text and the presence of every table. A cell holds what
    SQLite's four column accessors return for it, conversions included. *)

From Stdlib Require Import ZArith Lia.
From stdpp Require Import base option numbers list.
From S2P Require Import Prelude Dbl Consumer.

(** ** Statements *)

Inductive SqlType := SqlNull | SqlInteger | SqlReal | SqlText | SqlBlob.

#[export] Instance SqlType_eq_dec : EqDecision SqlType.
Proof. solve_decision. Defined.

(** A column of the current row: [sqlite3_column_type], [_int64], [_double],
    and the bytes of [_text] or [_blob]. *)
Record Column := MkColumn { Type_ : SqlType; Int_ : Z; Real_ : dbl; Bytes_ : text }.

Definition IsNullColumn (c : Column) : bool := bool_decide (Type_ c = SqlNull).
Definition Text_ (c : Column) : text := if IsNullColumn c then [] else Bytes_ c.

(** One stored value, never coerced. *)
Record SqlCell := MkSqlCell { CellType : SqlType; CellInt : Z; CellReal : dbl; CellText : text }.

Definition Cell (c : Column) : SqlCell :=
  match Type_ c with
  | SqlInteger => MkSqlCell SqlInteger (Int_ c) d0 []
  | SqlReal => MkSqlCell SqlReal 0 (Real_ c) []
  | SqlText => MkSqlCell SqlText 0 d0 (Text_ c)
  | SqlBlob => MkSqlCell SqlBlob 0 d0 (Text_ c)
  | SqlNull => MkSqlCell SqlNull 0 d0 []
  end.

Record Statement := MkStatement { ColumnNames_ : list text; RowsOf : list (list Column) }.
Definition ColumnCount (Stmt : Statement) : nat := length (ColumnNames_ Stmt).

Definition ascii_lower (c : byte) : Z := if (65 <=? code c)%Z && (code c <=? 90)%Z then (code c + 32)%Z else code c.
Definition EqualsIgnoreCaseAscii (s t : text) : bool :=
  (length s =? length t)%nat && forallb (fun p => (ascii_lower p.1 =? ascii_lower p.2)%Z) (zip s t).

Fixpoint find_column_from (n : nat) (Alias : text) (Names : list text) : option nat :=
  match Names with
  | [] => None
  | Name :: Names' => if EqualsIgnoreCaseAscii Name Alias then Some n else find_column_from (S n) Alias Names'
  end.
Definition FindColumn (Alias : text) (Stmt : Statement) : option nat := find_column_from 0 Alias (ColumnNames_ Stmt).

(** The connection: what it answers to a query, and which tables exist. *)
Record DiffDatabase := MkDatabase {
  Prepare : text -> res Statement;
  TableExists : text -> text -> res bool;
}.

Definition column_past_end : exn := CxxException (B "undefined behaviour: column past the end").
Definition column_at (n : nat) (Row : list Column) : res Column :=
  match Row !! n with Some c => Ok c | None => Throw column_past_end end.

(** ** Side tables *)

Definition SchemaName (Which : Side) : text := match Which with MainSide => B "main" | DiffSide => B "diff" end.

Record TableInfo := MkTableInfo { TableName : text; Present : bool; TableRows : Z; TableColumns : list text }.

Record ProgramRow := MkProgramRow {
  ProgramId : SqlCell;
  CallgraphPrimes : SqlCell;
  CallgraphAllPrimes : SqlCell;
  Processor : SqlCell;
  Md5sum : SqlCell;
}.

Record SideTables := MkSideTables {
  Tables_ : list TableInfo;
  Program : list ProgramRow;
  Version : list SqlCell;
  IndexCount : Z;
  HasStat1 : bool;
}.

Definition SideTableNames : list text :=
  [B "functions"; B "program"; B "program_data"; B "version"; B "instructions"; B "basic_blocks";
   B "bb_relations"; B "bb_instructions"; B "function_bblocks"; B "callgraph"; B "constants";
   B "compilation_units"; B "compilation_unit_functions"; B "sqlite_stat1"].

Definition FindTable (Name : text) (T : SideTables) : option TableInfo :=
  List.find (fun Info => bool_decide (TableName Info = Name)) (Tables_ T).
Definition HasTable (Name : text) (T : SideTables) : bool :=
  match FindTable Name T with Some Info => Present Info | None => false end.
Definition Rows (Name : text) (T : SideTables) : Z :=
  match FindTable Name T with Some Info => if Present Info then TableRows Info else 0 | None => 0 end%Z.

(** [if (Count.Step()) x = Count.Int(0)]. *)
Definition first_int (Stmt : Statement) : res Z :=
  match RowsOf Stmt with
  | [] => Ok 0%Z
  | Row :: _ => c ← column_at 0 Row; Ok (Int_ c)
  end.

Definition load_table (Db : DiffDatabase) (Schema Name : text) : res TableInfo :=
  Here ← TableExists Db Schema Name;
  if (Here : bool) then
    Count ← Prepare Db (B "select count(*) from " ++ Schema ++ B "." ++ Name);
    n ← first_int Count;
    Columns ← Prepare Db (B "pragma " ++ Schema ++ B ".table_info(" ++ Name ++ B ")");
    Names ← mapM (fun Row => c ← column_at 1 Row; Ok (Text_ c)) (RowsOf Columns);
    Ok (MkTableInfo Name true n Names)
  else Ok (MkTableInfo Name false 0 []).

Definition Wanted : list text :=
  [B "id"; B "callgraph_primes"; B "callgraph_all_primes"; B "processor"; B "md5sum"].

(** The select list: a column an old export lacks reads [null]. *)
Fixpoint select_list (Have Columns : list text) : text :=
  match Columns with
  | [] => []
  | [Column] => if bool_decide (Column ∈ Have) then Column else B "null"
  | Column :: Columns' => (if bool_decide (Column ∈ Have) then Column else B "null") ++ B ", " ++ select_list Have Columns'
  end.

Definition load_program (Db : DiffDatabase) (Schema : text) (Columns : list text) : res (list ProgramRow) :=
  Stmt ← Prepare Db (B "select " ++ select_list Columns Wanted ++ B " from " ++ Schema ++ B ".program"
    ++ (if bool_decide (B "id" ∈ Columns) then B " order by id" else []));
  mapM (fun Row =>
    c0 ← column_at 0 Row; c1 ← column_at 1 Row; c2 ← column_at 2 Row; c3 ← column_at 3 Row; c4 ← column_at 4 Row;
    Ok (MkProgramRow (Cell c0) (Cell c1) (Cell c2) (Cell c3) (Cell c4))) (RowsOf Stmt).

Definition load_version (Db : DiffDatabase) (Schema : text) (Columns : list text) : res (list SqlCell) :=
  if bool_decide (B "value" ∈ Columns) then
    Stmt ← Prepare Db (B "select value from " ++ Schema ++ B ".version");
    mapM (fun Row => c ← column_at 0 Row; Ok (Cell c)) (RowsOf Stmt)
  else Ok [].

(** The rows of a side table that is present, read by [load]. *)
Definition when_present {A} (Info : option TableInfo) (load : list text -> res (list A)) : res (list A) :=
  match Info with
  | Some Info => if Present Info then load (TableColumns Info) else Ok []
  | None => Ok []
  end.

(** [static_cast<int>] of a 64-bit integer. *)
Definition int32 (z : Z) : Z := ((z + 2 ^ 31) mod 2 ^ 32 - 2 ^ 31)%Z.

Definition LoadSideTables (Db : DiffDatabase) (Which : Side) : res SideTables :=
  let Schema := SchemaName Which in
  Infos ← mapM (load_table Db Schema) SideTableNames;
  let Out := MkSideTables Infos [] [] 0 false in
  Indices ← Prepare Db (B "select count(*) from " ++ Schema
    ++ B ".sqlite_master where type = 'index' and name like 'idx\_%' escape '\'");
  n ← first_int Indices;
  Program ← when_present (FindTable (B "program") Out) (load_program Db Schema);
  Version ← when_present (FindTable (B "version") Out) (load_version Db Schema);
  Ok (MkSideTables Infos Program Version (int32 n) (HasTable (B "sqlite_stat1") Out)).
