(* ===== verification/FunctionTable.v ===== *)
(** * The functions table of an export (include/dsigmatcher/diff/Table.h)

    One column per schema column, the values SQLite casts, and the two lookup
    maps. A row index past the end of a column's vectors is undefined behaviour
    in the source; the model raises [index_past_end], which no theorem about
    well-formed tables lets through. *)

From Stdlib Require Import ZArith Lia.
From stdpp Require Import base option numbers list gmap.
From S2P Require Import Prelude Dbl Interner Consumer.
From S2P Require PyDecimal.

Record IntColumn := MkIntColumn {
  IntValue : list Z;
  IntIsNull : list bool;
  NotInteger : list bool;
}.

Record RealColumn := MkRealColumn {
  RealValue : list dbl;
  RealIsNull : list bool;
  NotReal : list bool;
}.

Definition index_past_end : exn := CxxException (B "undefined behaviour: index past the end").
Definition at_row {A} (l : list A) (Row : nat) : res A :=
  match l !! Row with Some a => Ok a | None => Throw index_past_end end.

Definition IntSize (c : IntColumn) : nat := length (IntIsNull c).
Definition IntNull (Row : nat) (c : IntColumn) : res bool := at_row (IntIsNull c) Row.
Definition IntGet (Row : nat) (c : IntColumn) : res (option Z) :=
  n ← IntNull Row c;
  if (n : bool) then Ok None else v ← at_row (IntValue c) Row; Ok (Some v).

(** The 49 columns of the schema are named by their members: a pointer to a
    member of [FunctionTable] is one of these names. *)
Inductive IntMember :=
| I_Id | I_Nodes | I_Edges | I_Indegree | I_Outdegree | I_Size | I_Instructions
| I_CyclomaticComplexity | I_PseudocodeLines | I_FunctionFlags | I_StronglyConnected | I_Loops
| I_BytesSum | I_ConstantsCount.
Inductive TextMember :=
| T_Name | T_Address | T_Mnemonics | T_Names | T_Prototype | T_PrimesValue
| T_Comment | T_MangledFunction | T_BytesHash | T_Pseudocode | T_PseudocodeHash1
| T_PseudocodePrimes | T_Assembly | T_Prototype2 | T_PseudocodeHash2 | T_PseudocodeHash3
| T_Rva | T_TarjanTopologicalSort | T_StronglyConnectedSpp | T_CleanAssembly
| T_CleanPseudo | T_MnemonicsSpp | T_Switches | T_FunctionHash | T_MdIndex
| T_Constants | T_SegmentRva | T_AssemblyAddrs | T_KghHash | T_SourceFile | T_Userdata
| T_Microcode | T_CleanMicrocode | T_MicrocodeSpp.
Inductive RealMember := R_ExportTime.

#[export] Instance IntMember_eq_dec : EqDecision IntMember.
Proof. solve_decision. Defined.
#[export] Instance TextMember_eq_dec : EqDecision TextMember.
Proof. solve_decision. Defined.
#[export] Instance RealMember_eq_dec : EqDecision RealMember.
Proof. solve_decision. Defined.

Record FunctionTable := MkFunctionTable {
  Ints : IntMember -> IntColumn;
  Texts : TextMember -> TextColumn;
  Reals : RealMember -> RealColumn;
  MdSqlReal : list dbl;
  MdSqlNull : list bool;
  AddressSqlReal : list dbl;
  AddressSqlNull : list bool;
  SelectFieldsUtf8Bad : list bool;
  AnyColumnUtf8Bad : list bool;
  AddrIdOf : list AddrId;
  NameIdOf : list NameId;
  MangledIdOf : list NameId;
  RowByAddr : gmap N Z;
  RowsByName : gmap N (list Z);
}.

Definition Id (T : FunctionTable) : IntColumn := Ints T I_Id.
Definition Nodes (T : FunctionTable) : IntColumn := Ints T I_Nodes.
Definition Edges (T : FunctionTable) : IntColumn := Ints T I_Edges.
Definition Indegree (T : FunctionTable) : IntColumn := Ints T I_Indegree.
Definition Outdegree (T : FunctionTable) : IntColumn := Ints T I_Outdegree.
Definition Size_ (T : FunctionTable) : IntColumn := Ints T I_Size.
Definition Instructions (T : FunctionTable) : IntColumn := Ints T I_Instructions.
Definition CyclomaticComplexity (T : FunctionTable) : IntColumn := Ints T I_CyclomaticComplexity.
Definition PseudocodeLines (T : FunctionTable) : IntColumn := Ints T I_PseudocodeLines.
Definition FunctionFlags (T : FunctionTable) : IntColumn := Ints T I_FunctionFlags.
Definition StronglyConnected (T : FunctionTable) : IntColumn := Ints T I_StronglyConnected.
Definition Loops (T : FunctionTable) : IntColumn := Ints T I_Loops.
Definition BytesSum (T : FunctionTable) : IntColumn := Ints T I_BytesSum.
Definition ConstantsCount (T : FunctionTable) : IntColumn := Ints T I_ConstantsCount.
Definition Name_ (T : FunctionTable) : TextColumn := Texts T T_Name.
Definition Address (T : FunctionTable) : TextColumn := Texts T T_Address.
Definition Mnemonics (T : FunctionTable) : TextColumn := Texts T T_Mnemonics.
Definition Names (T : FunctionTable) : TextColumn := Texts T T_Names.
Definition Prototype (T : FunctionTable) : TextColumn := Texts T T_Prototype.
Definition PrimesValue (T : FunctionTable) : TextColumn := Texts T T_PrimesValue.
Definition Comment (T : FunctionTable) : TextColumn := Texts T T_Comment.
Definition MangledFunction (T : FunctionTable) : TextColumn := Texts T T_MangledFunction.
Definition BytesHash (T : FunctionTable) : TextColumn := Texts T T_BytesHash.
Definition Pseudocode (T : FunctionTable) : TextColumn := Texts T T_Pseudocode.
Definition PseudocodeHash1 (T : FunctionTable) : TextColumn := Texts T T_PseudocodeHash1.
Definition PseudocodePrimes (T : FunctionTable) : TextColumn := Texts T T_PseudocodePrimes.
Definition Assembly (T : FunctionTable) : TextColumn := Texts T T_Assembly.
Definition Prototype2 (T : FunctionTable) : TextColumn := Texts T T_Prototype2.
Definition PseudocodeHash2 (T : FunctionTable) : TextColumn := Texts T T_PseudocodeHash2.
Definition PseudocodeHash3 (T : FunctionTable) : TextColumn := Texts T T_PseudocodeHash3.
Definition Rva (T : FunctionTable) : TextColumn := Texts T T_Rva.
Definition TarjanTopologicalSort (T : FunctionTable) : TextColumn := Texts T T_TarjanTopologicalSort.
Definition StronglyConnectedSpp (T : FunctionTable) : TextColumn := Texts T T_StronglyConnectedSpp.
Definition CleanAssembly (T : FunctionTable) : TextColumn := Texts T T_CleanAssembly.
Definition CleanPseudo (T : FunctionTable) : TextColumn := Texts T T_CleanPseudo.
Definition MnemonicsSpp (T : FunctionTable) : TextColumn := Texts T T_MnemonicsSpp.
Definition Switches (T : FunctionTable) : TextColumn := Texts T T_Switches.
Definition FunctionHash (T : FunctionTable) : TextColumn := Texts T T_FunctionHash.
Definition MdIndex (T : FunctionTable) : TextColumn := Texts T T_MdIndex.
Definition Constants (T : FunctionTable) : TextColumn := Texts T T_Constants.
Definition SegmentRva (T : FunctionTable) : TextColumn := Texts T T_SegmentRva.
Definition AssemblyAddrs (T : FunctionTable) : TextColumn := Texts T T_AssemblyAddrs.
Definition KghHash_ (T : FunctionTable) : TextColumn := Texts T T_KghHash.
Definition SourceFile (T : FunctionTable) : TextColumn := Texts T T_SourceFile.
Definition Userdata (T : FunctionTable) : TextColumn := Texts T T_Userdata.
Definition Microcode (T : FunctionTable) : TextColumn := Texts T T_Microcode.
Definition CleanMicrocode (T : FunctionTable) : TextColumn := Texts T T_CleanMicrocode.
Definition MicrocodeSpp (T : FunctionTable) : TextColumn := Texts T T_MicrocodeSpp.
Definition ExportTime (T : FunctionTable) : RealColumn := Reals T R_ExportTime.

Definition Count (T : FunctionTable) : nat := IntSize (Id T).

Definition FindRow (Ea : AddrId) (T : FunctionTable) : option Z := RowByAddr T !! Ea.
Definition RowsNamed (Key : NameId) (T : FunctionTable) : list Z := default [] (RowsByName T !! Key).

#[export] Instance Side_eq_dec : EqDecision Side.
Proof. solve_decision. Defined.

(** A pair indexed by the side of the diff. *)
Record sided (A : Type) := MkSided { main_of : A; diff_of : A }.
Arguments MkSided {A}.
Arguments main_of {A}.
Arguments diff_of {A}.
Definition at_side {A} (s : Side) (p : sided A) : A :=
  match s with MainSide => main_of p | DiffSide => diff_of p end.
Definition set_side {A} (s : Side) (a : A) (p : sided A) : sided A :=
  match s with MainSide => MkSided a (diff_of p) | DiffSide => MkSided (main_of p) a end.

(** ** Text cells (src/src/diff/Ratio.cpp) *)

Record TextCell := MkCell { CellNull : bool; CellBlob : bool; CellBytes : text }.

Definition CellOf (Column : TextColumn) (Row : nat) : res TextCell :=
  n ← at_row (IsNull Column) Row;
  if (n : bool) then Ok (MkCell true false [])
  else
    b ← at_row (IsBlob Column) Row;
    match View Row Column with
    | Some Bytes => Ok (MkCell false b Bytes)
    | None => Throw index_past_end
    end.

(** Python [==]: None equals None only; text never equals bytes. *)
Definition PyEq (A C : TextCell) : bool :=
  if CellNull A || CellNull C then CellNull A && CellNull C
  else bool_decide (CellBlob A = CellBlob C) && bool_decide (CellBytes A = CellBytes C).

Definition PyNe (A : TextCell) (Literal : text) : bool :=
  CellNull A || CellBlob A || negb (bool_decide (CellBytes A = Literal)).

Definition IsEmptyStr (A : TextCell) : bool :=
  negb (CellNull A) && negb (CellBlob A) && bool_decide (CellBytes A = []).

Definition RequireInteger (Column : IntColumn) (Row : nat) (Name : text) : res unit :=
  n ← IntNull Row Column;
  if (n : bool) then Ok tt
  else
    bad ← at_row (NotInteger Column) Row;
    if (bad : bool) then
      Throw (UnsupportedInput (B "functions." ++ Name
        ++ B " holds a non-INTEGER value (Python float/str comparison semantics not ported)"))
    else Ok tt.

Definition PyEqInt (A : IntColumn) (RowA : nat) (C : IntColumn) (RowC : nat) (Name : text) : res bool :=
  RequireInteger A RowA Name;;
  RequireInteger C RowC Name;;
  na ← IntNull RowA A;
  nc ← IntNull RowC C;
  if (na : bool) || (nc : bool) then Ok (na && nc)
  else
    a ← at_row (IntValue A) RowA;
    c ← at_row (IntValue C) RowC;
    Ok (a =? c)%Z.

Definition PyNeZero (A : IntColumn) (Row : nat) : res bool :=
  n ← IntNull Row A;
  if (n : bool) then Ok true else v ← at_row (IntValue A) Row; Ok (negb (v =? 0)%Z).

(** [int(str)] of ASCII text, printed again: [PyIntCanonical]. The loop keeps
    the digits read and the previous character. *)
Fixpoint canonical_loop (Prev : byte) (Digits t : text) : option (text * byte) :=
  match t with
  | [] => Some (Digits, Prev)
  | Ch :: t' =>
      if bool_decide (Ch = x5f) then
        if (48 <=? code Prev)%Z && (code Prev <=? 57)%Z then canonical_loop Ch Digits t' else None
      else if (48 <=? code Ch)%Z && (code Ch <=? 57)%Z then canonical_loop Ch (Digits ++ [Ch]) t'
      else None
  end.

Definition canonical_space (Ch : byte) : bool := bool_decide (Ch ∈ [x20; x09; x0a; x0b; x0c; x0d]).
Fixpoint drop_spaces (t : text) : text :=
  match t with
  | Ch :: t' => if canonical_space Ch then drop_spaces t' else t
  | [] => []
  end.

Definition PyIntCanonical (Text : text) : res (option text) :=
  if negb (forallb (fun Ch => negb (128 <=? code Ch)%Z) Text) then
    Throw (UnsupportedInput (B "int(): non-ASCII address text is not ported (Unicode digit/space mapping)"))
  else
    let Body := reverse (drop_spaces (reverse (drop_spaces Text))) in
    let '(Negative, Body) :=
      match Body with
      | Ch :: t => if bool_decide (Ch = x2b \/ Ch = x2d) then (bool_decide (Ch = x2d), t) else (false, Body)
      | [] => (false, [])
      end in
    match canonical_loop x00 [] Body with
    | None => Ok None
    | Some (Digits, Prev) =>
        if bool_decide (Digits = []) || bool_decide (Prev = x5f) then Ok None
        else
          Ok (Some
            (match PyDecimal.drop_zeros Digits with
             | [] => [x30]
             | First => if (Negative : bool) then x2d :: First else First
             end))
    end.

Example canonical_text : map PyIntCanonical [B " -00_7 "; B "+0"; B "4198400"; B "1_"; B "_1"; B "- 1"; B ""]
  = [Ok (Some (B "-7")); Ok (Some (B "0")); Ok (Some (B "4198400")); Ok None; Ok None; Ok None; Ok None].
Proof. vm_compute. reflexivity. Qed.
