(* ===== verification/Ingest.v ===== *)
(** * Ingest of the functions table (src/src/diff/Ingest.cpp)

    [IngestExport] reads the rows of one export into the columns of a
    [FunctionTable], interns its addresses and names, and collects the problems
    that are refused later. *)

From Stdlib Require Import ZArith Lia.
From stdpp Require Import base option numbers list gmap.
From S2P Require Import Prelude Dbl Decimal Interner Utf8 Consumer SideTables FunctionTable.

(** ** The schema *)

Inductive ColumnKind := KindInteger | KindText | KindReal.

(** The column a description points to. *)
Inductive Member := MemberInt (m : IntMember) | MemberText (m : TextMember) | MemberReal (m : RealMember).

Record ColumnDesc := MkDesc { DescName : text; Target : Member; SelectField : bool }.

Definition DescKind (Desc : ColumnDesc) : ColumnKind :=
  match Target Desc with MemberInt _ => KindInteger | MemberText _ => KindText | MemberReal _ => KindReal end.

Definition DSIG_INT (Name : text) (m : IntMember) (Select : bool) : ColumnDesc := MkDesc Name (MemberInt m) Select.
Definition DSIG_TEXT (Name : text) (m : TextMember) (Select : bool) : ColumnDesc := MkDesc Name (MemberText m) Select.
Definition DSIG_REAL (Name : text) (m : RealMember) (Select : bool) : ColumnDesc := MkDesc Name (MemberReal m) Select.

Definition kColumns : list ColumnDesc :=
  [
   DSIG_INT (B "id") I_Id false;
   DSIG_TEXT (B "name") T_Name true;
   DSIG_TEXT (B "address") T_Address true;
   DSIG_INT (B "nodes") I_Nodes true;
   DSIG_INT (B "edges") I_Edges true;
   DSIG_INT (B "indegree") I_Indegree true;
   DSIG_INT (B "outdegree") I_Outdegree true;
   DSIG_INT (B "size") I_Size true;
   DSIG_INT (B "instructions") I_Instructions true;
   DSIG_TEXT (B "mnemonics") T_Mnemonics false;
   DSIG_TEXT (B "names") T_Names false;
   DSIG_TEXT (B "prototype") T_Prototype false;
   DSIG_INT (B "cyclomatic_complexity") I_CyclomaticComplexity true;
   DSIG_TEXT (B "primes_value") T_PrimesValue false;
   DSIG_TEXT (B "comment") T_Comment false;
   DSIG_TEXT (B "mangled_function") T_MangledFunction true;
   DSIG_TEXT (B "bytes_hash") T_BytesHash true;
   DSIG_TEXT (B "pseudocode") T_Pseudocode true;
   DSIG_INT (B "pseudocode_lines") I_PseudocodeLines false;
   DSIG_TEXT (B "pseudocode_hash1") T_PseudocodeHash1 false;
   DSIG_TEXT (B "pseudocode_primes") T_PseudocodePrimes true;
   DSIG_INT (B "function_flags") I_FunctionFlags false;
   DSIG_TEXT (B "assembly") T_Assembly true;
   DSIG_TEXT (B "prototype2") T_Prototype2 false;
   DSIG_TEXT (B "pseudocode_hash2") T_PseudocodeHash2 false;
   DSIG_TEXT (B "pseudocode_hash3") T_PseudocodeHash3 false;
   DSIG_INT (B "strongly_connected") I_StronglyConnected true;
   DSIG_INT (B "loops") I_Loops true;
   DSIG_TEXT (B "rva") T_Rva false;
   DSIG_TEXT (B "tarjan_topological_sort") T_TarjanTopologicalSort false;
   DSIG_TEXT (B "strongly_connected_spp") T_StronglyConnectedSpp false;
   DSIG_TEXT (B "clean_assembly") T_CleanAssembly true;
   DSIG_TEXT (B "clean_pseudo") T_CleanPseudo true;
   DSIG_TEXT (B "mnemonics_spp") T_MnemonicsSpp false;
   DSIG_TEXT (B "switches") T_Switches false;
   DSIG_TEXT (B "function_hash") T_FunctionHash false;
   DSIG_INT (B "bytes_sum") I_BytesSum false;
   DSIG_TEXT (B "md_index") T_MdIndex false;
   DSIG_TEXT (B "constants") T_Constants false;
   DSIG_INT (B "constants_count") I_ConstantsCount true;
   DSIG_TEXT (B "segment_rva") T_SegmentRva false;
   DSIG_TEXT (B "assembly_addrs") T_AssemblyAddrs false;
   DSIG_TEXT (B "kgh_hash") T_KghHash true;
   DSIG_TEXT (B "source_file") T_SourceFile false;
   DSIG_TEXT (B "userdata") T_Userdata false;
   DSIG_TEXT (B "microcode") T_Microcode false;
   DSIG_TEXT (B "clean_microcode") T_CleanMicrocode true;
   DSIG_TEXT (B "microcode_spp") T_MicrocodeSpp false;
   DSIG_REAL (B "export_time") R_ExportTime false].

Definition FindDesc (Name : text) : option ColumnDesc :=
  List.find (fun Desc => bool_decide (DescName Desc = Name)) kColumns.
Definition ColumnNames : list text := map DescName kColumns.

Definition KindOf (Column : text) : option ColumnKind := DescKind <$> FindDesc Column.
Definition IntColumnNamed (Column : text) (T : FunctionTable) : option IntColumn :=
  match FindDesc Column with Some (MkDesc _ (MemberInt m) _) => Some (Ints T m) | _ => None end.
Definition TextColumnNamed (Column : text) (T : FunctionTable) : option TextColumn :=
  match FindDesc Column with Some (MkDesc _ (MemberText m) _) => Some (Texts T m) | _ => None end.
Definition RealColumnNamed (Column : text) (T : FunctionTable) : option RealColumn :=
  match FindDesc Column with Some (MkDesc _ (MemberReal m) _) => Some (Reals T m) | _ => None end.

(** ** One row *)

Definition EmptyTable : FunctionTable :=
  MkFunctionTable (fun _ => MkIntColumn [] [] []) (fun _ => EmptyColumn) (fun _ => MkRealColumn [] [] [])
    [] [] [] [] [] [] [] [] [] ∅ ∅.

Definition with_columns (i : IntMember -> IntColumn) (t : TextMember -> TextColumn) (r : RealMember -> RealColumn)
    (T : FunctionTable) : FunctionTable :=
  MkFunctionTable i t r (MdSqlReal T) (MdSqlNull T) (AddressSqlReal T) (AddressSqlNull T)
    (SelectFieldsUtf8Bad T) (AnyColumnUtf8Bad T) (AddrIdOf T) (NameIdOf T) (MangledIdOf T) (RowByAddr T) (RowsByName T).

(** Assignment to a member. *)
Definition update {A C} `{EqDecision A} (m : A) (f : C -> C) (g : A -> C) : A -> C :=
  fun n => if decide (n = m) then f (g n) else g n.
Definition on_int (m : IntMember) (f : IntColumn -> IntColumn) (T : FunctionTable) : FunctionTable :=
  with_columns (update m f (Ints T)) (Texts T) (Reals T) T.
Definition on_text (m : TextMember) (f : TextColumn -> TextColumn) (T : FunctionTable) : FunctionTable :=
  with_columns (Ints T) (update m f (Texts T)) (Reals T) T.
Definition on_real (m : RealMember) (f : RealColumn -> RealColumn) (T : FunctionTable) : FunctionTable :=
  with_columns (Ints T) (Texts T) (update m f (Reals T)) T.

Definition push_int (v : Z) (Null_ NotInteger_ : bool) (c : IntColumn) : IntColumn :=
  MkIntColumn (IntValue c ++ [v]) (IntIsNull c ++ [Null_]) (NotInteger c ++ [NotInteger_]).
Definition push_real (v : dbl) (Null_ NotReal_ : bool) (c : RealColumn) : RealColumn :=
  MkRealColumn (RealValue c ++ [v]) (RealIsNull c ++ [Null_]) (NotReal c ++ [NotReal_]).

(** A TEXT value Python's strict decoder refuses. *)
Definition bad_text (Cell : Column) : bool :=
  bool_decide (Type_ Cell = SqlText) && negb (IsValidUtf8 (Text_ Cell)).

Definition number_problem (Schema : text) (Desc : ColumnDesc) (Label : text) : text :=
  Schema ++ B ".functions." ++ DescName Desc ++ B " " ++ Label ++ B " holds a number in a TEXT column".

(** The column, the flags and the problems after one cell. *)
Record RowState := MkRowState { RowTable : FunctionTable; SelectBad : bool; AnyBad : bool; RowProblems : list text }.

Definition ingest_cell (Schema Label : text) (Desc : ColumnDesc) (Cell : Column) (s : RowState) : RowState :=
  let T := RowTable s in
  let Any := AnyBad s || bad_text Cell in
  let Select := SelectBad s || (bad_text Cell && SelectField Desc) in
  match Target Desc with
  | MemberInt m =>
      if IsNullColumn Cell then MkRowState (on_int m (push_int 0 true false) T) (SelectBad s) (AnyBad s) (RowProblems s)
      else MkRowState (on_int m (push_int (Int_ Cell) false (negb (bool_decide (Type_ Cell = SqlInteger)))) T)
             Select Any (RowProblems s)
  | MemberText m =>
      match Type_ Cell with
      | SqlNull => MkRowState (on_text m AppendNull T) (SelectBad s) (AnyBad s) (RowProblems s)
      | SqlText => MkRowState (on_text m (Append (Text_ Cell) false) T) Select Any (RowProblems s)
      | SqlBlob => MkRowState (on_text m (Append (Text_ Cell) true) T) (SelectBad s) (AnyBad s) (RowProblems s)
      | SqlInteger | SqlReal =>
          MkRowState (on_text m (Append (Text_ Cell) false) T) (SelectBad s) (AnyBad s)
            (RowProblems s ++ [number_problem Schema Desc Label])
      end
  | MemberReal m =>
      if IsNullColumn Cell then MkRowState (on_real m (push_real d0 true false) T) (SelectBad s) (AnyBad s) (RowProblems s)
      else MkRowState (on_real m (push_real (Real_ Cell) false
             (negb (bool_decide (Type_ Cell = SqlReal) || bool_decide (Type_ Cell = SqlInteger)))) T)
             (SelectBad s) Any (RowProblems s)
  end.

(** The loop over the columns of [select f.*]; [None] is a column the schema
    does not define. *)
Fixpoint ingest_cells (Schema Label : text) (Map : list (option ColumnDesc)) (Cells : list Column) (s : RowState) : res RowState :=
  match Map with
  | [] => Ok s
  | Desc :: Map' =>
      match Cells with
      | [] => Throw column_past_end
      | Cell :: Cells' =>
          ingest_cells Schema Label Map' Cells'
            (match Desc with Some Desc => ingest_cell Schema Label Desc Cell s | None => s end)
      end
  end.

(** SQLite's own casts and the flags of the row. *)
Definition push_casts (Md AddressReal : Column) (s : RowState) : FunctionTable :=
  let T := RowTable s in
  let null c := bool_decide (Type_ c = SqlNull) in
  let value c := if null c then d0 else Real_ c in
  MkFunctionTable (Ints T) (Texts T) (Reals T)
    (MdSqlReal T ++ [value Md]) (MdSqlNull T ++ [null Md])
    (AddressSqlReal T ++ [value AddressReal]) (AddressSqlNull T ++ [null AddressReal])
    (SelectFieldsUtf8Bad T ++ [SelectBad s]) (AnyColumnUtf8Bad T ++ [AnyBad s])
    (AddrIdOf T) (NameIdOf T) (MangledIdOf T) (RowByAddr T) (RowsByName T).

(** The row a problem names. *)
Definition RowLabel (ColId : option nat) (Cells : list Column) (Ordinal : Z) : text :=
  match ColId with
  | Some n =>
      match Cells !! n with
      | Some c => if bool_decide (Type_ c = SqlInteger) then B "row with id " ++ dec_text (Int_ c)
                  else B "result row " ++ dec_text Ordinal
      | None => B "result row " ++ dec_text Ordinal
      end
  | None => B "result row " ++ dec_text Ordinal
  end.

Definition ingest_row (Schema : text) (Map : list (option ColumnDesc)) (ColId : option nat) (Row : Z)
    (Cells : list Column) (T : FunctionTable) (Problems : list text) : res (FunctionTable * list text) :=
  s ← ingest_cells Schema (RowLabel ColId Cells Row) Map Cells (MkRowState T false false Problems);
  Md ← column_at (length Map) Cells;
  AddressReal ← column_at (S (length Map)) Cells;
  Ok (push_casts Md AddressReal s, RowProblems s).

Fixpoint ingest_rows (Schema : text) (Map : list (option ColumnDesc)) (ColId : option nat) (Row : Z)
    (All : list (list Column)) (T : FunctionTable) (Problems : list text) : res (FunctionTable * list text) :=
  match All with
  | [] => Ok (T, Problems)
  | Cells :: All' =>
      '(T, Problems) ← ingest_row Schema Map ColId Row Cells T Problems;
      ingest_rows Schema Map ColId (w32 (Row + 1)) All' T Problems
  end.

(** ** Ids and lookups *)

(** [Ids.NameOpt(Column.Get(Index))]. *)
Definition cell_name (c : TextColumn) (Index : nat) (ids : Interners) : res (Interners * NameId) :=
  match Get Index c with
  | Some t => Ok (NameOpt t ids)
  | None => Throw index_past_end
  end.

Definition cell_addr (c : TextColumn) (Index : nat) (ids : Interners) : res (Interners * AddrId) :=
  match Get Index c with
  | Some t => Ok (AddrOpt t ids)
  | None => Throw index_past_end
  end.

Definition duplicate_address (Schema : text) (T : FunctionTable) (Index : nat) : text :=
  Schema ++ B ".functions: duplicate address " ++ default [] (View Index (Address T)).

Definition with_ids (a : list AddrId) (n m : list NameId) (r : gmap N Z) (q : gmap N (list Z)) (T : FunctionTable) : FunctionTable :=
  MkFunctionTable (Ints T) (Texts T) (Reals T) (MdSqlReal T) (MdSqlNull T) (AddressSqlReal T) (AddressSqlNull T)
    (SelectFieldsUtf8Bad T) (AnyColumnUtf8Bad T) a n m r q.

Definition index_row (Schema : text) (Index : nat) (T : FunctionTable) (ids : Interners) (Problems : list text)
    : res (FunctionTable * Interners * list text) :=
  '(ids, Ea) ← cell_addr (Address T) Index ids;
  '(ids, NameId) ← cell_name (Name_ T) Index ids;
  '(ids, Mangled) ← cell_name (MangledFunction T) Index ids;
  let Duplicate := bool_decide (Ea <> kNoneAddr) && bool_decide (is_Some (RowByAddr T !! Ea)) in
  let ByAddr := if bool_decide (Ea <> kNoneAddr) && negb Duplicate
                then <[Ea := Z.of_nat Index]> (RowByAddr T) else RowByAddr T in
  let ByName := if bool_decide (NameId <> kNoneName)
                then <[NameId := default [] (RowsByName T !! NameId) ++ [Z.of_nat Index]]> (RowsByName T)
                else RowsByName T in
  Ok (with_ids (AddrIdOf T ++ [Ea]) (NameIdOf T ++ [NameId]) (MangledIdOf T ++ [Mangled]) ByAddr ByName T, ids,
      Problems ++ (if Duplicate then [duplicate_address Schema T Index] else [])).

Fixpoint index_rows (Schema : text) (Todo Index : nat) (T : FunctionTable) (ids : Interners) (Problems : list text)
    : res (FunctionTable * Interners * list text) :=
  match Todo with
  | 0 => Ok (T, ids, Problems)
  | S Todo' =>
      '(T, ids, Problems) ← index_row Schema Index T ids Problems;
      index_rows Schema Todo' (S Index) T ids Problems
  end.

(** ** The export *)

Record ExportData := MkExport {
  Which : Side;
  Path : text;
  Functions : FunctionTable;
  Tables : SideTables;
  Problems : list text;
}.

Definition kRequired : list (text * text) :=
  [(B "program", B "check_callgraph D:1294-1296, same_processor_both_databases D:2957-2960");
   (B "instructions", B "H39 (H:888-934), H40 (H:936-979)");
   (B "bb_instructions", B "H40 (H:936-979)");
   (B "constants", B "H15 (H:417-434), H20 (H:546-564), H21 (H:567-585), find_related_constants D:3375-3387");
   (B "compilation_units", B "H12-H14 (H:325-412), find_related_compilation_unit D:3419-3433");
   (B "compilation_unit_functions", B "H12-H14 (H:325-412), find_related_compilation_unit D:3419-3433")].

Definition missing_tables (Schema : text) (T : SideTables) : list text :=
  flat_map (fun '(Name, ReadBy) =>
    if HasTable Name T then []
    else [Schema ++ B "." ++ Name ++ B ": table is missing (read by the default diff: " ++ ReadBy ++ B ")"]) kRequired.

Definition missing_columns (Columns : list text) : list text :=
  flat_map (fun Desc => if bool_decide (DescName Desc ∈ Columns) then [] else [DescName Desc]) kColumns.

Fixpoint join_comma (l : list text) : text :=
  match l with
  | [] => []
  | [t] => t
  | t :: l' => t ++ B ", " ++ join_comma l'
  end.

Definition functions_sql (Schema : text) : text :=
  B "select f.*, cast(f.md_index as real), cast(f.address as real) from " ++ Schema ++ B ".functions f order by f.id".

(** The descriptions of the columns of the result, the two casts apart. *)
Definition column_map (Stmt : Statement) : list (option ColumnDesc) :=
  map FindDesc (take (ColumnCount Stmt - 2) (ColumnNames_ Stmt)).

Definition read_functions (Schema : text) (Stmt : Statement) (ids : Interners) (Problems : list text)
    : res (FunctionTable * Interners * list text) :=
  '(T, Problems) ← ingest_rows Schema (column_map Stmt) (FindColumn (B "id") Stmt) 0 (RowsOf Stmt) EmptyTable Problems;
  index_rows Schema (Count T) 0 T ids Problems.

Definition IngestExport (Db : DiffDatabase) (Which_ : Side) (Path_ : text) (ids : Interners) : res (ExportData * Interners) :=
  Side_ ← LoadSideTables Db Which_;
  let Schema := SchemaName Which_ in
  let Problems := missing_tables Schema Side_ in
  let refused p := Ok (MkExport Which_ Path_ EmptyTable Side_ (Problems ++ [p]), ids) in
  match FindTable (B "functions") Side_ with
  | None => refused (Schema ++ B ".functions: table is missing")
  | Some Functions =>
      if negb (Present Functions) then refused (Schema ++ B ".functions: table is missing")
      else
        let Missing := join_comma (missing_columns (TableColumns Functions)) in
        if negb (bool_decide (Missing = [])) then refused (Schema ++ B ".functions: missing columns " ++ Missing)
        else
          Stmt ← Prepare Db (functions_sql Schema);
          '(T, ids, Problems) ← read_functions Schema Stmt ids Problems;
          Ok (MkExport Which_ Path_ T Side_ Problems, ids)
  end.
