(* ===== verification/IngestSpec.v ===== *)
(** * What ingest reads

    Every column of the schema holds, cell by cell, what SQLite answered for it;
    the id columns stand for the texts of the cells; the lookups find the first
    row of an address and all rows of a name in order. *)

From Stdlib Require Import ZArith Lia.
From stdpp Require Import base option numbers list gmap.
From S2P Require Import Prelude Dbl Interner Unmatched Consumer SideTables FunctionTable Ingest.

#[export] Instance Member_eq_dec : EqDecision Member.
Proof. solve_decision. Defined.

(** ** The schema names every member once *)

Lemma kColumns_names : NoDup ColumnNames.
Proof. apply (bool_decide_unpack _). by vm_compute. Qed.

Definition members : list Member := map Target kColumns.

Lemma members_nodup : NoDup members.
Proof. apply (bool_decide_unpack _). by vm_compute. Qed.

Lemma members_complete (k : Member) : k ∈ members.
Proof. destruct k as [[]|[]|[]]; apply (bool_decide_unpack _); by vm_compute. Qed.

Lemma FindDesc_Some (Name : text) (Desc : ColumnDesc) : FindDesc Name = Some Desc -> Desc ∈ kColumns /\ DescName Desc = Name.
Proof.
  unfold FindDesc. intros H. apply find_some in H as [H1 H2]. apply bool_decide_eq_true in H2.
  split; [by apply list_elem_of_In|done].
Qed.

Lemma nodup_map_inj {A C} (f : A -> C) (l : list A) (x y : A) : NoDup (map f l) -> x ∈ l -> y ∈ l -> f x = f y -> x = y.
Proof.
  intros Hn Hx Hy E. apply list_elem_of_lookup in Hx as [i Hi]. apply list_elem_of_lookup in Hy as [j Hj].
  assert (map f l !! i = Some (f x)) as Fi by (by rewrite list_lookup_fmap, Hi).
  assert (map f l !! j = Some (f y)) as Fj by (by rewrite list_lookup_fmap, Hj).
  rewrite E in Fi. pose proof (NoDup_lookup _ _ _ _ Hn Fi Fj) as ->. congruence.
Qed.

Lemma FindDesc_target (n m : text) (d e : ColumnDesc) :
  FindDesc n = Some d -> FindDesc m = Some e -> Target d = Target e -> n = m.
Proof.
  intros [H1 <-]%FindDesc_Some [H2 <-]%FindDesc_Some E. f_equal.
  apply (nodup_map_inj Target kColumns); [apply members_nodup|done..].
Qed.

Lemma FindDesc_known (d : ColumnDesc) : d ∈ kColumns -> FindDesc (DescName d) = Some d.
Proof.
  intros Hd. destruct (FindDesc (DescName d)) as [e|] eqn:E.
  - apply FindDesc_Some in E as [He E]. f_equal. apply (nodup_map_inj DescName kColumns); [apply kColumns_names|done..].
  - exfalso. unfold FindDesc in E. apply list_elem_of_In in Hd.
    pose proof (find_none _ _ E d Hd) as H. cbv beta in H. by rewrite bool_decide_true in H.
Qed.

(** ** What a column stores *)

Definition int_value (c : Column) : Z := if IsNullColumn c then 0%Z else Int_ c.
Definition not_integer (c : Column) : bool := negb (IsNullColumn c) && negb (bool_decide (Type_ c = SqlInteger)).
Definition real_value (c : Column) : dbl := if IsNullColumn c then d0 else Real_ c.
Definition not_real (c : Column) : bool :=
  negb (IsNullColumn c) && negb (bool_decide (Type_ c = SqlReal) || bool_decide (Type_ c = SqlInteger)).
Definition text_cell (c : Column) : option (text * bool) :=
  if IsNullColumn c then None else Some (Text_ c, bool_decide (Type_ c = SqlBlob)).

Definition stores (T : FunctionTable) (k : Member) (cs : list Column) : Prop :=
  match k with
  | MemberInt m => Ints T m = MkIntColumn (map int_value cs) (map IsNullColumn cs) (map not_integer cs)
  | MemberText m => holds (Texts T m) (map text_cell cs)
  | MemberReal m => Reals T m = MkRealColumn (map real_value cs) (map IsNullColumn cs) (map not_real cs)
  end.

(** SQLite limits a value to less than 2^31 bytes. *)
Definition small_column (c : Column) : Prop := (Z.of_nat (length (Text_ c)) < 2 ^ 32)%Z.

Lemma small_text_cell (c : Column) : small_column c -> small_cell (text_cell c).
Proof. unfold small_column, text_cell. by destruct (IsNullColumn c). Qed.

Lemma ingest_cell_stores (Schema Label : text) (Desc : ColumnDesc) (Cell : Column) (s : RowState) (cs : list Column) :
  small_column Cell -> stores (RowTable s) (Target Desc) cs ->
  stores (RowTable (ingest_cell Schema Label Desc Cell s)) (Target Desc) (cs ++ [Cell]).
Proof.
  intros Hsmall. apply small_text_cell in Hsmall. unfold ingest_cell, stores. destruct (Target Desc) as [m|m|m].
  - intros E. rewrite !map_app. cbn [map]. unfold int_value at 2, not_integer at 2.
    destruct (IsNullColumn Cell); cbn [RowTable on_int with_columns Ints]; unfold update; rewrite decide_True by done;
      by rewrite E.
  - intros E. rewrite map_app. cbn [map]. pose proof (append_holds (text_cell Cell) _ _ E Hsmall) as H.
    assert (text_cell Cell = match Type_ Cell with
      | SqlNull => None | SqlBlob => Some (Text_ Cell, true) | _ => Some (Text_ Cell, false) end) as Htc
      by (unfold text_cell, IsNullColumn; by destruct (Type_ Cell)).
    rewrite Htc in H |- *. destruct (Type_ Cell); cbn [RowTable on_text with_columns Texts]; unfold update;
      rewrite decide_True by done; exact H.
  - intros E. rewrite !map_app. cbn [map]. unfold real_value at 2, not_real at 2.
    destruct (IsNullColumn Cell); cbn [RowTable on_real with_columns Reals]; unfold update; rewrite decide_True by done;
      by rewrite E.
Qed.

Lemma ingest_cell_others (Schema Label : text) (Desc : ColumnDesc) (Cell : Column) (s : RowState) (k : Member) (cs : list Column) :
  k <> Target Desc -> stores (RowTable s) k cs -> stores (RowTable (ingest_cell Schema Label Desc Cell s)) k cs.
Proof.
  intros Hk. unfold ingest_cell, stores. destruct (Target Desc) as [m|m|m], k as [n|n|n]; try (by destruct (IsNullColumn Cell));
    try (by destruct (Type_ Cell)).
  - destruct (IsNullColumn Cell); cbn [RowTable on_int with_columns Ints]; unfold update; by rewrite decide_False by congruence.
  - destruct (Type_ Cell); cbn [RowTable on_text with_columns Texts]; unfold update; by rewrite decide_False by congruence.
  - destruct (IsNullColumn Cell); cbn [RowTable on_real with_columns Reals]; unfold update; by rewrite decide_False by congruence.
Qed.

(** The parts of the table a cell does not touch. *)
Definition same_rest (T T' : FunctionTable) : Prop :=
  exists i t r, T' = with_columns i t r T.

Lemma same_rest_refl (T : FunctionTable) : same_rest T T.
Proof. exists (Ints T), (Texts T), (Reals T). by destruct T. Qed.

Lemma same_rest_trans (T1 T2 T3 : FunctionTable) : same_rest T1 T2 -> same_rest T2 T3 -> same_rest T1 T3.
Proof. intros (i & t & r & ->) (i' & t' & r' & ->). by exists i', t', r'. Qed.

Lemma ingest_cell_rest (Schema Label : text) (Desc : ColumnDesc) (Cell : Column) (s : RowState) :
  same_rest (RowTable s) (RowTable (ingest_cell Schema Label Desc Cell s)).
Proof.
  unfold ingest_cell. destruct (Target Desc) as [m|m|m]; [destruct (IsNullColumn Cell)|destruct (Type_ Cell)|destruct (IsNullColumn Cell)];
    do 3 eexists; reflexivity.
Qed.

(** ** A row, and all rows *)

(** The cells of a row that go to a member. *)
Fixpoint cells_of (Map : list (option ColumnDesc)) (k : Member) (Cells : list Column) : list Column :=
  match Map, Cells with
  | Desc :: Map', Cell :: Cells' =>
      match Desc with
      | Some Desc => if decide (Target Desc = k) then [Cell] else []
      | None => []
      end ++ cells_of Map' k Cells'
  | _, _ => []
  end.

(** The row has TEXT that Python cannot decode, in a column of the schema. *)
Fixpoint row_bad (Map : list (option ColumnDesc)) (Cells : list Column) : bool :=
  match Map, Cells with
  | Desc :: Map', Cell :: Cells' => (bool_decide (is_Some Desc) && bad_text Cell) || row_bad Map' Cells'
  | _, _ => false
  end.

Lemma ingest_cell_bad (Schema Label : text) (Desc : ColumnDesc) (Cell : Column) (s : RowState) :
  AnyBad (ingest_cell Schema Label Desc Cell s) = AnyBad s || bad_text Cell.
Proof.
  unfold ingest_cell, bad_text, IsNullColumn. destruct (Target Desc), (Type_ Cell); cbn; by rewrite ?orb_false_r.
Qed.

Lemma ingest_cells_spec (Schema Label : text) (Map : list (option ColumnDesc)) : forall (Cells : list Column) (s : RowState),
  length Map <= length Cells -> Forall small_column Cells ->
  exists s', ingest_cells Schema Label Map Cells s = Ok s' /\ same_rest (RowTable s) (RowTable s') /\
    AnyBad s' = AnyBad s || row_bad Map Cells /\
    forall k cs, stores (RowTable s) k cs -> stores (RowTable s') k (cs ++ cells_of Map k Cells).
Proof.
  induction Map as [|Desc Map IH]; intros Cells s Hl Hsmall.
  { exists s. split; [done|]. split; [apply same_rest_refl|]. split; [by rewrite orb_false_r|].
    intros k cs. by rewrite app_nil_r. }
  destruct Cells as [|Cell Cells]; [simpl in Hl; lia|]. apply Forall_cons in Hsmall as [Hc Hsmall].
  cbn [ingest_cells]. set (s1 := match Desc with Some _ => _ | None => _ end).
  destruct (IH Cells s1 ltac:(simpl in Hl; lia) Hsmall) as (s' & E & Hrest & Hbad & Hst).
  exists s'. split; [done|]. split; [|split].
  - eapply same_rest_trans; [|done]. unfold s1. destruct Desc; [apply ingest_cell_rest|apply same_rest_refl].
  - rewrite Hbad. cbn [row_bad]. unfold s1. destruct Desc; cbn; [by rewrite ingest_cell_bad, orb_assoc|done].
  - intros k cs Hk. cbn [cells_of]. rewrite app_assoc. apply Hst. unfold s1. destruct Desc as [d|]; [|by rewrite app_nil_r].
    destruct (decide (Target d = k)) as [<-|Hne]; [by apply ingest_cell_stores|].
    rewrite app_nil_r. apply ingest_cell_others; congruence.
Qed.

(** The vectors besides the columns have an element per row, and no id is
    assigned yet. *)
Record rest_ok (T : FunctionTable) (n : nat) : Prop := {
  ro_lengths : Forall (fun l => l = n) [length (MdSqlReal T); length (MdSqlNull T); length (AddressSqlReal T);
    length (AddressSqlNull T); length (SelectFieldsUtf8Bad T); length (AnyColumnUtf8Bad T)];
  ro_ids : AddrIdOf T = [] /\ NameIdOf T = [] /\ MangledIdOf T = [] /\ RowByAddr T = ∅ /\ RowsByName T = ∅;
}.

Lemma push_casts_rest (Md AddressReal : Column) (s : RowState) (n : nat) :
  rest_ok (RowTable s) n -> rest_ok (push_casts Md AddressReal s) (S n).
Proof.
  intros [Hl Hi]. split; [|exact Hi]. cbn [push_casts MdSqlReal MdSqlNull AddressSqlReal AddressSqlNull
    SelectFieldsUtf8Bad AnyColumnUtf8Bad]. rewrite !length_app. cbn [length].
  repeat (apply Forall_cons in Hl as [? Hl]). repeat constructor; lia.
Qed.

Lemma ingest_rows_spec (Schema : text) (Map : list (option ColumnDesc)) (ColId : option nat) (All : list (list Column)) :
  Forall (fun Cells => length Cells = length Map + 2 /\ Forall small_column Cells) All ->
  forall n T Problems i, rest_ok T n ->
  exists T' Problems', ingest_rows Schema Map ColId i All T Problems = Ok (T', Problems') /\
    rest_ok T' (n + length All) /\
    AnyColumnUtf8Bad T' = AnyColumnUtf8Bad T ++ map (row_bad Map) All /\
    forall k cs, stores T k cs -> stores T' k (cs ++ mjoin (map (cells_of Map k) All)).
Proof.
  induction 1 as [|Cells All [Hl Hsmall] _ IH]; intros n T Problems i Hrest.
  { exists T, Problems. split; [done|]. cbn [length]. rewrite Nat.add_0_r, app_nil_r. split; [done|]. split; [done|]. intros k cs. cbn. by rewrite app_nil_r. }
  cbn [ingest_rows]. unfold ingest_row.
  destruct (ingest_cells_spec Schema (RowLabel ColId Cells i) Map Cells (MkRowState T false false Problems))
    as (s & -> & (ic & tc & rc & Hs) & Hbad & Hst); [lia|done|]. cbn [mbind res_bind].
  destruct (lookup_lt_is_Some_2 Cells (length Map)) as [Md HMd]; [lia|].
  destruct (lookup_lt_is_Some_2 Cells (S (length Map))) as [Ar HAr]; [lia|].
  unfold column_at. rewrite HMd, HAr. cbn [mbind res_bind].
  destruct (IH (S n) (push_casts Md Ar s) (RowProblems s) (w32 (i + 1))) as (T' & P' & E & Hr' & Hb' & Hst').
  { apply push_casts_rest. rewrite Hs. by destruct Hrest; split. }
  exists T', P'. split; [done|]. cbn [length]. rewrite Nat.add_succ_r. split; [done|]. split.
  { rewrite Hb'. cbn [push_casts AnyColumnUtf8Bad map]. rewrite Hs, Hbad, <- app_assoc. done. }
  intros k cs Hk. cbn [map]. change (mjoin (?x :: ?l)) with (x ++ mjoin l). rewrite app_assoc. apply Hst'.
  specialize (Hst k cs Hk). by destruct k.
Qed.

Lemma stores_empty (k : Member) : stores EmptyTable k [].
Proof. destruct k; [done|apply holds_empty|done]. Qed.

(** A column named by the schema gets exactly its cells. *)
Lemma cells_of_column (Names : list text) (d : ColumnDesc) : forall (j : nat) (Cells : list Column) (c : Column),
  NoDup Names -> d ∈ kColumns -> Names !! j = Some (DescName d) -> Cells !! j = Some c ->
  cells_of (map FindDesc Names) (Target d) Cells = [c].
Proof.
  assert (forall Names Cells, DescName d ∉ Names -> d ∈ kColumns -> cells_of (map FindDesc Names) (Target d) Cells = []) as Hnone.
  { intros L. induction L as [|m L IH]; intros Cells Hn Hd; [done|]. destruct Cells as [|c' Cells]; [done|].
    cbn [map cells_of]. apply not_elem_of_cons in Hn as [Hm Hn]. rewrite (IH Cells Hn Hd), app_nil_r.
    destruct (FindDesc m) as [e|] eqn:E; [|done]. rewrite decide_False; [done|]. intros Et. apply Hm. symmetry.
    eapply FindDesc_target; [exact E|by apply FindDesc_known|done]. }
  induction Names as [|m Names IH]; intros j Cells c Hnd Hd Hj Hc; [done|]. apply NoDup_cons in Hnd as [Hm Hnd].
  destruct Cells as [|c' Cells]; [done|]. cbn [map cells_of]. destruct j as [|j]; cbn in Hj, Hc.
  - injection Hj as ->. injection Hc as ->. rewrite FindDesc_known, decide_True by done. by rewrite Hnone.
  - rewrite (IH j Cells c Hnd Hd Hj Hc). destruct (FindDesc m) as [e|] eqn:E; [|done]. rewrite decide_False; [done|].
    intros Et. apply Hm. assert (m = DescName d) as -> by (eapply FindDesc_target; [exact E|by apply FindDesc_known|done]).
    by eapply list_elem_of_lookup_2.
Qed.

(** ** Ids and lookups *)

(** The rows where a list of ids has [x], in order. *)
Definition positions {A} `{EqDecision A} (x : A) (l : list A) : list nat :=
  filter (fun r => l !! r = Some x) (seq 0 (length l)).

Lemma positions_snoc {A} `{EqDecision A} (x y : A) (l : list A) :
  positions x (l ++ [y]) = positions x l ++ (if decide (y = x) then [length l] else []).
Proof.
  unfold positions. rewrite length_app, Nat.add_comm. cbn [length Nat.add]. rewrite seq_S, filter_app.
  f_equal.
  - assert (forall r, r ∈ seq 0 (length l) -> ((l ++ [y]) !! r = Some x <-> l !! r = Some x)) as H.
    { intros r Hr%elem_of_seq. by rewrite lookup_app_l by lia. }
    induction (seq 0 (length l)) as [|r s IH]; [done|]. rewrite !filter_cons.
    rewrite IH by (intros q Hq; apply H; by right). pose proof (H r ltac:(by left)).
    do 2 case_decide; tauto || done.
  - cbn [Nat.add]. rewrite filter_cons, filter_nil, list_lookup_middle by done.
    do 2 case_decide; congruence.
Qed.

Lemma list_find_snoc {A} `{EqDecision A} (x y : A) (l : list A) :
  fst <$> list_find (fun z => x = z) (l ++ [y]) =
  match fst <$> list_find (fun z => x = z) l with
  | Some i => Some i
  | None => if decide (x = y) then Some (length l) else None
  end.
Proof.
  induction l as [|z l IH]; cbn [app list_find]; [by case_decide|].
  destruct (decide (x = z)); [done|].
  destruct (list_find _ (l ++ [y])) as [[i u]|], (list_find _ l) as [[j v]|]; cbn in IH |- *; try case_decide;
    by simplify_eq.
Qed.

Record index_ok (ids : Interners) (T : FunctionTable) (n : nat) : Prop := {
  ix_addr_len : length (AddrIdOf T) = n;
  ix_name_len : length (NameIdOf T) = n;
  ix_mangled_len : length (MangledIdOf T) = n;
  ix_addr r Ea : AddrIdOf T !! r = Some Ea -> exists t, Get r (Address T) = Some t /\ AddrOrNone Ea ids = Ok t;
  ix_name r Nm : NameIdOf T !! r = Some Nm -> exists t, Get r (Name_ T) = Some t /\ NameOrNone Nm ids = Ok t;
  ix_mangled r Nm : MangledIdOf T !! r = Some Nm -> exists t, Get r (MangledFunction T) = Some t /\ NameOrNone Nm ids = Ok t;
  ix_row Ea : FindRow Ea T = if decide (Ea = kNoneAddr) then None
    else Z.of_nat <$> (fst <$> list_find (fun z => Ea = z) (AddrIdOf T));
  ix_rows Nm : RowsNamed Nm T = if decide (Nm = kNoneName) then [] else map Z.of_nat (positions Nm (NameIdOf T));
}.

Lemma lookup_snoc_inv {A} (l : list A) (x y : A) (r : nat) : (l ++ [x]) !! r = Some y ->
  l !! r = Some y \/ (r = length l /\ x = y).
Proof.
  rewrite lookup_app. destruct (l !! r) as [z|] eqn:E; [intros [= ->]; by left|]. intros H.
  apply lookup_ge_None in E. apply list_lookup_singleton_Some in H as [H ->]. right. split; [lia|done].
Qed.

Lemma cell_addr_spec (c : TextColumn) (i : nat) (ids : Interners) (t : option text) :
  Get i c = Some t -> wf_ids ids -> room ids 1 ->
  exists ids' Ea, cell_addr c i ids = Ok (ids', Ea) /\ wf_ids ids' /\ AddrOrNone Ea ids' = Ok t /\ grows ids ids' /\
    forall n, room ids (n + 1) -> room ids' n.
Proof.
  intros Hg Hwf [Hr1 Hr2]. unfold cell_addr. rewrite Hg. pose proof (AddrOpt_spec t ids Hwf Hr2) as H.
  destruct (AddrOpt t ids) as [ids' Ea]. destruct H as (H1 & H2 & H3 & H4 & H5).
  exists ids', Ea. split_and!; try done. intros n [Ha Hb]. split; [rewrite H5; lia|lia].
Qed.

Lemma cell_name_spec (c : TextColumn) (i : nat) (ids : Interners) (t : option text) :
  Get i c = Some t -> wf_ids ids -> room ids 1 ->
  exists ids' Nm, cell_name c i ids = Ok (ids', Nm) /\ wf_ids ids' /\ NameOrNone Nm ids' = Ok t /\ grows ids ids' /\
    forall n, room ids (n + 1) -> room ids' n.
Proof.
  intros Hg Hwf [Hr1 Hr2]. unfold cell_name. rewrite Hg. pose proof (NameOpt_spec t ids Hwf Hr1) as H.
  destruct (NameOpt t ids) as [ids' Nm]. destruct H as (H1 & H2 & H3 & H4 & H5).
  exists ids', Nm. split_and!; try done. intros n [Ha Hb]. split; [lia|rewrite H5; lia].
Qed.

Definition same_columns (T T' : FunctionTable) : Prop :=
  exists a n m r q, T' = with_ids a n m r q T.

Lemma room_le (ids : Interners) (n m : N) : room ids n -> (m <= n)%N -> room ids m.
Proof. intros [H1 H2] Hle. split; lia. Qed.

Lemma row_by_addr_snoc (R : gmap N Z) (l : list AddrId) (Ea : AddrId) (i : nat) : length l = i ->
  (forall K, R !! K = if decide (K = kNoneAddr) then None else Z.of_nat <$> (fst <$> list_find (fun z => K = z) l)) ->
  forall K, (if bool_decide (Ea <> kNoneAddr) && negb (bool_decide (Ea <> kNoneAddr) && bool_decide (is_Some (R !! Ea)))
             then <[Ea := Z.of_nat i]> R else R) !! K
    = if decide (K = kNoneAddr) then None
      else Z.of_nat <$> (match fst <$> list_find (fun z => K = z) l with
                         | Some i => Some i | None => if decide (K = Ea) then Some (length l) else None end).
Proof.
  intros Hl HR K. pose proof (HR K) as HK. destruct (decide (Ea = kNoneAddr)) as [HE|HE].
  { rewrite bool_decide_false by tauto. cbn [andb]. rewrite HK. destruct (decide (K = kNoneAddr)); [done|].
    destruct (fst <$> list_find _ l); [done|]. by rewrite decide_False by congruence. }
  rewrite bool_decide_true by done. cbn [andb]. pose proof (HR Ea) as HRE. rewrite decide_False in HRE by done.
  destruct (decide (K = kNoneAddr)) as [HN|HN].
  { destruct (negb _); [|done]. rewrite lookup_insert_ne by congruence. done. }
  destruct (decide (K = Ea)) as [->|Hne].
  - destruct (fst <$> list_find _ l) as [j|]; cbn in HRE |- *; rewrite HRE.
    + by rewrite bool_decide_true by done.
    + rewrite bool_decide_false by (by intros []). cbn [negb]. rewrite lookup_insert_eq. by subst i.
  - assert (Z.of_nat <$> (match fst <$> list_find (fun z => K = z) l with Some i => Some i | None => None end)
      = Z.of_nat <$> (fst <$> list_find (fun z => K = z) l)) as -> by (by destruct (fst <$> list_find _ l)).
    destruct (negb _); [rewrite lookup_insert_ne by congruence|]; done.
Qed.

Lemma rows_by_name_snoc (R : gmap N (list Z)) (p : N -> list nat) (Nm : NameId) (i : nat) :
  (forall K, default [] (R !! K) = if decide (K = kNoneName) then [] else map Z.of_nat (p K)) ->
  forall K, default [] ((if bool_decide (Nm <> kNoneName)
                then <[Nm := default [] (R !! Nm) ++ [Z.of_nat i]]> R else R) !! K)
    = if decide (K = kNoneName) then [] else map Z.of_nat (p K ++ (if decide (Nm = K) then [i] else [])).
Proof.
  intros HR K. case_bool_decide as HN.
  - rewrite lookup_insert. destruct (decide (Nm = K)) as [->|Hne].
    + cbn. rewrite HR. rewrite !decide_False by done. by rewrite map_app.
    + rewrite HR. by rewrite app_nil_r.
  - rewrite HR. destruct (decide (K = kNoneName)); [done|]. rewrite decide_False by congruence. by rewrite app_nil_r.
Qed.

Lemma index_row_spec (Schema : text) (i : nat) (T : FunctionTable) (ids : Interners) (Problems : list text) :
  wf_ids ids -> room ids 3 -> index_ok ids T i ->
  is_Some (Get i (Address T)) -> is_Some (Get i (Name_ T)) -> is_Some (Get i (MangledFunction T)) ->
  exists T' ids' Problems', index_row Schema i T ids Problems = Ok (T', ids', Problems') /\
    same_columns T T' /\ wf_ids ids' /\ grows ids ids' /\ index_ok ids' T' (S i) /\
    forall n, room ids (n + 3) -> room ids' n.
Proof.
  intros Hwf Hroom Hok [ta Ha] [tn Hn] [tm Hm]. unfold index_row.
  destruct (cell_addr_spec _ i ids ta Ha Hwf) as (ids1 & Ea & -> & Hwf1 & E1 & G1 & R1); [eapply room_le; [exact Hroom|lia]|].
  destruct (cell_name_spec _ i ids1 tn Hn Hwf1) as (ids2 & Nm & E2' & Hwf2 & E2 & G2 & R2);
    [apply R1; eapply room_le; [exact Hroom|lia]|].
  destruct (cell_name_spec _ i ids2 tm Hm Hwf2) as (ids3 & Mg & E3' & Hwf3 & E3 & G3 & R3);
    [apply R2, R1; eapply room_le; [exact Hroom|lia]|].
  cbn [mbind res_bind]. rewrite E2'. cbn [mbind res_bind]. rewrite E3'. cbn [mbind res_bind].
  assert (grows ids ids3) as G by (by etrans; [|etrans]).
  do 3 eexists. split; [reflexivity|]. split; [by do 5 eexists|]. split; [done|]. split; [done|]. split.
  2:{ intros n Hn3. apply R3, R2, R1. eapply room_le; [exact Hn3|lia]. }
  destruct Hok as [L1 L2 L3 A1 A2 A3 A4 A5].
  split; cbn [with_ids AddrIdOf NameIdOf MangledIdOf RowByAddr RowsByName]; rewrite ?length_app; cbn [length]; try lia.
  - intros r Ea' [H|[-> <-]]%lookup_snoc_inv.
    + destruct (A1 r Ea' H) as (t & Ht & Et). exists t. split; [done|]. by apply (grows_addr _ _ G).
    + exists ta. rewrite L1. split; [done|]. apply (grows_addr _ _ G3), (grows_addr _ _ G2), E1.
  - intros r Nm' [H|[-> <-]]%lookup_snoc_inv.
    + destruct (A2 r Nm' H) as (t & Ht & Et). exists t. split; [done|]. by apply (grows_name _ _ G).
    + exists tn. rewrite L2. split; [done|]. apply (grows_name _ _ G3), E2.
  - intros r Nm' [H|[-> <-]]%lookup_snoc_inv.
    + destruct (A3 r Nm' H) as (t & Ht & Et). exists t. split; [done|]. by apply (grows_name _ _ G).
    + exists tm. rewrite L3. done.
  - intros K. unfold FindRow in *. cbn [RowByAddr with_ids AddrIdOf]. rewrite list_find_snoc.
    by apply (row_by_addr_snoc (RowByAddr T) (AddrIdOf T) Ea i).
  - intros K. unfold RowsNamed in *. cbn [RowsByName with_ids NameIdOf]. rewrite positions_snoc, L2.
    by apply (rows_by_name_snoc (RowsByName T) (fun K => positions K (NameIdOf T)) Nm i).
Qed.

Lemma same_columns_trans (T1 T2 T3 : FunctionTable) : same_columns T1 T2 -> same_columns T2 T3 -> same_columns T1 T3.
Proof. intros (a & n & m & r & q & ->) (a' & n' & m' & r' & q' & ->). by exists a', n', m', r', q'. Qed.

(** The cells the ids are made of are there. *)
Definition has_cells (T : FunctionTable) (n : nat) : Prop :=
  forall r, r < n -> is_Some (Get r (Address T)) /\ is_Some (Get r (Name_ T)) /\ is_Some (Get r (MangledFunction T)).

Lemma index_rows_spec (Schema : text) (Todo : nat) : forall i T ids Problems,
  wf_ids ids -> room ids (N.of_nat (3 * Todo)) -> index_ok ids T i -> has_cells T (i + Todo) ->
  exists T' ids' Problems', index_rows Schema Todo i T ids Problems = Ok (T', ids', Problems') /\
    same_columns T T' /\ wf_ids ids' /\ grows ids ids' /\ index_ok ids' T' (i + Todo) /\
    forall n, room ids (n + N.of_nat (3 * Todo)) -> room ids' n.
Proof.
  induction Todo as [|Todo IH]; intros i T ids Problems Hwf Hroom Hok Hcells.
  { exists T, ids, Problems. rewrite Nat.add_0_r. split; [done|]. split.
    2:{ split_and!; try done. intros n Hn. eapply room_le; [exact Hn|lia]. }
    exists (AddrIdOf T), (NameIdOf T), (MangledIdOf T), (RowByAddr T), (RowsByName T). by destruct T. }
  destruct (Hcells i ltac:(lia)) as (C1 & C2 & C3). cbn [index_rows].
  destruct (index_row_spec Schema i T ids Problems Hwf) as (T1 & ids1 & P1 & -> & Hsame & Hwf1 & G1 & Hok1 & R1); try done.
  { eapply room_le; [exact Hroom|lia]. }
  cbn [mbind res_bind].
  destruct (IH (S i) T1 ids1 P1 Hwf1) as (T' & ids' & P' & E & Hsame' & Hwf' & G' & Hok' & R').
  { apply R1. eapply room_le; [exact Hroom|lia]. }
  { done. }
  { destruct Hsame as (a & n & m & r & q & ->). intros j Hj. apply Hcells. lia. }
  exists T', ids', P'. split; [done|]. split; [by eapply same_columns_trans|]. split; [done|].
  split; [by etrans|]. split; [by replace (i + S Todo) with (S i + Todo) by lia|].
  intros n Hn. apply R', R1. eapply room_le; [exact Hn|lia].
Qed.

(** ** The whole table *)

(** A result of [select f.*, cast(...), cast(...)]: distinct column names, all
    those of the schema among them, and rows of that width. *)
Record wf_statement (Stmt : Statement) : Prop := {
  ws_columns : exists Names c1 c2, ColumnNames_ Stmt = Names ++ [c1; c2] /\ NoDup Names /\
    Forall (fun d => DescName d ∈ Names) kColumns;
  ws_rows : Forall (fun Cells => length Cells = ColumnCount Stmt /\ Forall small_column Cells) (RowsOf Stmt);
}.

(** The cells of the [j]-th column. *)
Definition column_cells (j : nat) (Stmt : Statement) : list Column := omap (fun Cells => Cells !! j) (RowsOf Stmt).

Lemma join_cells (Names : list text) (d : ColumnDesc) (j : nat) (All : list (list Column)) :
  NoDup Names -> d ∈ kColumns -> Names !! j = Some (DescName d) ->
  Forall (fun Cells => length Names <= length Cells) All ->
  mjoin (map (cells_of (map FindDesc Names) (Target d)) All) = omap (fun Cells => Cells !! j) All.
Proof.
  intros Hn Hd Hj. induction 1 as [|Cells All Hl _ IH]; [done|].
  pose proof (lookup_lt_Some _ _ _ Hj). destruct (lookup_lt_is_Some_2 Cells j) as [c Hc]; [lia|].
  cbn [map omap list_omap]. change (mjoin (?x :: ?l)) with (x ++ mjoin l).
  rewrite (cells_of_column Names d j Cells c) by done. rewrite Hc. cbn [app]. by rewrite IH.
Qed.

Lemma omap_full {A} (All : list (list A)) (j : nat) : Forall (fun l => j < length l) All ->
  length (omap (fun l => l !! j) All) = length All.
Proof.
  induction 1 as [|l All Hl _ IH]; [done|]. cbn [omap list_omap]. destruct (lookup_lt_is_Some_2 l j Hl) as [x ->].
  cbn [length]. by rewrite IH.
Qed.

Lemma holds_Get (c : TextColumn) (cells : list (option (text * bool))) (r : nat) : holds c cells -> r < length cells ->
  is_Some (Get r c).
Proof.
  intros (H1 & H2 & H3 & H4 & H5) Hr. unfold Get, Null. rewrite H3, list_lookup_fmap.
  destruct (lookup_lt_is_Some_2 cells r Hr) as [x Hx]. rewrite Hx. cbn.
  case_bool_decide; [done|]. destruct (lookup_lt_is_Some_2 (Offset c) r) as [o Ho]; [lia|].
  destruct (lookup_lt_is_Some_2 (Length c) r) as [l Hlen]; [lia|]. unfold View. rewrite Ho, Hlen. cbn. by eexists.
Qed.

(** What [read_functions] gives back. *)
Record ingested (Stmt : Statement) (ids : Interners) (T : FunctionTable) : Prop := {
  in_count : Count T = length (RowsOf Stmt);
  in_index : index_ok ids T (length (RowsOf Stmt));
  in_bad : AnyColumnUtf8Bad T = map (row_bad (column_map Stmt)) (RowsOf Stmt);
  in_columns d j : d ∈ kColumns -> ColumnNames_ Stmt !! j = Some (DescName d) -> j < ColumnCount Stmt - 2 ->
    stores T (Target d) (column_cells j Stmt);
}.

Lemma statement_names (Stmt : Statement) (Names : list text) (c1 c2 : text) : ColumnNames_ Stmt = Names ++ [c1; c2] ->
  ColumnCount Stmt = length Names + 2 /\ column_map Stmt = map FindDesc Names /\
  forall j d, ColumnNames_ Stmt !! j = Some d -> j < ColumnCount Stmt - 2 -> Names !! j = Some d.
Proof.
  intros E. assert (ColumnCount Stmt = length Names + 2) as EC by (unfold ColumnCount; by rewrite E, length_app).
  split; [done|]. unfold column_map. rewrite EC, E, Nat.add_sub. split; [by rewrite take_app_length|].
  intros j d Hj Hlt. by rewrite lookup_app_l in Hj by done.
Qed.

Lemma column_of_member (Stmt : Statement) (k : Member) : wf_statement Stmt ->
  exists d j, d ∈ kColumns /\ Target d = k /\ ColumnNames_ Stmt !! j = Some (DescName d) /\ j < ColumnCount Stmt - 2.
Proof.
  intros [(Names & c1 & c2 & E & Hnd & Hall) _]. destruct (statement_names _ _ _ _ E) as (EC & _ & _).
  pose proof (members_complete k) as Hk. unfold members in Hk. apply list_elem_of_fmap in Hk as (d & -> & Hd).
  rewrite Forall_forall in Hall. pose proof (Hall d Hd) as Hn. apply list_elem_of_lookup in Hn as [j Hj].
  pose proof (lookup_lt_Some _ _ _ Hj). exists d, j. split_and!; [done|done| |lia].
  rewrite E, lookup_app_l by done. done.
Qed.

Lemma column_cells_length (Stmt : Statement) (j : nat) : wf_statement Stmt -> j < ColumnCount Stmt ->
  length (column_cells j Stmt) = length (RowsOf Stmt).
Proof.
  intros [_ Hrows] Hj. apply omap_full. eapply Forall_impl; [exact Hrows|]. cbn. intros Cells [-> _]. done.
Qed.

Lemma columns_have_rows (Stmt : Statement) (T : FunctionTable) : wf_statement Stmt ->
  (forall d j, d ∈ kColumns -> ColumnNames_ Stmt !! j = Some (DescName d) -> j < ColumnCount Stmt - 2 ->
    stores T (Target d) (column_cells j Stmt)) ->
  forall k, exists cs, stores T k cs /\ length cs = length (RowsOf Stmt).
Proof.
  intros Hws Hst k. destruct (column_of_member Stmt k Hws) as (d & j & Hd & <- & Hj & Hlt).
  exists (column_cells j Stmt). split; [by apply Hst|]. apply column_cells_length; [done|lia].
Qed.

Lemma text_column_ready (T : FunctionTable) (m : TextMember) (cs : list Column) : stores T (MemberText m) cs ->
  ColumnSize (Texts T m) = length cs /\ forall r, r < length cs -> is_Some (Get r (Texts T m)).
Proof.
  intros H. split.
  - cbn in H. destruct H as (_ & _ & H & _). unfold ColumnSize. by rewrite H, !length_fmap.
  - intros r Hr. eapply holds_Get; [exact H|by rewrite length_fmap].
Qed.

(** Reading the rows of the functions table succeeds, and the table holds what
    SQLite answered. *)
Lemma read_functions_spec (Schema : text) (Stmt : Statement) (ids : Interners) (Problems : list text) :
  wf_statement Stmt -> wf_ids ids -> room ids (N.of_nat (3 * length (RowsOf Stmt))) ->
  exists T ids' Problems', read_functions Schema Stmt ids Problems = Ok (T, ids', Problems') /\
    wf_ids ids' /\ grows ids ids' /\ ingested Stmt ids' T /\
    forall n, room ids (n + N.of_nat (3 * length (RowsOf Stmt))) -> room ids' n.
Proof.
  intros Hws Hwf Hroom. pose proof Hws as [(Names & c1 & c2 & E & Hnd & Hall) Hrows].
  destruct (statement_names _ _ _ _ E) as (EC & EM & Hnames). unfold read_functions.
  destruct (ingest_rows_spec Schema (column_map Stmt) (FindColumn (B "id") Stmt) (RowsOf Stmt)) with
    (n := 0) (T := EmptyTable) (Problems := Problems) (i := 0%Z) as (T1 & P1 & -> & Hrest & Hbad & Hst).
  { rewrite EM, length_map, <- EC. exact Hrows. }
  { split; [by repeat constructor|done]. }
  cbn [mbind res_bind].
  assert (forall d j, d ∈ kColumns -> ColumnNames_ Stmt !! j = Some (DescName d) -> j < ColumnCount Stmt - 2 ->
    stores T1 (Target d) (column_cells j Stmt)) as Hcols.
  { intros d j Hd Hj Hlt. pose proof (Hnames j _ Hj Hlt) as Hj'. specialize (Hst (Target d) [] (stores_empty _)).
    rewrite EM, (join_cells Names d j) in Hst; [exact Hst|done|done|done|].
    eapply Forall_impl; [exact Hrows|]. cbn. intros Cells [-> _]. lia. }
  pose proof (columns_have_rows Stmt T1 Hws Hcols) as Hlen.
  assert (Count T1 = length (RowsOf Stmt)) as EN.
  { destruct (Hlen (MemberInt I_Id)) as (cs & H & <-). unfold Count, IntSize, Id. cbn in H. rewrite H. cbn. apply length_map. }
  destruct (index_rows_spec Schema (Count T1) 0 T1 ids P1) as (T & ids' & P' & E' & (a & n & m & r & q & ->) & Hwf' & HG & Hok & HR); try done.
  { by rewrite EN. }
  { destruct Hrest as [_ (A1 & A2 & A3 & A4 & A5)]. unfold FindRow, RowsNamed. split; rewrite ?A1, ?A2, ?A3; try done.
    - intros Ea. unfold FindRow. rewrite A4, lookup_empty. by case_decide.
    - intros Nm. unfold RowsNamed. rewrite A5, lookup_empty. by case_decide. }
  { intros i Hi. cbn [Nat.add] in Hi. rewrite EN in Hi.
    assert (forall k, is_Some (Get i (Texts T1 k))) as Hget; [|split_and!; apply Hget].
    intros k. destruct (Hlen (MemberText k)) as (cs & H & Hl). apply (text_column_ready T1 k cs H). by rewrite Hl. }
  rewrite E'. exists (with_ids a n m r q T1), ids', P'. split; [done|]. split; [done|]. split; [done|].
  rewrite EN in Hok, HR. split; [|exact HR]. split; [exact EN|exact Hok|exact Hbad|exact Hcols].
Qed.

(** ** The export *)

(** The functions table is there with all its columns. *)
Definition complete (Side_ : SideTables) : bool :=
  match FindTable (B "functions") Side_ with
  | Some Functions => Present Functions && bool_decide (missing_columns (TableColumns Functions) = [])
  | None => false
  end.

Lemma join_comma_nil (l : list text) : Forall (fun t => t <> []) l -> join_comma l = [] -> l = [].
Proof.
  intros H. destruct H as [|t l Ht _]; [done|]. cbn. destruct l; [by intros ->|]. by destruct t.
Qed.

Lemma missing_columns_nonempty (Columns : list text) : Forall (fun t => t <> []) (missing_columns Columns).
Proof.
  apply Forall_forall. intros t Ht. unfold missing_columns in Ht. apply list_elem_of_In, in_flat_map in Ht as (d & Hd & Ht).
  case_bool_decide; [done|]. destruct Ht as [<-|[]].
  assert (Forall (fun d => DescName d <> []) kColumns) as H0 by (apply (bool_decide_unpack _); by vm_compute).
  rewrite Forall_forall in H0. by apply H0, list_elem_of_In.
Qed.

Lemma IngestExport_complete (Db : DiffDatabase) (Which_ : Side) (Path_ : text) (ids : Interners) (Side_ : SideTables) (Stmt : Statement) :
  LoadSideTables Db Which_ = Ok Side_ -> wf_ids ids ->
  complete Side_ = true -> Prepare Db (functions_sql (SchemaName Which_)) = Ok Stmt -> wf_statement Stmt ->
  room ids (N.of_nat (3 * length (RowsOf Stmt))) ->
  exists E ids', IngestExport Db Which_ Path_ ids = Ok (E, ids') /\ wf_ids ids' /\ grows ids ids' /\
    ingested Stmt ids' (Functions E) /\ forall n, room ids (n + N.of_nat (3 * length (RowsOf Stmt))) -> room ids' n.
Proof.
  intros HS Hwf Hc HP Hws Hroom. unfold complete in Hc. unfold IngestExport. rewrite HS. cbn [mbind res_bind].
  destruct (FindTable _ Side_) as [F|]; [|done].
  destruct (Present F); cbn [negb andb] in *; [|done]. apply bool_decide_eq_true in Hc. rewrite Hc. cbn [join_comma].
  rewrite bool_decide_true by done. cbn [negb]. rewrite HP. cbn [mbind res_bind].
  destruct (read_functions_spec (SchemaName Which_) Stmt ids (missing_tables (SchemaName Which_) Side_) Hws Hwf Hroom)
    as (T & ids' & P' & -> & H).
  cbn [mbind res_bind]. do 2 eexists. split; [reflexivity|]. done.
Qed.

(** C24: [IngestExport] never raises for a table or column that is missing: it
    gives back an empty table and names a problem. When the schema is complete
    every column of the table holds, cell by cell, what SQLite answered, the
    flag of a row tells whether a cell of it cannot be decoded, every id stands
    for the text of its cell, [FindRow] finds the first row with an address, and
    [RowsNamed] lists the rows with a name in order. *)
Theorem IngestExport_reads_the_table (Db : DiffDatabase) (Which_ : Side) (Path_ : text) (ids : Interners) (Side_ : SideTables) :
  LoadSideTables Db Which_ = Ok Side_ -> wf_ids ids ->
  (complete Side_ = false ->
     exists E, IngestExport Db Which_ Path_ ids = Ok (E, ids) /\ Functions E = EmptyTable /\ Problems E <> []) /\
  forall Stmt, complete Side_ = true -> Prepare Db (functions_sql (SchemaName Which_)) = Ok Stmt -> wf_statement Stmt ->
    room ids (N.of_nat (3 * length (RowsOf Stmt))) ->
    exists E ids', IngestExport Db Which_ Path_ ids = Ok (E, ids') /\ wf_ids ids' /\ grows ids ids' /\
      ingested Stmt ids' (Functions E).
Proof.
  intros HS Hwf. split.
  - unfold IngestExport, complete. rewrite HS. cbn [mbind res_bind]. intros Hc. assert (forall p q : list text, p ++ q = [] -> q = []) as Hnil by (by intros [|] [|]).
    destruct (FindTable _ Side_) as [F|]; [|eexists; split; [done|]; split; [done|]; by intros H%Hnil].
    destruct (Present F); cbn [negb andb] in *; [|eexists; split; [done|]; split; [done|]; by intros H%Hnil].
    apply bool_decide_eq_false in Hc. rewrite (bool_decide_false (join_comma _ = [])); cbn [negb].
    + eexists. split; [done|]. split; [done|]. by intros H%Hnil.
    + intros H. apply Hc, join_comma_nil; [apply missing_columns_nonempty|done].
  - intros Stmt Hc HP Hws Hroom.
    destruct (IngestExport_complete Db Which_ Path_ ids Side_ Stmt HS Hwf Hc HP Hws Hroom) as (E & ids' & HE & H1 & H2 & H3 & _).
    by exists E, ids'.
Qed.
