(* ===== verification/PreparedText.v ===== *)
(** * [quick_ratio] over prepared line multisets (src/src/diff/Ratio.cpp)

    Each distinct line of a column gets an id shared by both sides; a row keeps
    the sorted runs of its line ids. [QuickPrepared] merges two runs,
    [RatioEngine::QuickRatio] counts on the texts themselves. *)

From Stdlib Require Import ZArith Lia.
From stdpp Require Import base option numbers list gmap sorting.
From S2P Require Import Prelude Dbl Interner Consumer FunctionTable.

Inductive CellState := StateNull | StateEmptyStr | StateBlob | StateText.

#[export] Instance CellState_eq_dec : EqDecision CellState.
Proof. solve_decision. Defined.

Record PreparedText := MkPrepared {
  PState : CellState;
  PBegin : Z;
  PCount : Z;
  PPieces : Z;
}.

Definition EmptyPrepared (s : CellState) : PreparedText := MkPrepared s 0 0 0.

Abbreviation run := (Z * Z)%type.

Record PreparedColumn := MkPreparedColumn {
  PRows : sided (list PreparedText);
  PRuns : sided (list run);
  LineIds : gmap text Z;
}.

Definition EmptyPreparedColumn : PreparedColumn :=
  MkPreparedColumn (MkSided [] []) (MkSided [] []) ∅.

(** [str.split("\n")]: the piece before the next newline, then the rest. *)
Fixpoint pieces_from (Piece Text : text) : list text :=
  match Text with
  | [] => [Piece]
  | Ch :: t => if bool_decide (Ch = x0a) then Piece :: pieces_from [] t else pieces_from (Piece ++ [Ch]) t
  end.
Definition SplitPieces (Text : text) : list text := pieces_from [] Text.

(** [LineIds.emplace]: a new line gets the next id. *)
Definition line_id (Ids : gmap text Z) (Piece : text) : gmap text Z * Z :=
  match Ids !! Piece with
  | Some i => (Ids, i)
  | None => let i := w32 (Z.of_nat (size Ids)) in (<[Piece := i]> Ids, i)
  end.
Fixpoint line_ids (Ids : gmap text Z) (Pieces : list text) : gmap text Z * list Z :=
  match Pieces with
  | [] => (Ids, [])
  | Piece :: Pieces' =>
      let '(Ids, i) := line_id Ids Piece in
      let '(Ids, l) := line_ids Ids Pieces' in
      (Ids, i :: l)
  end.

(** The runs of equal ids of a sorted list. *)
Fixpoint runs_of (Ids : list Z) : list run :=
  match Ids with
  | [] => []
  | i :: Ids' =>
      match runs_of Ids' with
      | (j, n) :: r => if (i =? j)%Z then (j, w32 (n + 1)) :: r else (i, 1%Z) :: (j, n) :: r
      | [] => [(i, 1%Z)]
      end
  end.

(** One row: the line ids and runs so far, and the row's entry. *)
Definition prepare_row (Column : TextColumn) (Row : nat) (Ids : gmap text Z) (Runs : list run)
    : res (gmap text Z * list run * PreparedText) :=
  Cell ← CellOf Column Row;
  if CellNull Cell then Ok (Ids, Runs, EmptyPrepared StateNull)
  else if CellBlob Cell then Ok (Ids, Runs, EmptyPrepared StateBlob)
  else if bool_decide (CellBytes Cell = []) then Ok (Ids, Runs, EmptyPrepared StateEmptyStr)
  else
    let Pieces := SplitPieces (CellBytes Cell) in
    let '(Ids, l) := line_ids Ids Pieces in
    let New := runs_of (merge_sort Z.le l) in
    let Begin := w32 (Z.of_nat (length Runs)) in
    let Runs := Runs ++ New in
    Ok (Ids, Runs, MkPrepared StateText Begin (w32 (w32 (Z.of_nat (length Runs)) - Begin))
                     (Z.of_nat (length Pieces))).

Fixpoint prepare_rows (Column : TextColumn) (n Row : nat) (Ids : gmap text Z) (Runs : list run)
    : res (gmap text Z * list run * list PreparedText) :=
  match n with
  | O => Ok (Ids, Runs, [])
  | S n' =>
      '(Ids, Runs, Out) ← prepare_row Column Row Ids Runs;
      '(Ids, Runs, Rest) ← prepare_rows Column n' (S Row) Ids Runs;
      Ok (Ids, Runs, Out :: Rest)
  end.

Definition PrepareColumn (Columns : sided TextColumn) : res PreparedColumn :=
  '(Ids, MainRuns, MainRows) ← prepare_rows (main_of Columns) (ColumnSize (main_of Columns)) 0 ∅ [];
  '(Ids, DiffRuns, DiffRows) ← prepare_rows (diff_of Columns) (ColumnSize (diff_of Columns)) 0 Ids [];
  Ok (MkPreparedColumn (MkSided MainRows DiffRows) (MkSided MainRuns DiffRuns) Ids).

(** The merge of two runs; one of the two cursors moves in every step. *)
Fixpoint merge_matches (fuel : nat) (RunA RunB : list run) (Matches : Z) : Z :=
  match fuel, RunA, RunB with
  | S fuel', (i, n) :: RunA', (j, m) :: RunB' =>
      if (i <? j)%Z then merge_matches fuel' RunA' RunB Matches
      else if (j <? i)%Z then merge_matches fuel' RunA RunB' Matches
      else merge_matches fuel' RunA' RunB' (w64 (Matches + Z.min n m))
  | _, _, _ => Matches
  end.

(** [2.0 * matches / length]. *)
Definition match_ratio (Matches Length : Z) : dbl :=
  ddiv (dmul (d_of_Z 2) (d_of_Z Matches)) (d_of_Z Length).

Definition row_runs (c : PreparedColumn) (s : Side) (p : PreparedText) : list run :=
  take (Z.to_nat (PCount p)) (drop (Z.to_nat (PBegin p)) (at_side s (PRuns c))).

Definition blob_error (Name : text) : exn :=
  DiaphoraWouldRaise (B "D:163 quick_ratio")
    (B "TypeError: a bytes-like object is required, not 'str' (BLOB in " ++ Name ++ B ")").

Definition QuickPrepared (c : PreparedColumn) (SideA : Side) (RowA : nat) (SideB : Side) (RowB : nat)
    (Name : text) : res dbl :=
  A ← at_row (at_side SideA (PRows c)) RowA;
  C ← at_row (at_side SideB (PRows c)) RowB;
  if bool_decide (PState A = StateNull) || bool_decide (PState C = StateNull) then Ok d0
  else if bool_decide (PState A = StateEmptyStr) || bool_decide (PState C = StateEmptyStr) then Ok d0
  else if bool_decide (PState A = StateBlob) || bool_decide (PState C = StateBlob) then
    Throw (blob_error Name)
  else
    let RunA := row_runs c SideA A in
    let RunB := row_runs c SideB C in
    Ok (match_ratio (merge_matches (length RunA + length RunB) RunA RunB 0) (w64 (PPieces A + PPieces C))).

(** ** [RatioEngine::QuickRatio] on two texts *)

Fixpoint count_available (Available : gmap text Z) (Pieces : list text) : gmap text Z :=
  match Pieces with
  | [] => Available
  | p :: Pieces' => count_available (<[p := (default 0 (Available !! p) + 1)%Z]> Available) Pieces'
  end.

Fixpoint take_available (Available : gmap text Z) (Pieces : list text) (Matches : Z) : Z :=
  match Pieces with
  | [] => Matches
  | p :: Pieces' =>
      match Available !! p with
      | Some n =>
          if (0 <? n)%Z then take_available (<[p := (n - 1)%Z]> Available) Pieces' (w64 (Matches + 1))
          else take_available Available Pieces' Matches
      | None => take_available Available Pieces' Matches
      end
  end.

Definition QuickRatio (A C : option text) : dbl :=
  match A, C with
  | Some ((_ :: _) as a), Some ((_ :: _) as c) =>
      let PiecesA := SplitPieces a in
      let PiecesB := SplitPieces c in
      match_ratio (take_available (count_available ∅ PiecesB) PiecesA 0)
        (Z.of_nat (length PiecesA + length PiecesB))
  | _, _ => d0
  end.

Example quick_ratio_lines :
  QuickRatio (Some (B "a" ++ x0a :: B "b")) (Some (B "b" ++ x0a :: B "c" ++ [x0a])) = dlit 2 5.
Proof. vm_compute. reflexivity. Qed.
