(* ===== verification/PreparedTextSpec.v ===== *)
(** * The prepared quick ratio is the quick ratio

    (src/src/diff/Ratio.cpp) Both ways to count common lines give the size of
    the intersection of the two multisets of lines; [PrepareColumn] therefore
    changes no ratio. The ratios lie between 0 and 1. *)

From Stdlib Require Import ZArith Lia SpecFloat.
From stdpp Require Import base option numbers list gmap gmultiset sorting.
From S2P Require Import Prelude Dbl RoundNearest DblRound Interner Consumer FunctionTable PreparedText.

(** ** Common elements of two lists, with multiplicity *)

(** Multisets are equal when the multiplicities are. *)
Ltac by_multiplicity :=
  apply gmultiset_eq; intros ?;
  rewrite ?multiplicity_intersection, ?multiplicity_disj_union, ?multiplicity_intersection,
    ?multiplicity_disj_union, ?multiplicity_empty; try lia.

Section Common.
Context {A : Type} `{Countable A}.
Implicit Types a b : list A.

Definition common a b : nat := size (list_to_set_disj a ∩ list_to_set_disj b : gmultiset A).

Lemma common_nil b : common [] b = 0.
Proof. unfold common. cbn [list_to_set_disj]. by replace (∅ ∩ list_to_set_disj b) with (∅ : gmultiset A) by multiset_solver. Qed.

Lemma common_perm a a' b b' : a ≡ₚ a' -> b ≡ₚ b' -> common a b = common a' b'.
Proof. intros Ha Hb. unfold common. by rewrite Ha, Hb. Qed.

Lemma meet_both (x : A) (X Y : gmultiset A) :
  ({[+ x +]} ⊎ X) ∩ ({[+ x +]} ⊎ Y) = {[+ x +]} ⊎ (X ∩ Y).
Proof. by_multiplicity. Qed.

Lemma meet_absent (x : A) (X Y : gmultiset A) : x ∉ Y -> ({[+ x +]} ⊎ X) ∩ Y = X ∩ Y.
Proof.
  intros Hx. apply gmultiset_eq. intros y. rewrite !multiplicity_intersection, multiplicity_disj_union.
  destruct (decide (y = x)) as [->|Hne]; [|by rewrite multiplicity_singleton_ne].
  rewrite elem_of_multiplicity in Hx. lia.
Qed.

Lemma common_cons_both x a b : common (x :: a) (x :: b) = S (common a b).
Proof.
  unfold common. cbn [list_to_set_disj]. rewrite meet_both, gmultiset_size_disj_union, gmultiset_size_singleton. lia.
Qed.

Lemma common_cons_absent x a b : x ∉ b -> common (x :: a) b = common a b.
Proof.
  intros Hx. unfold common. cbn [list_to_set_disj]. rewrite meet_absent; [done|]. by rewrite elem_of_list_to_set_disj.
Qed.

Lemma common_le_l a b : common a b <= length a.
Proof.
  revert b. induction a as [|x a IH]; intros b; [by rewrite common_nil|].
  destruct (decide (x ∈ b)) as [Hx|Hx].
  - apply elem_of_Permutation in Hx as (b' & Hb). rewrite (common_perm _ (x :: a) _ (x :: b')) by done.
    rewrite common_cons_both. specialize (IH b'). simpl. lia.
  - rewrite common_cons_absent by done. specialize (IH b). simpl. lia.
Qed.

Lemma common_comm a b : common a b = common b a.
Proof. unfold common. f_equal. by_multiplicity. Qed.
End Common.

(** An injective renaming of the elements changes no count. *)
Lemma common_map {A C} `{Countable A, Countable C} (f : A -> C) (a : list A) : forall b,
  (forall x y, x ∈ a -> y ∈ b -> f x = f y -> x = y) ->
  common (map f a) (map f b) = common a b.
Proof.
  induction a as [|x a IH]; intros b Hinj; cbn [map]; [by rewrite !common_nil|].
  assert (forall b', (forall y, y ∈ b' -> y ∈ b) -> common (map f a) (map f b') = common a b') as IH'.
  { intros b' Hb. apply IH. intros u v Hu Hv. apply Hinj; [by right|by apply Hb]. }
  destruct (decide (x ∈ b)) as [Hx|Hx].
  - apply elem_of_Permutation in Hx as (b' & Hb).
    rewrite (common_perm _ (map f (x :: a)) _ (map f (x :: b'))); [|done|by rewrite Hb].
    cbn [map]. rewrite common_cons_both, IH'.
    + rewrite (common_perm (x :: a) (x :: a) b (x :: b')) by done. by rewrite common_cons_both.
    + intros y Hy. rewrite Hb. by right.
  - rewrite !common_cons_absent; [by apply IH'|done|].
    intros Hin. apply list_elem_of_fmap in Hin as (y & E & Hy). rewrite (Hinj x y) in Hx; [done| |done|done]. by left.
Qed.

(** ** Counting on the texts *)

Lemma count_available_spec (l : list text) : forall (av : gmap text Z) (X : gmultiset text),
  (forall p, default 0%Z (av !! p) = Z.of_nat (multiplicity p X)) ->
  forall p, default 0%Z (count_available av l !! p) = Z.of_nat (multiplicity p (list_to_set_disj l ⊎ X)).
Proof.
  induction l as [|q l IH]; intros av X HX p; cbn [count_available list_to_set_disj].
  { rewrite HX. do 2 f_equal. multiset_solver. }
  rewrite (IH _ ({[+ q +]} ⊎ X)).
  - do 2 f_equal. multiset_solver.
  - intros r. rewrite multiplicity_disj_union. destruct (decide (q = r)) as [->|Hne].
    + rewrite lookup_insert_eq, multiplicity_singleton_eq. simpl. rewrite HX. lia.
    + rewrite lookup_insert_ne, multiplicity_singleton_ne by done. apply HX.
Qed.

Lemma take_available_spec (l : list text) : forall (av : gmap text Z) (X : gmultiset text) (M : Z),
  (forall p, default 0%Z (av !! p) = Z.of_nat (multiplicity p X)) ->
  (0 <= M)%Z -> (M + Z.of_nat (length l) < 2 ^ 64)%Z ->
  take_available av l M = (M + Z.of_nat (size (list_to_set_disj l ∩ X)))%Z.
Proof.
  induction l as [|p l IH]; intros av X M HX HM Hlt; cbn [take_available list_to_set_disj length] in *.
  { replace (∅ ∩ X) with (∅ : gmultiset text) by multiset_solver. rewrite gmultiset_size_empty. lia. }
  specialize (HX p) as Hp. destruct (decide (p ∈ X)) as [Hin|Hin].
  - destruct (av !! p) as [n|]; simpl in Hp; [|exfalso; rewrite elem_of_multiplicity in Hin; lia].
    pose proof (proj1 (elem_of_multiplicity _ _) Hin) as Hm. destruct (Z.ltb_spec 0 n); [|lia].
    apply gmultiset_disj_union_difference' in Hin. set (X' := X ∖ {[+ p +]}) in *. clearbody X'. subst X.
    rewrite w64_small by lia. rewrite (IH _ X'); [|intros q|lia|lia].
    + rewrite meet_both, gmultiset_size_disj_union, gmultiset_size_singleton. lia.
    + specialize (HX q). rewrite multiplicity_disj_union in HX, Hp. destruct (decide (p = q)) as [->|Hne].
      * rewrite lookup_insert_eq. simpl. rewrite multiplicity_singleton_eq in Hp. lia.
      * rewrite lookup_insert_ne by done. rewrite multiplicity_singleton_ne in HX by done. exact HX.
  - assert (multiplicity p X = 0) as H0 by (rewrite elem_of_multiplicity in Hin; lia).
    rewrite meet_absent by done. destruct (av !! p) as [n|]; simpl in Hp.
    + destruct (Z.ltb_spec 0 n); [lia|]. apply IH; [done|done|lia].
    + apply IH; [done|done|lia].
Qed.

Lemma common_available (a c : list text) : (Z.of_nat (length a) < 2 ^ 64)%Z ->
  take_available (count_available ∅ c) a 0 = Z.of_nat (common a c).
Proof.
  intros Ha. rewrite (take_available_spec a _ (list_to_set_disj c)); [done| |lia|lia].
  intros p. rewrite (count_available_spec c ∅ ∅).
  - do 2 f_equal. multiset_solver.
  - intros q. by rewrite lookup_empty, multiplicity_empty.
Qed.

(** ** Runs *)

Fixpoint expand (r : list run) : list Z :=
  match r with
  | [] => []
  | (i, n) :: r' => replicate (Z.to_nat n) i ++ expand r'
  end.

(** Strictly ascending ids with positive 32-bit counts. *)
Definition run_ok (x : run) : Prop := (0 < x.2 < 2 ^ 32)%Z.
Definition runs_sorted (r : list run) : Prop := StronglySorted (fun x y : run => (x.1 < y.1)%Z) r /\ Forall run_ok r.

Lemma expand_in (r : list run) (i : Z) : i ∈ expand r -> i ∈ map fst r.
Proof.
  induction r as [|[j n] r IH]; cbn [expand map fst]; [done|]. rewrite elem_of_app. intros [H|H].
  - apply elem_of_replicate in H as [-> _]. by left.
  - right. by apply IH.
Qed.

Lemma run_absent (i n : Z) (r : list run) (j : Z) :
  runs_sorted ((i, n) :: r) -> (j <= i)%Z -> j ∉ expand r.
Proof.
  intros [Hs _] Hj Hin. apply StronglySorted_inv in Hs as [_ Hf].
  apply expand_in, list_elem_of_fmap in Hin as (x & -> & Hx).
  rewrite Forall_forall in Hf. specialize (Hf x Hx). simpl in Hf. lia.
Qed.

Lemma runs_sorted_tail (x : run) (r : list run) : runs_sorted (x :: r) -> runs_sorted r /\ run_ok x.
Proof. intros [Hs Hf]. apply StronglySorted_inv in Hs as [Hs _]. apply Forall_cons in Hf as [Hx Hf]. done. Qed.

Lemma common_drop (i : Z) (n : nat) (a b : list Z) : i ∉ b -> common (replicate n i ++ a) b = common a b.
Proof. intros Hi. induction n as [|n IH]; cbn [replicate app]; [done|]. by rewrite common_cons_absent. Qed.

Lemma common_runs (i : Z) (a b : list Z) : i ∉ a -> i ∉ b -> forall n m,
  common (replicate n i ++ a) (replicate m i ++ b) = Nat.min n m + common a b.
Proof.
  intros Ha Hb. induction n as [|n IH]; intros m; cbn [replicate app Nat.min plus].
  - rewrite common_comm, common_drop by done. apply common_comm.
  - destruct m as [|m]; cbn [replicate app Nat.min plus].
    + change (i :: replicate n i ++ a) with (replicate (S n) i ++ a). by rewrite common_drop.
    + by rewrite common_cons_both, IH.
Qed.

Lemma merge_matches_spec (fuel : nat) : forall (a b : list run) (M : Z),
  runs_sorted a -> runs_sorted b -> length a + length b <= fuel ->
  (0 <= M)%Z -> (M + Z.of_nat (length (expand a)) < 2 ^ 64)%Z ->
  merge_matches fuel a b M = (M + Z.of_nat (common (expand a) (expand b)))%Z.
Proof.
  induction fuel as [|fuel IH]; intros a b M Ha Hb Hlen HM Hlt.
  { destruct a; [|simpl in Hlen; lia]. cbn [merge_matches expand]. rewrite common_nil. lia. }
  destruct a as [|[i n] a]; [cbn [merge_matches expand]; rewrite common_nil; lia|].
  destruct b as [|[j m] b].
  { cbn [merge_matches]. rewrite common_comm. cbn [expand]. rewrite common_nil. lia. }
  destruct (runs_sorted_tail _ _ Ha) as [Ha' Hn]. destruct (runs_sorted_tail _ _ Hb) as [Hb' Hm].
  unfold run_ok in Hn, Hm. cbn [snd] in Hn, Hm.
  cbn [length] in Hlen. cbn [merge_matches].
  assert (Z.of_nat (length (expand ((i, n) :: a))) = n + Z.of_nat (length (expand a)))%Z as Hla.
  { cbn [expand]. rewrite length_app, length_replicate. lia. }
  destruct (Z.ltb_spec i j) as [Hij|Hij]; [|destruct (Z.ltb_spec j i) as [Hji|Hji]].
  - rewrite IH; [|done|done|cbn [length]; lia|lia|lia]. cbn [expand]. rewrite common_drop; [done|].
    rewrite elem_of_app. intros [H|H]; [apply elem_of_replicate in H as [-> _]; lia|].
    by apply (run_absent j m b i Hb); [lia|].
  - rewrite IH; [|done|done|cbn [length]; lia|lia|lia]. cbn [expand].
    do 2 f_equal. rewrite (common_comm _ (replicate (Z.to_nat m) j ++ expand b)), (common_drop j); [apply common_comm|].
    rewrite elem_of_app. intros [H|H]; [apply elem_of_replicate in H as [-> _]; lia|].
    by apply (run_absent i n a j Ha); [lia|].
  - assert (j = i) as -> by lia. rewrite w64_small by lia.
    rewrite IH; [|done|done|lia|lia|lia]. cbn [expand].
    rewrite common_runs by (eapply run_absent; [done|lia]). lia.
Qed.

Lemma runs_of_spec (l : list Z) : Sorted Z.le l -> (Z.of_nat (length l) < 2 ^ 32)%Z ->
  runs_sorted (runs_of l) /\ expand (runs_of l) = l /\ length (runs_of l) <= length l.
Proof.
  intros Hs. apply Sorted_StronglySorted in Hs; [|intros x y z; lia].
  induction Hs as [|i l Hs IH Hi]; intros Hlen; [split_and!; [by split; constructor|done|done]|].
  cbn [length] in Hlen. destruct (IH ltac:(lia)) as (Hr & He & Hl). cbn [runs_of].
  destruct (runs_of l) as [|[j n] r] eqn:E.
  { simpl in He. subst l. split_and!; [|done|simpl; lia]. split; [by repeat constructor|].
    constructor; [|constructor]. unfold run_ok. simpl. lia. }
  destruct (runs_sorted_tail _ _ Hr) as [Hr' Hn]. unfold run_ok in Hn. cbn [snd] in Hn.
  assert (n <= Z.of_nat (length l))%Z as Hnl.
  { rewrite <- He. cbn [expand]. rewrite length_app, length_replicate. lia. }
  assert (i <= j)%Z as Hij.
  { rewrite Forall_forall in Hi. apply Hi. rewrite <- He. cbn [expand]. apply elem_of_app. left.
    apply elem_of_replicate. lia. }
  destruct (Z.eqb_spec i j) as [->|Hne].
  - rewrite w32_small by lia. split_and!.
    + destruct Hr as [Hss Hff]. split.
      * apply StronglySorted_inv in Hss as [Hs1 Hs2]. constructor; [done|]. eapply Forall_impl; [done|]. done.
      * apply Forall_cons in Hff as [_ Hff]. constructor; [|done]. unfold run_ok. simpl. lia.
    + cbn [expand] in He |- *. replace (Z.to_nat (n + 1)) with (S (Z.to_nat n)) by lia.
      cbn [replicate app]. by rewrite He.
    + simpl in *. lia.
  - split_and!.
    + destruct Hr as [Hss Hff]. split.
      * constructor; [done|]. apply StronglySorted_inv in Hss as [_ Hs2].
        constructor; [simpl; lia|]. eapply Forall_impl; [done|]. intros [k q]. simpl. lia.
      * constructor; [|done]. unfold run_ok. simpl. lia.
    + change (expand ((i, 1%Z) :: (j, n) :: r)) with (i :: expand ((j, n) :: r)). by rewrite He.
    + simpl in *. lia.
Qed.

(** ** Line ids *)

(** Different lines have different ids, below the number of lines. *)
Definition ids_ok (Ids : gmap text Z) : Prop :=
  (forall p i, Ids !! p = Some i -> (0 <= i < Z.of_nat (size Ids))%Z) /\
  (forall p q i, Ids !! p = Some i -> Ids !! q = Some i -> p = q).

Definition same_lines (Ids : gmap text Z) (Pieces : list text) (l : list Z) : Prop :=
  Forall2 (fun p i => Ids !! p = Some i) Pieces l.

Lemma same_lines_mono (Ids Ids' : gmap text Z) (Pieces : list text) (l : list Z) :
  Ids ⊆ Ids' -> same_lines Ids Pieces l -> same_lines Ids' Pieces l.
Proof. intros Hs Hl. eapply Forall2_impl; [exact Hl|]. intros p i Hp. exact (lookup_weaken _ _ _ _ Hp Hs). Qed.

Lemma line_ids_spec (Pieces : list text) : forall Ids, ids_ok Ids ->
  (Z.of_nat (size Ids + length Pieces) < 2 ^ 32)%Z ->
  let '(Ids', l) := line_ids Ids Pieces in
  ids_ok Ids' /\ Ids ⊆ Ids' /\ same_lines Ids' Pieces l /\ size Ids' <= size Ids + length Pieces.
Proof.
  induction Pieces as [|p Pieces IH]; intros Ids Hok Hlt; cbn [line_ids length] in *.
  { split_and!; [done|done|constructor|lia]. }
  assert (exists Ids1 i, line_id Ids p = (Ids1, i) /\ ids_ok Ids1 /\ Ids ⊆ Ids1 /\ Ids1 !! p = Some i /\
    size Ids1 <= S (size Ids)) as (Ids1 & i & -> & Hok1 & Hsub & Hp & Hsz).
  { unfold line_id. destruct (Ids !! p) as [i|] eqn:E; [by exists Ids, i; split_and!; [done|done|done|done|lia]|].
    rewrite w32_small by lia. exists (<[p := Z.of_nat (size Ids)]> Ids), (Z.of_nat (size Ids)).
    destruct Hok as [Hb Hi]. split_and!; [done| | | |].
    - split.
      + intros q j. rewrite map_size_insert_None by done. destruct (decide (p = q)) as [->|Hne].
        * rewrite lookup_insert_eq. intros [= <-]. lia.
        * rewrite lookup_insert_ne by done. intros Hq. specialize (Hb q j Hq). lia.
      + intros q q' j Hq Hq'. apply lookup_insert_Some in Hq as [[<- <-]|[_ Hq]], Hq' as [[<- E']|[_ Hq']].
        * done.
        * specialize (Hb q' _ Hq'). lia.
        * specialize (Hb q _ Hq). lia.
        * by eapply Hi.
    - by apply insert_subseteq.
    - apply lookup_insert_eq.
    - by rewrite map_size_insert_None. }
  specialize (IH Ids1 Hok1 ltac:(lia)). destruct (line_ids Ids1 Pieces) as [Ids2 l].
  destruct IH as (Hok2 & Hsub2 & Hl & Hsz2). split_and!; [done|by etrans| |lia].
  constructor; [by eapply lookup_weaken|done].
Qed.

(** Counting ids is counting lines. *)
Lemma same_lines_common (Ids : gmap text Z) (a c : list text) (la lc : list Z) : ids_ok Ids ->
  same_lines Ids a la -> same_lines Ids c lc -> common la lc = common a c.
Proof.
  intros [_ Hinj] Ha Hc.
  assert (forall x lx, same_lines Ids x lx -> lx = map (fun p => default 0%Z (Ids !! p)) x /\
    forall p, p ∈ x -> is_Some (Ids !! p)) as Hmap.
  { intros x lx H. induction H as [|p i x lx Hp H [-> IH]]; [split; [done|by intros p H%elem_of_nil]|].
    split; [cbn [map]; by rewrite Hp|]. intros q [->|Hq]%elem_of_cons; [by exists i|by apply IH]. }
  destruct (Hmap _ _ Ha) as [-> Sa]. destruct (Hmap _ _ Hc) as [-> Sc].
  apply common_map. intros p q Hp Hq E. destruct (Sa p Hp) as [i Hi], (Sc q Hq) as [j Hj].
  rewrite Hi, Hj in E. simpl in E. subst j. by eapply Hinj.
Qed.

(** ** Prepared rows *)

(** Every row of the column can be read. *)
Definition readable (c : TextColumn) : Prop :=
  forall r, r < ColumnSize c -> exists x, CellOf c r = Ok x.

Definition row_pieces (c : TextColumn) (r : nat) : nat :=
  match CellOf c r with Ok x => length (SplitPieces (CellBytes x)) | Throw _ => 0 end.
Definition column_pieces (c : TextColumn) : nat := sum_list (map (row_pieces c) (seq 0 (ColumnSize c))).

(** The entry of a cell, over the final ids and runs. *)
Definition entry_of (Ids : gmap text Z) (Runs : list run) (x : TextCell) (e : PreparedText) : Prop :=
  if CellNull x then PState e = StateNull
  else if CellBlob x then PState e = StateBlob
  else if bool_decide (CellBytes x = []) then PState e = StateEmptyStr
  else PState e = StateText /\ PPieces e = Z.of_nat (length (SplitPieces (CellBytes x))) /\
    exists l, same_lines Ids (SplitPieces (CellBytes x)) l /\
      (0 <= PBegin e)%Z /\ (0 <= PCount e)%Z /\ (PBegin e + PCount e <= Z.of_nat (length Runs))%Z /\
      take (Z.to_nat (PCount e)) (drop (Z.to_nat (PBegin e)) Runs) = runs_of (merge_sort Z.le l).

Lemma entry_mono (Ids Ids' : gmap text Z) (Runs New : list run) (x : TextCell) (e : PreparedText) :
  Ids ⊆ Ids' -> entry_of Ids Runs x e -> entry_of Ids' (Runs ++ New) x e.
Proof.
  intros Hs. unfold entry_of. destruct (CellNull x), (CellBlob x); try done. destruct (bool_decide _); [done|].
  intros (H1 & H2 & l & Hl & Hb & Hc & Hle & Ht). split; [done|]. split; [done|]. exists l.
  split; [by eapply same_lines_mono|]. split; [done|]. split; [done|]. rewrite length_app. split; [lia|].
  rewrite drop_app_le, take_app_le by (rewrite ?length_drop; lia). done.
Qed.

Lemma prepare_row_spec (c : TextColumn) (r : nat) (x : TextCell) (Ids : gmap text Z) (Runs : list run) :
  CellOf c r = Ok x -> ids_ok Ids -> (Z.of_nat (size Ids + row_pieces c r) < 2 ^ 32)%Z ->
  (Z.of_nat (length Runs + row_pieces c r) < 2 ^ 32)%Z ->
  exists Ids' New e, prepare_row c r Ids Runs = Ok (Ids', Runs ++ New, e) /\
    ids_ok Ids' /\ Ids ⊆ Ids' /\ entry_of Ids' (Runs ++ New) x e /\
    size Ids' <= size Ids + row_pieces c r /\ length New <= row_pieces c r.
Proof.
  intros Hx Hok HI HR. unfold prepare_row, entry_of, row_pieces in *. rewrite Hx in *.
  cbn [mbind res_bind]. destruct (CellNull x); [|destruct (CellBlob x); [|destruct (bool_decide _)]];
    try (exists Ids, []; eexists; rewrite app_nil_r; split_and!; try done; cbn [length]; lia).
  pose proof (line_ids_spec (SplitPieces (CellBytes x)) Ids Hok HI) as HL.
  destruct (line_ids Ids _) as [Ids' l]. destruct HL as (Hok' & Hsub & Hl & Hsz).
  pose proof (Forall2_length _ _ _ Hl) as Hlen.
  destruct (runs_of_spec (merge_sort Z.le l)) as (_ & _ & Hr).
  { apply Sorted_merge_sort. intros a b. lia. }
  { rewrite merge_sort_Permutation. lia. }
  rewrite (Permutation_length (merge_sort_Permutation Z.le l)) in Hr.
  exists Ids', (runs_of (merge_sort Z.le l)). eexists. split; [done|].
  split; [done|]. split; [done|]. split; [|split; [done|lia]].
  cbn [PState PPieces PBegin PCount]. split; [done|]. split; [done|].
  exists l. split; [done|]. rewrite !length_app. set (n := length (runs_of (merge_sort Z.le l))) in *.
  rewrite (w32_small (Z.of_nat (length Runs))), (w32_small (Z.of_nat (length Runs + n))) by lia.
  rewrite w32_small by lia.
  split; [lia|]. split; [lia|]. split; [lia|].
  rewrite Nat2Z.id, drop_app_length. apply take_ge. lia.
Qed.

Lemma prepare_rows_spec (c : TextColumn) (n : nat) : forall r Ids Runs,
  r + n = ColumnSize c -> readable c -> ids_ok Ids ->
  let total := sum_list (map (row_pieces c) (seq r n)) in
  (Z.of_nat (size Ids + total) < 2 ^ 32)%Z -> (Z.of_nat (length Runs + total) < 2 ^ 32)%Z ->
  exists Ids' New Out, prepare_rows c n r Ids Runs = Ok (Ids', Runs ++ New, Out) /\
    ids_ok Ids' /\ Ids ⊆ Ids' /\ size Ids' <= size Ids + total /\ length Out = n /\
    forall k x, k < n -> CellOf c (r + k) = Ok x ->
      exists e, Out !! k = Some e /\ entry_of Ids' (Runs ++ New) x e.
Proof.
  induction n as [|n IH]; intros r Ids Runs Hr Hread Hok total HI HR; unfold total in *; clear total;
    cbn [seq map sum_list_with id prepare_rows] in *.
  { exists Ids, [], []. rewrite app_nil_r. split_and!; try done; [lia|]. intros k x Hk. lia. }
  destruct (Hread r ltac:(lia)) as [x Hx].
  destruct (prepare_row_spec c r x Ids Runs Hx Hok ltac:(lia) ltac:(lia)) as (Ids1 & New1 & e & -> & Hok1 & Hs1 & He & Hz1 & Hl1).
  cbn [mbind res_bind].
  destruct (IH (S r) Ids1 (Runs ++ New1)) as (Ids2 & New2 & Out & -> & Hok2 & Hs2 & Hz2 & Hlen & Hall);
    [lia|done|done|lia|rewrite length_app; lia|].
  cbn [mbind res_bind]. rewrite <- app_assoc in *.
  exists Ids2, (New1 ++ New2), (e :: Out). split_and!; [done|done|by etrans|lia|simpl; lia|].
  intros [|k] y Hk Hy.
  - rewrite Nat.add_0_r, Hx in Hy. injection Hy as <-. exists e. split; [done|].
    rewrite app_assoc. by eapply entry_mono.
  - apply (Hall k y); [lia|]. by replace (S r + k) with (r + S k) by lia.
Qed.

(** The comparison on the cells themselves, without preparation. *)
Definition quick_cells (Name : text) (x y : TextCell) : res dbl :=
  if CellNull x || CellNull y then Ok d0
  else if (negb (CellBlob x) && bool_decide (CellBytes x = []))
       || (negb (CellBlob y) && bool_decide (CellBytes y = [])) then Ok d0
  else if CellBlob x || CellBlob y then Throw (blob_error Name)
  else Ok (QuickRatio (Some (CellBytes x)) (Some (CellBytes y))).

Definition small_columns (cs : sided TextColumn) : Prop :=
  (Z.of_nat (column_pieces (main_of cs) + column_pieces (diff_of cs)) < 2 ^ 32)%Z.

(** Every entry of a prepared column belongs to its cell. *)
Definition prepared_for (cs : sided TextColumn) (c : PreparedColumn) : Prop :=
  ids_ok (LineIds c) /\
  forall s r x, r < ColumnSize (at_side s cs) -> CellOf (at_side s cs) r = Ok x ->
    exists e, at_side s (PRows c) !! r = Some e /\ entry_of (LineIds c) (at_side s (PRuns c)) x e.

Lemma PrepareColumn_spec (cs : sided TextColumn) :
  readable (main_of cs) -> readable (diff_of cs) -> small_columns cs ->
  exists c, PrepareColumn cs = Ok c /\ prepared_for cs c.
Proof.
  intros HM HD Hsmall. unfold small_columns, column_pieces in Hsmall. unfold PrepareColumn.
  assert (ids_ok ∅) as H0 by (split; intros *; rewrite lookup_empty; done).
  destruct (prepare_rows_spec (main_of cs) (ColumnSize (main_of cs)) 0 ∅ []) as (I1 & N1 & O1 & -> & Hok1 & Hs1 & Hz1 & L1 & A1);
    [lia|done|done|rewrite map_size_empty; lia|simpl; lia|]. rewrite map_size_empty in Hz1.
  cbn [mbind res_bind].
  destruct (prepare_rows_spec (diff_of cs) (ColumnSize (diff_of cs)) 0 I1 []) as (I2 & N2 & O2 & -> & Hok2 & Hs2 & Hz2 & L2 & A2);
    [lia|done|done|lia|simpl; lia|].
  cbn [mbind res_bind]. eexists. split; [done|]. split; [done|]. cbn [PRows PRuns LineIds].
  intros [] r x Hr Hx; cbn [at_side main_of diff_of] in *.
  - destruct (A1 r x Hr Hx) as (e & He & Hent). exists e. split; [done|].
    rewrite <- (app_nil_r ([] ++ N1)). by eapply entry_mono.
  - by apply A2.
Qed.

(** ** The two counts agree *)

Lemma row_pieces_le (c : TextColumn) (r : nat) : r < ColumnSize c -> row_pieces c r <= column_pieces c.
Proof.
  intros Hr. unfold column_pieces. assert (r ∈ seq 0 (ColumnSize c)) as Hin by (apply elem_of_seq; lia).
  induction (seq 0 (ColumnSize c)) as [|q l IH]; [by apply elem_of_nil in Hin|].
  cbn [map sum_list_with id]. apply elem_of_cons in Hin as [->|Hin]; [lia|]. specialize (IH Hin). lia.
Qed.

Lemma merged_runs (Ids : gmap text Z) (a c : list text) (la lc : list Z) : ids_ok Ids ->
  same_lines Ids a la -> same_lines Ids c lc ->
  (Z.of_nat (length a) < 2 ^ 32)%Z -> (Z.of_nat (length c) < 2 ^ 32)%Z ->
  let ra := runs_of (merge_sort Z.le la) in
  let rc := runs_of (merge_sort Z.le lc) in
  merge_matches (length ra + length rc) ra rc 0 = Z.of_nat (common a c).
Proof.
  intros Hok Ha Hc Hla Hlc ra rc.
  assert (forall l, (Z.of_nat (length l) < 2 ^ 32)%Z -> runs_sorted (runs_of (merge_sort Z.le l)) /\
    expand (runs_of (merge_sort Z.le l)) = merge_sort Z.le l) as Hr.
  { intros l Hl. destruct (runs_of_spec (merge_sort Z.le l)) as (H1 & H2 & _); [|by rewrite merge_sort_Permutation|done].
    apply Sorted_merge_sort. intros x y. lia. }
  pose proof (Forall2_length _ _ _ Ha). pose proof (Forall2_length _ _ _ Hc).
  destruct (Hr la) as [Sa Ea]; [lia|]. destruct (Hr lc) as [Sc Ec]; [lia|].
  unfold ra, rc. rewrite merge_matches_spec; [|done|done|lia|lia|].
  - rewrite Ea, Ec, Z.add_0_l. f_equal.
    rewrite (common_perm _ la _ lc) by apply merge_sort_Permutation. by eapply same_lines_common.
  - rewrite Ea, merge_sort_Permutation. lia.
Qed.

(** Preparation changes no result and no exception. *)
Lemma QuickPrepared_cells (cs : sided TextColumn) (c : PreparedColumn) :
  small_columns cs -> prepared_for cs c ->
  forall sA rA sB rB x y Name, rA < ColumnSize (at_side sA cs) -> rB < ColumnSize (at_side sB cs) ->
    CellOf (at_side sA cs) rA = Ok x -> CellOf (at_side sB cs) rB = Ok y ->
    QuickPrepared c sA rA sB rB Name = quick_cells Name x y.
Proof.
  intros Hsmall [Hok Hrows] sA rA sB rB x y Name HA HB Hx Hy.
  destruct (Hrows sA rA x HA Hx) as (e & He & Ee). destruct (Hrows sB rB y HB Hy) as (f & Hf & Ef).
  assert (forall s r z, r < ColumnSize (at_side s cs) -> CellOf (at_side s cs) r = Ok z ->
    (Z.of_nat (length (SplitPieces (CellBytes z))) < 2 ^ 32)%Z) as Hlen.
  { intros s r z Hr Hz. pose proof (row_pieces_le _ _ Hr) as Hle. unfold row_pieces in Hle. rewrite Hz in Hle.
    unfold small_columns in Hsmall. destruct s; cbn [at_side] in Hle; lia. }
  pose proof (Hlen _ _ _ HA Hx) as Lx. pose proof (Hlen _ _ _ HB Hy) as Ly. clear Hlen.
  unfold QuickPrepared, at_row. rewrite He, Hf. cbn [mbind res_bind].
  unfold entry_of in Ee, Ef. unfold quick_cells.
  destruct (CellNull x), (CellNull y); cbn [orb] in *;
    try (rewrite Ee); try (rewrite Ef); try done; [by rewrite orb_true_r|].
  destruct (CellBlob x), (CellBlob y); cbn [negb andb orb] in *.
  - by rewrite Ee, Ef.
  - destruct (bool_decide (CellBytes y = [])); [by rewrite Ee, Ef|]. destruct Ef as [Ef _]. by rewrite Ee, Ef.
  - destruct (bool_decide (CellBytes x = [])); [by rewrite Ee, Ef|]. destruct Ee as [Ee _]. by rewrite Ee, Ef.
  - destruct (bool_decide (CellBytes x = [])) eqn:Bx.
    { destruct (bool_decide (CellBytes y = [])); [by rewrite Ee, Ef|]. destruct Ef as [Ef _]. by rewrite Ee, Ef. }
    destruct (bool_decide (CellBytes y = [])) eqn:By.
    { destruct Ee as [Ee _]. by rewrite Ee, Ef. }
    cbn [orb]. destruct Ee as (-> & -> & la & Hla & _ & _ & _ & Ra). destruct Ef as (-> & -> & lc & Hlc & _ & _ & _ & Rc).
    cbn [bool_decide orb]. rewrite !bool_decide_false by done. cbn [orb]. unfold row_runs. rewrite Ra, Rc.
    rewrite (merged_runs (LineIds c) _ _ la lc Hok Hla Hlc Lx Ly).
    apply bool_decide_eq_false in Bx, By. unfold QuickRatio.
    set (tx := CellBytes x) in *. set (ty := CellBytes y) in *. clearbody tx ty.
    destruct tx as [|bx tx]; [done|]. destruct ty as [|b2 ty]; [done|].
    rewrite common_available by lia. rewrite w64_small by lia. by rewrite Nat2Z.inj_add.
Qed.

(** ** Values of the quick ratio *)

(** The largest double below one. *)
Lemma below_one_fits : fits (2 ^ 1074 - 2 ^ 1021).
Proof. exists (2 ^ 53 - 1)%Z, 1021%Z. split; [|lia]. change 1074%Z with (53 + 1021)%Z. rewrite Z.pow_add_r by lia. ring. Qed.

Lemma match_ratio_units (m L : Z) : (0 <= 2 * m <= L)%Z -> (0 < L <= 2 ^ 53)%Z ->
  match_ratio m L = round_units false (2 * m * 2 ^ 1074) L.
Proof.
  intros Hm HL. unfold match_ratio.
  destruct (d_of_Z_exact 2) as [P2 U2]; [lia|]. destruct (d_of_Z_exact m) as [Pm Um]; [lia|].
  assert (dmul (d_of_Z 2) (d_of_Z m) = d_of_Z (2 * m)) as ->.
  { rewrite dmul_units, U2, Um, d_of_Z_units by (done || lia). apply round_units_cross; [apply pow2_pos; lia|lia|]. ring. }
  apply ddiv_integers; lia.
Qed.

Lemma match_ratio_bounds (m L : Z) : (0 <= 2 * m <= L)%Z -> (0 < L <= 2 ^ 53)%Z ->
  pos_double (match_ratio m L) /\ (units (match_ratio m L) <= 2 ^ 1074)%Z /\
  (units (match_ratio m L) = 2 ^ 1074 <-> 2 * m = L)%Z.
Proof.
  intros Hm HL. rewrite match_ratio_units by done. pose proof (pow2_pos 1074 ltac:(lia)) as Hp.
  destruct (round_units_le (2 * m * 2 ^ 1074) L (2 ^ 1074)) as [Hf Hle]; [nia|lia|exists 1%Z, 1074%Z; lia|nia|].
  split; [apply round_units_pos; [nia|lia|done]|]. split; [apply Hle|]. split.
  - intros E. destruct (Z.eq_dec (2 * m)%Z L) as [|Hne]; [done|exfalso].
    destruct (round_units_le (2 * m * 2 ^ 1074) L (2 ^ 1074 - 2 ^ 1021)) as [_ Hlt]; [nia|lia|apply below_one_fits| |].
    + assert (2 ^ 1074 = 2 ^ 53 * 2 ^ 1021)%Z as -> by (rewrite <- Z.pow_add_r by lia; f_equal; lia).
      pose proof (pow2_pos 1021 ltac:(lia)). set (P := (2 ^ 1021)%Z) in *. set (C := (2 ^ 53)%Z) in *. clearbody P C.
      assert (2 * m * (C * P) <= (L - 1) * (C * P))%Z by (apply Z.mul_le_mono_nonneg_r; nia).
      assert (P * L <= P * C)%Z by nia. lia.
    + pose proof (pow2_pos 1021 ltac:(lia)). lia.
  - intros E. apply Z.le_antisymm; [apply Hle|]. apply round_units_ge; [nia|lia|exists 1%Z, 1074%Z; lia|nia|done].
Qed.

Lemma pieces_nonempty (p t : text) : pieces_from p t <> [].
Proof. revert p. induction t as [|c t IH]; intros p; cbn [pieces_from]; [done|]. by destruct (bool_decide _). Qed.

Lemma QuickRatio_common (a c : text) : a <> [] -> c <> [] ->
  (Z.of_nat (length (SplitPieces a)) < 2 ^ 64)%Z ->
  QuickRatio (Some a) (Some c) = match_ratio (Z.of_nat (common (SplitPieces a) (SplitPieces c)))
    (Z.of_nat (length (SplitPieces a) + length (SplitPieces c))).
Proof.
  intros Ha Hc Hl. unfold QuickRatio. destruct a as [|a0 a]; [done|]. destruct c as [|c0 c]; [done|].
  by rewrite common_available.
Qed.

(** All elements are common exactly for permutations of one another. *)
Lemma common_all {A} `{Countable A} (a : list A) : forall b, 2 * common a b = length a + length b -> a ≡ₚ b.
Proof.
  induction a as [|x a IH]; intros b Hc.
  - rewrite common_nil in Hc. destruct b; [done|simpl in Hc; lia].
  - destruct (decide (x ∈ b)) as [Hx|Hx].
    + apply elem_of_Permutation in Hx as (b' & Hb). rewrite Hb. f_equiv. apply IH.
      rewrite (common_perm _ (x :: a) _ (x :: b')) in Hc by done. rewrite common_cons_both, Hb in Hc. simpl in Hc. lia.
    + rewrite common_cons_absent in Hc by done. simpl in Hc.
      pose proof (common_le_l a b). pose proof (common_le_l b a). rewrite common_comm in H1. lia.
Qed.

Lemma common_self {A} `{Countable A} (a : list A) : common a a = length a.
Proof. induction a as [|x a IH]; [by rewrite common_nil|]. by rewrite common_cons_both, IH. Qed.

Lemma common_double {A} `{Countable A} (a b : list A) : 2 * common a b <= length a + length b.
Proof. pose proof (common_le_l a b). pose proof (common_le_l b a). rewrite (common_comm b a) in *. lia. Qed.

(** One in bits. *)
Lemma units_one (x : dbl) : pos_double x -> units x = (2 ^ 1074)%Z -> x = d1.
Proof. intros Hx E. apply units_inj; [done|by split|]. rewrite E. by vm_compute. Qed.

Definition unit_double (x : dbl) : Prop := pos_double x /\ (units x <= 2 ^ 1074)%Z.

Lemma unit_d0 : unit_double d0.
Proof. split; [done|]. change (units d0) with 0%Z. pose proof (pow2_pos 1074 ltac:(lia)). lia. Qed.

Lemma QuickRatio_unit (a c : option text) :
  (forall t, a = Some t \/ c = Some t -> (Z.of_nat (length (SplitPieces t)) < 2 ^ 32)%Z) ->
  unit_double (QuickRatio a c).
Proof.
  intros Hlen. destruct a as [[|a0 a]|]; [apply unit_d0| |apply unit_d0].
  destruct c as [[|c0 c]|]; [apply unit_d0| |apply unit_d0].
  pose proof (Hlen _ (or_introl eq_refl)) as Ha. pose proof (Hlen _ (or_intror eq_refl)) as Hc.
  rewrite QuickRatio_common by (done || lia).
  pose proof (common_double (SplitPieces (a0 :: a)) (SplitPieces (c0 :: c))).
  assert (length (SplitPieces (a0 :: a)) <> 0) by (pose proof (pieces_nonempty [] (a0 :: a)); unfold SplitPieces;
    by destruct (pieces_from [] (a0 :: a))).
  destruct (match_ratio_bounds (Z.of_nat (common (SplitPieces (a0 :: a)) (SplitPieces (c0 :: c))))
    (Z.of_nat (length (SplitPieces (a0 :: a)) + length (SplitPieces (c0 :: c))))) as (H1 & H2 & _); [lia|lia|].
  by split.
Qed.

(** The quick ratio of two texts is [2 * common / total] over the lines
    they share, counted with multiplicity; it lies between 0 and 1, does not
    depend on the order of the texts, and is 1.0 exactly for texts with the same
    lines up to order. *)
Theorem QuickRatio_counts_lines (a c : text) : a <> [] -> c <> [] ->
  (Z.of_nat (length (SplitPieces a)) < 2 ^ 32)%Z -> (Z.of_nat (length (SplitPieces c)) < 2 ^ 32)%Z ->
  let r := QuickRatio (Some a) (Some c) in
  r = match_ratio (Z.of_nat (size (list_to_set_disj (SplitPieces a) ∩ list_to_set_disj (SplitPieces c) : gmultiset text)))
        (Z.of_nat (length (SplitPieces a) + length (SplitPieces c))) /\
  unit_double r /\ r = QuickRatio (Some c) (Some a) /\
  (r = d1 <-> SplitPieces a ≡ₚ SplitPieces c).
Proof.
  intros Ha Hc La Lc r.
  assert (r = _) as Er by (apply QuickRatio_common; [done|done|lia]).
  split; [exact Er|]. split; [apply QuickRatio_unit; intros t [[= <-]|[= <-]]; done|]. split.
  { rewrite Er, QuickRatio_common by (done || lia). by rewrite common_comm, Nat.add_comm. }
  pose proof (common_double (SplitPieces a) (SplitPieces c)) as Hd.
  assert (length (SplitPieces a) <> 0) by (pose proof (pieces_nonempty [] a); unfold SplitPieces; by destruct (pieces_from [] a)).
  destruct (match_ratio_bounds (Z.of_nat (common (SplitPieces a) (SplitPieces c)))
    (Z.of_nat (length (SplitPieces a) + length (SplitPieces c)))) as (H1 & H2 & H3); [lia|lia|].
  rewrite <- Er in H1, H3. split.
  - intros E. apply common_all. assert (units r = (2 ^ 1074)%Z) as E' by (rewrite E; by vm_compute).
    apply H3 in E'. lia.
  - intros HP. apply units_one; [done|]. apply H3.
    rewrite (common_perm _ (SplitPieces a) _ (SplitPieces a)) by done. rewrite common_self, (Permutation_length HP). lia.
Qed.

Lemma QuickRatio_counts_lines_witness :
  QuickRatio (Some (B "a" ++ x0a :: B "b")) (Some (B "b" ++ x0a :: B "a")) = d1 /\
  unit_double (QuickRatio (Some (B "a")) (Some (B "a" ++ x0a :: B "b"))).
Proof.
  split.
  - destruct (QuickRatio_counts_lines (B "a" ++ x0a :: B "b") (B "b" ++ x0a :: B "a")) as (_ & _ & _ & H); [done|done|by vm_compute..|].
    apply H. apply Permutation_swap.
  - destruct (QuickRatio_counts_lines (B "a") (B "a" ++ x0a :: B "b")) as (_ & H & _); [done|done|by vm_compute..|exact H].
Defined.

(** C29: Preparing the columns changes nothing: on every two rows
    [QuickPrepared] gives the ratio of the cells' texts, 0 for None and empty
    cells, and raises for bytes, whatever the other rows hold. *)
Theorem QuickPrepared_is_quick_ratio (cs : sided TextColumn) :
  readable (main_of cs) -> readable (diff_of cs) -> small_columns cs ->
  exists c, PrepareColumn cs = Ok c /\
    forall sA rA sB rB x y Name, rA < ColumnSize (at_side sA cs) -> rB < ColumnSize (at_side sB cs) ->
      CellOf (at_side sA cs) rA = Ok x -> CellOf (at_side sB cs) rB = Ok y ->
      QuickPrepared c sA rA sB rB Name = quick_cells Name x y.
Proof.
  intros HM HD Hs. destruct (PrepareColumn_spec cs HM HD Hs) as (c & Hc & Hp).
  exists c. split; [done|]. by apply QuickPrepared_cells.
Qed.

Lemma QuickPrepared_is_quick_ratio_witness :
  let main := Append (B "a" ++ x0a :: B "b") false (AppendNull EmptyColumn) in
  let diff := Append (B "b" ++ x0a :: B "a") false (Append [] false EmptyColumn) in
  exists c, PrepareColumn (MkSided main diff) = Ok c /\
    QuickPrepared c MainSide 1 DiffSide 1 (B "clean_pseudo") = Ok d1 /\
    QuickPrepared c MainSide 0 DiffSide 1 (B "clean_pseudo") = Ok d0.
Proof.
  intros main diff.
  destruct (QuickPrepared_is_quick_ratio (MkSided main diff)) as (c & Hc & H).
  - intros [|[|r]] Hr; [by eexists|by eexists|]. cbn in Hr. lia.
  - intros [|[|r]] Hr; [by eexists|by eexists|]. cbn in Hr. lia.
  - by vm_compute.
  - exists c. split; [exact Hc|]. split.
    + rewrite (H MainSide 1 DiffSide 1 (MkCell false false (B "a" ++ x0a :: B "b")) (MkCell false false (B "b" ++ x0a :: B "a"))
        (B "clean_pseudo")); [by vm_compute|cbn; lia|cbn; lia|done|done].
    + rewrite (H MainSide 0 DiffSide 1 (MkCell true false []) (MkCell false false (B "b" ++ x0a :: B "a"))
        (B "clean_pseudo")); [by vm_compute|cbn; lia|cbn; lia|done|done].
Defined.
