(* ===== verification/RatioEngine.v ===== *)
(** * The ratio engine (src/src/diff/Ratio.cpp)

    [RatioEngine] with its cache of ratios, its prepared columns and its lazily
    computed md_index values and constant sets. The tables, the interners and
    the processor flag are those of the session; the state is the record
    [Impl]. The test seam [g_Mutations] is zero, as in every production run. *)

From Stdlib Require Import ZArith Lia SpecFloat.
From stdpp Require Import base option numbers list gmap.
From S2P Require Import Prelude Dbl Interner PyFloat PyValues PyJson Consumer FunctionTable.
From S2P Require Import PreparedText RoundSeven.

(** ** State *)

Record Failure := MkFailure { Unsupported : bool; FailSite : text; FailDetail : text }.

Definition failure_exn (f : Failure) : exn :=
  if Unsupported f then UnsupportedInput (FailDetail f) else DiaphoraWouldRaise (FailSite f) (FailDetail f).

(** A lazily computed value ([State] 0, 1 and 2). *)
Inductive Slot (A : Type) : Type :=
| NotComputed
| Computed (v : A)
| Failed (e : Failure).
Arguments NotComputed {A}.
Arguments Computed {A} v.
Arguments Failed {A} e.

Definition slot_value {A} (s : Slot A) : res A :=
  match s with
  | Computed v => Ok v
  | Failed e => Throw (failure_exn e)
  | NotComputed => Throw index_past_end
  end.

Record CacheEntry := MkCacheEntry { CacheEa1 : AddrId; CacheEa2 : AddrId; CacheRatio : dbl }.

Record Impl := MkImpl {
  ById : gmap N nat;
  ByText : gmap text nat;
  Entries : list CacheEntry;
  Prepared : bool;
  PreparedMain : nat;
  PreparedDiff : nat;
  PseudoColumn : PreparedColumn;
  AssemblyColumn : PreparedColumn;
  MicrocodeColumn : PreparedColumn;
  MdPy : sided (list (Slot dbl));
  Consts : sided (list (Slot PySet));
  SimpleById : list (option bool);
}.

Definition EmptyImpl : Impl :=
  MkImpl ∅ ∅ [] false 0 0 EmptyPreparedColumn EmptyPreparedColumn EmptyPreparedColumn
    (MkSided [] []) (MkSided [] []) [].

Definition with_cache (i : gmap N nat) (t : gmap text nat) (e : list CacheEntry) (s : Impl) : Impl :=
  MkImpl i t e (Prepared s) (PreparedMain s) (PreparedDiff s) (PseudoColumn s) (AssemblyColumn s)
    (MicrocodeColumn s) (MdPy s) (Consts s) (SimpleById s).
Definition with_simple (l : list (option bool)) (s : Impl) : Impl :=
  MkImpl (ById s) (ByText s) (Entries s) (Prepared s) (PreparedMain s) (PreparedDiff s) (PseudoColumn s)
    (AssemblyColumn s) (MicrocodeColumn s) (MdPy s) (Consts s) l.
Definition with_md (m : sided (list (Slot dbl))) (s : Impl) : Impl :=
  MkImpl (ById s) (ByText s) (Entries s) (Prepared s) (PreparedMain s) (PreparedDiff s) (PseudoColumn s)
    (AssemblyColumn s) (MicrocodeColumn s) m (Consts s) (SimpleById s).
Definition with_consts (c : sided (list (Slot PySet))) (s : Impl) : Impl :=
  MkImpl (ById s) (ByText s) (Entries s) (Prepared s) (PreparedMain s) (PreparedDiff s) (PseudoColumn s)
    (AssemblyColumn s) (MicrocodeColumn s) (MdPy s) c (SimpleById s).

Inductive MdSource := Sql | Python.

Definition kNoRow : Z := 0xFFFFFFFF.
Definition kIncreaseRatioPerConstantMatchSameCpu : dbl := Eval vm_compute in dlit 6 1000.
Definition kIncreaseRatioPerConstantMatch : dbl := Eval vm_compute in dlit 8 1000.
Definition d_0_001 : dbl := Eval vm_compute in dlit 1 1000.
Definition d_0_003 : dbl := Eval vm_compute in dlit 3 1000.
Definition d_0_99 : dbl := Eval vm_compute in dlit 99 100.

Section Engine.
Context (Tables : sided FunctionTable) (IsSameProcessor : bool) (ids : Interners).

Definition Table (Which : Side) : FunctionTable := at_side Which Tables.

(** ** The cache *)

(** The answer for an address, remembered per id: [None] is -1. *)
Definition simple_text (Text : text) : bool :=
  negb (bool_decide (Text = B "None")) && negb (bool_decide (x2d ∈ Text)).

Definition SimpleAddr (Id : AddrId) : M Impl bool :=
  if bool_decide (Id = kNoneAddr) then mret false
  else
    let Index := N.to_nat Id in
    modify (fun s =>
      if (length (SimpleById s) <=? Index)%nat
      then with_simple (SimpleById s ++ replicate (Index + 1024 - length (SimpleById s)) None) s else s);;
    s ← get;
    slot ← liftR (at_row (SimpleById s) Index);
    match (slot : option bool) with
    | Some b => mret b
    | None =>
        Text ← liftR (AddrText Id ids);
        let b := simple_text Text in
        modify (fun s => with_simple (<[Index := Some b]> (SimpleById s)) s);;
        mret b
    end.

Definition IdKey (Ea1 Ea2 : AddrId) : N := N.lor (N.shiftl Ea1 32) Ea2.

Definition TextKey (Ea1 Ea2 : AddrId) : res text :=
  k1 ← AddrKeyText Ea1 ids;
  k2 ← AddrKeyText Ea2 ids;
  Ok (k1 ++ x2d :: k2).

(** [SimpleAddr(Ea1) && SimpleAddr(Ea2)]. *)
Definition both_simple (Ea1 Ea2 : AddrId) : M Impl bool :=
  b ← SimpleAddr Ea1;
  if (b : bool) then SimpleAddr Ea2 else mret false.

Definition entry_ratio (Found : option nat) : M Impl (option dbl) :=
  match Found with
  | None => mret None
  | Some Index =>
      s ← get;
      e ← liftR (at_row (Entries s) Index);
      mret (Some (CacheRatio e))
  end.

Definition Find (Ea1 Ea2 : AddrId) : M Impl (option dbl) :=
  b ← both_simple Ea1 Ea2;
  s ← get;
  if (b : bool) then entry_ratio (ById s !! IdKey Ea1 Ea2)
  else
    Key ← liftR (TextKey Ea1 Ea2);
    entry_ratio (ByText s !! Key).

(** [emplace] keeps an entry already present: the first writer wins. *)
Definition Store (Ea1 Ea2 : AddrId) (Ratio : dbl) : M Impl unit :=
  b ← both_simple Ea1 Ea2;
  s ← get;
  let Index := length (Entries s) in
  let Pushed := Entries s ++ [MkCacheEntry Ea1 Ea2 Ratio] in
  if (b : bool) then
    match ById s !! IdKey Ea1 Ea2 with
    | Some _ => mret tt
    | None => put (with_cache (<[IdKey Ea1 Ea2 := Index]> (ById s)) (ByText s) Pushed s)
    end
  else
    Key ← liftR (TextKey Ea1 Ea2);
    match ByText s !! Key with
    | Some _ => mret tt
    | None => put (with_cache (ById s) (<[Key := Index]> (ByText s)) Pushed s)
    end.

Definition ClearCache : M Impl unit := modify (with_cache ∅ ∅ []).
Definition SeedCache (Ea1 Ea2 : AddrId) (R : dbl) : M Impl unit := Store Ea1 Ea2 R.
Definition Cached (Ea1 Ea2 : AddrId) : M Impl (option dbl) := Find Ea1 Ea2.

(** ** Preparation *)

Definition columns (f : FunctionTable -> TextColumn) : sided TextColumn :=
  MkSided (f (main_of Tables)) (f (diff_of Tables)).

Definition PrepareAll : M Impl unit :=
  Pseudo ← liftR (PrepareColumn (columns CleanPseudo));
  Assembly ← liftR (PrepareColumn (columns CleanAssembly));
  Micro ← liftR (PrepareColumn (columns CleanMicrocode));
  let Main := Count (main_of Tables) in
  let Diff := Count (diff_of Tables) in
  modify (fun s =>
    MkImpl (ById s) (ByText s) (Entries s) true Main Diff Pseudo Assembly Micro
      (MkSided (replicate Main NotComputed) (replicate Diff NotComputed))
      (MkSided (replicate Main NotComputed) (replicate Diff NotComputed)) (SimpleById s)).

Definition EnsurePrepared : M Impl unit :=
  s ← get;
  if negb (Prepared s) || negb (PreparedMain s =? Count (main_of Tables))%nat
     || negb (PreparedDiff s =? Count (diff_of Tables))%nat
  then PrepareAll else mret tt.

(** ** md_index *)

Definition md_failure (Detail : text) : Failure := MkFailure false (B "D:1672 float(md_index)") Detail.

(** [float(<md_index TEXT>)] of a row. *)
Definition md_slot (Which : Side) (Row : nat) : res (Slot dbl) :=
  Cell ← CellOf (MdIndex (Table Which)) Row;
  if CellNull Cell then
    Ok (Failed (md_failure (B "TypeError: float() argument must be a string or a real number, not 'NoneType'")))
  else
    let Ascii := forallb (fun Ch => (code Ch <? 128)%Z) (CellBytes Cell) in
    match (if CellBlob Cell && negb Ascii then Ok None else PyFloat (CellBytes Cell)) with
    | Ok (Some Value) => Ok (Computed Value)
    | Ok None =>
        Ok (Failed (md_failure (B "ValueError: could not convert string to float: '" ++ CellBytes Cell ++ B "'")))
    | Throw (UnsupportedInput What) => Ok (Failed (MkFailure true [] What))
    | Throw e => Throw e
    end.

Definition MdPython (Which : Side) (Row : nat) : M Impl dbl :=
  s ← get;
  Slot ← liftR (at_row (at_side Which (MdPy s)) Row);
  match (Slot : RatioEngine.Slot dbl) with
  | NotComputed =>
      New ← liftR (md_slot Which Row);
      modify (fun s => with_md (set_side Which (<[Row := New]> (at_side Which (MdPy s))) (MdPy s)) s);;
      liftR (slot_value New)
  | Slot => liftR (slot_value Slot)
  end.

Definition MdSqlOf (Value : option dbl) : res dbl :=
  match Value with
  | Some v => Ok v
  | None => Throw (DiaphoraWouldRaise (B "D:1672 float(md)")
              (B "TypeError: float() argument must be a string or a real number, not 'NoneType'"))
  end.

(** ** Constants *)

(** The parser's fuel is enough for every text. *)
Definition loads_list (Text : text) : res (list PyValue) :=
  default (Throw (CxxException (B "the model's fuel ran out"))) (PyJsonLoadsList Text).

(** [set(json.loads(row["constants"]))] of a row. *)
Definition const_slot (Which : Side) (Row : nat) : res (Slot PySet) :=
  Cell ← CellOf (Constants (Table Which)) Row;
  if CellNull Cell then
    Ok (Failed (MkFailure false (B "D:2813 json.loads(constants)")
      (B "TypeError: the JSON object must be str, bytes or bytearray, not NoneType")))
  else if CellBlob Cell then
    Ok (Failed (MkFailure true []
      (B "functions.constants is a BLOB (json.loads(bytes) encoding detection not ported)")))
  else
    match (Items ← loads_list (CellBytes Cell); PySetFromList Items) with
    | Ok Set_ => Ok (Computed Set_)
    | Throw (DiaphoraWouldRaise Site Detail) => Ok (Failed (MkFailure false Site Detail))
    | Throw (UnsupportedInput What) => Ok (Failed (MkFailure true [] What))
    | Throw e => Throw e
    end.

Definition ConstantsOf (Which : Side) (Row : nat) : M Impl PySet :=
  s ← get;
  Slot ← liftR (at_row (at_side Which (Consts s)) Row);
  match (Slot : RatioEngine.Slot PySet) with
  | NotComputed =>
      New ← liftR (const_slot Which Row);
      modify (fun s => with_consts (set_side Which (<[Row := New]> (at_side Which (Consts s))) (Consts s)) s);;
      liftR (slot_value New)
  | Slot => liftR (slot_value Slot)
  end.

(** ** [deep_ratio] *)

(** [Score += Add] when the condition holds. *)
Definition add_if (Condition : res bool) (Add Score : dbl) : res dbl :=
  b ← Condition;
  Ok (if (b : bool) then dadd Score Add else Score).

(** Both cells present, equal and not empty. *)
Definition same_text (f : FunctionTable -> TextColumn) (MainRow DiffRow : nat) : res bool :=
  A ← CellOf (f (Table MainSide)) MainRow;
  C ← CellOf (f (Table DiffSide)) DiffRow;
  Ok (negb (CellNull A) && negb (CellNull C) && PyEq A C && PyNe A []).

Definition same_int (f : FunctionTable -> IntColumn) (Name : text) (MainRow DiffRow : nat) : res bool :=
  b ← PyEqInt (f (Table MainSide)) MainRow (f (Table DiffSide)) DiffRow Name;
  if (b : bool) then PyNeZero (f (Table MainSide)) MainRow else Ok false.

Definition same_switches (MainRow DiffRow : nat) : res bool :=
  A ← CellOf (Switches (Table MainSide)) MainRow;
  C ← CellOf (Switches (Table DiffSide)) DiffRow;
  Ok (PyEq A C && PyNe A (B "[]")).

(** The part of the score that reads the tables only. *)
Definition table_score (MainRow DiffRow : nat) : res dbl :=
  Score ← add_if (same_text SourceFile MainRow DiffRow) d_0_001 d0;
  Score ← add_if (same_text PseudocodePrimes MainRow DiffRow) d_0_001 Score;
  Score ← add_if (same_int Indegree (B "indegree") MainRow DiffRow) d_0_001 Score;
  Score ← add_if (same_int Outdegree (B "outdegree") MainRow DiffRow) d_0_001 Score;
  Score ← add_if (same_switches MainRow DiffRow) d_0_003 Score;
  add_if (same_int CyclomaticComplexity (B "cyclomatic_complexity") MainRow DiffRow) d_0_001 Score.

(** [len(set_result) * tmp]. *)
Definition constants_bonus (Common : nat) : dbl :=
  dmul (d_of_Z (Z.of_nat Common))
    (if IsSameProcessor then kIncreaseRatioPerConstantMatchSameCpu else kIncreaseRatioPerConstantMatch).

Definition DeepScore (MainRow DiffRow : nat) : M Impl dbl :=
  EnsurePrepared;;
  Score ← liftR (table_score MainRow DiffRow);
  Cell ← liftR (CellOf (Constants (Table MainSide)) MainRow);
  if PyNe Cell (B "[]") then
    Set1 ← ConstantsOf MainSide MainRow;
    Set2 ← ConstantsOf DiffSide DiffRow;
    Common ← liftR (PySetIntersectionSize Set1 Set2);
    mret (if (0 <? Common)%nat then dadd Score (constants_bonus Common) else Score)
  else mret Score.

Definition CanonicalAddress (Ea : AddrId) (Site : text) : res text :=
  if bool_decide (Ea = kNoneAddr) then
    Throw (DiaphoraWouldRaise Site
      (B "TypeError: int() argument must be a string, a bytes-like object or a real number, not 'NoneType'"))
  else
    Text ← AddrText Ea ids;
    Canonical ← PyIntCanonical Text;
    match Canonical with
    | Some t => Ok t
    | None =>
        Throw (DiaphoraWouldRaise Site
          (B "ValueError: invalid literal for int() with base 10: '" ++ Text ++ B "'"))
    end.

Definition FetchRowByAddress (Which : Side) (Canonical Site : text) : res Z :=
  let T := Table Which in
  let Row := Id ← FindAddr Canonical ids; FindRow Id T in
  match Row with
  | None => Ok kNoRow
  | Some Row =>
      blob ← at_row (IsBlob (Address T)) (Z.to_nat Row);
      if (blob : bool) then Ok kNoRow
      else
        bad ← at_row (AnyColumnUtf8Bad T) (Z.to_nat Row);
        if (bad : bool) then
          Throw (DiaphoraWouldRaise Site (B "OperationalError: Could not decode to UTF-8 a functions column"))
        else Ok Row
  end.

(** The two rows of a pair of addresses. *)
Definition fetch_rows (Ea1 Ea2 : AddrId) : res (nat * nat) :=
  Address1 ← CanonicalAddress Ea1 (B "D:2763 deep_ratio int(ea1)");
  Address2 ← CanonicalAddress Ea2 (B "D:2764 deep_ratio int(ea2)");
  MainRow ← FetchRowByAddress MainSide Address1 (B "D:2775 deep_ratio fetchone (main)");
  DiffRow ← FetchRowByAddress DiffSide Address2 (B "D:2778 deep_ratio fetchone (diff)");
  if bool_decide (MainRow = kNoRow) then
    Throw (DiaphoraWouldRaise (B "D:2780 deep_ratio") (B "TypeError: 'NoneType' object is not subscriptable (main row)"))
  else if bool_decide (DiffRow = kNoRow) then
    Throw (DiaphoraWouldRaise (B "D:2781 deep_ratio") (B "TypeError: 'NoneType' object is not subscriptable (diff row)"))
  else Ok (Z.to_nat MainRow, Z.to_nat DiffRow).

Definition DeepRatioByAddress (Ea1 Ea2 : AddrId) : M Impl dbl :=
  '(MainRow, DiffRow) ← liftR (fetch_rows Ea1 Ea2);
  DeepScore MainRow DiffRow.

(** ** [check_ratio] *)

(** One of the two functions of the pair: its side and row. *)
Abbreviation func := (Side * nat)%type.

(** [v1]: raw pseudocode present on both sides, then the cleaned text. *)
Definition pseudo_ratio (Column : PreparedColumn) (F1 F2 : func) : res dbl :=
  Pseudo1 ← CellOf (Pseudocode (Table F1.1)) F1.2;
  Pseudo2 ← CellOf (Pseudocode (Table F2.1)) F2.2;
  if negb (CellNull Pseudo1) && negb (CellNull Pseudo2) && PyNe Pseudo1 [] && PyNe Pseudo2 [] then
    Clean1 ← CellOf (CleanPseudo (Table F1.1)) F1.2;
    Clean2 ← CellOf (CleanPseudo (Table F2.1)) F2.2;
    if IsEmptyStr Clean1 || IsEmptyStr Clean2 then Ok d0
    else
      q ← QuickPrepared Column F1.1 F1.2 F2.1 F2.2 (B "clean_pseudo");
      Ok (RoundDecimal7 q)
  else Ok d0.

Definition assembly_ratio (Column : PreparedColumn) (F1 F2 : func) : res dbl :=
  q ← QuickPrepared Column F1.1 F1.2 F2.1 F2.2 (B "clean_assembly");
  Ok (RoundDecimal7 q).

(** [v4]: equal positive MD-Indices lift the mean above 3/5. *)
Definition md_ratio (Md1 Md2 V1 V2 : dbl) : dbl :=
  if deq Md1 Md2 && dgt Md1 d0 then
    let X := ddiv (dadd (dadd (dadd V1 V2) d0) (d_of_Z 3)) (d_of_Z 5) in
    if dlt d1 X then d1 else X
  else d0.

(** [v5]: cleaned microcode present on both sides. *)
Definition microcode_ratio (Column : PreparedColumn) (F1 F2 : func) : res dbl :=
  Micro1 ← CellOf (CleanMicrocode (Table F1.1)) F1.2;
  Micro2 ← CellOf (CleanMicrocode (Table F2.1)) F2.2;
  if negb (CellNull Micro1) && negb (CellNull Micro2) then
    q ← QuickPrepared Column F1.1 F1.2 F2.1 F2.2 (B "clean_microcode");
    Ok (RoundDecimal7 q)
  else Ok d0.

(** The greatest of the values; 1.0 is given up when the MD-Indices differ. *)
Definition max_ratio (Values : list dbl) (R : dbl) : dbl :=
  foldl (fun R V => if dgt V R then V else R) R Values.
Definition max_below_one (Values : list dbl) : dbl :=
  foldl (fun R V => if negb (deq V d1) && dgt V R then V else R) d0 Values.
Definition guarded_max (Md1 Md2 : dbl) (V1 : dbl) (Values : list dbl) : dbl :=
  let R := max_ratio Values V1 in
  if deq R d1 && negb (deq Md1 Md2) then max_below_one Values else R.

(** [R += Score] below one, else 0.99. *)
Definition clamp (R Score : dbl) : dbl :=
  let Sum := dadd R Score in if dlt Sum d1 then Sum else d_0_99.

Definition same_bytes (F1 F2 : func) : res bool :=
  Hash1 ← CellOf (BytesHash (Table F1.1)) F1.2;
  Hash2 ← CellOf (BytesHash (Table F2.1)) F2.2;
  Ok (PyEq Hash1 Hash2).

Definition read_md (Src : MdSource) (F : func) (SqlMd : option dbl) : M Impl dbl :=
  match Src with Python => MdPython F.1 F.2 | Sql => liftR (MdSqlOf SqlMd) end.

Definition Compute_ (Ea1 Ea2 : AddrId) (F1 F2 : func) (Src : MdSource) (SqlMd1 SqlMd2 : option dbl) : M Impl dbl :=
  Md1 ← read_md Src F1 SqlMd1;
  Md2 ← read_md Src F2 SqlMd2;
  SameHash ← liftR (same_bytes F1 F2);
  if (SameHash : bool) then mret d1
  else
    s ← get;
    V1 ← liftR (pseudo_ratio (PseudoColumn s) F1 F2);
    V2 ← liftR (assembly_ratio (AssemblyColumn s) F1 F2);
    let V4 := md_ratio Md1 Md2 V1 V2 in
    V5 ← liftR (microcode_ratio (MicrocodeColumn s) F1 F2);
    if deq V5 d1 then mret d1
    else
      let R := guarded_max Md1 Md2 V1 [V1; V2; d0; V4; V5] in
      if dlt R d1 then
        Score ← DeepRatioByAddress Ea1 Ea2;
        mret (clamp R Score)
      else mret R.

Definition row_missing (Which : Side) (Row : Z) : bool :=
  bool_decide (Row = kNoRow) || (Z.of_nat (Count (Table Which)) <=? Row)%Z.

Definition ImplCheckRatio (Ea1 Ea2 : AddrId) (Side1 : Side) (Row1 : Z) (Side2 : Side) (Row2 : Z)
    (Src : MdSource) (SqlMd1 SqlMd2 : option dbl) : M Impl dbl :=
  Hit ← Find Ea1 Ea2;
  match (Hit : option dbl) with
  | Some R => mret R
  | None =>
      EnsurePrepared;;
      if row_missing Side1 Row1 || row_missing Side2 Row2 then
        throw (UnsupportedInput (B "check_ratio: an address of the pair has no function row"))
      else
        Ratio ← Compute_ Ea1 Ea2 (Side1, Z.to_nat Row1) (Side2, Z.to_nat Row2) Src SqlMd1 SqlMd2;
        Store Ea1 Ea2 Ratio;;
        mret Ratio
  end.

(** ** The public operations *)

Definition CheckRatio (Row : HeuristicRow) (Src : MdSource) : M Impl dbl :=
  ImplCheckRatio (RowEa1 Row) (RowEa2 Row) (Side1 Row) (Row1 Row) (Side2 Row) (Row2 Row) Src (Md1 Row) (Md2 Row).

Definition CompareFunctionRows (MainRow DiffRow : Z) : M Impl dbl :=
  let Main := main_of Tables in
  let Diff := diff_of Tables in
  if (Z.of_nat (Count Main) <=? MainRow)%Z || (Z.of_nat (Count Diff) <=? DiffRow)%Z then
    throw (UnsupportedInput (B "compare_function_rows: row out of range"))
  else
    b1 ← liftR (at_row (IsBlob (Address Main)) (Z.to_nat MainRow));
    b2 ← (if (b1 : bool) then mret true else liftR (at_row (IsBlob (Address Diff)) (Z.to_nat DiffRow)));
    if (b2 : bool) then
      throw (UnsupportedInput (B "compare_function_rows: a BLOB address (bytes in the cache key) is not ported"))
    else
      Ea1 ← liftR (at_row (AddrIdOf Main) (Z.to_nat MainRow));
      Ea2 ← liftR (at_row (AddrIdOf Diff) (Z.to_nat DiffRow));
      ImplCheckRatio Ea1 Ea2 MainSide MainRow DiffSide DiffRow Python None None.

Definition DeepRatio (MainRow DiffRow : Z) : M Impl dbl :=
  if (Z.of_nat (Count (main_of Tables)) <=? MainRow)%Z || (Z.of_nat (Count (diff_of Tables)) <=? DiffRow)%Z then
    throw (UnsupportedInput (B "deep_ratio: row out of range"))
  else DeepScore (Z.to_nat MainRow) (Z.to_nat DiffRow).

Definition CacheSnapshot (s : Impl) : list CacheEntry := Entries s.
End Engine.
