(* ===== verification/RatioCache.v ===== *)
(** * The cache of ratios is Python's dict

    (src/src/diff/Ratio.cpp, [Find] and [Store]) Python keys [ratios_cache] by
    the text of both addresses with a dash between them. The engine keys pairs
    of dash-free addresses by their ids and the other pairs by the text; both
    maps together behave like the one dict. *)

From Stdlib Require Import ZArith Lia SpecFloat.
From stdpp Require Import base option numbers list gmap.
From S2P Require Import Prelude Dbl Interner FunctionTable RatioEngine.

(** The dict: keys in insertion order with their values. *)
Definition key_of_entry (ids : Interners) (e : CacheEntry) : res text := TextKey ids (CacheEa1 e) (CacheEa2 e).

Fixpoint dict_find (ids : Interners) (Key : text) (l : list CacheEntry) : option dbl :=
  match l with
  | [] => None
  | e :: l' =>
      match key_of_entry ids e with
      | Ok k => if bool_decide (k = Key) then Some (CacheRatio e) else dict_find ids Key l'
      | Throw _ => dict_find ids Key l'
      end
  end.

(** What [SimpleAddr] answers. *)
Definition simple_id (ids : Interners) (Id : AddrId) : bool :=
  if bool_decide (Id = kNoneAddr) then false
  else match AddrText Id ids with Ok t => simple_text t | Throw _ => false end.

Definition both_simple_ids (ids : Interners) (Ea1 Ea2 : AddrId) : bool := simple_id ids Ea1 && simple_id ids Ea2.

(** The remembered answers are right. *)
Definition memo_ok (ids : Interners) (s : Impl) : Prop :=
  forall i b, SimpleById s !! i = Some (Some b) ->
    known_addr ids (N.of_nat i) -> simple_id ids (N.of_nat i) = b.

(** Both maps index exactly the entries of their kind. *)
Record cache_ok (ids : Interners) (s : Impl) : Prop := {
  co_id Ea1 Ea2 i : known_addr ids Ea1 -> known_addr ids Ea2 -> both_simple_ids ids Ea1 Ea2 = true ->
    ById s !! IdKey Ea1 Ea2 = Some i <->
    exists e, Entries s !! i = Some e /\ CacheEa1 e = Ea1 /\ CacheEa2 e = Ea2;
  co_text Key i : ByText s !! Key = Some i <->
    exists e, Entries s !! i = Some e /\ both_simple_ids ids (CacheEa1 e) (CacheEa2 e) = false /\
      key_of_entry ids e = Ok Key;
  co_known : Forall (fun e => known_addr ids (CacheEa1 e) /\ known_addr ids (CacheEa2 e)) (Entries s);
  co_memo : memo_ok ids s;
}.

Lemma cache_ok_empty (ids : Interners) : cache_ok ids EmptyImpl.
Proof.
  split; cbn.
  - intros Ea1 Ea2 i _ _ _. split; [done|]. by intros (e & He & _).
  - intros Key i. split; [done|]. by intros (e & He & _).
  - constructor.
  - done.
Qed.

(** ** Keys *)

Lemma known_addr_small (ids : Interners) (Id : AddrId) : wf_ids ids -> known_addr ids Id -> (Id < 2 ^ 32)%N.
Proof.
  intros Hwf [->|Hk]; [done|]. pose proof (wfi_room _ (wf_addrs _ Hwf)). unfold known, Size in Hk. lia.
Qed.

Lemma high_bits (y n : N) : (y < 2 ^ 32)%N -> (32 <= n)%N -> N.testbit y n = false.
Proof.
  intros Hy Hn. destruct (N.eq_dec y 0%N) as [->|H0]; [apply N.bits_0|]. apply N.bits_above_log2.
  apply N.log2_lt_pow2 in Hy; [lia|]. by apply N.neq_0_lt_0.
Qed.

Lemma IdKey_inj (a b a' b' : AddrId) : (b < 2 ^ 32)%N -> (b' < 2 ^ 32)%N ->
  IdKey a b = IdKey a' b' -> a = a' /\ b = b'.
Proof.
  intros Hb Hb' E. unfold IdKey in E.
  assert (forall x y, (y < 2 ^ 32)%N -> N.shiftr (N.lor (N.shiftl x 32) y) 32 = x /\
    N.land (N.lor (N.shiftl x 32) y) (N.ones 32) = y) as H.
  { intros x y Hy. split; apply N.bits_inj; intros n.
    - rewrite N.shiftr_spec', N.lor_spec, N.shiftl_spec_high' by lia.
      replace (n + 32 - 32)%N with n by lia. by rewrite (high_bits y), orb_false_r by (done || lia).
    - rewrite N.land_spec, N.lor_spec. destruct (N.lt_ge_cases n 32).
      + rewrite N.shiftl_spec_low, N.ones_spec_low, andb_true_r by done. done.
      + rewrite N.ones_spec_high, andb_false_r by done. symmetry. by apply high_bits. }
  destruct (H a b Hb) as [H1 H2]. destruct (H a' b' Hb') as [H3 H4]. rewrite E in H1, H2. split; congruence.
Qed.

Lemma TextKey_known (ids : Interners) (Ea1 Ea2 : AddrId) : known_addr ids Ea1 -> known_addr ids Ea2 ->
  exists k1 k2, AddrKeyText Ea1 ids = Ok k1 /\ AddrKeyText Ea2 ids = Ok k2 /\ TextKey ids Ea1 Ea2 = Ok (k1 ++ x2d :: k2).
Proof.
  intros H1 H2. destruct (AddrKeyText_known _ _ H1) as [k1 E1]. destruct (AddrKeyText_known _ _ H2) as [k2 E2].
  exists k1, k2. unfold TextKey. by rewrite E1, E2.
Qed.

Lemma simple_key (ids : Interners) (Id : AddrId) (t : text) :
  simple_id ids Id = true -> AddrKeyText Id ids = Ok t -> Id <> kNoneAddr /\ AddrText Id ids = Ok t /\ (x2d ∉ t) /\ t <> B "None".
Proof.
  unfold simple_id, AddrKeyText, AddrText, simple_text. case_bool_decide; [done|].
  destruct (Text _ _) as [u|]; [|done]. intros Hs [= <-]. bool_props. split_and!; try done.
Qed.

Lemma complex_key (ids : Interners) (Id : AddrId) (t : text) :
  simple_id ids Id = false -> AddrKeyText Id ids = Ok t -> x2d ∈ t \/ t = B "None".
Proof.
  unfold simple_id, AddrKeyText, AddrText, simple_text. case_bool_decide as H0; [intros _ [= <-]; by right|].
  destruct (Text _ _) as [u|]; [|done]. intros Hs [= <-].
  apply andb_false_iff in Hs as [Hs|Hs]; apply negb_false_iff, bool_decide_eq_true in Hs; [by right|by left].
Qed.

(** A pair with the key of a simple pair is that pair. *)
Lemma simple_pair_key (ids : Interners) (a b a' b' : AddrId) (Key : text) : wf_ids ids ->
  known_addr ids a -> known_addr ids b -> known_addr ids a' -> known_addr ids b' ->
  TextKey ids a b = Ok Key -> TextKey ids a' b' = Ok Key ->
  both_simple_ids ids a b = true -> a' = a /\ b' = b.
Proof.
  intros Hwf Ka Kb Ka' Kb' E E' Hs.
  destruct (TextKey_known ids a b Ka Kb) as (k1 & k2 & H1 & H2 & Hk). rewrite Hk in E. injection E as <-.
  destruct (TextKey_known ids a' b' Ka' Kb') as (k1' & k2' & H1' & H2' & Hk'). rewrite Hk' in E'. injection E' as E.
  unfold both_simple_ids in Hs. apply andb_true_iff in Hs as [S1 S2].
  destruct (simple_key _ _ _ S1 H1) as (Na & Ta & Da & Nn). destruct (simple_key _ _ _ S2 H2) as (Nb & Tb & Db & Nm).
  assert ((x2d ∉ k1') /\ (x2d ∉ k2')) as [D1' D2'].
  { assert (count_occ byte_eq_dec (k1' ++ x2d :: k2') x2d = 1) as HC.
    { rewrite E, count_occ_app. cbn [count_occ]. destruct (byte_eq_dec x2d x2d); [|done].
      rewrite (proj1 (count_occ_not_In byte_eq_dec k1 x2d)), (proj1 (count_occ_not_In byte_eq_dec k2 x2d)); [done| |];
        by rewrite <- list_elem_of_In. }
    rewrite count_occ_app in HC. cbn [count_occ] in HC. destruct (byte_eq_dec x2d x2d); [|done].
    split; rewrite list_elem_of_In; apply (count_occ_not_In byte_eq_dec); lia. }
  apply split_at_unique in E as [-> ->]; [|done|done].
  assert (forall i k, AddrKeyText i ids = Ok k -> x2d ∉ k -> k <> B "None" -> i <> kNoneAddr /\ AddrText i ids = Ok k) as Hsim.
  { intros i k Hi Hd Hn. destruct (simple_id ids i) eqn:Es; [by destruct (simple_key _ _ _ Es Hi) as (? & ? & _)|].
    by destruct (complex_key _ _ _ Es Hi). }
  destruct (Hsim a' k1 H1' Da Nn) as [Na' Ta']. destruct (Hsim b' k2 H2' Db Nm) as [Nb' Tb'].
  split; by eapply AddrText_inj.
Qed.

Lemma TextKey_kind (ids : Interners) (a b a' b' : AddrId) (Key : text) : wf_ids ids ->
  known_addr ids a -> known_addr ids b -> known_addr ids a' -> known_addr ids b' ->
  TextKey ids a b = Ok Key -> TextKey ids a' b' = Ok Key -> both_simple_ids ids a b = both_simple_ids ids a' b'.
Proof.
  intros Hwf Ka Kb Ka' Kb' E E'.
  destruct (both_simple_ids ids a b) eqn:S1.
  - by destruct (simple_pair_key ids a b a' b' Key) as [-> ->].
  - destruct (both_simple_ids ids a' b') eqn:S2; [|done].
    destruct (simple_pair_key ids a' b' a b Key) as [-> ->]; try done. congruence.
Qed.

(** ** The operations *)

(** Only the memo of the simple addresses changes. *)
Definition same_but_memo (s s' : Impl) : Prop := exists l, s' = with_simple l s.

Lemma same_but_memo_refl (s : Impl) : same_but_memo s s.
Proof. exists (SimpleById s). by destruct s. Qed.

Lemma same_but_memo_trans (s1 s2 s3 : Impl) : same_but_memo s1 s2 -> same_but_memo s2 s3 -> same_but_memo s1 s3.
Proof. intros [l ->] [k ->]. by exists k. Qed.

Lemma cache_ok_memo (ids : Interners) (s s' : Impl) :
  cache_ok ids s -> same_but_memo s s' -> memo_ok ids s' -> cache_ok ids s'.
Proof. intros [] [l ->] Hm. by split. Qed.

Lemma SimpleAddr_spec (ids : Interners) (Id : AddrId) (s : Impl) : known_addr ids Id -> memo_ok ids s ->
  exists s', SimpleAddr ids Id s = (s', Ok (simple_id ids Id)) /\ same_but_memo s s' /\ memo_ok ids s'.
Proof.
  intros Hk Hm. unfold SimpleAddr. case_bool_decide as H0.
  { exists s. unfold simple_id. rewrite bool_decide_true by done. split; [done|]. split; [apply same_but_memo_refl|done]. }
  set (Index := N.to_nat Id). unfold modify, get, liftR. unfold mbind at 1, M_bind at 1. cbv beta iota zeta.
  set (s1 := if (length (SimpleById s) <=? Index)%nat then _ else s).
  assert (same_but_memo s s1 /\ Index < length (SimpleById s1) /\ memo_ok ids s1) as (Hs1 & Hlt & Hm1).
  { unfold s1. destruct (Nat.leb_spec (length (SimpleById s)) Index); [|by split; [apply same_but_memo_refl|]].
    split; [by eexists|]. cbn [SimpleById with_simple]. rewrite length_app, length_replicate. split; [lia|].
    intros i b Hi. cbn [SimpleById with_simple] in Hi. rewrite lookup_app in Hi.
    destruct (SimpleById s !! i) as [x|] eqn:Ex; [injection Hi as ->; by apply Hm|].
    apply lookup_replicate in Hi as [? _]. done. }
  clearbody s1. unfold mbind, M_bind, at_row.
  destruct (lookup_lt_is_Some_2 _ _ Hlt) as [slot Hslot]. rewrite Hslot. cbv beta iota.
  destruct slot as [b|].
  { exists s1. pose proof (Hm1 Index b Hslot) as Hb. unfold Index in Hb. rewrite N2Nat.id in Hb. by rewrite Hb. }
  assert (exists t, AddrText Id ids = Ok t) as [t Ht].
  { unfold AddrText. rewrite bool_decide_false by done. destruct Hk as [|Hk]; [done|]. by apply known_text. }
  assert (simple_id ids Id = simple_text t) as Es by (unfold simple_id; by rewrite bool_decide_false, Ht).
  rewrite Ht. eexists. split; [by rewrite Es|]. split; [eapply same_but_memo_trans; [done|by eexists]|].
  intros i b Hi. cbn [SimpleById with_simple] in Hi. apply list_lookup_insert_Some in Hi as [(<- & [= <-] & _)|[_ Hi]].
  - intros _. unfold Index. by rewrite N2Nat.id, Es.
  - by apply Hm1.
Qed.

Lemma both_simple_spec (ids : Interners) (Ea1 Ea2 : AddrId) (s : Impl) :
  known_addr ids Ea1 -> known_addr ids Ea2 -> memo_ok ids s ->
  exists s', both_simple ids Ea1 Ea2 s = (s', Ok (both_simple_ids ids Ea1 Ea2)) /\ same_but_memo s s' /\ memo_ok ids s'.
Proof.
  intros H1 H2 Hm. unfold both_simple, both_simple_ids.
  destruct (SimpleAddr_spec ids Ea1 s H1 Hm) as (s1 & E1 & Hs1 & Hm1).
  unfold mbind, M_bind. rewrite E1. destruct (simple_id ids Ea1); cbn [andb]; [|by exists s1].
  destruct (SimpleAddr_spec ids Ea2 s1 H2 Hm1) as (s2 & E2 & Hs2 & Hm2). exists s2.
  split; [done|]. split; [by eapply same_but_memo_trans|done].
Qed.

(** The entry both maps lead to is the dict's entry. *)
Lemma dict_find_unique (ids : Interners) (Key : text) (l : list CacheEntry) (i : nat) (e : CacheEntry) :
  l !! i = Some e -> key_of_entry ids e = Ok Key ->
  (forall j e', l !! j = Some e' -> key_of_entry ids e' = Ok Key -> j = i) ->
  dict_find ids Key l = Some (CacheRatio e).
Proof.
  revert i. induction l as [|x l IH]; intros i Hi He Hu; [done|]. cbn [dict_find].
  destruct (key_of_entry ids x) as [k|] eqn:Ek; [case_bool_decide as C; [subst k|]|].
  - pose proof (Hu 0 x eq_refl Ek) as <-. simpl in Hi. by injection Hi as <-.
  - destruct i as [|i]; [simpl in Hi; congruence|]. apply (IH i); [done|done|].
    intros j e' Hj Hk. specialize (Hu (S j) e' Hj Hk). lia.
  - destruct i as [|i]; [simpl in Hi; congruence|]. apply (IH i); [done|done|].
    intros j e' Hj Hk. specialize (Hu (S j) e' Hj Hk). lia.
Qed.

Lemma dict_find_none (ids : Interners) (Key : text) (l : list CacheEntry) :
  (forall e, e ∈ l -> key_of_entry ids e <> Ok Key) -> dict_find ids Key l = None.
Proof.
  induction l as [|x l IH]; intros Hn; [done|]. cbn [dict_find].
  assert (dict_find ids Key l = None) as -> by (apply IH; intros e He; apply Hn; by right).
  specialize (Hn x ltac:(by left)). destruct (key_of_entry ids x); [|done]. case_bool_decide; congruence.
Qed.

(** The index the maps give for a pair. *)
Definition found_index (ids : Interners) (Ea1 Ea2 : AddrId) (Key : text) (s : Impl) : option nat :=
  if both_simple_ids ids Ea1 Ea2 then ById s !! IdKey Ea1 Ea2 else ByText s !! Key.

Lemma found_index_spec (ids : Interners) (s : Impl) (Ea1 Ea2 : AddrId) (Key : text) (i : nat) :
  wf_ids ids -> cache_ok ids s -> known_addr ids Ea1 -> known_addr ids Ea2 -> TextKey ids Ea1 Ea2 = Ok Key ->
  found_index ids Ea1 Ea2 Key s = Some i <-> exists e, Entries s !! i = Some e /\ key_of_entry ids e = Ok Key.
Proof.
  intros Hwf Hc H1 H2 HK. unfold found_index.
  assert (forall j e, Entries s !! j = Some e -> known_addr ids (CacheEa1 e) /\ known_addr ids (CacheEa2 e)) as Hkn.
  { intros j e He. pose proof (co_known _ _ Hc) as F. rewrite Forall_lookup in F. by apply (F j). }
  destruct (both_simple_ids ids Ea1 Ea2) eqn:S.
  - rewrite (co_id _ _ Hc) by done. split; intros (e & He & Hk).
    + exists e. split; [done|]. destruct Hk as [E1 E2]. unfold key_of_entry. by rewrite E1, E2.
    + exists e. split; [done|]. destruct (Hkn i e He) as [K1 K2]. by eapply (simple_pair_key ids Ea1 Ea2).
  - rewrite (co_text _ _ Hc). split; intros (e & He & Hk); exists e; (split; [done|]); [apply Hk|].
    split; [|done]. destruct (Hkn i e He) as [K1 K2]. rewrite <- S. by eapply TextKey_kind.
Qed.

Lemma found_index_dict (ids : Interners) (s : Impl) (Ea1 Ea2 : AddrId) (Key : text) :
  wf_ids ids -> cache_ok ids s -> known_addr ids Ea1 -> known_addr ids Ea2 -> TextKey ids Ea1 Ea2 = Ok Key ->
  match found_index ids Ea1 Ea2 Key s with
  | Some i => exists e, Entries s !! i = Some e /\ dict_find ids Key (Entries s) = Some (CacheRatio e)
  | None => dict_find ids Key (Entries s) = None
  end.
Proof.
  intros Hwf Hc H1 H2 HK. pose proof (found_index_spec ids s Ea1 Ea2 Key) as HF.
  destruct (found_index ids Ea1 Ea2 Key s) as [i|] eqn:E.
  - destruct (proj1 (HF i Hwf Hc H1 H2 HK) eq_refl) as (e & He & Hk). exists e. split; [done|].
    eapply dict_find_unique; [done|done|]. intros j e' Hj Hk'.
    assert (Some i = Some j) as [= ->]; [|done]. apply (HF j); [done..|]. by exists e'.
  - apply dict_find_none. intros e He Hk. apply list_elem_of_lookup_1 in He as [j Hj].
    assert (None = Some j); [|done]. apply (HF j); [done..|]. by exists e.
Qed.

Lemma entry_ratio_found (Found : option nat) (s : Impl) (r : option dbl) :
  match Found with
  | Some i => exists e, Entries s !! i = Some e /\ r = Some (CacheRatio e)
  | None => r = None
  end ->
  entry_ratio Found s = (s, Ok r).
Proof.
  destruct Found as [i|]; [|by intros ->]. intros (e & He & ->).
  unfold entry_ratio, mbind, M_bind, get, liftR, at_row. by rewrite He.
Qed.

Lemma same_but_memo_entries (s s' : Impl) : same_but_memo s s' -> Entries s' = Entries s.
Proof. by intros [l ->]. Qed.

Lemma Find_spec (ids : Interners) (s : Impl) (Ea1 Ea2 : AddrId) (Key : text) :
  wf_ids ids -> cache_ok ids s -> known_addr ids Ea1 -> known_addr ids Ea2 -> TextKey ids Ea1 Ea2 = Ok Key ->
  exists s', Find ids Ea1 Ea2 s = (s', Ok (dict_find ids Key (Entries s))) /\ same_but_memo s s' /\ cache_ok ids s'.
Proof.
  intros Hwf Hc H1 H2 HK.
  destruct (both_simple_spec ids Ea1 Ea2 s H1 H2 (co_memo _ _ Hc)) as (s' & E & Hs & Hm).
  pose proof (cache_ok_memo _ _ _ Hc Hs Hm) as Hc'. exists s'. split_and!; [|done|done].
  rewrite <- (same_but_memo_entries _ _ Hs).
  unfold Find. rewrite (M_bind_ok _ _ _ _ _ E). unfold mbind at 1, M_bind at 1, get at 1. cbv beta iota.
  pose proof (found_index_dict ids s' Ea1 Ea2 Key Hwf Hc' H1 H2 HK) as HF. unfold found_index in HF.
  destruct (both_simple_ids ids Ea1 Ea2); [|unfold mbind at 1, M_bind at 1, liftR at 1; rewrite HK; cbv beta iota];
    apply entry_ratio_found; by destruct (_ !! _).
Qed.

Lemma dict_find_snoc (ids : Interners) (Key : text) (l : list CacheEntry) (e : CacheEntry) :
  dict_find ids Key (l ++ [e]) =
  match dict_find ids Key l with
  | Some r => Some r
  | None => match key_of_entry ids e with
            | Ok k => if bool_decide (k = Key) then Some (CacheRatio e) else None
            | Throw _ => None
            end
  end.
Proof.
  induction l as [|x l IH]; cbn [app dict_find]; [done|].
  destruct (key_of_entry ids x); [case_bool_decide|]; done.
Qed.

(** The cache after a value is stored under a key it lacks. *)
Definition push_entry (ids : Interners) (Ea1 Ea2 : AddrId) (Key : text) (r : dbl) (s : Impl) : Impl :=
  let Index := length (Entries s) in
  let Pushed := Entries s ++ [MkCacheEntry Ea1 Ea2 r] in
  if both_simple_ids ids Ea1 Ea2 then with_cache (<[IdKey Ea1 Ea2 := Index]> (ById s)) (ByText s) Pushed s
  else with_cache (ById s) (<[Key := Index]> (ByText s)) Pushed s.

Lemma lookup_snoc_iff {A} (l : list A) (x y : A) (i : nat) :
  (l ++ [x]) !! i = Some y <-> l !! i = Some y \/ i = length l /\ x = y.
Proof.
  rewrite lookup_app. destruct (l !! i) as [z|] eqn:E.
  - split; [intros [= ->]; by left|]. intros [[= ->]|[-> _]]; [done|].
    apply lookup_lt_Some in E. lia.
  - apply lookup_ge_None in E. rewrite list_lookup_singleton_Some. split; [intros [? ->]; right; split; [lia|done]|].
    intros [?|[-> ->]]; [done|split; [lia|done]].
Qed.

Lemma cache_ok_push (ids : Interners) (s : Impl) (Ea1 Ea2 : AddrId) (Key : text) (r : dbl) :
  wf_ids ids -> cache_ok ids s -> known_addr ids Ea1 -> known_addr ids Ea2 -> TextKey ids Ea1 Ea2 = Ok Key ->
  found_index ids Ea1 Ea2 Key s = None -> cache_ok ids (push_entry ids Ea1 Ea2 Key r s).
Proof.
  intros Hwf Hc H1 H2 HK HN. unfold found_index in HN. unfold push_entry.
  destruct (both_simple_ids ids Ea1 Ea2) eqn:S; split; cbn [with_cache ById ByText Entries SimpleById].
  - intros a b i Ka Kb Sab. setoid_rewrite lookup_snoc_iff. rewrite lookup_insert_Some, (co_id _ _ Hc) by done.
    split.
    + intros [[E <-]|[_ (e & He & Hab)]]; [|exists e; tauto].
      apply IdKey_inj in E as [-> ->]; [|by eapply known_addr_small..]. eexists. split; [by right|done].
    + intros (e & [He|[-> <-]] & Ea & Eb); [|left; cbn in Ea, Eb; by subst]. right. split; [|by exists e].
      intros E. apply IdKey_inj in E as [-> ->]; [|by eapply known_addr_small..].
      assert (ById s !! IdKey a b = Some i); [|congruence]. apply (co_id _ _ Hc); [done..|]. by exists e.
  - intros K i. setoid_rewrite lookup_snoc_iff. rewrite (co_text _ _ Hc). split.
    + intros (e & He & ?). exists e. tauto.
    + intros (e & [He|[-> <-]] & Sf & He'); [by exists e|]. cbn in Sf. congruence.
  - apply Forall_app. split; [apply Hc|]. apply Forall_singleton. by split.
  - apply Hc.
  - intros a b i Ka Kb Sab. setoid_rewrite lookup_snoc_iff. rewrite (co_id _ _ Hc) by done. split.
    + intros (e & He & ?). exists e. tauto.
    + intros (e & [He|[-> <-]] & Ea & Eb); [by exists e|]. cbn in Ea, Eb. subst. congruence.
  - intros K i. setoid_rewrite lookup_snoc_iff. rewrite lookup_insert_Some, (co_text _ _ Hc). split.
    + intros [[<- <-]|[_ (e & He & ?)]]; [|exists e; tauto]. eexists. split; [by right|done].
    + intros (e & [He|[-> <-]] & Sf & He'); [|left; cbn in He'; unfold key_of_entry in He'; cbn in He'; split; congruence].
      right. split; [|by exists e]. intros <-.
      assert (ByText s !! Key = Some i); [|congruence]. apply (co_text _ _ Hc). by exists e.
  - apply Forall_app. split; [apply Hc|]. apply Forall_singleton. by split.
  - apply Hc.
Qed.

(** What one call stores: nothing when the key is there. *)
Definition dict_store (ids : Interners) (Key : text) (e : CacheEntry) (l : list CacheEntry) : list CacheEntry :=
  match dict_find ids Key l with Some _ => l | None => l ++ [e] end.

(** The states differ in the cache and the memo only. *)
Definition same_but_cache (s s' : Impl) : Prop :=
  exists i t e l, s' = with_simple l (with_cache i t e s).

Lemma same_but_memo_cache (s s' : Impl) : same_but_memo s s' -> same_but_cache s s'.
Proof. intros [l ->]. exists (ById s), (ByText s), (Entries s), l. by destruct s. Qed.

Lemma Store_spec (ids : Interners) (s : Impl) (Ea1 Ea2 : AddrId) (Key : text) (r : dbl) :
  wf_ids ids -> cache_ok ids s -> known_addr ids Ea1 -> known_addr ids Ea2 -> TextKey ids Ea1 Ea2 = Ok Key ->
  exists s', Store ids Ea1 Ea2 r s = (s', Ok tt) /\ cache_ok ids s' /\ same_but_cache s s' /\
    Entries s' = dict_store ids Key (MkCacheEntry Ea1 Ea2 r) (Entries s).
Proof.
  intros Hwf Hc H1 H2 HK.
  destruct (both_simple_spec ids Ea1 Ea2 s H1 H2 (co_memo _ _ Hc)) as (s1 & E & Hs & Hm).
  pose proof (cache_ok_memo _ _ _ Hc Hs Hm) as Hc1.
  exists (match found_index ids Ea1 Ea2 Key s1 with Some _ => s1 | None => push_entry ids Ea1 Ea2 Key r s1 end).
  pose proof (found_index_dict ids s1 Ea1 Ea2 Key Hwf Hc1 H1 H2 HK) as HF.
  pose proof (fun HN => cache_ok_push ids s1 Ea1 Ea2 Key r Hwf Hc1 H1 H2 HK HN) as HP.
  assert (Store ids Ea1 Ea2 r s =
    (match found_index ids Ea1 Ea2 Key s1 with Some _ => s1 | None => push_entry ids Ea1 Ea2 Key r s1 end, Ok tt)) as ->.
  { unfold Store. rewrite (M_bind_ok _ _ _ _ _ E). unfold found_index, push_entry, put, mret, M_ret.
    unfold mbind, M_bind, get, liftR. rewrite HK. by destruct (both_simple_ids ids Ea1 Ea2), (_ !! _). }
  split; [done|]. unfold dict_store. rewrite <- (same_but_memo_entries _ _ Hs).
  destruct (found_index ids Ea1 Ea2 Key s1) as [i|].
  - destruct HF as (e & _ & ->). split_and!; [done|by apply same_but_memo_cache|done].
  - rewrite HF. split_and!; [by apply HP| |].
    + destruct Hs as [l ->]. unfold push_entry.
      destruct (both_simple_ids ids Ea1 Ea2); do 3 eexists; exists l; by destruct s.
    + unfold push_entry. by destruct (both_simple_ids ids Ea1 Ea2).
Qed.
