(* ===== verification/RatioSpec.v ===== *)
(** * The ratio engine against Python's check_ratio

    The reference below is written the way the Python code computes a ratio:
    one dict of ratios keyed by text, no prepared columns, no remembered
    values. The engine with its two cache maps, its prepared runs of line ids
    and its lazily filled slots simulates it. *)

From Stdlib Require Import ZArith Lia SpecFloat.
From stdpp Require Import base option numbers list gmap.
From S2P Require Import Prelude Dbl Interner PyValues Consumer FunctionTable PreparedText PreparedTextSpec.
From S2P Require Import RoundSeven RatioEngine RatioCache.

(** The dict an entry list stands for. *)
Definition dict_of (ids : Interners) (l : list CacheEntry) : gmap text dbl :=
  foldr (fun e m => match key_of_entry ids e with Ok k => <[k := CacheRatio e]> m | Throw _ => m end) ∅ l.

Lemma dict_of_find (ids : Interners) (l : list CacheEntry) (Key : text) : dict_of ids l !! Key = dict_find ids Key l.
Proof.
  induction l as [|e l IH]; cbn [dict_of foldr dict_find]; [apply lookup_empty|].
  destruct (key_of_entry ids e) as [k|]; [|done]. rewrite lookup_insert, <- IH.
  by repeat case_decide || case_bool_decide.
Qed.

Lemma dict_of_store (ids : Interners) (l : list CacheEntry) (e : CacheEntry) (Key : text) :
  key_of_entry ids e = Ok Key ->
  dict_of ids (dict_store ids Key e l)
  = match dict_of ids l !! Key with Some _ => dict_of ids l | None => <[Key := CacheRatio e]> (dict_of ids l) end.
Proof.
  intros He. unfold dict_store. rewrite dict_of_find. destruct (dict_find ids Key l) eqn:E; [done|].
  apply map_eq. intros K. rewrite lookup_insert, !dict_of_find, dict_find_snoc, He.
  case_decide as C; [subst K; by rewrite E, bool_decide_true|].
  destruct (dict_find ids K l); [done|]. by rewrite bool_decide_false.
Qed.

Section Reference.
Context (Tables : sided FunctionTable) (IsSameProcessor : bool) (ids : Interners).

Abbreviation Table := (RatioEngine.Table Tables).
Abbreviation func := (Side * nat)%type.

(** ** The reference *)

Abbreviation Dict := (gmap text dbl).

Definition py_md (Src : MdSource) (F : func) (SqlMd : option dbl) : res dbl :=
  match Src with
  | Python => Slot ← md_slot Tables F.1 F.2; slot_value Slot
  | Sql => MdSqlOf SqlMd
  end.

Definition py_constants (Which : Side) (Row : nat) : res PySet :=
  Slot ← const_slot Tables Which Row; slot_value Slot.

Definition py_deep_score (MainRow DiffRow : nat) : res dbl :=
  Score ← table_score Tables MainRow DiffRow;
  Cell ← CellOf (Constants (Table MainSide)) MainRow;
  if PyNe Cell (B "[]") then
    Set1 ← py_constants MainSide MainRow;
    Set2 ← py_constants DiffSide DiffRow;
    Common ← PySetIntersectionSize Set1 Set2;
    Ok (if (0 <? Common)%nat then dadd Score (constants_bonus IsSameProcessor Common) else Score)
  else Ok Score.

(** The quick ratio of two cells of a column. *)
Definition py_quick (f : FunctionTable -> TextColumn) (Name : text) (F1 F2 : func) : res dbl :=
  A ← CellOf (f (Table F1.1)) F1.2;
  C ← CellOf (f (Table F2.1)) F2.2;
  quick_cells Name A C.

Definition py_v1 (F1 F2 : func) : res dbl :=
  Pseudo1 ← CellOf (Pseudocode (Table F1.1)) F1.2;
  Pseudo2 ← CellOf (Pseudocode (Table F2.1)) F2.2;
  if negb (CellNull Pseudo1) && negb (CellNull Pseudo2) && PyNe Pseudo1 [] && PyNe Pseudo2 [] then
    q ← py_quick CleanPseudo (B "clean_pseudo") F1 F2; Ok (RoundDecimal7 q)
  else Ok d0.

Definition py_v2 (F1 F2 : func) : res dbl :=
  q ← py_quick CleanAssembly (B "clean_assembly") F1 F2; Ok (RoundDecimal7 q).

Definition py_v5 (F1 F2 : func) : res dbl :=
  q ← py_quick CleanMicrocode (B "clean_microcode") F1 F2; Ok (RoundDecimal7 q).

Definition py_compute (Ea1 Ea2 : AddrId) (F1 F2 : func) (Src : MdSource) (SqlMd1 SqlMd2 : option dbl) : res dbl :=
  Md1 ← py_md Src F1 SqlMd1;
  Md2 ← py_md Src F2 SqlMd2;
  SameHash ← same_bytes Tables F1 F2;
  if (SameHash : bool) then Ok d1
  else
    V1 ← py_v1 F1 F2;
    V2 ← py_v2 F1 F2;
    V5 ← py_v5 F1 F2;
    if deq V5 d1 then Ok d1
    else
      let R := guarded_max Md1 Md2 V1 [V1; V2; d0; md_ratio Md1 Md2 V1 V2; V5] in
      if dlt R d1 then
        '(MainRow, DiffRow) ← fetch_rows Tables ids Ea1 Ea2;
        Score ← py_deep_score MainRow DiffRow;
        Ok (clamp R Score)
      else Ok R.

Definition py_check_ratio (Ea1 Ea2 : AddrId) (Side1 : Side) (Row1 : Z) (Side2 : Side) (Row2 : Z)
    (Src : MdSource) (SqlMd1 SqlMd2 : option dbl) : M Dict dbl :=
  Key ← liftR (TextKey ids Ea1 Ea2);
  ratios_cache ← get;
  match (ratios_cache : Dict) !! Key with
  | Some R => mret R
  | None =>
      if row_missing Tables Side1 Row1 || row_missing Tables Side2 Row2 then
        throw (UnsupportedInput (B "check_ratio: an address of the pair has no function row"))
      else
        R ← liftR (py_compute Ea1 Ea2 (Side1, Z.to_nat Row1) (Side2, Z.to_nat Row2) Src SqlMd1 SqlMd2);
        put (<[Key := R]> ratios_cache);;
        mret R
  end.

(** ** Well-formed tables and states *)

(** The columns have a cell for every row; the rows of the address map exist. *)
Record wf_table (T : FunctionTable) : Prop := {
  wt_columns : Forall (fun c => ColumnSize c = Count T /\ readable c) [CleanPseudo T; CleanAssembly T; CleanMicrocode T];
  wt_rows Ea r : RowByAddr T !! Ea = Some r -> (0 <= r < Z.of_nat (Count T))%Z;
  wt_addrs : Forall (known_addr ids) (AddrIdOf T);
}.

Record wf_tables : Prop := {
  wt_sides w : wf_table (Table w);
  wt_small : small_columns (columns Tables CleanPseudo) /\ small_columns (columns Tables CleanAssembly) /\
    small_columns (columns Tables CleanMicrocode);
}.

(** A slot holds the value of its row or nothing. *)
Definition slots_ok {A : Type} (value : Side -> nat -> res (Slot A)) (slots : sided (list (Slot A))) : Prop :=
  forall w, length (at_side w slots) = Count (Table w) /\
    forall r v, at_side w slots !! r = Some v -> v <> NotComputed -> value w r = Ok v.

Record prepared_ok (s : Impl) : Prop := {
  po_main : PreparedMain s = Count (main_of Tables);
  po_diff : PreparedDiff s = Count (diff_of Tables);
  po_pseudo : prepared_for (columns Tables CleanPseudo) (PseudoColumn s);
  po_assembly : prepared_for (columns Tables CleanAssembly) (AssemblyColumn s);
  po_microcode : prepared_for (columns Tables CleanMicrocode) (MicrocodeColumn s);
  po_md : slots_ok (md_slot Tables) (MdPy s);
  po_consts : slots_ok (const_slot Tables) (Consts s);
}.

Record impl_ok (s : Impl) : Prop := {
  io_cache : cache_ok ids s;
  io_prepared : Prepared s = true -> prepared_ok s;
}.

Definition Ratios (s : Impl) : Dict := dict_of ids (Entries s).

(** The computation does to the state what the reference does to the dict. *)
Definition simulates {A : Type} (needs : bool) (m : M Impl A) (p : M Dict A) : Prop :=
  forall s, impl_ok s -> (needs = true -> Prepared s = true) ->
    exists s', m s = (s', (p (Ratios s)).2) /\ Ratios s' = (p (Ratios s)).1 /\ impl_ok s' /\
      (Prepared s = true -> Prepared s' = true).

Lemma simulates_lift {A : Type} (b : bool) (r : res A) : simulates b (liftR r) (liftR r).
Proof. intros s Hs _. by exists s. Qed.

Lemma simulates_bind {A C : Type} (b : bool) (m : M Impl A) (p : M Dict A) (f : A -> M Impl C) (g : A -> M Dict C) :
  simulates b m p -> (forall a, simulates b (f a) (g a)) -> simulates b (m ≫= f) (p ≫= g).
Proof.
  intros Hm Hf s Hs Hb. destruct (Hm s Hs Hb) as (s1 & E & HD & Hs1 & HP).
  unfold mbind, M_bind. rewrite E. destruct (p (Ratios s)) as [D [a|e]]; cbn in *; [|by exists s1].
  subst D. destruct (Hf a s1 Hs1) as (s2 & E2 & HD2 & Hs2 & HP2); [auto|]. exists s2. split_and!; auto.
Qed.

(** A computation without an effect on the dict. *)
Lemma simulates_res {A C : Type} (b : bool) (m : M Impl A) (r : res A) (f : A -> M Impl C) (g : A -> res C) :
  simulates b m (liftR r) -> (forall a, r = Ok a -> simulates b (f a) (liftR (g a))) ->
  simulates b (m ≫= f) (liftR (r ≫= g)).
Proof.
  intros Hm Hf s Hs Hb. destruct (Hm s Hs Hb) as (s1 & E & HD & Hs1 & HP).
  unfold mbind, M_bind. rewrite E. cbn [fst snd liftR] in *. destruct r as [a|e]; [|by exists s1].
  destruct (Hf a eq_refl s1 Hs1) as (s2 & E2 & HD2 & Hs2 & HP2); [auto|].
  exists s2. rewrite <- HD. split_and!; auto.
Qed.

Lemma simulates_get {C : Type} (b : bool) (f : Impl -> M Impl C) (p : M Dict C) :
  (forall s, impl_ok s -> (b = true -> prepared_ok s) -> simulates b (f s) p) -> simulates b (get ≫= f) p.
Proof. intros H s Hs Hb. apply H; [done| |done|done]. intros E. by apply io_prepared, Hb. Qed.

Lemma simulates_ret {A : Type} (b : bool) (a : A) : simulates b (mret a) (liftR (Ok a)).
Proof. apply simulates_lift. Qed.

Lemma simulates_ext {A : Type} (b : bool) (m : M Impl A) (p q : M Dict A) :
  (forall D, p D = q D) -> simulates b m p -> simulates b m q.
Proof. intros E H s Hs Hb. rewrite <- E. by apply H. Qed.

(** ** Preparation *)

Lemma slots_ok_fresh {A : Type} (value : Side -> nat -> res (Slot A)) :
  slots_ok value (MkSided (replicate (Count (main_of Tables)) NotComputed) (replicate (Count (diff_of Tables)) NotComputed)).
Proof.
  intros []; cbn [at_side main_of diff_of]; (split; [apply length_replicate|]);
    intros r v Hv Hn; apply lookup_replicate in Hv as [-> _]; done.
Qed.

Lemma wf_columns (f : FunctionTable -> TextColumn) : wf_tables ->
  (forall T, f T ∈ [CleanPseudo T; CleanAssembly T; CleanMicrocode T]) ->
  forall w, ColumnSize (at_side w (columns Tables f)) = Count (Table w) /\ readable (at_side w (columns Tables f)).
Proof.
  intros Hwf Hf w. destruct (wt_sides Hwf w) as [Hc _ _]. rewrite Forall_forall in Hc.
  by destruct w; apply (Hc _ (Hf _)).
Qed.

Lemma PrepareAll_spec (s : Impl) : wf_tables -> impl_ok s ->
  exists s', PrepareAll Tables s = (s', Ok tt) /\ Ratios s' = Ratios s /\ impl_ok s' /\ Prepared s' = true.
Proof.
  intros Hwf Hs. destruct (wt_small Hwf) as (S1 & S2 & S3).
  assert (forall f, (forall T, f T ∈ [CleanPseudo T; CleanAssembly T; CleanMicrocode T]) ->
    small_columns (columns Tables f) ->
    exists c, PrepareColumn (columns Tables f) = Ok c /\ prepared_for (columns Tables f) c) as Hprep.
  { intros f Hf Hsmall. pose proof (wf_columns f Hwf Hf) as Hc.
    apply PrepareColumn_spec; [apply (Hc MainSide)|apply (Hc DiffSide)|done]. }
  destruct (Hprep CleanPseudo) as (c1 & E1 & P1); [intros T; set_solver|done|].
  destruct (Hprep CleanAssembly) as (c2 & E2 & P2); [intros T; set_solver|done|].
  destruct (Hprep CleanMicrocode) as (c3 & E3 & P3); [intros T; set_solver|done|].
  unfold PrepareAll. unfold mbind, M_bind, liftR, modify. rewrite E1, E2, E3. eexists. split; [reflexivity|].
  split; [done|]. split; [|done]. split; [by destruct Hs as [[] _]; split|].
  intros _. split; cbn; try done; apply slots_ok_fresh.
Qed.

Lemma EnsurePrepared_spec (s : Impl) : wf_tables -> impl_ok s ->
  exists s', EnsurePrepared Tables s = (s', Ok tt) /\ Ratios s' = Ratios s /\ impl_ok s' /\ Prepared s' = true.
Proof.
  intros Hwf Hs. unfold EnsurePrepared, mbind, M_bind, get. cbv beta iota.
  destruct (negb (Prepared s)) eqn:E; [by apply PrepareAll_spec|]. apply negb_false_iff in E.
  destruct (io_prepared _ Hs E) as [-> ->]. rewrite !Nat.eqb_refl. by exists s.
Qed.

Lemma simulates_ensure {A : Type} (b : bool) (m : M Impl A) (p : M Dict A) : wf_tables ->
  simulates true m p -> simulates b (EnsurePrepared Tables;; m) p.
Proof.
  intros Hwf Hm s Hs _. destruct (EnsurePrepared_spec s Hwf Hs) as (s1 & E & HD & Hs1 & HP).
  unfold mbind, M_bind. rewrite E. rewrite <- HD. destruct (Hm s1 Hs1) as (s2 & E2 & HD2 & Hs2 & HP2); [done|].
  exists s2. split_and!; auto.
Qed.

(** ** Lazily filled slots *)

Lemma slots_set {A : Type} (value : Side -> nat -> res (Slot A)) (slots : sided (list (Slot A))) (w : Side) (r : nat) (v : Slot A) :
  slots_ok value slots -> value w r = Ok v ->
  slots_ok value (set_side w (<[r := v]> (at_side w slots)) slots).
Proof.
  intros Hs Hv u. specialize (Hs u) as [Hl Hval].
  assert (at_side u (set_side w (<[r := v]> (at_side w slots)) slots)
    = if bool_decide (u = w) then <[r := v]> (at_side u slots) else at_side u slots) as ->
    by (by destruct u, w, slots).
  case_bool_decide as E; [subst u|done]. rewrite length_insert. split; [done|].
  intros q x Hq Hn. apply list_lookup_insert_Some in Hq as [(<- & <- & _)|[_ Hq]]; [done|by apply Hval].
Qed.

Lemma slot_lookup {A : Type} (value : Side -> nat -> res (Slot A)) (slots : sided (list (Slot A))) (w : Side) (r : nat) :
  slots_ok value slots -> (r < Count (Table w))%nat -> exists v, at_side w slots !! r = Some v.
Proof. intros Hs Hr. destruct (Hs w) as [Hl _]. apply lookup_lt_is_Some_2. by rewrite Hl. Qed.

(** [MdPython] and [ConstantsOf] have one shape: read the slot, fill it when
    it is empty, give its value. *)
Definition memoised {A : Type} (value : Side -> nat -> res (Slot A)) (slots : Impl -> sided (list (Slot A)))
    (store : sided (list (Slot A)) -> Impl -> Impl) (w : Side) (r : nat) : M Impl A :=
  s ← get;
  Slot ← liftR (at_row (at_side w (slots s)) r);
  match (Slot : RatioEngine.Slot A) with
  | NotComputed =>
      New ← liftR (value w r);
      modify (fun s => store (set_side w (<[r := New]> (at_side w (slots s))) (slots s)) s);;
      liftR (slot_value New)
  | Slot => liftR (slot_value Slot)
  end.

Lemma memoised_simulates {A : Type} (value : Side -> nat -> res (Slot A)) (slots : Impl -> sided (list (Slot A)))
    (store : sided (list (Slot A)) -> Impl -> Impl) (w : Side) (r : nat) :
  (r < Count (Table w))%nat ->
  (forall s, prepared_ok s -> slots_ok value (slots s)) ->
  (forall s x, impl_ok s -> Prepared s = true -> slots_ok value x ->
     impl_ok (store x s) /\ Entries (store x s) = Entries s /\ Prepared (store x s) = true) ->
  simulates true (memoised value slots store w r) (liftR (Slot ← value w r; slot_value Slot)).
Proof.
  intros Hr Hslots Hstore s Hs HP. specialize (HP eq_refl).
  specialize (Hslots s (io_prepared _ Hs HP)). destruct (slot_lookup _ _ w r Hslots Hr) as [v Hv].
  unfold memoised, mbind at 1, M_bind at 1, get at 1. cbv beta iota.
  unfold mbind at 1, M_bind at 1, liftR at 1, at_row. rewrite Hv. cbv beta iota.
  assert (v <> NotComputed -> value w r = Ok v) as Hval by (by apply (Hslots w)).
  destruct v as [|x|e]; [|rewrite Hval by done; by exists s..].
  unfold mbind, M_bind, liftR. destruct (value w r) as [New|e] eqn:E; [|by exists s].
  unfold modify. cbv beta iota. destruct (Hstore s _ Hs HP (slots_set _ _ w r New Hslots E)) as (H1 & H2 & H3).
  eexists. split; [reflexivity|]. split; [unfold Ratios; by rewrite H2|]. done.
Qed.

Lemma MdPython_simulates (w : Side) (r : nat) : (r < Count (Table w))%nat ->
  simulates true (MdPython Tables w r) (liftR (Slot ← md_slot Tables w r; slot_value Slot)).
Proof.
  intros Hr. apply (memoised_simulates (md_slot Tables) MdPy with_md); [done|by intros s []|].
  intros s x [Hc Hp] HP Hx. specialize (Hp HP). split_and!; [|done|done].
  split; [by destruct Hc; split|]. intros _. by destruct Hp; split.
Qed.

Lemma ConstantsOf_simulates (w : Side) (r : nat) : (r < Count (Table w))%nat ->
  simulates true (ConstantsOf Tables w r) (liftR (py_constants w r)).
Proof.
  intros Hr. apply (memoised_simulates (const_slot Tables) Consts with_consts); [done|by intros s []|].
  intros s x [Hc Hp] HP Hx. specialize (Hp HP). split_and!; [|done|done].
  split; [by destruct Hc; split|]. intros _. by destruct Hp; split.
Qed.

(** ** The computation *)

#[local] Hint Resolve simulates_lift simulates_ret : core.

Lemma DeepScore_simulates (b : bool) (MainRow DiffRow : nat) : wf_tables ->
  (MainRow < Count (main_of Tables))%nat -> (DiffRow < Count (diff_of Tables))%nat ->
  simulates b (DeepScore Tables IsSameProcessor MainRow DiffRow) (liftR (py_deep_score MainRow DiffRow)).
Proof.
  intros Hwf HM HD. unfold DeepScore, py_deep_score. apply simulates_ensure; [done|].
  apply simulates_res; [done|]. intros Score _. apply simulates_res; [done|]. intros Cell _.
  destruct (PyNe Cell _); [|done].
  apply simulates_res; [by apply ConstantsOf_simulates|]. intros Set1 _.
  apply simulates_res; [by apply ConstantsOf_simulates|]. intros Set2 _. by apply simulates_res.
Qed.

Lemma FetchRow_in_table (w : Side) (Canonical Site : text) (r : Z) : wf_tables ->
  FetchRowByAddress Tables ids w Canonical Site = Ok r -> r = kNoRow \/ (0 <= r < Z.of_nat (Count (Table w)))%Z.
Proof.
  intros Hwf. unfold FetchRowByAddress. destruct (FindAddr Canonical ids) as [Id|]; cbn; [|intros [= <-]; by left].
  destruct (FindRow Id (Table w)) as [q|] eqn:E; [|intros [= <-]; by left].
  unfold mbind, res_bind. destruct (at_row _ _) as [[]|]; [intros [= <-]; by left| |done].
  destruct (at_row _ _) as [[]|]; [done| |done]. intros [= <-]. right.
  by eapply wt_rows; [apply wt_sides|].
Qed.

Lemma fetch_rows_in_table (Ea1 Ea2 : AddrId) (r1 r2 : nat) : wf_tables ->
  fetch_rows Tables ids Ea1 Ea2 = Ok (r1, r2) ->
  (r1 < Count (main_of Tables))%nat /\ (r2 < Count (diff_of Tables))%nat.
Proof.
  intros Hwf. unfold fetch_rows. unfold mbind, res_bind.
  destruct (CanonicalAddress _ _ _) as [A1|]; [|done]. destruct (CanonicalAddress _ _ _) as [A2|]; [|done].
  destruct (FetchRowByAddress _ _ MainSide _ _) as [m|] eqn:E1; [|done].
  destruct (FetchRowByAddress _ _ DiffSide _ _) as [d|] eqn:E2; [|done].
  apply FetchRow_in_table in E1, E2; [|done..].
  case_bool_decide; [done|]. case_bool_decide; [done|]. intros [= <- <-].
  destruct E1 as [|E1]; [done|]. destruct E2 as [|E2]; [done|]. cbn in E1, E2. lia.
Qed.

(** The prepared columns give the quick ratio of the cells. *)
Lemma quick_simulates (f : FunctionTable -> TextColumn) (c : PreparedColumn) (Name : text) (F1 F2 : func) :
  wf_tables -> (forall T, f T ∈ [CleanPseudo T; CleanAssembly T; CleanMicrocode T]) ->
  small_columns (columns Tables f) -> prepared_for (columns Tables f) c ->
  (F1.2 < Count (Table F1.1))%nat -> (F2.2 < Count (Table F2.1))%nat ->
  QuickPrepared c F1.1 F1.2 F2.1 F2.2 Name = py_quick f Name F1 F2 /\
  exists x y, CellOf (f (Table F1.1)) F1.2 = Ok x /\ CellOf (f (Table F2.1)) F2.2 = Ok y.
Proof.
  intros Hwf Hf Hsmall Hp H1 H2. pose proof (wf_columns f Hwf Hf) as Hc.
  assert (forall w, at_side w (columns Tables f) = f (Table w)) as Hside by (by intros []).
  destruct (Hc F1.1) as [L1 R1]. destruct (Hc F2.1) as [L2 R2].
  destruct (R1 F1.2) as [x Hx]; [by rewrite L1|]. destruct (R2 F2.2) as [y Hy]; [by rewrite L2|].
  rewrite (QuickPrepared_cells _ c Hsmall Hp F1.1 F1.2 F2.1 F2.2 x y) by (done || by rewrite ?L1, ?L2).
  rewrite Hside in Hx, Hy. unfold py_quick. rewrite Hx, Hy. split; [done|by exists x, y].
Qed.

Lemma quick_empty (Name : text) (x y : TextCell) : IsEmptyStr x || IsEmptyStr y = true -> quick_cells Name x y = Ok d0.
Proof.
  unfold IsEmptyStr, quick_cells. intros H. destruct (CellNull x), (CellNull y); cbn in H |- *; try done.
  by rewrite H.
Qed.

Definition row_ok (F : func) : Prop := (F.2 < Count (Table F.1))%nat.

Lemma pseudo_is_v1 (s : Impl) (F1 F2 : func) : wf_tables -> prepared_ok s -> row_ok F1 -> row_ok F2 ->
  pseudo_ratio Tables (PseudoColumn s) F1 F2 = py_v1 F1 F2.
Proof.
  intros Hwf Hp H1 H2. unfold pseudo_ratio, py_v1.
  destruct (quick_simulates CleanPseudo (PseudoColumn s) (B "clean_pseudo") F1 F2) as (E & x & y & Hx & Hy);
    [done|intros T; set_solver|apply (wt_small Hwf)|apply Hp|done|done|].
  destruct (CellOf (Pseudocode (Table F1.1)) F1.2) as [p1|]; [|done].
  destruct (CellOf (Pseudocode (Table F2.1)) F2.2) as [p2|]; [|done]. cbn [mbind res_bind].
  destruct (_ && PyNe p2 []); [|done]. rewrite Hx, Hy, E. unfold py_quick. rewrite Hx, Hy. cbn.
  destruct (IsEmptyStr x || IsEmptyStr y) eqn:Em; [|done]. by rewrite quick_empty.
Qed.

Lemma assembly_is_v2 (s : Impl) (F1 F2 : func) : wf_tables -> prepared_ok s -> row_ok F1 -> row_ok F2 ->
  assembly_ratio (AssemblyColumn s) F1 F2 = py_v2 F1 F2.
Proof.
  intros Hwf Hp H1 H2. unfold assembly_ratio, py_v2.
  destruct (quick_simulates CleanAssembly (AssemblyColumn s) (B "clean_assembly") F1 F2) as (-> & _);
    [done|intros T; set_solver|apply (wt_small Hwf)|apply Hp|done|done|done].
Qed.

Lemma microcode_is_v5 (s : Impl) (F1 F2 : func) : wf_tables -> prepared_ok s -> row_ok F1 -> row_ok F2 ->
  microcode_ratio Tables (MicrocodeColumn s) F1 F2 = py_v5 F1 F2.
Proof.
  intros Hwf Hp H1 H2. unfold microcode_ratio, py_v5.
  destruct (quick_simulates CleanMicrocode (MicrocodeColumn s) (B "clean_microcode") F1 F2) as (E & x & y & Hx & Hy);
    [done|intros T; set_solver|apply (wt_small Hwf)|apply Hp|done|done|].
  rewrite Hx, Hy, E. unfold py_quick. rewrite Hx, Hy. cbn. unfold quick_cells.
  by destruct (CellNull x), (CellNull y).
Qed.

Lemma read_md_simulates (Src : MdSource) (F : func) (SqlMd : option dbl) : row_ok F ->
  simulates true (read_md Tables Src F SqlMd) (liftR (py_md Src F SqlMd)).
Proof. intros HF. destruct Src; cbn [read_md py_md]; [done|by apply MdPython_simulates]. Qed.

Lemma Compute_simulates (Ea1 Ea2 : AddrId) (F1 F2 : func) (Src : MdSource) (SqlMd1 SqlMd2 : option dbl) :
  wf_tables -> row_ok F1 -> row_ok F2 ->
  simulates true (Compute_ Tables IsSameProcessor ids Ea1 Ea2 F1 F2 Src SqlMd1 SqlMd2)
    (liftR (py_compute Ea1 Ea2 F1 F2 Src SqlMd1 SqlMd2)).
Proof.
  intros Hwf H1 H2. unfold Compute_, py_compute.
  apply simulates_res; [by apply read_md_simulates|]. intros Md1 _.
  apply simulates_res; [by apply read_md_simulates|]. intros Md2 _.
  apply simulates_res; [done|]. intros [] _; [done|].
  apply simulates_get. intros s Hs Hp. specialize (Hp eq_refl).
  rewrite pseudo_is_v1, assembly_is_v2, microcode_is_v5 by done.
  apply simulates_res; [done|]. intros V1 _. apply simulates_res; [done|]. intros V2 _.
  apply simulates_res; [done|]. intros V5 _. destruct (deq V5 d1); [done|].
  cbv zeta. set (R := guarded_max _ _ _ _). clearbody R. destruct (dlt R d1); [|done].
  unfold DeepRatioByAddress.
  intros s0 Hs0 Hb. destruct (fetch_rows Tables ids Ea1 Ea2) as [[r1 r2]|e] eqn:E; [|by exists s0].
  apply fetch_rows_in_table in E as [Hr1 Hr2]; [|done].
  by apply (simulates_res true _ _ _ (fun Score => Ok (clamp R Score))); [apply DeepScore_simulates|..].
Qed.

(** Reading the cache reads the dict. *)
Lemma Find_simulates (b : bool) (Ea1 Ea2 : AddrId) : wf_ids ids -> known_addr ids Ea1 -> known_addr ids Ea2 ->
  simulates b (Find ids Ea1 Ea2) (Key ← liftR (TextKey ids Ea1 Ea2); D ← get; mret ((D : Dict) !! Key)).
Proof.
  intros Hids H1 H2 s Hs _. destruct (TextKey_known ids Ea1 Ea2 H1 H2) as (k1 & k2 & _ & _ & HK).
  destruct (Find_spec ids s Ea1 Ea2 _ Hids (io_cache _ Hs) H1 H2 HK) as (s' & E & [l ->] & Hc).
  exists (with_simple l s). rewrite E, HK. unfold mbind, M_bind, get, liftR, mret, M_ret, Ratios. cbv beta iota. cbn [fst snd].
  rewrite dict_of_find. split_and!; [done|done| |done].
  split; [done|]. intros HP. by destruct (io_prepared _ Hs HP); split.
Qed.

(** [setdefault]: a key already there keeps its value. *)
Definition py_setdefault (Ea1 Ea2 : AddrId) (R : dbl) : M Dict unit :=
  Key ← liftR (TextKey ids Ea1 Ea2);
  modify (fun D : Dict => match D !! Key with Some _ => D | None => <[Key := R]> D end).

Lemma Store_simulates (b : bool) (Ea1 Ea2 : AddrId) (R : dbl) : wf_ids ids -> known_addr ids Ea1 -> known_addr ids Ea2 ->
  simulates b (Store ids Ea1 Ea2 R) (py_setdefault Ea1 Ea2 R).
Proof.
  intros Hids H1 H2 s Hs _. destruct (TextKey_known ids Ea1 Ea2 H1 H2) as (k1 & k2 & _ & _ & HK).
  destruct (Store_spec ids s Ea1 Ea2 _ R Hids (io_cache _ Hs) H1 H2 HK) as (s' & E & Hc & (i & t & e & l & Es) & HE).
  exists s'. unfold py_setdefault, mbind, M_bind, modify, liftR, Ratios. rewrite HK. cbv beta iota. cbn [fst snd]. rewrite HE, (dict_of_store ids _ (MkCacheEntry Ea1 Ea2 R) _ HK).
  split_and!; [done|done| |by subst s']. split; [done|].
  subst s'. intros HP. by destruct (io_prepared _ Hs HP); split.
Qed.

Definition py_lookup (Ea1 Ea2 : AddrId) : M Dict (option dbl) :=
  Key ← liftR (TextKey ids Ea1 Ea2); D ← get; mret ((D : Dict) !! Key).

Lemma row_missing_ok (w : Side) (r : Z) : (0 <= r)%Z -> row_missing Tables w r = false -> row_ok (w, Z.to_nat r).
Proof.
  intros Hr Hm. unfold row_missing in Hm. apply orb_false_iff in Hm as [_ Hm].
  apply Z.leb_gt in Hm. unfold row_ok. cbn. lia.
Qed.

(** On a miss, storing with [setdefault] is an assignment. *)
Lemma py_check_ratio_steps (Ea1 Ea2 : AddrId) (Side1 : Side) (Row1 : Z) (Side2 : Side) (Row2 : Z)
    (Src : MdSource) (SqlMd1 SqlMd2 : option dbl) (D : Dict) :
  (Hit ← py_lookup Ea1 Ea2;
   match Hit with
   | Some R => mret R
   | None =>
       if row_missing Tables Side1 Row1 || row_missing Tables Side2 Row2 then
         throw (UnsupportedInput (B "check_ratio: an address of the pair has no function row"))
       else
         R ← liftR (py_compute Ea1 Ea2 (Side1, Z.to_nat Row1) (Side2, Z.to_nat Row2) Src SqlMd1 SqlMd2);
         py_setdefault Ea1 Ea2 R;; mret R
   end) D
  = py_check_ratio Ea1 Ea2 Side1 Row1 Side2 Row2 Src SqlMd1 SqlMd2 D.
Proof.
  unfold py_lookup, py_check_ratio, py_setdefault, mbind, M_bind, liftR, get, put, modify, mret, M_ret, throw.
  destruct (TextKey ids Ea1 Ea2) as [Key|]; [|done]. destruct (D !! Key) eqn:E; [done|].
  destruct (_ || _); [done|]. destruct (py_compute _ _ _ _ _ _ _); [|done]. by rewrite E.
Qed.

Lemma ImplCheckRatio_simulates (b : bool) (Ea1 Ea2 : AddrId) (Side1 : Side) (Row1 : Z) (Side2 : Side) (Row2 : Z)
    (Src : MdSource) (SqlMd1 SqlMd2 : option dbl) :
  wf_ids ids -> wf_tables -> known_addr ids Ea1 -> known_addr ids Ea2 -> (0 <= Row1)%Z -> (0 <= Row2)%Z ->
  simulates b (ImplCheckRatio Tables IsSameProcessor ids Ea1 Ea2 Side1 Row1 Side2 Row2 Src SqlMd1 SqlMd2)
    (py_check_ratio Ea1 Ea2 Side1 Row1 Side2 Row2 Src SqlMd1 SqlMd2).
Proof.
  intros Hids Hwf H1 H2 HR1 HR2. eapply simulates_ext; [intros D; apply py_check_ratio_steps|].
  apply simulates_bind; [by apply Find_simulates|]. intros [R|]; [apply simulates_ret|].
  apply simulates_ensure; [done|]. destruct (_ || _) eqn:Em; [apply simulates_lift|].
  apply orb_false_iff in Em as [M1 M2].
  apply simulates_bind; [by apply Compute_simulates; [|apply row_missing_ok|apply row_missing_ok]|]. intros R.
  apply simulates_bind; [by apply Store_simulates|]. intros _. apply simulates_ret.
Qed.

(** ** The public operations *)

Definition py_compare_rows (MainRow DiffRow : Z) : M Dict dbl :=
  let Main := main_of Tables in
  let Diff := diff_of Tables in
  if (Z.of_nat (Count Main) <=? MainRow)%Z || (Z.of_nat (Count Diff) <=? DiffRow)%Z then
    throw (UnsupportedInput (B "compare_function_rows: row out of range"))
  else
    b1 ← liftR (at_row (IsBlob (Address Main)) (Z.to_nat MainRow));
    b2 ← (if (b1 : bool) then mret true else liftR (at_row (IsBlob (Address Diff)) (Z.to_nat DiffRow)));
    if (b2 : bool) then
      throw (UnsupportedInput (B "compare_function_rows: a BLOB address (bytes in the cache key) is not ported"))
    else
      Ea1 ← liftR (at_row (AddrIdOf Main) (Z.to_nat MainRow));
      Ea2 ← liftR (at_row (AddrIdOf Diff) (Z.to_nat DiffRow));
      py_check_ratio Ea1 Ea2 MainSide MainRow DiffSide DiffRow Python None None.

(** The calls a session makes to the engine. *)
Inductive call :=
| CallCheck (Row : HeuristicRow) (Src : MdSource)
| CallCompare (MainRow DiffRow : Z)
| CallDeep (MainRow DiffRow : Z)
| CallSeed (Ea1 Ea2 : AddrId) (R : dbl)
| CallCached (Ea1 Ea2 : AddrId)
| CallClear.

Definition call_ok (c : call) : Prop :=
  match c with
  | CallCheck Row _ => known_addr ids (RowEa1 Row) /\ known_addr ids (RowEa2 Row) /\ (0 <= Row1 Row)%Z /\ (0 <= Row2 Row)%Z
  | CallCompare r1 r2 | CallDeep r1 r2 => (0 <= r1)%Z /\ (0 <= r2)%Z
  | CallSeed Ea1 Ea2 _ | CallCached Ea1 Ea2 => known_addr ids Ea1 /\ known_addr ids Ea2
  | CallClear => True
  end.

(** A call's answer: a ratio, or none. *)
Definition engine_call (c : call) : M Impl (option dbl) :=
  match c with
  | CallCheck Row Src => r ← CheckRatio Tables IsSameProcessor ids Row Src; mret (Some r)
  | CallCompare r1 r2 => r ← CompareFunctionRows Tables IsSameProcessor ids r1 r2; mret (Some r)
  | CallDeep r1 r2 => r ← DeepRatio Tables IsSameProcessor r1 r2; mret (Some r)
  | CallSeed Ea1 Ea2 R => SeedCache ids Ea1 Ea2 R;; mret None
  | CallCached Ea1 Ea2 => Cached ids Ea1 Ea2
  | CallClear => ClearCache;; mret None
  end.

Definition py_deep_ratio (MainRow DiffRow : Z) : res dbl :=
  if (Z.of_nat (Count (main_of Tables)) <=? MainRow)%Z || (Z.of_nat (Count (diff_of Tables)) <=? DiffRow)%Z then
    Throw (UnsupportedInput (B "deep_ratio: row out of range"))
  else py_deep_score (Z.to_nat MainRow) (Z.to_nat DiffRow).

Definition python_call (c : call) : M Dict (option dbl) :=
  match c with
  | CallCheck Row Src =>
      r ← py_check_ratio (RowEa1 Row) (RowEa2 Row) (Side1 Row) (Row1 Row) (Side2 Row) (Row2 Row) Src (Md1 Row) (Md2 Row);
      mret (Some r)
  | CallCompare r1 r2 => r ← py_compare_rows r1 r2; mret (Some r)
  | CallDeep r1 r2 => r ← liftR (py_deep_ratio r1 r2); mret (Some r)
  | CallSeed Ea1 Ea2 R => py_setdefault Ea1 Ea2 R;; mret None
  | CallCached Ea1 Ea2 => py_lookup Ea1 Ea2
  | CallClear => put ∅;; mret None
  end.

(** The calls one after the other; an exception ends its call only. *)
Fixpoint run_calls {S : Type} (step : call -> M S (option dbl)) (cs : list call) (s : S) : S * list (res (option dbl)) :=
  match cs with
  | [] => (s, [])
  | c :: cs' =>
      let '(s1, r) := step c s in
      let '(s2, rs) := run_calls step cs' s1 in (s2, r :: rs)
  end.

Lemma known_row_addr (w : Side) (r : nat) (Ea : AddrId) : wf_tables ->
  at_row (AddrIdOf (Table w)) r = Ok Ea -> known_addr ids Ea.
Proof.
  intros Hwf. unfold at_row. destruct (_ !! _) eqn:E; [|done]. intros [= <-].
  pose proof (wt_addrs _ (wt_sides Hwf w)) as H. rewrite Forall_lookup in H. by apply (H r).
Qed.

Lemma simulates_lift_bind {A C : Type} (b : bool) (r : res A) (f : A -> M Impl C) (g : A -> M Dict C) :
  (forall a, r = Ok a -> simulates b (f a) (g a)) -> simulates b (liftR r ≫= f) (liftR r ≫= g).
Proof. intros H s Hs Hb. unfold mbind, M_bind, liftR. destruct r as [a|e]; [by apply H|by exists s]. Qed.

Lemma CompareFunctionRows_simulates (r1 r2 : Z) : wf_ids ids -> wf_tables -> (0 <= r1)%Z -> (0 <= r2)%Z ->
  simulates false (CompareFunctionRows Tables IsSameProcessor ids r1 r2) (py_compare_rows r1 r2).
Proof.
  intros Hids Hwf H1 H2. unfold CompareFunctionRows, py_compare_rows. cbv zeta. destruct (_ || _); [apply simulates_lift|].
  apply simulates_lift_bind. intros b1 _. apply simulates_bind; [destruct b1; [apply simulates_ret|apply simulates_lift]|].
  intros []; [apply simulates_lift|].
  apply simulates_lift_bind. intros Ea1 E1. apply simulates_lift_bind. intros Ea2 E2.
  apply ImplCheckRatio_simulates; try done; [by eapply (known_row_addr MainSide)|by eapply (known_row_addr DiffSide)].
Qed.

Lemma DeepRatio_simulates (r1 r2 : Z) : wf_tables -> (0 <= r1)%Z -> (0 <= r2)%Z ->
  simulates false (DeepRatio Tables IsSameProcessor r1 r2) (liftR (py_deep_ratio r1 r2)).
Proof.
  intros Hwf H1 H2. unfold DeepRatio, py_deep_ratio. destruct (_ || _) eqn:E; [apply simulates_lift|].
  apply orb_false_iff in E as [E1 E2]. apply Z.leb_gt in E1, E2. apply DeepScore_simulates; [done|lia|lia].
Qed.

Lemma ClearCache_simulates : simulates false ClearCache (put ∅).
Proof.
  intros s [Hc Hp] _. eexists. split; [reflexivity|]. split; [done|]. split; [|done].
  split; [|intros HP; by destruct (Hp HP); split].
  destruct (cache_ok_empty ids) as [A1 A2 A3 _]. split; [exact A1|exact A2|exact A3|apply Hc].
Qed.

Lemma engine_call_simulates (c : call) : wf_ids ids -> wf_tables -> call_ok c ->
  simulates false (engine_call c) (python_call c).
Proof.
  intros Hids Hwf Hc. destruct c as [Row Src|r1 r2|r1 r2|Ea1 Ea2 R|Ea1 Ea2|]; cbn [engine_call python_call call_ok] in *.
  - apply simulates_bind; [by apply ImplCheckRatio_simulates; destruct_and?|]. intros; apply simulates_ret.
  - apply simulates_bind; [apply CompareFunctionRows_simulates; tauto|]. intros; apply simulates_ret.
  - apply simulates_bind; [apply DeepRatio_simulates; tauto|]. intros; apply simulates_ret.
  - apply simulates_bind; [apply Store_simulates; tauto|]. intros; apply simulates_ret.
  - apply Find_simulates; tauto.
  - apply simulates_bind; [apply ClearCache_simulates|]. intros; apply simulates_ret.
Qed.

Lemma impl_ok_empty : impl_ok EmptyImpl.
Proof. split; [apply cache_ok_empty|done]. Qed.

Lemma run_calls_simulates (cs : list call) : wf_ids ids -> wf_tables -> Forall call_ok cs ->
  forall s, impl_ok s -> exists s', run_calls engine_call cs s = (s', (run_calls python_call cs (Ratios s)).2) /\
    Ratios s' = (run_calls python_call cs (Ratios s)).1 /\ impl_ok s'.
Proof.
  intros Hids Hwf Hcs. induction Hcs as [|c cs Hc Hcs IH]; intros s Hs; [by exists s|]. cbn [run_calls].
  destruct (engine_call_simulates c Hids Hwf Hc s Hs) as (s1 & E1 & D1 & Hs1 & _); [done|].
  rewrite E1. destruct (python_call c (Ratios s)) as [D r]. cbn [fst snd] in *. subst D.
  destruct (IH s1 Hs1) as (s2 & E2 & D2 & Hs2). rewrite E2. exists s2.
  by destruct (run_calls python_call cs (Ratios s1)).
Qed.

(** C8: Whatever the sequence of calls to the engine, every call gives the
    answer, or raises the exception, of Python's [check_ratio] on one dict of
    ratios keyed by the text of the two addresses, and leaves the cache with the
    entries of that dict: the two cache maps, the prepared line ids and the
    remembered md_index values and constant sets are invisible. *)
Theorem engine_refines_check_ratio (cs : list call) : wf_ids ids -> wf_tables -> Forall call_ok cs ->
  let '(s, answers) := run_calls engine_call cs EmptyImpl in
  let '(ratios_cache, expected) := run_calls python_call cs ∅ in
  answers = expected /\ Ratios s = ratios_cache.
Proof.
  intros Hids Hwf Hcs.
  destruct (run_calls_simulates cs Hids Hwf Hcs EmptyImpl impl_ok_empty) as (s' & E & D & _). rewrite E.
  change (Ratios EmptyImpl) with (∅ : Dict) in D |- *. by destruct (run_calls python_call cs ∅).
Qed.
End Reference.
