(* ===== verification/RatioHistory.v ===== *)
(** * The ratios of a session

    Every ratio the engine computes lies between 0 and 1, so that the
    comparisons of the consumers never meet a NaN; the tables [IngestExport]
    makes are the well-formed tables the theorems ask for; and what holds of the
    engine after any sequence of calls, proved on the dict of the reference and
    carried over by the simulation. *)

From Stdlib Require Import ZArith Lia SpecFloat.
From stdpp Require Import base option numbers list gmap.
From S2P Require Import Prelude Dbl RoundNearest DblRound Interner PyValues Consumer.
From S2P Require Import FunctionTable PreparedText PreparedTextSpec RoundSeven RatioEngine.
From S2P Require Import RatioCache RatioSpec Unmatched SideTables Ingest IngestSpec.

#[local] Open Scope Z_scope.

(** ** Non-negative doubles, infinity included *)

Definition nonneg_double (x : dbl) : Prop := pos_double x \/ x = S754_infinity false.

Lemma round_units_nonneg (n d : Z) : 0 <= n -> 0 < d -> nonneg_double (round_units false n d).
Proof.
  intros Hn Hd. destruct (is_finite (round_units false n d)) eqn:E; [left; by apply round_units_pos|]. right.
  revert E. unfold round_units, canon. destruct (_ =? _).
  - change (2 ^ 52) with (Z.pos (2 ^ 52)). cbv iota beta. by destruct (_ <=? _).
  - destruct (rne _ _); [done| |done]. by destruct (_ <=? _).
Qed.

Lemma dadd_nonneg (x y : dbl) : nonneg_double x -> nonneg_double y -> nonneg_double (dadd x y).
Proof.
  intros [Hx| ->] [Hy| ->].
  - rewrite dadd_units by done. pose proof (pos_double_nonneg x Hx). pose proof (pos_double_nonneg y Hy).
    apply round_units_nonneg; lia.
  - right. destruct Hx as [_ Hx]. by destruct x as [[]|?| |[] ? ?].
  - right. destruct Hy as [_ Hy]. by destruct y as [[]|?| |[] ? ?].
  - by right.
Qed.

Lemma dmul_nonneg (x y : dbl) : nonneg_double x -> pos_double y -> y <> d0 -> nonneg_double (dmul x y).
Proof.
  intros [Hx| ->] Hy Hy0.
  - rewrite dmul_units by done. pose proof (pos_double_nonneg x Hx). pose proof (pos_double_nonneg y Hy).
    apply round_units_nonneg; [by apply Z.mul_nonneg_nonneg|by apply pow2_pos].
  - right. destruct Hy as [_ Hy]. by destruct y as [[]|?| |[] ? ?].
Qed.

Lemma d_of_Z_nonneg (k : Z) : 0 <= k -> nonneg_double (d_of_Z k).
Proof. intros Hk. rewrite d_of_Z_units by done. apply round_units_nonneg; [|lia]. pose proof (pow2_pos 1074). lia. Qed.

Lemma ddiv_pos (x y : dbl) : pos_double x -> pos_double y -> 0 < units y ->
  ddiv x y = round_units false (units x * 2 ^ 1074) (units y).
Proof.
  intros [Vx Sx] [Vy Sy] Hy. destruct y as [[]|?| |[] my ey]; try done.
  destruct x as [[]|?| |[] mx ex]; try done.
  - change (units (S754_zero false)) with 0. rewrite Z.mul_0_l, round_units_zero by done. done.
  - apply valid_finite in Vx, Vy. rewrite ddiv_units by lia. f_equal; unfold units; lia.
Qed.

(** ** Doubles of the unit interval *)

Lemma unit_d1 : unit_double d1.
Proof. split; [by split|]. by vm_compute. Qed.

Lemma unit_below_one (x : dbl) : nonneg_double x -> dlt x d1 = true -> unit_double x.
Proof.
  intros [Hx| ->] Hlt; [|done]. split; [done|]. rewrite dlt_units in Hlt by (done || apply unit_d1).
  apply Z.ltb_lt in Hlt. change (units d1) with (2 ^ 1074) in Hlt || replace (units d1) with (2 ^ 1074) in Hlt by (by vm_compute).
  lia.
Qed.

Lemma unit_not_nan (x : dbl) : unit_double x -> is_nan x = false.
Proof. intros [[_ H] _]. by destruct x. Qed.

Lemma RoundDecimal7_in_unit (V : dbl) : unit_double V -> unit_double (RoundDecimal7 V).
Proof. intros [HV Hle]. rewrite RoundDecimal7_unit by done. by apply seven_decimals_unit, ten_millionths_unit. Qed.

Lemma unit_sum (x y : dbl) (a b : Z) : pos_double x -> pos_double y -> 0 <= a -> 0 <= b -> a + b <= 2 ^ 53 ->
  units x <= a * 2 ^ 1074 -> units y <= b * 2 ^ 1074 ->
  pos_double (dadd x y) /\ units (dadd x y) <= (a + b) * 2 ^ 1074.
Proof.
  intros Hx Hy Ha Hb Hab Ux Uy. rewrite dadd_units by done.
  pose proof (pos_double_nonneg x Hx). pose proof (pos_double_nonneg y Hy).
  destruct (d_of_Z_exact (a + b)) as [HP HU]; [lia|]. apply pos_double_fits in HP. rewrite HU in HP.
  destruct (round_units_le (units x + units y) 1 ((a + b) * 2 ^ 1074)) as [Hf Hle]; [lia|lia|done|lia|].
  split; [apply round_units_pos; [lia|lia|done]|lia].
Qed.

Lemma md_ratio_unit (Md1 Md2 V1 V2 : dbl) : unit_double V1 -> unit_double V2 -> unit_double (md_ratio Md1 Md2 V1 V2).
Proof.
  intros [P1 U1] [P2 U2]. unfold md_ratio. destruct (_ && _); [|apply unit_d0].
  cbv zeta. destruct (dlt d1 _); [apply unit_d1|].
  destruct (d_of_Z_exact 3) as [P3 U3]; [lia|]. destruct (d_of_Z_exact 5) as [P5 U5]; [lia|].
  destruct (unit_sum V1 V2 1 1) as [Pa Ua]; [done..|rewrite Z.mul_1_l; done|rewrite Z.mul_1_l; done|].
  destruct (unit_sum (dadd V1 V2) d0 2 0) as [Pb Ub]; [done|apply unit_d0|lia|lia|lia|lia|by vm_compute|].
  destruct (unit_sum _ (d_of_Z 3) 2 3 Pb P3) as [Pc Uc]; [lia|lia|lia|lia|lia|].
  set (X := dadd _ (d_of_Z 3)) in *. clearbody X. pose proof (pow2_pos 1074 ltac:(lia)) as Hp.
  pose proof (pos_double_nonneg X Pc). rewrite ddiv_pos, U5 by (done || lia).
  destruct (round_units_le (units X * 2 ^ 1074) (5 * 2 ^ 1074) (2 ^ 1074)) as [Hf Hle]; [nia|lia|apply unit_fits|nia|].
  split; [apply round_units_pos; [nia|lia|done]|lia].
Qed.

Lemma max_fold_unit (keep : dbl -> bool) (Values : list dbl) (R : dbl) : Forall unit_double Values -> unit_double R ->
  unit_double (foldl (fun R V => if keep V && dgt V R then V else R) R Values).
Proof.
  intros H. revert R. induction H as [|V Values HV _ IH]; intros R HR; [done|]. cbn [foldl].
  apply IH. by destruct (_ && _).
Qed.

Lemma guarded_max_unit (Md1 Md2 V1 : dbl) (Values : list dbl) : Forall unit_double Values -> unit_double V1 ->
  unit_double (guarded_max Md1 Md2 V1 Values).
Proof.
  intros HV H1. unfold guarded_max. destruct (_ && _).
  - apply (max_fold_unit (fun V => negb (deq V d1))); [done|apply unit_d0].
  - by apply (max_fold_unit (fun _ => true)).
Qed.

Lemma clamp_unit (R Score : dbl) : unit_double R -> nonneg_double Score ->
  unit_double (clamp R Score) /\ clamp R Score <> d1.
Proof.
  intros [PR _] HS. unfold clamp. destruct (dlt (dadd R Score) d1) eqn:E.
  - split; [apply unit_below_one; [apply dadd_nonneg; [by left|done]|done]|].
    intros E'. rewrite E' in E. by vm_compute in E.
  - split; [|done]. split; [by split|]. by vm_compute.
Qed.

(** ** The greatest value *)

Lemma deq_one (V : dbl) : unit_double V -> deq V d1 = true <-> V = d1.
Proof.
  intros [HP Hle]. rewrite deq_pos_units by (done || apply unit_d1). rewrite Z.eqb_eq. split; [|by intros ->].
  intros E. apply units_inj; [done|apply unit_d1|done].
Qed.

Lemma not_below_one (V : dbl) : unit_double V -> dlt V d1 = false -> V = d1.
Proof.
  intros [HP Hle] Hlt. apply units_one; [done|]. rewrite dlt_units in Hlt by (done || apply unit_d1).
  apply Z.ltb_ge in Hlt. replace (units d1) with (2 ^ 1074) in Hlt by (by vm_compute). lia.
Qed.

Lemma below_one (V : dbl) : dlt V d1 = true -> V <> d1.
Proof. intros H ->. by vm_compute in H. Qed.

Lemma max_ratio_one (Values : list dbl) (R : dbl) : Forall unit_double Values -> unit_double R ->
  max_ratio Values R = d1 <-> R = d1 \/ d1 ∈ Values.
Proof.
  intros HF. revert R. induction HF as [|V Values HV _ IH]; intros R HR.
  { cbn. split; [by left|]. intros [|H]; [done|by apply elem_of_nil in H]. }
  unfold max_ratio in *. cbn [foldl]. rewrite IH by (by destruct (dgt V R)). rewrite elem_of_cons.
  assert ((if dgt V R then V else R) = d1 <-> R = d1 \/ V = d1) as ->; [|by intuition auto].
  unfold dgt. rewrite dlt_units by (apply HV || apply HR). destruct (Z.ltb_spec (units R) (units V)) as [H|H].
  - split; [by right|]. intros [->|]; [|done]. destruct HV as [_ HV].
    replace (units d1) with (2 ^ 1074) in H by (by vm_compute). lia.
  - split; [by left|]. intros [?| ->]; [done|]. destruct HR as [HR Hle]. apply units_one; [done|].
    replace (units d1) with (2 ^ 1074) in H by (by vm_compute). lia.
Qed.

Lemma max_below_one_spec (Values : list dbl) : Forall unit_double Values -> max_below_one Values <> d1.
Proof.
  intros HF. unfold max_below_one. assert (d0 <> d1) as H0 by done. revert H0. generalize d0 as R.
  induction HF as [|V Values HV _ IH]; intros R HR; cbn [foldl]; [done|]. apply IH.
  destruct (deq V d1) eqn:E; cbn [negb andb]; [done|]. destruct (dgt V R); [|done].
  intros ->. by vm_compute in E.
Qed.

Lemma guarded_max_one (Md1 Md2 V1 : dbl) (Values : list dbl) : Forall unit_double Values -> V1 ∈ Values ->
  guarded_max Md1 Md2 V1 Values = d1 <-> deq Md1 Md2 = true /\ d1 ∈ Values.
Proof.
  intros HF H1. assert (unit_double V1) as HV1 by (rewrite Forall_forall in HF; by apply HF).
  pose proof (max_ratio_one Values V1 HF HV1) as Hone.
  assert (unit_double (max_ratio Values V1)) as Hmax by (by apply (max_fold_unit (fun _ => true))).
  unfold guarded_max. destruct (deq (max_ratio Values V1) d1) eqn:E; cbn [andb].
  - apply (deq_one _ Hmax) in E. destruct (deq Md1 Md2); cbn [negb].
    + rewrite Hone. split; [|tauto]. intros [->|]; done.
    + split; [|by intros []]. intros H. by apply max_below_one_spec in H.
  - assert (max_ratio Values V1 <> d1) as Hne by (by rewrite <- (deq_one _ Hmax), E).
    split; [done|]. intros [_ H]. exfalso. apply Hne, Hone. by right.
Qed.

(** ** The computation *)

Lemma row_pieces_small (cs : sided TextColumn) (w : Side) (r : nat) : small_columns cs ->
  (r < ColumnSize (at_side w cs))%nat -> Z.of_nat (row_pieces (at_side w cs) r) < 2 ^ 32.
Proof.
  intros Hs Hr. pose proof (row_pieces_le _ _ Hr) as H. unfold small_columns in Hs. destruct w; cbn [at_side] in *; lia.
Qed.

Lemma add_if_nonneg (Condition : res bool) (Add Score r : dbl) : pos_double Add -> nonneg_double Score ->
  add_if Condition Add Score = Ok r -> nonneg_double r.
Proof.
  intros HA HS. unfold add_if, mbind, res_bind. destruct Condition as [[]|]; [| |done]; intros [= <-]; [|done].
  apply dadd_nonneg; [done|by left].
Qed.

Section Bounds.
Context (Tables : sided FunctionTable) (IsSameProcessor : bool) (ids : Interners).
Context (Hwf : wf_tables Tables ids).

Abbreviation func := (Side * nat)%type.
Abbreviation Table := (RatioEngine.Table Tables).
Abbreviation Dict := (gmap text dbl).

Lemma py_quick_unit (f : FunctionTable -> TextColumn) (Name : text) (F1 F2 : func) (q : dbl) :
  (forall T, f T ∈ [CleanPseudo T; CleanAssembly T; CleanMicrocode T]) -> small_columns (columns Tables f) ->
  row_ok Tables F1 -> row_ok Tables F2 -> py_quick Tables f Name F1 F2 = Ok q -> unit_double q.
Proof.
  intros Hf Hsmall H1 H2. unfold py_quick.
  assert (forall F x, row_ok Tables F -> CellOf (f (Table F.1)) F.2 = Ok x ->
    Z.of_nat (length (SplitPieces (CellBytes x))) < 2 ^ 32) as Hlen.
  { intros F x HF Hx. destruct (wf_columns Tables ids f Hwf Hf F.1) as [L _].
    assert (at_side F.1 (columns Tables f) = f (Table F.1)) as Hside by (by destruct (F.1)).
    pose proof (row_pieces_small (columns Tables f) F.1 F.2 Hsmall) as Hp.
    rewrite L, Hside in Hp. unfold row_pieces in Hp. rewrite Hx in Hp. by apply Hp. }
  destruct (CellOf (f (Table F1.1)) F1.2) as [x|] eqn:Hx; [|done].
  destruct (CellOf (f (Table F2.1)) F2.2) as [y|] eqn:Hy; [|done]. cbn [mbind res_bind].
  unfold quick_cells. destruct (_ || _); [intros [= <-]; apply unit_d0|].
  destruct (_ || _); [intros [= <-]; apply unit_d0|]. destruct (_ || _); [done|]. intros E.
  assert (q = QuickRatio (Some (CellBytes x)) (Some (CellBytes y))) as -> by congruence. clear E.
  apply QuickRatio_unit. intros t [[= <-]|[= <-]]; [by apply (Hlen F1)|by apply (Hlen F2)].
Qed.

Ltac unbind H := unfold mbind, res_bind in H; repeat case_match; simplify_eq.

Lemma py_v1_unit (F1 F2 : func) (v : dbl) : row_ok Tables F1 -> row_ok Tables F2 ->
  py_v1 Tables F1 F2 = Ok v -> unit_double v.
Proof.
  intros H1 H2 H. unfold py_v1 in H. unbind H; [|apply unit_d0].
  eapply RoundDecimal7_in_unit, (py_quick_unit CleanPseudo); [intros T; set_solver|apply (wt_small _ _ Hwf)|exact H1|exact H2|eassumption].
Qed.

Lemma py_v2_unit (F1 F2 : func) (v : dbl) : row_ok Tables F1 -> row_ok Tables F2 ->
  py_v2 Tables F1 F2 = Ok v -> unit_double v.
Proof.
  intros H1 H2 H. unfold py_v2 in H. unbind H.
  eapply RoundDecimal7_in_unit, (py_quick_unit CleanAssembly); [intros T; set_solver|apply (wt_small _ _ Hwf)|exact H1|exact H2|eassumption].
Qed.

Lemma py_v5_unit (F1 F2 : func) (v : dbl) : row_ok Tables F1 -> row_ok Tables F2 ->
  py_v5 Tables F1 F2 = Ok v -> unit_double v.
Proof.
  intros H1 H2 H. unfold py_v5 in H. unbind H.
  eapply RoundDecimal7_in_unit, (py_quick_unit CleanMicrocode); [intros T; set_solver|apply (wt_small _ _ Hwf)|exact H1|exact H2|eassumption].
Qed.

Lemma table_score_nonneg (MainRow DiffRow : nat) (r : dbl) : table_score Tables MainRow DiffRow = Ok r -> nonneg_double r.
Proof.
  assert (pos_double d_0_001 /\ pos_double d_0_003) as [P1 P3] by (by split; split).
  assert (nonneg_double d0) as H0 by (left; apply unit_d0).
  unfold table_score. intros H.
  repeat match type of H with
  | (add_if ?c ?a ?s ≫= _) = Ok _ =>
      let r := fresh "s" in let E := fresh "E" in
      destruct (add_if c a s) as [r|] eqn:E; [|done]; cbn [mbind res_bind] in H; apply add_if_nonneg in E; [|done|done]
  end.
  by apply add_if_nonneg in H.
Qed.

Lemma constants_bonus_nonneg (n : nat) : nonneg_double (constants_bonus IsSameProcessor n).
Proof.
  unfold constants_bonus. destruct IsSameProcessor; (apply dmul_nonneg; [apply d_of_Z_nonneg; lia|by split|done]).
Qed.

Lemma py_deep_score_nonneg (MainRow DiffRow : nat) (r : dbl) :
  py_deep_score Tables IsSameProcessor MainRow DiffRow = Ok r -> nonneg_double r.
Proof.
  unfold py_deep_score. destruct (table_score Tables MainRow DiffRow) as [s|] eqn:E; [|done].
  apply table_score_nonneg in E. intros H. cbn [mbind res_bind] in H. unbind H; try done.
  apply dadd_nonneg; [done|apply constants_bonus_nonneg].
Qed.

(** The values of the five methods. *)
Record methods := MkMethods { VMd1 : dbl; VMd2 : dbl; VSame : bool; Vv1 : dbl; Vv2 : dbl; Vv5 : dbl }.

Definition method_values (F1 F2 : func) (Src : MdSource) (SqlMd1 SqlMd2 : option dbl) : res methods :=
  Md1 ← py_md Tables Src F1 SqlMd1;
  Md2 ← py_md Tables Src F2 SqlMd2;
  SameHash ← same_bytes Tables F1 F2;
  if (SameHash : bool) then Ok (MkMethods Md1 Md2 true d0 d0 d0)
  else V1 ← py_v1 Tables F1 F2; V2 ← py_v2 Tables F1 F2; V5 ← py_v5 Tables F1 F2; Ok (MkMethods Md1 Md2 false V1 V2 V5).

(** The ratio is 1.0 for these values only: the bytes are equal, or a quick ratio
    rounded to seven decimals is 1.0, which also holds of texts with the same lines in
    another order. *)
Definition perfect (m : methods) : bool :=
  VSame m || deq (Vv5 m) d1
  || (deq (VMd1 m) (VMd2 m) && (deq (Vv1 m) d1 || deq (Vv2 m) d1 || deq (md_ratio (VMd1 m) (VMd2 m) (Vv1 m) (Vv2 m)) d1)).

Lemma method_values_unit (F1 F2 : func) (Src : MdSource) (SqlMd1 SqlMd2 : option dbl) (m : methods) :
  row_ok Tables F1 -> row_ok Tables F2 -> method_values F1 F2 Src SqlMd1 SqlMd2 = Ok m ->
  unit_double (Vv1 m) /\ unit_double (Vv2 m) /\ unit_double (Vv5 m).
Proof.
  intros H1 H2 H. unfold method_values in H. unbind H; cbn; [split_and!; apply unit_d0|].
  split_and!; [eapply (py_v1_unit F1 F2)|eapply (py_v2_unit F1 F2)|eapply (py_v5_unit F1 F2)]; eassumption.
Qed.

(** The ratio from the values of the methods. *)
Definition ratio_of_methods (Ea1 Ea2 : AddrId) (m : methods) : res dbl :=
  if VSame m || deq (Vv5 m) d1 then Ok d1
  else
    let R := guarded_max (VMd1 m) (VMd2 m) (Vv1 m)
               [Vv1 m; Vv2 m; d0; md_ratio (VMd1 m) (VMd2 m) (Vv1 m) (Vv2 m); Vv5 m] in
    if dlt R d1 then
      '(MainRow, DiffRow) ← fetch_rows Tables ids Ea1 Ea2;
      Score ← py_deep_score Tables IsSameProcessor MainRow DiffRow;
      Ok (clamp R Score)
    else Ok R.

Lemma py_compute_methods (Ea1 Ea2 : AddrId) (F1 F2 : func) (Src : MdSource) (SqlMd1 SqlMd2 : option dbl) :
  py_compute Tables IsSameProcessor ids Ea1 Ea2 F1 F2 Src SqlMd1 SqlMd2
  = (m ← method_values F1 F2 Src SqlMd1 SqlMd2; ratio_of_methods Ea1 Ea2 m).
Proof.
  unfold py_compute, method_values, ratio_of_methods.
  destruct (py_md _ _ F1 _); [|done]. destruct (py_md _ _ F2 _); [|done]. destruct (same_bytes _ _ _) as [[]|]; [done| |done].
  cbn [mbind res_bind]. destruct (py_v1 _ _ _); [|done]. destruct (py_v2 _ _ _); [|done]. destruct (py_v5 _ _ _); [|done].
  done.
Qed.

Lemma perfect_methods (Ea1 Ea2 : AddrId) (m : methods) (r : dbl) :
  unit_double (Vv1 m) -> unit_double (Vv2 m) -> unit_double (Vv5 m) ->
  ratio_of_methods Ea1 Ea2 m = Ok r -> unit_double r /\ (r = d1 <-> perfect m = true).
Proof.
  intros U1 U2 U5. unfold ratio_of_methods, perfect.
  destruct (VSame m || deq (Vv5 m) d1) eqn:E; cbn [orb]; [intros [= <-]; split; [apply unit_d1|done]|].
  apply orb_false_iff in E as [_ E5].
  set (V4 := md_ratio _ _ _ _). assert (unit_double V4) as U4 by (by apply md_ratio_unit). clearbody V4.
  set (Values := [_; _; _; _; _]).
  assert (Forall unit_double Values) as HF by (repeat (constructor; [done || apply unit_d0|]); constructor).
  pose proof (guarded_max_one (VMd1 m) (VMd2 m) (Vv1 m) Values HF ltac:(by left)) as Hone.
  pose proof (guarded_max_unit (VMd1 m) (VMd2 m) (Vv1 m) Values HF U1) as HU. cbv zeta.
  set (R := guarded_max _ _ _ _) in *. clearbody R.
  assert (R = d1 <-> deq (VMd1 m) (VMd2 m) && (deq (Vv1 m) d1 || deq (Vv2 m) d1 || deq V4 d1) = true) as HR.
  { rewrite Hone. unfold Values. rewrite !elem_of_cons, elem_of_nil, andb_true_iff, !orb_true_iff, !deq_one by done.
    assert (d1 <> d0) as N0 by done. assert (d1 <> Vv5 m) as N5 by (intros E; rewrite <- E in E5; by vm_compute in E5).
    clear -N0 N5. intuition auto. }
  destruct (dlt R d1) eqn:Hlt.
  - apply below_one in Hlt. destruct (fetch_rows _ _ _ _) as [[r1 r2]|]; [|done]. cbn [mbind res_bind].
    destruct (py_deep_score _ _ _ _) as [Score|] eqn:Es; [|done]. cbn [mbind res_bind]. intros [= <-].
    destruct (clamp_unit R Score HU (py_deep_score_nonneg _ _ _ Es)) as [HC Hne]. split; [done|]. rewrite <- HR. tauto.
  - intros [= <-]. split; [done|]. done.
Qed.

Lemma py_compute_perfect (Ea1 Ea2 : AddrId) (F1 F2 : func) (Src : MdSource) (SqlMd1 SqlMd2 : option dbl) (r : dbl) :
  row_ok Tables F1 -> row_ok Tables F2 ->
  py_compute Tables IsSameProcessor ids Ea1 Ea2 F1 F2 Src SqlMd1 SqlMd2 = Ok r ->
  unit_double r /\ exists m, method_values F1 F2 Src SqlMd1 SqlMd2 = Ok m /\ (r = d1 <-> perfect m = true).
Proof.
  intros H1 H2. rewrite py_compute_methods. destruct (method_values _ _ _ _ _) as [m|] eqn:E; [|done].
  cbn [mbind res_bind]. intros Hr. destruct (method_values_unit _ _ _ _ _ _ H1 H2 E) as (U1 & U2 & U5).
  destruct (perfect_methods Ea1 Ea2 m r U1 U2 U5 Hr) as [HU HP]. split; [done|by exists m].
Qed.
End Bounds.

(** ** The ratio engine on ingested exports

    The tables [IngestExport] makes are the well-formed tables the theorems of
    the ratio engine ask for. *)

Lemma known_addr_of (ids : Interners) (Id : AddrId) (t : option text) : AddrOrNone Id ids = Ok t -> known_addr ids Id.
Proof.
  unfold AddrOrNone, AddrText. case_bool_decide; [by left|]. destruct (Text _ _) eqn:E; [|done]. intros _.
  right. by eapply text_known.
Qed.

Lemma known_addr_grows (ids ids' : Interners) (Id : AddrId) : grows ids ids' -> known_addr ids Id -> known_addr ids' Id.
Proof.
  intros HG [->|Hk]; [by left|]. apply known_text in Hk as [t Ht].
  destruct (decide (Id = kNoneAddr)) as [->|Hne]; [by left|]. apply (known_addr_of _ _ (Some t)), (grows_addr _ _ HG).
  unfold AddrOrNone, AddrText. by rewrite !bool_decide_false, Ht by done.
Qed.

Lemma stored_column_readable (T : FunctionTable) (m : TextMember) (cs : list Column) : stores T (MemberText m) cs ->
  ColumnSize (Texts T m) = length cs /\ readable (Texts T m).
Proof.
  intros H. destruct (text_column_ready T m cs H) as [HL HG]. split; [done|]. intros r Hr. rewrite HL in Hr.
  destruct (HG r Hr) as [x Hx]. unfold Get, Null in Hx. unfold CellOf, at_row.
  destruct (IsNull (Texts T m) !! r) as [[]|]; [by eexists| |done]. cbn in Hx |- *.
  destruct (View r (Texts T m)) as [v|]; [|done].
  cbn in H. destruct H as (_ & _ & _ & HB & _). rewrite HB, !list_lookup_fmap.
  destruct (lookup_lt_is_Some_2 cs r Hr) as [c Hc]. rewrite Hc. cbn. by eexists.
Qed.

Lemma ingested_wf_table (Stmt : Statement) (ids : Interners) (T : FunctionTable) :
  wf_statement Stmt -> ingested Stmt ids T -> wf_table ids T.
Proof.
  intros Hws [HC HI HB Hcols]. pose proof (columns_have_rows Stmt T Hws Hcols) as Hlen. split.
  - assert (forall m, ColumnSize (Texts T m) = Count T /\ readable (Texts T m)) as Hcol.
    { intros m. destruct (Hlen (MemberText m)) as (cs & H & Hl). rewrite HC, <- Hl. by apply stored_column_readable. }
    repeat constructor; apply Hcol.
  - intros Ea r Hr. pose proof (ix_row _ _ _ HI Ea) as E. unfold FindRow in E. rewrite Hr in E.
    case_decide; [done|]. destruct (list_find _ _) as [[i x]|] eqn:Ef; [|done]. cbn in E. injection E as ->.
    apply list_find_Some in Ef as [Hi _]. apply lookup_lt_Some in Hi. rewrite (ix_addr_len _ _ _ HI) in Hi. lia.
  - apply Forall_lookup. intros r Ea Hr. destruct (ix_addr _ _ _ HI r Ea Hr) as (t & _ & Et). by eapply known_addr_of.
Qed.

Lemma wf_table_grows (ids ids' : Interners) (T : FunctionTable) : grows ids ids' -> wf_table ids T -> wf_table ids' T.
Proof.
  intros HG [A1 A2 A3]. split; [done|done|]. eapply Forall_impl; [exact A3|]. intros Ea. by apply known_addr_grows.
Qed.

(** An export SQLite can read in full. *)
Record readable_export (Db : DiffDatabase) (Which_ : Side) (Side_ : SideTables) (Stmt : Statement) : Prop := {
  re_side : LoadSideTables Db Which_ = Ok Side_;
  re_complete : complete Side_ = true;
  re_functions : Prepare Db (functions_sql (SchemaName Which_)) = Ok Stmt;
  re_statement : wf_statement Stmt;
}.

(** The three columns the ratios compare fit 32-bit line ids. *)
Definition small_tables (Tables : sided FunctionTable) : Prop :=
  small_columns (columns Tables CleanPseudo) /\ small_columns (columns Tables CleanAssembly) /\
  small_columns (columns Tables CleanMicrocode).

(** Two exports read one after the other, the texts of the diff's interned
    after the main's. *)
Lemma ingest_two (Db : DiffDatabase) (PathMain PathDiff : text) (ids : Interners)
    (SideM SideD : SideTables) (StmtM StmtD : Statement) :
  readable_export Db MainSide SideM StmtM -> readable_export Db DiffSide SideD StmtD -> wf_ids ids ->
  room ids (N.of_nat (3 * (length (RowsOf StmtM) + length (RowsOf StmtD)))) ->
  exists M D ids1 ids2,
    IngestExport Db MainSide PathMain ids = Ok (M, ids1) /\ IngestExport Db DiffSide PathDiff ids1 = Ok (D, ids2) /\
    let Tables := MkSided (Functions M) (Functions D) in
    small_tables Tables -> wf_ids ids2 /\ wf_tables Tables ids2.
Proof.
  intros [LM CM PM WM] [LD CD PD WD] Hwf Hroom.
  destruct (IngestExport_complete Db MainSide PathMain ids SideM StmtM LM Hwf CM PM WM) as (M & ids1 & EM & Hwf1 & G1 & IM & R1);
    [eapply room_le; [exact Hroom|lia]|].
  destruct (IngestExport_complete Db DiffSide PathDiff ids1 SideD StmtD LD Hwf1 CD PD WD) as (D & ids2 & ED & Hwf2 & G2 & ID & _);
    [apply R1; eapply room_le; [exact Hroom|lia]|].
  exists M, D, ids1, ids2. split; [done|]. split; [done|]. intros Tables Hsmall. split; [done|].
  split; [|exact Hsmall]. intros []; cbn [Tables RatioEngine.Table at_side main_of diff_of].
  - apply (wf_table_grows ids1); [done|by apply (ingested_wf_table StmtM)].
  - by apply (ingested_wf_table StmtD).
Qed.

(** C9: Reading two exports one after the other, the texts of the diff's
    interned after the main's, makes tables on which the ratio engine answers
    every sequence of calls as Python's [check_ratio] does on those tables. *)
Theorem ingest_then_ratios (Db : DiffDatabase) (PathMain PathDiff : text) (ids : Interners)
    (SideM SideD : SideTables) (StmtM StmtD : Statement) :
  readable_export Db MainSide SideM StmtM -> readable_export Db DiffSide SideD StmtD -> wf_ids ids ->
  room ids (N.of_nat (3 * (length (RowsOf StmtM) + length (RowsOf StmtD)))) ->
  exists M D ids1 ids2,
    IngestExport Db MainSide PathMain ids = Ok (M, ids1) /\ IngestExport Db DiffSide PathDiff ids1 = Ok (D, ids2) /\
    let Tables := MkSided (Functions M) (Functions D) in
    small_tables Tables ->
    wf_ids ids2 /\ wf_tables Tables ids2 /\
    forall IsSameProcessor cs, Forall (call_ok ids2) cs ->
      (run_calls (engine_call Tables IsSameProcessor ids2) cs EmptyImpl).2
      = (run_calls (python_call Tables IsSameProcessor ids2) cs ∅).2.
Proof.
  intros HM HD Hwf Hroom.
  destruct (ingest_two Db PathMain PathDiff ids SideM SideD StmtM StmtD HM HD Hwf Hroom) as (M & D & ids1 & ids2 & EM & ED & H).
  exists M, D, ids1, ids2. split; [done|]. split; [done|]. intros Tables Hsmall. destruct (H Hsmall) as [Hwf2 HT].
  split; [done|]. split; [done|]. intros IsSame cs Hcs.
  by destruct (run_calls_simulates Tables IsSame ids2 cs Hwf2 HT Hcs EmptyImpl (impl_ok_empty _ _)) as (s' & -> & _).
Qed.

(** ** The ratios over a session

    What holds of the engine after any sequence of calls, proved on the dict of
    the reference and carried over by the simulation. *)

Section History.
Context (Tables : sided FunctionTable) (IsSameProcessor : bool) (ids : Interners).
Context (Hids : wf_ids ids) (Hwf : wf_tables Tables ids).

Abbreviation Dict := (gmap text dbl).
Abbreviation engine := (engine_call Tables IsSameProcessor ids).
Abbreviation python := (python_call Tables IsSameProcessor ids).

(** The three outcomes of [check_ratio] on the dict. *)
Lemma py_check_ratio_cases (Ea1 Ea2 : AddrId) (Side1 : Side) (Row1 : Z) (Side2 : Side) (Row2 : Z)
    (Src : MdSource) (SqlMd1 SqlMd2 : option dbl) (D D' : Dict) (a : res dbl) :
  (0 <= Row1)%Z -> (0 <= Row2)%Z ->
  py_check_ratio Tables IsSameProcessor ids Ea1 Ea2 Side1 Row1 Side2 Row2 Src SqlMd1 SqlMd2 D = (D', a) ->
  (D' = D /\ (exists e, a = Throw e)) \/
  exists Key r, TextKey ids Ea1 Ea2 = Ok Key /\ a = Ok r /\
    (D !! Key = Some r /\ D' = D \/
     D !! Key = None /\ D' = <[Key := r]> D /\
     row_ok Tables (Side1, Z.to_nat Row1) /\ row_ok Tables (Side2, Z.to_nat Row2) /\
     py_compute Tables IsSameProcessor ids Ea1 Ea2 (Side1, Z.to_nat Row1) (Side2, Z.to_nat Row2) Src SqlMd1 SqlMd2 = Ok r).
Proof.
  intros H1 H2. unfold py_check_ratio, mbind, M_bind, liftR, get, put, throw, mret, M_ret.
  destruct (TextKey ids Ea1 Ea2) as [Key|e]; [|intros [= <- <-]; left; split; [done|by exists e]].
  destruct (D !! Key) as [r|] eqn:ED; [intros [= <- <-]; right; exists Key, r; auto|].
  destruct (_ || _) eqn:Em; [intros [= <- <-]; left; split; [done|by eexists]|].
  destruct (py_compute _ _ _ _ _ _ _ _ _ _) as [r|e] eqn:Er; intros [= <- <-]; [|left; split; [done|by exists e]].
  right. exists Key, r. split; [done|]. split; [done|]. right.
  apply orb_false_iff in Em as [M1 M2]. split_and!; try done; by apply (row_missing_ok _ _ _).
Qed.

Lemma py_compare_rows_cases (r1 r2 : Z) (D D' : Dict) (a : res dbl) : (0 <= r1)%Z -> (0 <= r2)%Z ->
  py_compare_rows Tables IsSameProcessor ids r1 r2 D = (D', a) ->
  (D' = D /\ (exists e, a = Throw e)) \/
  exists Ea1 Ea2, py_check_ratio Tables IsSameProcessor ids Ea1 Ea2 MainSide r1 DiffSide r2 Python None None D = (D', a).
Proof.
  intros H1 H2. unfold py_compare_rows. cbv zeta. destruct (_ || _); [intros [= <- <-]; left; split; [done|by eexists]|].
  unfold mbind at 1, M_bind at 1, liftR at 1.
  destruct (at_row (IsBlob (Address (main_of Tables))) _) as [b1|e]; [|intros [= <- <-]; left; split; [done|by exists e]].
  assert (exists b2 : res bool, (if b1 then mret true else liftR (at_row (IsBlob (Address (diff_of Tables))) (Z.to_nat r2))) D
    = (D, b2)) as [b2 Eb] by (destruct b1; by eexists).
  unfold mbind at 1, M_bind at 1. rewrite Eb. destruct b2 as [[]|e]; [| |intros [= <- <-]; left; split; [done|by exists e]].
  { intros [= <- <-]; left; split; [done|by eexists]. }
  unfold mbind, M_bind, liftR.
  destruct (at_row (AddrIdOf (main_of Tables)) _) as [Ea1|e]; [|intros [= <- <-]; left; split; [done|by exists e]].
  destruct (at_row (AddrIdOf (diff_of Tables)) _) as [Ea2|e]; [|intros [= <- <-]; left; split; [done|by exists e]].
  intros E. right. by exists Ea1, Ea2.
Qed.

(** What a call does to the dict. *)
Inductive effect : Dict -> call -> Dict -> res (option dbl) -> Prop :=
| EffectThrow D c e : effect D c D (Throw e)
| EffectHit D c Key r : D !! Key = Some r -> effect D c D (Ok (Some r))
| EffectRead D c : effect D c D (Ok None)
| EffectDeep D r1 r2 r : effect D (CallDeep r1 r2) D (Ok (Some r))
| EffectStore D c Key r : D !! Key = None -> unit_double r -> effect D c (<[Key := r]> D) (Ok (Some r))
| EffectSeed D Ea1 Ea2 Key r : D !! Key = None -> effect D (CallSeed Ea1 Ea2 r) (<[Key := r]> D) (Ok None)
| EffectClear D : effect D CallClear ∅ (Ok None).

Lemma check_effect (c : call) (Ea1 Ea2 : AddrId) (Side1 : Side) (Row1 : Z) (Side2 : Side) (Row2 : Z)
    (Src : MdSource) (SqlMd1 SqlMd2 : option dbl) (D D' : Dict) (a : res dbl) :
  (0 <= Row1)%Z -> (0 <= Row2)%Z ->
  py_check_ratio Tables IsSameProcessor ids Ea1 Ea2 Side1 Row1 Side2 Row2 Src SqlMd1 SqlMd2 D = (D', a) ->
  effect D c D' (r ← a; Ok (Some r)).
Proof.
  intros H1 H2 E. apply py_check_ratio_cases in E as [(-> & e & ->)|(Key & r & HK & -> & H)]; [|..|done|done]; [constructor|].
  destruct H as [(HD & ->)|(HD & -> & R1 & R2 & Hr)]; [by eapply EffectHit|].
  apply EffectStore; [done|]. eapply py_compute_perfect in Hr as [HU _]; [exact HU|exact Hwf|exact R1|exact R2].
Qed.

Lemma python_effect (c : call) (D D' : Dict) (a : res (option dbl)) : call_ok ids c -> python c D = (D', a) -> effect D c D' a.
Proof.
  intros Hc. destruct c as [Row Src|r1 r2|r1 r2|Ea1 Ea2 R|Ea1 Ea2|]; cbn [python_call call_ok] in *.
  - destruct Hc as (_ & _ & H1 & H2). unfold mbind, M_bind. destruct (py_check_ratio _ _ _ _ _ _ _ _ _ _ _ _ D) as [D1 b] eqn:E.
    apply (check_effect (CallCheck Row Src)) in E; [|done|done]. destruct b; intros [= <- <-]; exact E.
  - destruct Hc as [H1 H2]. unfold mbind, M_bind. destruct (py_compare_rows _ _ _ _ _ D) as [D1 b] eqn:E.
    apply py_compare_rows_cases in E as [(-> & e & ->)|(Ea1 & Ea2 & E)]; [|..|done|done]; [intros [= <- <-]; constructor|].
    apply (check_effect (CallCompare r1 r2)) in E; [|done|done]. destruct b; intros [= <- <-]; exact E.
  - unfold mbind, M_bind, liftR. destruct (py_deep_ratio _ _ _ _); intros [= <- <-]; constructor.
  - unfold py_setdefault, mbind, M_bind, liftR, modify. destruct (TextKey _ _ _) as [Key|]; intros [= <- <-]; [|constructor].
    destruct (D !! Key) eqn:E; [constructor|by apply EffectSeed].
  - unfold py_lookup, mbind, M_bind, liftR, get. destruct (TextKey _ _ _) as [Key|]; intros [= <- <-]; [|constructor].
    destruct (D !! Key) eqn:E; [by eapply EffectHit|constructor].
  - intros [= <- <-]. constructor.
Qed.

(** ** Properties of a session *)

(** Seeds are ratios. *)
Definition seed_unit (c : call) : Prop := match c with CallSeed _ _ R => unit_double R | _ => True end.

Definition answer_unit (c : call) (a : res (option dbl)) : Prop :=
  match c, a with
  | CallDeep _ _, _ => True
  | _, Ok (Some r) => unit_double r
  | _, _ => True
  end.

Lemma effect_unit (D : Dict) (c : call) (D' : Dict) (a : res (option dbl)) : effect D c D' a -> seed_unit c ->
  map_Forall (fun _ => unit_double) D -> map_Forall (fun _ => unit_double) D' /\ answer_unit c a.
Proof.
  intros HE Hseed HD. destruct HE as [D c e|D c Key r Hr|D c|D r1 r2 r|D c Key r Hn Hr|D Ea1 Ea2 Key r Hn|D].
  - split; [done|by destruct c].
  - split; [done|]. apply HD in Hr. by destruct c.
  - split; [done|by destruct c].
  - by split.
  - split; [by apply map_Forall_insert_2|by destruct c].
  - split; [by apply map_Forall_insert_2|done].
  - split; [apply map_Forall_empty|done].
Qed.

Lemma effect_keeps (D : Dict) (c : call) (D' : Dict) (a : res (option dbl)) (K : text) (r : dbl) :
  effect D c D' a -> c <> CallClear -> D !! K = Some r -> D' !! K = Some r.
Proof.
  intros HE Hc HD. destruct HE as [| | | |D c Key r' Hn Hr|D Ea1 Ea2 Key r' Hn|]; try done;
    (rewrite lookup_insert_ne; [done|]; intros ->; congruence).
Qed.

Lemma effect_throw (D : Dict) (c : call) (D' : Dict) (e : exn) : effect D c D' (Throw e) -> D' = D.
Proof. intros HE. inversion HE; congruence. Qed.

Lemma run_calls_unit (cs : list call) : Forall (call_ok ids) cs -> Forall seed_unit cs ->
  forall D, map_Forall (fun _ => unit_double) D ->
  map_Forall (fun _ => unit_double) (run_calls python cs D).1 /\ Forall2 answer_unit cs (run_calls python cs D).2.
Proof.
  intros Hok Hseed. induction Hok as [|c cs Hc Hok IH]; intros D HD; [by split|]. cbn [run_calls].
  apply Forall_cons in Hseed as [Hs Hseed]. destruct (python c D) as [D1 a] eqn:E.
  apply python_effect in E; [|done]. destruct (effect_unit _ _ _ _ E Hs HD) as [HD1 Ha].
  destruct (IH Hseed D1 HD1) as [H1 H2]. destruct (run_calls python cs D1) as [D2 answers]. cbn in *. auto.
Qed.

Lemma run_calls_keep (cs : list call) (K : text) (r : dbl) : Forall (call_ok ids) cs -> CallClear ∉ cs ->
  forall D, D !! K = Some r -> (run_calls python cs D).1 !! K = Some r.
Proof.
  intros Hok. induction Hok as [|c cs Hc Hok IH]; intros Hn D HD; [done|]. cbn [run_calls].
  apply not_elem_of_cons in Hn as [Hne Hn]. destruct (python c D) as [D1 a] eqn:E.
  apply python_effect in E; [|done]. pose proof (effect_keeps _ _ _ _ K r E (not_eq_sym Hne) HD) as HD1.
  specialize (IH Hn D1 HD1). by destruct (run_calls python cs D1).
Qed.

(** The states of a session. *)
Definition reachable (s : Impl) : Prop :=
  exists cs, Forall (call_ok ids) cs /\ s = (run_calls engine cs EmptyImpl).1.

Lemma reachable_ok (s : Impl) : reachable s -> impl_ok Tables ids s.
Proof.
  intros (cs & Hcs & ->).
  destruct (run_calls_simulates Tables IsSameProcessor ids cs Hids Hwf Hcs EmptyImpl (impl_ok_empty _ _)) as (s' & E & _ & Hs).
  by rewrite E.
Qed.

(** The dict holds the ratio of every entry. *)
Lemma entry_in_dict (s : Impl) (e : CacheEntry) : cache_ok ids s -> e ∈ Entries s ->
  exists Key, Ratios ids s !! Key = Some (CacheRatio e).
Proof.
  intros Hc He. pose proof (co_known _ _ Hc) as HF. rewrite Forall_forall in HF. destruct (HF e He) as [K1 K2].
  destruct (TextKey_known ids _ _ K1 K2) as (k1 & k2 & _ & _ & HK). exists (k1 ++ x2d :: k2).
  unfold Ratios. rewrite dict_of_find. apply list_elem_of_lookup in He as [i Hi].
  eapply dict_find_unique; [exact Hi|exact HK|]. intros j e' Hj He'.
  pose proof (found_index_spec ids s _ _ _ i Hids Hc K1 K2 HK) as F1.
  pose proof (found_index_spec ids s _ _ _ j Hids Hc K1 K2 HK) as F2.
  assert (Some i = Some j) as [= ->]; [|done].
  rewrite <- (proj2 F1) by (exists e; done). apply F2. by exists e'.
Qed.

(** C10: Every ratio the engine answers or keeps is a double between 0 and 1,
    never a NaN, if the seeded ones are: the five methods, the MD-Index mean,
    the bonus of [deep_ratio] however many constants are common, and the clamp
    stay in the unit interval under round-to-nearest. *)
Theorem ratios_are_unit (cs : list call) : Forall (call_ok ids) cs -> Forall seed_unit cs ->
  let '(s, answers) := run_calls engine cs EmptyImpl in
  Forall2 answer_unit cs answers /\ Forall (fun e => unit_double (CacheRatio e)) (CacheSnapshot s).
Proof.
  intros Hok Hseed.
  destruct (run_calls_simulates Tables IsSameProcessor ids cs Hids Hwf Hok EmptyImpl (impl_ok_empty _ _)) as (s & E & HD & Hs).
  rewrite E. change (Ratios ids EmptyImpl) with (∅ : Dict) in *.
  destruct (run_calls_unit cs Hok Hseed ∅ (map_Forall_empty _)) as [H1 H2]. split; [done|].
  apply Forall_forall. intros e He. destruct (entry_in_dict s e (io_cache _ _ _ Hs) He) as [Key HK].
  rewrite HD in HK. by apply (H1 Key).
Qed.

(** C11: A ratio once given for a pair is final: whatever calls follow, short of
    [ClearCache], the cache and [check_ratio] answer it for that pair, also
    when the MD-Indices come from the other source. *)
Theorem ratio_is_final (s s1 : Impl) (Row : HeuristicRow) (Src Src' : MdSource) (r : dbl) (cs : list call) :
  reachable s -> call_ok ids (CallCheck Row Src) -> Forall (call_ok ids) cs -> CallClear ∉ cs ->
  CheckRatio Tables IsSameProcessor ids Row Src s = (s1, Ok r) ->
  let s2 := (run_calls engine cs s1).1 in
  run_res (Cached ids (RowEa1 Row) (RowEa2 Row)) s2 = Ok (Some r) /\
  run_res (CheckRatio Tables IsSameProcessor ids Row Src') s2 = Ok r.
Proof.
  intros Hr Hc Hcs Hn E. apply reachable_ok in Hr. pose proof Hc as (K1 & K2 & R1 & R2).
  assert (forall Src, simulates Tables ids false (CheckRatio Tables IsSameProcessor ids Row Src) _) as Hsim
    by (intros Src0; by apply ImplCheckRatio_simulates).
  destruct (Hsim Src s Hr) as (s1' & E1 & D1 & Hs1 & _); [done|]. rewrite E in E1. injection E1 as <- Ha.
  destruct (py_check_ratio _ _ _ _ _ _ _ _ _ _ _ _ (Ratios ids s)) as [D a] eqn:Ep. cbn [fst snd] in *. subst D a.
  apply py_check_ratio_cases in Ep as [(_ & e & He)|(Key & r' & HK & [= <-] & Hcase)]; [done|..|done|done].
  assert (Ratios ids s1 !! Key = Some r) as HD1.
  { destruct Hcase as [(Hd & ->)|(_ & -> & _)]; [done|apply lookup_insert_eq]. }
  destruct (run_calls_simulates Tables IsSameProcessor ids cs Hids Hwf Hcs s1 Hs1) as (s2 & E2 & D2 & Hs2).
  rewrite E2. cbn [fst]. pose proof (run_calls_keep cs Key r Hcs Hn _ HD1) as HD2. rewrite <- D2 in HD2.
  split.
  - destruct (Find_simulates Tables ids false _ _ Hids K1 K2 s2 Hs2) as (s3 & E3 & _); [done|].
    unfold run_res, Cached. rewrite E3. cbn [snd]. unfold mbind, M_bind, liftR, get, mret, M_ret. rewrite HK. cbn [snd].
    by rewrite HD2.
  - destruct (Hsim Src' s2 Hs2) as (s3 & E3 & _); [done|]. unfold run_res. rewrite E3. cbn [snd].
    unfold py_check_ratio, mbind, M_bind, liftR, get. rewrite HK. cbv beta iota. by rewrite HD2.
Qed.

(** C12: A call that raises stores nothing, and the same call raises the same
    exception again: failures of [float(md_index)] and [json.loads(constants)]
    remembered in the slots behave as if recomputed. *)
Theorem failed_call_stores_nothing (s s1 : Impl) (c : call) (e : exn) :
  reachable s -> call_ok ids c -> engine c s = (s1, Throw e) ->
  Ratios ids s1 = Ratios ids s /\ run_res (engine c) s1 = Throw e.
Proof.
  intros Hr Hc E. apply reachable_ok in Hr.
  destruct (engine_call_simulates Tables IsSameProcessor ids c Hids Hwf Hc s Hr) as (s1' & E1 & D1 & Hs1 & _); [done|].
  rewrite E in E1. injection E1 as <- Ha.
  assert (Ratios ids s1 = Ratios ids s) as HD.
  { destruct (python c (Ratios ids s)) as [D a] eqn:Ep. cbn in *. subst D a. apply python_effect in Ep; [|done].
    by apply effect_throw in Ep. }
  split; [done|].
  destruct (engine_call_simulates Tables IsSameProcessor ids c Hids Hwf Hc s1 Hs1) as (s2 & E2 & _); [done|].
  unfold run_res. rewrite E2. cbn [snd]. by rewrite HD.
Qed.

(** C17: A ratio computed anew is 1.0 exactly when the function bytes are equal, or
    the quick ratio of the microcodes, rounded to seven decimals, is 1.0, or the
    MD-Indices are equal and the rounded quick ratio of the pseudocodes or of the
    assemblies, or the mean [md_ratio] takes of them, is 1.0. (A quick ratio counts lines
    in any order, so this is less than equality of the texts.) The bonus of
    [deep_ratio] lifts no other pair to 1.0. *)
Theorem perfect_ratio (s s1 : Impl) (Row : HeuristicRow) (Src : MdSource) (r : dbl) :
  reachable s -> call_ok ids (CallCheck Row Src) ->
  run_res (Cached ids (RowEa1 Row) (RowEa2 Row)) s = Ok None ->
  CheckRatio Tables IsSameProcessor ids Row Src s = (s1, Ok r) ->
  exists m, method_values Tables (Side1 Row, Z.to_nat (Row1 Row)) (Side2 Row, Z.to_nat (Row2 Row)) Src (Md1 Row) (Md2 Row)
    = Ok m /\ (r = d1 <-> perfect m = true).
Proof.
  intros Hr (K1 & K2 & R1 & R2) HN E. apply reachable_ok in Hr.
  destruct (Find_simulates Tables ids false _ _ Hids K1 K2 s Hr) as (s3 & E3 & _); [done|].
  unfold run_res, Cached in HN. rewrite E3 in HN. cbn [snd] in HN.
  assert (simulates Tables ids false (CheckRatio Tables IsSameProcessor ids Row Src) _) as Hsim
    by (by apply ImplCheckRatio_simulates).
  destruct (Hsim s Hr) as (s1' & E1 & _); [done|]. rewrite E in E1. injection E1 as _ Ha.
  destruct (py_check_ratio _ _ _ _ _ _ _ _ _ _ _ _ (Ratios ids s)) as [D a] eqn:Ep. cbn [snd] in Ha. subst a.
  apply py_check_ratio_cases in Ep as [(_ & e & He)|(Key & r' & HK & [= <-] & Hcase)]; [done|..|done|done].
  unfold mbind, M_bind, liftR, get, mret, M_ret in HN. rewrite HK in HN. cbn [snd] in HN.
  destruct Hcase as [(Hd & _)|(_ & _ & O1 & O2 & Hc)]; [congruence|].
  by eapply py_compute_perfect in Hc as [_ ?].
Qed.
End History.
