(* ===== verification/SessionSpec.v ===== *)
(** * Sessions: the invariant and how programs keep it

    The tables of interned texts only grow; an id keeps its text. A session is
    well formed when its match state and the engine's state are, relative to
    those tables. [keeps] is the triple the components are specified with: a
    program extends the tables, and on every way out leaves a well-formed session
    and a result that satisfies its postcondition, provided that the tables did
    not run out of 32-bit ids. *)

From stdpp Require Import base numbers gmap sets list.
From Stdlib Require Import ZArith Lia.
From S2P Require Import Prelude Dbl Interner PyInt Snapshot MatchState MatchStateSpec FinalPass Unmatched.
From S2P Require Import SessionData Consumer ConsumerLoops PreparedTextSpec RatioHistory.

(** ** Growing tables *)

Definition small (r : Interner) : Prop := (Size r < 2 ^ 32 - 1)%N.

(** [b] holds the texts of [a] under the same ids, and stays well formed as long
    as there is room. *)
Record table_le (a b : Interner) : Prop := {
  tl_views : Views a `prefix_of` Views b;
  tl_wf : wf_interner a -> small b -> wf_interner b;
}.

Lemma table_le_small a b : table_le a b -> small b -> small a.
Proof. intros [H _]. unfold small, Size. apply prefix_length in H. lia. Qed.

#[export] Instance table_le_preorder : PreOrder table_le.
Proof.
  split; [by split|]. intros a b c Hab Hbc. split; [etrans; [apply Hab|apply Hbc]|].
  intros Ha Hc. apply (tl_wf _ _ Hbc); [|done]. apply (tl_wf _ _ Hab); [done|]. by eapply table_le_small.
Qed.

Lemma table_le_text a b Id t : table_le a b -> Text Id a = Ok t -> Text Id b = Ok t.
Proof.
  intros [H _]. unfold Text. destruct (Views a !! N.to_nat Id) eqn:E; [|done].
  by rewrite (prefix_lookup_Some _ _ _ _ E H).
Qed.

Lemma table_le_known a b Id : table_le a b -> known Id a -> known Id b.
Proof. intros [H _]. unfold known, Size. apply prefix_length in H. lia. Qed.

Lemma Intern_le t r : table_le r (Intern t r).1.
Proof.
  unfold Intern. destruct (Index r !! t) eqn:E; [done|]. cbn. split; cbn; [by apply prefix_app_r|].
  intros Hr Hs. pose proof (Intern_spec t r Hr) as H. unfold small, Size in *. cbn in Hs. rewrite length_app in Hs. cbn in Hs.
  unfold Intern in H. rewrite E in H. apply H. lia.
Qed.

Lemma Intern_text t r : wf_interner r -> small (Intern t r).1 -> Text (Intern t r).2 (Intern t r).1 = Ok t.
Proof.
  intros Hr Hs. destruct (Index r !! t) as [Id|] eqn:E.
  - unfold Intern in *. rewrite E in *. cbn in *. apply (wfi_index _ Hr) in E. unfold Text. by rewrite E.
  - pose proof (Intern_spec t r Hr) as H. unfold small, Size, Intern in *. rewrite E in *. cbn in *.
    rewrite length_app in Hs. cbn in Hs. destruct H as (_ & H & _); [lia|done].
Qed.

Record ids_le (a b : Interners) : Prop := {
  il_names : table_le (Names_ a) (Names_ b);
  il_descs : table_le (Descs_ a) (Descs_ b);
  il_addrs : table_le (Addrs_ a) (Addrs_ b);
}.

#[export] Instance ids_le_preorder : PreOrder ids_le.
Proof. split; [by split|]. intros a b c [] []. split; by etrans. Qed.

Record small_ids (ids : Interners) : Prop := {
  si_names : small (Names_ ids);
  si_descs : small (Descs_ ids);
  si_addrs : small (Addrs_ ids);
}.

Lemma small_ids_le a b : ids_le a b -> small_ids b -> small_ids a.
Proof. intros [] []. split; by eapply table_le_small. Qed.

Lemma ids_le_wf a b : ids_le a b -> small_ids b -> wf_ids a -> wf_ids b.
Proof. intros [] [] []. split; by eapply tl_wf. Qed.

Lemma ids_le_grows a b : ids_le a b -> grows a b.
Proof.
  intros [Hn _ Ha]. split; intros k t.
  - unfold NameOrNone. case_bool_decide; [done|]. cbn. destruct (Text _ (Names_ a)) eqn:E; [|done].
    by rewrite (table_le_text _ _ _ _ Hn E).
  - unfold AddrOrNone, AddrText. case_bool_decide; [done|]. destruct (Text _ (Addrs_ a)) eqn:E; [|done].
    by rewrite (table_le_text _ _ _ _ Ha E).
Qed.

Lemma known_name_mono a b n : ids_le a b -> known_name a n -> known_name b n.
Proof. intros [Hn _ _] [?|?]; [by left|right]. by eapply table_le_known. Qed.
Lemma known_addr_mono a b n : ids_le a b -> known_addr a n -> known_addr b n.
Proof. intros [_ _ Ha] [?|?]; [by left|right]. by eapply table_le_known. Qed.
Lemma known_desc_mono a b n : ids_le a b -> known n (Descs_ a) -> known n (Descs_ b).
Proof. intros [_ Hd _]. by apply table_le_known. Qed.

Lemma NameKeyText_mono a b n t : ids_le a b -> NameKeyText n a = Ok t -> NameKeyText n b = Ok t.
Proof. intros [Hn _ _]. unfold NameKeyText. case_bool_decide; [done|]. by apply table_le_text. Qed.
Lemma AddrKeyText_mono a b n t : ids_le a b -> AddrKeyText n a = Ok t -> AddrKeyText n b = Ok t.
Proof. intros [_ _ Ha]. unfold AddrKeyText. case_bool_decide; [done|]. by apply table_le_text. Qed.
Lemma AddrText_mono a b n t : ids_le a b -> AddrText n a = Ok t -> AddrText n b = Ok t.
Proof. intros [_ _ Ha]. unfold AddrText. case_bool_decide; [done|]. by apply table_le_text. Qed.

Lemma known_item_mono a b It : ids_le a b -> known_item a It -> known_item b It.
Proof.
  intros Hle []. split; eauto using known_name_mono, known_addr_mono, known_desc_mono.
Qed.

Lemma known_dict_mono a b d : ids_le a b -> known_dict a d -> known_dict b d.
Proof.
  intros Hle Hd k e He. destruct (Hd k e He) as (? & ? & ?). split; eauto using known_name_mono.
Qed.

Lemma wf_state_mono a b st : ids_le a b -> wf_state a st -> wf_state b st.
Proof.
  intros Hle []. split; try done; try by eapply known_dict_mono.
  intros c. eapply Forall_impl; [done|]. intros. by eapply known_item_mono.
Qed.

(** ** Interning a text *)

Lemma Name_le t ids : ids_le ids (Name t ids).1.
Proof.
  unfold Name. pose proof (Intern_le t (Names_ ids)) as H. destruct (Intern _ _) as [r i]. by split.
Qed.
Lemma Desc_le t ids : ids_le ids (Desc t ids).1.
Proof.
  unfold Desc. pose proof (Intern_le t (Descs_ ids)) as H. destruct (Intern _ _) as [r i]. by split.
Qed.
Lemma Addr_le t ids : ids_le ids (Addr t ids).1.
Proof.
  unfold Addr. pose proof (Intern_le t (Addrs_ ids)) as H. destruct (Intern _ _) as [r i]. by split.
Qed.

Lemma id_succ (r : Interner) i : small r -> known i r -> wrap32 (i + 1) = (i + 1)%N /\ (i + 1 - 1)%N = i.
Proof. unfold small, known. intros. rewrite wrap32_small by lia. lia. Qed.

Lemma Name_text t ids : wf_ids ids -> small_ids (Name t ids).1 ->
  NameKeyText (Name t ids).2 (Name t ids).1 = Ok t /\ (Name t ids).2 <> kNoneName /\ known_name (Name t ids).1 (Name t ids).2.
Proof.
  intros [Hn _ _] [Hs _ _]. unfold Name in *. pose proof (Intern_text t _ Hn) as H.
  destruct (Intern t (Names_ ids)) as [r i]. cbn in *. specialize (H Hs). pose proof (text_known _ _ _ H) as Hk.
  destruct (id_succ r i Hs Hk) as [-> E]. unfold NameKeyText, known_name, kNoneName.
  rewrite bool_decide_false by lia. cbn. rewrite E. split_and!; [done|lia|by right].
Qed.
Lemma Addr_text t ids : wf_ids ids -> small_ids (Addr t ids).1 ->
  AddrText (Addr t ids).2 (Addr t ids).1 = Ok t /\ (Addr t ids).2 <> kNoneAddr /\ known_addr (Addr t ids).1 (Addr t ids).2.
Proof.
  intros [_ _ Ha] [_ _ Hs]. unfold Addr in *. pose proof (Intern_text t _ Ha) as H.
  destruct (Intern t (Addrs_ ids)) as [r i]. cbn in *. specialize (H Hs). pose proof (text_known _ _ _ H) as Hk.
  destruct (id_succ r i Hs Hk) as [-> E]. unfold AddrText, known_addr, kNoneAddr.
  rewrite bool_decide_false by lia. cbn. rewrite E. split_and!; [done|lia|by right].
Qed.
Lemma Desc_known t ids : wf_ids ids -> small_ids (Desc t ids).1 -> known (Desc t ids).2 (Descs_ (Desc t ids).1).
Proof.
  intros [_ Hd _] [_ Hs _]. unfold Desc in *. pose proof (Intern_text t _ Hd) as H.
  destruct (Intern t (Descs_ ids)) as [r i]. cbn in *. by eapply text_known, H.
Qed.

(** ** Programs that keep a state well formed *)

(** A state with its tables of texts and its invariant. *)
Class StateLike (T : Type) := { t_ids : T -> Interners; t_ok : T -> Prop }.

Section Keeps.
Context {T : Type} `{!StateLike T}.

(** The tables only grow, whatever happens. *)
Class Extends {A : Type} (m : M T A) : Prop :=
  extends s s' r : m s = (s', r) -> ids_le (t_ids s) (t_ids s').

(** Run over tables that extend [ids], the program keeps the invariant on every
    way out, and a result it returns satisfies [Q] with the tables at the end. *)
Definition keeps {A : Type} (ids : Interners) (m : M T A) (Q : A -> Interners -> Prop) : Prop :=
  forall s s' r, ids_le ids (t_ids s) -> t_ok s -> m s = (s', r) -> small_ids (t_ids s') ->
    t_ok s' /\ forall a, r = Ok a -> Q a (t_ids s').

#[export] Instance extends_ret {A} (a : A) : Extends (mret a).
Proof. intros s s' r [= <- <-]. done. Qed.
#[export] Instance extends_throw {A} e : Extends (throw e : M T A).
Proof. intros s s' r [= <- <-]. done. Qed.
#[export] Instance extends_lift {A} (a : res A) : Extends (liftR a).
Proof. intros s s' r [= <- <-]. done. Qed.
#[export] Instance extends_get : Extends get.
Proof. intros s s' r [= <- <-]. done. Qed.
#[export] Instance extends_bind {A C} (m : M T A) (f : A -> M T C) :
  Extends m -> (forall a, Extends (f a)) -> Extends (m ≫= f).
Proof.
  intros Hm Hf s s' r. unfold mbind, M_bind. destruct (m s) as [s1 [a|e]] eqn:E.
  - intros H. etrans; [by eapply Hm|by eapply Hf].
  - intros [= <- <-]. by eapply Hm.
Qed.

Lemma keeps_le {A} ids ids' (m : M T A) Q : ids_le ids ids' -> keeps ids m Q -> keeps ids' m Q.
Proof. intros Hle Hm s s' r H. apply Hm. by etrans. Qed.

Lemma keeps_weaken {A} ids (m : M T A) (Q Q' : A -> Interners -> Prop) : Extends m ->
  keeps ids m Q -> (forall a ids', ids_le ids ids' -> Q a ids' -> Q' a ids') -> keeps ids m Q'.
Proof.
  intros Hx Hm HQ s s' r H1 H2 E H3. destruct (Hm s s' r H1 H2 E H3) as [H4 H5]. split; [done|].
  intros a ->. apply HQ; [|by apply H5]. etrans; [exact H1|]. by eapply Hx.
Qed.

Lemma keeps_ret {A} ids (a : A) (Q : A -> Interners -> Prop) :
  (forall ids', ids_le ids ids' -> Q a ids') -> keeps ids (mret a) Q.
Proof. intros HQ s s' r H1 H2 [= <- <-] _. split; [done|]. intros a' [= <-]. by apply HQ. Qed.

Lemma keeps_throw {A} ids e (Q : A -> Interners -> Prop) : keeps ids (throw e) Q.
Proof. intros s s' r H1 H2 [= <- <-] _. split; [done|]. intros a [=]. Qed.

Lemma keeps_lift {A} ids (x : res A) (Q : A -> Interners -> Prop) :
  (forall a ids', x = Ok a -> ids_le ids ids' -> Q a ids') -> keeps ids (liftR x) Q.
Proof. intros HQ s s' r H1 H2 [= <- <-] _. split; [done|]. intros a E. by apply HQ. Qed.

Lemma keeps_bind {A C} ids (m : M T A) (f : A -> M T C) P Q : (forall a, Extends (f a)) ->
  keeps ids m P -> Extends m -> (forall a ids', ids_le ids ids' -> P a ids' -> keeps ids' (f a) Q) ->
  keeps ids (m ≫= f) Q.
Proof.
  intros Hx Hm Hxm Hf s s' r H1 H2. unfold mbind, M_bind. destruct (m s) as [s1 [a|e]] eqn:E.
  - intros E' H3. pose proof (Hx a _ _ _ E') as Hle. pose proof (Hxm _ _ _ E) as Hle0.
    destruct (Hm _ _ _ H1 H2 E (small_ids_le _ _ Hle H3)) as [H4 H5].
    eapply (Hf a (t_ids s1)); [etrans; [exact H1|exact Hle0]|by apply H5|reflexivity|exact H4|exact E'|exact H3].
  - intros [= <- <-] H3. destruct (Hm _ _ _ H1 H2 E H3) as [H4 _]. split; [done|]. intros a [=].
Qed.

(** The same, run on one state. *)
Definition keeps_at {A : Type} (s : T) (m : M T A) (Q : A -> Interners -> Prop) : Prop :=
  forall s' r, m s = (s', r) -> small_ids (t_ids s') -> t_ok s' /\ forall a, r = Ok a -> Q a (t_ids s').

Lemma keeps_here {A} s (m : M T A) Q : t_ok s -> keeps (t_ids s) m Q -> keeps_at s m Q.
Proof. intros Hok Hm s' r. by apply Hm. Qed.

Lemma keeps_of_at {A} ids (m : M T A) Q :
  (forall s, ids_le ids (t_ids s) -> t_ok s -> keeps_at s m Q) -> keeps ids m Q.
Proof. intros Hm s s' r H1 H2. by apply Hm. Qed.

(** The state read is the one the rest of the program starts from. *)
Lemma keeps_get {C} ids (f : T -> M T C) Q :
  (forall s, ids_le ids (t_ids s) -> t_ok s -> keeps_at s (f s) Q) -> keeps ids (get ≫= f) Q.
Proof. intros Hf s s' r H1 H2 E. by apply (Hf s H1 H2 s' r). Qed.

Lemma keeps_at_lift {A C} s (x : res A) (f : A -> M T C) Q : t_ok s ->
  (forall a, x = Ok a -> keeps_at s (f a) Q) -> keeps_at s (liftR x ≫= f) Q.
Proof.
  intros Hok Hf s' r. unfold mbind, M_bind, liftR. destruct x as [a|e]; [by apply Hf|].
  intros [= <- <-] _. split; [done|]. intros a [=].
Qed.

Lemma keeps_at_bind {A C} s (m : M T A) (f : A -> M T C) P Q : (forall a, Extends (f a)) ->
  keeps_at s m P -> Extends m -> (forall a ids', ids_le (t_ids s) ids' -> P a ids' -> keeps ids' (f a) Q) ->
  keeps_at s (m ≫= f) Q.
Proof.
  intros Hx Hm Hxm Hf s' r. unfold mbind, M_bind. destruct (m s) as [s1 [a|e]] eqn:E.
  - intros E' H3. pose proof (Hx a _ _ _ E') as Hle.
    destruct (Hm _ _ E (small_ids_le _ _ Hle H3)) as [H4 H5].
    eapply (Hf a (t_ids s1)); [by eapply Hxm|by apply H5|reflexivity|exact H4|exact E'|exact H3].
  - intros [= <- <-] H3. destruct (Hm _ _ E H3) as [H4 _]. split; [done|]. intros a [=].
Qed.

Lemma keeps_if {A} ids (b : bool) (m1 m2 : M T A) Q :
  (b = true -> keeps ids m1 Q) -> (b = false -> keeps ids m2 Q) -> keeps ids (if b then m1 else m2) Q.
Proof. destruct b; auto. Qed.

End Keeps.

Ltac solve_extends :=
  repeat match goal with
    | |- forall _, _ => intros ?
    | _ => first [apply _ | apply extends_bind | case_match]
    end.

(** One step of a sequence, from a set of tables or from a state. *)
Ltac kbind := eapply keeps_bind; [solve_extends| |solve_extends|].
Ltac kbind_at := eapply keeps_at_bind; [solve_extends| |solve_extends|].

(** ** The session invariant *)

(** A row as a source yields it. *)
Record row_ok (ids : Interners) (Row : HeuristicRow) : Prop := {
  ro_ea1 : known_addr ids (RowEa1 Row);
  ro_ea2 : known_addr ids (RowEa2 Row);
  ro_name1 : known_name ids (RowName1 Row);
  ro_name2 : known_name ids (RowName2 Row);
  ro_desc : known (RowDesc Row) (Descs_ ids);
  ro_row1 : (0 <= Row1 Row)%Z;
  ro_row2 : (0 <= Row2 Row)%Z;
}.

Lemma row_ok_mono a b Row : ids_le a b -> row_ok a Row -> row_ok b Row.
Proof. intros Hle []. split; eauto using known_name_mono, known_addr_mono, known_desc_mono. Qed.

(** What a session keeps besides the match state: an invariant of the engine's
    state, and a property of the names of every stored match. *)
Class SessionInvariant (X : Type) := {
  EInv : Interners -> X -> Prop;
  Good : Interners -> NameId -> NameId -> Prop;
  EInv_le a b x : ids_le a b -> wf_ids a -> wf_ids b -> EInv a x -> EInv b x;
  Good_le a b n1 n2 : ids_le a b -> Good a n1 n2 -> Good b n1 n2;
}.

(** The engine keeps its invariant, and its ratios lie between 0 and 1. *)
Class EngineOk (X : Type) `{!Engine X, !SessionInvariant X} := {
  CheckRatio_ok ids F Row x x' r : wf_ids ids -> EInv ids x -> row_ok ids Row ->
    CheckRatio ids F Row x = (x', r) -> EInv ids x' /\ forall R, r = Ok R -> unit_double R;
  CompareFunctionRows_ok ids F r1 r2 x x' r : wf_ids ids -> EInv ids x -> (0 <= r1)%Z -> (0 <= r2)%Z ->
    CompareFunctionRows ids F r1 r2 x = (x', r) -> EInv ids x' /\ forall R, r = Ok R -> unit_double R;
  Hook_ok ids Row R x x' r : wf_ids ids -> EInv ids x ->
    PatchDiffHookOnMatch ids Row R x = (x', r) -> EInv ids x';
}.

Section Session.
Context {X : Type} `{!Engine X, !SessionInvariant X, !EngineOk X}.

Definition good_item (ids : Interners) (It : Item) : Prop :=
  unit_double (Ratio It) /\ Good ids (Name1 It) (Name2 It).

Definition good_items (ids : Interners) (st : MatchState) : Prop :=
  forall c, Forall (good_item ids) (at_ c (Lists st)).

Record session_ok (S : Session X) : Prop := {
  so_ids : wf_ids (Ids S);
  so_state : wf_state (Ids S) (State S);
  so_items : good_items (Ids S) (State S);
  so_engine : EInv (Ids S) (Ext S);
}.

#[export] Instance session_like : StateLike (Session X) := { t_ids := Ids; t_ok := session_ok }.

Lemma good_items_mono a b st : ids_le a b -> good_items a st -> good_items b st.
Proof.
  intros Hle Hg c. eapply Forall_impl; [apply Hg|]. intros It [? ?]. split; [done|]. by eapply Good_le.
Qed.

Lemma session_ok_ids ids (S : Session X) : ids_le (Ids S) ids -> small_ids ids -> session_ok S ->
  session_ok (with_ids ids S).
Proof.
  intros Hle Hs [H1 H2 H3 H4]. pose proof (ids_le_wf _ _ Hle Hs H1). split; cbn; [done| | |].
  - by eapply wf_state_mono.
  - by eapply good_items_mono.
  - by eapply EInv_le.
Qed.

(** Changes outside the tables, the state and the engine. *)
Lemma session_ok_same (S S' : Session X) : Ids S' = Ids S -> State S' = State S -> Ext S' = Ext S ->
  session_ok S -> session_ok S'.
Proof. intros E1 E2 E3 [H1 H2 H3 H4]. split; by rewrite ?E1, ?E2, ?E3. Qed.

Class Outside (f : Session X -> Session X) : Prop := {
  out_ids S : Ids (f S) = Ids S;
  out_state S : State (f S) = State S;
  out_ext S : Ext (f S) = Ext S;
}.

#[export] Instance extends_modify f : Outside f -> Extends (modify f).
Proof. intros Ho s s' r [= <- <-]. cbn. by rewrite out_ids. Qed.

Lemma keeps_modify ids f : Outside f -> keeps ids (modify f) (fun _ _ => True).
Proof.
  intros Ho s s' r _ Hok [= <- <-] _. split; [|done]. by apply (session_ok_same s); destruct Ho.
Qed.

#[export] Instance extends_TraceRow Row D R : Extends (TraceRow Row D R : M (Session X) unit).
Proof. apply extends_modify. by split. Qed.
Lemma keeps_TraceRow ids Row D R : keeps ids (TraceRow Row D R : M (Session X) unit) (fun _ _ => True).
Proof. apply keeps_modify. by split. Qed.

(** Programs that only read the tables. *)
#[export] Instance extends_NameStartsWith n p s : Extends (NameStartsWith n p s : M (Session X) bool).
Proof. intros S S' r [= <- <-]. done. Qed.
Lemma keeps_NameStartsWith ids n p s : keeps ids (NameStartsWith n p s : M (Session X) bool) (fun _ _ => True).
Proof. intros S S' r _ Hok [= <- <-] _. done. Qed.
#[export] Instance extends_RequirePyIntM Ea s : Extends (RequirePyIntM Ea s : M (Session X) unit).
Proof. intros S S' r [= <- <-]. done. Qed.
Lemma keeps_RequirePyIntM ids Ea s : keeps ids (RequirePyIntM Ea s : M (Session X) unit) (fun _ _ => True).
Proof. intros S S' r _ Hok [= <- <-] _. done. Qed.

(** ** The engine *)

#[export] Instance extends_engine_call {A} (m : M X A) : Extends (engine_call m : M (Session X) A).
Proof. intros S S' r. unfold engine_call. destruct (m _). by intros [= <- <-]. Qed.

Lemma keeps_engine_call {A} ids (m : M X A) (Q : A -> Interners -> Prop) :
  (forall b x x' r, ids_le ids b -> wf_ids b -> EInv b x -> m x = (x', r) ->
     EInv b x' /\ forall a, r = Ok a -> Q a b) -> keeps ids (engine_call m : M (Session X) A) Q.
Proof.
  intros Hm S S' r Hle [H1 H2 H3 H4]. unfold engine_call. destruct (m (Ext S)) as [x a] eqn:E.
  intros [= <- <-] _. destruct (Hm _ _ _ _ Hle H1 H4 E) as [Hx HQ]. split; [|done]. by split.
Qed.

(** The tables are read before the call, with the state of the moment. *)
Lemma keeps_CheckRatio S Row : session_ok S -> row_ok (Ids S) Row ->
  keeps_at S (engine_call (CheckRatio (Ids S) (Flags S) Row)) (fun R _ => unit_double R).
Proof.
  intros [H1 H2 H3 H4] Hrow S' r. unfold engine_call.
  destruct (CheckRatio _ _ _ (Ext S)) as [x a] eqn:E. intros [= <- <-] _.
  destruct (CheckRatio_ok _ _ _ _ _ _ H1 H4 Hrow E) as [Hx HQ]. split; [|done]. by split.
Qed.

Lemma keeps_CompareFunctionRows S r1 r2 : session_ok S -> (0 <= r1)%Z -> (0 <= r2)%Z ->
  keeps_at S (engine_call (CompareFunctionRows (Ids S) (Flags S) r1 r2)) (fun R _ => unit_double R).
Proof.
  intros [H1 H2 H3 H4] K1 K2 S' r. unfold engine_call.
  destruct (CompareFunctionRows _ _ _ _ (Ext S)) as [x a] eqn:E. intros [= <- <-] _.
  destruct (CompareFunctionRows_ok _ _ _ _ _ _ _ H1 H4 K1 K2 E) as [Hx HQ]. split; [|done]. by split.
Qed.

Lemma keeps_Hook S Row R : session_ok S ->
  keeps_at S (engine_call (PatchDiffHookOnMatch (Ids S) Row R)) (fun _ _ => True).
Proof.
  intros [H1 H2 H3 H4] S' r. unfold engine_call.
  destruct (PatchDiffHookOnMatch _ _ _ (Ext S)) as [x a] eqn:E. intros [= <- <-] _.
  split; [|done]. split; try done. by eapply Hook_ok.
Qed.

(** ** Checking and adding a row *)

#[export] Instance extends_CheckMatchBody Row : Extends (CheckMatchBody Row).
Proof. unfold CheckMatchBody. solve_extends. Qed.

Lemma keeps_CheckMatchBody ids Row : row_ok ids Row ->
  keeps ids (CheckMatchBody Row) (fun r _ => forall R, r = Some R -> unit_double R).
Proof.
  intros Hrow. unfold CheckMatchBody.
  kbind; [apply keeps_NameStartsWith|]. intros n1 ids1 L1 _.
  kbind; [instantiate (1 := fun _ _ => True); destruct n1; [by apply keeps_ret|apply keeps_NameStartsWith]|].
  intros nullsub ids2 L2 _. destruct nullsub.
  { kbind; [apply keeps_TraceRow|]. intros ????. by apply keeps_ret. }
  apply keeps_get. intros S L3 Hok. destruct (HasBestMatch _ _ _).
  { apply keeps_here; [done|]. kbind; [apply keeps_TraceRow|]. intros ????. by apply keeps_ret. }
  assert (row_ok (Ids S) Row) as Hrow' by (eapply row_ok_mono; [|exact Hrow]; etrans; [exact L1|by etrans]).
  kbind_at; [by apply keeps_CheckRatio|]. intros R ids4 L4 HR.
  apply keeps_get. intros S5 L5 Hok5. apply keeps_at_lift; [done|]. intros better _. destruct better.
  { apply keeps_here; [done|]. kbind; [apply keeps_TraceRow|]. intros ????. by apply keeps_ret. }
  kbind_at.
  { instantiate (1 := fun _ _ => True). destruct (HooksLoaded _); [by apply keeps_Hook|].
    apply keeps_here; [done|]. by apply keeps_ret. }
  intros _ ids6 L6 _. apply keeps_get. intros S7 L7 Hok7. apply keeps_here; [done|].
  kbind; [apply keeps_TraceRow|]. intros _ ids8 L8 _. apply keeps_ret. by intros ids' _ R' [= <-].
Qed.

#[export] Instance extends_CheckMatch Row : Extends (CheckMatch Row).
Proof.
  intros S S' r. unfold CheckMatch. destruct (CheckMatchBody Row S) as [S1 q] eqn:E.
  pose proof (extends_CheckMatchBody Row _ _ _ E). destruct q as [|[]]; by intros [= <- <-].
Qed.

Lemma keeps_CheckMatch ids Row : row_ok ids Row ->
  keeps ids (CheckMatch Row) (fun r _ => forall R, r = Some R -> unit_double R).
Proof.
  intros Hrow S S' r Hle Hok. unfold CheckMatch. destruct (CheckMatchBody Row S) as [S1 q] eqn:E.
  pose proof (keeps_CheckMatchBody ids Row Hrow S S1 q Hle Hok E) as H.
  destruct q as [a|[]]; intros [= <- <-] Hs; try exact (H Hs). destruct (H Hs) as [H1 _].
  split; [|intros a [=]]. by apply (session_ok_same S1).
Qed.

(** ** Interning *)

(** A program that looks a text up in the tables, entering it if it is new. *)
Definition with_interners {A : Type} (f : Interners -> Interners * A) : M (Session X) A :=
  fun S => let '(ids, a) := f (Ids S) in (with_ids ids S, Ok a).

Lemma extends_interners {A} (f : Interners -> Interners * A) : (forall ids, ids_le ids (f ids).1) ->
  Extends (with_interners f).
Proof.
  intros Hf S S' r. unfold with_interners. pose proof (Hf (Ids S)). destruct (f _). by intros [= <- <-].
Qed.

Lemma keeps_interners {A} ids (f : Interners -> Interners * A) (Q : A -> Interners -> Prop) :
  (forall ids, ids_le ids (f ids).1) ->
  (forall b, ids_le ids b -> wf_ids b -> small_ids (f b).1 -> Q (f b).2 (f b).1) ->
  keeps ids (with_interners f) Q.
Proof.
  intros Hle HQ S S' r L Hok. unfold with_interners. pose proof (Hle (Ids S)) as H.
  specialize (HQ (Ids S) L (so_ids _ Hok)). destruct (f (Ids S)) as [b a]. intros [= <- <-] Hs. cbn in *.
  split; [by apply session_ok_ids|]. intros a' [= <-]. by apply HQ.
Qed.

#[export] Instance extends_StrOfEa Ea : Extends (StrOfEa Ea : M (Session X) AddrId).
Proof. unfold StrOfEa. case_bool_decide; [|apply _]. apply (extends_interners (Addr (B "None"))), Addr_le. Qed.

Lemma keeps_StrOfEa ids Ea : known_addr ids Ea ->
  keeps ids (StrOfEa Ea : M (Session X) AddrId) (fun a b => known_addr b a).
Proof.
  intros Hk. unfold StrOfEa. case_bool_decide.
  - apply (keeps_interners ids (Addr (B "None"))); [apply Addr_le|]. intros b _ Hw Hs. by apply Addr_text.
  - apply keeps_ret. intros. by eapply known_addr_mono.
Qed.

#[export] Instance extends_IntOfNodes n s : Extends (IntOfNodes n s : M (Session X) Z).
Proof. unfold IntOfNodes. destruct n; apply _. Qed.
Lemma keeps_IntOfNodes ids n s : keeps ids (IntOfNodes n s : M (Session X) Z) (fun _ _ => True).
Proof. unfold IntOfNodes. destruct n; [by apply keeps_ret|apply keeps_throw]. Qed.

(** ** Adding a match *)

Lemma good_append ids It C st : good_items ids st -> good_item ids It -> good_items ids (append_item It C st).1.
Proof.
  intros Hg HI c. pose proof (append_item_lists It C st) as H. destruct (append_item It C st) as [st' b].
  destruct H as (E & _). cbn. rewrite E. destruct b; [|apply Hg]. rewrite at_set_at. case_decide; [|apply Hg].
  subst. apply Forall_app. split; [apply Hg|by apply Forall_singleton].
Qed.

#[export] Instance extends_SessionAddMatch N1 N2 R It C : Extends (SessionAddMatch N1 N2 R It C : M (Session X) unit).
Proof.
  intros S S' r. unfold SessionAddMatch. destruct (AddMatch _ _ _ _ _ _ _) as [[st q]|e]; by intros [= <- <-].
Qed.

Lemma keeps_SessionAddMatch ids N1 N2 R It C : known_item ids It -> known_name ids N1 -> known_name ids N2 ->
  unit_double R -> good_item ids It ->
  keeps ids (SessionAddMatch N1 N2 R It C : M (Session X) unit) (fun _ _ => True).
Proof.
  intros HI K1 K2 HR HG S S' r Hle Hok. unfold SessionAddMatch.
  destruct (AddMatch _ _ _ _ _ _ _) as [[st q]|e] eqn:E; intros [= <- <-] _; [|done]. split; [|done].
  destruct Hok as [H1 H2 H3 H4]. apply AddMatch_cases in E as [(_ & -> & _)|(_ & -> & _)]; [by split|].
  assert (good_item (Ids S) It) as HG' by (destruct HG; split; [done|by eapply Good_le]).
  split; cbn; [done| | |done].
  - apply wf_put_both; [|by eapply known_name_mono..|by apply stored_ratio_number, unit_not_nan].
    destruct C; [|done]. apply wf_append_item; [done|]. by eapply known_item_mono.
  - intros c. destruct C as [C|]; [|apply H3]. by apply good_append.
Qed.

(** ** The row bodies *)

(** A row whose pair of names may be stored. *)
Definition row_good (ids : Interners) (Row : HeuristicRow) : Prop :=
  row_ok ids Row /\ Good ids (RowName1 Row) (RowName2 Row).

Lemma row_good_mono a b Row : ids_le a b -> row_good a Row -> row_good b Row.
Proof. intros Hle [? ?]. split; [by eapply row_ok_mono|by eapply Good_le]. Qed.

(** The item of a row, as every consumer builds it. *)
Lemma keeps_row_item ids Row Ea Rt n1 n2 C : row_good ids Row -> known_addr ids Ea -> unit_double Rt ->
  keeps ids (SessionAddMatch (RowName1 Row) (RowName2 Row) Rt
    (MkItem Ea (RowName1 Row) (RowEa2 Row) (RowName2 Row) (RowDesc Row) Rt n1 n2) C) (fun _ _ => True).
Proof.
  intros [[] HG] He HR. apply keeps_SessionAddMatch; [split; try done; by apply unit_not_nan|done|done|done|by split].
Qed.

#[export] Instance extends_internal_row b p v u Row : Extends (internal_row b p v u Row).
Proof. unfold internal_row. solve_extends. Qed.

Lemma keeps_internal_row ids b p v u Row : row_good ids Row ->
  keeps ids (internal_row b p v u Row) (fun _ _ => True).
Proof.
  intros Hrow. unfold internal_row. kbind; [by apply keeps_CheckMatch, Hrow|]. intros [R|] ids1 L1 HR; [|by apply keeps_ret].
  specialize (HR R eq_refl).
  kbind; [apply keeps_StrOfEa; eapply known_addr_mono, Hrow; done|]. intros Ea ids2 L2 HEa.
  kbind; [apply keeps_IntOfNodes|]. intros n1 ids3 L3 _. kbind; [apply keeps_IntOfNodes|]. intros n2 ids4 L4 _.
  destruct (route b p v u R) as [[c Site]|]; [|by apply keeps_ret].
  kbind; [apply keeps_RequirePyIntM|]. intros _ ids5 L5 _.
  assert (ids_le ids2 ids5) as L25 by (etrans; [exact L3|by etrans]).
  apply keeps_row_item; [|by eapply known_addr_mono|done]. eapply row_good_mono, Hrow. etrans; [exact L1|by etrans].
Qed.

#[export] Instance extends_query_row C Row : Extends (query_row C Row).
Proof. unfold query_row. solve_extends. Qed.

Lemma keeps_query_row ids C Row : row_good ids Row -> keeps ids (query_row C Row) (fun _ _ => True).
Proof.
  intros Hrow. unfold query_row. kbind; [by apply keeps_CheckMatch, Hrow|]. intros [R|] ids1 L1 _; [|by apply keeps_ret].
  kbind; [apply keeps_StrOfEa; eapply known_addr_mono, Hrow; done|]. intros Ea ids2 L2 HEa.
  kbind; [apply keeps_IntOfNodes|]. intros n1 ids3 L3 _. kbind; [apply keeps_IntOfNodes|]. intros n2 ids4 L4 _.
  assert (ids_le ids2 ids4) as L24 by (by etrans).
  apply keeps_row_item; [|by eapply known_addr_mono|by apply unit_d1].
  eapply row_good_mono, Hrow. etrans; [exact L1|by etrans].
Qed.

End Session.

(** ** Row sources *)

(** A source keeps its own invariant, whoever else interns texts, and yields rows
    whose pair of names may be stored. *)
Class RowSourceOk (X R : Type) `{!SessionInvariant X, !RowSource R} := {
  RInv : Interners -> R -> Prop;
  RInv_le a b r : ids_le a b -> RInv a r -> RInv b r;
  Next_le r ids r' ids' a : Next r ids = (r', ids', a) -> ids_le ids ids';
  Next_ok r ids r' ids' a : wf_ids ids -> RInv ids r -> Next r ids = (r', ids', a) -> small_ids ids' ->
    RInv ids' r' /\ forall Row, a = Ok (Some Row) -> row_good ids' Row;
}.

Section Drains.
Context {X : Type} `{!Engine X, !SessionInvariant X, !EngineOk X}.
Context {R : Type} `{!RowSource R, !RowSourceOk X R}.
Abbreviation T := (Session X * R)%type.

Record drain_ok (t : T) : Prop := {
  do_session : session_ok t.1;
  do_source : RInv (Ids t.1) t.2;
}.

#[export] Instance drain_like : StateLike T := { t_ids t := Ids t.1; t_ok := drain_ok }.

#[export] Instance extends_on_session {A} (m : M (Session X) A) : Extends m -> Extends (on_session m : M T A).
Proof.
  intros Hm [S r] t' q. unfold on_session. destruct (m S) as [S' a] eqn:E. intros [= <- <-]. exact (Hm _ _ _ E).
Qed.

Lemma keeps_on_session {A} ids (m : M (Session X) A) Q : Extends m -> keeps ids m Q ->
  keeps ids (on_session m : M T A) Q.
Proof.
  intros Hx Hm [S r] t' q Hle [H1 H2]. unfold on_session. destruct (m S) as [S' a] eqn:E. intros [= <- <-] Hs.
  destruct (Hm _ _ _ Hle H1 E Hs) as [H3 H4]. split; [|done]. split; [done|]. eapply RInv_le, H2. exact (Hx _ _ _ E).
Qed.

#[export] Instance extends_next_row : Extends (next_row : M T _).
Proof.
  intros [S r] t' q. unfold next_row. destruct (Next r (Ids S)) as [[r' ids] a] eqn:E. intros [= <- <-].
  by apply (Next_le (X := X)) in E.
Qed.

Lemma keeps_next_row ids : keeps ids (next_row : M T _) (fun a b => forall Row, a = Some Row -> row_good b Row).
Proof.
  intros [S r] t' q Hle [H1 H2]. unfold next_row. destruct (Next r (Ids S)) as [[r' ids'] a] eqn:E.
  intros [= <- <-] Hs. destruct (Next_ok _ _ _ _ _ (so_ids _ H1) H2 E Hs) as [H3 H4]. split.
  - split; [|done]. apply session_ok_ids; [by apply (Next_le (X := X)) in E|done..].
  - intros a' -> Row ->. by apply H4.
Qed.

(** A row body that may be drained. *)
Record body_ok (body : HeuristicRow -> M (Session X) unit) : Prop := {
  bo_extends Row : Extends (body Row);
  bo_keeps ids Row : row_good ids Row -> keeps ids (body Row) (fun _ _ => True);
}.

Lemma internal_loop_keeps fuel MaxRows I body : body_ok body ->
  Extends (internal_loop fuel MaxRows I body : M T unit) /\
  forall ids, keeps ids (internal_loop fuel MaxRows I body : M T unit) (fun _ _ => True).
Proof.
  intros [Hx Hb]. revert I. induction fuel as [|fuel IH]; intros I; cbn [internal_loop].
  { split; [apply _|]. intros. by apply keeps_ret. }
  assert (forall I, Extends (internal_loop fuel MaxRows I body : M T unit)) as Hl by (intros; apply IH).
  split; [solve_extends|]. intros ids. apply keeps_if; intros _; [|by apply keeps_ret].
  kbind; [apply keeps_next_row|]. intros [Row|] ids1 L1 Hrow; [|by apply keeps_ret].
  kbind; [apply keeps_on_session, Hb; [apply Hx|by apply Hrow]|]. intros _ ids2 _ _. apply IH.
Qed.

Lemma query_loop_keeps fuel body : body_ok body ->
  Extends (query_loop fuel body : M T unit) /\
  forall ids, keeps ids (query_loop fuel body : M T unit) (fun _ _ => True).
Proof.
  intros [Hx Hb]. induction fuel as [|fuel [IH1 IH2]]; cbn [query_loop].
  { split; [apply _|]. intros. by apply keeps_ret. }
  split; [solve_extends|]. intros ids.
  kbind; [apply keeps_next_row|]. intros [Row|] ids1 L1 Hrow; [|by apply keeps_ret].
  kbind; [apply keeps_on_session, Hb; [apply Hx|by apply Hrow]|]. intros _ ids2 _ _. apply IH2.
Qed.

(** What one program of the drain does to a session: it extends the tables and
    keeps the session well formed on every way out. *)
Definition keeps_session (m : M T unit) : Prop :=
  Extends m /\ forall ids, keeps ids m (fun _ _ => True).

Lemma RoutingScope_keeps F (m : M T unit) : keeps_session m ->
  keeps_session (RoutingScope lens_fst (on_session (push_frame F)) m).
Proof.
  intros [Hx Hm]. split.
  - intros [S r] t' q. unfold RoutingScope. cbn. destruct (m _) as [t2 a] eqn:E. intros [= <- <-]. exact (Hx _ _ _ E).
  - intros ids [S r] t' q Hle [H1 H2]. unfold RoutingScope. cbn. destruct (m _) as [t2 a] eqn:E. intros [= <- <-] Hs.
    edestruct (Hm ids (with_frames (Frames S ++ [F]) S, r)) as [[H3 H4] _]; [exact Hle| |exact E|exact Hs|].
    { split; [by apply (session_ok_same S)|exact H2]. }
    split; [|done]. split; [|done]. by apply (session_ok_same t2.1).
Qed.

Lemma swallow_keeps (m : M T unit) : keeps_session m -> keeps_session (swallow m).
Proof.
  intros [Hx Hm]. split; [intros t t' q|intros ids t t' q Hle Hok]; unfold swallow; destruct (m t) as [t1 a] eqn:E.
  - destruct a as [|[]]; intros [= <- <-]; exact (Hx _ _ _ E).
  - destruct a as [|[]]; intros [= <- <-] Hs; destruct (Hm ids _ _ _ Hle Hok E Hs); by split.
Qed.

(** The loop's fuel and cap are read from the session it starts from. *)
Lemma reading_keeps (f : T -> M T unit) (m : M T unit) : (forall t, m t = f t t) ->
  (forall t, keeps_session (f t)) -> keeps_session m.
Proof.
  intros Em Hf. split; [intros t t' q E|intros ids t t' q Hle Hok E]; rewrite Em in E.
  - by eapply (proj1 (Hf t)).
  - by eapply (proj2 (Hf t)).
Qed.

Lemma internal_impl_keeps b p v u : keeps_session (AddMatchesInternalImpl b p v u : M T unit).
Proof.
  apply RoutingScope_keeps.
  apply (reading_keeps (fun t => internal_loop (Datatypes.S (Z.to_nat (MaxProcessedRows t.1))) (MaxProcessedRows t.1) 0
    (internal_row b p v u))); [done|]. intros t. apply internal_loop_keeps. split; [apply _|]. intros. by apply keeps_internal_row.
Qed.

Lemma unless_all_keeps (m : M T unit) : keeps_session m -> keeps_session (unless_all_matched m).
Proof.
  intros Hm. apply (reading_keeps (fun t => if AllFunctionsMatched (State t.1) then mret tt else m)).
  { intros t. unfold unless_all_matched. by destruct (AllFunctionsMatched _). }
  intros t. destruct (AllFunctionsMatched _); [|exact Hm]. split; [apply _|]. intros. by apply keeps_ret.
Qed.

Lemma from_query_keeps C : keeps_session (AddMatchesFromQuery C : M T unit).
Proof.
  apply (unless_all_keeps (RoutingScope lens_fst (on_session (push_frame (MkFrame FromQuery None None false)))
           (swallow (fun t => query_loop (Datatypes.S (Remaining t.2)) (query_row C) t)))).
  apply RoutingScope_keeps, swallow_keeps.
  apply (reading_keeps (fun t => query_loop (Datatypes.S (Remaining t.2)) (query_row C))); [done|].
  intros t. apply query_loop_keeps. split; [apply _|]. intros. by apply keeps_query_row.
Qed.

(** Every drain of a row source the engine runs. *)
Inductive drain : M T unit -> Prop :=
| drain_internal b p v : drain (AddMatchesInternal b p v)
| drain_query c : drain (AddMatchesFromQuery c)
| drain_ratio b p : drain (AddMatchesFromQueryRatio b p)
| drain_ratio_max b p v : drain (AddMatchesFromQueryRatioMax b p v)
| drain_trusted v : drain (AddMatchesFromQueryRatioMaxTrusted v).

Lemma drain_keeps m : drain m -> keeps_session m.
Proof.
  intros []; try (apply unless_all_keeps; apply internal_impl_keeps);
    [apply internal_impl_keeps|apply from_query_keeps].
Qed.

(** Every consumer keeps the session well formed on every way out, also
    when an exception ends it in the middle of a source: the tables of texts
    only grow, and as long as they do not run out of 32-bit ids the state's ids
    and dictionaries, every stored ratio (between 0 and 1) and the engine's
    state stay well formed. *)
Theorem drain_preserves_session m t t' q :
  drain m -> drain_ok t -> m t = (t', q) ->
  ids_le (Ids t.1) (Ids t'.1) /\ (small_ids (Ids t'.1) -> drain_ok t').
Proof.
  intros Hd Hok E. destruct (drain_keeps m Hd) as [Hx Hm]. split; [exact (Hx _ _ _ E)|].
  intros Hs. by destruct (Hm (Ids t.1) t t' q (reflexivity _) Hok E Hs).
Qed.
End Drains.
