(* ===== verification/RatioSamples.v ===== *)
(** * A concrete pair of exports

    Two small exports, what a connection answers about them, and the theorems
    with hypotheses about ingest and the ratios applied to them. *)

From Stdlib Require Import ZArith Lia SpecFloat.
From stdpp Require Import base option numbers list gmap.
From S2P Require Import Prelude Dbl Interner Unmatched Consumer SideTables FunctionTable Ingest IngestSpec.
From S2P Require Import PreparedText PreparedTextSpec RatioEngine RatioCache RatioSpec RatioHistory.

(** ** What SQLite answers *)

Definition null_column : Column := MkColumn SqlNull 0 d0 [].
Definition int_column (z : Z) : Column := MkColumn SqlInteger z (d_of_Z z) [].
Definition text_column (t : text) : Column := MkColumn SqlText 0 d0 t.
Definition real_column (x : dbl) : Column := MkColumn SqlReal 0 x [].

Fixpoint assoc (Name : text) (l : list (text * Column)) : Column :=
  match l with
  | [] => null_column
  | (n, c) :: l' => if bool_decide (n = Name) then c else assoc Name l'
  end.

Definition sample_columns : list text := ColumnNames ++ [B "cast(f.md_index as real)"; B "cast(f.address as real)"].

(** A row: the columns not listed are NULL. *)
Definition sample_row (l : list (text * Column)) : list Column := map (fun n => assoc n l) sample_columns.

Definition function_row (Id : Z) (Name Address Hash Pseudo Md : text) (Constants : text) : list Column :=
  sample_row [(B "id", int_column Id); (B "name", text_column Name); (B "address", text_column Address);
    (B "bytes_hash", text_column Hash); (B "pseudocode", text_column Pseudo); (B "clean_pseudo", text_column Pseudo);
    (B "clean_assembly", text_column (B "mov" ++ x0a :: B "ret")); (B "md_index", text_column Md);
    (B "indegree", int_column 2); (B "outdegree", int_column 0); (B "cyclomatic_complexity", int_column 3);
    (B "switches", text_column (B "[]")); (B "constants", text_column Constants); (B "constants_count", int_column 1);
    (B "cast(f.md_index as real)", real_column (dlit 3 2))].

Definition lines (l : list text) : text := mjoin (map (fun t => t ++ [x0a]) l).

Definition quoted (t : text) : text := x22 :: t ++ [x22].

Definition main_statement : Statement := MkStatement sample_columns
  [function_row 1 (B "sub_401000") (B "4198400") (B "aa") (lines [B "int a;"; B "return a;"]) (B "1.5") (B "[" ++ quoted (B "key") ++ B "]");
   function_row 2 (B "main") (B "4202496") (B "bb") (lines [B "main"]) (B "2.25") (B "[]");
   function_row 3 (B "broken") (B "-7") (B "cc") (lines [B "main"]) (B "x") (B "[")].
Definition diff_statement : Statement := MkStatement sample_columns
  [function_row 1 (B "sub_402000") (B "4206592") (B "ab") (lines [B "int b;"; B "return a;"]) (B "1.5") (B "[" ++ quoted (B "key") ++ B "]");
   function_row 2 (B "main") (B "8392704") (B "bb") (lines [B "main"]) (B "2.25") (B "[]")].

Definition count_statement (n : Z) : Statement := MkStatement [B "count(*)"] [[int_column n]].
Definition info_statement (Columns : list text) : Statement :=
  MkStatement [B "cid"; B "name"] (map (fun c => [int_column 0; text_column c]) Columns).

Definition sample_answer (Sql : text) : Statement :=
  if bool_decide (Sql = functions_sql (B "main")) then main_statement
  else if bool_decide (Sql = functions_sql (B "diff")) then diff_statement
  else if bool_decide (Sql = B "pragma main.table_info(functions)") then info_statement ColumnNames
  else if bool_decide (Sql = B "pragma diff.table_info(functions)") then info_statement ColumnNames
  else if bool_decide (take 15 Sql = B "select count(*)") then count_statement 1
  else MkStatement [] [].

Definition sample_db : DiffDatabase := MkDatabase (fun Sql => Ok (sample_answer Sql)) (fun _ _ => Ok true).

(** The same connection without the functions table of the diff. *)
Definition poor_db : DiffDatabase :=
  MkDatabase (fun Sql => Ok (sample_answer Sql)) (fun Schema Table => Ok (negb (bool_decide (Table = B "functions")))).

Definition side_of (Db : DiffDatabase) (w : Side) : SideTables :=
  match LoadSideTables Db w with Ok s => s | Throw _ => MkSideTables [] [] [] 0 false end.

#[local] Instance small_column_dec (c : Column) : Decision (small_column c).
Proof. unfold small_column. apply _. Defined.

Lemma sample_statement_wf (Stmt : Statement) : Stmt = main_statement \/ Stmt = diff_statement -> wf_statement Stmt.
Proof.
  intros H. split.
  - exists ColumnNames, (B "cast(f.md_index as real)"), (B "cast(f.address as real)").
    split; [by destruct H as [-> | ->]|]. split; apply (bool_decide_unpack _); by vm_compute.
  - destruct H as [-> | ->]; apply (bool_decide_unpack _); by vm_compute.
Qed.

Lemma sample_export_main : readable_export sample_db MainSide (side_of sample_db MainSide) main_statement.
Proof. split; [by vm_compute|by vm_compute|by vm_compute|apply sample_statement_wf; by left]. Qed.

Lemma sample_export_diff : readable_export sample_db DiffSide (side_of sample_db DiffSide) diff_statement.
Proof. split; [by vm_compute|by vm_compute|by vm_compute|apply sample_statement_wf; by right]. Qed.

Lemma empty_ids_wf : wf_ids EmptyInterners.
Proof. split; by apply wf_empty. Qed.

(** ** The ingested tables *)

Definition unpack_export (r : res (ExportData * Interners)) : FunctionTable * Interners :=
  match r with Ok (E, ids) => (Functions E, ids) | Throw _ => (EmptyTable, EmptyInterners) end.
Definition ingested_main : FunctionTable * Interners :=
  unpack_export (IngestExport sample_db MainSide (B "a.sqlite") EmptyInterners).
Definition ingested_diff : FunctionTable * Interners :=
  unpack_export (IngestExport sample_db DiffSide (B "b.sqlite") ingested_main.2).
Definition sample_tables : sided FunctionTable := MkSided ingested_main.1 ingested_diff.1.
Definition sample_ids2 : Interners := ingested_diff.2.

Lemma sample_room : room EmptyInterners (N.of_nat (3 * (length (RowsOf main_statement) + length (RowsOf diff_statement)))).
Proof. by split. Qed.

Lemma sample_small : small_tables sample_tables.
Proof. split_and!; unfold small_columns; by vm_compute. Qed.

Lemma sample_tables_wf : wf_ids sample_ids2 /\ wf_tables sample_tables sample_ids2.
Proof.
  destruct (ingest_two sample_db (B "a.sqlite") (B "b.sqlite") EmptyInterners _ _ main_statement diff_statement
    sample_export_main sample_export_diff empty_ids_wf sample_room) as (M & D & ids1 & ids2 & EM & ED & H).
  assert (ingested_main = (Functions M, ids1)) as E1 by (unfold ingested_main; by rewrite EM).
  assert (ingested_diff = (Functions D, ids2)) as E2 by (unfold ingested_diff; by rewrite E1; cbn [snd]; rewrite ED).
  pose proof sample_small as HS. unfold sample_tables, sample_ids2 in *. rewrite E1, E2 in *. by apply H.
Qed.

(** ** Calls *)

(** A candidate of the two functions of rows [r1] and [r2]. *)
Definition candidate (a b : AddrId) (r1 r2 : Z) : HeuristicRow :=
  MkRow a b r1 r2 MainSide DiffSide 1 1 0 None None (Some (dlit 3 2)) (Some (dlit 3 2)).

Definition sample_calls : list call :=
  [CallCheck (candidate 1 4 0 0) Sql; CallCompare 0 0; CallCompare 1 1; CallCompare 2 1; CallDeep 0 0;
   CallCached 1 4; CallCached 3 5; CallSeed 3 5 d1; CallCached 3 5; CallCheck (candidate 2 4 kNoRow 0) Sql].

Lemma sample_addr_ok (Id : AddrId) : (Id <= 5)%N -> known_addr sample_ids2 Id.
Proof.
  intros H. destruct (decide (Id = kNoneAddr)) as [->|]; [by left|right].
  unfold known, kNoneAddr in *. assert (Size (Addrs_ sample_ids2) = 5%N) as -> by (by vm_compute). lia.
Qed.

Lemma sample_calls_ok : Forall (call_ok sample_ids2) sample_calls.
Proof.
  repeat (apply Forall_cons; split; [unfold call_ok; split_and?; first [by apply sample_addr_ok|done]|]).
  apply Forall_nil. exact I.
Qed.

Abbreviation sample_engine := (engine_call sample_tables true sample_ids2).
Definition sample_run : Impl * list (res (option dbl)) := run_calls sample_engine sample_calls EmptyImpl.

Lemma sample_reachable : reachable sample_tables true sample_ids2 sample_run.1.
Proof. exists sample_calls. split; [apply sample_calls_ok|done]. Qed.

Lemma IngestExport_reads_the_table_witness :
  (exists E, IngestExport poor_db DiffSide (B "b.sqlite") EmptyInterners = Ok (E, EmptyInterners) /\ Problems E <> []) /\
  (exists E ids', IngestExport sample_db MainSide (B "a.sqlite") EmptyInterners = Ok (E, ids') /\
     AnyColumnUtf8Bad (Functions E) = [false; false; false] /\ FindRow 2 (Functions E) = Some 1%Z).
Proof.
  split.
  - destruct (IngestExport_reads_the_table poor_db DiffSide (B "b.sqlite") EmptyInterners (side_of poor_db DiffSide))
      as [H _]; [by vm_compute|apply empty_ids_wf|].
    destruct H as (E & H1 & _ & H2); [by vm_compute|]. by exists E.
  - destruct (IngestExport_reads_the_table sample_db MainSide (B "a.sqlite") EmptyInterners (side_of sample_db MainSide))
      as [_ H]; [apply sample_export_main|apply empty_ids_wf|].
    destruct (H main_statement) as (E & ids' & H1 & _ & _ & H2); [apply sample_export_main..|by split|].
    exists E, ids'. split; [done|]. split; [rewrite (in_bad _ _ _ H2); by vm_compute|].
    assert (Functions E = ingested_main.1) as -> by (unfold ingested_main; by rewrite H1). by vm_compute.
Defined.

Lemma sample_tables_are (M D : ExportData) (ids1 ids2 : Interners) :
  IngestExport sample_db MainSide (B "a.sqlite") EmptyInterners = Ok (M, ids1) ->
  IngestExport sample_db DiffSide (B "b.sqlite") ids1 = Ok (D, ids2) ->
  MkSided (Functions M) (Functions D) = sample_tables /\ ids2 = sample_ids2.
Proof.
  intros EM ED.
  assert (ingested_main = (Functions M, ids1)) as E1 by (unfold ingested_main; rewrite EM; reflexivity).
  assert (ingested_diff = (Functions D, ids2)) as E2
    by (unfold ingested_diff; rewrite E1; cbn [snd]; rewrite ED; reflexivity).
  clear EM ED. unfold sample_tables, sample_ids2. rewrite E1, E2. split; reflexivity.
Qed.

Lemma ingest_then_ratios_witness :
  (run_calls (engine_call sample_tables true sample_ids2) sample_calls EmptyImpl).2
  = (run_calls (python_call sample_tables true sample_ids2) sample_calls ∅).2.
Proof.
  destruct (ingest_then_ratios sample_db (B "a.sqlite") (B "b.sqlite") EmptyInterners _ _ main_statement diff_statement
    sample_export_main sample_export_diff empty_ids_wf sample_room) as (M & D & ids1 & ids2 & EM & ED & H).
  destruct (sample_tables_are M D ids1 ids2 EM ED) as [HT HI]. cbv zeta in H. rewrite HT, HI in H.
  exact (proj2 (proj2 (H sample_small)) true sample_calls sample_calls_ok).
Defined.

Lemma engine_refines_check_ratio_witness :
  run_calls (python_call sample_tables true sample_ids2) sample_calls ∅
  = (Ratios sample_ids2 sample_run.1, sample_run.2).
Proof.
  pose proof (engine_refines_check_ratio sample_tables true sample_ids2 sample_calls
    (proj1 sample_tables_wf) (proj2 sample_tables_wf) sample_calls_ok) as H.
  unfold sample_run. destruct (run_calls sample_engine sample_calls EmptyImpl) as [s a].
  destruct (run_calls (python_call _ _ _) sample_calls ∅) as [D e]. destruct H as [-> <-]. done.
Defined.

Lemma ratios_are_unit_witness : Forall (fun e => unit_double (CacheRatio e)) (CacheSnapshot sample_run.1) /\
  length (CacheSnapshot sample_run.1) = 3.
Proof.
  pose proof (ratios_are_unit sample_tables true sample_ids2 (proj1 sample_tables_wf) (proj2 sample_tables_wf)
    sample_calls sample_calls_ok) as H.
  split; [|by vm_compute]. unfold sample_run. destruct (run_calls sample_engine sample_calls EmptyImpl) as [s a]. apply H.
  repeat (apply Forall_cons; split; [exact I || apply unit_d1|]). apply Forall_nil. exact I.
Defined.

(** The state after the ratio of the first pair is computed. *)
Definition first_ratio : Impl * res dbl := CheckRatio sample_tables true sample_ids2 (candidate 1 4 0 0) Sql EmptyImpl.

Lemma empty_reachable : reachable sample_tables true sample_ids2 EmptyImpl.
Proof. by exists []. Qed.

Lemma ratio_is_final_witness :
  run_res (CheckRatio sample_tables true sample_ids2 (candidate 1 4 0 0) Python)
    (run_calls sample_engine sample_calls first_ratio.1).1 = Ok d1.
Proof.
  refine (proj2 (ratio_is_final sample_tables true sample_ids2 (proj1 sample_tables_wf) (proj2 sample_tables_wf)
    EmptyImpl first_ratio.1 (candidate 1 4 0 0) Sql Python d1 sample_calls empty_reachable _ sample_calls_ok _ _)).
  - pose proof sample_calls_ok as H. by apply Forall_cons in H as [H _].
  - intros H. repeat (apply elem_of_cons in H as [H|H]; [done|]). by apply elem_of_nil in H.
  - by vm_compute.
Defined.

Lemma throw_run {S A : Type} (r : S * res A) :
  (match r.2 with Throw _ => true | Ok _ => false end) = true -> exists s e, r = (s, Throw e).
Proof. destruct r as [s [a|e]]; [done|]. intros _. by exists s, e. Qed.

Lemma failing_call : exists s e, sample_engine (CallCompare 2 0) sample_run.1 = (s, Throw e).
Proof. apply throw_run. vm_compute. reflexivity. Qed.

Lemma failed_call_stores_nothing_witness :
  exists s, (sample_engine (CallCompare 2 0) sample_run.1).1 = s /\ Ratios sample_ids2 s = Ratios sample_ids2 sample_run.1.
Proof.
  destruct failing_call as (s & e & E). exists s. split; [exact (f_equal fst E)|].
  exact (proj1 (failed_call_stores_nothing sample_tables true sample_ids2 (proj1 sample_tables_wf) (proj2 sample_tables_wf)
    sample_run.1 s (CallCompare 2 0) e sample_reachable (conj (Zle_0_nat 2) (Z.le_refl 0)) E)).
Defined.

Lemma perfect_ratio_witness : exists m,
  method_values sample_tables (MainSide, 0%nat) (DiffSide, 0%nat) Sql (Some (dlit 3 2)) (Some (dlit 3 2)) = Ok m /\
  perfect m = true.
Proof.
  destruct (perfect_ratio sample_tables true sample_ids2 (proj1 sample_tables_wf) (proj2 sample_tables_wf)
    EmptyImpl first_ratio.1 (candidate 1 4 0 0) Sql d1 empty_reachable) as (m & Hm & Hp).
  - pose proof sample_calls_ok as H. by apply Forall_cons in H as [H _].
  - by vm_compute.
  - by vm_compute.
  - exists m. split; [exact Hm|by apply Hp].
Defined.
