(* ===== verification/Samples.v ===== *)
(** * Concrete sessions

    Small sessions on which the theorems with hypotheses are applied: each
    lemma instantiates one theorem and evaluates the operation it is about. *)

From Stdlib Require Import ZArith Lia SpecFloat.
From stdpp Require Import base numbers gmap sets option list sorting.
From S2P Require Import Prelude TextDiff UnifiedDiff Dbl Interner Json JsonRoundtrip PyInt.
From S2P Require Import Snapshot PatchDiffHook Consumer ConsumerLoops FinalPass FinalPassSpec Utf8.
From S2P Require Import Unmatched MatchState MatchStateSpec PreparedTextSpec SessionData SessionSpec.

(** ** Interned texts *)

Definition intern_all (l : list text) : Interner :=
  foldl (fun r t => (Intern t r).1) EmptyInterner l.

Lemma wf_intern_all (l : list text) :
  (N.of_nat (length l) < 2 ^ 32 - 2)%N ->
  wf_interner (intern_all l) /\ (Size (intern_all l) <= N.of_nat (length l))%N.
Proof.
  induction l as [|t l IH] using rev_ind; intros H; [by split; [apply wf_empty|]|].
  rewrite length_app in H. simpl in H. destruct IH as [Hwf Hsz]; [lia|].
  unfold intern_all. rewrite foldl_app. fold (intern_all l). simpl.
  pose proof (Intern_spec t _ Hwf ltac:(lia)) as Hi. destruct (Intern t (intern_all l)).
  destruct Hi as (? & _ & _ & ?). split; [done|]. simpl. rewrite length_app. simpl. lia.
Qed.

Definition sample_names : Interner :=
  intern_all [B "sub_401000"; B "sub_402000"; B "main"; B "helper"; B "nullsub_1"].
Definition sample_addrs : Interner :=
  intern_all [B "4198400"; B "4202496"; B "4206592"; B "8392704"].
Definition sample_descs : Interner := intern_all [B "100% equal"; B "Same name"].
Definition sample_ids : Interners := MkInterners sample_names sample_descs sample_addrs.

Lemma sample_ids_wf : wf_ids sample_ids.
Proof. split; apply wf_intern_all; reflexivity. Qed.

Lemma sample_name_known (n : NameId) : (n <= 5)%N -> known_name sample_ids n.
Proof.
  intros H. destruct (decide (n = kNoneName)) as [->|]; [by left|right].
  unfold known, kNoneName in *. assert (Size (Names_ sample_ids) = 5%N) as -> by reflexivity. lia.
Qed.

Lemma sample_addr_known (n : AddrId) : (n <= 4)%N -> known_addr sample_ids n.
Proof.
  intros H. destruct (decide (n = kNoneAddr)) as [->|]; [by left|right].
  unfold known, kNoneAddr in *. assert (Size (Addrs_ sample_ids) = 4%N) as -> by reflexivity. lia.
Qed.

(** ** Items and a state *)

Definition d_half : dbl := Eval vm_compute in dlit 1 2.
Definition d_0_7 : dbl := Eval vm_compute in dlit 7 10.
Definition d_0_9 : dbl := Eval vm_compute in dlit 9 10.

Definition sample_item (a n1 b n2 : N) (r : dbl) : Item := MkItem a n1 b n2 1 r 4 5.

Lemma sample_item_known a n1 b n2 r :
  (a <= 4)%N -> (n1 <= 5)%N -> (b <= 4)%N -> (n2 <= 5)%N -> is_nan r = false ->
  known_item sample_ids (sample_item a n1 b n2 r).
Proof.
  intros. split; try done; try by apply sample_addr_known; try by apply sample_name_known.
  all: try by apply sample_name_known.
  all: by vm_compute.
Qed.

Definition put_sample (st : MatchState) (s : Chooser * Item) : MatchState :=
  put_both (Name1 s.2) (Name2 s.2) (Ratio s.2) (append_item s.2 s.1 st).1.

(** Two accepted pairs, a weaker pair of the first function, and a tie of the
    second one. *)
Definition sample_pairs : list (Chooser * Item) :=
  [(Partial, sample_item 1 1 4 3 d_0_9); (Partial, sample_item 2 2 3 4 d_0_7);
   (Unreliable, sample_item 1 1 3 4 d_half); (Unreliable, sample_item 2 2 4 3 d_0_7)].
Definition sample_state : MatchState :=
  SetTotals 5 5 (foldl put_sample EmptyState sample_pairs).

Lemma put_sample_wf (st : MatchState) (s : Chooser * Item) :
  wf_state sample_ids st -> known_item sample_ids s.2 -> wf_state sample_ids (put_sample st s).
Proof.
  intros Hst [] . apply wf_put_both; [by apply wf_append_item|done..].
Qed.

Lemma put_samples_wf (l : list (Chooser * Item)) (st : MatchState) :
  wf_state sample_ids st -> Forall (fun s => known_item sample_ids s.2) l ->
  wf_state sample_ids (foldl put_sample st l).
Proof.
  intros Hst Hl. revert st Hst. induction Hl as [|s l Hs Hl IH]; intros st Hst; [done|].
  simpl. apply IH. by apply put_sample_wf.
Qed.

Lemma wf_SetTotals ids T1 T2 (st : MatchState) :
  wf_state ids st -> wf_state ids (SetTotals T1 T2 st).
Proof. intros []. by split. Qed.

Lemma sample_state_wf : wf_state sample_ids sample_state.
Proof.
  apply wf_SetTotals, put_samples_wf; [apply wf_EmptyState|].
  repeat (apply Forall_cons_2; [by apply sample_item_known|]). apply Forall_nil_2.
Qed.

(** A call that returns, with a test of the value. *)
Definition returns {A} (r : res A) (test : A -> bool) : bool :=
  match r with Ok a => test a | Throw _ => false end.

Lemma returns_ok {A} (r : res A) (test : A -> bool) :
  returns r test = true -> exists a, r = Ok a /\ test a = true.
Proof. destruct r as [a|e]; [|done]. by exists a. Qed.

(** Closes a goal about closed terms by evaluation. *)
Ltac evaluate := vm_compute; reflexivity.

(** ** [AddMatch] *)

(** Accepted: it replaces the entry of [sub_402000]. *)
Definition sample_call : res (MatchState * AddMatchResult) :=
  AddMatch sample_ids 2 3 d_0_9 (sample_item 2 2 4 3 d_0_9) (Some Partial) sample_state.

Definition appended (p : MatchState * AddMatchResult) : bool := bool_decide (p.2 = Appended).


Lemma AddMatch_refines_python_witness :
  py_add_match sample_ids 2 3 d_0_9 (sample_item 2 2 4 3 d_0_9) (Some Partial) (abs sample_state)
  = match sample_call with Ok (st', _) => Ok (abs st') | Throw e => Throw e end.
Proof. apply (AddMatch_refines_python sample_ids); [apply sample_state_wf|reflexivity]. Defined.

Definition raised_entry (p : MatchState * AddMatchResult) : bool :=
  appended p && bool_decide (FindEntry 2 (Primary p.1) = Some (MkMatchedEntry 3 d_0_9)).

Lemma AddMatch_sub_never_lowers_witness :
  exists st' e e', sample_call = Ok (st', Appended) /\
    FindEntry 2 (Primary sample_state) = Some e /\ FindEntry 2 (Primary st') = Some e' /\
    dgt (EntryRatio e) (EntryRatio e') = false.
Proof.
  destruct (returns_ok sample_call raised_entry ltac:(evaluate))
    as ([st' r] & E & Hr).
  apply andb_prop in Hr as [Hr He].
  apply bool_decide_eq_true_1 in Hr, He. simpl in Hr, He. subst r.
  exists st', (MkMatchedEntry 3 d_0_7), (MkMatchedEntry 3 d_0_9).
  split; [exact E|]. split; [reflexivity|]. split; [exact He|]. unfold sample_call in E.
  refine (AddMatch_sub_never_lowers sample_ids _ _ _ _ _ _ _ _ 2 _ _ sample_state_wf _ _ _ _ E _);
    [reflexivity|by left| | |left; split; [reflexivity|exact He]].
  all: intros k e Hk; revert k e Hk; apply map_Forall_to_list; vm_compute; repeat constructor.
Defined.

(** [main] is matched with itself: a better pair of it is refused; after a
    match with [helper] it is not. *)
Definition same_name_state : MatchState :=
  foldl put_sample EmptyState [(Partial, sample_item 3 3 4 3 d_half)].

Lemma AddMatch_named_same_name_wins_witness :
  exists st' r,
    AddMatch sample_ids 3 4 d_0_9 (sample_item 3 3 4 4 d_0_9) (Some Partial) same_name_state
    = Ok (st', r) /\
    (r = RejectedBetter <-> 3%N = 3%N) /\ (3%N = 3%N -> st' = same_name_state) /\
    (3%N <> 3%N -> FindEntry 3 (Primary st') = Some (MkMatchedEntry 4 d_0_9) /\
                   FindEntry 4 (Secondary st') = Some (MkMatchedEntry 3 d_0_9)).
Proof.
  refine (AddMatch_named_same_name_wins sample_ids 3 4 d_0_9 (sample_item 3 3 4 4 d_0_9)
    (Some Partial) same_name_state (MkMatchedEntry 3 d_half) _ _ _ _ _); done.
Defined.

(** ** [Cleanup] *)

(** The two weaker pairs go: one is below its address's best, one repeats a
    secondary name only, and stays. *)
Definition cleaned_pairs (st : MatchState) : bool :=
  bool_decide (map Name2 (all_items (Lists st)) = [3%N; 4%N; 3%N]).

Lemma Cleanup_spec_witness :
  exists st', Cleanup sample_ids sample_state = Ok st' /\
    cleaned sample_ids (Lists sample_state) (Lists st').
Proof. apply (Cleanup_spec sample_ids sample_state), sample_state_wf. Defined.

Lemma Cleanup_idempotent_witness :
  exists st', Cleanup sample_ids sample_state = Ok st' /\ wf_state sample_ids st' /\
    Cleanup sample_ids st' = Ok st' /\ cleaned_pairs st' = true.
Proof.
  destruct (returns_ok (Cleanup sample_ids sample_state) cleaned_pairs ltac:(evaluate))
    as (st' & E & Ht). exists st'. split; [exact E|].
  destruct (Cleanup_idempotent sample_ids sample_state st' sample_state_wf E) as [H1 H2].
  split; [exact H1|]. split; [exact H2|exact Ht].
Defined.

Definition cleaned_entry (st : MatchState) : bool :=
  cleaned_pairs st &&
  bool_decide (FindEntry 2 (Primary st) = Some (MkMatchedEntry 3 d_0_7)).

Lemma Cleanup_dicts_witness :
  exists st', Cleanup sample_ids sample_state = Ok st' /\
    FindEntry 2 (Primary st') = Some (MkMatchedEntry 3 d_0_7) /\
    match last (filter (fun It => Name1 It = 2%N) (all_items (Lists st'))) with
    | Some It => Some (MkMatchedEntry (Name2 It) (Ratio It))
    | None => None
    end = Some (MkMatchedEntry 3 d_0_7).
Proof.
  destruct (returns_ok (Cleanup sample_ids sample_state) cleaned_entry ltac:(evaluate))
    as (st' & E & Ht). apply andb_prop in Ht as [_ Ht]. apply bool_decide_eq_true_1 in Ht.
  exists st'. split; [exact E|]. split; [exact Ht|].
  destruct (Cleanup_dicts sample_ids sample_state st' 2 sample_state_wf E) as [H _].
  rewrite <- H. exact Ht.
Defined.

(** ** Snapshots and the final order *)

Lemma SortedResults_stable_witness :
  SortedResults Partial sample_state ≡ₚ at_ Partial (Lists sample_state) /\
  in_order ratio_gt (SortedResults Partial sample_state) /\
  filter (fun y => tied ratio_gt y (sample_item 1 1 4 3 d_0_9) = true)
    (SortedResults Partial sample_state)
  = filter (fun y => tied ratio_gt y (sample_item 1 1 4 3 d_0_9) = true)
      (at_ Partial (Lists sample_state)).
Proof.
  apply (SortedResults_stable sample_ids sample_state Partial); [apply sample_state_wf|reflexivity].
Defined.

(** Decimal addresses are plain. *)
Lemma sample_addr_plain (a : AddrId) :
  (0 < a <= 4)%N -> plain_addr sample_ids a.
Proof.
  intros Ha. assert (a = 1 \/ a = 2 \/ a = 3 \/ a = 4)%N as Hcases by lia.
  assert (forall t, AddrText a sample_ids = Ok t -> x2d ∉ t -> IsAscii t = true ->
    PyIntAsciiAccepts t = true -> plain_addr sample_ids a) as Hplain.
  { intros t H1 H2 H3 H4. split; [unfold kNoneAddr; lia|]. exists t.
    split_and!; try done. by apply PyIntAsciiAccepts_spec. }
  destruct Hcases as [-> | [-> | [-> | ->]]];
    (eapply Hplain; [reflexivity| |reflexivity|reflexivity]); by apply (bool_decide_unpack _).
Qed.

Lemma sample_item_plain (a n1 b n2 : N) (r : dbl) :
  (0 < a <= 4)%N -> (0 < b <= 4)%N -> plain_item sample_ids (sample_item a n1 b n2 r).
Proof. intros Ha Hb. split; by apply sample_addr_plain. Qed.

(** ** The final pass *)

Lemma StageFinalPass_contract_witness :
  exists st' F, Cleanup sample_ids sample_state = Ok st' /\
    StageFinalPass sample_ids (sample_state, EmptyFinal) = ((st', F), Ok tt) /\
    final_contract sample_ids st' F.
Proof.
  destruct (returns_ok (Cleanup sample_ids sample_state) cleaned_pairs ltac:(evaluate))
    as (st' & E & _).
  assert (Lists st' = PerChooser []
    [sample_item 1 1 4 3 d_0_9; sample_item 2 2 3 4 d_0_7] [sample_item 2 2 4 3 d_0_7]) as Hl.
  { assert (Ok (A:=per_chooser (list Item)) (Lists st') = (st ← Cleanup sample_ids sample_state; Ok (Lists st)))
      as H by by rewrite E. revert H. vm_compute. by intros [= ->]. }
  exists st'.
  destruct (StageFinalPass_contract sample_ids sample_state st' sample_ids_wf sample_state_wf E)
    as (F & HF & Hc).
  - rewrite Hl. repeat (apply Forall_cons_2; [apply sample_item_plain; lia|]).
    apply Forall_nil_2.
  - rewrite Hl. repeat constructor.
  - exists F. split; [exact E|]. split; [exact HF|exact Hc].
Defined.

(** ** Export and import *)

Lemma sample_dict_exportable (d : NameDict) :
  forallb (fun p => valid_binary 53 1024 (EntryRatio p.2)) (map_to_list (Map d)) = true ->
  exportable_dict d.
Proof.
  intros H k e Hk. apply elem_of_map_to_list in Hk. rewrite List.forallb_forall in H.
  apply (H (k, e)). by apply list_elem_of_In.
Qed.

Lemma Export_Import_roundtrip_witness :
  exists Sn, Export sample_ids sample_state = Ok Sn /\
    Import Sn sample_ids = (sample_ids, MkMatchState 5 5 (Lists sample_state)
      (map_choosers RebuildMembers (Lists sample_state)) (Primary sample_state)
      (Secondary sample_state)).
Proof.
  apply (Export_Import_roundtrip sample_ids sample_state sample_ids_wf sample_state_wf).
  split; [|apply sample_dict_exportable; evaluate|apply sample_dict_exportable; evaluate].
  intros []; repeat (apply Forall_cons_2; [by split|]); apply Forall_nil_2.
Defined.

(** Two names of one ratio, and the two zeros. *)
Lemma ItemHash_respects_equality_witness :
  ItemHash (sample_item 1 1 4 3 (S754_zero true)) = ItemHash (sample_item 1 1 4 3 (S754_zero false)).
Proof. apply ItemHash_respects_equality. reflexivity. Defined.

(** ** Addresses *)

Lemma RequirePyInt_outcome_witness :
  RequirePyInt sample_ids 2 (B "D:1935") = Ok tt /\
  exists t, AddrText 2 sample_ids = Ok t /\ py_int_literal t.
Proof.
  destruct (RequirePyInt_outcome sample_ids 2 (B "D:1935")) as [[H _]|[_ (t & Ht & H)]].
  - by apply sample_addr_known.
  - discriminate H.
  - destruct H as [[Ha _]|[[_ [Hn [d Hd]]]|[_ [Hp Hr]]]].
    + assert (Ok t = Ok (B "4202496")) as [= ->] by (rewrite <- Ht; evaluate). discriminate Ha.
    + exfalso. revert Hd. vm_compute. discriminate.
    + split; [exact Hr|]. exists t. by split.
Defined.

(** ** Text diffs *)

Definition old_lines : list text := [B "push rbp"; B "jl loc_1"; B "ret"].
Definition new_lines : list text := [B "push rbp"; B "jb loc_1"; B "ret"].

Lemma UnifiedDiff_hunks_witness :
  exists groups rows, UnifiedDiff old_lines new_lines 1 [x0a] = Some (Ok rows) /\
    rows = diff_rows old_lines new_lines [x0a] groups /\ length rows = 7.
Proof.
  destruct (UnifiedDiff_hunks old_lines new_lines 1 [x0a] ltac:(lia) ltac:(reflexivity)
    ltac:(reflexivity)) as (groups & rows & H & Hr & _ & _).
  exists groups, rows. split; [exact H|]. split; [exact Hr|]. clear Hr.
  revert H. vm_compute. intros [= <-]. reflexivity.
Defined.

(** ** Integers in JSON texts *)

Definition compact : JsonWriteOptions := MkWriteOptions false.

Lemma integers_survive_witness :
  (exists v, JsonParse (JsonWrite (Int (-5)) compact) DefaultParseOptions = JOk v /\
     AsInt64 v = JOk (-5)%Z) /\
  (exists v, JsonParse (JsonWrite (UInt 18446744073709551615) compact)
     DefaultParseOptions = JOk v /\ AsUInt64 v = JOk 18446744073709551615%Z).
Proof.
  split.
  - apply (integers_survive (-5) DefaultParseOptions compact). lia.
  - apply (integers_survive 18446744073709551615 DefaultParseOptions compact). lia.
Defined.

(** ** A run of the consumers *)

(** An engine that gives every row the ratio 0.9 and counts its calls; the
    hook is silent. *)
#[local] Instance counting_engine : Engine Z := {
  CheckRatio _ _ _ n := ((n + 1)%Z, Ok d_0_9);
  CompareFunctionRows _ _ _ _ n := ((n + 1)%Z, Ok d_0_9);
  PatchDiffHookOnMatch _ _ _ n := (n, Ok tt);
}.

#[local] Instance counting_invariant : SessionInvariant Z.
Proof. refine {| EInv _ _ := True; Good _ _ _ := True |}; done. Defined.

#[local] Instance counting_engine_ok : EngineOk Z.
Proof.
  assert (unit_double d_0_9) as H9 by (split; [done|by vm_compute]).
  split; [intros ids F Row x x' r _ _ _ [= _ <-]|intros ids F r1 r2 x x' r _ _ _ _ [= _ <-]|done];
    (split; [done|]); by intros R [= <-].
Qed.

(** Rows in memory whose texts are interned. *)
Definition rows_known (ids : Interners) (r : VectorRowSource) : Prop :=
  Forall (row_ok ids) (Rows_ r).

#[local] Instance vector_rows_ok : RowSourceOk Z VectorRowSource.
Proof.
  assert (forall r ids r' ids' a, vector_next r ids = (r', ids', a) ->
    ids' = ids /\ Rows_ r' = Rows_ r /\
    match a with Ok (Some row) => row ∈ Rows_ r | _ => True end) as Hv.
  { intros [rows n] ids r' ids' a. unfold vector_next. simpl.
    destruct (rows !! n) eqn:E; intros [= <- <- <-]; [|done]. simpl.
    split; [done|]. split; [done|]. by eapply list_elem_of_lookup_2. }
  refine {| RInv := rows_known |}; simpl.
  - intros a b r Hle Hr. eapply Forall_impl; [exact Hr|]. intros. by eapply row_ok_mono.
  - intros r ids r' ids' a E. by destruct (Hv _ _ _ _ _ E) as (-> & _).
  - intros r ids r' ids' a _ Hr E _. destruct (Hv _ _ _ _ _ E) as (-> & Hrows & Hin).
    unfold rows_known in *. rewrite Hrows. split; [done|]. intros Row ->. split; [|done].
    rewrite Forall_forall in Hr. by apply Hr.
Defined.

Definition sample_row (n1 n2 : N) : HeuristicRow :=
  MkRow n1 4 0 0 MainSide DiffSide n1 n2 1 (Some 4%Z) (Some 5%Z) None None.

Lemma sample_row_ok (n1 n2 : N) :
  (0 < n1 <= 4)%N -> (n2 <= 5)%N -> row_ok sample_ids (sample_row n1 n2).
Proof.
  intros H1 H2. split; simpl.
  - apply sample_addr_known. lia.
  - by apply sample_addr_known.
  - apply sample_name_known. lia.
  - by apply sample_name_known.
  - reflexivity.
  - done.
  - done.
Qed.

(** A [nullsub_] row is refused, the other two are added. *)
Definition sample_session : Session Z * VectorRowSource :=
  (MkSession sample_ids sample_state [] [] DefaultConfig NoFlags NoStageData 0%Z,
   MkVectorRowSource [sample_row 2 5; sample_row 2 3; sample_row 4 4] 0).

Lemma sample_unit (r : dbl) : r ∈ [d_half; d_0_7; d_0_9] -> unit_double r.
Proof.
  rewrite !elem_of_cons, elem_of_nil. intros [->|[->|[->|[]]]]; (split; [done|by vm_compute]).
Qed.

Lemma put_samples_good (l : list (Chooser * Item)) (st : MatchState) : good_items sample_ids st ->
  Forall (fun s => Ratio s.2 ∈ [d_half; d_0_7; d_0_9]) l -> good_items sample_ids (foldl put_sample st l).
Proof.
  intros Hst Hl. revert st Hst. induction Hl as [|s l Hs Hl IH]; intros st Hst; [done|].
  simpl. apply IH. apply (good_append _ s.2 s.1 st Hst). split; [by apply sample_unit|done].
Qed.

Lemma sample_state_good : good_items sample_ids sample_state.
Proof.
  apply (put_samples_good sample_pairs EmptyState); [intros []; by constructor|].
  repeat constructor; set_solver.
Qed.

Lemma sample_session_ok : drain_ok sample_session.
Proof.
  split; [split|].
  - exact sample_ids_wf.
  - exact sample_state_wf.
  - exact sample_state_good.
  - done.
  - repeat (apply Forall_cons_2; [apply sample_row_ok; lia|]). apply Forall_nil_2.
Qed.

Definition few_texts (ids : Interners) : bool :=
  (Size (Names_ ids) <? 100)%N && (Size (Descs_ ids) <? 100)%N && (Size (Addrs_ ids) <? 100)%N.

Lemma few_small ids : few_texts ids = true -> small_ids ids.
Proof.
  unfold few_texts. rewrite !andb_true_iff, !N.ltb_lt. intros [[H1 H2] H3]. split; unfold small; lia.
Qed.

Definition two_rows_added (S : Session Z) : bool :=
  bool_decide (map Name1 (of_partial (Lists (State S))) = [1%N; 2%N; 2%N; 4%N]) &&
  bool_decide (Ext S = 2%Z) && bool_decide (length (Trace S) = 5).

Lemma drain_preserves_session_witness :
  exists t', AddMatchesInternal Best (Some Partial) None sample_session = (t', Ok tt) /\
    drain_ok t' /\ two_rows_added t'.1 = true.
Proof.
  destruct (AddMatchesInternal Best (Some Partial) None sample_session) as [t' q] eqn:E.
  exists t'.
  assert ((two_rows_added t'.1, few_texts (Ids t'.1), q) = (true, true, Ok tt)) as Hq.
  { transitivity (let '(t, a) := AddMatchesInternal Best (Some Partial) None sample_session in
      (two_rows_added t.1, few_texts (Ids t.1), a)); [by rewrite E|evaluate]. }
  injection Hq as Ht Hf ->. split; [done|]. split; [|exact Ht].
  refine (proj2 (drain_preserves_session _ _ _ _ (drain_internal Best (Some Partial) None) sample_session_ok E) _).
  by apply few_small.
Defined.

(** The first row alone: one event, nothing else of the session changes. *)
Lemma CheckMatch_one_event_witness :
  exists S', CheckMatch (sample_row 2 5) sample_session.1 = (S', Ok None) /\
    same_session sample_session.1 S' /\ Trace S' = [RowEvent (sample_row 2 5) Nullsub None].
Proof.
  destruct (CheckMatch (sample_row 2 5) sample_session.1) as [S' r] eqn:E.
  assert ((Trace S', r) = ([RowEvent (sample_row 2 5) Nullsub None], Ok None)) as Hr.
  { transitivity (let '(s, a) := CheckMatch (sample_row 2 5) sample_session.1 in (Trace s, a));
      [by rewrite E|evaluate]. }
  injection Hr as Ht ->. exists S'. split; [done|]. split; [|exact Ht].
  destruct (CheckMatch_one_event _ _ _ _ E) as [H _]. exact H.
Defined.

(** ** The unmatched functions of two small databases *)

Definition main_run : QueryRun :=
  MkQueryRun (B "name", B "address")
    [(CellText (B "sub_401000"), CellText (B "4198400"));
     (CellText (B "orphan"), CellText (B "4300800"))] None.
Definition diff_run : QueryRun := MkQueryRun (B "name", B "address") [] None.

Definition sample_prepare (Sql : text) : res QueryRun :=
  if bool_decide (Sql = kSqlUnmatchedMain) then Ok main_run else Ok diff_run.

Definition unmatched_session : UnmatchedSession :=
  MkUnmatchedSession sample_ids sample_state EmptyFinal.

Lemma utf8_text_literal (t : text) : IsValidUtf8 t = true -> utf8_text t.
Proof. apply utf8_loop_spec. lia. Qed.

Lemma StageFindUnmatched_spec_witness :
  exists S', StageFindUnmatched sample_prepare unmatched_session = (S', Ok tt) /\
    UState S' = sample_state /\ UnmatchedPrimary (UFinal S') = None /\
    UnmatchedSecondary (UFinal S') = Some [MkUnmatchedRow 5 6].
Proof.
  destruct (StageFindUnmatched_spec sample_prepare main_run diff_run unmatched_session)
    as (S' & rows1 & rows2 & HS & Hst & _ & _ & _).
  - reflexivity.
  - reflexivity.
  - split; [done|]. repeat (apply Forall_cons_2; [split; eexists; split;
      [by apply utf8_text_literal|done|by apply utf8_text_literal|done]|]).
    apply Forall_nil_2.
  - split; [done|apply Forall_nil_2].
  - repeat (apply Forall_cons_2; [by split|]). apply Forall_nil_2.
  - apply Forall_nil_2.
  - exact sample_ids_wf.
  - split; reflexivity.
  - exists S'. split; [exact HS|]. split; [exact Hst|]. clear Hst.
    apply (f_equal fst) in HS. cbn [fst] in HS. rewrite <- HS. split; evaluate.
Defined.

(** ** The hook on one pair of functions *)

Definition column_of (t : text) : TextColumn := append_cell (Some (t, false)) EmptyColumn.

Lemma column_of_short (t : text) :
  (Z.of_nat (length t) < 2 ^ 32 - 2)%Z -> short_column (column_of t).
Proof.
  intros H. exists [Some (t, false)]. split.
  - apply (append_holds _ _ [] holds_empty). simpl. lia.
  - by apply Forall_cons_2; [|apply Forall_nil_2].
Qed.

Definition jump_columns (s : Side) : TextColumn :=
  match s with
  | MainSide => column_of (B "loc_1:" ++ [x0a] ++ B "jl loc_1")
  | DiffSide => column_of (B "loc_1:" ++ [x0a] ++ B "jb loc_1")
  end.
Definition empty_columns (s : Side) : TextColumn := column_of [].

(** A signed jump became unsigned: found, and reported once. *)
Lemma OnMatch_accounting_witness :
  exists s', OnMatch jump_columns empty_columns sample_ids (sample_row 2 3) d_0_9 EmptyHookState
    = Some (s', Ok tt) /\ HookFound s' = 1%Z /\ HookAnalysed s' = 1%Z /\ hook_ok s' /\
    OnMatch jump_columns empty_columns sample_ids (sample_row 2 3) d_half s' = Some (s', Ok tt).
Proof.
  destruct (OnMatch_accounting jump_columns empty_columns) with (ids := sample_ids)
    (Row := sample_row 2 3) (R := d_0_9) (s := EmptyHookState)
    as (s' & r & Hrun & Hok & _ & _ & Hagain).
  - intros []; by apply column_of_short.
  - intros s. by apply column_of_short.
  - apply hook_ok_empty.
  - simpl. lia.
  - simpl. lia.
  - exists s'.
    assert (r = Ok tt /\ HookFound s' = 1%Z /\ HookAnalysed s' = 1%Z) as (-> & Hf & Ha).
    { revert Hrun. clear. vm_compute. by intros [= <- <-]. }
    split_and!; [exact Hrun|exact Hf|exact Ha|exact Hok|].
    by apply (Hagain eq_refl).
Defined.
