(* ===== verification/StageSql.v ===== *)
(** * Registry of heuristics and stage queries (src/src/diff/Registry.cpp)

    The two tables [Registry.cpp] includes, [StageSql.inc] and [RegistrySql.inc],
    verbatim: the text of every query the stages run, and the fifty heuristics.
    Also [ApplyPostfix], which puts the configured postfix into a query. *)

From stdpp Require Import base numbers list.
From Stdlib Require Import ZArith Lia.
From S2P Require Import Prelude Dbl Decimal MatchState.

(** The text of lines separated by newlines. *)
Fixpoint lines (l : list text) : text :=
  match l with
  | [] => []
  | [t] => t
  | t :: l' => t ++ x0a :: lines l'
  end.

Record StageSqlSpec := MkStageSql {
  SpecName : text;
  SpecMethod : text;
  SpecLineBegin : Z;
  SpecLineEnd : Z;
  SpecBindCount : nat;
  SpecSha256 : text;
  SpecSql : text;
}.

Inductive HeurType := NoFps | RatioType | RatioMax | RatioMaxTrusted.
Inductive HeurCategory := CatBest | CatPartial | CatUnreliable | CatExperimental.

#[export] Instance HeurType_eq_dec : EqDecision HeurType.
Proof. solve_decision. Defined.
#[export] Instance HeurCategory_eq_dec : EqDecision HeurCategory.
Proof. solve_decision. Defined.

Record HeuristicSpec := MkHeuristic {
  HeurId : Z;
  HeurName : text;
  Category : HeurCategory;
  Type_of : HeurType;
  Min : dbl;
  HasMin : bool;
  FlagUnreliable : bool;
  FlagSlow : bool;
  FlagSameCpu : bool;
  HeurSql : text;
}.

(** ** The queries of the stages *)

Definition spec_kSqlVersion : StageSqlSpec :=
  MkStageSql (B "kSqlVersion") (B "diff") 3578 3578 0
    (B "906e08c298f1e1721108cafb1ab16b3da77727f8bf6762f0ec9a409b0cb9949f")
    (B "select value from diff.version").

Definition spec_kSqlEqualDbMd5 : StageSqlSpec :=
  MkStageSql (B "kSqlEqualDbMd5") (B "equal_db") 668 668 0
    (B "f98ce0c519e60097144713d2d2bcd6455cb9f16ff7b655da231757cdb794467a")
    (B "select count(*) total from program p, diff.program dp where p.md5sum = dp.md5sum").

Definition spec_kSqlEqualDbExcept : StageSqlSpec :=
  MkStageSql (B "kSqlEqualDbExcept") (B "equal_db") 673 680 0
    (B "04ba399c81ca4852254b8b2c1ba5fe397eca818f0375c6fbff1b72c5cb298d78")
    ((lines [
       B "select count(*) total";
       B "                   from (select id, address, size, nodes, edges";
       B "                           from functions";
       B "                         except";
       B "                         select id, address, size, nodes, edges";
       B "                           from diff.functions) x"])).

Definition spec_kSqlCallgraph : StageSqlSpec :=
  MkStageSql (B "kSqlCallgraph") (B "get_callgraph_difference") 1294 1296 0
    (B "0cfeebee7e7f772cbba3ba940fbc33d5a35ee0427b37a67c887fde54a9b8c100")
    ((lines [
       B "select callgraph_primes, callgraph_all_primes from program";
       B "        union all";
       B "        select callgraph_primes, callgraph_all_primes from diff.program"])).

Definition spec_kSqlTotals : StageSqlSpec :=
  MkStageSql (B "kSqlTotals") (B "find_equal_matches") 1411 1413 0
    (B "4a2de1ce5236420fc63d697dad97a5b29c2afbd43d823f85ac5b12c86b46549b")
    ((lines [
       B "select count(*) total from functions";
       B "        union all";
       B "        select count(*) total from diff.functions"])).

Definition spec_kSqlEqualMatches : StageSqlSpec :=
  MkStageSql (B "kSqlEqualMatches") (B "find_equal_matches") 1424 1430 0
    (B "89b731f90da21a049fede0981f83f2d46109af5d69d81eedc1e49b9a7588770a")
    ((lines [
       B "select address ea, mangled_function, nodes, bytes_hash";
       B "                 from (select id, address, mangled_function, nodes, edges, size, bytes_hash";
       B "                         from functions";
       B "                    intersect";
       B "                       select id, address, mangled_function, nodes, edges, size, bytes_hash";
       B "                         from diff.functions) x"])).

Definition spec_kSqlSameProcessor : StageSqlSpec :=
  MkStageSql (B "kSqlSameProcessor") (B "same_processor_both_databases") 2957 2960 0
    (B "59df216d7c2bcf2056e437b89148b8a0a52a5cb78c5d928e064f962c71686910")
    ((lines [
       B " select 1";
       B "          from main.program mp,";
       B "             diff.program dp";
       B "         where mp.processor = dp.processor"])).

Definition spec_kSqlStrippedCount : StageSqlSpec :=
  MkStageSql (B "kSqlStrippedCount") (B "search_just_stripped_binaries") 2551 2554 0
    (B "4ee541360d689a460c6446727d76e1bc169db62a37e2a29050b25e9a60c7057e")
    ((lines [
       B "select count(0)";
       B "                 from main.functions f,";
       B "                      diff.functions df";
       B "                where f.address = df.address "])).

Definition spec_kSqlStrippedRows : StageSqlSpec :=
  MkStageSql (B "kSqlStrippedRows") (B "search_just_stripped_binaries") 2568 2577 0
    (B "87018326f527d73b4c9f905f9b115390e433df622b50d1275378c36aa80547a7")
    ((lines [
       B "";
       B "    select distinct  f.address ea, f.name name1, df.address ea2, df.name name2,";
       B "                  'Same binary with symbols stripped' description,";
       B "                  f.pseudocode pseudo1, df.pseudocode pseudo2,";
       B "                  f.assembly asm1, df.assembly asm2,";
       B "                  f.pseudocode_primes pseudo_primes1, df.pseudocode_primes pseudo_primes2,";
       B "                  f.nodes nodes1, df.nodes nodes2,";
       B "                  cast(f.md_index as real) md1, cast(df.md_index as real) md2,";
       B "                  f.clean_assembly clean_assembly1, df.clean_assembly clean_assembly2,";
       B "                  f.clean_pseudo clean_pseudo1, df.clean_pseudo clean_pseudo2,";
       B "                  f.mangled_function mangled1, df.mangled_function mangled2,";
       B "                  f.clean_microcode clean_micro1, df.clean_microcode clean_micro2,";
       B "                  f.bytes_hash bytes_hash1, df.bytes_hash bytes_hash2,";
       B "                  f.edges edges1, df.edges edges2,";
       B "                  f.indegree indegree1, df.indegree indegree2,";
       B "                  f.outdegree outdegree1, df.outdegree outdegree2,";
       B "                  f.instructions instructions1, df.instructions instructions2,";
       B "                  f.cyclomatic_complexity cc1, df.cyclomatic_complexity cc2,";
       B "                  f.strongly_connected strongly_connected1,";
       B "                  df.strongly_connected strongly_connected2,";
       B "                  f.loops loops1, df.loops loops2,";
       B "                  f.constants_count constants_count1,";
       B "                  df.constants_count constants_count2,";
       B "                  f.size size1, df.size size2,";
       B "                  f.kgh_hash kgh_hash1, df.kgh_hash kgh_hash2";
       B "";
       B "      from functions f,";
       B "           diff.functions df";
       B "     where f.address = df.address"])).

Definition spec_kSqlPatchCount : StageSqlSpec :=
  MkStageSql (B "kSqlPatchCount") (B "search_patchdiff_with_symbols") 2599 2603 0
    (B "330cf54c65a6eaa1ec6d1d63cb81eb5195298afa59212b314b3a7597df19ba7a")
    ((lines [
       B "select count(0)";
       B "                 from main.functions f,";
       B "                      diff.functions df";
       B "                where f.mangled_function = df.mangled_function "])).

Definition spec_kSqlSameName : StageSqlSpec :=
  MkStageSql (B "kSqlSameName") (B "find_same_name") 2157 2166 0
    (B "703ed355d5f56bb20ba63ff6f557ba6536daa702a06e6a53258d932548a425c0")
    ((lines [
       B "select distinct  f.address ea, f.name name1, df.address ea2, df.name name2,";
       B "                  'Perfect match, same name' description,";
       B "                  f.pseudocode pseudo1, df.pseudocode pseudo2,";
       B "                  f.assembly asm1, df.assembly asm2,";
       B "                  f.pseudocode_primes pseudo_primes1, df.pseudocode_primes pseudo_primes2,";
       B "                  f.nodes nodes1, df.nodes nodes2,";
       B "                  cast(f.md_index as real) md1, cast(df.md_index as real) md2,";
       B "                  f.clean_assembly clean_assembly1, df.clean_assembly clean_assembly2,";
       B "                  f.clean_pseudo clean_pseudo1, df.clean_pseudo clean_pseudo2,";
       B "                  f.mangled_function mangled1, df.mangled_function mangled2,";
       B "                  f.clean_microcode clean_micro1, df.clean_microcode clean_micro2,";
       B "                  f.bytes_hash bytes_hash1, df.bytes_hash bytes_hash2,";
       B "                  f.edges edges1, df.edges edges2,";
       B "                  f.indegree indegree1, df.indegree indegree2,";
       B "                  f.outdegree outdegree1, df.outdegree outdegree2,";
       B "                  f.instructions instructions1, df.instructions instructions2,";
       B "                  f.cyclomatic_complexity cc1, df.cyclomatic_complexity cc2,";
       B "                  f.strongly_connected strongly_connected1,";
       B "                  df.strongly_connected strongly_connected2,";
       B "                  f.loops loops1, df.loops loops2,";
       B "                  f.constants_count constants_count1,";
       B "                  df.constants_count constants_count2,";
       B "                  f.size size1, df.size size2,";
       B "                  f.kgh_hash kgh_hash1, df.kgh_hash kgh_hash2";
       B "";
       B "         from functions f,";
       B "          diff.functions df";
       B "        where (df.mangled_function = f.mangled_function";
       B "         or df.name = f.name)";
       B "        and f.name not like 'nullsub_%'"])).

Definition spec_kSqlSmallDifferences : StageSqlSpec :=
  MkStageSql (B "kSqlSmallDifferences") (B "search_small_differences") 2092 2106 0
    (B "5dc50b7d59deb5f4f9420493d06db99de190e49c4a583d2dfba1ad69dd9b9b4e")
    ((lines [
       B " select  f.address ea, f.name name1, df.address ea2, df.name name2,";
       B "                  'Nodes, edges, complexity and mnemonics with small differences' description,";
       B "                  f.pseudocode pseudo1, df.pseudocode pseudo2,";
       B "                  f.assembly asm1, df.assembly asm2,";
       B "                  f.pseudocode_primes pseudo_primes1, df.pseudocode_primes pseudo_primes2,";
       B "                  f.nodes nodes1, df.nodes nodes2,";
       B "                  cast(f.md_index as real) md1, cast(df.md_index as real) md2,";
       B "                  f.clean_assembly clean_assembly1, df.clean_assembly clean_assembly2,";
       B "                  f.clean_pseudo clean_pseudo1, df.clean_pseudo clean_pseudo2,";
       B "                  f.mangled_function mangled1, df.mangled_function mangled2,";
       B "                  f.clean_microcode clean_micro1, df.clean_microcode clean_micro2,";
       B "                  f.bytes_hash bytes_hash1, df.bytes_hash bytes_hash2,";
       B "                  f.edges edges1, df.edges edges2,";
       B "                  f.indegree indegree1, df.indegree indegree2,";
       B "                  f.outdegree outdegree1, df.outdegree outdegree2,";
       B "                  f.instructions instructions1, df.instructions instructions2,";
       B "                  f.cyclomatic_complexity cc1, df.cyclomatic_complexity cc2,";
       B "                  f.strongly_connected strongly_connected1,";
       B "                  df.strongly_connected strongly_connected2,";
       B "                  f.loops loops1, df.loops loops2,";
       B "                  f.constants_count constants_count1,";
       B "                  df.constants_count constants_count2,";
       B "                  f.size size1, df.size size2,";
       B "                  f.kgh_hash kgh_hash1, df.kgh_hash kgh_hash2";
       B " ,";
       B "           f.names  f_names,";
       B "           df.names df_names";
       B "        from functions f,";
       B "           diff.functions df";
       B "         where f.nodes = df.nodes";
       B "         and f.edges = df.edges";
       B "         and f.mnemonics = df.mnemonics";
       B "         and f.cyclomatic_complexity = df.cyclomatic_complexity";
       B "         and f.names != '[]' "])).

Definition spec_kSqlUnmatchedUnion : StageSqlSpec :=
  MkStageSql (B "kSqlUnmatchedUnion") (B "get_unmatched_functions") 2647 2650 0
    (B "4773639988fd96ba58328d3796a23f62aad81c21a56caf7e2f86b6bfe0be10c7")
    ((lines [
       B "select 'main' db_name, name, address from main.functions";
       B "        union";
       B "         select 'diff' db_name, name, address from diff.functions";
       B "    "])).

Definition spec_kSqlRemainingPair : StageSqlSpec :=
  MkStageSql (B "kSqlRemainingPair") (B "search_remaining_functions") 2675 2685 3
    (B "cf4fd617a89d472e5f7df5c381429787dde2d3fc0642eefe2f8ebaf7b95fe0d1")
    ((lines [
       B "select  f.address ea, f.name name1, df.address ea2, df.name name2,";
       B "                  ? description,";
       B "                  f.pseudocode pseudo1, df.pseudocode pseudo2,";
       B "                  f.assembly asm1, df.assembly asm2,";
       B "                  f.pseudocode_primes pseudo_primes1, df.pseudocode_primes pseudo_primes2,";
       B "                  f.nodes nodes1, df.nodes nodes2,";
       B "                  cast(f.md_index as real) md1, cast(df.md_index as real) md2,";
       B "                  f.clean_assembly clean_assembly1, df.clean_assembly clean_assembly2,";
       B "                  f.clean_pseudo clean_pseudo1, df.clean_pseudo clean_pseudo2,";
       B "                  f.mangled_function mangled1, df.mangled_function mangled2,";
       B "                  f.clean_microcode clean_micro1, df.clean_microcode clean_micro2,";
       B "                  f.bytes_hash bytes_hash1, df.bytes_hash bytes_hash2,";
       B "                  f.edges edges1, df.edges edges2,";
       B "                  f.indegree indegree1, df.indegree indegree2,";
       B "                  f.outdegree outdegree1, df.outdegree outdegree2,";
       B "                  f.instructions instructions1, df.instructions instructions2,";
       B "                  f.cyclomatic_complexity cc1, df.cyclomatic_complexity cc2,";
       B "                  f.strongly_connected strongly_connected1,";
       B "                  df.strongly_connected strongly_connected2,";
       B "                  f.loops loops1, df.loops loops2,";
       B "                  f.constants_count constants_count1,";
       B "                  df.constants_count constants_count2,";
       B "                  f.size size1, df.size size2,";
       B "                  f.kgh_hash kgh_hash1, df.kgh_hash kgh_hash2";
       B "";
       B "         from main.functions f,";
       B "          diff.functions df";
       B "        where f.address = ?";
       B "        and df.address = ? and f.nodes >= 3 and df.nodes >= 3 "])).

Definition spec_kSqlUnmatchedMain : StageSqlSpec :=
  MkStageSql (B "kSqlUnmatchedMain") (B "find_unmatched") 2330 2330 0
    (B "33c3264acadde2f37409fc6c93d9caa38c596f9ae620d64d7baf0b1ae5733e91")
    (B "select name, address from functions").

Definition spec_kSqlUnmatchedDiff : StageSqlSpec :=
  MkStageSql (B "kSqlUnmatchedDiff") (B "find_unmatched") 2343 2343 0
    (B "bde2511d0a3b7ba73bb1c20cb3165b66866a49061d9c3cf4908c0b3f8223004d")
    (B "select name, address from diff.functions").

Definition spec_kSqlFunctionRowMain : StageSqlSpec :=
  MkStageSql (B "kSqlFunctionRowMain") (B "get_function_row") 2453 2453 1
    (B "fe0665ece7e806e66a0847b5b36f3fe8aad3a7af51bd7ea592b8d465d7f4d5e6")
    (B "select * from main.functions where name = ?").

Definition spec_kSqlFunctionRowDiff : StageSqlSpec :=
  MkStageSql (B "kSqlFunctionRowDiff") (B "get_function_row") 2453 2453 1
    (B "9fe5cb167488e37b358fe2368deebab22e6211958bb349b09be4a69b25d6af57")
    (B "select * from diff.functions where name = ?").

Definition spec_kSqlFunctionsExists : StageSqlSpec :=
  MkStageSql (B "kSqlFunctionsExists") (B "functions_exists") 2976 2988 2
    (B "171c113e4cebdf783903ee6ad9369fced02255a4feab8945599623fb72e3febf")
    ((lines [
       B "select * from (";
       B "         select 'main' db_name, * from main.functions where name = ?";
       B "        union";
       B "         select 'diff' db_name, * from diff.functions where name = ?";
       B "         ) order by db_name desc";
       B "      "])).

Definition spec_kSqlGapMain : StageSqlSpec :=
  MkStageSql (B "kSqlGapMain") (B "find_functions_between") 3236 3240 2
    (B "9ba835dd5776a0513151cd58b037b54d74cee8cd83c5738ea4de4c4a1da4ceef")
    ((lines [
       B "select *";
       B "         from main.functions";
       B "        where address > ?";
       B "          and address < ?";
       B "        order by address desc"])).

Definition spec_kSqlGapDiff : StageSqlSpec :=
  MkStageSql (B "kSqlGapDiff") (B "find_functions_between") 3236 3240 2
    (B "d16d39613cc3281e6ecea0169f0dfd5edf8a0b4f28cf781e5bc5b079ea0c09e0")
    ((lines [
       B "select *";
       B "         from diff.functions";
       B "        where address > ?";
       B "          and address < ?";
       B "        order by address desc"])).

Definition spec_kSqlRelatedConstants : StageSqlSpec :=
  MkStageSql (B "kSqlRelatedConstants") (B "find_related_constants") 3367 3388 1
    (B "fa89c0f5c58c7350acf84e98f7517dfefed4024b0b0b3a97f78bcc734957c44a")
    ((lines [
       B " select  f.address ea, f.name name1, df.address ea2, df.name name2,";
       B "                  'Same constants related matches' description,";
       B "                  f.pseudocode pseudo1, df.pseudocode pseudo2,";
       B "                  f.assembly asm1, df.assembly asm2,";
       B "                  f.pseudocode_primes pseudo_primes1, df.pseudocode_primes pseudo_primes2,";
       B "                  f.nodes nodes1, df.nodes nodes2,";
       B "                  cast(f.md_index as real) md1, cast(df.md_index as real) md2,";
       B "                  f.clean_assembly clean_assembly1, df.clean_assembly clean_assembly2,";
       B "                  f.clean_pseudo clean_pseudo1, df.clean_pseudo clean_pseudo2,";
       B "                  f.mangled_function mangled1, df.mangled_function mangled2,";
       B "                  f.clean_microcode clean_micro1, df.clean_microcode clean_micro2,";
       B "                  f.bytes_hash bytes_hash1, df.bytes_hash bytes_hash2,";
       B "                  f.edges edges1, df.edges edges2,";
       B "                  f.indegree indegree1, df.indegree indegree2,";
       B "                  f.outdegree outdegree1, df.outdegree outdegree2,";
       B "                  f.instructions instructions1, df.instructions instructions2,";
       B "                  f.cyclomatic_complexity cc1, df.cyclomatic_complexity cc2,";
       B "                  f.strongly_connected strongly_connected1,";
       B "                  df.strongly_connected strongly_connected2,";
       B "                  f.loops loops1, df.loops loops2,";
       B "                  f.constants_count constants_count1,";
       B "                  df.constants_count constants_count2,";
       B "                  f.size size1, df.size size2,";
       B "                  f.kgh_hash kgh_hash1, df.kgh_hash kgh_hash2";
       B "";
       B "         from main.functions f,";
       B "              diff.functions df,";
       B "              main.constants mc,";
       B "              diff.constants dc";
       B "        where f.id = mc.func_id";
       B "          and df.id = dc.func_id";
       B "          and dc.constant = mc.constant";
       B "          and mc.constant = ?";
       B "          and abs(mc.constant) == 0 "])).

Definition spec_kSqlCuLookupMain : StageSqlSpec :=
  MkStageSql (B "kSqlCuLookupMain") (B "find_related_compilation_unit") 3419 3427 1
    (B "5f97633a50a2952917c19fe5a9f503afcca064233108461083a61516b48a3506")
    ((lines [
       B "SELECT distinct cus.id cu_id, cus.name cu_name, cus.start_ea start_ea, cus.end_ea end_ea";
       B "               FROM main.compilation_unit_functions cuf,";
       B "                    main.compilation_units cus,";
       B "                    main.functions f";
       B "              WHERE f.id = cuf.func_id";
       B "                AND cus.id = cuf.cu_id";
       B "                AND f.name = ?"])).

Definition spec_kSqlCuLookupDiff : StageSqlSpec :=
  MkStageSql (B "kSqlCuLookupDiff") (B "find_related_compilation_unit") 3419 3427 1
    (B "f2da54cde69e81dd21adcea11e2e7b91b55f826bdddbe257b01951755b2f1bde")
    ((lines [
       B "SELECT distinct cus.id cu_id, cus.name cu_name, cus.start_ea start_ea, cus.end_ea end_ea";
       B "               FROM diff.compilation_unit_functions cuf,";
       B "                    diff.compilation_units cus,";
       B "                    diff.functions f";
       B "              WHERE f.id = cuf.func_id";
       B "                AND cus.id = cuf.cu_id";
       B "                AND f.name = ?"])).

Definition spec_kSqlCuCartesian : StageSqlSpec :=
  MkStageSql (B "kSqlCuCartesian") (B "find_related_compilation_unit") 3408 3433 4
    (B "9ef3b9822a2f2d6e40deb922a31457571a00ae3c07a1ecb5672704ae72aaf563")
    ((lines [
       B "select  f.address ea, f.name name1, df.address ea2, df.name name2,";
       B "                  'Related compilation unit' description,";
       B "                  f.pseudocode pseudo1, df.pseudocode pseudo2,";
       B "                  f.assembly asm1, df.assembly asm2,";
       B "                  f.pseudocode_primes pseudo_primes1, df.pseudocode_primes pseudo_primes2,";
       B "                  f.nodes nodes1, df.nodes nodes2,";
       B "                  cast(f.md_index as real) md1, cast(df.md_index as real) md2,";
       B "                  f.clean_assembly clean_assembly1, df.clean_assembly clean_assembly2,";
       B "                  f.clean_pseudo clean_pseudo1, df.clean_pseudo clean_pseudo2,";
       B "                  f.mangled_function mangled1, df.mangled_function mangled2,";
       B "                  f.clean_microcode clean_micro1, df.clean_microcode clean_micro2,";
       B "                  f.bytes_hash bytes_hash1, df.bytes_hash bytes_hash2,";
       B "                  f.edges edges1, df.edges edges2,";
       B "                  f.indegree indegree1, df.indegree indegree2,";
       B "                  f.outdegree outdegree1, df.outdegree outdegree2,";
       B "                  f.instructions instructions1, df.instructions instructions2,";
       B "                  f.cyclomatic_complexity cc1, df.cyclomatic_complexity cc2,";
       B "                  f.strongly_connected strongly_connected1,";
       B "                  df.strongly_connected strongly_connected2,";
       B "                  f.loops loops1, df.loops loops2,";
       B "                  f.constants_count constants_count1,";
       B "                  df.constants_count constants_count2,";
       B "                  f.size size1, df.size size2,";
       B "                  f.kgh_hash kgh_hash1, df.kgh_hash kgh_hash2";
       B "";
       B "               from functions f,";
       B "                    diff.functions df";
       B "              where cast(f.address as real)  between ? and ?";
       B "                and cast(df.address as real) between ? and ? "])).

Definition StageSqls : list StageSqlSpec :=
  [spec_kSqlVersion; spec_kSqlEqualDbMd5; spec_kSqlEqualDbExcept; spec_kSqlCallgraph;
   spec_kSqlTotals; spec_kSqlEqualMatches; spec_kSqlSameProcessor; spec_kSqlStrippedCount;
   spec_kSqlStrippedRows; spec_kSqlPatchCount; spec_kSqlSameName; spec_kSqlSmallDifferences;
   spec_kSqlUnmatchedUnion; spec_kSqlRemainingPair; spec_kSqlUnmatchedMain; spec_kSqlUnmatchedDiff;
   spec_kSqlFunctionRowMain; spec_kSqlFunctionRowDiff; spec_kSqlFunctionsExists; spec_kSqlGapMain;
   spec_kSqlGapDiff; spec_kSqlRelatedConstants; spec_kSqlCuLookupMain; spec_kSqlCuLookupDiff;
   spec_kSqlCuCartesian].

Definition StageSql (Name : text) : res StageSqlSpec :=
  match List.find (fun Spec => bool_decide (SpecName Spec = Name)) StageSqls with
  | Some Spec => Ok Spec
  | None => Throw (CxxException (B "out_of_range"))
  end.

Definition LookupStageSql (Name : text) : text :=
  match List.find (fun Spec => bool_decide (SpecName Spec = Name)) StageSqls with
  | Some Spec => SpecSql Spec
  | None => []
  end.


Definition kSqlVersion : text := LookupStageSql (B "kSqlVersion").

Definition kSqlEqualDbMd5 : text := LookupStageSql (B "kSqlEqualDbMd5").

Definition kSqlEqualDbExcept : text := LookupStageSql (B "kSqlEqualDbExcept").

Definition kSqlCallgraph : text := LookupStageSql (B "kSqlCallgraph").

Definition kSqlTotals : text := LookupStageSql (B "kSqlTotals").

Definition kSqlEqualMatches : text := LookupStageSql (B "kSqlEqualMatches").

Definition kSqlSameProcessor : text := LookupStageSql (B "kSqlSameProcessor").

Definition kSqlStrippedCount : text := LookupStageSql (B "kSqlStrippedCount").

Definition kSqlStrippedRows : text := LookupStageSql (B "kSqlStrippedRows").

Definition kSqlPatchCount : text := LookupStageSql (B "kSqlPatchCount").

Definition kSqlSameName : text := LookupStageSql (B "kSqlSameName").

Definition kSqlSmallDifferences : text := LookupStageSql (B "kSqlSmallDifferences").

Definition kSqlUnmatchedUnion : text := LookupStageSql (B "kSqlUnmatchedUnion").

Definition kSqlRemainingPair : text := LookupStageSql (B "kSqlRemainingPair").

Definition kSqlUnmatchedMain : text := LookupStageSql (B "kSqlUnmatchedMain").

Definition kSqlUnmatchedDiff : text := LookupStageSql (B "kSqlUnmatchedDiff").

Definition kSqlFunctionRowMain : text := LookupStageSql (B "kSqlFunctionRowMain").

Definition kSqlFunctionRowDiff : text := LookupStageSql (B "kSqlFunctionRowDiff").

Definition kSqlFunctionsExists : text := LookupStageSql (B "kSqlFunctionsExists").

Definition kSqlGapMain : text := LookupStageSql (B "kSqlGapMain").

Definition kSqlGapDiff : text := LookupStageSql (B "kSqlGapDiff").

Definition kSqlRelatedConstants : text := LookupStageSql (B "kSqlRelatedConstants").

Definition kSqlCuLookupMain : text := LookupStageSql (B "kSqlCuLookupMain").

Definition kSqlCuLookupDiff : text := LookupStageSql (B "kSqlCuLookupDiff").

Definition kSqlCuCartesian : text := LookupStageSql (B "kSqlCuCartesian").


(** ** The heuristics *)

Definition heuristic_0 : HeuristicSpec :=
  MkHeuristic 0 (B "Same RVA and hash") CatBest NoFps d0 false false false true
    (lines [
     B " select  f.address ea, f.name name1, df.address ea2, df.name name2,";
     B "                  'Same RVA and hash' description,";
     B "                  f.pseudocode pseudo1, df.pseudocode pseudo2,";
     B "                  f.assembly asm1, df.assembly asm2,";
     B "                  f.pseudocode_primes pseudo_primes1, df.pseudocode_primes pseudo_primes2,";
     B "                  f.nodes nodes1, df.nodes nodes2,";
     B "                  cast(f.md_index as real) md1, cast(df.md_index as real) md2,";
     B "                  f.clean_assembly clean_assembly1, df.clean_assembly clean_assembly2,";
     B "                  f.clean_pseudo clean_pseudo1, df.clean_pseudo clean_pseudo2,";
     B "                  f.mangled_function mangled1, df.mangled_function mangled2,";
     B "                  f.clean_microcode clean_micro1, df.clean_microcode clean_micro2,";
     B "                  f.bytes_hash bytes_hash1, df.bytes_hash bytes_hash2,";
     B "                  f.edges edges1, df.edges edges2,";
     B "                  f.indegree indegree1, df.indegree indegree2,";
     B "                  f.outdegree outdegree1, df.outdegree outdegree2,";
     B "                  f.instructions instructions1, df.instructions instructions2,";
     B "                  f.cyclomatic_complexity cc1, df.cyclomatic_complexity cc2,";
     B "                  f.strongly_connected strongly_connected1,";
     B "                  df.strongly_connected strongly_connected2,";
     B "                  f.loops loops1, df.loops loops2,";
     B "                  f.constants_count constants_count1,";
     B "                  df.constants_count constants_count2,";
     B "                  f.size size1, df.size size2,";
     B "                  f.kgh_hash kgh_hash1, df.kgh_hash kgh_hash2";
     B "";
     B "              from functions f,";
     B "                   diff.functions df";
     B "             where (df.rva = f.rva";
     B "                 or df.segment_rva = f.segment_rva)";
     B "               and df.bytes_hash = f.bytes_hash";
     B "               and df.instructions = f.instructions";
     B "               and ((f.name = df.name and substr(f.name, 1, 4) != 'sub_')";
     B "                 or (substr(f.name, 1, 4) = 'sub_' or substr(df.name, 1, 4) = 'sub_'))";
     B "               and f.nodes >= 3";
     B "               and df.nodes >= 3";
     B "               %POSTFIX%"]).

Definition heuristic_1 : HeuristicSpec :=
  MkHeuristic 1 (B "Same order and hash") CatBest NoFps d0 false false false true
    (lines [
     B " select  f.address ea, f.name name1, df.address ea2, df.name name2,";
     B "                  'Same order and hash' description,";
     B "                  f.pseudocode pseudo1, df.pseudocode pseudo2,";
     B "                  f.assembly asm1, df.assembly asm2,";
     B "                  f.pseudocode_primes pseudo_primes1, df.pseudocode_primes pseudo_primes2,";
     B "                  f.nodes nodes1, df.nodes nodes2,";
     B "                  cast(f.md_index as real) md1, cast(df.md_index as real) md2,";
     B "                  f.clean_assembly clean_assembly1, df.clean_assembly clean_assembly2,";
     B "                  f.clean_pseudo clean_pseudo1, df.clean_pseudo clean_pseudo2,";
     B "                  f.mangled_function mangled1, df.mangled_function mangled2,";
     B "                  f.clean_microcode clean_micro1, df.clean_microcode clean_micro2,";
     B "                  f.bytes_hash bytes_hash1, df.bytes_hash bytes_hash2,";
     B "                  f.edges edges1, df.edges edges2,";
     B "                  f.indegree indegree1, df.indegree indegree2,";
     B "                  f.outdegree outdegree1, df.outdegree outdegree2,";
     B "                  f.instructions instructions1, df.instructions instructions2,";
     B "                  f.cyclomatic_complexity cc1, df.cyclomatic_complexity cc2,";
     B "                  f.strongly_connected strongly_connected1,";
     B "                  df.strongly_connected strongly_connected2,";
     B "                  f.loops loops1, df.loops loops2,";
     B "                  f.constants_count constants_count1,";
     B "                  df.constants_count constants_count2,";
     B "                  f.size size1, df.size size2,";
     B "                  f.kgh_hash kgh_hash1, df.kgh_hash kgh_hash2";
     B "";
     B "              from functions f,";
     B "                   diff.functions df";
     B "             where df.id = f.id";
     B "               and df.bytes_hash = f.bytes_hash";
     B "               and df.instructions = f.instructions";
     B "               and ((f.name = df.name and substr(f.name, 1, 4) != 'sub_')";
     B "                 or (substr(f.name, 1, 4) = 'sub_' or substr(df.name, 1, 4) = 'sub_'))";
     B "               and ((f.nodes > 1 and df.nodes > 1";
     B "                 and f.instructions > 5 and df.instructions > 5)";
     B "                  or f.instructions > 10 and df.instructions > 10)";
     B "               %POSTFIX%"]).

Definition heuristic_2 : HeuristicSpec :=
  MkHeuristic 2 (B "Function Hash") CatBest NoFps d0 false false false true
    (lines [
     B " select distinct  f.address ea, f.name name1, df.address ea2, df.name name2,";
     B "                  'Function Hash' description,";
     B "                  f.pseudocode pseudo1, df.pseudocode pseudo2,";
     B "                  f.assembly asm1, df.assembly asm2,";
     B "                  f.pseudocode_primes pseudo_primes1, df.pseudocode_primes pseudo_primes2,";
     B "                  f.nodes nodes1, df.nodes nodes2,";
     B "                  cast(f.md_index as real) md1, cast(df.md_index as real) md2,";
     B "                  f.clean_assembly clean_assembly1, df.clean_assembly clean_assembly2,";
     B "                  f.clean_pseudo clean_pseudo1, df.clean_pseudo clean_pseudo2,";
     B "                  f.mangled_function mangled1, df.mangled_function mangled2,";
     B "                  f.clean_microcode clean_micro1, df.clean_microcode clean_micro2,";
     B "                  f.bytes_hash bytes_hash1, df.bytes_hash bytes_hash2,";
     B "                  f.edges edges1, df.edges edges2,";
     B "                  f.indegree indegree1, df.indegree indegree2,";
     B "                  f.outdegree outdegree1, df.outdegree outdegree2,";
     B "                  f.instructions instructions1, df.instructions instructions2,";
     B "                  f.cyclomatic_complexity cc1, df.cyclomatic_complexity cc2,";
     B "                  f.strongly_connected strongly_connected1,";
     B "                  df.strongly_connected strongly_connected2,";
     B "                  f.loops loops1, df.loops loops2,";
     B "                  f.constants_count constants_count1,";
     B "                  df.constants_count constants_count2,";
     B "                  f.size size1, df.size size2,";
     B "                  f.kgh_hash kgh_hash1, df.kgh_hash kgh_hash2";
     B "";
     B "              from functions f,";
     B "                   diff.functions df";
     B "             where f.function_hash = df.function_hash ";
     B "               and ((f.nodes > 1 and df.nodes > 1";
     B "                 and f.instructions > 5 and df.instructions > 5)";
     B "                  or f.instructions > 10 and df.instructions > 10)";
     B "               %POSTFIX%"]).

Definition heuristic_3 : HeuristicSpec :=
  MkHeuristic 3 (B "Bytes hash") CatBest NoFps d0 false false false true
    (lines [
     B " select distinct  f.address ea, f.name name1, df.address ea2, df.name name2,";
     B "                  'Bytes hash' description,";
     B "                  f.pseudocode pseudo1, df.pseudocode pseudo2,";
     B "                  f.assembly asm1, df.assembly asm2,";
     B "                  f.pseudocode_primes pseudo_primes1, df.pseudocode_primes pseudo_primes2,";
     B "                  f.nodes nodes1, df.nodes nodes2,";
     B "                  cast(f.md_index as real) md1, cast(df.md_index as real) md2,";
     B "                  f.clean_assembly clean_assembly1, df.clean_assembly clean_assembly2,";
     B "                  f.clean_pseudo clean_pseudo1, df.clean_pseudo clean_pseudo2,";
     B "                  f.mangled_function mangled1, df.mangled_function mangled2,";
     B "                  f.clean_microcode clean_micro1, df.clean_microcode clean_micro2,";
     B "                  f.bytes_hash bytes_hash1, df.bytes_hash bytes_hash2,";
     B "                  f.edges edges1, df.edges edges2,";
     B "                  f.indegree indegree1, df.indegree indegree2,";
     B "                  f.outdegree outdegree1, df.outdegree outdegree2,";
     B "                  f.instructions instructions1, df.instructions instructions2,";
     B "                  f.cyclomatic_complexity cc1, df.cyclomatic_complexity cc2,";
     B "                  f.strongly_connected strongly_connected1,";
     B "                  df.strongly_connected strongly_connected2,";
     B "                  f.loops loops1, df.loops loops2,";
     B "                  f.constants_count constants_count1,";
     B "                  df.constants_count constants_count2,";
     B "                  f.size size1, df.size size2,";
     B "                  f.kgh_hash kgh_hash1, df.kgh_hash kgh_hash2";
     B "";
     B "              from functions f,";
     B "                   diff.functions df";
     B "             where f.bytes_hash = df.bytes_hash";
     B "               and f.instructions > 5 and df.instructions > 5";
     B "               %POSTFIX%"]).

Definition heuristic_4 : HeuristicSpec :=
  MkHeuristic 4 (B "Same address and mnemonics") CatBest RatioType d0 false false false false
    (lines [
     B " select distinct  f.address ea, f.name name1, df.address ea2, df.name name2,";
     B "                  'Same address and mnemonics' description,";
     B "                  f.pseudocode pseudo1, df.pseudocode pseudo2,";
     B "                  f.assembly asm1, df.assembly asm2,";
     B "                  f.pseudocode_primes pseudo_primes1, df.pseudocode_primes pseudo_primes2,";
     B "                  f.nodes nodes1, df.nodes nodes2,";
     B "                  cast(f.md_index as real) md1, cast(df.md_index as real) md2,";
     B "                  f.clean_assembly clean_assembly1, df.clean_assembly clean_assembly2,";
     B "                  f.clean_pseudo clean_pseudo1, df.clean_pseudo clean_pseudo2,";
     B "                  f.mangled_function mangled1, df.mangled_function mangled2,";
     B "                  f.clean_microcode clean_micro1, df.clean_microcode clean_micro2,";
     B "                  f.bytes_hash bytes_hash1, df.bytes_hash bytes_hash2,";
     B "                  f.edges edges1, df.edges edges2,";
     B "                  f.indegree indegree1, df.indegree indegree2,";
     B "                  f.outdegree outdegree1, df.outdegree outdegree2,";
     B "                  f.instructions instructions1, df.instructions instructions2,";
     B "                  f.cyclomatic_complexity cc1, df.cyclomatic_complexity cc2,";
     B "                  f.strongly_connected strongly_connected1,";
     B "                  df.strongly_connected strongly_connected2,";
     B "                  f.loops loops1, df.loops loops2,";
     B "                  f.constants_count constants_count1,";
     B "                  df.constants_count constants_count2,";
     B "                  f.size size1, df.size size2,";
     B "                  f.kgh_hash kgh_hash1, df.kgh_hash kgh_hash2";
     B "";
     B "              from functions f,";
     B "                   diff.functions df";
     B "             where df.address = f.address";
     B "               and df.mnemonics = f.mnemonics";
     B "               and df.instructions = f.instructions";
     B "               and df.instructions > 5";
     B "               and ((f.name = df.name and substr(f.name, 1, 4) != 'sub_')";
     B "                 or (substr(f.name, 1, 4) = 'sub_' or substr(df.name, 1, 4) = 'sub_'))";
     B "               %POSTFIX%";
     B "             order by f.source_file = df.source_file"]).

Definition heuristic_5 : HeuristicSpec :=
  MkHeuristic 5 (B "Same cleaned assembly") CatBest RatioType d0 false false false true
    (lines [
     B " select  f.address ea, f.name name1, df.address ea2, df.name name2,";
     B "                  'Same cleaned assembly' description,";
     B "                  f.pseudocode pseudo1, df.pseudocode pseudo2,";
     B "                  f.assembly asm1, df.assembly asm2,";
     B "                  f.pseudocode_primes pseudo_primes1, df.pseudocode_primes pseudo_primes2,";
     B "                  f.nodes nodes1, df.nodes nodes2,";
     B "                  cast(f.md_index as real) md1, cast(df.md_index as real) md2,";
     B "                  f.clean_assembly clean_assembly1, df.clean_assembly clean_assembly2,";
     B "                  f.clean_pseudo clean_pseudo1, df.clean_pseudo clean_pseudo2,";
     B "                  f.mangled_function mangled1, df.mangled_function mangled2,";
     B "                  f.clean_microcode clean_micro1, df.clean_microcode clean_micro2,";
     B "                  f.bytes_hash bytes_hash1, df.bytes_hash bytes_hash2,";
     B "                  f.edges edges1, df.edges edges2,";
     B "                  f.indegree indegree1, df.indegree indegree2,";
     B "                  f.outdegree outdegree1, df.outdegree outdegree2,";
     B "                  f.instructions instructions1, df.instructions instructions2,";
     B "                  f.cyclomatic_complexity cc1, df.cyclomatic_complexity cc2,";
     B "                  f.strongly_connected strongly_connected1,";
     B "                  df.strongly_connected strongly_connected2,";
     B "                  f.loops loops1, df.loops loops2,";
     B "                  f.constants_count constants_count1,";
     B "                  df.constants_count constants_count2,";
     B "                  f.size size1, df.size size2,";
     B "                  f.kgh_hash kgh_hash1, df.kgh_hash kgh_hash2";
     B "";
     B "        from functions f,";
     B "             diff.functions df";
     B "       where f.clean_assembly = df.clean_assembly";
     B "         and f.nodes >= 3 and df.nodes >= 3";
     B "         and f.name not like 'nullsub%'";
     B "         and df.name not like 'nullsub%'";
     B "         %POSTFIX%";
     B "       order by f.source_file = df.source_file"]).

Definition heuristic_6 : HeuristicSpec :=
  MkHeuristic 6 (B "Same cleaned microcode") CatBest RatioType d0 false false false true
    (lines [
     B " select  f.address ea, f.name name1, df.address ea2, df.name name2,";
     B "                  'Same cleaned microcode' description,";
     B "                  f.pseudocode pseudo1, df.pseudocode pseudo2,";
     B "                  f.assembly asm1, df.assembly asm2,";
     B "                  f.pseudocode_primes pseudo_primes1, df.pseudocode_primes pseudo_primes2,";
     B "                  f.nodes nodes1, df.nodes nodes2,";
     B "                  cast(f.md_index as real) md1, cast(df.md_index as real) md2,";
     B "                  f.clean_assembly clean_assembly1, df.clean_assembly clean_assembly2,";
     B "                  f.clean_pseudo clean_pseudo1, df.clean_pseudo clean_pseudo2,";
     B "                  f.mangled_function mangled1, df.mangled_function mangled2,";
     B "                  f.clean_microcode clean_micro1, df.clean_microcode clean_micro2,";
     B "                  f.bytes_hash bytes_hash1, df.bytes_hash bytes_hash2,";
     B "                  f.edges edges1, df.edges edges2,";
     B "                  f.indegree indegree1, df.indegree indegree2,";
     B "                  f.outdegree outdegree1, df.outdegree outdegree2,";
     B "                  f.instructions instructions1, df.instructions instructions2,";
     B "                  f.cyclomatic_complexity cc1, df.cyclomatic_complexity cc2,";
     B "                  f.strongly_connected strongly_connected1,";
     B "                  df.strongly_connected strongly_connected2,";
     B "                  f.loops loops1, df.loops loops2,";
     B "                  f.constants_count constants_count1,";
     B "                  df.constants_count constants_count2,";
     B "                  f.size size1, df.size size2,";
     B "                  f.kgh_hash kgh_hash1, df.kgh_hash kgh_hash2";
     B "";
     B "        from functions f,";
     B "             diff.functions df";
     B "       where f.clean_microcode = df.clean_microcode";
     B "         and f.instructions > 3 and df.instructions > 3";
     B "         and f.name not like 'nullsub%'";
     B "         and df.name not like 'nullsub%'";
     B "         %POSTFIX%";
     B "       order by f.source_file = df.source_file"]).

Definition heuristic_7 : HeuristicSpec :=
  MkHeuristic 7 (B "Same cleaned pseudo-code") CatBest RatioType d0 false false false false
    (lines [
     B " select  f.address ea, f.name name1, df.address ea2, df.name name2,";
     B "                  'Same cleaned pseudo-code' description,";
     B "                  f.pseudocode pseudo1, df.pseudocode pseudo2,";
     B "                  f.assembly asm1, df.assembly asm2,";
     B "                  f.pseudocode_primes pseudo_primes1, df.pseudocode_primes pseudo_primes2,";
     B "                  f.nodes nodes1, df.nodes nodes2,";
     B "                  cast(f.md_index as real) md1, cast(df.md_index as real) md2,";
     B "                  f.clean_assembly clean_assembly1, df.clean_assembly clean_assembly2,";
     B "                  f.clean_pseudo clean_pseudo1, df.clean_pseudo clean_pseudo2,";
     B "                  f.mangled_function mangled1, df.mangled_function mangled2,";
     B "                  f.clean_microcode clean_micro1, df.clean_microcode clean_micro2,";
     B "                  f.bytes_hash bytes_hash1, df.bytes_hash bytes_hash2,";
     B "                  f.edges edges1, df.edges edges2,";
     B "                  f.indegree indegree1, df.indegree indegree2,";
     B "                  f.outdegree outdegree1, df.outdegree outdegree2,";
     B "                  f.instructions instructions1, df.instructions instructions2,";
     B "                  f.cyclomatic_complexity cc1, df.cyclomatic_complexity cc2,";
     B "                  f.strongly_connected strongly_connected1,";
     B "                  df.strongly_connected strongly_connected2,";
     B "                  f.loops loops1, df.loops loops2,";
     B "                  f.constants_count constants_count1,";
     B "                  df.constants_count constants_count2,";
     B "                  f.size size1, df.size size2,";
     B "                  f.kgh_hash kgh_hash1, df.kgh_hash kgh_hash2";
     B "";
     B "        from functions f,";
     B "             diff.functions df";
     B "       where f.clean_pseudo = df.clean_pseudo";
     B "         and f.pseudocode_lines > 5 and df.pseudocode_lines > 5";
     B "         and f.name not like 'nullsub%'";
     B "         and df.name not like 'nullsub%'";
     B "         %POSTFIX%";
     B "       order by f.source_file = df.source_file"]).

Definition heuristic_8 : HeuristicSpec :=
  MkHeuristic 8 (B "Same address, nodes, edges and mnemonics") CatBest RatioType d0 false false false false
    (lines [
     B "select  f.address ea, f.name name1, df.address ea2, df.name name2,";
     B "                  'Same address, nodes, edges and mnemonics' description,";
     B "                  f.pseudocode pseudo1, df.pseudocode pseudo2,";
     B "                  f.assembly asm1, df.assembly asm2,";
     B "                  f.pseudocode_primes pseudo_primes1, df.pseudocode_primes pseudo_primes2,";
     B "                  f.nodes nodes1, df.nodes nodes2,";
     B "                  cast(f.md_index as real) md1, cast(df.md_index as real) md2,";
     B "                  f.clean_assembly clean_assembly1, df.clean_assembly clean_assembly2,";
     B "                  f.clean_pseudo clean_pseudo1, df.clean_pseudo clean_pseudo2,";
     B "                  f.mangled_function mangled1, df.mangled_function mangled2,";
     B "                  f.clean_microcode clean_micro1, df.clean_microcode clean_micro2,";
     B "                  f.bytes_hash bytes_hash1, df.bytes_hash bytes_hash2,";
     B "                  f.edges edges1, df.edges edges2,";
     B "                  f.indegree indegree1, df.indegree indegree2,";
     B "                  f.outdegree outdegree1, df.outdegree outdegree2,";
     B "                  f.instructions instructions1, df.instructions instructions2,";
     B "                  f.cyclomatic_complexity cc1, df.cyclomatic_complexity cc2,";
     B "                  f.strongly_connected strongly_connected1,";
     B "                  df.strongly_connected strongly_connected2,";
     B "                  f.loops loops1, df.loops loops2,";
     B "                  f.constants_count constants_count1,";
     B "                  df.constants_count constants_count2,";
     B "                  f.size size1, df.size size2,";
     B "                  f.kgh_hash kgh_hash1, df.kgh_hash kgh_hash2";
     B "";
     B "       from functions f,";
     B "            diff.functions df";
     B "      where f.rva = df.rva";
     B "        and f.instructions = df.instructions";
     B "        and f.nodes = df.nodes";
     B "        and f.edges = df.edges";
     B "        and f.mnemonics = df.mnemonics";
     B "        and f.instructions > 3";
     B "        and df.instructions > 3";
     B "        and f.nodes > 1";
     B "        %POSTFIX%";
     B "      order by f.source_file = df.source_file"]).

Definition heuristic_9 : HeuristicSpec :=
  MkHeuristic 9 (B "Same RVA") CatBest RatioMax (dlit 7 10) true false false true
    (lines [
     B " select distinct  f.address ea, f.name name1, df.address ea2, df.name name2,";
     B "                  'Same RVA' description,";
     B "                  f.pseudocode pseudo1, df.pseudocode pseudo2,";
     B "                  f.assembly asm1, df.assembly asm2,";
     B "                  f.pseudocode_primes pseudo_primes1, df.pseudocode_primes pseudo_primes2,";
     B "                  f.nodes nodes1, df.nodes nodes2,";
     B "                  cast(f.md_index as real) md1, cast(df.md_index as real) md2,";
     B "                  f.clean_assembly clean_assembly1, df.clean_assembly clean_assembly2,";
     B "                  f.clean_pseudo clean_pseudo1, df.clean_pseudo clean_pseudo2,";
     B "                  f.mangled_function mangled1, df.mangled_function mangled2,";
     B "                  f.clean_microcode clean_micro1, df.clean_microcode clean_micro2,";
     B "                  f.bytes_hash bytes_hash1, df.bytes_hash bytes_hash2,";
     B "                  f.edges edges1, df.edges edges2,";
     B "                  f.indegree indegree1, df.indegree indegree2,";
     B "                  f.outdegree outdegree1, df.outdegree outdegree2,";
     B "                  f.instructions instructions1, df.instructions instructions2,";
     B "                  f.cyclomatic_complexity cc1, df.cyclomatic_complexity cc2,";
     B "                  f.strongly_connected strongly_connected1,";
     B "                  df.strongly_connected strongly_connected2,";
     B "                  f.loops loops1, df.loops loops2,";
     B "                  f.constants_count constants_count1,";
     B "                  df.constants_count constants_count2,";
     B "                  f.size size1, df.size size2,";
     B "                  f.kgh_hash kgh_hash1, df.kgh_hash kgh_hash2";
     B "";
     B "              from functions f,";
     B "                   diff.functions df";
     B "             where df.rva = f.rva";
     B "               and ((f.name = df.name and substr(f.name, 1, 4) != 'sub_')";
     B "                or (substr(f.name, 1, 4) = 'sub_' or substr(df.name, 1, 4) = 'sub_'))";
     B "               and  f.nodes >= 3";
     B "               and df.nodes >= 3";
     B "               %POSTFIX%";
     B "             order by f.source_file = df.source_file"]).

Definition heuristic_10 : HeuristicSpec :=
  MkHeuristic 10 (B "Equal assembly or pseudo-code") CatBest NoFps d0 false false false false
    (lines [
     B "select  f.address ea, f.name name1, df.address ea2, df.name name2,";
     B "                  'Equal pseudo-code' description,";
     B "                  f.pseudocode pseudo1, df.pseudocode pseudo2,";
     B "                  f.assembly asm1, df.assembly asm2,";
     B "                  f.pseudocode_primes pseudo_primes1, df.pseudocode_primes pseudo_primes2,";
     B "                  f.nodes nodes1, df.nodes nodes2,";
     B "                  cast(f.md_index as real) md1, cast(df.md_index as real) md2,";
     B "                  f.clean_assembly clean_assembly1, df.clean_assembly clean_assembly2,";
     B "                  f.clean_pseudo clean_pseudo1, df.clean_pseudo clean_pseudo2,";
     B "                  f.mangled_function mangled1, df.mangled_function mangled2,";
     B "                  f.clean_microcode clean_micro1, df.clean_microcode clean_micro2,";
     B "                  f.bytes_hash bytes_hash1, df.bytes_hash bytes_hash2,";
     B "                  f.edges edges1, df.edges edges2,";
     B "                  f.indegree indegree1, df.indegree indegree2,";
     B "                  f.outdegree outdegree1, df.outdegree outdegree2,";
     B "                  f.instructions instructions1, df.instructions instructions2,";
     B "                  f.cyclomatic_complexity cc1, df.cyclomatic_complexity cc2,";
     B "                  f.strongly_connected strongly_connected1,";
     B "                  df.strongly_connected strongly_connected2,";
     B "                  f.loops loops1, df.loops loops2,";
     B "                  f.constants_count constants_count1,";
     B "                  df.constants_count constants_count2,";
     B "                  f.size size1, df.size size2,";
     B "                  f.kgh_hash kgh_hash1, df.kgh_hash kgh_hash2";
     B "";
     B "       from functions f,";
     B "            diff.functions df";
     B "      where f.pseudocode = df.pseudocode";
     B "        and df.pseudocode is not null";
     B "        and f.pseudocode_lines >= 5";
     B "        and f.name not like 'nullsub%'";
     B "        and df.name not like 'nullsub%'";
     B "        %POSTFIX%";
     B "      union";
     B "     select  f.address ea, f.name name1, df.address ea2, df.name name2,";
     B "                  'Equal assembly' description,";
     B "                  f.pseudocode pseudo1, df.pseudocode pseudo2,";
     B "                  f.assembly asm1, df.assembly asm2,";
     B "                  f.pseudocode_primes pseudo_primes1, df.pseudocode_primes pseudo_primes2,";
     B "                  f.nodes nodes1, df.nodes nodes2,";
     B "                  cast(f.md_index as real) md1, cast(df.md_index as real) md2,";
     B "                  f.clean_assembly clean_assembly1, df.clean_assembly clean_assembly2,";
     B "                  f.clean_pseudo clean_pseudo1, df.clean_pseudo clean_pseudo2,";
     B "                  f.mangled_function mangled1, df.mangled_function mangled2,";
     B "                  f.clean_microcode clean_micro1, df.clean_microcode clean_micro2,";
     B "                  f.bytes_hash bytes_hash1, df.bytes_hash bytes_hash2,";
     B "                  f.edges edges1, df.edges edges2,";
     B "                  f.indegree indegree1, df.indegree indegree2,";
     B "                  f.outdegree outdegree1, df.outdegree outdegree2,";
     B "                  f.instructions instructions1, df.instructions instructions2,";
     B "                  f.cyclomatic_complexity cc1, df.cyclomatic_complexity cc2,";
     B "                  f.strongly_connected strongly_connected1,";
     B "                  df.strongly_connected strongly_connected2,";
     B "                  f.loops loops1, df.loops loops2,";
     B "                  f.constants_count constants_count1,";
     B "                  df.constants_count constants_count2,";
     B "                  f.size size1, df.size size2,";
     B "                  f.kgh_hash kgh_hash1, df.kgh_hash kgh_hash2";
     B "";
     B "       from functions f,";
     B "            diff.functions df";
     B "      where f.assembly = df.assembly";
     B "        and df.assembly is not null";
     B "        and f.instructions >= 4 and df.instructions >= 4";
     B "        and f.name not like 'nullsub%'";
     B "        and df.name not like 'nullsub%'";
     B "        %POSTFIX% "]).

Definition heuristic_11 : HeuristicSpec :=
  MkHeuristic 11 (B "Microcode mnemonics small primes product") CatBest RatioType d0 false false false false
    (lines [
     B " select  f.address ea, f.name name1, df.address ea2, df.name name2,";
     B "                  'Microcode mnemonics small primes product' description,";
     B "                  f.pseudocode pseudo1, df.pseudocode pseudo2,";
     B "                  f.assembly asm1, df.assembly asm2,";
     B "                  f.pseudocode_primes pseudo_primes1, df.pseudocode_primes pseudo_primes2,";
     B "                  f.nodes nodes1, df.nodes nodes2,";
     B "                  cast(f.md_index as real) md1, cast(df.md_index as real) md2,";
     B "                  f.clean_assembly clean_assembly1, df.clean_assembly clean_assembly2,";
     B "                  f.clean_pseudo clean_pseudo1, df.clean_pseudo clean_pseudo2,";
     B "                  f.mangled_function mangled1, df.mangled_function mangled2,";
     B "                  f.clean_microcode clean_micro1, df.clean_microcode clean_micro2,";
     B "                  f.bytes_hash bytes_hash1, df.bytes_hash bytes_hash2,";
     B "                  f.edges edges1, df.edges edges2,";
     B "                  f.indegree indegree1, df.indegree indegree2,";
     B "                  f.outdegree outdegree1, df.outdegree outdegree2,";
     B "                  f.instructions instructions1, df.instructions instructions2,";
     B "                  f.cyclomatic_complexity cc1, df.cyclomatic_complexity cc2,";
     B "                  f.strongly_connected strongly_connected1,";
     B "                  df.strongly_connected strongly_connected2,";
     B "                  f.loops loops1, df.loops loops2,";
     B "                  f.constants_count constants_count1,";
     B "                  df.constants_count constants_count2,";
     B "                  f.size size1, df.size size2,";
     B "                  f.kgh_hash kgh_hash1, df.kgh_hash kgh_hash2";
     B "";
     B "        from functions f,";
     B "             diff.functions df";
     B "       where f.microcode_spp = df.microcode_spp";
     B "         and f.microcode_spp != 1";
     B "         and df.microcode_spp != 1";
     B "         and f.instructions > 5 and df.instructions > 5";
     B "         and f.nodes > 2 and df.nodes > 2";
     B "         and f.name not like 'nullsub%'";
     B "         and df.name not like 'nullsub%'";
     B "         %POSTFIX%";
     B "       order by f.source_file = df.source_file"]).

Definition heuristic_12 : HeuristicSpec :=
  MkHeuristic 12 (B "Same named compilation unit function match") CatPartial RatioMaxTrusted (dlit 11 25) true false false false
    (lines [
     B "  select  f.address ea, f.name name1, df.address ea2, df.name name2,";
     B "                  'Same named compilation unit function match' description,";
     B "                  f.pseudocode pseudo1, df.pseudocode pseudo2,";
     B "                  f.assembly asm1, df.assembly asm2,";
     B "                  f.pseudocode_primes pseudo_primes1, df.pseudocode_primes pseudo_primes2,";
     B "                  f.nodes nodes1, df.nodes nodes2,";
     B "                  cast(f.md_index as real) md1, cast(df.md_index as real) md2,";
     B "                  f.clean_assembly clean_assembly1, df.clean_assembly clean_assembly2,";
     B "                  f.clean_pseudo clean_pseudo1, df.clean_pseudo clean_pseudo2,";
     B "                  f.mangled_function mangled1, df.mangled_function mangled2,";
     B "                  f.clean_microcode clean_micro1, df.clean_microcode clean_micro2,";
     B "                  f.bytes_hash bytes_hash1, df.bytes_hash bytes_hash2,";
     B "                  f.edges edges1, df.edges edges2,";
     B "                  f.indegree indegree1, df.indegree indegree2,";
     B "                  f.outdegree outdegree1, df.outdegree outdegree2,";
     B "                  f.instructions instructions1, df.instructions instructions2,";
     B "                  f.cyclomatic_complexity cc1, df.cyclomatic_complexity cc2,";
     B "                  f.strongly_connected strongly_connected1,";
     B "                  df.strongly_connected strongly_connected2,";
     B "                  f.loops loops1, df.loops loops2,";
     B "                  f.constants_count constants_count1,";
     B "                  df.constants_count constants_count2,";
     B "                  f.size size1, df.size size2,";
     B "                  f.kgh_hash kgh_hash1, df.kgh_hash kgh_hash2";
     B "";
     B "               from main.compilation_units main_cu,";
     B "                    main.compilation_unit_functions mcuf,";
     B "                    main.functions f,";
     B "                    diff.compilation_units diff_cu,";
     B "                    diff.compilation_unit_functions dcuf,";
     B "                    diff.functions df";
     B "              where main_cu.name != ''";
     B "                and diff_cu.name != ''";
     B "                and main_cu.name = diff_cu.name";
     B "                and f.id = mcuf.func_id";
     B "                and df.id = dcuf.func_id";
     B "                and mcuf.cu_id = main_cu.id";
     B "                and dcuf.cu_id = diff_cu.id";
     B "                and df.primes_value = f.primes_value";
     B "                and df.nodes = f.nodes";
     B "                and f.nodes >= 5";
     B "                %POSTFIX% ";
     B "                "]).

Definition heuristic_13 : HeuristicSpec :=
  MkHeuristic 13 (B "Same anonymous compilation unit function match") CatPartial RatioMax (dlit 449 1000) true false false false
    (lines [
     B "  select  f.address ea, f.name name1, df.address ea2, df.name name2,";
     B "                  'Same anonymous compilation unit function match' description,";
     B "                  f.pseudocode pseudo1, df.pseudocode pseudo2,";
     B "                  f.assembly asm1, df.assembly asm2,";
     B "                  f.pseudocode_primes pseudo_primes1, df.pseudocode_primes pseudo_primes2,";
     B "                  f.nodes nodes1, df.nodes nodes2,";
     B "                  cast(f.md_index as real) md1, cast(df.md_index as real) md2,";
     B "                  f.clean_assembly clean_assembly1, df.clean_assembly clean_assembly2,";
     B "                  f.clean_pseudo clean_pseudo1, df.clean_pseudo clean_pseudo2,";
     B "                  f.mangled_function mangled1, df.mangled_function mangled2,";
     B "                  f.clean_microcode clean_micro1, df.clean_microcode clean_micro2,";
     B "                  f.bytes_hash bytes_hash1, df.bytes_hash bytes_hash2,";
     B "                  f.edges edges1, df.edges edges2,";
     B "                  f.indegree indegree1, df.indegree indegree2,";
     B "                  f.outdegree outdegree1, df.outdegree outdegree2,";
     B "                  f.instructions instructions1, df.instructions instructions2,";
     B "                  f.cyclomatic_complexity cc1, df.cyclomatic_complexity cc2,";
     B "                  f.strongly_connected strongly_connected1,";
     B "                  df.strongly_connected strongly_connected2,";
     B "                  f.loops loops1, df.loops loops2,";
     B "                  f.constants_count constants_count1,";
     B "                  df.constants_count constants_count2,";
     B "                  f.size size1, df.size size2,";
     B "                  f.kgh_hash kgh_hash1, df.kgh_hash kgh_hash2";
     B "";
     B "               from main.compilation_units main_cu,";
     B "                    main.compilation_unit_functions mcuf,";
     B "                    main.functions f,";
     B "                    diff.compilation_units diff_cu,";
     B "                    diff.compilation_unit_functions dcuf,";
     B "                    diff.functions df";
     B "              where main_cu.name != ''";
     B "                and diff_cu.name != ''";
     B "                and main_cu.name = diff_cu.name";
     B "                and f.id = mcuf.func_id";
     B "                and df.id = dcuf.func_id";
     B "                and mcuf.cu_id = main_cu.id";
     B "                and dcuf.cu_id = diff_cu.id";
     B "                and df.pseudocode_primes = f.pseudocode_primes";
     B "                and df.nodes = f.nodes";
     B "                and f.nodes >= 5";
     B "                %POSTFIX% ";
     B "              order by f.source_file = df.source_file"]).

Definition heuristic_14 : HeuristicSpec :=
  MkHeuristic 14 (B "Same compilation unit") CatPartial RatioType d0 false false true false
    (lines [
     B "select  f.address ea, f.name name1, df.address ea2, df.name name2,";
     B "                  'Same compilation unit' description,";
     B "                  f.pseudocode pseudo1, df.pseudocode pseudo2,";
     B "                  f.assembly asm1, df.assembly asm2,";
     B "                  f.pseudocode_primes pseudo_primes1, df.pseudocode_primes pseudo_primes2,";
     B "                  f.nodes nodes1, df.nodes nodes2,";
     B "                  cast(f.md_index as real) md1, cast(df.md_index as real) md2,";
     B "                  f.clean_assembly clean_assembly1, df.clean_assembly clean_assembly2,";
     B "                  f.clean_pseudo clean_pseudo1, df.clean_pseudo clean_pseudo2,";
     B "                  f.mangled_function mangled1, df.mangled_function mangled2,";
     B "                  f.clean_microcode clean_micro1, df.clean_microcode clean_micro2,";
     B "                  f.bytes_hash bytes_hash1, df.bytes_hash bytes_hash2,";
     B "                  f.edges edges1, df.edges edges2,";
     B "                  f.indegree indegree1, df.indegree indegree2,";
     B "                  f.outdegree outdegree1, df.outdegree outdegree2,";
     B "                  f.instructions instructions1, df.instructions instructions2,";
     B "                  f.cyclomatic_complexity cc1, df.cyclomatic_complexity cc2,";
     B "                  f.strongly_connected strongly_connected1,";
     B "                  df.strongly_connected strongly_connected2,";
     B "                  f.loops loops1, df.loops loops2,";
     B "                  f.constants_count constants_count1,";
     B "                  df.constants_count constants_count2,";
     B "                  f.size size1, df.size size2,";
     B "                  f.kgh_hash kgh_hash1, df.kgh_hash kgh_hash2";
     B "";
     B "                from main.compilation_units mcu,";
     B "                  main.compilation_unit_functions mcuf,";
     B "                  main.functions f,";
     B "                  diff.compilation_units dcu,";
     B "                  diff.compilation_unit_functions dcuf,";
     B "                  diff.functions df";
     B "              where dcu.pseudocode_primes = mcu.pseudocode_primes";
     B "                and mcuf.cu_id = mcu.id";
     B "                and dcuf.cu_id = dcu.id";
     B "                and f.id = mcuf.func_id";
     B "                and df.id = dcuf.func_id";
     B "                and f.nodes > 4";
     B "                and df.nodes > 4";
     B "                and (substr(f.name, 1, 4) = 'sub_' or substr(df.name, 1, 4) == 'sub_')";
     B "                %POSTFIX% "]).

Definition heuristic_15 : HeuristicSpec :=
  MkHeuristic 15 (B "Same KOKA hash and constants") CatPartial RatioType d0 false false false false
    (lines [
     B "select  f.address ea, f.name name1, df.address ea2, df.name name2,";
     B "                  'Same KOKA hash and constants' description,";
     B "                  f.pseudocode pseudo1, df.pseudocode pseudo2,";
     B "                  f.assembly asm1, df.assembly asm2,";
     B "                  f.pseudocode_primes pseudo_primes1, df.pseudocode_primes pseudo_primes2,";
     B "                  f.nodes nodes1, df.nodes nodes2,";
     B "                  cast(f.md_index as real) md1, cast(df.md_index as real) md2,";
     B "                  f.clean_assembly clean_assembly1, df.clean_assembly clean_assembly2,";
     B "                  f.clean_pseudo clean_pseudo1, df.clean_pseudo clean_pseudo2,";
     B "                  f.mangled_function mangled1, df.mangled_function mangled2,";
     B "                  f.clean_microcode clean_micro1, df.clean_microcode clean_micro2,";
     B "                  f.bytes_hash bytes_hash1, df.bytes_hash bytes_hash2,";
     B "                  f.edges edges1, df.edges edges2,";
     B "                  f.indegree indegree1, df.indegree indegree2,";
     B "                  f.outdegree outdegree1, df.outdegree outdegree2,";
     B "                  f.instructions instructions1, df.instructions instructions2,";
     B "                  f.cyclomatic_complexity cc1, df.cyclomatic_complexity cc2,";
     B "                  f.strongly_connected strongly_connected1,";
     B "                  df.strongly_connected strongly_connected2,";
     B "                  f.loops loops1, df.loops loops2,";
     B "                  f.constants_count constants_count1,";
     B "                  df.constants_count constants_count2,";
     B "                  f.size size1, df.size size2,";
     B "                  f.kgh_hash kgh_hash1, df.kgh_hash kgh_hash2";
     B "";
     B "       from main.constants mc,";
     B "            diff.constants dc,";
     B "            main.functions  f,";
     B "            diff.functions df";
     B "      where mc.constant = dc.constant";
     B "        and  f.id = mc.func_id";
     B "        and df.id = dc.func_id";
     B "        and f.kgh_hash = df.kgh_hash";
     B "        and f.nodes >= 3";
     B "        %POSTFIX% "]).

Definition heuristic_16 : HeuristicSpec :=
  MkHeuristic 16 (B "Same KOKA hash and MD-Index") CatPartial RatioType d0 false false false false
    (lines [
     B "";
     B "     select  f.address ea, f.name name1, df.address ea2, df.name name2,";
     B "                  'Same KOKA hash and MD-Index' description,";
     B "                  f.pseudocode pseudo1, df.pseudocode pseudo2,";
     B "                  f.assembly asm1, df.assembly asm2,";
     B "                  f.pseudocode_primes pseudo_primes1, df.pseudocode_primes pseudo_primes2,";
     B "                  f.nodes nodes1, df.nodes nodes2,";
     B "                  cast(f.md_index as real) md1, cast(df.md_index as real) md2,";
     B "                  f.clean_assembly clean_assembly1, df.clean_assembly clean_assembly2,";
     B "                  f.clean_pseudo clean_pseudo1, df.clean_pseudo clean_pseudo2,";
     B "                  f.mangled_function mangled1, df.mangled_function mangled2,";
     B "                  f.clean_microcode clean_micro1, df.clean_microcode clean_micro2,";
     B "                  f.bytes_hash bytes_hash1, df.bytes_hash bytes_hash2,";
     B "                  f.edges edges1, df.edges edges2,";
     B "                  f.indegree indegree1, df.indegree indegree2,";
     B "                  f.outdegree outdegree1, df.outdegree outdegree2,";
     B "                  f.instructions instructions1, df.instructions instructions2,";
     B "                  f.cyclomatic_complexity cc1, df.cyclomatic_complexity cc2,";
     B "                  f.strongly_connected strongly_connected1,";
     B "                  df.strongly_connected strongly_connected2,";
     B "                  f.loops loops1, df.loops loops2,";
     B "                  f.constants_count constants_count1,";
     B "                  df.constants_count constants_count2,";
     B "                  f.size size1, df.size size2,";
     B "                  f.kgh_hash kgh_hash1, df.kgh_hash kgh_hash2";
     B "";
     B "       from functions f,";
     B "            diff.functions df";
     B "      where f.kgh_hash = df.kgh_hash";
     B "        and f.md_index = df.md_index";
     B "        and f.nodes = df.nodes";
     B "        and f.nodes >= 4";
     B "        and f.outdegree = df.outdegree";
     B "        and f.indegree  = df.indegree";
     B "        and (substr(f.name, 1, 4) = 'sub_' or substr(df.name, 1, 4) = 'sub_')";
     B "        %POSTFIX%";
     B "        "]).

Definition heuristic_17 : HeuristicSpec :=
  MkHeuristic 17 (B "Same constants") CatPartial RatioMax (dlit 1 2) true false false false
    (lines [
     B "select  f.address ea, f.name name1, df.address ea2, df.name name2,";
     B "                  'Same constants' description,";
     B "                  f.pseudocode pseudo1, df.pseudocode pseudo2,";
     B "                  f.assembly asm1, df.assembly asm2,";
     B "                  f.pseudocode_primes pseudo_primes1, df.pseudocode_primes pseudo_primes2,";
     B "                  f.nodes nodes1, df.nodes nodes2,";
     B "                  cast(f.md_index as real) md1, cast(df.md_index as real) md2,";
     B "                  f.clean_assembly clean_assembly1, df.clean_assembly clean_assembly2,";
     B "                  f.clean_pseudo clean_pseudo1, df.clean_pseudo clean_pseudo2,";
     B "                  f.mangled_function mangled1, df.mangled_function mangled2,";
     B "                  f.clean_microcode clean_micro1, df.clean_microcode clean_micro2,";
     B "                  f.bytes_hash bytes_hash1, df.bytes_hash bytes_hash2,";
     B "                  f.edges edges1, df.edges edges2,";
     B "                  f.indegree indegree1, df.indegree indegree2,";
     B "                  f.outdegree outdegree1, df.outdegree outdegree2,";
     B "                  f.instructions instructions1, df.instructions instructions2,";
     B "                  f.cyclomatic_complexity cc1, df.cyclomatic_complexity cc2,";
     B "                  f.strongly_connected strongly_connected1,";
     B "                  df.strongly_connected strongly_connected2,";
     B "                  f.loops loops1, df.loops loops2,";
     B "                  f.constants_count constants_count1,";
     B "                  df.constants_count constants_count2,";
     B "                  f.size size1, df.size size2,";
     B "                  f.kgh_hash kgh_hash1, df.kgh_hash kgh_hash2";
     B "";
     B "       from functions f,";
     B "            diff.functions df";
     B "      where f.constants = df.constants";
     B "        and f.constants_count = df.constants_count";
     B "        and f.constants_count > 1";
     B "        %POSTFIX%";
     B "      order by f.source_file = df.source_file"]).

Definition heuristic_18 : HeuristicSpec :=
  MkHeuristic 18 (B "Same rare KOKA hash") CatPartial RatioMax (dlit 9 20) true false false false
    (lines [
     B "";
     B "with shared_hashes as (";
     B " select kgh_hash";
     B "   from diff.functions";
     B "  where kgh_hash != 0";
     B "  group by kgh_hash";
     B " having count(*) <= 2";
     B "  union ";
     B " select kgh_hash";
     B "   from main.functions";
     B "  where kgh_hash != 0";
     B "  group by kgh_hash";
     B " having count(*) <= 2";
     B ")";
     B "select  f.address ea, f.name name1, df.address ea2, df.name name2,";
     B "                  'Same rare KOKA hash' description,";
     B "                  f.pseudocode pseudo1, df.pseudocode pseudo2,";
     B "                  f.assembly asm1, df.assembly asm2,";
     B "                  f.pseudocode_primes pseudo_primes1, df.pseudocode_primes pseudo_primes2,";
     B "                  f.nodes nodes1, df.nodes nodes2,";
     B "                  cast(f.md_index as real) md1, cast(df.md_index as real) md2,";
     B "                  f.clean_assembly clean_assembly1, df.clean_assembly clean_assembly2,";
     B "                  f.clean_pseudo clean_pseudo1, df.clean_pseudo clean_pseudo2,";
     B "                  f.mangled_function mangled1, df.mangled_function mangled2,";
     B "                  f.clean_microcode clean_micro1, df.clean_microcode clean_micro2,";
     B "                  f.bytes_hash bytes_hash1, df.bytes_hash bytes_hash2,";
     B "                  f.edges edges1, df.edges edges2,";
     B "                  f.indegree indegree1, df.indegree indegree2,";
     B "                  f.outdegree outdegree1, df.outdegree outdegree2,";
     B "                  f.instructions instructions1, df.instructions instructions2,";
     B "                  f.cyclomatic_complexity cc1, df.cyclomatic_complexity cc2,";
     B "                  f.strongly_connected strongly_connected1,";
     B "                  df.strongly_connected strongly_connected2,";
     B "                  f.loops loops1, df.loops loops2,";
     B "                  f.constants_count constants_count1,";
     B "                  df.constants_count constants_count2,";
     B "                  f.size size1, df.size size2,";
     B "                  f.kgh_hash kgh_hash1, df.kgh_hash kgh_hash2";
     B "";
     B "  from functions f,";
     B "       diff.functions df,";
     B "       shared_hashes";
     B " where f.kgh_hash = df.kgh_hash";
     B "   and df.kgh_hash = shared_hashes.kgh_hash";
     B "   and f.nodes > 5";
     B "   and (substr(f.name, 1, 4) = 'sub_'";
     B "     or substr(df.name, 1, 4) = 'sub_')";
     B "   %POSTFIX%";
     B "        "]).

Definition heuristic_19 : HeuristicSpec :=
  MkHeuristic 19 (B "Same rare MD Index") CatPartial RatioType d0 false false false false
    (lines [
     B "";
     B "     with shared_mds as (";
     B "      select md_index";
     B "        from diff.functions";
     B "       where md_index != 0";
     B "       group by md_index";
     B "      having count(*) <= 2";
     B "      union ";
     B "      select md_index";
     B "        from main.functions";
     B "       where md_index != 0";
     B "       group by md_index";
     B "      having count(*) <= 2";
     B "     )";
     B "     select  f.address ea, f.name name1, df.address ea2, df.name name2,";
     B "                  'Same rare MD Index' description,";
     B "                  f.pseudocode pseudo1, df.pseudocode pseudo2,";
     B "                  f.assembly asm1, df.assembly asm2,";
     B "                  f.pseudocode_primes pseudo_primes1, df.pseudocode_primes pseudo_primes2,";
     B "                  f.nodes nodes1, df.nodes nodes2,";
     B "                  cast(f.md_index as real) md1, cast(df.md_index as real) md2,";
     B "                  f.clean_assembly clean_assembly1, df.clean_assembly clean_assembly2,";
     B "                  f.clean_pseudo clean_pseudo1, df.clean_pseudo clean_pseudo2,";
     B "                  f.mangled_function mangled1, df.mangled_function mangled2,";
     B "                  f.clean_microcode clean_micro1, df.clean_microcode clean_micro2,";
     B "                  f.bytes_hash bytes_hash1, df.bytes_hash bytes_hash2,";
     B "                  f.edges edges1, df.edges edges2,";
     B "                  f.indegree indegree1, df.indegree indegree2,";
     B "                  f.outdegree outdegree1, df.outdegree outdegree2,";
     B "                  f.instructions instructions1, df.instructions instructions2,";
     B "                  f.cyclomatic_complexity cc1, df.cyclomatic_complexity cc2,";
     B "                  f.strongly_connected strongly_connected1,";
     B "                  df.strongly_connected strongly_connected2,";
     B "                  f.loops loops1, df.loops loops2,";
     B "                  f.constants_count constants_count1,";
     B "                  df.constants_count constants_count2,";
     B "                  f.size size1, df.size size2,";
     B "                  f.kgh_hash kgh_hash1, df.kgh_hash kgh_hash2";
     B "";
     B "       from functions f,";
     B "            diff.functions df,";
     B "            shared_mds";
     B "      where f.md_index = df.md_index";
     B "        and df.md_index = shared_mds.md_index";
     B "        and f.nodes > 10";
     B "        %POSTFIX%";
     B "      order by f.source_file = df.source_file"]).

Definition heuristic_20 : HeuristicSpec :=
  MkHeuristic 20 (B "Same address and rare constant") CatPartial RatioMax (dlit 1 2) true false false false
    (lines [
     B "select distinct  f.address ea, f.name name1, df.address ea2, df.name name2,";
     B "                  'Same address and rare constant' description,";
     B "                  f.pseudocode pseudo1, df.pseudocode pseudo2,";
     B "                  f.assembly asm1, df.assembly asm2,";
     B "                  f.pseudocode_primes pseudo_primes1, df.pseudocode_primes pseudo_primes2,";
     B "                  f.nodes nodes1, df.nodes nodes2,";
     B "                  cast(f.md_index as real) md1, cast(df.md_index as real) md2,";
     B "                  f.clean_assembly clean_assembly1, df.clean_assembly clean_assembly2,";
     B "                  f.clean_pseudo clean_pseudo1, df.clean_pseudo clean_pseudo2,";
     B "                  f.mangled_function mangled1, df.mangled_function mangled2,";
     B "                  f.clean_microcode clean_micro1, df.clean_microcode clean_micro2,";
     B "                  f.bytes_hash bytes_hash1, df.bytes_hash bytes_hash2,";
     B "                  f.edges edges1, df.edges edges2,";
     B "                  f.indegree indegree1, df.indegree indegree2,";
     B "                  f.outdegree outdegree1, df.outdegree outdegree2,";
     B "                  f.instructions instructions1, df.instructions instructions2,";
     B "                  f.cyclomatic_complexity cc1, df.cyclomatic_complexity cc2,";
     B "                  f.strongly_connected strongly_connected1,";
     B "                  df.strongly_connected strongly_connected2,";
     B "                  f.loops loops1, df.loops loops2,";
     B "                  f.constants_count constants_count1,";
     B "                  df.constants_count constants_count2,";
     B "                  f.size size1, df.size size2,";
     B "                  f.kgh_hash kgh_hash1, df.kgh_hash kgh_hash2";
     B "";
     B "       from main.constants mc,";
     B "            diff.constants dc,";
     B "            main.functions  f,";
     B "            diff.functions df";
     B "      where mc.constant = dc.constant";
     B "        and  f.id = mc.func_id";
     B "        and df.id = dc.func_id";
     B "        and df.address = f.address";
     B "        %POSTFIX%";
     B "      order by f.source_file = df.source_file"]).

Definition heuristic_21 : HeuristicSpec :=
  MkHeuristic 21 (B "Same rare constant") CatPartial RatioMax (dlit 1 5) true false true false
    (lines [
     B "select  f.address ea, f.name name1, df.address ea2, df.name name2,";
     B "                  'Same rare constant' description,";
     B "                  f.pseudocode pseudo1, df.pseudocode pseudo2,";
     B "                  f.assembly asm1, df.assembly asm2,";
     B "                  f.pseudocode_primes pseudo_primes1, df.pseudocode_primes pseudo_primes2,";
     B "                  f.nodes nodes1, df.nodes nodes2,";
     B "                  cast(f.md_index as real) md1, cast(df.md_index as real) md2,";
     B "                  f.clean_assembly clean_assembly1, df.clean_assembly clean_assembly2,";
     B "                  f.clean_pseudo clean_pseudo1, df.clean_pseudo clean_pseudo2,";
     B "                  f.mangled_function mangled1, df.mangled_function mangled2,";
     B "                  f.clean_microcode clean_micro1, df.clean_microcode clean_micro2,";
     B "                  f.bytes_hash bytes_hash1, df.bytes_hash bytes_hash2,";
     B "                  f.edges edges1, df.edges edges2,";
     B "                  f.indegree indegree1, df.indegree indegree2,";
     B "                  f.outdegree outdegree1, df.outdegree outdegree2,";
     B "                  f.instructions instructions1, df.instructions instructions2,";
     B "                  f.cyclomatic_complexity cc1, df.cyclomatic_complexity cc2,";
     B "                  f.strongly_connected strongly_connected1,";
     B "                  df.strongly_connected strongly_connected2,";
     B "                  f.loops loops1, df.loops loops2,";
     B "                  f.constants_count constants_count1,";
     B "                  df.constants_count constants_count2,";
     B "                  f.size size1, df.size size2,";
     B "                  f.kgh_hash kgh_hash1, df.kgh_hash kgh_hash2";
     B "";
     B "       from main.constants mc,";
     B "            diff.constants dc,";
     B "            main.functions  f,";
     B "            diff.functions df";
     B "      where mc.constant = dc.constant";
     B "        and  f.id = mc.func_id";
     B "        and df.id = dc.func_id";
     B "        and f.nodes >= 3 and df.nodes >= 3";
     B "        and f.constants_count > 0";
     B "        %POSTFIX% "]).

Definition heuristic_22 : HeuristicSpec :=
  MkHeuristic 22 (B "Same MD Index and constants") CatPartial RatioType d0 false false false false
    (lines [
     B " select distinct  f.address ea, f.name name1, df.address ea2, df.name name2,";
     B "                  'Same MD Index and constants' description,";
     B "                  f.pseudocode pseudo1, df.pseudocode pseudo2,";
     B "                  f.assembly asm1, df.assembly asm2,";
     B "                  f.pseudocode_primes pseudo_primes1, df.pseudocode_primes pseudo_primes2,";
     B "                  f.nodes nodes1, df.nodes nodes2,";
     B "                  cast(f.md_index as real) md1, cast(df.md_index as real) md2,";
     B "                  f.clean_assembly clean_assembly1, df.clean_assembly clean_assembly2,";
     B "                  f.clean_pseudo clean_pseudo1, df.clean_pseudo clean_pseudo2,";
     B "                  f.mangled_function mangled1, df.mangled_function mangled2,";
     B "                  f.clean_microcode clean_micro1, df.clean_microcode clean_micro2,";
     B "                  f.bytes_hash bytes_hash1, df.bytes_hash bytes_hash2,";
     B "                  f.edges edges1, df.edges edges2,";
     B "                  f.indegree indegree1, df.indegree indegree2,";
     B "                  f.outdegree outdegree1, df.outdegree outdegree2,";
     B "                  f.instructions instructions1, df.instructions instructions2,";
     B "                  f.cyclomatic_complexity cc1, df.cyclomatic_complexity cc2,";
     B "                  f.strongly_connected strongly_connected1,";
     B "                  df.strongly_connected strongly_connected2,";
     B "                  f.loops loops1, df.loops loops2,";
     B "                  f.constants_count constants_count1,";
     B "                  df.constants_count constants_count2,";
     B "                  f.size size1, df.size size2,";
     B "                  f.kgh_hash kgh_hash1, df.kgh_hash kgh_hash2";
     B "";
     B "        from functions f,";
     B "             diff.functions df";
     B "       where f.md_index = df.md_index";
     B "         and f.md_index > 0";
     B "         and f.nodes >= 3 and df.nodes >= 3";
     B "         and ((f.constants = df.constants";
     B "         and f.constants_count > 0))";
     B "        %POSTFIX%";
     B "      order by f.source_file = df.source_file"]).

Definition heuristic_23 : HeuristicSpec :=
  MkHeuristic 23 (B "Import names hash") CatPartial RatioType d0 false false false false
    (lines [
     B "select distinct  f.address ea, f.name name1, df.address ea2, df.name name2,";
     B "                  'Import names hash' description,";
     B "                  f.pseudocode pseudo1, df.pseudocode pseudo2,";
     B "                  f.assembly asm1, df.assembly asm2,";
     B "                  f.pseudocode_primes pseudo_primes1, df.pseudocode_primes pseudo_primes2,";
     B "                  f.nodes nodes1, df.nodes nodes2,";
     B "                  cast(f.md_index as real) md1, cast(df.md_index as real) md2,";
     B "                  f.clean_assembly clean_assembly1, df.clean_assembly clean_assembly2,";
     B "                  f.clean_pseudo clean_pseudo1, df.clean_pseudo clean_pseudo2,";
     B "                  f.mangled_function mangled1, df.mangled_function mangled2,";
     B "                  f.clean_microcode clean_micro1, df.clean_microcode clean_micro2,";
     B "                  f.bytes_hash bytes_hash1, df.bytes_hash bytes_hash2,";
     B "                  f.edges edges1, df.edges edges2,";
     B "                  f.indegree indegree1, df.indegree indegree2,";
     B "                  f.outdegree outdegree1, df.outdegree outdegree2,";
     B "                  f.instructions instructions1, df.instructions instructions2,";
     B "                  f.cyclomatic_complexity cc1, df.cyclomatic_complexity cc2,";
     B "                  f.strongly_connected strongly_connected1,";
     B "                  df.strongly_connected strongly_connected2,";
     B "                  f.loops loops1, df.loops loops2,";
     B "                  f.constants_count constants_count1,";
     B "                  df.constants_count constants_count2,";
     B "                  f.size size1, df.size size2,";
     B "                  f.kgh_hash kgh_hash1, df.kgh_hash kgh_hash2";
     B "";
     B "              from functions f,";
     B "                  diff.functions df";
     B "            where f.names = df.names";
     B "              and f.names != '[]'";
     B "              and f.md_index = df.md_index";
     B "              and f.instructions = df.instructions";
     B "              and f.nodes > 5 and df.nodes > 5";
     B "              %POSTFIX%";
     B "            order by f.source_file = df.source_file"]).

Definition heuristic_24 : HeuristicSpec :=
  MkHeuristic 24 (B "Mnemonics and names") CatPartial RatioType d0 false false false false
    (lines [
     B " select  f.address ea, f.name name1, df.address ea2, df.name name2,";
     B "                  'Mnemonics and names' description,";
     B "                  f.pseudocode pseudo1, df.pseudocode pseudo2,";
     B "                  f.assembly asm1, df.assembly asm2,";
     B "                  f.pseudocode_primes pseudo_primes1, df.pseudocode_primes pseudo_primes2,";
     B "                  f.nodes nodes1, df.nodes nodes2,";
     B "                  cast(f.md_index as real) md1, cast(df.md_index as real) md2,";
     B "                  f.clean_assembly clean_assembly1, df.clean_assembly clean_assembly2,";
     B "                  f.clean_pseudo clean_pseudo1, df.clean_pseudo clean_pseudo2,";
     B "                  f.mangled_function mangled1, df.mangled_function mangled2,";
     B "                  f.clean_microcode clean_micro1, df.clean_microcode clean_micro2,";
     B "                  f.bytes_hash bytes_hash1, df.bytes_hash bytes_hash2,";
     B "                  f.edges edges1, df.edges edges2,";
     B "                  f.indegree indegree1, df.indegree indegree2,";
     B "                  f.outdegree outdegree1, df.outdegree outdegree2,";
     B "                  f.instructions instructions1, df.instructions instructions2,";
     B "                  f.cyclomatic_complexity cc1, df.cyclomatic_complexity cc2,";
     B "                  f.strongly_connected strongly_connected1,";
     B "                  df.strongly_connected strongly_connected2,";
     B "                  f.loops loops1, df.loops loops2,";
     B "                  f.constants_count constants_count1,";
     B "                  df.constants_count constants_count2,";
     B "                  f.size size1, df.size size2,";
     B "                  f.kgh_hash kgh_hash1, df.kgh_hash kgh_hash2";
     B "";
     B "        from functions f,";
     B "             diff.functions df";
     B "       where f.mnemonics = df.mnemonics";
     B "         and f.instructions = df.instructions";
     B "         and f.names = df.names";
     B "         and f.names != '[]'";
     B "         and f.instructions > 5 and df.instructions > 5";
     B "         %POSTFIX%";
     B "       order by f.source_file = df.source_file"]).

Definition heuristic_25 : HeuristicSpec :=
  MkHeuristic 25 (B "Pseudo-code fuzzy hash") CatPartial RatioType d0 false false false false
    (lines [
     B "select distinct  f.address ea, f.name name1, df.address ea2, df.name name2,";
     B "                  'Pseudo-code fuzzy hash' description,";
     B "                  f.pseudocode pseudo1, df.pseudocode pseudo2,";
     B "                  f.assembly asm1, df.assembly asm2,";
     B "                  f.pseudocode_primes pseudo_primes1, df.pseudocode_primes pseudo_primes2,";
     B "                  f.nodes nodes1, df.nodes nodes2,";
     B "                  cast(f.md_index as real) md1, cast(df.md_index as real) md2,";
     B "                  f.clean_assembly clean_assembly1, df.clean_assembly clean_assembly2,";
     B "                  f.clean_pseudo clean_pseudo1, df.clean_pseudo clean_pseudo2,";
     B "                  f.mangled_function mangled1, df.mangled_function mangled2,";
     B "                  f.clean_microcode clean_micro1, df.clean_microcode clean_micro2,";
     B "                  f.bytes_hash bytes_hash1, df.bytes_hash bytes_hash2,";
     B "                  f.edges edges1, df.edges edges2,";
     B "                  f.indegree indegree1, df.indegree indegree2,";
     B "                  f.outdegree outdegree1, df.outdegree outdegree2,";
     B "                  f.instructions instructions1, df.instructions instructions2,";
     B "                  f.cyclomatic_complexity cc1, df.cyclomatic_complexity cc2,";
     B "                  f.strongly_connected strongly_connected1,";
     B "                  df.strongly_connected strongly_connected2,";
     B "                  f.loops loops1, df.loops loops2,";
     B "                  f.constants_count constants_count1,";
     B "                  df.constants_count constants_count2,";
     B "                  f.size size1, df.size size2,";
     B "                  f.kgh_hash kgh_hash1, df.kgh_hash kgh_hash2";
     B "";
     B "       from functions f,";
     B "            diff.functions df";
     B "      where df.pseudocode_hash1 = f.pseudocode_hash1";
     B "        and df.pseudocode_hash2 = f.pseudocode_hash2";
     B "        and df.pseudocode_hash3 = f.pseudocode_hash3";
     B "        and df.pseudocode_hash1 is not null";
     B "        and df.pseudocode_hash2 is not null";
     B "        and df.pseudocode_hash3 is not null";
     B "        and f.instructions > 5";
     B "        and df.instructions > 5";
     B "        %POSTFIX%";
     B "      order by f.source_file = df.source_file"]).

Definition heuristic_26 : HeuristicSpec :=
  MkHeuristic 26 (B "Similar pseudo-code and names") CatPartial RatioMax (dlit 579 1000) true false false false
    (lines [
     B "select distinct  f.address ea, f.name name1, df.address ea2, df.name name2,";
     B "                  'Similar pseudo-code and names' description,";
     B "                  f.pseudocode pseudo1, df.pseudocode pseudo2,";
     B "                  f.assembly asm1, df.assembly asm2,";
     B "                  f.pseudocode_primes pseudo_primes1, df.pseudocode_primes pseudo_primes2,";
     B "                  f.nodes nodes1, df.nodes nodes2,";
     B "                  cast(f.md_index as real) md1, cast(df.md_index as real) md2,";
     B "                  f.clean_assembly clean_assembly1, df.clean_assembly clean_assembly2,";
     B "                  f.clean_pseudo clean_pseudo1, df.clean_pseudo clean_pseudo2,";
     B "                  f.mangled_function mangled1, df.mangled_function mangled2,";
     B "                  f.clean_microcode clean_micro1, df.clean_microcode clean_micro2,";
     B "                  f.bytes_hash bytes_hash1, df.bytes_hash bytes_hash2,";
     B "                  f.edges edges1, df.edges edges2,";
     B "                  f.indegree indegree1, df.indegree indegree2,";
     B "                  f.outdegree outdegree1, df.outdegree outdegree2,";
     B "                  f.instructions instructions1, df.instructions instructions2,";
     B "                  f.cyclomatic_complexity cc1, df.cyclomatic_complexity cc2,";
     B "                  f.strongly_connected strongly_connected1,";
     B "                  df.strongly_connected strongly_connected2,";
     B "                  f.loops loops1, df.loops loops2,";
     B "                  f.constants_count constants_count1,";
     B "                  df.constants_count constants_count2,";
     B "                  f.size size1, df.size size2,";
     B "                  f.kgh_hash kgh_hash1, df.kgh_hash kgh_hash2";
     B "";
     B "       from functions f,";
     B "            diff.functions df";
     B "      where f.pseudocode_lines = df.pseudocode_lines";
     B "        and f.names = df.names";
     B "        and df.names != '[]'";
     B "        and df.pseudocode_lines > 5";
     B "        and df.pseudocode is not null ";
     B "        and f.pseudocode is not null";
     B "        %POSTFIX%";
     B "      order by f.source_file = df.source_file"]).

Definition heuristic_27 : HeuristicSpec :=
  MkHeuristic 27 (B "Mnemonics small-primes-product") CatPartial RatioMax (dlit 3 5) true false false false
    (lines [
     B " select  f.address ea, f.name name1, df.address ea2, df.name name2,";
     B "                  'Mnemonics small-primes-product' description,";
     B "                  f.pseudocode pseudo1, df.pseudocode pseudo2,";
     B "                  f.assembly asm1, df.assembly asm2,";
     B "                  f.pseudocode_primes pseudo_primes1, df.pseudocode_primes pseudo_primes2,";
     B "                  f.nodes nodes1, df.nodes nodes2,";
     B "                  cast(f.md_index as real) md1, cast(df.md_index as real) md2,";
     B "                  f.clean_assembly clean_assembly1, df.clean_assembly clean_assembly2,";
     B "                  f.clean_pseudo clean_pseudo1, df.clean_pseudo clean_pseudo2,";
     B "                  f.mangled_function mangled1, df.mangled_function mangled2,";
     B "                  f.clean_microcode clean_micro1, df.clean_microcode clean_micro2,";
     B "                  f.bytes_hash bytes_hash1, df.bytes_hash bytes_hash2,";
     B "                  f.edges edges1, df.edges edges2,";
     B "                  f.indegree indegree1, df.indegree indegree2,";
     B "                  f.outdegree outdegree1, df.outdegree outdegree2,";
     B "                  f.instructions instructions1, df.instructions instructions2,";
     B "                  f.cyclomatic_complexity cc1, df.cyclomatic_complexity cc2,";
     B "                  f.strongly_connected strongly_connected1,";
     B "                  df.strongly_connected strongly_connected2,";
     B "                  f.loops loops1, df.loops loops2,";
     B "                  f.constants_count constants_count1,";
     B "                  df.constants_count constants_count2,";
     B "                  f.size size1, df.size size2,";
     B "                  f.kgh_hash kgh_hash1, df.kgh_hash kgh_hash2";
     B "";
     B "        from functions f,";
     B "             diff.functions df";
     B "       where f.mnemonics_spp = df.mnemonics_spp";
     B "         and f.instructions = df.instructions";
     B "         and f.nodes > 1 and df.nodes > 1";
     B "         and df.instructions > 5";
     B "         %POSTFIX% "]).

Definition heuristic_28 : HeuristicSpec :=
  MkHeuristic 28 (B "Same nodes, edges, loops and strongly connected components") CatPartial RatioMax (dlit 549 1000) true false false false
    (lines [
     B "select  f.address ea, f.name name1, df.address ea2, df.name name2,";
     B "                  'Same nodes, edges, loops and strongly connected components' description,";
     B "                  f.pseudocode pseudo1, df.pseudocode pseudo2,";
     B "                  f.assembly asm1, df.assembly asm2,";
     B "                  f.pseudocode_primes pseudo_primes1, df.pseudocode_primes pseudo_primes2,";
     B "                  f.nodes nodes1, df.nodes nodes2,";
     B "                  cast(f.md_index as real) md1, cast(df.md_index as real) md2,";
     B "                  f.clean_assembly clean_assembly1, df.clean_assembly clean_assembly2,";
     B "                  f.clean_pseudo clean_pseudo1, df.clean_pseudo clean_pseudo2,";
     B "                  f.mangled_function mangled1, df.mangled_function mangled2,";
     B "                  f.clean_microcode clean_micro1, df.clean_microcode clean_micro2,";
     B "                  f.bytes_hash bytes_hash1, df.bytes_hash bytes_hash2,";
     B "                  f.edges edges1, df.edges edges2,";
     B "                  f.indegree indegree1, df.indegree indegree2,";
     B "                  f.outdegree outdegree1, df.outdegree outdegree2,";
     B "                  f.instructions instructions1, df.instructions instructions2,";
     B "                  f.cyclomatic_complexity cc1, df.cyclomatic_complexity cc2,";
     B "                  f.strongly_connected strongly_connected1,";
     B "                  df.strongly_connected strongly_connected2,";
     B "                  f.loops loops1, df.loops loops2,";
     B "                  f.constants_count constants_count1,";
     B "                  df.constants_count constants_count2,";
     B "                  f.size size1, df.size size2,";
     B "                  f.kgh_hash kgh_hash1, df.kgh_hash kgh_hash2";
     B "";
     B "       from functions f,";
     B "            diff.functions df";
     B "      where f.nodes = df.nodes";
     B "        and f.edges = df.edges";
     B "        and f.strongly_connected = df.strongly_connected";
     B "        and f.loops = df.loops";
     B "        and f.nodes > 5 and df.nodes > 5";
     B "        and f.loops > 0";
     B "        and (substr(f.name, 1, 4) = 'sub_' or substr(df.name, 1, 4) == 'sub_')";
     B "        %POSTFIX% "]).

Definition heuristic_29 : HeuristicSpec :=
  MkHeuristic 29 (B "Same low complexity, prototype and names") CatPartial RatioMax (dlit 1 2) true false false false
    (lines [
     B "";
     B "       select distinct  f.address ea, f.name name1, df.address ea2, df.name name2,";
     B "                  'Same low complexity, prototype and names' description,";
     B "                  f.pseudocode pseudo1, df.pseudocode pseudo2,";
     B "                  f.assembly asm1, df.assembly asm2,";
     B "                  f.pseudocode_primes pseudo_primes1, df.pseudocode_primes pseudo_primes2,";
     B "                  f.nodes nodes1, df.nodes nodes2,";
     B "                  cast(f.md_index as real) md1, cast(df.md_index as real) md2,";
     B "                  f.clean_assembly clean_assembly1, df.clean_assembly clean_assembly2,";
     B "                  f.clean_pseudo clean_pseudo1, df.clean_pseudo clean_pseudo2,";
     B "                  f.mangled_function mangled1, df.mangled_function mangled2,";
     B "                  f.clean_microcode clean_micro1, df.clean_microcode clean_micro2,";
     B "                  f.bytes_hash bytes_hash1, df.bytes_hash bytes_hash2,";
     B "                  f.edges edges1, df.edges edges2,";
     B "                  f.indegree indegree1, df.indegree indegree2,";
     B "                  f.outdegree outdegree1, df.outdegree outdegree2,";
     B "                  f.instructions instructions1, df.instructions instructions2,";
     B "                  f.cyclomatic_complexity cc1, df.cyclomatic_complexity cc2,";
     B "                  f.strongly_connected strongly_connected1,";
     B "                  df.strongly_connected strongly_connected2,";
     B "                  f.loops loops1, df.loops loops2,";
     B "                  f.constants_count constants_count1,";
     B "                  df.constants_count constants_count2,";
     B "                  f.size size1, df.size size2,";
     B "                  f.kgh_hash kgh_hash1, df.kgh_hash kgh_hash2";
     B "";
     B "         from functions f,";
     B "              diff.functions df";
     B "        where f.names = df.names";
     B "          and f.cyclomatic_complexity = df.cyclomatic_complexity";
     B "          and f.cyclomatic_complexity < 20";
     B "          and f.prototype2 = df.prototype2";
     B "          and df.names != '[]'";
     B "          %POSTFIX% "]).

Definition heuristic_30 : HeuristicSpec :=
  MkHeuristic 30 (B "Same low complexity and names") CatPartial RatioMax (dlit 1 2) true false false false
    (lines [
     B "select  f.address ea, f.name name1, df.address ea2, df.name name2,";
     B "                  'Same low complexity and names' description,";
     B "                  f.pseudocode pseudo1, df.pseudocode pseudo2,";
     B "                  f.assembly asm1, df.assembly asm2,";
     B "                  f.pseudocode_primes pseudo_primes1, df.pseudocode_primes pseudo_primes2,";
     B "                  f.nodes nodes1, df.nodes nodes2,";
     B "                  cast(f.md_index as real) md1, cast(df.md_index as real) md2,";
     B "                  f.clean_assembly clean_assembly1, df.clean_assembly clean_assembly2,";
     B "                  f.clean_pseudo clean_pseudo1, df.clean_pseudo clean_pseudo2,";
     B "                  f.mangled_function mangled1, df.mangled_function mangled2,";
     B "                  f.clean_microcode clean_micro1, df.clean_microcode clean_micro2,";
     B "                  f.bytes_hash bytes_hash1, df.bytes_hash bytes_hash2,";
     B "                  f.edges edges1, df.edges edges2,";
     B "                  f.indegree indegree1, df.indegree indegree2,";
     B "                  f.outdegree outdegree1, df.outdegree outdegree2,";
     B "                  f.instructions instructions1, df.instructions instructions2,";
     B "                  f.cyclomatic_complexity cc1, df.cyclomatic_complexity cc2,";
     B "                  f.strongly_connected strongly_connected1,";
     B "                  df.strongly_connected strongly_connected2,";
     B "                  f.loops loops1, df.loops loops2,";
     B "                  f.constants_count constants_count1,";
     B "                  df.constants_count constants_count2,";
     B "                  f.size size1, df.size size2,";
     B "                  f.kgh_hash kgh_hash1, df.kgh_hash kgh_hash2";
     B "";
     B "       from functions f,";
     B "            diff.functions df";
     B "      where f.names = df.names";
     B "        and f.cyclomatic_complexity = df.cyclomatic_complexity";
     B "        and f.cyclomatic_complexity < 15";
     B "        and df.names != '[]'";
     B "        and (substr(f.name, 1, 4) = 'sub_' or substr(df.name, 1, 4) == 'sub_')";
     B "        %POSTFIX% "]).

Definition heuristic_31 : HeuristicSpec :=
  MkHeuristic 31 (B "Switch structures") CatPartial RatioMax (dlit 1 2) true false false false
    (lines [
     B "select  f.address ea, f.name name1, df.address ea2, df.name name2,";
     B "                  'Switch structures' description,";
     B "                  f.pseudocode pseudo1, df.pseudocode pseudo2,";
     B "                  f.assembly asm1, df.assembly asm2,";
     B "                  f.pseudocode_primes pseudo_primes1, df.pseudocode_primes pseudo_primes2,";
     B "                  f.nodes nodes1, df.nodes nodes2,";
     B "                  cast(f.md_index as real) md1, cast(df.md_index as real) md2,";
     B "                  f.clean_assembly clean_assembly1, df.clean_assembly clean_assembly2,";
     B "                  f.clean_pseudo clean_pseudo1, df.clean_pseudo clean_pseudo2,";
     B "                  f.mangled_function mangled1, df.mangled_function mangled2,";
     B "                  f.clean_microcode clean_micro1, df.clean_microcode clean_micro2,";
     B "                  f.bytes_hash bytes_hash1, df.bytes_hash bytes_hash2,";
     B "                  f.edges edges1, df.edges edges2,";
     B "                  f.indegree indegree1, df.indegree indegree2,";
     B "                  f.outdegree outdegree1, df.outdegree outdegree2,";
     B "                  f.instructions instructions1, df.instructions instructions2,";
     B "                  f.cyclomatic_complexity cc1, df.cyclomatic_complexity cc2,";
     B "                  f.strongly_connected strongly_connected1,";
     B "                  df.strongly_connected strongly_connected2,";
     B "                  f.loops loops1, df.loops loops2,";
     B "                  f.constants_count constants_count1,";
     B "                  df.constants_count constants_count2,";
     B "                  f.size size1, df.size size2,";
     B "                  f.kgh_hash kgh_hash1, df.kgh_hash kgh_hash2";
     B "";
     B "       from functions f,";
     B "            diff.functions df";
     B "      where f.switches = df.switches";
     B "        and df.switches != '[]'";
     B "        and f.nodes > 5 and df.nodes > 5";
     B "        %POSTFIX%";
     B "      order by f.source_file = df.source_file"]).

Definition heuristic_32 : HeuristicSpec :=
  MkHeuristic 32 (B "Pseudo-code fuzzy (normal)") CatPartial RatioMax (dlit 1 2) true false false false
    (lines [
     B "select distinct  f.address ea, f.name name1, df.address ea2, df.name name2,";
     B "                  'Pseudo-code fuzzy (normal)' description,";
     B "                  f.pseudocode pseudo1, df.pseudocode pseudo2,";
     B "                  f.assembly asm1, df.assembly asm2,";
     B "                  f.pseudocode_primes pseudo_primes1, df.pseudocode_primes pseudo_primes2,";
     B "                  f.nodes nodes1, df.nodes nodes2,";
     B "                  cast(f.md_index as real) md1, cast(df.md_index as real) md2,";
     B "                  f.clean_assembly clean_assembly1, df.clean_assembly clean_assembly2,";
     B "                  f.clean_pseudo clean_pseudo1, df.clean_pseudo clean_pseudo2,";
     B "                  f.mangled_function mangled1, df.mangled_function mangled2,";
     B "                  f.clean_microcode clean_micro1, df.clean_microcode clean_micro2,";
     B "                  f.bytes_hash bytes_hash1, df.bytes_hash bytes_hash2,";
     B "                  f.edges edges1, df.edges edges2,";
     B "                  f.indegree indegree1, df.indegree indegree2,";
     B "                  f.outdegree outdegree1, df.outdegree outdegree2,";
     B "                  f.instructions instructions1, df.instructions instructions2,";
     B "                  f.cyclomatic_complexity cc1, df.cyclomatic_complexity cc2,";
     B "                  f.strongly_connected strongly_connected1,";
     B "                  df.strongly_connected strongly_connected2,";
     B "                  f.loops loops1, df.loops loops2,";
     B "                  f.constants_count constants_count1,";
     B "                  df.constants_count constants_count2,";
     B "                  f.size size1, df.size size2,";
     B "                  f.kgh_hash kgh_hash1, df.kgh_hash kgh_hash2";
     B "";
     B "       from functions f,";
     B "            diff.functions df";
     B "      where df.pseudocode_hash1 = f.pseudocode_hash1";
     B "        and f.pseudocode_lines > 5 and df.pseudocode_lines > 5";
     B "        %POSTFIX%";
     B "      order by f.source_file = df.source_file"]).

Definition heuristic_33 : HeuristicSpec :=
  MkHeuristic 33 (B "Pseudo-code fuzzy (mixed)") CatPartial RatioType d0 false false false false
    (lines [
     B "select distinct  f.address ea, f.name name1, df.address ea2, df.name name2,";
     B "                  'Pseudo-code fuzzy (mixed)' description,";
     B "                  f.pseudocode pseudo1, df.pseudocode pseudo2,";
     B "                  f.assembly asm1, df.assembly asm2,";
     B "                  f.pseudocode_primes pseudo_primes1, df.pseudocode_primes pseudo_primes2,";
     B "                  f.nodes nodes1, df.nodes nodes2,";
     B "                  cast(f.md_index as real) md1, cast(df.md_index as real) md2,";
     B "                  f.clean_assembly clean_assembly1, df.clean_assembly clean_assembly2,";
     B "                  f.clean_pseudo clean_pseudo1, df.clean_pseudo clean_pseudo2,";
     B "                  f.mangled_function mangled1, df.mangled_function mangled2,";
     B "                  f.clean_microcode clean_micro1, df.clean_microcode clean_micro2,";
     B "                  f.bytes_hash bytes_hash1, df.bytes_hash bytes_hash2,";
     B "                  f.edges edges1, df.edges edges2,";
     B "                  f.indegree indegree1, df.indegree indegree2,";
     B "                  f.outdegree outdegree1, df.outdegree outdegree2,";
     B "                  f.instructions instructions1, df.instructions instructions2,";
     B "                  f.cyclomatic_complexity cc1, df.cyclomatic_complexity cc2,";
     B "                  f.strongly_connected strongly_connected1,";
     B "                  df.strongly_connected strongly_connected2,";
     B "                  f.loops loops1, df.loops loops2,";
     B "                  f.constants_count constants_count1,";
     B "                  df.constants_count constants_count2,";
     B "                  f.size size1, df.size size2,";
     B "                  f.kgh_hash kgh_hash1, df.kgh_hash kgh_hash2";
     B "";
     B "       from functions f,";
     B "            diff.functions df";
     B "      where df.pseudocode_hash3 = f.pseudocode_hash3";
     B "        and f.pseudocode_lines > 5 and df.pseudocode_lines > 5";
     B "        %POSTFIX%";
     B "      order by f.source_file = df.source_file"]).

Definition heuristic_34 : HeuristicSpec :=
  MkHeuristic 34 (B "Pseudo-code fuzzy (reverse)") CatPartial RatioType d0 false false false false
    (lines [
     B "select distinct  f.address ea, f.name name1, df.address ea2, df.name name2,";
     B "                  'Pseudo-code fuzzy (reverse)' description,";
     B "                  f.pseudocode pseudo1, df.pseudocode pseudo2,";
     B "                  f.assembly asm1, df.assembly asm2,";
     B "                  f.pseudocode_primes pseudo_primes1, df.pseudocode_primes pseudo_primes2,";
     B "                  f.nodes nodes1, df.nodes nodes2,";
     B "                  cast(f.md_index as real) md1, cast(df.md_index as real) md2,";
     B "                  f.clean_assembly clean_assembly1, df.clean_assembly clean_assembly2,";
     B "                  f.clean_pseudo clean_pseudo1, df.clean_pseudo clean_pseudo2,";
     B "                  f.mangled_function mangled1, df.mangled_function mangled2,";
     B "                  f.clean_microcode clean_micro1, df.clean_microcode clean_micro2,";
     B "                  f.bytes_hash bytes_hash1, df.bytes_hash bytes_hash2,";
     B "                  f.edges edges1, df.edges edges2,";
     B "                  f.indegree indegree1, df.indegree indegree2,";
     B "                  f.outdegree outdegree1, df.outdegree outdegree2,";
     B "                  f.instructions instructions1, df.instructions instructions2,";
     B "                  f.cyclomatic_complexity cc1, df.cyclomatic_complexity cc2,";
     B "                  f.strongly_connected strongly_connected1,";
     B "                  df.strongly_connected strongly_connected2,";
     B "                  f.loops loops1, df.loops loops2,";
     B "                  f.constants_count constants_count1,";
     B "                  df.constants_count constants_count2,";
     B "                  f.size size1, df.size size2,";
     B "                  f.kgh_hash kgh_hash1, df.kgh_hash kgh_hash2";
     B "";
     B "       from functions f,";
     B "            diff.functions df";
     B "      where df.pseudocode_hash2 = f.pseudocode_hash2";
     B "        and f.pseudocode_lines > 5 and df.pseudocode_lines > 5";
     B "        %POSTFIX%";
     B "      order by f.source_file = df.source_file"]).

Definition heuristic_35 : HeuristicSpec :=
  MkHeuristic 35 (B "Pseudo-code fuzzy AST hash") CatPartial RatioMax (dlit 7 20) true false false false
    (lines [
     B "select distinct  f.address ea, f.name name1, df.address ea2, df.name name2,";
     B "                  'Pseudo-code fuzzy AST hash' description,";
     B "                  f.pseudocode pseudo1, df.pseudocode pseudo2,";
     B "                  f.assembly asm1, df.assembly asm2,";
     B "                  f.pseudocode_primes pseudo_primes1, df.pseudocode_primes pseudo_primes2,";
     B "                  f.nodes nodes1, df.nodes nodes2,";
     B "                  cast(f.md_index as real) md1, cast(df.md_index as real) md2,";
     B "                  f.clean_assembly clean_assembly1, df.clean_assembly clean_assembly2,";
     B "                  f.clean_pseudo clean_pseudo1, df.clean_pseudo clean_pseudo2,";
     B "                  f.mangled_function mangled1, df.mangled_function mangled2,";
     B "                  f.clean_microcode clean_micro1, df.clean_microcode clean_micro2,";
     B "                  f.bytes_hash bytes_hash1, df.bytes_hash bytes_hash2,";
     B "                  f.edges edges1, df.edges edges2,";
     B "                  f.indegree indegree1, df.indegree indegree2,";
     B "                  f.outdegree outdegree1, df.outdegree outdegree2,";
     B "                  f.instructions instructions1, df.instructions instructions2,";
     B "                  f.cyclomatic_complexity cc1, df.cyclomatic_complexity cc2,";
     B "                  f.strongly_connected strongly_connected1,";
     B "                  df.strongly_connected strongly_connected2,";
     B "                  f.loops loops1, df.loops loops2,";
     B "                  f.constants_count constants_count1,";
     B "                  df.constants_count constants_count2,";
     B "                  f.size size1, df.size size2,";
     B "                  f.kgh_hash kgh_hash1, df.kgh_hash kgh_hash2";
     B "";
     B "       from functions f,";
     B "            diff.functions df";
     B "      where df.pseudocode_primes = f.pseudocode_primes";
     B "        and f.pseudocode_lines >= 3";
     B "        and length(f.pseudocode_primes) >= 35";
     B "        %POSTFIX%";
     B "      order by f.source_file = df.source_file"]).

Definition heuristic_36 : HeuristicSpec :=
  MkHeuristic 36 (B "Partial pseudo-code fuzzy hash (normal)") CatPartial RatioMax (dlit 1 2) true true true false
    (lines [
     B "  select distinct  f.address ea, f.name name1, df.address ea2, df.name name2,";
     B "                  'Partial pseudo-code fuzzy hash (normal)' description,";
     B "                  f.pseudocode pseudo1, df.pseudocode pseudo2,";
     B "                  f.assembly asm1, df.assembly asm2,";
     B "                  f.pseudocode_primes pseudo_primes1, df.pseudocode_primes pseudo_primes2,";
     B "                  f.nodes nodes1, df.nodes nodes2,";
     B "                  cast(f.md_index as real) md1, cast(df.md_index as real) md2,";
     B "                  f.clean_assembly clean_assembly1, df.clean_assembly clean_assembly2,";
     B "                  f.clean_pseudo clean_pseudo1, df.clean_pseudo clean_pseudo2,";
     B "                  f.mangled_function mangled1, df.mangled_function mangled2,";
     B "                  f.clean_microcode clean_micro1, df.clean_microcode clean_micro2,";
     B "                  f.bytes_hash bytes_hash1, df.bytes_hash bytes_hash2,";
     B "                  f.edges edges1, df.edges edges2,";
     B "                  f.indegree indegree1, df.indegree indegree2,";
     B "                  f.outdegree outdegree1, df.outdegree outdegree2,";
     B "                  f.instructions instructions1, df.instructions instructions2,";
     B "                  f.cyclomatic_complexity cc1, df.cyclomatic_complexity cc2,";
     B "                  f.strongly_connected strongly_connected1,";
     B "                  df.strongly_connected strongly_connected2,";
     B "                  f.loops loops1, df.loops loops2,";
     B "                  f.constants_count constants_count1,";
     B "                  df.constants_count constants_count2,";
     B "                  f.size size1, df.size size2,";
     B "                  f.kgh_hash kgh_hash1, df.kgh_hash kgh_hash2";
     B "";
     B "         from functions f,";
     B "              diff.functions df";
     B "        where substr(df.pseudocode_hash1, 1, 16) = substr(f.pseudocode_hash1, 1, 16)";
     B "          and f.nodes > 5 and df.nodes > 5";
     B "          %POSTFIX%";
     B "        order by f.source_file = df.source_file"]).

Definition heuristic_37 : HeuristicSpec :=
  MkHeuristic 37 (B "Partial pseudo-code fuzzy hash (reverse)") CatPartial RatioMax (dlit 1 2) true true true false
    (lines [
     B "  select distinct  f.address ea, f.name name1, df.address ea2, df.name name2,";
     B "                  'Partial pseudo-code fuzzy hash (reverse)' description,";
     B "                  f.pseudocode pseudo1, df.pseudocode pseudo2,";
     B "                  f.assembly asm1, df.assembly asm2,";
     B "                  f.pseudocode_primes pseudo_primes1, df.pseudocode_primes pseudo_primes2,";
     B "                  f.nodes nodes1, df.nodes nodes2,";
     B "                  cast(f.md_index as real) md1, cast(df.md_index as real) md2,";
     B "                  f.clean_assembly clean_assembly1, df.clean_assembly clean_assembly2,";
     B "                  f.clean_pseudo clean_pseudo1, df.clean_pseudo clean_pseudo2,";
     B "                  f.mangled_function mangled1, df.mangled_function mangled2,";
     B "                  f.clean_microcode clean_micro1, df.clean_microcode clean_micro2,";
     B "                  f.bytes_hash bytes_hash1, df.bytes_hash bytes_hash2,";
     B "                  f.edges edges1, df.edges edges2,";
     B "                  f.indegree indegree1, df.indegree indegree2,";
     B "                  f.outdegree outdegree1, df.outdegree outdegree2,";
     B "                  f.instructions instructions1, df.instructions instructions2,";
     B "                  f.cyclomatic_complexity cc1, df.cyclomatic_complexity cc2,";
     B "                  f.strongly_connected strongly_connected1,";
     B "                  df.strongly_connected strongly_connected2,";
     B "                  f.loops loops1, df.loops loops2,";
     B "                  f.constants_count constants_count1,";
     B "                  df.constants_count constants_count2,";
     B "                  f.size size1, df.size size2,";
     B "                  f.kgh_hash kgh_hash1, df.kgh_hash kgh_hash2";
     B "";
     B "         from functions f,";
     B "              diff.functions df";
     B "        where substr(df.pseudocode_hash2, 1, 16) = substr(f.pseudocode_hash2, 1, 16)";
     B "          and f.nodes > 5 and df.nodes > 5";
     B "          %POSTFIX%";
     B "        order by f.source_file = df.source_file"]).

Definition heuristic_38 : HeuristicSpec :=
  MkHeuristic 38 (B "Partial pseudo-code fuzzy hash (mixed)") CatPartial RatioMax (dlit 1 2) true true true false
    (lines [
     B "  select distinct  f.address ea, f.name name1, df.address ea2, df.name name2,";
     B "                  'Partial pseudo-code fuzzy hash (mixed)' description,";
     B "                  f.pseudocode pseudo1, df.pseudocode pseudo2,";
     B "                  f.assembly asm1, df.assembly asm2,";
     B "                  f.pseudocode_primes pseudo_primes1, df.pseudocode_primes pseudo_primes2,";
     B "                  f.nodes nodes1, df.nodes nodes2,";
     B "                  cast(f.md_index as real) md1, cast(df.md_index as real) md2,";
     B "                  f.clean_assembly clean_assembly1, df.clean_assembly clean_assembly2,";
     B "                  f.clean_pseudo clean_pseudo1, df.clean_pseudo clean_pseudo2,";
     B "                  f.mangled_function mangled1, df.mangled_function mangled2,";
     B "                  f.clean_microcode clean_micro1, df.clean_microcode clean_micro2,";
     B "                  f.bytes_hash bytes_hash1, df.bytes_hash bytes_hash2,";
     B "                  f.edges edges1, df.edges edges2,";
     B "                  f.indegree indegree1, df.indegree indegree2,";
     B "                  f.outdegree outdegree1, df.outdegree outdegree2,";
     B "                  f.instructions instructions1, df.instructions instructions2,";
     B "                  f.cyclomatic_complexity cc1, df.cyclomatic_complexity cc2,";
     B "                  f.strongly_connected strongly_connected1,";
     B "                  df.strongly_connected strongly_connected2,";
     B "                  f.loops loops1, df.loops loops2,";
     B "                  f.constants_count constants_count1,";
     B "                  df.constants_count constants_count2,";
     B "                  f.size size1, df.size size2,";
     B "                  f.kgh_hash kgh_hash1, df.kgh_hash kgh_hash2";
     B "";
     B "         from functions f,";
     B "              diff.functions df";
     B "        where substr(df.pseudocode_hash3, 1, 16) = substr(f.pseudocode_hash3, 1, 16)";
     B "          and f.nodes > 5 and df.nodes > 5";
     B "          %POSTFIX%";
     B "        order by f.source_file = df.source_file"]).

Definition heuristic_39 : HeuristicSpec :=
  MkHeuristic 39 (B "Same rare assembly instruction") CatPartial RatioMax (dlit 1 2) true false false true
    (lines [
     B "";
     B "with main_asm as (";
     B "  select f.id, f.name, inst.disasm";
     B "    from main.instructions inst,";
     B "         main.functions f";
     B "   where f.id = inst.func_id";
     B "     and f.name not like 'nullsub%'";
     B "     and inst.disasm is not null";
     B "     and inst.disasm != ''";
     B "   group by inst.disasm";
     B "  having count(0) = 1";
     B "),";
     B "diff_asm as (";
     B "  select f.id, f.name, inst.disasm";
     B "    from diff.instructions inst,";
     B "         diff.functions f";
     B "   where f.id = inst.func_id";
     B "     and f.name not like 'nullsub%'";
     B "     and inst.disasm is not null";
     B "     and inst.disasm != ''";
     B "   group by inst.disasm";
     B "  having count(0) = 1";
     B "),";
     B "query1 as (";
     B "  select distinct main_asm.id main_func_id, diff_asm.id diff_func_id";
     B "    from main_asm,";
     B "         diff_asm";
     B "   where main_asm.disasm = diff_asm.disasm";
     B ")";
     B "select  f.address ea, f.name name1, df.address ea2, df.name name2,";
     B "                  'Same rare assembly instruction' description,";
     B "                  f.pseudocode pseudo1, df.pseudocode pseudo2,";
     B "                  f.assembly asm1, df.assembly asm2,";
     B "                  f.pseudocode_primes pseudo_primes1, df.pseudocode_primes pseudo_primes2,";
     B "                  f.nodes nodes1, df.nodes nodes2,";
     B "                  cast(f.md_index as real) md1, cast(df.md_index as real) md2,";
     B "                  f.clean_assembly clean_assembly1, df.clean_assembly clean_assembly2,";
     B "                  f.clean_pseudo clean_pseudo1, df.clean_pseudo clean_pseudo2,";
     B "                  f.mangled_function mangled1, df.mangled_function mangled2,";
     B "                  f.clean_microcode clean_micro1, df.clean_microcode clean_micro2,";
     B "                  f.bytes_hash bytes_hash1, df.bytes_hash bytes_hash2,";
     B "                  f.edges edges1, df.edges edges2,";
     B "                  f.indegree indegree1, df.indegree indegree2,";
     B "                  f.outdegree outdegree1, df.outdegree outdegree2,";
     B "                  f.instructions instructions1, df.instructions instructions2,";
     B "                  f.cyclomatic_complexity cc1, df.cyclomatic_complexity cc2,";
     B "                  f.strongly_connected strongly_connected1,";
     B "                  df.strongly_connected strongly_connected2,";
     B "                  f.loops loops1, df.loops loops2,";
     B "                  f.constants_count constants_count1,";
     B "                  df.constants_count constants_count2,";
     B "                  f.size size1, df.size size2,";
     B "                  f.kgh_hash kgh_hash1, df.kgh_hash kgh_hash2";
     B "";
     B "  from main.functions f,";
     B "       diff.functions df,";
     B "       query1";
     B " where f.id  = query1.main_func_id";
     B "   and df.id = query1.diff_func_id";
     B "   and f.name != df.name";
     B "   and ((min(f.nodes, df.nodes) * 100) / max(f.nodes, df.nodes)) < 50";
     B "   %POSTFIX%";
     B ""]).

Definition heuristic_40 : HeuristicSpec :=
  MkHeuristic 40 (B "Same rare basic block mnemonics list") CatPartial RatioMax (dlit 1 2) true false false false
    (lines [
     B "";
     B "with main_bblocks as (";
     B "select inst.func_id, bb.basic_block_id bb_id, GROUP_CONCAT(inst.mnemonic) as mnemonics_list, count(0) inst_total";
     B "  from main.bb_instructions bb,";
     B "       main.instructions inst";
     B " where bb.instruction_id = inst.id";
     B " group by bb_id";
     B "),";
     B "diff_bblocks as (";
     B "select inst.func_id, bb.basic_block_id bb_id, GROUP_CONCAT(inst.mnemonic) as mnemonics_list, count(0) inst_total";
     B "  from diff.bb_instructions bb,";
     B "       diff.instructions inst";
     B " where bb.instruction_id = inst.id";
     B " group by bb_id";
     B "),";
     B "unique_main_bblocks as (";
     B "select func_id, mnemonics_list, count(0) total";
     B "  from main_bblocks";
     B " group by mnemonics_list";
     B "having count(0) = 1";
     B " order by total asc";
     B ")";
     B "select  f.address ea, f.name name1, df.address ea2, df.name name2,";
     B "                  'Same rare basic block mnemonics list' description,";
     B "                  f.pseudocode pseudo1, df.pseudocode pseudo2,";
     B "                  f.assembly asm1, df.assembly asm2,";
     B "                  f.pseudocode_primes pseudo_primes1, df.pseudocode_primes pseudo_primes2,";
     B "                  f.nodes nodes1, df.nodes nodes2,";
     B "                  cast(f.md_index as real) md1, cast(df.md_index as real) md2,";
     B "                  f.clean_assembly clean_assembly1, df.clean_assembly clean_assembly2,";
     B "                  f.clean_pseudo clean_pseudo1, df.clean_pseudo clean_pseudo2,";
     B "                  f.mangled_function mangled1, df.mangled_function mangled2,";
     B "                  f.clean_microcode clean_micro1, df.clean_microcode clean_micro2,";
     B "                  f.bytes_hash bytes_hash1, df.bytes_hash bytes_hash2,";
     B "                  f.edges edges1, df.edges edges2,";
     B "                  f.indegree indegree1, df.indegree indegree2,";
     B "                  f.outdegree outdegree1, df.outdegree outdegree2,";
     B "                  f.instructions instructions1, df.instructions instructions2,";
     B "                  f.cyclomatic_complexity cc1, df.cyclomatic_complexity cc2,";
     B "                  f.strongly_connected strongly_connected1,";
     B "                  df.strongly_connected strongly_connected2,";
     B "                  f.loops loops1, df.loops loops2,";
     B "                  f.constants_count constants_count1,";
     B "                  df.constants_count constants_count2,";
     B "                  f.size size1, df.size size2,";
     B "                  f.kgh_hash kgh_hash1, df.kgh_hash kgh_hash2";
     B "";
     B "  from unique_main_bblocks main_query,";
     B "       diff_bblocks diff_query,";
     B "       main.functions f,";
     B "       diff.functions df";
     B " where main_query.mnemonics_list = diff_query.mnemonics_list";
     B "   and f.id = main_query.func_id";
     B "   and df.id = diff_query.func_id";
     B "   and f.nodes > 3";
     B "   and df.nodes > 3";
     B "   and diff_query.inst_total >= 6";
     B "   and ((min(f.nodes, df.nodes) * 100) / max(f.nodes, df.nodes)) < 50";
     B "   %POSTFIX%";
     B ""]).

Definition heuristic_41 : HeuristicSpec :=
  MkHeuristic 41 (B "Loop count") CatPartial RatioMax (dlit 49 100) true false true false
    (lines [
     B "select  f.address ea, f.name name1, df.address ea2, df.name name2,";
     B "                  'Loop count' description,";
     B "                  f.pseudocode pseudo1, df.pseudocode pseudo2,";
     B "                  f.assembly asm1, df.assembly asm2,";
     B "                  f.pseudocode_primes pseudo_primes1, df.pseudocode_primes pseudo_primes2,";
     B "                  f.nodes nodes1, df.nodes nodes2,";
     B "                  cast(f.md_index as real) md1, cast(df.md_index as real) md2,";
     B "                  f.clean_assembly clean_assembly1, df.clean_assembly clean_assembly2,";
     B "                  f.clean_pseudo clean_pseudo1, df.clean_pseudo clean_pseudo2,";
     B "                  f.mangled_function mangled1, df.mangled_function mangled2,";
     B "                  f.clean_microcode clean_micro1, df.clean_microcode clean_micro2,";
     B "                  f.bytes_hash bytes_hash1, df.bytes_hash bytes_hash2,";
     B "                  f.edges edges1, df.edges edges2,";
     B "                  f.indegree indegree1, df.indegree indegree2,";
     B "                  f.outdegree outdegree1, df.outdegree outdegree2,";
     B "                  f.instructions instructions1, df.instructions instructions2,";
     B "                  f.cyclomatic_complexity cc1, df.cyclomatic_complexity cc2,";
     B "                  f.strongly_connected strongly_connected1,";
     B "                  df.strongly_connected strongly_connected2,";
     B "                  f.loops loops1, df.loops loops2,";
     B "                  f.constants_count constants_count1,";
     B "                  df.constants_count constants_count2,";
     B "                  f.size size1, df.size size2,";
     B "                  f.kgh_hash kgh_hash1, df.kgh_hash kgh_hash2";
     B "";
     B "       from functions f,";
     B "            diff.functions df";
     B "      where f.loops = df.loops";
     B "        and df.loops > 1";
     B "        and f.nodes >= 3 and df.nodes >= 3";
     B "        %POSTFIX%";
     B "      order by f.source_file = df.source_file"]).

Definition heuristic_42 : HeuristicSpec :=
  MkHeuristic 42 (B "Same graph") CatUnreliable RatioMax (dlit 1 2) true false false false
    (lines [
     B " select  f.address ea, f.name name1, df.address ea2, df.name name2,";
     B "                  'Same graph' description,";
     B "                  f.pseudocode pseudo1, df.pseudocode pseudo2,";
     B "                  f.assembly asm1, df.assembly asm2,";
     B "                  f.pseudocode_primes pseudo_primes1, df.pseudocode_primes pseudo_primes2,";
     B "                  f.nodes nodes1, df.nodes nodes2,";
     B "                  cast(f.md_index as real) md1, cast(df.md_index as real) md2,";
     B "                  f.clean_assembly clean_assembly1, df.clean_assembly clean_assembly2,";
     B "                  f.clean_pseudo clean_pseudo1, df.clean_pseudo clean_pseudo2,";
     B "                  f.mangled_function mangled1, df.mangled_function mangled2,";
     B "                  f.clean_microcode clean_micro1, df.clean_microcode clean_micro2,";
     B "                  f.bytes_hash bytes_hash1, df.bytes_hash bytes_hash2,";
     B "                  f.edges edges1, df.edges edges2,";
     B "                  f.indegree indegree1, df.indegree indegree2,";
     B "                  f.outdegree outdegree1, df.outdegree outdegree2,";
     B "                  f.instructions instructions1, df.instructions instructions2,";
     B "                  f.cyclomatic_complexity cc1, df.cyclomatic_complexity cc2,";
     B "                  f.strongly_connected strongly_connected1,";
     B "                  df.strongly_connected strongly_connected2,";
     B "                  f.loops loops1, df.loops loops2,";
     B "                  f.constants_count constants_count1,";
     B "                  df.constants_count constants_count2,";
     B "                  f.size size1, df.size size2,";
     B "                  f.kgh_hash kgh_hash1, df.kgh_hash kgh_hash2";
     B "";
     B "        from functions f,";
     B "             diff.functions df";
     B "       where f.nodes = df.nodes ";
     B "         and f.edges = df.edges";
     B "         and f.indegree = df.indegree";
     B "         and f.outdegree = df.outdegree";
     B "         and f.cyclomatic_complexity = df.cyclomatic_complexity";
     B "         and f.strongly_connected = df.strongly_connected";
     B "         and f.loops = df.loops";
     B "         and f.tarjan_topological_sort = df.tarjan_topological_sort";
     B "         and f.strongly_connected_spp = df.strongly_connected_spp";
     B "         and f.nodes > 5 and df.nodes > 5";
     B "         %POSTFIX%";
     B "       order by";
     B "             case when f.size = df.size then 1 else 0 end +";
     B "             case when f.instructions = df.instructions then 1 else 0 end +";
     B "             case when f.mnemonics = df.mnemonics then 1 else 0 end +";
     B "             case when f.names = df.names then 1 else 0 end +";
     B "             case when f.prototype2 = df.prototype2 then 1 else 0 end +";
     B "             case when f.primes_value = df.primes_value then 1 else 0 end +";
     B "             case when f.bytes_hash = df.bytes_hash then 1 else 0 end +";
     B "             case when f.pseudocode_hash1 = df.pseudocode_hash1 then 1 else 0 end +";
     B "             case when f.pseudocode_primes = df.pseudocode_primes then 1 else 0 end +";
     B "             case when f.pseudocode_hash2 = df.pseudocode_hash2 then 1 else 0 end +";
     B "             case when f.pseudocode_hash3 = df.pseudocode_hash3 then 1 else 0 end DESC"]).

Definition heuristic_43 : HeuristicSpec :=
  MkHeuristic 43 (B "Strongly connected components") CatUnreliable RatioMax (dlit 4 5) true false true false
    (lines [
     B "";
     B "     select  f.address ea, f.name name1, df.address ea2, df.name name2,";
     B "                  'Strongly connected components' description,";
     B "                  f.pseudocode pseudo1, df.pseudocode pseudo2,";
     B "                  f.assembly asm1, df.assembly asm2,";
     B "                  f.pseudocode_primes pseudo_primes1, df.pseudocode_primes pseudo_primes2,";
     B "                  f.nodes nodes1, df.nodes nodes2,";
     B "                  cast(f.md_index as real) md1, cast(df.md_index as real) md2,";
     B "                  f.clean_assembly clean_assembly1, df.clean_assembly clean_assembly2,";
     B "                  f.clean_pseudo clean_pseudo1, df.clean_pseudo clean_pseudo2,";
     B "                  f.mangled_function mangled1, df.mangled_function mangled2,";
     B "                  f.clean_microcode clean_micro1, df.clean_microcode clean_micro2,";
     B "                  f.bytes_hash bytes_hash1, df.bytes_hash bytes_hash2,";
     B "                  f.edges edges1, df.edges edges2,";
     B "                  f.indegree indegree1, df.indegree indegree2,";
     B "                  f.outdegree outdegree1, df.outdegree outdegree2,";
     B "                  f.instructions instructions1, df.instructions instructions2,";
     B "                  f.cyclomatic_complexity cc1, df.cyclomatic_complexity cc2,";
     B "                  f.strongly_connected strongly_connected1,";
     B "                  df.strongly_connected strongly_connected2,";
     B "                  f.loops loops1, df.loops loops2,";
     B "                  f.constants_count constants_count1,";
     B "                  df.constants_count constants_count2,";
     B "                  f.size size1, df.size size2,";
     B "                  f.kgh_hash kgh_hash1, df.kgh_hash kgh_hash2";
     B "";
     B "       from functions f,";
     B "            diff.functions df";
     B "      where f.strongly_connected = df.strongly_connected";
     B "        and df.strongly_connected > 1";
     B "        and f.nodes > 5 and df.nodes > 5";
     B "        and f.strongly_connected_spp > 1";
     B "        and df.strongly_connected_spp > 1";
     B "        %POSTFIX%";
     B "      order by f.source_file = df.source_file"]).

Definition heuristic_44 : HeuristicSpec :=
  MkHeuristic 44 (B "Nodes, edges, complexity and mnemonics") CatUnreliable RatioType d0 false false true false
    (lines [
     B " select distinct  f.address ea, f.name name1, df.address ea2, df.name name2,";
     B "                  'Nodes, edges, complexity and mnemonics' description,";
     B "                  f.pseudocode pseudo1, df.pseudocode pseudo2,";
     B "                  f.assembly asm1, df.assembly asm2,";
     B "                  f.pseudocode_primes pseudo_primes1, df.pseudocode_primes pseudo_primes2,";
     B "                  f.nodes nodes1, df.nodes nodes2,";
     B "                  cast(f.md_index as real) md1, cast(df.md_index as real) md2,";
     B "                  f.clean_assembly clean_assembly1, df.clean_assembly clean_assembly2,";
     B "                  f.clean_pseudo clean_pseudo1, df.clean_pseudo clean_pseudo2,";
     B "                  f.mangled_function mangled1, df.mangled_function mangled2,";
     B "                  f.clean_microcode clean_micro1, df.clean_microcode clean_micro2,";
     B "                  f.bytes_hash bytes_hash1, df.bytes_hash bytes_hash2,";
     B "                  f.edges edges1, df.edges edges2,";
     B "                  f.indegree indegree1, df.indegree indegree2,";
     B "                  f.outdegree outdegree1, df.outdegree outdegree2,";
     B "                  f.instructions instructions1, df.instructions instructions2,";
     B "                  f.cyclomatic_complexity cc1, df.cyclomatic_complexity cc2,";
     B "                  f.strongly_connected strongly_connected1,";
     B "                  df.strongly_connected strongly_connected2,";
     B "                  f.loops loops1, df.loops loops2,";
     B "                  f.constants_count constants_count1,";
     B "                  df.constants_count constants_count2,";
     B "                  f.size size1, df.size size2,";
     B "                  f.kgh_hash kgh_hash1, df.kgh_hash kgh_hash2";
     B "";
     B "        from functions f,";
     B "             diff.functions df";
     B "       where f.nodes = df.nodes";
     B "         and f.edges = df.edges";
     B "         and f.mnemonics = df.mnemonics";
     B "         and f.cyclomatic_complexity = df.cyclomatic_complexity";
     B "         and f.nodes > 1 and f.edges > 0";
     B "         %POSTFIX%";
     B "       order by f.source_file = df.source_file"]).

Definition heuristic_45 : HeuristicSpec :=
  MkHeuristic 45 (B "Nodes, edges, complexity and prototype") CatUnreliable RatioType d0 false false true false
    (lines [
     B " select distinct  f.address ea, f.name name1, df.address ea2, df.name name2,";
     B "                  'Nodes, edges, complexity and prototype' description,";
     B "                  f.pseudocode pseudo1, df.pseudocode pseudo2,";
     B "                  f.assembly asm1, df.assembly asm2,";
     B "                  f.pseudocode_primes pseudo_primes1, df.pseudocode_primes pseudo_primes2,";
     B "                  f.nodes nodes1, df.nodes nodes2,";
     B "                  cast(f.md_index as real) md1, cast(df.md_index as real) md2,";
     B "                  f.clean_assembly clean_assembly1, df.clean_assembly clean_assembly2,";
     B "                  f.clean_pseudo clean_pseudo1, df.clean_pseudo clean_pseudo2,";
     B "                  f.mangled_function mangled1, df.mangled_function mangled2,";
     B "                  f.clean_microcode clean_micro1, df.clean_microcode clean_micro2,";
     B "                  f.bytes_hash bytes_hash1, df.bytes_hash bytes_hash2,";
     B "                  f.edges edges1, df.edges edges2,";
     B "                  f.indegree indegree1, df.indegree indegree2,";
     B "                  f.outdegree outdegree1, df.outdegree outdegree2,";
     B "                  f.instructions instructions1, df.instructions instructions2,";
     B "                  f.cyclomatic_complexity cc1, df.cyclomatic_complexity cc2,";
     B "                  f.strongly_connected strongly_connected1,";
     B "                  df.strongly_connected strongly_connected2,";
     B "                  f.loops loops1, df.loops loops2,";
     B "                  f.constants_count constants_count1,";
     B "                  df.constants_count constants_count2,";
     B "                  f.size size1, df.size size2,";
     B "                  f.kgh_hash kgh_hash1, df.kgh_hash kgh_hash2";
     B "";
     B "        from functions f,";
     B "             diff.functions df";
     B "       where f.nodes = df.nodes";
     B "         and f.edges = df.edges";
     B "         and f.prototype2 = df.prototype2";
     B "         and f.cyclomatic_complexity = df.cyclomatic_complexity";
     B "         and f.prototype2 != 'int()'";
     B "         %POSTFIX%";
     B "       order by f.source_file = df.source_file"]).

Definition heuristic_46 : HeuristicSpec :=
  MkHeuristic 46 (B "Nodes, edges, complexity, in-degree and out-degree") CatUnreliable RatioType d0 false false true false
    (lines [
     B " select distinct  f.address ea, f.name name1, df.address ea2, df.name name2,";
     B "                  'Nodes, edges, complexity, in-degree and out-degree' description,";
     B "                  f.pseudocode pseudo1, df.pseudocode pseudo2,";
     B "                  f.assembly asm1, df.assembly asm2,";
     B "                  f.pseudocode_primes pseudo_primes1, df.pseudocode_primes pseudo_primes2,";
     B "                  f.nodes nodes1, df.nodes nodes2,";
     B "                  cast(f.md_index as real) md1, cast(df.md_index as real) md2,";
     B "                  f.clean_assembly clean_assembly1, df.clean_assembly clean_assembly2,";
     B "                  f.clean_pseudo clean_pseudo1, df.clean_pseudo clean_pseudo2,";
     B "                  f.mangled_function mangled1, df.mangled_function mangled2,";
     B "                  f.clean_microcode clean_micro1, df.clean_microcode clean_micro2,";
     B "                  f.bytes_hash bytes_hash1, df.bytes_hash bytes_hash2,";
     B "                  f.edges edges1, df.edges edges2,";
     B "                  f.indegree indegree1, df.indegree indegree2,";
     B "                  f.outdegree outdegree1, df.outdegree outdegree2,";
     B "                  f.instructions instructions1, df.instructions instructions2,";
     B "                  f.cyclomatic_complexity cc1, df.cyclomatic_complexity cc2,";
     B "                  f.strongly_connected strongly_connected1,";
     B "                  df.strongly_connected strongly_connected2,";
     B "                  f.loops loops1, df.loops loops2,";
     B "                  f.constants_count constants_count1,";
     B "                  df.constants_count constants_count2,";
     B "                  f.size size1, df.size size2,";
     B "                  f.kgh_hash kgh_hash1, df.kgh_hash kgh_hash2";
     B "";
     B "        from functions f,";
     B "             diff.functions df";
     B "       where f.nodes = df.nodes";
     B "         and f.edges = df.edges";
     B "         and f.cyclomatic_complexity = df.cyclomatic_complexity";
     B "         and f.nodes >= 3 and f.edges > 2";
     B "         and f.indegree = df.indegree";
     B "         and f.outdegree = df.outdegree";
     B "         %POSTFIX%";
     B "       order by f.source_file = df.source_file"]).

Definition heuristic_47 : HeuristicSpec :=
  MkHeuristic 47 (B "Nodes, edges and complexity") CatUnreliable RatioType d0 false false true false
    (lines [
     B " select distinct  f.address ea, f.name name1, df.address ea2, df.name name2,";
     B "                  'Nodes, edges and complexity' description,";
     B "                  f.pseudocode pseudo1, df.pseudocode pseudo2,";
     B "                  f.assembly asm1, df.assembly asm2,";
     B "                  f.pseudocode_primes pseudo_primes1, df.pseudocode_primes pseudo_primes2,";
     B "                  f.nodes nodes1, df.nodes nodes2,";
     B "                  cast(f.md_index as real) md1, cast(df.md_index as real) md2,";
     B "                  f.clean_assembly clean_assembly1, df.clean_assembly clean_assembly2,";
     B "                  f.clean_pseudo clean_pseudo1, df.clean_pseudo clean_pseudo2,";
     B "                  f.mangled_function mangled1, df.mangled_function mangled2,";
     B "                  f.clean_microcode clean_micro1, df.clean_microcode clean_micro2,";
     B "                  f.bytes_hash bytes_hash1, df.bytes_hash bytes_hash2,";
     B "                  f.edges edges1, df.edges edges2,";
     B "                  f.indegree indegree1, df.indegree indegree2,";
     B "                  f.outdegree outdegree1, df.outdegree outdegree2,";
     B "                  f.instructions instructions1, df.instructions instructions2,";
     B "                  f.cyclomatic_complexity cc1, df.cyclomatic_complexity cc2,";
     B "                  f.strongly_connected strongly_connected1,";
     B "                  df.strongly_connected strongly_connected2,";
     B "                  f.loops loops1, df.loops loops2,";
     B "                  f.constants_count constants_count1,";
     B "                  df.constants_count constants_count2,";
     B "                  f.size size1, df.size size2,";
     B "                  f.kgh_hash kgh_hash1, df.kgh_hash kgh_hash2";
     B "";
     B "        from functions f,";
     B "             diff.functions df";
     B "       where f.nodes = df.nodes";
     B "         and f.edges = df.edges";
     B "         and f.cyclomatic_complexity = df.cyclomatic_complexity";
     B "         and f.nodes > 1 and f.edges > 0";
     B "         %POSTFIX%";
     B "       order by f.source_file = df.source_file"]).

Definition heuristic_48 : HeuristicSpec :=
  MkHeuristic 48 (B "Same high complexity") CatUnreliable RatioType d0 false false true false
    (lines [
     B "select  f.address ea, f.name name1, df.address ea2, df.name name2,";
     B "                  'Same high complexity' description,";
     B "                  f.pseudocode pseudo1, df.pseudocode pseudo2,";
     B "                  f.assembly asm1, df.assembly asm2,";
     B "                  f.pseudocode_primes pseudo_primes1, df.pseudocode_primes pseudo_primes2,";
     B "                  f.nodes nodes1, df.nodes nodes2,";
     B "                  cast(f.md_index as real) md1, cast(df.md_index as real) md2,";
     B "                  f.clean_assembly clean_assembly1, df.clean_assembly clean_assembly2,";
     B "                  f.clean_pseudo clean_pseudo1, df.clean_pseudo clean_pseudo2,";
     B "                  f.mangled_function mangled1, df.mangled_function mangled2,";
     B "                  f.clean_microcode clean_micro1, df.clean_microcode clean_micro2,";
     B "                  f.bytes_hash bytes_hash1, df.bytes_hash bytes_hash2,";
     B "                  f.edges edges1, df.edges edges2,";
     B "                  f.indegree indegree1, df.indegree indegree2,";
     B "                  f.outdegree outdegree1, df.outdegree outdegree2,";
     B "                  f.instructions instructions1, df.instructions instructions2,";
     B "                  f.cyclomatic_complexity cc1, df.cyclomatic_complexity cc2,";
     B "                  f.strongly_connected strongly_connected1,";
     B "                  df.strongly_connected strongly_connected2,";
     B "                  f.loops loops1, df.loops loops2,";
     B "                  f.constants_count constants_count1,";
     B "                  df.constants_count constants_count2,";
     B "                  f.size size1, df.size size2,";
     B "                  f.kgh_hash kgh_hash1, df.kgh_hash kgh_hash2";
     B "";
     B "       from functions f,";
     B "            diff.functions df";
     B "      where f.cyclomatic_complexity = df.cyclomatic_complexity";
     B "        and f.cyclomatic_complexity >= 50";
     B "        %POSTFIX%";
     B "      order by f.source_file = df.source_file"]).

Definition heuristic_49 : HeuristicSpec :=
  MkHeuristic 49 (B "Topological sort hash") CatUnreliable RatioType d0 false false false false
    (lines [
     B "select  f.address ea, f.name name1, df.address ea2, df.name name2,";
     B "                  'Topological sort hash' description,";
     B "                  f.pseudocode pseudo1, df.pseudocode pseudo2,";
     B "                  f.assembly asm1, df.assembly asm2,";
     B "                  f.pseudocode_primes pseudo_primes1, df.pseudocode_primes pseudo_primes2,";
     B "                  f.nodes nodes1, df.nodes nodes2,";
     B "                  cast(f.md_index as real) md1, cast(df.md_index as real) md2,";
     B "                  f.clean_assembly clean_assembly1, df.clean_assembly clean_assembly2,";
     B "                  f.clean_pseudo clean_pseudo1, df.clean_pseudo clean_pseudo2,";
     B "                  f.mangled_function mangled1, df.mangled_function mangled2,";
     B "                  f.clean_microcode clean_micro1, df.clean_microcode clean_micro2,";
     B "                  f.bytes_hash bytes_hash1, df.bytes_hash bytes_hash2,";
     B "                  f.edges edges1, df.edges edges2,";
     B "                  f.indegree indegree1, df.indegree indegree2,";
     B "                  f.outdegree outdegree1, df.outdegree outdegree2,";
     B "                  f.instructions instructions1, df.instructions instructions2,";
     B "                  f.cyclomatic_complexity cc1, df.cyclomatic_complexity cc2,";
     B "                  f.strongly_connected strongly_connected1,";
     B "                  df.strongly_connected strongly_connected2,";
     B "                  f.loops loops1, df.loops loops2,";
     B "                  f.constants_count constants_count1,";
     B "                  df.constants_count constants_count2,";
     B "                  f.size size1, df.size size2,";
     B "                  f.kgh_hash kgh_hash1, df.kgh_hash kgh_hash2";
     B "";
     B "       from functions f,";
     B "            diff.functions df";
     B "      where f.strongly_connected = df.strongly_connected";
     B "        and f.tarjan_topological_sort = df.tarjan_topological_sort";
     B "        and f.strongly_connected >= 3";
     B "        and f.nodes > 10";
     B "        %POSTFIX%";
     B "      order by f.source_file = df.source_file"]).

Definition Heuristics : list HeuristicSpec :=
  [heuristic_0; heuristic_1; heuristic_2; heuristic_3; heuristic_4; heuristic_5;
   heuristic_6; heuristic_7; heuristic_8; heuristic_9; heuristic_10; heuristic_11;
   heuristic_12; heuristic_13; heuristic_14; heuristic_15; heuristic_16; heuristic_17;
   heuristic_18; heuristic_19; heuristic_20; heuristic_21; heuristic_22; heuristic_23;
   heuristic_24; heuristic_25; heuristic_26; heuristic_27; heuristic_28; heuristic_29;
   heuristic_30; heuristic_31; heuristic_32; heuristic_33; heuristic_34; heuristic_35;
   heuristic_36; heuristic_37; heuristic_38; heuristic_39; heuristic_40; heuristic_41;
   heuristic_42; heuristic_43; heuristic_44; heuristic_45; heuristic_46; heuristic_47;
   heuristic_48; heuristic_49].


Definition Heuristic (Id : Z) : res HeuristicSpec :=
  if (Id <? 0)%Z || (Z.of_nat (length Heuristics) <=? Id)%Z then
    Throw (CxxException (B "heuristic id " ++ dec_text Id))
  else
    match Heuristics !! Z.to_nat Id with
    | Some Spec => Ok Spec
    | None => Throw (CxxException (B "heuristic id " ++ dec_text Id))
    end.

(** ** [ApplyPostfix] *)

Definition Token : text := B "%POSTFIX%".

(** [Sql.find(Token)]: the bytes before the first occurrence and those after it. *)
Fixpoint find_token (t : text) : option (text * text) :=
  if starts_with t Token then Some ([], drop (length Token) t)
  else match t with
       | [] => None
       | Ch :: t' => '(Before, After) ← find_token t'; Some (Ch :: Before, After)
       end.

Fixpoint postfix_loop (fuel : nat) (Postfix Sql : text) : text :=
  match fuel with
  | O => Sql
  | S fuel' =>
      match find_token Sql with
      | None => Sql
      | Some (Before, After) => Before ++ Postfix ++ postfix_loop fuel' Postfix After
      end
  end.
Definition ApplyPostfix (Sql Postfix : text) : text := postfix_loop (length Sql) Postfix Sql.

Definition CategoryName (Category : HeurCategory) : text :=
  match Category with
  | CatBest => B "Best"
  | CatPartial => B "Partial"
  | CatUnreliable => B "Unreliable"
  | CatExperimental => B "Experimental"
  end.

Definition HeurTypeName (Type_ : HeurType) : text :=
  match Type_ with
  | NoFps => B "NO_FPS"
  | RatioType => B "RATIO"
  | RatioMax => B "RATIO_MAX"
  | RatioMaxTrusted => B "RATIO_MAX_TRUSTED"
  end.
