(* ===== verification/Sql.v ===== *)
(** * Statements and row sources (src/src/diff/Database.cpp)

    SQLite is outside the source: the class [Sqlite] is what its calls answer.
    The rest is the engine's: preparing a query with its bindings, stepping
    through the rows, the refusals for cells the port does not emulate, the
    mapping of a row of SELECT_FIELDS to a [HeuristicRow] and the function rows
    fetched by name or address. *)

From stdpp Require Import base numbers gmap list.
From Stdlib Require Import ZArith Lia.
From S2P Require Import Prelude Dbl Decimal Interner Utf8 Consumer SideTables FunctionTable.
From S2P Require Import RatioEngine.

(** Entering a text in a table. *)
Definition InternName (t : text) : M Interners NameId := fun ids => let '(ids, n) := Name t ids in (ids, Ok n).
Definition InternAddr (t : text) : M Interners AddrId := fun ids => let '(ids, a) := Addr t ids in (ids, Ok a).
Definition InternDesc (t : text) : M Interners DescId := fun ids => let '(ids, d) := Desc t ids in (ids, Ok d).

(** ** SQLite *)

Record SqliteError := MkSqliteError { ErrorCode : Z; ErrorText : text }.

(** [sqlite3_prepare_v2]: a failure, no statement (only white space or
    comments), or a statement with its number of parameters and the text left. *)
Inductive PrepareAnswer :=
| PrepareFailed (e : SqliteError)
| PrepareEmpty
| PrepareDone (Parameters : nat) (Tail : text).

Inductive BindValue :=
| BindNull
| BindInteger (Value : Z)
| BindDouble (Value : dbl)
| BindText (Value : text)
| BindBlob (Value : text).

(** The connection with the two databases: preparing a text, binding one slot,
    the rows a statement steps through with the error that ends them, if any,
    and the name of a result code. *)
Class Sqlite := {
  prepare_v2 : text -> PrepareAnswer;
  bind_slot : text -> nat -> BindValue -> option SqliteError;
  run_statement : text -> list BindValue -> Statement * option SqliteError;
  errstr : Z -> text;
}.

(** FULL, IOERR, CANTOPEN, NOMEM, CORRUPT, NOTADB, BUSY, LOCKED, READONLY, PERM,
    AUTH, PROTOCOL and INTERRUPT. *)
Definition EnvironmentalCodes : list Z := [13; 10; 14; 7; 11; 26; 5; 6; 8; 3; 23; 15; 9]%Z.
Definition IsEnvironmentalSqliteError (ExtendedCode : Z) : bool :=
  bool_decide (Z.land ExtendedCode 0xff ∈ EnvironmentalCodes).

Definition OnlyWhitespace (Tail : text) : bool :=
  let fix loop (t : text) : bool :=
    match t with
    | [] => true
    | Ch :: t' =>
        if bool_decide (Ch = x00) then true
        else if bool_decide (Ch ∈ [x20; x09; x0a; x0b; x0c; x0d]) then loop t' else false
    end in
  loop Tail.

Section Database.
Context `{!Sqlite}.

(** An environment failure ends the run; any other SQL error raises in Python. *)
Definition ThrowSqlError {A} (e : SqliteError) (Site : text) : res A :=
  let Code := ErrorCode e in
  if IsEnvironmentalSqliteError Code then
    Throw (IoFailure (B "SQLite failed (" ++ errstr Code ++ B ", code " ++ dec_text Code ++ B ") at " ++ Site
      ++ B ": " ++ ErrorText e
      ++ B "; this is an environment failure (disk, temporary directory, memory, lock or a damaged database file), not a Diaphora result"))
  else Throw (DiaphoraWouldRaise Site (ErrorText e)).

(** ** Statements *)

(** A statement being stepped: the column names, the current row, the rows
    ahead and the error that ends them. *)
Record Cursor := MkCursor {
  CursorNames : list text;
  CursorRow : list Column;
  CursorAhead : list (list Column);
  CursorError : option SqliteError;
}.

(** The first binding SQLite refuses. *)
Fixpoint bind_all (Sql : text) (Slot : nat) (Binds : list BindValue) : option SqliteError :=
  match Binds with
  | [] => None
  | Value :: Binds' =>
      match bind_slot Sql Slot Value with
      | Some e => Some e
      | None => bind_all Sql (S Slot) Binds'
      end
  end.

Definition Prepare (Sql : text) (Binds : list BindValue) : res Cursor :=
  match prepare_v2 Sql with
  | PrepareFailed e => ThrowSqlError e (B "sqlite3_prepare")
  | PrepareEmpty => Throw (DiaphoraWouldRaise (B "sqlite3_prepare") (B "empty statement"))
  | PrepareDone Expected Tail =>
      if negb (OnlyWhitespace Tail) then
        Throw (DiaphoraWouldRaise (B "sqlite3 execute") (B "more than one statement"))
      else if negb (Expected =? length Binds)%nat then
        Throw (DiaphoraWouldRaise (B "sqlite3 execute")
          (B "incorrect number of bindings supplied: " ++ dec_text (Z.of_nat (length Binds)) ++ B " for "
           ++ dec_text (Z.of_nat Expected)))
      else
        match bind_all Sql 1 Binds with
        | Some e => ThrowSqlError e (B "sqlite3_bind")
        | None =>
            let '(Stmt, Failure) := run_statement Sql Binds in
            Ok (MkCursor (ColumnNames_ Stmt) [] (RowsOf Stmt) Failure)
        end
  end.

(** [Statement::Step]. No caller steps again after the end or an error. *)
Definition Step (c : Cursor) : Cursor * res bool :=
  match CursorAhead c with
  | Row :: Ahead => (MkCursor (CursorNames c) Row Ahead (CursorError c), Ok true)
  | [] =>
      (c, match CursorError c with Some e => ThrowSqlError e (B "sqlite3_step") | None => Ok false end)
  end.

Definition CursorColumn (c : Cursor) (Alias : text) : option nat :=
  find_column_from 0 Alias (CursorNames c).

(** A column of the current row, by its index or by the index [FindColumn] gave. *)
Definition cell_at (c : Cursor) (n : nat) : res Column := column_at n (CursorRow c).
Definition cell_of (c : Cursor) (n : option nat) : res Column :=
  match n with Some n => cell_at c n | None => Throw column_past_end end.

(** [while (Stmt.Step())]: every row, each read as it is fetched. *)
Fixpoint rows_loop {St A} (read : list Column -> M St A) (Ahead : list (list Column))
    (Failure : option SqliteError) (Out : list A) : M St (list A) :=
  match Ahead with
  | [] => match Failure with Some e => liftR (ThrowSqlError e (B "sqlite3_step")) | None => mret Out end
  | Row :: Ahead' => a ← read Row; rows_loop read Ahead' Failure (Out ++ [a])
  end.
Definition read_rows {St A} (c : Cursor) (read : list Column -> M St A) : M St (list A) :=
  rows_loop read (CursorAhead c) (CursorError c) [].

(** [ExplainQueryPlan]: the plan's rows, without a check of the bindings. *)
Record PlanRow := MkPlanRow { PlanId : Z; PlanParent : Z; PlanDetail : text }.

Definition read_plan (Row : list Column) : M Interners PlanRow :=
  a ← liftR (column_at 0 Row);
  b ← liftR (column_at 1 Row);
  c ← liftR (column_at 3 Row);
  mret (MkPlanRow (Int_ a) (Int_ b) (Text_ c)).

Definition ExplainQueryPlan (Sql : text) : M Interners (list PlanRow) :=
  let Text := B "EXPLAIN QUERY PLAN " ++ Sql in
  match prepare_v2 Text with
  | PrepareFailed e => liftR (ThrowSqlError e (B "sqlite3_prepare"))
  | _ =>
      let '(Stmt, Failure) := run_statement Text [] in
      read_rows (MkCursor (ColumnNames_ Stmt) [] (RowsOf Stmt) Failure) read_plan
  end.

(** ** [SqlRowSource] *)

Definition MainAliases : list text :=
  [B "ea"; B "name1"; B "pseudo1"; B "asm1"; B "pseudo_primes1"; B "nodes1"; B "md1"; B "clean_assembly1"; B "clean_pseudo1";
         B "mangled1"; B "clean_micro1"; B "bytes_hash1"; B "edges1"; B "indegree1"; B "outdegree1"; B "instructions1"; B "cc1";
         B "strongly_connected1"; B "loops1"; B "constants_count1"; B "size1"; B "kgh_hash1"].
Definition DiffAliases : list text :=
  [B "ea2"; B "name2"; B "pseudo2"; B "asm2"; B "pseudo_primes2"; B "nodes2"; B "md2"; B "clean_assembly2"; B "clean_pseudo2";
         B "mangled2"; B "clean_micro2"; B "bytes_hash2"; B "edges2"; B "indegree2"; B "outdegree2"; B "instructions2"; B "cc2";
         B "strongly_connected2"; B "loops2"; B "constants_count2"; B "size2"; B "kgh_hash2"].

Definition CoveredBySelectFields (Alias : text) : bool :=
  existsb (EqualsIgnoreCaseAscii Alias) MainAliases || existsb (EqualsIgnoreCaseAscii Alias) DiffAliases.

Definition ReadNodes (Cell : option (res Column)) (Alias : text) : res (option Z) :=
  match Cell with
  | None => Ok None
  | Some Cell =>
      c ← Cell;
      match Type_ c with
      | SqlNull => Ok None
      | SqlInteger => Ok (Some (Int_ c))
      | _ => Throw (UnsupportedInput (B "row alias '" ++ Alias
               ++ B "' is not INTEGER or NULL (int() semantics not emulated)"))
      end
  end.

Definition ReadMd (Cell : option (res Column)) (Alias : text) : res (option dbl) :=
  match Cell with
  | None => Ok None
  | Some Cell =>
      c ← Cell;
      match Type_ c with
      | SqlNull => Ok None
      | SqlReal => Ok (Some (Real_ c))
      | SqlInteger => Ok (Some (d_of_Z (Int_ c)))
      | _ => Throw (UnsupportedInput (B "row alias '" ++ Alias ++ B "' is not REAL or NULL"))
      end
  end.

Record SourceColumns := MkSourceColumns {
  ColEa : nat;
  ColName1 : nat;
  ColEa2 : nat;
  ColName2 : nat;
  ColDesc : nat;
  ColNodes1 : option nat;
  ColNodes2 : option nat;
  ColMd1 : option nat;
  ColMd2 : option nat;
  DirectUtf8 : list nat;
}.

Record SqlRowSource := MkSqlRowSource {
  SourceSql : text;
  SourceBinds : list BindValue;
  Started : option (Cursor * SourceColumns);
  SourceDone : bool;
  Fetched : nat;
}.

Definition NewSqlRowSource (Sql : text) (Binds : list BindValue) : SqlRowSource :=
  MkSqlRowSource Sql Binds None false 0.

Definition Start (Sql : text) (Binds : list BindValue) : res (Cursor * SourceColumns) :=
  Stmt ← Prepare Sql Binds;
  match CursorColumn Stmt (B "ea"), CursorColumn Stmt (B "name1"), CursorColumn Stmt (B "ea2"),
        CursorColumn Stmt (B "name2"), CursorColumn Stmt (B "description") with
  | Some Ea, Some Name1, Some Ea2, Some Name2, Some Desc =>
      Ok (Stmt, MkSourceColumns Ea Name1 Ea2 Name2 Desc
        (CursorColumn Stmt (B "nodes1")) (CursorColumn Stmt (B "nodes2"))
        (CursorColumn Stmt (B "md1")) (CursorColumn Stmt (B "md2"))
        (filter (fun n => match CursorNames Stmt !! n with
                          | Some Alias => negb (CoveredBySelectFields Alias) | None => false end = true)
           (seq 0 (length (CursorNames Stmt)))))
  | _, _, _, _, _ =>
      Throw (UnsupportedInput (B "SqlRowSource: the query does not select SELECT_FIELDS (ea, name1, ea2, name2, description)"))
  end.

Definition MapAddress (Cell : Column) (Alias : text) : M Interners AddrId :=
  match Type_ Cell with
  | SqlText => InternAddr (Text_ Cell)
  | Kind =>
      throw (UnsupportedInput (B "row alias '" ++ Alias ++ B "' is "
        ++ (if bool_decide (Kind = SqlNull) then B "NULL" else B "not TEXT") ++ B " (input quirk not emulated)"))
  end.

Definition MapName (Cell : Column) (Alias : text) : M Interners NameId :=
  match Type_ Cell with
  | SqlNull => mret kNoneName
  | SqlText => InternName (Text_ Cell)
  | _ => throw (UnsupportedInput (B "row alias '" ++ Alias ++ B "' is not TEXT or NULL"))
  end.

Definition MapDesc (Cell : Column) : M Interners DescId :=
  match Type_ Cell with
  | SqlText => InternDesc (Text_ Cell)
  | _ => throw (UnsupportedInput (B "row alias 'description' is not TEXT"))
  end.

Context (Tables : sided FunctionTable).

(** The function row of a TEXT address, if the side has one. *)
Definition row_of_address (Which : Side) (Cell : Column) (ids : Interners) : Z :=
  match Type_ Cell with
  | SqlText =>
      match FindAddr (Text_ Cell) ids with
      | Some Id => default kNoRow (FindRow Id (at_side Which Tables))
      | None => kNoRow
      end
  | _ => kNoRow
  end.

Definition utf8_bad (Which : Side) (Row : Z) : res bool :=
  if bool_decide (Row = kNoRow) then Ok false
  else at_row (SelectFieldsUtf8Bad (at_side Which Tables)) (Z.to_nat Row).

Definition bad_utf8_cell (c : Column) : bool :=
  bool_decide (Type_ c = SqlText) && negb (IsValidUtf8 (Text_ c)).

(** The columns outside SELECT_FIELDS, each decoded like Python does. *)
Fixpoint check_direct (Stmt : Cursor) (Where : text) (Columns : list nat) : res unit :=
  match Columns with
  | [] => Ok tt
  | n :: Columns' =>
      c ← cell_at Stmt n;
      if bad_utf8_cell c then
        Throw (DiaphoraWouldRaise (B "fetch") (B "Could not decode to UTF-8 column '"
          ++ default [] (CursorNames Stmt !! n) ++ B "' of the row " ++ Where))
      else check_direct Stmt Where Columns'
  end.

(** The body of [SqlRowSource::Next] on the row the statement is at. *)
Definition read_row (Stmt : Cursor) (Cols : SourceColumns) : M Interners HeuristicRow :=
  ea ← liftR (cell_at Stmt (ColEa Cols));
  ea2 ← liftR (cell_at Stmt (ColEa2 Cols));
  ids ← get;
  let Row1 := row_of_address MainSide ea ids in
  let Row2 := row_of_address DiffSide ea2 ids in
  let Where := B "ea " ++ Text_ ea ++ B ", ea2 " ++ Text_ ea2 in
  bad1 ← liftR (utf8_bad MainSide Row1);
  bad ← (if bad1 : bool then mret true else liftR (utf8_bad DiffSide Row2));
  if bad : bool then
    throw (DiaphoraWouldRaise (B "fetch")
      (B "Could not decode to UTF-8 a SELECT_FIELDS column (invalid UTF-8) of the row " ++ Where))
  else
    liftR (check_direct Stmt Where (DirectUtf8 Cols));;
    Ea1 ← MapAddress ea (B "ea");
    Ea2 ← MapAddress ea2 (B "ea2");
    name1 ← liftR (cell_at Stmt (ColName1 Cols));
    Name1 ← MapName name1 (B "name1");
    name2 ← liftR (cell_at Stmt (ColName2 Cols));
    Name2 ← MapName name2 (B "name2");
    desc ← liftR (cell_at Stmt (ColDesc Cols));
    Desc ← MapDesc desc;
    Nodes1 ← liftR (ReadNodes (cell_at Stmt <$> ColNodes1 Cols) (B "nodes1"));
    Nodes2 ← liftR (ReadNodes (cell_at Stmt <$> ColNodes2 Cols) (B "nodes2"));
    Md1 ← liftR (ReadMd (cell_at Stmt <$> ColMd1 Cols) (B "md1"));
    Md2 ← liftR (ReadMd (cell_at Stmt <$> ColMd2 Cols) (B "md2"));
    mret (MkRow Ea1 Ea2 Row1 Row2 MainSide DiffSide Name1 Name2 Desc Nodes1 Nodes2 Md1 Md2).

(** [SqlRowSource::Next] after [Start]. *)
Definition next_started (r : SqlRowSource) (Stmt : Cursor) (Cols : SourceColumns) (ids : Interners)
    : SqlRowSource * Interners * res (option HeuristicRow) :=
  let with_ Stmt Done n := MkSqlRowSource (SourceSql r) (SourceBinds r) (Some (Stmt, Cols)) Done n in
  if SourceDone r then (r, ids, Ok None)
  else
    match Step Stmt with
    | (Stmt, Throw e) => (with_ Stmt false (Fetched r), ids, Throw e)
    | (Stmt, Ok false) => (with_ Stmt true (Fetched r), ids, Ok None)
    | (Stmt, Ok true) =>
        let '(ids, a) := read_row Stmt Cols ids in
        (with_ Stmt false (S (Fetched r)), ids, Row ← a; Ok (Some Row))
    end.

Definition sql_next (r : SqlRowSource) (ids : Interners)
    : SqlRowSource * Interners * res (option HeuristicRow) :=
  match Started r with
  | Some (Stmt, Cols) => next_started r Stmt Cols ids
  | None =>
      match Start (SourceSql r) (SourceBinds r) with
      | Throw e => (r, ids, Throw e)
      | Ok (Stmt, Cols) => next_started r Stmt Cols ids
      end
  end.

(** The rows ahead, whether or not the query has run yet. *)
Definition sql_remaining (r : SqlRowSource) : nat :=
  match Started r with
  | Some (Stmt, _) => length (CursorAhead Stmt)
  | None => match Start (SourceSql r) (SourceBinds r) with
            | Ok (Stmt, _) => length (CursorAhead Stmt) | Throw _ => 0 end
  end.

Lemma next_started_decreases r Stmt Cols ids r' ids' Row :
  next_started r Stmt Cols ids = (r', ids', Ok (Some Row)) -> sql_remaining r' < length (CursorAhead Stmt).
Proof.
  unfold next_started. destruct (SourceDone r); [done|]. unfold Step.
  destruct (CursorAhead Stmt) as [|row Ahead] eqn:E; [destruct (CursorError Stmt) as [e|]; [|done]|].
  - unfold ThrowSqlError. by destruct (IsEnvironmentalSqliteError _).
  - destruct (read_row _ Cols ids) as [ids1 a]. intros [= <- _ _]. unfold sql_remaining. cbn. lia.
Qed.

#[export] Program Instance SqlRowSource_source : RowSource SqlRowSource := {
  Next := sql_next;
  Remaining := sql_remaining;
}.
Next Obligation.
  intros r ids r' ids' Row. unfold sql_next, sql_remaining at 2. destruct (Started r) as [[Stmt Cols]|].
  - apply next_started_decreases.
  - destruct (Start _ _) as [[Stmt Cols]|]; [apply next_started_decreases|done].
Qed.

(** The statement, for the columns a caller reads itself. *)
Definition CurrentStatement (r : SqlRowSource) : res Cursor :=
  match Started r with Some (Stmt, _) => Ok Stmt | None => Throw column_past_end end.

(** ** [FetchFunctionRows] *)

Record FunctionRowRef := MkRowRef { RefSide : Side; RefRow : Z }.

Definition read_function_row (Address : nat) (DbName : option nat) (Default : Side) (Row : list Column)
    : M Interners FunctionRowRef :=
  Which ← liftR (match DbName with
                 | None => Ok Default
                 | Some n => c ← column_at n Row; Ok (if bool_decide (Text_ c = B "diff") then DiffSide else MainSide)
                 end);
  c ← liftR (column_at Address Row);
  ids ← get;
  let Found := row_of_address Which c ids in
  bad ← liftR (if bool_decide (Found = kNoRow) then Ok false
               else at_row (AnyColumnUtf8Bad (at_side Which Tables)) (Z.to_nat Found));
  if bad : bool then
    throw (DiaphoraWouldRaise (B "fetch")
      (B "Could not decode to UTF-8 a functions column (invalid UTF-8) of the function at address " ++ Text_ c))
  else mret (MkRowRef Which Found).

(** [Limit] is [None] for [SIZE_MAX]. A full list stops before the next step. *)
Definition limit_rows (Limit : option nat) (c : Cursor) : Cursor :=
  match Limit with
  | Some n =>
      if (n <=? length (CursorAhead c))%nat
      then MkCursor (CursorNames c) (CursorRow c) (take n (CursorAhead c)) None else c
  | None => c
  end.

Definition FetchFunctionRows (Sql : text) (Binds : list BindValue) (Default : Side) (Limit : option nat)
    : M Interners (list FunctionRowRef) :=
  if bool_decide (Limit = Some 0) then mret []
  else
    Stmt ← liftR (Prepare Sql Binds);
    match CursorColumn Stmt (B "address") with
    | None => throw (UnsupportedInput (B "FetchFunctionRows: the query does not select `address`"))
    | Some Address =>
        read_rows (limit_rows Limit Stmt)
          (read_function_row Address (CursorColumn Stmt (B "db_name")) Default)
    end.
End Database.
