(* ===== verification/EarlyStages.v ===== *)
(** * The passes before the heuristics (src/src/diff/Pipeline.cpp,
      src/src/diff/stages/EqualMatches.cpp, DirtyHeuristics.cpp, SameName.cpp,
      RemainingFunctions.cpp)

    The points and cleanups of the harness, then [find_equal_matches],
    [apply_dirty_heuristics], [find_same_name] and [find_remaining_functions] on
    the session, over a SQLite connection, the two function tables and the
    engine. Log lines are not part of the model. *)

From stdpp Require Import base numbers gmap sets list.
From Stdlib Require Import ZArith Lia.
From S2P Require Import Prelude Dbl Decimal Interner Utf8 MatchState FinalPass SessionData Consumer.
From S2P Require Import SideTables FunctionTable RatioEngine StageSql Sql.

(** ** Running parts of a session *)

Section Harness.
Context {X : Type}.

(** A program over the tables of texts. *)
Definition on_ids {A} (m : M Interners A) : M (Session X) A :=
  fun S => let '(ids, a) := m (Ids S) in (with_ids ids S, a).

(** A row source of its own, dropped at the end. *)
Definition with_source {R A} (r : R) (m : M (Session X * R) A) : M (Session X) A :=
  fun S => let '((S', _), a) := m (S, r) in (S', a).

Definition on_stages (f : StageData -> StageData) : M (Session X) unit :=
  modify (fun S => with_stages (f (Stages S)) S).
Definition on_facts (f : EarlyFacts -> EarlyFacts) : M (Session X) unit :=
  on_stages (fun D => set_Facts (f (Facts D)) D).

Definition list_sizes (st : MatchState) : nat * nat * nat :=
  (length (of_best (Lists st)), length (of_partial (Lists st)), length (of_unreliable (Lists st))).

(** [DiffSession::Point]: the counter and the trace event. *)
Definition Point (Name : text) : M (Session X) unit :=
  modify (fun S =>
    let '(b, p, u) := list_sizes (State S) in
    with_trace (Trace S ++ [PointEvent Name b p u])
      (with_stages (set_PointSeq (PointSeq (Stages S) + 1) (Stages S)) S)).

(** [DiffSession::Cleanup]. *)
Definition SessionCleanup (Site : CleanupSite) : M (Session X) unit :=
  let Line := site_line Site in
  S ← get;
  let N := (default 0 (CleanupCounters (Stages S) !! Line) + 1)%Z in
  on_stages (fun D => set_CleanupCounters (<[Line := N]> (CleanupCounters D)) D);;
  let Suffix := B "cleanup:" ++ dec_text Line ++ B ":" ++ dec_text N in
  Point (B "before:" ++ Suffix);;
  S ← get;
  st ← liftR (Cleanup (Ids S) (State S));
  modify (with_state st);;
  modify (fun S =>
    let '(b, p, u) := list_sizes (State S) in
    with_trace (Trace S ++ [CleanupEvent Line N b p u]) S);;
  Point (B "after:" ++ Suffix).

(** [LogShowSummary] and [LogFinalResults]: their percentages divide by the
    number of main functions. *)
Definition LogShowSummary : M (Session X) unit :=
  S ← get;
  if (Total1 (State S) =? 0)%Z then
    throw (DiaphoraWouldRaise (B "D:1631 ZeroDivisionError") (B "show_summary with total_functions1 == 0"))
  else mret tt.
Definition LogFinalResults : M (Session X) unit :=
  S ← get;
  if (Total1 (State S) =? 0)%Z then
    throw (DiaphoraWouldRaise (B "D:3689 ZeroDivisionError") (B "total_functions1 == 0"))
  else mret tt.
End Harness.

(** A loop over a list. *)
Fixpoint for_each {St A} (body : A -> M St unit) (l : list A) : M St unit :=
  match l with [] => mret tt | a :: l' => body a;; for_each body l' end.

Definition int_none : text :=
  B "int() argument must be a string, a bytes-like object or a real number, not 'NoneType'".

(** A node count, refused where Python's [int(None)] raises. *)
Definition RequireNodes (Nodes : option Z) (Site : text) : res Z :=
  match Nodes with Some n => Ok n | None => Throw (DiaphoraWouldRaise Site int_none) end.

(** The patch-diff hook object, loaded anew. *)
Class HookReset (X : Type) := ClearDones : X -> X.

Section Stages.
Context {X : Type} `{!Engine X, !HookReset X, !Sqlite} (Tables : sided FunctionTable).

#[local] Instance sql_source : RowSource SqlRowSource := SqlRowSource_source Tables.

(** ** [StageFindEqualMatches] *)

Record EqualRow := MkEqualRow { EqualEa : AddrId; EqualName : NameId; NodesType : SqlType; EqualNodes : Z }.

(** [fetchall]: every column of the row is decoded. *)
Fixpoint RequireDecodable (Names : list text) (Row : list Column) : res unit :=
  match Names, Row with
  | Name :: Names', Cell :: Row' =>
      if bad_utf8_cell Cell then
        Throw (DiaphoraWouldRaise (B "fetch")
          (B "OperationalError: Could not decode to UTF-8 column '" ++ Name ++ B "'"))
      else RequireDecodable Names' Row'
  | _, _ => Ok tt
  end.

Definition row_cell (n : option nat) (Row : list Column) : res Column :=
  match n with Some n => column_at n Row | None => Throw column_past_end end.

Definition read_equal_row (Q : Cursor) (Row : list Column) : M Interners EqualRow :=
  liftR (RequireDecodable (CursorNames Q) Row);;
  ea ← liftR (row_cell (CursorColumn Q (B "ea")) Row);
  Ea ← match Type_ ea with
       | SqlNull => mret kNoneAddr
       | SqlText => InternAddr (Text_ ea)
       | _ => throw (UnsupportedInput (B "find_equal_matches: a non-TEXT address is not ported"))
       end;
  name ← liftR (row_cell (CursorColumn Q (B "mangled_function")) Row);
  Nm ← match Type_ name with
       | SqlNull => mret kNoneName
       | SqlText => InternName (Text_ name)
       | _ => throw (UnsupportedInput (B "find_equal_matches: a non-TEXT mangled_function is not ported"))
       end;
  nodes ← liftR (row_cell (CursorColumn Q (B "nodes")) Row);
  mret (MkEqualRow Ea Nm (Type_ nodes) (if bool_decide (Type_ nodes = SqlInteger) then Int_ nodes else 0)).

Definition read_total (Row : list Column) : M (Session X) Z :=
  c ← liftR (column_at 0 Row);
  if bool_decide (Type_ c = SqlInteger) then mret (Int_ c)
  else throw (UnsupportedInput (B "find_equal_matches: a function count is not an INTEGER")).

Definition equal_match (Desc : DescId) (Row : EqualRow) : M (Session X) unit :=
  match NodesType Row with
  | SqlNull => throw (DiaphoraWouldRaise (B "D:1437 TypeError") int_none)
  | SqlInteger =>
      let It := MkItem (EqualEa Row) (EqualName Row) (EqualEa Row) (EqualName Row) Desc d1
                  (EqualNodes Row) (EqualNodes Row) in
      SessionAddMatch (EqualName Row) (EqualName Row) d1 It (Some Best)
  | _ => throw (UnsupportedInput (B "find_equal_matches: a non-INTEGER nodes value (int() of it is not ported)"))
  end.

Definition StageFindEqualMatches : M (Session X) unit :=
  Totals ← liftR (Prepare kSqlTotals []);
  Rows ← read_rows Totals read_total;
  match Rows with
  | [T1; T2] => modify (fun S => with_state (SetTotals T1 T2 (State S)) S)
  | _ => throw (DiaphoraWouldRaise (B "D:1419 Exception") (B "Malformed database!"))
  end;;
  Q ← liftR (Prepare kSqlEqualMatches []);
  Rows ← on_ids (read_rows Q (read_equal_row Q));
  on_facts (fun F => MkFacts (EqualDb F) (Z.of_nat (length Rows)) (Stripped F) (Patch F) (SameNameRows F)
    (SameNameSkippedSub F) (SameNameLoopRan F) (RemainingMainUnmatched F) (RemainingDiffUnmatched F)
    (RemainingQueries F));;
  Desc ← on_ids (InternDesc (B "100% equal"));
  for_each (equal_match Desc) Rows.

(** ** [StageApplyDirtyHeuristics] *)

Definition CountOf (Sql : text) : res Z :=
  Q ← Prepare Sql [];
  let '(Q, More) := Step Q in
  More ← More;
  let refused := Throw (UnsupportedInput (B "apply_dirty_heuristics: the count query returned no INTEGER")) in
  if More : bool then
    c ← cell_at Q 0;
    if bool_decide (Type_ c = SqlInteger) then
      _ ← (Step Q).2;
      Ok (Int_ c)
    else refused
  else refused.

(** [(matches * 100) / total], refused where a double would not be exact. *)
Definition Exact : Z := 2 ^ 53.
Definition PercentOf (Matches Total : Z) (Site : text) : res dbl :=
  if (Matches <? 0)%Z || (Exact / 100 <? Matches)%Z then
    Throw (UnsupportedInput (Site ++ B ": a match count above 2**53 / 100 is not ported"))
  else if (Total =? 0)%Z then
    Throw (DiaphoraWouldRaise (Site ++ B " ZeroDivisionError") (B "division by zero (total_functions1 == 0)"))
  else if (Exact <? Total)%Z || (Total <? - Exact)%Z then
    Throw (UnsupportedInput (Site ++ B ": a function count above 2**53 is not ported"))
  else Ok (ddiv (d_of_Z (Matches * 100)) (d_of_Z Total)).

Definition kSpeedupStrippedBinariesMinPercent : dbl := Eval vm_compute in d_of_Z 99.
Definition kSpeedupPatchDiffSymbolsMinPercent : dbl := Eval vm_compute in d_of_Z 90.
Definition kSpeedupPatchDiffRenamedFunctionMinRatio : dbl := Eval vm_compute in dlit 6 10.

Definition set_stripped (v : DirtyHeuristicFacts) (F : EarlyFacts) : EarlyFacts :=
  MkFacts (EqualDb F) (EqualRows F) v (Patch F) (SameNameRows F) (SameNameSkippedSub F) (SameNameLoopRan F)
    (RemainingMainUnmatched F) (RemainingDiffUnmatched F) (RemainingQueries F).
Definition set_patch (v : DirtyHeuristicFacts) (F : EarlyFacts) : EarlyFacts :=
  MkFacts (EqualDb F) (EqualRows F) (Stripped F) v (SameNameRows F) (SameNameSkippedSub F) (SameNameLoopRan F)
    (RemainingMainUnmatched F) (RemainingDiffUnmatched F) (RemainingQueries F).

Definition set_flags (f : DiffFlags -> DiffFlags) : M (Session X) unit :=
  modify (fun S => with_flags (f (Flags S)) S).

Definition StrippedFires (Percent : dbl) : bool := dge Percent kSpeedupStrippedBinariesMinPercent.
Definition PatchFires (Percent : dbl) : bool := dgt Percent kSpeedupPatchDiffSymbolsMinPercent.

Definition SearchJustStrippedBinaries : M (Session X) bool :=
  S ← get;
  let Total := Total1 (State S) in
  Matches ← liftR (CountOf kSqlStrippedCount);
  Percent ← liftR (PercentOf Matches Total (B "D:2562"));
  on_facts (set_stripped (MkDirty true Matches Total Percent (StrippedFires Percent)));;
  if StrippedFires Percent then
    set_flags (fun F => MkFlags (IsSameProcessor F) (IsPatchDiff F) true (HooksLoaded F));;
    with_source (NewSqlRowSource kSqlStrippedRows []) (AddMatchesFromQueryRatio Best Partial);;
    mret true
  else mret false.

Definition SearchPatchdiffWithSymbols : M (Session X) bool :=
  S ← get;
  let Total := Total1 (State S) in
  Matches ← liftR (CountOf kSqlPatchCount);
  Percent ← liftR (PercentOf Matches Total (B "D:2609"));
  on_facts (set_patch (MkDirty true Matches Total Percent (PatchFires Percent)));;
  if PatchFires Percent then
    set_flags (fun F => MkFlags (IsSameProcessor F) true (IsSymbolsStripped F) true);;
    modify (fun S => with_ext (ClearDones (Ext S)) S);;
    mret true
  else mret false.

Definition StageApplyDirtyHeuristics : M (Session X) bool :=
  Fired ← SearchJustStrippedBinaries;
  if Fired : bool then mret true else SearchPatchdiffWithSymbols.

(** ** [StageFindSameName] *)

Inductive MangledKind := MangledText | MangledNone | MangledBytes | MangledNumber.

Record SameNameRow := MkSameNameRow { SameRow : HeuristicRow; Kind : MangledKind; SubPrefix : bool }.

Definition mangled_of (Cell : Column) : MangledKind * bool :=
  match Type_ Cell with
  | SqlText => (MangledText, starts_with (Text_ Cell) (B "sub_"))
  | SqlNull => (MangledNone, false)
  | SqlBlob => (MangledBytes, false)
  | _ => (MangledNumber, false)
  end.

(** The column is looked up at the first row. *)
Definition mangled_entry (Row : HeuristicRow) (Q : Cursor) : res SameNameRow :=
  match CursorColumn Q (B "mangled1") with
  | None => Throw (UnsupportedInput (B "find_same_name: the query does not select mangled1"))
  | Some n => c ← cell_at Q n; let '(K, Sub) := mangled_of c in Ok (MkSameNameRow Row K Sub)
  end.

(** [while (Source.Next(Row))]. *)
Fixpoint same_name_rows (fuel : nat) (Rows : list SameNameRow) : M (Session X * SqlRowSource) (list SameNameRow) :=
  match fuel with
  | O => mret Rows
  | S fuel' =>
      Next_ ← next_row;
      match Next_ with
      | None => mret Rows
      | Some Row =>
          t ← get;
          Q ← liftR (CurrentStatement t.2);
          Entry ← liftR (mangled_entry Row Q);
          same_name_rows fuel' (Rows ++ [Entry])
      end
  end.

Definition kMatchesBonusRatio : dbl := Eval vm_compute in dlit 1 100.

(** The bonus only when the sum stays below 1.0. *)
Definition with_bonus (Ratio : dbl) : dbl :=
  if dlt (dadd Ratio kMatchesBonusRatio) d1 then dadd Ratio kMatchesBonusRatio else Ratio.

Definition set_same_name (Rows Skipped : Z) (Ran : bool) (F : EarlyFacts) : EarlyFacts :=
  MkFacts (EqualDb F) (EqualRows F) (Stripped F) (Patch F) Rows Skipped Ran
    (RemainingMainUnmatched F) (RemainingDiffUnmatched F) (RemainingQueries F).

(** [name.startswith("sub_")] of the value the row holds. *)
Definition skipped_sub (IgnoreSub : bool) (Entry : SameNameRow) : res bool :=
  if IgnoreSub then
    match Kind Entry with
    | MangledNone => Throw (DiaphoraWouldRaise (B "D:2179 AttributeError") (B "'NoneType' object has no attribute 'startswith'"))
    | MangledBytes => Throw (DiaphoraWouldRaise (B "D:2179 TypeError")
        (B "startswith first arg must be bytes or a tuple of bytes, not str"))
    | MangledNumber => Throw (DiaphoraWouldRaise (B "D:2179 AttributeError")
        (B "the mangled1 value has no attribute 'startswith'"))
    | MangledText => Ok (SubPrefix Entry)
    end
  else Ok false.

Definition same_name_match (Entry : SameNameRow) : M (Session X) unit :=
  let Row := SameRow Entry in
  S ← get;
  Skip ← liftR (skipped_sub (IgnoreSubNames (Config S)) Entry);
  if Skip : bool then
    on_facts (fun F => set_same_name (SameNameRows F) (SameNameSkippedSub F + 1) (SameNameLoopRan F) F)
  else
    Checked ← CheckMatch Row;
    match Checked with
    | None => mret tt
    | Some Ratio =>
        N1 ← liftR (RequireNodes (RowNodes1 Row) (B "D:2192 TypeError"));
        N2 ← liftR (RequireNodes (RowNodes2 Row) (B "D:2193 TypeError"));
        let It R := MkItem (RowEa1 Row) (RowName1 Row) (RowEa2 Row) (RowName2 Row) (RowDesc Row) R N1 N2 in
        if deq Ratio d1 then SessionAddMatch (RowName1 Row) (RowName2 Row) Ratio (It d1) (Some Best)
        else
          let R := with_bonus Ratio in
          SessionAddMatch (RowName1 Row) (RowName2 Row) R (It R) (Some Partial)
    end.

Definition StageFindSameName : M (Session X) unit :=
  Rows ← with_source (NewSqlRowSource kSqlSameName [])
           (fun t => same_name_rows (S (Remaining t.2)) [] t);
  on_facts (fun F => set_same_name (Z.of_nat (length Rows)) (SameNameSkippedSub F) (SameNameLoopRan F) F);;
  S ← get;
  if bool_decide (Rows = []) || AllFunctionsMatched (State S) then mret tt
  else
    on_facts (fun F => set_same_name (SameNameRows F) (SameNameSkippedSub F) true F);;
    for_each same_name_match Rows.

(** ** [StageFindRemainingFunctions] *)

Record UnmatchedKey := MkUnmatchedKey { KeyEa : AddrId; KeyName : NameId }.
#[export] Instance UnmatchedKey_eq_dec : EqDecision UnmatchedKey.
Proof. solve_decision. Defined.

Definition RemainingTextCell (Cell : Column) (ColumnName : text) : res (option text) :=
  match Type_ Cell with
  | SqlNull => Ok None
  | SqlText =>
      if negb (IsValidUtf8 (Text_ Cell)) then
        Throw (DiaphoraWouldRaise (B "fetch")
          (B "OperationalError: Could not decode to UTF-8 column '" ++ ColumnName ++ B "'"))
      else Ok (Some (Text_ Cell))
  | _ => Throw (UnsupportedInput (B "get_unmatched_functions: a non-TEXT value in column '" ++ ColumnName
                                  ++ B "' is not ported"))
  end.

(** A text cell by the alias of its column. *)
Definition named_cell (Q : Cursor) (Alias : text) (Row : list Column) : res (option text) :=
  c ← row_cell (CursorColumn Q Alias) Row;
  RemainingTextCell c (match CursorColumn Q Alias with Some n => default [] (CursorNames Q !! n) | None => [] end).

Definition read_unmatched (Q : Cursor) (Row : list Column) : M Interners (bool * UnmatchedKey) :=
  Db ← liftR (named_cell Q (B "db_name") Row);
  name ← liftR (named_cell Q (B "name") Row);
  Nm ← (match name with Some t => InternName t | None => mret kNoneName end);
  address ← liftR (named_cell Q (B "address") Row);
  Ea ← (match address with Some t => InternAddr t | None => mret kNoneAddr end);
  mret (bool_decide (Db = Some (B "diff")), MkUnmatchedKey Ea Nm).

(** The rows whose name is in no matched pair, without repetition. *)
Fixpoint leftovers (st : MatchState) (Rows : list (bool * UnmatchedKey)) (Main Diff : list UnmatchedKey)
    : list UnmatchedKey * list UnmatchedKey :=
  match Rows with
  | [] => (Main, Diff)
  | (IsDiff, Key) :: Rows' =>
      if bool_decide (is_Some (FindEntry (KeyName Key) (if IsDiff : bool then Secondary st else Primary st)))
      then leftovers st Rows' Main Diff
      else if IsDiff then leftovers st Rows' Main (if bool_decide (Key ∈ Diff) then Diff else Diff ++ [Key])
      else leftovers st Rows' (if bool_decide (Key ∈ Main) then Main else Main ++ [Key]) Diff
  end.

Definition GetUnmatchedFunctions : M (Session X) (list UnmatchedKey * list UnmatchedKey) :=
  Q ← liftR (Prepare kSqlUnmatchedUnion []);
  Rows ← on_ids (read_rows Q (read_unmatched Q));
  S ← get;
  mret (leftovers (State S) Rows [] []).

Definition BindOfAddress (ids : Interners) (Ea : AddrId) : res BindValue :=
  if bool_decide (Ea = kNoneAddr) then Ok BindNull else t ← AddrText Ea ids; Ok (BindText t).

Definition set_remaining (Main Diff : nat) (Queries : Z) (F : EarlyFacts) : EarlyFacts :=
  MkFacts (EqualDb F) (EqualRows F) (Stripped F) (Patch F) (SameNameRows F) (SameNameSkippedSub F)
    (SameNameLoopRan F) Main Diff Queries.

Definition remaining_pair (Heur : text) (Main Diff : UnmatchedKey) : M (Session X) unit :=
  S ← get;
  Ea1 ← liftR (BindOfAddress (Ids S) (KeyEa Main));
  Ea2 ← liftR (BindOfAddress (Ids S) (KeyEa Diff));
  on_facts (fun F => set_remaining (RemainingMainUnmatched F) (RemainingDiffUnmatched F) (RemainingQueries F + 1) F);;
  with_source (NewSqlRowSource kSqlRemainingPair [BindText Heur; Ea1; Ea2])
    (AddMatchesInternal Best (Some Partial) (Some kSpeedupPatchDiffRenamedFunctionMinRatio)).

(** [name1.startswith("sub_")]. *)
Definition sub_name (ids : Interners) (Nm : NameId) : res bool :=
  if bool_decide (Nm = kNoneName) then
    Throw (DiaphoraWouldRaise (B "D:2691 AttributeError") (B "'NoneType' object has no attribute 'startswith'"))
  else t ← NameText Nm ids; Ok (starts_with t (B "sub_")).

Definition SearchRemainingFunctions (MainUnmatched DiffUnmatched : list UnmatchedKey) (Heur : text)
    : M (Session X) unit :=
  for_each (fun Main =>
    S ← get;
    Sub ← liftR (sub_name (Ids S) (KeyName Main));
    if Sub : bool then for_each (remaining_pair Heur Main) DiffUnmatched else mret tt) MainUnmatched.

Definition StageFindRemainingFunctions : M (Session X) unit :=
  '(MainUnmatched, DiffUnmatched) ← GetUnmatchedFunctions;
  on_facts (fun F => set_remaining (length MainUnmatched) (length DiffUnmatched) (RemainingQueries F) F);;
  S ← get;
  if IsPatchDiff (Flags S) then
    SearchRemainingFunctions MainUnmatched DiffUnmatched
      (B "Renamed or anonymous function match in patch diffing session")
  else mret tt.
End Stages.
