(* ===== verification/TierStages.v ===== *)
(** * The heuristic tiers (src/src/diff/stages/HeuristicTiers.cpp,
      src/src/diff/stages/SmallDifferences.cpp)

    [run_heuristics_for_category] with its runnable list, run back to front, each
    heuristic cut short by the first Python exception, and
    [search_small_differences] with the batches of [fetchmany(1000)]. *)

From stdpp Require Import base numbers gmap sets list.
From Stdlib Require Import ZArith Lia.
From S2P Require Import Prelude Dbl Decimal Interner MatchState SessionData Consumer PyValues PyJson.
From S2P Require Import SideTables FunctionTable RatioEngine StageSql Sql EarlyStages.

Section Tiers.
Context {X : Type} `{!Engine X, !Sqlite} (Tables : sided FunctionTable).

#[local] Instance sql_source : RowSource SqlRowSource := SqlRowSource_source Tables.

(** ** The runnable heuristics *)

Definition ChoosersFor (Category : HeurCategory) : Chooser * Chooser :=
  match Category with CatUnreliable => (Partial, Unreliable) | _ => (Best, Partial) end.

(** Nothing runs while the list is built, so [all_functions_matched] is the same
    at every entry. *)
Fixpoint runnable_loop (C : DiffConfig) (F : DiffFlags) (AllMatched : bool) (Cat : HeurCategory)
    (Specs : list HeuristicSpec) (Runnable : list Z) : res (list Z) :=
  match Specs with
  | [] => Ok Runnable
  | Spec :: Specs' =>
      if AllMatched then Ok Runnable
      else if negb (bool_decide (Category Spec = Cat)) then runnable_loop C F AllMatched Cat Specs' Runnable
      else if bool_decide (Type_of Spec = RatioMax \/ Type_of Spec = RatioMaxTrusted) && negb (HasMin Spec) then
        Throw (DiaphoraWouldRaise (B "D:1495 KeyError") (B "'min' missing in heuristic " ++ dec_text (HeurId Spec)))
      else if FlagUnreliable Spec && negb (Unreliable_ C) then runnable_loop C F AllMatched Cat Specs' Runnable
      else if FlagSlow Spec && negb (SlowHeuristics C) then runnable_loop C F AllMatched Cat Specs' Runnable
      else if FlagSameCpu Spec && negb (IsSameProcessor F) then runnable_loop C F AllMatched Cat Specs' Runnable
      else runnable_loop C F AllMatched Cat Specs' (Runnable ++ [HeurId Spec])
  end.

Definition RunnableHeuristics (Cat : HeurCategory) : M (Session X) (list Z) :=
  S ← get;
  liftR (runnable_loop (Config S) (Flags S) (AllFunctionsMatched (State S)) Cat Heuristics []).

(** ** One heuristic *)

Definition run_heuristic (Spec : HeuristicSpec) : M (Session X) unit :=
  let '(Best_, Partial_) := ChoosersFor (Category Spec) in
  S ← get;
  let Rows := NewSqlRowSource (ApplyPostfix (HeurSql Spec) (Postfix (Config S))) [] in
  match Type_of Spec with
  | NoFps => with_source Rows (AddMatchesFromQuery Best_)
  | RatioType => with_source Rows (AddMatchesFromQueryRatio Best_ Partial_)
  | RatioMax => with_source Rows (AddMatchesFromQueryRatioMax Best_ Partial_ (Min Spec))
  | RatioMaxTrusted => with_source Rows (AddMatchesFromQueryRatioMaxTrusted (Min Spec))
  end.

(** The exception of a worker ends its heuristic only. *)
Definition truncated (Id : Z) (m : M (Session X) unit) : M (Session X) unit :=
  fun S =>
    match m S with
    | (S', Throw (DiaphoraWouldRaise Site Detail)) =>
        (with_stages (set_Truncations (Truncations (Stages S') ++ [MkTruncation Id Site Detail]) (Stages S')) S', Ok tt)
    | other => other
    end.

Definition StageRunSingleHeuristic (Id : Z) : M (Session X) unit :=
  if (Id <? 0)%Z || (Z.of_nat (length Heuristics) <=? Id)%Z then
    throw (UnsupportedInput (B "heuristic id " ++ dec_text Id ++ B " is not an index of HEURISTICS (0.."
      ++ dec_text (Z.of_nat (length Heuristics) - 1) ++ B ")"))
  else
    Spec ← liftR (Heuristic Id);
    truncated Id (run_heuristic Spec).

Definition heuristic_step (Id : Z) : M (Session X) unit :=
  let Label := B "heuristic:" ++ dec_text Id in
  Point (B "before:" ++ Label);;
  StageRunSingleHeuristic Id;;
  Point (B "after:" ++ Label).

(** [targets.pop()] takes the last entry. *)
Definition StageRunHeuristicsForCategory (Cat : HeurCategory) : M (Session X) unit :=
  Runnable ← RunnableHeuristics Cat;
  for_each heuristic_step (reverse Runnable);;
  SessionCleanup L1551;;
  LogShowSummary;;
  Point (B "after:run_heuristics_for_category:" ++ CategoryName Cat).

(** ** [ResultIter] *)

Abbreviation T := (Session X * SqlRowSource)%type.

Record SmallRow := MkSmallRow { SmallRow_ : HeuristicRow; FNames : option text; DfNames : option text }.

Definition kArraySize : nat := 1000.

(** The rows of the batch not handed out yet, the row fetched ahead, its deferred
    exception, and whether the cursor is exhausted. *)
Record ResultIter := MkIter {
  Batch : list SmallRow;
  AheadRow : option SmallRow;
  Deferred : option exn;
  Exhausted : bool;
}.
Definition NewResultIter : ResultIter := MkIter [] None None false.

Definition NamesCell (Q : Cursor) (n : nat) (Alias : text) : res (option text) :=
  c ← cell_at Q n;
  match Type_ c with
  | SqlNull => Ok None
  | SqlText => Ok (Some (Text_ c))
  | SqlBlob =>
      Throw (UnsupportedInput (B "search_small_differences: " ++ Alias ++ B " is a BLOB (json.loads(bytes) not ported)"))
  | _ =>
      Throw (DiaphoraWouldRaise (B "D:2119-2120 TypeError")
        (B "the JSON object must be str, bytes or bytearray (" ++ Alias ++ B ")"))
  end.

(** One row through the source, with its names columns. *)
Definition FetchSmall : M T (option SmallRow) :=
  Row ← next_row;
  match Row with
  | None => mret None
  | Some Row =>
      t ← get;
      Q ← liftR (CurrentStatement t.2);
      match CursorColumn Q (B "f_names"), CursorColumn Q (B "df_names") with
      | Some F, Some Df =>
          f ← liftR (NamesCell Q F (B "f_names"));
          df ← liftR (NamesCell Q Df (B "df_names"));
          mret (Some (MkSmallRow Row f df))
      | _, _ => throw (UnsupportedInput (B "search_small_differences: the query lacks f_names / df_names"))
      end
  end.

(** Rows until [n] more are there or the cursor ends ([true]). *)
Fixpoint fill_batch (n : nat) (Rows : list SmallRow) : M T (list SmallRow * bool) :=
  match n with
  | O => mret (Rows, false)
  | S n' =>
      Row ← FetchSmall;
      match Row with
      | None => mret (Rows, true)
      | Some Row => fill_batch n' (Rows ++ [Row])
      end
  end.

(** The row after a full batch: a failed step or an environment failure loses the
    batch, any other exception belongs to the next one. *)
Definition look_ahead (Rows : list SmallRow) : M T ResultIter :=
  fun t =>
    match FetchSmall t with
    | (t', Ok (Some Row)) => (t', Ok (MkIter Rows (Some Row) None false))
    | (t', Ok None) => (t', Ok (MkIter Rows None None true))
    | (t', Throw (DiaphoraWouldRaise Site Detail)) =>
        if bool_decide (Site = B "sqlite3_step") then (t', Throw (DiaphoraWouldRaise Site Detail))
        else (t', Ok (MkIter Rows None (Some (DiaphoraWouldRaise Site Detail)) false))
    | (t', Throw (IoFailure What)) => (t', Throw (IoFailure What))
    | (t', Throw e) => (t', Ok (MkIter Rows None (Some e) false))
    end.

Definition Fill (I : ResultIter) : M T ResultIter :=
  match Deferred I with
  | Some e => throw e
  | None =>
      let Rows := match AheadRow I with Some Row => [Row] | None => [] end in
      '(Rows, Ended) ← (if Exhausted I then mret (Rows, true) else fill_batch (kArraySize - length Rows) Rows);
      if Ended : bool then mret (MkIter Rows None None true) else look_ahead Rows
  end.

Definition hand_out (I : ResultIter) : option SmallRow * ResultIter :=
  match Batch I with
  | [] => (None, I)
  | Row :: Rows => (Some Row, MkIter Rows (AheadRow I) (Deferred I) (Exhausted I))
  end.

(** [ResultIter::Next]. *)
Definition IterNext (I : ResultIter) : M T (option SmallRow * ResultIter) :=
  match Batch I with
  | _ :: _ => mret (hand_out I)
  | [] =>
      if Exhausted I && bool_decide (Deferred I = None) && match AheadRow I with None => true | Some _ => false end
      then mret (None, I)
      else I ← Fill I; mret (hand_out I)
  end.

(** ** [search_small_differences] *)

Definition NamesSet (Text : option text) (Site : text) : res PySet :=
  match Text with
  | None =>
      Throw (DiaphoraWouldRaise (Site ++ B " TypeError")
        (B "the JSON object must be str, bytes or bytearray, not NoneType"))
  | Some t => Items ← loads_list t; PySetFromList Items
  end.

(** The share of common names. *)
Definition names_ratio (S1 S2 : PySet) : res dbl :=
  let Total := PySetSize S1 `max` PySetSize S2 in
  Commons ← PySetIntersectionSize S1 S2;
  if (Total =? 0)%nat then Throw (DiaphoraWouldRaise (B "D:2123 ZeroDivisionError") (B "float division by zero"))
  else Ok (ddiv (dmul (d_of_Z (Z.of_nat Commons)) d1) (d_of_Z (Z.of_nat Total))).

Definition small_match (Current : SmallRow) : M (Session X) unit :=
  let Row := SmallRow_ Current in
  N1 ← liftR (RequireNodes (RowNodes1 Row) (B "D:2116 TypeError"));
  N2 ← liftR (RequireNodes (RowNodes2 Row) (B "D:2117 TypeError"));
  S1 ← liftR (NamesSet (FNames Current) (B "D:2119"));
  S2 ← liftR (NamesSet (DfNames Current) (B "D:2120"));
  NamesRatio ← liftR (names_ratio S1 S2);
  S ← get;
  better ← liftR (HasBetterMatch (Ids S) (RowName1 Row) (RowName2 Row) NamesRatio (State S));
  if (better : bool) || negb (dge NamesRatio kDefaultPartialRatio) then mret tt
  else
    Checked ← CheckMatch Row;
    match Checked with
    | None => mret tt
    | Some R =>
        Ea ← StrOfEa (RowEa1 Row);
        let It := MkItem Ea (RowName1 Row) (RowEa2 Row) (RowName2 Row) (RowDesc Row) R N1 N2 in
        SessionAddMatch (RowName1 Row) (RowName2 Row) R It (Some (if deq R d1 then Best else Partial))
    end.

(** [while (Current = Rows.Next())]. *)
Fixpoint small_loop (fuel : nat) (I : ResultIter) : M T unit :=
  match fuel with
  | O => mret tt
  | S fuel' =>
      '(Current, I) ← IterNext I;
      match Current with
      | None => mret tt
      | Some Row => on_session (small_match Row);; small_loop fuel' I
      end
  end.

Definition SearchSmallDifferencesWith (Sql : text) : M (Session X) unit :=
  with_source (NewSqlRowSource Sql [])
    (fun t => small_loop (S (Remaining t.2)) NewResultIter t).

Definition StageSearchSmallDifferences : M (Session X) unit := SearchSmallDifferencesWith kSqlSmallDifferences.

(** ** [find_partial_matches] *)

Definition StageFindPartialMatchesCategory : M (Session X) unit := StageRunHeuristicsForCategory CatPartial.

Definition StageFindPartialMatchesSmallDifferences : M (Session X) unit :=
  S ← get;
  if SlowHeuristics (Config S) then
    Point (B "before:search_small_differences");;
    StageSearchSmallDifferences;;
    Point (B "after:search_small_differences")
  else mret tt.

Definition StageFindPartialMatches : M (Session X) unit :=
  StageFindPartialMatchesCategory;;
  StageFindPartialMatchesSmallDifferences.
End Tiers.
