(* ===== verification/LoopStages.v ===== *)
(** * The stages of the convergence loop (src/src/diff/stages/CalleeDiffing.cpp,
      RelatedConstants.cpp, RelatedCompilationUnit.cpp, LocalAffinity.cpp)

    [find_matches_diffing], [find_related_matches],
    [find_related_compilation_unit] and [find_locally_affine_functions]. The call
    counts kept for reports, the installed order of constants of a replay and the
    memo of the query plan are not modelled. *)

From stdpp Require Import base numbers gmap sets list.
From Stdlib Require Import ZArith Lia.
From S2P Require Import Prelude Dbl Decimal Interner Utf8 PyInt TextDiff MatchState SessionData Consumer PyFloat PyValues PyJson.
From S2P Require Import SideTables FunctionTable RatioEngine StageSql Sql EarlyStages.

Section Loop.
Context {X : Type} `{!Engine X, !Sqlite} (Tables : sided FunctionTable).

#[local] Instance sql_source : RowSource SqlRowSource := SqlRowSource_source Tables.

Abbreviation Main := (main_of Tables).
Abbreviation Diff := (diff_of Tables).

Definition kRelatedMatchesMinRatio : dbl := Eval vm_compute in dlit 8 10.

(** ** [get_function_row] *)

Definition BindName (ids : Interners) (Nm : NameId) : res BindValue :=
  if bool_decide (Nm = kNoneName) then Ok BindNull else t ← NameText Nm ids; Ok (BindText t).

(** A Python exception of the fetch counts as no row. *)
Definition FetchOneByName (Which : Side) (Bind : BindValue) : M Interners (list FunctionRowRef) :=
  fun ids =>
    match FetchFunctionRows Tables (match Which with MainSide => kSqlFunctionRowMain | DiffSide => kSqlFunctionRowDiff end)
            [Bind] Which (Some 1) ids with
    | (ids, Throw (DiaphoraWouldRaise _ _)) => (ids, Ok [])
    | other => other
    end.

Definition GetFunctionRow (Refusal : text) (Which : Side) (Nm : NameId) : M (Session X) (option Z) :=
  S ← get;
  Bind ← liftR (BindName (Ids S) Nm);
  Rows ← on_ids (FetchOneByName Which Bind);
  match Rows with
  | [] => mret None
  | Ref :: _ => if bool_decide (RefRow Ref = kNoRow) then throw (UnsupportedInput Refusal) else mret (Some (RefRow Ref))
  end.

(** ** [find_related_matches] *)

Definition related_refusal : text :=
  B "get_function_row: the fetched row's address is not a TEXT address of the export".

Definition ConstantsCountPositive (T : FunctionTable) (Row : nat) (Site : text) : res bool :=
  n ← IntNull Row (ConstantsCount T);
  if n : bool then
    Throw (DiaphoraWouldRaise Site (B "TypeError: '>' not supported between instances of 'NoneType' and 'int'"))
  else
    bad ← at_row (NotInteger (ConstantsCount T)) Row;
    if bad : bool then Throw (UnsupportedInput (Site ++ B ": functions.constants_count is not INTEGER (not ported)"))
    else v ← at_row (IntValue (ConstantsCount T)) Row; Ok (0 <? v)%Z.

Definition ConstantsSet (T : FunctionTable) (Row : nat) (Site : text) : res PySet :=
  Cell ← CellOf (Constants T) Row;
  if CellNull Cell then
    Throw (DiaphoraWouldRaise Site (B "TypeError: the JSON object must be str, bytes or bytearray, not NoneType"))
  else if CellBlob Cell then
    Throw (UnsupportedInput (Site ++ B ": functions.constants is a BLOB (json.loads(bytes) not ported)"))
  else Items ← loads_list (CellBytes Cell); PySetFromList Items.

(** A lone surrogate cannot be bound. *)
Fixpoint RequireBindableStr (Text : text) (Site : text) : res unit :=
  match Text with
  | Lead :: ((Next_ :: _) as Text') =>
      if bool_decide (Lead = xed) && (0xA0 <=? code Next_)%Z && (code Next_ <=? 0xBF)%Z then
        Throw (DiaphoraWouldRaise Site (B "UnicodeEncodeError: 'utf-8' codec can't encode a surrogate: surrogates not allowed"))
      else RequireBindableStr Text' Site
  | _ => Ok tt
  end.

Definition related_constant (Text : text) : M (Session X) unit :=
  liftR (RequireBindableStr Text (B "D:3390 cur.execute(str(constant))"));;
  with_source (NewSqlRowSource kSqlRelatedConstants [BindText Text]) (AddMatchesInternal Best (Some Partial) None).

Definition FindRelatedConstants (MainRow DiffRow : nat) : M (Session X) unit :=
  MainConsts ← liftR (ConstantsSet Main MainRow (B "D:3370 set(json.loads(main constants))"));
  DiffConsts ← liftR (ConstantsSet Diff DiffRow (B "D:3371 set(json.loads(diff constants))"));
  InterConsts ← liftR (PySetIntersection MainConsts DiffConsts);
  Texts ← liftR (map_res PyStr InterConsts);
  for_each related_constant Texts.

Definition both_counts_positive (MainRow DiffRow : nat) : res bool :=
  a ← ConstantsCountPositive Main MainRow (B "D:3493 main constants_count > 0");
  if a : bool then ConstantsCountPositive Diff DiffRow (B "D:3493 diff constants_count > 0") else Ok false.

(** The walk over one category: [dones] and an early end. *)
Fixpoint related_loop (Sorted : list Item) (Dones : gset text) : M (Session X) (gset text) :=
  match Sorted with
  | [] => mret Dones
  | Match :: Sorted' =>
      S ← get;
      Key ← liftR (pair_key (Ids S) Match);
      if bool_decide (Key ∈ Dones) then related_loop Sorted' Dones
      else
        let Dones := {[Key]} ∪ Dones in
        if dlt (Ratio Match) kRelatedMatchesMinRatio then mret Dones
        else
          MainRow ← GetFunctionRow related_refusal MainSide (Name1 Match);
          DiffRow ← GetFunctionRow related_refusal DiffSide (Name2 Match);
          match MainRow, DiffRow with
          | Some M_, Some D_ =>
              Both ← liftR (both_counts_positive (Z.to_nat M_) (Z.to_nat D_));
              (if Both : bool then FindRelatedConstants (Z.to_nat M_) (Z.to_nat D_) else mret tt);;
              related_loop Sorted' Dones
          | _, _ => related_loop Sorted' Dones
          end
  end.

Definition StageFindRelatedMatches : M (Session X) unit :=
  SessionCleanup L3471;;
  S ← get;
  Dones ← related_loop (SortedResults Best (State S)) ∅;
  S ← get;
  _ ← related_loop (SortedResults Partial (State S)) Dones;
  mret tt.

(** ** [CuReplaySource] *)

Definition kCuHeuristic : text := B "Related compilation unit".

(** The rows whose address, cast to REAL, lies in the range. *)
Fixpoint rows_in_range (T : FunctionTable) (Lo Hi : dbl) (Rows : list nat) : res (list nat) :=
  match Rows with
  | [] => Ok []
  | Row :: Rows' =>
      null ← at_row (AddressSqlNull T) Row;
      if null : bool then rows_in_range T Lo Hi Rows'
      else
        x ← at_row (AddressSqlReal T) Row;
        Rest ← rows_in_range T Lo Hi Rows';
        Ok (if dge x Lo && dge Hi x then Row :: Rest else Rest)
  end.
Definition RowsInRange (T : FunctionTable) (Lo Hi : dbl) : res (list nat) := rows_in_range T Lo Hi (seq 0 (Count T)).

Record CuReplaySource := MkCuSource {
  CuRows1 : list nat;
  CuRows2 : list nat;
  Outer : nat;
  Inner : nat;
  CuDesc : DescId;
}.

Definition cu_nodes (Column_ : IntColumn) (R : nat) (Alias : text) : res (option Z) :=
  n ← IntNull R Column_;
  if n : bool then Ok None
  else
    bad ← at_row (NotInteger Column_) R;
    if bad : bool then
      Throw (UnsupportedInput (B "row alias '" ++ Alias ++ B "' is not INTEGER or NULL (int() semantics not emulated)"))
    else v ← at_row (IntValue Column_) R; Ok (Some v).

Definition cu_md (T : FunctionTable) (R : nat) : res (option dbl) :=
  n ← at_row (MdSqlNull T) R;
  if n : bool then Ok None else v ← at_row (MdSqlReal T) R; Ok (Some v).

(** The refusal of a cell that is a BLOB. *)
Definition refuse_blob (Blob : bool) (What : text) : res unit := if Blob then Throw (UnsupportedInput What) else Ok tt.

Definition cu_fill (Desc : DescId) (R1 R2 : nat) : res HeuristicRow :=
  Blob1 ← at_row (IsBlob (Address Main)) R1;
  Blob2 ← at_row (IsBlob (Address Diff)) R2;
  bad1 ← (if Blob1 : bool then Ok false else at_row (SelectFieldsUtf8Bad Main) R1);
  bad ← (if bad1 : bool then Ok true
         else if Blob2 : bool then Ok false else at_row (SelectFieldsUtf8Bad Diff) R2);
  if bad : bool then
    Throw (DiaphoraWouldRaise (B "fetch") (B "Could not decode to UTF-8 a SELECT_FIELDS column (invalid UTF-8)"))
  else
    _ ← refuse_blob Blob1 (B "row alias 'ea' is not TEXT (input quirk not emulated)");
    _ ← refuse_blob Blob2 (B "row alias 'ea2' is not TEXT (input quirk not emulated)");
    Ea1 ← at_row (AddrIdOf Main) R1;
    Ea2 ← at_row (AddrIdOf Diff) R2;
    nb1 ← at_row (IsBlob (Name_ Main)) R1;
    _ ← refuse_blob nb1 (B "row alias 'name1' is not TEXT or NULL");
    nb2 ← at_row (IsBlob (Name_ Diff)) R2;
    _ ← refuse_blob nb2 (B "row alias 'name2' is not TEXT or NULL");
    Name1 ← at_row (NameIdOf Main) R1;
    Name2 ← at_row (NameIdOf Diff) R2;
    Nodes1 ← cu_nodes (Nodes Main) R1 (B "nodes1");
    Nodes2 ← cu_nodes (Nodes Diff) R2 (B "nodes2");
    Md1 ← cu_md Main R1;
    Md2 ← cu_md Diff R2;
    Ok (MkRow Ea1 Ea2 (Z.of_nat R1) (Z.of_nat R2) MainSide DiffSide Name1 Name2 Desc Nodes1 Nodes2 Md1 Md2).

(** The inner index advances, the outer one when a row of the main side is done. *)
Definition cu_advance (r : CuReplaySource) : CuReplaySource :=
  if (S (Inner r) =? length (CuRows2 r))%nat
  then MkCuSource (CuRows1 r) (CuRows2 r) (S (Outer r)) 0 (CuDesc r)
  else MkCuSource (CuRows1 r) (CuRows2 r) (Outer r) (S (Inner r)) (CuDesc r).

Definition cu_next (r : CuReplaySource) (ids : Interners) : CuReplaySource * Interners * res (option HeuristicRow) :=
  if bool_decide (CuRows2 r = []) || (length (CuRows1 r) <=? Outer r)%nat then (r, ids, Ok None)
  else
    match (R1 ← at_row (CuRows1 r) (Outer r); R2 ← at_row (CuRows2 r) (Inner r); cu_fill (CuDesc r) R1 R2) with
    | Throw e => (r, ids, Throw e)
    | Ok Row => (cu_advance r, ids, Ok (Some Row))
    end.

(** The pairs ahead. *)
Definition cu_remaining (r : CuReplaySource) : nat :=
  (length (CuRows1 r) - Outer r) * length (CuRows2 r) - Inner r.

#[export] Program Instance CuReplaySource_source : RowSource CuReplaySource := {
  Next := cu_next;
  Remaining := cu_remaining;
}.
Next Obligation.
  intros r ids r' ids' Row. unfold cu_next, cu_remaining.
  destruct (_ || _) eqn:E; [done|]. bool_props. unfold at_row.
  destruct (CuRows1 r !! Outer r); [|done]. cbn. destruct (CuRows2 r !! Inner r) as [x|] eqn:Ei; [|done]. cbn.
  destruct (cu_fill _ _ _); [|done]. intros [= <- _ _]. apply lookup_lt_Some in Ei.
  unfold cu_advance. destruct (Nat.eqb_spec (S (Inner r)) (length (CuRows2 r))); cbn; nia.
Qed.

(** ** [find_related_compilation_unit] *)

(** The plan the native replay stands for: [SCAN f] then [SCAN df]. *)
Definition plan_ok (Plan : list PlanRow) : bool :=
  match Plan with
  | [P0; P1] =>
      bool_decide (PlanDetail P0 = B "SCAN f") && bool_decide (PlanDetail P1 = B "SCAN df") &&
      (PlanParent P0 =? 0)%Z && (PlanParent P1 =? 0)%Z
  | _ => false
  end.
Definition CuReplayPlanOk : M Interners bool :=
  fun ids =>
    match ExplainQueryPlan kSqlCuCartesian ids with
    | (ids, Ok Plan) => (ids, Ok (plan_ok Plan))
    | (ids, Throw (DiaphoraWouldRaise _ _)) => (ids, Ok false)
    | (ids, Throw e) => (ids, Throw e)
    end.

Fixpoint decodable (Site : text) (Names : list text) (Row : list Column) : res unit :=
  match Names, Row with
  | Name :: Names', Cell :: Row' =>
      if bad_utf8_cell Cell then
        Throw (DiaphoraWouldRaise Site (B "OperationalError: Could not decode to UTF-8 column '" ++ Name ++ B "'"))
      else decodable Site Names' Row'
  | _, _ => Ok tt
  end.

(** The first compilation unit of a function: its two bounds. *)
Definition CuLookup (Sql : text) (Bind : BindValue) (Site : text) : res (option (SqlCell * SqlCell)) :=
  Stmt ← Prepare Sql [Bind];
  let '(Stmt, More) := Step Stmt in
  More ← More;
  if More : bool then
    _ ← decodable Site (CursorNames Stmt) (CursorRow Stmt);
    match CursorColumn Stmt (B "start_ea"), CursorColumn Stmt (B "end_ea") with
    | Some Start_, Some End_ =>
        a ← cell_at Stmt Start_;
        b ← cell_at Stmt End_;
        Ok (Some (Cell a, Cell b))
    | _, _ => Throw (UnsupportedInput (B "related CU lookup: the query does not select start_ea / end_ea"))
    end
  else Ok None.

Definition parse_float (Bytes Site : text) : res dbl :=
  Value ← PyFloat Bytes;
  match Value with
  | Some v => Ok v
  | None => Throw (DiaphoraWouldRaise Site (B "ValueError: could not convert string to float: '" ++ Bytes ++ B "'"))
  end.

Definition PyFloatOfCell (Cell : SqlCell) (Site : text) : res dbl :=
  match CellType Cell with
  | SqlNull =>
      Throw (DiaphoraWouldRaise Site (B "TypeError: float() argument must be a string or a real number, not 'NoneType'"))
  | SqlReal => Ok (CellReal Cell)
  | SqlInteger =>
      if (CellInt Cell <? - 2 ^ 53)%Z || (2 ^ 53 <? CellInt Cell)%Z then
        Throw (UnsupportedInput (Site ++ B ": float() of an INTEGER CU bound beyond 2^53 is not ported"))
      else Ok (d_of_Z (CellInt Cell))
  | SqlBlob =>
      if forallb (fun Ch => (code Ch <? 128)%Z) (CellText Cell) then parse_float (CellText Cell) Site
      else Throw (DiaphoraWouldRaise Site (B "ValueError: could not convert string to float (non-ASCII bytes)"))
  | SqlText => parse_float (CellText Cell) Site
  end.

(** [--related-cu-source]: the native replay, or always the query. *)
Context (CuNative : bool).

Definition drain_units (Lo1 Hi1 Lo2 Hi2 : dbl) : M (Session X) unit :=
  Native ← (if CuNative then on_ids CuReplayPlanOk else mret false);
  if Native : bool then
    Rows1 ← liftR (RowsInRange Main Lo1 Hi1);
    Rows2 ← liftR (RowsInRange Diff Lo2 Hi2);
    Desc ← on_ids (InternDesc kCuHeuristic);
    with_source (MkCuSource Rows1 Rows2 0 0 Desc) (AddMatchesInternal Best (Some Partial) None)
  else
    with_source (NewSqlRowSource kSqlCuCartesian [BindDouble Lo1; BindDouble Hi1; BindDouble Lo2; BindDouble Hi2])
      (AddMatchesInternal Best (Some Partial) None).

Fixpoint cu_loop (Seeds : list Item) : M (Session X) unit :=
  match Seeds with
  | [] => mret tt
  | Match :: Seeds' =>
      if dlt (Ratio Match) kRelatedMatchesMinRatio then mret tt
      else
        S ← get;
        Bind1 ← liftR (BindName (Ids S) (Name1 Match));
        MainCu ← liftR (CuLookup kSqlCuLookupMain Bind1 (B "D:3445 fetchone (main CU)"));
        Bind2 ← liftR (BindName (Ids S) (Name2 Match));
        DiffCu ← liftR (CuLookup kSqlCuLookupDiff Bind2 (B "D:3448 fetchone (diff CU)"));
        match MainCu, DiffCu with
        | Some (s1, e1), Some (s2, e2) =>
            Lo1 ← liftR (PyFloatOfCell s1 (B "D:3453 float(start_ea)"));
            Hi1 ← liftR (PyFloatOfCell e1 (B "D:3454 float(end_ea)"));
            Lo2 ← liftR (PyFloatOfCell s2 (B "D:3455 float(start_ea)"));
            Hi2 ← liftR (PyFloatOfCell e2 (B "D:3456 float(end_ea)"));
            drain_units Lo1 Hi1 Lo2 Hi2;;
            cu_loop Seeds'
        | _, _ => cu_loop Seeds'
        end
  end.

Definition StageFindRelatedCompilationUnit : M (Session X) unit :=
  SessionCleanup L3413;;
  S ← get;
  cu_loop (SortedResults Best (State S) ++ SortedResults Partial (State S)).

(** ** [find_locally_affine_functions] *)

Definition kLocalAffinity : text := B "Local affinity".
Definition kMaxFunctionsPerGap : nat := 100.

(** Python [int] of an address text: the sign, and the decimal digits without
    leading zeros; no digits is zero. *)
Record PyIntKey := MkIntKey { Negative : bool; Digits : text }.

(** [std::string::compare]. *)
Fixpoint text_compare (a b : text) : comparison :=
  match a, b with
  | [], [] => Eq
  | [], _ :: _ => Lt
  | _ :: _, [] => Gt
  | x :: a', y :: b' => match (code x ?= code y)%Z with Eq => text_compare a' b' | c => c end
  end.

Definition key_compare (A C : PyIntKey) : comparison :=
  if negb (Bool.eqb (Negative A) (Negative C)) then (if Negative A then Lt else Gt)
  else
    let Magnitude :=
      match (length (Digits A) ?= length (Digits C))%nat with
      | Eq => text_compare (Digits A) (Digits C)
      | c => c
      end in
    if Negative A then CompOpp Magnitude else Magnitude.

Fixpoint key_loop (t : text) (Leading : bool) (Key : PyIntKey) : PyIntKey :=
  match t with
  | [] => Key
  | Ch :: t' =>
      if bool_decide (Ch = x2d) then key_loop t' Leading (MkIntKey true (Digits Key))
      else if IsDigit Ch then
        if Leading && bool_decide (Ch = x30) then key_loop t' Leading Key
        else key_loop t' false (MkIntKey (Negative Key) (Digits Key ++ [Ch]))
      else key_loop t' Leading Key
  end.

Definition int_key (t : text) : PyIntKey :=
  let Key := key_loop t true (MkIntKey false []) in
  match Digits Key with [] => MkIntKey false [] | _ => Key end.

Definition IntKeyOf (ids : Interners) (Ea : AddrId) (Site : text) : res PyIntKey :=
  _ ← RequirePyInt ids Ea Site;
  t ← AddrText Ea ids;
  Ok (int_key t).

Definition RowNameStartsWith (T : FunctionTable) (Row : nat) (Prefix Site : text) : res bool :=
  Cell ← CellOf (Name_ T) Row;
  if CellNull Cell then
    Throw (DiaphoraWouldRaise Site (B "AttributeError: 'NoneType' object has no attribute 'startswith'"))
  else if CellBlob Cell then
    Throw (DiaphoraWouldRaise Site (B "TypeError: startswith first arg must be bytes or a tuple of bytes, not str"))
  else Ok (starts_with (CellBytes Cell) Prefix).

Definition PseudocodeLinesOf (T : FunctionTable) (Row : nat) : res Z :=
  n ← IntNull Row (PseudocodeLines T);
  if n : bool then
    Throw (DiaphoraWouldRaise (B "D:3276") (B "TypeError: unsupported operand type(s) for +: 'NoneType' and 'int'"))
  else
    bad ← at_row (NotInteger (PseudocodeLines T)) Row;
    if bad : bool then Throw (UnsupportedInput (B "D:3276: functions.pseudocode_lines is not INTEGER (not ported)"))
    else at_row (IntValue (PseudocodeLines T)) Row.

Definition kInt64Min : Z := - 2 ^ 63.

(** [a + b != 0] on two 64-bit values, through their unsigned sum. *)
Definition SumIsNonZero (a b : Z) : bool :=
  if negb (w64 (w64 a + w64 b) =? 0)%Z then true else (a =? kInt64Min)%Z && (b =? kInt64Min)%Z.

Definition IntOfRowNodes (T : FunctionTable) (Row : nat) (Site : text) : res Z :=
  n ← IntNull Row (Nodes T);
  if n : bool then
    Throw (DiaphoraWouldRaise Site
      (B "TypeError: int() argument must be a string, a bytes-like object or a real number, not 'NoneType'"))
  else
    bad ← at_row (NotInteger (Nodes T)) Row;
    if bad : bool then
      Throw (UnsupportedInput (Site ++ B ": functions.nodes is not INTEGER (int() semantics not ported)"))
    else at_row (IntValue (Nodes T)) Row.

Fixpoint mapped_rows (Refusal : text) (Rows : list FunctionRowRef) : res (list nat) :=
  match Rows with
  | [] => Ok []
  | Ref :: Rows' =>
      if bool_decide (RefRow Ref = kNoRow) then Throw (UnsupportedInput Refusal)
      else l ← mapped_rows Refusal Rows'; Ok (Z.to_nat (RefRow Ref) :: l)
  end.

Definition GapRows (Which : Side) (Low High : AddrId) : M (Session X) (list nat) :=
  S ← get;
  BindLow ← liftR (BindOfAddress (Ids S) Low);
  BindHigh ← liftR (BindOfAddress (Ids S) High);
  Rows ← on_ids (FetchFunctionRows Tables
    (match Which with MainSide => kSqlGapMain | DiffSide => kSqlGapDiff end) [BindLow; BindHigh] Which None);
  liftR (mapped_rows (B "find_functions_between: a gap row's address is not a TEXT address of the export") Rows).

(** The row the hook gets: the main name twice. *)
Definition hook_row (Desc : DescId) (MainRow DiffRow : nat) (Nodes1 Nodes2 : Z) : res HeuristicRow :=
  Ea1 ← at_row (AddrIdOf Main) MainRow;
  Ea2 ← at_row (AddrIdOf Diff) DiffRow;
  Name ← at_row (NameIdOf Main) MainRow;
  Ok (MkRow Ea1 Ea2 (Z.of_nat MainRow) (Z.of_nat DiffRow) MainSide DiffSide Name Name Desc
        (Some Nodes1) (Some Nodes2) None None).

Definition CallOnMatchHook (MainRow DiffRow : nat) (R : dbl) : M (Session X) dbl :=
  S ← get;
  if negb (HooksLoaded (Flags S)) then mret R
  else
    Desc ← on_ids (InternDesc kLocalAffinity);
    N1 ← liftR (IntOfRowNodes Main MainRow (B "D:3020"));
    N2 ← liftR (IntOfRowNodes Diff DiffRow (B "D:3021"));
    Row ← liftR (hook_row Desc MainRow DiffRow N1 N2);
    S ← get;
    engine_call (Consumer.PatchDiffHookOnMatch (Ids S) Row R);;
    mret R.

(** The per-gap scores by name. *)
Record GapScores := MkScores { MainScore : gmap N dbl; DiffScore : gmap N dbl }.

Definition scored_above (Scores : gmap N dbl) (Nm : NameId) (R : dbl) : bool :=
  match Scores !! Nm with Some Score => dge Score R | None => false end.

(** The filters before the comparison: [true] when the pair is skipped. *)
Definition gap_skipped (A C : nat) : res bool :=
  n1 ← RowNameStartsWith Main A (B "nullsub_") (B "D:3269");
  nullsub ← (if n1 : bool then Ok true else RowNameStartsWith Diff C (B "nullsub_") (B "D:3269"));
  if nullsub : bool then Ok true
  else
    s1 ← RowNameStartsWith Main A (B "sub_") (B "D:3271");
    sub ← (if s1 : bool then Ok true else RowNameStartsWith Diff C (B "sub_") (B "D:3271"));
    if negb sub then Ok true
    else
      Lines1 ← PseudocodeLinesOf Main A;
      Lines2 ← PseudocodeLinesOf Diff C;
      Ok (SumIsNonZero Lines1 Lines2 && ((Lines1 =? 3)%Z || (Lines2 =? 3)%Z)).

Definition gap_target (R : dbl) : option Chooser :=
  if deq R d1 then Some Best else if dge R kDefaultPartialRatio then Some Partial else None.

(** One pair of a gap: the scores are recorded whether or not the match is kept. *)
Definition gap_pair (Desc : DescId) (A C : nat) (Scores : GapScores) : M (Session X) GapScores :=
  Skip ← liftR (gap_skipped A C);
  if Skip : bool then mret Scores
  else
    S ← get;
    R ← engine_call (Consumer.CompareFunctionRows (Ids S) (Flags S) (Z.of_nat A) (Z.of_nat C));
    match gap_target R with
    | None => mret Scores
    | Some Target =>
        N1 ← liftR (at_row (NameIdOf Main) A);
        N2 ← liftR (at_row (NameIdOf Diff) C);
        if scored_above (MainScore Scores) N1 R || scored_above (DiffScore Scores) N2 R then mret Scores
        else
          R ← CallOnMatchHook A C R;
          Nodes1 ← liftR (IntOfRowNodes Main A (B "D:3303"));
          Nodes2 ← liftR (IntOfRowNodes Diff C (B "D:3304"));
          Ea1 ← liftR (at_row (AddrIdOf Main) A);
          Ea2 ← liftR (at_row (AddrIdOf Diff) C);
          SessionAddMatch N1 N2 R (MkItem Ea1 N1 Ea2 N2 Desc R Nodes1 Nodes2) (Some Target);;
          mret (MkScores (<[N1 := R]> (MainScore Scores)) (<[N2 := R]> (DiffScore Scores)))
    end.

(** A loop over a list that carries a value. *)
Fixpoint fold_each {St A C} (body : A -> C -> M St C) (l : list A) (c : C) : M St C :=
  match l with [] => mret c | a :: l' => c ← body a c; fold_each body l' c end.

Definition gap_size_ok (Rows : list nat) : bool :=
  negb (bool_decide (Rows = [])) && (length Rows <=? kMaxFunctionsPerGap)%nat.

Definition FindFunctionsBetween (Low1 High1 Low2 High2 : AddrId) : M (Session X) unit :=
  MainRows ← GapRows MainSide Low1 High1;
  if negb (gap_size_ok MainRows) then mret tt
  else
    DiffRows ← GapRows DiffSide Low2 High2;
    if negb (gap_size_ok DiffRows) then mret tt
    else
      Desc ← on_ids (InternDesc kLocalAffinity);
      _ ← fold_each (fun A => fold_each (fun C => gap_pair Desc A C) DiffRows) MainRows (MkScores ∅ ∅);
      mret tt.

Definition item_keys (ids : Interners) (It : Item) : res (PyIntKey * PyIntKey * Item) :=
  Ea1 ← IntKeyOf ids (Ea1 It) (B "D:3345 int(x[0])");
  Ea2 ← IntKeyOf ids (Ea2 It) (B "D:3345 int(x[2])");
  Ok (Ea1, Ea2, It).

Definition keys_before (A C : PyIntKey * PyIntKey * Item) : bool :=
  match key_compare A.1.1 C.1.1 with
  | Lt => true
  | Gt => false
  | Eq => match key_compare A.1.2 C.1.2 with Lt => true | _ => false end
  end.

(** Consecutive matches bound the gaps. *)
Fixpoint gap_loop (Prev : Item) (Matches : list Item) : M (Session X) unit :=
  match Matches with
  | [] => mret tt
  | Curr :: Matches' =>
      FindFunctionsBetween (Ea1 Prev) (Ea1 Curr) (Ea2 Prev) (Ea2 Curr);;
      gap_loop Curr Matches'
  end.

Definition StageFindLocallyAffineFunctions : M (Session X) unit :=
  SessionCleanup L3340;;
  S ← get;
  Keys ← liftR (map_res (item_keys (Ids S)) (of_best (Lists (State S)) ++ of_partial (Lists (State S))));
  match (stable_sort keys_before Keys).*2 with
  | [] => mret tt
  | First :: Matches => gap_loop First Matches
  end.

(** ** [find_matches_diffing] *)

Definition kHeurAssembly : text := B "Callee found diffing matches assembly".
Definition kHeurPseudo : text := B "Callee found diffing matches pseudo-code".

Inductive Field := AssemblyField | PseudocodeField.
Definition FieldName (Which : Field) : text :=
  match Which with AssemblyField => B "assembly" | PseudocodeField => B "pseudocode" end.
Definition FieldColumn (T : FunctionTable) (Which : Field) : TextColumn :=
  match Which with AssemblyField => Assembly T | PseudocodeField => Pseudocode T end.

(** [str.join] on a newline. *)
Fixpoint join_lines (Block : list text) : text :=
  match Block with [] => [] | [Line] => Line | Line :: Block' => Line ++ x0a :: join_lines Block' end.

(** The rows of the unified diff, in order: a context row after removed and added
    rows pairs the names of both, by position. What is left at the end is dropped. *)
Fixpoint candidate_loop (Rows Minus Plus : list text) (Out : list (text * text)) : list (text * text) :=
  match Rows with
  | [] => Out
  | [] :: Rows' => candidate_loop Rows' Minus Plus Out
  | (Ch :: _) as Row :: Rows' =>
      if bool_decide (Ch = x2d) then candidate_loop Rows' (Minus ++ [Row]) Plus Out
      else if bool_decide (Ch = x2b) then candidate_loop Rows' Minus (Plus ++ [Row]) Out
      else if bool_decide (Ch = x20) && negb (bool_decide (Minus = [])) && negb (bool_decide (Plus = [])) then
        candidate_loop Rows' [] []
          (Out ++ zip (CppNamesFindAll (join_lines Minus)) (CppNamesFindAll (join_lines Plus)))
      else candidate_loop Rows' Minus Plus Out
  end.

(** [None]: the diff has no fuel left, see [UnifiedDiff]. *)
Definition CalleeCandidatePairs (MainText DiffText : text) : option (res (list (text * text))) :=
  Rows ← UnifiedDiff (PySplitLines MainText) (PySplitLines DiffText) 3 [];
  Some (Rows ← Rows; Ok (candidate_loop Rows [] [] [])).

Definition completed {A} (r : option (res A)) : res A :=
  match r with Some r => r | None => Throw (CxxException (B "out of fuel")) end.

(** [GetFunctionRow] of CalleeDiffing.cpp: its own refusal. *)
Definition callee_refusal : text := B "get_function_row: the row's address is not TEXT (input quirk not emulated)".

Definition PyNodes (T : FunctionTable) (Row : nat) : res (option Z) :=
  n ← IntNull Row (Nodes T);
  if n : bool then Ok None
  else
    bad ← at_row (NotInteger (Nodes T)) Row;
    if bad : bool then
      Throw (UnsupportedInput
        (B "functions.nodes holds a non-INTEGER value (Python min/max/true-division over float or str is not ported)"))
    else v ← at_row (IntValue (Nodes T)) Row; Ok (Some v).

Definition kExactDoubleInt : Z := 2 ^ 53.
Definition kDiffingMatchesMaxDifferentBblocksPercent : Z := 25.
Definition kDiffingMatchesMinBblocks : Z := 3.
Definition kDefaultTrustedPartialRatio : dbl := Eval vm_compute in dlit 3 10.

(** The basic block filters: [true] when the pair goes on to the comparison. *)
Definition enough_blocks (Nodes1 Nodes2 : Z) : res bool :=
  let MinNodes := Z.min Nodes1 Nodes2 in
  let MaxNodes := Z.max Nodes1 Nodes2 in
  if (MaxNodes =? 0)%Z then Throw (DiaphoraWouldRaise (B "D:3089 ZeroDivisionError") (B "division by zero"))
  else if (kExactDoubleInt / 100 <? MinNodes)%Z || (MinNodes <? - (kExactDoubleInt / 100))%Z
          || (kExactDoubleInt <? MaxNodes)%Z || (MaxNodes <? - kExactDoubleInt)%Z then
    Throw (UnsupportedInput
      (B "functions.nodes beyond 2^53 / 100: Python's exact int true division is not ported"))
  else
    let Percent := ddiv (d_of_Z (MinNodes * 100)) (d_of_Z MaxNodes) in
    Ok (negb (dlt Percent (d_of_Z kDiffingMatchesMaxDifferentBblocksPercent))
        && negb (Nodes1 <? kDiffingMatchesMinBblocks)%Z && negb (Nodes2 <? kDiffingMatchesMinBblocks)%Z).

Definition py_type_name (v : option Z) : text := match v with Some _ => B "int" | None => B "NoneType" end.

Definition callee_chooser (R : dbl) : option Chooser :=
  if deq R d1 then Some Best else if dgt R kDefaultTrustedPartialRatio then Some Partial else None.

Definition callee_hook (Heur : text) (MainRow DiffRow : nat) (N1 N2 : Z) (R : dbl) : M (Session X) unit :=
  S ← get;
  if HooksLoaded (Flags S) then
    Desc ← on_ids (InternDesc Heur);
    Row ← liftR (hook_row Desc MainRow DiffRow N1 N2);
    S ← get;
    engine_call (Consumer.PatchDiffHookOnMatch (Ids S) Row R)
  else mret tt.

(** From the comparison on. *)
Definition compare_candidate (Name1 Name2 Heur : text) (Inner : Z) (MainRow DiffRow : nat) (N1 N2 : Z)
    : M (Session X) unit :=
  S ← get;
  R ← engine_call (Consumer.CompareFunctionRows (Ids S) (Flags S) (Z.of_nat MainRow) (Z.of_nat DiffRow));
  match callee_chooser R with
  | None => mret tt
  | Some Category =>
      let R := with_bonus R in
      callee_hook Heur MainRow DiffRow N1 N2 R;;
      Id1 ← on_ids (InternName Name1);
      Id2 ← on_ids (InternName Name2);
      Ea1 ← liftR (at_row (AddrIdOf Main) MainRow);
      Ea2 ← liftR (at_row (AddrIdOf Diff) DiffRow);
      Desc ← on_ids (InternDesc (Heur ++ B " (iteration #" ++ dec_text Inner ++ B ")"));
      SessionAddMatch Id1 Id2 R (MkItem Ea1 Id1 Ea2 Id2 Desc R N1 N2) (Some Category)
  end.

(** The two rows of [functions_exists], as Python reads their node counts. *)
Definition candidate_rows (Name1 Name2 Heur : text) (Inner : Z) (L0 L1 : FunctionRowRef) : M (Session X) unit :=
  if bool_decide (RefRow L0 = kNoRow) || bool_decide (RefRow L1 = kNoRow) then
    throw (UnsupportedInput (B "functions_exists: a fetched row's address is not TEXT (input quirk not emulated)"))
  else
    let MainRow := Z.to_nat (RefRow L0) in
    let DiffRow := Z.to_nat (RefRow L1) in
    Nodes1 ← liftR (PyNodes (at_side (RefSide L0) Tables) MainRow);
    Nodes2 ← liftR (PyNodes (at_side (RefSide L1) Tables) DiffRow);
    match Nodes1, Nodes2 with
    | Some N1, Some N2 =>
        Enough ← liftR (enough_blocks N1 N2);
        if negb Enough then mret tt
        else if bool_decide (RefSide L0 <> MainSide) || bool_decide (RefSide L1 <> DiffSide) then
          throw (UnsupportedInput (B "functions_exists('" ++ Name1 ++ B "', '" ++ Name2
            ++ B "') returned two rows of the same database (duplicate function names; 06 §2.10)"))
        else compare_candidate Name1 Name2 Heur Inner MainRow DiffRow N1 N2
    | _, _ =>
        throw (DiaphoraWouldRaise (B "D:3084 TypeError") (B "'<' not supported between instances of '"
          ++ py_type_name Nodes2 ++ B "' and '" ++ py_type_name Nodes1 ++ B "'"))
    end.

Definition ProcessCandidate (Name1 Name2 Heur : text) (Inner : Z) : M (Session X) unit :=
  L ← on_ids (FetchFunctionRows Tables kSqlFunctionsExists [BindText Name1; BindText Name2] MainSide None);
  match L with
  | [L0; L1] => candidate_rows Name1 Name2 Heur Inner L0 L1
  | _ => mret tt
  end.

(** A pair is marked done before any filter. *)
Definition candidate_step (Heur : text) (Inner : Z) (Pair : text * text) (Dones : gset text)
    : M (Session X) (gset text) :=
  let '(Name1, Name2) := Pair in
  let Key := Name1 ++ B "-" ++ Name2 in
  if bool_decide (Key ∈ Dones) then mret Dones
  else
    (if starts_with Name1 (B "nullsub") || starts_with Name2 (B "nullsub") then mret tt
     else ProcessCandidate Name1 Name2 Heur Inner);;
    mret ({[Key]} ∪ Dones).

Definition FindOneMatchDiffing (MainRow DiffRow : nat) (Which : Field) (Heur : text) (Inner : Z)
    (Dones : gset text) : M (Session X) (gset text) :=
  Cell1 ← liftR (CellOf (FieldColumn Main Which) MainRow);
  Cell2 ← liftR (CellOf (FieldColumn Diff Which) DiffRow);
  if CellBlob Cell1 || CellBlob Cell2 then
    throw (UnsupportedInput (B "functions." ++ FieldName Which
      ++ B " is a BLOB (Python bytes semantics of D:3040-3059 not ported)"))
  else
    Pairs ← liftR (completed (CalleeCandidatePairs (CellBytes Cell1) (CellBytes Cell2)));
    fold_each (candidate_step Heur Inner) Pairs Dones.

Definition field_null (T : FunctionTable) (Which : Field) (Row : nat) : res bool :=
  at_row (IsNull (FieldColumn T Which)) Row.

(** One match of the walk: its own key is marked done first. *)
Definition match_step (Heur : text) (Which : Field) (Inner : Z) (Match : Item) (Dones : gset text)
    : M (Session X) (gset text) :=
  S ← get;
  MatchKey ← liftR (pair_key (Ids S) Match);
  if bool_decide (MatchKey ∈ Dones) then mret Dones
  else
    let Dones := {[MatchKey]} ∪ Dones in
    MainRow ← GetFunctionRow callee_refusal MainSide (Name1 Match);
    DiffRow ← GetFunctionRow callee_refusal DiffSide (Name2 Match);
    match MainRow, DiffRow with
    | Some M_, Some D_ =>
        n1 ← liftR (field_null Main Which (Z.to_nat M_));
        if n1 : bool then mret Dones
        else
          n2 ← liftR (field_null Diff Which (Z.to_nat D_));
          if n2 : bool then mret Dones
          else FindOneMatchDiffing (Z.to_nat M_) (Z.to_nat D_) Which Heur Inner Dones
    | _, _ => mret Dones
    end.

Definition walk_category (Heur : text) (Which : Field) (Inner : Z) (Key : Chooser) (Dones : gset text)
    : M (Session X) (gset text) :=
  S ← get;
  fold_each (match_step Heur Which Inner) (SortedResults Key (State S)) Dones.

(** At most three rounds; one that leaves the number of matches as it was ends it. *)
Fixpoint diffing_rounds (rounds : nat) (Heur : text) (Which : Field) (Inner : Z) (Dones : gset text)
    : M (Session X) unit :=
  match rounds with
  | O => mret tt
  | Datatypes.S rounds' =>
      S ← get;
      let OldTotal := TotalMatchedFunctions (State S) in
      Dones ← walk_category Heur Which Inner Best Dones;
      Dones ← walk_category Heur Which Inner Partial Dones;
      SessionCleanup L3185;;
      LogShowSummary;;
      S ← get;
      if (TotalMatchedFunctions (State S) =? OldTotal)%nat then mret tt
      else diffing_rounds rounds' Heur Which (Inner + 1) Dones
  end.

Definition FindMatchesDiffingInternal (Heur : text) (Which : Field) : M (Session X) unit :=
  diffing_rounds 3 Heur Which 1 ∅.

Definition StageFindMatchesDiffing : M (Session X) unit :=
  SessionCleanup L3217;;
  S ← get;
  (if IsSameProcessor (Flags S) then FindMatchesDiffingInternal kHeurAssembly AssemblyField else mret tt);;
  FindMatchesDiffingInternal kHeurPseudo PseudocodeField.
End Loop.
