(* ===== verification/Preflight.v ===== *)
(** * The checks before any matching (src/src/diff/stages/Preflight.cpp)

    [StageCheckVersion], [StageEqualDb], [StageCheckCallgraph] and
    [StageSameProcessor], with what the call graph check computes with: integers
    as decimal digit strings, [decimal.Decimal] as far as its constructor and
    [==] go, and the sums of [jkutils/factor.py]. The lines written to the log
    are not part of the model, but for the one the call graph check records. *)

From Stdlib Require Import ZArith Lia SpecFloat.
From stdpp Require Import base option numbers list.
From S2P Require Import Prelude Dbl Decimal Utf8 PyDecimal PyFloat PyRepr PyValues PyJson SessionData Consumer.
From S2P Require Import SideTables StageSql Sql.

(** ** Magnitudes

    Decimal digits, most significant first, without leading zeros; no digit is
    zero. *)

(** [std::string::compare]. *)
Fixpoint compare_text (a b : text) : Z :=
  match a, b with
  | [], [] => 0
  | [], _ :: _ => -1
  | _ :: _, [] => 1
  | x :: a', y :: b' => if (code x <? code y)%Z then -1 else if (code y <? code x)%Z then 1 else compare_text a' b'
  end.

Definition CompareMag (A C : text) : Z :=
  if negb (length A =? length C)%nat then (if (length A <? length C)%nat then -1 else 1)
  else compare_text A C.

(** [find_first_not_of('0')], then the rest. *)
Fixpoint strip_zeros (t : text) : text :=
  match t with
  | Ch :: t' => if bool_decide (Ch = x30) then strip_zeros t' else t
  | [] => []
  end.

(** From the last digits on; the sum's digits, least significant first. *)
Fixpoint add_loop (A C : text) (Carry : Z) {struct A} : text :=
  match A with
  | a :: A' =>
      match C with
      | c :: C' =>
          let Sum := Carry + digit_value a + digit_value c in
          digit_char (Sum mod 10) :: add_loop A' C' (Sum / 10)
      | [] => let Sum := Carry + digit_value a in digit_char (Sum mod 10) :: add_loop A' [] (Sum / 10)
      end
  | [] =>
      (fix rest (C : text) (Carry : Z) : text :=
         match C with
         | c :: C' =>
             let Sum := Carry + digit_value c in digit_char (Sum mod 10) :: rest C' (Sum / 10)
         | [] => if (Carry =? 0)%Z then [] else [digit_char (Carry mod 10)]
         end) C Carry
  end%Z.

Definition AddMag (A C : text) : text := strip_zeros (reverse (add_loop (reverse A) (reverse C) 0)).

(** [A - C], for [A >= C]. *)
Fixpoint sub_loop (A C : text) (Borrow : Z) : text :=
  match A with
  | [] => []
  | a :: A' =>
      let '(Digit, C') := match C with
                          | c :: C' => (digit_value a - Borrow - digit_value c, C')
                          | [] => (digit_value a - Borrow, [])
                          end in
      let Borrow := if Digit <? 0 then 1 else 0 in
      digit_char (Digit + Borrow * 10) :: sub_loop A' C' Borrow
  end%Z.

Definition SubMag (A C : text) : text := strip_zeros (reverse (sub_loop (reverse A) (reverse C) 0)).

(** [while (Carry != 0)]. *)
Fixpoint carry_digits (fuel : nat) (Carry : Z) : text :=
  match fuel with
  | O => []
  | S fuel' => if (Carry =? 0)%Z then [] else digit_char (Carry mod 10) :: carry_digits fuel' (Carry / 10)
  end.

Fixpoint mul_loop (A : text) (Factor Carry : Z) : text :=
  match A with
  | [] => carry_digits 20 Carry
  | a :: A' =>
      let Product := w64 (digit_value a * Factor + Carry) in
      digit_char (Product mod 10) :: mul_loop A' Factor (Product / 10)
  end%Z.

Definition MulMagSmall (A : text) (Factor : Z) : text :=
  if bool_decide (A = []) || (Factor =? 0)%Z then [] else reverse (mul_loop (reverse A) Factor 0).

Definition MagOfU64 (Value : Z) : text := if (Value =? 0)%Z then [] else dec_text Value.

Record BigInt := MkBigInt { BigNegative : bool; Mag : text }.
Definition BigZero : BigInt := MkBigInt false [].

Definition BigAdd (A C : BigInt) : BigInt :=
  if Bool.eqb (BigNegative A) (BigNegative C) then MkBigInt (BigNegative A) (AddMag (Mag A) (Mag C))
  else
    let Cmp := CompareMag (Mag A) (Mag C) in
    if (Cmp =? 0)%Z then BigZero
    else if (0 <? Cmp)%Z then MkBigInt (BigNegative A) (SubMag (Mag A) (Mag C))
    else MkBigInt (BigNegative C) (SubMag (Mag C) (Mag A)).

Definition BigAbsDiff (A C : BigInt) : BigInt :=
  MkBigInt false (Mag (BigAdd A (MkBigInt (negb (BigNegative C) && negb (bool_decide (Mag C = []))) (Mag C)))).

Definition BigText (V : BigInt) : text :=
  if bool_decide (Mag V = []) then B "0" else (if BigNegative V then [x2d] else []) ++ Mag V.

Fixpoint doubled (n : nat) (A : text) : text :=
  match n with O => A | S n' => doubled n' (MulMagSmall A 2) end.

(** [2^1024 - 2^970], from where on [float(int)] raises. *)
Definition FloatOverflowMag : text :=
  Eval vm_compute in (let P970 := doubled 970 (B "1") in SubMag (doubled 54 P970) P970).

Definition FloatOverflows (V : BigInt) : bool := (0 <=? CompareMag (Mag V) FloatOverflowMag)%Z.

Definition BigToDouble (V : BigInt) : res dbl :=
  Value ← PyFloat (BigText V);
  match Value with
  | Some x => Ok x
  | None => Throw (UnsupportedInput (B "check_callgraph: cannot convert " ++ BigText V ++ B " to float"))
  end.

(** ** [decimal.Decimal] *)

Inductive DecimalKind := Finite | Infinity | QuietNaN | SignalingNaN.
#[export] Instance DecimalKind_eq_dec : EqDecision DecimalKind.
Proof. solve_decision. Defined.

(** The value of a finite one is coefficient * 10^exponent. *)
Record PyDecimal := MkDecimal { DecKind : DecimalKind; DecNegative : bool; Coefficient : text; Exponent : Z }.

(** [while (Coefficient.back() == '0')], on the reversed digits. *)
Fixpoint strip_trailing (Reversed : text) (Exponent : Z) : text * Z :=
  match Reversed with
  | Ch :: Reversed' =>
      if bool_decide (Ch = x30) then strip_trailing Reversed' (Exponent + 1)%Z else (reverse Reversed, Exponent)
  | [] => ([], Exponent)
  end.

Definition Normalise (D : PyDecimal) : PyDecimal :=
  match strip_zeros (Coefficient D) with
  | [] => MkDecimal (DecKind D) (DecNegative D) [] 0
  | C => let '(C, E) := strip_trailing (reverse C) (Exponent D) in MkDecimal (DecKind D) (DecNegative D) C E
  end.

Definition IsPyAsciiSpace (Ch : byte) : bool :=
  bool_decide (Ch = x20) || ((9 <=? code Ch)%Z && (code Ch <=? 13)%Z) || ((0x1c <=? code Ch)%Z && (code Ch <=? 0x1f)%Z).

Definition lower_ascii (Ch : byte) : byte :=
  if (65 <=? code Ch)%Z && (code Ch <=? 90)%Z then byte_of_code (code Ch + 32) else Ch.
Definition same_ignoring_case (A C : text) : bool := bool_decide (map lower_ascii A = map lower_ascii C).

Definition AllDigits (t : text) : bool := forallb is_digit t.

Fixpoint drop_spaces (t : text) : text :=
  match t with
  | Ch :: t' => if IsPyAsciiSpace Ch then drop_spaces t' else t
  | [] => []
  end.

(** The text without the white space around it and without underscores. *)
Definition decimal_text (Raw : text) : text :=
  filter (fun Ch => Ch <> x5f) (drop_spaces (reverse (drop_spaces (reverse Raw)))).

(** The digits of an exponent, at most one of them a leading zero; [None] for a
    text Python rejects. *)
Definition decimal_exponent (t : text) : res (option (Z * text)) :=
  let '(ExpNegative, t) := take_sign t in
  match take_digits t with
  | ([], _) => Ok None
  | (ExpDigits, Rest) =>
      let ExpDigits := match strip_zeros ExpDigits with [] => [x30] | D => D end in
      if (15 <? length ExpDigits)%nat then
        Throw (UnsupportedInput (B "check_callgraph: a Decimal exponent of " ++ dec_text (Z.of_nat (length ExpDigits))
          ++ B " digits is not ported (libmpdec exponent limits)"))
      else Ok (Some ((if ExpNegative then - dec_value ExpDigits else dec_value ExpDigits)%Z, Rest))
  end.

Definition special_decimal (Negative : bool) (Rest : text) : option PyDecimal :=
  if same_ignoring_case Rest (B "inf") || same_ignoring_case Rest (B "infinity") then
    Some (MkDecimal Infinity Negative [] 0)
  else if same_ignoring_case (take 3 Rest) (B "nan") && AllDigits (drop 3 Rest) then
    Some (MkDecimal QuietNaN Negative [] 0)
  else if same_ignoring_case (take 4 Rest) (B "snan") && AllDigits (drop 4 Rest) then
    Some (MkDecimal SignalingNaN Negative [] 0)
  else None.

Definition finite_decimal (Negative : bool) (Rest : text) : res (option PyDecimal) :=
  let '(IntPart, Rest) := take_digits Rest in
  let '(FracPart, Rest) :=
    match Rest with
    | Ch :: Rest' => if bool_decide (Ch = x2e) then take_digits Rest' else ([], Rest)
    | [] => ([], [])
    end in
  if bool_decide (IntPart = []) && bool_decide (FracPart = []) then Ok None
  else
    Exp ← match Rest with
          | Ch :: Rest' =>
              if bool_decide (Ch = x65 \/ Ch = x45) then decimal_exponent Rest' else Ok (Some (0%Z, Rest))
          | [] => Ok (Some (0%Z, []))
          end;
    match Exp with
    | Some (E, []) =>
        Ok (Some (Normalise (MkDecimal Finite Negative (IntPart ++ FracPart) (E - Z.of_nat (length FracPart)))))
    | _ => Ok None
    end.

(** [Decimal(str)]; [None]: Python raises. *)
Definition ParsePyDecimal (Raw : text) : res (option PyDecimal) :=
  if negb (forallb (fun Ch => (code Ch <? 128)%Z) Raw) then
    Throw (UnsupportedInput (B "check_callgraph: a non-ASCII callgraph_primes text is not ported (Python's Decimal accepts Unicode digits and spaces)"))
  else
    let '(Negative, Rest) := take_sign (decimal_text Raw) in
    match special_decimal Negative Rest with
    | Some D => Ok (Some D)
    | None => finite_decimal Negative Rest
    end.

Definition DecimalOfInt (Value : Z) : PyDecimal :=
  Normalise (MkDecimal Finite (Value <? 0)%Z (MagOfU64 (Z.abs Value)) 0).

Fixpoint times (n : nat) (Factor : Z) (A : text) : text :=
  match n with O => A | S n' => times n' Factor (MulMagSmall A Factor) end.

Definition signbit (x : dbl) : bool :=
  match x with S754_zero s | S754_infinity s | S754_finite s _ _ => s | S754_nan => false end.
Definition is_infinite (x : dbl) : bool := match x with S754_infinity _ => true | _ => false end.
Definition dabs (x : dbl) : dbl := SFabs x.

Definition DecimalOfDouble (Value : dbl) : PyDecimal :=
  if is_nan Value then MkDecimal QuietNaN (signbit Value) [] 0
  else if is_infinite Value then MkDecimal Infinity (signbit Value) [] 0
  else
    let '(Fraction, Exp2) := SFfrexp 53 1024 (dabs Value) in
    let Mantissa := d_to_u64 (dldexp Fraction 53) in
    let Shift := (Exp2 - 53)%Z in
    let Digits := MagOfU64 Mantissa in
    Normalise
      (if (0 <=? Shift)%Z then MkDecimal Finite (signbit Value) (times (Z.to_nat Shift) 2 Digits) 0
       else MkDecimal Finite (signbit Value) (times (Z.to_nat (- Shift)) 5 Digits) Shift).

Definition DecimalOfCell (Cell : SqlCell) (Site : text) : res PyDecimal :=
  match CellType Cell with
  | SqlNull => Throw (DiaphoraWouldRaise (Site ++ B " TypeError") (B "conversion from NoneType to Decimal is not supported"))
  | SqlBlob => Throw (DiaphoraWouldRaise (Site ++ B " TypeError") (B "conversion from bytes to Decimal is not supported"))
  | SqlInteger => Ok (DecimalOfInt (CellInt Cell))
  | SqlReal => Ok (DecimalOfDouble (CellReal Cell))
  | SqlText =>
      Value ← ParsePyDecimal (CellText Cell);
      match Value with
      | Some D => Ok D
      | None =>
          Throw (DiaphoraWouldRaise (Site ++ B " decimal.InvalidOperation")
            (B "[<class 'decimal.ConversionSyntax'>] for '" ++ CellText Cell ++ B "'"))
      end
  end.

Definition DecimalEquals (A C : PyDecimal) : res bool :=
  if bool_decide (DecKind A = SignalingNaN) || bool_decide (DecKind C = SignalingNaN) then
    Throw (DiaphoraWouldRaise (B "D:1305 decimal.InvalidOperation") (B "comparison with a signaling NaN"))
  else if bool_decide (DecKind A = QuietNaN) || bool_decide (DecKind C = QuietNaN) then Ok false
  else if bool_decide (DecKind A = Infinity) || bool_decide (DecKind C = Infinity) then
    Ok (bool_decide (DecKind A = DecKind C) && Bool.eqb (DecNegative A) (DecNegative C))
  else if bool_decide (Coefficient A = []) || bool_decide (Coefficient C = []) then
    Ok (bool_decide (Coefficient A = []) && bool_decide (Coefficient C = []))
  else Ok (Bool.eqb (DecNegative A) (DecNegative C) && bool_decide (Coefficient A = Coefficient C)
           && (Exponent A =? Exponent C)%Z).

(** [json.loads] of a fetched cell. *)
Definition JsonOfCell (Cell : SqlCell) (Site : text) : res PyValue :=
  match CellType Cell with
  | SqlText =>
      match default (Throw (CxxException (B "the model's fuel ran out"))) (PyJsonLoads (CellText Cell)) with
      | Throw (DiaphoraWouldRaise Inner Detail) => Throw (DiaphoraWouldRaise (Site ++ B " " ++ Inner) Detail)
      | other => other
      end
  | SqlNull => Throw (DiaphoraWouldRaise (Site ++ B " TypeError")
                        (B "the JSON object must be str, bytes or bytearray, not NoneType"))
  | SqlInteger => Throw (DiaphoraWouldRaise (Site ++ B " TypeError")
                           (B "the JSON object must be str, bytes or bytearray, not int"))
  | SqlReal => Throw (DiaphoraWouldRaise (Site ++ B " TypeError")
                        (B "the JSON object must be str, bytes or bytearray, not float"))
  | SqlBlob => Throw (UnsupportedInput
                        (B "check_callgraph: a BLOB callgraph_all_primes is not ported (json.loads of bytes)"))
  end.

(** ** The numbers of [jkutils/factor.py] *)

Record PyNumber := MkNumber { IsFloat : bool; IntOf : BigInt; FloatOf : dbl }.
Definition NumberOfInt (V : BigInt) : PyNumber := MkNumber false V d0.
Definition NumberOfFloat (x : dbl) : PyNumber := MkNumber true BigZero x.

(** The magnitude of canonical digits; ["0"] is zero. *)
Definition big_of_digits (Digits : text) : BigInt :=
  let '(Negative, Digits) :=
    match Digits with
    | Ch :: Digits' => if bool_decide (Ch = x2d) then (true, Digits') else (false, Digits)
    | [] => (false, [])
    end in
  let M := if bool_decide (Digits = B "0") then [] else Digits in
  MkBigInt (Negative && negb (bool_decide (M = []))) M.

Definition AsNumber (V : PyValue) : option PyNumber :=
  match V with
  | PyBool b => Some (NumberOfInt (MkBigInt false (if b then B "1" else [])))
  | PyInt Digits => Some (NumberOfInt (big_of_digits Digits))
  | PyFloat_ x => Some (NumberOfFloat x)
  | _ => None
  end.

Definition IntEqualsFloat (I : BigInt) (F : dbl) : bool :=
  if negb (d_isfinite F) || negb (deq F (dfloor F)) then false
  else
    let D := DecimalOfDouble F in
    if bool_decide (Coefficient D = []) then bool_decide (Mag I = [])
    else Bool.eqb (BigNegative I) (DecNegative D)
         && bool_decide (Mag I = Coefficient D ++ replicate (Z.to_nat (Exponent D)) x30).

Definition PyNotEqual (A C : PyValue) : bool :=
  match AsNumber A, AsNumber C with
  | Some X, Some Y =>
      if negb (IsFloat X) && negb (IsFloat Y) then
        negb (Bool.eqb (BigNegative (IntOf X)) (BigNegative (IntOf Y)))
        || negb (bool_decide (Mag (IntOf X) = Mag (IntOf Y)))
      else if IsFloat X && IsFloat Y then negb (deq (FloatOf X) (FloatOf Y))
      else if IsFloat X then negb (IntEqualsFloat (IntOf Y) (FloatOf X))
      else negb (IntEqualsFloat (IntOf X) (FloatOf Y))
  | _, _ => negb (PyEquals A C)
  end.

Definition IntTooLarge (Site : text) : exn :=
  DiaphoraWouldRaise (Site ++ B " OverflowError") (B "int too large to convert to float").

Definition dsub (x y : dbl) : dbl := SFsub 53 1024 x y.

(** A number as a double, where the site converts integers. *)
Definition float_at (Site : text) (N : PyNumber) : res dbl :=
  if IsFloat N then Ok (FloatOf N)
  else if FloatOverflows (IntOf N) then Throw (IntTooLarge Site) else BigToDouble (IntOf N).

Definition MaxMinusMin (A C : PyValue) : res PyNumber :=
  match AsNumber A, AsNumber C with
  | Some X, Some Y =>
      if negb (IsFloat X) && negb (IsFloat Y) then Ok (NumberOfInt (BigAbsDiff (IntOf X) (IntOf Y)))
      else
        Fx ← float_at (B "jkutils/factor.py:222") X;
        Fy ← float_at (B "jkutils/factor.py:222") Y;
        Ok (NumberOfFloat (dabs (dsub Fx Fy)))
  | _, _ =>
      Throw (DiaphoraWouldRaise (B "jkutils/factor.py:222 TypeError") (B "max()/min()/- of non-numeric JSON values"))
  end.

(** [sum], from the left: exact until the first float. *)
Definition sum_step (Site : text) (Acc V : PyNumber) : res PyNumber :=
  if negb (IsFloat Acc) && negb (IsFloat V) then Ok (NumberOfInt (BigAdd (IntOf Acc) (IntOf V)))
  else
    a ← float_at Site Acc;
    v ← float_at Site V;
    Ok (NumberOfFloat (dadd a v)).

Fixpoint sum_loop (Site : text) (Values : list PyNumber) (Acc : PyNumber) : res PyNumber :=
  match Values with
  | [] => Ok Acc
  | V :: Values' => Acc ← sum_step Site Acc V; sum_loop Site Values' Acc
  end.
Definition SumValues (Values : list PyNumber) (Site : text) : res PyNumber :=
  sum_loop Site Values (NumberOfInt BigZero).

Fixpoint NumbersOf (Values : list PyValue) (Site : text) : res (list PyNumber) :=
  match Values with
  | [] => Ok []
  | V :: Values' =>
      match AsNumber V with
      | Some N => Rest ← NumbersOf Values' Site; Ok (N :: Rest)
      | None => Throw (DiaphoraWouldRaise (Site ++ B " TypeError") (B "unsupported operand type(s) for +"))
      end
  end.

(** ** [get_callgraph_difference] *)

Record CallgraphOutcome := MkOutcome { OutcomeEqual : bool; OutcomePercent : option dbl }.

Definition key_of (Key : PyValue) : text := match Key with PyStr_ t => t | _ => [] end.

Fixpoint member_value (Key : text) (Members : list (PyValue * PyValue)) : option PyValue :=
  match Members with
  | [] => None
  | (K, V) :: Members' => if bool_decide (key_of K = Key) then Some V else member_value Key Members'
  end.

(** [diffs[key] = value]: a key keeps its first position. *)
Definition Entry : Type := PyNumber + PyValue.
Fixpoint Assign (Key : text) (E : Entry) (Diffs : list (text * Entry)) : list (text * Entry) :=
  match Diffs with
  | [] => [(Key, E)]
  | (K, E') :: Diffs' => if bool_decide (K = Key) then (K, E) :: Diffs' else (K, E') :: Assign Key E Diffs'
  end.

(** One of the two loops: [Other] is the dict that is not walked. *)
Fixpoint diffs_loop (Swap : bool) (Members Other : list (PyValue * PyValue)) (Diffs : list (text * Entry))
    : res (list (text * Entry)) :=
  match Members with
  | [] => Ok Diffs
  | (K, V) :: Members' =>
      let Key := key_of K in
      match member_value Key Other with
      | Some W =>
          if PyNotEqual V W then
            N ← (if Swap then MaxMinusMin W V else MaxMinusMin V W);
            diffs_loop Swap Members' Other (Assign Key (inl N) Diffs)
          else diffs_loop Swap Members' Other Diffs
      | None => diffs_loop Swap Members' Other (Assign Key (inr V) Diffs)
      end
  end.

Fixpoint entry_numbers (Diffs : list (text * Entry)) : res (list PyNumber) :=
  match Diffs with
  | [] => Ok []
  | (_, E) :: Diffs' =>
      N ← match E with
          | inl N => Ok N
          | inr V =>
              match AsNumber V with
              | Some N => Ok N
              | None => Throw (DiaphoraWouldRaise (B "jkutils/factor.py:242 TypeError")
                                 (B "unsupported operand type(s) for +"))
              end
          end;
      Rest ← entry_numbers Diffs';
      Ok (N :: Rest)
  end.

Definition is_zero_int (N : PyNumber) : bool := negb (IsFloat N) && bool_decide (Mag (IntOf N) = []).
Definition is_big_int (N : PyNumber) : bool := negb (IsFloat N) && FloatOverflows (IntOf N).

(** The percentage of the two sums; unknown when a float took part. *)
Definition percent_of (Diff Total : PyNumber) : res CallgraphOutcome :=
  let zero := Ok (MkOutcome false (Some d0)) in
  let unknown := Ok (MkOutcome false None) in
  if is_zero_int Total then zero
  else if IsFloat Total then
    if is_zero_int Diff then zero
    else if is_big_int Diff then
      Throw (UnsupportedInput (B "check_callgraph: NOT PORTED: a float sum() zero test (total == 0, D:1316) decides whether an int too large for a double is converted (D:1319)"))
    else unknown
  else if is_zero_int Diff then zero
  else if IsFloat Diff then
    if is_big_int Total then
      Throw (UnsupportedInput (B "check_callgraph: NOT PORTED: a float sum() zero test (diff == 0, D:1316) decides whether an int too large for a double is converted (D:1319)"))
    else unknown
  else if is_big_int Diff || is_big_int Total then Throw (IntTooLarge (B "D:1319"))
  else
    d ← BigToDouble (IntOf Diff);
    t ← BigToDouble (IntOf Total);
    Ok (MkOutcome false (Some (ddiv (dmul d (d_of_Z 100)) t))).

Definition factor_sums (Members1 Members2 : list (PyValue * PyValue)) : res (PyNumber * PyNumber) :=
  Diffs ← diffs_loop false Members1 Members2 [];
  Diffs ← diffs_loop true Members2 Members1 Diffs;
  DiffValues ← entry_numbers Diffs;
  Diff ← SumValues DiffValues (B "jkutils/factor.py:242");
  Values1 ← NumbersOf (map snd Members1) (B "D:1315");
  Total ← SumValues Values1 (B "D:1315");
  Ok (Diff, Total).

Definition CallgraphDifference (Cg1 : PyDecimal) (Factors1 : PyValue) (Cg2 : PyDecimal) (Factors2 : PyValue)
    : res CallgraphOutcome :=
  Same ← DecimalEquals Cg1 Cg2;
  if Same : bool then Ok (MkOutcome true (Some d0))
  else
    match Factors1, Factors2 with
    | PyDict Members1, PyDict Members2 =>
        '(Diff, Total) ← factor_sums Members1 Members2;
        percent_of Diff Total
    | PyDict Members1, _ =>
        Throw (DiaphoraWouldRaise
          (if bool_decide (length Members1 = 0) then B "jkutils/factor.py:226 AttributeError"
           else B "jkutils/factor.py:220 AttributeError")
          (B "the diff callgraph_all_primes JSON is not an object"))
    | _, _ => Throw (DiaphoraWouldRaise (B "jkutils/factor.py:219 AttributeError")
                       (B "the main callgraph_all_primes JSON is not an object"))
    end.

(** ** The stages *)

Definition kVersionValue : text := B "3.4".

Section Preflight.
Context `{!Sqlite}.

Definition RequireDecodableAt (Q : Cursor) (n : nat) : res unit :=
  c ← cell_at Q n;
  if bad_utf8_cell c then
    Throw (DiaphoraWouldRaise (B "fetch")
      (B "OperationalError: Could not decode to UTF-8 column '" ++ default [] (CursorNames Q !! n) ++ B "'"))
  else Ok tt.

Fixpoint RequireRowDecodable (Q : Cursor) (Columns : list nat) : res unit :=
  match Columns with
  | [] => Ok tt
  | n :: Columns' => _ ← RequireDecodableAt Q n; RequireRowDecodable Q Columns'
  end.

Definition CountValue (Q : Cursor) (n : nat) (What : text) : res Z :=
  c ← cell_at Q n;
  if bool_decide (Type_ c = SqlInteger) then Ok (Int_ c)
  else Throw (UnsupportedInput (What ++ B ": the count is not an INTEGER")).

(** The query inside the [try]: [None] is a failed one. *)
Definition version_row : res (option (Cursor * bool)) :=
  match (Q ← Prepare kSqlVersion []; let '(Q, More) := Step Q in More ← More; Ok (Q, More)) with
  | Ok r => Ok (Some r)
  | Throw (DiaphoraWouldRaise _ _) => Ok None
  | Throw e => Throw e
  end.

(** A database of another version only draws a warning. *)
Definition StageCheckVersion : res bool :=
  Row ← version_row;
  match Row with
  | Some (Q, true) => _ ← RequireDecodableAt Q 0; _ ← (Step Q).2; Ok true
  | _ => Ok false
  end.

Definition count_query (Sql : text) : res Z :=
  Q ← Prepare Sql [];
  let '(Q, More) := Step Q in
  _ ← More;
  CountValue Q 0 (B "equal_db").

Definition EqualDbValue : res bool :=
  Md5 ← count_query kSqlEqualDbMd5;
  if (Md5 =? 1)%Z then Ok true else Except ← count_query kSqlEqualDbExcept; Ok (Except =? 0)%Z.

Definition set_equal_db (v : bool) (F : EarlyFacts) : EarlyFacts :=
  MkFacts (Some v) (EqualRows F) (Stripped F) (Patch F) (SameNameRows F) (SameNameSkippedSub F) (SameNameLoopRan F)
    (RemainingMainUnmatched F) (RemainingDiffUnmatched F) (RemainingQueries F).

(** Every row is fetched before any is used. *)
Fixpoint program_rows (Q : Cursor) (Ahead : list (list Column)) : res (list (SqlCell * SqlCell)) :=
  match Ahead with
  | [] => match CursorError Q with Some e => ThrowSqlError e (B "sqlite3_step") | None => Ok [] end
  | Row :: Ahead' =>
      let Q := MkCursor (CursorNames Q) Row Ahead' (CursorError Q) in
      _ ← RequireRowDecodable Q (seq 0 (length (CursorNames Q)));
      primes ← cell_of Q (CursorColumn Q (B "callgraph_primes"));
      all ← cell_of Q (CursorColumn Q (B "callgraph_all_primes"));
      Rest ← program_rows Q Ahead';
      Ok ((Cell primes, Cell all) :: Rest)
  end.

(** [EarlyFacts::CallgraphLog]. *)
Definition CallgraphLine (Outcome : CallgraphOutcome) : option text :=
  match OutcomePercent Outcome with
  | None => None
  | Some Percent =>
      Some (if deq Percent d0 then B "Call graphs are 100% equal"
            else if dge Percent (d_of_Z 100) then B "Call graphs are absolutely different"
            else B "Call graphs from both programs differ in " ++ PyReprFloat Percent ++ B "%")
  end.

Definition StageCheckCallgraph : res (option text) :=
  Q ← Prepare kSqlCallgraph [];
  Rows ← program_rows Q (CursorAhead Q);
  match Rows with
  | [(p1, a1); (p2, a2)] =>
      Cg1 ← DecimalOfCell p1 (B "D:1300");
      Factors1 ← JsonOfCell a1 (B "D:1301");
      Cg2 ← DecimalOfCell p2 (B "D:1302");
      Factors2 ← JsonOfCell a2 (B "D:1303");
      Outcome ← CallgraphDifference Cg1 Factors1 Cg2 Factors2;
      Ok (CallgraphLine Outcome)
  | _ => Throw (DiaphoraWouldRaise (B "D:1322 Exception")
                  (B "Not enough rows in databases! Size is " ++ dec_text (Z.of_nat (length Rows))))
  end.

Definition StageSameProcessor : res bool :=
  Q ← Prepare kSqlSameProcessor [];
  let '(Q, More) := Step Q in
  Ret ← More;
  if Ret : bool then _ ← (Step Q).2; Ok true else Ok false.
End Preflight.
