(* ===== verification/Pipeline.v ===== *)
(** * The pipeline (src/src/diff/Pipeline.cpp, include/dsigmatcher/diff/Checkpoint.h)

    [RunPipeline]: the passes of [diff()] in order, the convergence loop, and the
    cursor of the checkpoints, which says at every completed step where a resumed
    run goes on. The run's state is the session with the cursor and the checkpoints
    offered so far. The engine of the program is put together at the end:
    [RatioEngine] with the patch-diff hook. *)

From stdpp Require Import base numbers gmap sets list.
From Stdlib Require Import ZArith Lia.
From S2P Require Import Prelude Dbl Decimal Interner MatchState FinalPass Unmatched SessionData PatchDiffHook Consumer.
From S2P Require Import SideTables FunctionTable RatioEngine StageSql Sql EarlyStages TierStages LoopStages Preflight.

(** ** Steps and cursors *)

Inductive PipelineStep :=
| NoStep | EqualMatches | DirtyHeuristics | SameNameStep | RemainingFunctions | BestCategory
| PartialCategory | SmallDifferences | LoopCleanupTop | MatchesDiffing | RelatedMatches
| RelatedCompilationUnit | LocallyAffine | LoopCleanupBottom | FinalPassStep | FindUnmatchedStep.

#[export] Instance PipelineStep_eq_dec : EqDecision PipelineStep.
Proof. solve_decision. Defined.

Definition AllSteps : list PipelineStep :=
  [NoStep; EqualMatches; DirtyHeuristics; SameNameStep; RemainingFunctions; BestCategory; PartialCategory;
   SmallDifferences; LoopCleanupTop; MatchesDiffing; RelatedMatches; RelatedCompilationUnit; LocallyAffine;
   LoopCleanupBottom; FinalPassStep; FindUnmatchedStep].

(** The enumerator's value: the order of execution. *)
Definition step_index (s : PipelineStep) : Z :=
  match s with
  | NoStep => 0 | EqualMatches => 1 | DirtyHeuristics => 2 | SameNameStep => 3 | RemainingFunctions => 4
  | BestCategory => 5 | PartialCategory => 6 | SmallDifferences => 7 | LoopCleanupTop => 8 | MatchesDiffing => 9
  | RelatedMatches => 10 | RelatedCompilationUnit => 11 | LocallyAffine => 12 | LoopCleanupBottom => 13
  | FinalPassStep => 14 | FindUnmatchedStep => 15
  end.

Definition IsLoopStep (s : PipelineStep) : bool :=
  (step_index LoopCleanupTop <=? step_index s)%Z && (step_index s <=? step_index LoopCleanupBottom)%Z.

Record PipelineCursor := MkPosition {
  Done : PipelineStep;
  IterationAt : Z;
  SkipOthers : bool;
  OldTotal : Z;
}.
Definition StartCursor : PipelineCursor := MkPosition NoStep 0 false 0.

Definition set_Done (s : PipelineStep) (c : PipelineCursor) : PipelineCursor :=
  MkPosition s (IterationAt c) (SkipOthers c) (OldTotal c).
Definition set_IterationAt (i : Z) (c : PipelineCursor) : PipelineCursor :=
  MkPosition (Done c) i (SkipOthers c) (OldTotal c).
Definition set_SkipOthers (b : bool) (c : PipelineCursor) : PipelineCursor :=
  MkPosition (Done c) (IterationAt c) b (OldTotal c).
Definition set_OldTotal (n : Z) (c : PipelineCursor) : PipelineCursor :=
  MkPosition (Done c) (IterationAt c) (SkipOthers c) n.

(** What the pipeline asks of the ratio engine itself. *)
Class EngineSetup (X : Type) := {
  ClearEngineCache : X -> X;
  PrepareEngine : DiffFlags -> M X unit;
}.

(** A run: the session, where it stands, and the checkpoints offered so far. *)
Record Run (X : Type) := MkRun {
  RunSession : Session X;
  Position : PipelineCursor;
  Saved : list (PipelineCursor * Session X);
}.
Arguments MkRun {X}.
Arguments RunSession {X}.
Arguments Position {X}.
Arguments Saved {X}.

(** A query of two columns as [FindUnmatched] reads it. *)
Definition unmatched_cell (c : Column) : Unmatched.SqlCell :=
  match Type_ c with
  | SqlNull => Unmatched.CellNull
  | SqlText => Unmatched.CellText (Text_ c)
  | _ => Unmatched.CellOther
  end.

Section Pipeline.
Context {X : Type} `{!Engine X, !HookReset X, !EngineSetup X, !Sqlite}.
Context (Tables : sided FunctionTable) (Problems : list text) (CuNative : bool).

(** ** The last passes, on the session *)

Definition fill_choosers : M (Session X) unit :=
  fun S =>
    let '(F, r) := distribute (Ids S) (State S) (Final (Stages S)) in
    (with_stages (set_Final F (Stages S)) S, r).
Definition SessionFinalPass : M (Session X) unit := SessionCleanup L2945;; fill_choosers.

Definition step_failure (c : Cursor) : option exn :=
  match CursorError c with
  | None => None
  | Some e => match ThrowSqlError e (B "sqlite3_step") : res unit with Throw e => Some e | Ok _ => None end
  end.

Definition query_run (Sql : text) : res QueryRun :=
  Q ← Prepare Sql [];
  let column n := default [] (CursorNames Q !! n) in
  let cell n (Row : list Column) := match Row !! n with Some c => unmatched_cell c | None => Unmatched.CellNull end in
  Ok (MkQueryRun (column 0, column 1) (map (fun Row => (cell 0 Row, cell 1 Row)) (CursorAhead Q)) (step_failure Q)).

Definition SessionFindUnmatched : M (Session X) unit :=
  fun S =>
    let '(U, r) := StageFindUnmatched query_run (MkUnmatchedSession (Ids S) (State S) (Final (Stages S))) in
    (with_ids (UIds U) (with_stages (set_Final (UFinal U) (Stages S)) S), r).

(** [DiffSession::RequireIngest]. *)
Fixpoint join_problems (l : list text) : text :=
  match l with [] => [] | [p] => p | p :: l' => p ++ B "; " ++ join_problems l' end.
Definition RequireIngest : M (Session X) unit :=
  if bool_decide (join_problems Problems = []) then mret tt
  else throw (UnsupportedInput (B "export not supported: " ++ join_problems Problems)).

Definition SetIteration (i : option Z) : M (Session X) unit := on_stages (set_Iteration i).

Definition StagePrepare : M (Session X) unit :=
  S ← get; engine_call (PrepareEngine (Flags S)).

(** One stage of the loop between its two points. *)
Definition LoopStage (Name : text) (Iteration_ : Z) (Stage : M (Session X) unit) : M (Session X) unit :=
  let Base := Name ++ B ":" ++ dec_text Iteration_ in
  Point (B "before:" ++ Base);;
  Stage;;
  Point (B "after:" ++ Base).

(** ** The run *)

Definition on_run {A} (m : M (Session X) A) : M (Run X) A :=
  fun r => let '(ss, a) := m (RunSession r) in (MkRun ss (Position r) (Saved r), a).
Definition on_position (f : PipelineCursor -> PipelineCursor) : M (Run X) unit :=
  modify (fun r => MkRun (RunSession r) (f (Position r)) (Saved r)).

(** [Save]: the completed step is offered as a checkpoint. *)
Definition SaveStep (Step : PipelineStep) : M (Run X) unit :=
  on_position (set_Done Step);;
  modify (fun r => MkRun (RunSession r) (Position r) (Saved r ++ [(Position r, RunSession r)])).

Definition when (b : bool) (m : M (Run X) unit) : M (Run X) unit := if b then m else mret tt.

(** A step between its points, then its checkpoint. *)
Definition pointed (Name : text) (Stage : M (Session X) unit) : M (Session X) unit :=
  Point (B "before:" ++ Name);; Stage;; Point (B "after:" ++ Name).
Definition saved_step (Step : PipelineStep) (m : M (Session X) unit) : M (Run X) unit :=
  on_run m;; SaveStep Step.

(** The checks and the equal matches; [false]: not a database of Diaphora. *)
Definition preflight : M (Session X) bool :=
  modify (fun S => with_ext (ClearEngineCache (Ext S)) S);;
  SetIteration None;;
  Version ← liftR StageCheckVersion;
  if negb Version then mret false
  else
    RequireIngest;;
    Equal ← liftR EqualDbValue;
    on_facts (set_equal_db Equal);;
    _ ← liftR StageCheckCallgraph;
    StageFindEqualMatches;;
    Point (B "after:find_equal_matches");;
    mret true.

Definition dirty_step : M (Session X) bool :=
  Same ← liftR StageSameProcessor;
  set_flags (fun F => MkFlags Same (IsPatchDiff F) (IsSymbolsStripped F) (HooksLoaded F));;
  StagePrepare;;
  S ← get;
  if Experimental (Config S) then
    Skip ← StageApplyDirtyHeuristics Tables;
    Point (B "after:apply_dirty_heuristics");;
    mret Skip
  else mret false.

Definition TotalNow : M (Session X) Z := S ← get; mret (Z.of_nat (TotalMatchedFunctions (State S))).

(** The cleanup at the head of a round and the count it starts from. *)
Definition loop_head : M (Run X) Z :=
  on_run (SessionCleanup L3655);;
  Total ← on_run TotalNow;
  on_position (set_OldTotal Total);;
  SaveStep LoopCleanupTop;;
  mret Total.

(** The four stages of a round that are still to do. *)
Definition loop_stages (Iteration_ : Z) (LoopDone : PipelineStep) : M (Run X) unit :=
  let stage s Name m :=
    when (step_index LoopDone <? step_index s)%Z (saved_step s (LoopStage Name Iteration_ m)) in
  stage MatchesDiffing (B "find_matches_diffing") (StageFindMatchesDiffing Tables);;
  r ← get;
  when (SlowHeuristics (Config (RunSession r)))
    (stage RelatedMatches (B "find_related_matches") (StageFindRelatedMatches Tables));;
  stage RelatedCompilationUnit (B "find_related_compilation_unit")
    (StageFindRelatedCompilationUnit Tables CuNative);;
  stage LocallyAffine (B "find_locally_affine_functions") (StageFindLocallyAffineFunctions Tables).

(** One round of the loop; [LoopDone] is the step of this round already done. *)
Definition loop_round (Iteration_ : Z) (LoopDone : PipelineStep) (Old : Z) : M (Run X) bool :=
  let pending s := (step_index LoopDone <? step_index s)%Z in
  on_position (set_IterationAt Iteration_);;
  on_run (SetIteration (Some Iteration_));;
  Old ← (if pending LoopCleanupTop then loop_head else mret Old);
  loop_stages Iteration_ LoopDone;;
  when (pending LoopCleanupBottom) (saved_step LoopCleanupBottom (SessionCleanup L3671));;
  Total ← on_run TotalNow;
  mret (Total <=? Old)%Z.

(** [while (true)]: [false] when the rounds ran out before the loop ended. *)
Fixpoint convergence (rounds : nat) (Iteration_ : Z) (LoopDone : PipelineStep) (Old : Z) : M (Run X) bool :=
  match rounds with
  | O => mret false
  | Datatypes.S rounds' =>
      Stop ← loop_round Iteration_ LoopDone Old;
      if Stop : bool then mret true
      else r ← get; convergence rounds' (Iteration_ + 1) NoStep (OldTotal (Position r))
  end.

(** The passes after the dirty heuristics, up to the loop. *)
Definition heuristic_passes (done : PipelineStep -> bool) : M (Run X) unit :=
  when (negb (done BestCategory)) (saved_step BestCategory (StageRunHeuristicsForCategory Tables CatBest));;
  when (negb (done PartialCategory)) (saved_step PartialCategory (StageFindPartialMatchesCategory Tables));;
  when (negb (done SmallDifferences)) (saved_step SmallDifferences (StageFindPartialMatchesSmallDifferences Tables)).

Definition last_passes (done : PipelineStep -> bool) : M (Run X) unit :=
  on_run (SetIteration None);;
  on_position (set_IterationAt 0);;
  when (negb (done FinalPassStep)) (saved_step FinalPassStep (pointed (B "final_pass") SessionFinalPass));;
  when (negb (done FindUnmatchedStep))
    (saved_step FindUnmatchedStep (SessionFindUnmatched;; Point (B "after:find_unmatched")));;
  on_run LogFinalResults.

(** The remaining functions after a dirty heuristic, or the heuristics and the
    loop; [false] when the rounds ran out. *)
Definition middle_passes (rounds : nat) (Resume : option PipelineCursor) (done : PipelineStep -> bool) (Skip : bool)
    : M (Run X) bool :=
  if Skip then
    when (negb (done RemainingFunctions))
      (saved_step RemainingFunctions (pointed (B "find_remaining_functions") (StageFindRemainingFunctions Tables)));;
    mret true
  else
    heuristic_passes done;;
    if negb (done FinalPassStep) then
      r ← get;
      match Resume with
      | Some c => if IsLoopStep (Done c) then convergence rounds (IterationAt c) (Done c) (OldTotal (Position r))
                  else convergence rounds 0 NoStep (OldTotal (Position r))
      | None => convergence rounds 0 NoStep (OldTotal (Position r))
      end
    else mret true.

(** [Some true]: the results are complete; [None]: the rounds ran out. *)
Definition finish (done : PipelineStep -> bool) (Ended : bool) : M (Run X) (option bool) :=
  if Ended then last_passes done;; mret (Some true) else mret None.

Definition main_passes (rounds : nat) (Resume : option PipelineCursor) (done : PipelineStep -> bool) (Skip : bool)
    : M (Run X) (option bool) :=
  r ← get;
  when (negb (IgnoreAllNames (Config (RunSession r))) && negb (done SameNameStep))
    (saved_step SameNameStep (pointed (B "find_same_name") (StageFindSameName Tables)));;
  Ended ← middle_passes rounds Resume done Skip;
  finish done Ended.

Definition start_cursor (Resume : option PipelineCursor) : PipelineCursor := default StartCursor Resume.

(** [Resume->Done >= Step]. *)
Definition step_done (Resume : option PipelineCursor) (s : PipelineStep) : bool :=
  match Resume with Some c => (step_index s <=? step_index (Done c))%Z | None => false end.

Definition first_passes (Resume : option PipelineCursor) : M (Run X) bool :=
  match Resume with
  | None => Valid ← on_run preflight; when Valid (SaveStep EqualMatches);; mret Valid
  | Some _ => on_run RequireIngest;; mret true
  end.

Definition dirty_passes (done : PipelineStep -> bool) : M (Run X) bool :=
  if negb (done DirtyHeuristics) then
    Skip ← on_run dirty_step;
    on_position (set_SkipOthers Skip);;
    SaveStep DirtyHeuristics;;
    mret Skip
  else
    on_run StagePrepare;;
    r ← get;
    mret (SkipOthers (Position r)).

Definition RunPipeline (rounds : nat) (Resume : option PipelineCursor) : M (Run X) (option bool) :=
  let done := step_done Resume in
  on_position (fun _ => start_cursor Resume);;
  Valid ← first_passes Resume;
  if negb Valid then mret (Some false)
  else Skip ← dirty_passes done; main_passes rounds Resume done Skip.
End Pipeline.

(** ** The engine of the program *)

Record EngineState := MkEngineState { ImplOf : Impl; HookOf : HookState }.

Section RealEngine.
Context (Tables : sided FunctionTable).

Definition on_impl {A} (m : M Impl A) : M EngineState A :=
  fun x => let '(i, a) := m (ImplOf x) in (MkEngineState i (HookOf x), a).

Definition hook_call (ids : Interners) (Row : HeuristicRow) (R : dbl) : M EngineState unit :=
  fun x =>
    match OnMatch (fun s => Assembly (at_side s Tables)) (fun s => Pseudocode (at_side s Tables)) ids Row R (HookOf x) with
    | Some (h, a) => (MkEngineState (ImplOf x) h, a)
    | None => (x, Throw (CxxException (B "out of fuel")))
    end.

#[export] Instance RatioEngine_engine : Engine EngineState := {
  CheckRatio ids F Row := on_impl (RatioEngine.CheckRatio Tables (IsSameProcessor F) ids Row RatioEngine.Sql);
  CompareFunctionRows ids F M_ D_ :=
    on_impl (RatioEngine.CompareFunctionRows Tables (IsSameProcessor F) ids M_ D_);
  PatchDiffHookOnMatch := hook_call;
}.

#[export] Instance RatioEngine_setup : EngineSetup EngineState := {
  ClearEngineCache x := MkEngineState (ClearCache (ImplOf x)).1 (HookOf x);
  PrepareEngine _ := on_impl (PrepareAll Tables);
}.

(** A hook loaded anew: the pairs it has seen are forgotten. *)
#[export] Instance RatioEngine_hook : HookReset EngineState :=
  fun x => MkEngineState (ImplOf x) (MkHookState ∅ (HookAnalysed (HookOf x)) (HookFound (HookOf x))).
End RealEngine.
