(* ===== verification/SourcesSpec.v ===== *)
(** * What the queries of the engine yield

    The names a connection answers are names of the two exports; with that, the
    rows of a [SqlRowSource] and of a [CuReplaySource] are rows a session may
    store, and fetched function rows lie in the tables. A [CuReplaySource] yields
    the cartesian product of its rows in order. *)

From stdpp Require Import base numbers gmap sets list.
From Stdlib Require Import ZArith Lia.
From S2P Require Import Prelude Dbl Interner Utf8 TextDiff MatchState Snapshot Unmatched SessionData Consumer ConsumerLoops.
From S2P Require Import SideTables FunctionTable RatioEngine StageSql Sql EarlyStages TierStages LoopStages SessionSpec.

(** ** Interning, over the tables alone *)

Lemma keeps_any {T : Type} `{!StateLike T} {A} ids (x : res A) : keeps ids (liftR x : M T A) (fun _ _ => True).
Proof. by apply keeps_lift. Qed.

#[export] Instance ids_like : StateLike Interners := { t_ids := id; t_ok := wf_ids }.

Lemma keeps_ids_intern {A} ids (f : Interners -> Interners * A) (Q : A -> Interners -> Prop) :
  (forall ids, ids_le ids (f ids).1) ->
  (forall b, ids_le ids b -> wf_ids b -> small_ids (f b).1 -> Q (f b).2 (f b).1) ->
  keeps ids (fun b => let '(b', a) := f b in (b', Ok a)) Q.
Proof.
  intros Hle HQ b b' r L Hw. pose proof (Hle b) as H. specialize (HQ b L Hw). destruct (f b) as [c a].
  intros [= <- <-] Hs. cbn in *. split; [by eapply ids_le_wf|]. intros a' [= <-]. by apply HQ.
Qed.

Lemma extends_ids_intern {A} (f : Interners -> Interners * A) : (forall ids, ids_le ids (f ids).1) ->
  Extends (fun b : Interners => let '(b', a) := f b in (b', Ok a)).
Proof. intros Hf b b' r. pose proof (Hf b). destruct (f b). by intros [= <- <-]. Qed.

#[export] Instance extends_InternName t : Extends (InternName t).
Proof. apply (extends_ids_intern (Name t)), Name_le. Qed.
#[export] Instance extends_InternAddr t : Extends (InternAddr t).
Proof. apply (extends_ids_intern (Addr t)), Addr_le. Qed.
#[export] Instance extends_InternDesc t : Extends (InternDesc t).
Proof. apply (extends_ids_intern (Desc t)), Desc_le. Qed.

(** A chain of growing tables. *)
Ltac les :=
  match goal with
  | |- ids_le ?a ?a => reflexivity
  | H : ids_le ?a ?b |- ids_le ?a ?b => exact H
  | H : ids_le ?c ?b |- ids_le _ ?b => transitivity c; [les|exact H]
  end.

(** A name whose text, as Python prints it, is one of [N]. *)
Definition named (N : gset text) (ids : Interners) (n : NameId) : Prop :=
  exists t, NameKeyText n ids = Ok t /\ t ∈ N.

Lemma named_mono N a b n : ids_le a b -> named N a n -> named N b n.
Proof. intros Hle (t & E & Ht). exists t. split; [by eapply NameKeyText_mono|done]. Qed.

Lemma keeps_InternName ids t : keeps ids (InternName t) (fun n b => known_name b n /\ NameKeyText n b = Ok t).
Proof.
  apply (keeps_ids_intern ids (Name t)); [apply Name_le|]. intros b _ Hw Hs.
  destruct (Name_text t b Hw Hs) as (E & _ & K). done.
Qed.
Lemma keeps_InternAddr ids t : keeps ids (InternAddr t) (fun a b => known_addr b a).
Proof. apply (keeps_ids_intern ids (Addr t)); [apply Addr_le|]. intros b _ Hw Hs. by apply Addr_text. Qed.
Lemma keeps_InternDesc ids t : keeps ids (InternDesc t) (fun d b => known d (Descs_ b)).
Proof. apply (keeps_ids_intern ids (Desc t)); [apply Desc_le|]. intros b _ Hw Hs. by apply Desc_known. Qed.

(** ** Rows *)

(** The text of a name cell: NULL is [None]. *)
Definition name_cell (N : gset text) (c : Column) : Prop :=
  match Type_ c with
  | SqlNull => B "None" ∈ N
  | SqlText => Text_ c ∈ N
  | _ => True
  end.

Definition column_named (N : gset text) (n : option nat) (Row : list Column) : Prop :=
  forall i c, n = Some i -> Row !! i = Some c -> name_cell N c.

(** The rows of a query of SELECT_FIELDS. *)
Definition query_named `{!Sqlite} (N1 N2 : gset text) (Sql : text) : Prop :=
  forall Binds Stmt Cols, Start Sql Binds = Ok (Stmt, Cols) ->
    Forall (fun Row => column_named N1 (Some (ColName1 Cols)) Row /\ column_named N2 (Some (ColName2 Cols)) Row)
      (CursorAhead Stmt).

(** A table whose ids are in use. *)
Record table_named (N : gset text) (ids : Interners) (T : FunctionTable) : Prop := {
  tn_addrs : Forall (known_addr ids) (AddrIdOf T);
  tn_names : Forall (fun n => known_name ids n /\ named N ids n) (NameIdOf T);
  tn_rows : forall a r, FindRow a T = Some r -> (0 <= r)%Z;
}.

Lemma table_named_mono N a b T : ids_le a b -> table_named N a T -> table_named N b T.
Proof.
  intros Hle []. split; [| |done]; (eapply Forall_impl; [done|]); cbn.
  - intros. by eapply known_addr_mono.
  - intros n [? ?]. split; [by eapply known_name_mono|by eapply named_mono].
Qed.

Lemma at_row_Forall {A} (P : A -> Prop) l n a : Forall P l -> at_row l n = Ok a -> P a.
Proof.
  intros H. unfold at_row. destruct (l !! n) eqn:E; [|done]. intros [= <-]. by eapply Forall_lookup_1.
Qed.

Section Sources.
Context `{!Sqlite} (Tables : sided FunctionTable) (N1 N2 : gset text).

Lemma row_of_address_nonneg ids Which Cell :
  (forall s a r, FindRow a (at_side s Tables) = Some r -> (0 <= r)%Z) ->
  (0 <= row_of_address Tables Which Cell ids)%Z.
Proof.
  intros HF. unfold row_of_address. destruct (Type_ Cell); try done. destruct (FindAddr _ _); [|done].
  destruct (FindRow _ _) eqn:E; [by eapply HF|done].
Qed.

#[export] Instance extends_MapAddress c a : Extends (MapAddress c a).
Proof. unfold MapAddress. solve_extends. Qed.
#[export] Instance extends_MapName c a : Extends (MapName c a).
Proof. unfold MapName. solve_extends. Qed.
#[export] Instance extends_MapDesc c : Extends (MapDesc c).
Proof. unfold MapDesc. solve_extends. Qed.
#[export] Instance extends_read_row Stmt Cols : Extends (read_row Tables Stmt Cols).
Proof. unfold read_row. solve_extends. Qed.

Lemma keeps_MapAddress ids c a : keeps ids (MapAddress c a) (fun a b => known_addr b a).
Proof. unfold MapAddress. destruct (Type_ c); try apply keeps_throw. apply keeps_InternAddr. Qed.
Lemma keeps_MapDesc ids c : keeps ids (MapDesc c) (fun d b => known d (Descs_ b)).
Proof. unfold MapDesc. destruct (Type_ c); try apply keeps_throw. apply keeps_InternDesc. Qed.
Lemma keeps_MapName N ids c a : name_cell N c -> keeps ids (MapName c a) (fun n b => known_name b n /\ named N b n).
Proof.
  unfold MapName, name_cell. intros Hc. destruct (Type_ c); try apply keeps_throw.
  - apply keeps_ret. intros b _. split; [by left|]. by exists (B "None").
  - eapply keeps_weaken; [apply _|apply keeps_InternName|]. intros n b _ [? ?]. split; [done|]. by eexists.
Qed.

(** A row source's row, as far as names go. *)
Definition row_named (ids : Interners) (Row : HeuristicRow) : Prop :=
  row_ok ids Row /\ named N1 ids (RowName1 Row) /\ named N2 ids (RowName2 Row).

Lemma keeps_read_row ids Stmt Cols :
  (forall s a r, FindRow a (at_side s Tables) = Some r -> (0 <= r)%Z) ->
  column_named N1 (Some (ColName1 Cols)) (CursorRow Stmt) -> column_named N2 (Some (ColName2 Cols)) (CursorRow Stmt) ->
  keeps ids (read_row Tables Stmt Cols) (fun Row b => row_named b Row).
Proof.
  intros HT H1 H2. unfold read_row. kbind; [apply keeps_any|]. intros ea i1 L1 _.
  kbind; [apply keeps_any|]. intros ea2 i2 L2 _. apply keeps_get. intros s Ls Hs.
  apply keeps_here; [done|]. kbind; [apply keeps_any|]. intros b1 i3 L3 _.
  kbind; [apply (keeps_if _ _ _ _ (fun _ _ => True)); intros _; [by apply keeps_ret|apply keeps_any]|]. intros bad i4 L4 _.
  apply keeps_if; intros _; [apply keeps_throw|].
  kbind; [apply keeps_any|]. intros _ i5 L5 _.
  kbind; [apply keeps_MapAddress|]. intros Ea1 i6 L6 K6. kbind; [apply keeps_MapAddress|]. intros Ea2 i7 L7 K7.
  kbind; [apply (keeps_lift i7 _ (fun c _ => name_cell N1 c))|].
  { intros c b. unfold cell_at, column_at. destruct (CursorRow Stmt !! _) eqn:E; [|done]. intros [= <-] _. by eapply H1. }
  intros n1 i8 L8 K8. kbind; [by apply (keeps_MapName N1)|]. intros Nm1 i9 L9 [K9 K9'].
  kbind; [apply (keeps_lift i9 _ (fun c _ => name_cell N2 c))|].
  { intros c b. unfold cell_at, column_at. destruct (CursorRow Stmt !! _) eqn:E; [|done]. intros [= <-] _. by eapply H2. }
  intros n2 i10 L10 K10. kbind; [by apply (keeps_MapName N2)|]. intros Nm2 i11 L11 [K11 K11'].
  kbind; [apply keeps_any|]. intros d i12 L12 _. kbind; [apply keeps_MapDesc|]. intros Dd i13 L13 K13.
  kbind; [apply keeps_any|]. intros x1 i14 L14 _. kbind; [apply keeps_any|]. intros x2 i15 L15 _.
  kbind; [apply keeps_any|]. intros x3 i16 L16 _. kbind; [apply keeps_any|]. intros x4 i17 L17 _.
  apply keeps_ret. intros z Lz. cbn beta in *.
  split; [|split; (eapply named_mono; [|eassumption]); les].
  split; cbn; try (by apply row_of_address_nonneg);
    (first [eapply known_addr_mono|eapply known_name_mono|eapply known_desc_mono]; [|eassumption]); les.
Qed.
End Sources.

(** ** The row sources *)

(** The queries the passes drain. *)
Inductive drained_query : text -> Prop :=
| dq_heuristic Id Spec C : Heuristic Id = Ok Spec -> drained_query (ApplyPostfix (HeurSql Spec) (Postfix C))
| dq_stage Sql : Sql ∈ [kSqlStrippedRows; kSqlSameName; kSqlRemainingPair; kSqlSmallDifferences;
                        kSqlRelatedConstants; kSqlCuCartesian] -> drained_query Sql.

(** The names SQLite answers are names of the two exports: [N1] and [N2]. *)
Class QueriesNamed `{!Sqlite} (N1 N2 : gset text) : Prop := {
  qn_drained Sql : drained_query Sql -> query_named N1 N2 Sql;
  qn_equal Stmt Row n c : Prepare kSqlEqualMatches [] = Ok Stmt -> Row ∈ CursorAhead Stmt ->
    CursorColumn Stmt (B "mangled_function") = Some n -> Row !! n = Some c -> name_cell N1 c /\ name_cell N2 c;
  qn_exists a b Stmt Row n c : Prepare kSqlFunctionsExists [BindText a; BindText b] = Ok Stmt ->
    Row ∈ CursorAhead Stmt -> CursorColumn Stmt (B "db_name") = Some n -> Row !! n = Some c ->
    if bool_decide (Text_ c = B "diff") then b ∈ N2 else a ∈ N1;
}.

(** The ids of both tables are in use in [base], and in every later table of texts. *)
Class TablesNamed (N1 N2 : gset text) (base : Interners) (Tables : sided FunctionTable) : Prop := {
  tables_main : table_named N1 base (main_of Tables);
  tables_diff : table_named N2 base (diff_of Tables);
}.

(** What a session keeps of the names of a match. *)
Class GoodNames (X : Type) `{!SessionInvariant X} (N1 N2 : gset text) : Prop :=
  good_names ids n1 n2 : Good ids n1 n2 <-> named N1 ids n1 /\ named N2 ids n2.

Section RowSources.
Context {X : Type} `{!SessionInvariant X, !Sqlite}.
Context (N1 N2 : gset text) (base : Interners) (Tables : sided FunctionTable).
Context `{!GoodNames X N1 N2, !QueriesNamed N1 N2, !TablesNamed N1 N2 base Tables}.

#[local] Instance spec_sql_source : RowSource SqlRowSource := SqlRowSource_source Tables.

Lemma rows_nonneg s a r : FindRow a (at_side s Tables) = Some r -> (0 <= r)%Z.
Proof.
  destruct s; cbn; [apply (tn_rows _ _ _ (tables_main (TablesNamed := TablesNamed0)))
                   |apply (tn_rows _ _ _ (tables_diff (TablesNamed := TablesNamed0)))].
Qed.

Lemma row_named_good ids Row : row_named N1 N2 ids Row -> row_good ids Row.
Proof. intros (H1 & H2 & H3). split; [done|]. by apply (good_names (X := X) (N1 := N1) (N2 := N2)). Qed.

Definition rows_named (Cols : SourceColumns) (Rows : list (list Column)) : Prop :=
  Forall (fun Row => column_named N1 (Some (ColName1 Cols)) Row /\ column_named N2 (Some (ColName2 Cols)) Row) Rows.

Record sql_inv (ids : Interners) (r : SqlRowSource) : Prop := {
  si_base : ids_le base ids;
  si_rows : match Started r with
            | None => query_named N1 N2 (SourceSql r)
            | Some (Stmt, Cols) => rows_named Cols (CursorAhead Stmt)
            end;
}.

Lemma next_started_ok r Stmt Cols ids r' ids' a : wf_ids ids -> ids_le base ids -> rows_named Cols (CursorAhead Stmt) ->
  match Started r with None => query_named N1 N2 (SourceSql r) | Some (St, C) => rows_named C (CursorAhead St) end ->
  next_started Tables r Stmt Cols ids = (r', ids', a) -> small_ids ids' ->
  sql_inv ids' r' /\ forall Row, a = Ok (Some Row) -> row_good (X := X) ids' Row.
Proof.
  intros Hw Hb Hrows Hr. unfold next_started. destruct (SourceDone r); [by intros [= <- <- <-] _|]. unfold Step.
  destruct (CursorAhead Stmt) as [|row Ahead] eqn:E.
  { destruct (CursorError Stmt); [|by intros [= <- <- <-] _; split; [split; cbn; rewrite ?E|]].
    unfold ThrowSqlError. destruct (IsEnvironmentalSqliteError _); intros [= <- <- <-] _; (split; [split; cbn; rewrite ?E|]; done). }
  set (St := MkCursor _ _ _ _). destruct (read_row Tables St Cols ids) as [ids1 q] eqn:Er.
  intros [= <- <- <-] Hs. apply Forall_cons in Hrows as [[K1 K2] Hrows].
  destruct (keeps_read_row Tables N1 N2 ids St Cols rows_nonneg K1 K2 ids ids1 q (reflexivity _) Hw Er Hs) as [_ HQ].
  pose proof (extends_read_row Tables St Cols _ _ _ Er) as Hle. cbn in Hle. split.
  - split; [by etrans|done].
  - intros Row. destruct q as [R0|]; [|done]. intros [= <-]. by apply row_named_good, HQ.
Qed.

Lemma next_started_le r Stmt Cols ids r' ids' a : next_started Tables r Stmt Cols ids = (r', ids', a) -> ids_le ids ids'.
Proof.
  unfold next_started. destruct (SourceDone r); [by intros [= <- <- <-]|]. destruct (Step Stmt) as [St [[]|]].
  - destruct (read_row Tables St Cols ids) as [ids1 q] eqn:Er. intros [= <- <- <-].
    exact (extends_read_row Tables St Cols _ _ _ Er).
  - by intros [= <- <- <-].
  - by intros [= <- <- <-].
Qed.

#[export, refine] Instance SqlRowSource_ok : RowSourceOk X SqlRowSource (RowSource0 := SqlRowSource_source Tables) := { RInv := sql_inv }.
Proof.
  - intros a b r Hle []. split; [by etrans|done].
  - intros r ids r' ids' a. cbn. unfold sql_next. destruct (Started r) as [[]|]; [apply next_started_le|].
    destruct (Start _ _) as [[]|]; [apply next_started_le|by intros [= <- <- <-]].
  - intros r ids r' ids' a Hw [Hb Hr]. cbn. unfold sql_next. destruct (Started r) as [[Stmt Cols]|] eqn:E.
    + intros En. eapply next_started_ok; [done|done|exact Hr| |exact En]. by rewrite E.
    + destruct (Start _ _) as [[Stmt Cols]|] eqn:Es.
      * intros En. eapply next_started_ok; [done|done|by eapply Hr| |exact En]. by rewrite E.
      * intros [= <- <- <-] _. split; [|done]. split; [done|]. by rewrite E.
Defined.

(** ** The replay of the compilation unit query *)

Record cu_inv (ids : Interners) (r : CuReplaySource) : Prop := {
  ci_base : ids_le base ids;
  ci_desc : known (CuDesc r) (Descs_ ids);
}.

Lemma cu_fill_ok ids Desc R1 R2 Row : ids_le base ids -> known Desc (Descs_ ids) ->
  cu_fill Tables Desc R1 R2 = Ok Row -> row_good (X := X) ids Row.
Proof.
  intros Hb Hd E. apply row_named_good.
  destruct (table_named_mono _ _ _ _ Hb (tables_main (TablesNamed := TablesNamed0))) as [A1 M1 _].
  destruct (table_named_mono _ _ _ _ Hb (tables_diff (TablesNamed := TablesNamed0))) as [A2 M2 _].
  revert E. unfold cu_fill. repeat (lazymatch goal with
    | |- mbind _ (at_row (AddrIdOf ?T) ?n) = _ -> _ =>
        destruct (at_row (AddrIdOf T) n) eqn:?; cbn [mbind res_bind]; [|done]
    | |- mbind _ (at_row (NameIdOf ?T) ?n) = _ -> _ =>
        destruct (at_row (NameIdOf T) n) eqn:?; cbn [mbind res_bind]; [|done]
    | |- mbind _ ?x = _ -> _ => destruct x; cbn [mbind res_bind]; [|done]
    | |- (if ?b then _ else _) = _ -> _ => destruct b; [done|]
    end). intros [= <-].
  repeat match goal with
    | H : at_row (AddrIdOf _) _ = Ok _ |- _ => eapply at_row_Forall in H; [|done]
    | H : at_row (NameIdOf _) _ = Ok _ |- _ => eapply at_row_Forall in H; [|done]; destruct H
    end. split; [|done]. split; cbn; try done; lia.
Qed.

#[export, refine] Instance CuReplaySource_ok : RowSourceOk X CuReplaySource (RowSource0 := CuReplaySource_source Tables) := { RInv := cu_inv }.
Proof.
  - intros a b r Hle []. split; [by etrans|by eapply known_desc_mono].
  - intros r ids r' ids' a. cbn. unfold cu_next. repeat case_match; by intros [= <- <- <-].
  - intros r ids r' ids' a Hw [Hb Hd]. cbn. unfold cu_next. destruct (_ || _); [by intros [= <- <- <-] _; split|].
    destruct (at_row (CuRows1 r) _) as [R1|]; cbn; [|by intros [= <- <- <-] _; split].
    destruct (at_row (CuRows2 r) _) as [R2|]; cbn; [|by intros [= <- <- <-] _; split].
    destruct (cu_fill _ _ _ _) as [Row|] eqn:E; [|by intros [= <- <- <-] _; split].
    intros [= <- <- <-] _. split.
    + split; [done|]. unfold cu_advance. by destruct (_ =? _)%nat.
    + intros Row' [= <-]. by eapply cu_fill_ok.
Defined.
End RowSources.
