(* ===== verification/StagesSpec.v ===== *)
(** * Every pass keeps the session well formed

    For a connection whose answers name functions of the two exports, and for any
    engine that keeps its own invariant: each stage, on every way out, leaves the
    tables of texts extended and the session well formed, every stored match named
    after functions of the exports. *)

From stdpp Require Import base numbers gmap sets list.
From Stdlib Require Import ZArith Lia.
From S2P Require Import Prelude Dbl Decimal Interner Utf8 TextDiff MatchState MatchStateSpec Snapshot FinalPass Unmatched.
From S2P Require Import SessionData PatchDiffHook Consumer ConsumerLoops PreparedTextSpec RatioHistory SideTables FunctionTable RatioEngine.
From S2P Require Import StageSql Sql EarlyStages TierStages LoopStages SessionSpec SourcesSpec.

(** ** The harness *)

Section Harness.
Context {X : Type} `{!Engine X, !SessionInvariant X, !EngineOk X}.

#[export] Instance extends_on_ids {A} (m : M Interners A) : Extends m -> Extends (on_ids m : M (Session X) A).
Proof.
  intros Hm S S' r. unfold on_ids. destruct (m (Ids S)) as [ids a] eqn:E. intros [= <- <-]. exact (Hm _ _ _ E).
Qed.

Lemma keeps_on_ids {A} ids (m : M Interners A) Q : Extends m -> keeps ids m Q ->
  keeps ids (on_ids m : M (Session X) A) Q.
Proof.
  intros Hx Hm S S' r L Hok. unfold on_ids. destruct (m (Ids S)) as [b a] eqn:E. intros [= <- <-] Hs. cbn in *.
  destruct (Hm _ _ _ L (so_ids _ Hok) E Hs) as [H1 H2]. split; [|done].
  apply session_ok_ids; [exact (Hx _ _ _ E)|done|done].
Qed.

#[export] Instance outside_stages f : Outside (fun S : Session X => with_stages (f (Stages S)) S).
Proof. by split. Qed.
#[export] Instance extends_on_stages f : Extends (on_stages f : M (Session X) unit).
Proof. apply extends_modify, _. Qed.
Lemma keeps_on_stages ids f : keeps ids (on_stages f : M (Session X) unit) (fun _ _ => True).
Proof. apply keeps_modify, _. Qed.
#[export] Instance extends_on_facts f : Extends (on_facts f : M (Session X) unit).
Proof. apply extends_on_stages. Qed.
Lemma keeps_on_facts ids f : keeps ids (on_facts f : M (Session X) unit) (fun _ _ => True).
Proof. apply keeps_on_stages. Qed.
#[export] Instance extends_set_flags f : Extends (set_flags f : M (Session X) unit).
Proof. apply extends_modify. by split. Qed.
Lemma keeps_set_flags ids f : keeps ids (set_flags f : M (Session X) unit) (fun _ _ => True).
Proof. apply keeps_modify. by split. Qed.
#[export] Instance extends_Point t : Extends (Point t : M (Session X) unit).
Proof. apply extends_modify. split; intros S; by destruct (list_sizes (State S)) as [[??]?]. Qed.
Lemma keeps_Point ids t : keeps ids (Point t : M (Session X) unit) (fun _ _ => True).
Proof. apply keeps_modify. split; intros S; by destruct (list_sizes (State S)) as [[??]?]. Qed.

#[export] Instance extends_with_state st : Extends (modify (with_state st) : M (Session X) unit).
Proof. by intros S S' r [= <- <-]. Qed.

Lemma good_sublist ids st q : wf_state ids st -> cleaned ids (Lists st) q -> good_items ids st ->
  forall c, Forall (good_item ids) (at_ c q).
Proof.
  intros Hw Hc Hg c. rewrite Forall_forall. intros It HI.
  eapply elem_of_sublist in HI; [|apply (cl_sub _ _ _ Hc)]. unfold SortDescending in HI.
  rewrite stable_sort_perm in HI. revert It HI. by apply Forall_forall.
Qed.

Lemma Cleanup_ok S st : session_ok S -> Cleanup (Ids S) (State S) = Ok st -> session_ok (with_state st S).
Proof.
  intros [H1 H2 H3 H4] E. destruct (Cleanup_spec _ _ H2) as (st' & E' & Hc). rewrite E' in E. injection E as <-.
  split; cbn; [done|by eapply Cleanup_wf| |done]. intros c. by eapply good_sublist.
Qed.

Definition trace_sizes (f : nat -> nat -> nat -> TraceEvent) : M (Session X) unit :=
  modify (fun S => let '(b, p, u) := list_sizes (State S) in with_trace (Trace S ++ [f b p u]) S).
#[export] Instance outside_trace_sizes (f : nat -> nat -> nat -> TraceEvent) :
  Outside (fun S : Session X => let '(b, p, u) := list_sizes (State S) in with_trace (Trace S ++ [f b p u]) S).
Proof. split; intros S; by destruct (list_sizes (State S)) as [[??]?]. Qed.

(** The state read, cleaned and put back. *)
Lemma keeps_clean_state ids : keeps ids
  (S ← get; st ← liftR (Cleanup (Ids S) (State S)); modify (with_state st) : M (Session X) unit) (fun _ _ => True).
Proof.
  apply keeps_get. intros S L Hok. apply keeps_at_lift; [done|]. intros st E S' r [= <- <-] _.
  split; [|done]. by apply Cleanup_ok.
Qed.

#[export] Instance extends_SessionCleanup Site : Extends (SessionCleanup Site : M (Session X) unit).
Proof.
  unfold SessionCleanup. solve_extends. all: apply (extends_modify (X := X)); apply _.
Qed.

Lemma keeps_SessionCleanup ids Site : keeps ids (SessionCleanup Site : M (Session X) unit) (fun _ _ => True).
Proof.
  unfold SessionCleanup. apply keeps_get. intros S L Hok. apply keeps_here; [done|].
  kbind; [apply keeps_on_stages|]. intros _ i1 L1 _. kbind; [apply keeps_Point|]. intros _ i2 L2 _.
  apply keeps_get. intros S1 L3 Hok1. apply keeps_at_lift; [done|]. intros st E S2 r.
  set (rest := modify _ ;; Point _). intros E2 Hs.
  assert (session_ok (with_state st S1)) as Hok2 by by apply Cleanup_ok.
  assert (keeps (Ids S1) rest (fun _ _ => True)) as Hr.
  { unfold rest. kbind; [apply keeps_modify, _|]. intros. apply keeps_Point. }
  exact (Hr (with_state st S1) S2 r (reflexivity _) Hok2 E2 Hs).
Qed.

#[export] Instance extends_LogShowSummary : Extends (LogShowSummary : M (Session X) unit).
Proof. unfold LogShowSummary. solve_extends. Qed.
Lemma keeps_LogShowSummary ids : keeps ids (LogShowSummary : M (Session X) unit) (fun _ _ => True).
Proof.
  unfold LogShowSummary. apply keeps_get. intros S _ Hok. apply keeps_here; [done|].
  apply keeps_if; intros _; [apply keeps_throw|by apply keeps_ret].
Qed.
#[export] Instance extends_LogFinalResults : Extends (LogFinalResults : M (Session X) unit).
Proof. unfold LogFinalResults. solve_extends. Qed.
Lemma keeps_LogFinalResults ids : keeps ids (LogFinalResults : M (Session X) unit) (fun _ _ => True).
Proof.
  unfold LogFinalResults. apply keeps_get. intros S _ Hok. apply keeps_here; [done|].
  apply keeps_if; intros _; [apply keeps_throw|by apply keeps_ret].
Qed.
End Harness.

(** ** Loops *)

Section Loops.
Context {T : Type} `{!StateLike T}.

#[export] Instance extends_for_each {A} (body : A -> M T unit) l : (forall a, Extends (body a)) -> Extends (for_each body l).
Proof. intros Hb. induction l; cbn; apply _. Qed.
Lemma keeps_for_each {A} (body : A -> M T unit) ids l : (forall a, Extends (body a)) ->
  (forall a b, a ∈ l -> ids_le ids b -> keeps b (body a) (fun _ _ => True)) -> keeps ids (for_each body l) (fun _ _ => True).
Proof.
  intros Hx. revert ids. induction l as [|a l IH]; intros ids Hb; cbn; [by apply keeps_ret|].
  kbind; [apply Hb; [left|done]|]. intros _ b L _. apply IH. intros a' c Ha Lc. apply Hb; [by right|]. by etrans.
Qed.

#[export] Instance extends_fold_each {A C} (body : A -> C -> M T C) l c :
  (forall a c, Extends (body a c)) -> Extends (fold_each body l c).
Proof. intros Hb. revert c. induction l; intros c; cbn; apply _. Qed.
Lemma keeps_fold_each {A C} (body : A -> C -> M T C) ids l c : (forall a c, Extends (body a c)) ->
  (forall a b c, a ∈ l -> ids_le ids b -> keeps b (body a c) (fun _ _ => True)) ->
  keeps ids (fold_each body l c) (fun _ _ => True).
Proof.
  intros Hx. revert ids c. induction l as [|a l IH]; intros ids c Hb; cbn; [by apply keeps_ret|].
  kbind; [apply Hb; [left|done]|]. intros c' b L _. apply IH. intros a' d c2 Ha Ld. apply Hb; [by right|]. by etrans.
Qed.

#[export] Instance extends_rows_loop {A} (read : list Column -> M T A) l e o `{!Sqlite} :
  (forall Row, Extends (read Row)) -> Extends (rows_loop read l e o).
Proof. intros Hr. revert o. induction l; intros o; cbn; [destruct e; apply _|apply _]. Qed.
#[export] Instance extends_read_rows {A} (c : Cursor) (read : list Column -> M T A) `{!Sqlite} :
  (forall Row, Extends (read Row)) -> Extends (read_rows c read).
Proof. intros Hr. by apply extends_rows_loop. Qed.

(** What each row reads, kept for the whole list. *)
Lemma keeps_read_rows {A} ids (c : Cursor) (read : list Column -> M T A) (Q : A -> Interners -> Prop) `{!Sqlite} :
  (forall Row, Extends (read Row)) -> (forall a b b', ids_le b b' -> Q a b -> Q a b') ->
  (forall Row b, Row ∈ CursorAhead c -> ids_le ids b -> keeps b (read Row) Q) ->
  keeps ids (read_rows c read) (fun l b => Forall (fun a => Q a b) l).
Proof.
  intros Hx Hmono. unfold read_rows.
  assert (forall b, ids_le ids b -> Forall (fun a => Q a b) ([] : list A)) as H0 by constructor.
  generalize ([] : list A) H0. generalize (CursorError c). intros e. generalize (CursorAhead c). clear H0.
  intros l. revert ids. induction l as [|Row l IH]; intros ids o Ho Hr; cbn.
  - destruct e; [by unfold ThrowSqlError; destruct (IsEnvironmentalSqliteError _); apply keeps_throw|]. by apply keeps_ret.
  - kbind; [apply Hr; [left|done]|]. intros a b L Ha. apply IH.
    + intros b' L'. apply Forall_app. split; [apply Ho; by etrans|]. apply Forall_singleton. by eapply Hmono.
    + intros Row' b' HR L'. apply Hr; [by right|by etrans].
Qed.
End Loops.

(** [solve_extends], through the loops. *)
Ltac solve_extends_loops :=
  repeat match goal with
    | |- forall _, _ => intros ?
    | _ => first [apply _ | apply extends_bind | apply extends_for_each | apply extends_fold_each | case_match]
    end.

(** ** Sources of their own *)

Section WithSource.
Context {X : Type} `{!Engine X, !SessionInvariant X, !EngineOk X}.
Context {R : Type} `{!RowSource R, !RowSourceOk X R}.

#[export] Instance extends_with_source {A} (r : R) (m : M (Session X * R) A) : Extends m -> Extends (with_source r m).
Proof.
  intros Hm S S' q. unfold with_source. destruct (m (S, r)) as [[S1 r1] a] eqn:E. intros [= <- <-]. exact (Hm _ _ _ E).
Qed.

Lemma keeps_with_source {A} ids (r : R) (m : M (Session X * R) A) Q : (forall b, ids_le ids b -> RInv b r) ->
  keeps ids m Q -> keeps ids (with_source r m) Q.
Proof.
  intros Hr Hm S S' q L Hok. unfold with_source. destruct (m (S, r)) as [[S1 r1] a] eqn:E. intros [= <- <-] Hs.
  destruct (Hm (S, r) _ _ L ltac:(split; [done|by apply Hr]) E Hs) as [[H1 H2] H3]. done.
Qed.

#[export] Instance extends_internal b p v : Extends (AddMatchesInternal b p v : M (Session X * R) unit).
Proof. apply (drain_keeps _ (drain_internal b p v)). Qed.
#[export] Instance extends_ratio b p : Extends (AddMatchesFromQueryRatio b p : M (Session X * R) unit).
Proof. apply (drain_keeps _ (drain_ratio b p)). Qed.
#[export] Instance extends_query c : Extends (AddMatchesFromQuery c : M (Session X * R) unit).
Proof. apply (drain_keeps _ (drain_query c)). Qed.
#[export] Instance extends_ratio_max b p v : Extends (AddMatchesFromQueryRatioMax b p v : M (Session X * R) unit).
Proof. apply (drain_keeps _ (drain_ratio_max b p v)). Qed.
#[export] Instance extends_trusted v : Extends (AddMatchesFromQueryRatioMaxTrusted v : M (Session X * R) unit).
Proof. apply (drain_keeps _ (drain_trusted v)). Qed.

Lemma keeps_drained ids (r : R) (m : M (Session X * R) unit) : (forall b, ids_le ids b -> RInv b r) -> drain m ->
  keeps ids (with_source r m) (fun _ _ => True).
Proof. intros Hr Hm. apply keeps_with_source; [done|]. by apply drain_keeps. Qed.
End WithSource.

(** ** The stages *)

Class HookResetOk (X : Type) `{!SessionInvariant X, !HookReset X} : Prop :=
  ClearDones_ok ids x : EInv ids x -> EInv ids (ClearDones x).

Section Stages.
Context {X : Type} `{!Engine X, !SessionInvariant X, !EngineOk X, !HookReset X, !HookResetOk X, !Sqlite}.
Context (N1 N2 : gset text) (base : Interners) (Tables : sided FunctionTable).
Context `{!GoodNames X N1 N2, !QueriesNamed N1 N2, !TablesNamed N1 N2 base Tables}.

#[local] Instance stage_source : RowSource SqlRowSource := SqlRowSource_source Tables.
#[local] Instance stage_source_ok : RowSourceOk X SqlRowSource := SqlRowSource_ok N1 N2 base Tables.
#[local] Instance stage_cu_source : RowSource CuReplaySource := CuReplaySource_source Tables.
#[local] Instance stage_cu_source_ok : RowSourceOk X CuReplaySource := CuReplaySource_ok N1 N2 base Tables.

(** A program that may run as soon as the tables of texts extend [base]. *)
Definition stage_ok (m : M (Session X) unit) : Prop :=
  Extends m /\ forall ids, ids_le base ids -> keeps ids m (fun _ _ => True).

Lemma stage_query Sql Binds ids b : ids_le base ids -> drained_query Sql -> ids_le ids b ->
  RInv (X := X) b (NewSqlRowSource Sql Binds).
Proof. intros Hb Hq L. split; [by etrans|]. by apply qn_drained. Qed.

Lemma stage_drain ids Sql Binds m : ids_le base ids -> drained_query Sql -> drain m ->
  keeps ids (with_source (NewSqlRowSource Sql Binds) m : M (Session X) unit) (fun _ _ => True).
Proof. intros Hb Hq Hm. apply keeps_drained; [|done]. intros b. by apply stage_query. Qed.

Ltac dq := apply dq_stage; rewrite ?elem_of_cons; tauto.

(** *** Equal matches *)

#[export] Instance extends_read_total Row : Extends (read_total Row : M (Session X) Z).
Proof. unfold read_total. solve_extends. Qed.
#[export] Instance extends_read_equal_row Q Row : Extends (read_equal_row Q Row).
Proof. unfold read_equal_row. solve_extends. Qed.
#[export] Instance extends_equal_match d Row : Extends (equal_match d Row : M (Session X) unit).
Proof. unfold equal_match. solve_extends. Qed.

Definition equal_row_ok (Row : EqualRow) (ids : Interners) : Prop :=
  known_addr ids (EqualEa Row) /\ known_name ids (EqualName Row) /\ named N1 ids (EqualName Row) /\ named N2 ids (EqualName Row).

Lemma equal_row_ok_mono Row a b : ids_le a b -> equal_row_ok Row a -> equal_row_ok Row b.
Proof. intros L (?&?&?&?). split_and!; eauto using known_addr_mono, known_name_mono, named_mono. Qed.

Lemma keeps_read_equal_row ids Q Row : Prepare kSqlEqualMatches [] = Ok Q -> Row ∈ CursorAhead Q ->
  keeps ids (read_equal_row Q Row) equal_row_ok.
Proof.
  intros HQ HR. unfold read_equal_row. kbind; [apply keeps_any|]. intros _ i1 L1 _.
  kbind; [apply keeps_any|]. intros ea i2 L2 _.
  kbind; [apply (fun H => H : keeps i2 _ (fun a b => known_addr b a))|].
  { destruct (Type_ ea); try apply keeps_throw; [|apply keeps_InternAddr].
    apply keeps_ret. intros. by left. }
  intros Ea i3 L3 K3.
  kbind; [apply (keeps_lift i3 _ (fun c _ => name_cell N1 c /\ name_cell N2 c))|].
  { intros c b. unfold row_cell, column_at. destruct (CursorColumn Q _) as [n|] eqn:En; [|done].
    destruct (Row !! n) eqn:Ec; [|done]. intros [= <-] _. by eapply qn_equal. }
  intros name i4 L4 [Kn1 Kn2]. unfold name_cell in *.
  kbind; [apply (fun H => H : keeps i4 _ (fun n b => known_name b n /\ named N1 b n /\ named N2 b n))|].
  { destruct (Type_ name); try apply keeps_throw.
    - apply keeps_ret. intros b _. split_and!; [by left|by exists (B "None")..].
    - eapply keeps_weaken; [apply _|apply keeps_InternName|]. intros n b _ [? ?]. split_and!; [done|by eexists..]. }
  intros Nm i5 L5 (K5 & K6 & K7). kbind; [apply keeps_any|]. intros nodes i6 L6 _.
  apply keeps_ret. intros z Lz. cbn beta in *.
  split_and!; cbn; [eapply known_addr_mono; [|eassumption]|eapply known_name_mono; [|eassumption]
                   |eapply named_mono; [|eassumption]|eapply named_mono; [|eassumption]]; les.
Qed.

Lemma keeps_equal_match ids d Row : known d (Descs_ ids) -> equal_row_ok Row ids ->
  keeps ids (equal_match d Row : M (Session X) unit) (fun _ _ => True).
Proof.
  intros Hd (K1 & K2 & K3 & K4). unfold equal_match. destruct (NodesType Row); try apply keeps_throw.
  apply keeps_SessionAddMatch; [|done|done|by apply unit_d1|].
  - split; cbn; try done. 
  - split; [by apply unit_d1|]. by apply (good_names (X := X) (N1 := N1) (N2 := N2)).
Qed.

#[export] Instance extends_SetTotals (f : MatchState -> MatchState) :
  Extends (modify (fun S : Session X => with_state (f (State S)) S)).
Proof. by intros S S' r [= <- <-]. Qed.
Lemma keeps_SetTotals ids T1 T2 :
  keeps ids (modify (fun S : Session X => with_state (SetTotals T1 T2 (State S)) S)) (fun _ _ => True).
Proof.
  intros S S' r _ [H1 H2 H3 H4] [= <- <-] _. split; [|done]. split; cbn; [done| |done|done]. by destruct H2.
Qed.

#[export] Instance extends_StageFindEqualMatches : Extends (StageFindEqualMatches : M (Session X) unit).
Proof. unfold StageFindEqualMatches. solve_extends. Qed.

Lemma StageFindEqualMatches_ok : stage_ok StageFindEqualMatches.
Proof.
  split; [apply _|]. intros ids Hb. unfold StageFindEqualMatches.
  kbind; [apply keeps_any|]. intros Totals i1 L1 _.
  kbind; [eapply (keeps_read_rows _ _ _ (fun _ _ => True)); [apply _|done|]|].
  { intros Row b _ _. unfold read_total. kbind; [apply keeps_any|]. intros.
    case_bool_decide; [by apply keeps_ret|apply keeps_throw]. }
  intros Rows i2 L2 _. kbind; [apply (fun H => H : keeps i2 _ (fun _ _ => True))|].
  { destruct Rows as [|T1 [|T2 []]]; try apply keeps_throw. apply keeps_SetTotals. }
  intros _ i3 L3 _. kbind; [apply (keeps_lift i3 _ (fun Q _ => Prepare kSqlEqualMatches [] = Ok Q)); done|].
  intros Q i4 L4 EQ.
  kbind; [apply keeps_on_ids; [apply _|]; apply (keeps_read_rows _ _ _ equal_row_ok);
          [apply _|intros ? ? ?; apply equal_row_ok_mono|intros; by apply keeps_read_equal_row]|].
  intros Rows' i5 L5 K5. kbind; [apply keeps_on_facts|]. intros _ i6 L6 _.
  kbind; [apply keeps_on_ids; [apply _|apply keeps_InternDesc]|]. intros d i7 L7 Kd.
  apply keeps_for_each; [apply _|]. intros Row b HR Lb. cbn beta in *.
  apply keeps_equal_match; [by eapply known_desc_mono|]. eapply equal_row_ok_mono; [|exact (proj1 (Forall_forall _ _) K5 Row HR)]. les.
Qed.

(** *** Dirty heuristics *)

Lemma keeps_when_bool ids (b : bool) (m1 m2 : M (Session X) unit) :
  keeps ids m1 (fun _ _ => True) -> keeps ids m2 (fun _ _ => True) -> keeps ids (if b then m1 else m2) (fun _ _ => True).
Proof. by destruct b. Qed.

#[export] Instance extends_ext (f : X -> X) : Extends (modify (fun S : Session X => with_ext (f (Ext S)) S)).
Proof. by intros S S' r [= <- <-]. Qed.
Lemma keeps_ClearDones ids : keeps ids (modify (fun S : Session X => with_ext (ClearDones (Ext S)) S)) (fun _ _ => True).
Proof. intros S S' r _ [H1 H2 H3 H4] [= <- <-] _. split; [|done]. split; cbn; try done. by apply ClearDones_ok. Qed.

#[export] Instance extends_SearchStripped : Extends (SearchJustStrippedBinaries Tables : M (Session X) bool).
Proof. unfold SearchJustStrippedBinaries. solve_extends. Qed.
#[export] Instance extends_SearchPatch : Extends (SearchPatchdiffWithSymbols : M (Session X) bool).
Proof. unfold SearchPatchdiffWithSymbols. solve_extends. Qed.
#[export] Instance extends_Dirty : Extends (StageApplyDirtyHeuristics Tables : M (Session X) bool).
Proof. unfold StageApplyDirtyHeuristics. solve_extends. Qed.

Lemma keeps_Dirty ids : ids_le base ids ->
  keeps ids (StageApplyDirtyHeuristics Tables : M (Session X) bool) (fun _ _ => True).
Proof.
  intros Hb. unfold StageApplyDirtyHeuristics.
  kbind; [apply (fun H => H : keeps ids _ (fun _ _ => True))|].
  { unfold SearchJustStrippedBinaries. apply keeps_get. intros S L Hok. apply keeps_here; [done|]. cbn in *.
    kbind; [apply keeps_any|]. intros n i1 L1 _. kbind; [apply keeps_any|]. intros p i2 L2 _.
    kbind; [apply keeps_on_facts|]. intros _ i3 L3 _. apply keeps_if; intros _; [|by apply keeps_ret].
    kbind; [apply keeps_set_flags|]. intros _ i4 L4 _.
    kbind; [apply stage_drain; [les|dq|constructor]|]. intros. by apply keeps_ret. }
  intros Fired i1 L1 _. apply keeps_if; intros _; [by apply keeps_ret|].
  unfold SearchPatchdiffWithSymbols. apply keeps_get. intros S L Hok. apply keeps_here; [done|]. cbn in *.
  kbind; [apply keeps_any|]. intros n i2 L2 _. kbind; [apply keeps_any|]. intros p i3 L3 _.
  kbind; [apply keeps_on_facts|]. intros _ i4 L4 _. apply keeps_if; intros _; [|by apply keeps_ret].
  kbind; [apply keeps_set_flags|]. intros _ i5 L5 _. kbind; [apply keeps_ClearDones|]. intros. by apply keeps_ret.
Qed.

(** *** Same name *)

Lemma with_bonus_unit R : unit_double R -> unit_double (with_bonus R).
Proof.
  intros HR. unfold with_bonus. destruct (dlt (dadd R kMatchesBonusRatio) d1) eqn:E; [|done].
  apply unit_below_one; [|done]. apply dadd_nonneg; left; [apply HR|]. by split.
Qed.

Lemma keeps_RequireNodes ids n Site : keeps ids (liftR (RequireNodes n Site) : M (Session X) Z) (fun _ _ => True).
Proof. apply keeps_any. Qed.

Definition entry_good (E : SameNameRow) (ids : Interners) : Prop := row_good (X := X) ids (SameRow E).

#[export] Instance extends_same_name_rows fuel Rows :
  Extends (same_name_rows Tables fuel Rows : M (Session X * SqlRowSource) (list SameNameRow)).
Proof. revert Rows. induction fuel; intros Rows; cbn [same_name_rows]; solve_extends. Qed.

Lemma keeps_same_name_rows fuel ids Rows : Forall (fun E => entry_good E ids) Rows ->
  keeps ids (same_name_rows Tables fuel Rows : M (Session X * SqlRowSource) _)
    (fun l b => Forall (fun E => entry_good E b) l).
Proof.
  assert (forall a b Rows, ids_le a b -> Forall (fun E => entry_good E a) Rows -> Forall (fun E => entry_good E b) Rows) as Hmono.
  { intros a b l L HF. eapply Forall_impl; [exact HF|]. intros E. by apply row_good_mono. }
  revert ids Rows. induction fuel as [|fuel IH]; intros ids Rows HR; cbn [same_name_rows].
  { apply keeps_ret. intros b L. by eapply Hmono. }
  kbind; [apply keeps_next_row|]. intros [Row|] i1 L1 Hrow; [|apply keeps_ret; intros b L; eapply Hmono; [|done]; les].
  apply keeps_get. intros t L2 Hok. apply keeps_here; [done|]. kbind; [apply keeps_any|]. intros Q i3 L3 _.
  kbind; [apply (keeps_lift i3 _ (fun E _ => SameRow E = Row))|].
  { intros E b. unfold mangled_entry. destruct (CursorColumn _ _); [|done]. destruct (cell_at _ _); [|done]. cbn.
    destruct (mangled_of _). by intros [= <-]. }
  intros E i4 L4 KE. apply IH. cbn beta in *. apply Forall_app. split; [eapply Hmono; [|done]; les|].
  apply Forall_singleton. unfold entry_good. rewrite KE. eapply row_good_mono; [|by apply Hrow]. les.
Qed.

#[export] Instance extends_same_name_match E : Extends (same_name_match E : M (Session X) unit).
Proof. unfold same_name_match. solve_extends. Qed.

Lemma keeps_same_name_match ids E : entry_good E ids -> keeps ids (same_name_match E : M (Session X) unit) (fun _ _ => True).
Proof.
  intros HE. unfold same_name_match. apply keeps_get. intros S L Hok. apply keeps_here; [done|]. cbn in *.
  kbind; [apply keeps_any|]. intros Skip i1 L1 _. apply keeps_if; intros _; [apply keeps_on_facts|].
  kbind; [apply keeps_CheckMatch; eapply row_ok_mono, HE; les|]. intros [R|] i2 L2 HR; [|by apply keeps_ret].
  specialize (HR R eq_refl). kbind; [apply keeps_any|]. intros n1 i3 L3 _. kbind; [apply keeps_any|]. intros n2 i4 L4 _.
  assert (row_good i4 (SameRow E)) as HG by (eapply row_good_mono; [|exact HE]; les).
  apply keeps_if; intros HD.
  - replace (SessionAddMatch (RowName1 (SameRow E)) (RowName2 (SameRow E)) R) with
      (SessionAddMatch (X := X) (RowName1 (SameRow E)) (RowName2 (SameRow E)) d1);
      [|f_equal; symmetry; by apply deq_one].
    apply keeps_row_item; [done|apply HG|apply unit_d1].
  - apply keeps_row_item; [done|apply HG|by apply with_bonus_unit].
Qed.

#[export] Instance extends_reading {A} (f : Session X * SqlRowSource -> M (Session X * SqlRowSource) A) :
  (forall t, Extends (f t)) -> Extends (fun t => f t t).
Proof. intros Hf t t' q E. by eapply (Hf t). Qed.
Lemma keeps_reading {A} ids (f : Session X * SqlRowSource -> M (Session X * SqlRowSource) A) Q :
  (forall t, keeps ids (f t) Q) -> keeps ids (fun t => f t t) Q.
Proof. intros Hf t t' q L Hok E. by eapply (Hf t). Qed.

#[export] Instance extends_StageFindSameName : Extends (StageFindSameName Tables : M (Session X) unit).
Proof.
  unfold StageFindSameName. apply extends_bind; [|solve_extends].
  apply extends_with_source, (extends_reading (fun t => same_name_rows Tables (S (Remaining t.2)) [])). apply _.
Qed.

Lemma StageFindSameName_ok : stage_ok (StageFindSameName Tables).
Proof.
  split; [apply _|]. intros ids Hb. unfold StageFindSameName. eapply keeps_bind; [solve_extends| | |].
  - apply keeps_with_source; [intros b; apply stage_query; [done|dq]|].
    apply (keeps_reading ids (fun t => same_name_rows Tables (S (Remaining t.2)) [])). intros t.
    by apply keeps_same_name_rows.
  - apply extends_with_source, (extends_reading (fun t => same_name_rows Tables (S (Remaining t.2)) [])). apply _.
  - intros Rows i1 L1 HR. cbn beta in HR. kbind; [apply keeps_on_facts|]. intros _ i2 L2 _. apply keeps_get.
    intros S L Hok. apply keeps_here; [done|]. cbn in *. apply keeps_if; intros _; [by apply keeps_ret|].
    kbind; [apply keeps_on_facts|]. intros _ i3 L3 _. apply keeps_for_each; [apply _|]. intros E b HE Lb.
    apply keeps_same_name_match. eapply row_good_mono; [|exact (proj1 (Forall_forall _ _) HR E HE)]. les.
Qed.

(** *** Remaining functions *)

#[export] Instance extends_read_unmatched Q Row : Extends (read_unmatched Q Row).
Proof. unfold read_unmatched. solve_extends. Qed.
#[export] Instance extends_GetUnmatched : Extends (GetUnmatchedFunctions : M (Session X) _).
Proof. unfold GetUnmatchedFunctions. solve_extends. Qed.
#[export] Instance extends_remaining_pair h m d : Extends (remaining_pair Tables h m d : M (Session X) unit).
Proof. unfold remaining_pair. solve_extends. Qed.
#[export] Instance extends_SearchRemaining m d h : Extends (SearchRemainingFunctions Tables m d h : M (Session X) unit).
Proof. unfold SearchRemainingFunctions. solve_extends_loops. Qed.
#[export] Instance extends_StageFindRemaining : Extends (StageFindRemainingFunctions Tables : M (Session X) unit).
Proof. unfold StageFindRemainingFunctions. solve_extends. Qed.

Lemma keeps_GetUnmatched ids : keeps ids (GetUnmatchedFunctions : M (Session X) _) (fun _ _ => True).
Proof.
  unfold GetUnmatchedFunctions. kbind; [apply keeps_any|]. intros Q i1 L1 _.
  kbind; [apply keeps_on_ids; [apply _|]; apply (keeps_read_rows _ _ _ (fun _ _ => True)); [apply _|done|]|].
  - intros Row b _ _. unfold read_unmatched. kbind; [apply keeps_any|]. intros Db i2 L2 _.
    kbind; [apply keeps_any|]. intros nm i3 L3 _.
    kbind; [apply (fun H => H : keeps i3 _ (fun _ _ => True))|].
    { destruct nm; [|by apply keeps_ret]. eapply keeps_weaken; [apply _|apply keeps_InternName|done]. }
    intros Nm i4 L4 _. kbind; [apply keeps_any|]. intros ad i5 L5 _.
    kbind; [apply (fun H => H : keeps i5 _ (fun _ _ => True))|].
    { destruct ad; [|by apply keeps_ret]. eapply keeps_weaken; [apply _|apply keeps_InternAddr|done]. }
    intros. by apply keeps_ret.
  - intros Rows i2 L2 _. apply keeps_get. intros S L Hok. apply keeps_here; [done|]. by apply keeps_ret.
Qed.

Lemma StageFindRemainingFunctions_ok : stage_ok (StageFindRemainingFunctions Tables).
Proof.
  split; [apply _|]. intros ids Hb. unfold StageFindRemainingFunctions.
  kbind; [apply keeps_GetUnmatched|]. intros [Mu Du] i1 L1 _. kbind; [apply keeps_on_facts|]. intros _ i2 L2 _.
  apply keeps_get. intros S L Hok. apply keeps_here; [done|]. cbn in *. apply keeps_if; intros _; [|by apply keeps_ret].
  unfold SearchRemainingFunctions. apply keeps_for_each; [solve_extends_loops|]. intros m b _ Lb.
  apply keeps_get. intros S' L' Hok'. apply keeps_here; [done|]. cbn in *. kbind; [apply keeps_any|]. intros Sub i3 L3 _.
  apply keeps_if; intros _; [|by apply keeps_ret]. apply keeps_for_each; [apply _|]. intros d c _ Lc.
  unfold remaining_pair. apply keeps_get. intros S2 L2' Hok2. apply keeps_here; [done|]. cbn in *.
  kbind; [apply keeps_any|]. intros x1 i4 L4 _. kbind; [apply keeps_any|]. intros x2 i5 L5 _.
  kbind; [apply keeps_on_facts|]. intros _ i6 L6 _. apply stage_drain; [les|dq|constructor].
Qed.

(** *** Heuristics *)

#[export] Instance extends_run_heuristic Spec : Extends (run_heuristic Tables Spec : M (Session X) unit).
Proof. unfold run_heuristic. destruct (ChoosersFor _). solve_extends. Qed.

#[export] Instance extends_truncated Id m : Extends m -> Extends (truncated Id m : M (Session X) unit).
Proof.
  intros Hm S S' q. unfold truncated. destruct (m S) as [S1 a] eqn:E. pose proof (Hm _ _ _ E).
  destruct a as [|[]]; by intros [= <- <-].
Qed.
Lemma keeps_truncated ids Id m : keeps ids m (fun _ _ => True) -> keeps ids (truncated Id m : M (Session X) unit) (fun _ _ => True).
Proof.
  intros Hm S S' q L Hok. unfold truncated. destruct (m S) as [S1 a] eqn:E. pose proof (Hm _ _ _ L Hok E) as H1.
  destruct a as [|[]]; intros [= <- <-] Hs; try exact (H1 Hs). split; [|done].
  apply (session_ok_same S1); [done..|]. by apply H1.
Qed.

Lemma keeps_run_heuristic ids Id Spec : ids_le base ids -> Heuristic Id = Ok Spec ->
  keeps ids (run_heuristic Tables Spec : M (Session X) unit) (fun _ _ => True).
Proof.
  intros Hb HS. unfold run_heuristic. destruct (ChoosersFor _) as [b p]. apply keeps_get. intros S L Hok.
  apply keeps_here; [done|]. cbn in *.
  destruct (Type_of Spec); (apply stage_drain; [les|by eapply dq_heuristic|constructor]).
Qed.

#[export] Instance extends_RunSingle Id : Extends (StageRunSingleHeuristic Tables Id : M (Session X) unit).
Proof. unfold StageRunSingleHeuristic. solve_extends. Qed.
#[export] Instance extends_heuristic_step Id : Extends (heuristic_step Tables Id : M (Session X) unit).
Proof. unfold heuristic_step. solve_extends. Qed.
#[export] Instance extends_Runnable Cat : Extends (RunnableHeuristics Cat : M (Session X) (list Z)).
Proof. unfold RunnableHeuristics. solve_extends. Qed.
#[export] Instance extends_Category Cat : Extends (StageRunHeuristicsForCategory Tables Cat : M (Session X) unit).
Proof. unfold StageRunHeuristicsForCategory. solve_extends_loops. Qed.

Lemma StageRunSingleHeuristic_ok Id : stage_ok (StageRunSingleHeuristic Tables Id).
Proof.
  split; [apply _|]. intros ids Hb. unfold StageRunSingleHeuristic. apply keeps_if; intros _; [apply keeps_throw|].
  kbind; [apply (keeps_lift ids _ (fun Spec _ => Heuristic Id = Ok Spec)); done|]. intros Spec i1 L1 HS.
  apply keeps_truncated. eapply keeps_run_heuristic; [les|exact HS].
Qed.

Lemma StageRunHeuristicsForCategory_ok Cat : stage_ok (StageRunHeuristicsForCategory Tables Cat).
Proof.
  split; [apply _|]. intros ids Hb. unfold StageRunHeuristicsForCategory.
  kbind; [apply (fun H => H : keeps ids _ (fun _ _ => True)); unfold RunnableHeuristics; apply keeps_get; intros S L Hok;
          apply keeps_here; [done|apply keeps_any]|].
  intros Runnable i1 L1 _. kbind; [apply keeps_for_each; [apply _|]|].
  { intros Id b _ Lb. unfold heuristic_step. kbind; [apply keeps_Point|]. intros _ i2 L2 _.
    kbind; [apply StageRunSingleHeuristic_ok; les|]. intros _ i3 L3 _. apply keeps_Point. }
  intros _ i2 L2 _. kbind; [apply keeps_SessionCleanup|]. intros _ i3 L3 _. kbind; [apply keeps_LogShowSummary|].
  intros _ i4 L4 _. apply keeps_Point.
Qed.

(** *** Small differences *)

Abbreviation Drain := (Session X * SqlRowSource)%type.

Definition small_good (ids : Interners) (Row : SmallRow) : Prop := row_good (X := X) ids (SmallRow_ Row).
Definition small_goods (ids : Interners) (Rows : list SmallRow) : Prop := Forall (small_good ids) Rows.
Lemma small_good_mono a b Row : ids_le a b -> small_good a Row -> small_good b Row.
Proof. apply row_good_mono. Qed.
Lemma small_goods_mono a b Rows : ids_le a b -> small_goods a Rows -> small_goods b Rows.
Proof. intros L H0. eapply Forall_impl; [exact H0|]. intros Row. by apply small_good_mono. Qed.

Definition iter_good (I : ResultIter) (ids : Interners) : Prop :=
  small_goods ids (Batch I) /\ forall Row, AheadRow I = Some Row -> small_good ids Row.
Lemma iter_good_mono a b I : ids_le a b -> iter_good I a -> iter_good I b.
Proof. intros L [H1 H2]. split; [by eapply small_goods_mono|]. intros Row E. by eapply small_good_mono, H2. Qed.

#[export] Instance extends_FetchSmall : Extends (FetchSmall Tables : M Drain _).
Proof. unfold FetchSmall. solve_extends. Qed.
Lemma keeps_FetchSmall ids : keeps ids (FetchSmall Tables : M Drain _) (fun r b => forall Row, r = Some Row -> small_good b Row).
Proof.
  unfold FetchSmall. kbind; [apply keeps_next_row|]. intros [Row|] i1 L1 HR; [|by apply keeps_ret].
  apply keeps_get. intros t Lt Hok. apply keeps_here; [done|]. kbind; [apply keeps_any|]. intros Q i2 L2 _.
  destruct (CursorColumn Q _); [|apply keeps_throw]. destruct (CursorColumn Q _); [|apply keeps_throw].
  kbind; [apply keeps_any|]. intros f i3 L3 _. kbind; [apply keeps_any|]. intros df i4 L4 _.
  apply keeps_ret. intros b Lb Row' [= <-]. eapply row_good_mono; [|by apply HR]. les.
Qed.

#[export] Instance extends_fill_batch n Rows : Extends (fill_batch Tables n Rows : M Drain _).
Proof. revert Rows. induction n; intros; cbn [fill_batch]; solve_extends. Qed.
Lemma keeps_fill_batch n ids Rows : small_goods ids Rows ->
  keeps ids (fill_batch Tables n Rows : M Drain _) (fun r b => small_goods b r.1).
Proof.
  revert ids Rows. induction n as [|n IH]; intros ids Rows HR; cbn [fill_batch].
  { apply keeps_ret. intros. by eapply small_goods_mono. }
  kbind; [apply keeps_FetchSmall|]. intros [Row|] i1 L1 H1; cbn beta in *.
  - apply IH. apply Forall_app. split; [by eapply small_goods_mono|]. apply Forall_singleton. by apply H1.
  - apply keeps_ret. intros. eapply small_goods_mono; [|done]. les.
Qed.

#[export] Instance extends_look_ahead Rows : Extends (look_ahead Tables Rows : M Drain _).
Proof.
  intros t t' q. unfold look_ahead. destruct (FetchSmall Tables t) as [t1 a] eqn:E. pose proof (extends_FetchSmall _ _ _ E).
  destruct a as [[]|[]]; repeat case_bool_decide; by intros [= <- <-].
Qed.
Lemma keeps_look_ahead ids Rows : small_goods ids Rows -> keeps ids (look_ahead Tables Rows : M Drain _) iter_good.
Proof.
  intros HR t t' q L Hok. unfold look_ahead. destruct (FetchSmall Tables t) as [t1 a] eqn:E.
  pose proof (keeps_FetchSmall ids t t1 a L Hok E) as HF. pose proof (extends_FetchSmall _ _ _ E) as Le.
  assert (small_goods (t_ids t1) Rows) as HR1 by (eapply small_goods_mono; [|done]; les).
  destruct a as [[Row|]|[]]; try case_bool_decide; intros [= <- <-] Hs; destruct (HF Hs) as [H1 H2]; (split; [done|]);
    intros I; try done; intros [= <-]; (split; [done|]); try done.
  intros Row' [= <-]. cbn in *. exact (H2 (Some Row) eq_refl Row eq_refl).
Qed.

#[export] Instance extends_Fill I : Extends (Fill Tables I : M Drain _).
Proof. unfold Fill. solve_extends. Qed.
Lemma keeps_Fill ids I : iter_good I ids -> keeps ids (Fill Tables I : M Drain _) iter_good.
Proof.
  intros [H1 H2]. unfold Fill. destruct (Deferred I); [apply keeps_throw|].
  assert (small_goods ids (match AheadRow I with Some Row => [Row] | None => [] end)) as H3.
  { destruct (AheadRow I) as [Row|]; [|constructor]. apply Forall_singleton. by apply H2. }
  revert H3. generalize (match AheadRow I with Some Row => [Row] | None => [] end). intros Rows H3.
  kbind; [apply (keeps_if _ _ _ _ (fun r b => small_goods b r.1)); intros _;
          [apply keeps_ret; intros; by eapply small_goods_mono|by apply keeps_fill_batch]|].
  intros [Rows' Ended] i1 L1 H4. apply keeps_if; intros _; [|by apply keeps_look_ahead].
  apply keeps_ret. intros b Lb. split; [by eapply small_goods_mono|done].
Qed.

#[export] Instance extends_IterNext I : Extends (IterNext Tables I : M Drain _).
Proof. unfold IterNext. solve_extends. Qed.
Lemma keeps_IterNext ids I : iter_good I ids -> keeps ids (IterNext Tables I : M Drain _)
  (fun r b => (forall Row, r.1 = Some Row -> small_good b Row) /\ iter_good r.2 b).
Proof.
  intros HI. unfold IterNext.
  assert (forall J b, iter_good J b -> (forall Row, (hand_out J).1 = Some Row -> small_good b Row) /\ iter_good (hand_out J).2 b) as Hh.
  { intros J b HJ. unfold hand_out. destruct HJ as [HB HA]. destruct (Batch J) as [|Row Rows] eqn:E; cbn.
    - split; [done|]. split; [by rewrite E|done].
    - apply Forall_cons in HB as [? ?]. split; [by intros ? [= <-]|by split]. }
  destruct (Batch I) eqn:EB; [|apply keeps_ret; intros; apply Hh; by eapply iter_good_mono].
  apply keeps_if; intros _; [apply keeps_ret; intros; split; [done|by eapply iter_good_mono]|].
  kbind; [by apply keeps_Fill|]. intros J i1 L1 HJ. apply keeps_ret. intros. apply Hh. by eapply iter_good_mono.
Qed.

#[export] Instance extends_small_match Row : Extends (small_match Row : M (Session X) unit).
Proof. unfold small_match. solve_extends. Qed.
Lemma keeps_small_match ids Row : small_good ids Row -> keeps ids (small_match Row : M (Session X) unit) (fun _ _ => True).
Proof.
  intros HG. unfold small_match. kbind; [apply keeps_any|]. intros n1 i1 L1 _. kbind; [apply keeps_any|]. intros n2 i2 L2 _.
  kbind; [apply keeps_any|]. intros s1 i3 L3 _. kbind; [apply keeps_any|]. intros s2 i4 L4 _.
  kbind; [apply keeps_any|]. intros nr i5 L5 _. apply keeps_get. intros S L Hok. apply keeps_here; [done|]. cbn in *.
  kbind; [apply keeps_any|]. intros better i6 L6 _. apply keeps_if; intros _; [by apply keeps_ret|].
  kbind; [apply keeps_CheckMatch; eapply row_ok_mono, HG; les|]. intros [R|] i7 L7 HR; [|by apply keeps_ret].
  specialize (HR R eq_refl).
  kbind; [apply keeps_StrOfEa; eapply known_addr_mono, HG; les|]. intros Ea i8 L8 HEa.
  apply keeps_row_item; [eapply row_good_mono, HG; les|done|done].
Qed.

#[export] Instance extends_small_loop fuel I : Extends (small_loop Tables fuel I : M Drain unit).
Proof. revert I. induction fuel; intros; cbn [small_loop]; solve_extends. Qed.
Lemma keeps_small_loop fuel ids I : iter_good I ids -> keeps ids (small_loop Tables fuel I : M Drain unit) (fun _ _ => True).
Proof.
  revert ids I. induction fuel as [|fuel IH]; intros ids I HI; cbn [small_loop]; [by apply keeps_ret|].
  kbind; [by apply keeps_IterNext|]. intros [[Row|] J] i1 L1 [H1 H2]; [|by apply keeps_ret]. cbn in *.
  kbind; [apply keeps_on_session; [apply _|apply keeps_small_match; by apply H1]|]. intros _ i2 L2 _.
  apply IH. by eapply iter_good_mono.
Qed.

#[export] Instance extends_SmallDifferences : Extends (StageSearchSmallDifferences Tables : M (Session X) unit).
Proof.
  apply extends_with_source, (extends_reading (fun t => small_loop Tables (S (Remaining t.2)) NewResultIter)). apply _.
Qed.
Lemma StageSearchSmallDifferences_ok : stage_ok (StageSearchSmallDifferences Tables).
Proof.
  split; [apply _|]. intros ids Hb. apply keeps_with_source; [intros b; apply stage_query; [done|dq]|].
  apply (keeps_reading ids (fun t => small_loop Tables (S (Remaining t.2)) NewResultIter)). intros t.
  apply keeps_small_loop. split; [constructor|done].
Qed.

#[export] Instance extends_PartialSmall : Extends (StageFindPartialMatchesSmallDifferences Tables : M (Session X) unit).
Proof. unfold StageFindPartialMatchesSmallDifferences. solve_extends. Qed.
Lemma StageFindPartialMatchesSmallDifferences_ok : stage_ok (StageFindPartialMatchesSmallDifferences Tables).
Proof.
  split; [apply _|]. intros ids Hb. unfold StageFindPartialMatchesSmallDifferences. apply keeps_get. intros S L Hok.
  apply keeps_here; [done|]. cbn in *. apply keeps_if; intros _; [|by apply keeps_ret].
  kbind; [apply keeps_Point|]. intros _ i1 L1 _. kbind; [apply StageSearchSmallDifferences_ok; les|]. intros. apply keeps_Point.
Qed.

(** *** Function rows *)

#[export] Instance extends_read_function_row n o d Row : Extends (read_function_row Tables n o d Row).
Proof. unfold read_function_row. solve_extends. Qed.
#[export] Instance extends_FetchFunctionRows Sql Binds Default Limit : Extends (FetchFunctionRows Tables Sql Binds Default Limit).
Proof. unfold FetchFunctionRows. solve_extends. Qed.

Lemma keeps_read_function_row ids n o d Row : keeps ids (read_function_row Tables n o d Row) (fun Ref _ =>
  match o with
  | None => RefSide Ref = d
  | Some i => exists c, Row !! i = Some c /\ RefSide Ref = if bool_decide (Text_ c = B "diff") then DiffSide else MainSide
  end).
Proof.
  unfold read_function_row. eapply keeps_bind; [solve_extends| |apply _|].
  - apply (keeps_lift ids _ (fun Which _ => match o with
      | None => Which = d
      | Some i => exists c, Row !! i = Some c /\ Which = if bool_decide (Text_ c = B "diff") then DiffSide else MainSide
      end)). intros Which b. destruct o as [i|]; [|by intros [= <-]]. unfold column_at.
    destruct (Row !! i) as [c|]; [|done]. cbn. intros [= <-] _. by exists c.
  - intros Which i1 L1 HW. cbn beta in HW. kbind; [apply keeps_any|]. intros c i2 L2 _. apply keeps_get. intros S L Hok.
    apply keeps_here; [done|]. kbind; [apply keeps_any|]. intros bad i3 L3 _.
    apply keeps_if; intros _; [apply keeps_throw|]. by apply keeps_ret.
Qed.

Lemma keeps_FetchFunctionRows ids Sql Binds Default Limit :
  keeps ids (FetchFunctionRows Tables Sql Binds Default Limit) (fun _ _ => True).
Proof.
  unfold FetchFunctionRows. apply keeps_if; intros _; [by apply keeps_ret|]. kbind; [apply keeps_any|].
  intros Stmt i1 L1 _. destruct (CursorColumn Stmt _); [|apply keeps_throw].
  eapply keeps_weaken; [apply _|apply (keeps_read_rows _ _ _ (fun _ _ => True)); [apply _|done|]|done].
  intros Row b _ _. eapply keeps_weaken; [apply _|apply keeps_read_function_row|done].
Qed.

(** Two rows of [functions_exists], one of each database: both names are known. *)
Lemma keeps_functions_exists ids a b :
  keeps ids (FetchFunctionRows Tables kSqlFunctionsExists [BindText a; BindText b] MainSide None)
    (fun l _ => forall L0 L1, l = [L0; L1] -> RefSide L0 = MainSide -> RefSide L1 = DiffSide -> a ∈ N1 /\ b ∈ N2).
Proof.
  unfold FetchFunctionRows. apply keeps_if; intros _; [by apply keeps_ret|].
  kbind; [apply (keeps_lift ids _ (fun Stmt _ => Prepare kSqlFunctionsExists [BindText a; BindText b] = Ok Stmt)); done|].
  intros Stmt i1 L1 HS. cbn beta in HS. destruct (CursorColumn Stmt (B "address")) as [adr|]; [|apply keeps_throw].
  set (known_side := fun (Ref : FunctionRowRef) (_ : Interners) =>
    match CursorColumn Stmt (B "db_name") with
    | None => RefSide Ref = MainSide
    | Some _ => match RefSide Ref with MainSide => a ∈ N1 | DiffSide => b ∈ N2 end
    end).
  eapply keeps_weaken; [apply _|apply (keeps_read_rows _ _ _ known_side); [apply _|done|]|].
  - intros Row c HR _. eapply keeps_weaken; [apply _|apply keeps_read_function_row|]. intros Ref d _.
    unfold known_side. destruct (CursorColumn Stmt (B "db_name")) as [n|] eqn:En; [|done].
    intros (cell & Ec & Es). pose proof (qn_exists a b Stmt Row n cell HS HR En Ec) as HX. rewrite Es.
    by destruct (bool_decide _).
  - intros l c _ HF L0 L1' -> S0 S1. rewrite Forall_cons, Forall_singleton in HF. destruct HF as [H0 H1]. revert H0 H1.
    unfold known_side. rewrite S0, S1. by destruct (CursorColumn Stmt (B "db_name")).
Qed.

(** *** Related matches *)

#[export] Instance extends_FetchOneByName w Bd : Extends (FetchOneByName Tables w Bd).
Proof.
  intros a b q. unfold FetchOneByName. destruct (FetchFunctionRows Tables _ _ _ _ a) as [c z] eqn:E.
  pose proof (extends_FetchFunctionRows _ _ _ _ _ _ _ E). destruct z as [|[]]; by intros [= <- <-].
Qed.
Lemma keeps_FetchOneByName ids w Bd : keeps ids (FetchOneByName Tables w Bd) (fun _ _ => True).
Proof.
  intros a b q La Hw. unfold FetchOneByName. destruct (FetchFunctionRows Tables _ _ _ _ a) as [c z] eqn:E.
  pose proof (keeps_FetchFunctionRows ids _ _ _ _ a c z La Hw E) as HF.
  destruct z as [|[]]; intros [= <- <-] Hs; destruct (HF Hs); done.
Qed.
#[export] Instance extends_GetFunctionRow r w n : Extends (GetFunctionRow Tables r w n : M (Session X) (option Z)).
Proof. unfold GetFunctionRow. solve_extends. Qed.
Lemma keeps_GetFunctionRow ids r w n : keeps ids (GetFunctionRow Tables r w n : M (Session X) (option Z)) (fun _ _ => True).
Proof.
  unfold GetFunctionRow. apply keeps_get. intros S L Hok. apply keeps_here; [done|]. cbn in *.
  kbind; [apply keeps_any|]. intros Bd i1 L1 _. kbind; [apply keeps_on_ids; [apply _|apply keeps_FetchOneByName]|].
  intros Rows i2 L2 _. destruct Rows as [|Ref Rows]; [by apply keeps_ret|].
  apply keeps_if; intros _; [apply keeps_throw|by apply keeps_ret].
Qed.

#[export] Instance extends_related_constant t : Extends (related_constant Tables t : M (Session X) unit).
Proof. unfold related_constant. solve_extends. Qed.
#[export] Instance extends_FindRelatedConstants m d : Extends (FindRelatedConstants Tables m d : M (Session X) unit).
Proof. unfold FindRelatedConstants. solve_extends_loops. Qed.
Lemma keeps_FindRelatedConstants ids m d : ids_le base ids ->
  keeps ids (FindRelatedConstants Tables m d : M (Session X) unit) (fun _ _ => True).
Proof.
  intros Hb. unfold FindRelatedConstants. kbind; [apply keeps_any|]. intros a i1 L1 _. kbind; [apply keeps_any|].
  intros c i2 L2 _. kbind; [apply keeps_any|]. intros e i3 L3 _. kbind; [apply keeps_any|]. intros Texts i4 L4 _.
  apply keeps_for_each; [apply _|]. intros t b _ Lb. unfold related_constant. kbind; [apply keeps_any|]. intros _ i5 L5 _.
  apply stage_drain; [les|dq|constructor].
Qed.

#[export] Instance extends_related_loop l Dones : Extends (related_loop Tables l Dones : M (Session X) (gset text)).
Proof. revert Dones. induction l; intros; cbn [related_loop]; solve_extends. Qed.
Lemma keeps_related_loop ids l Dones : ids_le base ids ->
  keeps ids (related_loop Tables l Dones : M (Session X) (gset text)) (fun _ _ => True).
Proof.
  revert ids Dones. induction l as [|It l IH]; intros ids Dones Hb; cbn [related_loop]; [by apply keeps_ret|].
  apply keeps_get. intros S L Hok. apply keeps_here; [done|]. cbn in *. kbind; [apply keeps_any|]. intros Key i1 L1 _.
  apply keeps_if; intros _; [apply IH; les|]. apply keeps_if; intros _; [by apply keeps_ret|].
  kbind; [apply keeps_GetFunctionRow|]. intros m i2 L2 _. kbind; [apply keeps_GetFunctionRow|]. intros d i3 L3 _.
  destruct m as [m|], d as [d|]; try (apply IH; les). kbind; [apply keeps_any|]. intros Both i4 L4 _.
  kbind; [apply (keeps_if _ _ _ _ (fun _ _ => True)); intros _; [apply keeps_FindRelatedConstants; les|by apply keeps_ret]|].
  intros _ i5 L5 _. apply IH. les.
Qed.

#[export] Instance extends_Related : Extends (StageFindRelatedMatches Tables : M (Session X) unit).
Proof. unfold StageFindRelatedMatches. solve_extends. Qed.
Lemma StageFindRelatedMatches_ok : stage_ok (StageFindRelatedMatches Tables).
Proof.
  split; [apply _|]. intros ids Hb. unfold StageFindRelatedMatches. kbind; [apply keeps_SessionCleanup|]. intros _ i1 L1 _.
  apply keeps_get. intros S L Hok. apply keeps_here; [done|]. cbn in *.
  kbind; [apply keeps_related_loop; les|]. intros Dn i2 L2 _.
  apply keeps_get. intros S' L' Hok'. apply keeps_here; [done|]. cbn in *.
  kbind; [apply keeps_related_loop; les|]. intros. by apply keeps_ret.
Qed.

(** *** Related compilation units *)

#[export] Instance extends_read_plan Row : Extends (read_plan Row).
Proof. unfold read_plan. solve_extends. Qed.
#[export] Instance extends_Explain Sql : Extends (ExplainQueryPlan Sql).
Proof. unfold ExplainQueryPlan. solve_extends. Qed.
#[export] Instance extends_PlanOk : Extends CuReplayPlanOk.
Proof.
  intros a b q. unfold CuReplayPlanOk. destruct (ExplainQueryPlan _ a) as [c z] eqn:E. pose proof (extends_Explain _ _ _ _ E).
  destruct z as [|[]]; by intros [= <- <-].
Qed.
Lemma keeps_PlanOk ids : keeps ids CuReplayPlanOk (fun _ _ => True).
Proof.
  assert (keeps ids (ExplainQueryPlan kSqlCuCartesian) (fun _ _ => True)) as HX.
  { unfold ExplainQueryPlan.
    assert (forall c, keeps ids (read_rows c read_plan) (fun _ _ => True)) as HR.
    { intros c. eapply keeps_weaken; [apply _|apply (keeps_read_rows _ _ _ (fun _ _ => True)); [apply _|done|]|done].
      intros Row b _ _. unfold read_plan. kbind; [apply keeps_any|]. intros. kbind; [apply keeps_any|]. intros.
      kbind; [apply keeps_any|]. intros. by apply keeps_ret. }
    destruct (prepare_v2 _); [apply keeps_any|..]; destruct (run_statement _ _); apply HR. }
  intros a b q La Hw. unfold CuReplayPlanOk. destruct (ExplainQueryPlan _ a) as [c z] eqn:E.
  pose proof (HX a c z La Hw E) as HF. destruct z as [|[]]; intros [= <- <-] Hs; destruct (HF Hs); done.
Qed.

Section CompilationUnits.
Context (CuNative : bool).

#[export] Instance extends_drain_units a b c d : Extends (drain_units Tables CuNative a b c d : M (Session X) unit).
Proof. unfold drain_units. solve_extends. Qed.
Lemma keeps_drain_units ids a b c d : ids_le base ids ->
  keeps ids (drain_units Tables CuNative a b c d : M (Session X) unit) (fun _ _ => True).
Proof.
  intros Hb. unfold drain_units.
  kbind; [apply (keeps_if _ _ _ _ (fun _ _ => True)); intros _; [apply keeps_on_ids; [apply _|apply keeps_PlanOk]|by apply keeps_ret]|].
  intros Native i1 L1 _. apply keeps_if; intros _.
  - kbind; [apply keeps_any|]. intros r1 i2 L2 _. kbind; [apply keeps_any|]. intros r2 i3 L3 _.
    kbind; [apply keeps_on_ids; [apply _|apply keeps_InternDesc]|]. intros D i4 L4 KD. cbn beta in KD.
    apply keeps_drained; [|constructor]. intros z Lz. split; [les|]. by eapply known_desc_mono.
  - apply stage_drain; [les|dq|constructor].
Qed.

#[export] Instance extends_cu_loop l : Extends (cu_loop Tables CuNative l : M (Session X) unit).
Proof. induction l; cbn [cu_loop]; solve_extends. Qed.
Lemma keeps_cu_loop ids l : ids_le base ids -> keeps ids (cu_loop Tables CuNative l : M (Session X) unit) (fun _ _ => True).
Proof.
  revert ids. induction l as [|It l IH]; intros ids Hb; cbn [cu_loop]; [by apply keeps_ret|].
  apply keeps_if; intros _; [by apply keeps_ret|]. apply keeps_get. intros S L Hok. apply keeps_here; [done|]. cbn in *.
  kbind; [apply keeps_any|]. intros b1 i1 L1 _. kbind; [apply keeps_any|]. intros u1 i2 L2 _.
  kbind; [apply keeps_any|]. intros b2 i3 L3 _. kbind; [apply keeps_any|]. intros u2 i4 L4 _.
  destruct u1 as [[s1 e1]|], u2 as [[s2 e2]|]; try (apply IH; les).
  kbind; [apply keeps_any|]. intros lo1 i5 L5 _. kbind; [apply keeps_any|]. intros hi1 i6 L6 _.
  kbind; [apply keeps_any|]. intros lo2 i7 L7 _. kbind; [apply keeps_any|]. intros hi2 i8 L8 _.
  kbind; [apply keeps_drain_units; les|]. intros _ i9 L9 _. apply IH. les.
Qed.

#[export] Instance extends_Cu : Extends (StageFindRelatedCompilationUnit Tables CuNative : M (Session X) unit).
Proof. unfold StageFindRelatedCompilationUnit. solve_extends. Qed.
Lemma StageFindRelatedCompilationUnit_ok : stage_ok (StageFindRelatedCompilationUnit Tables CuNative).
Proof.
  split; [apply _|]. intros ids Hb. unfold StageFindRelatedCompilationUnit. kbind; [apply keeps_SessionCleanup|].
  intros _ i1 L1 _. apply keeps_get. intros S L Hok. apply keeps_here; [done|]. cbn in *. apply keeps_cu_loop. les.
Qed.
End CompilationUnits.

(** *** Items of table rows *)

Lemma main_addr ids n a : ids_le base ids -> at_row (AddrIdOf (main_of Tables)) n = Ok a -> known_addr ids a.
Proof.
  intros Hb E. destruct (table_named_mono _ _ _ _ Hb (tables_main (TablesNamed := TablesNamed0))) as [HA _ _].
  by eapply at_row_Forall in E.
Qed.
Lemma diff_addr ids n a : ids_le base ids -> at_row (AddrIdOf (diff_of Tables)) n = Ok a -> known_addr ids a.
Proof.
  intros Hb E. destruct (table_named_mono _ _ _ _ Hb (tables_diff (TablesNamed := TablesNamed0))) as [HA _ _].
  by eapply at_row_Forall in E.
Qed.
Lemma main_name ids n a : ids_le base ids -> at_row (NameIdOf (main_of Tables)) n = Ok a -> known_name ids a /\ named N1 ids a.
Proof.
  intros Hb E. destruct (table_named_mono _ _ _ _ Hb (tables_main (TablesNamed := TablesNamed0))) as [_ HN _].
  exact (at_row_Forall _ _ _ _ HN E).
Qed.
Lemma diff_name ids n a : ids_le base ids -> at_row (NameIdOf (diff_of Tables)) n = Ok a -> known_name ids a /\ named N2 ids a.
Proof.
  intros Hb E. destruct (table_named_mono _ _ _ _ Hb (tables_diff (TablesNamed := TablesNamed0))) as [_ HN _].
  exact (at_row_Forall _ _ _ _ HN E).
Qed.

(** A new item between named functions. *)
Lemma keeps_new_item ids Ea1 n1 Ea2 n2 Desc R k1 k2 C : known_addr ids Ea1 -> known_addr ids Ea2 ->
  known_name ids n1 -> named N1 ids n1 -> known_name ids n2 -> named N2 ids n2 -> known Desc (Descs_ ids) ->
  unit_double R ->
  keeps ids (SessionAddMatch n1 n2 R (MkItem Ea1 n1 Ea2 n2 Desc R k1 k2) C : M (Session X) unit) (fun _ _ => True).
Proof.
  intros. apply keeps_SessionAddMatch; try done.
  - split; cbn; try done. by apply unit_not_nan.
  - split; [done|]. by apply (good_names (X := X) (N1 := N1) (N2 := N2)).
Qed.

(** *** Local affinity *)

#[export] Instance extends_GapRows w a b : Extends (GapRows Tables w a b : M (Session X) (list nat)).
Proof. unfold GapRows. solve_extends. Qed.
Lemma keeps_GapRows ids w a b : keeps ids (GapRows Tables w a b : M (Session X) (list nat)) (fun _ _ => True).
Proof.
  unfold GapRows. apply keeps_get. intros S L Hok. apply keeps_here; [done|]. cbn in *.
  kbind; [apply keeps_any|]. intros b1 i1 L1 _. kbind; [apply keeps_any|]. intros b2 i2 L2 _.
  kbind; [apply keeps_on_ids; [apply _|apply keeps_FetchFunctionRows]|]. intros Rows i3 L3 _. apply keeps_any.
Qed.

#[export] Instance extends_CallOnMatchHook a b R : Extends (CallOnMatchHook Tables a b R : M (Session X) dbl).
Proof. unfold CallOnMatchHook. solve_extends. Qed.
Lemma keeps_CallOnMatchHook ids a b R :
  keeps ids (CallOnMatchHook Tables a b R : M (Session X) dbl) (fun R' _ => R' = R).
Proof.
  unfold CallOnMatchHook. apply keeps_get. intros S L Hok. apply keeps_here; [done|]. cbn in *.
  apply keeps_if; intros _; [by apply keeps_ret|].
  kbind; [apply keeps_on_ids; [apply _|apply keeps_InternDesc]|]. intros D i1 L1 _.
  kbind; [apply keeps_any|]. intros n1 i2 L2 _. kbind; [apply keeps_any|]. intros n2 i3 L3 _.
  kbind; [apply keeps_any|]. intros Row i4 L4 _. apply keeps_get. intros S' L' Hok'.
  kbind_at; [by apply keeps_Hook|]. intros _ i5 L5 _. by apply keeps_ret.
Qed.

#[export] Instance extends_gap_pair d a b s : Extends (gap_pair Tables d a b s : M (Session X) GapScores).
Proof. unfold gap_pair. solve_extends. Qed.
Lemma keeps_gap_pair ids d a b s : ids_le base ids -> known d (Descs_ ids) ->
  keeps ids (gap_pair Tables d a b s : M (Session X) GapScores) (fun _ _ => True).
Proof.
  intros Hb Hd. unfold gap_pair. kbind; [apply keeps_any|]. intros Skip i1 L1 _. apply keeps_if; intros _; [by apply keeps_ret|].
  apply keeps_get. intros S L Hok. kbind_at; [apply keeps_CompareFunctionRows; [done|lia|lia]|].
  intros R i2 L2 HR. cbn in *. destruct (gap_target R) as [Target|]; [|by apply keeps_ret].
  kbind; [by apply (keeps_lift i2 _ (fun n _ => at_row (NameIdOf (main_of Tables)) a = Ok n))|]. intros n1 i3 L3 E1.
  kbind; [by apply (keeps_lift i3 _ (fun n _ => at_row (NameIdOf (diff_of Tables)) b = Ok n))|]. intros n2 i4 L4 E2.
  apply keeps_if; intros _; [by apply keeps_ret|]. kbind; [apply keeps_CallOnMatchHook|]. intros R' i5 L5 ->.
  kbind; [apply keeps_any|]. intros k1 i6 L6 _. kbind; [apply keeps_any|]. intros k2 i7 L7 _.
  kbind; [by apply (keeps_lift i7 _ (fun n _ => at_row (AddrIdOf (main_of Tables)) a = Ok n))|]. intros x1 i8 L8 E3.
  kbind; [by apply (keeps_lift i8 _ (fun n _ => at_row (AddrIdOf (diff_of Tables)) b = Ok n))|]. intros x2 i9 L9 E4.
  cbn beta in *. assert (ids_le base i9) as Hb9 by les.
  kbind; [|intros; by apply keeps_ret]. 
  destruct (main_name _ _ _ Hb9 E1), (diff_name _ _ _ Hb9 E2).
  apply keeps_new_item; try done; [by eapply main_addr|by eapply diff_addr|]. eapply known_desc_mono; [|exact Hd]. les.
Qed.

#[export] Instance extends_FindBetween a b c d : Extends (FindFunctionsBetween Tables a b c d : M (Session X) unit).
Proof. unfold FindFunctionsBetween. solve_extends_loops. Qed.
Lemma keeps_FindBetween ids a b c d : ids_le base ids ->
  keeps ids (FindFunctionsBetween Tables a b c d : M (Session X) unit) (fun _ _ => True).
Proof.
  intros Hb. unfold FindFunctionsBetween. eapply keeps_bind; [solve_extends_loops|apply keeps_GapRows|apply _|].
  intros Rows1 i1 L1 _. apply keeps_if; intros _; [by apply keeps_ret|].
  eapply keeps_bind; [solve_extends_loops|apply keeps_GapRows|apply _|]. intros Rows2 i2 L2 _.
  apply keeps_if; intros _; [by apply keeps_ret|].
  eapply keeps_bind; [solve_extends_loops|apply keeps_on_ids; [apply _|apply keeps_InternDesc]|apply _|].
  intros D i3 L3 KD. cbn beta in KD. eapply keeps_bind; [solve_extends_loops| |solve_extends_loops|intros; by apply keeps_ret].
  apply keeps_fold_each; [solve_extends_loops|]. intros A z s _ Lz. apply keeps_fold_each; [solve_extends_loops|].
  intros C y s' _ Ly. apply keeps_gap_pair; [les|]. eapply known_desc_mono; [|exact KD]. les.
Qed.

#[export] Instance extends_gap_loop p l : Extends (gap_loop Tables p l : M (Session X) unit).
Proof. revert p. induction l; intros; cbn [gap_loop]; apply _. Qed.
#[export] Instance extends_Affine : Extends (StageFindLocallyAffineFunctions Tables : M (Session X) unit).
Proof. unfold StageFindLocallyAffineFunctions. solve_extends. Qed.
Lemma StageFindLocallyAffineFunctions_ok : stage_ok (StageFindLocallyAffineFunctions Tables).
Proof.
  split; [apply _|]. intros ids Hb. unfold StageFindLocallyAffineFunctions. kbind; [apply keeps_SessionCleanup|].
  intros _ i1 L1 _. apply keeps_get. intros S L Hok. apply keeps_here; [done|]. cbn in *. kbind; [apply keeps_any|].
  intros Keys i2 L2 _. destruct (_.*2) as [|First Matches]; [by apply keeps_ret|].
  assert (forall z p, ids_le base z -> keeps z (gap_loop Tables p Matches : M (Session X) unit) (fun _ _ => True)) as HL; [|apply HL; les].
  induction Matches as [|Curr Matches IH]; intros z p Hz; cbn [gap_loop]; [by apply keeps_ret|].
  kbind; [by apply keeps_FindBetween|]. intros _ y Ly _. apply IH. les.
Qed.

(** *** Callee diffing *)

#[export] Instance extends_callee_hook h m d a b R : Extends (callee_hook Tables h m d a b R : M (Session X) unit).
Proof. unfold callee_hook. solve_extends. Qed.
Lemma keeps_callee_hook ids h m d a b R : keeps ids (callee_hook Tables h m d a b R : M (Session X) unit) (fun _ _ => True).
Proof.
  unfold callee_hook. apply keeps_get. intros S L Hok. apply keeps_here; [done|]. cbn in *.
  apply keeps_if; intros _; [|by apply keeps_ret].
  kbind; [apply keeps_on_ids; [apply _|apply keeps_InternDesc]|]. intros D i1 L1 _. kbind; [apply keeps_any|].
  intros Row i2 L2 _. apply keeps_get. intros S' L' Hok'. by apply keeps_Hook.
Qed.

#[export] Instance extends_compare_candidate a b h i m d n1 n2 :
  Extends (compare_candidate Tables a b h i m d n1 n2 : M (Session X) unit).
Proof. unfold compare_candidate. solve_extends. Qed.
Lemma keeps_compare_candidate ids a b h i m d n1 n2 : ids_le base ids -> a ∈ N1 -> b ∈ N2 ->
  keeps ids (compare_candidate Tables a b h i m d n1 n2 : M (Session X) unit) (fun _ _ => True).
Proof.
  intros Hb Ha Hb'. unfold compare_candidate. apply keeps_get. intros S L Hok.
  kbind_at; [apply keeps_CompareFunctionRows; [done|lia|lia]|].
  intros R i2 L2 HR. cbn in *. destruct (callee_chooser R) as [Cat|]; [|by apply keeps_ret].
  kbind; [apply keeps_callee_hook|]. intros _ i3 L3 _.
  kbind; [apply keeps_on_ids; [apply _|apply keeps_InternName]|]. intros Id1 i4 L4 [K1 E1].
  kbind; [apply keeps_on_ids; [apply _|apply keeps_InternName]|]. intros Id2 i5 L5 [K2 E2].
  kbind; [by apply (keeps_lift i5 _ (fun n _ => at_row (AddrIdOf (main_of Tables)) m = Ok n))|]. intros x1 i6 L6 E3.
  kbind; [by apply (keeps_lift i6 _ (fun n _ => at_row (AddrIdOf (diff_of Tables)) d = Ok n))|]. intros x2 i7 L7 E4.
  kbind; [apply keeps_on_ids; [apply _|apply keeps_InternDesc]|]. intros D i8 L8 KD. cbn beta in *.
  assert (ids_le base i8) as Hb8 by les.
  apply keeps_new_item; [by eapply main_addr|by eapply diff_addr| | | | |done|by apply with_bonus_unit].
  - eapply known_name_mono; [|exact K1]. les.
  - eapply named_mono; [|by exists a]. les.
  - eapply known_name_mono; [|exact K2]. les.
  - eapply named_mono; [|by exists b]. les.
Qed.

#[export] Instance extends_candidate_rows a b h i L0 L1 : Extends (candidate_rows Tables a b h i L0 L1 : M (Session X) unit).
Proof. unfold candidate_rows. solve_extends. Qed.
Lemma keeps_candidate_rows ids a b h i L0 L1 : ids_le base ids ->
  (RefSide L0 = MainSide -> RefSide L1 = DiffSide -> a ∈ N1 /\ b ∈ N2) ->
  keeps ids (candidate_rows Tables a b h i L0 L1 : M (Session X) unit) (fun _ _ => True).
Proof.
  intros Hb HN. unfold candidate_rows. apply keeps_if; intros _; [apply keeps_throw|].
  kbind; [apply keeps_any|]. intros k1 i1 M1 _. kbind; [apply keeps_any|]. intros k2 i2 M2 _.
  destruct k1 as [k1|], k2 as [k2|]; try apply keeps_throw. kbind; [apply keeps_any|]. intros En i3 M3 _.
  apply keeps_if; intros _; [by apply keeps_ret|]. apply keeps_if; intros HS; [apply keeps_throw|].
  apply orb_false_iff in HS as [S0 S1]. apply bool_decide_eq_false, dec_stable in S0.
  apply bool_decide_eq_false, dec_stable in S1. destruct (HN S0 S1).
  apply keeps_compare_candidate; [les|done..].
Qed.

#[export] Instance extends_ProcessCandidate a b h i : Extends (ProcessCandidate Tables a b h i : M (Session X) unit).
Proof. unfold ProcessCandidate. solve_extends. Qed.
Lemma keeps_ProcessCandidate ids a b h i : ids_le base ids ->
  keeps ids (ProcessCandidate Tables a b h i : M (Session X) unit) (fun _ _ => True).
Proof.
  intros Hb. unfold ProcessCandidate. kbind; [apply keeps_on_ids; [apply _|apply keeps_functions_exists]|].
  intros Rows i1 L1 HE. cbn beta in HE. destruct Rows as [|r0 [|r1 []]]; try by apply keeps_ret.
  apply keeps_candidate_rows; [les|]. by apply HE.
Qed.

#[export] Instance extends_candidate_step h i p d : Extends (candidate_step Tables h i p d : M (Session X) (gset text)).
Proof. unfold candidate_step. solve_extends. Qed.
#[export] Instance extends_OneMatch m d w h i Dn : Extends (FindOneMatchDiffing Tables m d w h i Dn : M (Session X) (gset text)).
Proof. unfold FindOneMatchDiffing. solve_extends. Qed.
Lemma keeps_OneMatch ids m d w h i Dn : ids_le base ids ->
  keeps ids (FindOneMatchDiffing Tables m d w h i Dn : M (Session X) (gset text)) (fun _ _ => True).
Proof.
  intros Hb. unfold FindOneMatchDiffing. kbind; [apply keeps_any|]. intros c1 i1 L1 _. kbind; [apply keeps_any|].
  intros c2 i2 L2 _. apply keeps_if; intros _; [apply keeps_throw|]. kbind; [apply keeps_any|]. intros Pairs i3 L3 _.
  apply keeps_fold_each; [apply _|]. intros [a b] z c _ Lz. unfold candidate_step.
  apply keeps_if; intros _; [by apply keeps_ret|].
  kbind; [apply (keeps_if _ _ _ _ (fun _ _ => True)); intros _; [by apply keeps_ret|apply keeps_ProcessCandidate; les]|].
  intros. by apply keeps_ret.
Qed.

#[export] Instance extends_match_step h w i It Dn : Extends (match_step Tables h w i It Dn : M (Session X) (gset text)).
Proof. unfold match_step. solve_extends. Qed.
Lemma keeps_match_step ids h w i It Dn : ids_le base ids ->
  keeps ids (match_step Tables h w i It Dn : M (Session X) (gset text)) (fun _ _ => True).
Proof.
  intros Hb. unfold match_step. apply keeps_get. intros S L Hok. apply keeps_here; [done|]. cbn in *.
  kbind; [apply keeps_any|]. intros Key i1 L1 _. apply keeps_if; intros _; [by apply keeps_ret|].
  kbind; [apply keeps_GetFunctionRow|]. intros m i2 L2 _. kbind; [apply keeps_GetFunctionRow|]. intros d i3 L3 _.
  destruct m as [m|], d as [d|]; try by apply keeps_ret. kbind; [apply keeps_any|]. intros n1 i4 L4 _.
  apply keeps_if; intros _; [by apply keeps_ret|]. kbind; [apply keeps_any|]. intros n2 i5 L5 _.
  apply keeps_if; intros _; [by apply keeps_ret|]. apply keeps_OneMatch. les.
Qed.

#[export] Instance extends_walk h w i k Dn : Extends (walk_category Tables h w i k Dn : M (Session X) (gset text)).
Proof. unfold walk_category. solve_extends. Qed.
Lemma keeps_walk ids h w i k Dn : ids_le base ids ->
  keeps ids (walk_category Tables h w i k Dn : M (Session X) (gset text)) (fun _ _ => True).
Proof.
  intros Hb. unfold walk_category. apply keeps_get. intros S L Hok. apply keeps_here; [done|]. cbn in *.
  apply keeps_fold_each; [apply _|]. intros It z c _ Lz. apply keeps_match_step. les.
Qed.

#[export] Instance extends_diffing_rounds n h w i Dn : Extends (diffing_rounds Tables n h w i Dn : M (Session X) unit).
Proof. revert i Dn. induction n; intros; cbn [diffing_rounds]; solve_extends. Qed.
Lemma keeps_diffing_rounds n ids h w i Dn : ids_le base ids ->
  keeps ids (diffing_rounds Tables n h w i Dn : M (Session X) unit) (fun _ _ => True).
Proof.
  revert ids i Dn. induction n as [|n IH]; intros ids i Dn Hb; cbn [diffing_rounds]; [by apply keeps_ret|].
  apply keeps_get. intros S L Hok. apply keeps_here; [done|]. cbn in *.
  kbind; [apply keeps_walk; les|]. intros D1 i1 L1 _. kbind; [apply keeps_walk; les|]. intros D2 i2 L2 _.
  kbind; [apply keeps_SessionCleanup|]. intros _ i3 L3 _. kbind; [apply keeps_LogShowSummary|]. intros _ i4 L4 _.
  apply keeps_get. intros S' L' Hok'. apply keeps_here; [done|]. cbn in *. apply keeps_if; intros _; [by apply keeps_ret|].
  apply IH. les.
Qed.

#[export] Instance extends_DiffingInternal h w : Extends (FindMatchesDiffingInternal Tables h w : M (Session X) unit).
Proof. apply extends_diffing_rounds. Qed.
Lemma keeps_DiffingInternal ids h w : ids_le base ids ->
  keeps ids (FindMatchesDiffingInternal Tables h w : M (Session X) unit) (fun _ _ => True).
Proof. apply keeps_diffing_rounds. Qed.

#[export] Instance extends_Diffing : Extends (StageFindMatchesDiffing Tables : M (Session X) unit).
Proof. unfold StageFindMatchesDiffing. solve_extends. Qed.
Lemma StageFindMatchesDiffing_ok : stage_ok (StageFindMatchesDiffing Tables).
Proof.
  split; [apply _|]. intros ids Hb. unfold StageFindMatchesDiffing. kbind; [apply keeps_SessionCleanup|].
  intros _ i1 L1 _. apply keeps_get. intros S L Hok. apply keeps_here; [done|]. change (t_ids S) with (Ids S) in *.
  kbind; [apply (keeps_if _ _ _ _ (fun _ _ => True)); intros _; [apply keeps_DiffingInternal; les|by apply keeps_ret]|].
  intros _ i2 L2 _. apply keeps_DiffingInternal. les.
Qed.
End Stages.
