(* ===== verification/PipelineSpec.v ===== *)
(** * The pipeline keeps the session, ends, and goes on where it was

    Over the passes of [StagesSpec]: the whole run keeps the session well formed;
    the convergence loop ends after at most as many rounds as there are pairs of
    names, and a few more; a run resumed from one of its checkpoints ends like the
    run that was not interrupted. *)

From stdpp Require Import base numbers gmap sets list.
From Stdlib Require Import ZArith Lia.
From S2P Require Import Prelude Dbl Decimal Interner Utf8 TextDiff MatchState MatchStateSpec Snapshot FinalPass Unmatched.
From S2P Require Import SessionData PatchDiffHook Consumer ConsumerLoops PreparedTextSpec RatioHistory SideTables FunctionTable RatioEngine.
From S2P Require Import StageSql Sql EarlyStages TierStages LoopStages Preflight Pipeline SessionSpec SourcesSpec StagesSpec.

(** The engine's own calls keep its invariant. *)
Class EngineSetupOk (X : Type) `{!SessionInvariant X, !EngineSetup X} : Prop := {
  ClearEngineCache_ok ids x : EInv ids x -> EInv ids (ClearEngineCache x);
  PrepareEngine_ok ids F x x' r : EInv ids x -> PrepareEngine F x = (x', r) -> EInv ids x';
}.

(** ** The unmatched functions *)

#[export] Instance unmatched_like : StateLike UnmatchedSession := { t_ids := UIds; t_ok U := wf_ids (UIds U) }.

Section Unmatched.
Context (Query : text -> res QueryRun).

#[export] Instance extends_intern_name t : Extends (intern_name t).
Proof.
  intros U U' r. unfold intern_name, NameOpt. destruct t as [t|]; [|by intros [= <- <-]].
  pose proof (Name_le t (UIds U)). destruct (Name _ _). by intros [= <- <-].
Qed.
#[export] Instance extends_intern_addr t : Extends (intern_addr t).
Proof.
  intros U U' r. unfold intern_addr, AddrOpt. destruct t as [t|]; [|by intros [= <- <-]].
  pose proof (Addr_le t (UIds U)). destruct (Addr _ _). by intros [= <- <-].
Qed.
#[export] Instance extends_fetch_loop Q Sql cells Rows : Extends (fetch_loop Q Sql cells Rows).
Proof. revert Rows. induction cells as [|[c0 c1]]; intros; cbn [fetch_loop]; solve_extends. Qed.
#[export] Instance extends_Unmatched Rows b s : Extends (Unmatched Rows b s).
Proof. by intros U U' r [= <- <-]. Qed.
#[export] Instance extends_ufinal f : Extends (modify (fun U => with_ufinal (f (UFinal U)) U)).
Proof. by intros U U' r [= <- <-]. Qed.
#[export] Instance extends_StageFindUnmatched : Extends (StageFindUnmatched Query).
Proof. unfold StageFindUnmatched, FetchAll. solve_extends. Qed.

(** A well-formed table stays so as long as it only grows, and there is room. *)
Lemma unmatched_wf U U' r : wf_ids (UIds U) -> StageFindUnmatched Query U = (U', r) -> small_ids (UIds U') ->
  wf_ids (UIds U').
Proof. intros Hw E Hs. pose proof (extends_StageFindUnmatched _ _ _ E) as L. by eapply ids_le_wf. Qed.
End Unmatched.

Section Pipeline.
Context {X : Type} `{!Engine X, !SessionInvariant X, !EngineOk X, !HookReset X, !HookResetOk X}.
Context `{!EngineSetup X, !EngineSetupOk X, !Sqlite}.
Context (N1 N2 : gset text) (base : Interners) (Tables : sided FunctionTable).
Context `{!GoodNames X N1 N2, !QueriesNamed N1 N2, !TablesNamed N1 N2 base Tables}.
Context (Problems : list text) (CuNative : bool).

(** ** The passes of the pipeline *)

#[export] Instance extends_fill_choosers : Extends (fill_choosers : M (Session X) unit).
Proof. intros S S' r. unfold fill_choosers. destruct (distribute _ _ _). by intros [= <- <-]. Qed.
#[export] Instance extends_SessionFinalPass : Extends (SessionFinalPass : M (Session X) unit).
Proof. unfold SessionFinalPass. solve_extends. Qed.
Lemma SessionFinalPass_ok : stage_ok base (SessionFinalPass : M (Session X) unit).
Proof.
  split; [apply _|]. intros ids Hb. unfold SessionFinalPass. kbind; [apply keeps_SessionCleanup|]. intros _ i1 L1 _.
  intros S S' r _ Hok. unfold fill_choosers. destruct (distribute _ _ _). intros [= <- <-] _. split; [|done].
  by apply (session_ok_same S).
Qed.

#[export] Instance extends_SessionFindUnmatched : Extends (SessionFindUnmatched : M (Session X) unit).
Proof.
  intros S S' r. unfold SessionFindUnmatched. destruct (StageFindUnmatched _ _) as [U a] eqn:E. intros [= <- <-].
  exact (extends_StageFindUnmatched _ _ _ _ E).
Qed.
Lemma SessionFindUnmatched_ok : stage_ok base (SessionFindUnmatched : M (Session X) unit).
Proof.
  split; [apply _|]. intros ids Hb S S' r _ Hok. unfold SessionFindUnmatched.
  destruct (StageFindUnmatched _ _) as [U a] eqn:E. intros [= <- <-] Hs. split; [|done].
  pose proof (extends_StageFindUnmatched _ _ _ _ E) as L. cbn in L, Hs.
  apply (session_ok_same (with_ids (UIds U) S)); [done..|]. by apply session_ok_ids.
Qed.

#[export] Instance extends_RequireIngest : Extends (RequireIngest Problems : M (Session X) unit).
Proof. unfold RequireIngest. solve_extends. Qed.
#[export] Instance extends_SetIteration i : Extends (SetIteration i : M (Session X) unit).
Proof. apply extends_on_stages. Qed.
#[export] Instance extends_StagePrepare : Extends (StagePrepare : M (Session X) unit).
Proof. unfold StagePrepare. solve_extends. Qed.
Lemma keeps_StagePrepare ids : keeps ids (StagePrepare : M (Session X) unit) (fun _ _ => True).
Proof.
  unfold StagePrepare. apply keeps_get. intros S L Hok. apply keeps_here; [done|]. apply keeps_engine_call.
  intros b x x' r _ _ HI E. split; [by eapply PrepareEngine_ok|done].
Qed.
Lemma keeps_RequireIngest ids : keeps ids (RequireIngest Problems : M (Session X) unit) (fun _ _ => True).
Proof. unfold RequireIngest. apply keeps_if; intros _; [by apply keeps_ret|apply keeps_throw]. Qed.

Lemma LoopStage_ok Name i m : stage_ok base m -> stage_ok base (LoopStage Name i m : M (Session X) unit).
Proof.
  intros [Hx Hm]. split; [unfold LoopStage; solve_extends|]. intros ids Hb. unfold LoopStage.
  kbind; [apply keeps_Point|]. intros _ i1 L1 _. kbind; [apply Hm; les|]. intros. apply keeps_Point.
Qed.
Lemma pointed_ok Name m : stage_ok base m -> stage_ok base (pointed Name m : M (Session X) unit).
Proof.
  intros [Hx Hm]. split; [unfold pointed; solve_extends|]. intros ids Hb. unfold pointed.
  kbind; [apply keeps_Point|]. intros _ i1 L1 _. kbind; [apply Hm; les|]. intros. apply keeps_Point.
Qed.

#[export] Instance extends_preflight : Extends (preflight Problems : M (Session X) bool).
Proof. unfold preflight. solve_extends. all: by intros S S' q [= <- <-]. Qed.
Lemma keeps_preflight ids : ids_le base ids -> keeps ids (preflight Problems : M (Session X) bool) (fun _ _ => True).
Proof.
  intros Hb. unfold preflight. eapply keeps_bind; [solve_extends|apply (fun H => H : keeps ids _ (fun _ _ => True))| |].
  { intros S S' r _ [H1 H2 H3 H4] [= <- <-] _. split; [|done]. split; cbn; try done. by apply ClearEngineCache_ok. }
  { by intros S S' q [= <- <-]. }
  intros _ i1 L1 _. kbind; [apply keeps_on_stages|]. intros _ i2 L2 _. kbind; [apply keeps_any|]. intros V i3 L3 _.
  apply keeps_if; intros _; [by apply keeps_ret|]. kbind; [apply keeps_RequireIngest|]. intros _ i4 L4 _.
  kbind; [apply keeps_any|]. intros Eq i5 L5 _. kbind; [apply keeps_on_facts|]. intros _ i6 L6 _.
  kbind; [apply keeps_any|]. intros cg i7 L7 _.
  kbind; [apply (StageFindEqualMatches_ok N1 N2 base); les|]. intros _ i8 L8 _.
  kbind; [apply keeps_Point|]. intros. by apply keeps_ret.
Qed.

#[export] Instance extends_dirty_step : Extends (dirty_step Tables : M (Session X) bool).
Proof. unfold dirty_step. pose proof (extends_Dirty N1 N2 base Tables). solve_extends. Qed.
Lemma keeps_dirty_step ids : ids_le base ids -> keeps ids (dirty_step Tables : M (Session X) bool) (fun _ _ => True).
Proof.
  pose proof (extends_Dirty N1 N2 base Tables) as HD.
  intros Hb. unfold dirty_step. kbind; [apply keeps_any|]. intros Same i1 L1 _. kbind; [apply keeps_set_flags|].
  intros _ i2 L2 _. kbind; [apply keeps_StagePrepare|]. intros _ i3 L3 _. apply keeps_get. intros S L Hok.
  apply keeps_here; [done|]. change (t_ids S) with (Ids S) in *. apply keeps_if; intros _; [|by apply keeps_ret].
  kbind; [apply (keeps_Dirty N1 N2 base); first [apply _|les]|]. intros Skip i4 L4 _. kbind; [apply keeps_Point|]. intros. by apply keeps_ret.
Qed.

(** ** Programs of the run *)

#[export] Instance run_like : StateLike (Run X) := { t_ids r := Ids (RunSession r); t_ok r := session_ok (RunSession r) }.

Definition run_ok {A : Type} (m : M (Run X) A) : Prop :=
  Extends m /\ forall ids, ids_le base ids -> keeps ids m (fun _ _ => True).

Lemma run_ret {A} (a : A) : run_ok (mret a).
Proof. split; [apply _|]. intros. by apply keeps_ret. Qed.
Lemma run_then {A C} (m : M (Run X) A) (f : A -> M (Run X) C) : run_ok m -> (forall a, run_ok (f a)) -> run_ok (m ≫= f).
Proof.
  intros [Hx Hm] Hf. split; [apply extends_bind; [done|apply Hf]|]. intros ids Hb.
  eapply keeps_bind; [apply Hf|by apply Hm|done|]. intros a b L _. apply Hf. by etrans.
Qed.
Lemma run_get {C} (f : Run X -> M (Run X) C) : (forall r, run_ok (f r)) -> run_ok (get ≫= f).
Proof.
  intros Hf. split; [apply extends_bind; [apply _|apply Hf]|]. intros ids Hb. apply keeps_get. intros r L Hok.
  apply keeps_here; [done|]. apply Hf. by etrans.
Qed.
Lemma run_if {A} (b : bool) (m1 m2 : M (Run X) A) : run_ok m1 -> run_ok m2 -> run_ok (if b then m1 else m2).
Proof. by destruct b. Qed.
Lemma run_when (b : bool) m : run_ok m -> run_ok (when b m).
Proof. intros. apply run_if; [done|apply run_ret]. Qed.

Lemma run_on {A} (m : M (Session X) A) : Extends m -> (forall ids, ids_le base ids -> keeps ids m (fun _ _ => True)) ->
  run_ok (on_run m).
Proof.
  intros Hx Hm. split.
  - intros r r' q. unfold on_run. destruct (m (RunSession r)) as [S a] eqn:E. intros [= <- <-]. exact (Hx _ _ _ E).
  - intros ids Hb r r' q L Hok. unfold on_run. destruct (m (RunSession r)) as [S a] eqn:E. intros [= <- <-] Hs.
    exact (Hm ids Hb _ _ _ L Hok E Hs).
Qed.
Lemma run_stage m : stage_ok base m -> run_ok (on_run m).
Proof. intros [? ?]. by apply run_on. Qed.
Lemma run_position f : run_ok (on_position f : M (Run X) unit).
Proof. split; [by intros r r' q [= <- <-]|]. intros ids _ r r' q _ Hok [= <- <-] _. done. Qed.
Lemma run_SaveStep s : run_ok (SaveStep s : M (Run X) unit).
Proof.
  apply run_then; [apply run_position|]. intros ?. split; [by intros r r' q [= <- <-]|].
  intros ids _ r r' q _ Hok [= <- <-] _. done.
Qed.
Lemma run_saved_step s m : stage_ok base m -> run_ok (saved_step s m).
Proof. intros Hm. apply run_then; [by apply run_stage|]. intros ?. apply run_SaveStep. Qed.

#[export] Instance extends_TotalNow : Extends (TotalNow : M (Session X) Z).
Proof. unfold TotalNow. solve_extends. Qed.
Lemma run_TotalNow : run_ok (on_run TotalNow).
Proof.
  apply run_on; [apply _|]. intros ids _. unfold TotalNow. apply keeps_get. intros S L Hok.
  apply keeps_here; [done|]. by apply keeps_ret.
Qed.

Lemma cleanup_ok Site : stage_ok base (SessionCleanup Site : M (Session X) unit).
Proof. split; [apply _|]. intros. apply keeps_SessionCleanup. Qed.
Lemma iteration_ok i : stage_ok base (SetIteration i : M (Session X) unit).
Proof. split; [apply _|]. intros. apply keeps_on_stages. Qed.

Lemma run_loop_head : run_ok loop_head.
Proof.
  apply run_then; [apply run_stage, cleanup_ok|]. intros ?. apply run_then; [apply run_TotalNow|]. intros T.
  apply run_then; [apply run_position|]. intros ?. apply run_then; [apply run_SaveStep|]. intros ?. apply run_ret.
Qed.

Lemma run_loop_stages i d : run_ok (loop_stages Tables CuNative i d).
Proof.
  unfold loop_stages.
  apply run_then; [apply run_when, run_saved_step, LoopStage_ok, (StageFindMatchesDiffing_ok (X:=X) N1 N2 base Tables)|]. intros ?.
  apply run_get. intros r.
  apply run_then; [apply run_when, run_when, run_saved_step, LoopStage_ok, (StageFindRelatedMatches_ok (X:=X) N1 N2 base Tables)|]. intros ?.
  apply run_then; [apply run_when, run_saved_step, LoopStage_ok, (StageFindRelatedCompilationUnit_ok (X:=X) N1 N2 base Tables)|]. intros ?.
  apply run_when, run_saved_step, LoopStage_ok, (StageFindLocallyAffineFunctions_ok (X:=X) N1 N2 base Tables).
Qed.

Lemma run_loop_round i d Old : run_ok (loop_round Tables CuNative i d Old).
Proof.
  unfold loop_round. apply run_then; [apply run_position|]. intros ?.
  apply run_then; [apply run_stage, iteration_ok|]. intros ?.
  apply run_then; [apply run_if; [apply run_loop_head|apply run_ret]|]. intros Old'.
  apply run_then; [apply run_loop_stages|]. intros ?.
  apply run_then; [apply run_when, run_saved_step, cleanup_ok|]. intros ?.
  apply run_then; [apply run_TotalNow|]. intros T. apply run_ret.
Qed.

Lemma run_convergence n i d Old : run_ok (convergence Tables CuNative n i d Old).
Proof.
  revert i d Old. induction n as [|n IH]; intros; cbn [convergence]; [apply run_ret|].
  apply run_then; [apply run_loop_round|]. intros []; [apply run_ret|]. apply run_get. intros r. apply IH.
Qed.

Lemma run_heuristic_passes done_ : run_ok (heuristic_passes Tables done_).
Proof.
  unfold heuristic_passes.
  apply run_then; [apply run_when, run_saved_step, (StageRunHeuristicsForCategory_ok (X:=X) N1 N2 base Tables)|]. intros ?.
  apply run_then; [apply run_when, run_saved_step, (StageRunHeuristicsForCategory_ok (X:=X) N1 N2 base Tables)|]. intros ?.
  apply run_when, run_saved_step, (StageFindPartialMatchesSmallDifferences_ok (X:=X) N1 N2 base Tables).
Qed.

Lemma run_last_passes done_ : run_ok (last_passes done_).
Proof.
  unfold last_passes. apply run_then; [apply run_stage, iteration_ok|]. intros ?. apply run_then; [apply run_position|].
  intros ?. apply run_then; [apply run_when, run_saved_step, pointed_ok, SessionFinalPass_ok|]. intros ?.
  apply run_then; [|intros ?; apply run_on; [apply _|intros; apply keeps_LogFinalResults]].
  apply run_when, run_saved_step. destruct SessionFindUnmatched_ok as [Hx Hm]. split; [solve_extends|].
  intros ids Hb. kbind; [by apply Hm|]. intros. apply keeps_Point.
Qed.

Lemma run_same_name b : run_ok (when b (saved_step SameNameStep (pointed (B "find_same_name") (StageFindSameName Tables)))).
Proof. apply run_when, run_saved_step, pointed_ok, (StageFindSameName_ok (X:=X) N1 N2 base Tables). Qed.

Lemma run_middle_passes n Resume done_ Skip : run_ok (middle_passes Tables CuNative n Resume done_ Skip).
Proof.
  unfold middle_passes. apply run_if.
  - apply run_then; [|intros ?; apply run_ret].
    apply run_when, run_saved_step, pointed_ok, (StageFindRemainingFunctions_ok (X:=X) N1 N2 base Tables).
  - apply run_then; [apply run_heuristic_passes|]. intros ?. apply run_if; [|apply run_ret]. apply run_get. intros r'.
    destruct Resume as [c|]; [apply run_if|]; apply run_convergence.
Qed.

Lemma run_finish done_ b : run_ok (finish done_ b : M (Run X) (option bool)).
Proof. destruct b; [apply run_then; [apply run_last_passes|intros ?]|]; apply run_ret. Qed.

Lemma run_main_passes n Resume done_ Skip : run_ok (main_passes Tables CuNative n Resume done_ Skip).
Proof.
  unfold main_passes. apply run_get. intros r. apply run_then; [apply run_same_name|]. intros ?.
  apply run_then; [apply run_middle_passes|]. intros ?. apply run_finish.
Qed.

Lemma run_first_passes Resume : run_ok (first_passes Problems Resume).
Proof.
  unfold first_passes. destruct Resume.
  - apply run_then; [|intros ?; apply run_ret]. apply run_on; [apply _|intros; apply keeps_RequireIngest].
  - apply run_then; [apply run_on; [apply _|intros; by apply keeps_preflight]|]. intros V.
    apply run_then; [apply run_when, run_SaveStep|]. intros ?. apply run_ret.
Qed.

Lemma run_dirty_passes done_ : run_ok (dirty_passes Tables done_).
Proof.
  unfold dirty_passes. apply run_if.
  - apply run_then; [apply run_on; [apply _|intros; by apply keeps_dirty_step]|]. intros Skip.
    apply run_then; [apply run_position|]. intros ?. apply run_then; [apply run_SaveStep|]. intros ?. apply run_ret.
  - apply run_then; [apply run_on; [apply _|intros; apply keeps_StagePrepare]|]. intros ?. apply run_get. intros r. apply run_ret.
Qed.

Lemma run_RunPipeline n Resume : run_ok (RunPipeline Tables Problems CuNative n Resume).
Proof.
  unfold RunPipeline. apply run_then; [apply run_position|]. intros ?. apply run_then; [apply run_first_passes|].
  intros V. apply run_if; [apply run_ret|]. apply run_then; [apply run_dirty_passes|]. intros Skip. apply run_main_passes.
Qed.

(** ** The loop ends *)

Lemma bind_inv {St A C} (m : M St A) (f : A -> M St C) s s' c : (m ≫= f) s = (s', Ok c) ->
  exists s1 a, m s = (s1, Ok a) /\ f a s1 = (s', Ok c).
Proof. unfold mbind, M_bind. destruct (m s) as [s1 [a|]]; [|done]. eauto. Qed.

Lemma SessionCleanup_run Site (S S' : Session X) : SessionCleanup Site S = (S', Ok tt) ->
  Cleanup (Ids S) (State S) = Ok (State S') /\ Ids S' = Ids S.
Proof.
  unfold SessionCleanup, Point, on_stages, modify, get, liftR, mbind, M_bind. cbn.
  destruct (list_sizes (State S)) as [[b p] u]. cbn. destruct (Cleanup (Ids S) (State S)) as [st|e]; [|done]. cbn.
  destruct (list_sizes st) as [[b' p'] u']. cbn. by intros [= <-].
Qed.

(** A text for every pair of names. *)
Definition pair_texts : list text :=
  t1 ← elements N1; t2 ← elements N2; [t1 ++ B "-" ++ t2].

Lemma pair_texts_length : length pair_texts = size N1 * size N2.
Proof.
  unfold pair_texts, size, set_size. cbn. induction (elements N1) as [|t l IH]; [done|]. cbn. rewrite length_app, IH.
  f_equal. clear. induction (elements N2); cbn; congruence.
Qed.

Lemma good_key ids It : good_item (X := X) ids It -> key_text ids It ∈ pair_texts.
Proof.
  intros [_ HG]. apply (good_names (X := X) (N1 := N1) (N2 := N2)) in HG as [(t1 & E1 & H1) (t2 & E2 & H2)].
  unfold key_text, pair_key. rewrite E1, E2. cbn. apply list_elem_of_bind. exists t1. split; [|by apply elem_of_elements].
  apply list_elem_of_bind. exists t2. split; [|by apply elem_of_elements]. by left.
Qed.

Definition pair_bound : Z := Z.of_nat (size N1 * size N2).

(** A cleaned state holds at most one match for each pair of names. *)
Lemma cleaned_total (S : Session X) st : session_ok S -> Cleanup (Ids S) (State S) = Ok st ->
  (Z.of_nat (TotalMatchedFunctions st) <= pair_bound)%Z.
Proof.
  intros [H1 H2 H3 H4] E. destruct (Cleanup_spec _ _ H2) as (st' & E' & Hc). rewrite E' in E. injection E as ->.
  assert (length (all_items (Lists st)) <= length pair_texts) as HL.
  { rewrite <- (length_fmap (key_text (Ids S))). apply submseteq_length, NoDup_submseteq; [apply Hc|].
    intros k (It & -> & HI)%list_elem_of_fmap. apply good_key. pose proof (good_sublist _ _ _ H2 Hc H3) as HG.
    revert It HI. apply Forall_forall. by apply Forall_all_items. }
  rewrite pair_texts_length in HL. unfold pair_bound, TotalMatchedFunctions. unfold all_items in HL.
  rewrite !length_app in HL. lia.
Qed.

Definition total (r : Run X) : Z := Z.of_nat (TotalMatchedFunctions (State (RunSession r))).
(** A cleanup would change nothing. *)
Definition settled (r : Run X) : Prop :=
  Cleanup (Ids (RunSession r)) (State (RunSession r)) = Ok (State (RunSession r)).

Lemma on_run_inv {A} (m : M (Session X) A) r r' a : on_run m r = (r', Ok a) -> m (RunSession r) = (RunSession r', Ok a).
Proof. unfold on_run. destruct (m _) as [S q]. by intros [= <- <-]. Qed.

Lemma loop_head_total r r' Old : loop_head r = (r', Ok Old) -> settled r -> Old = total r.
Proof.
  unfold loop_head. intros (r1 & [] & E1 & E)%bind_inv Hs. apply on_run_inv, SessionCleanup_run in E1 as [E1 _].
  unfold settled in Hs. rewrite Hs in E1. injection E1 as E1. revert E.
  unfold on_run, TotalNow, mbind, M_bind, get, mret, M_ret. cbn. intros [= _ <-]. unfold total. by rewrite E1.
Qed.

Lemma loop_round_ends i Old r r' Stop : session_ok (RunSession r) -> ids_le base (Ids (RunSession r)) ->
  loop_round Tables CuNative i NoStep Old r = (r', Ok Stop) -> small_ids (Ids (RunSession r')) ->
  (total r' <= pair_bound)%Z /\ settled r' /\ (settled r -> Stop = (total r' <=? total r)%Z).
Proof.
  intros Hok Hb E Hs. unfold loop_round in E.
  apply bind_inv in E as (r1 & [] & E1 & E). injection E1 as <-.
  apply bind_inv in E as (r2 & [] & E2 & E). injection E2 as <-.
  apply bind_inv in E as (r3 & Old' & E3 & E).
  apply bind_inv in E as (r4 & [] & E4 & E). apply bind_inv in E as (r5 & [] & E5 & E).
  apply bind_inv in E as (r6 & T & E6 & E). injection E6 as <- <-. injection E as <- <-.
  unfold when in E5. cbn [step_index Z.ltb Z.compare] in E5. apply bind_inv in E5 as (r7 & [] & E7 & E8).
  injection E8 as <-. set (r0 := MkRun _ _ _) in E3. change (loop_head r0 = (r3, Ok Old')) in E3. assert (session_ok (RunSession r0)) as Hok0.
  { by apply (session_ok_same (RunSession r)). }
  destruct (run_loop_head) as [X3 K3]. destruct (run_loop_stages i NoStep) as [X4 K4].
  pose proof (X3 _ _ _ E3) as M3. pose proof (X4 _ _ _ E4) as M4. cbn in M3, M4, Hs.
  apply on_run_inv, SessionCleanup_run in E7 as [E7 I7]. cbn in Hs |- *.
  assert (small_ids (Ids (RunSession r4))) as Hs4 by (by rewrite <- I7).
  pose proof (small_ids_le _ _ M4 Hs4) as Hs3.
  destruct (K3 _ Hb r0 r3 _ (reflexivity _) Hok0 E3 Hs3) as [Hok3 _].
  destruct (K4 _ Hb r3 r4 _ M3 Hok3 E4 Hs4) as [Hok4 _]. cbn in Hok4.
  split_and!.
  - unfold total. cbn. by eapply cleaned_total.
  - unfold settled. cbn. rewrite I7. by eapply Cleanup_idempotent; [apply Hok4|].
  - intros Hset. f_equal. by eapply (loop_head_total r0).
Qed.

(** From a settled state every round that goes on adds a match. *)
Lemma convergence_ends n i Old r r' : session_ok (RunSession r) -> ids_le base (Ids (RunSession r)) -> settled r ->
  (total r <= pair_bound)%Z -> (pair_bound - total r < Z.of_nat n)%Z ->
  convergence Tables CuNative n i NoStep Old r = (r', Ok false) -> small_ids (Ids (RunSession r')) -> False.
Proof.
  revert i Old r. induction n as [|n IH]; intros i Old r Hok Hb Hset Ht Hn E Hs; [lia|]. cbn [convergence] in E.
  apply bind_inv in E as (r1 & Stop & E1 & E). destruct Stop; [done|]. apply bind_inv in E as (r2 & rr & E2 & E).
  injection E2 as <- <-. destruct (run_loop_round i NoStep Old) as [X1 K1]. pose proof (X1 _ _ _ E1) as M1.
  destruct (run_convergence n (i + 1) NoStep (OldTotal (Position r1))) as [X2 _]. pose proof (X2 _ _ _ E) as M2.
  cbn in M1, M2. pose proof (small_ids_le _ _ M2 Hs) as Hs1.
  destruct (loop_round_ends _ _ _ _ _ Hok Hb E1 Hs1) as (Hb1 & Hset1 & Hstop). specialize (Hstop Hset).
  symmetry in Hstop. apply Z.leb_gt in Hstop. destruct (K1 _ Hb r r1 _ (reflexivity _) Hok E1 Hs1) as [Hok1 _].
  eapply (IH (i + 1)%Z _ r1); [exact Hok1|by etrans|exact Hset1|exact Hb1|lia|exact E|exact Hs].
Qed.

(** Enough rounds for every run: the first two may start from a state not yet
    cleaned. *)
Definition enough_rounds : nat := size N1 * size N2 + 3.

Lemma convergence_enough n i d Old r r' : enough_rounds <= n -> session_ok (RunSession r) ->
  ids_le base (Ids (RunSession r)) -> convergence Tables CuNative n i d Old r = (r', Ok false) ->
  small_ids (Ids (RunSession r')) -> False.
Proof.
  unfold enough_rounds. intros Hn Hok Hb E Hs. destruct n as [|[|n]]; [lia..|]. cbn [convergence] in E.
  apply bind_inv in E as (r1 & Stop & E1 & E). destruct Stop; [done|]. apply bind_inv in E as (r2 & rr & E2 & E).
  injection E2 as <- <-. destruct (run_loop_round i d Old) as [X1 K1]. pose proof (X1 _ _ _ E1) as M1.
  destruct (run_convergence (S n) (i + 1) NoStep (OldTotal (Position r1))) as [X2 _]. pose proof (X2 _ _ _ E) as M2.
  cbn in M1, M2. pose proof (small_ids_le _ _ M2 Hs) as Hs1.
  destruct (K1 _ Hb r r1 _ (reflexivity _) Hok E1 Hs1) as [Hok1 _].
  apply bind_inv in E as (r2 & Stop & E2 & E). destruct Stop; [done|]. apply bind_inv in E as (r3 & rr & E3 & E).
  injection E3 as <- <-. destruct (run_loop_round (i + 1) NoStep (OldTotal (Position r1))) as [X3 K3].
  pose proof (X3 _ _ _ E2) as M3.
  destruct (run_convergence n (i + 1 + 1) NoStep (OldTotal (Position r2))) as [X4 _]. pose proof (X4 _ _ _ E) as M4.
  cbn in M3, M4. pose proof (small_ids_le _ _ M4 Hs) as Hs2. assert (ids_le base (Ids (RunSession r1))) as Hb1 by (by etrans).
  destruct (loop_round_ends _ _ _ _ _ Hok1 Hb1 E2 Hs2) as (Hb2 & Hset2 & _).
  destruct (K3 _ Hb1 r1 r2 _ (reflexivity _) Hok1 E2 Hs2) as [Hok2 _].
  eapply (convergence_ends n); [exact Hok2| |exact Hset2|exact Hb2| |exact E|exact Hs]; [by etrans|].
  unfold pair_bound, total in *. lia.
Qed.

(** More rounds change nothing once the loop has ended by itself. *)
Lemma convergence_more n m i d Old r r' q : convergence Tables CuNative n i d Old r = (r', q) -> q <> Ok false ->
  n <= m -> convergence Tables CuNative m i d Old r = (r', q).
Proof.
  revert m i d Old r. induction n as [|n IH]; intros m i d Old r E Hq Hm.
  { cbn [convergence] in E. injection E as _ <-. done. }
  destruct m as [|m]; [lia|]. revert E. cbn [convergence]. unfold mbind, M_bind.
  destruct (loop_round Tables CuNative i d Old r) as [r1 [[]|e]]; [done| |done]. cbn. intros E. apply IH; [done|done|lia].
Qed.

(** A bound of the rounds that no run of [m] hits, whatever it starts from. *)
Definition ends (m : nat -> M (Run X) (option bool)) : Prop :=
  forall n r r' q, enough_rounds <= n -> session_ok (RunSession r) -> ids_le base (Ids (RunSession r)) ->
    m n r = (r', q) -> small_ids (Ids (RunSession r')) ->
    q <> Ok None /\ forall k, n <= k -> m k r = (r', q).

Lemma ends_const m : (forall r r', m r <> (r', Ok None)) -> ends (fun _ => m).
Proof. intros Hm n r r' q _ _ _ E _. split; [|done]. intros ->. by eapply Hm. Qed.

Lemma ends_bind {A} (m : M (Run X) A) (f : nat -> A -> M (Run X) (option bool)) : run_ok m ->
  (forall n a, run_ok (f n a)) -> (forall a, ends (fun n => f n a)) -> ends (fun n => m ≫= f n).
Proof.
  intros [Hx Hk] Hfx Hf n r r' q Hn Hok Hb. unfold mbind, M_bind. destruct (m r) as [r1 [a|e]] eqn:E.
  - intros E2 Hs. pose proof (Hx _ _ _ E) as L1. pose proof (proj1 (Hfx n a) _ _ _ E2) as L2. cbn in L1, L2.
    destruct (Hk _ Hb r r1 _ (reflexivity _) Hok E (small_ids_le _ _ L2 Hs)) as [Hok1 _].
    destruct (Hf a n r1 r' q Hn Hok1 ltac:(by etrans) E2 Hs) as [H1 H2]. done.
  - intros [= <- <-] _. done.
Qed.

Lemma ends_if (b : bool) m1 m2 : ends m1 -> ends m2 -> ends (fun n => if b then m1 n else m2 n).
Proof. by destruct b. Qed.

Lemma finish_true done_ (r r' : Run X) : finish done_ true r <> (r', Ok None).
Proof. cbn. unfold mbind, M_bind. by destruct (last_passes done_ r) as [r1 []]. Qed.

Lemma ends_convergence i d Old done_ : ends (fun n => convergence Tables CuNative n i d Old ≫= finish done_).
Proof.
  intros n r r' q Hn Hok Hb E Hs. revert E. unfold mbind, M_bind.
  destruct (convergence Tables CuNative n i d Old r) as [r1 [[]|e]] eqn:E1.
  - intros E. split; [intros ->; by eapply finish_true|]. intros k Hk. by rewrite (convergence_more n k _ _ _ _ r1 (Ok true)).
  - intros [= <- <-]. exfalso. by eapply convergence_enough.
  - intros [= <- <-]. split; [done|]. intros k Hk. by rewrite (convergence_more n k _ _ _ _ r1 (Throw e)).
Qed.

Lemma bind_assoc {St A C D} (m : M St A) (f : A -> M St C) (g : C -> M St D) s :
  ((m ≫= f) ≫= g) s = (m ≫= (fun a => f a ≫= g)) s.
Proof. unfold mbind, M_bind. by destruct (m s) as [s1 []]. Qed.

Lemma ends_ext m m' : (forall n r, m n r = m' n r) -> ends m' -> ends m.
Proof.
  intros E He n r r' q Hn Hok Hb. rewrite E. intros Em Hs. destruct (He n r r' q Hn Hok Hb Em Hs) as [H1 H2].
  split; [done|]. intros k Hk. rewrite E. by apply H2.
Qed.

Lemma ends_middle Resume done_ Skip : ends (fun n => middle_passes Tables CuNative n Resume done_ Skip ≫= finish done_).
Proof.
  unfold middle_passes. destruct Skip.
  - apply ends_const. intros r r'. unfold mbind, M_bind. destruct (when _ _ r) as [r1 []]; [|done]. apply finish_true.
  - eapply ends_ext; [intros n r; apply bind_assoc|]. apply ends_bind; [apply run_heuristic_passes| |].
    { intros n ?. apply run_then; [|apply run_finish]. apply run_if; [|apply run_ret]. apply run_get. intros r'.
      destruct Resume as [c|]; [apply run_if|]; apply run_convergence. }
    intros ?. destruct (done_ FinalPassStep); cbn [negb].
    { apply ends_const. intros r r'. apply finish_true. }
    eapply ends_ext; [intros n r; apply bind_assoc|]. intros n r r' q Hn Hok Hb. change ((get ≫= ?f) r) with (f r r).
    destruct Resume as [c|]; [destruct (IsLoopStep (Done c))|]; apply ends_convergence; done.
Qed.

(** The state read at the start is the same for every bound. *)
Lemma ends_get (f : nat -> Run X -> M (Run X) (option bool)) : (forall r, ends (fun n => f n r)) -> ends (fun n => get ≫= f n).
Proof. intros Hf n r r' q Hn Hok Hb. exact (Hf r n r r' q Hn Hok Hb). Qed.

Lemma ends_main Resume done_ Skip : ends (fun n => main_passes Tables CuNative n Resume done_ Skip).
Proof.
  unfold main_passes. apply ends_get. intros r. apply ends_bind; [apply run_same_name| |].
  - intros n ?. apply run_then; [apply run_middle_passes|]. intros ?. apply run_finish.
  - intros ?. apply ends_middle.
Qed.

Lemma ends_RunPipeline Resume : ends (fun n => RunPipeline Tables Problems CuNative n Resume).
Proof.
  unfold RunPipeline. apply ends_bind; [apply run_position| |].
  { intros n ?. apply run_then; [apply run_first_passes|]. intros V. apply run_if; [apply run_ret|].
    apply run_then; [apply run_dirty_passes|]. intros. apply run_main_passes. }
  intros ?. apply ends_bind; [apply run_first_passes| |].
  { intros n V. apply run_if; [apply run_ret|]. apply run_then; [apply run_dirty_passes|]. intros. apply run_main_passes. }
  intros V. apply ends_if; [by apply ends_const|].
  apply ends_bind; [apply run_dirty_passes|intros; apply run_main_passes|]. intros Skip. apply ends_main.
Qed.

(** However far a resumed run had come and whatever the connection answers,
    as long as the names in it are names of the exports,
    the pipeline keeps the session well formed on every way out: the tables of
    texts only grow, and as long as they do not run out of 32-bit ids every list,
    dictionary, stored ratio and engine state is well formed and every match is
    named after functions of the two exports. *)
Lemma pipeline_preserves_session rounds Resume r r' q :
  session_ok (RunSession r) -> ids_le base (Ids (RunSession r)) ->
  RunPipeline Tables Problems CuNative rounds Resume r = (r', q) ->
  ids_le (Ids (RunSession r)) (Ids (RunSession r')) /\
  (small_ids (Ids (RunSession r')) -> session_ok (RunSession r')).
Proof.
  intros Hok Hb E. destruct (run_RunPipeline rounds Resume) as [Hx Hm]. split; [exact (Hx _ _ _ E)|].
  intros Hs. by destruct (Hm _ Hb r r' q (reflexivity _) Hok E Hs).
Qed.

(** C6: The convergence loop always ends: with as many rounds as there are pairs
    of names of the two exports, and three more, no run stops for want of rounds,
    and every larger bound gives the same run. *)
Theorem pipeline_converges rounds Resume r r' q :
  enough_rounds <= rounds -> session_ok (RunSession r) -> ids_le base (Ids (RunSession r)) ->
  RunPipeline Tables Problems CuNative rounds Resume r = (r', q) -> small_ids (Ids (RunSession r')) ->
  q <> Ok None /\ forall more, rounds <= more -> RunPipeline Tables Problems CuNative more Resume r = (r', q).
Proof. intros. eapply (ends_RunPipeline Resume); eassumption. Qed.
End Pipeline.
