(* ===== verification/ResumeSpec.v ===== *)
(** * Checkpoints: which steps a resumed run skips, and where it goes on

    Every completed step of the pipeline offers a checkpoint: the cursor and the
    session. Here is what the steps do to both: what a program leaves alone, which
    passes are skipped at a checkpoint, and that the part of the pipeline left to do
    at a saved session is the part that was left when it was saved ([tail]). The
    stages of the loop leave the iteration of the session alone, so setting it again
    is no change. [BlindSpec] puts the whole run together. *)

From stdpp Require Import base numbers gmap sets list.
From Stdlib Require Import ZArith Lia.
From S2P Require Import Prelude Dbl Decimal Interner Utf8 TextDiff MatchState FinalPass Unmatched SessionData Consumer.
From S2P Require Import SideTables FunctionTable RatioEngine StageSql Sql EarlyStages TierStages LoopStages Preflight Pipeline PipelineSpec.

(** ** What a program leaves alone *)

Section Same.
Context {T V : Type} (view : T -> V).

(** On every way out the view is what it was. *)
Class Same {A : Type} (m : M T A) : Prop := same s s' r : m s = (s', r) -> view s' = view s.

#[export] Instance same_ret {A} (a : A) : Same (mret a).
Proof. by intros s s' r [= <- <-]. Qed.
#[export] Instance same_throw {A} e : Same (throw e : M T A).
Proof. by intros s s' r [= <- <-]. Qed.
#[export] Instance same_lift {A} (a : res A) : Same (liftR a).
Proof. by intros s s' r [= <- <-]. Qed.
#[export] Instance same_get : Same get.
Proof. by intros s s' r [= <- <-]. Qed.
#[export] Instance same_bind {A C} (m : M T A) (f : A -> M T C) : Same m -> (forall a, Same (f a)) -> Same (m ≫= f).
Proof.
  intros Hm Hf s s' r. unfold mbind, M_bind. destruct (m s) as [s1 [a|e]] eqn:E.
  - intros H. rewrite (Hf a _ _ _ H). by eapply Hm.
  - intros [= <- <-]. by eapply Hm.
Qed.
#[export] Instance same_for_each {A} (body : A -> M T unit) l : (forall a, Same (body a)) -> Same (for_each body l).
Proof. intros Hb. induction l; cbn; apply _. Qed.
#[export] Instance same_fold_each {A C} (body : A -> C -> M T C) l c : (forall a c, Same (body a c)) -> Same (fold_each body l c).
Proof. intros Hb. revert c. induction l; intros c; cbn; apply _. Qed.
Lemma same_modify f : (forall s, view (f s) = view s) -> Same (modify f).
Proof. intros Hf s s' r [= <- <-]. apply Hf. Qed.
End Same.

Ltac solve_same :=
  repeat match goal with
    | |- forall _, _ => intros ?
    | _ => first [apply _ | apply same_bind | apply same_for_each | apply same_fold_each | case_match]
    end.

Section Iterations.
Context {X : Type} `{!Engine X, !HookReset X, !EngineSetup X, !Sqlite} (Tables : sided FunctionTable).

Definition iteration_of (S : Session X) : option Z := Iteration (Stages S).
Abbreviation Still := (Same iteration_of).

#[export] Instance still_on_ids {A} (m : M Interners A) : Still (on_ids m).
Proof. intros S S' r. unfold on_ids. destruct (m _). by intros [= <- <-]. Qed.
#[export] Instance still_engine_call {A} (m : M X A) : Still (engine_call m).
Proof. intros S S' r. unfold engine_call. destruct (m _). by intros [= <- <-]. Qed.
#[export] Instance still_on_facts f : Still (on_facts f : M (Session X) unit).
Proof. by apply same_modify. Qed.
#[export] Instance still_Point t : Still (Point t : M (Session X) unit).
Proof. apply same_modify. intros S. by destruct (list_sizes (State S)) as [[??]?]. Qed.
#[export] Instance still_SessionCleanup Site : Still (SessionCleanup Site : M (Session X) unit).
Proof.
  unfold SessionCleanup, on_stages. solve_same; apply same_modify; [done..|]. intros S.
  by destruct (list_sizes (State S)) as [[??]?].
Qed.
#[export] Instance still_LogShowSummary : Still (LogShowSummary : M (Session X) unit).
Proof. unfold LogShowSummary. solve_same. Qed.
#[export] Instance still_SessionAddMatch N1 N2 R It C : Still (SessionAddMatch N1 N2 R It C : M (Session X) unit).
Proof. intros S S' r. unfold SessionAddMatch. destruct (AddMatch _ _ _ _ _ _ _) as [[??]|]; by intros [= <- <-]. Qed.
#[export] Instance still_TraceRow Row D R : Still (TraceRow Row D R : M (Session X) unit).
Proof. by apply same_modify. Qed.
#[export] Instance still_NameStartsWith n p s : Still (NameStartsWith n p s : M (Session X) bool).
Proof. by intros S S' r [= <- <-]. Qed.
#[export] Instance still_RequirePyIntM Ea s : Still (RequirePyIntM Ea s : M (Session X) unit).
Proof. by intros S S' r [= <- <-]. Qed.
#[export] Instance still_StrOfEa Ea : Still (StrOfEa Ea : M (Session X) AddrId).
Proof. unfold StrOfEa. case_bool_decide; [|apply _]. intros S S' r. destruct (Addr _ _). by intros [= <- <-]. Qed.
#[export] Instance still_IntOfNodes n s : Still (IntOfNodes n s : M (Session X) Z).
Proof. unfold IntOfNodes. destruct n; apply _. Qed.
#[export] Instance still_CheckMatchBody Row : Still (CheckMatchBody Row).
Proof. unfold CheckMatchBody. solve_same. Qed.
#[export] Instance still_CheckMatch Row : Still (CheckMatch Row).
Proof.
  intros S S' r. unfold CheckMatch. destruct (CheckMatchBody Row S) as [S1 q] eqn:E.
  pose proof (still_CheckMatchBody Row _ _ _ E). destruct q as [|[]]; by intros [= <- <-].
Qed.
#[export] Instance still_internal_row b p v u Row : Still (internal_row b p v u Row).
Proof. unfold internal_row. solve_same. Qed.

(** *** Drains *)

Section Drained.
Context {R : Type} `{!RowSource R}.
Abbreviation StillT := (Same (fun t : Session X * R => iteration_of t.1)).

#[export] Instance still_on_session {A} (m : M (Session X) A) : Still m -> StillT (on_session m).
Proof. intros Hm [S r] t' q. unfold on_session. destruct (m S) as [S' a] eqn:E. intros [= <- <-]. exact (Hm _ _ _ E). Qed.
#[export] Instance still_next_row : StillT next_row.
Proof. intros [S r] t' q. unfold next_row. destruct (Next r (Ids S)) as [[r' ids] a]. by intros [= <- <-]. Qed.
#[export] Instance still_internal_loop fuel MaxRows I body : (forall Row, Still (body Row)) -> StillT (internal_loop fuel MaxRows I body).
Proof. intros Hb. revert I. induction fuel; intros I; cbn [internal_loop]; solve_same. Qed.
#[export] Instance still_internal b p v : StillT (AddMatchesInternal b p v).
Proof.
  intros [S r] t' q. unfold AddMatchesInternal, AddMatchesInternalImpl, RoutingScope.
  destruct (on_session (push_frame _) (S, r)) as [s1 [u|e]] eqn:E1; injection E1 as <-; [|done..].
  lazymatch goal with |- (let '(s2, r0) := ?m in _) = _ -> _ => destruct m as [t2 a] eqn:E end.
  intros [= <- <-]. apply still_internal_loop in E; [|apply _]. exact E.
Qed.
#[export] Instance still_with_source {A} (r : R) (m : M (Session X * R) A) : StillT m -> Still (with_source r m).
Proof.
  intros Hm S S' q. unfold with_source. destruct (m (S, r)) as [[S1 r1] a] eqn:E. intros [= <- <-]. exact (Hm _ _ _ E).
Qed.
End Drained.

(** *** The stages of the loop *)

#[local] Instance still_source : RowSource SqlRowSource := SqlRowSource_source Tables.
#[local] Instance still_cu_source : RowSource CuReplaySource := CuReplaySource_source Tables.

#[export] Instance still_GetFunctionRow r w n : Still (GetFunctionRow Tables r w n : M (Session X) (option Z)).
Proof. unfold GetFunctionRow. solve_same. Qed.
#[export] Instance still_related_constant t : Still (related_constant Tables t : M (Session X) unit).
Proof. unfold related_constant. solve_same. Qed.
#[export] Instance still_FindRelatedConstants m d : Still (FindRelatedConstants Tables m d : M (Session X) unit).
Proof. unfold FindRelatedConstants. solve_same. Qed.
#[export] Instance still_related_loop l Dones : Still (related_loop Tables l Dones : M (Session X) _).
Proof. revert Dones. induction l; intros; cbn [related_loop]; solve_same. Qed.
#[export] Instance still_Related : Still (StageFindRelatedMatches Tables : M (Session X) unit).
Proof. unfold StageFindRelatedMatches. solve_same. Qed.
#[export] Instance still_drain_units b x1 x2 x3 x4 : Still (drain_units Tables b x1 x2 x3 x4 : M (Session X) unit).
Proof. unfold drain_units. solve_same. Qed.
#[export] Instance still_cu_loop b l : Still (cu_loop Tables b l : M (Session X) unit).
Proof. induction l; cbn [cu_loop]; solve_same. Qed.
#[export] Instance still_Cu b : Still (StageFindRelatedCompilationUnit Tables b : M (Session X) unit).
Proof. unfold StageFindRelatedCompilationUnit. solve_same. Qed.
#[export] Instance still_GapRows w a b : Still (GapRows Tables w a b : M (Session X) (list nat)).
Proof. unfold GapRows. solve_same. Qed.
#[export] Instance still_CallOnMatchHook a b R : Still (CallOnMatchHook Tables a b R : M (Session X) dbl).
Proof. unfold CallOnMatchHook. solve_same. Qed.
#[export] Instance still_gap_pair d a b s : Still (gap_pair Tables d a b s : M (Session X) GapScores).
Proof. unfold gap_pair. solve_same. Qed.
#[export] Instance still_FindBetween a b c d : Still (FindFunctionsBetween Tables a b c d : M (Session X) unit).
Proof. unfold FindFunctionsBetween. solve_same. Qed.
#[export] Instance still_gap_loop p l : Still (gap_loop Tables p l : M (Session X) unit).
Proof. revert p. induction l; intros; cbn [gap_loop]; apply _. Qed.
#[export] Instance still_Affine : Still (StageFindLocallyAffineFunctions Tables : M (Session X) unit).
Proof. unfold StageFindLocallyAffineFunctions. solve_same. Qed.
#[export] Instance still_callee_hook h m d a b R : Still (callee_hook Tables h m d a b R : M (Session X) unit).
Proof. unfold callee_hook. solve_same. Qed.
#[export] Instance still_compare_candidate a b h i m d n1 n2 : Still (compare_candidate Tables a b h i m d n1 n2 : M (Session X) unit).
Proof. unfold compare_candidate. solve_same. Qed.
#[export] Instance still_candidate_rows a b h i L0 L1 : Still (candidate_rows Tables a b h i L0 L1 : M (Session X) unit).
Proof. unfold candidate_rows. solve_same. Qed.
#[export] Instance still_ProcessCandidate a b h i : Still (ProcessCandidate Tables a b h i : M (Session X) unit).
Proof. unfold ProcessCandidate. solve_same. Qed.
#[export] Instance still_candidate_step h i p d : Still (candidate_step Tables h i p d : M (Session X) (gset text)).
Proof. unfold candidate_step. solve_same. Qed.
#[export] Instance still_OneMatch m d w h i Dn : Still (FindOneMatchDiffing Tables m d w h i Dn : M (Session X) (gset text)).
Proof. unfold FindOneMatchDiffing. solve_same. Qed.
#[export] Instance still_match_step h w i It Dn : Still (match_step Tables h w i It Dn : M (Session X) (gset text)).
Proof. unfold match_step. solve_same. Qed.
#[export] Instance still_walk h w i k Dn : Still (walk_category Tables h w i k Dn : M (Session X) (gset text)).
Proof. unfold walk_category. solve_same. Qed.
#[export] Instance still_diffing_rounds n h w i Dn : Still (diffing_rounds Tables n h w i Dn : M (Session X) unit).
Proof. revert i Dn. induction n; intros; cbn [diffing_rounds]; solve_same. Qed.
#[export] Instance still_DiffingInternal h w : Still (FindMatchesDiffingInternal Tables h w : M (Session X) unit).
Proof. apply still_diffing_rounds. Qed.
#[export] Instance still_Diffing : Still (StageFindMatchesDiffing Tables : M (Session X) unit).
Proof. unfold StageFindMatchesDiffing. solve_same. Qed.
#[export] Instance still_LoopStage Name i m : Still m -> Still (LoopStage Name i m : M (Session X) unit).
Proof. intros Hm. unfold LoopStage. solve_same. Qed.
#[export] Instance still_TotalNow : Still (TotalNow : M (Session X) Z).
Proof. unfold TotalNow. solve_same. Qed.

(** *** The last passes *)

#[export] Instance still_fill_choosers : Still (fill_choosers : M (Session X) unit).
Proof. intros S S' r. unfold fill_choosers. destruct (distribute _ _ _). by intros [= <- <-]. Qed.
#[export] Instance still_SessionFinalPass : Still (SessionFinalPass : M (Session X) unit).
Proof. unfold SessionFinalPass. solve_same. Qed.
#[export] Instance still_SessionFindUnmatched : Still (SessionFindUnmatched : M (Session X) unit).
Proof. intros S S' r. unfold SessionFindUnmatched. destruct (StageFindUnmatched _ _). by intros [= <- <-]. Qed.
#[export] Instance still_pointed Name m : Still m -> Still (pointed Name m : M (Session X) unit).
Proof. intros Hm. unfold pointed. solve_same. Qed.

Lemma set_again i (S : Session X) : iteration_of S = i -> SetIteration i S = (S, Ok tt).
Proof.
  intros <-. unfold SetIteration, on_stages, modify, with_stages, set_Iteration, iteration_of.
  by destruct S as [? ? ? ? ? ? [] ?].
Qed.
End Iterations.

(** ** Runs without the checkpoints they already hold *)

Section Outcomes.
Context {X : Type}.

Definition outcome {A : Type} (m : M (Run X) A) (S : Session X) (p : PipelineCursor) : Session X * PipelineCursor * res A :=
  let '(r, q) := m (MkRun S p []) in (RunSession r, Position r, q).
Definition saves {A : Type} (m : M (Run X) A) (S : Session X) (p : PipelineCursor) : list (PipelineCursor * Session X) :=
  Saved (m (MkRun S p [])).1.

(** What a program does does not depend on the checkpoints offered before. *)
Class Oblivious {A : Type} (m : M (Run X) A) : Prop :=
  oblivious S p sv : m (MkRun S p sv) =
    (let '(r, q) := m (MkRun S p []) in (MkRun (RunSession r) (Position r) (sv ++ Saved r), q)).

#[export] Instance oblivious_ret {A} (a : A) : Oblivious (mret a).
Proof. intros S p sv. cbn. by rewrite app_nil_r. Qed.
#[export] Instance oblivious_throw {A} e : Oblivious (throw e : M (Run X) A).
Proof. intros S p sv. cbn. by rewrite app_nil_r. Qed.
#[export] Instance oblivious_on_run {A} (m : M (Session X) A) : Oblivious (on_run m).
Proof. intros S p sv. unfold on_run. cbn. destruct (m S). cbn. by rewrite app_nil_r. Qed.
#[export] Instance oblivious_position f : Oblivious (on_position f).
Proof. intros S p sv. cbn. by rewrite app_nil_r. Qed.
#[export] Instance oblivious_SaveStep s : Oblivious (SaveStep s).
Proof. by intros S p sv. Qed.
#[export] Instance oblivious_bind {A C} (m : M (Run X) A) (f : A -> M (Run X) C) :
  Oblivious m -> (forall a, Oblivious (f a)) -> Oblivious (m ≫= f).
Proof.
  intros Hm Hf S p sv. unfold mbind, M_bind. rewrite Hm. destruct (m (MkRun S p [])) as [[S1 p1 n1] [a|e]]; [|done]. cbn.
  rewrite (Hf a S1 p1 (sv ++ n1)), (Hf a S1 p1 n1). destruct (f a _) as [[S2 p2 n2] q]. cbn. by rewrite app_assoc.
Qed.
Lemma oblivious_get {C} (f : Run X -> M (Run X) C) : (forall r, Oblivious (f r)) ->
  (forall S p sv, f (MkRun S p sv) = f (MkRun S p [])) -> Oblivious (get ≫= f).
Proof. intros Hf He S p sv. change ((get ≫= f) ?r) with (f r r). rewrite He. apply Hf. Qed.
#[export] Instance oblivious_when b m : Oblivious m -> Oblivious (when b m).
Proof. unfold when. destruct b; [done|]. intros. apply _. Qed.
#[export] Instance oblivious_saved_step s m : Oblivious (saved_step s m).
Proof. unfold saved_step. apply _. Qed.

Lemma outcome_then {A C} (m : M (Run X) A) (f : A -> M (Run X) C) S p : (forall a, Oblivious (f a)) ->
  outcome (m ≫= f) S p =
    match outcome m S p with
    | (S1, p1, Ok a) => outcome (f a) S1 p1
    | (S1, p1, Throw e) => (S1, p1, Throw e)
    end.
Proof.
  intros Hf. unfold outcome, mbind, M_bind. destruct (m _) as [[S1 p1 n1] [a|e]]; [|done]. cbn.
  rewrite (Hf a S1 p1 n1). by destruct (f a _) as [[S2 p2 n2] q].
Qed.

Lemma saves_bind {A C} (m : M (Run X) A) (f : A -> M (Run X) C) S p : (forall a, Oblivious (f a)) ->
  saves (m ≫= f) S p = saves m S p ++
    match outcome m S p with (S1, p1, Ok a) => saves (f a) S1 p1 | _ => [] end.
Proof.
  intros Hf. unfold saves, outcome, mbind, M_bind. destruct (m _) as [[S1 p1 n1] [a|e]]; cbn; [|by rewrite app_nil_r].
  rewrite (Hf a S1 p1 n1). by destruct (f a _) as [[S2 p2 n2] q].
Qed.

Lemma elem_saves_bind {A C} (m : M (Run X) A) (f : A -> M (Run X) C) S p x : (forall a, Oblivious (f a)) ->
  x ∈ saves (m ≫= f) S p ->
  x ∈ saves m S p \/ exists S1 p1 a, outcome m S p = (S1, p1, Ok a) /\ x ∈ saves (f a) S1 p1.
Proof.
  intros Hf. rewrite saves_bind by done. rewrite elem_of_app. intros [|H]; [by left|]. right.
  destruct (outcome m S p) as [[S1 p1] [a|e]]; [eauto|by apply elem_of_nil in H].
Qed.

Lemma outcome_on_run {A} (m : M (Session X) A) S p : outcome (on_run m) S p = (let '(S', q) := m S in (S', p, q)).
Proof. unfold outcome, on_run. cbn. by destruct (m S). Qed.
Lemma saves_on_run {A} (m : M (Session X) A) S p : saves (on_run m) S p = [].
Proof. unfold saves, on_run. cbn. by destruct (m S). Qed.

(** ** Programs made of saved steps *)

(** Positions that differ in the last completed step only. *)
Definition agree (p c : PipelineCursor) : Prop := c = set_Done (Done c) p.

Lemma agree_refl p : agree p p.
Proof. by destruct p. Qed.
Lemma agree_trans p c d : agree p c -> agree c d -> agree p d.
Proof. unfold agree. intros -> ->. done. Qed.
Lemma agree_Done s p : agree p (set_Done s p).
Proof. by destruct p. Qed.

Definition at_step (c : PipelineCursor) : Z := step_index (Done c).

(** A program for every point to resume from: [None] is the whole of it. Its steps
    lie above [lo] and up to [hi]. *)
Record stepped (lo hi : Z) (m : option PipelineCursor -> M (Run X) unit) : Prop := {
  st_oblivious R : Oblivious (m R);
  st_early c S p : (at_step c <= lo)%Z -> outcome (m (Some c)) S p = outcome (m None) S p;
  st_late c S p : (hi <= at_step c)%Z -> outcome (m (Some c)) S p = (S, p, Ok tt);
  st_position S p S1 p1 q : outcome (m None) S p = (S1, p1, q) -> agree p p1;
  st_saves S p c T : (c, T) ∈ saves (m None) S p ->
    (lo < at_step c <= hi)%Z /\ agree p c /\ outcome (m (Some c)) T c = outcome (m None) S p;
}.

(** The same, where the iteration of the session stays. *)
Record stepped_still (lo hi : Z) (m : option PipelineCursor -> M (Run X) unit) : Prop := {
  ss_stepped : stepped lo hi m;
  ss_outcome S p S1 p1 q : outcome (m None) S p = (S1, p1, q) -> iteration_of S1 = iteration_of S;
  ss_saves S p c T : (c, T) ∈ saves (m None) S p -> iteration_of T = iteration_of S;
}.

Lemma stepped_bind lo mid hi m f : (lo <= mid <= hi)%Z -> stepped lo mid m -> stepped mid hi f ->
  stepped lo hi (fun R => m R;; f R).
Proof.
  intros Hl [Om Em Lm Pm Sm] [Of Ef Lf Pf Sf]. split.
  - intros R. apply oblivious_bind; [apply Om|intros; apply Of].
  - intros c S p Hc. rewrite !outcome_then by (intros; apply Of). rewrite Em by lia.
    destruct (outcome (m None) S p) as [[S1 p1] [[]|e]]; [|done]. apply Ef. lia.
  - intros c S p Hc. rewrite outcome_then by (intros; apply Of). rewrite Lm by lia. by apply Lf.
  - intros S p S1 p1 q. rewrite outcome_then by (intros; apply Of).
    destruct (outcome (m None) S p) as [[S2 p2] [[]|e]] eqn:E.
    + intros E2. eapply agree_trans; [by eapply Pm|by eapply Pf].
    + intros [= <- <- <-]. by eapply Pm.
  - intros S p c T [H|(S1 & p1 & [] & E & H)]%elem_saves_bind; [| |intros; apply Of].
    + destruct (Sm _ _ _ _ H) as (H1 & H2 & H3). split; [lia|]. split; [done|].
      rewrite !outcome_then by (intros; apply Of). rewrite H3.
      destruct (outcome (m None) S p) as [[S1 p1] [[]|e]]; [|done]. apply Ef. lia.
    + destruct (Sf _ _ _ _ H) as (H1 & H2 & H3). split; [lia|]. split; [eapply agree_trans; [by eapply Pm|done]|].
      rewrite !outcome_then by (intros; apply Of). rewrite E, Lm by lia. exact H3.
Qed.

Lemma stepped_still_bind lo mid hi m f : (lo <= mid <= hi)%Z -> stepped_still lo mid m -> stepped_still mid hi f ->
  stepped_still lo hi (fun R => m R;; f R).
Proof.
  intros Hl [Sm Om Tm] [Sf Of Tf]. pose proof (st_oblivious _ _ _ Sf) as Hf. split; [by eapply stepped_bind| |].
  - intros S p S1 p1 q. rewrite outcome_then by (intros; apply Hf).
    destruct (outcome (m None) S p) as [[S2 p2] [[]|e]] eqn:E.
    + intros E2. by rewrite (Of _ _ _ _ _ E2), (Om _ _ _ _ _ E).
    + intros [= <- <- <-]. by eapply Om.
  - intros S p c T [H|(S1 & p1 & [] & E & H)]%elem_saves_bind; [| |intros; apply Hf].
    + by eapply Tm.
    + by rewrite (Tf _ _ _ _ H), (Om _ _ _ _ _ E).
Qed.

(** One step, run when its condition on the session holds and it is not done. *)
Definition one_step (s : PipelineStep) (cond : Session X -> bool) (m : M (Session X) unit) (R : option PipelineCursor)
    : M (Run X) unit :=
  r ← get; when (cond (RunSession r) && negb (step_done R s)) (saved_step s m).

Lemma one_step_outcome s cond m R S p : outcome (one_step s cond m R) S p =
  if cond S && negb (step_done R s) then
    match m S with (T, Ok _) => (T, set_Done s p, Ok tt) | (T, Throw e) => (T, p, Throw e) end
  else (S, p, Ok tt).
Proof.
  unfold outcome, one_step, mbind, M_bind, get. cbn. destruct (cond S && _); [|done]. cbn.
  unfold saved_step, mbind, M_bind, on_run. cbn. by destruct (m S) as [T [[]|e]].
Qed.
Lemma one_step_saves s cond m R S p : saves (one_step s cond m R) S p =
  if cond S && negb (step_done R s) then
    match m S with (T, Ok _) => [(set_Done s p, T)] | (T, Throw e) => [] end
  else [].
Proof.
  unfold saves, one_step, mbind, M_bind, get. cbn. destruct (cond S && _); [|done]. cbn.
  unfold saved_step, mbind, M_bind, on_run. cbn. by destruct (m S) as [T [[]|e]].
Qed.

Lemma step_done_early c s : (at_step c < step_index s)%Z -> step_done (Some c) s = false.
Proof. intros. by apply Z.leb_gt. Qed.
Lemma step_done_late c s : (step_index s <= at_step c)%Z -> step_done (Some c) s = true.
Proof. intros. by apply Z.leb_le. Qed.

Lemma one_step_stepped lo hi s cond m : (lo < step_index s <= hi)%Z -> stepped lo hi (one_step s cond m).
Proof.
  intros Hs. split.
  - intros R. apply oblivious_get; [intros; apply _|done].
  - intros c S p Hc. rewrite !one_step_outcome, step_done_early by lia. done.
  - intros c S p Hc. rewrite one_step_outcome, step_done_late by lia. by rewrite andb_false_r.
  - intros S p S1 p1 q. rewrite one_step_outcome. destruct (_ && _); [|intros [= <- <- <-]; apply agree_refl].
    destruct (m S) as [T []]; intros [= <- <- <-]; [apply agree_Done|apply agree_refl].
  - intros S p c T. rewrite one_step_saves, (one_step_outcome _ _ _ None).
    destruct (cond S && negb (step_done None s)); [|by intros ?%elem_of_nil].
    destruct (m S) as [T' [a|e]]; [|by intros ?%elem_of_nil]. intros [= -> ->]%list_elem_of_singleton.
    split; [exact Hs|]. split; [apply agree_Done|]. rewrite one_step_outcome, step_done_late by done. by rewrite andb_false_r.
Qed.

Lemma one_step_still lo hi s cond m : (lo < step_index s <= hi)%Z -> Same iteration_of m ->
  stepped_still lo hi (one_step s cond m).
Proof.
  intros Hs Hm. split; [by apply one_step_stepped| |].
  - intros S p S1 p1 q. rewrite one_step_outcome. destruct (_ && _); [|by intros [= <- <- <-]].
    destruct (m S) as [T []] eqn:E; intros [= <- <- <-]; by eapply Hm.
  - intros S p c T. rewrite one_step_saves. destruct (_ && _); [|by intros ?%elem_of_nil].
    destruct (m S) as [T' []] eqn:E; [|by intros ?%elem_of_nil]. intros [= -> ->]%list_elem_of_singleton. by eapply Hm.
Qed.

(** Programs that agree on every run. *)
Definition same_runs {A : Type} (m m' : M (Run X) A) : Prop := forall r, m r = m' r.

Lemma same_runs_outcome {A} (m m' : M (Run X) A) S p : same_runs m m' -> outcome m S p = outcome m' S p.
Proof. intros E. unfold outcome. by rewrite E. Qed.
Lemma same_runs_saves {A} (m m' : M (Run X) A) S p : same_runs m m' -> saves m S p = saves m' S p.
Proof. intros E. unfold saves. by rewrite E. Qed.

Lemma stepped_ext lo hi m m' : (forall R, same_runs (m R) (m' R)) -> stepped lo hi m' -> stepped lo hi m.
Proof.
  intros E [O1 E1 L1 P1 S1]. split.
  - intros R S p sv. rewrite !(E R). apply O1.
  - intros. rewrite !(same_runs_outcome _ _ _ _ (E _)). by apply E1.
  - intros. rewrite (same_runs_outcome _ _ _ _ (E _)). by apply L1.
  - intros S p S2 p2 q. rewrite (same_runs_outcome _ _ _ _ (E _)). apply P1.
  - intros S p c T. rewrite (same_runs_saves _ _ _ _ (E _)), !(same_runs_outcome _ _ _ _ (E _)). apply S1.
Qed.
Lemma stepped_still_ext lo hi m m' : (forall R, same_runs (m R) (m' R)) -> stepped_still lo hi m' -> stepped_still lo hi m.
Proof.
  intros E [S1 O1 T1]. split; [by eapply stepped_ext| |].
  - intros S p S2 p2 q. rewrite (same_runs_outcome _ _ _ _ (E _)). apply O1.
  - intros S p c T. rewrite (same_runs_saves _ _ _ _ (E _)). apply T1.
Qed.
End Outcomes.

(** ** The loop *)

Section Resume.
Context {X : Type} `{!Engine X, !HookReset X, !EngineSetup X} {Connection : Sqlite}.
Context (Tables : sided FunctionTable) (Problems : list text) (CuNative : bool).

Abbreviation Loop := (convergence Tables CuNative).

#[export] Instance oblivious_loop_head : Oblivious (loop_head : M (Run X) Z).
Proof. unfold loop_head. apply _. Qed.

Definition round_step (R : option PipelineCursor) : PipelineStep := default NoStep (Done <$> R).

Lemma pending_done R s : (0 < step_index s)%Z -> (step_index (round_step R) <? step_index s)%Z = negb (step_done R s).
Proof. intros Hs. destruct R as [c|]; cbn; [apply Z.ltb_antisym|by apply Z.ltb_lt]. Qed.

(** The stages of a round and the cleanup at its end. *)
Definition round_body (i : Z) (R : option PipelineCursor) : M (Run X) unit :=
  loop_stages Tables CuNative i (round_step R);;
  when (step_index (round_step R) <? step_index LoopCleanupBottom)%Z (saved_step LoopCleanupBottom (SessionCleanup L3671)).

Definition always (S : Session X) : bool := true.
Definition body_steps (i : Z) (R : option PipelineCursor) : M (Run X) unit :=
  one_step MatchesDiffing always (LoopStage (B "find_matches_diffing") i (StageFindMatchesDiffing Tables)) R;;
  one_step RelatedMatches (fun S => SlowHeuristics (Config S))
    (LoopStage (B "find_related_matches") i (StageFindRelatedMatches Tables)) R;;
  one_step RelatedCompilationUnit always
    (LoopStage (B "find_related_compilation_unit") i (StageFindRelatedCompilationUnit Tables CuNative)) R;;
  one_step LocallyAffine always
    (LoopStage (B "find_locally_affine_functions") i (StageFindLocallyAffineFunctions Tables)) R;;
  one_step LoopCleanupBottom always (SessionCleanup L3671) R.

Lemma body_same i R : same_runs (round_body i R) (body_steps i R).
Proof.
  intros r. unfold round_body, loop_stages, body_steps, one_step, always. rewrite !pending_done by done.
  unfold mbind, M_bind, get. cbn [andb].
  destruct (when _ (saved_step MatchesDiffing _) r) as [r1 [[]|e]]; [|done].
  destruct (SlowHeuristics _), (step_done R RelatedMatches); cbn [when negb andb mret M_ret];
    repeat match goal with |- context [match ?m ?r with (_, _) => _ end] =>
      lazymatch m with when _ _ => destruct (m r) as [? [[]|]] | saved_step _ _ => destruct (m r) as [? [[]|]] end end; done.
Qed.

Lemma body_still i : stepped_still 8 13 (round_body i).
Proof.
  apply (stepped_still_ext _ _ _ _ (body_same i)). unfold body_steps.
  apply (stepped_still_bind 8 9 13); [lia|apply one_step_still; [done|apply _]|].
  apply (stepped_still_bind 9 10 13); [lia|apply one_step_still; [done|apply _]|].
  apply (stepped_still_bind 10 11 13); [lia|apply one_step_still; [done|apply _]|].
  apply (stepped_still_bind 11 12 13); [lia|apply one_step_still; [done|apply _]|].
  apply one_step_still; [done|apply _].
Qed.
#[export] Instance oblivious_body i R : Oblivious (round_body i R).
Proof. apply (st_oblivious _ _ _ (ss_stepped _ _ _ (body_still i))). Qed.

Lemma oblivious_ext {A} (m m' : M (Run X) A) : same_runs m m' -> Oblivious m' -> Oblivious m.
Proof. intros E O S p sv. rewrite !E. apply O. Qed.

Lemma outcome_at {A} f (g : unit -> M (Run X) A) S p : outcome (on_position f ≫= g) S p = outcome (g tt) S (f p).
Proof. done. Qed.
Lemma outcome_run {A C} (m : M (Session X) A) (g : A -> M (Run X) C) S S' p a : m S = (S', Ok a) ->
  outcome (on_run m ≫= g) S p = outcome (g a) S' p.
Proof. intros E. unfold outcome, mbind, M_bind, on_run. cbn. by rewrite E. Qed.

(** One round after its head: whether the loop stops. *)
Definition round_tail (i : Z) (R : option PipelineCursor) (Old : Z) : M (Run X) bool :=
  round_body i R;; (Total ← on_run TotalNow; mret (Total <=? Old)%Z).

Lemma round_same i R Old : same_runs (loop_round Tables CuNative i (round_step R) Old)
  (on_position (set_IterationAt i);;
   on_run (SetIteration (Some i));;
   Old ← (if (step_index (round_step R) <? step_index LoopCleanupTop)%Z then loop_head else mret Old);
   round_tail i R Old).
Proof.
  intros r. unfold loop_round, round_tail, round_body, mbind, M_bind. destruct (on_position _ r) as [r1 [[]|e]]; [|done].
  destruct (on_run (SetIteration (Some i)) r1) as [r2 [[]|e]]; [|done].
  match goal with |- context [(if ?b then ?h else ?m) r2] => destruct ((if b then h else m) r2) as [r3 [Old'|e]]; [|done] end.
  destruct (loop_stages _ _ _ _ r3) as [r4 [[]|e]]; [|done]. by destruct (when _ _ r4) as [r5 [[]|e]].
Qed.

#[export] Instance oblivious_tail i R Old : Oblivious (round_tail i R Old).
Proof. unfold round_tail. apply _. Qed.
#[export] Instance oblivious_round i d Old : Oblivious (loop_round Tables CuNative i d Old).
Proof.
  refine (oblivious_ext _ _ (round_same i (Some (set_Done d StartCursor)) Old) _).
  apply oblivious_bind; [apply _|intros _]. apply oblivious_bind; [apply _|intros _].
  apply oblivious_bind; [destruct (_ <? _)%Z; apply _|apply _].
Qed.

Definition total_of (S : Session X) : Z := Z.of_nat (TotalMatchedFunctions (State S)).

Lemma head_outcome S p : outcome loop_head S p =
  match SessionCleanup L3655 S with
  | (S1, Ok _) => (S1, set_Done LoopCleanupTop (set_OldTotal (total_of S1) p), Ok (total_of S1))
  | (S1, Throw e) => (S1, p, Throw e)
  end.
Proof. unfold outcome, loop_head, mbind, M_bind, on_run. cbn. by destruct (SessionCleanup L3655 S) as [S1 [[]|e]]. Qed.
Lemma head_saves S p : saves loop_head S p =
  match SessionCleanup L3655 S with
  | (S1, Ok _) => [(set_Done LoopCleanupTop (set_OldTotal (total_of S1) p), S1)]
  | (S1, Throw e) => []
  end.
Proof. unfold saves, loop_head, mbind, M_bind, on_run. cbn. by destruct (SessionCleanup L3655 S) as [S1 [[]|e]]. Qed.

Definition at_iteration (i : Z) (S : Session X) : Session X := with_stages (set_Iteration (Some i) (Stages S)) S.

Lemma round_outcome i Old S p : outcome (loop_round Tables CuNative i NoStep Old) S p =
  outcome (loop_head ≫= round_tail i None) (at_iteration i S) (set_IterationAt i p).
Proof. exact (same_runs_outcome _ _ S p (round_same i None Old)). Qed.
Lemma round_saves i Old S p : saves (loop_round Tables CuNative i NoStep Old) S p =
  saves (loop_head ≫= round_tail i None) (at_iteration i S) (set_IterationAt i p).
Proof. exact (same_runs_saves _ _ S p (round_same i None Old)). Qed.

Lemma round_again i c T : (8 <= at_step c)%Z -> IterationAt c = i -> iteration_of T = Some i ->
  outcome (loop_round Tables CuNative i (Done c) (OldTotal c)) T c = outcome (round_tail i (Some c) (OldTotal c)) T c.
Proof.
  intros Hc Hi HT. etransitivity; [exact (same_runs_outcome _ _ T c (round_same i (Some c) (OldTotal c)))|]. change (round_step (Some c)) with (Done c).
  rewrite (proj2 (Z.ltb_ge (step_index (Done c)) (step_index LoopCleanupTop)) Hc). assert (set_IterationAt i c = c) as E by (by destruct c; cbn in *; subst).
  rewrite outcome_at, E. rewrite (outcome_run _ _ _ _ _ _ (set_again (Some i) T HT)). done.
Qed.

Lemma tail_early i c Old (S : Session X) p : (at_step c <= 8)%Z ->
  outcome (round_tail i (Some c) Old) S p = outcome (round_tail i None Old) S p.
Proof.
  intros Hc. unfold round_tail. rewrite !outcome_then by apply _.
  by rewrite (st_early _ _ _ (ss_stepped _ _ _ (body_still i))).
Qed.

Lemma tail_resume i Old S p c T : (c, T) ∈ saves (round_tail i None Old) S p ->
  (8 < at_step c <= 13)%Z /\ agree p c /\ iteration_of T = iteration_of S /\
  outcome (round_tail i (Some c) Old) T c = outcome (round_tail i None Old) S p.
Proof.
  unfold round_tail. intros H. apply elem_saves_bind in H as [H|(S1 & p1 & [] & E & H)]; [| |apply _].
  - destruct (st_saves _ _ _ (ss_stepped _ _ _ (body_still i)) _ _ _ _ H) as (H1 & H2 & H3).
    split; [done|]. split; [done|]. split; [by eapply (ss_saves _ _ _ (body_still i))|].
    rewrite !outcome_then by apply _. by rewrite H3.
  - exfalso. rewrite saves_bind, saves_on_run in H by apply _. destruct (outcome _ _ _) as [[??] []]; by apply elem_of_nil in H.
Qed.

Lemma round_resume i Old S p c T : (c, T) ∈ saves (loop_round Tables CuNative i NoStep Old) S p ->
  (8 <= at_step c <= 13)%Z /\ IterationAt c = i /\ SkipOthers c = SkipOthers p /\
  outcome (loop_round Tables CuNative i (Done c) (OldTotal c)) T c = outcome (loop_round Tables CuNative i NoStep Old) S p.
Proof.
  rewrite round_saves, round_outcome. intros H. rewrite outcome_then, head_outcome by apply _.
  assert (forall S1 r, SessionCleanup L3655 (at_iteration i S) = (S1, r) -> iteration_of S1 = Some i) as Hi.
  { intros S1 r E. by rewrite (still_SessionCleanup _ _ _ _ E). }
  apply elem_saves_bind in H as [H|(S1 & p1 & Old' & E & H)]; [| |apply _].
  - rewrite head_saves in H. destruct (SessionCleanup L3655 _) as [S1 [a|e]] eqn:E; [|by apply elem_of_nil in H].
    apply list_elem_of_singleton in H. injection H as -> ->. split; [done|]. split; [done|]. split; [done|].
    rewrite round_again by (first [done|by eapply Hi]). by apply tail_early.
  - rewrite head_outcome in E. destruct (SessionCleanup L3655 _) as [S2 [a|e]] eqn:E2; [|done]. injection E as -> <- <-.
    destruct (tail_resume _ _ _ _ _ _ H) as (H1 & H2 & H3 & H4). rewrite (Hi _ _ eq_refl) in H3.
    assert (OldTotal c = total_of S1 /\ IterationAt c = i /\ SkipOthers c = SkipOthers p) as (E3 & E4 & E5) by (by rewrite H2).
    split; [lia|]. split; [done|]. split; [done|]. rewrite round_again by (first [done|lia]). by rewrite E3.
Qed.

Lemma round_position i Old S p S1 p1 q : outcome (loop_round Tables CuNative i NoStep Old) S p = (S1, p1, q) ->
  SkipOthers p1 = SkipOthers p.
Proof.
  rewrite round_outcome, outcome_then, head_outcome by apply _. destruct (SessionCleanup L3655 _) as [S2 [a|e]]; [|by intros [= <- <- <-]].
  unfold round_tail. rewrite outcome_then by apply _. destruct (outcome (round_body i None) _ _) as [[S3 p3] r] eqn:E.
  apply (st_position _ _ _ (ss_stepped _ _ _ (body_still i))) in E. destruct r as [[]|e].
  - rewrite outcome_then, outcome_on_run by apply _. cbn. intros [= <- <- <-]. by rewrite E.
  - intros [= <- <- <-]. by rewrite E.
Qed.

(** The loop, from a checkpoint of one of its rounds. *)
#[export] Instance oblivious_convergence n i d Old : Oblivious (Loop n i d Old).
Proof.
  revert i d Old. induction n as [|n IH]; intros; cbn [convergence]; [apply _|]. apply oblivious_bind; [apply _|].
  intros []; [apply _|]. apply oblivious_get; [intros; apply IH|done].
Qed.

Lemma loop_next_oblivious n i b : Oblivious
  (if b : bool then mret true else r ← get; Loop n (i + 1) NoStep (OldTotal (Position r))).
Proof. destruct b; [apply _|]. apply oblivious_get; [intros; apply _|done]. Qed.

Lemma loop_more n m i d Old (S : Session X) p S1 p1 q : outcome (Loop n i d Old) S p = (S1, p1, q) -> q <> Ok false ->
  n <= m -> outcome (Loop m i d Old) S p = (S1, p1, q).
Proof.
  unfold outcome. destruct (Loop n i d Old _) as [[S2 p2 sv] r] eqn:E. intros [= <- <- <-] Hq Hm.
  by rewrite (convergence_more _ _ n m _ _ _ _ _ _ E Hq Hm).
Qed.

Lemma loop_resume n i Old S p S1 p1 q c T : outcome (Loop n i NoStep Old) S p = (S1, p1, q) -> q <> Ok false ->
  (c, T) ∈ saves (Loop n i NoStep Old) S p ->
  (8 <= at_step c <= 13)%Z /\ SkipOthers c = SkipOthers p /\
  outcome (Loop n (IterationAt c) (Done c) (OldTotal c)) T c = (S1, p1, q).
Proof.
  revert i Old S p. induction n as [|n IH]; intros i Old S p; [by intros _ _ ?%elem_of_nil|]. cbn [convergence].
  intros E Hq H. apply elem_saves_bind in H as [H|(S2 & p2 & b & E2 & H)]; [| |intros; apply loop_next_oblivious].
  - destruct (round_resume _ _ _ _ _ _ H) as (H1 & <- & H3 & H4). split; [done|]. split; [done|].
    rewrite outcome_then by (intros; apply loop_next_oblivious). rewrite H4.
    by rewrite outcome_then in E by (intros; apply loop_next_oblivious).
  - rewrite outcome_then, E2 in E by (intros; apply loop_next_oblivious). destruct b; [by apply elem_of_nil in H|].
    change (outcome (Loop n (i + 1) NoStep (OldTotal p2)) S2 p2 = (S1, p1, q)) in E.
    change ((c, T) ∈ saves (Loop n (i + 1) NoStep (OldTotal p2)) S2 p2) in H.
    destruct (IH _ _ _ _ E Hq H) as (H1 & H2 & H3). split; [done|].
    split; [by rewrite H2, (round_position _ _ _ _ _ _ _ E2)|].
    apply (loop_more n (Datatypes.S n)); [exact H3|done|lia].
Qed.

Lemma loop_position n i Old S p S1 p1 q : outcome (Loop n i NoStep Old) S p = (S1, p1, q) -> SkipOthers p1 = SkipOthers p.
Proof.
  revert i Old S p. induction n as [|n IH]; intros i Old S p; [by intros [= <- <- <-]|]. cbn [convergence].
  rewrite outcome_then by (intros; apply loop_next_oblivious).
  destruct (outcome (loop_round _ _ _ _ _) S p) as [[S2 p2] [b|e]] eqn:E.
  - apply round_position in E. destruct b; [by intros [= <- <- <-]|]. intros H. rewrite <- E.
    change (outcome (Loop n (i + 1) NoStep (OldTotal p2)) S2 p2 = (S1, p1, q)) in H. exact (IH _ _ _ _ H).
  - intros [= <- <- <-]. by eapply round_position.
Qed.

(** ** The end of a run *)

(** What a run still has to do from step [lo] on: any checkpoint of it resumes it,
    as long as the rounds do not run out. *)
Record tail (lo : Z) (m : option PipelineCursor -> M (Run X) (option bool)) : Prop := {
  tl_oblivious R : Oblivious (m R);
  tl_early c S p : (at_step c <= lo)%Z -> outcome (m (Some c)) S p = outcome (m None) S p;
  tl_saves S p S1 p1 q c T : outcome (m None) S p = (S1, p1, q) -> q <> Ok None -> (c, T) ∈ saves (m None) S p ->
    (lo < at_step c)%Z /\ SkipOthers c = SkipOthers p /\ outcome (m (Some c)) T c = (S1, p1, q);
}.

Lemma tail_le lo lo' m : (lo' <= lo)%Z -> tail lo m -> tail lo' m.
Proof.
  intros Hl [O1 E1 T1]. split; [done| |].
  - intros c S p Hc. apply E1. lia.
  - intros S p S1 p1 q c T E Hq H. destruct (T1 _ _ _ _ _ _ _ E Hq H) as (H1 & H2 & H3). split; [lia|done].
Qed.

Lemma tail_ext lo m m' : (forall R, same_runs (m R) (m' R)) -> tail lo m' -> tail lo m.
Proof.
  intros E [O1 E1 T1]. split.
  - intros R. by eapply oblivious_ext.
  - intros. rewrite !(same_runs_outcome _ _ _ _ (E _)). by apply E1.
  - intros S p S1 p1 q c T. rewrite (same_runs_saves _ _ _ _ (E _)), !(same_runs_outcome _ _ _ _ (E _)). apply T1.
Qed.

Lemma stepped_tail lo mid m f : (lo <= mid)%Z -> stepped lo mid m -> tail mid f -> tail lo (fun R => m R;; f R).
Proof.
  intros Hl [Om Em Lm Pm Sm] [Of Ef Tf]. split.
  - intros R. apply oblivious_bind; [apply Om|intros; apply Of].
  - intros c S p Hc. rewrite !outcome_then by (intros; apply Of). rewrite Em by lia.
    destruct (outcome (m None) S p) as [[S1 p1] [[]|e]]; [|done]. apply Ef. lia.
  - intros S p S1 p1 q c T. rewrite !outcome_then by (intros; apply Of). intros E Hq H.
    apply elem_saves_bind in H as [H|(S2 & p2 & [] & E2 & H)]; [| |intros; apply Of].
    + destruct (Sm _ _ _ _ H) as (H1 & H2 & H3). split; [lia|]. split; [by rewrite H2|]. rewrite H3.
      destruct (outcome (m None) S p) as [[S2 p2] [[]|e]]; [|done]. rewrite Ef by lia. done.
    + rewrite E2 in E. destruct (Tf _ _ _ _ _ _ _ E Hq H) as (H1 & H2 & H3). split; [lia|].
      split; [by rewrite H2, (Pm _ _ _ _ _ E2)|]. by rewrite Lm by lia.
Qed.

(** The last passes. *)
Definition last_steps (R : option PipelineCursor) : M (Run X) unit :=
  one_step FinalPassStep always (pointed (B "final_pass") SessionFinalPass) R;;
  one_step FindUnmatchedStep always (SessionFindUnmatched;; Point (B "after:find_unmatched")) R.

Lemma last_still : stepped_still 13 15 last_steps.
Proof.
  apply (stepped_still_bind 13 14 15); [lia|apply one_step_still; [done|apply _]|].
  apply one_step_still; [done|]. apply same_bind; [apply _|]. intros []. apply _.
Qed.

Definition last_part (R : option PipelineCursor) : M (Run X) (option bool) :=
  last_steps R;; (on_run LogFinalResults;; mret (Some true)).

#[export] Instance oblivious_last R : Oblivious (last_part R).
Proof. apply oblivious_bind; [apply (st_oblivious _ _ _ (ss_stepped _ _ _ last_still))|apply _]. Qed.

Lemma finish_same R : same_runs (finish (step_done R) true)
  (on_run (SetIteration None);; on_position (set_IterationAt 0);; last_part R).
Proof.
  intros r. unfold finish, last_passes, last_part, last_steps, one_step, always, mbind, M_bind, get. cbn [andb].
  destruct (on_run (SetIteration None) r) as [r1 [[]|e]]; [|done].
  destruct (on_position _ r1) as [r2 [[]|e]]; [|done]. destruct (when _ _ r2) as [r3 [[]|e]]; [|done].
  destruct (when _ _ r3) as [r4 [[]|e]]; [|done]. by destruct (on_run LogFinalResults r4) as [r5 [[]|e]].
Qed.

Definition no_iteration (S : Session X) : Session X := with_stages (set_Iteration None (Stages S)) S.
Lemma finish_outcome R S p : outcome (finish (step_done R) true) S p = outcome (last_part R) (no_iteration S) (set_IterationAt 0 p).
Proof. exact (same_runs_outcome _ _ S p (finish_same R)). Qed.
Lemma finish_saves R S p : saves (finish (step_done R) true) S p = saves (last_part R) (no_iteration S) (set_IterationAt 0 p).
Proof. exact (same_runs_saves _ _ S p (finish_same R)). Qed.

Lemma finish_tail : tail 13 (fun R => finish (step_done R) true).
Proof.
  pose proof last_still as [[O1 E1 L1 P1 S1] OI SI]. split.
  - intros R. eapply oblivious_ext; [apply finish_same|apply _].
  - intros c S p Hc. rewrite !finish_outcome. unfold last_part. rewrite !outcome_then by apply _. by rewrite E1 by lia.
  - intros S p S2 p2 q c T. rewrite finish_saves, !finish_outcome. intros E Hq H.
    unfold last_part in E, H. rewrite outcome_then in E by apply _.
    apply elem_saves_bind in H as [H|(S3 & p3 & [] & E3 & H)]; [| |apply _].
    + pose proof (SI _ _ _ _ H) as HI. destruct (S1 _ _ _ _ H) as (H1 & H2 & H3). split; [lia|]. split; [by rewrite H2|].
      assert (set_IterationAt 0 c = c) as -> by (by rewrite H2). assert (no_iteration T = T) as ->.
      { pose proof (set_again None T HI) as E0. unfold SetIteration, on_stages, modify in E0. by injection E0. }
      unfold last_part. rewrite outcome_then by apply _. by rewrite H3.
    + exfalso. rewrite saves_bind, saves_on_run in H by apply _. destruct (outcome (on_run _) _ _) as [[??] []]; by apply elem_of_nil in H.
Qed.

(** The loop and what follows. *)
Definition loop_part (n : nat) (R : option PipelineCursor) : M (Run X) bool :=
  if negb (step_done R FinalPassStep) then
    r ← get;
    match R with
    | Some c => if IsLoopStep (Done c) then Loop n (IterationAt c) (Done c) (OldTotal (Position r))
                else Loop n 0 NoStep (OldTotal (Position r))
    | None => Loop n 0 NoStep (OldTotal (Position r))
    end
  else mret true.

#[export] Instance oblivious_loop_part n R : Oblivious (loop_part n R).
Proof.
  unfold loop_part. destruct (negb _); [|apply _]. apply oblivious_get; [|done].
  intros r. destruct R as [c|]; [destruct (IsLoopStep _)|]; apply _.
Qed.
#[export] Instance oblivious_finish R b : Oblivious (finish (step_done R) b : M (Run X) (option bool)).
Proof. destruct b; [apply finish_tail|apply _]. Qed.

Lemma loop_part_early n c S p : (at_step c <= 7)%Z -> outcome (loop_part n (Some c)) S p = outcome (loop_part n None) S p.
Proof.
  intros Hc. unfold loop_part. rewrite step_done_early by (cbn; lia). cbn [negb step_done].
  assert (IsLoopStep (Done c) = false) as Hl; [|unfold outcome, mbind, M_bind, get; cbn; by rewrite Hl].
  unfold IsLoopStep. apply andb_false_intro1, Z.leb_gt. unfold at_step in Hc. cbn. lia.
Qed.

Lemma loop_part_late n c S p : (14 <= at_step c)%Z -> outcome (loop_part n (Some c)) S p = (S, p, Ok true).
Proof. intros Hc. unfold loop_part. by rewrite step_done_late by (cbn; lia). Qed.

Lemma loop_part_in n c T : (8 <= at_step c <= 13)%Z ->
  outcome (loop_part n (Some c)) T c = outcome (Loop n (IterationAt c) (Done c) (OldTotal c)) T c.
Proof.
  intros Hc. unfold loop_part. rewrite step_done_early by (cbn; lia). cbn [negb].
  assert (IsLoopStep (Done c) = true) as Hl; [|unfold outcome, mbind, M_bind, get; cbn; by rewrite Hl].
  unfold IsLoopStep. unfold at_step in Hc. apply andb_true_intro. split; apply Z.leb_le; cbn; lia.
Qed.

Lemma loop_tail n : tail 7 (fun R => loop_part n R ≫= finish (step_done R)).
Proof.
  split.
  - intros R. apply _.
  - intros c S p Hc. rewrite !outcome_then by apply _. rewrite loop_part_early by done.
    destruct (outcome (loop_part n None) S p) as [[S1 p1] [[]|e]]; [|done|done]. apply (tl_early _ _ finish_tail). lia.
  - intros S p S2 p2 q c T. rewrite outcome_then by apply _. intros E Hq H.
    change (outcome (loop_part n None) S p) with (outcome (Loop n 0 NoStep (OldTotal p)) S p) in E.
    apply elem_saves_bind in H as [H|(S3 & p3 & b & E3 & H)]; [| |apply _].
    + change (saves (loop_part n None) S p) with (saves (Loop n 0 NoStep (OldTotal p)) S p) in H.
      destruct (outcome (Loop _ _ _ _) S p) as [[S3 p3] r] eqn:E3.
      assert (r <> Ok false) as Hr by (intros ->; injection E as <- <- <-; done).
      destruct (loop_resume _ _ _ _ _ _ _ _ _ _ E3 Hr H) as (H1 & H2 & H3). split; [lia|]. split; [done|].
      rewrite outcome_then, loop_part_in, H3 by first [apply _|done]. destruct r as [[]|e]; [|done|done].
      rewrite (tl_early _ _ finish_tail) by lia. done.
    + change (outcome (loop_part n None) S p) with (outcome (Loop n 0 NoStep (OldTotal p)) S p) in E3. rewrite E3 in E.
      destruct b; [|by apply elem_of_nil in H].
      destruct (tl_saves _ _ finish_tail _ _ _ _ _ _ _ E Hq H) as (H1 & H2 & H3). split; [lia|].
      split; [by rewrite H2, (loop_position _ _ _ _ _ _ _ _ E3)|]. rewrite outcome_then, loop_part_late by first [apply _|lia]. done.
Qed.

(** The heuristics and the loop, or the remaining functions. *)
Lemma heuristics_stepped : stepped 4 7 (fun R => heuristic_passes Tables (step_done R)).
Proof.
  apply (stepped_ext 4 7 _ (fun R =>
    one_step BestCategory always (StageRunHeuristicsForCategory Tables CatBest) R;;
    one_step PartialCategory always (StageFindPartialMatchesCategory Tables) R;;
    one_step SmallDifferences always (StageFindPartialMatchesSmallDifferences Tables) R)); [done|].
  apply (stepped_bind 4 5 7); [lia|by apply one_step_stepped|]. apply (stepped_bind 5 6 7); [lia|by apply one_step_stepped|].
  by apply one_step_stepped.
Qed.

Lemma middle_tail n Skip : tail 3 (fun R => middle_passes Tables CuNative n R (step_done R) Skip ≫= finish (step_done R)).
Proof.
  destruct Skip.
  - apply (tail_ext 3 _ (fun R =>
      one_step RemainingFunctions always (pointed (B "find_remaining_functions") (StageFindRemainingFunctions Tables)) R;;
      finish (step_done R) true)).
    { intros R r. unfold middle_passes, one_step, always, mbind, M_bind, get. cbn [andb]. by destruct (when _ _ r) as [r1 [[]|e]]. }
    apply (stepped_tail 3 4); [lia|by apply one_step_stepped|]. apply (tail_le 13); [lia|]. apply finish_tail.
  - apply (tail_ext 3 _ (fun R => heuristic_passes Tables (step_done R);; (loop_part n R ≫= finish (step_done R)))).
    { intros R r. unfold middle_passes, mbind, M_bind. by destruct (heuristic_passes _ _ r) as [r1 [[]|e]]. }
    apply (tail_le 4); [lia|]. apply (stepped_tail 4 7); [lia|apply heuristics_stepped|apply loop_tail].
Qed.

Lemma main_tail n Skip : tail 2 (fun R => main_passes Tables CuNative n R (step_done R) Skip).
Proof.
  apply (tail_ext 2 _ (fun R =>
    one_step SameNameStep (fun S => negb (IgnoreAllNames (Config S))) (pointed (B "find_same_name") (StageFindSameName Tables)) R;;
    (middle_passes Tables CuNative n R (step_done R) Skip ≫= finish (step_done R)))); [done|].
  apply (stepped_tail 2 3); [lia|by apply one_step_stepped|apply middle_tail].
Qed.

(** ** The whole run *)

Abbreviation FullRun := (RunPipeline Tables Problems CuNative).

Lemma preflight_ingest (S S1 : Session X) : preflight Problems S = (S1, Ok true) -> join_problems Problems = [].
Proof.
  unfold preflight, RequireIngest. case_bool_decide as HP; [done|]. intros E. exfalso.
  apply bind_inv in E as (S2 & [] & _ & E). apply bind_inv in E as (S3 & [] & _ & E).
  apply bind_inv in E as (S4 & V & _ & E). destruct V; [|done]. by apply bind_inv in E as (S5 & [] & E5 & _).
Qed.

Lemma ingest_again (S : Session X) : join_problems Problems = [] -> RequireIngest Problems S = (S, Ok tt).
Proof. unfold RequireIngest. by intros ->. Qed.

(** The passes after the first ones. *)
Definition rest (n : nat) (R : option PipelineCursor) : M (Run X) (option bool) :=
  Skip ← dirty_passes Tables (step_done R); main_passes Tables CuNative n R (step_done R) Skip.

#[export] Instance oblivious_dirty d : Oblivious (dirty_passes Tables d : M (Run X) bool).
Proof.
  unfold dirty_passes. destruct (negb _); [apply _|]. apply oblivious_bind; [apply _|]. intros [].
  apply oblivious_get; [intros; apply _|done].
Qed.
#[export] Instance oblivious_main n R Skip : Oblivious (main_passes Tables CuNative n R (step_done R) Skip).
Proof. apply (tl_oblivious _ _ (main_tail n Skip)). Qed.
#[export] Instance oblivious_rest n R : Oblivious (rest n R).
Proof. unfold rest. apply _. Qed.

Definition valid_part (n : nat) (R : option PipelineCursor) (Valid : bool) : M (Run X) (option bool) :=
  if negb Valid then mret (Some false) else rest n R.
#[export] Instance oblivious_valid n R V : Oblivious (valid_part n R V).
Proof. destruct V; apply _. Qed.

Lemma first_outcome (S : Session X) p : outcome (first_passes Problems None) S p =
  match preflight Problems S with
  | (S1, Ok V) => (S1, if V then set_Done EqualMatches p else p, Ok V)
  | (S1, Throw e) => (S1, p, Throw e)
  end.
Proof. unfold outcome, first_passes, mbind, M_bind, on_run. cbn. by destruct (preflight _ S) as [S1 [[]|e]]. Qed.
Lemma first_saves (S : Session X) p : saves (first_passes Problems None) S p =
  match preflight Problems S with
  | (S1, Ok true) => [(set_Done EqualMatches p, S1)]
  | _ => []
  end.
Proof. unfold saves, first_passes, mbind, M_bind, on_run. cbn. by destruct (preflight _ S) as [S1 [[]|e]]. Qed.

Lemma full_outcome n S p : outcome (FullRun n None) S p = outcome (first_passes Problems None ≫= valid_part n None) S StartCursor.
Proof. done. Qed.
Lemma full_saves n S p : saves (FullRun n None) S p = saves (first_passes Problems None ≫= valid_part n None) S StartCursor.
Proof. done. Qed.

Lemma again_outcome n c T p : join_problems Problems = [] -> outcome (FullRun n (Some c)) T p = outcome (rest n (Some c)) T c.
Proof.
  intros HP. change (outcome (FullRun n (Some c)) T p) with
    (outcome (first_passes Problems (Some c) ≫= valid_part n (Some c)) T c).
  rewrite outcome_then by apply _. unfold first_passes. by rewrite (outcome_run _ _ _ _ _ _ (ingest_again T HP)).
Qed.

(** The dirty heuristics. *)
Lemma dirty_outcome d S p : d DirtyHeuristics = false -> outcome (dirty_passes Tables d) S p =
  match dirty_step Tables S with
  | (S1, Ok Skip) => (S1, set_Done DirtyHeuristics (set_SkipOthers Skip p), Ok Skip)
  | (S1, Throw e) => (S1, p, Throw e)
  end.
Proof. intros Hd. unfold outcome, dirty_passes, mbind, M_bind, on_run. rewrite Hd. cbn. by destruct (dirty_step _ S) as [S1 []]. Qed.
Lemma dirty_saves d S p : d DirtyHeuristics = false -> saves (dirty_passes Tables d) S p =
  match dirty_step Tables S with
  | (S1, Ok Skip) => [(set_Done DirtyHeuristics (set_SkipOthers Skip p), S1)]
  | _ => []
  end.
Proof. intros Hd. unfold saves, dirty_passes, mbind, M_bind, on_run. rewrite Hd. cbn. by destruct (dirty_step _ S) as [S1 []]. Qed.
End Resume.
