(* ===== verification/PreflightSpec.v ===== *)
(** * The numbers of the call graph check

    The integers of [Preflight] as strings of decimal digits are the integers: sum,
    difference, product with a small factor and comparison. A normalised decimal is
    determined by its value, so that [Decimal.__eq__] compares values. *)

From Stdlib Require Import ZArith Lia.
From stdpp Require Import base option numbers list.
From S2P Require Import Prelude Dbl Decimal SessionData Consumer SideTables StageSql Sql Preflight.
Local Open Scope Z_scope.

(** ** Digits, least significant first *)

Fixpoint rev_value (l : text) : Z :=
  match l with [] => 0 | c :: l' => digit_value c + 10 * rev_value l' end.

Lemma rev_value_reverse (l : text) : rev_value (reverse l) = dec_value l.
Proof.
  unfold dec_value. induction l as [|c l IH] using rev_ind; [done|].
  rewrite reverse_app, foldl_app. cbn. rewrite IH. lia.
Qed.
Lemma dec_value_reverse (l : text) : dec_value (reverse l) = rev_value l.
Proof. by rewrite <- rev_value_reverse, reverse_involutive. Qed.

Lemma rev_value_bounds (l : text) : all_digits l -> 0 <= rev_value l < 10 ^ Z.of_nat (length l).
Proof.
  induction 1 as [|c l Hc Hl IH]; [done|]. cbn [rev_value length]. apply digit_value_range in Hc.
  rewrite Nat2Z.inj_succ, Z.pow_succ_r by lia. lia.
Qed.

Lemma digits_reverse (l : text) : all_digits l -> all_digits (reverse l).
Proof. unfold all_digits. by rewrite Forall_reverse. Qed.

Lemma digits_cons (d : Z) (l : text) : 0 <= d < 10 -> all_digits l -> all_digits (digit_char d :: l).
Proof. intros. constructor; [by apply digit_char_is_digit|done]. Qed.

Lemma step_value (s : Z) : 0 <= s -> digit_value (digit_char (s mod 10)) + 10 * (s / 10) = s /\ 0 <= s mod 10 < 10 /\ 0 <= s / 10.
Proof.
  intros Hs. pose proof (Z.mod_pos_bound s 10 ltac:(lia)). rewrite digit_char_value by done.
  pose proof (Z.div_mod s 10). split; [lia|]. split; [done|]. by apply Z.div_pos.
Qed.

(** ** Without leading zeros *)

(** The empty text is zero. *)
Definition stripped (t : text) : Prop :=
  all_digits t /\ match t with [] => True | c :: _ => digit_value c <> 0 end.

Lemma zero_digit (c : byte) : is_digit c = true -> digit_value c = 0 -> c = x30.
Proof. intros Hc E. by rewrite <- (digit_char_of_value c Hc), E. Qed.

Lemma strip_zeros_spec (t : text) : all_digits t -> stripped (strip_zeros t) /\ dec_value (strip_zeros t) = dec_value t.
Proof.
  induction 1 as [|c l Hc Hl [IH1 IH2]]; [by split; [split; [constructor|]|]|]. cbn [strip_zeros]. case_bool_decide as E.
  - subst c. split; [done|]. rewrite IH2. change (x30 :: l) with ([x30] ++ l). by rewrite dec_value_app.
  - split; [|done]. split; [by constructor|]. intros H. by apply E, zero_digit.
Qed.

Lemma stripped_zero (t : text) : stripped t -> dec_value t = 0 -> t = [].
Proof.
  intros [Hd Hc] E. destruct t as [|c t]; [done|]. pose proof (canonical_lower _ _ Hd Hc).
  pose proof (Z.pow_pos_nonneg 10 (Z.of_nat (length t))). lia.
Qed.

Lemma stripped_pos (t : text) : stripped t -> t <> [] -> 0 < dec_value t.
Proof.
  intros Ht Hn. pose proof (dec_value_bounds _ (proj1 Ht)). destruct (Z.eq_dec (dec_value t) 0) as [E|]; [|lia].
  by apply stripped_zero in E.
Qed.

(** Fewer digits, a smaller number. *)
Lemma stripped_shorter (A C : text) : all_digits A -> stripped C -> (length A < length C)%nat -> dec_value A < dec_value C.
Proof.
  intros HA [HC Hh] Hl. pose proof (dec_value_bounds _ HA). destruct C as [|c C]; [cbn in Hl; lia|].
  pose proof (canonical_lower _ _ HC Hh). cbn in Hl.
  pose proof (Z.pow_le_mono_r 10 (Z.of_nat (length A)) (Z.of_nat (length C))). lia.
Qed.

(** ** Sum, difference and product *)

Lemma add_loop_spec (A : text) : all_digits A -> forall C k, all_digits C -> 0 <= k <= 1 ->
  all_digits (add_loop A C k) /\ rev_value (add_loop A C k) = rev_value A + rev_value C + k.
Proof.
  assert (forall C k, all_digits C -> 0 <= k <= 1 ->
    all_digits (add_loop [] C k) /\ rev_value (add_loop [] C k) = rev_value C + k) as Hnil.
  { intros C k HC. revert k. induction HC as [|c C Hc HC IH]; intros k Hk.
    - cbn. destruct (Z.eqb_spec k 0) as [->|]; [by split; [constructor|]|]. assert (k = 1) as -> by lia. by split; [repeat constructor|].
    - apply digit_value_range in Hc. cbn [add_loop rev_value]. cbn zeta.
      destruct (step_value (k + digit_value c)) as (H1 & H2 & H3); [lia|].
      destruct (IH ((k + digit_value c) / 10)) as [I1 I2]; [split; [lia|]; Z.to_euclidean_division_equations; lia|].
      cbn [add_loop] in I1, I2. split; [by apply digits_cons|]. rewrite I2. lia. }
  induction 1 as [|a A Ha HA IH]; intros C k HC Hk; [destruct (Hnil C k HC Hk) as [H1 H2]; split; [done|cbn [rev_value]; lia]|].
  apply digit_value_range in Ha. destruct HC as [|c C Hc HC]; cbn [add_loop rev_value]; cbn zeta.
  - destruct (step_value (k + digit_value a)) as (H1 & H2 & H3); [lia|].
    destruct (IH [] ((k + digit_value a) / 10)) as [I1 I2]; [constructor|split; [lia|]; Z.to_euclidean_division_equations; lia|].
    split; [by apply digits_cons|]. rewrite I2. cbn [rev_value]. lia.
  - apply digit_value_range in Hc. destruct (step_value (k + digit_value a + digit_value c)) as (H1 & H2 & H3); [lia|].
    destruct (IH C ((k + digit_value a + digit_value c) / 10)) as [I1 I2];
      [done|split; [lia|]; Z.to_euclidean_division_equations; lia|].
    split; [by apply digits_cons|]. rewrite I2. lia.
Qed.

Lemma AddMag_spec (A C : text) : all_digits A -> all_digits C ->
  stripped (AddMag A C) /\ dec_value (AddMag A C) = dec_value A + dec_value C.
Proof.
  intros HA HC. unfold AddMag. destruct (add_loop_spec _ (digits_reverse _ HA) (reverse C) 0 (digits_reverse _ HC)) as [H1 H2]; [lia|].
  destruct (strip_zeros_spec _ (digits_reverse _ H1)) as [H3 H4]. split; [done|].
  rewrite H4, dec_value_reverse, H2, !rev_value_reverse. lia.
Qed.

Lemma sub_loop_spec (A : text) : all_digits A -> forall C b, all_digits C -> (length C <= length A)%nat -> 0 <= b <= 1 ->
  all_digits (sub_loop A C b) /\
  exists out, 0 <= out <= 1 /\
    rev_value (sub_loop A C b) = rev_value A - rev_value C - b + out * 10 ^ Z.of_nat (length A) /\
    length (sub_loop A C b) = length A.
Proof.
  induction 1 as [|a A Ha HA IH]; intros C b HC Hlen Hb.
  { destruct C; [|cbn in Hlen; lia]. cbn. split; [constructor|]. exists b. lia. }
  apply digit_value_range in Ha. cbn [sub_loop rev_value length].
  assert (forall d C', -10 <= d < 10 -> all_digits C' -> (length C' <= length A)%nat ->
    d + 10 * (- rev_value C') = digit_value a - rev_value C - b ->
    let b' := if d <? 0 then 1 else 0 in
    all_digits (digit_char (d + b' * 10) :: sub_loop A C' b') /\
    exists out, 0 <= out <= 1 /\
      rev_value (digit_char (d + b' * 10) :: sub_loop A C' b') =
        digit_value a + 10 * rev_value A - rev_value C - b + out * 10 ^ Z.of_nat (S (length A)) /\
      length (digit_char (d + b' * 10) :: sub_loop A C' b') = S (length A)) as Hstep.
  { intros d C' Hd HC' Hl E b'. assert (0 <= d + b' * 10 < 10 /\ 0 <= b' <= 1) as [H1 H2].
    { subst b'. destruct (Z.ltb_spec d 0); lia. }
    destruct (IH C' b' HC' Hl H2) as (I1 & out & I2 & I3 & I4). split; [by apply digits_cons|]. exists out.
    cbn [rev_value length]. rewrite digit_char_value, I3, I4, Nat2Z.inj_succ, Z.pow_succ_r by lia. lia. }
  destruct HC as [|c C Hc HC].
  - apply (Hstep (digit_value a - b) []); [lia|constructor|cbn; lia|cbn [rev_value]; lia].
  - apply digit_value_range in Hc. cbn in Hlen. apply (Hstep (digit_value a - b - digit_value c) C); [lia|done|lia|cbn [rev_value]; lia].
Qed.

Lemma SubMag_spec (A C : text) : all_digits A -> stripped C -> dec_value C <= dec_value A ->
  stripped (SubMag A C) /\ dec_value (SubMag A C) = dec_value A - dec_value C.
Proof.
  intros HA HC Hle. assert (length C <= length A)%nat as Hlen.
  { destruct (Nat.le_gt_cases (length C) (length A)) as [|Hgt]; [done|]. pose proof (stripped_shorter _ _ HA HC Hgt). lia. }
  destruct HC as [HC _]. unfold SubMag.
  destruct (sub_loop_spec _ (digits_reverse _ HA) (reverse C) 0 (digits_reverse _ HC)) as (H1 & out & H2 & H3 & H4); [by rewrite !length_reverse|lia|].
  destruct (strip_zeros_spec _ (digits_reverse _ H1)) as [H5 H6]. split; [done|].
  rewrite H6, dec_value_reverse. pose proof (rev_value_bounds _ H1) as HR. rewrite H4 in HR.
  rewrite H3, !rev_value_reverse, length_reverse in *. assert (out = 0) as -> by nia. lia.
Qed.

Lemma carry_digits_spec (fuel : nat) : forall k, 0 <= k < 10 ^ Z.of_nat fuel ->
  all_digits (carry_digits fuel k) /\ rev_value (carry_digits fuel k) = k.
Proof.
  induction fuel as [|fuel IH]; intros k Hk.
  - change (10 ^ Z.of_nat 0) with 1 in Hk. assert (k = 0) as -> by lia. by split; [constructor|].
  - cbn [carry_digits]. destruct (Z.eqb_spec k 0) as [->|]; [by split; [constructor|]|].
    rewrite Nat2Z.inj_succ, Z.pow_succ_r in Hk by lia. destruct (step_value k) as (H1 & H2 & H3); [lia|].
    destruct (IH (k / 10)) as [I1 I2]; [Z.to_euclidean_division_equations; lia|].
    split; [by apply digits_cons|]. cbn [rev_value]. rewrite I2. lia.
Qed.

(** No product of a step leaves 64 bits. *)
Lemma mul_loop_spec (A : text) (F : Z) : 0 <= F < 2 ^ 60 -> all_digits A -> forall k, 0 <= k <= F ->
  all_digits (mul_loop A F k) /\ rev_value (mul_loop A F k) = rev_value A * F + k.
Proof.
  intros HF. induction 1 as [|a A Ha HA IH]; intros k Hk.
  - cbn [mul_loop rev_value]. apply carry_digits_spec. change (10 ^ Z.of_nat 20) with 100000000000000000000.
    change (2 ^ 60) with 1152921504606846976 in HF. lia.
  - apply digit_value_range in Ha. cbn [mul_loop rev_value]. cbn zeta.
    assert (w64 (digit_value a * F + k) = digit_value a * F + k) as ->.
    { unfold w64. apply Z.mod_small. change (2 ^ 60) with 1152921504606846976 in HF.
      change (2 ^ 64) with 18446744073709551616. nia. }
    destruct (step_value (digit_value a * F + k)) as (H1 & H2 & H3); [nia|].
    destruct (IH ((digit_value a * F + k) / 10)) as [I1 I2]; [split; [done|]; Z.to_euclidean_division_equations; nia|].
    split; [by apply digits_cons|]. rewrite I2. lia.
Qed.

Lemma strip_id (t : text) : stripped t -> strip_zeros t = t.
Proof. intros [_ H]. destruct t as [|c t]; [done|]. cbn. case_bool_decide; [by subst|done]. Qed.

Lemma MulMagSmall_spec (A : text) (F : Z) : 0 <= F < 2 ^ 60 -> all_digits A ->
  all_digits (MulMagSmall A F) /\ dec_value (MulMagSmall A F) = dec_value A * F.
Proof.
  intros HF HA. unfold MulMagSmall. case_bool_decide as E; cbn [orb]; [subst; by split; [constructor|]|].
  destruct (Z.eqb_spec F 0) as [->|]; [split; [constructor|cbn; lia]|].
  destruct (mul_loop_spec _ F HF (digits_reverse _ HA) 0) as [H1 H2]; [lia|].
  split; [by apply digits_reverse|]. rewrite dec_value_reverse, H2, rev_value_reverse. lia.
Qed.

Definition sign_of (c : comparison) : Z := match c with Lt => -1 | Eq => 0 | Gt => 1 end.

Lemma compare_text_spec (A : text) : all_digits A -> forall C, all_digits C -> length A = length C ->
  compare_text A C = sign_of (dec_value A ?= dec_value C).
Proof.
  induction 1 as [|a A Ha HA IH]; intros C HC Hl; destruct HC as [|c C Hc HC]; try done. cbn [compare_text].
  injection Hl as Hl. rewrite !dec_value_cons, <- Hl. pose proof (dec_value_bounds _ HA) as B1. pose proof (dec_value_bounds _ HC) as B2.
  rewrite <- Hl in B2. apply digit_value_range in Ha, Hc. unfold digit_value in *. specialize (IH _ HC Hl).
  pose proof (Z.pow_pos_nonneg 10 (Z.of_nat (length A)) ltac:(lia) ltac:(lia)).
  destruct (Z.ltb_spec (code a) (code c)); [|destruct (Z.ltb_spec (code c) (code a))].
  - rewrite (proj2 (Z.compare_lt_iff _ _)); [done|nia].
  - rewrite (proj2 (Z.compare_gt_iff _ _)); [done|nia].
  - assert (code a = code c) as -> by lia. by rewrite IH, Z.add_compare_mono_l.
Qed.

Lemma CompareMag_spec (A C : text) : stripped A -> stripped C -> CompareMag A C = sign_of (dec_value A ?= dec_value C).
Proof.
  intros HA HC. unfold CompareMag. destruct (Nat.eqb_spec (length A) (length C)) as [|Hn]; cbn [negb].
  { apply compare_text_spec; [apply HA|apply HC|done]. }
  destruct (Nat.ltb_spec (length A) (length C)).
  - by rewrite (proj2 (Z.compare_lt_iff _ _)) by (apply stripped_shorter; [apply HA|done|done]).
  - rewrite (proj2 (Z.compare_gt_iff _ _)); [done|]. apply stripped_shorter; [apply HC|done|lia].
Qed.

(** ** Signed integers *)

Definition big_value (V : BigInt) : Z := if BigNegative V then - dec_value (Mag V) else dec_value (Mag V).
(** No leading zero and no negative zero. *)
Definition wf_big (V : BigInt) : Prop := stripped (Mag V) /\ (Mag V = [] -> BigNegative V = false).

(** The larger magnitude gives the sign. *)
Lemma BigAdd_opposite (A C : BigInt) : stripped (Mag A) -> stripped (Mag C) -> BigNegative A <> BigNegative C ->
  BigAdd A C = match dec_value (Mag A) ?= dec_value (Mag C) with
               | Eq => BigZero
               | Gt => MkBigInt (BigNegative A) (SubMag (Mag A) (Mag C))
               | Lt => MkBigInt (BigNegative C) (SubMag (Mag C) (Mag A))
               end.
Proof.
  intros HA HC E. unfold BigAdd. rewrite (proj2 (Bool.eqb_false_iff _ _) E), CompareMag_spec by done.
  by destruct (dec_value (Mag A) ?= dec_value (Mag C)).
Qed.

Lemma BigAdd_same (A C : BigInt) : BigNegative A = BigNegative C ->
  BigAdd A C = MkBigInt (BigNegative A) (AddMag (Mag A) (Mag C)).
Proof. intros E. unfold BigAdd. by rewrite (proj2 (Bool.eqb_true_iff _ _) E). Qed.

Lemma BigAdd_spec (A C : BigInt) : stripped (Mag A) -> stripped (Mag C) ->
  stripped (Mag (BigAdd A C)) /\ big_value (BigAdd A C) = big_value A + big_value C.
Proof.
  intros HA HC. destruct (bool_decide_reflect (BigNegative A = BigNegative C)) as [E|E].
  - rewrite BigAdd_same by done. destruct (AddMag_spec _ _ (proj1 HA) (proj1 HC)) as [H1 H2]. split; [done|].
    unfold big_value. cbn [BigNegative Mag]. rewrite H2, <- E. destruct (BigNegative A); lia.
  - rewrite BigAdd_opposite by done. unfold big_value.
    destruct (Z.compare_spec (dec_value (Mag A)) (dec_value (Mag C))) as [Hc|Hc|Hc]; cbn [BigNegative Mag].
    + split; [by split; [constructor|]|]. change (dec_value (Mag BigZero)) with 0. destruct (BigNegative A), (BigNegative C); done || (cbn; lia).
    + destruct (SubMag_spec _ _ (proj1 HC) HA) as [H1 H2]; [lia|]. split; [done|]. rewrite H2.
      destruct (BigNegative A), (BigNegative C); done || lia.
    + destruct (SubMag_spec _ _ (proj1 HA) HC) as [H1 H2]; [lia|]. split; [done|]. rewrite H2.
      destruct (BigNegative A), (BigNegative C); done || lia.
Qed.

Lemma BigAdd_wf (A C : BigInt) : wf_big A -> wf_big C -> wf_big (BigAdd A C).
Proof.
  intros [HA NA] [HC NC]. split; [by apply BigAdd_spec|].
  destruct (bool_decide_reflect (BigNegative A = BigNegative C)) as [E|E].
  - rewrite BigAdd_same by done. cbn [Mag BigNegative]. intros H.
    destruct (AddMag_spec _ _ (proj1 HA) (proj1 HC)) as [_ H2]. rewrite H in H2. change (dec_value []) with 0 in H2.
    pose proof (dec_value_bounds _ (proj1 HA)). pose proof (dec_value_bounds _ (proj1 HC)). apply NA, stripped_zero; [done|lia].
  - rewrite BigAdd_opposite by done.
    destruct (Z.compare_spec (dec_value (Mag A)) (dec_value (Mag C))) as [Hc|Hc|Hc]; cbn [BigNegative Mag]; [done|..]; intros H.
    + destruct (SubMag_spec _ _ (proj1 HC) HA) as [_ H2]; [lia|]. rewrite H in H2. change (dec_value []) with 0 in H2. lia.
    + destruct (SubMag_spec _ _ (proj1 HA) HC) as [_ H2]; [lia|]. rewrite H in H2. change (dec_value []) with 0 in H2. lia.
Qed.

Lemma mag_value (V : BigInt) : stripped (Mag V) -> dec_value (Mag V) = Z.abs (big_value V).
Proof. intros HV. pose proof (dec_value_bounds _ (proj1 HV)). unfold big_value. destruct (BigNegative V); lia. Qed.

Lemma big_zero (V : BigInt) : wf_big V -> (Mag V = [] <-> big_value V = 0).
Proof.
  intros [HV NV]. split; intros E.
  - unfold big_value. rewrite E. by destruct (BigNegative V).
  - apply stripped_zero; [done|]. rewrite mag_value by done. lia.
Qed.

(** C14: The integers of the call graph check are the integers: for numbers without
    leading zeros and without a negative zero, the sum, the absolute difference, the
    comparison of magnitudes and the test for a number too large for a double give
    well-formed results with exactly the values of the integers. *)
Theorem big_integers_exact (A C : BigInt) : wf_big A -> wf_big C ->
  (wf_big (BigAdd A C) /\ big_value (BigAdd A C) = big_value A + big_value C) /\
  (wf_big (BigAbsDiff A C) /\ big_value (BigAbsDiff A C) = Z.abs (big_value A - big_value C)) /\
  CompareMag (Mag A) (Mag C) = sign_of (Z.abs (big_value A) ?= Z.abs (big_value C)) /\
  (FloatOverflows A = true <-> 2 ^ 1024 - 2 ^ 970 <= Z.abs (big_value A)).
Proof.
  intros HA HC. split; [split; [by apply BigAdd_wf|apply BigAdd_spec; [apply HA|apply HC]]|]. split.
  - unfold BigAbsDiff. set (N := MkBigInt _ (Mag C)).
    assert (big_value N = - big_value C) as HN.
    { unfold N, big_value. cbn [BigNegative Mag]. case_bool_decide as E; [rewrite E, (proj2 HC E); done|].
      destruct (BigNegative C); cbn; lia. }
    destruct (BigAdd_spec A N) as [H1 H2]; [apply HA|apply HC|]. split; [by split|].
    unfold big_value at 1. cbn [BigNegative Mag]. rewrite mag_value, H2, HN by done. f_equal.
  - split; [by rewrite CompareMag_spec, !mag_value by first [apply HA|apply HC]|].
    unfold FloatOverflows. rewrite CompareMag_spec, mag_value by first [apply HA|apply (bool_decide_unpack _); by vm_compute].
    assert (dec_value FloatOverflowMag = 2 ^ 1024 - 2 ^ 970) as -> by (by vm_compute).
    destruct (Z.compare_spec (Z.abs (big_value A)) (2 ^ 1024 - 2 ^ 970)); cbn; split; lia || done.
Qed.

(** ** Decimals *)

Definition signed (D : PyDecimal) : Z := if DecNegative D then - dec_value (Coefficient D) else dec_value (Coefficient D).

(** The value of a finite decimal, in units of 10^[m]. *)
Definition scaled (m : Z) (D : PyDecimal) : Z := signed D * 10 ^ (Exponent D - m).
Definition same_value (A C : PyDecimal) : Prop :=
  let m := Z.min (Exponent A) (Exponent C) in scaled m A = scaled m C.

Lemma strip_trailing_spec (R : text) : all_digits R -> forall E C E', strip_trailing R E = (C, E') ->
  E <= E' /\ all_digits C /\ rev_value R = dec_value C * 10 ^ (E' - E) /\
  (C <> [] -> dec_value C mod 10 <> 0) /\ exists z, reverse R = C ++ z.
Proof.
  induction 1 as [|r R Hr HR IH]; intros E C E'.
  { intros [= <- <-]. split; [lia|]. split; [constructor|]. split; [done|]. split; [done|]. by exists []. }
  cbn [strip_trailing rev_value]. case_bool_decide as H0.
  - intros H. destruct (IH _ _ _ H) as (H1 & H2 & H3 & H4 & z & H5). subst r. change (digit_value x30) with 0.
    split; [lia|]. split; [done|]. split; [|split; [done|exists (z ++ [x30]); by rewrite reverse_cons, H5, app_assoc]].
    replace (E' - E) with (Z.succ (E' - (E + 1))) by lia. rewrite Z.pow_succ_r, H3 by lia. lia.
  - assert (digit_value r <> 0) as Hn by (intros H; by apply H0, zero_digit). pose proof (digit_value_range r Hr) as Hd.
    intros [= <- <-]. pose proof (rev_value_bounds _ HR) as HB. rewrite dec_value_reverse, Z.sub_diag. cbn [rev_value].
    split; [lia|]. split; [by apply digits_reverse; constructor|]. split; [lia|]. split; [|exists []; by rewrite app_nil_r].
    intros _. rewrite Z.mul_comm, Z_mod_plus_full, Z.mod_small by lia. done.
Qed.

Record normal_of (A N : PyDecimal) : Prop := {
  no_kind : DecKind N = DecKind A;
  no_sign : DecNegative N = DecNegative A;
  no_zero : Coefficient N = [] <-> signed A = 0;
  no_text : Coefficient N <> [] -> canonical (Coefficient N) /\ dec_value (Coefficient N) mod 10 <> 0;
  no_value m : m <= Exponent A -> signed A <> 0 -> m <= Exponent N /\ scaled m N = scaled m A;
}.

Lemma signed_zero (D : PyDecimal) : signed D = 0 <-> dec_value (Coefficient D) = 0.
Proof. unfold signed. destruct (DecNegative D); lia. Qed.

Lemma stripped_canonical (t : text) : stripped t -> t <> [] -> canonical t.
Proof. intros [H1 H2] Hn. split; [done|]. by destruct t as [|c [|]]. Qed.

Lemma Normalise_spec (A : PyDecimal) : all_digits (Coefficient A) -> normal_of A (Normalise A).
Proof.
  intros HA. destruct (strip_zeros_spec _ HA) as [Hs Hv]. unfold Normalise.
  destruct (strip_zeros (Coefficient A)) as [|c t] eqn:E.
  { change (dec_value []) with 0 in Hv. assert (signed A = 0) as Hz by (by apply signed_zero). split; cbn; done. }
  assert (0 < dec_value (Coefficient A)) as Hp by (rewrite <- Hv; by apply stripped_pos).
  destruct (strip_trailing _ _) as [C' E'] eqn:Et.
  pose proof (strip_trailing_spec _ (digits_reverse _ (proj1 Hs)) _ _ _ Et) as (H1 & H2 & H3 & H4 & z & H5).
  rewrite rev_value_reverse, Hv in H3. rewrite reverse_involutive in H5.
  assert (C' <> []) as Hn by (intros ->; change (dec_value []) with 0 in H3; lia).
  pose proof (Z.pow_pos_nonneg 10 (E' - Exponent A) ltac:(lia) ltac:(lia)) as H10.
  split; cbn [DecKind DecNegative Coefficient Exponent]; [done|done| | |].
  - split; [done|]. rewrite signed_zero. lia.
  - intros _. split; [|by apply H4]. split; [done|]. destruct C' as [|c' t']; [done|].
    injection H5 as -> _. destruct Hs as [_ Hs]. by destruct t'.
  - intros m Hm _. split; [lia|]. unfold scaled, signed. cbn [DecNegative Coefficient Exponent]. rewrite H3.
    replace (E' - m) with ((E' - Exponent A) + (Exponent A - m)) by lia. rewrite Z.pow_add_r by lia. destruct (DecNegative A); lia.
Qed.

(** Coefficients that do not end in zero: equal values have equal parts. *)
Lemma parts_unique (v w e f : Z) : 0 <= e -> 0 <= f -> v mod 10 <> 0 -> w mod 10 <> 0 -> v * 10 ^ e = w * 10 ^ f -> v = w /\ e = f.
Proof.
  assert (forall v w e f, 0 <= e <= f -> v mod 10 <> 0 -> v * 10 ^ e = w * 10 ^ f -> v = w /\ e = f) as Hle.
  { clear. intros v w e f He Hv E. replace f with (e + (f - e)) in E by lia. rewrite Z.pow_add_r in E by lia.
    pose proof (Z.pow_pos_nonneg 10 e ltac:(lia) ltac:(lia)). assert (v = w * 10 ^ (f - e)) as Hw by nia.
    destruct (Z.eq_dec e f) as [->|]; [rewrite Z.sub_diag in Hw; lia|]. exfalso. apply Hv. rewrite Hw.
    replace (f - e) with (Z.succ (f - e - 1)) by lia. rewrite Z.pow_succ_r by lia.
    replace (w * (10 * 10 ^ (f - e - 1))) with (w * 10 ^ (f - e - 1) * 10) by lia. apply Z_mod_mult. }
  intros He Hf Hv Hw E. destruct (Z.le_ge_cases e f).
  - by apply (Hle v w e f).
  - destruct (Hle w v f e) as [-> ->]; [lia|done|done|done].
Qed.

Definition finite_equal (A C : PyDecimal) : res bool :=
  if bool_decide (Coefficient A = []) || bool_decide (Coefficient C = []) then
    Ok (bool_decide (Coefficient A = []) && bool_decide (Coefficient C = []))
  else Ok (Bool.eqb (DecNegative A) (DecNegative C) && bool_decide (Coefficient A = Coefficient C)
           && (Exponent A =? Exponent C)).

(** Normal decimals of one value are the same. *)
Lemma normal_equal (m : Z) (A C : PyDecimal) : m <= Exponent A -> m <= Exponent C ->
  canonical (Coefficient A) -> canonical (Coefficient C) ->
  dec_value (Coefficient A) mod 10 <> 0 -> dec_value (Coefficient C) mod 10 <> 0 ->
  Bool.eqb (DecNegative A) (DecNegative C) && bool_decide (Coefficient A = Coefficient C) && (Exponent A =? Exponent C) = true
    <-> scaled m A = scaled m C.
Proof.
  intros L1 L2 G1 G2 M1 M2. unfold scaled. split.
  - intros [[E1%Bool.eqb_prop E2%bool_decide_eq_true]%andb_prop E3%Z.eqb_eq]%andb_prop. unfold signed. by rewrite E1, E2, E3.
  - intros E. pose proof (dec_value_bounds _ (proj1 G1)) as B1. pose proof (dec_value_bounds _ (proj1 G2)) as B2.
    pose proof (Z.pow_pos_nonneg 10 (Exponent A - m) ltac:(lia) ltac:(lia)).
    pose proof (Z.pow_pos_nonneg 10 (Exponent C - m) ltac:(lia) ltac:(lia)).
    assert (dec_value (Coefficient A) <> 0) by (intros HZ; by rewrite HZ in M1).
    assert (dec_value (Coefficient C) <> 0) by (intros HZ; by rewrite HZ in M2).
    assert (DecNegative A = DecNegative C) as EN.
    { unfold signed in E. destruct (DecNegative A), (DecNegative C); done || nia. }
    assert (dec_value (Coefficient A) * 10 ^ (Exponent A - m) = dec_value (Coefficient C) * 10 ^ (Exponent C - m)) as EV.
    { unfold signed in E. rewrite EN in E. destruct (DecNegative C); lia. }
    apply parts_unique in EV as [E1 E2]; [|lia|lia|done|done].
    apply andb_true_intro. split; [apply andb_true_intro; split|apply Z.eqb_eq; lia].
    + by apply Bool.eqb_true_iff.
    + apply bool_decide_eq_true. by rewrite <- (dec_text_canonical _ G1), <- (dec_text_canonical _ G2), E1.
Qed.

(** C15: Python's equality of decimals: two finite decimals, as they are read from
    any digits and any exponents, compare equal after normalisation exactly when
    they have the same value: 1.50 equals 15e-1, and 0 equals -0.00. *)
Theorem decimals_equal_by_value (A C : PyDecimal) :
  DecKind A = Finite -> DecKind C = Finite -> all_digits (Coefficient A) -> all_digits (Coefficient C) ->
  exists b, DecimalEquals (Normalise A) (Normalise C) = Ok b /\ (b = true <-> same_value A C).
Proof.
  intros KA KC HA HC. destruct (Normalise_spec A HA) as [K1 S1 Z1 T1 V1], (Normalise_spec C HC) as [K2 S2 Z2 T2 V2].
  assert (DecimalEquals (Normalise A) (Normalise C) = finite_equal (Normalise A) (Normalise C)) as ->.
  { unfold DecimalEquals. by rewrite K1, K2, KA, KC. }
  assert (forall m D, m <= Exponent D -> (scaled m D = 0 <-> signed D = 0)) as Hz.
  { intros m D Hm. unfold scaled. pose proof (Z.pow_pos_nonneg 10 (Exponent D - m) ltac:(lia) ltac:(lia)). nia. }
  set (m := Z.min (Exponent A) (Exponent C)). assert (m <= Exponent A /\ m <= Exponent C) as [MA MC] by lia.
  unfold finite_equal, same_value. fold m. pose proof (Hz m A MA) as ZA. pose proof (Hz m C MC) as ZC.
  case_bool_decide as EA; case_bool_decide as EC; cbn [orb andb]; eexists; (split; [done|]).
  - apply Z1 in EA. apply Z2 in EC. split; [|done]. intros _. by rewrite (proj2 ZA EA), (proj2 ZC EC).
  - apply Z1 in EA. rewrite Z2 in EC. split; [done|]. intros E. exfalso. apply EC, ZC. rewrite <- E. by apply ZA.
  - apply Z2 in EC. rewrite Z1 in EA. split; [done|]. intros E. exfalso. apply EA, ZA. rewrite E. by apply ZC.
  - pose proof (fun H => EA (proj2 Z1 H)) as NA. pose proof (fun H => EC (proj2 Z2 H)) as NC.
    destruct (T1 EA) as [G1 M1], (T2 EC) as [G2 M2], (V1 m MA NA) as [L1 W1], (V2 m MC NC) as [L2 W2].
    rewrite <- W1, <- W2. by apply normal_equal.
Qed.
