(* ===== verification/LoopSpec.v ===== *)
(** * The replay of the compilation unit query

    [CuReplaySource] stands for the query that joins the functions of two address
    ranges: it yields the same rows as the product of the two lists, in the order of
    the nested loops, and ends or fails where they do. *)

From stdpp Require Import base numbers gmap sets list.
From Stdlib Require Import ZArith Lia.
From S2P Require Import Prelude Dbl Decimal Interner MatchState SessionData Consumer SideTables FunctionTable RatioEngine.
From S2P Require Import StageSql Sql EarlyStages LoopStages.

(** Everything a source yields, with how it ends; [None]: the fuel ran out. *)
Fixpoint drain_source {R : Type} `{!RowSource R} (fuel : nat) (r : R) (ids : Interners)
    : list HeuristicRow * Interners * option (res unit) :=
  match fuel with
  | O => ([], ids, None)
  | S fuel' =>
      match Next r ids with
      | (r', ids', Ok (Some Row)) => let '(Rows, ids'', e) := drain_source fuel' r' ids' in (Row :: Rows, ids'', e)
      | (r', ids', Ok None) => ([], ids', Some (Ok tt))
      | (r', ids', Throw e) => ([], ids', Some (Throw e))
      end
  end.

(** The rows before the first exception. *)
Fixpoint until_throw (l : list (res HeuristicRow)) : list HeuristicRow * res unit :=
  match l with
  | [] => ([], Ok tt)
  | Throw e :: _ => ([], Throw e)
  | Ok Row :: l' => let '(Rows, e) := until_throw l' in (Row :: Rows, e)
  end.

Section Replay.
Context (Tables : sided FunctionTable).
#[local] Instance replay_source : RowSource CuReplaySource := CuReplaySource_source Tables.

(** For every row of the main side, every row of the diff side. *)
Definition product (Desc : DescId) (Rows1 Rows2 : list nat) : list (res HeuristicRow) :=
  R1 ← Rows1; cu_fill Tables Desc R1 <$> Rows2.

(** What the source has still to yield. *)
Definition ahead (r : CuReplaySource) : list (res HeuristicRow) :=
  match drop (Outer r) (CuRows1 r) with
  | [] => []
  | R1 :: Rest => (cu_fill Tables (CuDesc r) R1 <$> drop (Inner r) (CuRows2 r)) ++ product (CuDesc r) Rest (CuRows2 r)
  end.

(** The inner index is a row of the diff side. *)
Definition inside (r : CuReplaySource) : Prop := CuRows2 r <> [] -> Inner r < length (CuRows2 r).

Lemma product_nil Desc Rows1 : product Desc Rows1 [] = [].
Proof. by induction Rows1. Qed.

Lemma ahead_start Desc Rows1 Rows2 : ahead (MkCuSource Rows1 Rows2 0 0 Desc) = product Desc Rows1 Rows2.
Proof. by destruct Rows1. Qed.

Lemma replay_next r ids : inside r ->
  match ahead r with
  | [] => Next r ids = (r, ids, Ok None)
  | Throw e :: _ => Next r ids = (r, ids, Throw e)
  | Ok Row :: Rest => Next r ids = (cu_advance r, ids, Ok (Some Row)) /\ ahead (cu_advance r) = Rest /\ inside (cu_advance r)
  end.
Proof.
  intros Hin. unfold inside in Hin. cbn [Next replay_source CuReplaySource_source]. unfold cu_next, ahead.
  destruct (drop (Outer r) (CuRows1 r)) as [|R1 Rest] eqn:E1.
  { assert (length (CuRows1 r) <= Outer r) as Hl.
    { pose proof (f_equal length E1) as H. rewrite length_drop in H. cbn in H. lia. }
    by rewrite (proj2 (Nat.leb_le _ _) Hl), orb_true_r. }
  assert (CuRows1 r !! Outer r = Some R1 /\ drop (S (Outer r)) (CuRows1 r) = Rest) as [L1 D1].
  { split.
    - rewrite <- (Nat.add_0_r (Outer r)), <- lookup_drop, E1. done.
    - rewrite <- Nat.add_1_r, <- drop_drop, E1. done. }
  pose proof (lookup_lt_Some _ _ _ L1) as Hl. rewrite (proj2 (Nat.leb_gt _ _) Hl), orb_false_r.
  case_bool_decide as E2.
  { rewrite E2. rewrite drop_nil. cbn. by rewrite product_nil. }
  specialize (Hin E2). destruct (lookup_lt_is_Some_2 _ _ Hin) as [R2 L2].
  rewrite (drop_S _ _ _ L2). cbn [fmap list_fmap app]. unfold at_row. rewrite L1, L2. cbn [mbind res_bind].
  destruct (cu_fill Tables (CuDesc r) R1 R2) as [Row|e]; [|done]. split; [done|].
  unfold cu_advance, inside. destruct (Nat.eqb_spec (S (Inner r)) (length (CuRows2 r))) as [Ee|Ee]; cbn [Outer Inner CuRows1 CuRows2 CuDesc].
  - rewrite D1. split; [|intros _; lia]. rewrite (drop_ge _ (S (Inner r))) by lia. by destruct Rest.
  - rewrite E1. split; [done|]. intros _. lia.
Qed.

Lemma replay_drain fuel r ids : inside r -> length (ahead r) < fuel ->
  drain_source fuel r ids = (let '(Rows, e) := until_throw (ahead r) in (Rows, ids, Some e)).
Proof.
  revert r. induction fuel as [|fuel IH]; intros r Hin Hf; [lia|]. cbn [drain_source].
  pose proof (replay_next r ids Hin) as HN. destruct (ahead r) as [|[Row|e] Rest].
  - by rewrite HN.
  - destruct HN as (-> & HA & HI). assert (length (ahead (cu_advance r)) < fuel) as Hl by (rewrite HA; cbn in Hf; lia).
    rewrite IH, HA by done. cbn [until_throw]. by destruct (until_throw Rest).
  - by rewrite HN.
Qed.

(** C13: The native replay of the compilation unit query is the nested loop: drained
    to its end it yields exactly the rows of the product of its two lists of
    functions, the main side outside, in that order, up to the first function the
    program refuses, whose exception ends it; it interns nothing, and it always ends. *)
Theorem replay_is_product Desc Rows1 Rows2 ids :
  drain_source (S (length Rows1 * length Rows2)) (MkCuSource Rows1 Rows2 0 0 Desc) ids =
    (let '(Rows, e) := until_throw (product Desc Rows1 Rows2) in (Rows, ids, Some e)).
Proof.
  rewrite replay_drain, ahead_start; [done| |].
  - intros Hn. cbn in *. destruct Rows2; [done|cbn; lia].
  - rewrite ahead_start. apply Nat.lt_succ_r. clear ids. induction Rows1 as [|R1 Rows1 IH]; [done|].
    cbn. rewrite length_app, length_fmap. unfold product in IH. cbn in IH. lia.
Qed.
End Replay.
