(* ===== verification/BlindSpec.v ===== *)
(** * Sessions that differ in what no decision reads

    Two sessions are related when they agree on all that a stage looks at: the
    texts, the matches, the flags, the counters, the results, and the engine up to
    a relation its calls cannot see through. The trace, the facts of the early
    passes and the list of truncated heuristics are free. Every stage, and the whole
    pipeline, takes related sessions to related sessions with the same result, so a
    run can be resumed from a session that is related to a checkpoint. *)

From Stdlib Require Import ZArith Lia.
From stdpp Require Import base option numbers list gmap sets.
From S2P Require Import Prelude Dbl Decimal Interner Utf8 TextDiff MatchState Snapshot FinalPass Unmatched.
From S2P Require Import SessionData PatchDiffHook Consumer SideTables FunctionTable RatioEngine.
From S2P Require Import StageSql Sql EarlyStages TierStages LoopStages Preflight Pipeline SessionSpec SourcesSpec StagesSpec PipelineSpec.
From S2P Require Import ResumeSpec.

(** ** Programs that cannot tell related states apart *)

Class Related (T : Type) := related : T -> T -> Prop.

Section Blind.
Context {T : Type} `{!Related T}.

(** From one state, and from every one related to it. *)
Class BlindAt {A : Type} (s : T) (m : M T A) : Prop :=
  blind_at t : related s t -> related (m s).1 (m t).1 /\ (m s).2 = (m t).2.
Class Blind {A : Type} (m : M T A) : Prop := blind s : BlindAt s m.

#[export] Instance blind_here {A} (m : M T A) s : Blind m -> BlindAt s m.
Proof. intros Hm. apply Hm. Qed.

#[export] Instance blind_ret {A} (a : A) : Blind (mret a).
Proof. intros s t H. by split. Qed.
#[export] Instance blind_throw {A} e : Blind (throw e : M T A).
Proof. intros s t H. by split. Qed.
#[export] Instance blind_lift {A} (a : res A) : Blind (liftR a).
Proof. intros s t H. by split. Qed.

Lemma blind_at_bind {A C} (m : M T A) (f : A -> M T C) s :
  BlindAt s m -> (forall a, Blind (f a)) -> BlindAt s (m ≫= f).
Proof.
  intros Hm Hf t H. destruct (Hm t H) as [H1 H2]. unfold mbind, M_bind.
  destruct (m s) as [s1 r1], (m t) as [t1 r2]. cbn in *. subst r2. destruct r1 as [a|e]; [|done]. by apply (Hf a).
Qed.
#[export] Instance blind_bind {A C} (m : M T A) (f : A -> M T C) : Blind m -> (forall a, Blind (f a)) -> Blind (m ≫= f).
Proof. intros Hm Hf s. by apply blind_at_bind. Qed.

(** What is read may decide the rest, as long as related states decide alike. *)
Lemma blind_at_get {C} (f : T -> M T C) s :
  (forall t, related s t -> f t = f s) -> BlindAt s (f s) -> BlindAt s (get ≫= f).
Proof. intros He Hf t H. unfold mbind, M_bind, get. rewrite (He t H). by apply Hf. Qed.

Lemma blind_at_lift {A C} (x : res A) (f : A -> M T C) s : (forall a, BlindAt s (f a)) -> BlindAt s (liftR x ≫= f).
Proof. intros Hf t H. unfold mbind, M_bind, liftR. destruct x as [a|e]; [by apply Hf|by split]. Qed.

(** A program that reads the state it runs on. *)
Lemma blind_reading {A} (f : T -> M T A) : (forall s t, related s t -> f t = f s) -> (forall s, Blind (f s)) ->
  Blind (fun t => f t t).
Proof. intros He Hf s t H. cbn. rewrite (He s t H). by apply Hf. Qed.

Lemma blind_modify (f : T -> T) : (forall s t, related s t -> related (f s) (f t)) -> Blind (modify f).
Proof. intros Hf s t H. split; [by apply Hf|done]. Qed.

#[export] Instance blind_for_each {A} (body : A -> M T unit) l : (forall a, Blind (body a)) -> Blind (for_each body l).
Proof. intros Hb. induction l; cbn; apply _. Qed.
#[export] Instance blind_fold_each {A C} (body : A -> C -> M T C) l c :
  (forall a c, Blind (body a c)) -> Blind (fold_each body l c).
Proof. intros Hb. revert c. induction l; intros c; cbn; apply _. Qed.
End Blind.

(** ** Related sessions *)

(** Engine states no call of the engine tells apart, while the texts are [ids]. *)
Class EngineRelation (X : Type) := {
  engine_related : Interners -> X -> X -> Prop;
  engine_related_le a b x y : ids_le a b -> engine_related a x y -> engine_related b x y;
}.

Record session_related {X} `{!EngineRelation X} (S T : Session X) : Prop := MkSessionRelated {
  sr_ids : Ids T = Ids S;
  sr_state : State T = State S;
  sr_frames : Frames T = Frames S;
  sr_config : Config T = Config S;
  sr_flags : Flags T = Flags S;
  sr_final : Final (Stages T) = Final (Stages S);
  sr_points : PointSeq (Stages T) = PointSeq (Stages S);
  sr_cleanups : CleanupCounters (Stages T) = CleanupCounters (Stages S);
  sr_iteration : Iteration (Stages T) = Iteration (Stages S);
  sr_engine : engine_related (Ids S) (Ext S) (Ext T);
}.
#[export] Instance Session_related {X} `{!EngineRelation X} : Related (Session X) := session_related.
#[export] Instance Drain_related {X R} `{!EngineRelation X} : Related (Session X * R) :=
  fun s t => session_related s.1 t.1 /\ s.2 = t.2.
#[export] Instance Run_related {X} `{!EngineRelation X} : Related (Run X) :=
  fun r r' => session_related (RunSession r) (RunSession r') /\ Position r = Position r' /\
    Forall2 (fun a b => a.1 = b.1 /\ session_related a.2 b.2) (Saved r) (Saved r').

(** What the engine owes: equal answers and related states after each call. *)
Class EngineBlind (X : Type) `{!Engine X, !HookReset X, !EngineSetup X, !EngineRelation X} : Prop := {
  blind_CheckRatio ids F Row x y : engine_related ids x y ->
    engine_related ids (Consumer.CheckRatio ids F Row x).1 (Consumer.CheckRatio ids F Row y).1 /\
    (Consumer.CheckRatio ids F Row x).2 = (Consumer.CheckRatio ids F Row y).2;
  blind_CompareRows ids F r1 r2 x y : engine_related ids x y ->
    engine_related ids (Consumer.CompareFunctionRows ids F r1 r2 x).1 (Consumer.CompareFunctionRows ids F r1 r2 y).1 /\
    (Consumer.CompareFunctionRows ids F r1 r2 x).2 = (Consumer.CompareFunctionRows ids F r1 r2 y).2;
  blind_OnMatch ids Row R x y : engine_related ids x y ->
    engine_related ids (Consumer.PatchDiffHookOnMatch ids Row R x).1 (Consumer.PatchDiffHookOnMatch ids Row R y).1 /\
    (Consumer.PatchDiffHookOnMatch ids Row R x).2 = (Consumer.PatchDiffHookOnMatch ids Row R y).2;
  blind_ClearDones ids x y : engine_related ids x y -> engine_related ids (ClearDones x) (ClearDones y);
  blind_ClearCache ids x y : engine_related ids x y -> engine_related ids (ClearEngineCache x) (ClearEngineCache y);
  blind_Prepare ids F x y : engine_related ids x y ->
    engine_related ids (PrepareEngine F x).1 (PrepareEngine F y).1 /\ (PrepareEngine F x).2 = (PrepareEngine F y).2;
  (** Once prepared, preparing again is not seen. *)
  prepared_again ids F F' x0 x0' x y : PrepareEngine F x0 = (x0', Ok tt) -> engine_related ids x y ->
    (PrepareEngine F' y).2 = Ok tt /\ engine_related ids x (PrepareEngine F' y).1;
}.

(** Reads one field after the other of two related sessions. *)
Ltac related_eq :=
  repeat match goal with
    | H : related _ _ |- _ => unfold related, Session_related, Drain_related, Run_related in H
    | H : _ /\ _ |- _ => destruct H
    | H : session_related _ _ |- _ => destruct H
    | H : _ = _ |- _ => rewrite H
    end; try reflexivity.

(** The field [f] changes alike. *)
Ltac related_modify := intros s t []; split; cbn; try congruence; done.

Ltac solve_blind :=
  repeat match goal with
    | |- forall _, _ => intros ?
    | |- Blind (if ?b then _ else _) => destruct b
    | |- Blind (match _ with _ => _ end) => case_match
    | |- Blind _ => first [apply _ | apply blind_for_each | apply blind_fold_each | let s := fresh "s" in intros s]
    | |- BlindAt _ (get ≫= _) => apply blind_at_get; [by (intros; related_eq)|]
    | |- BlindAt _ (liftR _ ≫= _) => apply blind_at_lift
    | |- BlindAt _ (_ ≫= _) => apply blind_at_bind
    | |- BlindAt _ (if ?b then _ else _) => destruct b
    | |- BlindAt _ (match _ with _ => _ end) => case_match
    | |- BlindAt _ _ => apply _
    end.

Section Session.
Context {X : Type} `{!Engine X, !HookReset X, !EngineSetup X, !EngineRelation X, !EngineBlind X}.

(** ** Parts of a session *)

#[export] Instance blind_on_ids {A} (m : M Interners A) : Extends m -> Blind (on_ids m : M (Session X) A).
Proof.
  intros Hm S T [E1]. unfold on_ids. rewrite E1. destruct (m (Ids S)) as [ids r] eqn:E. split; [|done].
  split; cbn; try done. eapply engine_related_le; [exact (Hm _ _ _ E)|done].
Qed.
#[export] Instance blind_on_stages_Facts f : Blind (on_facts f : M (Session X) unit).
Proof. apply blind_modify. related_modify. Qed.
#[export] Instance blind_set_flags f : Blind (set_flags f : M (Session X) unit).
Proof. apply blind_modify. related_modify. Qed.
#[export] Instance blind_SetIteration i : Blind (SetIteration i : M (Session X) unit).
Proof. apply blind_modify. related_modify. Qed.
#[export] Instance blind_Point t : Blind (Point t : M (Session X) unit).
Proof.
  apply blind_modify. intros S T [? E]. intros. rewrite E. destruct (list_sizes _) as [[??]?]. split; cbn; congruence || done.
Qed.
#[export] Instance blind_with_state st : Blind (modify (with_state st) : M (Session X) unit).
Proof. apply blind_modify. related_modify. Qed.
#[export] Instance blind_map_state f : Blind (modify (fun S : Session X => with_state (f (State S)) S)).
Proof. apply blind_modify. related_modify. Qed.
#[export] Instance blind_counters n k : Blind (on_stages (fun D => set_CleanupCounters (<[n := k]> (CleanupCounters D)) D) : M (Session X) unit).
Proof. apply blind_modify. related_modify. Qed.
#[export] Instance blind_cleanup_event a b : Blind (modify (fun S : Session X =>
  let '(x, p, u) := list_sizes (State S) in with_trace (Trace S ++ [CleanupEvent a b x p u]) S)).
Proof.
  apply blind_modify. intros S T [? E]. intros. rewrite E. destruct (list_sizes _) as [[??]?]. split; cbn; congruence || done.
Qed.
#[export] Instance blind_SessionCleanup Site : Blind (SessionCleanup Site : M (Session X) unit).
Proof. unfold SessionCleanup. solve_blind. Qed.
#[export] Instance blind_LogShowSummary : Blind (LogShowSummary : M (Session X) unit).
Proof. unfold LogShowSummary. solve_blind. Qed.
#[export] Instance blind_LogFinalResults : Blind (LogFinalResults : M (Session X) unit).
Proof. unfold LogFinalResults. solve_blind. Qed.

(** Calls of the engine, over the texts of the session. *)
#[export] Instance blind_check S F Row : BlindAt S (engine_call (Consumer.CheckRatio (Ids S) F Row) : M (Session X) dbl).
Proof.
  intros T H. pose proof (blind_CheckRatio _ F Row _ _ (sr_engine _ _ H)) as [H1 H2]. unfold engine_call.
  destruct (Consumer.CheckRatio _ _ _ (Ext S)), (Consumer.CheckRatio _ _ _ (Ext T)). split; [|exact H2]. destruct H. by split.
Qed.
#[export] Instance blind_compare S F a b :
  BlindAt S (engine_call (Consumer.CompareFunctionRows (Ids S) F a b) : M (Session X) dbl).
Proof.
  intros T H. pose proof (blind_CompareRows _ F a b _ _ (sr_engine _ _ H)) as [H1 H2]. unfold engine_call.
  destruct (Consumer.CompareFunctionRows _ _ _ _ (Ext S)), (Consumer.CompareFunctionRows _ _ _ _ (Ext T)).
  split; [|exact H2]. destruct H. by split.
Qed.
#[export] Instance blind_hook S Row R :
  BlindAt S (engine_call (Consumer.PatchDiffHookOnMatch (Ids S) Row R) : M (Session X) unit).
Proof.
  intros T H. pose proof (blind_OnMatch _ Row R _ _ (sr_engine _ _ H)) as [H1 H2]. unfold engine_call.
  destruct (Consumer.PatchDiffHookOnMatch _ _ _ (Ext S)), (Consumer.PatchDiffHookOnMatch _ _ _ (Ext T)).
  split; [|exact H2]. destruct H. by split.
Qed.
#[export] Instance blind_prepare F : Blind (engine_call (PrepareEngine F) : M (Session X) unit).
Proof.
  intros S T H. pose proof (blind_Prepare _ F _ _ (sr_engine _ _ H)) as [H1 H2]. unfold engine_call.
  destruct (PrepareEngine _ (Ext S)), (PrepareEngine _ (Ext T)). split; [|exact H2]. destruct H. by split.
Qed.
#[export] Instance blind_StagePrepare : Blind (StagePrepare : M (Session X) unit).
Proof. unfold StagePrepare. solve_blind. Qed.

(** ** Checking and adding rows *)

#[export] Instance blind_TraceRow Row D R : Blind (TraceRow Row D R : M (Session X) unit).
Proof. apply blind_modify. related_modify. Qed.
#[export] Instance blind_NameStartsWith n p t : Blind (NameStartsWith n p t : M (Session X) bool).
Proof. intros S T H. split; [done|]. cbn. by rewrite (sr_ids _ _ H). Qed.
#[export] Instance blind_RequirePyIntM Ea t : Blind (RequirePyIntM Ea t : M (Session X) unit).
Proof. intros S T H. split; [done|]. cbn. by rewrite (sr_ids _ _ H). Qed.
#[export] Instance blind_StrOfEa Ea : Blind (StrOfEa Ea : M (Session X) AddrId).
Proof.
  unfold StrOfEa. case_bool_decide; [|apply _]. intros S T [E1]. rewrite E1.
  pose proof (Addr_le (B "None") (Ids S)) as L. destruct (Addr _ _) as [ids a]. split; [|done]. split; cbn; try done.
  by eapply engine_related_le.
Qed.
#[export] Instance blind_IntOfNodes n t : Blind (IntOfNodes n t : M (Session X) Z).
Proof. unfold IntOfNodes. destruct n; apply _. Qed.
#[export] Instance blind_SessionAddMatch N1 N2 R It C : Blind (SessionAddMatch N1 N2 R It C : M (Session X) unit).
Proof.
  intros S T H. unfold SessionAddMatch. rewrite (sr_ids _ _ H), (sr_state _ _ H).
  destruct (AddMatch _ _ _ _ _ _ _) as [[??]|]; [|by split]. split; [|done]. destruct H. by split.
Qed.
#[export] Instance blind_CheckMatchBody Row : Blind (CheckMatchBody Row : M (Session X) (option dbl)).
Proof. unfold CheckMatchBody, AcceptedDecision. solve_blind. Qed.
#[export] Instance blind_CheckMatch Row : Blind (CheckMatch Row : M (Session X) (option dbl)).
Proof.
  intros S T H. pose proof (blind_CheckMatchBody Row S T H) as [H1 H2]. unfold CheckMatch.
  destruct (CheckMatchBody Row S) as [S1 q], (CheckMatchBody Row T) as [T1 q']. cbn in *. subst q'.
  destruct q as [|[]]; try by split. split; [|done]. by apply (blind_TraceRow Row Raised None).
Qed.
#[export] Instance blind_internal_row b p v u Row : Blind (internal_row b p v u Row : M (Session X) unit).
Proof. unfold internal_row. solve_blind. Qed.
#[export] Instance blind_query_row c Row : Blind (query_row c Row : M (Session X) unit).
Proof. unfold query_row. solve_blind. Qed.

(** ** Draining a source *)

(** A source that only adds texts. *)
Class SourceGrows (R : Type) `{!RowSource R} : Prop :=
  source_grows r ids r' ids' a : Next r ids = (r', ids', a) -> ids_le ids ids'.

Section Drained.
Context {R : Type} `{!RowSource R, !SourceGrows R}.
Abbreviation T := (Session X * R)%type.

#[export] Instance blind_on_session {A} (m : M (Session X) A) : Blind m -> Blind (on_session m : M T A).
Proof.
  intros Hm [S r] [S' r'] [H E]. cbn in *. subst r'. pose proof (Hm S S' H) as [H1 H2]. unfold on_session.
  by destruct (m S), (m S').
Qed.
#[export] Instance blind_next_row : Blind (next_row : M T (option HeuristicRow)).
Proof.
  intros [S r] [S' r'] [[E1] E]. cbn in *. subst r'. unfold next_row. rewrite E1.
  destruct (Next r (Ids S)) as [[r1 ids] a] eqn:EN. split; [|done]. split; [|done]. split; cbn; try done.
  eapply engine_related_le; [by eapply source_grows|done].
Qed.
#[export] Instance blind_internal_loop fuel MaxRows I body : (forall Row, Blind (body Row)) ->
  Blind (internal_loop fuel MaxRows I body : M T unit).
Proof. intros Hb. revert I. induction fuel; intros I; cbn [internal_loop]; solve_blind. Qed.
#[export] Instance blind_query_loop fuel body : (forall Row, Blind (body Row)) -> Blind (query_loop fuel body : M T unit).
Proof. intros Hb. induction fuel; cbn [query_loop]; solve_blind. Qed.

Lemma blind_scope F (m : M T unit) : Blind m -> Blind (RoutingScope lens_fst (on_session (push_frame F)) m : M T unit).
Proof.
  intros Hm [S r] [S' r'] [H E]. cbn in *. subst r'. unfold RoutingScope. cbn.
  destruct (Hm (with_frames (Frames S ++ [F]) S, r) (with_frames (Frames S' ++ [F]) S', r)) as [[H1 H2] H3].
  { split; [|done]. destruct H. split; cbn; congruence || done. }
  destruct (m (with_frames (Frames S ++ [F]) S, r)) as [t1 q1], (m (with_frames (Frames S' ++ [F]) S', r)) as [t2 q2].
  split; [|done]. split; [|done]. cbn in H1 |- *. unfold pop_frame. destruct H1. split; cbn; congruence || done.
Qed.
Lemma blind_swallow (m : M T unit) : Blind m -> Blind (swallow m : M T unit).
Proof.
  intros Hm s t H. destruct (Hm s t H) as [H1 H2]. unfold swallow. destruct (m s) as [s1 q], (m t) as [t1 q']. cbn in *. subst q'.
  by destruct q as [|[]].
Qed.
Lemma blind_unless (m : M T unit) : Blind m -> Blind (unless_all_matched m : M T unit).
Proof.
  intros Hm s t H. unfold unless_all_matched. rewrite (sr_state _ _ (proj1 H)). destruct (AllFunctionsMatched _); [by split|by apply Hm].
Qed.
Lemma blind_impl b p v u : Blind (AddMatchesInternalImpl b p v u : M T unit).
Proof.
  apply blind_scope. apply (blind_reading (fun t : T => internal_loop (Datatypes.S (Z.to_nat (MaxProcessedRows t.1)))
    (MaxProcessedRows t.1) 0 (internal_row b p v u))); [|apply _].
  intros s t H. unfold MaxProcessedRows. by rewrite (sr_config _ _ (proj1 H)).
Qed.
#[export] Instance blind_internal b p v : Blind (AddMatchesInternal b p v : M T unit).
Proof. apply blind_impl. Qed.
#[export] Instance blind_ratio b p : Blind (AddMatchesFromQueryRatio b p : M T unit).
Proof. apply blind_unless, blind_impl. Qed.
#[export] Instance blind_ratio_max b p v : Blind (AddMatchesFromQueryRatioMax b p v : M T unit).
Proof. apply blind_unless, blind_impl. Qed.
#[export] Instance blind_trusted v : Blind (AddMatchesFromQueryRatioMaxTrusted v : M T unit).
Proof. apply blind_unless, blind_impl. Qed.
#[export] Instance blind_query c : Blind (AddMatchesFromQuery c : M T unit).
Proof.
  apply (blind_unless (RoutingScope lens_fst (on_session (push_frame (MkFrame FromQuery None None false)))
           (swallow (fun t => query_loop (Datatypes.S (Remaining t.2)) (query_row c) t)))).
  apply blind_scope, blind_swallow. apply (blind_reading (fun t : T => query_loop (Datatypes.S (Remaining t.2)) (query_row c))); [|apply _].
  intros s t [_ E]. by rewrite E.
Qed.
#[export] Instance blind_with_source {A} (r : R) (m : M T A) : Blind m -> Blind (with_source r m : M (Session X) A).
Proof.
  intros Hm S S' H. destruct (Hm (S, r) (S', r)) as [[H1 H2] H3]; [by split|]. unfold with_source.
  destruct (m (S, r)) as [[S1 r1] q1], (m (S', r)) as [[S2 r2] q2]. by split.
Qed.
End Drained.
End Session.

#[export] Instance sql_source_grows `{!Sqlite} Tables : SourceGrows SqlRowSource (RowSource0 := SqlRowSource_source Tables).
Proof.
  intros r ids r' ids' a. cbn. unfold sql_next. destruct (Started r) as [[]|]; [apply next_started_le|].
  destruct (Start _ _) as [[]|]; [apply next_started_le|by intros [= <- <- <-]].
Qed.
#[export] Instance cu_source_grows Tables : SourceGrows CuReplaySource (RowSource0 := CuReplaySource_source Tables).
Proof. intros r ids r' ids' a. cbn. unfold cu_next. repeat case_match; by intros [= <- <- <-]. Qed.

(** ** The stages *)

Section Stages.
Context {X : Type} `{!Engine X, !HookReset X, !EngineSetup X, !EngineRelation X, !EngineBlind X} {Connection : Sqlite}.
Context (Tables : sided FunctionTable).

#[local] Instance blind_source : RowSource SqlRowSource := SqlRowSource_source Tables.
#[local] Instance blind_source_grows : SourceGrows SqlRowSource := sql_source_grows Tables.
#[local] Instance blind_cu_source : RowSource CuReplaySource := CuReplaySource_source Tables.
#[local] Instance blind_cu_grows : SourceGrows CuReplaySource := cu_source_grows Tables.

(** *** The passes before the heuristics *)

#[export] Instance blind_rows_loop {T A} `{!Related T} (read : list Column -> M T A) l e o :
  (forall Row, Blind (read Row)) -> Blind (rows_loop read l e o).
Proof. intros Hr. revert o. induction l; intros o; cbn [rows_loop]; solve_blind. Qed.
#[export] Instance blind_read_rows {T A} `{!Related T} c (read : list Column -> M T A) :
  (forall Row, Blind (read Row)) -> Blind (read_rows c read).
Proof. intros Hr. unfold read_rows. apply _. Qed.
#[export] Instance blind_read_total Row : Blind (read_total Row : M (Session X) Z).
Proof. unfold read_total. solve_blind. Qed.
#[export] Instance blind_equal_match d Row : Blind (equal_match d Row : M (Session X) unit).
Proof. unfold equal_match. solve_blind. Qed.
#[export] Instance blind_EqualMatches : Blind (StageFindEqualMatches : M (Session X) unit).
Proof. unfold StageFindEqualMatches. solve_blind. Qed.
#[export] Instance blind_reset_hook : Blind (modify (fun S : Session X => with_ext (ClearDones (Ext S)) S)).
Proof. apply blind_modify. intros S T []. split; cbn; try done. by apply blind_ClearDones. Qed.
#[export] Instance blind_clear_cache : Blind (modify (fun S : Session X => with_ext (ClearEngineCache (Ext S)) S)).
Proof. apply blind_modify. intros S T []. split; cbn; try done. by apply blind_ClearCache. Qed.
#[export] Instance blind_Stripped : Blind (SearchJustStrippedBinaries Tables : M (Session X) bool).
Proof. unfold SearchJustStrippedBinaries. solve_blind. Qed.
#[export] Instance blind_Patch : Blind (SearchPatchdiffWithSymbols : M (Session X) bool).
Proof. unfold SearchPatchdiffWithSymbols. solve_blind. Qed.
#[export] Instance blind_Dirty : Blind (StageApplyDirtyHeuristics Tables : M (Session X) bool).
Proof. unfold StageApplyDirtyHeuristics. solve_blind. Qed.
#[export] Instance blind_same_name_rows fuel Rows :
  Blind (same_name_rows Tables fuel Rows : M (Session X * SqlRowSource) (list SameNameRow)).
Proof. revert Rows. induction fuel; intros Rows; cbn [same_name_rows]; solve_blind. Qed.
#[export] Instance blind_same_name_match E : Blind (same_name_match E : M (Session X) unit).
Proof. unfold same_name_match. solve_blind. Qed.
#[export] Instance blind_SameName : Blind (StageFindSameName Tables : M (Session X) unit).
Proof.
  unfold StageFindSameName. apply blind_bind; [|solve_blind]. apply blind_with_source.
  apply (blind_reading (fun t : Session X * SqlRowSource => same_name_rows Tables (Datatypes.S (Remaining t.2)) [])); [|apply _].
  intros s t [_ E]. by rewrite E.
Qed.
#[export] Instance blind_GetUnmatched : Blind (GetUnmatchedFunctions : M (Session X) _).
Proof. unfold GetUnmatchedFunctions. solve_blind. Qed.
#[export] Instance blind_remaining_pair h m d : Blind (remaining_pair Tables h m d : M (Session X) unit).
Proof. unfold remaining_pair. solve_blind. Qed.
#[export] Instance blind_SearchRemaining m d h : Blind (SearchRemainingFunctions Tables m d h : M (Session X) unit).
Proof. unfold SearchRemainingFunctions. solve_blind. Qed.
#[export] Instance blind_Remaining : Blind (StageFindRemainingFunctions Tables : M (Session X) unit).
Proof. unfold StageFindRemainingFunctions. solve_blind. Qed.

(** *** The heuristics *)

#[export] Instance blind_Runnable Cat : Blind (RunnableHeuristics Cat : M (Session X) (list Z)).
Proof. unfold RunnableHeuristics. solve_blind. Qed.
#[export] Instance blind_run_heuristic Spec : Blind (run_heuristic Tables Spec : M (Session X) unit).
Proof. unfold run_heuristic. destruct (ChoosersFor _). solve_blind. Qed.
#[export] Instance blind_truncated Id m : Blind m -> Blind (truncated Id m : M (Session X) unit).
Proof.
  intros Hm S T H. destruct (Hm S T H) as [H1 H2]. unfold truncated. destruct (m S) as [S1 q], (m T) as [T1 q']. cbn in *. subst q'.
  destruct q as [|[]]; try by split. split; [|done]. destruct H1. by split.
Qed.
#[export] Instance blind_RunSingle Id : Blind (StageRunSingleHeuristic Tables Id : M (Session X) unit).
Proof. unfold StageRunSingleHeuristic. solve_blind. Qed.
#[export] Instance blind_heuristic_step Id : Blind (heuristic_step Tables Id : M (Session X) unit).
Proof. unfold heuristic_step. solve_blind. Qed.
#[export] Instance blind_Category Cat : Blind (StageRunHeuristicsForCategory Tables Cat : M (Session X) unit).
Proof. unfold StageRunHeuristicsForCategory. solve_blind. Qed.
#[export] Instance blind_PartialCategory : Blind (StageFindPartialMatchesCategory Tables : M (Session X) unit).
Proof. apply _. Qed.

Abbreviation Drain := (Session X * SqlRowSource)%type.
#[export] Instance blind_FetchSmall : Blind (FetchSmall Tables : M Drain _).
Proof. unfold FetchSmall. solve_blind. Qed.
#[export] Instance blind_fill_batch n Rows : Blind (fill_batch Tables n Rows : M Drain _).
Proof. revert Rows. induction n; intros Rows; cbn [fill_batch]; solve_blind. Qed.
#[export] Instance blind_look_ahead Rows : Blind (look_ahead Tables Rows : M Drain _).
Proof.
  intros s t H. destruct (blind_FetchSmall s t H) as [H1 H2]. unfold look_ahead.
  destruct (FetchSmall Tables s) as [s1 q], (FetchSmall Tables t) as [t1 q']. cbn in *. subst q'.
  destruct q as [[Row|]|[]]; try by split. by case_bool_decide.
Qed.
#[export] Instance blind_Fill I : Blind (Fill Tables I : M Drain _).
Proof. unfold Fill. solve_blind. Qed.
#[export] Instance blind_IterNext I : Blind (IterNext Tables I : M Drain _).
Proof. unfold IterNext. solve_blind. Qed.
#[export] Instance blind_small_match Row : Blind (small_match Row : M (Session X) unit).
Proof. unfold small_match. solve_blind. Qed.
#[export] Instance blind_small_loop fuel I : Blind (small_loop Tables fuel I : M Drain unit).
Proof. revert I. induction fuel; intros I; cbn [small_loop]; solve_blind. Qed.
#[export] Instance blind_Small : Blind (StageSearchSmallDifferences Tables : M (Session X) unit).
Proof.
  apply blind_with_source. apply (blind_reading (fun t : Drain => small_loop Tables (Datatypes.S (Remaining t.2)) NewResultIter)); [|apply _].
  intros s t [_ E]. by rewrite E.
Qed.
#[export] Instance blind_PartialSmall : Blind (StageFindPartialMatchesSmallDifferences Tables : M (Session X) unit).
Proof. unfold StageFindPartialMatchesSmallDifferences. solve_blind. Qed.

(** *** The stages of the loop *)

#[export] Instance blind_GetFunctionRow r w n : Blind (GetFunctionRow Tables r w n : M (Session X) (option Z)).
Proof. unfold GetFunctionRow. solve_blind. Qed.
#[export] Instance blind_related_constant t : Blind (related_constant Tables t : M (Session X) unit).
Proof. unfold related_constant. solve_blind. Qed.
#[export] Instance blind_FindRelatedConstants m d : Blind (FindRelatedConstants Tables m d : M (Session X) unit).
Proof. unfold FindRelatedConstants. solve_blind. Qed.
#[export] Instance blind_related_loop l Dones : Blind (related_loop Tables l Dones : M (Session X) (gset text)).
Proof. revert Dones. induction l; intros Dones; cbn [related_loop]; solve_blind. Qed.
#[export] Instance blind_RelatedMatches : Blind (StageFindRelatedMatches Tables : M (Session X) unit).
Proof. unfold StageFindRelatedMatches. solve_blind. Qed.
#[export] Instance blind_drain_units b x1 x2 x3 x4 : Blind (drain_units Tables b x1 x2 x3 x4 : M (Session X) unit).
Proof. unfold drain_units. solve_blind. Qed.
#[export] Instance blind_cu_loop b l : Blind (cu_loop Tables b l : M (Session X) unit).
Proof. induction l; cbn [cu_loop]; solve_blind. Qed.
#[export] Instance blind_Cu b : Blind (StageFindRelatedCompilationUnit Tables b : M (Session X) unit).
Proof. unfold StageFindRelatedCompilationUnit. solve_blind. Qed.
#[export] Instance blind_GapRows w a b : Blind (GapRows Tables w a b : M (Session X) (list nat)).
Proof. unfold GapRows. solve_blind. Qed.
#[export] Instance blind_CallOnMatchHook a b R : Blind (CallOnMatchHook Tables a b R : M (Session X) dbl).
Proof. unfold CallOnMatchHook. solve_blind. Qed.
#[export] Instance blind_gap_pair d a b s : Blind (gap_pair Tables d a b s : M (Session X) GapScores).
Proof. unfold gap_pair. solve_blind. Qed.
#[export] Instance blind_FindBetween a b c d : Blind (FindFunctionsBetween Tables a b c d : M (Session X) unit).
Proof. unfold FindFunctionsBetween. solve_blind. Qed.
#[export] Instance blind_gap_loop p l : Blind (gap_loop Tables p l : M (Session X) unit).
Proof. revert p. induction l; intros p; cbn [gap_loop]; apply _. Qed.
#[export] Instance blind_Affine : Blind (StageFindLocallyAffineFunctions Tables : M (Session X) unit).
Proof. unfold StageFindLocallyAffineFunctions. solve_blind. Qed.
#[export] Instance blind_callee_hook h m d a b R : Blind (callee_hook Tables h m d a b R : M (Session X) unit).
Proof. unfold callee_hook. solve_blind. Qed.
#[export] Instance blind_compare_candidate a b h i m d n1 n2 : Blind (compare_candidate Tables a b h i m d n1 n2 : M (Session X) unit).
Proof. unfold compare_candidate. solve_blind. Qed.
#[export] Instance blind_candidate_rows a b h i L0 L1 : Blind (candidate_rows Tables a b h i L0 L1 : M (Session X) unit).
Proof. unfold candidate_rows. solve_blind. Qed.
#[export] Instance blind_ProcessCandidate a b h i : Blind (ProcessCandidate Tables a b h i : M (Session X) unit).
Proof. unfold ProcessCandidate. solve_blind. Qed.
#[export] Instance blind_candidate_step h i p d : Blind (candidate_step Tables h i p d : M (Session X) (gset text)).
Proof. unfold candidate_step. solve_blind. Qed.
#[export] Instance blind_OneMatch m d w h i Dn : Blind (FindOneMatchDiffing Tables m d w h i Dn : M (Session X) (gset text)).
Proof. unfold FindOneMatchDiffing. solve_blind. Qed.
#[export] Instance blind_match_step h w i It Dn : Blind (match_step Tables h w i It Dn : M (Session X) (gset text)).
Proof. unfold match_step. solve_blind. Qed.
#[export] Instance blind_walk h w i k Dn : Blind (walk_category Tables h w i k Dn : M (Session X) (gset text)).
Proof. unfold walk_category. solve_blind. Qed.
#[export] Instance blind_diffing_rounds n h w i Dn : Blind (diffing_rounds Tables n h w i Dn : M (Session X) unit).
Proof. revert i Dn. induction n; intros i Dn; cbn [diffing_rounds]; solve_blind. Qed.
#[export] Instance blind_DiffingInternal h w : Blind (FindMatchesDiffingInternal Tables h w : M (Session X) unit).
Proof. apply blind_diffing_rounds. Qed.
#[export] Instance blind_MatchesDiffing : Blind (StageFindMatchesDiffing Tables : M (Session X) unit).
Proof. unfold StageFindMatchesDiffing. solve_blind. Qed.
#[export] Instance blind_LoopStage Name i m : Blind m -> Blind (LoopStage Name i m : M (Session X) unit).
Proof. intros Hm. unfold LoopStage. solve_blind. Qed.
#[export] Instance blind_TotalNow : Blind (TotalNow : M (Session X) Z).
Proof. unfold TotalNow. solve_blind. Qed.
End Stages.

(** ** The pipeline *)

Section Pipeline.
Context {X : Type} `{!Engine X, !HookReset X, !EngineSetup X, !EngineRelation X, !EngineBlind X} {Connection : Sqlite}.
Context (Tables : sided FunctionTable) (Problems : list text) (CuNative : bool).

#[export] Instance blind_fill_choosers : Blind (fill_choosers : M (Session X) unit).
Proof.
  intros S T H. unfold fill_choosers. rewrite (sr_ids _ _ H), (sr_state _ _ H), (sr_final _ _ H).
  destruct (distribute _ _ _) as [F r]. split; [|done]. destruct H. by split.
Qed.
#[export] Instance blind_SessionFinalPass : Blind (SessionFinalPass : M (Session X) unit).
Proof. unfold SessionFinalPass. solve_blind. Qed.
#[export] Instance blind_SessionFindUnmatched : Blind (SessionFindUnmatched : M (Session X) unit).
Proof.
  intros S T H. unfold SessionFindUnmatched. rewrite (sr_ids _ _ H), (sr_state _ _ H), (sr_final _ _ H).
  destruct (StageFindUnmatched _ _) as [U r] eqn:E. split; [|done]. apply extends_StageFindUnmatched in E.
  destruct H. split; cbn; try done. by eapply engine_related_le.
Qed.
#[export] Instance blind_RequireIngest : Blind (RequireIngest Problems : M (Session X) unit).
Proof. unfold RequireIngest. solve_blind. Qed.
#[export] Instance blind_preflight : Blind (preflight Problems : M (Session X) bool).
Proof. unfold preflight. solve_blind. Qed.
#[export] Instance blind_dirty_step : Blind (dirty_step Tables : M (Session X) bool).
Proof. unfold dirty_step. solve_blind. Qed.
#[export] Instance blind_pointed Name m : Blind m -> Blind (pointed Name m : M (Session X) unit).
Proof. intros Hm. unfold pointed. solve_blind. Qed.

#[export] Instance blind_on_run {A} (m : M (Session X) A) : Blind m -> Blind (on_run m).
Proof.
  intros Hm [S p sv] [S' p' sv'] (H & E & HF). cbn in *. subst p'. destruct (Hm S S' H). unfold on_run. cbn.
  by destruct (m S), (m S').
Qed.
#[export] Instance blind_position f : Blind (on_position f : M (Run X) unit).
Proof. apply blind_modify. intros [] [] (H & E & HF). cbn in *. subst. by split. Qed.
#[export] Instance blind_SaveStep s : Blind (SaveStep s : M (Run X) unit).
Proof.
  unfold SaveStep. apply blind_bind; [apply _|]. intros _. apply blind_modify. intros [] [] (H & E & HF). cbn in *. split_and!; [done..|].
  apply Forall2_app; [done|]. by apply Forall2_cons; split; [|apply Forall2_nil].
Qed.
#[export] Instance blind_saved_step s m : Blind m -> Blind (saved_step s m : M (Run X) unit).
Proof. intros Hm. unfold saved_step. solve_blind. Qed.
#[export] Instance blind_when b m : Blind m -> Blind (when b m : M (Run X) unit).
Proof. unfold when. destruct b; [done|]. intros. apply _. Qed.
#[export] Instance blind_loop_head : Blind (loop_head : M (Run X) Z).
Proof. unfold loop_head. solve_blind. Qed.
#[export] Instance blind_loop_stages i d : Blind (loop_stages Tables CuNative i d : M (Run X) unit).
Proof. unfold loop_stages. solve_blind. Qed.
#[export] Instance blind_loop_round i d Old : Blind (loop_round Tables CuNative i d Old : M (Run X) bool).
Proof. unfold loop_round. solve_blind. Qed.
#[export] Instance blind_convergence n i d Old : Blind (convergence Tables CuNative n i d Old : M (Run X) bool).
Proof. revert i d Old. induction n; intros i d Old; cbn [convergence]; solve_blind. Qed.
#[export] Instance blind_heuristic_passes d : Blind (heuristic_passes Tables d : M (Run X) unit).
Proof. unfold heuristic_passes. solve_blind. Qed.
#[export] Instance blind_last_passes d : Blind (last_passes d : M (Run X) unit).
Proof. unfold last_passes. solve_blind. Qed.
#[export] Instance blind_finish d b : Blind (finish d b : M (Run X) (option bool)).
Proof. unfold finish. solve_blind. Qed.
#[export] Instance blind_middle_passes n R d b : Blind (middle_passes Tables CuNative n R d b : M (Run X) bool).
Proof. unfold middle_passes. solve_blind. Qed.
#[export] Instance blind_main_passes n R d b : Blind (main_passes Tables CuNative n R d b : M (Run X) (option bool)).
Proof. unfold main_passes. solve_blind. Qed.
#[export] Instance blind_dirty_passes d : Blind (dirty_passes Tables d : M (Run X) bool).
Proof. unfold dirty_passes. solve_blind. Qed.
#[export] Instance blind_first_passes R : Blind (first_passes Problems R : M (Run X) bool).
Proof. unfold first_passes. solve_blind. Qed.
#[export] Instance blind_RunPipeline n R : Blind (RunPipeline Tables Problems CuNative n R : M (Run X) (option bool)).
Proof. unfold RunPipeline. solve_blind. Qed.

(** ** Resuming from a related session *)

Abbreviation FullRun := (RunPipeline Tables Problems CuNative).
Abbreviation MainAt n c := (main_passes Tables CuNative n (Some c) (step_done (Some c)) (SkipOthers c)).

Lemma dirty_prepares S S1 Skip : dirty_step Tables S = (S1, Ok Skip) -> exists S0 S0', StagePrepare (X := X) S0 = (S0', Ok tt).
Proof.
  unfold dirty_step. intros E. apply bind_inv in E as (S2 & Same_ & _ & E). apply bind_inv in E as (S3 & [] & _ & E).
  apply bind_inv in E as (S4 & [] & E4 & _). by exists S3, S4.
Qed.

(** What is left to do at a checkpoint after the dirty heuristics. *)
Lemma rest_at_checkpoint n S p S1 p1 q c T : outcome (rest Tables CuNative n None) S p = (S1, p1, q) -> q <> Ok None ->
  (c, T) ∈ saves (rest Tables CuNative n None) S p ->
  step_done (Some c) DirtyHeuristics = true /\ outcome (MainAt n c) T c = (S1, p1, q) /\
  exists S0 S0', StagePrepare (X := X) S0 = (S0', Ok tt).
Proof.
  unfold rest. intros E Hq H. rewrite outcome_then, dirty_outcome in E by first [apply _|done].
  apply elem_saves_bind in H as [H|(S2 & p2 & Skip & E2 & H)]; [| |apply _].
  - rewrite dirty_saves in H by done. destruct (dirty_step Tables S) as [S2 [Skip|e]] eqn:ED; [|by apply elem_of_nil in H].
    apply list_elem_of_singleton in H. injection H as -> ->. split; [done|]. split; [|by eapply dirty_prepares].
    by rewrite (tl_early _ _ (main_tail Tables CuNative n Skip)).
  - rewrite dirty_outcome in E2 by done. destruct (dirty_step Tables S) as [S3 [Skip'|e]] eqn:ED; [|done]. injection E2 as -> <- ->.
    destruct (tl_saves _ _ (main_tail Tables CuNative n Skip) _ _ _ _ _ _ _ E Hq H) as (H1 & H2 & H3).
    split; [apply step_done_late; cbn; lia|]. split; [by rewrite H2|by eapply dirty_prepares].
Qed.

(** An outcome, and one from a related session. *)
Lemma blind_outcome {A} (m : M (Run X) A) S T p S1 p1 q : Blind m -> session_related S T -> outcome m S p = (S1, p1, q) ->
  exists T1, outcome m T p = (T1, p1, q) /\ session_related S1 T1.
Proof.
  intros Hm H. unfold outcome. destruct (Hm (MkRun S p []) (MkRun T p [])) as [(H1 & H2 & _) H3]; [split_and!; [done|done|by apply Forall2_nil]|].
  destruct (m (MkRun S p [])) as [[Sa pa sa] qa], (m (MkRun T p [])) as [[Sb pb sb] qb]. cbn in *. subst qb pb.
  intros [= <- <- <-]. by exists Sb.
Qed.

(** The sessions a run from a session related to itself saves are. *)
Lemma saved_related {A} (m : M (Run X) A) S p c T : Blind m -> session_related S S -> (c, T) ∈ Saved (m (MkRun S p [])).1 ->
  session_related T T.
Proof.
  intros Hm H Hs. destruct (Hm (MkRun S p []) (MkRun S p [])) as [(_ & _ & HF) _]; [split_and!; [done|done|by apply Forall2_nil]|].
  apply list_elem_of_lookup in Hs as [i Hi]. by destruct (Forall2_lookup_lr _ _ _ _ _ _ HF Hi Hi).
Qed.

Lemma prepared_related S0 S0' (T T' : Session X) : StagePrepare S0 = (S0', Ok tt) -> session_related T T' ->
  exists T1, StagePrepare T' = (T1, Ok tt) /\ session_related T T1.
Proof.
  intros E H. unfold StagePrepare, engine_call, mbind, M_bind, get in *.
  destruct (PrepareEngine (Flags S0) (Ext S0)) as [x0 r0] eqn:E0. injection E as <- ->.
  destruct (prepared_again (Ids T) _ (Flags T') _ _ _ _ E0 (sr_engine _ _ H)) as [H1 H2].
  destruct (PrepareEngine (Flags T') (Ext T')) as [x' r']. cbn in *. subst r'. eexists. split; [done|].
  destruct H. by split.
Qed.

(** Every checkpoint resumes its run, whatever the engine has cached or prepared:
    when a whole run that the rounds sufficed for offered the checkpoint [c] with the
    session [T], and [T'] agrees with [T] on all that a stage reads, with an engine
    its calls do not tell apart from that of [T], then [RunPipeline] started at [c]
    from [T'] ends with the same result, be it an exception, the same cursor, and a
    session that agrees with that of the whole run in the same way. *)
Theorem checkpoint_resumes n S p r q c T T' p' :
  FullRun n None (MkRun S p []) = (r, q) -> q <> Ok None -> (c, T) ∈ Saved r -> session_related T T' ->
  exists r', FullRun n (Some c) (MkRun T' p' []) = (r', q) /\
    session_related (RunSession r) (RunSession r') /\ Position r' = Position r.
Proof.
  intros E Hq H HT.
  assert (outcome (FullRun n None) S p = (RunSession r, Position r, q)) as Eo by (unfold outcome; by rewrite E).
  assert ((c, T) ∈ saves (FullRun n None) S p) as Hs by (unfold saves; by rewrite E). clear E H.
  enough (exists T1, outcome (FullRun n (Some c)) T' p' = (T1, Position r, q) /\ session_related (RunSession r) T1)
    as (T1 & Ea & HR).
  { unfold outcome in Ea. destruct (FullRun n (Some c) _) as [[S2 p2 sv] q2]. injection Ea as -> -> ->. by eexists. }
  rewrite full_outcome, outcome_then, first_outcome in Eo by apply _. rewrite full_saves in Hs.
  apply elem_saves_bind in Hs as [H|(S2 & p2 & V & E2 & H)]; [| |apply _].
  - rewrite first_saves in H. destruct (preflight Problems S) as [S2 [[]|e]] eqn:E; [|by apply elem_of_nil in H..].
    apply list_elem_of_singleton in H. injection H as -> ->. rewrite again_outcome by (by eapply preflight_ingest).
    assert (outcome (rest Tables CuNative n (Some (set_Done EqualMatches StartCursor))) S2 (set_Done EqualMatches StartCursor)
      = (RunSession r, Position r, q)) as Er.
    { rewrite <- Eo. cbn [valid_part negb]. unfold rest. rewrite !outcome_then, !dirty_outcome by first [apply _|done].
      destruct (dirty_step Tables S2) as [S3 [Skip|e]]; [|done]. by rewrite (tl_early _ _ (main_tail Tables CuNative n Skip)). }
    eapply blind_outcome; [|exact HT|exact Er]. unfold rest. solve_blind.
  - rewrite first_outcome in E2. destruct (preflight Problems S) as [S3 [V'|e]] eqn:E; [|done]. injection E2 as -> <- ->.
    destruct V; [|by apply elem_of_nil in H]. cbn [valid_part negb] in *.
    destruct (rest_at_checkpoint _ _ _ _ _ _ _ _ Eo Hq H) as (Hd & Em & S0 & S0' & EP).
    rewrite again_outcome by (by eapply preflight_ingest).
    destruct (prepared_related _ _ _ _ EP HT) as (T2 & EP2 & HT2).
    unfold rest. rewrite outcome_then by apply _.
    assert (outcome (dirty_passes Tables (step_done (Some c))) T' c = (T2, c, Ok (SkipOthers c))) as ->.
    { unfold dirty_passes. rewrite Hd. cbn [negb]. by rewrite (outcome_run _ _ _ _ _ _ EP2). }
    eapply blind_outcome; [apply _|exact HT2|exact Em].
Qed.
End Pipeline.
