(* ===== verification/EngineSpec.v ===== *)
(** * The engine of the program keeps what the pipeline asks of it

    [Pipeline] runs over an interface: an engine that gives ratios, a hook, and
    their preparation. Here the ratio engine with the patch-diff hook discharges it:
    its state stays well formed over every table of texts to come, its ratios lie
    between 0 and 1, and no call tells apart two engines that hold the same cache and
    the same pairs of the hook, whatever they have prepared or computed lazily. So
    the theorems of the pipeline hold of the program. *)

From Stdlib Require Import ZArith Lia.
From stdpp Require Import base option numbers list gmap sets.
From S2P Require Import Prelude Dbl Decimal Interner Utf8 TextDiff MatchState MatchStateSpec Snapshot FinalPass Unmatched.
From S2P Require Import SessionData PatchDiffHook Consumer ConsumerLoops SideTables FunctionTable.
From S2P Require Import PreparedText PreparedTextSpec Ingest IngestSpec RatioEngine RatioCache RatioSpec RatioHistory.
From S2P Require Import StageSql Sql EarlyStages TierStages LoopStages Preflight Pipeline.
From S2P Require Import SessionSpec SourcesSpec StagesSpec PipelineSpec ResumeSpec BlindSpec.

Section Engine.
Context (Tables : sided FunctionTable).

(** ** Engines that hold the same cache *)

(** A remembered answer is the answer. *)
Definition memo_right (ids : Interners) (s : Impl) : Prop :=
  forall i b, SimpleById s !! i = Some (Some b) -> exists t, AddrText (N.of_nat i) ids = Ok t /\ simple_text t = b.

(** The prepared columns of the two tables, with slots that hold nothing wrong. *)
Record prepared_here (s : Impl) : Prop := {
  ph_main : PreparedMain s = Count (main_of Tables);
  ph_diff : PreparedDiff s = Count (diff_of Tables);
  ph_pseudo : PrepareColumn (columns Tables CleanPseudo) = Ok (PseudoColumn s);
  ph_assembly : PrepareColumn (columns Tables CleanAssembly) = Ok (AssemblyColumn s);
  ph_microcode : PrepareColumn (columns Tables CleanMicrocode) = Ok (MicrocodeColumn s);
  ph_md : slots_ok Tables (md_slot Tables) (MdPy s);
  ph_consts : slots_ok Tables (const_slot Tables) (Consts s);
}.

Record one_ready (needs : bool) (ids : Interners) (s : Impl) : Prop := {
  or_memo : memo_right ids s;
  or_ready : Prepared s = true -> prepared_here s;
  or_needs : needs = true -> Prepared s = true;
}.

Record impl_related (needs : bool) (ids : Interners) (s t : Impl) : Prop := MkImplRelated {
  ir_id : ById t = ById s;
  ir_text : ByText t = ByText s;
  ir_entries : Entries t = Entries s;
  ir_left : one_ready needs ids s;
  ir_right : one_ready needs ids t;
}.

Lemma memo_right_mono a b s : ids_le a b -> memo_right a s -> memo_right b s.
Proof. intros Hle Hm i x Hi. destruct (Hm i x Hi) as (t & Ht & E). exists t. split; [by eapply AddrText_mono|done]. Qed.
Lemma one_ready_mono needs a b s : ids_le a b -> one_ready needs a s -> one_ready needs b s.
Proof. intros Hle []. split; [by eapply memo_right_mono|done|done]. Qed.
Lemma impl_related_mono needs a b s t : ids_le a b -> impl_related needs a s t -> impl_related needs b s t.
Proof. intros Hle []. split; try done; by eapply one_ready_mono. Qed.

Lemma one_ready_weaken needs ids s : one_ready true ids s -> one_ready needs ids s.
Proof. intros []. split; auto. Qed.
Lemma impl_related_weaken needs ids s t : impl_related true ids s t -> impl_related needs ids s t.
Proof. intros []. split; try done; by apply one_ready_weaken. Qed.

Section Calls.
Context (ids : Interners) (IsSameProcessor : bool).

(** [m] gives related engines the same answer, and leaves them related. *)
#[local] Instance Impl_related needs : Related Impl := impl_related needs ids.
Abbreviation Agrees needs m := (Blind (Related0 := Impl_related needs) m).

(** *** The memo of simple addresses *)

Lemma SimpleAddr_run Id s : memo_right ids s -> exists l,
  SimpleAddr ids Id s = (with_simple l s,
    if bool_decide (Id = kNoneAddr) then Ok false else t ← AddrText Id ids; Ok (simple_text t)) /\
  memo_right ids (with_simple l s).
Proof.
  intros Hm. unfold SimpleAddr. case_bool_decide as H0; [exists (SimpleById s); split; [by destruct s|done]|].
  set (Index := N.to_nat Id). unfold modify, get, liftR. unfold mbind at 1, M_bind at 1. cbv beta iota zeta.
  set (l := if (length (SimpleById s) <=? Index)%nat
            then SimpleById s ++ replicate (Index + 1024 - length (SimpleById s)) None else SimpleById s).
  assert ((if (length (SimpleById s) <=? Index)%nat then with_simple (SimpleById s ++
    replicate (Index + 1024 - length (SimpleById s)) None) s else s) = with_simple l s) as ->
    by (unfold l; destruct (_ <=? _)%nat; by destruct s).
  assert (Index < length l) as Hlt.
  { unfold l. destruct (Nat.leb_spec (length (SimpleById s)) Index); [rewrite length_app, length_replicate|]; lia. }
  assert (memo_right ids (with_simple l s)) as Hl.
  { intros i b Hi. cbn in Hi. unfold l in Hi. destruct (_ <=? _)%nat; [|by apply Hm]. rewrite lookup_app in Hi.
    destruct (SimpleById s !! i) as [x|] eqn:Ex; [injection Hi as ->; by apply Hm|]. by apply lookup_replicate in Hi as [? _]. }
  clearbody l. destruct (lookup_lt_is_Some_2 _ _ Hlt) as [slot Hslot].
  unfold mbind, M_bind, at_row. cbn [SimpleById with_simple]. rewrite Hslot. cbv beta iota.
  destruct slot as [b|].
  - destruct (Hl Index b Hslot) as (t & Ht & Eb). unfold Index in Ht. rewrite N2Nat.id in Ht. exists l. split; [|done].
    cbn. by rewrite Ht, <- Eb.
  - destruct (AddrText Id ids) as [t|e] eqn:Et; [|by exists l]. exists (<[Index := Some (simple_text t)]> l). split; [done|].
    intros i b Hi. cbn in Hi. apply list_lookup_insert_Some in Hi as [(<- & [= <-] & _)|[_ Hi]]; [|by apply Hl].
    exists t. unfold Index. by rewrite N2Nat.id.
Qed.

Lemma one_ready_simple needs l s : memo_right ids (with_simple l s) -> one_ready needs ids s -> one_ready needs ids (with_simple l s).
Proof. intros Hm [_ H2 H3]. split; [done| |done]. intros HP. destruct (H2 HP). by split. Qed.

#[local] Instance agrees_SimpleAddr needs Id : Agrees needs (SimpleAddr ids Id).
Proof.
  intros s t []. destruct (SimpleAddr_run Id s) as (l & -> & Hl); [by eapply or_memo|].
  destruct (SimpleAddr_run Id t) as (k & -> & Hk); [by eapply or_memo|]. split; [|done]. split; try done; by apply one_ready_simple.
Qed.

(** *** Preparation *)

Definition prepared_columns : res (PreparedColumn * PreparedColumn * PreparedColumn) :=
  a ← PrepareColumn (columns Tables CleanPseudo);
  b ← PrepareColumn (columns Tables CleanAssembly);
  c ← PrepareColumn (columns Tables CleanMicrocode);
  Ok (a, b, c).

Definition filled (Columns : PreparedColumn * PreparedColumn * PreparedColumn) (s : Impl) : Impl :=
  let '(a, b, c) := Columns in
  let Main := Count (main_of Tables) in
  let Diff := Count (diff_of Tables) in
  MkImpl (ById s) (ByText s) (Entries s) true Main Diff a b c
    (MkSided (replicate Main NotComputed) (replicate Diff NotComputed))
    (MkSided (replicate Main NotComputed) (replicate Diff NotComputed)) (SimpleById s).

Lemma PrepareAll_run s : PrepareAll Tables s =
  match prepared_columns with Ok Columns => (filled Columns s, Ok tt) | Throw e => (s, Throw e) end.
Proof.
  unfold PrepareAll, prepared_columns, mbind, M_bind, res_bind, liftR, modify, filled.
  destruct (PrepareColumn (columns Tables CleanPseudo)); [|done]. destruct (PrepareColumn (columns Tables CleanAssembly)); [|done].
  by destruct (PrepareColumn (columns Tables CleanMicrocode)).
Qed.

Lemma filled_here Columns s : prepared_columns = Ok Columns -> prepared_here (filled Columns s).
Proof.
  unfold prepared_columns, mbind, res_bind. destruct (PrepareColumn (columns Tables CleanPseudo)) eqn:E1; [|done].
  destruct (PrepareColumn (columns Tables CleanAssembly)) eqn:E2; [|done].
  destruct (PrepareColumn (columns Tables CleanMicrocode)) eqn:E3; [|done]. intros [= <-].
  split; try done; apply slots_ok_fresh.
Qed.

Lemma here_columns s : prepared_here s -> (exists Columns, prepared_columns = Ok Columns).
Proof. intros []. unfold prepared_columns, mbind, res_bind. rewrite ph_pseudo0, ph_assembly0, ph_microcode0. by eexists. Qed.

Lemma filled_ready needs Columns s : prepared_columns = Ok Columns -> one_ready needs ids s -> one_ready true ids (filled Columns s).
Proof. intros E [Hm _ _]. pose proof (filled_here Columns s E) as Hh. destruct Columns as [[??]?]. split; [exact Hm|done|done]. Qed.

Lemma filled_related needs b Columns s t : prepared_columns = Ok Columns -> impl_related needs ids s t ->
  impl_related b ids (filled Columns s) (filled Columns t).
Proof.
  intros E [E1 E2 E3 Hl Hr]. pose proof (filled_ready _ _ _ E Hl) as []. pose proof (filled_ready _ _ _ E Hr) as [].
  destruct Columns as [[??]?]. split; try done; by split.
Qed.

Lemma EnsurePrepared_run needs s : one_ready needs ids s ->
  EnsurePrepared Tables s =
    (if Prepared s then (s, Ok tt)
     else match prepared_columns with Ok Columns => (filled Columns s, Ok tt) | Throw e => (s, Throw e) end).
Proof.
  intros [_ Hr _]. unfold EnsurePrepared, mbind, M_bind, get. destruct (Prepared s) eqn:E; cbn [negb orb]; [|by apply PrepareAll_run].
  destruct (Hr eq_refl) as [-> ->]. by rewrite !Nat.eqb_refl.
Qed.

(** After the preparation both engines are prepared. *)
Lemma agrees_ensure {A} needs (m : M Impl A) : Agrees true m -> Agrees needs (EnsurePrepared Tables;; m).
Proof.
  intros Hm s t H. unfold mbind, M_bind. pose proof (ir_left _ _ _ _ H) as Hs. pose proof (ir_right _ _ _ _ H) as Ht.
  rewrite (EnsurePrepared_run needs s), (EnsurePrepared_run needs t) by done.
  assert (forall s' t', impl_related true ids s' t' -> impl_related needs ids (m s').1 (m t').1 /\ (m s').2 = (m t').2) as Hgo.
  { intros s' t' H'. destruct (Hm s' t' H') as [HR HE]. split; [by apply impl_related_weaken|done]. }
  assert (forall s, Prepared s = true -> one_ready needs ids s -> (exists Columns, prepared_columns = Ok Columns) /\ one_ready true ids s) as Hok.
  { intros s' HP []. split; [by eapply here_columns, or_ready0|by split]. }
  destruct (prepared_columns) as [Columns|e] eqn:EC.
  - destruct H as [E1 E2 E3 _ _].
    destruct (Prepared s) eqn:Ps, (Prepared t) eqn:Pt; cbv beta iota; apply Hgo; split;
      first [by destruct Columns as [[??]?] | by apply Hok | by eapply filled_ready].
  - destruct (Prepared s) eqn:Ps; [by destruct (Hok s Ps Hs) as [[] _]|]. destruct (Prepared t) eqn:Pt; [by destruct (Hok t Pt Ht) as [[] _]|].
    by split.
Qed.

(** *** Lazily filled slots *)

Lemma memoised_run {A} (value : Side -> nat -> res (Slot A)) slots store w r s :
  slots_ok Tables value (slots s) ->
  ((exists x, (memoised value slots store w r s).1 = store x s /\ slots_ok Tables value x) \/ (memoised value slots store w r s).1 = s) /\
  (memoised value slots store w r s).2 =
    if bool_decide (r < Count (at_side w Tables)) then New ← value w r; slot_value New else Throw index_past_end.
Proof.
  intros Hs. unfold memoised, mbind, M_bind, res_bind, get, liftR, modify, at_row. cbv beta iota zeta.
  case_bool_decide as Hr.
  - destruct (slot_lookup Tables _ _ w r Hs Hr) as [v Hv]. rewrite Hv.
    assert (v <> NotComputed -> value w r = Ok v) as Hval by (by apply (Hs w)).
    destruct v as [|x|e]; [|rewrite Hval by done; cbn; eauto..].
    destruct (value w r) as [New|e] eqn:E; cbn; [|eauto].
    split; [|done]. left. eexists. split; [done|]. by apply slots_set.
  - rewrite (lookup_ge_None_2 (at_side w (slots s)) r); [cbn; eauto|].
    destruct (Hs w) as [-> _]. by apply Nat.nlt_ge.
Qed.

#[local] Instance agrees_memoised {A} (value : Side -> nat -> res (Slot A)) slots store w r :
  (forall s, prepared_here s -> slots_ok Tables value (slots s)) ->
  (forall s x, prepared_here s -> slots_ok Tables value x -> prepared_here (store x s)) ->
  (forall s x, ById (store x s) = ById s /\ ByText (store x s) = ByText s /\ Entries (store x s) = Entries s /\
     Prepared (store x s) = Prepared s /\ SimpleById (store x s) = SimpleById s) ->
  Agrees true (memoised value slots store w r).
Proof.
  intros Hslots Hstore Hkeep.
  assert (forall s, one_ready true ids s -> exists s', (memoised value slots store w r s).1 = s' /\ one_ready true ids s' /\
    ById s' = ById s /\ ByText s' = ByText s /\ Entries s' = Entries s /\
    (memoised value slots store w r s).2 = (if bool_decide (r < Count (at_side w Tables)) then New ← value w r; slot_value New
       else Throw index_past_end)) as Hone.
  { intros s [Hm Hr Hn]. specialize (Hr (Hn eq_refl)).
    destruct (memoised_run value slots store w r s (Hslots s Hr)) as [[(x & -> & Hx)| ->] ->]; eexists; (split; [done|]).
    - destruct (Hkeep s x) as (K1 & K2 & K3 & K4 & K5). split; [|done]. split.
      + unfold memo_right. by rewrite K5.
      + intros _. by apply Hstore.
      + intros _. rewrite K4. by apply Hn.
    - split; [|done]. by split. }
  intros s t [E1 E2 E3 Hl Hr]. destruct (Hone s Hl) as (s' & -> & Hs & A1 & A2 & A3 & ->).
  destruct (Hone t Hr) as (t' & -> & Ht & B1 & B2 & B3 & ->). split; [|done]. split; congruence || done.
Qed.

#[local] Instance agrees_MdPython w r : Agrees true (MdPython Tables w r).
Proof.
  apply (agrees_memoised (md_slot Tables) MdPy with_md); [by intros s []| |done]. intros s x [] Hx. by split.
Qed.
#[local] Instance agrees_ConstantsOf w r : Agrees true (ConstantsOf Tables w r).
Proof.
  apply (agrees_memoised (const_slot Tables) Consts with_consts); [by intros s []| |done]. intros s x [] Hx. by split.
Qed.

(** *** The calls *)

#[local] Instance agrees_both_simple needs Ea1 Ea2 : Agrees needs (both_simple ids Ea1 Ea2).
Proof. unfold both_simple. solve_blind. Qed.
#[local] Instance agrees_Find needs Ea1 Ea2 : Agrees needs (RatioEngine.Find ids Ea1 Ea2).
Proof.
  assert (forall Found, Agrees needs (entry_ratio Found)) as He.
  { intros [i|]; cbn; [|apply _]. intros s. apply blind_at_get; [by intros t []; rewrite ir_entries0|]. apply blind_here. apply _. }
  unfold RatioEngine.Find. apply blind_bind; [apply _|]. intros b s.
  apply blind_at_get; [by intros t []; rewrite ir_id0, ir_text0|]. destruct b; [apply blind_here, He|].
  apply blind_at_lift. intros. apply blind_here, He.
Qed.

Lemma related_cache needs s u i t e : impl_related needs ids s u ->
  impl_related needs ids (with_cache i t e s) (with_cache i t e u).
Proof.
  intros [E1 E2 E3 [] []]. split; try done; split; try done; intros HP; [by destruct (or_ready0 HP)|by destruct (or_ready1 HP)].
Qed.
#[local] Instance agrees_Store needs Ea1 Ea2 R : Agrees needs (Store ids Ea1 Ea2 R).
Proof.
  unfold Store. apply blind_bind; [apply _|]. intros b s t H. unfold mbind, M_bind, get, liftR. cbv beta zeta.
  rewrite (ir_id _ _ _ _ H), (ir_text _ _ _ _ H), (ir_entries _ _ _ _ H).
  destruct b; [destruct (ById s !! _)|destruct (TextKey ids Ea1 Ea2) as [Key|]; [destruct (ByText s !! Key)|]];
    (split; [|done]); first [exact H|by apply related_cache].
Qed.
#[local] Instance agrees_ClearCache needs : Agrees needs ClearCache.
Proof. apply blind_modify. intros s t. apply related_cache. Qed.

#[local] Instance agrees_DeepScore M_ D_ : Agrees true (DeepScore Tables IsSameProcessor M_ D_).
Proof. apply agrees_ensure. solve_blind. Qed.
#[local] Instance agrees_DeepByAddress Ea1 Ea2 : Agrees true (DeepRatioByAddress Tables IsSameProcessor ids Ea1 Ea2).
Proof. unfold DeepRatioByAddress. solve_blind. Qed.
#[local] Instance agrees_read_md Src F v : Agrees true (read_md Tables Src F v).
Proof. unfold read_md. destruct Src; apply _. Qed.

Lemma same_columns s t : impl_related true ids s t ->
  PseudoColumn t = PseudoColumn s /\ AssemblyColumn t = AssemblyColumn s /\ MicrocodeColumn t = MicrocodeColumn s.
Proof.
  intros [_ _ _ [_ Hs Ns] [_ Ht Nt]]. destruct (Hs (Ns eq_refl)) as [_ _ A1 A2 A3 _ _], (Ht (Nt eq_refl)) as [_ _ B1 B2 B3 _ _].
  split_and!; congruence.
Qed.

#[local] Instance agrees_Compute Ea1 Ea2 F1 F2 Src v1 v2 :
  Agrees true (Compute_ Tables IsSameProcessor ids Ea1 Ea2 F1 F2 Src v1 v2).
Proof.
  unfold Compute_. apply blind_bind; [apply _|]. intros Md1. apply blind_bind; [apply _|]. intros Md2.
  apply blind_bind; [apply _|]. intros []; [apply _|]. intros s. apply blind_at_get.
  { intros t H. destruct (same_columns s t H) as (-> & -> & ->). done. }
  solve_blind.
Qed.
#[local] Instance agrees_ImplCheckRatio Ea1 Ea2 S1 r1 S2 r2 Src v1 v2 :
  Agrees false (ImplCheckRatio Tables IsSameProcessor ids Ea1 Ea2 S1 r1 S2 r2 Src v1 v2).
Proof.
  unfold ImplCheckRatio. apply blind_bind; [apply _|]. intros [R|]; [apply _|]. apply agrees_ensure. solve_blind.
Qed.
Lemma agrees_CheckRatio Row Src : Agrees false (RatioEngine.CheckRatio Tables IsSameProcessor ids Row Src).
Proof. apply _. Qed.
Lemma agrees_CompareRows r1 r2 : Agrees false (RatioEngine.CompareFunctionRows Tables IsSameProcessor ids r1 r2).
Proof. unfold RatioEngine.CompareFunctionRows. solve_blind. Qed.
End Calls.

(** ** The engine with its hook *)

#[local] Instance real_engine : Engine EngineState := RatioEngine_engine Tables.
#[local] Instance real_setup : EngineSetup EngineState := RatioEngine_setup Tables.

(** The counters of the hook are free: no decision reads them. *)
#[export, refine] Instance real_relation : EngineRelation EngineState := {
  engine_related ids x y := impl_related false ids (ImplOf x) (ImplOf y) /\ Dones (HookOf x) = Dones (HookOf y);
}.
Proof. intros a b x y Hle [H ?]. split; [by eapply impl_related_mono|done]. Defined.

Lemma on_impl_related {A} (m : M Impl A) ids x y : Blind (Related0 := Impl_related ids false) m ->
  engine_related ids x y ->
  engine_related ids (on_impl m x).1 (on_impl m y).1 /\ (on_impl m x).2 = (on_impl m y).2.
Proof.
  intros Hm [H Hd]. destruct (Hm _ _ H) as [H1 H2]. unfold on_impl. destruct (m (ImplOf x)), (m (ImplOf y)). cbn in *. by split.
Qed.

#[export] Instance real_blind : EngineBlind EngineState.
Proof.
  split.
  - intros ids F Row x y. apply on_impl_related, agrees_CheckRatio.
  - intros ids F r1 r2 x y. apply on_impl_related, agrees_CompareRows.
  - intros ids Row R x y [H Hd]. cbn. unfold hook_call, OnMatch. rewrite Hd.
    destruct (negb (dlt R d1)); [done|]. case_bool_decide; [done|]. destruct (search _ _ Row) as [[[]|]|]; cbn; done.
  - intros ids x y [H Hd]. done.
  - intros ids x y [H Hd]. split; [|done]. by apply related_cache.
  - intros ids F x y. apply on_impl_related. intros s t H. rewrite !PrepareAll_run.
    destruct prepared_columns eqn:E; [|done]. split; [|done]. by eapply filled_related.
  - intros ids F F' x0 x0' x y. cbn. unfold on_impl. rewrite !PrepareAll_run. destruct prepared_columns eqn:E; [|done].
    intros _ [[E1 E2 E3 Hl Hr] Hd]. split; [done|]. cbn. split; [|done].
    pose proof (filled_ready ids false a (ImplOf y) E Hr) as Hf. split; [..|done|by apply one_ready_weaken]; by destruct a as [[??]?].
Qed.
End Engine.

(** ** The invariant of the engine *)

(** Tables whose cells are readable and whose addresses are texts of [base]. *)
Record engine_tables (base : Interners) (Tables : sided FunctionTable) : Prop := {
  et_wf : wf_tables Tables base;
  et_keys w Ea r : RowByAddr (at_side w Tables) !! Ea = Some r -> known_addr base Ea;
}.

Section Invariant.
Context (Tables : sided FunctionTable) (base : Interners) (Htables : engine_tables base Tables).

Lemma wf_tables_le a b : ids_le a b -> wf_tables Tables a -> wf_tables Tables b.
Proof. intros Hle [H1 H2]. split; [|done]. intros w. eapply wf_table_grows; [by apply ids_le_grows|apply H1]. Qed.

(** *** The answers do not depend on the texts interned later *)

Section Later.
Context (a b : Interners) (Hb : ids_le base a) (Hab : ids_le a b) (Ha : wf_ids a) (Hwb : wf_ids b).

Lemma AddrText_later Id : known_addr a Id -> AddrText Id b = AddrText Id a.
Proof.
  intros Hk. destruct (AddrText Id a) as [t|e] eqn:E; [by eapply AddrText_mono|]. exfalso. unfold AddrText in E.
  case_bool_decide; [done|]. destruct Hk as [|Hk]; [done|]. apply known_text in Hk as [t Ht]. by rewrite Ht in E.
Qed.
Lemma AddrKeyText_later Id : known_addr a Id -> AddrKeyText Id b = AddrKeyText Id a.
Proof.
  intros Hk. destruct (AddrKeyText_known _ _ Hk) as [t E]. rewrite E. by eapply AddrKeyText_mono.
Qed.

Lemma FindRow_later t w : (Id ← FindAddr t b; FindRow Id (at_side w Tables)) = (Id ← FindAddr t a; FindRow Id (at_side w Tables)).
Proof.
  destruct Hab as [_ _ [Hp _]]. unfold FindAddr, Interner.Find.
  destruct (Index (Addrs_ a) !! t) as [i|] eqn:Ea.
  - apply (wfi_index _ (wf_addrs _ Ha)) in Ea. apply (prefix_lookup_Some _ _ _ _ Ea) in Hp.
    apply (wfi_index _ (wf_addrs _ Hwb)) in Hp. by rewrite Hp.
  - cbn. destruct (Index (Addrs_ b) !! t) as [i|] eqn:Eb; [|done]. cbn. destruct (FindRow _ _) as [r|] eqn:Er; [|done]. exfalso.
    assert (known_addr base (wrap32 (i + 1))) as Hk by (by eapply (et_keys _ _ Htables w)).
    apply (known_addr_mono _ _ _ Hb) in Hk. pose proof Eb as Hi. apply (wfi_index _ (wf_addrs _ Hwb)) in Hi.
    assert (known i (Addrs_ b)) as Hki by (eapply text_known; unfold Text; by rewrite Hi).
    destruct (id_succ _ i (wfi_room _ (wf_addrs _ Hwb)) Hki) as [E E'].
    rewrite E in Hk. destruct Hk as [Hk|Hk]; [unfold kNoneAddr in Hk; lia|]. rewrite E' in Hk.
    apply known_text in Hk as [u Hu]. unfold Text in Hu. destruct (Views (Addrs_ a) !! N.to_nat i) as [v|] eqn:Ev; [|done].
    pose proof (prefix_lookup_Some _ _ _ _ Ev Hp) as Ev'. rewrite Hi in Ev'. injection Ev' as <-.
    apply (wfi_index _ (wf_addrs _ Ha)) in Ev. by rewrite Ev in Ea.
Qed.

Lemma Find_later Ea1 Ea2 : known_addr a Ea1 -> known_addr a Ea2 -> RatioEngine.Find b Ea1 Ea2 = RatioEngine.Find a Ea1 Ea2.
Proof.
  intros H1 H2. unfold RatioEngine.Find, both_simple, SimpleAddr, TextKey.
  by rewrite (AddrText_later _ H1), (AddrText_later _ H2), (AddrKeyText_later _ H1), (AddrKeyText_later _ H2).
Qed.
Lemma Store_later Ea1 Ea2 : known_addr a Ea1 -> known_addr a Ea2 -> Store b Ea1 Ea2 = Store a Ea1 Ea2.
Proof.
  intros H1 H2. unfold Store, both_simple, SimpleAddr, TextKey.
  by rewrite (AddrText_later _ H1), (AddrText_later _ H2), (AddrKeyText_later _ H1), (AddrKeyText_later _ H2).
Qed.
Lemma fetch_rows_later Ea1 Ea2 : known_addr a Ea1 -> known_addr a Ea2 ->
  fetch_rows Tables b Ea1 Ea2 = fetch_rows Tables a Ea1 Ea2.
Proof.
  intros H1 H2.
  assert (forall Ea st, known_addr a Ea -> CanonicalAddress b Ea st = CanonicalAddress a Ea st) as HC
    by (intros Ea st H; unfold CanonicalAddress; by rewrite AddrText_later).
  assert (forall w c st, FetchRowByAddress Tables b w c st = FetchRowByAddress Tables a w c st) as HF
    by (intros w c st; unfold FetchRowByAddress, Table; by rewrite FindRow_later).
  unfold fetch_rows, mbind, res_bind. rewrite !HC by done. destruct (CanonicalAddress a Ea1 _) as [A1|]; [|done].
  destruct (CanonicalAddress a Ea2 _) as [A2|]; [|done]. rewrite HF. destruct (FetchRowByAddress _ _ MainSide _ _); [|done]. by rewrite HF.
Qed.
Lemma CheckRatio_later Same Ea1 Ea2 S1 r1 S2 r2 Src v1 v2 : known_addr a Ea1 -> known_addr a Ea2 ->
  ImplCheckRatio Tables Same b Ea1 Ea2 S1 r1 S2 r2 Src v1 v2 = ImplCheckRatio Tables Same a Ea1 Ea2 S1 r1 S2 r2 Src v1 v2.
Proof.
  intros H1 H2. unfold ImplCheckRatio, Compute_, DeepRatioByAddress. by rewrite Find_later, fetch_rows_later, Store_later by done.
Qed.

Lemma engine_call_later Same c s : call_ok a c -> match c with CallCheck _ _ | CallCompare _ _ => True | _ => False end ->
  engine_call Tables Same b c s = engine_call Tables Same a c s.
Proof.
  pose proof (wf_tables_le _ _ Hb (et_wf _ _ Htables)) as Hwf.
  intros Hc Hk. destruct c as [Row Src|r1 r2| | | |]; [| |destruct Hk..]; cbn [engine_call].
  - unfold RatioEngine.CheckRatio. destruct Hc as (H1 & H2 & _). by rewrite CheckRatio_later.
  - unfold RatioEngine.CompareFunctionRows. destruct (_ || _); [done|]. unfold mbind, M_bind, liftR.
    destruct (at_row (IsBlob (Address (main_of Tables))) _) as [[]|]; [done| |done].
    destruct (at_row (IsBlob (Address (diff_of Tables))) _) as [[]|]; [done| |done].
    destruct (at_row (AddrIdOf (main_of Tables)) _) as [Ea1|] eqn:E1; [|done].
    destruct (at_row (AddrIdOf (diff_of Tables)) _) as [Ea2|] eqn:E2; [|done].
    rewrite CheckRatio_later; [done|by apply (known_row_addr Tables a MainSide _ _ Hwf) in E1|by apply (known_row_addr Tables a DiffSide _ _ Hwf) in E2].
Qed.
End Later.

(** *** What it keeps *)

Definition impl_inv (ids : Interners) (s : Impl) : Prop :=
  ids_le base ids /\ forall b, ids_le ids b -> wf_ids b ->
    impl_ok Tables b s /\ map_Forall (fun _ => unit_double) (Ratios b s).

Lemma impl_inv_le a b s : ids_le a b -> impl_inv a s -> impl_inv b s.
Proof. intros Hle [Hb H]. split; [by etrans|]. intros c Hc. apply H. by etrans. Qed.

Lemma impl_inv_empty ids : ids_le base ids -> impl_inv ids EmptyImpl.
Proof. intros Hb. split; [done|]. intros b _ _. split; [apply impl_ok_empty|apply map_Forall_empty]. Qed.

Lemma impl_inv_call Same ids c s s' r : wf_ids ids -> impl_inv ids s -> call_ok ids c ->
  match c with CallCheck _ _ | CallCompare _ _ => True | _ => False end ->
  engine_call Tables Same ids c s = (s', r) -> impl_inv ids s' /\ forall R, r = Ok (Some R) -> unit_double R.
Proof.
  intros Hids [Hb Hinv] Hc Hk E.
  assert (forall b, ids_le ids b -> wf_ids b ->
    (impl_ok Tables b s' /\ map_Forall (fun _ => unit_double) (Ratios b s')) /\ answer_unit c r) as Hall.
  { intros b Hle Hwb. destruct (Hinv b Hle Hwb) as [Hok HU].
    pose proof (wf_tables_le _ _ (transitivity Hb Hle) (et_wf _ _ Htables)) as Hwf.
    assert (call_ok b c) as Hcb.
    { destruct c; [| |destruct Hk..]; cbn in *; [|exact Hc]. destruct Hc as (H1 & H2 & H3 & H4).
      split_and!; [by eapply known_addr_mono..|exact H3|exact H4]. }
    destruct (engine_call_simulates Tables Same b c Hwb Hwf Hcb s Hok) as (s1 & E1 & D1 & Hs1 & _); [done|].
    rewrite (engine_call_later ids b Hb Hle Hids Hwb), E in E1 by done. injection E1 as <- Ea.
    destruct (python_call Tables Same b c (Ratios b s)) as [D q] eqn:Ep. cbn [fst snd] in *. subst D q.
    apply (python_effect Tables Same b Hwf) in Ep; [|done].
    assert (seed_unit c) as Hseed by (destruct c; [exact I|exact I|destruct Hk..]). destruct (effect_unit _ _ _ _ Ep Hseed HU) as [HU' HA]. by split. }
  split; [split; [done|]; intros b Hle Hwb; by apply Hall|].
  intros R ->. destruct (Hall ids (reflexivity _) Hids) as [_ HA]. destruct c; [exact HA|exact HA|destruct Hk..].
Qed.

(** *** The instances *)

Context (N1 N2 : gset text).

#[export, refine] Instance real_invariant : SessionInvariant EngineState := {
  EInv ids x := impl_inv ids (ImplOf x);
  Good ids n1 n2 := named N1 ids n1 /\ named N2 ids n2;
}.
Proof.
  - intros a b x Hle _ _. by apply impl_inv_le.
  - intros a b n1 n2 Hle [H1 H2]. split; by eapply named_mono.
Defined.

#[export] Instance real_good_names : GoodNames EngineState N1 N2.
Proof. by intros ids n1 n2. Qed.

#[local] Instance inv_engine : Engine EngineState := RatioEngine_engine Tables.
#[local] Instance inv_setup : EngineSetup EngineState := RatioEngine_setup Tables.

#[export] Instance real_engine_ok : EngineOk EngineState.
Proof.
  split.
  - intros ids F Row x x' r Hids Hx Hrow E. cbn in E. unfold on_impl in E.
    destruct (RatioEngine.CheckRatio _ _ _ _ _ (ImplOf x)) as [s' a] eqn:Ec. injection E as <- <-.
    assert (call_ok ids (CallCheck Row RatioEngine.Sql)) as Hc by (destruct Hrow; by split_and!).
    destruct (impl_inv_call (IsSameProcessor F) ids (CallCheck Row RatioEngine.Sql) (ImplOf x) s'
      (R ← a; Ok (Some R)) Hids Hx Hc I) as [H1 H2].
    { cbn. unfold mbind, M_bind. rewrite Ec. by destruct a. }
    split; [done|]. intros R ->. by apply H2.
  - intros ids F r1 r2 x x' r Hids Hx H1 H2 E. cbn in E. unfold on_impl in E.
    destruct (RatioEngine.CompareFunctionRows _ _ _ _ _ (ImplOf x)) as [s' a] eqn:Ec. injection E as <- <-.
    destruct (impl_inv_call (IsSameProcessor F) ids (CallCompare r1 r2) (ImplOf x) s'
      (R ← a; Ok (Some R)) Hids Hx (conj H1 H2) I) as [H3 H4].
    { cbn. unfold mbind, M_bind. rewrite Ec. by destruct a. }
    split; [done|]. intros R ->. by apply H4.
  - intros ids Row R x x' r _ Hx. cbn. unfold hook_call. destruct (OnMatch _ _ _ _ _ _) as [[h a]|]; by intros [= <- _].
Qed.

#[export] Instance real_hook_ok : HookResetOk EngineState.
Proof. by intros ids x. Qed.

#[export] Instance real_setup_ok : EngineSetupOk EngineState.
Proof.
  split.
  - intros ids x [Hb H]. split; [done|]. intros b Hle Hwb. destruct (H b Hle Hwb) as [Hok _].
    destruct (ClearCache_simulates Tables b _ Hok) as (s' & E & D & Hs & _); [done|]. injection E as <-.
    split; [exact Hs|]. apply map_Forall_empty.
  - intros ids F x x' r [Hb H] E. cbn in E. unfold on_impl in E. destruct (PrepareAll Tables (ImplOf x)) as [s' a] eqn:Ep.
    injection E as <- <-. split; [done|]. intros b Hle Hwb. destruct (H b Hle Hwb) as [Hok HU].
    pose proof (wf_tables_le _ _ (transitivity Hb Hle) (et_wf _ _ Htables)) as Hwf.
    destruct (PrepareAll_spec Tables b _ Hwf Hok) as (s1 & E1 & D & Hs & _). rewrite Ep in E1. injection E1 as <- _.
    split; [done|]. cbn. by rewrite D.
Qed.
End Invariant.

(** ** Exports and the engine *)

Definition key_text (ids : Interners) (n : NameId) : option text :=
  match NameKeyText n ids with Ok t => Some t | Throw _ => None end.
(** The names of the functions of a table. *)
Definition table_names (ids : Interners) (T : FunctionTable) : gset text := list_to_set (omap (key_text ids) (NameIdOf T)).

Definition name_known (ids : Interners) (n : NameId) : Prop := exists t, NameOrNone n ids = Ok t.

Lemma name_known_known ids n : name_known ids n -> known_name ids n /\ exists t, NameKeyText n ids = Ok t.
Proof.
  intros [t E]. unfold NameOrNone, NameKeyText, NameText in *. case_bool_decide as H0; split; [by left|by eexists| |].
  - right. destruct (Text _ _) as [u|] eqn:Eu; [exact (text_known _ _ _ Eu)|done].
  - destruct (Text _ _) as [u|]; [by exists u|done].
Qed.

Lemma tables_named ids T : Forall (known_addr ids) (AddrIdOf T) -> Forall (name_known ids) (NameIdOf T) ->
  (forall a r, FindRow a T = Some r -> (0 <= r)%Z) -> table_named (table_names ids T) ids T.
Proof.
  intros HA HN HR. split; [done| |done]. apply Forall_forall. intros n Hn. rewrite Forall_forall in HN.
  destruct (name_known_known _ _ (HN n Hn)) as [Hk [t Et]]. split; [done|]. exists t. split; [done|].
  apply elem_of_list_to_set, list_elem_of_omap. exists n. split; [done|]. unfold key_text. by rewrite Et.
Qed.

Lemma ingested_found Stmt ids T a r : ingested Stmt ids T -> FindRow a T = Some r -> (0 <= r)%Z /\ a ∈ AddrIdOf T.
Proof.
  intros [_ HI _ _]. rewrite (ix_row _ _ _ HI a). case_decide; [done|]. destruct (list_find _ _) as [[i x]|] eqn:E; [|done].
  cbn. intros [= <-]. apply list_find_Some in E as (Hi & -> & _). split; [lia|by eapply list_elem_of_lookup_2].
Qed.

Lemma ingested_names Stmt ids T : ingested Stmt ids T -> Forall (name_known ids) (NameIdOf T).
Proof.
  intros [_ HI _ _]. apply Forall_lookup. intros r n Hr. destruct (ix_name _ _ _ HI r n Hr) as (t & _ & Et). by exists t.
Qed.

(** Two exports read one after the other give the tables the engine asks for. *)
Lemma ingest_engine_tables (Db : DiffDatabase) (PathMain PathDiff : text) (ids : Interners)
    (SideM SideD : SideTables) (StmtM StmtD : Statement) :
  readable_export Db MainSide SideM StmtM -> readable_export Db DiffSide SideD StmtD -> wf_ids ids ->
  room ids (N.of_nat (3 * (length (RowsOf StmtM) + length (RowsOf StmtD)))) ->
  exists M D ids1 ids2,
    IngestExport Db MainSide PathMain ids = Ok (M, ids1) /\ IngestExport Db DiffSide PathDiff ids1 = Ok (D, ids2) /\
    let Tables := MkSided (Functions M) (Functions D) in
    small_tables Tables -> wf_ids ids2 /\ engine_tables ids2 Tables /\
      TablesNamed (table_names ids2 (Functions M)) (table_names ids2 (Functions D)) ids2 Tables.
Proof.
  intros [LM CM PM WM] [LD CD PD WD] Hwf Hroom.
  destruct (IngestExport_complete Db MainSide PathMain ids SideM StmtM LM Hwf CM PM WM) as (M & ids1 & EM & Hwf1 & G1 & IM & R1);
    [eapply room_le; [exact Hroom|lia]|].
  destruct (IngestExport_complete Db DiffSide PathDiff ids1 SideD StmtD LD Hwf1 CD PD WD) as (D & ids2 & ED & Hwf2 & G2 & ID & _);
    [apply R1; eapply room_le; [exact Hroom|lia]|].
  exists M, D, ids1, ids2. split; [done|]. split; [done|]. intros Tables Hsmall. split; [done|].
  pose proof (wf_table_grows _ _ _ G2 (ingested_wf_table StmtM _ _ WM IM)) as WtM. pose proof (ingested_wf_table StmtD _ _ WD ID) as WtD.
  split; [split; [split; [by intros []|exact Hsmall]|]|].
  - intros [] Ea r Hr; [destruct WtM as [_ _ HA]|destruct WtD as [_ _ HA]]; rewrite Forall_forall in HA; apply HA;
      by eapply ingested_found.
  - split; (apply tables_named; [|try by eapply ingested_names|intros a r Hr; first [by destruct (ingested_found _ _ _ _ _ IM Hr)|by destruct (ingested_found _ _ _ _ _ ID Hr)]]); [apply WtM| |apply WtD].
    eapply Forall_impl; [by eapply ingested_names|]. intros n [t E]. exists t. by apply (grows_name _ _ G2).
Qed.

(** ** The program *)

Definition StartSession (C : DiffConfig) (ids : Interners) : Session EngineState :=
  MkSession ids EmptyState [] [] C NoFlags NoStageData (MkEngineState EmptyImpl EmptyHookState).

(** [RunPipeline] over the ratio engine and the patch-diff hook. *)
Definition RunProgram {Connection : Sqlite} (Tables : sided FunctionTable) (Problems : list text) (CuNative : bool)
    (rounds : nat) (Resume : option PipelineCursor) : M (Run EngineState) (option bool) :=
  @RunPipeline EngineState (RatioEngine_engine Tables) RatioEngine_hook (RatioEngine_setup Tables) Connection
    Tables Problems CuNative rounds Resume.

(** Every list, dictionary and stored ratio is well formed, every match is named
    after functions of both exports, and the cache of the engine is. *)
Definition program_ok (Tables : sided FunctionTable) (base : Interners) (N1 N2 : gset text) (S : Session EngineState) : Prop :=
  @session_ok EngineState (real_invariant Tables base N1 N2) S.

Lemma StartSession_ok Tables C ids N1 N2 : wf_ids ids -> program_ok Tables ids N1 N2 (StartSession C ids).
Proof.
  intros Hwf. split; [done|apply wf_EmptyState|intros []; constructor|]. by apply impl_inv_empty.
Qed.

Section Program.
Context {Connection : Sqlite} (Problems : list text) (CuNative : bool).


(** The engine of a session a run from the start saves holds nothing wrong. *)
Lemma program_saved_related (Tables : sided FunctionTable) rounds C ids p r q c T :
  RunProgram Tables Problems CuNative rounds None (MkRun (StartSession C ids) p []) = (r, q) -> (c, T) ∈ Saved r ->
  @session_related EngineState (real_relation Tables) T T.
Proof.
  intros E H. assert (@session_related EngineState (real_relation Tables) (StartSession C ids) (StartSession C ids)) as H0.
  { by split. }
  pose proof (@saved_related EngineState (real_relation Tables) _ (RunProgram Tables Problems CuNative rounds None) _ p c T
    (@blind_RunPipeline EngineState (RatioEngine_engine Tables) RatioEngine_hook (RatioEngine_setup Tables) (real_relation Tables)
      (real_blind Tables) Connection Tables Problems CuNative rounds None) H0) as Hs.
  rewrite E in Hs. by apply Hs.
Qed.

(** C7: Every checkpoint of the program resumes its run. Let a whole run of
    [RunPipeline] with the ratio engine and the patch-diff hook, that the rounds
    sufficed for, offer the checkpoint [c] with the session [T], and let [T'] agree
    with [T] on the texts, the matches, the flags, the counters and the results, hold
    the same cache of ratios and the same pairs of the hook; what it has prepared,
    computed lazily or traced is free. Then the run started at [c] from [T'] ends with
    the same result, be it an exception, the same cursor, and a session that agrees
    with that of the whole run in the same way. *)
Theorem program_resumes (Tables : sided FunctionTable) rounds S p r q c T T' p' :
  RunProgram Tables Problems CuNative rounds None (MkRun S p []) = (r, q) -> q <> Ok None ->
  (c, T) ∈ Saved r -> @session_related EngineState (real_relation Tables) T T' ->
  exists r', RunProgram Tables Problems CuNative rounds (Some c) (MkRun T' p' []) = (r', q) /\
    @session_related EngineState (real_relation Tables) (RunSession r) (RunSession r') /\ Position r' = Position r.
Proof.
  exact (@checkpoint_resumes EngineState (RatioEngine_engine Tables) RatioEngine_hook (RatioEngine_setup Tables)
    (real_relation Tables) (real_blind Tables) Connection Tables Problems CuNative rounds S p r q c T T' p').
Qed.
End Program.
