(* ===== verification/StageSamples.v ===== *)
(** * A concrete run of the program

    A connection that answers every query of the passes, the tables of the sample
    exports, the ratio engine with the patch-diff hook over them, and the theorems
    about the pipeline and the program applied to the run they give. *)

From stdpp Require Import base numbers gmap sets list.
From Stdlib Require Import ZArith Lia.
From S2P Require Import Prelude Dbl Decimal Interner Utf8 MatchState MatchStateSpec Snapshot FinalPass Unmatched.
From S2P Require Import SessionData PatchDiffHook Consumer PreparedTextSpec SideTables FunctionTable Ingest RatioEngine RatioSpec RatioSamples.
From S2P Require Import StageSql Sql EarlyStages TierStages LoopStages Preflight Pipeline SessionSpec SourcesSpec StagesSpec PipelineSpec ResumeSpec BlindSpec EngineSpec PreflightSpec.

(** ** The names of the two exports *)

Definition main_names : gset text := table_names sample_ids2 (main_of sample_tables).
Definition diff_names : gset text := table_names sample_ids2 (diff_of sample_tables).

(** ** What SQLite answers *)

Definition select_columns : list text := B "description" :: MainAliases ++ DiffAliases ++ [B "f_names"; B "df_names"].

(** A row of SELECT_FIELDS. *)
Definition select_row (Desc Ea1 Name1 Ea2 Name2 : text) : list Column :=
  map (fun n => assoc n
    [(B "description", text_column Desc); (B "ea", text_column Ea1); (B "name1", text_column Name1);
     (B "ea2", text_column Ea2); (B "name2", text_column Name2); (B "mangled1", text_column Name1);
     (B "nodes1", int_column 4); (B "nodes2", int_column 5); (B "md1", real_column (dlit 3 2));
     (B "md2", real_column (dlit 3 2));
     (B "f_names", text_column (B "[" ++ quoted (B "key") ++ B "]"));
     (B "df_names", text_column (B "[" ++ quoted (B "key") ++ B "]"))]) select_columns.

Definition empty_select : Statement := MkStatement select_columns [].
Definition one_cell (Name : text) (c : Column) : Statement := MkStatement [Name] [[c]].
Definition factors (l : list (text * text)) : text :=
  B "{" ++ mjoin (map (fun p => quoted p.1 ++ B ": " ++ p.2) (take 1 l))
  ++ mjoin (map (fun p => B ", " ++ quoted p.1 ++ B ": " ++ p.2) (drop 1 l)) ++ B "}".

Definition answers : list (text * Statement) :=
  [(kSqlVersion, one_cell (B "value") (text_column (B "3.4")));
   (kSqlEqualDbMd5, one_cell (B "total") (int_column 0));
   (kSqlEqualDbExcept, one_cell (B "total") (int_column 3));
   (kSqlCallgraph, MkStatement [B "callgraph_primes"; B "callgraph_all_primes"]
      [[text_column (B "30"); text_column (factors [(B "2", B "1"); (B "3", B "1"); (B "5", B "1")])];
       [text_column (B "42"); text_column (factors [(B "2", B "1"); (B "3", B "1"); (B "7", B "1")])]]);
   (kSqlTotals, MkStatement [B "total"] [[int_column 4]; [int_column 3]]);
   (kSqlEqualMatches, MkStatement [B "ea"; B "mangled_function"; B "nodes"]
      [[text_column (B "4202496"); text_column (B "main"); int_column 2]]);
   (kSqlSameProcessor, one_cell (B "1") (int_column 1));
   (kSqlStrippedCount, one_cell (B "total") (int_column 0));
   (kSqlPatchCount, one_cell (B "total") (int_column 0));
   (kSqlSameName, MkStatement select_columns
      [select_row (B "Same name") (B "4202496") (B "main") (B "8392704") (B "main")]);
   (kSqlSmallDifferences, MkStatement select_columns
      [select_row (B "Small differences") (B "4198400") (B "sub_401000") (B "4206592") (B "sub_402000")]);
   (kSqlFunctionRowMain, one_cell (B "address") (text_column (B "4198400")));
   (kSqlFunctionRowDiff, one_cell (B "address") (text_column (B "4206592")));
   (kSqlFunctionsExists, MkStatement [B "db_name"; B "address"] []);
   (kSqlGapMain, MkStatement [B "address"] []);
   (kSqlGapDiff, MkStatement [B "address"] []);
   (kSqlUnmatchedMain, MkStatement [B "name"; B "address"] [[text_column (B "broken"); text_column (B "-7")]]);
   (kSqlUnmatchedDiff, MkStatement [B "name"; B "address"] [])].

Definition answer (Sql : text) : Statement :=
  match List.find (fun p => bool_decide (p.1 = Sql)) answers with Some p => p.2 | None => empty_select end.

Definition parameters (Sql : text) : nat := length (filter (fun c => c = x3f) Sql).

#[local] Instance sample_sqlite : Sqlite := {
  prepare_v2 Sql := PrepareDone (parameters Sql) [];
  bind_slot _ _ _ := None;
  run_statement Sql _ := (answer Sql, None);
  errstr _ := B "not an error";
}.

(** ** The names it answers *)

Definition statements : list Statement := empty_select :: map snd answers.

Lemma answer_known Sql : answer Sql ∈ statements.
Proof.
  unfold answer. destruct (List.find _ _) as [p|] eqn:E; [|by left]. right.
  apply List.find_some in E as [Hin _]. apply list_elem_of_fmap. exists p. split; [done|]. by apply list_elem_of_In.
Qed.

#[local] Instance name_cell_dec N c : Decision (name_cell N c).
Proof. unfold name_cell. destruct (Type_ c); apply _. Defined.

Definition cell_named (N : gset text) (n : nat) (Row : list Column) : bool :=
  match Row !! n with Some c => bool_decide (name_cell N c) | None => true end.

Lemma cell_named_column N n Row : cell_named N n Row = true -> column_named N (Some n) Row.
Proof. unfold cell_named. intros H i c [= <-] E. rewrite E in H. by apply bool_decide_eq_true in H. Qed.

(** Where a statement has the columns of SELECT_FIELDS, its names are good. *)
Definition statement_named (Stmt : Statement) : bool :=
  match find_column_from 0 (B "name1") (ColumnNames_ Stmt), find_column_from 0 (B "name2") (ColumnNames_ Stmt) with
  | Some n1, Some n2 => forallb (fun Row => cell_named main_names n1 Row && cell_named diff_names n2 Row) (RowsOf Stmt)
  | _, _ => true
  end.

Lemma answers_named : forallb statement_named statements = true.
Proof. by vm_compute. Qed.

Lemma prepare_answer Sql Binds Stmt : Prepare Sql Binds = Ok Stmt ->
  Stmt = MkCursor (ColumnNames_ (answer Sql)) [] (RowsOf (answer Sql)) None.
Proof.
  unfold Prepare. cbn. destruct (negb _); [done|]. assert (forall n, bind_all Sql n Binds = None) as ->.
  { induction Binds; intros; [done|]. cbn. done. }
  by intros [= <-].
Qed.

Lemma every_query_named Sql : query_named main_names diff_names Sql.
Proof.
  intros Binds Stmt Cols. unfold Start. destruct (Prepare Sql Binds) as [c|] eqn:E; [|done]. apply prepare_answer in E as ->.
  cbn [mbind res_bind]. unfold CursorColumn. cbn [CursorNames].
  repeat case_match; try done. intros [= <- <-]. cbn [CursorAhead ColName1 ColName2].
  pose proof (proj1 (List.forallb_forall _ _) answers_named _ (proj1 (list_elem_of_In _ _) (answer_known Sql))) as HA.
  unfold statement_named in HA.
  repeat match goal with H : find_column_from 0 _ _ = _, H' : context [find_column_from 0 _ _] |- _ => rewrite H in H' end.
  apply Forall_forall. intros Row HR%list_elem_of_In. apply (proj1 (List.forallb_forall _ _) HA) in HR. cbn beta in HR. apply andb_prop in HR as [].
  split; by apply cell_named_column.
Qed.

#[local] Instance sample_queries_named : QueriesNamed main_names diff_names.
Proof.
  split.
  - intros Sql _. apply every_query_named.
  - intros Stmt Row n c ->%prepare_answer HR. assert (answer kSqlEqualMatches = MkStatement [B "ea"; B "mangled_function"; B "nodes"]
      [[text_column (B "4202496"); text_column (B "main"); int_column 2]]) as HA by (by vm_compute).
    rewrite HA in *. cbn in HR. apply list_elem_of_singleton in HR as ->. intros Hn. vm_compute in Hn. injection Hn as <-.
    intros [= <-]. split; apply (bool_decide_unpack _); by vm_compute.
  - intros a b Stmt Row n c ->%prepare_answer HR. assert (answer kSqlFunctionsExists = MkStatement [B "db_name"; B "address"] []) as HA by (by vm_compute).
    rewrite HA in HR. by apply elem_of_nil in HR.
Qed.

#[local] Instance named_dec N ids n : Decision (named N ids n).
Proof.
  unfold named. destruct (NameKeyText n ids) as [t|e].
  - destruct (decide (t ∈ N)) as [H|H]; [left; by exists t|right]. by intros (t' & [= <-] & ?).
  - right. by intros (t & ? & _).
Defined.

#[local] Instance known_name_dec ids n : Decision (known_name ids n).
Proof. unfold known_name, known. apply _. Defined.
#[local] Instance known_addr_dec ids n : Decision (known_addr ids n).
Proof. unfold known_addr, known. apply _. Defined.

(** ** The engine and the session *)

Lemma sample_engine_tables : engine_tables sample_ids2 sample_tables /\
  TablesNamed main_names diff_names sample_ids2 sample_tables.
Proof.
  destruct (ingest_engine_tables sample_db (B "a.sqlite") (B "b.sqlite") EmptyInterners _ _ main_statement diff_statement
    sample_export_main sample_export_diff empty_ids_wf sample_room) as (M & D & ids1 & ids2 & EM & ED & H).
  destruct (sample_tables_are M D ids1 ids2 EM ED) as [HT HI]. cbv zeta in H. rewrite HT, HI in H.
  assert (Functions M = main_of sample_tables) as HM by (by rewrite <- HT).
  assert (Functions D = diff_of sample_tables) as HD by (by rewrite <- HT).
  rewrite HM, HD in H. exact (proj2 (H sample_small)).
Qed.
#[local] Instance sample_tables_named : TablesNamed main_names diff_names sample_ids2 sample_tables.
Proof. exact (proj2 sample_engine_tables). Qed.

#[local] Instance program_engine : Engine EngineState := RatioEngine_engine sample_tables.
#[local] Instance program_setup : EngineSetup EngineState := RatioEngine_setup sample_tables.
#[local] Instance program_invariant : SessionInvariant EngineState := real_invariant sample_tables sample_ids2 main_names diff_names.
#[local] Instance program_engine_ok : EngineOk EngineState := real_engine_ok _ _ (proj1 sample_engine_tables) _ _.
#[local] Instance program_setup_ok : EngineSetupOk EngineState := real_setup_ok _ _ (proj1 sample_engine_tables) _ _.

Definition first_session : Session EngineState := StartSession DefaultConfig sample_ids2.
Definition first_run : Run EngineState := MkRun first_session StartCursor [].

Lemma first_session_ok : program_ok sample_tables sample_ids2 main_names diff_names first_session.
Proof. apply StartSession_ok, sample_tables_wf. Qed.

Definition sample_run_of (rounds : nat) (Resume : option PipelineCursor) : Run EngineState -> Run EngineState * res (option bool) :=
  RunProgram sample_tables [] true rounds Resume.
Definition rounds : nat := enough_rounds main_names diff_names.
Definition finished : Run EngineState * res (option bool) := sample_run_of rounds None first_run.

(** The run ends by itself, with two matches and one cached ratio. *)
Lemma finished_result : finished.2 = Ok (Some true) /\ length (Saved finished.1) = 14 /\
  TotalMatchedFunctions (State (RunSession finished.1)) = 2 /\
  length (Entries (ImplOf (Ext (RunSession finished.1)))) = 1.
Proof. by vm_compute. Qed.

Lemma finished_small : small_ids (Ids (RunSession finished.1)).
Proof. split; apply (bool_decide_eq_true_1 _); by vm_compute. Qed.

#[local] Opaque sample_ids2 sample_tables.

Lemma finished_run : RunProgram sample_tables [] true rounds None first_run = (finished.1, finished.2).
Proof. exact (surjective_pairing finished). Qed.
Lemma first_ids : ids_le sample_ids2 (Ids (RunSession first_run)).
Proof. unfold first_run, first_session. cbn [RunSession Ids]. apply PreOrder_Reflexive. Qed.


(** Any larger bound gives the same run. *)
Lemma pipeline_converges_witness : RunPipeline sample_tables [] true 1000 None first_run = (finished.1, finished.2).
Proof.
  refine (proj2 (pipeline_converges main_names diff_names sample_ids2 sample_tables [] true rounds None first_run
    finished.1 finished.2 (le_n rounds) first_session_ok first_ids finished_run finished_small) 1000 _).
  apply Nat.leb_le. by vm_compute.
Defined.

(** The checkpoint after the first stage of the loop. *)
Definition checkpoint : PipelineCursor * Session EngineState := default (StartCursor, first_session) (Saved finished.1 !! 7).

Lemma checkpoint_step : Done checkpoint.1 = MatchesDiffing.
Proof. by vm_compute. Qed.

Lemma checkpoint_saved : (checkpoint.1, checkpoint.2) ∈ Saved finished.1.
Proof.
  rewrite <- surjective_pairing. unfold checkpoint. destruct (Saved finished.1 !! 7) as [x|] eqn:E.
  - by eapply list_elem_of_lookup_2.
  - exfalso. apply lookup_ge_None in E. rewrite (proj1 (proj2 finished_result)) in E. lia.
Qed.

Lemma finished_in_time : finished.2 <> Ok None.
Proof. by rewrite (proj1 finished_result). Qed.

(** The checkpoint with an engine that has prepared nothing, and without its trace. *)
Definition reopened (S : Session EngineState) : Session EngineState :=
  let E := ImplOf (Ext S) in
  MkSession (Ids S) (State S) (Frames S) [] (Config S) (Flags S)
    (MkStageData NoFacts (Final (Stages S)) (PointSeq (Stages S)) (CleanupCounters (Stages S)) (Iteration (Stages S)) [])
    (MkEngineState (with_cache (ById E) (ByText E) (Entries E) EmptyImpl) (MkHookState (Dones (HookOf (Ext S))) 0 0)).

Lemma reopened_related (S : Session EngineState) :
  session_related (EngineRelation0 := real_relation sample_tables) S S -> session_related (EngineRelation0 := real_relation sample_tables) S (reopened S).
Proof.
  intros H. destruct (sr_engine _ _ H) as [[_ _ _ Hl _] _]. by split.
Qed.

Lemma program_resumes_witness : exists r',
  RunProgram sample_tables [] true rounds (Some checkpoint.1) (MkRun (reopened checkpoint.2) StartCursor []) = (r', finished.2).
Proof.
  destruct (program_resumes [] true sample_tables rounds first_session StartCursor finished.1 finished.2
    checkpoint.1 checkpoint.2 (reopened checkpoint.2) StartCursor finished_run finished_in_time checkpoint_saved) as (r' & E & _).
  - apply reopened_related. exact (program_saved_related [] true sample_tables rounds DefaultConfig sample_ids2 StartCursor
      finished.1 finished.2 checkpoint.1 checkpoint.2 finished_run checkpoint_saved).
  - exists r'. exact E.
Defined.

(** ** Numbers *)

Lemma big_integers_exact_witness :
  let A := MkBigInt true (B "12") in let C := MkBigInt false (B "1005") in
  BigAdd A C = MkBigInt false (B "993") /\ big_value (BigAdd A C) = 993%Z.
Proof.
  destruct (big_integers_exact (MkBigInt true (B "12")) (MkBigInt false (B "1005"))) as [[_ H] _].
  - by split; [apply (bool_decide_unpack _); vm_compute|].
  - by split; [apply (bool_decide_unpack _); vm_compute|].
  - split; [by vm_compute|exact H].
Defined.

(** 1.50 and 15e-1. *)
Lemma decimals_equal_by_value_witness :
  exists b, DecimalEquals (Normalise (MkDecimal Finite false (B "150") (-2))) (Normalise (MkDecimal Finite false (B "15") (-1))) = Ok b /\
    b = true.
Proof.
  destruct (decimals_equal_by_value (MkDecimal Finite false (B "150") (-2)) (MkDecimal Finite false (B "15") (-1))) as (b & E & H).
  - reflexivity.
  - reflexivity.
  - by repeat constructor.
  - by repeat constructor.
  - exists b. split; [exact E|]. apply H. by vm_compute.
Defined.
