(* ===== verification/Cfg.v ===== *)
(** * Control-flow graphs: the data (src/include/dsigmatcher/ControlFlowGraph.h)

    The constants, the enumerations, the block and graph structures and the
    accessors of a graph; then the relations its specifications are stated with.

    Byte offsets, sizes and branch targets are [Z] with the width of the code
    written where arithmetic could leave it. Block numbers and counts of blocks
    and edges are [nat]: a graph has at most [CfgMaxBlocks] blocks with at most
    two successors each, far below 2^32. The sentinel [CfgNoBlock] is [None]. *)

From stdpp Require Import base option list numbers relations.
From Stdlib Require Import ZArith Lia.
From S2P Require Import Prelude.
Local Open Scope Z_scope.

Definition CfgNoTarget : Z := - 2 ^ 31.
Definition CfgDecodeWindowBytes : Z := 512.
Definition CfgMaxRangeBytes : Z := 512 * 1024.
Definition CfgMaxBlocks : Z := 32768.
Definition CfgMaxInstructions : Z := 262144.

Inductive CfgStatus :=
| StatusOk
| NullCode
| EmptyRange
| RangeTooLarge
| BackendUnavailable
| EntryUndecodable
| BlockLimitReached
| InstructionLimitReached.

#[export] Instance CfgStatus_eq_dec : EqDecision CfgStatus.
Proof. solve_decision. Defined.

Inductive CfgBlockEnd :=
| EndFallthrough
| EndRangeEnd
| EndDirectBranch
| EndConditionalBranch
| EndIndirectBranch
| EndReturn
| EndNoReturn
| EndDecodeError.

#[export] Instance CfgBlockEnd_eq_dec : EqDecision CfgBlockEnd.
Proof. solve_decision. Defined.

Definition CfgStatusName (Status : CfgStatus) : text :=
  match Status with
  | StatusOk => B "ok"
  | NullCode => B "null-code"
  | EmptyRange => B "empty-range"
  | RangeTooLarge => B "range-too-large"
  | BackendUnavailable => B "backend-unavailable"
  | EntryUndecodable => B "entry-undecodable"
  | BlockLimitReached => B "block-limit-reached"
  | InstructionLimitReached => B "instruction-limit-reached"
  end.

Definition CfgBlockEndName (e : CfgBlockEnd) : text :=
  match e with
  | EndFallthrough => B "fallthrough"
  | EndRangeEnd => B "range-end"
  | EndDirectBranch => B "direct-branch"
  | EndConditionalBranch => B "conditional-branch"
  | EndIndirectBranch => B "indirect-branch"
  | EndReturn => B "return"
  | EndNoReturn => B "no-return"
  | EndDecodeError => B "decode-error"
  end.

Record CfgBlock := MkCfgBlock {
  Offset : Z;
  Size : Z;
  BlockInstructionCount : Z;
  FirstSuccessor : nat;
  SuccessorCount : nat;
  FirstPredecessor : nat;
  PredecessorCount : nat;
  End_ : CfgBlockEnd;
  TargetOffset : Z;
  TargetOutsideRange : bool;
  IndirectTargetUnresolved : bool;
}.

(** [CfgBlock Block; Block.Offset = Start;] *)
Definition NewBlock (Start : Z) : CfgBlock :=
  MkCfgBlock Start 0 0 0 0 0 0 EndFallthrough CfgNoTarget false false.

Record ControlFlowGraph := MkGraph {
  Status : CfgStatus;
  Error : text;
  Blocks : list CfgBlock;
  SuccessorBlocks : list nat;
  PredecessorBlocks : list nat;
  ComponentOfBlock : list nat;
  ComponentNodeCounts : list nat;
  ComponentIsLoop : list bool;
  EntryBlock : option nat;
  NodeCount : nat;
  EdgeCount : nat;
  InstructionCount : Z;
  DecodedBytes : Z;
  StronglyConnectedCount : nat;
  LoopCount : nat;
  ConnectedComponentCount : nat;
  CyclomaticComplexity : Z;
  CallCount : Z;
  DecodeErrorCount : Z;
  OutOfRangeBranchCount : Z;
  UnresolvedIndirectBranchCount : Z;
  DroppedSuccessorCount : Z;
  OverlappingLeaderCount : Z;
  ExitBlockCount : Z;
  RangeBytes : Z;
}.

Definition EmptyGraph : ControlFlowGraph :=
  MkGraph StatusOk [] [] [] [] [] [] [] None 0 0 0 0 0 0 0 0 0 0 0 0 0 0 0 0.

(** [std::span] over [Count] elements of [v] from [First], cut at the end. *)
Definition span (v : list nat) (First Count : nat) : list nat := take Count (drop First v).

Definition BlockSuccessors (g : ControlFlowGraph) (Block : nat) : list nat :=
  match Blocks g !! Block with
  | None => []
  | Some Item =>
      if (length (SuccessorBlocks g) <=? FirstSuccessor Item)%nat then []
      else span (SuccessorBlocks g) (FirstSuccessor Item) (SuccessorCount Item)
  end.

Definition BlockPredecessors (g : ControlFlowGraph) (Block : nat) : list nat :=
  match Blocks g !! Block with
  | None => []
  | Some Item =>
      if (length (PredecessorBlocks g) <=? FirstPredecessor Item)%nat then []
      else span (PredecessorBlocks g) (FirstPredecessor Item) (PredecessorCount Item)
  end.

Definition HasSelfEdge (g : ControlFlowGraph) (Block : nat) : bool :=
  existsb (fun Successor => (Successor =? Block)%nat) (BlockSuccessors g Block).

(** [std::lower_bound] on a range sorted by offset: the first block that does
    not start before [Value], its index counted from [n]. *)
Fixpoint lower_bound (Value : Z) (n : nat) (bs : list CfgBlock) : option (nat * CfgBlock) :=
  match bs with
  | [] => None
  | b :: bs' => if Offset b <? Value then lower_bound Value (S n) bs' else Some (n, b)
  end.

Definition BlockAtOffset (g : ControlFlowGraph) (Off : Z) : option nat :=
  match lower_bound Off 0 (Blocks g) with
  | Some (n, b) => if Offset b =? Off then Some n else None
  | None => None
  end.

(** ** Assignments to one field of the graph *)

Definition set_Status (v : CfgStatus) (g : ControlFlowGraph) : ControlFlowGraph :=
  MkGraph v (Error g) (Blocks g) (SuccessorBlocks g) (PredecessorBlocks g) (ComponentOfBlock g)
    (ComponentNodeCounts g) (ComponentIsLoop g) (EntryBlock g) (NodeCount g) (EdgeCount g)
    (InstructionCount g) (DecodedBytes g) (StronglyConnectedCount g) (LoopCount g)
    (ConnectedComponentCount g) (CyclomaticComplexity g) (CallCount g) (DecodeErrorCount g)
    (OutOfRangeBranchCount g) (UnresolvedIndirectBranchCount g) (DroppedSuccessorCount g)
    (OverlappingLeaderCount g) (ExitBlockCount g) (RangeBytes g).

Definition set_Error (v : text) (g : ControlFlowGraph) : ControlFlowGraph :=
  MkGraph (Status g) v (Blocks g) (SuccessorBlocks g) (PredecessorBlocks g) (ComponentOfBlock g)
    (ComponentNodeCounts g) (ComponentIsLoop g) (EntryBlock g) (NodeCount g) (EdgeCount g)
    (InstructionCount g) (DecodedBytes g) (StronglyConnectedCount g) (LoopCount g)
    (ConnectedComponentCount g) (CyclomaticComplexity g) (CallCount g) (DecodeErrorCount g)
    (OutOfRangeBranchCount g) (UnresolvedIndirectBranchCount g) (DroppedSuccessorCount g)
    (OverlappingLeaderCount g) (ExitBlockCount g) (RangeBytes g).

Definition set_Blocks (v : list CfgBlock) (g : ControlFlowGraph) : ControlFlowGraph :=
  MkGraph (Status g) (Error g) v (SuccessorBlocks g) (PredecessorBlocks g) (ComponentOfBlock g)
    (ComponentNodeCounts g) (ComponentIsLoop g) (EntryBlock g) (NodeCount g) (EdgeCount g)
    (InstructionCount g) (DecodedBytes g) (StronglyConnectedCount g) (LoopCount g)
    (ConnectedComponentCount g) (CyclomaticComplexity g) (CallCount g) (DecodeErrorCount g)
    (OutOfRangeBranchCount g) (UnresolvedIndirectBranchCount g) (DroppedSuccessorCount g)
    (OverlappingLeaderCount g) (ExitBlockCount g) (RangeBytes g).

Definition set_SuccessorBlocks (v : list nat) (g : ControlFlowGraph) : ControlFlowGraph :=
  MkGraph (Status g) (Error g) (Blocks g) v (PredecessorBlocks g) (ComponentOfBlock g)
    (ComponentNodeCounts g) (ComponentIsLoop g) (EntryBlock g) (NodeCount g) (EdgeCount g)
    (InstructionCount g) (DecodedBytes g) (StronglyConnectedCount g) (LoopCount g)
    (ConnectedComponentCount g) (CyclomaticComplexity g) (CallCount g) (DecodeErrorCount g)
    (OutOfRangeBranchCount g) (UnresolvedIndirectBranchCount g) (DroppedSuccessorCount g)
    (OverlappingLeaderCount g) (ExitBlockCount g) (RangeBytes g).

Definition set_PredecessorBlocks (v : list nat) (g : ControlFlowGraph) : ControlFlowGraph :=
  MkGraph (Status g) (Error g) (Blocks g) (SuccessorBlocks g) v (ComponentOfBlock g)
    (ComponentNodeCounts g) (ComponentIsLoop g) (EntryBlock g) (NodeCount g) (EdgeCount g)
    (InstructionCount g) (DecodedBytes g) (StronglyConnectedCount g) (LoopCount g)
    (ConnectedComponentCount g) (CyclomaticComplexity g) (CallCount g) (DecodeErrorCount g)
    (OutOfRangeBranchCount g) (UnresolvedIndirectBranchCount g) (DroppedSuccessorCount g)
    (OverlappingLeaderCount g) (ExitBlockCount g) (RangeBytes g).

Definition set_ComponentOfBlock (v : list nat) (g : ControlFlowGraph) : ControlFlowGraph :=
  MkGraph (Status g) (Error g) (Blocks g) (SuccessorBlocks g) (PredecessorBlocks g) v
    (ComponentNodeCounts g) (ComponentIsLoop g) (EntryBlock g) (NodeCount g) (EdgeCount g)
    (InstructionCount g) (DecodedBytes g) (StronglyConnectedCount g) (LoopCount g)
    (ConnectedComponentCount g) (CyclomaticComplexity g) (CallCount g) (DecodeErrorCount g)
    (OutOfRangeBranchCount g) (UnresolvedIndirectBranchCount g) (DroppedSuccessorCount g)
    (OverlappingLeaderCount g) (ExitBlockCount g) (RangeBytes g).

Definition set_ComponentNodeCounts (v : list nat) (g : ControlFlowGraph) : ControlFlowGraph :=
  MkGraph (Status g) (Error g) (Blocks g) (SuccessorBlocks g) (PredecessorBlocks g)
    (ComponentOfBlock g) v (ComponentIsLoop g) (EntryBlock g) (NodeCount g) (EdgeCount g)
    (InstructionCount g) (DecodedBytes g) (StronglyConnectedCount g) (LoopCount g)
    (ConnectedComponentCount g) (CyclomaticComplexity g) (CallCount g) (DecodeErrorCount g)
    (OutOfRangeBranchCount g) (UnresolvedIndirectBranchCount g) (DroppedSuccessorCount g)
    (OverlappingLeaderCount g) (ExitBlockCount g) (RangeBytes g).

Definition set_ComponentIsLoop (v : list bool) (g : ControlFlowGraph) : ControlFlowGraph :=
  MkGraph (Status g) (Error g) (Blocks g) (SuccessorBlocks g) (PredecessorBlocks g)
    (ComponentOfBlock g) (ComponentNodeCounts g) v (EntryBlock g) (NodeCount g) (EdgeCount g)
    (InstructionCount g) (DecodedBytes g) (StronglyConnectedCount g) (LoopCount g)
    (ConnectedComponentCount g) (CyclomaticComplexity g) (CallCount g) (DecodeErrorCount g)
    (OutOfRangeBranchCount g) (UnresolvedIndirectBranchCount g) (DroppedSuccessorCount g)
    (OverlappingLeaderCount g) (ExitBlockCount g) (RangeBytes g).

Definition set_EntryBlock (v : option nat) (g : ControlFlowGraph) : ControlFlowGraph :=
  MkGraph (Status g) (Error g) (Blocks g) (SuccessorBlocks g) (PredecessorBlocks g)
    (ComponentOfBlock g) (ComponentNodeCounts g) (ComponentIsLoop g) v (NodeCount g) (EdgeCount
    g) (InstructionCount g) (DecodedBytes g) (StronglyConnectedCount g) (LoopCount g)
    (ConnectedComponentCount g) (CyclomaticComplexity g) (CallCount g) (DecodeErrorCount g)
    (OutOfRangeBranchCount g) (UnresolvedIndirectBranchCount g) (DroppedSuccessorCount g)
    (OverlappingLeaderCount g) (ExitBlockCount g) (RangeBytes g).

Definition set_NodeCount (v : nat) (g : ControlFlowGraph) : ControlFlowGraph :=
  MkGraph (Status g) (Error g) (Blocks g) (SuccessorBlocks g) (PredecessorBlocks g)
    (ComponentOfBlock g) (ComponentNodeCounts g) (ComponentIsLoop g) (EntryBlock g) v (EdgeCount
    g) (InstructionCount g) (DecodedBytes g) (StronglyConnectedCount g) (LoopCount g)
    (ConnectedComponentCount g) (CyclomaticComplexity g) (CallCount g) (DecodeErrorCount g)
    (OutOfRangeBranchCount g) (UnresolvedIndirectBranchCount g) (DroppedSuccessorCount g)
    (OverlappingLeaderCount g) (ExitBlockCount g) (RangeBytes g).

Definition set_EdgeCount (v : nat) (g : ControlFlowGraph) : ControlFlowGraph :=
  MkGraph (Status g) (Error g) (Blocks g) (SuccessorBlocks g) (PredecessorBlocks g)
    (ComponentOfBlock g) (ComponentNodeCounts g) (ComponentIsLoop g) (EntryBlock g) (NodeCount
    g) v (InstructionCount g) (DecodedBytes g) (StronglyConnectedCount g) (LoopCount g)
    (ConnectedComponentCount g) (CyclomaticComplexity g) (CallCount g) (DecodeErrorCount g)
    (OutOfRangeBranchCount g) (UnresolvedIndirectBranchCount g) (DroppedSuccessorCount g)
    (OverlappingLeaderCount g) (ExitBlockCount g) (RangeBytes g).

Definition set_InstructionCount (v : Z) (g : ControlFlowGraph) : ControlFlowGraph :=
  MkGraph (Status g) (Error g) (Blocks g) (SuccessorBlocks g) (PredecessorBlocks g)
    (ComponentOfBlock g) (ComponentNodeCounts g) (ComponentIsLoop g) (EntryBlock g) (NodeCount
    g) (EdgeCount g) v (DecodedBytes g) (StronglyConnectedCount g) (LoopCount g)
    (ConnectedComponentCount g) (CyclomaticComplexity g) (CallCount g) (DecodeErrorCount g)
    (OutOfRangeBranchCount g) (UnresolvedIndirectBranchCount g) (DroppedSuccessorCount g)
    (OverlappingLeaderCount g) (ExitBlockCount g) (RangeBytes g).

Definition set_DecodedBytes (v : Z) (g : ControlFlowGraph) : ControlFlowGraph :=
  MkGraph (Status g) (Error g) (Blocks g) (SuccessorBlocks g) (PredecessorBlocks g)
    (ComponentOfBlock g) (ComponentNodeCounts g) (ComponentIsLoop g) (EntryBlock g) (NodeCount
    g) (EdgeCount g) (InstructionCount g) v (StronglyConnectedCount g) (LoopCount g)
    (ConnectedComponentCount g) (CyclomaticComplexity g) (CallCount g) (DecodeErrorCount g)
    (OutOfRangeBranchCount g) (UnresolvedIndirectBranchCount g) (DroppedSuccessorCount g)
    (OverlappingLeaderCount g) (ExitBlockCount g) (RangeBytes g).

Definition set_StronglyConnectedCount (v : nat) (g : ControlFlowGraph) : ControlFlowGraph :=
  MkGraph (Status g) (Error g) (Blocks g) (SuccessorBlocks g) (PredecessorBlocks g)
    (ComponentOfBlock g) (ComponentNodeCounts g) (ComponentIsLoop g) (EntryBlock g) (NodeCount
    g) (EdgeCount g) (InstructionCount g) (DecodedBytes g) v (LoopCount g)
    (ConnectedComponentCount g) (CyclomaticComplexity g) (CallCount g) (DecodeErrorCount g)
    (OutOfRangeBranchCount g) (UnresolvedIndirectBranchCount g) (DroppedSuccessorCount g)
    (OverlappingLeaderCount g) (ExitBlockCount g) (RangeBytes g).

Definition set_LoopCount (v : nat) (g : ControlFlowGraph) : ControlFlowGraph :=
  MkGraph (Status g) (Error g) (Blocks g) (SuccessorBlocks g) (PredecessorBlocks g)
    (ComponentOfBlock g) (ComponentNodeCounts g) (ComponentIsLoop g) (EntryBlock g) (NodeCount
    g) (EdgeCount g) (InstructionCount g) (DecodedBytes g) (StronglyConnectedCount g) v
    (ConnectedComponentCount g) (CyclomaticComplexity g) (CallCount g) (DecodeErrorCount g)
    (OutOfRangeBranchCount g) (UnresolvedIndirectBranchCount g) (DroppedSuccessorCount g)
    (OverlappingLeaderCount g) (ExitBlockCount g) (RangeBytes g).

Definition set_ConnectedComponentCount (v : nat) (g : ControlFlowGraph) : ControlFlowGraph :=
  MkGraph (Status g) (Error g) (Blocks g) (SuccessorBlocks g) (PredecessorBlocks g)
    (ComponentOfBlock g) (ComponentNodeCounts g) (ComponentIsLoop g) (EntryBlock g) (NodeCount
    g) (EdgeCount g) (InstructionCount g) (DecodedBytes g) (StronglyConnectedCount g) (LoopCount
    g) v (CyclomaticComplexity g) (CallCount g) (DecodeErrorCount g) (OutOfRangeBranchCount g)
    (UnresolvedIndirectBranchCount g) (DroppedSuccessorCount g) (OverlappingLeaderCount g)
    (ExitBlockCount g) (RangeBytes g).

Definition set_CyclomaticComplexity (v : Z) (g : ControlFlowGraph) : ControlFlowGraph :=
  MkGraph (Status g) (Error g) (Blocks g) (SuccessorBlocks g) (PredecessorBlocks g)
    (ComponentOfBlock g) (ComponentNodeCounts g) (ComponentIsLoop g) (EntryBlock g) (NodeCount
    g) (EdgeCount g) (InstructionCount g) (DecodedBytes g) (StronglyConnectedCount g) (LoopCount
    g) (ConnectedComponentCount g) v (CallCount g) (DecodeErrorCount g) (OutOfRangeBranchCount
    g) (UnresolvedIndirectBranchCount g) (DroppedSuccessorCount g) (OverlappingLeaderCount g)
    (ExitBlockCount g) (RangeBytes g).

Definition set_CallCount (v : Z) (g : ControlFlowGraph) : ControlFlowGraph :=
  MkGraph (Status g) (Error g) (Blocks g) (SuccessorBlocks g) (PredecessorBlocks g)
    (ComponentOfBlock g) (ComponentNodeCounts g) (ComponentIsLoop g) (EntryBlock g) (NodeCount
    g) (EdgeCount g) (InstructionCount g) (DecodedBytes g) (StronglyConnectedCount g) (LoopCount
    g) (ConnectedComponentCount g) (CyclomaticComplexity g) v (DecodeErrorCount g)
    (OutOfRangeBranchCount g) (UnresolvedIndirectBranchCount g) (DroppedSuccessorCount g)
    (OverlappingLeaderCount g) (ExitBlockCount g) (RangeBytes g).

Definition set_DecodeErrorCount (v : Z) (g : ControlFlowGraph) : ControlFlowGraph :=
  MkGraph (Status g) (Error g) (Blocks g) (SuccessorBlocks g) (PredecessorBlocks g)
    (ComponentOfBlock g) (ComponentNodeCounts g) (ComponentIsLoop g) (EntryBlock g) (NodeCount
    g) (EdgeCount g) (InstructionCount g) (DecodedBytes g) (StronglyConnectedCount g) (LoopCount
    g) (ConnectedComponentCount g) (CyclomaticComplexity g) (CallCount g) v
    (OutOfRangeBranchCount g) (UnresolvedIndirectBranchCount g) (DroppedSuccessorCount g)
    (OverlappingLeaderCount g) (ExitBlockCount g) (RangeBytes g).

Definition set_OutOfRangeBranchCount (v : Z) (g : ControlFlowGraph) : ControlFlowGraph :=
  MkGraph (Status g) (Error g) (Blocks g) (SuccessorBlocks g) (PredecessorBlocks g)
    (ComponentOfBlock g) (ComponentNodeCounts g) (ComponentIsLoop g) (EntryBlock g) (NodeCount
    g) (EdgeCount g) (InstructionCount g) (DecodedBytes g) (StronglyConnectedCount g) (LoopCount
    g) (ConnectedComponentCount g) (CyclomaticComplexity g) (CallCount g) (DecodeErrorCount g) v
    (UnresolvedIndirectBranchCount g) (DroppedSuccessorCount g) (OverlappingLeaderCount g)
    (ExitBlockCount g) (RangeBytes g).

Definition set_UnresolvedIndirectBranchCount (v : Z) (g : ControlFlowGraph) : ControlFlowGraph :=
  MkGraph (Status g) (Error g) (Blocks g) (SuccessorBlocks g) (PredecessorBlocks g)
    (ComponentOfBlock g) (ComponentNodeCounts g) (ComponentIsLoop g) (EntryBlock g) (NodeCount
    g) (EdgeCount g) (InstructionCount g) (DecodedBytes g) (StronglyConnectedCount g) (LoopCount
    g) (ConnectedComponentCount g) (CyclomaticComplexity g) (CallCount g) (DecodeErrorCount g)
    (OutOfRangeBranchCount g) v (DroppedSuccessorCount g) (OverlappingLeaderCount g)
    (ExitBlockCount g) (RangeBytes g).

Definition set_DroppedSuccessorCount (v : Z) (g : ControlFlowGraph) : ControlFlowGraph :=
  MkGraph (Status g) (Error g) (Blocks g) (SuccessorBlocks g) (PredecessorBlocks g)
    (ComponentOfBlock g) (ComponentNodeCounts g) (ComponentIsLoop g) (EntryBlock g) (NodeCount
    g) (EdgeCount g) (InstructionCount g) (DecodedBytes g) (StronglyConnectedCount g) (LoopCount
    g) (ConnectedComponentCount g) (CyclomaticComplexity g) (CallCount g) (DecodeErrorCount g)
    (OutOfRangeBranchCount g) (UnresolvedIndirectBranchCount g) v (OverlappingLeaderCount g)
    (ExitBlockCount g) (RangeBytes g).

Definition set_OverlappingLeaderCount (v : Z) (g : ControlFlowGraph) : ControlFlowGraph :=
  MkGraph (Status g) (Error g) (Blocks g) (SuccessorBlocks g) (PredecessorBlocks g)
    (ComponentOfBlock g) (ComponentNodeCounts g) (ComponentIsLoop g) (EntryBlock g) (NodeCount
    g) (EdgeCount g) (InstructionCount g) (DecodedBytes g) (StronglyConnectedCount g) (LoopCount
    g) (ConnectedComponentCount g) (CyclomaticComplexity g) (CallCount g) (DecodeErrorCount g)
    (OutOfRangeBranchCount g) (UnresolvedIndirectBranchCount g) (DroppedSuccessorCount g) v
    (ExitBlockCount g) (RangeBytes g).

Definition set_ExitBlockCount (v : Z) (g : ControlFlowGraph) : ControlFlowGraph :=
  MkGraph (Status g) (Error g) (Blocks g) (SuccessorBlocks g) (PredecessorBlocks g)
    (ComponentOfBlock g) (ComponentNodeCounts g) (ComponentIsLoop g) (EntryBlock g) (NodeCount
    g) (EdgeCount g) (InstructionCount g) (DecodedBytes g) (StronglyConnectedCount g) (LoopCount
    g) (ConnectedComponentCount g) (CyclomaticComplexity g) (CallCount g) (DecodeErrorCount g)
    (OutOfRangeBranchCount g) (UnresolvedIndirectBranchCount g) (DroppedSuccessorCount g)
    (OverlappingLeaderCount g) v (RangeBytes g).

Definition set_RangeBytes (v : Z) (g : ControlFlowGraph) : ControlFlowGraph :=
  MkGraph (Status g) (Error g) (Blocks g) (SuccessorBlocks g) (PredecessorBlocks g)
    (ComponentOfBlock g) (ComponentNodeCounts g) (ComponentIsLoop g) (EntryBlock g) (NodeCount
    g) (EdgeCount g) (InstructionCount g) (DecodedBytes g) (StronglyConnectedCount g) (LoopCount
    g) (ConnectedComponentCount g) (CyclomaticComplexity g) (CallCount g) (DecodeErrorCount g)
    (OutOfRangeBranchCount g) (UnresolvedIndirectBranchCount g) (DroppedSuccessorCount g)
    (OverlappingLeaderCount g) (ExitBlockCount g) v.

(** ** Assignments to one field of a block *)

Definition set_Size (v : Z) (b : CfgBlock) : CfgBlock :=
  MkCfgBlock (Offset b) v (BlockInstructionCount b) (FirstSuccessor b) (SuccessorCount b)
    (FirstPredecessor b) (PredecessorCount b) (End_ b) (TargetOffset b) (TargetOutsideRange b)
    (IndirectTargetUnresolved b).

Definition set_BlockInstructionCount (v : Z) (b : CfgBlock) : CfgBlock :=
  MkCfgBlock (Offset b) (Size b) v (FirstSuccessor b) (SuccessorCount b) (FirstPredecessor b)
    (PredecessorCount b) (End_ b) (TargetOffset b) (TargetOutsideRange b)
    (IndirectTargetUnresolved b).

Definition set_FirstSuccessor (v : nat) (b : CfgBlock) : CfgBlock :=
  MkCfgBlock (Offset b) (Size b) (BlockInstructionCount b) v (SuccessorCount b)
    (FirstPredecessor b) (PredecessorCount b) (End_ b) (TargetOffset b) (TargetOutsideRange b)
    (IndirectTargetUnresolved b).

Definition set_SuccessorCount (v : nat) (b : CfgBlock) : CfgBlock :=
  MkCfgBlock (Offset b) (Size b) (BlockInstructionCount b) (FirstSuccessor b) v
    (FirstPredecessor b) (PredecessorCount b) (End_ b) (TargetOffset b) (TargetOutsideRange b)
    (IndirectTargetUnresolved b).

Definition set_FirstPredecessor (v : nat) (b : CfgBlock) : CfgBlock :=
  MkCfgBlock (Offset b) (Size b) (BlockInstructionCount b) (FirstSuccessor b) (SuccessorCount b)
    v (PredecessorCount b) (End_ b) (TargetOffset b) (TargetOutsideRange b)
    (IndirectTargetUnresolved b).

Definition set_PredecessorCount (v : nat) (b : CfgBlock) : CfgBlock :=
  MkCfgBlock (Offset b) (Size b) (BlockInstructionCount b) (FirstSuccessor b) (SuccessorCount b)
    (FirstPredecessor b) v (End_ b) (TargetOffset b) (TargetOutsideRange b)
    (IndirectTargetUnresolved b).

Definition set_End_ (v : CfgBlockEnd) (b : CfgBlock) : CfgBlock :=
  MkCfgBlock (Offset b) (Size b) (BlockInstructionCount b) (FirstSuccessor b) (SuccessorCount b)
    (FirstPredecessor b) (PredecessorCount b) v (TargetOffset b) (TargetOutsideRange b)
    (IndirectTargetUnresolved b).

Definition set_TargetOffset (v : Z) (b : CfgBlock) : CfgBlock :=
  MkCfgBlock (Offset b) (Size b) (BlockInstructionCount b) (FirstSuccessor b) (SuccessorCount b)
    (FirstPredecessor b) (PredecessorCount b) (End_ b) v (TargetOutsideRange b)
    (IndirectTargetUnresolved b).

Definition set_TargetOutsideRange (v : bool) (b : CfgBlock) : CfgBlock :=
  MkCfgBlock (Offset b) (Size b) (BlockInstructionCount b) (FirstSuccessor b) (SuccessorCount b)
    (FirstPredecessor b) (PredecessorCount b) (End_ b) (TargetOffset b) v
    (IndirectTargetUnresolved b).

Definition set_IndirectTargetUnresolved (v : bool) (b : CfgBlock) : CfgBlock :=
  MkCfgBlock (Offset b) (Size b) (BlockInstructionCount b) (FirstSuccessor b) (SuccessorCount b)
    (FirstPredecessor b) (PredecessorCount b) (End_ b) (TargetOffset b) (TargetOutsideRange b) v.

(** ** Control-flow graphs: edges, paths and components

    The relations the theorems on graphs are stated with: the edges between the
    blocks of a graph, paths, mutual reachability, and connection when edges
    are followed in both directions. *)
Local Close Scope Z_scope.

Definition edge (g : ControlFlowGraph) (u v : nat) : Prop :=
  v ∈ BlockSuccessors g u /\ u < NodeCount g /\ v < NodeCount g.

#[export] Instance edge_dec g u v : Decision (edge g u v).
Proof. unfold edge. apply _. Defined.

(** A path, of any length; a path of at least one edge; a path that may follow
    edges backwards. *)
Abbreviation path g := (rtc (edge g)).
Abbreviation cycle_path g := (tc (edge g)).
Abbreviation linked g := (rtsc (edge g)).

Definition mutual (g : ControlFlowGraph) (u v : nat) : Prop := path g u v /\ path g v u.

#[export] Instance mutual_equivalence g : Equivalence (mutual g).
Proof.
  split.
  - intros u. by split.
  - intros u v [H1 H2]. by split.
  - intros u v w [H1 H2] [H3 H4]. split; by etrans.
Qed.

Lemma path_node (g : ControlFlowGraph) (u v : nat) :
  path g u v -> u < NodeCount g -> v < NodeCount g.
Proof. induction 1 as [|u w v (_ & _ & Hw) _ IH]; auto. Qed.

(** A set closed under edges is closed under paths. *)
Lemma path_closed (g : ControlFlowGraph) (P : nat -> Prop) (u v : nat) :
  (forall a b, P a -> edge g a b -> P b) -> path g u v -> P u -> P v.
Proof. intros HP. induction 1 as [|u w v E _ IH]; [done|]. intros Hu. by apply IH, (HP u). Qed.

Lemma elem_of_BlockSuccessors (g : ControlFlowGraph) (u v : nat) :
  v ∈ BlockSuccessors g u <-> exists j, BlockSuccessors g u !! j = Some v.
Proof. apply list_elem_of_lookup. Qed.

(** Graphs with the same successors have the same paths. *)
Section Same.
Context (g h : ControlFlowGraph) (EN : NodeCount g = NodeCount h).
Context (ES : forall i, BlockSuccessors g i = BlockSuccessors h i).

Lemma edge_ext u v : edge g u v <-> edge h u v.
Proof. unfold edge. by rewrite ES, EN. Qed.

Lemma path_ext u v : path g u v <-> path h u v.
Proof. split; apply rtc_subrel; intros a b; apply edge_ext. Qed.

Lemma cycle_ext u v : cycle_path g u v <-> cycle_path h u v.
Proof.
  split; (induction 1 as [a b H|a b c H _ IH]; [apply tc_once|eapply tc_l; [|exact IH]]; by apply edge_ext).
Qed.

Lemma linked_ext u v : linked g u v <-> linked h u v.
Proof. split; apply rtc_subrel; intros a b [H|H]; [left|right|left|right]; by apply edge_ext. Qed.
End Same.

(** ** Filters *)

Lemma filter_ext_in {A} (P Q : A -> Prop) `{!forall x, Decision (P x), !forall x, Decision (Q x)} (l : list A) :
  (forall x, x ∈ l -> P x <-> Q x) -> filter P l = filter Q l.
Proof.
  induction l as [|x l IH]; intros HP; [done|]. rewrite !filter_cons, IH by (intros; apply HP; by right).
  specialize (HP x (list_elem_of_here _ _)). repeat case_decide; tauto.
Qed.

Lemma filter_every {A} (P : A -> Prop) `{!forall x, Decision (P x)} (l : list A) :
  (forall x, x ∈ l -> P x) -> filter P l = l.
Proof.
  induction l as [|x l IH]; intros HP; [done|].
  rewrite filter_cons_True by (apply HP; by left). f_equal. apply IH. intros. apply HP. by right.
Qed.

Lemma filter_nothing {A} (P : A -> Prop) `{!forall x, Decision (P x)} (l : list A) :
  (forall x, x ∈ l -> ~ P x) -> filter P l = [].
Proof.
  induction l as [|x l IH]; intros HP; [done|].
  rewrite filter_cons_False by (apply HP; by left). apply IH. intros. apply HP. by right.
Qed.
