(* ===== verification/CfgDecode.v ===== *)
(** * Control-flow graphs: instructions and slots

    The decoder interface of src/include/dsigmatcher/Disassembler.h, the
    decoding loop of src/src/DisassemblerZydis.cpp, and the classification of an
    instruction by the scanner of src/src/ControlFlowGraph.cpp. *)

From stdpp Require Import base option list numbers.
From Stdlib Require Import ZArith Lia.
From S2P Require Import Prelude Cfg.
Local Open Scope Z_scope.

(** ** The decoder interface *)

Inductive DecodeStatus :=
| DecodeSuccess
| NoMoreData
| DecodingError
| InstructionTooLong
| BadRegister
| OtherError.

Definition DecodeStatusName (s : DecodeStatus) : text :=
  match s with
  | DecodeSuccess => B "success"
  | NoMoreData => B "no-more-data"
  | DecodingError => B "decoding-error"
  | InstructionTooLong => B "instruction-too-long"
  | BadRegister => B "bad-register"
  | OtherError => B "other-error"
  end.

Inductive OperandKind :=
| Unused
| Register_
| Memory
| Immediate_
| Pointer.

#[export] Instance OperandKind_eq_dec : EqDecision OperandKind.
Proof. solve_decision. Defined.

Record OperandInfo := MkOperandInfo {
  Kind : OperandKind;
  Immediate : Z;
  ImmediateIsRelative : bool;
  Displacement : Z;
  HasDisplacement : bool;
  BaseRegister : Z;
  IndexRegister : Z;
  Scale : Z;
}.

Definition EmptyOperand : OperandInfo := MkOperandInfo Unused 0 false 0 false 0 0 0.

Definition MaxVisibleOperands : nat := 5.

Record InstructionInfo := MkInstructionInfo {
  InfoOffset : Z;
  InfoLength : Z;
  InfoMnemonic : Z;
  OperandCount : nat;
  Operands : list OperandInfo;
}.

(** [DisassemblerBackend]: the instructions appended for a window of code bytes
    at an address, and the name of a mnemonic. *)
Record DisassemblerBackend := MkBackend {
  DecodeRange : list byte -> Z -> DecodeStatus * list InstructionInfo;
  MnemonicName : Z -> text;
}.

(** ** The Zydis backend

    Zydis itself is a third-party library: a call of [ZydisDecoderDecodeFull]
    is a parameter that yields a status or a decoded instruction. *)

Record ZydisDecodedOperand := MkZydisOperand {
  z_type : OperandKind;
  z_disp_value : Z;
  z_has_displacement : bool;
  z_base : Z;
  z_index : Z;
  z_scale : Z;
  z_value_u : Z;
  z_is_relative : bool;
}.

Record ZydisDecodedInstruction := MkZydisInstruction {
  z_length : Z;
  z_mnemonic : Z;
  z_operand_count_visible : nat;
  z_operands : list ZydisDecodedOperand;
}.

(** The 64 bits of [imm.value] as [int64_t]: the signed and the unsigned member
    of the union are the same bits. *)
Definition as_int64 (u : Z) : Z := if 2 ^ 63 <=? w64 u then w64 u - 2 ^ 64 else w64 u.

Definition MapOperand (Operand : ZydisDecodedOperand) : OperandInfo :=
  match z_type Operand with
  | Register_ => MkOperandInfo Register_ 0 false 0 false 0 0 0
  | Memory =>
      MkOperandInfo Memory 0 false (z_disp_value Operand) (z_has_displacement Operand)
        (w16 (z_base Operand)) (w16 (z_index Operand)) (z_scale Operand)
  | Immediate_ =>
      MkOperandInfo Immediate_ (as_int64 (z_value_u Operand)) (z_is_relative Operand) 0 false 0 0 0
  | Pointer => MkOperandInfo Pointer 0 false 0 false 0 0 0
  | Unused => EmptyOperand
  end.

Inductive ZyanStatus :=
| ZYDIS_STATUS_NO_MORE_DATA
| ZYDIS_STATUS_DECODING_ERROR
| ZYDIS_STATUS_INSTRUCTION_TOO_LONG
| ZYDIS_STATUS_BAD_REGISTER
| ZYDIS_STATUS_OTHER.

Definition MapStatus (Status : ZyanStatus) : DecodeStatus :=
  match Status with
  | ZYDIS_STATUS_NO_MORE_DATA => NoMoreData
  | ZYDIS_STATUS_DECODING_ERROR => DecodingError
  | ZYDIS_STATUS_INSTRUCTION_TOO_LONG => InstructionTooLong
  | ZYDIS_STATUS_BAD_REGISTER => BadRegister
  | ZYDIS_STATUS_OTHER => OtherError
  end.

Section ZydisBackend.
Context (ZydisDecoderDecodeFull : list byte -> ZyanStatus + ZydisDecodedInstruction).

(** The [InstructionInfo] of a decoded instruction. *)
Definition info_of (Offset : Z) (Instruction : ZydisDecodedInstruction) : InstructionInfo :=
  let Count := if (z_operand_count_visible Instruction <? MaxVisibleOperands)%nat
               then z_operand_count_visible Instruction else MaxVisibleOperands in
  MkInstructionInfo (w32 Offset) (z_length Instruction) (w16 (z_mnemonic Instruction)) Count
    (map MapOperand (take Count (z_operands Instruction)) ++
     replicate (MaxVisibleOperands - Count) EmptyOperand).

(** [while (Offset < Length)]; [Rest] is the code from [Offset] on. *)
Fixpoint decode_loop (fuel : nat) (Offset : Z) (Rest : list byte)
    : option (DecodeStatus * list InstructionInfo) :=
  match fuel with
  | O => None
  | S fuel' =>
      match Rest with
      | [] => Some (DecodeSuccess, [])
      | _ :: _ =>
          match ZydisDecoderDecodeFull Rest with
          | inl Status => Some (MapStatus Status, [])
          | inr Instruction =>
              if z_length Instruction =? 0 then Some (OtherError, [])
              else
                r ← decode_loop fuel' (Offset + z_length Instruction)
                      (drop (Z.to_nat (z_length Instruction)) Rest);
                Some (r.1, info_of Offset Instruction :: r.2)
          end
      end
  end.

Definition ZydisDecodeRange (Code : list byte) (RuntimeAddress : Z)
    : DecodeStatus * list InstructionInfo :=
  default (OtherError, []) (decode_loop (S (length Code)) 0 Code).

Definition ZydisBackend (ZydisMnemonicGetString : Z -> option text) : DisassemblerBackend :=
  MkBackend ZydisDecodeRange
    (fun Mnemonic => default [] (ZydisMnemonicGetString Mnemonic)).
End ZydisBackend.

(** ** The class of a mnemonic *)

Inductive CfgInstructionRole :=
| RoleNormal
| RoleDirectBranch
| RoleConditionalBranch
| RoleIndirectBranch
| RoleDirectCall
| RoleIndirectCall
| RoleReturn
| RoleNoReturn
| RoleInvalid.

#[export] Instance CfgInstructionRole_eq_dec : EqDecision CfgInstructionRole.
Proof. solve_decision. Defined.

Inductive CfgNameKind :=
| KindNone
| KindJump
| KindCall
| KindConditionalJump
| KindReturn
| KindNoReturn.

Record CfgDecodedSlot := MkSlot_ {
  RelativeTarget : Z;
  Mnemonic : Z;
  Length : Z;
  Role : CfgInstructionRole;
}.

(** A default-constructed slot. *)
Definition EmptySlot : CfgDecodedSlot := MkSlot_ CfgNoTarget 0 0 RoleNormal.

Definition CfgConditionalJumpNames : list text :=
  [B "jo"; B "jno"; B "jb"; B "jnb"; B "jbe"; B "jnbe"; B "jl"; B "jnl";
   B "jle"; B "jnle"; B "jz"; B "jnz"; B "js"; B "jns"; B "jp"; B "jnp";
   B "jcxz"; B "jecxz"; B "jrcxz"; B "jkzd"; B "jknzd"; B "loop"; B "loope"; B "loopne"].

Definition IsConditionalJumpName (Name : text) : bool :=
  existsb (fun Candidate => bool_decide (Candidate = Name)) CfgConditionalJumpNames.

Definition NameKindOf (Name : text) : CfgNameKind :=
  let named (s : text) := bool_decide (Name = s) in
  match Name with
  | [] => KindNone
  | c :: _ =>
      match c with
      | "j"%byte =>
          if named (B "jmp") then KindJump
          else if IsConditionalJumpName Name then KindConditionalJump else KindNone
      | "c"%byte => if named (B "call") then KindCall else KindNone
      | "r"%byte => if named (B "ret") then KindReturn else KindNone
      | "i"%byte =>
          if named (B "iret") || named (B "iretd") || named (B "iretq") then KindReturn
          else if named (B "int") || named (B "int3") then KindNoReturn else KindNone
      | "l"%byte => if IsConditionalJumpName Name then KindConditionalJump else KindNone
      | "u"%byte =>
          if named (B "ud0") || named (B "ud1") || named (B "ud2") then KindNoReturn else KindNone
      | "h"%byte => if named (B "hlt") then KindNoReturn else KindNone
      | _ => KindNone
      end
  end.

(** ** Slots *)

(** The displacement of the first relative immediate operand. *)
Fixpoint displacement_loop (ops : list OperandInfo) : option Z :=
  match ops with
  | [] => None
  | Operand :: ops' =>
      if bool_decide (Kind Operand = Immediate_) && ImmediateIsRelative Operand
      then Some (Immediate Operand) else displacement_loop ops'
  end.

Definition RelativeDisplacementOf (Info : InstructionInfo) : option Z :=
  displacement_loop (take (OperandCount Info) (Operands Info)).

Definition CfgOutsideRangeTarget : Z := 2 ^ 31 - 1.

(** The sum is one of [int64_t]: displacements of x64 branches have 32 bits. *)
Definition RelativeTargetOf (Off : Z) (Len Disp : Z) : Z :=
  let Candidate := Off + Len + Disp in
  if CfgOutsideRangeTarget - 1 <? Candidate then CfgOutsideRangeTarget
  else if Candidate <? - 2 ^ 31 + 1 then CfgOutsideRangeTarget
  else Candidate.

Definition TargetInsideRange (Target Len : Z) : bool :=
  negb (Target =? CfgNoTarget) && (0 <=? Target) && (Target <? Len).

Definition MakeSlot (Backend : DisassemblerBackend) (Info : InstructionInfo) (Off : Z)
    : CfgDecodedSlot :=
  let slot (Target : Z) (r : CfgInstructionRole) :=
    MkSlot_ Target (InfoMnemonic Info) (InfoLength Info) r in
  match NameKindOf (MnemonicName Backend (InfoMnemonic Info)), RelativeDisplacementOf Info with
  | KindJump, Some d => slot (RelativeTargetOf Off (InfoLength Info) d) RoleDirectBranch
  | KindJump, None => slot CfgNoTarget RoleIndirectBranch
  | KindConditionalJump, Some d =>
      slot (RelativeTargetOf Off (InfoLength Info) d) RoleConditionalBranch
  | KindConditionalJump, None => slot CfgNoTarget RoleIndirectBranch
  | KindCall, Some _ => slot CfgNoTarget RoleDirectCall
  | KindCall, None => slot CfgNoTarget RoleIndirectCall
  | KindReturn, _ => slot CfgNoTarget RoleReturn
  | KindNoReturn, _ => slot CfgNoTarget RoleNoReturn
  | KindNone, _ => slot CfgNoTarget RoleNormal
  end.

Definition MakeInvalidSlot : CfgDecodedSlot := MkSlot_ CfgNoTarget 0 1 RoleInvalid.

(** ** The decoding loop *)

(** The instructions follow one another from offset [o] on, none is empty. *)
Inductive contiguous : Z -> list InstructionInfo -> Prop :=
| contiguous_nil o : contiguous o []
| contiguous_cons o i l :
    InfoOffset i = w32 o -> 0 < InfoLength i -> contiguous (o + InfoLength i) l ->
    contiguous o (i :: l).

Section Zydis.
Context (ZydisDecoderDecodeFull : list byte -> ZyanStatus + ZydisDecodedInstruction).
(** The length of an instruction is an unsigned byte. *)
Context (Hlen : forall c i, ZydisDecoderDecodeFull c = inr i -> 0 <= z_length i < 256).

Lemma decode_loop_spec fuel Off Rest : (length Rest < fuel)%nat ->
  exists r, decode_loop ZydisDecoderDecodeFull fuel Off Rest = Some r /\ contiguous Off r.2.
Proof.
  revert Off Rest. induction fuel as [|fuel IH]; intros Off Rest Hf; [lia|]. cbn [decode_loop].
  destruct Rest as [|c Rest]; [eexists; split; [done|constructor]|].
  destruct (ZydisDecoderDecodeFull (c :: Rest)) as [st|i] eqn:E; [eexists; split; [done|constructor]|].
  pose proof (Hlen _ _ E) as Hl. destruct (Z.eqb_spec (z_length i) 0); [eexists; split; [done|constructor]|].
  destruct (IH (Off + z_length i) (drop (Z.to_nat (z_length i)) (c :: Rest))) as (r & -> & Hr).
  { rewrite length_drop. simpl in *. lia. }
  eexists. split; [done|]. cbn. apply contiguous_cons; [done|cbn; lia|exact Hr].
Qed.

(** The decoding loop ends within its fuel and yields adjacent instructions. *)
Theorem ZydisDecodeRange_contiguous Code Address :
  decode_loop ZydisDecoderDecodeFull (S (length Code)) 0 Code =
    Some (ZydisDecodeRange ZydisDecoderDecodeFull Code Address) /\
  contiguous 0 (ZydisDecodeRange ZydisDecoderDecodeFull Code Address).2.
Proof.
  destruct (decode_loop_spec (S (length Code)) 0 Code) as (r & E & Hr); [lia|].
  unfold ZydisDecodeRange. by rewrite E.
Qed.
End Zydis.
