(* ===== verification/CfgScan.v ===== *)
(** * Control-flow graphs: the scanner (src/src/ControlFlowGraph.cpp)

    [CfgScanner] up to the partition into blocks: decoding a window on demand,
    collecting block leaders, cutting the range at the leaders. The loops of the
    code take fuel and answer [None] when it ends; CfgScanSpec.v shows that the
    fuel they are given never ends. *)

From stdpp Require Import base option list numbers sorting.
From Stdlib Require Import ZArith Lia.
From S2P Require Import Prelude Cfg CfgDecode.
Local Open Scope Z_scope.

(** The fields the scanner writes; [IsLeader_] and [SlotState_] hold 0 or 1. *)
Record CfgScanner := MkScanner {
  Out_ : ControlFlowGraph;
  Slots_ : list CfgDecodedSlot;
  SlotState_ : list bool;
  IsLeader_ : list bool;
  Leaders_ : list Z;
  DecodedSlotCount_ : Z;
}.

Definition set_Out (g : ControlFlowGraph) (s : CfgScanner) : CfgScanner :=
  MkScanner g (Slots_ s) (SlotState_ s) (IsLeader_ s) (Leaders_ s) (DecodedSlotCount_ s).
Definition upd_Out (f : ControlFlowGraph -> ControlFlowGraph) (s : CfgScanner) : CfgScanner :=
  set_Out (f (Out_ s)) s.

Definition slot_at (o : Z) (s : CfgScanner) : CfgDecodedSlot :=
  default EmptySlot (Slots_ s !! Z.to_nat o).
Definition known_at (o : Z) (s : CfgScanner) : bool := default false (SlotState_ s !! Z.to_nat o).
Definition leader_at (o : Z) (s : CfgScanner) : bool := default false (IsLeader_ s !! Z.to_nat o).

(** [Slots_[o] = Slot; SlotState_[o] = CfgSlotKnown; ++DecodedSlotCount_;] *)
Definition put_slot (o : Z) (Slot : CfgDecodedSlot) (s : CfgScanner) : CfgScanner :=
  MkScanner (Out_ s) (<[Z.to_nat o := Slot]> (Slots_ s)) (<[Z.to_nat o := true]> (SlotState_ s))
    (IsLeader_ s) (Leaders_ s) (DecodedSlotCount_ s + 1).

Definition Halted (s : CfgScanner) : bool := negb (bool_decide (Status (Out_ s) = StatusOk)).
Definition DecodeHalted (s : CfgScanner) : bool :=
  bool_decide (Status (Out_ s) = InstructionLimitReached).

Definition Fail_ (st : CfgStatus) (Message : text) (s : CfgScanner) : CfgScanner :=
  if Halted s then s else upd_Out (fun g => set_Error Message (set_Status st g)) s.

Definition fail_instructions (s : CfgScanner) : CfgScanner :=
  Fail_ InstructionLimitReached (B "instruction limit reached while decoding the code range") s.

Section Scanner.
Context (Backend : DisassemblerBackend) (Code : list byte) (RuntimeAddress : Z).

Definition Length_ : Z := Z.of_nat (length Code).

(** [CfgScanner(Backend, Code, Length, RuntimeAddress, Out)] *)
Definition NewScanner (Out : ControlFlowGraph) : CfgScanner :=
  MkScanner Out (replicate (length Code) EmptySlot) (replicate (length Code) false)
    (replicate (length Code) false) [] 0.

(** ** Decoding *)

(** [Code_ + Offset], [Window] bytes. *)
Definition window (Off : Z) : list byte :=
  take (Z.to_nat (Z.min (Length_ - Off) CfgDecodeWindowBytes)) (drop (Z.to_nat Off) Code).

(** [for (const InstructionInfo& Info : DecodeScratch_)] *)
Fixpoint decode_infos (Off : Z) (infos : list InstructionInfo) (s : CfgScanner) : CfgScanner :=
  match infos with
  | [] => s
  | Info :: infos' =>
      let SlotOffset := w32 (Off + InfoOffset Info) in
      if Length_ <=? SlotOffset then s
      else if (InfoLength Info =? 0) || known_at SlotOffset s then decode_infos Off infos' s
      else if CfgMaxInstructions <=? DecodedSlotCount_ s then fail_instructions s
      else decode_infos Off infos' (put_slot SlotOffset (MakeSlot Backend Info SlotOffset) s)
  end.

Definition DecodeWindowAt (Off : Z) (s : CfgScanner) : CfgScanner :=
  if (Length_ <=? Off) || known_at Off s then s
  else
    let s := decode_infos Off (DecodeRange Backend (window Off) (w64 (RuntimeAddress + Off))).2 s in
    if Halted s then s
    else if known_at Off s then s
    else if CfgMaxInstructions <=? DecodedSlotCount_ s then fail_instructions s
    else put_slot Off MakeInvalidSlot s.

(** The offset after the instruction at [Off]. *)
Definition next_offset (Off : Z) (Slot : CfgDecodedSlot) : Z :=
  let Next := w32 (Off + Length Slot) in
  if (Length_ <? Next) || (Next <=? Off) then Length_ else Next.

(** ** Leaders *)

Definition AddLeader (Off : Z) (s : CfgScanner) : CfgScanner :=
  if (Length_ <=? Off) || leader_at Off s then s
  else if CfgMaxBlocks <=? Z.of_nat (length (Leaders_ s)) then
    Fail_ BlockLimitReached (B "block limit reached while collecting block leaders") s
  else
    MkScanner (Out_ s) (Slots_ s) (SlotState_ s) (<[Z.to_nat Off := true]> (IsLeader_ s))
      (Leaders_ s ++ [Off]) (DecodedSlotCount_ s).

Definition AddBranchLeader (Slot : CfgDecodedSlot) (s : CfgScanner) : CfgScanner :=
  if TargetInsideRange (RelativeTarget Slot) Length_
  then AddLeader (RelativeTarget Slot) s else s.

(** The [switch] on the role of the instruction: the new state and [Stop]. *)
Definition visit (Slot : CfgDecodedSlot) (Next : Z) (s : CfgScanner) : CfgScanner * bool :=
  match Role Slot with
  | RoleDirectBranch => (AddBranchLeader Slot s, true)
  | RoleConditionalBranch => (AddLeader Next (AddBranchLeader Slot s), true)
  | RoleIndirectBranch | RoleReturn | RoleNoReturn | RoleInvalid => (s, true)
  | RoleNormal | RoleDirectCall | RoleIndirectCall => (s, false)
  end.

(** [while (Offset < Length_)]; the early [return] leaves a halted state, which
    also ends the outer loop. *)
Fixpoint walk (fuel : nat) (Leader Off : Z) (s : CfgScanner) : option CfgScanner :=
  match fuel with
  | O => None
  | S fuel' =>
      if Length_ <=? Off then Some s
      else if negb (Off =? Leader) && leader_at Off s then Some s
      else
        let s1 := if known_at Off s then s else DecodeWindowAt Off s in
        if negb (known_at Off s) && Halted s1 then Some s1
        else
          let Slot := slot_at Off s1 in
          let Next := next_offset Off Slot in
          let '(s2, Stop) := visit Slot Next s1 in
          if Stop || Halted s2 then Some s2 else walk fuel' Leader Next s2
  end.

(** [while (Cursor < Leaders_.size() && !Halted())] *)
Fixpoint discover (fuel : nat) (Cursor : nat) (s : CfgScanner) : option CfgScanner :=
  match fuel with
  | O => None
  | S fuel' =>
      match Leaders_ s !! Cursor with
      | None => Some s
      | Some Leader =>
          if Halted s then Some s
          else s' ← walk (S (length Code)) Leader Leader s; discover fuel' (S Cursor) s'
      end
  end.

Definition DiscoverLeaders (s : CfgScanner) : option CfgScanner :=
  discover (S (length Code)) 0 (AddLeader 0 s).

(** ** Blocks *)

Definition count_call (s : CfgScanner) : CfgScanner :=
  upd_Out (fun g => set_CallCount (CallCount g + 1) g) s.
Definition count_decode_error (s : CfgScanner) : CfgScanner :=
  upd_Out (fun g => set_DecodeErrorCount (DecodeErrorCount g + 1) g) s.
Definition count_out_of_range (s : CfgScanner) : CfgScanner :=
  upd_Out (fun g => set_OutOfRangeBranchCount (OutOfRangeBranchCount g + 1) g) s.
Definition count_unresolved (s : CfgScanner) : CfgScanner :=
  upd_Out (fun g => set_UnresolvedIndirectBranchCount (UnresolvedIndirectBranchCount g + 1) g) s.
Definition count_overlapping (s : CfgScanner) : CfgScanner :=
  upd_Out (fun g => set_OverlappingLeaderCount (OverlappingLeaderCount g + 1) g) s.

Definition end_branch (e : CfgBlockEnd) (Slot : CfgDecodedSlot) (Block : CfgBlock) (s : CfgScanner)
    : CfgBlock * CfgScanner :=
  let Block := set_End_ e Block in
  if TargetInsideRange (RelativeTarget Slot) Length_
  then (set_TargetOffset (RelativeTarget Slot) Block, s)
  else (set_TargetOutsideRange true Block, count_out_of_range s).

(** The [switch] of [BuildBlocks]: the block, the state and [Stop]. *)
Definition close (Slot : CfgDecodedSlot) (Block : CfgBlock) (s : CfgScanner)
    : CfgBlock * CfgScanner * bool :=
  match Role Slot with
  | RoleInvalid => (set_End_ EndDecodeError Block, count_decode_error s, true)
  | RoleDirectBranch => (end_branch EndDirectBranch Slot Block s, true)
  | RoleConditionalBranch => (end_branch EndConditionalBranch Slot Block s, true)
  | RoleIndirectBranch =>
      (set_IndirectTargetUnresolved true (set_End_ EndIndirectBranch Block), count_unresolved s, true)
  | RoleReturn => (set_End_ EndReturn Block, s, true)
  | RoleNoReturn => (set_End_ EndNoReturn Block, s, true)
  | RoleDirectCall | RoleIndirectCall => (Block, count_call s, false)
  | RoleNormal => (Block, s, false)
  end.

(** [while (Offset < Length_)] of [BuildBlocks]. *)
Fixpoint fill (fuel : nat) (Start Off : Z) (Block : CfgBlock) (s : CfgScanner)
    : option (CfgBlock * Z * CfgScanner) :=
  match fuel with
  | O => None
  | S fuel' =>
      if Length_ <=? Off then Some (Block, Off, s)
      else if negb (Off =? Start) && leader_at Off s then
        Some (set_End_ EndFallthrough Block, Off, s)
      else if negb (known_at Off s) && DecodeHalted s then
        Some (set_End_ EndRangeEnd Block, Off, s)
      else
        let s := if known_at Off s then s else DecodeWindowAt Off s in
        if negb (known_at Off s) then Some (set_End_ EndRangeEnd Block, Off, s)
        else
          let Slot := slot_at Off s in
          let Next := next_offset Off Slot in
          let Block := set_BlockInstructionCount (BlockInstructionCount Block + 1) Block in
          let '(Block, s, Stop) := close Slot Block s in
          if Stop then Some (Block, Next, s)
          else if Length_ <=? Next then Some (set_End_ EndRangeEnd Block, Next, s)
          else fill fuel' Start Next Block s
  end.

Definition fail_partition (s : CfgScanner) : CfgScanner :=
  Fail_ BlockLimitReached (B "block limit reached while partitioning the code range") s.

(** [for (const uint32_t Start : Ordered)] *)
Fixpoint partition_loop (Ordered : list Z) (CoveredUntil : Z) (s : CfgScanner) : option CfgScanner :=
  match Ordered with
  | [] => Some s
  | Start :: Ordered' =>
      if Start <? CoveredUntil then partition_loop Ordered' CoveredUntil (count_overlapping s)
      else if CfgMaxBlocks <=? Z.of_nat (length (Blocks (Out_ s))) then Some (fail_partition s)
      else
        '(Block, Off, s) ← fill (S (length Code)) Start Start (NewBlock Start) s;
        let Block := set_Size (Off - Start) Block in
        if BlockInstructionCount Block =? 0 then partition_loop Ordered' CoveredUntil s
        else
          partition_loop Ordered' (Offset Block + Size Block)
            (upd_Out (fun g => set_Blocks (Blocks g ++ [Block]) g) s)
  end.

(** The graph of a range whose first byte does not decode is emptied. *)
Definition undecodable_entry (g : ControlFlowGraph) : bool :=
  match Blocks g with
  | [b] => (Offset b =? 0) && (Size b =? 1) && (BlockInstructionCount b =? 1) &&
           bool_decide (End_ b = EndDecodeError)
  | _ => false
  end.

Definition BuildBlocks (s : CfgScanner) : option CfgScanner :=
  s ← partition_loop (merge_sort Z.le (Leaders_ s)) 0 s;
  let s := upd_Out (fun g => set_NodeCount (length (Blocks g)) g) s in
  Some (if undecodable_entry (Out_ s) then
          Fail_ EntryUndecodable (B "the first instruction of the range does not decode")
            (upd_Out (fun g => set_DecodeErrorCount 0 (set_NodeCount 0 (set_Blocks [] g))) s)
        else s).
End Scanner.
