(* ===== verification/CfgBuild.v ===== *)
(** * Control-flow graphs: analysis of the blocks (src/src/ControlFlowGraph.cpp)

    The stages of [Run] after the partition, one part each: edges and their
    reversal, strongly connected components, connected components, totals and
    the entry points [BuildControlFlowGraph]. *)

From stdpp Require Import base option list numbers.
From Stdlib Require Import ZArith Lia.
From S2P Require Import Prelude Cfg CfgDecode CfgScan.
Local Open Scope Z_scope.

(** ** Successors *)

Definition ResolveSuccessor (Len Off : Z) (g : ControlFlowGraph) : ControlFlowGraph * option nat :=
  if Len <=? Off then (g, None)
  else
    match BlockAtOffset g Off with
    | None => (set_DroppedSuccessorCount (DroppedSuccessorCount g + 1) g, None)
    | Some Block => (g, Some Block)
    end.

(** [if (Block.TargetOffset != CfgNoTarget) Candidates[0] = ResolveSuccessor(...)] *)
Definition resolve_target (Len : Z) (Block : CfgBlock) (g : ControlFlowGraph)
    : ControlFlowGraph * option nat :=
  if TargetOffset Block =? CfgNoTarget then (g, None)
  else ResolveSuccessor Len (w32 (TargetOffset Block)) g.

(** The two candidates of a block. *)
Definition candidates (Len : Z) (Block : CfgBlock) (g : ControlFlowGraph)
    : ControlFlowGraph * list (option nat) :=
  let FallthroughOffset := w32 (Offset Block + Size Block) in
  match End_ Block with
  | EndConditionalBranch =>
      let '(g, c0) := resolve_target Len Block g in
      let '(g, c1) := ResolveSuccessor Len FallthroughOffset g in
      (g, [c0; c1])
  | EndDirectBranch => let '(g, c0) := resolve_target Len Block g in (g, [c0; None])
  | EndFallthrough | EndRangeEnd =>
      let '(g, c0) := ResolveSuccessor Len FallthroughOffset g in (g, [c0; None])
  | EndIndirectBranch | EndReturn | EndNoReturn | EndDecodeError => (g, [None; None])
  end.

(** [for (const uint32_t Candidate : Candidates)]: the successors taken by this
    block, in order, no candidate twice. *)
Fixpoint take_candidates (cs : list (option nat)) (Taken : list nat) : list nat :=
  match cs with
  | [] => Taken
  | None :: cs' => take_candidates cs' Taken
  | Some c :: cs' =>
      if existsb (fun t => (t =? c)%nat) Taken then take_candidates cs' Taken
      else take_candidates cs' (Taken ++ [c])
  end.

(** One round of the loop over the blocks. *)
Definition link_block (Len : Z) (Index : nat) (g : ControlFlowGraph) : ControlFlowGraph :=
  match Blocks g !! Index with
  | None => g
  | Some Block0 =>
      let Block1 := set_FirstSuccessor (length (SuccessorBlocks g)) Block0 in
      let g := set_Blocks (<[Index := Block1]> (Blocks g)) g in
      let '(g, cs) := candidates Len Block1 g in
      let Taken := take_candidates cs [] in
      let g := set_SuccessorBlocks (SuccessorBlocks g ++ Taken) g in
      let g := set_Blocks (<[Index := set_SuccessorCount (length Taken) Block1]> (Blocks g)) g in
      match Taken with
      | [] => set_ExitBlockCount (ExitBlockCount g + 1) g
      | _ :: _ => g
      end
  end.

Definition BuildSuccessors (Len : Z) (g : ControlFlowGraph) : ControlFlowGraph :=
  let g := foldl (fun g Index => link_block Len Index g) g (seq 0 (NodeCount g)) in
  set_EdgeCount (length (SuccessorBlocks g)) g.

(** ** Predecessors *)

(** [for (Successor : Out_.SuccessorBlocks) if (...) ++Counts[Successor];] *)
Definition count_in_edges (g : ControlFlowGraph) : list nat :=
  foldl (fun Counts Successor =>
           if (Successor <? NodeCount g)%nat then alter S Successor Counts else Counts)
    (replicate (NodeCount g) 0%nat) (SuccessorBlocks g).

(** The blocks with the start and the length of their slice, and the total. *)
Fixpoint slice_loop (bs : list CfgBlock) (Counts : list nat) (Running : nat)
    : list CfgBlock * nat :=
  match bs, Counts with
  | b :: bs', c :: Counts' =>
      let '(r, Total) := slice_loop bs' Counts' (Running + c)%nat in
      (set_PredecessorCount c (set_FirstPredecessor Running b) :: r, Total)
  | _, _ => (bs, Running)
  end.

(** [Out_.PredecessorBlocks[Cursor[Successor]] = Index; ++Cursor[Successor];] *)
Definition place (NodeCount Index : nat) (st : list nat * list nat) (Successor : nat)
    : list nat * list nat :=
  let '(Pred, Cursor) := st in
  if (Successor <? NodeCount)%nat
  then (<[Cursor !!! Successor := Index]> Pred, alter S Successor Cursor) else st.

Definition place_block (g : ControlFlowGraph) (st : list nat * list nat) (Index : nat)
    : list nat * list nat :=
  foldl (place (NodeCount g) Index) st (BlockSuccessors g Index).

Definition BuildPredecessors (g : ControlFlowGraph) : ControlFlowGraph :=
  let '(bs, Running) := slice_loop (Blocks g) (count_in_edges g) 0 in
  let g := set_Blocks bs g in
  let Cursor := map FirstPredecessor (take (NodeCount g) bs) in
  let '(Pred, _) := foldl (place_block g) (replicate Running 0%nat, Cursor) (seq 0 (NodeCount g)) in
  set_PredecessorBlocks Pred g.

(** ** Control-flow graphs: strongly connected components

    [ComputeStronglyConnected] of src/src/ControlFlowGraph.cpp: Tarjan's search
    with an explicit stack of frames. The sentinel [CfgUnvisited] is [None];
    the back of a C++ vector used as a stack is the head of the list. *)
Local Close Scope Z_scope.

(** The local variables of the search and the outputs it writes. A frame is
    the node and its cursor. *)
Record SccState := MkScc {
  Index : list (option nat);
  LowLink : list nat;
  OnStack : list bool;
  SccStack : list nat;
  Frames : list (nat * nat);
  NextIndex : nat;
  NextComponent : nat;
  CompOf : list nat;
  Counts : list nat;
  IsLoop : list bool;
}.

Section Scc.
Context (g : ControlFlowGraph).

Definition init_scc : SccState :=
  MkScc (replicate (NodeCount g) None) (replicate (NodeCount g) 0) (replicate (NodeCount g) false)
    [] [] 0 0 (replicate (NodeCount g) 0) [] [].

(** A node met for the first time: [Index[v] = LowLink[v] = NextIndex++], pushed
    on both stacks over the frames [fs]. *)
Definition discover_node (v : nat) (fs : list (nat * nat)) (s : SccState) : SccState :=
  MkScc (<[v := Some (NextIndex s)]> (Index s)) (<[v := NextIndex s]> (LowLink s))
    (<[v := true]> (OnStack s)) (v :: SccStack s) ((v, 0) :: fs) (S (NextIndex s))
    (NextComponent s) (CompOf s) (Counts s) (IsLoop s).

Definition set_Frames (fs : list (nat * nat)) (s : SccState) : SccState :=
  MkScc (Index s) (LowLink s) (OnStack s) (SccStack s) fs (NextIndex s) (NextComponent s)
    (CompOf s) (Counts s) (IsLoop s).

Definition set_LowLink (v l : nat) (s : SccState) : SccState :=
  MkScc (Index s) (<[v := l]> (LowLink s)) (OnStack s) (SccStack s) (Frames s) (NextIndex s)
    (NextComponent s) (CompOf s) (Counts s) (IsLoop s).

Definition visit_child (Node Cursor Child : nat) (fs : list (nat * nat)) (s : SccState) : SccState :=
  let fs := (Node, S Cursor) :: fs in
  if NodeCount g <=? Child then set_Frames fs s
  else
    match Index s !!! Child with
    | None => discover_node Child fs s
    | Some i =>
        let s := set_Frames fs s in
        if (OnStack s !!! Child) && (i <? LowLink s !!! Node) then set_LowLink Node i s else s
    end.

(** [while (!SccStack.empty())]: pops down to [Node]; the stack left, [OnStack],
    [ComponentOfBlock] and [Members]. *)
Fixpoint pop_loop (Node c : nat) (stk : list nat) (on : list bool) (comp : list nat) (Members : nat)
    : list nat * list bool * list nat * nat :=
  match stk with
  | [] => ([], on, comp, Members)
  | Top :: stk' =>
      let on := <[Top := false]> on in
      let comp := <[Top := c]> comp in
      if Top =? Node then (stk', on, comp, S Members)
      else pop_loop Node c stk' on comp (S Members)
  end.

Definition pop_component (Node : nat) (s : SccState) : SccState :=
  let '(stk, on, comp, Members) :=
    pop_loop Node (NextComponent s) (SccStack s) (OnStack s) (CompOf s) 0 in
  MkScc (Index s) (LowLink s) on stk (Frames s) (NextIndex s) (S (NextComponent s)) comp
    (Counts s ++ [Members]) (IsLoop s ++ [1 <? Members]).

(** [Frames.pop_back()] and the low link handed to the parent. *)
Definition leave (Node : nat) (fs : list (nat * nat)) (s : SccState) : SccState :=
  let s := set_Frames fs s in
  match fs with
  | [] => s
  | (Parent, _) :: _ =>
      if LowLink s !!! Node <? LowLink s !!! Parent
      then set_LowLink Parent (LowLink s !!! Node) s else s
  end.

(** One round of [while (!Frames.empty())]. *)
Definition scc_step (Node Cursor : nat) (fs : list (nat * nat)) (s : SccState) : SccState :=
  match BlockSuccessors g Node !! Cursor with
  | Some Child => visit_child Node Cursor Child fs s
  | None =>
      let s :=
        if bool_decide (Index s !!! Node = Some (LowLink s !!! Node))
        then pop_component Node s else s in
      leave Node fs s
  end.

Fixpoint scc_loop (fuel : nat) (s : SccState) : option SccState :=
  match fuel with
  | O => None
  | S fuel' =>
      match Frames s with
      | [] => Some s
      | (Node, Cursor) :: fs => scc_loop fuel' (scc_step Node Cursor fs s)
      end
  end.

(** A frame takes a round for each successor and one to leave. *)
Definition scc_fuel : nat :=
  S (sum_list_with (fun v => S (length (BlockSuccessors g v))) (seq 0 (NodeCount g))).

(** [for (Root = 0; Root < NodeCount; ++Root)] *)
Definition scc_root (Root : nat) (s : SccState) : option SccState :=
  match Index s !!! Root with
  | Some _ => Some s
  | None => scc_loop scc_fuel (discover_node Root [] s)
  end.

Fixpoint scc_roots (roots : list nat) (s : SccState) : option SccState :=
  match roots with
  | [] => Some s
  | Root :: roots' => s ← scc_root Root s; scc_roots roots' s
  end.

(** The loop that marks components of one node with an edge to itself. *)
Definition mark_self_edge (comp counts : list nat) (loops : list bool) (Node : nat) : list bool :=
  let c := comp !!! Node in
  if length counts <=? c then loops
  else if (counts !!! c =? 1) && HasSelfEdge g Node then <[c := true]> loops else loops.

Definition ComputeStronglyConnected : option ControlFlowGraph :=
  if NodeCount g =? 0 then
    Some (set_ComponentIsLoop [] (set_ComponentNodeCounts [] (set_ComponentOfBlock [] g)))
  else
    s ← scc_roots (seq 0 (NodeCount g)) init_scc;
    let loops := foldl (mark_self_edge (CompOf s) (Counts s)) (IsLoop s) (seq 0 (NodeCount g)) in
    Some
      (set_LoopCount (length (filter (fun b => b = true) loops))
        (set_StronglyConnectedCount (NextComponent s)
          (set_ComponentIsLoop loops
            (set_ComponentNodeCounts (Counts s) (set_ComponentOfBlock (CompOf s) g))))).
End Scc.

(** ** Control-flow graphs: connected components

    [CfgFindRoot], [CfgUnion] and [ComputeConnectedComponents] of
    src/src/ControlFlowGraph.cpp: disjoint sets with ranks and path compression. *)

(** [while (Parent[Root] != Root) Root = Parent[Root];] *)
Fixpoint root_loop (fuel : nat) (Parent : list nat) (Root : nat) : option nat :=
  match fuel with
  | O => None
  | S fuel' =>
      if Parent !!! Root =? Root then Some Root else root_loop fuel' Parent (Parent !!! Root)
  end.

(** [while (Parent[Cursor] != Cursor)]: the second pass points the path at the root. *)
Fixpoint compress_loop (fuel : nat) (Root Cursor : nat) (Parent : list nat) : option (list nat) :=
  match fuel with
  | O => None
  | S fuel' =>
      if Parent !!! Cursor =? Cursor then Some Parent
      else compress_loop fuel' Root (Parent !!! Cursor) (<[Cursor := Root]> Parent)
  end.

Definition CfgFindRoot (fuel : nat) (Parent : list nat) (Node : nat) : option (list nat * nat) :=
  Root ← root_loop fuel Parent Node;
  Parent ← compress_loop fuel Root Node Parent;
  Some (Parent, Root).

Definition CfgUnion (Parent Rank : list nat) (Left Right : nat) : list nat * list nat :=
  if Left =? Right then (Parent, Rank)
  else if Rank !!! Left <? Rank !!! Right then (<[Left := Right]> Parent, Rank)
  else if Rank !!! Right <? Rank !!! Left then (<[Right := Left]> Parent, Rank)
  else (<[Right := Left]> Parent, alter S Left Rank).

(** Ranks grow along parents, so a path is no longer than the ranks add up to. *)
Definition find_fuel (Rank : list nat) : nat := S (sum_list Rank).

(** One edge: [CfgUnion(Parent, Rank, CfgFindRoot(..), CfgFindRoot(..))]. *)
Definition join (NodeCount Index Successor : nat) (st : list nat * list nat)
    : option (list nat * list nat) :=
  let '(Parent, Rank) := st in
  if NodeCount <=? Successor then Some st
  else
    '(Parent, Left) ← CfgFindRoot (find_fuel Rank) Parent Index;
    '(Parent, Right) ← CfgFindRoot (find_fuel Rank) Parent Successor;
    Some (CfgUnion Parent Rank Left Right).

Fixpoint join_all (NodeCount : nat) (edges : list (nat * nat)) (st : list nat * list nat)
    : option (list nat * list nat) :=
  match edges with
  | [] => Some st
  | (Index, Successor) :: edges' =>
      st ← join NodeCount Index Successor st; join_all NodeCount edges' st
  end.

(** The pairs the two nested loops visit, in order. *)
Definition edge_list (g : ControlFlowGraph) : list (nat * nat) :=
  Index ← seq 0 (NodeCount g); map (pair Index) (BlockSuccessors g Index).

Definition ComputeConnectedComponents (g : ControlFlowGraph) : option ControlFlowGraph :=
  if NodeCount g =? 0 then Some (set_ConnectedComponentCount 0 g)
  else
    '(Parent, _) ← join_all (NodeCount g) (edge_list g)
                     (seq 0 (NodeCount g), replicate (NodeCount g) 0);
    Some (set_ConnectedComponentCount
            (length (filter (fun Index => Parent !!! Index = Index) (seq 0 (NodeCount g)))) g).

(** ** Control-flow graphs: the whole construction

    [ComputeStatistics], [Run] and [BuildControlFlowGraph] of
    src/src/ControlFlowGraph.cpp. *)

Local Open Scope Z_scope.

Definition sum_field (f : CfgBlock -> Z) (bs : list CfgBlock) : Z :=
  foldl (fun acc b => w32 (acc + f b)) 0 bs.

Definition ComputeStatistics (g : ControlFlowGraph) : ControlFlowGraph :=
  let g := set_InstructionCount (sum_field BlockInstructionCount (Blocks g)) g in
  let g := set_DecodedBytes (sum_field Size (Blocks g)) g in
  let g := set_EntryBlock (BlockAtOffset g 0) g in
  if (NodeCount g =? 0)%nat then set_CyclomaticComplexity 0 g
  else
    let Complexity := Z.of_nat (EdgeCount g) - Z.of_nat (NodeCount g) +
                      2 * Z.of_nat (ConnectedComponentCount g) in
    set_CyclomaticComplexity (if Complexity <? 1 then 1 else Complexity) g.

Section Build.
Context (Backend : DisassemblerBackend) (Code : list byte) (RuntimeAddress : Z).

(** [CfgScanner::Run] *)
Definition Run (s : CfgScanner) : option ControlFlowGraph :=
  let s := upd_Out (set_RangeBytes (Length_ Code)) s in
  s ← DiscoverLeaders Backend Code RuntimeAddress s;
  s ← BuildBlocks Backend Code RuntimeAddress s;
  let g := Out_ s in
  if bool_decide (Status g = EntryUndecodable) then Some g
  else
    let g := BuildSuccessors (Length_ Code) g in
    let g := BuildPredecessors g in
    g ← ComputeStronglyConnected g;
    g ← ComputeConnectedComponents g;
    Some (ComputeStatistics g).
End Build.

Definition refuse (st : CfgStatus) (Message : text) : ControlFlowGraph :=
  set_Error Message (set_Status st EmptyGraph).

(** [Code = None] is the null pointer; [Length] is its own argument. *)
Definition BuildControlFlowGraph (Backend : DisassemblerBackend) (Code : option (list byte))
    (Length : Z) (RuntimeAddress : Z) : option ControlFlowGraph :=
  if Length =? 0 then Some (refuse EmptyRange (B "code range is empty"))
  else
    match Code with
    | None => Some (refuse NullCode (B "code pointer is null"))
    | Some Bytes =>
        if CfgMaxRangeBytes <? Length then
          Some (refuse RangeTooLarge (B "code range exceeds CfgMaxRangeBytes"))
        else
          let Bytes := take (Z.to_nat Length) Bytes in
          Run Backend Bytes RuntimeAddress (NewScanner Bytes EmptyGraph)
    end.

(** The overload that creates the x64 decoder itself. *)
Definition BuildControlFlowGraph_x64 (CreateX64Disassembler : option DisassemblerBackend)
    (Code : option (list byte)) (Length : Z) (RuntimeAddress : Z) : option ControlFlowGraph :=
  match CreateX64Disassembler with
  | None => Some (refuse BackendUnavailable (B "no x64 disassembler backend available"))
  | Some Backend => BuildControlFlowGraph Backend Code Length RuntimeAddress
  end.
