(* ===== verification/CfgUnionSpec.v ===== *)
(** * Connected components of a control-flow graph

    The disjoint sets of CfgBuild.v: ranks grow along parents, so the loops of
    [CfgFindRoot] end; path compression keeps every representative; a union
    merges two classes. Hence the number of roots is the number of connected
    components. *)

From stdpp Require Import base option list numbers relations.
From Stdlib Require Import ZArith Lia.
From S2P Require Import Prelude Cfg CfgBuild.

Record forest (n : nat) (Parent Rank : list nat) : Prop := {
  f_parents : length Parent = n;
  f_ranks : length Rank = n;
  f_range x : x < n -> Parent !!! x < n;
  f_up x : x < n -> Parent !!! x <> x -> Rank !!! x < Rank !!! (Parent !!! x);
}.

(** [r] is the root of the tree of [x]. *)
Inductive rep (Parent : list nat) : nat -> nat -> Prop :=
| rep_root x : Parent !!! x = x -> rep Parent x x
| rep_up x r : Parent !!! x <> x -> rep Parent (Parent !!! x) r -> rep Parent x r.

Lemma rep_is_root P x r : rep P x r -> P !!! r = r.
Proof. by induction 1. Qed.

Lemma rep_det P x r r' : rep P x r -> rep P x r' -> r = r'.
Proof. induction 1 as [x Hx|x r Hx Hr IH]; inversion 1; subst; try done. by apply IH. Qed.

Lemma rep_of_root P x r : P !!! x = x -> rep P x r -> r = x.
Proof. intros Hx Hr. by apply (rep_det P x); [|constructor]. Qed.

Lemma elem_le_sum (l : list nat) (i : nat) : l !!! i <= sum_list l.
Proof.
  revert i. induction l as [|x l IH]; intros i; [by destruct i|].
  change (sum_list (x :: l)) with (x + sum_list l).
  destruct i as [|i]; simpl; [lia|]. specialize (IH i). lia.
Qed.

Section Forest.
Context (n : nat) (P Rank : list nat) (HF : forest n P Rank).

Lemma rep_range x r : x < n -> rep P x r -> r < n.
Proof. intros Hx Hr. induction Hr; [done|]. by apply IHHr, (f_range _ _ _ HF). Qed.

Lemma rep_rank x r : x < n -> rep P x r -> x = r \/ Rank !!! x < Rank !!! r.
Proof.
  intros Hx Hr. induction Hr as [|x r Hne Hr IH]; [by left|]. right.
  pose proof (f_up _ _ _ HF x Hx Hne). destruct (IH (f_range _ _ _ HF x Hx)) as [<-|]; lia.
Qed.

Lemma root_loop_spec fuel x :
  x < n -> sum_list Rank < fuel + Rank !!! x ->
  exists r, root_loop fuel P x = Some r /\ rep P x r.
Proof.
  revert x. induction fuel as [|fuel IH]; intros x Hx Hf.
  { pose proof (elem_le_sum Rank x). lia. }
  simpl. destruct (Nat.eqb_spec (P !!! x) x) as [E|E]; [exists x; by repeat constructor|].
  pose proof (f_up _ _ _ HF x Hx E). destruct (IH (P !!! x)) as (r & Hr & Hrep).
  - by apply (f_range _ _ _ HF).
  - lia.
  - exists r. split; [done|by constructor].
Qed.

Lemma rep_exists x : x < n -> exists r, rep P x r.
Proof.
  intros Hx. destruct (root_loop_spec (S (sum_list Rank)) x Hx) as (r & _ & Hr); [lia|by exists r].
Qed.

(** Pointing one node of a path at its root. *)
Lemma compress_one c r :
  c < n -> P !!! c <> c -> rep P c r ->
  forest n (<[c := r]> P) Rank /\ forall x z, x < n -> rep P x z <-> rep (<[c := r]> P) x z.
Proof.
  intros Hc Hne Hr. pose proof (rep_is_root _ _ _ Hr) as Hroot.
  assert (c <> r) as Hcr by (intros ->; done). pose proof (f_parents _ _ _ HF) as Hl.
  assert (forall x z, x < n -> rep P x z -> rep (<[c := r]> P) x z) as Hfw.
  { intros x z Hx Hz. induction Hz as [x E|x z E Hz IH].
    - constructor. rewrite list_lookup_total_insert_ne; [done|]. intros ->. done.
    - destruct (decide (x = c)) as [->|Hxc].
      + assert (z = r) as -> by (apply (rep_det P c); [by apply rep_up|done]).
        apply rep_up; rewrite list_lookup_total_insert_eq by lia; [done|].
        constructor. by rewrite list_lookup_total_insert_ne.
      + apply rep_up; rewrite list_lookup_total_insert_ne by done; [done|].
        apply IH. by apply (f_range _ _ _ HF). }
  split.
  - split.
    + by rewrite length_insert.
    + apply (f_ranks _ _ _ HF).
    + intros x Hx. destruct (decide (x = c)) as [->|Hxc].
      * rewrite list_lookup_total_insert_eq by lia. by apply (rep_range c).
      * rewrite list_lookup_total_insert_ne by done. by apply (f_range _ _ _ HF).
    + intros x Hx. destruct (decide (x = c)) as [->|Hxc].
      * rewrite list_lookup_total_insert_eq by lia. intros _. by destruct (rep_rank c r) as [?|?].
      * rewrite list_lookup_total_insert_ne by done. by apply (f_up _ _ _ HF).
  - intros x z Hx. split; [by apply Hfw|]. intros Hz. destruct (rep_exists x Hx) as [z' Hz'].
    by rewrite (rep_det _ _ _ _ Hz (Hfw x z' Hx Hz')).
Qed.
End Forest.

Lemma compress_loop_spec n Rank r fuel P c :
  forest n P Rank -> c < n -> rep P c r -> sum_list Rank < fuel + Rank !!! c ->
  exists P', compress_loop fuel r c P = Some P' /\ forest n P' Rank /\
    forall x z, x < n -> rep P x z <-> rep P' x z.
Proof.
  revert P c. induction fuel as [|fuel IH]; intros P c HF Hc Hr Hf.
  { pose proof (elem_le_sum Rank c). lia. }
  simpl. destruct (Nat.eqb_spec (P !!! c) c) as [E|E]; [by exists P|].
  destruct (compress_one n P Rank HF c r Hc E Hr) as [HF' Heq].
  pose proof (f_up _ _ _ HF c Hc E). pose proof (f_range _ _ _ HF c Hc) as Hp.
  destruct (IH (<[c := r]> P) (P !!! c)) as (P' & Hrun & HF'' & Heq'); [done|done| |lia|].
  { apply Heq; [done|]. inversion Hr; subst; done. }
  exists P'. split_and!; [done|done|]. intros x z Hx. by rewrite Heq, Heq'.
Qed.

Lemma CfgFindRoot_spec n P Rank x :
  forest n P Rank -> x < n ->
  exists P' r, CfgFindRoot (find_fuel Rank) P x = Some (P', r) /\ rep P' x r /\ forest n P' Rank /\
    forall y z, y < n -> rep P y z <-> rep P' y z.
Proof.
  intros HF Hx. unfold CfgFindRoot, find_fuel.
  destruct (root_loop_spec n P Rank HF (S (sum_list Rank)) x Hx) as (r & -> & Hr); [lia|].
  destruct (compress_loop_spec n Rank r (S (sum_list Rank)) P x HF Hx Hr) as (P' & E & HF' & Heq); [lia|].
  cbn [mbind option_bind]. rewrite E. exists P', r. split_and!; [done|by apply Heq|done|done].
Qed.

(** ** Unions *)

Definition same (P : list nat) (x y : nat) : Prop := exists r, rep P x r /\ rep P y r.

Definition roots (n : nat) (P : list nat) : list nat :=
  filter (fun x => P !!! x = x) (seq 0 n).

Lemma elem_of_roots n P x : x ∈ roots n P <-> x < n /\ P !!! x = x.
Proof. unfold roots. rewrite list_elem_of_filter, elem_of_seq. split; intros [H1 H2]; (split; [first [lia|done]|first [lia|done]]). Qed.

Lemma NoDup_roots n P : NoDup (roots n P).
Proof. apply NoDup_filter, NoDup_seq. Qed.

Lemma same_sym P x y : same P x y -> same P y x.
Proof. intros (r & H1 & H2). by exists r. Qed.

Lemma same_trans P x y z : same P x y -> same P y z -> same P x z.
Proof.
  intros (r & H1 & H2) (r' & H3 & H4). rewrite (rep_det _ _ _ _ H3 H2) in H4. by exists r.
Qed.

(** [Parent[a] = b] between two different roots. *)
Section Attach.
Context (n : nat) (P Rank : list nat) (HF : forest n P Rank) (a b : nat).
Context (Ha : a < n) (Hb : b < n) (Ra : P !!! a = a) (Rb : P !!! b = b) (Hab : a <> b).

Lemma attach_rep x r : x < n -> rep P x r -> rep (<[a := b]> P) x (if decide (r = a) then b else r).
Proof.
  intros Hx Hr. pose proof (f_parents _ _ _ HF) as Hl. induction Hr as [x E|x r E Hr IH].
  - case_decide as Hxa.
    + subst x. apply rep_up; rewrite list_lookup_total_insert_eq by lia; [done|].
      constructor. by rewrite list_lookup_total_insert_ne.
    + constructor. by rewrite list_lookup_total_insert_ne.
  - assert (x <> a) by (intros ->; done).
    apply rep_up; rewrite list_lookup_total_insert_ne by done; [done|].
    apply IH. by apply (f_range _ _ _ HF).
Qed.

Lemma attach_same x y : x < n -> y < n -> same P x y -> same (<[a := b]> P) x y.
Proof. intros Hx Hy (r & H1 & H2). eexists. split; by apply attach_rep. Qed.

Lemma attach_joined x y : x < n -> y < n -> same (<[a := b]> P) x y ->
  same P x y \/ (rep P x a /\ rep P y b) \/ (rep P x b /\ rep P y a).
Proof.
  intros Hx Hy (r & H1 & H2).
  destruct (rep_exists _ _ _ HF x Hx) as [u Hu]. destruct (rep_exists _ _ _ HF y Hy) as [v Hv].
  pose proof (rep_det _ _ _ _ H1 (attach_rep x u Hx Hu)) as E1.
  pose proof (rep_det _ _ _ _ H2 (attach_rep y v Hy Hv)) as E2.
  repeat case_decide; subst; try (by left; eexists); try congruence; auto; left; by exists v.
Qed.

Lemma attach_same_ab : same (<[a := b]> P) a b.
Proof.
  exists b. split.
  - pose proof (attach_rep a a Ha (rep_root _ _ Ra)) as H. by rewrite decide_True in H.
  - pose proof (attach_rep b b Hb (rep_root _ _ Rb)) as H. by rewrite decide_False in H.
Qed.

Lemma attach_roots : length (roots n P) = S (length (roots n (<[a := b]> P))).
Proof.
  pose proof (f_parents _ _ _ HF) as Hl.
  assert (roots n P ≡ₚ a :: roots n (<[a := b]> P)) as ->; [|done].
  apply NoDup_Permutation; [apply NoDup_roots| |].
  - constructor; [|apply NoDup_roots]. rewrite elem_of_roots, list_lookup_total_insert_eq by lia. naive_solver.
  - intros x. rewrite elem_of_cons, !elem_of_roots. destruct (decide (x = a)) as [->|Hx]; [naive_solver|].
    rewrite list_lookup_total_insert_ne by done. naive_solver.
Qed.

Lemma attach_forest Rank' : length Rank' = n ->
  (forall x, x < n -> P !!! x <> x -> Rank' !!! x < Rank' !!! (P !!! x)) ->
  Rank' !!! a < Rank' !!! b -> forest n (<[a := b]> P) Rank'.
Proof.
  intros Hr Hup Hlt. pose proof (f_parents _ _ _ HF) as Hl. split; [by rewrite length_insert|done| |].
  - intros x Hx. destruct (decide (x = a)) as [->|]; [by rewrite list_lookup_total_insert_eq by lia|].
    rewrite list_lookup_total_insert_ne by done. by apply (f_range _ _ _ HF).
  - intros x Hx. destruct (decide (x = a)) as [->|]; [by rewrite list_lookup_total_insert_eq by lia|].
    rewrite list_lookup_total_insert_ne by done. by apply Hup.
Qed.
End Attach.

Lemma alter_rank (Rank : list nat) (i x : nat) : i < length Rank ->
  alter S i Rank !!! x = if decide (x = i) then S (Rank !!! x) else Rank !!! x.
Proof.
  intros Hi. rewrite !list_lookup_total_alt. case_decide as E.
  - subst. rewrite list_lookup_alter_eq. by destruct (lookup_lt_is_Some_2 Rank i Hi) as [? ->].
  - by rewrite list_lookup_alter_ne.
Qed.

(** [CfgUnion] on two roots merges their classes and nothing else. *)
Lemma CfgUnion_spec n P Rank l r :
  forest n P Rank -> l < n -> r < n -> P !!! l = l -> P !!! r = r ->
  let P' := (CfgUnion P Rank l r).1 in
  forest n P' (CfgUnion P Rank l r).2 /\
  (forall x y, x < n -> y < n -> same P x y -> same P' x y) /\ same P' l r /\
  (forall x y, x < n -> y < n -> same P' x y ->
     same P x y \/ (rep P x l /\ rep P y r) \/ (rep P x r /\ rep P y l)) /\
  length (roots n P) <= S (length (roots n P')).
Proof.
  intros HF Hl Hr Rl Rr. unfold CfgUnion. destruct (Nat.eqb_spec l r) as [<-|Hlr].
  { cbn. split_and!; [done|done|by exists l; split; constructor|auto|lia]. }
  destruct (Nat.ltb_spec (Rank !!! l) (Rank !!! r)) as [H1|H1];
    [|destruct (Nat.ltb_spec (Rank !!! r) (Rank !!! l)) as [H2|H2]]; cbn.
  - split_and!.
    + apply (attach_forest n P Rank HF l r Hl Hr Rl Rr Hlr); [apply HF|apply HF|done].
    + intros x y. by apply (attach_same n P Rank HF).
    + by apply (attach_same_ab n P Rank HF).
    + intros x y. by apply (attach_joined n P Rank HF).
    + rewrite (attach_roots n P Rank HF l r); [lia|done..].
  - assert (r <> l) as Hrl by done. split_and!.
    + apply (attach_forest n P Rank HF r l Hr Hl Rr Rl (not_eq_sym Hlr)); [apply HF|apply HF|done].
    + intros x y. by apply (attach_same n P Rank HF).
    + apply same_sym. by apply (attach_same_ab n P Rank HF).
    + intros x y Hx Hy Hs. pose proof (attach_joined n P Rank HF r l Hr Hl Rr Rl Hrl x y Hx Hy Hs) as J. tauto.
    + rewrite (attach_roots n P Rank HF r l); [lia|done..].
  - assert (r <> l) as Hrl by done. pose proof (f_ranks _ _ _ HF) as HR. split_and!.
    + apply (attach_forest n P Rank HF r l Hr Hl Rr Rl (not_eq_sym Hlr)); [by rewrite length_alter| |].
      * intros x Hx Hne. rewrite !alter_rank by lia. pose proof (f_up _ _ _ HF x Hx Hne).
        repeat case_decide; subst; try done; lia.
      * rewrite !alter_rank by lia. repeat case_decide; subst; try done; lia.
    + intros x y. by apply (attach_same n P Rank HF).
    + apply same_sym. by apply (attach_same_ab n P Rank HF).
    + intros x y Hx Hy Hs. pose proof (attach_joined n P Rank HF r l Hr Hl Rr Rl Hrl x y Hx Hy Hs) as J. tauto.
    + rewrite (attach_roots n P Rank HF r l); [lia|done..].
Qed.

(** ** All the edges *)

Definition among (n : nat) (es : list (nat * nat)) (u v : nat) : Prop := (u, v) ∈ es /\ u < n /\ v < n.

Record joined (n : nat) (es : list (nat * nat)) (P Rank : list nat) : Prop := {
  j_forest : forest n P Rank;
  j_same x y : x < n -> y < n -> same P x y <-> rtsc (among n es) x y;
  j_roots : n <= length (roots n P) + length es;
}.

Lemma same_refl n P Rank x : forest n P Rank -> x < n -> same P x x.
Proof. intros HF Hx. destruct (rep_exists n P Rank HF x Hx) as [r Hr]. by exists r. Qed.

Lemma rtsc_same n es P Rank : forest n P Rank ->
  (forall u v, among n es u v -> same P u v) ->
  forall x y, x < n -> rtsc (among n es) x y -> same P x y.
Proof.
  intros HF HE x y Hx H. induction H as [x|x z y Hs _ IH]; [by apply (same_refl n P Rank)|].
  assert (z < n /\ same P x z) as [Hz Hxz].
  { destruct Hs as [Hs|Hs]; (split; [apply Hs|]); [|apply same_sym]; by apply HE. }
  apply (same_trans P x z y); auto.
Qed.

Lemma among_mono n es es' x y : (forall e, e ∈ es -> e ∈ es') ->
  rtsc (among n es) x y -> rtsc (among n es') x y.
Proof.
  intros He. apply rtc_subrel. intros u v [[H1 H2]|[H1 H2]]; [left|right]; (split; [by apply He|done]).
Qed.

Lemma same_transport n P P' : (forall y z, y < n -> rep P y z <-> rep P' y z) ->
  forall x y, x < n -> y < n -> same P x y <-> same P' x y.
Proof.
  intros HR x y Hx Hy. split; intros (r & H1 & H2); exists r; split; by apply HR.
Qed.

Lemma roots_transport n P P' : (forall y z, y < n -> rep P y z <-> rep P' y z) ->
  roots n P = roots n P'.
Proof.
  intros HR. unfold roots. apply filter_ext_in. intros x Hx.
  apply elem_of_seq in Hx. split; intros E.
  - apply (rep_is_root P' x). apply HR; [lia|by constructor].
  - apply (rep_is_root P x). apply HR; [lia|by constructor].
Qed.

Lemma join_spec n es P Rank a b :
  joined n es P Rank -> a < n ->
  exists P' Rank', join n a b (P, Rank) = Some (P', Rank') /\ joined n (es ++ [(a, b)]) P' Rank'.
Proof.
  intros [HF HS HC] Ha. unfold join. destruct (Nat.leb_spec n b) as [Hb|Hb].
  { exists P, Rank. split; [done|]. split; [done| |rewrite length_app; lia].
    intros x y Hx Hy. rewrite HS by done.
    assert (forall u v, among n es u v <-> among n (es ++ [(a, b)]) u v) as HE.
    { intros u v. unfold among. rewrite elem_of_app, list_elem_of_singleton. split; [tauto|].
      intros ([H|[= -> ->]] & Hu & Hv); [done|lia]. }
    split; apply rtc_subrel; intros u v [H|H]; apply HE in H; (by left) || by right. }
  destruct (CfgFindRoot_spec n P Rank a HF Ha) as (P1 & l & -> & Hl & HF1 & E1).
  cbn [mbind option_bind].
  destruct (CfgFindRoot_spec n P1 Rank b HF1 Hb) as (P2 & r & -> & Hr & HF2 & E2).
  cbn [mbind option_bind].
  assert (forall y z, y < n -> rep P y z <-> rep P2 y z) as E by (intros; by rewrite E1, E2).
  assert (rep P2 a l) as Hl2 by (by apply E2).
  destruct (CfgUnion_spec n P2 Rank l r HF2) as (HF3 & Hkeep & Hlr & Hmerge & Hc);
    [by apply (rep_range n P2 Rank HF2 a)|by apply (rep_range n P2 Rank HF2 b)|
     by apply (rep_is_root _ a)|by apply (rep_is_root _ b)|].
  destruct (CfgUnion P2 Rank l r) as [P3 Rank3]. cbn [fst snd] in *. exists P3, Rank3. split; [done|].
  assert (same P2 a l /\ same P2 b r) as [Sa Sb].
  { split; eexists; (split; [done|]); constructor; by eapply rep_is_root. }
  assert (l < n /\ r < n) as [Ln Rn]
    by (split; [apply (rep_range n P2 Rank HF2 a)|apply (rep_range n P2 Rank HF2 b)]; done).
  assert (rtsc (among n (es ++ [(a, b)])) a b) as Hab.
  { apply rtc_once. left. split; [|done]. apply elem_of_app. right. by left. }
  assert (forall x y, x < n -> y < n -> same P2 x y -> rtsc (among n (es ++ [(a, b)])) x y) as Hold.
  { intros x y Hx Hy Hs. apply (among_mono n es); [intros; apply elem_of_app; auto|].
    apply HS; [done..|]. by apply (same_transport n P P2). }
  assert (forall x y, x < n -> y < n -> rep P2 x l -> rep P2 y r -> rtsc (among n (es ++ [(a, b)])) x y) as Hnew.
  { intros x y Hx Hy Hxl Hyr. trans a; [apply Hold; [done..|]; by exists l|].
    trans b; [done|]. apply Hold; [done..|]. by exists r. }
  split; [done| |rewrite length_app, (roots_transport n P P2 E) in *; simpl; lia].
  intros x y Hx Hy. split.
  - intros Hs. destruct (Hmerge x y Hx Hy Hs) as [H|[[H1 H2]|[H1 H2]]]; [by apply Hold|by apply Hnew|].
    symmetry. by apply Hnew.
  - apply (rtsc_same n _ P3 Rank3); [done| |done].
    intros u v (Huv & Hu & Hv). apply elem_of_app in Huv as [Huv|Huv].
    + apply Hkeep; [done..|]. apply (same_transport n P P2 E); [done..|]. apply HS; [done..|].
      apply rtc_once. left. by split.
    + apply list_elem_of_singleton in Huv as [= -> ->].
      apply (same_trans _ a l); [by apply Hkeep|]. apply (same_trans _ l r); [done|].
      apply same_sym. by apply Hkeep.
Qed.

Lemma join_all_spec n es0 es P Rank :
  joined n es0 P Rank -> Forall (fun e => e.1 < n) es ->
  exists P' Rank', join_all n es (P, Rank) = Some (P', Rank') /\ joined n (es0 ++ es) P' Rank'.
Proof.
  intros HJ He. revert es0 P Rank HJ. induction He as [|[a b] es Ha He IH]; intros es0 P Rank HJ.
  { exists P, Rank. by rewrite app_nil_r. }
  cbn [join_all]. destruct (join_spec n es0 P Rank a b HJ Ha) as (P1 & R1 & -> & HJ1).
  cbn [mbind option_bind]. destruct (IH _ _ _ HJ1) as (P2 & R2 & -> & HJ2).
  exists P2, R2. split; [done|]. by rewrite <- app_assoc in HJ2.
Qed.

Lemma joined_start n : joined n [] (seq 0 n) (replicate n 0).
Proof.
  assert (forall x, x < n -> seq 0 n !!! x = x) as Hs.
  { intros x Hx. apply list_lookup_total_correct. rewrite lookup_seq. lia. }
  assert (forest n (seq 0 n) (replicate n 0)) as HF.
  { split; [apply length_seq|apply length_replicate| |]; intros x Hx; rewrite Hs by done; done. }
  split; [done| |].
  - intros x y Hx Hy. split.
    + intros (r & H1 & H2). apply rep_of_root in H1, H2; [|by apply Hs..]. by subst.
    + intros H. inversion H as [|? z ? [(Hz & _)|(Hz & _)] _]; subst;
        [by apply (same_refl n _ (replicate n 0))|by apply elem_of_nil in Hz..].
  - unfold roots. assert (filter (fun x => seq 0 n !!! x = x) (seq 0 n) = seq 0 n) as ->.
    { apply filter_every. intros x Hx. apply elem_of_seq in Hx. apply Hs. lia. }
    rewrite length_seq. simpl. lia.
Qed.

Lemma elem_of_edge_list g u v : (u, v) ∈ edge_list g <-> u < NodeCount g /\ v ∈ BlockSuccessors g u.
Proof.
  unfold edge_list. rewrite list_elem_of_bind. split.
  - intros (x & Hx & Hs). apply list_elem_of_fmap in Hx as (y & [= -> ->] & Hy).
    apply elem_of_seq in Hs. split; [lia|done].
  - intros [Hu Hv]. exists u. split; [|apply elem_of_seq; lia]. apply list_elem_of_fmap. by exists v.
Qed.

Lemma among_edge_list g u v : among (NodeCount g) (edge_list g) u v <-> edge g u v.
Proof. unfold among, edge. rewrite elem_of_edge_list. tauto. Qed.

(** The number written is the number of classes of connected blocks, and there
    are at least as many of them as blocks less edges. *)
Lemma ComputeConnectedComponents_spec g : exists reps,
  ComputeConnectedComponents g = Some (set_ConnectedComponentCount (length reps) g) /\
  NoDup reps /\ Forall (fun r => r < NodeCount g) reps /\
  (forall u, u < NodeCount g -> exists r, r ∈ reps /\ linked g u r) /\
  (forall r r', r ∈ reps -> r' ∈ reps -> linked g r r' -> r = r') /\
  NodeCount g <= length reps + length (edge_list g).
Proof.
  unfold ComputeConnectedComponents. destruct (Nat.eqb_spec (NodeCount g) 0) as [E|E].
  { exists []. rewrite E. split_and!; [done|constructor|constructor|lia| |lia].
    intros r r' Hr. by apply elem_of_nil in Hr. }
  destruct (join_all_spec (NodeCount g) [] (edge_list g) _ _ (joined_start _)) as (P & R & -> & HJ).
  { apply Forall_forall. intros [u v] He. by apply elem_of_edge_list in He as [He _]. }
  destruct HJ as [HF HS HC]. cbn [mbind option_bind app] in *.
  assert (forall u v, rtsc (among (NodeCount g) (edge_list g)) u v <-> linked g u v) as HL.
  { intros u v. split; apply rtc_subrel; intros a b [H|H]; apply among_edge_list in H; (by left) || by right. }
  exists (roots (NodeCount g) P). split; [done|]. split_and!; [apply NoDup_roots| | | |done].
  - apply Forall_forall. intros r Hr. by apply elem_of_roots in Hr as [Hr _].
  - intros u Hu. destruct (rep_exists _ P R HF u Hu) as [r Hr].
    pose proof (rep_range _ P R HF u r Hu Hr). pose proof (rep_is_root _ _ _ Hr).
    exists r. split; [by apply elem_of_roots|]. apply HL, HS; [done..|].
    exists r. split; [done|by constructor].
  - intros r r' Hr Hr' Hl. apply elem_of_roots in Hr as [Hn Hr], Hr' as [Hn' Hr'].
    apply HL, HS in Hl as (x & Hx & Hx'); [|done..].
    rewrite (rep_of_root _ _ _ Hr Hx) in Hx'. by apply rep_of_root in Hx'.
Qed.
