(* ===== verification/CfgSccInv.v ===== *)
(** * The invariant of Tarjan's search

    The invariant of the loop of [ComputeStronglyConnected] (CfgBuild.v), one
    predicate per aspect, each on the parts of the state it speaks about:

    - [stack_ok]: the component stack holds visited nodes by falling index;
    - [frames_ok]: the frames are a path of stacked nodes;
    - [seen_ok]: the successors already examined are visited;
    - [done_closed]: an edge out of a finished node ends in a finished node;
    - [reach_ok]: stacked nodes and frames reach each other;
    - [low_ok]: a low link is attained on the stack, and no examined edge of the
      part of the stack that belongs to a frame goes below it;
    - [comps_ok]: the components of the finished nodes.

    Each step of the loop is shown to keep every aspect. *)

From stdpp Require Import base option list numbers relations sorting.
From Stdlib Require Import ZArith Lia.
From S2P Require Import Prelude Cfg CfgBuild.

(** ** Stacks sorted by falling number *)

Definition falling (num : nat -> nat) (l : list nat) : Prop :=
  StronglySorted (fun a b => num b < num a) l.

Lemma falling_inj num l a b : falling num l -> a ∈ l -> b ∈ l -> num a = num b -> a = b.
Proof.
  induction 1 as [|x l _ IH Hx]; intros Ha Hb E; [by apply elem_of_nil in Ha|].
  rewrite Forall_forall in Hx. apply elem_of_cons in Ha as [->|Ha], Hb as [->|Hb]; [done| | |by apply IH].
  - specialize (Hx b Hb). lia.
  - specialize (Hx a Ha). lia.
Qed.

Lemma falling_head num x l a : falling num (x :: l) -> a ∈ x :: l -> num a <= num x.
Proof.
  inversion 1 as [|? ? _ Hx]; subst. rewrite Forall_forall in Hx.
  intros [->|Ha]%elem_of_cons; [done|]. specialize (Hx a Ha). lia.
Qed.

Lemma falling_NoDup num l : falling num l -> NoDup l.
Proof.
  induction 1 as [|x l _ IH Hx]; constructor; [|done].
  intros Hin. rewrite Forall_forall in Hx. specialize (Hx x Hin). lia.
Qed.

Lemma falling_app num l x r a :
  falling num (l ++ x :: r) -> (a ∈ l ++ [x] -> num x <= num a) /\ (a ∈ r -> num a < num x).
Proof.
  induction l as [|y l IH]; inversion 1 as [|? ? Hs Hy]; subst; rewrite Forall_forall in Hy.
  - split; [intros Ha; by apply list_elem_of_singleton in Ha as ->|intros Ha; by apply Hy].
  - destruct (IH Hs) as [I1 I2]. split; [|done]. intros [->|Ha]%elem_of_cons; [|by apply I1].
    assert (x ∈ l ++ x :: r) as Hx by (apply elem_of_app; right; by left). specialize (Hy x Hx). lia.
Qed.

Lemma falling_suffix num l r : falling num (l ++ r) -> falling num r.
Proof. induction l as [|y l IH]; [done|]. inversion 1; subst. by apply IH. Qed.

Lemma falling_prefix num l r : falling num (l ++ r) -> falling num l.
Proof.
  induction l as [|y l IH]; [constructor|]. inversion 1 as [|? ? Hs Hy]; subst.
  constructor; [by apply IH|]. by apply Forall_app in Hy as [Hy _].
Qed.

Lemma falling_ext num num' l : (forall a, a ∈ l -> num' a = num a) -> falling num l -> falling num' l.
Proof.
  intros E. induction 1 as [|x l _ IH Hx]; constructor.
  - apply IH. intros a Ha. apply E. by right.
  - rewrite Forall_forall in *. intros a Ha. rewrite (E a), (E x); [by apply Hx|by left|by right].
Qed.

Section Inv.
Context (g : ControlFlowGraph).
Abbreviation NB := (NodeCount g).
Abbreviation succ := (BlockSuccessors g).

(** ** The predicates *)

Definition visited (ix : list (option nat)) (v : nat) : Prop := is_Some (ix !!! v).
Definition num (ix : list (option nat)) (v : nat) : nat := default 0 (ix !!! v).
(** Visited, and its component found. *)
Definition finished (ix : list (option nat)) (S : list nat) (v : nat) : Prop := visited ix v /\ v ∉ S.

#[local] Instance finished_dec ix S v : Decision (finished ix S v).
Proof. unfold finished, visited. apply _. Qed.

Record stack_ok (ix : list (option nat)) (on : list bool) (S : list nat) (next : nat) : Prop := {
  st_index : length ix = NB;
  st_flags : length on = NB;
  st_node v : v ∈ S -> v < NB /\ visited ix v;
  st_on v : v < NB -> (on !!! v = true <-> v ∈ S);
  st_falling : falling (num ix) S;
  st_next v : visited ix v -> num ix v < next;
}.

(** Each frame but the last was entered from the one below it. *)
Fixpoint chained (F : list (nat * nat)) : Prop :=
  match F with
  | (v, _) :: (((p, _) :: _) as F') => edge g p v /\ chained F'
  | _ => True
  end.

Record frames_ok (ix : list (option nat)) (S : list nat) (F : list (nat * nat)) : Prop := {
  fr_stacked f : f ∈ F.*1 -> f ∈ S;
  fr_falling : falling (num ix) F.*1;
  fr_chained : chained F;
  fr_cursor v c : (v, c) ∈ F -> c <= length (succ v);
}.

(** The cursor of [v], if it has a frame, has passed [w]. *)
Definition examined (F : list (nat * nat)) (v w : nat) : Prop :=
  forall c, (v, c) ∈ F -> exists j, j < c /\ succ v !! j = Some w.

Definition seen_ok (ix : list (option nat)) (F : list (nat * nat)) : Prop :=
  forall v w, visited ix v -> edge g v w -> examined F v w -> visited ix w.

Definition done_closed (ix : list (option nat)) (S : list nat) : Prop :=
  forall v w, finished ix S v -> edge g v w -> finished ix S w.

Record reach_ok (ix : list (option nat)) (S : list nat) (G : list nat) : Prop := {
  re_up v : v ∈ S -> exists f, f ∈ G /\ num ix f <= num ix v /\ path g v f;
  re_down f v : f ∈ G -> v ∈ S -> num ix f <= num ix v -> path g f v;
}.

(** [f] is the frame whose part of the stack holds [v]. *)
Definition owner (ix : list (option nat)) (G : list nat) (f v : nat) : Prop :=
  f ∈ G /\ num ix f <= num ix v /\ forall f', f' ∈ G -> num ix f' <= num ix v -> num ix f' <= num ix f.

Record low_ok (ix : list (option nat)) (S : list nat) (F : list (nat * nat)) (low : list nat) : Prop := {
  lo_length : length low = NB;
  lo_attained f : f ∈ F.*1 -> low !!! f <= num ix f /\ exists w, w ∈ S /\ num ix w = low !!! f /\ path g f w;
  lo_bound f v w : owner ix F.*1 f v -> v ∈ S -> edge g v w -> examined F v w -> w ∈ S ->
    low !!! f <= num ix w;
}.

(** The finished nodes numbered [c]. *)
Definition members (ix : list (option nat)) (S : list nat) (comp : list nat) (c : nat) : list nat :=
  filter (fun v => finished ix S v /\ comp !!! v = c) (seq 0 NB).

Record comps_ok (ix : list (option nat)) (S comp : list nat) (nc : nat) (counts : list nat)
    (loops : list bool) : Prop := {
  co_length : length comp = NB;
  co_counts : length counts = nc;
  co_loops : length loops = nc;
  co_range v : finished ix S v -> comp !!! v < nc;
  co_mutual u v : finished ix S u -> finished ix S v -> (comp !!! u = comp !!! v <-> mutual g u v);
  co_order u v : finished ix S u -> edge g u v -> comp !!! v <= comp !!! u;
  co_members c : c < nc -> counts !!! c = length (members ix S comp c);
  co_nonempty c : c < nc -> exists v, finished ix S v /\ comp !!! v = c;
  co_isloop c : c < nc -> loops !!! c = (1 <? counts !!! c);
}.

Record scc_inv (s : SccState) : Prop := {
  in_stack : stack_ok (Index s) (OnStack s) (SccStack s) (NextIndex s);
  in_frames : frames_ok (Index s) (SccStack s) (Frames s);
  in_seen : seen_ok (Index s) (Frames s);
  in_done : done_closed (Index s) (SccStack s);
  in_reach : reach_ok (Index s) (SccStack s) (Frames s).*1;
  in_low : low_ok (Index s) (SccStack s) (Frames s) (LowLink s);
  in_comps : comps_ok (Index s) (SccStack s) (CompOf s) (NextComponent s) (Counts s) (IsLoop s);
}.

Lemma finished_node ix S v : length ix = NB -> finished ix S v -> v < NB.
Proof.
  intros Hl [[i Hi] _]. destruct (decide (v < NB)); [done|].
  rewrite list_lookup_total_alt, lookup_ge_None_2 in Hi by lia. done.
Qed.

Lemma visited_node ix v : length ix = NB -> visited ix v -> v < NB.
Proof. intros Hl Hv. apply (finished_node ix [] v Hl). split; [done|]. by intros ?%elem_of_nil. Qed.

(** ** The top frame *)

Lemma top_num ix K v c fs f : frames_ok ix K ((v, c) :: fs) -> f ∈ ((v, c) :: fs).*1 -> num ix f <= num ix v.
Proof. intros HF Hf. by apply (falling_head (num ix) v fs.*1), Hf; apply (fr_falling _ _ _ HF). Qed.

Lemma below_num ix K v c fs f : frames_ok ix K ((v, c) :: fs) -> f ∈ fs.*1 -> num ix f < num ix v.
Proof.
  intros HF Hf. pose proof (fr_falling _ _ _ HF) as H. inversion H as [|? ? _ Hall]; subst.
  rewrite Forall_forall in Hall. by apply Hall.
Qed.

Lemma owner_top ix K v c fs f w : falling (num ix) K -> frames_ok ix K ((v, c) :: fs) ->
  owner ix ((v, c) :: fs).*1 f w -> num ix v <= num ix w -> f = v.
Proof.
  intros HK HF (Hf & _ & Hmax) Hw. apply (falling_inj (num ix) K); [done|by apply HF| |].
  - apply HF. by left.
  - pose proof (top_num ix K v c fs f HF Hf). specialize (Hmax v). simpl in Hmax.
    assert (num ix v <= num ix f) by (apply Hmax; [by left|done]). lia.
Qed.

Lemma owner_pop ix K v c fs f w : frames_ok ix K ((v, c) :: fs) -> num ix w < num ix v ->
  owner ix fs.*1 f w -> owner ix ((v, c) :: fs).*1 f w.
Proof.
  intros HF Hw (Hf & Hle & Hmax). split_and!; [by right|done|].
  intros f' [->|Hf']%elem_of_cons Hf'w; [simpl in Hf'w; lia|by apply Hmax].
Qed.

(** ** Moving the cursor *)

Lemma frames_advance ix K v c fs : frames_ok ix K ((v, c) :: fs) -> c < length (succ v) ->
  frames_ok ix K ((v, S c) :: fs).
Proof.
  intros [H1 H2 H3 H4] Hc. split; [done|done| |].
  - destruct fs as [|[p c'] fs]; [done|]. exact H3.
  - intros u d [[= -> ->]|Hu]%elem_of_cons; [lia|]. apply H4. by right.
Qed.

Lemma examined_advance v c fs child u w : succ v !! c = Some child ->
  examined ((v, S c) :: fs) u w -> examined ((v, c) :: fs) u w \/ (u = v /\ w = child).
Proof.
  intros Hc He. destruct (decide (u = v)) as [->|Hu].
  - destruct (He (S c)) as (j & Hj & Hw); [by left|].
    destruct (decide (j = c)) as [->|Hjc]; [right; split; congruence|left].
    intros d Hd. apply elem_of_cons in Hd as [[= ->]|Hd]; [exists j; split; [lia|done]|]. apply He. by right.
  - left. intros d [[= Hv _]|Hd]%elem_of_cons; [done|]. apply He. by right.
Qed.

Lemma seen_advance ix v c fs child : succ v !! c = Some child ->
  (edge g v child -> visited ix child) -> seen_ok ix ((v, c) :: fs) -> seen_ok ix ((v, S c) :: fs).
Proof.
  intros Hc Hv Hs u w Hu He Hx. destruct (examined_advance _ _ _ _ _ _ Hc Hx) as [Hx'|[-> ->]].
  - by apply (Hs u).
  - by apply Hv.
Qed.

Lemma low_advance ix K v c fs child low : succ v !! c = Some child -> falling (num ix) K ->
  frames_ok ix K ((v, c) :: fs) -> (edge g v child -> child ∈ K -> low !!! v <= num ix child) ->
  low_ok ix K ((v, c) :: fs) low -> low_ok ix K ((v, S c) :: fs) low.
Proof.
  intros Hc HK HF Hl [L1 L2 L3]. split; [done|done|].
  intros f u w Ho Hu He Hx Hw. destruct (examined_advance _ _ _ _ _ _ Hc Hx) as [Hx'|[-> ->]].
  - by apply (L3 f u).
  - rewrite (owner_top ix K v c fs f v HK HF Ho); [by apply Hl|done].
Qed.

(** A low link lowered to a number found further down the stack. *)
Lemma low_lower ix K F low p l : low_ok ix K F low -> p < NB -> l <= low !!! p ->
  (exists w, w ∈ K /\ num ix w = l /\ path g p w) -> low_ok ix K F (<[p := l]> low).
Proof.
  intros [L1 L2 L3] Hp Hl Hw. split.
  - by rewrite length_insert.
  - intros f Hf. destruct (decide (f = p)) as [->|Hne].
    + rewrite list_lookup_total_insert_eq by lia. destruct (L2 p Hf) as [H _]. split; [lia|done].
    + rewrite list_lookup_total_insert_ne by done. by apply L2.
  - intros f u w Ho Hu He Hx Hwk. specialize (L3 f u w Ho Hu He Hx Hwk).
    destruct (decide (f = p)) as [->|Hne].
    + rewrite list_lookup_total_insert_eq by lia. lia.
    + by rewrite list_lookup_total_insert_ne.
Qed.

(** ** A node met for the first time *)

Section Discover.
Context (ix : list (option nat)) (on : list bool) (K : list nat) (next v : nat).
Context (HS : stack_ok ix on K next) (Hv : v < NB) (Hnew : ix !!! v = None).
Abbreviation ix' := (<[v := Some next]> ix).

Lemma num_new : num ix' v = next.
Proof. unfold num. rewrite list_lookup_total_insert_eq; [done|]. by rewrite (st_index _ _ _ _ HS). Qed.

Lemma visited_new u : visited ix' u <-> visited ix u \/ u = v.
Proof.
  unfold visited. pose proof (st_index _ _ _ _ HS). destruct (decide (u = v)) as [->|Hu].
  - rewrite list_lookup_total_insert_eq by lia. split; [by right|by eexists].
  - rewrite list_lookup_total_insert_ne by done. naive_solver.
Qed.

Lemma num_old u : u <> v -> num ix' u = num ix u.
Proof. intros Hu. unfold num. by rewrite list_lookup_total_insert_ne. Qed.

Lemma new_not_visited : ~ visited ix v.
Proof. unfold visited. rewrite Hnew. by intros [? ?]. Qed.

Lemma new_not_stacked u : u ∈ K -> u <> v.
Proof. intros Hu ->. by apply new_not_visited, (st_node _ _ _ _ HS). Qed.

Lemma num_stacked u : u ∈ K -> num ix' u = num ix u /\ num ix u < next.
Proof.
  intros Hu. split; [by apply num_old, new_not_stacked|].
  apply (st_next _ _ _ _ HS), (st_node _ _ _ _ HS), Hu.
Qed.

Lemma finished_new u : finished ix' (v :: K) u <-> finished ix K u.
Proof.
  unfold finished. rewrite visited_new, not_elem_of_cons. pose proof new_not_visited. naive_solver.
Qed.

Lemma stack_discover : stack_ok ix' (<[v := true]> on) (v :: K) (S next).
Proof.
  pose proof (st_index _ _ _ _ HS). pose proof (st_flags _ _ _ _ HS). split.
  - by rewrite length_insert.
  - by rewrite length_insert.
  - intros u [->|Hu]%elem_of_cons; rewrite visited_new; [auto|].
    destruct (st_node _ _ _ _ HS u Hu). auto.
  - intros u Hu. rewrite elem_of_cons. destruct (decide (u = v)) as [->|Hne].
    + rewrite list_lookup_total_insert_eq by lia. tauto.
    + rewrite list_lookup_total_insert_ne by done. rewrite (st_on _ _ _ _ HS) by done. tauto.
  - constructor.
    + apply (falling_ext (num ix)); [|apply HS]. intros a Ha. by apply num_stacked.
    + apply Forall_forall. intros a Ha. rewrite num_new. destruct (num_stacked a Ha) as [-> ?]. done.
  - intros u [Hu| ->]%visited_new; [|rewrite num_new; lia].
    assert (u <> v) by (intros ->; by apply new_not_visited).
    rewrite num_old by done. pose proof (st_next _ _ _ _ HS u Hu). lia.
Qed.

(** The frames [F'] differ from [F] in a cursor that passed the new node. *)
Context (F F' : list (nat * nat)) (HF : frames_ok ix K F) (HF' : frames_ok ix K F').
Context (Hnodes : F'.*1 = F.*1).
Context (Hentry : match F' with (p, _) :: _ => edge g p v | [] => True end).
Context (Hpass : forall u w, edge g u w -> examined F' u w -> examined F u w \/ w = v).

Lemma frames_discover : frames_ok ix' (v :: K) ((v, 0) :: F').
Proof.
  pose proof HF' as [H1 H2 H3 H4]. split; simpl.
  - intros f [->|Hf]%elem_of_cons; [by left|]. right. by apply H1.
  - constructor.
    + apply (falling_ext (num ix)); [|done]. intros a Ha. by apply num_stacked, H1.
    + apply Forall_forall. intros a Ha. rewrite num_new. destruct (num_stacked a (H1 a Ha)) as [-> ?]. done.
  - destruct F' as [|[p c] F'']; [done|]. split; [apply Hentry|exact H3].
  - intros u c [[= -> ->]|Hu]%elem_of_cons; [lia|by apply H4].
Qed.

(** The new frame has examined nothing. *)
Lemma examined_new u w : examined ((v, 0) :: F') u w -> u <> v /\ examined F' u w.
Proof.
  intros He. split.
  - intros ->. destruct (He 0) as (j & Hj & _); [by left|lia].
  - intros c Hc. apply He. by right.
Qed.

Lemma seen_discover : seen_ok ix F -> seen_ok ix' ((v, 0) :: F').
Proof.
  intros Hs u w Hu He [Hne Hx]%examined_new. apply visited_new in Hu as [Hu|Hu]; [|done].
  apply visited_new. destruct (Hpass u w He Hx) as [Hx'| ->]; [left; by apply (Hs u)|by right].
Qed.

Lemma done_discover : done_closed ix K -> done_closed ix' (v :: K).
Proof. intros Hd u w Hu He. apply finished_new in Hu. apply finished_new. by apply (Hd u). Qed.

Lemma reach_discover : reach_ok ix K F.*1 -> reach_ok ix' (v :: K) ((v, 0) :: F').*1.
Proof.
  intros [Hup Hdown]. pose proof (fr_stacked _ _ _ HF) as H1.
  change (((v, 0) :: F').*1) with (v :: F'.*1). rewrite Hnodes. split.
  - intros u [->|Hu]%elem_of_cons; [exists v; split_and!; [by left|done|done]|].
    destruct (Hup u Hu) as (f & Hf & Hle & Hp). exists f. split_and!; [by right| |done].
    destruct (num_stacked u Hu) as [-> _]. by destruct (num_stacked f (H1 f Hf)) as [-> _].
  - intros f u Hf Hu Hle. apply elem_of_cons in Hf as [->|Hf].
    + apply elem_of_cons in Hu as [->|Hu]; [done|]. rewrite num_new in Hle.
      destruct (num_stacked u Hu) as [E ?]. rewrite E in Hle. lia.
    + destruct (num_stacked f (H1 f Hf)) as [E ?]. rewrite E in Hle.
      apply elem_of_cons in Hu as [->|Hu].
      * rewrite <- Hnodes in Hf, Hdown. destruct F' as [|[p c] F'']; [by apply elem_of_nil in Hf|].
        apply rtc_r with p; [|apply Hentry].
        apply Hdown; [done|apply (fr_stacked _ _ _ HF'); by left|]. by apply (top_num ix K p c F'').
      * destruct (num_stacked u Hu) as [E' ?]. rewrite E' in Hle. by apply Hdown.
Qed.

Lemma owner_discover f u : u <> v -> u ∈ K -> owner ix' (v :: F'.*1) f u -> owner ix F.*1 f u.
Proof.
  rewrite Hnodes. intros Hu HuK (Hf & Hle & Hmax). destruct (num_stacked u HuK) as [E ?].
  assert (forall f, f ∈ F.*1 -> num ix' f = num ix f) as EF.
  { intros f' Hf'. by apply num_stacked, (fr_stacked _ _ _ HF). }
  assert (f ∈ F.*1) as Hf'.
  { apply elem_of_cons in Hf as [->|?]; [|done]. rewrite num_new, E in Hle. lia. }
  split_and!; [done|by rewrite <- E, <- EF|].
  intros f' Hf1 Hle1. rewrite <- (EF f'), <- (EF f) by done. apply Hmax; [by right|].
  by rewrite E, EF.
Qed.

Lemma low_discover low : low_ok ix K F low -> low_ok ix' (v :: K) ((v, 0) :: F') (<[v := next]> low).
Proof.
  intros [L1 L2 L3]. pose proof (fr_stacked _ _ _ HF) as H1. split.
  - by rewrite length_insert.
  - change (((v, 0) :: F').*1) with (v :: F'.*1). rewrite Hnodes. intros f [->|Hf]%elem_of_cons.
    + rewrite list_lookup_total_insert_eq, num_new by lia. split; [done|].
      exists v. split_and!; [by left|apply num_new|done].
    + rewrite list_lookup_total_insert_ne by (by intros <-; apply (new_not_stacked v); [apply H1|]).
      destruct (num_stacked f (H1 f Hf)) as [-> _]. destruct (L2 f Hf) as (Hle & w & Hw & Hn & Hp).
      split; [done|]. exists w. split_and!; [by right| |done]. by destruct (num_stacked w Hw) as [-> _].
  - intros f u w Ho Hu He [Hne Hx]%examined_new Hw.
    apply elem_of_cons in Hu as [->|Hu]; [done|]. pose proof (owner_discover f u Hne Hu Ho) as Ho'.
    assert (f <> v) as Hfv by (apply new_not_stacked, H1, Ho').
    rewrite list_lookup_total_insert_ne by done.
    apply elem_of_cons in Hw as [->|Hw].
    + rewrite num_new. destruct (L2 f) as [Hle _]; [apply Ho'|].
      destruct (num_stacked f (H1 f (proj1 Ho'))). lia.
    + destruct (num_stacked w Hw) as [-> _].
      destruct (Hpass u w He Hx) as [Hx'| ->]; [by apply (L3 f u)|].
      by apply new_not_stacked in Hw.
Qed.

Lemma comps_discover comp nc counts loops :
  comps_ok ix K comp nc counts loops -> comps_ok ix' (v :: K) comp nc counts loops.
Proof.
  intros [C1 C2 C3 C4 C5 C6 C7 C8 C9]. split; try done.
  - intros u Hu%finished_new. by apply C4.
  - intros u w Hu%finished_new Hw%finished_new. by apply C5.
  - intros u w Hu%finished_new He. by apply C6.
  - intros c Hc. rewrite C7 by done. f_equal. unfold members. apply filter_ext_in.
    intros u _. by rewrite finished_new.
  - intros c Hc. destruct (C8 c Hc) as (u & Hu & E). exists u. by rewrite finished_new.
Qed.
End Discover.
End Inv.

(** ** Tarjan's search: leaving a node

    The last round of a node in CfgBuild.v: either its component is popped off the
    stack, or its part of the stack goes to the frame below. *)

Section Leave.
Context (g : ControlFlowGraph).
Abbreviation NB := (NodeCount g).
Abbreviation succ := (BlockSuccessors g).

Section Frame.
Context (ix : list (option nat)) (K : list nat) (v c : nat) (fs : list (nat * nat)).
Abbreviation F := ((v, c) :: fs).
Context (HK : falling (num ix) K) (HF : frames_ok g ix K F) (Hlast : succ v !! c = None).

Lemma top_stacked : v ∈ K.
Proof. apply (fr_stacked _ _ _ _ HF). by left. Qed.

Lemma examined_all w : edge g v w -> examined g F v w.
Proof.
  intros (Hw & _ & _) d Hd. apply elem_of_cons in Hd as [[= ->]|Hd].
  - apply elem_of_BlockSuccessors in Hw as [j Hj]. exists j. split; [|done].
    apply lookup_ge_None in Hlast. apply lookup_lt_Some in Hj. lia.
  - assert (v ∈ fs.*1) as Hv by (apply list_elem_of_fmap; by exists (v, d)).
    pose proof (below_num g ix K v c fs v HF Hv). lia.
Qed.

Lemma examined_pop u w : edge g u w -> examined g fs u w -> examined g F u w.
Proof.
  intros He Hx. destruct (decide (u = v)) as [->|Hu]; [by apply examined_all|].
  intros d [[= Hv _]|Hd]%elem_of_cons; [done|by apply Hx].
Qed.

Lemma seen_leave : seen_ok g ix F -> seen_ok g ix fs.
Proof. intros Hs u w Hu He Hx. apply (Hs u); [done..|]. by apply examined_pop. Qed.

Lemma frames_leave K' : (forall f, f ∈ fs.*1 -> f ∈ K') -> frames_ok g ix K' fs.
Proof.
  intros HK'. destruct HF as [_ H2 H3 H4]. split; [done| | |].
  - by inversion H2.
  - destruct fs as [|[p d] fs']; [done|]. apply H3.
  - intros u d Hu. apply H4. by right.
Qed.

(** ** Without a component *)

Lemma reach_leave : reach_ok g ix K F.*1 -> (exists w, w ∈ K /\ num ix w < num ix v /\ path g v w) ->
  reach_ok g ix K fs.*1.
Proof.
  intros [Hup Hdown] (w & Hw & Hlt & Hp). split; [|intros f u Hf; apply Hdown; by right].
  intros u Hu. destruct (Hup u Hu) as (f & Hf & Hle & Hpf).
  apply elem_of_cons in Hf as [->|Hf]; [|by exists f].
  destruct (Hup w Hw) as (f' & Hf' & Hle' & Hpf'). simpl in *.
  apply elem_of_cons in Hf' as [->|Hf']; [lia|]. exists f'. split_and!; [done|lia|].
  by repeat (etrans; [eassumption|]).
Qed.

Lemma owner_self u : num ix v <= num ix u -> owner ix F.*1 v u.
Proof. intros Hu. split_and!; [by left|done|]. intros f Hf _. by apply (top_num g ix K v c fs). Qed.

Lemma low_leave p d fs' low : fs = (p, d) :: fs' -> low_ok g ix K F low -> low !!! p <= low !!! v ->
  low_ok g ix K fs low.
Proof.
  intros Efs [L1 L2 L3] Hpv. split; [done|intros f Hf; apply L2; by right|].
  intros f u w Ho Hu He Hx Hw. pose proof (examined_pop u w He Hx) as Hx'.
  destruct (decide (num ix v <= num ix u)) as [Hle|Hlt].
  - pose proof (L3 v u w (owner_self u Hle) Hu He Hx' Hw).
    assert (p ∈ fs.*1) as Hp by (rewrite Efs; by left).
    assert (f = p) as ->; [|lia]. apply (owner_top g ix K p d fs' f u HK).
    + rewrite <- Efs. apply frames_leave. intros. apply (fr_stacked _ _ _ _ HF). by right.
    + by rewrite <- Efs.
    + pose proof (below_num g ix K v c fs p HF Hp). lia.
  - apply (L3 f u w); try done. apply (owner_pop g ix K); [done|lia|done].
Qed.

(** ** With a component *)

Section Pop.
Context (K1 K2 : list nat) (EK : K = K1 ++ v :: K2) (low : list nat).
Context (HL : low_ok g ix K F low) (Hlow : low !!! v = num ix v).
Context (HR : reach_ok g ix K F.*1) (HS : seen_ok g ix F) (HD : done_closed g ix K).
Context (Hnode : forall u, u ∈ K -> u < NB /\ visited ix u).
Abbreviation C := (K1 ++ [v]).

Lemma stack_split u : u ∈ K <-> u ∈ C \/ u ∈ K2.
Proof. rewrite EK, !elem_of_app, elem_of_cons, list_elem_of_singleton. tauto. Qed.

Lemma num_split u : (u ∈ C -> num ix v <= num ix u) /\ (u ∈ K2 -> num ix u < num ix v).
Proof. apply (falling_app (num ix) K1 v K2 u). by rewrite <- EK. Qed.

Lemma split_disjoint u : u ∈ C -> u ∉ K2.
Proof. clear Hlow. intros H1 H2. pose proof (num_split u) as [A1 A2]. specialize (A1 H1). specialize (A2 H2). lia. Qed.

Lemma below_in_rest f : f ∈ fs.*1 -> f ∈ K2.
Proof.
  clear Hlow. intros Hf. pose proof (below_num g ix K v c fs f HF Hf) as Hlt.
  assert (f ∈ K) as Hk by (apply (fr_stacked _ _ _ _ HF); by right).
  apply stack_split in Hk as [Hc|?]; [|done]. apply num_split in Hc. lia.
Qed.

Lemma frame_in_component f : f ∈ F.*1 -> f ∈ C -> f = v.
Proof.
  intros [->|Hf]%elem_of_cons Hc; [done|]. by apply below_in_rest, split_disjoint in Hf.
Qed.

Lemma component_closed u w : u ∈ C -> edge g u w -> w ∈ C \/ finished ix K w.
Proof.
  intros Hu He. assert (u ∈ K) as HuK by (apply stack_split; by left).
  assert (examined g F u w) as Hx.
  { destruct (decide (u = v)) as [->|Hne]; [by apply examined_all|].
    intros d Hd. destruct Hne. apply frame_in_component; [|done].
    apply list_elem_of_fmap. by exists (u, d). }
  assert (visited ix w) as Hw by (apply (HS u); [by apply Hnode|done..]).
  destruct (decide (w ∈ K)) as [HwK|HwK]; [|by right]. left.
  pose proof (lo_bound _ _ _ _ _ HL v u w (owner_self u (proj1 (num_split u) Hu)) HuK He Hx HwK).
  apply stack_split in HwK as [?|HwK]; [done|]. apply num_split in HwK. lia.
Qed.

Lemma finished_path u w : finished ix K u -> path g u w -> finished ix K w.
Proof. intros Hu Hp. by apply (path_closed g (finished ix K) u w HD). Qed.

Lemma component_path u w : u ∈ C -> path g u w -> w ∈ C \/ finished ix K w.
Proof.
  intros Hu Hp. apply (path_closed g (fun w => w ∈ C \/ finished ix K w) u w); [|done|by left].
  intros a b [Ha|Ha] He; [by apply (component_closed a)|right]. by apply (HD a).
Qed.

Lemma component_mutual u : u ∈ C -> mutual g u v.
Proof.
  intros Hu. assert (u ∈ K) as HuK by (apply stack_split; by left). split.
  - destruct (re_up _ _ _ _ HR u HuK) as (f & Hf & _ & Hp).
    destruct (component_path u f Hu Hp) as [Hc|[_ Hc]]; [by rewrite <- (frame_in_component f)|].
    destruct Hc. by apply (fr_stacked _ _ _ _ HF).
  - apply (re_down _ _ _ _ HR); [by left|done|]. by apply num_split.
Qed.

Lemma finished_pop u : finished ix K2 u <-> finished ix K u \/ u ∈ C.
Proof.
  unfold finished. split.
  - intros [Hv Hu]. destruct (decide (u ∈ C)) as [?|Hc]; [by right|left]. split; [done|].
    rewrite stack_split. tauto.
  - intros [[Hv Hu]|Hu].
    + split; [done|]. intros Hk. apply Hu, stack_split. by right.
    + split; [apply Hnode, stack_split; by left|by apply split_disjoint].
Qed.

Lemma component_fresh u w : u ∈ C -> finished ix K w -> ~ mutual g u w.
Proof.
  intros Hu Hw [_ Hp]. destruct (finished_path w u Hw Hp) as [_ Hn]. apply Hn, stack_split. by left.
Qed.

Lemma done_pop : done_closed g ix K2.
Proof.
  intros u w [Hu|Hu]%finished_pop He; apply finished_pop.
  - left. by apply (HD u).
  - destruct (component_closed u w Hu He); auto.
Qed.

Lemma reach_pop : reach_ok g ix K2 fs.*1.
Proof.
  clear Hlow. destruct HR as [Hup Hdown]. split.
  - intros u Hu. destruct (Hup u) as (f & Hf & Hle & Hp); [apply stack_split; by right|].
    apply elem_of_cons in Hf as [->|Hf]; [|by exists f].
    simpl in Hle. apply num_split in Hu. lia.
  - intros f u Hf Hu. apply Hdown; [by right|apply stack_split; by right].
Qed.

Lemma low_pop : low_ok g ix K2 fs low.
Proof.
  destruct HL as [L1 L2 L3]. split; [done| |].
  - intros f Hf. destruct (L2 f) as (Hle & w & Hw & Hn & Hp); [by right|]. split; [done|].
    exists w. split_and!; [|done|done]. pose proof (below_num g ix K v c fs f HF Hf).
    apply stack_split in Hw as [Hw|?]; [|done]. apply num_split in Hw. lia.
  - intros f u w Ho Hu He Hx Hw. apply (L3 f u w); [|by apply stack_split; right|done| |by apply stack_split; right].
    + apply (owner_pop g ix K); [done|by apply num_split|done].
    + by apply examined_pop.
Qed.

(** The new component is the part of the stack down to [v]. *)
Lemma comps_pop comp comp' nc counts loops :
  comps_ok g ix K comp nc counts loops -> length comp' = NB ->
  (forall x, x ∈ C -> comp' !!! x = nc) -> (forall x, x ∉ C -> comp' !!! x = comp !!! x) ->
  comps_ok g ix K2 comp' (S nc) (counts ++ [length C]) (loops ++ [1 <? length C]).
Proof.
  intros [C1 C2 C3 C4 C5 C6 C7 C8 C9] Hlen Hin Hout.
  assert (forall x, finished ix K x -> comp' !!! x = comp !!! x) as Hold.
  { intros x [_ Hx]. apply Hout. intros Hc. apply Hx, stack_split. by left. }
  assert (forall l : list nat, length l = nc -> forall x, (l ++ [x]) !!! nc = x) as Hlast'.
  { intros l Hl x. rewrite list_lookup_total_alt, lookup_app_r, Hl, Nat.sub_diag by lia. done. }
  split; [done|rewrite length_app; simpl; lia..| | | | | |].
  - intros x [Hx|Hx]%finished_pop; [rewrite Hold by done; specialize (C4 x Hx); lia|rewrite Hin by done; lia].
  - intros x y [Hx|Hx]%finished_pop [Hy|Hy]%finished_pop.
    + rewrite !Hold by done. by apply C5.
    + rewrite (Hold x Hx), (Hin y Hy). specialize (C4 x Hx). split; [lia|].
      intros Hm. by destruct (component_fresh y x Hy Hx).
    + rewrite (Hold y Hy), (Hin x Hx). specialize (C4 y Hy). split; [lia|].
      intros Hm. by destruct (component_fresh x y Hx Hy).
    + rewrite !Hin by done. split; [|done]. intros _. trans v; [by apply component_mutual|].
      symmetry. by apply component_mutual.
  - intros x y [Hx|Hx]%finished_pop He.
    + assert (finished ix K y) by (by apply (HD x)). rewrite !Hold by done. by apply C6.
    + rewrite (Hin x Hx). destruct (component_closed x y Hx He) as [Hy|Hy]; [by rewrite Hin|].
      rewrite Hold by done. specialize (C4 y Hy). lia.
  - intros d Hd. destruct (decide (d = nc)) as [->|Hne].
    + rewrite Hlast' by done. apply Permutation_length. symmetry. apply NoDup_Permutation.
      * apply NoDup_filter, NoDup_seq.
      * apply (falling_NoDup (num ix)). revert HK. rewrite EK.
        replace (K1 ++ v :: K2) with (C ++ K2) by (by rewrite <- app_assoc).
        apply falling_prefix.
      * intros x. unfold members. rewrite list_elem_of_filter, elem_of_seq. split.
        -- intros [[[Hx|Hx]%finished_pop E] _]; [|done]. rewrite Hold in E by done.
           specialize (C4 x Hx). lia.
        -- intros Hx. split; [split; [apply finished_pop; by right|by apply Hin]|].
           split; [lia|]. apply Hnode, stack_split. by left.
    + rewrite list_lookup_total_alt, lookup_app_l, <- list_lookup_total_alt by lia.
      rewrite C7 by lia. f_equal. apply filter_ext_in. intros x _. rewrite finished_pop. split.
      * intros [Hx E]. rewrite Hold by done. auto.
      * intros [[Hx|Hx] E]; [by rewrite Hold in E|]. rewrite Hin in E by done. lia.
  - intros d Hd. destruct (decide (d = nc)) as [->|Hne].
    + exists v. split; [apply finished_pop; right|apply Hin]; apply elem_of_app; right; by left.
    + destruct (C8 d) as (x & Hx & E); [lia|]. exists x. rewrite finished_pop, Hold by done. auto.
  - intros d Hd. destruct (decide (d = nc)) as [->|Hne].
    + rewrite Hlast' by done. rewrite list_lookup_total_alt, lookup_app_r, C3, Nat.sub_diag by lia. done.
    + rewrite !list_lookup_total_alt, !lookup_app_l, <- !list_lookup_total_alt by lia. apply C9. lia.
Qed.
End Pop.
End Frame.
End Leave.
