(* ===== verification/CfgSccSpec.v ===== *)
(** * Tarjan's search finds the strongly connected components

    Each round of CfgBuild.v keeps the invariant of CfgSccInv.v and uses up one
    unit of a measure, so the search ends within its fuel. At the end all nodes
    are finished: two nodes have the same component number exactly if they reach
    each other, and the loop flags mark the components with a cycle. *)

From stdpp Require Import base option list numbers relations sorting.
From Stdlib Require Import ZArith Lia.
From S2P Require Import Prelude Cfg CfgBuild CfgSccInv.

Lemma pop_loop_spec v c K1 K2 on comp m : v ∉ K1 ->
  exists on' comp', pop_loop v c (K1 ++ v :: K2) on comp m = (K2, on', comp', m + length (K1 ++ [v])) /\
    length on' = length on /\ length comp' = length comp /\
    (forall x, x < length on -> on' !!! x = if decide (x ∈ K1 ++ [v]) then false else on !!! x) /\
    (forall x, x < length comp -> comp' !!! x = if decide (x ∈ K1 ++ [v]) then c else comp !!! x) /\
    (forall x, x ∉ K1 ++ [v] -> comp' !!! x = comp !!! x).
Proof.
  revert on comp m. induction K1 as [|t K1 IH]; intros on comp m Hv; cbn [pop_loop app].
  - rewrite Nat.eqb_refl. exists (<[v := false]> on), (<[v := c]> comp).
    split_and!; [by rewrite Nat.add_1_r|apply length_insert|apply length_insert| | |];
      intros x Hx; [case_decide as E..|]; rewrite list_elem_of_singleton in *; subst;
      rewrite ?list_lookup_total_insert_eq, ?list_lookup_total_insert_ne by done; done.
  - apply not_elem_of_cons in Hv as [Hvt Hv]. destruct (Nat.eqb_spec t v) as [->|_]; [done|].
    destruct (IH (<[t := false]> on) (<[t := c]> comp) (S m) Hv)
      as (on' & comp' & -> & L1 & L2 & H1 & H2 & H3).
    rewrite length_insert in L1. rewrite length_insert in L2. setoid_rewrite length_insert in H1. setoid_rewrite length_insert in H2. exists on', comp'.
    split_and!; [f_equal; simpl; lia|done|done| | |].
    + intros x Hx. rewrite H1 by done. destruct (decide (x = t)) as [->|Hne].
      * rewrite list_lookup_total_insert_eq by done.
        do 2 case_decide; try done; exfalso; eauto using list_elem_of_here.
      * rewrite list_lookup_total_insert_ne by done. apply decide_ext. rewrite elem_of_cons. tauto.
    + intros x Hx. rewrite H2 by done. destruct (decide (x = t)) as [->|Hne].
      * rewrite list_lookup_total_insert_eq by done.
        do 2 case_decide; try done; exfalso; eauto using list_elem_of_here.
      * rewrite list_lookup_total_insert_ne by done. apply decide_ext. rewrite elem_of_cons. tauto.
    + intros x [Hne Hx]%not_elem_of_cons. rewrite H3 by done. by rewrite list_lookup_total_insert_ne.
Qed.

Section Spec.
Context (g : ControlFlowGraph).
Abbreviation NB := (NodeCount g).
Abbreviation succ := (BlockSuccessors g).

(** ** One round keeps the invariant *)

Lemma discover_inv s v F' : scc_inv g s -> v < NB -> Index s !!! v = None ->
  frames_ok g (Index s) (SccStack s) F' -> F'.*1 = (Frames s).*1 ->
  match F' with (p, _) :: _ => edge g p v | [] => True end ->
  (forall u w, edge g u w -> examined g F' u w -> examined g (Frames s) u w \/ w = v) ->
  scc_inv g (discover_node v F' s).
Proof.
  intros [I1 I2 I3 I4 I5 I6 I7] Hv Hnew HF' Hn He Hp. split; cbn [Index LowLink OnStack SccStack Frames
    NextIndex NextComponent CompOf Counts IsLoop discover_node].
  - by apply stack_discover.
  - by eapply frames_discover.
  - by eapply seen_discover.
  - by eapply done_discover.
  - by apply (reach_discover g _ (OnStack s) _ _ v I1 Hv Hnew (Frames s) F').
  - by apply (low_discover g _ (OnStack s) _ _ v I1 Hv Hnew (Frames s) F').
  - by eapply comps_discover.
Qed.

Section Round.
Context (s : SccState) (v c : nat) (fs : list (nat * nat)).
Context (HI : scc_inv g s) (EF : Frames s = (v, c) :: fs).

Lemma top_node : v < NB /\ visited (Index s) v /\ v ∈ SccStack s.
Proof.
  pose proof (in_frames g s HI) as HF. rewrite EF in HF. pose proof (top_stacked g _ _ _ _ _ HF) as Hk.
  by destruct (st_node _ _ _ _ _ (in_stack g s HI) v Hk).
Qed.

(** A cursor passes an examined child; the low link takes its number if lower. *)
Lemma pass_inv child low : succ v !! c = Some child -> (edge g v child -> visited (Index s) child) ->
  (low = LowLink s \/ exists l, low = <[v := l]> (LowLink s) /\ l <= LowLink s !!! v /\
     num (Index s) child = l /\ child ∈ SccStack s /\ edge g v child) ->
  (edge g v child -> child ∈ SccStack s -> low !!! v <= num (Index s) child) ->
  scc_inv g (MkScc (Index s) low (OnStack s) (SccStack s) ((v, S c) :: fs) (NextIndex s)
    (NextComponent s) (CompOf s) (Counts s) (IsLoop s)).
Proof.
  intros Hc Hvis Hlow Hle. destruct top_node as (Hv & _ & _). destruct HI as [I1 I2 I3 I4 I5 I6 I7].
  rewrite EF in *. assert (low_ok g (Index s) (SccStack s) ((v, c) :: fs) low) as I6'.
  { destruct Hlow as [->|(l & -> & Hl & Hn & Hk & He)]; [done|]. apply low_lower; [done..|].
    exists child. split_and!; [done|done|by apply rtc_once]. }
  split; cbn; try done.
  - apply (frames_advance g _ _ v c); [done|]. by apply lookup_lt_Some in Hc.
  - by apply (seen_advance g _ v c fs child).
  - apply (low_advance g _ _ v c fs child); [done|apply (st_falling _ _ _ _ _ I1)|done..].
Qed.

Lemma visit_child_inv child : succ v !! c = Some child -> scc_inv g (visit_child g v c child fs s).
Proof.
  intros Hc. destruct top_node as (Hv & _ & Hk). unfold visit_child.
  destruct (Nat.leb_spec NB child) as [Hb|Hb].
  { apply (pass_inv child); [done|intros (_ & _ & ?); lia|by left|intros (_ & _ & ?); lia]. }
  assert (edge g v child) as He.
  { split_and!; [apply elem_of_BlockSuccessors; by exists c|done|done]. }
  destruct (Index s !!! child) as [i|] eqn:Ei.
  - assert (visited (Index s) child) as Hvis by (unfold visited; rewrite Ei; by eexists).
    assert (num (Index s) child = i) as Hn by (unfold num; by rewrite Ei).
    pose proof (st_on _ _ _ _ _ (in_stack g s HI) child Hb) as Hon.
    cbn [set_Frames OnStack LowLink]. destruct (OnStack s !!! child) eqn:Eo; cbn [andb].
    + assert (child ∈ SccStack s) as Hck by (by apply Hon).
      destruct (Nat.ltb_spec i (LowLink s !!! v)) as [Hi|Hi].
      * apply (pass_inv child); [done|done| |].
        -- right. exists i. split_and!; [done|lia|done|done|done].
        -- intros _ _. rewrite list_lookup_total_insert_eq; [lia|].
           cbn. by rewrite (lo_length _ _ _ _ _ (in_low g s HI)).
      * apply (pass_inv child); [done|done|by left|]. intros _ _. lia.
    + apply (pass_inv child); [done|done|by left|]. intros _ Hck. by apply Hon in Hck.
  - pose proof (in_frames g s HI) as HF. apply discover_inv; [done|done|done| | |done|].
    + rewrite EF in HF. apply (frames_advance g _ _ v c); [done|]. by apply lookup_lt_Some in Hc.
    + by rewrite EF.
    + rewrite EF. intros u w _ Hx. destruct (examined_advance g _ _ _ _ _ _ Hc Hx) as [?|[_ ->]]; auto.
Qed.

(** ** The last round of a node *)

Context (Hlast : succ v !! c = None).

Lemma leave_inv : LowLink s !!! v <> num (Index s) v -> scc_inv g (leave v fs s).
Proof.
  intros Hne. destruct top_node as (Hv & _ & Hk). destruct HI as [I1 I2 I3 I4 I5 I6 I7].
  rewrite EF in *. pose proof (st_falling _ _ _ _ _ I1) as HK.
  destruct (lo_attained _ _ _ _ _ I6 v) as (Hle & w & Hw & Hnw & Hpw); [by left|].
  assert (reach_ok g (Index s) (SccStack s) fs.*1) as I5'.
  { apply (reach_leave g _ _ v c); [done|]. exists w. split_and!; [done|lia|done]. }
  destruct fs as [|[p d] fs'] eqn:Efs.
  { destruct (re_up _ _ _ _ I5' v Hk) as (f & Hf & _). by apply elem_of_nil in Hf. }
  assert (p ∈ SccStack s) as Hp by (apply (fr_stacked _ _ _ _ I2); right; by left).
  pose proof (st_node _ _ _ _ _ I1 p Hp) as [Hpn _].
  assert (p <> v) as Hpv.
  { intros ->. assert (v ∈ ((v, d) :: fs').*1) as Hin by (by left).
    pose proof (below_num g _ _ v c _ v I2 Hin). lia. }
  assert (forall low, low_ok g (Index s) (SccStack s) ((v, c) :: (p, d) :: fs') low -> low !!! p <= low !!! v ->
    scc_inv g (MkScc (Index s) low (OnStack s) (SccStack s) ((p, d) :: fs') (NextIndex s)
      (NextComponent s) (CompOf s) (Counts s) (IsLoop s))) as Hdone.
  { intros low I6' Hlow. split; cbn; try done.
    - apply (frames_leave g _ (SccStack s) v c); [done|]. intros f Hf. apply (fr_stacked _ _ _ _ I2). by right.
    - by apply (seen_leave g _ (SccStack s) v c).
    - by apply (low_leave g _ _ v c ((p, d) :: fs') HK I2 Hlast p d fs'). }
  unfold leave. cbn [set_Frames LowLink].
  destruct (Nat.ltb_spec (LowLink s !!! v) (LowLink s !!! p)) as [Hlt|Hge]; [|by apply Hdone].
  apply (Hdone (<[p := LowLink s !!! v]> (LowLink s))).
  - apply low_lower; [done|done|lia|]. exists w. split_and!; [done|done|].
    etrans; [|done]. apply rtc_once. by destruct (fr_chained _ _ _ _ I2).
  - pose proof (lo_length _ _ _ _ _ I6). rewrite list_lookup_total_insert_eq by lia.
    by rewrite list_lookup_total_insert_ne.
Qed.

Lemma pop_inv : LowLink s !!! v = num (Index s) v -> scc_inv g (leave v fs (pop_component v s)).
Proof.
  intros Heq. destruct top_node as (Hv & _ & Hk). destruct HI as [I1 I2 I3 I4 I5 I6 I7].
  rewrite EF in *. pose proof (st_falling _ _ _ _ _ I1) as HK. pose proof (st_flags _ _ _ _ _ I1) as Hflags.
  pose proof (co_length _ _ _ _ _ _ _ I7) as Hclen.
  apply list_elem_of_split in Hk as (K1 & K2 & EK).
  assert (v ∉ K1) as HvK.
  { intros Hin. pose proof (falling_NoDup _ _ HK) as Hnd. rewrite EK in Hnd.
    apply NoDup_app in Hnd as (_ & Hd & _). apply (Hd v Hin). by left. }
  pose proof (fun P => stack_split (SccStack s) v K1 K2 EK P) as Hsplit.
  pose proof (fun u => split_disjoint (Index s) (SccStack s) v HK K1 K2 EK u) as Hdisj.
  destruct (pop_loop_spec v (NextComponent s) K1 K2 (OnStack s) (CompOf s) 0 HvK)
    as (on' & comp' & Epop & L1 & L2 & H1 & H2 & H3).
  unfold pop_component. rewrite EK, Epop. cbn [Nat.add].
  assert (scc_inv g (MkScc (Index s) (LowLink s) on' K2 fs (NextIndex s) (S (NextComponent s)) comp'
    (Counts s ++ [length (K1 ++ [v])]) (IsLoop s ++ [1 <? length (K1 ++ [v])]))) as HI'.
  { assert (forall u, u ∈ SccStack s -> u < NB /\ visited (Index s) u) as Hn by apply I1.
    split; cbn.
    - split; [apply I1|lia| | | |apply I1].
      + intros u Hu. apply Hn, Hsplit. by right.
      + intros u Hu. rewrite H1 by lia. specialize (Hsplit u). specialize (Hdisj u).
        pose proof (st_on _ _ _ _ _ I1 u Hu). case_decide; [|tauto]. split; [done|]. tauto.
      + apply (falling_suffix _ (K1 ++ [v])). rewrite <- app_assoc. cbn. by rewrite <- EK.
    - apply (frames_leave g _ (SccStack s) v c); [done|]. by apply (below_in_rest g _ _ v c fs HK I2 K1 K2).
    - by apply (seen_leave g _ (SccStack s) v c).
    - by apply (done_pop g _ (SccStack s) v c fs HK I2 Hlast K1 K2 EK (LowLink s)).
    - by apply (reach_pop g _ (SccStack s) v c fs HK K1 K2 EK).
    - by apply (low_pop g _ (SccStack s) v c fs HK I2 Hlast K1 K2 EK (LowLink s)).
    - apply (comps_pop g _ (SccStack s) v c fs HK I2 Hlast K1 K2 EK (LowLink s) I6 Heq I5 I3 I4 Hn (CompOf s));
        [done|lia| |done].
      intros x Hx. assert (x < NB) by (apply Hn, Hsplit; by left). rewrite H2 by lia. by rewrite decide_True. }
  unfold leave. cbn [set_Frames LowLink Index OnStack SccStack NextIndex NextComponent CompOf Counts IsLoop].
  destruct fs as [|[p d] fs'] eqn:Efs; [done|].
  destruct (Nat.ltb_spec (LowLink s !!! v) (LowLink s !!! p)) as [Hlt|Hge]; [|done]. exfalso.
  assert (p ∈ ((p, d) :: fs').*1) as Hp by (by left).
  pose proof (below_num g _ _ v c _ p I2 Hp). destruct (lo_attained _ _ _ _ _ I6 p) as [Hle _]; [by right|]. lia.
Qed.
End Round.

Lemma scc_step_inv s v c fs : scc_inv g s -> Frames s = (v, c) :: fs -> scc_inv g (scc_step g v c fs s).
Proof.
  intros HI EF. unfold scc_step. destruct (succ v !! c) as [child|] eqn:Hc.
  - by apply visit_child_inv.
  - destruct (top_node s v c fs HI EF) as (_ & [i Hi] & _).
    case_bool_decide as E.
    + apply (pop_inv s v c fs); [done..|]. unfold num. by rewrite E.
    + apply (leave_inv s v c fs); [done..|]. unfold num; rewrite Hi. cbn. congruence.
Qed.

(** ** The search ends *)

Definition cost (v : nat) : nat := S (length (succ v)).
Definition unvisited (ix : list (option nat)) : list nat := filter (fun v => ix !!! v = None) (seq 0 NB).
Definition frame_cost (f : nat * nat) : nat := cost f.1 - f.2.
Definition measure (s : SccState) : nat :=
  sum_list_with cost (unvisited (Index s)) + sum_list_with frame_cost (Frames s).

Lemma unvisited_discover ix v i : length ix = NB -> v < NB -> ix !!! v = None ->
  unvisited ix ≡ₚ v :: unvisited (<[v := Some i]> ix).
Proof.
  intros Hl Hv Hnew. apply NoDup_Permutation.
  - apply NoDup_filter, NoDup_seq.
  - constructor; [|apply NoDup_filter, NoDup_seq]. unfold unvisited. rewrite list_elem_of_filter.
    rewrite list_lookup_total_insert_eq by lia. by intros [? _].
  - intros x. unfold unvisited. rewrite elem_of_cons, !list_elem_of_filter, elem_of_seq.
    destruct (decide (x = v)) as [->|Hx]; [naive_solver lia|].
    rewrite list_lookup_total_insert_ne by done. naive_solver.
Qed.

Lemma measure_discover s v F' : length (Index s) = NB -> v < NB -> Index s !!! v = None ->
  measure (discover_node v F' s) = sum_list_with cost (unvisited (Index s)) + sum_list_with frame_cost F'.
Proof.
  intros Hl Hv Hnew. unfold measure, discover_node. cbn [Index Frames].
  rewrite (unvisited_discover (Index s) v (NextIndex s)) by done. cbn [sum_list_with].
  change (frame_cost (v, 0)) with (cost v - 0). lia.
Qed.

Lemma Index_leave v fs s : Index (leave v fs s) = Index s.
Proof. unfold leave. destruct fs as [|[p d] fs]; [done|]. by case_match. Qed.

Lemma Frames_leave v fs s : Frames (leave v fs s) = fs.
Proof. unfold leave. destruct fs as [|[p d] fs]; [done|]. by case_match. Qed.

Lemma Index_pop v s : Index (pop_component v s) = Index s.
Proof. unfold pop_component. by destruct (pop_loop _ _ _ _ _ _) as [[[? ?] ?] ?]. Qed.

Lemma scc_step_measure s v c fs : scc_inv g s -> Frames s = (v, c) :: fs ->
  measure (scc_step g v c fs s) < measure s.
Proof.
  intros HI EF. pose proof (st_index _ _ _ _ _ (in_stack g s HI)) as Hl.
  pose proof (fr_cursor _ _ _ _ (in_frames g s HI) v c) as Hc. rewrite EF in Hc.
  specialize (Hc (list_elem_of_here _ _)).
  assert (frame_cost (v, S c) < frame_cost (v, c)) as Hlt by (unfold frame_cost, cost; simpl; lia).
  unfold scc_step. destruct (succ v !! c) as [child|] eqn:E.
  - unfold visit_child. destruct (Nat.leb_spec NB child); [unfold measure; rewrite EF; cbn [set_Frames set_LowLink Index Frames sum_list_with]; lia|].
    destruct (Index s !!! child) eqn:Ei; [|rewrite measure_discover by done; unfold measure; rewrite EF; cbn [set_Frames set_LowLink Index Frames sum_list_with]; lia].
    case_match; unfold measure; rewrite EF; cbn [set_Frames set_LowLink Index Frames sum_list_with]; lia.
  - unfold measure. rewrite Frames_leave, Index_leave, EF.
    assert (forall b : bool, Index (if b then pop_component v s else s) = Index s) as -> by (intros []; [apply Index_pop|done]).
    cbn [sum_list_with]. unfold frame_cost, cost in *. cbn [fst snd] in *. lia.
Qed.

Lemma scc_step_mono s v c fs u : visited (Index s) u -> visited (Index (scc_step g v c fs s)) u.
Proof.
  intros Hu. unfold scc_step. destruct (succ v !! c) as [child|].
  - unfold visit_child. case_match; [done|]. destruct (Index s !!! child) eqn:Ei; [by case_match|].
    unfold visited. cbn. destruct (decide (u = child)) as [->|Hne].
    + destruct Hu as [? ?]. congruence.
    + by rewrite list_lookup_total_insert_ne.
  - rewrite Index_leave. case_match; [by rewrite Index_pop|done].
Qed.

Lemma scc_loop_spec fuel s : scc_inv g s -> measure s < fuel ->
  exists s', scc_loop g fuel s = Some s' /\ scc_inv g s' /\ Frames s' = [] /\
    forall u, visited (Index s) u -> visited (Index s') u.
Proof.
  revert s. induction fuel as [|fuel IH]; intros s HI Hf; [lia|]. cbn [scc_loop].
  destruct (Frames s) as [|[v c] fs] eqn:EF; [by exists s|].
  pose proof (scc_step_measure s v c fs HI EF).
  destruct (IH (scc_step g v c fs s)) as (s' & -> & HI' & EF' & Hm);
    [by apply scc_step_inv|lia|]. exists s'. split_and!; [done..|].
  intros u Hu. by apply Hm, scc_step_mono.
Qed.

Lemma scc_root_spec s r : scc_inv g s -> Frames s = [] -> r < NB ->
  exists s', scc_root g r s = Some s' /\ scc_inv g s' /\ Frames s' = [] /\
    (forall u, visited (Index s) u -> visited (Index s') u) /\ visited (Index s') r.
Proof.
  intros HI EF Hr. pose proof (st_index _ _ _ _ _ (in_stack g s HI)) as Hl.
  unfold scc_root. destruct (Index s !!! r) as [i|] eqn:Er.
  { exists s. split_and!; [done..|]. unfold visited. rewrite Er. by eexists. }
  destruct (scc_loop_spec (scc_fuel g) (discover_node r [] s)) as (s' & -> & HI' & EF' & Hm).
  - apply discover_inv; [done|done|done| |by rewrite EF|done|by rewrite EF; auto].
    split; [intros f []%elem_of_nil|constructor|done|intros u c []%elem_of_nil].
  - rewrite measure_discover by done. unfold scc_fuel. simpl. unfold unvisited.
    assert (forall l, sum_list_with cost (filter (fun v => Index s !!! v = None) l) <= sum_list_with cost l) as Hle.
    { induction l as [|x l IHl]; [done|]. rewrite filter_cons. case_decide; simpl; lia. }
    specialize (Hle (seq 0 NB)). change (sum_list_with (fun v => S (length (succ v)))) with (sum_list_with cost). lia.
  - exists s'. assert (forall u, visited (Index s) u \/ u = r -> visited (Index s') u) as Hv.
    { intros u Hu. apply Hm. unfold discover_node. cbn [Index]. unfold visited.
      destruct (decide (u = r)) as [->|Hne]; [rewrite list_lookup_total_insert_eq by lia; by eexists|].
      rewrite list_lookup_total_insert_ne by done. destruct Hu as [Hu|Hu]; done. }
    split_and!; [done|done|done|auto|auto].
Qed.

Lemma scc_roots_spec roots s : Forall (fun r => r < NB) roots -> scc_inv g s -> Frames s = [] ->
  exists s', scc_roots g roots s = Some s' /\ scc_inv g s' /\ Frames s' = [] /\
    (forall u, visited (Index s) u \/ u ∈ roots -> visited (Index s') u).
Proof.
  intros Hr. revert s. induction Hr as [|r roots Hr Hrs IH]; intros s HI EF.
  { exists s. split_and!; [done..|]. by intros u [?|[]%elem_of_nil]. }
  cbn [scc_roots]. destruct (scc_root_spec s r HI EF Hr) as (s1 & -> & HI1 & EF1 & Hm & Hv).
  cbn [mbind option_bind]. destruct (IH s1 HI1 EF1) as (s2 & -> & HI2 & EF2 & Hm2).
  exists s2. split_and!; [done..|]. intros u [Hu|[->|Hu]%elem_of_cons]; apply Hm2; auto.
Qed.

Lemma init_inv : scc_inv g (init_scc g).
Proof.
  assert (forall v, ~ visited (replicate NB None) v) as Hno.
  { intros v [i Hi]. rewrite list_lookup_total_alt in Hi. destruct (replicate NB None !! v) eqn:E; [|done].
    apply lookup_replicate in E as [-> _]. done. }
  split; cbn.
  - split; [by rewrite length_replicate..| | |constructor|].
    + intros v []%elem_of_nil.
    + intros v Hv. rewrite lookup_total_replicate_2 by done. split; [done|intros []%elem_of_nil].
    + intros v Hv. by destruct (Hno v).
  - split; [intros f []%elem_of_nil|constructor|done|intros u c []%elem_of_nil].
  - intros v w Hv. by destruct (Hno v).
  - intros v w [Hv _]. by destruct (Hno v).
  - split; [intros v []%elem_of_nil|intros f v []%elem_of_nil].
  - split; [by rewrite length_replicate|intros f []%elem_of_nil|intros f v w (Hf & _); by apply elem_of_nil in Hf].
  - split; [by rewrite length_replicate|done|done| | | |lia..]; intros u; [intros [Hu _]|intros v [Hu _]|intros v [Hu _]];
      by destruct (Hno u).
Qed.

(** ** The loop flags *)

Lemma HasSelfEdge_spec v : v < NB -> HasSelfEdge g v = true <-> edge g v v.
Proof.
  intros Hv. unfold HasSelfEdge. rewrite existsb_exists. split.
  - intros (x & Hx & E). apply Nat.eqb_eq in E as ->. apply list_elem_of_In in Hx. by split.
  - intros (Hx & _). exists v. rewrite list_elem_of_In in Hx. by rewrite Nat.eqb_refl.
Qed.

Lemma mark_all comp counts l loops d :
  length loops = length counts -> Forall (fun v => comp !!! v < length counts) l ->
  length (foldl (mark_self_edge g comp counts) loops l) = length loops /\
  (foldl (mark_self_edge g comp counts) loops l !!! d = true <->
   loops !!! d = true \/ exists v, v ∈ l /\ comp !!! v = d /\ counts !!! d = 1 /\ HasSelfEdge g v = true).
Proof.
  intros Hl Hc. revert loops Hl. induction Hc as [|v l Hv Hc IH]; intros loops Hl.
  { split; [done|]. split; [auto|]. intros [?|(v & []%elem_of_nil & _)]; done. }
  cbn [foldl]. set (loops1 := mark_self_edge g comp counts loops v).
  assert (length loops1 = length loops /\ (loops1 !!! d = true <->
    loops !!! d = true \/ (comp !!! v = d /\ counts !!! d = 1 /\ HasSelfEdge g v = true))) as [L1 H1].
  { unfold loops1, mark_self_edge. destruct (Nat.leb_spec (length counts) (comp !!! v)); [lia|].
    destruct (Nat.eqb_spec (counts !!! (comp !!! v)) 1) as [E|E]; cbn [andb];
      [destruct (HasSelfEdge g v) eqn:Es|]; try (split; [done|]; naive_solver).
    split; [by rewrite length_insert|]. destruct (decide (comp !!! v = d)) as [<-|Hd].
    - rewrite list_lookup_total_insert_eq by lia. tauto.
    - rewrite list_lookup_total_insert_ne by done. tauto. }
  destruct (IH loops1) as [L2 H2]; [lia|]. split; [lia|]. rewrite H2, H1. split.
  - intros [[?|Hx]|(x & Hx & Hp)]; [by left|right; exists v; split; [by left|done]|].
    right. exists x. split; [by right|done].
  - intros [?|(x & [->|Hx]%elem_of_cons & Hp)]; [by left; left|left; right; done|right; by exists x].
Qed.

Lemma tc_mutual u w : u <> w -> mutual g u w -> cycle_path g u u.
Proof.
  intros Hne [H1 H2]. inversion H1 as [|? x ? He Hp]; subst; [done|].
  eapply tc_rtc_r; [|done]. by eapply tc_rtc_r; [apply tc_once|].
Qed.

(** What the search writes: component numbers, sizes and loop flags. *)
Record scc_result (comp counts : list nat) (loops : list bool) : Prop := {
  sr_length : length comp = NB;
  sr_loops : length loops = length counts;
  sr_range u : u < NB -> comp !!! u < length counts;
  sr_mutual u v : u < NB -> v < NB -> (comp !!! u = comp !!! v <-> mutual g u v);
  sr_order u v : edge g u v -> comp !!! v <= comp !!! u;
  sr_counts d : d < length counts ->
    counts !!! d = length (filter (fun v => comp !!! v = d) (seq 0 NB)) /\ 0 < counts !!! d;
  sr_cycles d : d < length counts ->
    (loops !!! d = true <-> exists v, v < NB /\ comp !!! v = d /\ cycle_path g v v);
}.

Lemma finished_all s : scc_inv g s -> Frames s = [] -> forall v, visited (Index s) v -> finished (Index s) (SccStack s) v.
Proof.
  intros HI EF v Hv. split; [done|]. intros Hk.
  destruct (re_up _ _ _ _ (in_reach g s HI) v Hk) as (f & Hf & _). rewrite EF in Hf. by apply elem_of_nil in Hf.
Qed.

(** Sizes and loop flags from the invariant at the end of the search. *)
Lemma final_cycles s loops d : scc_inv g s -> (forall v, v < NB -> finished (Index s) (SccStack s) v) ->
  length loops = NextComponent s -> d < NextComponent s ->
  (loops !!! d = true <-> IsLoop s !!! d = true \/
     exists v, v ∈ seq 0 NB /\ CompOf s !!! v = d /\ Counts s !!! d = 1 /\ HasSelfEdge g v = true) ->
  (loops !!! d = true <-> exists v, v < NB /\ CompOf s !!! v = d /\ cycle_path g v v).
Proof.
  intros HI Hfin Hl Hd ->. destruct (in_comps g s HI) as [_ C2 C3 _ C5 _ C7 _ C9]. rewrite C9, C7 by done.
  set (l := members g (Index s) (SccStack s) (CompOf s) d).
  assert (forall v, v ∈ l <-> v < NB /\ CompOf s !!! v = d) as Hin.
  { intros v. unfold l, members. rewrite list_elem_of_filter, elem_of_seq. split; [intros [[_ ?] ?]; split; [lia|done]|].
    intros [Hv E]. split; [by split; [apply Hfin|]|lia]. }
  assert (NoDup l) as Hnd by (apply NoDup_filter, NoDup_seq).
  split.
  - intros [H%Nat.ltb_lt|(v & Hv%elem_of_seq & E & _ & Hs)].
    + destruct l as [|a [|b l']] eqn:El; [simpl in H; lia..|].
      assert (a <> b) as Hab by (apply NoDup_cons in Hnd as [Hn _]; intros ->; apply Hn; by left).
      destruct (Hin a) as [Ha _], (Hin b) as [Hb _]. destruct Ha as [Ha Ea]; [by left|].
      destruct Hb as [Hb Eb]; [right; by left|]. exists a. split_and!; [done|done|].
      apply (tc_mutual a b); [done|]. apply C5; [by apply Hfin..|]. by rewrite Ea, Eb.
    + exists v. split_and!; [lia|done|]. apply tc_once. by apply HasSelfEdge_spec; [lia|].
  - intros (v & Hv & E & Hcyc). destruct (decide (1 < length l)) as [?|Hle]; [left; by apply Nat.ltb_lt|right].
    exists v. rewrite elem_of_seq. split_and!; [lia|lia|done| |].
    + assert (v ∈ l) as Hvl by (by apply Hin). destruct l as [|a [|b l']]; simpl in *; [by apply elem_of_nil in Hvl|done|lia].
    + apply HasSelfEdge_spec; [done|]. inversion Hcyc as [? ? He|? w ? He Hp]; subst; [done|].
      assert (w = v) as ->; [|done]. destruct He as (Hw1 & _ & Hw).
      assert (CompOf s !!! w = CompOf s !!! v) as Ew.
      { apply C5; [by apply Hfin..|]. split; [by apply tc_rtc|]. by apply rtc_once. }
      assert (v ∈ l /\ w ∈ l) as [H1 H2] by (split; by apply Hin).
      destruct l as [|a [|b l']]; [by apply elem_of_nil in H1| |simpl in Hle; lia].
      apply list_elem_of_singleton in H1, H2. congruence.
Qed.

(** The outputs of [ComputeStronglyConnected] on a graph with blocks. *)
Lemma ComputeStronglyConnected_spec : 0 < NB -> exists comp counts loops,
  scc_result comp counts loops /\
  ComputeStronglyConnected g =
    Some (set_LoopCount (length (filter (fun b => b = true) loops))
      (set_StronglyConnectedCount (length counts)
        (set_ComponentIsLoop loops (set_ComponentNodeCounts counts (set_ComponentOfBlock comp g))))).
Proof.
  intros HN. unfold ComputeStronglyConnected. destruct (Nat.eqb_spec NB 0); [lia|].
  destruct (scc_roots_spec (seq 0 NB) (init_scc g)) as (s & -> & HI & EF & Hv);
    [apply Forall_forall; intros r Hr%elem_of_seq; lia|apply init_inv|done|].
  cbn [mbind option_bind].
  assert (forall v, v < NB -> finished (Index s) (SccStack s) v) as Hfin.
  { intros v Hvn. apply finished_all; [done..|]. apply Hv. right. apply elem_of_seq. lia. }
  destruct (in_comps g s HI) as [C1 C2 C3 C4 C5 C6 C7 C8 C9].
  assert (Forall (fun v => CompOf s !!! v < length (Counts s)) (seq 0 NB)) as Hr.
  { apply Forall_forall. intros v Hvn%elem_of_seq. rewrite C2. apply C4, Hfin. lia. }
  pose proof (fun d => mark_all (CompOf s) (Counts s) (seq 0 NB) (IsLoop s) d (eq_trans C3 (eq_sym C2)) Hr) as Hmark.
  set (loops := foldl _ _ _) in *. exists (CompOf s), (Counts s), loops.
  split; [|by rewrite C2]. destruct (Hmark 0) as [HL _]. split; [done|by rewrite HL, C2| | | | |].
  - intros u Hu. rewrite C2. by apply C4, Hfin.
  - intros u v Hu Hvn. apply C5; by apply Hfin.
  - intros u v He. apply C6; [|done]. apply Hfin, He.
  - intros d Hd. rewrite C2 in Hd. rewrite C7 by done.
    assert (members g (Index s) (SccStack s) (CompOf s) d = filter (fun v => CompOf s !!! v = d) (seq 0 NB)) as Em.
    { apply filter_ext_in. intros v Hvn%elem_of_seq. split; [by intros [_ ?]|]. split; [apply Hfin; lia|done]. }
    split; [by rewrite Em|]. destruct (C8 d Hd) as (v & Hvf & E).
    destruct (members _ _ _ _ _) as [|a l] eqn:El; [|simpl; lia].
    assert (v ∈ members g (Index s) (SccStack s) (CompOf s) d) as Hin; [|rewrite El in Hin; by apply elem_of_nil in Hin].
    apply list_elem_of_filter. split; [done|]. apply elem_of_seq.
    pose proof (finished_node g _ _ v (st_index _ _ _ _ _ (in_stack g s HI)) Hvf). lia.
  - intros d Hd. rewrite C2 in Hd. apply final_cycles; [done|done|by rewrite HL|done|]. apply Hmark.
Qed.
End Spec.
