(* ===== verification/CfgEdgesSpec.v ===== *)
(** * The edges of a control-flow graph

    [BuildSuccessors] (CfgBuild.v) gives each block the blocks at the offsets
    its last instruction can pass control to, and lays the lists end to end. *)

From stdpp Require Import base option list numbers sorting.
From Stdlib Require Import ZArith Lia.
From S2P Require Import Prelude Cfg CfgBuild.
Local Open Scope Z_scope.

(** ** Blocks found by their offset *)

Fixpoint offset_index (o : Z) (n : nat) (offs : list Z) : option nat :=
  match offs with
  | [] => None
  | x :: r => if x <? o then offset_index o (S n) r else if x =? o then Some n else None
  end.

Definition offsets (g : ControlFlowGraph) : list Z := map Offset (Blocks g).

Lemma lower_bound_index o n bs :
  match lower_bound o n bs with
  | Some (i, b) => if Offset b =? o then Some i else None
  | None => None
  end = offset_index o n (map Offset bs).
Proof.
  revert n. induction bs as [|b bs IH]; intros n; [done|]. cbn.
  by destruct (Offset b <? o).
Qed.

Lemma BlockAtOffset_index g o : BlockAtOffset g o = offset_index o 0 (offsets g).
Proof. apply lower_bound_index. Qed.

Lemma offset_index_spec o n offs i : StronglySorted Z.lt offs ->
  offset_index o n offs = Some i <-> (n <= i)%nat /\ offs !! (i - n)%nat = Some o.
Proof.
  intros Hs. revert n. induction Hs as [|x r _ IH Hx]; intros n; cbn; [split; [done|by intros [_ ?]]|].
  rewrite Forall_forall in Hx. destruct (Z.ltb_spec x o) as [Hlt|Hge].
  - rewrite IH. split.
    + intros [Hn E]. split; [lia|]. by replace (i - n)%nat with (S (i - S n)) by lia.
    + intros [Hn E]. destruct (i - n)%nat as [|d] eqn:Ed; [injection E; lia|].
      split; [lia|]. by replace (i - S n)%nat with d by lia.
  - destruct (Z.eqb_spec x o) as [->|Hne].
    + split.
      * intros [= ->]. split; [lia|]. by rewrite Nat.sub_diag.
      * intros [Hn E]. destruct (i - n)%nat as [|d] eqn:Ed; [f_equal; lia|].
        cbn in E. apply list_elem_of_lookup_2 in E. specialize (Hx o E). lia.
    + split; [done|]. intros [Hn E]. destruct (i - n)%nat as [|d] eqn:Ed; [by injection E|].
      cbn in E. apply list_elem_of_lookup_2 in E. specialize (Hx o E). lia.
Qed.

(** ** The targets of a block *)

Section Targets.
Context (Len : Z) (offs : list Z).

Definition resolve (o : Z) : option nat := if Len <=? o then None else offset_index o 0 offs.
Definition drops (o : Z) : Z := if Len <=? o then 0 else match offset_index o 0 offs with None => 1 | Some _ => 0 end.

(** The offsets control can pass to, in the order of the candidates. *)
Definition targets (b : CfgBlock) : list Z :=
  let Target := if TargetOffset b =? CfgNoTarget then [] else [w32 (TargetOffset b)] in
  let Next := w32 (Offset b + Size b) in
  match End_ b with
  | EndConditionalBranch => Target ++ [Next]
  | EndDirectBranch => Target
  | EndFallthrough | EndRangeEnd => [Next]
  | EndIndirectBranch | EndReturn | EndNoReturn | EndDecodeError => []
  end.

Definition dropped (b : CfgBlock) : Z := foldr (fun o n => drops o + n) 0 (targets b).

(** The first occurrences of the blocks found. *)
Fixpoint first_blocks (os : list Z) (Taken : list nat) : list nat :=
  match os with
  | [] => Taken
  | o :: os' =>
      match resolve o with
      | Some i => if existsb (fun t => (t =? i)%nat) Taken then first_blocks os' Taken
                  else first_blocks os' (Taken ++ [i])
      | None => first_blocks os' Taken
      end
  end.

Definition succ_list (b : CfgBlock) : list nat := first_blocks (targets b) [].

Lemma elem_of_first_blocks os Taken i :
  i ∈ first_blocks os Taken <-> i ∈ Taken \/ exists o, o ∈ os /\ resolve o = Some i.
Proof.
  revert Taken. induction os as [|o os IH]; intros Taken; cbn.
  { split; [auto|]. intros [?|(o & []%elem_of_nil & _)]; done. }
  assert ((exists o', o' ∈ o :: os /\ resolve o' = Some i) <->
    resolve o = Some i \/ exists o', o' ∈ os /\ resolve o' = Some i) as ->.
  { split; [intros (o' & [->|Ho]%elem_of_cons & E); eauto|].
    intros [E|(o' & Ho & E)]; [exists o|exists o']; (split; [|done]); [by left|by right]. }
  destruct (resolve o) as [j|].
  - destruct (existsb _ Taken) eqn:E; rewrite IH.
    + apply existsb_exists in E as (t & Ht & ->%Nat.eqb_eq). apply list_elem_of_In in Ht. naive_solver.
    + rewrite elem_of_app, list_elem_of_singleton. naive_solver.
  - rewrite IH. naive_solver.
Qed.

Lemma NoDup_first_blocks os Taken : NoDup Taken -> NoDup (first_blocks os Taken).
Proof.
  revert Taken. induction os as [|o os IH]; intros Taken HT; cbn; [done|].
  destruct (resolve o) as [j|]; [|by apply IH]. destruct (existsb _ Taken) eqn:E; [by apply IH|].
  apply IH, NoDup_app. split_and!; [done| |apply NoDup_singleton].
  intros x Hx ->%list_elem_of_singleton. apply not_true_iff_false in E. apply E, existsb_exists.
  exists j. split; [by apply list_elem_of_In|apply Nat.eqb_refl].
Qed.

Lemma length_first_blocks os Taken : (length (first_blocks os Taken) <= length Taken + length os)%nat.
Proof.
  revert Taken. induction os as [|o os IH]; intros Taken; cbn; [lia|].
  destruct (resolve o) as [j|]; [|specialize (IH Taken); lia].
  destruct (existsb _ Taken); [specialize (IH Taken)|specialize (IH (Taken ++ [j])); rewrite length_app in IH; simpl in IH]; lia.
Qed.
End Targets.

Lemma set_Dropped_set m m' g : set_DroppedSuccessorCount m (set_DroppedSuccessorCount m' g) = set_DroppedSuccessorCount m g.
Proof. done. Qed.

Lemma set_Dropped_id g : set_DroppedSuccessorCount (DroppedSuccessorCount g) g = g.
Proof. by destruct g. Qed.

Lemma ResolveSuccessor_spec Len o g :
  ResolveSuccessor Len o g =
  (set_DroppedSuccessorCount (DroppedSuccessorCount g + drops Len (offsets g) o) g, resolve Len (offsets g) o).
Proof.
  unfold ResolveSuccessor, drops, resolve. rewrite BlockAtOffset_index.
  destruct (Len <=? o); [by rewrite Z.add_0_r, set_Dropped_id|].
  by destruct (offset_index _ _ _); rewrite ?Z.add_0_r, ?set_Dropped_id.
Qed.

Lemma take_resolved Len offs os Taken :
  take_candidates (map (resolve Len offs) os) Taken = first_blocks Len offs os Taken.
Proof.
  revert Taken. induction os as [|o os IH]; intros Taken; cbn; [done|].
  destruct (resolve Len offs o) as [i|]; [|done]. by case_match.
Qed.

(** The candidates of the code, resolved, are the targets, resolved. *)
Lemma offered_spec Len b g : exists cs,
  candidates Len b g = (set_DroppedSuccessorCount (DroppedSuccessorCount g + dropped Len (offsets g) b) g, cs) /\
  take_candidates cs [] = succ_list Len (offsets g) b.
Proof.
  unfold succ_list, candidates, dropped, targets, resolve_target. rewrite <- take_resolved.
  destruct (End_ b); rewrite ?ResolveSuccessor_spec; cbn -[w32];
    try (eexists; split; [by rewrite ?Z.add_0_r, ?set_Dropped_id|cbn -[w32]; by repeat case_match]).
  - destruct (_ =? _); cbn -[w32]; rewrite ?ResolveSuccessor_spec; cbn -[w32]; rewrite ?Z.add_0_r;
      (eexists; split; [by rewrite ?set_Dropped_id|cbn -[w32]; by repeat case_match]).
  - destruct (_ =? _); cbn -[w32]; rewrite ?ResolveSuccessor_spec; cbn -[w32]; rewrite ?Z.add_0_r.
    + eexists. split; [done|]. cbn -[w32]. by repeat case_match.
    + unfold offsets. cbn -[w32]. eexists. split; [by rewrite Z.add_assoc|]. cbn -[w32]. by repeat case_match.
Qed.

(** ** All blocks *)

Lemma set_nothing g : SuccessorBlocks g = [] ->
  set_ExitBlockCount (ExitBlockCount g + 0) (set_DroppedSuccessorCount (DroppedSuccessorCount g + 0)
    (set_SuccessorBlocks [] (set_Blocks (Blocks g) g))) = g.
Proof. destruct g. cbn. intros ->. by rewrite !Z.add_0_r. Qed.

Section Build.
Context (Len : Z) (g : ControlFlowGraph).
Context (HN : NodeCount g = length (Blocks g)) (Hfresh : SuccessorBlocks g = []).

Definition succ_lists : list (list nat) := map (succ_list Len (offsets g)) (Blocks g).
Definition slice_start (i : nat) : nat := length (concat (take i succ_lists)).

Definition linked_block (i : nat) (b : CfgBlock) : CfgBlock :=
  set_SuccessorCount (length (succ_list Len (offsets g) b)) (set_FirstSuccessor (slice_start i) b).

Definition count_empty (l : list (list nat)) : Z := Z.of_nat (length (filter (fun x => x = []) l)).
Definition sum_dropped (bs : list CfgBlock) : Z := foldr (fun b n => dropped Len (offsets g) b + n) 0 bs.

(** The graph when the first [k] blocks are linked. *)
Definition linked_upto (k : nat) : ControlFlowGraph :=
  set_ExitBlockCount (ExitBlockCount g + count_empty (take k succ_lists))
    (set_DroppedSuccessorCount (DroppedSuccessorCount g + sum_dropped (take k (Blocks g)))
      (set_SuccessorBlocks (concat (take k succ_lists))
        (set_Blocks (imap (fun i b => if decide (i < k)%nat then linked_block i b else b) (Blocks g)) g))).

Lemma linked_upto_0 : linked_upto 0 = g.
Proof.
  unfold linked_upto. replace (imap _ (Blocks g)) with (Blocks g).
  - by apply set_nothing.
  - apply list_eq. intros i. rewrite list_lookup_imap. by destruct (Blocks g !! i).
Qed.

Lemma offsets_upto k : offsets (linked_upto k) = offsets g.
Proof.
  unfold offsets. cbn. apply list_eq. intros i. rewrite !list_lookup_fmap, list_lookup_imap.
  destruct (Blocks g !! i); [|done]. cbn. by case_decide.
Qed.

Lemma succ_lists_lookup i b : Blocks g !! i = Some b -> succ_lists !! i = Some (succ_list Len (offsets g) b).
Proof. intros E. unfold succ_lists. by rewrite list_lookup_fmap, E. Qed.

Lemma slice_start_S i b : Blocks g !! i = Some b ->
  slice_start (S i) = (slice_start i + length (succ_list Len (offsets g) b))%nat.
Proof.
  intros E. unfold slice_start. rewrite (take_S_r _ _ _ (succ_lists_lookup i b E)), concat_app, length_app.
  cbn. by rewrite app_nil_r.
Qed.

Lemma blocks_upto_S k b (new : CfgBlock) : Blocks g !! k = Some b -> new = linked_block k b ->
  <[k := new]> (imap (fun i b => if decide (i < k)%nat then linked_block i b else b) (Blocks g)) =
  imap (fun i b => if decide (i < S k)%nat then linked_block i b else b) (Blocks g).
Proof.
  intros E ->. apply list_eq. intros i. destruct (decide (i = k)) as [->|Hi].
  - rewrite list_lookup_insert_eq by (rewrite length_imap; by apply lookup_lt_Some in E).
    rewrite list_lookup_imap, E. cbn. by rewrite decide_True by lia.
  - rewrite list_lookup_insert_ne, !list_lookup_imap by done. destruct (Blocks g !! i); [|done].
    cbn. f_equal. do 2 case_decide; try done; lia.
Qed.

Lemma link_block_step k : (k < length (Blocks g))%nat -> link_block Len k (linked_upto k) = linked_upto (S k).
Proof.
  intros Hk. destruct (lookup_lt_is_Some_2 (Blocks g) k Hk) as [b E].
  unfold link_block. assert (Blocks (linked_upto k) !! k = Some b) as ->.
  { cbn. rewrite list_lookup_imap, E. cbn. by rewrite decide_False by lia. }
  set (b1 := set_FirstSuccessor (length (SuccessorBlocks (linked_upto k))) b).
  set (g1 := set_Blocks (<[k := b1]> (Blocks (linked_upto k))) (linked_upto k)).
  assert (offsets g1 = offsets g) as Eo.
  { unfold g1, offsets. cbn. apply list_eq. intros i. rewrite !list_lookup_fmap.
    destruct (decide (i = k)) as [->|Hi].
    - rewrite list_lookup_insert_eq, E by (by rewrite length_imap). done.
    - rewrite list_lookup_insert_ne, list_lookup_imap by done. destruct (Blocks g !! i); [|done].
      cbn. by case_decide. }
  destruct (offered_spec Len b1 g1) as (cs & -> & Ecs). rewrite Eo in *.
  assert (take_candidates cs [] = succ_list Len (offsets g) b) as -> by done. clear Ecs cs.
  pose proof (succ_lists_lookup k b E) as Es.
  assert (dropped Len (offsets g) b1 = dropped Len (offsets g) b) as -> by done.
  assert (set_SuccessorCount (length (succ_list Len (offsets g) b)) b1 = linked_block k b) as -> by done.
  unfold g1, linked_upto. clear Eo g1. rewrite <- (blocks_upto_S k b _ E eq_refl).
  rewrite (take_S_r _ _ _ Es), (take_S_r _ _ _ E), concat_app. cbn [concat]. rewrite app_nil_r.
  assert (forall x, sum_dropped (take k (Blocks g) ++ [x]) = sum_dropped (take k (Blocks g)) + dropped Len (offsets g) x) as ->.
  { intros x. unfold sum_dropped. rewrite foldr_app. cbn. rewrite Z.add_0_r.
    induction (take k (Blocks g)) as [|y l IH]; cbn; lia. }
  unfold count_empty. rewrite filter_app, length_app, Nat2Z.inj_add, !Z.add_assoc.
  cbn -[concat take]. rewrite list_insert_insert_eq.
  destruct (succ_list Len (offsets g) b) as [|x l]; cbn; rewrite ?Z.add_0_r; done.
Qed.

Lemma link_all : foldl (fun g Index => link_block Len Index g) g (seq 0 (NodeCount g)) = linked_upto (NodeCount g).
Proof.
  assert (forall n k, (k + n <= length (Blocks g))%nat ->
    foldl (fun g Index => link_block Len Index g) (linked_upto k) (seq k n) = linked_upto (k + n)) as H.
  { intros n. induction n as [|n IH]; intros k Hk; cbn; [by rewrite Nat.add_0_r|].
    rewrite link_block_step, IH by lia. f_equal. lia. }
  pose proof (H (NodeCount g) 0%nat) as H0. rewrite linked_upto_0 in H0. apply H0. lia.
Qed.

(** The graph [BuildSuccessors] leaves, field by field. *)
Lemma BuildSuccessors_spec : BuildSuccessors Len g =
  set_EdgeCount (length (concat succ_lists))
    (set_ExitBlockCount (ExitBlockCount g + count_empty succ_lists)
      (set_DroppedSuccessorCount (DroppedSuccessorCount g + sum_dropped (Blocks g))
        (set_SuccessorBlocks (concat succ_lists) (set_Blocks (imap linked_block (Blocks g)) g)))).
Proof.
  unfold BuildSuccessors. rewrite link_all. unfold linked_upto.
  rewrite !take_ge by (unfold succ_lists; rewrite ?length_fmap; lia).
  assert (imap (fun i b => if decide (i < NodeCount g)%nat then linked_block i b else b) (Blocks g) =
    imap linked_block (Blocks g)) as ->; [|done].
  apply list_eq. intros i. rewrite !list_lookup_imap. destruct (Blocks g !! i) eqn:E; [|done].
  cbn. rewrite decide_True; [done|]. apply lookup_lt_Some in E. lia.
Qed.

Lemma BuildSuccessors_slices i : BlockSuccessors (BuildSuccessors Len g) i = default [] (succ_lists !! i).
Proof.
  rewrite BuildSuccessors_spec. unfold BlockSuccessors. cbn. rewrite list_lookup_imap.
  destruct (Blocks g !! i) as [b|] eqn:E; cbn; [|unfold succ_lists; by rewrite list_lookup_fmap, E].
  rewrite (succ_lists_lookup i b E). cbn.
  assert (concat succ_lists = concat (take i succ_lists) ++ succ_list Len (offsets g) b ++ concat (drop (S i) succ_lists)) as Ec.
  { rewrite <- (take_drop_middle _ _ _ (succ_lists_lookup i b E)) at 1. by rewrite concat_app. }
  rewrite Ec. case_match eqn:Hle.
  - apply Nat.leb_le in Hle. rewrite !length_app in Hle. fold (slice_start i) in Hle.
    destruct (succ_list Len (offsets g) b); [done|simpl in Hle; unfold slice_start in Hle; lia].
  - unfold span, slice_start. by rewrite drop_app_length, take_app_length.
Qed.
End Build.

(** ** The predecessors of the blocks of a control-flow graph

    [BuildPredecessors] (CfgBuild.v) counts the edges into each block, gives
    each block a slice of that size, and fills the slices in one pass. The
    result of a block is the ascending list of the blocks that lead to it. *)
Local Close Scope Z_scope.

(** ** Counting *)

Definition occurrences (j : nat) (l : list nat) : nat := length (filter (fun x => x = j) l).

Lemma occurrences_app j l k : occurrences j (l ++ k) = occurrences j l + occurrences j k.
Proof. unfold occurrences. by rewrite filter_app, length_app. Qed.

Lemma count_in_edges_spec g :
  count_in_edges g = map (fun j => occurrences j (SuccessorBlocks g)) (seq 0 (NodeCount g)).
Proof.
  unfold count_in_edges. set (n := NodeCount g).
  assert (forall l p, foldl (fun Counts s => if s <? n then alter S s Counts else Counts)
      (map (fun j => occurrences j p) (seq 0 n)) l = map (fun j => occurrences j (p ++ l)) (seq 0 n)) as H.
  { induction l as [|x l IH]; intros p; cbn [foldl]; [by rewrite app_nil_r|].
    transitivity (foldl (fun Counts s => if s <? n then alter S s Counts else Counts)
      (map (fun j => occurrences j (p ++ [x])) (seq 0 n)) l); [|by rewrite IH, <- app_assoc].
    f_equal. apply list_eq. intros i. rewrite list_lookup_fmap.
    assert (forall j, occurrences j (p ++ [x]) = occurrences j p + if decide (x = j) then 1 else 0) as E.
    { intros j. rewrite occurrences_app. unfold occurrences at 2. rewrite filter_cons. by case_decide. }
    destruct (Nat.ltb_spec x n) as [Hx|Hx].
    - destruct (decide (i = x)) as [->|Hi].
      + rewrite list_lookup_alter_eq, list_lookup_fmap. rewrite lookup_seq_lt by done. cbn.
        rewrite E, decide_True by done. f_equal. lia.
      + rewrite list_lookup_alter_ne, list_lookup_fmap by done.
        destruct (seq 0 n !! i) as [y|] eqn:Ey; [|done]. apply lookup_seq in Ey as [-> _].
        cbn. rewrite E, decide_False by done. f_equal. lia.
    - rewrite list_lookup_fmap. destruct (seq 0 n !! i) as [y|] eqn:Ey; [|done].
      apply lookup_seq in Ey as [-> Hy]. cbn. rewrite E, decide_False by lia. f_equal. lia. }
  etransitivity; [|apply (H (SuccessorBlocks g) [])]. f_equal. apply list_eq. intros i. rewrite list_lookup_fmap.
  destruct (decide (i < n)) as [Hi|Hi].
  - by rewrite lookup_replicate_2, lookup_seq_lt by done.
  - by rewrite !lookup_ge_None_2 by (rewrite ?length_replicate, ?length_seq; lia).
Qed.

(** ** Slices *)

Definition starts (Counts : list nat) (j : nat) : nat := sum_list (take j Counts).

Lemma starts_S Counts j c : Counts !! j = Some c -> starts Counts (S j) = starts Counts j + c.
Proof. intros E. unfold starts. rewrite (take_S_r _ _ _ E), sum_list_with_app. simpl. lia. Qed.

Lemma starts_mono Counts i j : i <= j -> starts Counts i <= starts Counts j.
Proof.
  intros Hij. unfold starts. rewrite <- (take_drop i (take j Counts)), take_take, Nat.min_l by done.
  rewrite sum_list_with_app. lia.
Qed.

Lemma starts_total Counts j : starts Counts j <= sum_list Counts.
Proof. unfold starts. rewrite <- (take_drop j Counts) at 2. rewrite sum_list_with_app. lia. Qed.

Lemma starts_apart Counts i j a b x y : Counts !! i = Some a -> Counts !! j = Some b ->
  x < a -> y < b -> starts Counts i + x = starts Counts j + y -> i = j /\ x = y.
Proof.
  intros Ei Ej Hx Hy E. destruct (Nat.lt_trichotomy i j) as [H|[->|H]]; [|split; [done|lia]|].
  - pose proof (starts_mono Counts (S i) j H). rewrite (starts_S _ _ _ Ei) in *. lia.
  - pose proof (starts_mono Counts (S j) i H). rewrite (starts_S _ _ _ Ej) in *. lia.
Qed.

Definition sliced (Counts : list nat) (r i : nat) (b : CfgBlock) : CfgBlock :=
  set_PredecessorCount (Counts !!! i) (set_FirstPredecessor (r + starts Counts i) b).

Lemma slice_loop_spec bs Counts r : length bs = length Counts ->
  slice_loop bs Counts r = (imap (sliced Counts r) bs, r + sum_list Counts).
Proof.
  revert Counts r. induction bs as [|b bs IH]; intros [|c Counts] r Hl; try done; [by rewrite Nat.add_0_r|].
  cbn [slice_loop]. rewrite IH by (simpl in Hl; lia). cbn [imap]. f_equal; [|simpl; lia].
  f_equal; [unfold sliced, starts; cbn; by rewrite Nat.add_0_r|].
  apply imap_ext. intros i x _. unfold sliced, compose. cbn. f_equal. unfold starts. cbn. f_equal. lia.
Qed.

(** ** Filling the slices *)

Definition in_edges (es : list (nat * nat)) (j : nat) : list nat := (filter (fun e => e.2 = j) es).*1.

Lemma in_edges_snoc es i k j :
  in_edges (es ++ [(i, k)]) j = in_edges es j ++ if decide (k = j) then [i] else [].
Proof. unfold in_edges. rewrite filter_app, fmap_app. f_equal. rewrite filter_cons. cbn. by case_decide. Qed.

Lemma in_edges_app es fs j : in_edges (es ++ fs) j = in_edges es j ++ in_edges fs j.
Proof. unfold in_edges. by rewrite filter_app, fmap_app. Qed.

Section Fill.
Context (n : nat) (Counts : list nat) (HC : length Counts = n).

Record filled (es : list (nat * nat)) (st : list nat * list nat) : Prop := {
  fi_pred : length st.1 = sum_list Counts;
  fi_cursors : length st.2 = n;
  fi_cursor j : j < n -> st.2 !!! j = starts Counts j + length (in_edges es j);
  fi_entry j k i : j < n -> in_edges es j !! k = Some i -> st.1 !! (starts Counts j + k) = Some i;
}.

Lemma place_filled es i j st : filled es st ->
  (forall c, j < n -> Counts !! j = Some c -> length (in_edges es j) < c) ->
  (forall j' c, Counts !! j' = Some c -> length (in_edges es j') <= c) ->
  filled (es ++ [(i, j)]) (place n i st j).
Proof.
  destruct st as [Pred Cursor]. intros [F1 F2 F3 F4] Hroom Hall. cbn [fst snd] in *. unfold place.
  destruct (Nat.ltb_spec j n) as [Hj|Hj].
  - destruct (lookup_lt_is_Some_2 Counts j) as [c Ec]; [lia|]. specialize (Hroom c Hj Ec).
    assert (starts Counts j + length (in_edges es j) < sum_list Counts) as Hin.
    { pose proof (starts_total Counts (S j)). rewrite (starts_S _ _ _ Ec) in *. lia. }
    split; cbn [fst snd].
    + by rewrite length_insert.
    + by rewrite length_alter.
    + intros j' Hj'. rewrite in_edges_snoc, length_app. destruct (decide (j = j')) as [<-|Hne].
      * rewrite list_lookup_total_alt, list_lookup_alter_eq. destruct (lookup_lt_is_Some_2 Cursor j) as [x Ex]; [lia|].
        pose proof (F3 j Hj) as E. rewrite list_lookup_total_alt, Ex in E. rewrite Ex. cbn in *. lia.
      * rewrite list_lookup_total_alt, list_lookup_alter_ne, <- list_lookup_total_alt, F3 by done. simpl. lia.
    + intros j' k i' Hj' E. rewrite F3 by done. rewrite in_edges_snoc in E.
      destruct (lookup_lt_is_Some_2 Counts j') as [c' Ec']; [lia|]. specialize (Hall j' c' Ec').
      destruct (decide (starts Counts j' + k = starts Counts j + length (in_edges es j))) as [Ek|Ek].
      * assert (j' = j /\ k = length (in_edges es j)) as [-> ->].
        { apply lookup_lt_Some in E. rewrite length_app in E. destruct (decide (j = j')) as [<-|Hne]; [split; [done|lia]|].
          simpl in E. apply (starts_apart Counts j' j c' c); [done|done|lia|lia|done]. }
        rewrite list_lookup_insert_eq by lia. rewrite decide_True, lookup_app_r, Nat.sub_diag in E by done. done.
      * rewrite list_lookup_insert_ne by done. apply F4; [done|]. rewrite lookup_app in E.
        destruct (in_edges es j' !! k) eqn:E'; [done|]. apply lookup_ge_None in E'.
        destruct (decide (j = j')) as [<-|]; [|by rewrite lookup_nil in E].
        apply lookup_lt_Some in E. simpl in E. exfalso. apply Ek. f_equal. lia.
  - split; cbn [fst snd]; [done|done| |].
    + intros j' Hj'. rewrite in_edges_snoc, decide_False, app_nil_r by lia. by apply F3.
    + intros j' k i' Hj' E. rewrite in_edges_snoc, decide_False, app_nil_r in E by lia. by apply F4.
Qed.

Lemma place_all es rest st : filled es st ->
  (forall j c, Counts !! j = Some c -> length (in_edges (es ++ rest) j) = c) ->
  filled (es ++ rest) (foldl (fun st e => place n e.1 st e.2) st rest).
Proof.
  revert es st. induction rest as [|[i j] rest IH]; intros es st HF Hc; cbn [foldl fst snd].
  { by rewrite app_nil_r. }
  assert (es ++ (i, j) :: rest = (es ++ [(i, j)]) ++ rest) as Ea by (by rewrite <- app_assoc).
  rewrite Ea in *. apply IH; [|done]. apply place_filled; [done| |].
  - intros c Hj Ec. specialize (Hc j c Ec). rewrite in_edges_app, in_edges_snoc, decide_True, !length_app in Hc by done.
    simpl in Hc. lia.
  - intros j' c Ec. specialize (Hc j' c Ec). rewrite in_edges_app, in_edges_snoc, !length_app in Hc. lia.
Qed.
End Fill.

(** ** All blocks *)

Lemma edge_list_targets g : (edge_list g).*2 = concat (map (BlockSuccessors g) (seq 0 (NodeCount g))).
Proof.
  unfold edge_list. induction (seq 0 (NodeCount g)) as [|i l IH]; [done|]. cbn.
  rewrite fmap_app. f_equal; [|apply IH]. rewrite <- list_fmap_compose. apply list_fmap_id.
Qed.

Lemma occurrences_in_edges es j : occurrences j es.*2 = length (in_edges es j).
Proof.
  unfold occurrences, in_edges. rewrite length_fmap. induction es as [|[i k] es IH]; [done|].
  rewrite fmap_cons, !filter_cons. cbn [snd]. case_decide; simpl; by rewrite IH.
Qed.

(** The sources of the edges into [j]: the blocks that have it as a successor. *)
Lemma in_edges_blocks g j : (forall i, NoDup (BlockSuccessors g i)) ->
  in_edges (edge_list g) j = filter (fun i => j ∈ BlockSuccessors g i) (seq 0 (NodeCount g)).
Proof.
  intros Hnd. unfold edge_list, in_edges. induction (seq 0 (NodeCount g)) as [|i l IH]; [done|].
  rewrite bind_cons, filter_app, fmap_app, filter_cons, IH.
  assert (forall k, NoDup k -> (filter (fun e : nat * nat => e.2 = j) (map (pair i) k)).*1 = if decide (j ∈ k) then [i] else []) as H.
  { clear. induction 1 as [|x k Hx Hk IH]; [done|]. cbn [map]. rewrite filter_cons. cbn [snd].
    destruct (decide (x = j)) as [->|E].
    - rewrite decide_False in IH by done. rewrite decide_True by (by left). by rewrite fmap_cons, IH.
    - rewrite IH. apply decide_ext. rewrite elem_of_cons. naive_solver. }
  rewrite H by done. by case_decide.
Qed.

Section Predecessors.
Context (g : ControlFlowGraph) (HN : NodeCount g = length (Blocks g)).
Context (Hsl : SuccessorBlocks g = concat (map (BlockSuccessors g) (seq 0 (NodeCount g)))).

Lemma place_pairs (h : ControlFlowGraph) st :
  foldl (place_block h) st (seq 0 (NodeCount h)) =
  foldl (fun st e => place (NodeCount h) e.1 st e.2) st (edge_list h).
Proof.
  unfold edge_list. revert st. induction (seq 0 (NodeCount h)) as [|i l IH]; intros st; [done|].
  cbn [foldl]. rewrite IH. cbn. rewrite foldl_app. f_equal. unfold place_block.
  revert st. induction (BlockSuccessors h i) as [|j k IHk]; intros st; [done|]. cbn. by rewrite IHk.
Qed.

Definition pred_counts : list nat := count_in_edges g.

Lemma length_pred_counts : length pred_counts = NodeCount g.
Proof. unfold pred_counts. rewrite count_in_edges_spec. by rewrite length_map, length_seq. Qed.

Lemma pred_counts_lookup j : j < NodeCount g -> pred_counts !! j = Some (length (in_edges (edge_list g) j)).
Proof.
  intros Hj. unfold pred_counts. rewrite count_in_edges_spec, list_lookup_fmap, lookup_seq_lt by done. cbn.
  by rewrite <- occurrences_in_edges, edge_list_targets, <- Hsl.
Qed.

Lemma sliced_successors bs i : bs = imap (sliced pred_counts 0) (Blocks g) ->
  BlockSuccessors (set_Blocks bs g) i = BlockSuccessors g i.
Proof. intros ->. unfold BlockSuccessors. cbn. rewrite list_lookup_imap. by destruct (Blocks g !! i). Qed.

(** Every slice is cut to the number of edges into its block and holds their sources. *)
Lemma BuildPredecessors_spec : exists Pred,
  BuildPredecessors g = set_PredecessorBlocks Pred (set_Blocks (imap (sliced pred_counts 0) (Blocks g)) g) /\
  forall j, j < NodeCount g -> BlockPredecessors (BuildPredecessors g) j = in_edges (edge_list g) j.
Proof.
  unfold BuildPredecessors. rewrite slice_loop_spec by (fold pred_counts; by rewrite length_pred_counts).
  cbn [Nat.add]. fold pred_counts. set (bs := imap (sliced pred_counts 0) (Blocks g)).
  set (h := set_Blocks bs g). rewrite (place_pairs h).
  assert (edge_list h = edge_list g) as ->.
  { unfold edge_list. change (NodeCount h) with (NodeCount g). clear Hsl. induction (seq 0 (NodeCount g)) as [|i l IH]; [done|].
    rewrite !bind_cons. f_equal; [|exact IH]. f_equal. by apply sliced_successors. }
  change (NodeCount h) with (NodeCount g). set (Cursor := map FirstPredecessor _).
  assert (filled (NodeCount g) pred_counts [] (replicate (sum_list pred_counts) 0, Cursor)) as F0.
  { split; cbn [fst snd].
    - apply length_replicate.
    - unfold Cursor, bs. rewrite length_map, length_take, length_imap. lia.
    - intros j Hj. apply list_lookup_total_correct. unfold Cursor, bs.
      rewrite list_lookup_fmap, lookup_take_lt, list_lookup_imap by done.
      destruct (lookup_lt_is_Some_2 (Blocks g) j) as [b ->]; [lia|]. cbn. f_equal. lia.
    - intros j k i _ E. by destruct k. }
  pose proof (place_all (NodeCount g) pred_counts length_pred_counts [] (edge_list g) _ F0) as [P1 _ _ P4].
  { intros j c E. assert (j < NodeCount g) as Hj by (rewrite <- length_pred_counts; by apply lookup_lt_Some in E).
    rewrite pred_counts_lookup in E by done. by injection E. }
  destruct (foldl _ _ _) as [Pred Cur]. cbn [fst snd app] in *. exists Pred. split; [done|].
  intros j Hj. unfold BlockPredecessors. cbn [set_PredecessorBlocks Blocks PredecessorBlocks h set_Blocks].
  unfold bs. rewrite list_lookup_imap. destruct (lookup_lt_is_Some_2 (Blocks g) j) as [b ->]; [lia|]. cbn [fmap option_fmap option_map].
  unfold sliced at 1 2 3. cbn [FirstPredecessor PredecessorCount set_PredecessorCount set_FirstPredecessor Nat.add].
  pose proof (pred_counts_lookup j Hj) as Ec. rewrite (list_lookup_total_correct _ _ _ Ec).
  pose proof (starts_S _ _ _ Ec) as ES. pose proof (starts_total pred_counts (S j)) as Htot.
  case_match eqn:Hle.
  - apply Nat.leb_le in Hle. destruct (in_edges (edge_list g) j) eqn:Ei; [done|]. simpl in *. lia.
  - apply list_eq. intros k. unfold span. destruct (decide (k < length (in_edges (edge_list g) j))) as [Hk|Hk].
    + destruct (lookup_lt_is_Some_2 _ _ Hk) as [i Ei]. rewrite lookup_take_lt, lookup_drop by done.
      rewrite Ei. by apply P4.
    + rewrite (lookup_ge_None_2 (in_edges _ _)) by lia. apply lookup_ge_None_2. rewrite length_take. lia.
Qed.
End Predecessors.
