(* ===== verification/CfgScanSpec.v ===== *)
(** * The scanner: what its steps keep

    Every operation of CfgScan.v extends the scanner's state: leaders are only
    added, a decoded slot is never changed, a failure stays. *)

From stdpp Require Import base option list numbers sorting.
From Stdlib Require Import ZArith Lia.
From S2P Require Import Prelude Cfg CfgDecode CfgScan.
Local Open Scope Z_scope.

(** The fields of the graph the scanner leaves alone. *)
Definition untouched (g : ControlFlowGraph) :=
  (SuccessorBlocks g, PredecessorBlocks g, ComponentOfBlock g, ComponentNodeCounts g, ComponentIsLoop g,
   EntryBlock g, EdgeCount g, (InstructionCount g, DecodedBytes g, StronglyConnectedCount g, LoopCount g,
   ConnectedComponentCount g, CyclomaticComplexity g, DroppedSuccessorCount g, ExitBlockCount g, RangeBytes g)).

(** The graph the scan starts with. *)
Definition start_graph (Len : Z) : ControlFlowGraph := set_RangeBytes Len EmptyGraph.

(** The failures of the scan itself. *)
Definition limit_status (st : CfgStatus) : Prop := st = BlockLimitReached \/ st = InstructionLimitReached.

Section Scan.
Context (Backend : DisassemblerBackend) (Code : list byte) (RuntimeAddress : Z).
Abbreviation L := (Length_ Code).

Definition in_range (o : Z) : Prop := 0 <= o < L.

Record scan_ok (s : CfgScanner) : Prop := {
  sc_slots : length (Slots_ s) = length Code;
  sc_known : length (SlotState_ s) = length Code;
  sc_flags : length (IsLeader_ s) = length Code;
  sc_nodup : NoDup (Leaders_ s);
  sc_range o : o ∈ Leaders_ s -> in_range o;
  sc_leader o : in_range o -> leader_at o s = true <-> o ∈ Leaders_ s;
  sc_blocks : Z.of_nat (length (Leaders_ s)) <= CfgMaxBlocks;
  sc_count : DecodedSlotCount_ s <= CfgMaxInstructions;
}.

Record grows (s s' : CfgScanner) : Prop := {
  gr_ok : scan_ok s -> scan_ok s';
  gr_leaders : Leaders_ s `prefix_of` Leaders_ s';
  gr_known o : in_range o -> scan_ok s -> known_at o s = true -> known_at o s' = true /\ slot_at o s' = slot_at o s;
  gr_halted : Halted s = true -> Halted s' = true;
  gr_blocks : Blocks (Out_ s') = Blocks (Out_ s);
  gr_overlap : OverlappingLeaderCount (Out_ s') = OverlappingLeaderCount (Out_ s);
  gr_rest : untouched (Out_ s') = untouched (Out_ s);
  gr_status : Status (Out_ s') = Status (Out_ s) \/ limit_status (Status (Out_ s'));
}.

#[export] Instance grows_preorder : PreOrder grows.
Proof.
  split; [intros s; split; auto|].
  intros s1 s2 s3 [A1 A2 A3 A4 A5 A6 A7 A8] [B1 B2 B3 B4 B5 B6 B7 B8].
  split; [auto|by etrans| |auto|congruence|congruence|congruence|destruct B8 as [->|?]; [done|by right]].
  intros o Ho Hs Hk. destruct (A3 o Ho Hs Hk) as [K1 E1]. destruct (B3 o Ho (A1 Hs) K1) as [K2 E2].
  split; [done|congruence].
Qed.

Lemma grows_leader s s' o : grows s s' -> o ∈ Leaders_ s -> o ∈ Leaders_ s'.
Proof. intros [_ [k ->] _ _ _ _ _ _] Ho. apply elem_of_app. by left. Qed.

Lemma grows_not_leader s s' o : grows s s' -> scan_ok s -> in_range o ->
  leader_at o s' = false -> leader_at o s = false.
Proof.
  intros HG Hs Ho H. apply not_true_iff_false in H. apply not_true_iff_false. intros Hl. apply H.
  apply (sc_leader s' (gr_ok _ _ HG Hs)); [done|]. apply (grows_leader s); [done|]. by apply sc_leader.
Qed.

Lemma grows_running s s' : grows s s' -> Halted s' = false -> Halted s = false.
Proof. intros HG H. destruct (Halted s) eqn:E; [|done]. by rewrite (gr_halted _ _ HG E) in H. Qed.

(** A change of the graph alone, its status kept. *)
Lemma grows_out f s : Status (f (Out_ s)) = Status (Out_ s) -> Blocks (f (Out_ s)) = Blocks (Out_ s) ->
  OverlappingLeaderCount (f (Out_ s)) = OverlappingLeaderCount (Out_ s) ->
  untouched (f (Out_ s)) = untouched (Out_ s) -> grows s (upd_Out f s).
Proof.
  intros HS HB HO HU. split; cbn; try done.
  - intros [A1 A2 A3 A4 A5 A6 A7 A8]. by split.
  - unfold Halted. cbn. by rewrite HS.
  - by left.
Qed.

Lemma grows_fail st m s : limit_status st -> grows s (Fail_ st m s).
Proof.
  intros Hsu. assert (st <> StatusOk) as Hst by (destruct Hsu as [-> | ->]; done). unfold Fail_. destruct (Halted s) eqn:E; [done|]. split; cbn; try done.
  - intros [A1 A2 A3 A4 A5 A6 A7 A8]. by split.
  - intros _. unfold Halted. cbn. by rewrite bool_decide_eq_false_2.
  - by right.
Qed.

Lemma halted_fail st m s : st <> StatusOk -> Halted (Fail_ st m s) = true.
Proof. intros Hst. unfold Fail_. destruct (Halted s) eqn:E; [done|]. unfold Halted. cbn. by rewrite bool_decide_eq_false_2. Qed.

(** ** Slots *)

Lemma to_nat_range o : in_range o -> (Z.to_nat o < length Code)%nat.
Proof. unfold in_range, Length_. lia. Qed.

Lemma known_put o o' sl s : scan_ok s -> in_range o -> in_range o' ->
  known_at o (put_slot o' sl s) = (o =? o') || known_at o s.
Proof.
  intros Hs Ho Ho'. pose proof (to_nat_range _ Ho). unfold known_at, put_slot. cbn.
  destruct (Z.eqb_spec o o') as [->|Hne]; cbn.
  - rewrite list_lookup_insert_eq; [done|]. by rewrite (sc_known _ Hs).
  - rewrite list_lookup_insert_ne; [done|]. unfold in_range in *. lia.
Qed.

Lemma slot_put_ne o o' sl s : in_range o -> in_range o' -> o <> o' ->
  slot_at o (put_slot o' sl s) = slot_at o s.
Proof.
  intros Ho Ho' Hne. unfold slot_at, put_slot. cbn.
  rewrite list_lookup_insert_ne; [done|]. unfold in_range in *. lia.
Qed.

Lemma grows_put o sl s : in_range o -> known_at o s = false -> DecodedSlotCount_ s < CfgMaxInstructions ->
  grows s (put_slot o sl s).
Proof.
  intros Ho Hk Hc. split; cbn; try done.
  - intros [A1 A2 A3 A4 A5 A6 A7 A8]. split; cbn; rewrite ?length_insert; try done. lia.
  - intros x Hx Hs Hkx. rewrite known_put, Hkx, orb_true_r by done. split; [done|].
    apply slot_put_ne; [done..|]. intros ->. congruence.
  - by left.
Qed.

(** ** Decoding *)

Lemma decode_infos_grows Off infos s : grows s (decode_infos Backend Code Off infos s).
Proof.
  revert s. induction infos as [|Info infos IH]; intros s; cbn [decode_infos]; [done|].
  set (o := w32 (Off + InfoOffset Info)). destruct (Z.leb_spec L o) as [?|Ho]; [done|].
  assert (in_range o) as Hr by (split; [apply w32_bounds|done]).
  destruct (_ || known_at o s) eqn:E; [apply IH|]. apply orb_false_iff in E as [_ E].
  destruct (Z.leb_spec CfgMaxInstructions (DecodedSlotCount_ s)) as [?|Hc]; [apply grows_fail; (by left) || by right|].
  etrans; [|apply IH]. by apply grows_put.
Qed.

Lemma decode_infos_leaders Off infos s : Leaders_ (decode_infos Backend Code Off infos s) = Leaders_ s.
Proof.
  revert s. induction infos as [|Info infos IH]; intros s; cbn [decode_infos]; [done|].
  repeat case_match; try done; try apply IH.
  - unfold fail_instructions, Fail_. by case_match.
  - by rewrite IH.
Qed.

Lemma Leaders_fail st m s : Leaders_ (Fail_ st m s) = Leaders_ s.
Proof. unfold Fail_. by case_match. Qed.

Lemma DecodeWindowAt_spec Off s : in_range Off -> scan_ok s ->
  let s' := DecodeWindowAt Backend Code RuntimeAddress Off s in
  grows s s' /\ Leaders_ s' = Leaders_ s /\ (Halted s' = false -> known_at Off s' = true).
Proof.
  intros Ho Hs. unfold DecodeWindowAt. cbv zeta. destruct (Z.leb_spec L Off); [unfold in_range in Ho; lia|]. cbn [orb].
  destruct (known_at Off s) eqn:Ek; [by split_and!|].
  set (s1 := decode_infos _ _ _ _ _).
  assert (grows s s1) as HG by apply decode_infos_grows.
  assert (Leaders_ s1 = Leaders_ s) as HL by apply decode_infos_leaders.
  destruct (Halted s1) eqn:Eh; [by split_and!; [| |congruence]|].
  destruct (known_at Off s1) eqn:Ek1; [by split_and!|].
  destruct (Z.leb_spec CfgMaxInstructions (DecodedSlotCount_ s1)) as [?|Hc].
  - split_and!; [etrans; [done|apply grows_fail; (by left) || by right]|unfold fail_instructions; by rewrite Leaders_fail|].
    unfold fail_instructions. by rewrite halted_fail.
  - split_and!; [etrans; [done|by apply grows_put]|done|]. intros _.
    rewrite known_put, Z.eqb_refl; [done|by apply (gr_ok _ _ HG)|done..].
Qed.

Lemma next_offset_bounds Off sl : in_range Off -> Off < next_offset Code Off sl <= L.
Proof.
  unfold in_range, next_offset. intros Ho.
  destruct (Z.ltb_spec L (w32 (Off + Length sl))); cbn [orb]; [lia|].
  destruct (Z.leb_spec (w32 (Off + Length sl)) Off); lia.
Qed.

(** ** Leaders *)

Lemma AddLeader_spec Off s : 0 <= Off ->
  grows s (AddLeader Code Off s) /\
  (scan_ok s -> Halted (AddLeader Code Off s) = false -> Off < L -> Off ∈ Leaders_ (AddLeader Code Off s)).
Proof.
  intros H0. unfold AddLeader. destruct (Z.leb_spec L Off) as [?|Ho]; cbn [orb]; [split; [done|lia]|].
  assert (in_range Off) as Hr by done. destruct (leader_at Off s) eqn:El.
  { split; [done|]. intros Hs _ _. by apply sc_leader. }
  destruct (Z.leb_spec CfgMaxBlocks (Z.of_nat (length (Leaders_ s)))) as [?|Hc].
  { split; [apply grows_fail; (by left) || by right|]. intros _. by rewrite halted_fail. }
  split; [|intros _ _ _; cbn; apply elem_of_app; right; by left].
  split; cbn; try done; [|by exists [Off]|by left].
  intros Hs. pose proof Hs as [A1 A2 A3 A4 A5 A6 A7 A8]. split; cbn; rewrite ?length_insert; try done.
  - apply NoDup_app. split_and!; [done| |apply NoDup_singleton].
    intros x Hx ->%list_elem_of_singleton. apply A6 in Hx; [congruence|done].
  - intros x [Hx| ->%list_elem_of_singleton]%elem_of_app; [by apply A5|done].
  - intros x Hx. rewrite elem_of_app, list_elem_of_singleton, <- A6 by done.
    unfold leader_at. cbn. destruct (decide (x = Off)) as [->|Hne].
    + rewrite list_lookup_insert_eq by (rewrite A3; by apply to_nat_range). cbn. tauto.
    + rewrite list_lookup_insert_ne by (unfold in_range in *; lia). tauto.
  - rewrite length_app. cbn. lia.
Qed.

Lemma AddBranchLeader_spec Slot s :
  grows s (AddBranchLeader Code Slot s) /\
  (scan_ok s -> Halted (AddBranchLeader Code Slot s) = false -> TargetInsideRange (RelativeTarget Slot) L = true ->
   RelativeTarget Slot ∈ Leaders_ (AddBranchLeader Code Slot s)).
Proof.
  unfold AddBranchLeader. destruct (TargetInsideRange _ _) eqn:E; [|done].
  unfold TargetInsideRange in E. bool_props.
  destruct (AddLeader_spec (RelativeTarget Slot) s) as [A1 A2]; [done|]. auto.
Qed.

(** ** The walk from a leader *)

Definition continues (r : CfgInstructionRole) : Prop :=
  match r with RoleNormal | RoleDirectCall | RoleIndirectCall => True | _ => False end.

(** The offsets a walk from [a] visits without meeting another leader. *)
Inductive visits (s : CfgScanner) : Z -> Z -> Prop :=
| visits_here a : visits s a a
| visits_next a o :
    continues (Role (slot_at a s)) -> next_offset Code a (slot_at a s) < L ->
    leader_at (next_offset Code a (slot_at a s)) s = false ->
    visits s (next_offset Code a (slot_at a s)) o -> visits s a o.

(** A visited instruction is decoded and its successors are leaders. *)
Definition settled (s : CfgScanner) (o : Z) : Prop :=
  known_at o s = true /\
  match Role (slot_at o s) with
  | RoleDirectBranch =>
      TargetInsideRange (RelativeTarget (slot_at o s)) L = true -> RelativeTarget (slot_at o s) ∈ Leaders_ s
  | RoleConditionalBranch =>
      (TargetInsideRange (RelativeTarget (slot_at o s)) L = true -> RelativeTarget (slot_at o s) ∈ Leaders_ s) /\
      (next_offset Code o (slot_at o s) < L -> next_offset Code o (slot_at o s) ∈ Leaders_ s)
  | _ => True
  end.

Definition explored (s : CfgScanner) (a : Z) : Prop := forall o, visits s a o -> in_range o /\ settled s o.

Lemma settled_grows s s' o : grows s s' -> scan_ok s -> in_range o -> settled s o -> settled s' o.
Proof.
  intros HG Hs Ho [Hk Hr]. destruct (gr_known _ _ HG o Ho Hs Hk) as [Hk' E]. split; [done|]. rewrite E.
  destruct (Role (slot_at o s)); try done.
  - intros Ht. by apply (grows_leader s), Hr.
  - destruct Hr as [H1 H2]. split; intros Ht; apply (grows_leader s); auto.
Qed.

Lemma visits_grows s s' a o : grows s s' -> scan_ok s -> explored s a -> visits s' a o -> visits s a o.
Proof.
  intros HG Hs He Hv. revert He. induction Hv as [a|a o Hc Hn Hl Hv IH]; intros He; [constructor|].
  destruct (He a (visits_here s a)) as [Ha [Hk _]].
  destruct (gr_known _ _ HG a Ha Hs Hk) as [_ E]. rewrite E in *.
  assert (leader_at (next_offset Code a (slot_at a s)) s = false) as Hl'.
  { apply (grows_not_leader s s'); try done. pose proof (next_offset_bounds a (slot_at a s) Ha).
    unfold in_range in *. lia. }
  apply visits_next; [done..|]. apply IH. intros x Hx. apply He. by apply visits_next.
Qed.

Lemma explored_grows s s' a : grows s s' -> scan_ok s -> explored s a -> explored s' a.
Proof.
  intros HG Hs He o Hv. destruct (He o) as [Ho Hse]; [by apply (visits_grows s s')|].
  split; [done|]. by apply (settled_grows s).
Qed.

Lemma visit_spec Slot Next s s2 Stop : visit Code Slot Next s = (s2, Stop) -> 0 <= Next ->
  grows s s2 /\ (Stop = false -> s2 = s /\ continues (Role Slot)) /\ (Stop = true -> ~ continues (Role Slot)) /\
  (scan_ok s -> Halted s2 = false ->
   match Role Slot with
   | RoleDirectBranch => TargetInsideRange (RelativeTarget Slot) L = true -> RelativeTarget Slot ∈ Leaders_ s2
   | RoleConditionalBranch =>
       (TargetInsideRange (RelativeTarget Slot) L = true -> RelativeTarget Slot ∈ Leaders_ s2) /\
       (Next < L -> Next ∈ Leaders_ s2)
   | _ => True
   end).
Proof.
  unfold visit. intros E HN. destruct (Role Slot); injection E as <- <-; try by (split_and!; [done|done| |]; auto).
  - destruct (AddBranchLeader_spec Slot s) as [H1 H2]. split_and!; auto; done.
  - destruct (AddBranchLeader_spec Slot s) as [H1 H2].
    destruct (AddLeader_spec Next (AddBranchLeader Code Slot s) HN) as [H3 H4].
    split_and!; [by etrans|done|by intros _ []|]. intros Hs Hh. pose proof (gr_ok _ _ H1 Hs) as Hs1.
    split; [|by apply H4]. intros Ht. apply (grows_leader (AddBranchLeader Code Slot s)); [done|].
    apply H2; [done| |done]. by apply (grows_running _ _ H3).
Qed.

(** The walk ends within its fuel; unless it halts, all it visited is settled. *)
Lemma walk_spec fuel l Off s : scan_ok s -> 0 <= l <= Off -> Off <= L -> L - Off < Z.of_nat fuel ->
  exists s', walk Backend Code RuntimeAddress fuel l Off s = Some s' /\ grows s s' /\
    (Halted s' = false -> Off < L -> (Off = l \/ leader_at Off s = false) -> explored s' Off).
Proof.
  revert Off s. induction fuel as [|fuel IH]; intros Off s Hs Hl HL Hf; [lia|]. cbn [walk].
  destruct (Z.leb_spec L Off); [exists s; split_and!; [done|done|lia]|].
  assert (in_range Off) as Ho by (split; lia).
  destruct (negb (Off =? l) && leader_at Off s) eqn:Estop.
  { exists s. bool_props. split_and!; [done|done|]. intros _ _ [?|?]; congruence. }
  set (s1 := if known_at Off s then s else DecodeWindowAt Backend Code RuntimeAddress Off s).
  destruct (DecodeWindowAt_spec Off s Ho Hs) as (D1 & _ & D3).
  assert (grows s s1) as G1 by (unfold s1; by destruct (known_at Off s)).
  assert (Halted s1 = false -> known_at Off s1 = true) as K1.
  { unfold s1. destruct (known_at Off s) eqn:E; [done|apply D3]. }
  destruct (negb (known_at Off s) && Halted s1) eqn:Eh.
  { exists s1. bool_props. split_and!; [done|done|congruence]. }
  pose proof (next_offset_bounds Off (slot_at Off s1) Ho) as HNext.
  destruct (visit Code (slot_at Off s1) _ s1) as [s2 Stop] eqn:Ev.
  destruct (visit_spec _ _ _ _ _ Ev) as (G2 & V1 & V2 & V3); [lia|].
  pose proof (gr_ok _ _ G1 Hs) as Hs1.
  assert (forall s', grows s2 s' -> Halted s' = false -> known_at Off s' = true /\ slot_at Off s' = slot_at Off s1 /\ settled s' Off) as Hset.
  { intros s' G3 Hh. pose proof (grows_running _ _ G3 Hh) as Hh2. pose proof (grows_running _ _ G2 Hh2) as Hh1.
    destruct (gr_known _ _ (transitivity G2 G3) Off Ho Hs1 (K1 Hh1)) as [Hk E]. split_and!; [done|done|].
    specialize (V3 Hs1 Hh2). destruct (gr_known _ _ G2 Off Ho Hs1 (K1 Hh1)) as [Hk2 E2].
    apply (settled_grows s2); [done|by apply (gr_ok _ _ G2)|done|]. split; [done|]. by rewrite E2. }
  destruct (Stop || Halted s2) eqn:Es.
  - exists s2. split_and!; [done|by etrans|]. intros Hh _ _ o Hv.
    destruct (Hset s2 (reflexivity s2) Hh) as (_ & E & Hse). rewrite Hh, orb_false_r in Es.
    inversion Hv as [|? ? Hc _ _ _]; subst; [done|]. rewrite E in Hc. by destruct (V2 eq_refl).
  - apply orb_false_iff in Es as [-> _]. destruct (V1 eq_refl) as [-> Hc].
    destruct (IH (next_offset Code Off (slot_at Off s1)) s1 Hs1) as (s' & E & G3 & Hex); [lia|lia|lia|].
    exists s'. split_and!; [done|by etrans|]. intros Hh _ _ o Hv.
    destruct (Hset s' G3 Hh) as (_ & E' & Hse).
    inversion Hv as [|? ? Hc' Hn Hl' Hv']; subst; [done|]. rewrite E' in *.
    apply Hex; [done|done| |done]. right. apply (grows_not_leader s1 s'); [done|done| |done]. split; lia.
Qed.

(** ** All leaders *)

Lemma leaders_bound s : scan_ok s -> (length (Leaders_ s) <= length Code)%nat.
Proof.
  intros Hs. assert (Leaders_ s ⊆+ map Z.of_nat (seq 0 (length Code))) as Hsub.
  { apply NoDup_submseteq; [apply Hs|]. intros o Ho. apply (sc_range s Hs) in Ho. unfold in_range, Length_ in Ho.
    apply list_elem_of_fmap. exists (Z.to_nat o). split; [lia|]. apply elem_of_seq. lia. }
  apply submseteq_length in Hsub. by rewrite length_map, length_seq in Hsub.
Qed.

Lemma discover_spec fuel Cursor s : scan_ok s -> (Cursor <= length (Leaders_ s))%nat ->
  (length Code < fuel + Cursor)%nat ->
  (Halted s = false -> forall i l, (i < Cursor)%nat -> Leaders_ s !! i = Some l -> explored s l) ->
  exists s', discover Backend Code RuntimeAddress fuel Cursor s = Some s' /\ grows s s' /\
    (Halted s' = false -> forall l, l ∈ Leaders_ s' -> explored s' l).
Proof.
  revert Cursor s. induction fuel as [|fuel IH]; intros Cursor s Hs Hc Hf He.
  { pose proof (leaders_bound s Hs). lia. }
  cbn [discover]. destruct (Leaders_ s !! Cursor) as [l|] eqn:El.
  - destruct (Halted s) eqn:Eh; [exists s; split_and!; [done|done|congruence]|].
    assert (l ∈ Leaders_ s) as Hin by (by apply list_elem_of_lookup_2 in El).
    pose proof (sc_range s Hs l Hin) as Hr. unfold in_range in Hr.
    destruct (walk_spec (S (length Code)) l l s Hs) as (s1 & -> & G1 & Hex); [lia|lia|unfold Length_ in *; lia|].
    cbn [mbind option_bind]. pose proof (gr_leaders _ _ G1) as [k Ek].
    destruct (IH (S Cursor) s1) as (s2 & -> & G2 & Hex2).
    + by apply (gr_ok _ _ G1).
    + apply lookup_lt_Some in El. rewrite Ek, length_app. lia.
    + lia.
    + intros Hh i x Hi Ex. assert (Leaders_ s !! i = Some x) as Ex'.
      { rewrite Ek, lookup_app_l in Ex by (apply lookup_lt_Some in El; lia). done. }
      destruct (decide (i = Cursor)) as [->|Hne].
      * assert (x = l) as -> by congruence. apply Hex; [done|lia|by left].
      * apply (explored_grows s); [done|done|]. apply (He eq_refl i); [lia|done].
    + exists s2. split_and!; [done|by etrans|done].
  - exists s. split_and!; [done|done|]. intros Hh l Hl. apply list_elem_of_lookup in Hl as [i Hi].
    apply lookup_ge_None in El. apply (He Hh i); [apply lookup_lt_Some in Hi; lia|done].
Qed.

Lemma DiscoverLeaders_spec s : scan_ok s -> exists s',
  DiscoverLeaders Backend Code RuntimeAddress s = Some s' /\ grows s s' /\
  (Halted s' = false -> (0 < L -> 0 ∈ Leaders_ s') /\ forall l, l ∈ Leaders_ s' -> explored s' l).
Proof.
  intros Hs. destruct (AddLeader_spec 0 s) as [G0 H0]; [lia|].
  destruct (discover_spec (S (length Code)) 0 (AddLeader Code 0 s)) as (s' & E & G & Hex);
    [by apply (gr_ok _ _ G0)|lia|lia|lia|].
  exists s'. split_and!; [done|by etrans|]. intros Hh. split; [|by apply Hex].
  intros HL. apply (grows_leader _ _ _ G), H0; [done| |done]. by apply (grows_running _ _ G).
Qed.
End Scan.
