(* ===== verification/CfgBlocksSpec.v ===== *)
(** * The blocks of a control-flow graph

    [BuildBlocks] (CfgScan.v) cuts the range into disjoint ascending blocks.
    When no limit was reached, every offset the last instruction of a block can
    pass control to is a leader or past the end, and every leader starts a block
    or lies inside one. *)

From stdpp Require Import base option list numbers sorting.
From Stdlib Require Import ZArith Lia.
From S2P Require Import Prelude Cfg CfgDecode CfgScan CfgBuild CfgScanSpec CfgEdgesSpec.
Local Open Scope Z_scope.

Section Blocks.
Context (Backend : DisassemblerBackend) (Code : list byte) (RuntimeAddress : Z).
Abbreviation L := (Length_ Code).
Context (HL : L <= CfgMaxRangeBytes).

Record block_ok (b : CfgBlock) : Prop := {
  bk_offset : 0 <= Offset b;
  bk_size : 0 < Size b;
  bk_end : Offset b + Size b <= L;
  bk_count : 1 <= BlockInstructionCount b <= Size b;
  bk_target : TargetOffset b = CfgNoTarget \/ in_range Code (TargetOffset b);
}.

(** Control can pass only to leaders, or leaves the range. *)
Definition leads_to_leaders (s : CfgScanner) (b : CfgBlock) : Prop :=
  forall o, o ∈ targets b -> L <= o \/ o ∈ Leaders_ s.

Definition before (a b : CfgBlock) : Prop := Offset a + Size a <= Offset b.

Lemma w32_offset o : 0 <= o <= L -> w32 o = o.
Proof. intros Ho. apply w32_small. unfold CfgMaxRangeBytes in HL. lia. Qed.

(** ** The end of a block *)

Lemma close_spec Slot B s B' s' Stop : close Code Slot B s = (B', s', Stop) ->
  grows Code s s' /\ Leaders_ s' = Leaders_ s /\ Halted s' = Halted s /\
  Offset B' = Offset B /\ BlockInstructionCount B' = BlockInstructionCount B /\
  (TargetOffset B' = TargetOffset B \/ in_range Code (TargetOffset B')) /\
  (Stop = false -> B' = B /\ continues (Role Slot)) /\ (Stop = true -> ~ continues (Role Slot)).
Proof.
  unfold close, end_branch. intros E.
  assert (TargetInsideRange (RelativeTarget Slot) L = true -> in_range Code (RelativeTarget Slot)) as Ht
    by (unfold TargetInsideRange; intros Ht; bool_props; by split).
  assert (grows Code s (count_call s) /\ grows Code s (count_decode_error s) /\
    grows Code s (count_out_of_range s) /\ grows Code s (count_unresolved s)) as (G1 & G2 & G3 & G4)
    by (split_and!; by apply grows_out).
  destruct (Role Slot); try destruct (TargetInsideRange _ _); injection E as <- <- <-; cbn;
    split_and!; auto; try done; by intros _ [].
Qed.

Lemma close_targets Slot B s B' s' sz : close Code Slot B s = (B', s', true) -> TargetOffset B = CfgNoTarget ->
  forall o, o ∈ targets (set_Size sz B') ->
    (match Role Slot with RoleDirectBranch | RoleConditionalBranch => True | _ => False end /\
     TargetInsideRange (RelativeTarget Slot) L = true /\ o = w32 (RelativeTarget Slot)) \/
    (Role Slot = RoleConditionalBranch /\ o = w32 (Offset B + sz)).
Proof.
  unfold close, end_branch. intros E HT o Ho.
  destruct (Role Slot); try done; try destruct (TargetInsideRange _ _); injection E as <- <-;
    unfold targets in Ho; cbn -[w32] in Ho; rewrite ?HT in Ho; cbn -[w32] in Ho;
    repeat case_match; cbn [app] in Ho; rewrite ?elem_of_cons, ?elem_of_nil in Ho; try done;
    tauto.
Qed.

(** ** Filling a block *)

Record filled_block (Start Off : Z) (B : CfgBlock) (s : CfgScanner) (B' : CfgBlock) (Off' : Z) (s' : CfgScanner) : Prop := {
  fb_grows : grows Code s s';
  fb_leaders : Leaders_ s' = Leaders_ s;
  fb_offset : Offset B' = Start;
  fb_end : Off <= Off' <= L;
  fb_count : (BlockInstructionCount B' = 0 /\ Off' = Start) \/ (1 <= BlockInstructionCount B' <= Off' - Start);
  fb_target : TargetOffset B' = CfgNoTarget \/ in_range Code (TargetOffset B');
  fb_settled : Halted s = false -> (Off <> Start /\ leader_at Off s = true) \/ explored Code s Off ->
    Halted s' = false /\ 1 <= BlockInstructionCount B' /\ leads_to_leaders s' (set_Size (Off' - Start) B');
}.

(** A block that is cut before [Off] because the next instruction is a leader
    or the range ends. *)
Lemma cut_targets Start Off B s e : e = EndFallthrough \/ e = EndRangeEnd -> Offset B = Start -> 0 <= Off <= L ->
  L <= Off \/ Off ∈ Leaders_ s -> leads_to_leaders s (set_Size (Off - Start) (set_End_ e B)).
Proof.
  intros He HB Ho Hl o Hin. unfold targets in Hin. cbn -[w32] in Hin. rewrite HB in Hin.
  replace (Start + (Off - Start)) with Off in Hin by lia. rewrite w32_offset in Hin by done.
  by destruct He as [-> | ->]; apply list_elem_of_singleton in Hin as ->.
Qed.

Lemma fill_spec fuel Start Off B s : scan_ok Code s -> in_range Code Start -> Start <= Off <= L ->
  L - Off < Z.of_nat fuel -> Offset B = Start -> TargetOffset B = CfgNoTarget ->
  (BlockInstructionCount B = 0 /\ Off = Start) \/ (1 <= BlockInstructionCount B <= Off - Start) ->
  Off < L ->
  exists B' Off' s', fill Backend Code RuntimeAddress fuel Start Off B s = Some (B', Off', s') /\
    filled_block Start Off B s B' Off' s'.
Proof.
  revert Off B s. induction fuel as [|fuel IH]; intros Off B s Hs HS Ho Hf HB HT Hc Hlt; [lia|]. cbn [fill].
  destruct (Z.leb_spec L Off); [lia|]. assert (0 <= Start) as H0 by apply HS.
  assert (in_range Code Off) as Hr by (unfold in_range in *; lia).
  destruct (negb (Off =? Start) && leader_at Off s) eqn:E1.
  { bool_props. eexists _, _, _. split; [done|]. split; cbn; [done|done|done|lia|lia|by left|]. intros Hh _. split_and!; [done|lia|].
    apply cut_targets; [by left|done|lia|]. right. by apply (sc_leader Code s Hs). }
  destruct (negb (known_at Off s) && DecodeHalted s) eqn:E2.
  { bool_props. eexists _, _, _. split; [done|]. split; cbn; [done|done|done|lia|lia|by left|]. intros Hh _.
    unfold Halted, DecodeHalted in *. bool_props. congruence. }
  set (s1 := if known_at Off s then s else DecodeWindowAt Backend Code RuntimeAddress Off s).
  destruct (DecodeWindowAt_spec Backend Code RuntimeAddress Off s Hr Hs) as (D1 & D2 & D3).
  assert (grows Code s s1 /\ Leaders_ s1 = Leaders_ s) as [G1 L1] by (unfold s1; by destruct (known_at Off s)).
  assert ((Off <> Start /\ leader_at Off s = true) \/ explored Code s Off -> explored Code s Off) as Hex.
  { intros [[Hne Hld]|?]; [|done]. rewrite Hld, andb_true_r in E1. bool_props. done. }
  assert (explored Code s Off -> s1 = s /\ settled Code s Off) as Hs1.
  { intros He. destruct (He Off (visits_here Code s Off)) as [_ Hse]. split; [|done]. unfold s1. by destruct Hse as [-> _]. }
  destruct (negb (known_at Off s1)) eqn:E3.
  { bool_props. eexists _, _, _. split; [done|]. split; cbn; [done|done|done|lia|lia|by left|]. intros Hh He%Hex.
    destruct (Hs1 He) as [Es [Hk _]]. congruence. }
  pose proof (next_offset_bounds Code Off (slot_at Off s1) Hr) as HN.
  set (Slot := slot_at Off s1) in *. set (Next := next_offset Code Off Slot) in *.
  destruct (close Code Slot _ s1) as [[B2 s2] Stop] eqn:Ec.
  destruct (close_spec _ _ _ _ _ _ Ec) as (G2 & L2 & H2 & O2 & C2 & T2 & F2 & S2). cbn in O2, C2, T2.
  assert (TargetOffset B2 = CfgNoTarget \/ in_range Code (TargetOffset B2)) as T2' by (destruct T2 as [->|?]; [left|right]; done).
  destruct Stop.
  - eexists _, _, _. split; [done|]. split; [by etrans|congruence|congruence|lia|right; rewrite C2; lia|done|].
    intros Hh He%Hex. destruct (Hs1 He) as [Es [Hk Hset]]. rewrite H2, Es. split_and!; [done|rewrite C2; lia|].
    intros o Hin. rewrite L2, L1. destruct (close_targets _ _ _ _ _ _ Ec HT o Hin) as [(Hrole & Ht & ->)|[Hrole ->]].
    + assert (in_range Code (RelativeTarget Slot)) as Htr by (unfold TargetInsideRange in Ht; bool_props; by split).
      unfold in_range in Htr. rewrite w32_offset by lia. right. unfold Slot in *. rewrite Es in *.
      destruct (Role (slot_at Off s)); try done; [by apply Hset|by apply (proj1 Hset)].
    + cbn -[w32]. rewrite HB. replace (Start + (Next - Start)) with Next by lia. rewrite w32_offset by lia.
      destruct (Z.ltb_spec Next L); [|by left]. right. unfold Next, Slot in *. rewrite Es in *. rewrite Hrole in Hset.
      by apply Hset.
  - destruct (F2 eq_refl) as [-> Hcont]. destruct (Z.leb_spec L Next) as [HLe|HLt].
    + eexists _, _, _. split; [done|]. split; cbn; [by etrans|congruence|done|lia|right; lia|by left|].
      intros Hh He%Hex. destruct (Hs1 He) as [Es _]. rewrite H2, Es. split_and!; [done|lia|].
      apply cut_targets; [by right|done|lia|by left].
    + destruct (IH Next (set_BlockInstructionCount (BlockInstructionCount B + 1) B) s2) as (B' & Off' & s' & E & [R1 R2 R3 R4 R5 R6 R7]);
        [apply (gr_ok _ _ _ G2), (gr_ok _ _ _ G1), Hs|done|lia|lia|done|done|right; cbn; lia|done|].
      exists B', Off', s'. split; [done|]. split; [etrans; [done|by etrans]|congruence|done|lia|done|done|].
      intros Hh He%Hex. destruct (Hs1 He) as [Es Hset]. clearbody s1. subst s1.
      assert (Halted s2 = false) as Hh2 by (by rewrite H2). apply R7; [done|].
      assert (scan_ok Code s2) as Hs2 by (apply (gr_ok _ _ _ G2), (gr_ok _ _ _ G1), Hs).
      destruct (leader_at Next s2) eqn:El; [left; split; [lia|done]|right].
      apply (explored_grows Code s s2); [done|done|].
      intros o Ho'. apply He. apply visits_next; [done|done| |done].
      apply (grows_not_leader Code s s2); [done|done| |done]. unfold in_range, Next, Slot in *. lia.
Qed.

(** ** The partition *)

(** The blocks built so far, and the leaders still to come. *)
Record building (s : CfgScanner) (Ordered : list Z) (Covered : Z) : Prop := {
  bu_scan : scan_ok Code s;
  bu_blocks : Forall block_ok (Blocks (Out_ s));
  bu_sorted : StronglySorted before (Blocks (Out_ s));
  bu_leaders b : b ∈ Blocks (Out_ s) -> Offset b ∈ Leaders_ s;
  bu_covered : Covered = 0 \/ exists b, b ∈ Blocks (Out_ s) /\ Offset b + Size b = Covered;
  bu_ends b : b ∈ Blocks (Out_ s) -> Offset b + Size b <= Covered;
  bu_next b o : b ∈ Blocks (Out_ s) -> o ∈ Ordered -> Offset b < o;
  bu_ordered : StronglySorted Z.lt Ordered;
  bu_todo o : o ∈ Ordered -> o ∈ Leaders_ s;
  bu_room : Z.of_nat (length (Blocks (Out_ s)) + length Ordered) <= CfgMaxBlocks;
}.

Definition starts_at (bs : list CfgBlock) (o : Z) : Prop := exists b, b ∈ bs /\ Offset b = o.
Definition inside (bs : list CfgBlock) (o : Z) : Prop := exists b, b ∈ bs /\ Offset b < o < Offset b + Size b.

Record partitioned (s : CfgScanner) (Ordered : list Z) (s' : CfgScanner) : Prop := {
  pa_done : exists Covered, building s' [] Covered;
  pa_leaders : Leaders_ s' = Leaders_ s;
  pa_more b : b ∈ Blocks (Out_ s) -> b ∈ Blocks (Out_ s');
  pa_rest : untouched (Out_ s') = untouched (Out_ s);
  pa_overlap : OverlappingLeaderCount (Out_ s) <= OverlappingLeaderCount (Out_ s');
  pa_status : (Halted s = true -> Halted s' = true) /\
    (Status (Out_ s') = Status (Out_ s) \/ limit_status (Status (Out_ s')));
  pa_settled : Halted s = false -> (forall l, l ∈ Leaders_ s -> explored Code s l) ->
    (forall b, b ∈ Blocks (Out_ s) -> leads_to_leaders s b) ->
    Halted s' = false /\ (forall b, b ∈ Blocks (Out_ s') -> leads_to_leaders s' b) /\
    (forall o, o ∈ Ordered -> starts_at (Blocks (Out_ s')) o \/ inside (Blocks (Out_ s')) o) /\
    (OverlappingLeaderCount (Out_ s') = OverlappingLeaderCount (Out_ s) ->
     forall o, o ∈ Ordered -> starts_at (Blocks (Out_ s')) o);
}.

Lemma leads_leaders s s' b : Leaders_ s' = Leaders_ s -> leads_to_leaders s b -> leads_to_leaders s' b.
Proof. intros E H o Ho. rewrite E. by apply H. Qed.

Lemma starts_more s s' o : (forall b, b ∈ Blocks (Out_ s) -> b ∈ Blocks (Out_ s')) ->
  starts_at (Blocks (Out_ s)) o -> starts_at (Blocks (Out_ s')) o.
Proof. intros H (b & Hb & E). exists b. auto. Qed.

Lemma building_drop s o Ordered Covered : building s (o :: Ordered) Covered -> building s Ordered Covered.
Proof.
  intros [A1 A2 A3 A4 A5 A6 A7 A8 A9 A10]. split; try done.
  - intros b x Hb Hx. apply A7; [done|by right].
  - by inversion A8.
  - intros x Hx. apply A9. by right.
  - simpl in A10. lia.
Qed.

Lemma building_same s s' Ordered Covered : grows Code s s' -> Leaders_ s' = Leaders_ s ->
  building s Ordered Covered -> building s' Ordered Covered.
Proof.
  intros HG EL [A1 A2 A3 A4 A5 A6 A7 A8 A9 A10]. pose proof (gr_blocks _ _ _ HG) as EB.
  split; rewrite ?EB, ?EL; try done. by apply (gr_ok _ _ _ HG).
Qed.

(** A leader inside the last block. *)
Lemma covered_inside s o Ordered Covered : building s (o :: Ordered) Covered -> o < Covered ->
  inside (Blocks (Out_ s)) o.
Proof.
  intros HB Ho. destruct (bu_covered _ _ _ HB) as [->|(b & Hb & E)].
  - assert (o ∈ Leaders_ s) as Hl by (apply (bu_todo _ _ _ HB); by left).
    apply (sc_range Code s (bu_scan _ _ _ HB)) in Hl. unfold in_range in Hl. lia.
  - exists b. split; [done|]. split; [apply (bu_next _ _ _ HB); [done|by left]|lia].
Qed.

Definition push_block (b : CfgBlock) (s : CfgScanner) : CfgScanner :=
  upd_Out (fun g => set_Blocks (Blocks g ++ [b]) g) s.

Lemma push_building s o b Ordered Covered : building s (o :: Ordered) Covered -> Covered <= o ->
  block_ok b -> Offset b = o -> building (push_block b s) Ordered (Offset b + Size b).
Proof.
  intros HB Hc Hb Ho. pose proof HB as [A1 A2 A3 A4 A5 A6 A7 A8 A9 A10].
  pose proof (bk_size _ Hb) as Hsz. inversion A8 as [|? ? S1 S2]; subst. rewrite Forall_forall in S2.
  split; cbn; try done.
  - destruct A1 as [B1 B2 B3 B4 B5 B6 B7 B8]. by split.
  - apply Forall_app. split; [done|by constructor].
  - clear -A3 A6 Hc. induction A3 as [|x l Hs IH Hx]; cbn; [repeat constructor|]. constructor.
    + apply IH. intros y Hy. apply A6. by right.
    + apply Forall_app. split; [done|]. constructor; [|done]. unfold before.
      specialize (A6 x (list_elem_of_here _ _)). lia.
  - intros x [Hx| ->%list_elem_of_singleton]%elem_of_app; [by apply A4|]. apply A9. by left.
  - right. exists b. split; [apply elem_of_app; right; by left|done].
  - intros x [Hx| ->%list_elem_of_singleton]%elem_of_app; [|lia]. specialize (A6 x Hx). lia.
  - intros x y [Hx| ->%list_elem_of_singleton]%elem_of_app Hy; [apply A7; [done|by right]|by apply S2].
  - intros x Hx. apply A9. by right.
  - rewrite length_app. simpl in *. lia.
Qed.

Lemma push_settled s b : (forall x, x ∈ Blocks (Out_ s) -> leads_to_leaders s x) -> leads_to_leaders s b ->
  forall x, x ∈ Blocks (Out_ (push_block b s)) -> leads_to_leaders (push_block b s) x.
Proof. intros H Hb x [Hx| ->%list_elem_of_singleton]%elem_of_app; [by apply H|done]. Qed.


(** The graph takes no part in what has been explored. *)
Lemma explored_set_Out g s l : explored Code s l -> explored Code (set_Out g s) l.
Proof.
  intros H o Hv. apply (H o). clear H. remember (set_Out g s) as s' eqn:E.
  induction Hv as [a|a o Hc Hn Hl Hv IH]; subst; [constructor|]. by apply visits_next; [..|apply IH].
Qed.

(** The three outcomes of a round for the leader [o]. *)
Lemma partition_skip s o Ordered Covered s' : building s (o :: Ordered) Covered -> o < Covered ->
  partitioned (count_overlapping s) Ordered s' -> partitioned s (o :: Ordered) s'.
Proof.
  intros HB Ho [P1 P2 P3 P4 P5 P7 P6]. cbn in *. split; try done; [lia|].
  intros Hh Hex Hl. destruct P6 as (Q1 & Q2 & Q3 & Q4); [done| |done|].
  { intros l Hin. by apply explored_set_Out, Hex. }
  split_and!; [done|done| |lia]. intros x [->|Hx]%elem_of_cons; [right|by apply Q3].
  destruct (covered_inside s o Ordered Covered HB Ho) as (b & Hb & E). exists b. split; [by apply P3|done].
Qed.

Lemma partition_empty s s1 o Ordered s' : grows Code s s1 -> Leaders_ s1 = Leaders_ s ->
  (Halted s = false -> explored Code s o -> False) -> o ∈ Leaders_ s ->
  partitioned s1 Ordered s' -> partitioned s (o :: Ordered) s'.
Proof.
  intros HG EL Hne Hin [P1 P2 P3 P4 P5 P7 P6].
  pose proof (gr_blocks _ _ _ HG) as EB. pose proof (gr_overlap _ _ _ HG) as EO. pose proof (gr_rest _ _ _ HG) as EU.
  pose proof (gr_halted _ _ _ HG). pose proof (gr_status _ _ _ HG).
  split; [done|congruence|by rewrite EB in P3|congruence|lia|destruct P7 as [? [E7|?]]; split; auto; rewrite ?E7 in *; tauto|].
  intros Hh Hex _. by destruct (Hne Hh (Hex o Hin)).
Qed.

Lemma partition_push s s1 o b Ordered s' : grows Code s s1 -> Leaders_ s1 = Leaders_ s -> scan_ok Code s -> Offset b = o ->
  (Halted s = false -> explored Code s o -> Halted s1 = false /\ leads_to_leaders s1 b) ->
  o ∈ Leaders_ s -> partitioned (push_block b s1) Ordered s' -> partitioned s (o :: Ordered) s'.
Proof.
  intros HG EL Hs Ho Hset Hin [P1 P2 P3 P4 P5 P7 P6].
  pose proof (gr_blocks _ _ _ HG) as EB. pose proof (gr_overlap _ _ _ HG) as EO. pose proof (gr_rest _ _ _ HG) as EU.
  cbn in P2, P3, P4, P5. assert (starts_at (Blocks (Out_ s')) o) as Hst.
  { exists b. split; [apply P3, elem_of_app; right; by left|done]. }
  pose proof (gr_halted _ _ _ HG). pose proof (gr_status _ _ _ HG).
  split; [done|congruence| |by rewrite P4|lia|destruct P7 as [? [E7|?]]; split; auto; rewrite ?E7 in *; tauto|].
  { intros x Hx. apply P3, elem_of_app. left. by rewrite EB. }
  intros Hh Hex Hl. destruct (Hset Hh (Hex o Hin)) as [Hh1 Hb].
  destruct P6 as (Q1 & Q2 & Q3 & Q4).
  - exact Hh1.
  - intros l Hin'. cbn in Hin'. rewrite EL in Hin'. apply explored_set_Out.
    by apply (explored_grows Code s), Hex.
  - apply push_settled; [|done]. intros x Hx. rewrite EB in Hx. apply (leads_leaders s); [done|by apply Hl].
  - cbn in Q4. split_and!; [done|done| |].
    + intros x [->|Hx]%elem_of_cons; [by left|by apply Q3].
    + intros E x [->|Hx]%elem_of_cons; [done|]. apply Q4; [congruence|done].
Qed.

Lemma building_overlap s Ordered Covered : building s Ordered Covered -> building (count_overlapping s) Ordered Covered.
Proof. intros [[A1 A2 A3 A4 A5 A6 A7 A8] B2 B3 B4 B5 B6 B7 B8 B9 B10]. by split. Qed.

Lemma partitioned_nil s Covered : building s [] Covered -> partitioned s [] s.
Proof.
  intros HB. split; try done; [by exists Covered|by split; [|left]|].
  intros Hh _ Hl. split_and!; [done|done|intros o []%elem_of_nil|intros _ o []%elem_of_nil].
Qed.

Lemma partition_loop_spec Ordered Covered s : building s Ordered Covered ->
  exists s', partition_loop Backend Code RuntimeAddress Ordered Covered s = Some s' /\ partitioned s Ordered s'.
Proof.
  revert Covered s. induction Ordered as [|o Ordered IH]; intros Covered s HB; cbn [partition_loop].
  { exists s. split; [done|]. by apply (partitioned_nil s Covered). }
  destruct (Z.ltb_spec o Covered) as [Hlt|Hge].
  { destruct (IH Covered (count_overlapping s)) as (s' & E & HP); [by apply building_overlap, (building_drop s o)|].
    exists s'. split; [done|]. by apply (partition_skip s o Ordered Covered). }
  pose proof (bu_room _ _ _ HB) as Hroom. 
  destruct (Z.leb_spec CfgMaxBlocks (Z.of_nat (length (Blocks (Out_ s))))) as [?|_]; [simpl in Hroom; lia|].
  assert (o ∈ Leaders_ s) as Hin by (apply (bu_todo _ _ _ HB); by left).
  pose proof (bu_scan _ _ _ HB) as Hs. pose proof (sc_range Code s Hs o Hin) as Ho.
  destruct (fill_spec (S (length Code)) o o (NewBlock o) s) as (B' & Off' & s1 & -> & [R1 R2 R3 R4 R5 R6 R7]);
    [done|done|unfold in_range in Ho; lia|unfold Length_; unfold in_range in Ho; lia|done|done|by left|by apply Ho|].
  cbn [mbind option_bind]. change (BlockInstructionCount (set_Size (Off' - o) B')) with (BlockInstructionCount B').
  destruct (Z.eqb_spec (BlockInstructionCount B') 0) as [E0|E0].
  - destruct (IH Covered s1) as (s' & E & HP); [by apply (building_same s), (building_drop s o)|].
    exists s'. split; [done|]. apply (partition_empty s s1); [done|done| |done|done].
    intros Hh He. destruct (R7 Hh) as (_ & ? & _); [by right|lia].
  - destruct R5 as [[? _]|R5]; [done|]. set (b := set_Size (Off' - o) B').
    assert (block_ok b) as Hb by (split; cbn; rewrite ?R3; unfold in_range in Ho; try lia; exact R6).
    destruct (IH (Offset b + Size b) (push_block b s1)) as (s' & E & HP).
    { apply (push_building s1 o b Ordered Covered); [by apply (building_same s)|done|done|done]. }
    exists s'. split; [exact E|]. apply (partition_push s s1 o b); [done|done|done|done| |done|done].
    intros Hh He. destruct (R7 Hh) as (H1 & _ & H2); [by right|]. done.
Qed.

(** ** The whole of [BuildBlocks] *)

Lemma sorted_leaders s : scan_ok Code s -> StronglySorted Z.lt (merge_sort Z.le (Leaders_ s)).
Proof.
  intros Hs. assert (StronglySorted Z.le (merge_sort Z.le (Leaders_ s))) as H by (apply StronglySorted_merge_sort; [apply _..]).
  assert (NoDup (merge_sort Z.le (Leaders_ s))) as Hnd by (rewrite merge_sort_Permutation; apply Hs).
  induction H as [|x l _ IH Hx]; [constructor|]. apply NoDup_cons in Hnd as [Hn Hnd].
  constructor; [by apply IH|]. rewrite Forall_forall in *. intros y Hy. specialize (Hx y Hy).
  assert (x <> y) by (intros ->; done). lia.
Qed.

Lemma building_start s : scan_ok Code s -> Blocks (Out_ s) = [] -> building s (merge_sort Z.le (Leaders_ s)) 0.
Proof.
  intros Hs EB. split; rewrite ?EB; try done; try (by constructor); try (by intros b []%elem_of_nil).
  - intros b o []%elem_of_nil.
  - by apply sorted_leaders.
  - intros o. by rewrite merge_sort_Permutation.
  - rewrite merge_sort_Permutation. apply Hs.
Qed.
End Blocks.
