(* ===== verification/CfgSpec.v ===== *)
(** * The construction of a control-flow graph, as a whole

    The stages of [Run] (CfgBuild.v) put together: the construction always
    returns a graph, and what each stage promises holds of that graph. *)

From stdpp Require Import base option list numbers relations sorting.
From Stdlib Require Import ZArith Lia.
From S2P Require Import Prelude Cfg CfgDecode CfgScan CfgBuild.
From S2P Require Import CfgUnionSpec CfgSccSpec CfgEdgesSpec CfgScanSpec CfgBlocksSpec.
Local Open Scope Z_scope.

(** ** The blocks *)

(** A graph after [BuildBlocks], over a range of [Code]. *)
Record scanned (Code : list byte) (g : ControlFlowGraph) : Prop := {
  sn_nodes : NodeCount g = length (Blocks g);
  sn_limit : Z.of_nat (length (Blocks g)) <= CfgMaxBlocks;
  sn_blocks : Forall (block_ok Code) (Blocks g);
  sn_sorted : StronglySorted before (Blocks g);
  sn_fresh : untouched g = untouched (start_graph (Length_ Code));
  sn_entry : Status g = StatusOk -> starts_at (Blocks g) 0;
  sn_targets b o : Status g = StatusOk -> b ∈ Blocks g -> o ∈ targets b -> o < Length_ Code ->
    starts_at (Blocks g) o \/ inside (Blocks g) o;
  sn_exact b o : Status g = StatusOk -> OverlappingLeaderCount g = 0 -> b ∈ Blocks g ->
    o ∈ targets b -> o < Length_ Code -> starts_at (Blocks g) o;
}.

Lemma scan_ok_new Code g : scan_ok Code (NewScanner Code g).
Proof.
  split; cbn; rewrite ?length_replicate; try done; [constructor|intros o []%elem_of_nil|].
  intros o Ho. unfold leader_at. cbn. rewrite lookup_replicate_2 by (by apply to_nat_range).
  cbn. split; [done|]. intros []%elem_of_nil.
Qed.

Lemma bool_status s : Halted s = false <-> Status (Out_ s) = StatusOk.
Proof. unfold Halted. rewrite negb_false_iff. apply bool_decide_eq_true. Qed.

Section Scanning.
Context (Backend : DisassemblerBackend) (Code : list byte) (RuntimeAddress : Z).
Context (HL : 0 < Length_ Code <= CfgMaxRangeBytes).

(** The first block starts at the first byte. *)
Lemma entry_starts s s' : partitioned Code s (merge_sort Z.le (Leaders_ s)) s' -> scan_ok Code s ->
  Blocks (Out_ s) = [] -> 0 ∈ Leaders_ s -> Halted s = false -> (forall l, l ∈ Leaders_ s -> explored Code s l) ->
  starts_at (Blocks (Out_ s')) 0.
Proof.
  intros HP Hs EB H0 Hh Hex. destruct (pa_settled _ _ _ _ HP Hh Hex) as (_ & _ & Hcov & _).
  { rewrite EB. by intros b []%elem_of_nil. }
  destruct (Hcov 0) as [?|(b & Hb & Hlt)]; [by rewrite merge_sort_Permutation|done|].
  destruct (pa_done _ _ _ _ HP) as [c HB]. pose proof (bu_blocks _ _ _ _ HB) as Hall. rewrite Forall_forall in Hall.
  pose proof (bk_offset _ _ (Hall b Hb)). lia.
Qed.

Lemma BuildBlocks_spec s : scan_ok Code s -> Blocks (Out_ s) = [] -> OverlappingLeaderCount (Out_ s) = 0 ->
  untouched (Out_ s) = untouched (start_graph (Length_ Code)) ->
  (Halted s = false -> 0 ∈ Leaders_ s /\ forall l, l ∈ Leaders_ s -> explored Code s l) ->
  exists s', BuildBlocks Backend Code RuntimeAddress s = Some s' /\ scanned Code (Out_ s') /\
    (Status (Out_ s') = Status (Out_ s) \/ limit_status (Status (Out_ s')) \/
     (Status (Out_ s') = EntryUndecodable /\ Blocks (Out_ s') = [])).
Proof.
  intros Hs EB EO EU Hex. unfold BuildBlocks.
  destruct (partition_loop_spec Backend Code RuntimeAddress (proj2 HL) _ 0 s (building_start Code s Hs EB)) as (s' & -> & HP).
  cbn [mbind option_bind]. eexists. split; [done|].
  pose proof HP as [[c HB] EL _ ER _ [HH HU] Hset]. rewrite EU in ER.
  assert (Z.of_nat (length (Blocks (Out_ s'))) <= CfgMaxBlocks) as Hlim by (pose proof (bu_room _ _ _ _ HB); simpl in *; lia).
  destruct (undecodable_entry _) eqn:Eu.
  - unfold Fail_, Halted in *. cbn. destruct (bool_decide (Status (Out_ s') = StatusOk)) eqn:Es; cbn.
    + split; [|right; by right]. split; cbn; [done|done|constructor|constructor|done|done..].
    + apply bool_decide_eq_false in Es. split; [|destruct HU; auto].
      split; cbn; [done|done|constructor|constructor|done|done..].
  - split; [|destruct HU; auto].
    assert (Status (Out_ s') = StatusOk -> Halted s = false) as Hrun.
    { intros E%bool_status. destruct (Halted s); [by rewrite HH in E|done]. }
    assert (forall b, b ∈ Blocks (Out_ s) -> leads_to_leaders Code s b) as Hnil by (rewrite EB; by intros b []%elem_of_nil).
    split; cbn; [done|done|apply HB|apply HB|done| | |].
    + intros Hok. destruct (Hex (Hrun Hok)) as [H0 He]. by apply (entry_starts s s'); auto.
    + intros b o Hok Hb Ho Hlt. destruct (Hex (Hrun Hok)) as [H0 He].
      destruct (Hset (Hrun Hok) He Hnil) as (_ & Q2 & Q3 & _).
      destruct (Q2 b Hb o Ho) as [?|Hl]; [lia|]. apply Q3. rewrite merge_sort_Permutation. by rewrite <- EL.
    + intros b o Hok Hz Hb Ho Hlt. destruct (Hex (Hrun Hok)) as [H0 He].
      destruct (Hset (Hrun Hok) He Hnil) as (_ & Q2 & _ & Q4).
      destruct (Q2 b Hb o Ho) as [?|Hl]; [lia|]. apply Q4; [congruence|]. rewrite merge_sort_Permutation. by rewrite <- EL.
Qed.

Lemma scanner_spec : exists s1 s2,
  DiscoverLeaders Backend Code RuntimeAddress (upd_Out (set_RangeBytes (Length_ Code)) (NewScanner Code EmptyGraph)) = Some s1 /\
  BuildBlocks Backend Code RuntimeAddress s1 = Some s2 /\ scanned Code (Out_ s2) /\
  (Status (Out_ s2) = EntryUndecodable -> Blocks (Out_ s2) = []) /\
  (Status (Out_ s2) = StatusOk \/ Status (Out_ s2) = EntryUndecodable \/ limit_status (Status (Out_ s2))).
Proof.
  set (s0 := upd_Out _ _). assert (scan_ok Code s0) as Hs0.
  { destruct (scan_ok_new Code EmptyGraph) as [A1 A2 A3 A4 A5 A6 A7 A8]. by split. }
  destruct (DiscoverLeaders_spec Backend Code RuntimeAddress s0 Hs0) as (s1 & E1 & G & Hex).
  destruct (BuildBlocks_spec s1) as (s2 & E2 & Hsc & Hun).
  - by apply (gr_ok _ _ _ G).
  - by rewrite (gr_blocks _ _ _ G).
  - by rewrite (gr_overlap _ _ _ G).
  - by rewrite (gr_rest _ _ _ G).
  - intros Hh. destruct (Hex Hh) as [H0 He]. split; [apply H0; lia|done].
  - exists s1, s2. split_and!; [done|done|done| |].
    + intros E. rewrite E in Hun. destruct Hun as [Eu|[[?|?]|[_ ?]]]; [|done..].
      destruct (gr_status _ _ _ G) as [E'|[E'|E']]; rewrite E' in Eu; done.
    + destruct Hun as [Eu|[?|[? _]]]; auto. rewrite Eu.
      destruct (gr_status _ _ _ G) as [-> |?]; [by left|auto].
Qed.
End Scanning.

(** ** The graph *)

(** The graph [g] built on the blocks of [g1]. *)
Record built (Len : Z) (g1 g : ControlFlowGraph) : Prop := {
  bt_status : Status g = Status g1;
  bt_nodes : NodeCount g = length (Blocks g1);
  bt_length : length (Blocks g) = length (Blocks g1);
  bt_offsets : offsets g = offsets g1;
  bt_fields i b : Blocks g !! i = Some b -> exists b1, Blocks g1 !! i = Some b1 /\
    Offset b = Offset b1 /\ Size b = Size b1 /\ BlockInstructionCount b = BlockInstructionCount b1 /\
    End_ b = End_ b1 /\ TargetOffset b = TargetOffset b1;
  bt_successors i : BlockSuccessors g i = default [] (succ_lists Len g1 !! i);
  bt_predecessors j : (j < NodeCount g)%nat ->
    BlockPredecessors g j = filter (fun i => j ∈ BlockSuccessors g i) (seq 0 (NodeCount g));
  bt_edges : EdgeCount g = length (edge_list g);
  bt_exits : ExitBlockCount g = Z.of_nat (length (filter (fun i => BlockSuccessors g i = []) (seq 0 (NodeCount g))));
  bt_dropped : DroppedSuccessorCount g = sum_dropped Len g1 (Blocks g1);
  bt_overlap : OverlappingLeaderCount g = OverlappingLeaderCount g1;
  bt_scc : scc_result g (ComponentOfBlock g) (ComponentNodeCounts g) (ComponentIsLoop g);
  bt_scc_count : StronglyConnectedCount g = length (ComponentNodeCounts g);
  bt_loops : LoopCount g = length (filter (fun b => b = true) (ComponentIsLoop g));
  bt_components : exists reps, ConnectedComponentCount g = length reps /\ NoDup reps /\
    Forall (fun r => r < NodeCount g)%nat reps /\
    (forall u, (u < NodeCount g)%nat -> exists r, r ∈ reps /\ linked g u r) /\
    (forall r r', r ∈ reps -> r' ∈ reps -> linked g r r' -> r = r');
  bt_forest : (NodeCount g <= ConnectedComponentCount g + EdgeCount g)%nat;
  bt_complexity : CyclomaticComplexity g =
    Z.of_nat (EdgeCount g) - Z.of_nat (NodeCount g) + 2 * Z.of_nat (ConnectedComponentCount g);
  bt_sums : DecodedBytes g = sum_field Size (Blocks g) /\ InstructionCount g = sum_field BlockInstructionCount (Blocks g);
  bt_entry : EntryBlock g = offset_index 0 0 (offsets g);
}.

Lemma scc_result_none g : NodeCount g = 0%nat -> scc_result g [] [] [].
Proof. intros E. split; rewrite ?E; try done; try lia; try (intros; simpl in *; lia). Qed.

(** [ComputeStronglyConnected] on any graph whose counts are still zero. *)
Lemma ComputeStronglyConnected_any g : StronglyConnectedCount g = 0%nat -> LoopCount g = 0%nat ->
  exists comp counts loops, scc_result g comp counts loops /\
    ComputeStronglyConnected g =
      Some (set_LoopCount (length (filter (fun b => b = true) loops))
        (set_StronglyConnectedCount (length counts)
          (set_ComponentIsLoop loops (set_ComponentNodeCounts counts (set_ComponentOfBlock comp g))))).
Proof.
  intros H1 H2. destruct (decide (NodeCount g = 0%nat)) as [E|E].
  - exists [], [], []. split; [by apply scc_result_none|]. unfold ComputeStronglyConnected. rewrite E. cbn.
    f_equal. destruct g. cbn in *. by subst.
  - apply ComputeStronglyConnected_spec. lia.
Qed.

Lemma edge_list_ext g h : NodeCount g = NodeCount h -> (forall i, BlockSuccessors g i = BlockSuccessors h i) ->
  edge_list g = edge_list h.
Proof.
  intros EN ES. unfold edge_list. rewrite EN. induction (seq 0 (NodeCount h)) as [|i l IH]; [done|].
  rewrite !bind_cons, IH. by rewrite ES.
Qed.

Lemma length_edge_list g : length (edge_list g) = length (concat (map (BlockSuccessors g) (seq 0 (NodeCount g)))).
Proof. by rewrite <- edge_list_targets, length_fmap. Qed.

Lemma scc_result_ext g h comp counts loops : NodeCount g = NodeCount h ->
  (forall i, BlockSuccessors g i = BlockSuccessors h i) -> scc_result g comp counts loops -> scc_result h comp counts loops.
Proof.
  intros EN ES [S1 S2 S3 S4 S5 S6 S7]. rewrite EN in *. split; try done.
  - intros u v Hu Hv. rewrite S4 by done. unfold mutual. by rewrite !(path_ext g h EN ES).
  - intros u v He. by apply S5, (edge_ext g h EN ES).
  - intros d Hd. rewrite S7 by done. by setoid_rewrite (cycle_ext g h EN ES).
Qed.

Lemma complexity_positive (E N P : nat) : (N <= P + E)%nat /\ (N <> 0%nat -> (0 < P)%nat) -> (N = 0 -> E = 0 /\ P = 0)%nat ->
  (if (N =? 0)%nat then 0 else Z.max 1 (Z.of_nat E - Z.of_nat N + 2 * Z.of_nat P)) =
  Z.of_nat E - Z.of_nat N + 2 * Z.of_nat P.
Proof. intros [H1 H2] H3. destruct (Nat.eqb_spec N 0); [specialize (H3 e)|specialize (H2 n)]; lia. Qed.

Section Stages.
Context (Len : Z) (g1 : ControlFlowGraph) (HN : NodeCount g1 = length (Blocks g1)) (HS : SuccessorBlocks g1 = []).
Abbreviation g2 := (BuildSuccessors Len g1).

Lemma successors_nodes : NodeCount g2 = NodeCount g1.
Proof. by rewrite (BuildSuccessors_spec Len g1 HN HS). Qed.

Lemma successors_lists : map (BlockSuccessors g2) (seq 0 (NodeCount g2)) = succ_lists Len g1.
Proof.
  apply list_eq. intros i. rewrite list_lookup_fmap, successors_nodes.
  destruct (decide (i < NodeCount g1)%nat) as [Hi|Hi].
  - rewrite lookup_seq_lt by done. cbn. rewrite (BuildSuccessors_slices Len g1 HN HS).
    destruct (lookup_lt_is_Some_2 (Blocks g1) i) as [b E]; [lia|]. by rewrite (succ_lists_lookup Len g1 i b E).
  - rewrite !lookup_ge_None_2; [done|unfold succ_lists; rewrite length_map; lia|rewrite length_seq; lia].
Qed.

Lemma successors_slices : SuccessorBlocks g2 = concat (map (BlockSuccessors g2) (seq 0 (NodeCount g2))).
Proof. rewrite successors_lists. by rewrite (BuildSuccessors_spec Len g1 HN HS). Qed.

Lemma successors_blocks : NodeCount g2 = length (Blocks g2).
Proof. rewrite successors_nodes, HN, (BuildSuccessors_spec Len g1 HN HS). cbn. by rewrite length_imap. Qed.

Lemma successors_NoDup i : NoDup (BlockSuccessors g2 i).
Proof.
  rewrite (BuildSuccessors_slices Len g1 HN HS). destruct (succ_lists Len g1 !! i) as [l|] eqn:E; [|constructor].
  unfold succ_lists in E. rewrite list_lookup_fmap in E. destruct (Blocks g1 !! i) as [b|]; [|done].
  injection E as <-. apply NoDup_first_blocks. constructor.
Qed.

Lemma successors_exits : ExitBlockCount g1 = 0 -> ExitBlockCount g2 =
  Z.of_nat (length (filter (fun i => BlockSuccessors g2 i = []) (seq 0 (NodeCount g2)))).
Proof.
  intros E0. rewrite (BuildSuccessors_spec Len g1 HN HS) at 1.
  cbn [ExitBlockCount set_EdgeCount set_ExitBlockCount]. rewrite E0, Z.add_0_l. unfold count_empty. f_equal. rewrite <- successors_lists. induction (seq 0 (NodeCount g2)) as [|i l IH]; [done|].
  cbn [map]. rewrite !filter_cons. destruct (decide (BlockSuccessors g2 i = [])); cbn [length]; by rewrite IH.
Qed.

Lemma successors_edges : EdgeCount g2 = length (edge_list g2).
Proof. rewrite length_edge_list, successors_lists. by rewrite (BuildSuccessors_spec Len g1 HN HS). Qed.

(** The blocks after the two passes over the edges. *)
Definition blocks_of (Counts : list nat) : list CfgBlock := imap (sliced Counts 0) (Blocks g2).

Lemma blocks_of_lookup Counts i b : blocks_of Counts !! i = Some b -> exists b1, Blocks g1 !! i = Some b1 /\
  Offset b = Offset b1 /\ Size b = Size b1 /\ BlockInstructionCount b = BlockInstructionCount b1 /\
  End_ b = End_ b1 /\ TargetOffset b = TargetOffset b1.
Proof.
  unfold blocks_of. rewrite (BuildSuccessors_spec Len g1 HN HS). cbn. rewrite !list_lookup_imap.
  destruct (Blocks g1 !! i) as [b1|]; [|done]. intros [= <-]. by exists b1.
Qed.

Lemma length_blocks_of Counts : length (blocks_of Counts) = length (Blocks g1).
Proof. unfold blocks_of. rewrite length_imap, (BuildSuccessors_spec Len g1 HN HS). cbn. apply length_imap. Qed.

Lemma offsets_blocks_of Counts : map Offset (blocks_of Counts) = offsets g1.
Proof.
  unfold blocks_of, offsets. rewrite (BuildSuccessors_spec Len g1 HN HS). cbn. apply list_eq. intros i.
  rewrite !list_lookup_fmap, !list_lookup_imap. by destruct (Blocks g1 !! i).
Qed.

(** [BuildPredecessors] leaves the successors and adds the predecessors. *)
Lemma predecessors_stage : exists Pred,
  BuildPredecessors g2 = set_PredecessorBlocks Pred (set_Blocks (blocks_of (pred_counts g2)) g2) /\
  (forall i, BlockSuccessors (BuildPredecessors g2) i = BlockSuccessors g2 i) /\
  (forall j, (j < NodeCount g2)%nat -> BlockPredecessors (BuildPredecessors g2) j =
     filter (fun i => j ∈ BlockSuccessors g2 i) (seq 0 (NodeCount g2))).
Proof.
  destruct (BuildPredecessors_spec g2 successors_blocks successors_slices) as (Pred & E & HP).
  exists Pred. split_and!; [done| |].
  - intros i. rewrite E. by apply (sliced_successors g2 (blocks_of (pred_counts g2))).
  - intros j Hj. rewrite HP by done. apply in_edges_blocks, successors_NoDup.
Qed.

End Stages.

(** ** The last stages *)

Lemma ComputeStatistics_spec g : ComputeStatistics g =
  set_CyclomaticComplexity
    (if (NodeCount g =? 0)%nat then 0 else Z.max 1
       (Z.of_nat (EdgeCount g) - Z.of_nat (NodeCount g) + 2 * Z.of_nat (ConnectedComponentCount g)))
    (set_EntryBlock (offset_index 0 0 (offsets g))
      (set_DecodedBytes (sum_field Size (Blocks g)) (set_InstructionCount (sum_field BlockInstructionCount (Blocks g)) g))).
Proof.
  unfold ComputeStatistics. rewrite BlockAtOffset_index. cbn.
  destruct (NodeCount g =? 0)%nat; [done|].
  replace (if _ <? 1 then 1 else _) with (Z.max 1 (Z.of_nat (EdgeCount g) - Z.of_nat (NodeCount g) +
    2 * Z.of_nat (ConnectedComponentCount g))); [done|].
  cbn. destruct (Z.ltb_spec (Z.of_nat (EdgeCount g) - Z.of_nat (NodeCount g) + 2 * Z.of_nat (ConnectedComponentCount g)) 1); cbn; lia.
Qed.

(** The fields of blocks and edges. *)
Record keeps (g h : ControlFlowGraph) : Prop := {
  ke_blocks : Blocks h = Blocks g;
  ke_successors : SuccessorBlocks h = SuccessorBlocks g;
  ke_predecessors : PredecessorBlocks h = PredecessorBlocks g;
  ke_nodes : NodeCount h = NodeCount g;
  ke_edges : EdgeCount h = EdgeCount g;
  ke_status : Status h = Status g;
  ke_exits : ExitBlockCount h = ExitBlockCount g;
  ke_dropped : DroppedSuccessorCount h = DroppedSuccessorCount g;
  ke_overlap : OverlappingLeaderCount h = OverlappingLeaderCount g;
}.

#[local] Instance keeps_trans : Transitive keeps.
Proof. intros g h k [] []. split; congruence. Qed.

Lemma keeps_BlockSuccessors g h : keeps g h -> forall i, BlockSuccessors h i = BlockSuccessors g i.
Proof. intros H i. unfold BlockSuccessors. by rewrite (ke_blocks _ _ H), (ke_successors _ _ H). Qed.

Lemma keeps_BlockPredecessors g h : keeps g h -> forall i, BlockPredecessors h i = BlockPredecessors g i.
Proof. intros H i. unfold BlockPredecessors. by rewrite (ke_blocks _ _ H), (ke_predecessors _ _ H). Qed.

Lemma keeps_edge_list g h : keeps g h -> edge_list h = edge_list g.
Proof. intros H. apply edge_list_ext; [apply H|by apply keeps_BlockSuccessors]. Qed.

Record keeps_scc (g h : ControlFlowGraph) : Prop := {
  kc_of : ComponentOfBlock h = ComponentOfBlock g;
  kc_counts : ComponentNodeCounts h = ComponentNodeCounts g;
  kc_loops : ComponentIsLoop h = ComponentIsLoop g;
  kc_count : StronglyConnectedCount h = StronglyConnectedCount g;
  kc_loop_count : LoopCount h = LoopCount g;
}.

Definition scc_done (g : ControlFlowGraph) : Prop :=
  scc_result g (ComponentOfBlock g) (ComponentNodeCounts g) (ComponentIsLoop g) /\
  StronglyConnectedCount g = length (ComponentNodeCounts g) /\
  LoopCount g = length (filter (fun b => b = true) (ComponentIsLoop g)).

Lemma scc_done_keeps g h : keeps g h -> keeps_scc g h -> scc_done g -> scc_done h.
Proof.
  intros HK [K1 K2 K3 K4 K5] (H1 & H2 & H3). unfold scc_done. rewrite K1, K2, K3, K4, K5. split_and!; [|done|done].
  apply (scc_result_ext g); [by rewrite (ke_nodes _ _ HK)| |done]. intros i. by rewrite (keeps_BlockSuccessors g h).
Qed.

Lemma scc_stage g : StronglyConnectedCount g = 0%nat -> LoopCount g = 0%nat ->
  exists h, ComputeStronglyConnected g = Some h /\ keeps g h /\ scc_done h.
Proof.
  intros H1 H2. destruct (ComputeStronglyConnected_any g H1 H2) as (comp & counts & loops & Hscc & ->).
  eexists. split; [done|]. match goal with |- keeps g ?x /\ _ => assert (keeps g x) as HK by by split end.
  split; [exact HK|]. split; [|by split]. cbn [ComponentOfBlock ComponentNodeCounts ComponentIsLoop].
  apply (scc_result_ext g); [by rewrite (ke_nodes _ _ HK)| |done]. intros i. by rewrite (keeps_BlockSuccessors _ _ HK).
Qed.

Definition connected_done (g : ControlFlowGraph) : Prop :=
  (exists reps, ConnectedComponentCount g = length reps /\ NoDup reps /\
    Forall (fun r => r < NodeCount g)%nat reps /\
    (forall u, (u < NodeCount g)%nat -> exists r, r ∈ reps /\ linked g u r) /\
    (forall r r', r ∈ reps -> r' ∈ reps -> linked g r r' -> r = r')) /\
  (NodeCount g <= ConnectedComponentCount g + length (edge_list g))%nat.

Lemma connected_keeps g h : keeps g h -> ConnectedComponentCount h = ConnectedComponentCount g ->
  connected_done g -> connected_done h.
Proof.
  intros HK E [(reps & R1 & R2 & R3 & R4 & R5) R6]. pose proof (ke_nodes _ _ HK) as EN.
  assert (forall u v, linked h u v <-> linked g u v) as HL.
  { apply linked_ext; [done|]. by apply keeps_BlockSuccessors. }
  unfold connected_done. rewrite E, EN, (keeps_edge_list g h HK). split; [|done].
  exists reps. split_and!; [done|done|done| |].
  - intros u Hu. destruct (R4 u Hu) as (r & Hr & Hl). exists r. by rewrite HL.
  - intros r r' Hr Hr' Hl. apply R5; [done|done|]. by apply HL.
Qed.

Lemma connected_stage g : exists h, ComputeConnectedComponents g = Some h /\ keeps g h /\ keeps_scc g h /\ connected_done h.
Proof.
  destruct (ComputeConnectedComponents_spec g) as (reps & -> & R1 & R2 & R3 & R4 & R5).
  eexists. split; [done|]. match goal with |- keeps g ?x /\ _ => assert (keeps g x) as HK by by split end.
  split_and!; [exact HK|by split|]. split; [|by rewrite (keeps_edge_list _ _ HK)]. exists reps. by split_and!.
Qed.

Lemma connected_positive g : connected_done g -> CyclomaticComplexity (ComputeStatistics g) =
  if (NodeCount g =? 0)%nat then 0 else Z.max 1
    (Z.of_nat (EdgeCount g) - Z.of_nat (NodeCount g) + 2 * Z.of_nat (ConnectedComponentCount g)).
Proof. intros _. by rewrite ComputeStatistics_spec. Qed.

Lemma statistics_stage g : keeps g (ComputeStatistics g) /\ keeps_scc g (ComputeStatistics g) /\
  ConnectedComponentCount (ComputeStatistics g) = ConnectedComponentCount g /\
  EntryBlock (ComputeStatistics g) = offset_index 0 0 (offsets g) /\
  DecodedBytes (ComputeStatistics g) = sum_field Size (Blocks g) /\
  InstructionCount (ComputeStatistics g) = sum_field BlockInstructionCount (Blocks g) /\
  (connected_done g -> EdgeCount g = length (edge_list g) -> CyclomaticComplexity (ComputeStatistics g) =
    Z.of_nat (EdgeCount g) - Z.of_nat (NodeCount g) + 2 * Z.of_nat (ConnectedComponentCount g)).
Proof.
  pose proof (ComputeStatistics_spec g) as E. split_and!; [by rewrite E..|].
  intros HC HE. rewrite (connected_positive g HC), HE. destruct HC as [(reps & R1 & R2 & R3 & R4 & R5) R6].
  apply complexity_positive; [split; [done|]|]; rewrite R1.
  - intros Hne. destruct (R4 0%nat) as (r & Hr & _); [lia|]. destruct reps; [by apply elem_of_nil in Hr|simpl; lia].
  - intros E0. unfold edge_list. rewrite E0 in *. split; [done|].
    destruct reps; [done|]. apply Forall_cons in R3 as [? _]. lia.
Qed.

(** The stages after the blocks. *)
Lemma stages_built Len g1 : NodeCount g1 = length (Blocks g1) -> SuccessorBlocks g1 = [] ->
  DroppedSuccessorCount g1 = 0 -> ExitBlockCount g1 = 0 -> StronglyConnectedCount g1 = 0%nat -> LoopCount g1 = 0%nat ->
  exists g, (g ← ComputeStronglyConnected (BuildPredecessors (BuildSuccessors Len g1)); g ← ComputeConnectedComponents g;
    Some (ComputeStatistics g)) = Some g /\ built Len g1 g.
Proof.
  intros HN HS H1 H2 H3 H4. destruct (predecessors_stage Len g1 HN HS) as (Pred & E3 & ES & HP).
  pose proof (successors_edges Len g1 HN HS) as HE. pose proof (successors_exits Len g1 HN HS H2) as HX.
  pose proof (successors_nodes Len g1 HN HS) as HNo. pose proof (BuildSuccessors_slices Len g1 HN HS) as Hsl.
  assert (StronglyConnectedCount (BuildSuccessors Len g1) = 0%nat /\ LoopCount (BuildSuccessors Len g1) = 0%nat /\
    Status (BuildSuccessors Len g1) = Status g1 /\
    DroppedSuccessorCount (BuildSuccessors Len g1) = sum_dropped Len g1 (Blocks g1) /\
    OverlappingLeaderCount (BuildSuccessors Len g1) = OverlappingLeaderCount g1) as (Z1 & Z2 & Z3 & Z4 & Z5).
  { rewrite (BuildSuccessors_spec Len g1 HN HS). cbn. rewrite H1. by split_and!. }
  set (g2 := BuildSuccessors Len g1) in *. set (g3 := BuildPredecessors g2) in *.
  assert (Blocks g3 = blocks_of Len g1 (pred_counts g2) /\ NodeCount g3 = NodeCount g2 /\ EdgeCount g3 = EdgeCount g2 /\
    Status g3 = Status g2 /\ ExitBlockCount g3 = ExitBlockCount g2 /\ DroppedSuccessorCount g3 = DroppedSuccessorCount g2 /\
    OverlappingLeaderCount g3 = OverlappingLeaderCount g2 /\ StronglyConnectedCount g3 = StronglyConnectedCount g2 /\
    LoopCount g3 = LoopCount g2) as (B1 & B2 & B3 & B4 & B5 & B6 & B7 & B8 & B9) by (rewrite E3; by split_and!).
  destruct (scc_stage g3) as (g4 & -> & K4 & S4); [congruence|congruence|]. cbn [mbind option_bind].
  destruct (connected_stage g4) as (g5 & -> & K5 & C5 & S5). cbn [mbind option_bind].
  destruct (statistics_stage g5) as (K6 & C6 & T1 & T2 & T4 & T5 & T3).
  pose proof (transitivity K4 K5) as K35. pose proof (transitivity K35 K6) as K.
  assert (EdgeCount g5 = length (edge_list g5)) as E5.
  { rewrite (ke_edges _ _ K35), B3, HE, (keeps_edge_list g3 g5 K35). f_equal. symmetry. by apply edge_list_ext. }
  eexists. split; [done|]. pose proof (scc_done_keeps g5 _ K6 C6 (scc_done_keeps g4 g5 K5 C5 S4)) as (F1 & F2 & F3).
  pose proof (connected_keeps g5 _ K6 T1 S5) as [F4 F5]. specialize (T3 S5 E5).
  pose proof (keeps_BlockSuccessors g3 _ K) as KS. pose proof (keeps_BlockPredecessors g3 _ K) as KP.
  destruct K as [L1 L2 L3 L4 L5 L6 L7 L8 L9].
  assert (forall i, BlockSuccessors (ComputeStatistics g5) i = BlockSuccessors g2 i) as KS2 by (intros i; by rewrite KS).
  split; try done.
  - congruence.
  - congruence.
  - rewrite L1, B1. apply length_blocks_of; done.
  - unfold offsets at 1. rewrite L1, B1. apply offsets_blocks_of; done.
  - intros i b. rewrite L1, B1. apply blocks_of_lookup; done.
  - intros i. by rewrite KS2.
  - intros j Hj. rewrite KP, HP by congruence. rewrite L4, B2. apply filter_ext_in. intros i _. by rewrite KS2.
  - rewrite (ke_edges _ _ K6), E5. by rewrite (keeps_edge_list g5 _ K6).
  - rewrite L7, B5, HX, L4, B2. f_equal. f_equal. apply filter_ext_in. intros i _. by rewrite KS2.
  - congruence.
  - congruence.
  - rewrite (ke_edges _ _ K6), E5. by rewrite <- (keeps_edge_list g5 _ K6).
  - rewrite T3, T1, (ke_edges _ _ K6), (ke_nodes _ _ K6). done.
  - by rewrite (ke_blocks _ _ K6).
  - unfold offsets. rewrite T2. unfold offsets. by rewrite (ke_blocks _ _ K6).
Qed.
