(* ===== verification/CfgTheorems.v ===== *)
(** * Control-flow graphs: the theorems

    What [BuildControlFlowGraph] promises, for every decoder: it returns, the
    blocks partition what they cover, the edges are the control transfers, the
    predecessors are the reversed edges, the component numbers are the strongly
    connected components, and the cyclomatic complexity is E - N + 2P. *)

From stdpp Require Import base option list numbers relations sorting.
From Stdlib Require Import ZArith Lia.
From S2P Require Import Prelude Cfg CfgDecode CfgScan CfgBuild CfgUnionSpec CfgSccSpec CfgEdgesSpec.
From S2P Require Import CfgScanSpec CfgBlocksSpec CfgSpec.
Local Open Scope Z_scope.

(** The pointer addresses [Length] bytes. *)
Definition addressable (Code : option (list byte)) (Length : Z) : Prop :=
  0 <= Length /\ match Code with Some Bytes => Length <= Z.of_nat (length Bytes) | None => True end.

(** The status of a refused range. *)
Inductive refusal (Code : option (list byte)) : CfgStatus -> Z -> Prop :=
| refusal_empty : refusal Code EmptyRange 0
| refusal_null Length : Length <> 0 -> Code = None -> refusal Code NullCode Length
| refusal_large Length : CfgMaxRangeBytes < Length -> Code <> None -> refusal Code RangeTooLarge Length.

(** The three outcomes: refused, a first byte that does not decode, a graph. *)
Inductive outcome (Code : option (list byte)) (Length : Z) : ControlFlowGraph -> Prop :=
| outcome_refused st m : refusal Code st Length -> outcome Code Length (refuse st m)
| outcome_undecodable C g : Length_ C = Length -> 0 < Length <= CfgMaxRangeBytes -> Code <> None ->
    scanned C g -> Blocks g = [] -> Status g = EntryUndecodable -> outcome Code Length g
| outcome_built C g1 g : Length_ C = Length -> 0 < Length <= CfgMaxRangeBytes -> Code <> None ->
    Status g1 = StatusOk \/ limit_status (Status g1) -> scanned C g1 -> built Length g1 g -> outcome Code Length g.

Lemma Run_outcome Backend Code Address : 0 < Length_ Code <= CfgMaxRangeBytes ->
  exists g, Run Backend Code Address (NewScanner Code EmptyGraph) = Some g /\ outcome (Some Code) (Length_ Code) g.
Proof.
  intros HL. unfold Run. destruct (scanner_spec Backend Code Address HL) as (s1 & s2 & -> & E2 & Hsc & Hun & Hstat).
  cbn [mbind option_bind]. rewrite E2. cbn [mbind option_bind].
  case_bool_decide as Eu.
  - exists (Out_ s2). split; [done|]. apply (outcome_undecodable _ _ Code); try done. by apply Hun.
  - pose proof (sn_fresh _ _ Hsc) as HF. injection HF as F1 _ _ _ _ _ _ _ _ F4 F5 _ _ F2 F3 _.
    destruct (stages_built (Length_ Code) (Out_ s2) (sn_nodes _ _ Hsc) F1 F2 F3 F4 F5) as (g & E & Hb).
    exists g. split; [exact E|]. apply (outcome_built _ _ Code (Out_ s2)); try done. destruct Hstat as [?|[?|?]]; auto; done.
Qed.

Lemma Build_outcome Backend Code Length Address : addressable Code Length ->
  exists g, BuildControlFlowGraph Backend Code Length Address = Some g /\ outcome Code Length g.
Proof.
  intros [H0 HC]. unfold BuildControlFlowGraph. destruct (Z.eqb_spec Length 0) as [->|Hne].
  { eexists. split; [done|]. apply outcome_refused; constructor. }
  destruct Code as [Bytes|]; [|eexists; split; [done|by apply outcome_refused; constructor]].
  destruct (Z.ltb_spec CfgMaxRangeBytes Length); [eexists; split; [done|by apply outcome_refused; constructor]|].
  assert (Length_ (take (Z.to_nat Length) Bytes) = Length) as EL by (unfold Length_; rewrite length_take; lia).
  destruct (Run_outcome Backend (take (Z.to_nat Length) Bytes) Address) as (g & E & HO); [lia|].
  exists g. split; [done|]. rewrite EL in HO.
  destruct HO as [st m Hst|C g' ? ? _ ? ? ?|C g1 g' ? ? _ ? ? ?];
    [|by apply (outcome_undecodable _ _ C)|by apply (outcome_built _ _ C g1)].
  apply outcome_refused. inversion Hst; by constructor.
Qed.

Lemma outcome_of Backend Code Length Address g : addressable Code Length ->
  BuildControlFlowGraph Backend Code Length Address = Some g -> outcome Code Length g.
Proof. intros HA E. destruct (Build_outcome Backend Code Length Address HA) as (h & Eh & HO). congruence. Qed.

(** A graph without blocks has no edges. *)
Lemma no_blocks g i : Blocks g = [] -> BlockSuccessors g i = [] /\ BlockPredecessors g i = [].
Proof. intros E. unfold BlockSuccessors, BlockPredecessors. by rewrite E. Qed.

Lemma outcome_blocks Code Length g : outcome Code Length g -> NodeCount g = length (Blocks g) /\
  (Blocks g = [] \/ exists C g1, Length_ C = Length /\ 0 < Length <= CfgMaxRangeBytes /\ scanned C g1 /\ built Length g1 g).
Proof.
  intros [st m Hst|C g' HL Hr Hc Hsc E Hst|C g1 g' HL Hr Hc Hst Hsc HB]; [by split; [|left]|by split; [apply Hsc|left]|].
  split; [|right; by exists C, g1]. by rewrite (bt_nodes _ _ _ HB), (bt_length _ _ _ HB).
Qed.

Lemma outcome_ok Code Length g : outcome Code Length g -> Status g = StatusOk ->
  exists C g1, Length_ C = Length /\ scanned C g1 /\ built Length g1 g.
Proof. intros [st m Hst|C g' HL Hr Hc Hsc E Hst|C g1 g' HL Hr Hc Hst Hsc HB] Hok.
  - by destruct Hst.
  - congruence.
  - by exists C, g1.
Qed.

Section Theorems.
Context (Backend : DisassemblerBackend) (Code : option (list byte)) (Length Address : Z) (g : ControlFlowGraph).
Context (HA : addressable Code Length) (HG : BuildControlFlowGraph Backend Code Length Address = Some g).

Lemma offsets_sorted g1 Code1 : scanned Code1 g1 -> StronglySorted Z.lt (offsets g1).
Proof.
  intros Hsc. pose proof (sn_blocks _ _ Hsc) as Hb. pose proof (sn_sorted _ _ Hsc) as Hs. unfold offsets.
  revert Hb. induction Hs as [|b bs Hs IH Hx]; intros Hb; [constructor|]. apply Forall_cons in Hb as [Hb Hbs].
  cbn. constructor; [by apply IH|]. rewrite Forall_forall in Hx. apply Forall_forall. intros o Ho.
  apply list_elem_of_fmap in Ho as (b' & -> & Hb'). specialize (Hx b' Hb'). unfold before in Hx.
  pose proof (bk_size _ _ Hb). lia.
Qed.

(** The order of the blocks only depends on their extents. *)
Lemma sorted_extents (l k : list CfgBlock) :
  Forall2 (fun a b => Offset a = Offset b /\ Size a = Size b) l k ->
  StronglySorted before k -> StronglySorted before l.
Proof.
  induction 1 as [|a b l k [E1 E2] Hlk IH]; [constructor|]. inversion 1 as [|? ? Hs Hb]; subst.
  constructor; [by apply IH|]. clear -Hlk E1 E2 Hb. induction Hlk as [|x y l k [E3 E4] _ IH]; [constructor|].
  apply Forall_cons in Hb as [Hy Hb]. constructor; [unfold before in *; lia|by apply IH].
Qed.

Lemma built_extents C g1 : Length_ C = Length -> scanned C g1 -> built Length g1 g ->
  StronglySorted before (Blocks g) /\ forall b, b ∈ Blocks g ->
    0 <= Offset b /\ 0 < Size b /\ Offset b + Size b <= Length /\
    1 <= BlockInstructionCount b <= Size b /\ (TargetOffset b = CfgNoTarget \/ 0 <= TargetOffset b < Length).
Proof.
  intros HL Hsc HB. pose proof (bt_fields _ _ _ HB) as Hf. pose proof (bt_length _ _ _ HB) as Hlen. split.
  - apply (sorted_extents _ (Blocks g1)); [|apply Hsc]. apply Forall2_same_length_lookup. split; [done|].
    intros i b b1 Hb H1. destruct (Hf i b Hb) as (b2 & H2 & E1 & E2 & _). rewrite H1 in H2. by injection H2 as ->.
  - intros b Hb. apply list_elem_of_lookup in Hb as [i Hi].
    destruct (Hf i b Hi) as (b1 & H1 & -> & -> & -> & _ & ->). pose proof (sn_blocks _ _ Hsc) as Hall.
    rewrite Forall_forall in Hall. apply list_elem_of_lookup_2 in H1. destruct (Hall b1 H1) as [K1 K2 K3 K4 K5].
    unfold in_range in K5. rewrite HL in K3, K5. split_and!; try done; lia.
Qed.

(** C23: Blocks are disjoint, ascending, not empty and inside the range; each holds
    at least one instruction and at most one per byte; a recorded branch target
    lies inside the range. *)
Theorem blocks_partition :
  NodeCount g = length (Blocks g) /\ Z.of_nat (NodeCount g) <= CfgMaxBlocks /\
  StronglySorted (fun a b => Offset a + Size a <= Offset b) (Blocks g) /\
  Forall (fun b => 0 <= Offset b /\ 0 < Size b /\ Offset b + Size b <= Length /\
    1 <= BlockInstructionCount b <= Size b /\ (TargetOffset b = CfgNoTarget \/ 0 <= TargetOffset b < Length)) (Blocks g).
Proof.
  pose proof (outcome_of _ _ _ _ _ HA HG) as HO. destruct (outcome_blocks _ _ _ HO) as [HN [E|(C & g1 & HL & Hr & Hsc & HB)]].
  { rewrite HN, E. split_and!; [done|done|constructor|constructor]. }
  destruct (built_extents C g1 HL Hsc HB) as [Hs Hall]. split_and!; [done| |exact Hs|by apply Forall_forall].
  rewrite HN, (bt_length _ _ _ HB). apply Hsc.
Qed.

Lemma targets_same b b1 : Offset b = Offset b1 -> Size b = Size b1 -> End_ b = End_ b1 ->
  TargetOffset b = TargetOffset b1 -> targets b = targets b1.
Proof. intros E1 E2 E3 E4. unfold targets. by rewrite E1, E2, E3, E4. Qed.

Lemma built_targets g1 i b : built Length g1 g -> Blocks g !! i = Some b ->
  BlockSuccessors g i = succ_list Length (offsets g1) b.
Proof.
  intros HB Hi. destruct (bt_fields _ _ _ HB i b Hi) as (b1 & H1 & E1 & E2 & E3 & E4 & E5).
  rewrite (bt_successors _ _ _ HB), (succ_lists_lookup Length g1 i b1 H1). unfold succ_list. cbn.
  by rewrite (targets_same b b1).
Qed.

Lemma offsets_lookup (h : ControlFlowGraph) i o : offsets h !! i = Some o <-> exists b, Blocks h !! i = Some b /\ Offset b = o.
Proof.
  unfold offsets. rewrite list_lookup_fmap. destruct (Blocks h !! i) as [b|]; cbn; [|naive_solver].
  split; [intros [= <-]; by exists b|by intros (? & [= <-] & <-)].
Qed.

(** C22: The successors of a block are the blocks that start where its last
    instruction can pass control to: at most two, none twice. *)
Theorem successors_are_transfers :
  (forall i j, j ∈ BlockSuccessors g i <-> exists b b', Blocks g !! i = Some b /\ Blocks g !! j = Some b' /\ Offset b' ∈ targets b) /\
  (forall i, NoDup (BlockSuccessors g i) /\ (length (BlockSuccessors g i) <= 2)%nat) /\
  (Blocks g <> [] -> EdgeCount g = sum_list_with (fun i => length (BlockSuccessors g i)) (seq 0 (NodeCount g)) /\
     ExitBlockCount g = Z.of_nat (length (filter (fun i => BlockSuccessors g i = []) (seq 0 (NodeCount g))))).
Proof.
  pose proof (outcome_of _ _ _ _ _ HA HG) as HO. destruct (outcome_blocks _ _ _ HO) as [HN [E|(C & g1 & HL & Hr & Hsc & HB)]].
  { split_and!; [|intros i; rewrite (proj1 (no_blocks g i E)); by split; [constructor|simpl; lia]|done].
    intros i j. rewrite (proj1 (no_blocks g i E)), E. split; [by intros []%elem_of_nil|by intros (b & b' & Hb & _)]. }
  pose proof (offsets_sorted g1 C Hsc) as Hs. split_and!.
  - intros i j. destruct (Blocks g !! i) as [b|] eqn:Hi.
    + rewrite (built_targets g1 i b HB Hi). unfold succ_list. rewrite elem_of_first_blocks. split.
      * intros [[]%elem_of_nil|(o & Ho & Hres)]. unfold resolve in Hres. destruct (Length <=? o); [done|].
        apply offset_index_spec in Hres as [_ Hj]; [|done]. rewrite Nat.sub_0_r, <- (bt_offsets _ _ _ HB) in Hj.
        apply offsets_lookup in Hj as (b' & Hj & <-). by exists b, b'.
      * intros (b0 & b' & [= <-] & Hj & Ho). right. exists (Offset b'). split; [done|]. unfold resolve.
        assert (Offset b' < Length) as Hlt.
        { destruct (bt_fields _ _ _ HB j b' Hj) as (b1 & H1 & -> & _). apply list_elem_of_lookup_2 in H1.
          pose proof (sn_blocks _ _ Hsc) as Hall. rewrite Forall_forall in Hall. destruct (Hall b1 H1). lia. }
        destruct (Z.leb_spec Length (Offset b')); [lia|]. apply offset_index_spec; [done|].
        rewrite Nat.sub_0_r, <- (bt_offsets _ _ _ HB). split; [lia|]. apply offsets_lookup. by exists b'.
    + unfold BlockSuccessors. rewrite Hi. split; [by intros []%elem_of_nil|by intros (b & b' & Hb & _)].
  - intros i. destruct (Blocks g !! i) as [b|] eqn:Hi.
    + rewrite (built_targets g1 i b HB Hi). unfold succ_list. split; [apply NoDup_first_blocks; constructor|].
      pose proof (length_first_blocks Length (offsets g1) (targets b) []) as Hlen. simpl in Hlen.
      assert (length (targets b) <= 2)%nat; [|lia].
      unfold targets. repeat case_match; simpl; lia.
    + unfold BlockSuccessors. rewrite Hi. split; [constructor|simpl; lia].
  - intros _. split; [|apply (bt_exits _ _ _ HB)]. rewrite (bt_edges _ _ _ HB), length_edge_list.
    induction (seq 0 (NodeCount g)) as [|x l IH]; [done|]. cbn. by rewrite length_app, IH.
Qed.

(** The predecessors of a block, ascending, are the blocks that have it as a
    successor. *)
Theorem predecessors_are_reversed j :
  BlockPredecessors g j = filter (fun i => j ∈ BlockSuccessors g i) (seq 0 (NodeCount g)).
Proof.
  pose proof (outcome_of _ _ _ _ _ HA HG) as HO. destruct (outcome_blocks _ _ _ HO) as [HN [E|(C & g1 & HL & Hr & Hsc & HB)]].
  { by rewrite (proj2 (no_blocks g j E)), HN, E. }
  destruct (decide (j < NodeCount g)%nat) as [Hj|Hj]; [by apply (bt_predecessors _ _ _ HB)|].
  unfold BlockPredecessors. rewrite lookup_ge_None_2 by lia. symmetry. apply filter_nothing. intros i _.
  intros Hin. destruct (Blocks g !! i) as [b|] eqn:Hi; [|unfold BlockSuccessors in Hin; rewrite Hi in Hin; by apply elem_of_nil in Hin].
  rewrite (built_targets g1 i b HB Hi) in Hin. apply elem_of_first_blocks in Hin as [[]%elem_of_nil|(o & _ & Hres)].
  unfold resolve in Hres. destruct (Length <=? o); [done|].
  apply offset_index_spec in Hres as [_ Hl]; [|by apply (offsets_sorted g1 C)]. rewrite Nat.sub_0_r in Hl.
  apply lookup_lt_Some in Hl. unfold offsets in Hl. rewrite length_map in Hl. pose proof (bt_nodes _ _ _ HB). lia.
Qed.

(** C18: The component numbers tell the strongly connected components apart, no edge
    leads to a higher number, and a component is flagged as a loop exactly if
    some path leads from one of its blocks back to it. *)
Theorem components_are_strong :
  (forall u v, (u < NodeCount g)%nat -> (v < NodeCount g)%nat ->
     (ComponentOfBlock g !!! u = ComponentOfBlock g !!! v <-> path g u v /\ path g v u)) /\
  (forall u v, edge g u v -> (ComponentOfBlock g !!! v <= ComponentOfBlock g !!! u)%nat) /\
  length (ComponentNodeCounts g) = StronglyConnectedCount g /\ length (ComponentIsLoop g) = StronglyConnectedCount g /\
  (forall c, (c < StronglyConnectedCount g)%nat ->
     ComponentNodeCounts g !!! c = length (filter (fun v => ComponentOfBlock g !!! v = c) (seq 0 (NodeCount g))) /\
     (0 < ComponentNodeCounts g !!! c)%nat /\
     (ComponentIsLoop g !!! c = true <-> exists v, (v < NodeCount g)%nat /\ ComponentOfBlock g !!! v = c /\ cycle_path g v v)) /\
  LoopCount g = length (filter (fun b => b = true) (ComponentIsLoop g)).
Proof.
  pose proof (outcome_of _ _ _ _ _ HA HG) as HO.
  destruct HO as [st m Hst|C g' HL Hr Hc Hsc E Hst|C g1 g' HL Hr Hc Hst Hsc HB].
  - cbn. split_and!; try done; try (intros; lia).
  - pose proof (sn_fresh _ _ Hsc) as HF. pose proof (sn_nodes _ _ Hsc) as HN. rewrite E in HN.
    injection HF as _ _ -> -> -> _ _ _ _ -> -> _ _ _ _ _.
    split_and!; try done; try (intros; simpl in *; lia).
  - destruct (bt_scc _ _ _ HB) as [S1 S2 S3 S4 S5 S6 S7]. pose proof (bt_scc_count _ _ _ HB) as Hcnt.
    split_and!; [done|done|done|congruence| |apply (bt_loops _ _ _ HB)].
    intros c Hlt. rewrite Hcnt in Hlt. destruct (S6 c Hlt) as [? ?]. split_and!; [done|done|by apply S7].
Qed.

(** C21: The component count is the number of classes of blocks connected by edges
    taken in both directions, and the complexity of a graph with blocks is
    exactly E - N + 2P, at least one: the clamp of the code never acts. *)
Theorem complexity_is_exact :
  (exists reps, ConnectedComponentCount g = length reps /\ NoDup reps /\
    Forall (fun r => r < NodeCount g)%nat reps /\
    (forall u, (u < NodeCount g)%nat -> exists r, r ∈ reps /\ linked g u r) /\
    (forall r r', r ∈ reps -> r' ∈ reps -> linked g r r' -> r = r')) /\
  (Blocks g <> [] ->
    CyclomaticComplexity g = Z.of_nat (EdgeCount g) - Z.of_nat (NodeCount g) + 2 * Z.of_nat (ConnectedComponentCount g) /\
    1 <= CyclomaticComplexity g).
Proof.
  pose proof (outcome_of _ _ _ _ _ HA HG) as HO. destruct (outcome_blocks _ _ _ HO) as [HN [E|(C & g1 & HL & Hr & Hsc & HB)]].
  - split; [|done]. exists []. rewrite HN, E. split_and!; [|constructor|constructor|simpl; lia|intros r r' []%elem_of_nil].
    destruct HO as [st m Hst|C g' HL Hr Hc Hsc _ Hst|C g1 g' HL Hr Hc Hst Hsc HB]; [done| |].
    + pose proof (sn_fresh _ _ Hsc) as HF. by injection HF as _ _ _ _ _ _ _ _ _ _ _ -> _ _ _ _.
    + destruct (bt_components _ _ _ HB) as (reps & -> & _ & R & _). rewrite HN, E in R.
      destruct reps; [done|]. apply Forall_cons in R as [? _]. simpl in *. lia.
  - split; [apply (bt_components _ _ _ HB)|]. intros Hne. split; [apply (bt_complexity _ _ _ HB)|].
    pose proof (bt_forest _ _ _ HB). rewrite (bt_complexity _ _ _ HB).
    destruct (bt_components _ _ _ HB) as (reps & Hc & _ & _ & R & _).
    assert (0 < length (Blocks g))%nat by (destruct (Blocks g); [done|simpl; lia]).
    destruct (R 0%nat) as (r & Hr' & _); [lia|]. destruct reps; [by apply elem_of_nil in Hr'|simpl in Hc; lia].
Qed.

Lemma resolved_target g1 o : built Length g1 g -> starts_at (Blocks g1) o -> StronglySorted Z.lt (offsets g1) ->
  drops Length (offsets g1) o = 0.
Proof.
  intros HB (b' & Hb' & <-) Hs. unfold drops. destruct (Length <=? Offset b'); [done|].
  apply list_elem_of_lookup in Hb' as [j Hj].
  assert (offset_index (Offset b') 0 (offsets g1) = Some j) as ->; [|done].
  apply offset_index_spec; [done|]. rewrite Nat.sub_0_r. split; [lia|]. apply offsets_lookup. by exists b'.
Qed.

(** C20: When no limit was reached the first block is the entry; when no leader lies
    inside a block either, no control transfer is lost: every target inside the
    range starts a block, which is a successor. *)
Theorem transfers_are_resolved : Status g = StatusOk ->
  (exists b, Blocks g !! 0%nat = Some b /\ Offset b = 0 /\ EntryBlock g = Some 0%nat) /\
  (OverlappingLeaderCount g = 0 -> DroppedSuccessorCount g = 0 /\
     forall i b o, Blocks g !! i = Some b -> o ∈ targets b -> o < Length ->
       exists j b', Blocks g !! j = Some b' /\ Offset b' = o /\ j ∈ BlockSuccessors g i).
Proof.
  intros Hok. pose proof (outcome_of _ _ _ _ _ HA HG) as HO.
  destruct (outcome_ok _ _ _ HO Hok) as (C & g1 & HL & Hsc & HB).
  pose proof (offsets_sorted g1 C Hsc) as Hs. rewrite (bt_status _ _ _ HB) in Hok. split.
  - destruct (sn_entry _ _ Hsc Hok) as (b1 & Hb1 & E1). apply list_elem_of_lookup in Hb1 as [i Hi].
    assert (i = 0%nat) as ->.
    { destruct i as [|i]; [done|]. exfalso. destruct (Blocks g1) as [|b0 bs] eqn:EB; [done|].
      pose proof (sn_blocks _ _ Hsc) as Hall. rewrite EB in Hall. apply Forall_cons in Hall as [H0 _].
      unfold offsets in Hs. rewrite EB in Hs. inversion Hs as [|? ? _ Hx]; subst. rewrite Forall_forall in Hx.
      specialize (Hx (Offset b1)). pose proof (bk_offset _ _ H0).
      assert (Offset b0 < Offset b1); [|lia]. apply Hx. apply list_elem_of_fmap. exists b1. split; [done|].
      by apply (list_elem_of_lookup_2 _ i). }
    assert (offset_index 0 0 (offsets g) = Some 0%nat) as Ei.
    { apply offset_index_spec; [by rewrite (bt_offsets _ _ _ HB)|]. split; [done|].
      rewrite (bt_offsets _ _ _ HB). apply offsets_lookup. by exists b1. }
    assert (offsets g !! 0%nat = Some 0) as Hg.
    { rewrite (bt_offsets _ _ _ HB). apply offsets_lookup. by exists b1. }
    apply offsets_lookup in Hg as (b & Hb & E0). exists b. split_and!; [done|done|]. by rewrite (bt_entry _ _ _ HB).
  - intros Hov. rewrite (bt_overlap _ _ _ HB) in Hov.
    assert (forall b1 o, b1 ∈ Blocks g1 -> o ∈ targets b1 -> o < Length -> starts_at (Blocks g1) o) as Hst.
    { intros b1 o Hb Ho Hlt. apply (sn_exact _ _ Hsc b1); [done|done|done|done|lia]. }
    split.
    + rewrite (bt_dropped _ _ _ HB). unfold sum_dropped. assert (forall bs, (forall b, b ∈ bs -> b ∈ Blocks g1) ->
        foldr (fun b n => dropped Length (offsets g1) b + n) 0 bs = 0) as H; [|by apply H].
      induction bs as [|b bs IH]; intros Hin; [done|]. cbn. rewrite IH by (intros; apply Hin; by right). rewrite Z.add_0_r.
      unfold dropped. assert (forall os, (forall o, o ∈ os -> o ∈ targets b) -> foldr (fun o n => drops Length (offsets g1) o + n) 0 os = 0) as H; [|by apply H].
      induction os as [|o os IHo]; intros Hos; [done|]. cbn. rewrite IHo by (intros; apply Hos; by right). rewrite Z.add_0_r.
      destruct (Z.ltb_spec o Length) as [Hlt|Hge]; [|unfold drops; by rewrite (proj2 (Z.leb_le Length o))].
      apply (resolved_target g1); [done| |done]. apply (Hst b); [apply Hin; by left|apply Hos; by left|done].
    + intros i b o Hi Ho Hlt. destruct (bt_fields _ _ _ HB i b Hi) as (b1 & H1 & E1 & E2 & E3 & E4 & E5).
      assert (targets b = targets b1) as ET by (by apply targets_same). rewrite ET in Ho.
      destruct (Hst b1 o) as (b2 & Hb2 & E6); [by apply list_elem_of_lookup_2 in H1|done|done|].
      apply list_elem_of_lookup in Hb2 as [j Hj]. assert (offsets g !! j = Some o) as Hg.
      { rewrite (bt_offsets _ _ _ HB). apply offsets_lookup. by exists b2. }
      pose proof Hg as Hg'. apply offsets_lookup in Hg' as (b' & Hb' & E7). exists j, b'. split_and!; [done|done|].
      rewrite (built_targets g1 i b HB Hi). apply elem_of_first_blocks. right. exists o. split; [by rewrite ET|].
      unfold resolve. destruct (Z.leb_spec Length o); [lia|]. apply offset_index_spec; [done|].
      rewrite Nat.sub_0_r, <- (bt_offsets _ _ _ HB). split; [lia|done].
Qed.

Lemma sum_field_exact (f : CfgBlock -> Z) bs acc : (forall b, b ∈ bs -> 0 <= f b) -> 0 <= acc ->
  acc + foldr (fun b n => f b + n) 0 bs < 2 ^ 32 ->
  foldl (fun acc b => w32 (acc + f b)) acc bs = acc + foldr (fun b n => f b + n) 0 bs.
Proof.
  revert acc. induction bs as [|b bs IH]; intros acc Hf H0 Hlt; cbn [foldl foldr] in *; [lia|].
  assert (0 <= foldr (fun b n => f b + n) 0 bs) as Hpos.
  { assert (forall b, b ∈ bs -> 0 <= f b) as Hf' by (intros x Hx; apply Hf; by right). clear -Hf'.
    induction bs as [|x l IHl]; [done|]. cbn. pose proof (Hf' x (list_elem_of_here _ _)).
    assert (0 <= foldr (fun b n => f b + n) 0 l) by (apply IHl; intros y Hy; apply Hf'; by right). lia. }
  pose proof (Hf b (list_elem_of_here _ _)). rewrite w32_small by lia.
  rewrite IH; [lia|intros x Hx; apply Hf; by right|lia|lia].
Qed.

(** Blocks cover no more bytes than lie between the first and the end. *)
Lemma blocks_cover bs o : StronglySorted before bs -> (forall b, b ∈ bs -> o <= Offset b /\ 0 < Size b /\ Offset b + Size b <= Length) ->
  o <= Length -> o + foldr (fun b n => Size b + n) 0 bs <= Length.
Proof.
  intros Hs. revert o. induction Hs as [|b bs _ IH Hx]; intros o Hb Ho; cbn [foldr]; [lia|].
  destruct (Hb b (list_elem_of_here _ _)) as (H1 & H2 & H3). rewrite Forall_forall in Hx.
  assert (Offset b + Size b + foldr (fun b n => Size b + n) 0 bs <= Length); [|lia].
  apply IH; [|done]. intros x Hin. specialize (Hx x Hin). unfold before in Hx.
  destruct (Hb x (list_elem_of_further _ _ _ Hin)) as (_ & ? & ?). done.
Qed.
End Theorems.

(** ** Termination, refusals and totals *)

(** C19: The construction always returns a graph. It refuses exactly the empty range,
    the null pointer and the range above the limit; otherwise the range is
    recorded, and the totals count every block once, without wrapping. *)
Theorem construction_returns Backend Code Length Address : addressable Code Length ->
  exists g, BuildControlFlowGraph Backend Code Length Address = Some g /\
    (Status g = EmptyRange <-> Length = 0) /\
    (Status g = NullCode <-> Length <> 0 /\ Code = None) /\
    (Status g = RangeTooLarge <-> CfgMaxRangeBytes < Length /\ Code <> None) /\
    (Blocks g <> [] -> DecodedBytes g = foldr (fun b n => Size b + n) 0 (Blocks g) /\ DecodedBytes g <= Length).
Proof.
  intros HA. destruct (Build_outcome Backend Code Length Address HA) as (g & E & HO).
  exists g. split; [done|]. split.
  { destruct HO as [st m Hst|C g' HL Hr Hc Hsc E' Hst|C g1 g' HL Hr Hc Hst Hsc HB].
    - inversion Hst; subst; cbn; split; naive_solver lia.
    - rewrite Hst. split; [done|lia].
    - rewrite (bt_status _ _ _ HB). destruct Hst as [-> |[-> | ->]]; split; try done; lia. }
  split.
  { destruct HO as [st m Hst|C g' HL Hr Hc Hsc E' Hst|C g1 g' HL Hr Hc Hst Hsc HB].
    - inversion Hst; subst; cbn; split; naive_solver.
    - rewrite Hst. split; [done|by intros []].
    - rewrite (bt_status _ _ _ HB). destruct Hst as [-> |[-> | ->]]; split; try done; by intros []. }
  split.
  { destruct HO as [st m Hst|C g' HL Hr Hc Hsc E' Hst|C g1 g' HL Hr Hc Hst Hsc HB].
    - inversion Hst; subst; cbn; split; unfold CfgMaxRangeBytes in *; naive_solver lia.
    - rewrite Hst. split; [done|lia].
    - rewrite (bt_status _ _ _ HB). destruct Hst as [-> |[-> | ->]]; split; try done; lia. }
  intros Hne. destruct (outcome_blocks _ _ _ HO) as [_ [?|(C & g1 & HL & Hr & Hsc & HB)]]; [done|].
  destruct (built_extents Length g C g1 HL Hsc HB) as [Hs Hall]. destruct (bt_sums _ _ _ HB) as [-> _].
  assert (0 + foldr (fun b n => Size b + n) 0 (Blocks g) <= Length) as Hcov.
  { apply blocks_cover; [done| |lia]. intros b Hb. destruct (Hall b Hb) as (? & ? & ? & _). done. }
  unfold sum_field. rewrite sum_field_exact; [lia| |done|unfold CfgMaxRangeBytes in Hr; lia].
  intros b Hb. destruct (Hall b Hb) as (_ & ? & _). lia.
Qed.

(** * Control-flow graphs: a concrete decoder and graphs *)

(** ** A decoder for a few x64 instructions *)

Definition rel8 (d : byte) : ZydisDecodedOperand :=
  MkZydisOperand Immediate_ 0 false 0 0 0
    (w64 (if 128 <=? code d then code d - 256 else code d)) true.

Definition sample_decode (c : list byte) : ZyanStatus + ZydisDecodedInstruction :=
  match c with
  | x90 :: _ => inr (MkZydisInstruction 1 0 0 [])
  | xc3 :: _ => inr (MkZydisInstruction 1 1 0 [])
  | xeb :: d :: _ => inr (MkZydisInstruction 2 2 1 [rel8 d])
  | x74 :: d :: _ => inr (MkZydisInstruction 2 3 1 [rel8 d])
  | xe8 :: d :: _ :: _ :: _ :: _ => inr (MkZydisInstruction 5 4 1 [rel8 d])
  | xff :: xe0 :: _ => inr (MkZydisInstruction 2 2 1 [])
  | xcc :: _ => inr (MkZydisInstruction 1 5 0 [])
  | [] => inl ZYDIS_STATUS_NO_MORE_DATA
  | _ => inl ZYDIS_STATUS_DECODING_ERROR
  end.

Definition sample_names (m : Z) : option text :=
  match m with
  | 0 => Some (B "nop") | 1 => Some (B "ret") | 2 => Some (B "jmp")
  | 3 => Some (B "jz") | 4 => Some (B "call") | 5 => Some (B "int3") | _ => None
  end.

Definition sample_backend : DisassemblerBackend := ZydisBackend sample_decode sample_names.

(** [0: jz 4; 2: jmp 0; 4: nop; 5: jz 4; 7: ret] *)
Definition sample_code : list byte := [x74; x02; xeb; xfc; x90; x74; xfd; xc3].

Definition sample_graph : ControlFlowGraph :=
  default EmptyGraph (BuildControlFlowGraph sample_backend (Some sample_code) 8 4096).

Lemma sample_built : BuildControlFlowGraph sample_backend (Some sample_code) 8 4096 = Some sample_graph.
Proof. vm_compute. reflexivity. Qed.

Lemma sample_addressable : addressable (Some sample_code) 8.
Proof. split; [done|]. vm_compute. discriminate. Qed.

(** The graph of the sample: four blocks, five edges, two loops. *)
Example sample_shape :
  map (fun b => (Offset b, Size b)) (Blocks sample_graph) = [(0, 2); (2, 2); (4, 3); (7, 1)] /\
  map (BlockSuccessors sample_graph) (seq 0 4) = [[2%nat; 1%nat]; [0%nat]; [2%nat; 3%nat]; []] /\
  map (BlockPredecessors sample_graph) (seq 0 4) = [[1%nat]; [0%nat]; [0%nat; 2%nat]; [2%nat]] /\
  ComponentOfBlock sample_graph = [2%nat; 2%nat; 1%nat; 0%nat] /\
  ComponentIsLoop sample_graph = [false; true; true] /\ CyclomaticComplexity sample_graph = 3.
Proof. vm_compute. split_and!; reflexivity. Qed.

(** A jump into its own second byte: one overlapping leader, one lost transfer. *)
Definition overlapping_code : list byte := [xeb; xff; x90; xc3].

Example overlapping_shape :
  (fun g => (OverlappingLeaderCount g, DroppedSuccessorCount g, NodeCount g)) <$>
    BuildControlFlowGraph sample_backend (Some overlapping_code) 4 0 = Some (1, 1, 1%nat).
Proof. vm_compute. reflexivity. Qed.

(** ** The theorems at the sample *)

Lemma sample_status : Status sample_graph = StatusOk.
Proof. vm_compute. reflexivity. Qed.

Lemma sample_nonempty : Blocks sample_graph <> [].
Proof. vm_compute. discriminate. Qed.

Lemma construction_returns_witness : exists g,
  BuildControlFlowGraph sample_backend (Some sample_code) 8 4096 = Some g /\ (Status g = EmptyRange <-> 8 = 0).
Proof.
  destruct (construction_returns sample_backend (Some sample_code) 8 4096 sample_addressable) as (g & E & H & _).
  exists g. split; assumption.
Defined.

Lemma blocks_partition_witness : NodeCount sample_graph = length (Blocks sample_graph).
Proof. apply (blocks_partition sample_backend (Some sample_code) 8 4096 sample_graph sample_addressable sample_built). Defined.

Lemma successors_are_transfers_witness : NoDup (BlockSuccessors sample_graph 0).
Proof.
  apply (successors_are_transfers sample_backend (Some sample_code) 8 4096 sample_graph sample_addressable sample_built).
Defined.

Lemma predecessors_are_reversed_witness :
  BlockPredecessors sample_graph 2 = filter (fun i => 2%nat ∈ BlockSuccessors sample_graph i) (seq 0 (NodeCount sample_graph)).
Proof.
  apply (predecessors_are_reversed sample_backend (Some sample_code) 8 4096 sample_graph sample_addressable sample_built 2).
Defined.

Lemma components_are_strong_witness :
  ComponentOfBlock sample_graph !!! 0%nat = ComponentOfBlock sample_graph !!! 1%nat <->
  path sample_graph 0%nat 1%nat /\ path sample_graph 1%nat 0%nat.
Proof.
  destruct (components_are_strong sample_backend (Some sample_code) 8 4096 sample_graph sample_addressable sample_built) as [H _].
  apply H; vm_compute; lia.
Defined.

Lemma complexity_is_exact_witness : 1 <= CyclomaticComplexity sample_graph.
Proof.
  apply (complexity_is_exact sample_backend (Some sample_code) 8 4096 sample_graph sample_addressable sample_built); exact sample_nonempty.
Defined.

Lemma transfers_are_resolved_witness :
  exists b, Blocks sample_graph !! 0%nat = Some b /\ Offset b = 0 /\ EntryBlock sample_graph = Some 0%nat.
Proof.
  apply (transfers_are_resolved sample_backend (Some sample_code) 8 4096 sample_graph sample_addressable sample_built sample_status).
Defined.

Lemma sample_lengths c i : sample_decode c = inr i -> 0 <= z_length i < 256.
Proof.
  unfold sample_decode. intros E. repeat (case_match; try discriminate); injection E as <-; cbn; lia.
Qed.

Lemma ZydisDecodeRange_contiguous_witness : contiguous 0 (ZydisDecodeRange sample_decode sample_code 0).2.
Proof. apply (ZydisDecodeRange_contiguous sample_decode sample_lengths sample_code 0). Defined.
